(* ===== verification/_CoqProject ===== *)
-Q . S2P
Prelude.v
Regexp.v
GoStrings.v
Digest.v
Encoding.v
Json.v
Access.v
BuildModel.v
BuildAttempts.v
BuildSafety.v
ReleaseProjections.v
BuildSources.v
BuildSourceSafety.v
BuildDeliveries.v
BuildStore.v
BuildStoreSafety.v
Effects.v
Versions.v
Releases.v
ReleaseSafety.v
GitHubState.v
GitHubSetup.v
GitHubSetupSafety.v
GitHubWebhook.v
WebhookProcessing.v
WebhookSafety.v
RegistryModel.v
RegistryGraph.v
RegistryLifecycle.v
RegistryFacts.v
RegistrySafety.v
RegistryDeterminism.v
Publications.v
PublicationService.v
PublicationSafety.v
ControlModel.v
ControlAccess.v
ControlIdentity.v
ControlAutomation.v
ControlResources.v
ControlGrants.v
ControlSteps.v
ControlFacts.v
ControlInvariants.v
ControlSafety.v
ControlTenancy.v
ControlSessions.v
ControlOperations.v
ControlQueue.v
ControlWork.v
ControlExamples.v
Workload.v
WorkloadFacts.v
JsonValues.v
JsonEncoding.v
AppConfig.v
AppConfigFacts.v
AppConfigSafety.v
AutoDeployConfig.v
AutoDeployConfigSafety.v
AutoDeploy.v
AutoDeployService.v
AutoDeployPolicyFacts.v
AutoDeployController.v
AutoDeployControllerFacts.v
AutoDeployExamples.v
Variables.v
VariableCompiler.v
VariableFacts.v
GitProjection.v
GitProjectionWrites.v
GitProjectionStore.v
GitProjectionFacts.v
GitProjectionWriteFacts.v
GitProjectionPaths.v
GitProjectionWorkers.v
GitProjectionTags.v
GitProjectionWorkerFacts.v
GitProjectionExamples.v
BuildPromotion.v
