(* ===== verification/Prelude.v ===== *)
(** Kuberploy: a verification library for its control plane.

    Kuberploy is a platform that builds, publishes and deploys applications on
    Kubernetes.  Its Go code is a control plane (API and workers) around
    stores, queues and state machines; this library models those and proves
    what they promise.  Paths below are under [src/internal/].

    * How the parts fit together

    A user signs in, founds teams and projects and is granted roles: the
    control-plane store ([store/memory]) decides with the access policy
    ([access]) who may do what.  A GitHub App is installed through a signed
    setup flow ([githubapp/state.go], [builds/setup.go]); its webhooks are
    verified and accepted once ([githubapp/webhook.go], [builds/webhook.go]) and
    become build attempts ([builds/memory.go]), whose successes are projected
    into releases ([builds/memory_release_projection.go]) and retained or
    cleaned up in the registry ([registry/lifecycle.go]).  A deployment is a Git
    write: an operation in the work queue of the store, run by a worker under a
    lease, and published directly or through a pull request
    ([gitpublication]).  The write is planned from the projection of the
    repository, an index of its head that readers see, and made by the writer
    under a reservation of its path; a coordinator keeps the projection in step
    with the head ([gitprojection]).  What it writes is a document of desired state
    ([appconfig]), edited under locked fields, whose workload is validated
    ([domain/workload.go]) and whose environment is compiled from the variables
    of its project, its environment and its own ([variables],
    [variablecompiler]).  A build that succeeded is promoted by a user
    ([buildpromotion]) or deployed by a policy, which pins the intent of the
    document it was made from ([autodeploy], [appconfig/autodeploy.go]).  The
    platform itself is updated from verified releases ([releases]).

    * The files

    Foundations.  Prelude: results, time, 64-bit integers, sorting, Go's map
    order, tactics and generic lemmas.  Regexp, GoStrings, Digest, Encoding,
    Effects: what the source uses of Go's standard library (regular expressions
    by derivatives, strings, SHA-256, HMAC and base64, methods that keep their
    writes when they fail).  Json: [validateSingleJSON].

    Access: [access/policy.go].

    Control plane.  ControlModel: the state ([Store] of
    [store/memory/store.go]).  ControlAccess ([access.go]: bindings, targets,
    [authorizeLocked], filtered reads), ControlIdentity (bootstrap, sessions,
    invitations, users, teams), ControlAutomation (service accounts, tokens,
    [automation/policy.go]), ControlResources (projects, environments,
    applications), ControlGrants (installations, access grants): one definition
    per handler.  ControlSteps: requests, [serve], histories.  ControlFacts:
    what a call changes, map by map.  ControlInvariants, ControlSafety,
    ControlTenancy (and namespaces), ControlSessions (and replays): theorems
    over histories.  ControlOperations: the operations, their outbox and leases.
    ControlQueue: its calls as events that alternate with user requests.
    ControlWork: theorems.  ControlExamples: the theorems applied to concrete
    histories.

    Publication.  Publications ([gitpublication/model.go], [store.go],
    [provider.go]), PublicationService ([service.go], [reconciler.go]),
    PublicationSafety.

    Projection ([gitprojection]).  GitProjection ([model.go]: bindings, heads,
    leases, generations, documents, entity tags), GitProjectionWrites
    ([model.go]: reservations, mutations, plans, write commands),
    GitProjectionStore ([memory.go], [policy.go], [write_command_store.go],
    [runtime_readiness_store.go]: a definition per method),
    GitProjectionWorkers ([indexer.go], [coordinator.go], [controlplane.go],
    [writer.go]).  GitProjectionFacts (histories of calls: leases, what is
    served), GitProjectionWriteFacts (reservations, receipts),
    GitProjectionPaths (the scope of mutations), GitProjectionTags (entity
    tags, plans), GitProjectionWorkerFacts (the runs of the workers),
    GitProjectionExamples.

    Builds.  BuildModel, BuildAttempts, BuildSafety, ReleaseProjections,
    BuildSources, BuildSourceSafety, BuildDeliveries, BuildStore,
    BuildStoreSafety ([builds/model.go], [memory.go], [planner.go]).

    GitHub.  GitHubState, GitHubSetup, GitHubSetupSafety, GitHubWebhook,
    WebhookProcessing, WebhookSafety.

    Registry.  RegistryModel, RegistryGraph, RegistryLifecycle, RegistryFacts,
    RegistrySafety, RegistryDeterminism.

    Releases.  Versions, Releases, ReleaseSafety.

    Application configuration.  Workload, WorkloadFacts
    ([domain/workload.go]); JsonValues, JsonEncoding (the values and the encoder
    of [encoding/json]); AppConfig ([appconfig/config.go]),
    AppConfigFacts, AppConfigSafety; Variables
    ([variables/variables.go]), VariableCompiler
    ([variablecompiler/compiler.go]), VariableFacts.

    Automatic deployment and promotion.  AutoDeployConfig
    ([appconfig/autodeploy.go]), AutoDeployConfigSafety; AutoDeploy
    ([autodeploy/model.go], [store/memory/autodeploy.go]), AutoDeployService
    ([autodeploy/policy.go]), AutoDeployPolicyFacts;
    AutoDeployController ([autodeploy/controller.go]: the calls of a run, with
    the environment's answers), AutoDeployControllerFacts; AutoDeployExamples;
    BuildPromotion ([buildpromotion]).

    * How the model reads

    A handler is a function of the state, the arguments and, where it draws
    identifiers or reads the clock, a call that holds them.  It returns an
    error of its package's sentinel errors, or the new state with its result;
    in the memory stores every early return precedes the first write, so an
    error leaves the state as it was (where it does not, Effects keeps the
    writes).  A mutex makes a handler atomic, so that concurrency is
    interleaving: histories and step relations quantify over every order of
    calls; a worker outside the mutex is a sequence of calls, and before each of
    them others may have called the store ([GitProjectionWorkers.Surroundings],
    the answers of the publication's service and of the controller).  Strings
    are byte strings; times are nanoseconds; 64-bit counters
    wrap ([i64]); maps are finite maps and [range] is any permutation
    ([MapOrder]), so that a theorem holds for every order Go may choose.

    * What the theorems show

    - Authorization: [Access.CanManageGrant_no_escalation];
      [ControlTenancy.authorize_contract] (the forbidden/not-found contract of
      ARCHITECTURE.md), [ControlTenancy.project_isolation],
      [ControlSafety.bootstrap_admin_only].
    - Invariants of stores in every history: [ControlSafety.control_store_invariant],
      [BuildStoreSafety.build_store_invariant],
      [BuildSourceSafety.sources_invariant].
    - Revocation: [ControlSessions.deleted_user_locked_out],
      [ControlSessions.revoked_token_final],
      [ControlSessions.gained_binding_signs_out].
    - At most once: [ControlSessions.performed_once],
      [BuildStore.delivery_accepted_once], [WebhookSafety.accept_once],
      [GitHubSetupSafety.setup_state_once],
      [PublicationSafety.one_pull_request].
    - Leases, order and recovery: [ControlWork.operation_lease_excludes],
      [ControlWork.git_writes_serial], [ControlWork.crashed_work_resumed],
      [ControlWork.completion_contract], [ControlWork.outbox_replayed],
      [BuildSafety.lease_exclusive], [BuildSafety.builder_capacity],
      [ReleaseProjections.projection_fencing].
    - Protected publication: the service refines the store, under interference
      by other workers ([PublicationSafety.service_refines_store]), and a
      desired revision is vouched for and final
      ([PublicationSafety.published_revision_final]).
    - Registry cleanup: nothing in use is deleted, nothing it needs, and the
      plan does not depend on map order (RegistrySafety, RegistryDeterminism).
    - Authenticity and round trips: GitHubState, GitHubSetupSafety,
      WebhookSafety, ReleaseSafety, Versions, Json.
    - Configuration: an edit keeps every locked field as long as the comparison
      records all of its changes ([AppConfigSafety.locked_fields_kept]; a patch
      is RFC 6902's, [AppConfigFacts.patch_lens]); an accepted workload stays
      within its application ([WorkloadFacts.workload_confined]).
    - Variables: a document holds what it says ([VariableFacts.variables_parsed]),
      the effective variables are those of a reference definition by layers
      ([VariableFacts.effective_precedence]), and they are the environment that
      is compiled, with no secret but the application's own
      ([VariableFacts.compiled_environment]).
    - Automatic deployment: the pinned intent decides what is deployed, and of
      it only the image changes ([AutoDeployPolicyFacts.pinned_intent_gates],
      [AutoDeployConfigSafety.image_only_deployment],
      [AutoDeployConfigSafety.template_canonical]); policies are histories
      ([AutoDeployPolicyFacts.policy_history]); whatever is answered, and in
      whatever order, a run of the controller is fenced and submits what is
      vouched for ([AutoDeployControllerFacts.reconcile_fenced],
      [AutoDeployControllerFacts.submission_vouched]).
    - Promotion: [BuildPromotion.promotion_entitled].
    - Projection: readers see whole generations
      ([GitProjectionFacts.projection_atomic]); a lease fences
      ([GitProjectionFacts.projection_lease_fences]), a reservation excludes
      ([GitProjectionWriteFacts.reservation_exclusive]), a receipt is final
      ([GitProjectionWriteFacts.write_receipt_final]); a mutation stays in the
      scope of its binding ([GitProjectionPaths.mutations_confined]); the entity
      tag is exact, so that a plan loses no update
      ([GitProjectionTags.bundle_etag_exact], [GitProjectionTags.no_lost_update]);
      what is served is what Git has
      ([GitProjectionWorkerFacts.index_serves_commit]); what the coordinator and
      the writer answer is recorded
      ([GitProjectionWorkerFacts.reconciliation_recorded],
      [GitProjectionWorkerFacts.write_result_durable]).
    - Defects: [ControlTenancy.namespace_grant_outlives_environment],
      [AppConfigSafety.locked_change_hidden], [ReleaseSafety.cache_trusted],
      [GitProjectionWorkerFacts.large_commit_refused].

    * Assumptions

    Parameters stand for code outside the source, and for [encoding/json]:
    [EventJSON], [StateJSON], [WebhookJSON] and [ReleaseJSON] (with the laws
    a section names), [HTTPClient], the [Provider] of publications, the GitHub
    provider and the catalogue of installations of the setup and webhook flows,
    the YAML, JSON and schema libraries of the configuration ([Libraries] with
    [LibraryLaws], [JSONDecoder] with [JSONLaws], [YAMLDecoder]), the catalogues
    of policies and promotions ([PolicyCatalog], [PromotionCatalogs]), what the
    controller of deployments calls ([Answers]), the provider of heads, the
    repositories and the other workers of the projection ([Surroundings],
    [GitReader], [GitWriter], [DeploymentCatalog]), clocks, random bytes and
    secrets.  Identifiers ([id.New]) are random UUIDs:
    histories assume them non-empty and never drawn twice ([ControlSteps.fresh]).
    No property of SHA-256 or HMAC is assumed unless a theorem names it.
    [to_lower], [trim_space] and [equal_fold] are exact for ASCII and for the
    special cases their comments list, [strings.Fields] for ASCII.  The jitter
    of the coordinator is computed in IEEE 754 doubles, rounded after every
    operation as on amd64.  Of [url.Parse] only the one check of
    pull-request addresses is modelled, by the set of texts it accepts; other
    URLs are flags.

    * Fuel

    Recursion that is not structural has fuel, and a lemma or a theorem says
    that it suffices: the cycle check one more than the number of nodes;
    reachability the length of the queue and the number of edges; the depth of
    a manifest one more than the number of parents; a component of a repository
    name one more than its length (every round consumes a byte); JSON twice the
    number of tokens and two.

    * Not modelled

    The PostgreSQL stores (their behaviour is SQL's; the memory stores are their
    parity implementations), and with them the store of the runs of automatic
    deployments, which has no other, and those of secrets and certificates; the HTTP layer, Kubernetes clients and
    controllers, Valkey clients, processes of the builder, the GitHub HTTP
    client, the web UI.  Of the control-plane store, the handlers that accept,
    stop and clone deployments and those of registry administration and DNS, so
    that what ControlWork assumes of a queue is a hypothesis and not yet an
    invariant.  Of the Git projection, the mirrors and the Git processes
    ([repository.go]), the branch of [PublishOperation] that goes through a pull
    request, the wake-up by webhooks and the configuration of the process.  The worker between the projection queue and the
    registry's tables ([builds/release_projection.go]).  The middleware policy,
    which is a parameter of the configuration. *)

From stdpp Require Export base gmap strings list sorting.
From Stdlib Require Export ZArith Lia.
From Stdlib Require Import Ascii.

Set Default Goal Selector "!".

(** * The fallible code: results and errors

    A Go function that returns [(T, error)] is a [res E T], where [E] lists
    the sentinel errors its package declares.  [let*] is the idiom
    [if err != nil { return err }]. *)

Inductive res (E A : Type) : Type :=
| Ok (a : A)
| Err (e : E).
Arguments Ok {E A} a.
Arguments Err {E A} e.

Definition res_bind {E A B} (m : res E A) (k : A → res E B) : res E B :=
  match m with Ok a => k a | Err e => Err e end.

Declare Scope res_scope.
Delimit Scope res_scope with res.
Notation "'let*' x ':=' m 'in' k" := (res_bind m (fun x => k))
  (at level 10, x name, m at level 100, k at level 200) : res_scope.
Notation "'guard!' b 'else' e 'in' k" := (if b then k else Err e)
  (at level 10, b at level 100, e at level 100, k at level 200) : res_scope.
Open Scope res_scope.

Definition is_ok {E A} (m : res E A) : bool :=
  match m with Ok _ => true | Err _ => false end.

Lemma res_bind_ok {E A B} (m : res E A) (k : A → res E B) b :
  res_bind m k = Ok b ↔ ∃ a, m = Ok a ∧ k a = Ok b.
Proof.
  destruct m; simpl; split; [eauto | by intros (? & [= ->] & ?) | done | by intros (? & ? & ?)].
Qed.

Lemma guard_ok {E A} (b : bool) (e : E) (k : res E A) a :
  (if b then k else Err e) = Ok a ↔ b = true ∧ k = Ok a.
Proof. destruct b; split; [done | by intros [? ?] | done | by intros [? ?]]. Qed.

(** * Time

    A [time.Time] is its instant, in nanoseconds since Go's zero time; [UTC]
    changes the location and not the instant, so it is the identity here.  A
    [time.Duration] is its number of nanoseconds. *)

Abbreviation Time := Z (only parsing).
Abbreviation Duration := Z (only parsing).

Definition zero_time : Time := 0%Z.
Definition is_zero_time (t : Time) : bool := (t =? zero_time)%Z.

Definition millisecond : Duration := 1000000%Z.
Definition second : Duration := (1000 * millisecond)%Z.
Definition minute : Duration := (60 * second)%Z.
Definition hour : Duration := (60 * minute)%Z.

(** [Sub] saturates. *)
Definition time_sub (a b : Time) : Duration := Z.max (- 2 ^ 63) (Z.min (2 ^ 63 - 1) (a - b))%Z.

(** * Machine integers: Go's [int64] (and [int] on the 64-bit targets) *)

Definition i64 (z : Z) : Z := ((z + 2 ^ 63) mod 2 ^ 64 - 2 ^ 63)%Z.
Definition i64_range (z : Z) : Prop := (- 2 ^ 63 ≤ z < 2 ^ 63)%Z.

Lemma i64_small z : i64_range z → i64 z = z.
Proof. unfold i64_range, i64. intros H. rewrite Z.mod_small; lia. Qed.

Lemma i64_in_range z : i64_range (i64 z).
Proof.
  unfold i64_range, i64.
  pose proof (Z.mod_pos_bound (z + 2 ^ 63) (2 ^ 64) ltac:(lia)). lia.
Qed.

(** * Booleans *)

Lemma bool_iff_eq (a b : bool) : (a = true ↔ b = true) → a = b.
Proof. destruct a, b; intuition congruence. Qed.

(** [break_match] destructs the scrutinee of a match or conditional;
    [inv_res] takes an equation between results apart; [bool_prop] turns the
    boolean guards of a handler into propositions. *)

Ltac break_match_hyp H :=
  match type of H with
  | context [match ?x with _ => _ end] => destruct x eqn:?
  end.

Ltac break_match :=
  match goal with
  | |- context [match ?x with _ => _ end] => destruct x eqn:?
  | H : context [match ?x with _ => _ end] |- _ => destruct x eqn:?
  end.

Ltac inv_res :=
  repeat match goal with
  | H : Ok _ = Ok _ |- _ => injection H as H; subst
  | H : Err _ = Err _ |- _ => injection H as H; subst
  | H : Ok _ = Err _ |- _ => discriminate H
  | H : Err _ = Ok _ |- _ => discriminate H
  | H : res_bind ?m _ = Ok _ |- _ =>
      let a := fresh "a" in let Ha := fresh "Ha" in
      apply res_bind_ok in H as (a & Ha & H)
  end.

Ltac bool_prop :=
  repeat match goal with
  | H : _ && _ = true |- _ => apply andb_true_iff in H as [??]
  | H : _ || _ = false |- _ => apply orb_false_iff in H as [??]
  | H : negb _ = true |- _ => apply negb_true_iff in H
  | H : negb _ = false |- _ => apply negb_false_iff in H
  | H : (_ =? _)%Z = true |- _ => apply Z.eqb_eq in H
  | H : (_ =? _)%Z = false |- _ => apply Z.eqb_neq in H
  | H : (_ <? _)%Z = true |- _ => apply Z.ltb_lt in H
  | H : (_ <? _)%Z = false |- _ => apply Z.ltb_ge in H
  | H : (_ <=? _)%Z = true |- _ => apply Z.leb_le in H
  | H : (_ <=? _)%Z = false |- _ => apply Z.leb_gt in H
  | H : String.eqb _ _ = true |- _ => apply String.eqb_eq in H
  | H : String.eqb _ _ = false |- _ => apply String.eqb_neq in H
  | H : bool_decide _ = true |- _ => apply bool_decide_eq_true_1 in H
  | H : bool_decide _ = false |- _ => apply bool_decide_eq_false_1 in H
  end.

(** * Sorting

    [sort_slice less l] is [sort.Slice(l, less)]: an ordered rearrangement of
    [l].  Go's sort is not stable, so a result is determined only as far as
    [less] separates the elements; [sort_slice_unique] is the fact that makes
    an order that separates them deterministic. *)

Section sort_slice.
Context {A : Type} (less : A → A → bool).

Definition sort_le (x y : A) : Prop := less y x = false.

#[export] Instance sort_le_dec : RelDecision sort_le.
Proof. intros x y. unfold sort_le. apply _. Defined.

Definition sort_slice (l : list A) : list A := merge_sort sort_le l.

Lemma sort_slice_permutation l : sort_slice l ≡ₚ l.
Proof. apply merge_sort_Permutation. Qed.

Lemma elem_of_sort_slice x l : x ∈ sort_slice l ↔ x ∈ l.
Proof. by rewrite sort_slice_permutation. Qed.

Lemma length_sort_slice l : length (sort_slice l) = length l.
Proof. by rewrite sort_slice_permutation. Qed.

Hypothesis less_asym : ∀ x y, less x y = true → less y x = false.
Hypothesis le_trans : ∀ x y z, sort_le x y → sort_le y z → sort_le x z.

Lemma sort_slice_sorted l : StronglySorted sort_le (sort_slice l).
Proof.
  assert (Total sort_le) as Htot.
  { intros x y. unfold sort_le. destruct (less y x) eqn:E; eauto. }
  assert (Transitive sort_le) as Htrans by (intros ???; apply le_trans).
  apply (StronglySorted_merge_sort sort_le).
Qed.

(** A list sorted by an order that separates its elements is determined by
    the elements: whatever order they were collected in (Go ranges over a
    map in an unspecified order), the sorted slice is the same. *)
Lemma sort_slice_unique l1 l2 :
  l1 ≡ₚ l2 →
  (∀ x y, x ∈ l1 → y ∈ l1 → sort_le x y → sort_le y x → x = y) →
  sort_slice l1 = sort_slice l2.
Proof.
  intros Hp Hsep.
  apply (StronglySorted_unique_strong sort_le); try apply sort_slice_sorted.
  - intros x y Hx Hy. rewrite elem_of_sort_slice in Hx.
    rewrite elem_of_sort_slice in Hy. rewrite <- Hp in Hy. auto.
  - by rewrite !sort_slice_permutation.
Qed.
End sort_slice.

(** * Strings: Go strings are byte sequences, compared bytewise *)

Open Scope string_scope.

Lemma str_app_nil s : "" +:+ s = s.
Proof. done. Qed.

Lemma str_app_cons c s1 s2 : String c s1 +:+ s2 = String c (s1 +:+ s2).
Proof. done. Qed.

Definition str_less (a b : string) : bool := String.ltb a b.

Lemma str_app_assoc a b c : (a +:+ b) +:+ c = a +:+ (b +:+ c).
Proof. induction a as [|x a IH]; [done|]. by rewrite !str_app_cons, IH. Qed.

Lemma str_app_nil_r s : s +:+ "" = s.
Proof. induction s as [|c s IH]; [done|]. by rewrite str_app_cons, IH. Qed.

Lemma str_less_le a b : str_less b a = false ↔ String.le a b.
Proof.
  unfold str_less, String.ltb, String.le, String.leb.
  rewrite (String.compare_antisym a b).
  destruct (String.compare b a); simpl; split; done.
Qed.

Lemma str_less_asym a b : str_less a b = true → str_less b a = false.
Proof.
  unfold str_less, String.ltb. rewrite (String.compare_antisym a b).
  destruct (String.compare b a); done.
Qed.

Lemma str_less_irrefl a : str_less a a = false.
Proof. destruct (str_less a a) eqn:E; [|done]. by rewrite (str_less_asym _ _ E) in E. Qed.

Lemma str_le_trans a b c :
  str_less b a = false → str_less c b = false → str_less c a = false.
Proof. rewrite !str_less_le. by transitivity b. Qed.

Lemma str_le_antisym a b : str_less a b = false → str_less b a = false → a = b.
Proof. rewrite !str_less_le. intros ??. by apply (anti_symm String.le). Qed.

(** [sort.Strings] *)
Definition sort_strings (l : list string) : list string := sort_slice str_less l.

Lemma sort_strings_sorted l : StronglySorted String.le (sort_strings l).
Proof.
  assert (StronglySorted (sort_le str_less) (sort_strings l)) as H.
  { apply sort_slice_sorted.
    - apply str_less_asym.
    - unfold sort_le. intros x y z ??. by eapply str_le_trans. }
  induction H as [|x l' H IH Hall]; constructor; [done|].
  eapply Forall_impl; [exact Hall|]. intros y. apply str_less_le.
Qed.

Lemma sort_strings_unique l1 l2 : l1 ≡ₚ l2 → sort_strings l1 = sort_strings l2.
Proof.
  intros Hp. apply sort_slice_unique; [| |done|].
  - apply str_less_asym.
  - unfold sort_le. intros x y z ??. by eapply str_le_trans.
  - unfold sort_le. intros ??????. by apply str_le_antisym.
Qed.

(** ** Total orders, for the comparison functions of [sort.Slice]

    A comparison that goes through a tuple of keys is [less (f x) (f y)] for a
    total order [less] on the tuples; [lex] is the order of a pair. *)

Record total_less {A} (less : A → A → bool) : Prop := {
  tl_asym : ∀ x y, less x y = true → less y x = false;
  tl_trans : ∀ x y z, less x y = true → less y z = true → less x z = true;
  tl_total : ∀ x y, less x y = false → less y x = false → x = y;
}.

Definition lex {A B} (eqb : A → A → bool) (lessA : A → A → bool) (lessB : B → B → bool)
    (x y : A * B) : bool :=
  if negb (eqb x.1 y.1) then lessA x.1 y.1 else lessB x.2 y.2.

Lemma lex_total {A B} (eqb lessA : A → A → bool) (lessB : B → B → bool) :
  (∀ x y, eqb x y = true ↔ x = y) → total_less lessA → total_less lessB →
  total_less (lex eqb lessA lessB).
Proof.
  intros Heq [aA tA oA] [aB tB oB].
  assert (∀ x, lessA x x = false) as Hirr.
  { intros x. destruct (lessA x x) eqn:E; [|done]. by rewrite (aA _ _ E) in E. }
  assert (∀ x y, eqb x y = false ↔ x ≠ y) as Hne.
  { intros x y. rewrite <- not_true_iff_false, Heq. done. }
  unfold lex. constructor; intros [x1 x2] [y1 y2]; simpl.
  - destruct (eqb x1 y1) eqn:E; simpl.
    + apply Heq in E as ->. rewrite (proj2 (Heq y1 y1) eq_refl). simpl. apply aB.
    + rewrite (proj2 (Hne y1 x1)); [apply aA|]. apply Hne in E. congruence.
  - intros [z1 z2]. simpl.
    destruct (eqb x1 y1) eqn:E1, (eqb y1 z1) eqn:E2, (eqb x1 z1) eqn:E3; simpl;
      rewrite ?Heq, ?Hne in *; subst; try done; try congruence; try apply tB; try apply tA.
    intros H1 H2. by rewrite (aA _ _ H1) in H2.
  - destruct (eqb x1 y1) eqn:E; simpl.
    + apply Heq in E as ->. rewrite (proj2 (Heq y1 y1) eq_refl). simpl. intros. f_equal. by apply oB.
    + rewrite (proj2 (Hne y1 x1)) by (apply Hne in E; congruence). simpl. intros H1 H2.
      apply Hne in E. by destruct E; apply oA.
Qed.

Lemma Zltb_total : total_less Z.ltb.
Proof.
  constructor; intros x y; try intros z; rewrite ?Z.ltb_lt, ?Z.ltb_ge; lia.
Qed.

Lemma str_less_total : total_less str_less.
Proof.
  constructor; [apply str_less_asym| |intros; by apply str_le_antisym].
  intros x y z Hxy Hyz. destruct (str_less x z) eqn:E; [done|].
  assert (str_less x y = false); [|congruence].
  eapply (str_le_trans y z x); [by apply str_less_asym|done].
Qed.

Lemma reversed_total {A} (less : A → A → bool) : total_less less → total_less (λ x y, less y x).
Proof. intros [a t o]. constructor; eauto. Qed.

(** [true] before [false], as in [if a.expired != b.expired { return a.expired }] *)
Definition true_first (x y : bool) : bool := x && negb y.

Lemma true_first_total : total_less true_first.
Proof. constructor; [by intros [] []|by intros [] [] []|by intros [] []]. Qed.

Section less_on.
Context {A B : Type} (f : A → B) (less : B → B → bool) (Hless : total_less less).

Definition less_on (x y : A) : bool := less (f x) (f y).

Lemma less_on_asym x y : less_on x y = true → less_on y x = false.
Proof. apply (tl_asym _ Hless). Qed.

Lemma less_on_irrefl x : less_on x x = false.
Proof. destruct (less_on x x) eqn:E; [|done]. by rewrite (less_on_asym _ _ E) in E. Qed.

Lemma less_on_le_trans x y z : sort_le less_on x y → sort_le less_on y z → sort_le less_on x z.
Proof.
  unfold sort_le, less_on. intros Hxy Hyz. destruct (less (f z) (f x)) eqn:E; [|done].
  destruct (less (f y) (f z)) eqn:Eyz.
  - by rewrite (tl_trans _ Hless _ _ _ Eyz E) in Hxy.
  - rewrite (tl_total _ Hless _ _ Eyz Hyz) in Hxy. congruence.
Qed.

Lemma less_on_separates x y : sort_le less_on x y → sort_le less_on y x → f x = f y.
Proof. intros. by apply (tl_total _ Hless). Qed.

(** A comparison of the source that agrees with the keys. *)
Context (cmp : A → A → bool) (Hcmp : ∀ x y, cmp x y = less_on x y).

Lemma less_on_sorted l : StronglySorted (sort_le cmp) (sort_slice cmp l).
Proof.
  apply sort_slice_sorted.
  - intros x y. rewrite !Hcmp. apply less_on_asym.
  - intros x y z. unfold sort_le. rewrite !Hcmp. apply less_on_le_trans.
Qed.

(** A slice sorted by keys that tell its elements apart is determined by its
    elements. *)
Lemma less_on_unique l1 l2 :
  l1 ≡ₚ l2 → (∀ x y, x ∈ l1 → y ∈ l1 → f x = f y → x = y) →
  sort_slice cmp l1 = sort_slice cmp l2.
Proof.
  intros Hp Hinj. apply sort_slice_unique; [| |done|].
  - intros x y. rewrite !Hcmp. apply less_on_asym.
  - intros x y z. unfold sort_le. rewrite !Hcmp. apply less_on_le_trans.
  - intros x y Hx Hy. unfold sort_le. rewrite !Hcmp. intros.
    apply Hinj; [done|done|]. by apply less_on_separates.
Qed.

Lemma less_on_head l x xs : sort_slice cmp l = x :: xs → ∀ y, y ∈ l → cmp y x = false.
Proof.
  intros Hs y Hy. rewrite <- (elem_of_sort_slice cmp), Hs in Hy.
  pose proof (less_on_sorted l) as Hso. rewrite Hs in Hso.
  apply StronglySorted_inv in Hso as [_ Hall].
  apply elem_of_cons in Hy as [->|Hy]; [by rewrite Hcmp, less_on_irrefl|].
  rewrite Forall_forall in Hall. by apply Hall.
Qed.
End less_on.

Lemma StronglySorted_lookup {A} (R : A → A → Prop) l i j x y :
  StronglySorted R l → l !! i = Some x → l !! j = Some y → (i < j)%nat → R x y.
Proof.
  intros Hs. revert i j. induction Hs as [|z l Hs IH Hall]; intros i j; [done|].
  destruct i, j; simpl; intros Hx Hy Hij; try lia.
  - injection Hx as ->. rewrite Forall_forall in Hall.
    apply Hall. by eapply list_elem_of_lookup_2.
  - eapply IH; [done..|lia].
Qed.

(** A loop whose rounds commute does not depend on the order of the rounds. *)
Lemma foldl_permutation {A B} (f : B → A → B) l1 l2 :
  (∀ b x y, f (f b x) y = f (f b y) x) → l1 ≡ₚ l2 → ∀ b, foldl f b l1 = foldl f b l2.
Proof.
  intros Hf Hp. induction Hp as [|x l1 l2 _ IH|x y l|l1 l2 l3 _ IH1 _ IH2]; intros b; simpl.
  - done.
  - apply IH.
  - by rewrite Hf.
  - by rewrite IH1.
Qed.

Lemma forallb_permutation {A} (f : A → bool) l1 l2 : l1 ≡ₚ l2 → forallb f l1 = forallb f l2.
Proof.
  induction 1 as [|x l1 l2 _ IH|x y l|l1 l2 l3 _ IH1 _ IH2]; simpl; [done|by rewrite IH| |congruence].
  by rewrite !andb_assoc, (andb_comm (f x)).
Qed.

(** * Lists as Go slices used as sets *)

Definition str_in (x : string) (l : list string) : bool := existsb (String.eqb x) l.

Lemma existsb_elem_of {A} (f : A → bool) l :
  existsb f l = true ↔ ∃ x, x ∈ l ∧ f x = true.
Proof. rewrite existsb_exists. by setoid_rewrite list_elem_of_In. Qed.

Lemma forallb_elem_of {A} (f : A → bool) l :
  forallb f l = true ↔ ∀ x, x ∈ l → f x = true.
Proof. rewrite forallb_forall. by setoid_rewrite list_elem_of_In. Qed.

Lemma str_in_spec x l : str_in x l = true ↔ x ∈ l.
Proof.
  unfold str_in. rewrite existsb_elem_of. split.
  - by intros (y & Hy & ->%String.eqb_eq).
  - intros H. exists x. by rewrite String.eqb_refl.
Qed.

Definition nul : string := String "000"%char "".

(** A Go [switch] over string constants: the first case that is equal. *)
Fixpoint switch {A} (x : string) (cases : list (string * A)) (default : A) : A :=
  match cases with
  | [] => default
  | (c, a) :: cases' => if String.eqb x c then a else switch x cases' default
  end.

(** * Maps written as literals: the keys of a lookup that succeeds *)

Ltac map_literal H :=
  repeat (apply lookup_insert_Some in H as [[<- <-]|[_ H]]);
  try (rewrite lookup_empty in H; discriminate H).

(** * Ranging over a map *)

Lemma elem_of_list_filter {A} (f : A → bool) l x :
  x ∈ List.filter f l ↔ x ∈ l ∧ f x = true.
Proof. by rewrite !list_elem_of_In, filter_In. Qed.

Lemma NoDup_filter_keys {K V} (f : K * V → bool) (l : list (K * V)) :
  NoDup l.*1 → NoDup (List.filter f l).*1.
Proof.
  induction l as [|[k v] l IH]; simpl; [done|]. intros [Hn Hd]%NoDup_cons.
  destruct (f (k, v)); [|by apply IH]. simpl. apply NoDup_cons. split; [|by apply IH].
  intros H. apply Hn. apply list_elem_of_fmap in H as ([k' v'] & Hk & H).
  apply elem_of_list_filter in H as [H _]. apply list_elem_of_fmap. by exists (k', v').
Qed.

(** ** The order of a [range] over a map

    Go ranges over a map in an unspecified order.  [MapOrder] is that order: a
    permutation of the entries, which may differ from loop to loop ([site]).
    What is proved for every [MapOrder] holds whatever order the runtime
    chooses. *)

Class MapOrder : Type := {
  range : ∀ {A : Type}, nat → gmap string A → list (string * A);
  range_perm : ∀ {A : Type} (site : nat) (m : gmap string A), range site m ≡ₚ map_to_list m;
}.

(** Two orders, to evaluate with and to show that the order can matter. *)
#[export, refine] Instance forward_order : MapOrder := {| range A site m := map_to_list m |}.
Proof. done. Defined.

#[refine] Definition reverse_order : MapOrder := {| range A site m := reverse (map_to_list m) |}.
Proof. intros. by rewrite reverse_Permutation. Defined.

Lemma range_keys `{MapOrder} {A} site (m : gmap string A) k : k ∈ (range site m).*1 ↔ k ∈ dom m.
Proof.
  rewrite range_perm, elem_of_dom. split.
  - intros ([k' a] & -> & Hk)%list_elem_of_fmap. apply elem_of_map_to_list in Hk. by exists a.
  - intros [a Ha]. apply list_elem_of_fmap. exists (k, a). by rewrite elem_of_map_to_list.
Qed.

Lemma elem_of_range `{MapOrder} {A} site (m : gmap string A) k a :
  (k, a) ∈ range site m ↔ m !! k = Some a.
Proof. by rewrite range_perm, elem_of_map_to_list. Qed.

Lemma range_NoDup `{MapOrder} {A} site (m : gmap string A) : NoDup (range site m).*1.
Proof. rewrite range_perm. apply NoDup_fst_map_to_list. Qed.

Lemma range_order (o1 o2 : MapOrder) {A} s1 s2 (m : gmap string A) :
  range (MapOrder := o1) s1 m ≡ₚ range (MapOrder := o2) s2 m.
Proof. by rewrite !range_perm. Qed.
