(* ===== verification/Regexp.v ===== *)
(** The regular expressions of the source ([regexp.MustCompile]).

    Every pattern of the modelled code is anchored at both ends, so it is a
    language of whole byte strings.  Patterns are transcribed as terms of
    [regex], [re_match] decides them by derivatives, and [re_match_spec] shows
    that the decision agrees with the language [re_lang] of the pattern.  A
    class matches bytes; the negated classes of the source exclude only ASCII
    characters, for which matching bytes and matching runes agree. *)

From S2P Require Import Prelude.
From Stdlib Require Import Ascii.

(** * Byte classes *)

Definition byte_code (c : ascii) : N := N_of_ascii c.

Definition in_range (lo hi : ascii) (c : ascii) : bool :=
  (byte_code lo <=? byte_code c)%N && (byte_code c <=? byte_code hi)%N.

Definition is_digit : ascii → bool := in_range "0" "9".
Definition is_lower : ascii → bool := in_range "a" "z".
Definition is_upper : ascii → bool := in_range "A" "Z".
Definition is_lower_hex (c : ascii) : bool := is_digit c || in_range "a" "f" c.
Definition is_one_of (s : string) (c : ascii) : bool :=
  existsb (Ascii.eqb c) (String.list_ascii_of_string s).

(** * Patterns and their languages *)

Inductive regex : Type :=
| RNone
| REps
| RClass (p : ascii → bool)
| RSeq (r1 r2 : regex)
| RAlt (r1 r2 : regex)
| RStar (r : regex).

Inductive re_lang : regex → string → Prop :=
| lang_eps : re_lang REps ""
| lang_class p c : p c = true → re_lang (RClass p) (String c "")
| lang_seq r1 r2 s1 s2 :
    re_lang r1 s1 → re_lang r2 s2 → re_lang (RSeq r1 r2) (s1 +:+ s2)
| lang_alt_l r1 r2 s : re_lang r1 s → re_lang (RAlt r1 r2) s
| lang_alt_r r1 r2 s : re_lang r2 s → re_lang (RAlt r1 r2) s
| lang_star_nil r : re_lang (RStar r) ""
| lang_star_cons r s1 s2 :
    re_lang r s1 → re_lang (RStar r) s2 → re_lang (RStar r) (s1 +:+ s2).

(** Derived forms: a literal, [r?], [r+], [r{n}] and [r{min,max}]. *)

Fixpoint RLit (s : string) : regex :=
  match s with
  | "" => REps
  | String c "" => RClass (Ascii.eqb c)
  | String c s' => RSeq (RClass (Ascii.eqb c)) (RLit s')
  end.

Definition ROpt (r : regex) : regex := RAlt r REps.
Definition RPlus (r : regex) : regex := RSeq r (RStar r).

Fixpoint RTimes (n : nat) (r : regex) : regex :=
  match n with O => REps | S n' => RSeq r (RTimes n' r) end.

Fixpoint RUpTo (n : nat) (r : regex) : regex :=
  match n with O => REps | S n' => ROpt (RSeq r (RUpTo n' r)) end.

Definition RRep (min max : nat) (r : regex) : regex :=
  RSeq (RTimes min r) (RUpTo (max - min) r).

(** * Deciding a pattern by derivatives *)

Fixpoint nullable (r : regex) : bool :=
  match r with
  | RNone => false
  | REps => true
  | RClass _ => false
  | RSeq r1 r2 => nullable r1 && nullable r2
  | RAlt r1 r2 => nullable r1 || nullable r2
  | RStar _ => true
  end.

Definition mk_seq (r1 r2 : regex) : regex :=
  match r1 with
  | RNone => RNone
  | REps => r2
  | _ => RSeq r1 r2
  end.

Definition mk_alt (r1 r2 : regex) : regex :=
  match r1, r2 with
  | RNone, _ => r2
  | _, RNone => r1
  | _, _ => RAlt r1 r2
  end.

Fixpoint deriv (c : ascii) (r : regex) : regex :=
  match r with
  | RNone => RNone
  | REps => RNone
  | RClass p => if p c then REps else RNone
  | RSeq r1 r2 =>
      if nullable r1
      then mk_alt (mk_seq (deriv c r1) r2) (deriv c r2)
      else mk_seq (deriv c r1) r2
  | RAlt r1 r2 => mk_alt (deriv c r1) (deriv c r2)
  | RStar r1 => mk_seq (deriv c r1) (RStar r1)
  end.

Fixpoint re_match (r : regex) (s : string) : bool :=
  match s with
  | "" => nullable r
  | String c s' => re_match (deriv c r) s'
  end.

(** * The decision is right *)

Create HintDb regex.
#[export] Hint Constructors re_lang : regex.

Lemma re_lang_none s : re_lang RNone s ↔ False.
Proof. split; [|done]. inversion 1. Qed.

Lemma re_lang_eps s : re_lang REps s ↔ s = "".
Proof. split; [by inversion 1 | intros ->; constructor]. Qed.

Lemma re_lang_class p s : re_lang (RClass p) s ↔ ∃ c, s = String c "" ∧ p c = true.
Proof.
  split; [inversion 1; subst; eauto | intros (c & -> & H); by constructor].
Qed.

Lemma re_lang_seq r1 r2 s :
  re_lang (RSeq r1 r2) s ↔ ∃ s1 s2, s = s1 +:+ s2 ∧ re_lang r1 s1 ∧ re_lang r2 s2.
Proof.
  split; [inversion 1; subst; eauto | intros (s1 & s2 & -> & ? & ?); by constructor].
Qed.

Lemma re_lang_alt r1 r2 s : re_lang (RAlt r1 r2) s ↔ re_lang r1 s ∨ re_lang r2 s.
Proof. split; [inversion 1; subst; eauto | intros [?|?]; eauto with regex]. Qed.

Lemma mk_seq_lang r1 r2 s : re_lang (mk_seq r1 r2) s ↔ re_lang (RSeq r1 r2) s.
Proof.
  destruct r1; simpl; try done; rewrite re_lang_seq.
  - rewrite re_lang_none. setoid_rewrite re_lang_none.
    split; [done | by intros (? & ? & ? & ? & ?)].
  - setoid_rewrite re_lang_eps. split.
    + intros ?. by exists "", s.
    + by intros (? & ? & -> & -> & ?).
Qed.

Lemma mk_alt_lang r1 r2 s : re_lang (mk_alt r1 r2) s ↔ re_lang (RAlt r1 r2) s.
Proof.
  rewrite re_lang_alt.
  destruct r1, r2; simpl; rewrite ?re_lang_alt, ?re_lang_none; clear; tauto.
Qed.

Lemma nullable_spec r : nullable r = true ↔ re_lang r "".
Proof.
  induction r; simpl.
  - by rewrite re_lang_none.
  - by rewrite re_lang_eps.
  - rewrite re_lang_class. split; [done | by intros (? & ? & ?)].
  - rewrite andb_true_iff, IHr1, IHr2, re_lang_seq. split.
    + intros [??]. by exists "", "".
    + intros (s1 & s2 & Hs & ? & ?). by destruct s1, s2.
  - by rewrite orb_true_iff, IHr1, IHr2, re_lang_alt.
  - split; [constructor | done].
Qed.

Lemma re_lang_star_cons r c s :
  re_lang (RStar r) (String c s) →
  ∃ s1 s2, s = s1 +:+ s2 ∧ re_lang r (String c s1) ∧ re_lang (RStar r) s2.
Proof.
  intros H. remember (RStar r) as r' eqn:Er. remember (String c s) as s' eqn:Es.
  induction H as [| | | | | |r0 s1 s2 H1 IH1 H2 IH2]; try done.
  injection Er as ->. destruct s1 as [|c1 s1]; rewrite ?str_app_nil, ?str_app_cons in Es.
  - by apply IH2.
  - injection Es as -> <-. by exists s1, s2.
Qed.

Lemma deriv_lang c r : ∀ s, re_lang (deriv c r) s ↔ re_lang r (String c s).
Proof.
  induction r as [| |p|r1 IH1 r2 IH2|r1 IH1 r2 IH2|r IH]; intros s; simpl.
  - by rewrite !re_lang_none.
  - rewrite re_lang_none, re_lang_eps. done.
  - rewrite re_lang_class. destruct (p c) eqn:E.
    + rewrite re_lang_eps. split; [intros ->; by exists c | by intros (? & [= -> ->] & ?)].
    + rewrite re_lang_none. split; [done | by intros (? & [= <- ->] & ?); congruence].
  - assert (re_lang (mk_seq (deriv c r1) r2) s ↔
      ∃ s1 s2, s = s1 +:+ s2 ∧ re_lang r1 (String c s1) ∧ re_lang r2 s2) as Hseq.
    { rewrite mk_seq_lang, re_lang_seq. by setoid_rewrite IH1. }
    rewrite re_lang_seq. destruct (nullable r1) eqn:E.
    + rewrite mk_alt_lang, re_lang_alt, Hseq, IH2. split.
      * intros [(s1 & s2 & -> & ? & ?)|?]; [by exists (String c s1), s2|].
        exists "", (String c s). by rewrite <- nullable_spec.
      * intros ([|c' s1] & s2 & Hs & ? & ?); rewrite ?str_app_nil, ?str_app_cons in Hs.
        -- right. by rewrite Hs.
        -- injection Hs as <- ->. left. by exists s1, s2.
    + rewrite Hseq. split.
      * intros (s1 & s2 & -> & ? & ?). by exists (String c s1), s2.
      * intros ([|c' s1] & s2 & Hs & H1 & ?); rewrite ?str_app_nil, ?str_app_cons in Hs.
        -- apply nullable_spec in H1. congruence.
        -- injection Hs as <- ->. by exists s1, s2.
  - by rewrite mk_alt_lang, !re_lang_alt, IH1, IH2.
  - rewrite mk_seq_lang, re_lang_seq. setoid_rewrite IH. split.
    + intros (s1 & s2 & -> & ? & ?). by apply (lang_star_cons r (String c s1) s2).
    + apply re_lang_star_cons.
Qed.

Theorem re_match_spec r s : re_match r s = true ↔ re_lang r s.
Proof.
  revert r. induction s as [|c s IH]; intros r; simpl.
  - apply nullable_spec.
  - by rewrite IH, deriv_lang.
Qed.

(** ** Fixed-length classes, as in [[0-9a-f]{64}] *)

Lemma re_lang_times n p s :
  re_lang (RTimes n (RClass p)) s ↔
  String.length s = n ∧ Forall (λ c, p c = true) (String.list_ascii_of_string s).
Proof.
  revert s. induction n as [|n IH]; intros s; simpl.
  - rewrite re_lang_eps. destruct s; simpl; [by split|]. split; [done|by intros []].
  - rewrite re_lang_seq. setoid_rewrite re_lang_class. setoid_rewrite IH. split.
    + intros (? & s2 & -> & (c & -> & Hc) & <- & Hall). rewrite str_app_cons, str_app_nil.
      simpl. split; [done|]. by constructor.
    + destruct s as [|c s]; simpl; [by intros []|]. intros [[= Hl] Hall].
      inversion Hall; subst. by exists (String c ""), s; split_and!; [|exists c|..].
Qed.

Lemma re_lang_lit l s : re_lang (RLit l) s ↔ s = l.
Proof.
  revert s. induction l as [|c [|c' l] IH]; intros s.
  - apply re_lang_eps.
  - change (RLit (String c "")) with (RClass (Ascii.eqb c)). rewrite re_lang_class. split.
    + by intros (d & -> & ->%Ascii.eqb_eq).
    + intros ->. exists c. by rewrite Ascii.eqb_refl.
  - change (RLit (String c (String c' l))) with (RSeq (RClass (Ascii.eqb c)) (RLit (String c' l))).
    rewrite re_lang_seq. setoid_rewrite re_lang_class. setoid_rewrite IH. split.
    + by intros (? & ? & -> & (d & -> & ->%Ascii.eqb_eq) & ->).
    + intros ->. exists (String c ""), (String c' l). split_and!; [done| |done].
      exists c. by rewrite Ascii.eqb_refl.
Qed.

(** ** What a pattern says of every string it matches *)

(** Every class of the pattern is included in [q]. *)
Fixpoint re_within (q : ascii → Prop) (r : regex) : Prop :=
  match r with
  | RNone | REps => True
  | RClass p => ∀ c, p c = true → q c
  | RSeq r1 r2 | RAlt r1 r2 => re_within q r1 ∧ re_within q r2
  | RStar r1 => re_within q r1
  end.

Lemma list_ascii_app a b :
  String.list_ascii_of_string (a +:+ b) = (String.list_ascii_of_string a ++ String.list_ascii_of_string b)%list.
Proof.
  induction a as [|c a IH]; [done|]. rewrite str_app_cons. simpl. by rewrite IH.
Qed.

Lemma re_within_spec q r s :
  re_within q r → re_lang r s → Forall q (String.list_ascii_of_string s).
Proof.
  intros Hq Hs. induction Hs; simpl in *; rewrite ?list_ascii_app, ?Forall_app;
    try (by constructor); intuition auto.
Qed.

Lemma re_within_times q n r : re_within q r → re_within q (RTimes n r).
Proof. intros H. induction n; simpl; auto. Qed.

Lemma re_within_upto q n r : re_within q r → re_within q (RUpTo n r).
Proof. intros H. induction n; simpl; auto. Qed.

(** The length of the longest match, when there is one. *)
Fixpoint re_max (r : regex) : option nat :=
  match r with
  | RNone | REps => Some 0%nat
  | RClass _ => Some 1%nat
  | RSeq r1 r2 =>
      match re_max r1, re_max r2 with Some n, Some m => Some (n + m)%nat | _, _ => None end
  | RAlt r1 r2 =>
      match re_max r1, re_max r2 with Some n, Some m => Some (n `max` m)%nat | _, _ => None end
  | RStar _ => None
  end.

Lemma re_max_spec r s n : re_lang r s → re_max r = Some n → (String.length s ≤ n)%nat.
Proof.
  intros Hs. revert n.
  assert (∀ a b, String.length (a +:+ b) = (String.length a + String.length b)%nat) as Happ.
  { induction a as [|c a IH]; [done|]. intros b. rewrite str_app_cons. simpl. by rewrite IH. }
  induction Hs as [|p c Hc|r1 r2 s1 s2 _ IH1 _ IH2|r1 r2 s _ IH|r1 r2 s _ IH| |];
    intros n; simpl; try (by intros [= <-]); try done.
  - destruct (re_max r1) as [n1|]; [|done]. destruct (re_max r2) as [n2|]; [|done]. intros [= <-].
    rewrite Happ. specialize (IH1 _ eq_refl). specialize (IH2 _ eq_refl). lia.
  - destruct (re_max r1) as [n1|]; [|done]. destruct (re_max r2) as [n2|]; [|done]. intros [= <-].
    specialize (IH _ eq_refl). lia.
  - destruct (re_max r1) as [n1|]; [|done]. destruct (re_max r2) as [n2|]; [|done]. intros [= <-].
    specialize (IH _ eq_refl). lia.
Qed.

(** * The patterns the packages share *)

(** [^[0-9a-f]{8}-[0-9a-f]{4}-[1-8][0-9a-f]{3}-[89ab][0-9a-f]{3}-[0-9a-f]{12}$] *)
Definition uuid_re : regex :=
  let hex := RClass is_lower_hex in
  RSeq (RTimes 8 hex) (RSeq (RLit "-") (RSeq (RTimes 4 hex) (RSeq (RLit "-")
    (RSeq (RClass (in_range "1" "8")) (RSeq (RTimes 3 hex) (RSeq (RLit "-")
    (RSeq (RClass (is_one_of "89ab")) (RSeq (RTimes 3 hex) (RSeq (RLit "-")
    (RTimes 12 hex)))))))))).

(** [^sha256:[0-9a-f]{64}$] *)
Definition digest_re : regex := RSeq (RLit "sha256:") (RTimes 64 (RClass is_lower_hex)).

(** [^[0-9a-f]{40}$] *)
Definition commit_re : regex := RTimes 40 (RClass is_lower_hex).

Example uuid_re_accepts :
  re_match uuid_re "11111111-1111-4111-8111-111111111111" = true.
Proof. vm_compute. reflexivity. Qed.

Example uuid_re_rejects_variant :
  re_match uuid_re "11111111-1111-4111-c111-111111111111" = false.
Proof. vm_compute. reflexivity. Qed.
