(* ===== verification/GoStrings.v ===== *)
(** The functions of Go's [strings], [strconv] and [slices] packages that the
    modelled code calls, on byte strings. *)

From S2P Require Import Prelude Regexp.
From Stdlib Require Import Ascii.
From stdpp Require Import pretty.

Open Scope Z_scope.

(** [len(s)] *)
Definition str_len (s : string) : Z := Z.of_nat (String.length s).

(** [strings.HasPrefix(s, p)] *)
Definition has_prefix (p s : string) : bool := String.prefix p s.

Fixpoint str_drop (n : nat) (s : string) : string :=
  match n, s with
  | O, _ => s
  | S n', String _ s' => str_drop n' s'
  | S _, "" => ""
  end.

Fixpoint str_take (n : nat) (s : string) : string :=
  match n, s with
  | O, _ => ""
  | S n', String c s' => String c (str_take n' s')
  | S _, "" => ""
  end.

(** [strings.TrimPrefix(s, p)] *)
Definition trim_prefix (p s : string) : string :=
  if has_prefix p s then str_drop (String.length p) s else s.

(** [strings.HasSuffix(s, p)] *)
Definition has_suffix (p s : string) : bool :=
  (String.length p <=? String.length s)%nat &&
  String.eqb (str_drop (String.length s - String.length p) s) p.

(** [strings.TrimSuffix(s, p)] *)
Definition trim_suffix (p s : string) : string :=
  if has_suffix p s then str_take (String.length s - String.length p) s else s.

(** [strings.Contains(s, p)] *)
Fixpoint str_contains (p s : string) : bool :=
  has_prefix p s ||
  match s with "" => false | String _ s' => str_contains p s' end.

(** [strings.ContainsAny(s, chars)] *)
Definition contains_any (chars s : string) : bool :=
  existsb (is_one_of chars) (String.list_ascii_of_string s).

(** [strings.Split(s, sep)[0]]: the part of [s] before the first [sep]. *)
Fixpoint split_first (sep s : string) : string :=
  if has_prefix sep s then ""
  else match s with "" => "" | String c s' => String c (split_first sep s') end.

(** [strings.Split(s, c)] for a separator of one byte. *)
Fixpoint split_byte (c : ascii) (s : string) : list string :=
  match s with
  | "" => [""]
  | String a s' =>
      if Ascii.eqb a c then "" :: split_byte c s'
      else match split_byte c s' with
           | [] => [String a ""]
           | w :: ws => String a w :: ws
           end
  end.

(** [strings.Count(s, c)] for one byte [c]. *)
Fixpoint count_byte (c : ascii) (s : string) : Z :=
  match s with
  | "" => 0
  | String a s' => (if Ascii.eqb a c then 1 else 0) + count_byte c s'
  end.

(** [strings.SplitN(s, c, 2)] for one byte [c] that occurs in [s]. *)
Fixpoint split_once (c : ascii) (s : string) : string * string :=
  match s with
  | "" => ("", "")
  | String a s' =>
      if Ascii.eqb a c then ("", s')
      else let (l, r) := split_once c s' in (String a l, r)
  end.

(** [strings.ReplaceAll(s, c, r)] for one byte [c]. *)
Fixpoint replace_byte (c : ascii) (r s : string) : string :=
  match s with
  | "" => ""
  | String a s' => (if Ascii.eqb a c then r else String a "") +:+ replace_byte c r s'
  end.

(** [strings.Join(l, sep)] *)
Fixpoint str_join (sep : string) (l : list string) : string :=
  match l with
  | [] => ""
  | [w] => w
  | w :: ws => w +:+ sep +:+ str_join sep ws
  end.

(** [strings.Trim(s, cutset) == ""]: every byte of [s] is in the cut set. *)
Definition only_bytes (chars s : string) : bool :=
  forallb (is_one_of chars) (String.list_ascii_of_string s).

Definition lower_byte (c : ascii) : ascii :=
  if is_upper c then ascii_of_N (N_of_ascii c + 32) else c.

(** [strings.ToLower], for comparisons with ASCII text: the letters that become
    ASCII are those of ASCII, the Kelvin sign (E2 84 AA) and the dotted capital
    I (C4 B0); other characters are left as they are. *)
Fixpoint to_lower (s : string) : string :=
  match s with
  | "" => ""
  | String "226" (String "132" (String "170" s')) => String "k" (to_lower s')
  | String "196" (String "176" s') => String "i" (to_lower s')
  | String c s' => String (lower_byte c) (to_lower s')
  end.

(** [strings.EqualFold], for comparisons with ASCII text: beside the letters of
    ASCII, the Kelvin sign folds to k and the long s (C5 BF) to s. *)
Fixpoint fold_case (s : string) : string :=
  match s with
  | "" => ""
  | String "226" (String "132" (String "170" s')) => String "k" (fold_case s')
  | String "197" (String "191" s') => String "s" (fold_case s')
  | String c s' => String (lower_byte c) (fold_case s')
  end.

Definition equal_fold (a b : string) : bool := String.eqb (fold_case a) (fold_case b).

(** [utf8.ValidString] *)
Definition utf8_tail (c : ascii) : bool := in_range "128" "191" c.

Fixpoint valid_utf8 (s : string) : bool :=
  match s with
  | "" => true
  | String a r1 =>
      if in_range "000" "127" a then valid_utf8 r1
      else match r1 with
      | "" => false
      | String b r2 =>
          if in_range "194" "223" a then utf8_tail b && valid_utf8 r2
          else match r2 with
          | "" => false
          | String c r3 =>
              if in_range "224" "239" a
              then (if Ascii.eqb a "224" then in_range "160" "191" b
                    else if Ascii.eqb a "237" then in_range "128" "159" b else utf8_tail b) &&
                   utf8_tail c && valid_utf8 r3
              else match r3 with
              | "" => false
              | String d r4 =>
                  in_range "240" "244" a &&
                  (if Ascii.eqb a "240" then in_range "144" "191" b
                   else if Ascii.eqb a "244" then in_range "128" "143" b else utf8_tail b) &&
                  utf8_tail c && utf8_tail d && valid_utf8 r4
              end
          end
      end
  end.

(** White space trimmed by [strings.TrimSpace], for ASCII text. *)
Definition is_space (c : ascii) : bool :=
  existsb (N.eqb (N_of_ascii c)) [9; 10; 11; 12; 13; 32]%N.

Fixpoint trim_left_space (s : string) : string :=
  match s with
  | "" => ""
  | String c s' => if is_space c then trim_left_space s' else s
  end.

Fixpoint trim_right_space (s : string) : string :=
  match s with
  | "" => ""
  | String c s' =>
      match trim_right_space s' with
      | "" => if is_space c then "" else String c ""
      | t => String c t
      end
  end.

Definition trim_space (s : string) : string := trim_right_space (trim_left_space s).

(** [strconv.FormatInt(z, 10)] *)
Definition format_int (z : Z) : string := pretty z.

(** [strconv.ParseUint(s, 10, 64)] and [strconv.ParseInt(s, 10, 64)]: [None] is
    a syntax or a range error. *)
Fixpoint digits_value (acc : Z) (s : string) : option Z :=
  match s with
  | "" => Some acc
  | String c s' =>
      if is_digit c then digits_value (acc * 10 + (Z.of_N (N_of_ascii c) - 48)) s' else None
  end.

Definition parse_digits (limit : Z) (s : string) : option Z :=
  match s with
  | "" => None
  | _ => match digits_value 0 s with
         | Some n => if n <=? limit then Some n else None
         | None => None
         end
  end.

Definition parse_uint (s : string) : option Z := parse_digits (2 ^ 64 - 1) s.

Definition parse_int (s : string) : option Z :=
  match s with
  | String "-" s' => Z.opp <$> parse_digits (2 ^ 63) s'
  | String "+" s' => parse_digits (2 ^ 63 - 1) s'
  | _ => parse_digits (2 ^ 63 - 1) s
  end.

(** [slices.IsSorted] on strings *)
Fixpoint strs_sorted (l : list string) : bool :=
  match l with
  | x :: ((y :: _) as l') => negb (str_less y x) && strs_sorted l'
  | _ => true
  end.

(** No string occurs twice: the loops that keep a [seen] set. *)
Fixpoint strs_distinct (l : list string) : bool :=
  match l with
  | [] => true
  | x :: l' => negb (str_in x l') && strs_distinct l'
  end.

Fixpoint strs_eqb (a b : list string) : bool :=
  match a, b with
  | [], [] => true
  | x :: a', y :: b' => String.eqb x y && strs_eqb a' b'
  | _, _ => false
  end.

Definition crlf_nul : string := String "000" (String "013" (String "010" "")).

(** * Lemmas *)

Lemma str_len_nonneg s : 0 ≤ str_len s.
Proof. unfold str_len. lia. Qed.

Lemma str_len_app a b : str_len (a +:+ b) = str_len a + str_len b.
Proof.
  unfold str_len. induction a as [|c a IH]; [done|].
  rewrite str_app_cons. simpl. lia.
Qed.

Lemma str_take_short n : ∀ s, (String.length (str_take n s) < n)%nat → str_take n s = s.
Proof.
  induction n as [|n IH]; intros [|c s]; simpl; [done|lia|done|]. intros Hl. f_equal. apply IH. lia.
Qed.

Lemma has_prefix_app p s : has_prefix p (p +:+ s) = true.
Proof.
  unfold has_prefix. induction p as [|c p IH]; [by destruct s|].
  rewrite str_app_cons. simpl. by destruct (ascii_dec c c).
Qed.

Lemma has_prefix_spec p s : has_prefix p s = true → ∃ r, s = p +:+ r.
Proof.
  unfold has_prefix. revert s. induction p as [|c p IH]; intros s; [by exists s|].
  destruct s as [|d s]; simpl; [done|].
  destruct (ascii_dec c d) as [->|]; [|done]. intros (r & ->)%IH. by exists r.
Qed.

Lemma str_drop_app p s : str_drop (String.length p) (p +:+ s) = s.
Proof. induction p as [|c p IH]; [by destruct s | done]. Qed.

Lemma trim_prefix_app p s : trim_prefix p (p +:+ s) = s.
Proof. unfold trim_prefix. by rewrite has_prefix_app, str_drop_app. Qed.

Lemma count_byte_nonneg c s : 0 ≤ count_byte c s.
Proof. induction s as [|a s IH]; simpl; [done|]. case_match; lia. Qed.

Lemma count_byte_app c a b : count_byte c (a +:+ b) = count_byte c a + count_byte c b.
Proof.
  induction a as [|x a IH]; [done|]. rewrite str_app_cons. simpl. rewrite IH. lia.
Qed.

Lemma count_byte_none c s :
  count_byte c s = 0 ↔ Forall (λ a, a ≠ c) (String.list_ascii_of_string s).
Proof.
  induction s as [|a s IH]; simpl; [by split|].
  pose proof (count_byte_nonneg c s). rewrite Forall_cons, <- IH.
  destruct (Ascii.eqb_spec a c) as [->|]; (split; [intros; split; [done || lia|lia]|intros [? ?]; done || lia]).
Qed.

Lemma split_byte_cons c s : ∃ w ws, split_byte c s = w :: ws.
Proof. induction s as [|a s (w & ws & IH)]; [by exists "", []|]. simpl. rewrite IH. case_match; eauto. Qed.

Lemma str_join_split c s : str_join (String c "") (split_byte c s) = s.
Proof.
  induction s as [|a s IH]; [done|]. simpl. destruct (split_byte_cons c s) as (w & ws & E). rewrite E in *.
  destruct (Ascii.eqb_spec a c) as [->|].
  - change (str_join (String c "") ("" :: w :: ws)) with ("" +:+ String c "" +:+ str_join (String c "") (w :: ws)).
    by rewrite IH.
  - destruct ws; simpl in *; rewrite ?str_app_cons; by rewrite <- IH.
Qed.

Lemma split_byte_none c s : count_byte c s = 0 → split_byte c s = [s].
Proof.
  induction s as [|a s IH]; [done|]. simpl. pose proof (count_byte_nonneg c s).
  destruct (Ascii.eqb a c); [lia|]. intros Hc. by rewrite IH by lia.
Qed.

Lemma split_byte_app c a b : count_byte c a = 0 → split_byte c (a +:+ String c b) = a :: split_byte c b.
Proof.
  induction a as [|x a IH]; intros Hc.
  - rewrite str_app_nil. simpl. by rewrite Ascii.eqb_refl.
  - rewrite str_app_cons. simpl in *. pose proof (count_byte_nonneg c a).
    destruct (Ascii.eqb x c); [lia|]. by rewrite IH by lia.
Qed.

Lemma split_once_app c a b : count_byte c a = 0 → split_once c (a +:+ String c b) = (a, b).
Proof.
  induction a as [|x a IH]; simpl.
  - intros _. change ("" +:+ String c b) with (String c b). simpl. by rewrite Ascii.eqb_refl.
  - pose proof (count_byte_nonneg c a).
    destruct (Ascii.eqb x c); [lia|]. intros. by rewrite IH by lia.
Qed.

Lemma split_once_spec c s l r :
  0 < count_byte c s → split_once c s = (l, r) → s = l +:+ String c r ∧ count_byte c l = 0.
Proof.
  revert l r. induction s as [|a s IH]; simpl; [lia|]. intros l r.
  destruct (Ascii.eqb_spec a c) as [->|Hne]; [by intros _ [= <- <-]|]. intros Hc.
  destruct (split_once c s) as [l' r'] eqn:E. intros [= <- <-].
  destruct (IH l' r' ltac:(lia) eq_refl) as [-> Hl]. rewrite str_app_cons. split; [done|].
  simpl. destruct (Ascii.eqb_spec a c); [done|lia].
Qed.

(** ** Numbers *)

Lemma pretty_char_digit n : (n < 10)%N →
  is_digit (pretty_N_char n) = true ∧ Z.of_N (N_of_ascii (pretty_N_char n)) - 48 = Z.of_N n.
Proof.
  intros H. assert (n = 0 ∨ n = 1 ∨ n = 2 ∨ n = 3 ∨ n = 4 ∨ n = 5 ∨ n = 6 ∨ n = 7 ∨ n = 8 ∨ n = 9)%N as Hn by lia.
  repeat destruct Hn as [->|Hn]; [..|subst]; by split.
Qed.

Lemma digits_value_pretty n s : (0 < n)%N →
  digits_value 0 (pretty_N_go n s) = digits_value (Z.of_N n) s.
Proof.
  revert s. induction (N.lt_wf_0 n) as [n _ IH]. intros s Hn.
  rewrite pretty_N_go_step by done.
  destruct (pretty_char_digit (n `mod` 10)) as [Hd Hv]; [by apply N.mod_lt|].
  pose proof (N.div_mod n 10 ltac:(done)) as Hdm.
  destruct (decide (n `div` 10 = 0)%N) as [Hz|Hz].
  - rewrite Hz, pretty_N_go_0. cbn [digits_value]. rewrite Hd, Hv. f_equal. lia.
  - rewrite IH; [|by apply N.div_lt|by apply N.neq_0_lt_0]. cbn [digits_value]. rewrite Hd, Hv. f_equal. lia.
Qed.

Lemma parse_digits_pretty limit n : (0 < n)%N → Z.of_N n ≤ limit →
  parse_digits limit (pretty n) = Some (Z.of_N n).
Proof.
  intros Hn Hl. assert (pretty n = pretty_N_go n "") as ->.
  { unfold pretty, pretty_N. by rewrite decide_False by lia. }
  pose proof (digits_value_pretty n "" Hn) as Hv. unfold parse_digits.
  destruct (pretty_N_go n "") as [|c s] eqn:E; [simpl in Hv; injection Hv; lia|].
  rewrite Hv. cbn [digits_value]. by rewrite (proj2 (Z.leb_le _ _) Hl).
Qed.

(** Only a digit starts the text of a positive number. *)
Lemma pretty_starts_digit n c s : (0 < n)%N → pretty n = String c s → is_digit c = true.
Proof.
  intros Hn Hp. pose proof (parse_digits_pretty (Z.of_N n) n Hn ltac:(lia)) as H.
  rewrite Hp in H. unfold parse_digits in H. cbn [digits_value] in H. by destruct (is_digit c).
Qed.

Lemma parse_int_format z : i64_range z → parse_int (format_int z) = Some z.
Proof.
  unfold i64_range, format_int. intros Hz. destruct z as [|p|p].
  - done.
  - change (pretty (Z.pos p)) with (pretty (N.pos p)).
    pose proof (parse_digits_pretty (2 ^ 63 - 1) (N.pos p) ltac:(lia) ltac:(lia)) as H.
    destruct (pretty (N.pos p)) as [|c s] eqn:E; [done|].
    pose proof (pretty_starts_digit (N.pos p) c s ltac:(lia) E) as Hc.
    unfold parse_int. repeat (case_match; try done).
  - change (pretty (Z.neg p)) with ("-" +:+ pretty (N.pos p)).
    rewrite str_app_cons, str_app_nil. cbn [parse_int].
    rewrite (parse_digits_pretty (2 ^ 63) (N.pos p)) by lia. done.
Qed.

Lemma parse_uint_format z : 0 ≤ z < 2 ^ 64 → parse_uint (format_int z) = Some z.
Proof.
  unfold format_int, parse_uint. intros Hz. destruct z as [|p|p]; [done| |lia].
  change (pretty (Z.pos p)) with (pretty (N.pos p)). by rewrite parse_digits_pretty by lia.
Qed.

Lemma strs_distinct_NoDup l : strs_distinct l = true ↔ NoDup l.
Proof.
  induction l as [|x l IH]; simpl; [split; [constructor | done]|].
  rewrite andb_true_iff, NoDup_cons, IH, negb_true_iff, <- not_true_iff_false, str_in_spec.
  done.
Qed.

Lemma strs_eqb_eq a b : strs_eqb a b = true ↔ a = b.
Proof.
  revert b. induction a as [|x a IH]; intros [|y b]; simpl; try done.
  rewrite andb_true_iff, String.eqb_eq, IH. split; [by intros [-> ->] | by intros [= -> ->]].
Qed.

Example split_byte_ex : split_byte "." "a.b..c" = ["a"; "b"; ""; "c"].
Proof. reflexivity. Qed.

Example trim_space_ex : trim_space "  a b " = "a b".
Proof. reflexivity. Qed.

Example trim_suffix_ex : trim_suffix ".git" "repo.git" = "repo".
Proof. reflexivity. Qed.
