(* ===== verification/Digest.v ===== *)
(** SHA-256 ([crypto/sha256], FIPS 180-4) and the identifiers derived from it:
    [deterministicUUID] of [internal/builds/planner.go]. *)

From S2P Require Import Prelude Regexp GoStrings.
From Stdlib Require Import Ascii.

Open Scope Z_scope.

(** * 32-bit words *)

Definition w32 (x : Z) : Z := Z.land x 0xffffffff.
Definition rotr (n x : Z) : Z := Z.lor (Z.shiftr x n) (w32 (Z.shiftl x (32 - n))).
Definition add32 (x y : Z) : Z := w32 (x + y).

Definition sum0 (x : Z) : Z := Z.lxor (rotr 2 x) (Z.lxor (rotr 13 x) (rotr 22 x)).
Definition sum1 (x : Z) : Z := Z.lxor (rotr 6 x) (Z.lxor (rotr 11 x) (rotr 25 x)).
Definition sigma0 (x : Z) : Z := Z.lxor (rotr 7 x) (Z.lxor (rotr 18 x) (Z.shiftr x 3)).
Definition sigma1 (x : Z) : Z := Z.lxor (rotr 17 x) (Z.lxor (rotr 19 x) (Z.shiftr x 10)).
Definition choose (x y z : Z) : Z := Z.lxor (Z.land x y) (Z.land (Z.lxor x 0xffffffff) z).
Definition majority (x y z : Z) : Z :=
  Z.lxor (Z.land x y) (Z.lxor (Z.land x z) (Z.land y z)).

(** The constants are the first 32 bits of the fractional parts of the cube
    roots, and of the square roots, of the first primes. *)
Definition primes (n : nat) : list Z :=
  take n (List.filter (fun p => forallb (fun d => negb (p mod Z.of_nat d =? 0)) (seq 2 (Z.to_nat p - 2)))
            (map Z.of_nat (seq 2 311))).

(** The cube root of [x], rounded down, by bisection below [2 ^ bits]. *)
Fixpoint cube_root (bits : nat) (root x : Z) : Z :=
  match bits with
  | O => root
  | S bits' =>
      let next := root + 2 ^ Z.of_nat bits' in
      cube_root bits' (if next ^ 3 <=? x then next else root) x
  end.

Definition roundConstants : list Z :=
  Eval vm_compute in map (fun p => w32 (cube_root 36 0 (p * 2 ^ 96))) (primes 64).

(** The chaining value: the eight words [a] to [h]. *)
Record chain := mkChain { ch_a : Z; ch_b : Z; ch_c : Z; ch_d : Z; ch_e : Z; ch_f : Z; ch_g : Z; ch_h : Z }.

Definition initialChain : chain :=
  Eval vm_compute in
    match map (fun p => w32 (Z.sqrt (p * 2 ^ 64))) (primes 8) with
    | [a; b; c; d; e; f; g; h] => mkChain a b c d e f g h
    | _ => mkChain 0 0 0 0 0 0 0 0
    end.

Definition sha_round (s : chain) (kw : Z * Z) : chain :=
  let t1 := add32 (ch_h s) (add32 (sum1 (ch_e s))
              (add32 (choose (ch_e s) (ch_f s) (ch_g s)) (add32 kw.1 kw.2))) in
  let t2 := add32 (sum0 (ch_a s)) (majority (ch_a s) (ch_b s) (ch_c s)) in
  mkChain (add32 t1 t2) (ch_a s) (ch_b s) (ch_c s) (add32 (ch_d s) t1) (ch_e s) (ch_f s) (ch_g s).

(** The message schedule, latest word first. *)
Fixpoint extend (n : nat) (ws : list Z) : list Z :=
  match n with
  | O => ws
  | S n' =>
      extend n' (add32 (sigma1 (nth 1 ws 0)) (add32 (nth 6 ws 0)
                  (add32 (sigma0 (nth 14 ws 0)) (nth 15 ws 0))) :: ws)
  end.

Fixpoint bytes_words (bytes : list Z) : list Z :=
  match bytes with
  | b0 :: b1 :: b2 :: b3 :: rest =>
      (b0 * 2 ^ 24 + b1 * 2 ^ 16 + b2 * 2 ^ 8 + b3) :: bytes_words rest
  | _ => []
  end.

Definition compress (s : chain) (block : list Z) : chain :=
  let ws := rev (extend 48 (rev (bytes_words block))) in
  let r := foldl sha_round s (combine roundConstants ws) in
  mkChain (add32 (ch_a s) (ch_a r)) (add32 (ch_b s) (ch_b r)) (add32 (ch_c s) (ch_c r))
    (add32 (ch_d s) (ch_d r)) (add32 (ch_e s) (ch_e r)) (add32 (ch_f s) (ch_f r))
    (add32 (ch_g s) (ch_g r)) (add32 (ch_h s) (ch_h r)).

(** A byte 0x80, zeros up to 56 modulo 64, and the length in bits. *)
Definition sha_pad (bytes : list Z) : list Z :=
  let len := Z.of_nat (length bytes) in
  bytes ++ [0x80] ++ repeat 0 (Z.to_nat ((55 - len) mod 64)) ++
  map (fun shift => Z.land (Z.shiftr (8 * len) shift) 0xff) [56; 48; 40; 32; 24; 16; 8; 0].

Fixpoint blocks (n : nat) (s : chain) (bytes : list Z) : chain :=
  match n with
  | O => s
  | S n' => blocks n' (compress s (take 64 bytes)) (drop 64 bytes)
  end.

Definition word_bytes (w : Z) : list Z :=
  map (fun shift => Z.land (Z.shiftr w shift) 0xff) [24; 16; 8; 0].

Definition sha256 (bytes : list Z) : list Z :=
  let padded := sha_pad bytes in
  let s := blocks (length padded / 64) initialChain padded in
  concat (map word_bytes [ch_a s; ch_b s; ch_c s; ch_d s; ch_e s; ch_f s; ch_g s; ch_h s]).

(** * Hexadecimal text *)

Definition hex_digit (n : Z) : ascii :=
  default "0"%char (String.get (Z.to_nat n) "0123456789abcdef").

(** [hex.EncodeToString] *)
Fixpoint hex_encode (bytes : list Z) : string :=
  match bytes with
  | [] => ""
  | b :: rest => String (hex_digit (Z.shiftr b 4)) (String (hex_digit (Z.land b 15)) (hex_encode rest))
  end.

Definition string_bytes (s : string) : list Z :=
  map (fun c => Z.of_N (N_of_ascii c)) (String.list_ascii_of_string s).

(** [s[lo:hi]] *)
Definition str_slice (lo hi : nat) (s : string) : string := str_take (hi - lo) (str_drop lo s).

(** Each part is written to the hash and followed by a NUL byte. *)
Definition uuid_input (parts : list string) : list Z :=
  concat (map (fun part => string_bytes part ++ [0])%list parts).

Definition uuid_stamp (value : list Z) : list Z :=
  let value := <[6%nat := Z.lor (Z.land (nth 6 value 0) 0x0f) 0x80]> value in
  <[8%nat := Z.lor (Z.land (nth 8 value 0) 0x3f) 0x80]> value.

Definition deterministicUUID (parts : list string) : string :=
  let text := hex_encode (uuid_stamp (take 16 (sha256 (uuid_input parts)))) in
  str_slice 0 8 text +:+ "-" +:+ str_slice 8 12 text +:+ "-" +:+ str_slice 12 16 text +:+ "-" +:+
  str_slice 16 20 text +:+ "-" +:+ str_drop 20 text.

(** The vectors of FIPS 180-4. *)
Example sha256_abc :
  hex_encode (sha256 (string_bytes "abc")) =
  "ba7816bf8f01cfea414140de5dae2223b00361a396177a9cb410ff61f20015ad".
Proof. vm_compute. reflexivity. Qed.

Example sha256_two_blocks :
  hex_encode (sha256 (string_bytes "abcdbcdecdefdefgefghfghighijhijkijkljklmklmnlmnomnopnopq")) =
  "248d6a61d20638b8e5c026930c3e6039a33ce45964ff2167f6ecedd419db06c1".
Proof. vm_compute. reflexivity. Qed.

Example deterministicUUID_ex :
  deterministicUUID ["build-attempt-v1"; "abc"] = "f8a101b4-eddf-8029-9c78-39db4e40a3ab".
Proof. vm_compute. reflexivity. Qed.

(** * Lemmas *)

Lemma hex_digit_hex n : is_lower_hex (hex_digit n) = true.
Proof.
  unfold hex_digit. generalize (Z.to_nat n) as k. intros k.
  do 16 (destruct k as [|k]; [reflexivity|]). reflexivity.
Qed.

Lemma length_sha256 bytes : length (sha256 bytes) = 32%nat.
Proof. reflexivity. Qed.

Lemma stamp_version b : Z.shiftr (Z.lor (Z.land b 0x0f) 0x80) 4 = 8.
Proof. by rewrite Z.shiftr_lor, Z.shiftr_land, Z.land_0_r. Qed.

Lemma stamp_variant b : is_one_of "89ab" (hex_digit (Z.shiftr (Z.lor (Z.land b 0x3f) 0x80) 4)) = true.
Proof.
  rewrite Z.shiftr_lor, Z.shiftr_land. change (Z.shiftr 0x3f 4) with (Z.ones 2).
  change (Z.shiftr 0x80 4) with 8. rewrite Z.land_ones by lia.
  pose proof (Z.mod_pos_bound (Z.shiftr b 4) (2 ^ 2) ltac:(lia)) as Hb.
  remember (Z.shiftr b 4 mod 2 ^ 2) as n eqn:E. clear E.
  assert (n = 0 ∨ n = 1 ∨ n = 2 ∨ n = 3) as [-> | [-> | [-> | ->]]] by lia; reflexivity.
Qed.

Lemma hex_times n s :
  String.length s = n → Forall (λ c, is_lower_hex c = true) (String.list_ascii_of_string s) →
  re_lang (RTimes n (RClass is_lower_hex)) s.
Proof. intros. by apply re_lang_times. Qed.

(** Identifiers derived from a hash are UUIDs: whatever the parts, the text
    has the form the rest of the control plane checks for. *)
Theorem deterministicUUID_valid parts : re_match uuid_re (deterministicUUID parts) = true.
Proof.
  unfold deterministicUUID.
  assert (length (take 16 (sha256 (uuid_input parts))) = 16%nat) as Hl.
  { by rewrite length_take, length_sha256. }
  destruct (take 16 _) as
    [|b0 [|b1 [|b2 [|b3 [|b4 [|b5 [|b6 [|b7 [|b8 [|b9 [|b10 [|b11 [|b12 [|b13 [|b14 [|b15 [|? ?]]]]]]]]]]]]]]]]];
    try discriminate Hl. clear Hl.
  unfold uuid_stamp, str_slice. cbn -[hex_digit Z.lor Z.land Z.shiftr].
  rewrite stamp_version. pose proof (stamp_variant b8) as Hv. apply re_match_spec.
  assert (∀ n, is_lower_hex (hex_digit n) = true) as Hhex by apply hex_digit_hex.
  unfold uuid_re.
  repeat match goal with
  | |- re_lang (RSeq (RTimes _ _) _) _ =>
      apply lang_seq; [apply hex_times; [reflexivity|by repeat constructor]|]
  | |- re_lang (RSeq (RLit "-") _) _ => apply lang_seq; [by apply re_lang_lit|]
  | |- re_lang (RSeq (RClass _) _) (String ?c ?s +:+ ?r) =>
      change (String c s +:+ r) with (String c "" +:+ (s +:+ r));
      apply lang_seq; [by constructor|]
  end.
  apply hex_times; [reflexivity|by repeat constructor].
Qed.
