(* ===== verification/Encoding.v ===== *)
(** Unpadded URL-safe base64 ([base64.RawURLEncoding], strict on decoding),
    hexadecimal decoding, and HMAC-SHA-256 ([crypto/hmac]). *)

From S2P Require Import Prelude Regexp GoStrings Digest.
From Stdlib Require Import Ascii.

Open Scope Z_scope.

(** * Bytes *)

Definition is_byte (b : Z) : Prop := 0 ≤ b < 256.

Definition bytes_string (bytes : list Z) : string :=
  String.string_of_list_ascii (map (fun b => ascii_of_N (Z.to_N b)) bytes).

(** * Base64 *)

Definition base64_alphabet : string :=
  "ABCDEFGHIJKLMNOPQRSTUVWXYZabcdefghijklmnopqrstuvwxyz0123456789-_".

Definition sextet_char (n : Z) : ascii := default "A"%char (String.get (Z.to_nat n) base64_alphabet).

Fixpoint index_of (c : ascii) (s : string) (i : Z) : option Z :=
  match s with
  | "" => None
  | String d s' => if Ascii.eqb c d then Some i else index_of c s' (i + 1)
  end.

Definition char_sextet (c : ascii) : option Z := index_of c base64_alphabet 0.

(** [EncodeToString]: three bytes make four characters, and a last group of one
    or two bytes makes two or three. *)
Fixpoint base64_encode (bytes : list Z) : string :=
  match bytes with
  | [] => ""
  | [b0] => String (sextet_char (b0 / 4)) (String (sextet_char ((b0 mod 4) * 16)) "")
  | [b0; b1] =>
      String (sextet_char (b0 / 4)) (String (sextet_char ((b0 mod 4) * 16 + b1 / 16))
        (String (sextet_char ((b1 mod 16) * 4)) ""))
  | b0 :: b1 :: b2 :: rest =>
      String (sextet_char (b0 / 4)) (String (sextet_char ((b0 mod 4) * 16 + b1 / 16))
        (String (sextet_char ((b1 mod 16) * 4 + b2 / 64)) (String (sextet_char (b2 mod 64))
          (base64_encode rest))))
  end.

(** The decoder skips carriage returns and line feeds wherever they are. *)
Fixpoint strip_newlines (s : string) : string :=
  match s with
  | "" => ""
  | String c s' =>
      if Ascii.eqb c "010" || Ascii.eqb c "013" then strip_newlines s' else String c (strip_newlines s')
  end.

(** The sextets of a string without newlines, or [None] at a character that is
    not of the alphabet. *)
Fixpoint sextets (s : string) : option (list Z) :=
  match s with
  | "" => Some []
  | String c s' =>
      match char_sextet c, sextets s' with
      | Some n, Some ns => Some (n :: ns)
      | _, _ => None
      end
  end.

(** Four sextets make three bytes; a last group of two or three must leave no
    bit over ([Strict]), and a last group of one is an error. *)
Fixpoint sextets_bytes (ns : list Z) : option (list Z) :=
  match ns with
  | [] => Some []
  | [_] => None
  | [n0; n1] => if n1 mod 16 =? 0 then Some [n0 * 4 + n1 / 16] else None
  | [n0; n1; n2] =>
      if n2 mod 4 =? 0 then Some [n0 * 4 + n1 / 16; (n1 mod 16) * 16 + n2 / 4] else None
  | n0 :: n1 :: n2 :: n3 :: rest =>
      match sextets_bytes rest with
      | Some bytes =>
          Some (n0 * 4 + n1 / 16 :: (n1 mod 16) * 16 + n2 / 4 :: (n2 mod 4) * 64 + n3 :: bytes)
      | None => None
      end
  end.

Definition base64_decode (s : string) : option (list Z) :=
  match sextets (strip_newlines s) with
  | Some ns => sextets_bytes ns
  | None => None
  end.

(** ** Characters and sextets *)

Lemma sextet_char_sextet n : 0 ≤ n < 64 → char_sextet (sextet_char n) = Some n.
Proof.
  intros H.
  assert (forallb (fun k => bool_decide (char_sextet (sextet_char (Z.of_nat k)) = Some (Z.of_nat k)))
    (seq 0 64) = true) as Hall by (vm_compute; reflexivity).
  rewrite forallb_forall in Hall. specialize (Hall (Z.to_nat n)).
  rewrite bool_decide_eq_true, Z2Nat.id in Hall by lia. apply Hall, in_seq. lia.
Qed.

Definition sextet_inverse (c : ascii) : bool :=
  match char_sextet c with
  | Some n => (0 <=? n) && (n <? 64) && Ascii.eqb (sextet_char n) c
  | None => true
  end.

Lemma char_sextet_char c n : char_sextet c = Some n → 0 ≤ n < 64 ∧ sextet_char n = c.
Proof.
  assert (forallb (fun k => sextet_inverse (ascii_of_nat k)) (seq 0 256) = true) as Hall
    by (vm_compute; reflexivity).
  rewrite forallb_forall in Hall. specialize (Hall (nat_of_ascii c)).
  rewrite ascii_nat_embedding in Hall. intros Hc.
  assert (In (nat_of_ascii c) (seq 0 256)) as Hin by (apply in_seq; pose proof (nat_ascii_bounded c); lia).
  specialize (Hall Hin). unfold sextet_inverse in Hall. rewrite Hc in Hall.
  bool_prop. split; [lia|by apply Ascii.eqb_eq].
Qed.

Definition not_newline (c : ascii) : bool := negb (Ascii.eqb c "010" || Ascii.eqb c "013").

Lemma sextet_not_newline n : not_newline (sextet_char n) = true.
Proof.
  unfold sextet_char. generalize (Z.to_nat n) as k. intros k.
  do 64 (destruct k as [|k]; [reflexivity|]). reflexivity.
Qed.

Lemma strip_cons c s : not_newline c = true → strip_newlines (String c s) = String c (strip_newlines s).
Proof. unfold not_newline. simpl. by destruct (_ || _). Qed.

(** Induction over the groups of three bytes. *)
Lemma bytes_ind (P : list Z → Prop) :
  P [] → (∀ a, P [a]) → (∀ a b, P [a; b]) → (∀ a b c l, P l → P (a :: b :: c :: l)) → ∀ l, P l.
Proof.
  intros H0 H1 H2 H3.
  assert (∀ l, P l ∧ (∀ a, P (a :: l)) ∧ (∀ a b, P (a :: b :: l))) as H.
  { induction l as [|x l (I0 & I1 & I2)]; [done|]. split_and!; auto. }
  intros l. apply H.
Qed.

(** Induction over the groups of four sextets. *)
Lemma sextets_ind (P : list Z → Prop) :
  P [] → (∀ a, P [a]) → (∀ a b, P [a; b]) → (∀ a b c, P [a; b; c]) →
  (∀ a b c d l, P l → P (a :: b :: c :: d :: l)) → ∀ l, P l.
Proof.
  intros H0 H1 H2 H3 H4.
  assert (∀ l, P l ∧ (∀ a, P (a :: l)) ∧ (∀ a b, P (a :: b :: l)) ∧ (∀ a b c, P (a :: b :: c :: l))) as H.
  { induction l as [|x l (I0 & I1 & I2 & I3)]; [done|]. split_and!; auto. }
  intros l. apply H.
Qed.

Lemma base64_strip bytes : strip_newlines (base64_encode bytes) = base64_encode bytes.
Proof.
  induction bytes as [|a|a b|a b c l IH] using bytes_ind; cbn [base64_encode];
    rewrite ?strip_cons by apply sextet_not_newline; [done..|by rewrite IH].
Qed.

Ltac div_mod_lia :=
  unfold is_byte in *; Z.to_euclidean_division_equations; lia.

(** ** The round trips *)

Lemma base64_decode_encode bytes :
  Forall is_byte bytes → base64_decode (base64_encode bytes) = Some bytes.
Proof.
  intros Hb. unfold base64_decode. rewrite base64_strip.
  assert (∃ ns, sextets (base64_encode bytes) = Some ns ∧ sextets_bytes ns = Some bytes) as (ns & -> & H);
    [|exact H].
  induction bytes as [|a|a b|a b c l IH] using bytes_ind; cbn [base64_encode sextets].
  - by exists [].
  - inversion_clear Hb. rewrite !sextet_char_sextet by div_mod_lia. eexists. split; [done|]. cbn [sextets_bytes].
    assert ((a mod 4 * 16) mod 16 =? 0 = true) as -> by (apply Z.eqb_eq; div_mod_lia).
    do 2 f_equal. div_mod_lia.
  - inversion_clear Hb as [|? ? Ha Hb']. inversion_clear Hb' as [|? ? Hbb _].
    rewrite !sextet_char_sextet by div_mod_lia. eexists. split; [done|]. cbn [sextets_bytes].
    assert ((b mod 16 * 4) mod 4 =? 0 = true) as -> by (apply Z.eqb_eq; div_mod_lia).
    repeat f_equal; div_mod_lia.
  - inversion_clear Hb as [|? ? Ha Hb']. inversion_clear Hb' as [|? ? Hbb Hc]. inversion_clear Hc as [|? ? Hc' Hl].
    destruct (IH Hl) as (ns & Hns & Hbytes). rewrite !sextet_char_sextet by div_mod_lia. rewrite Hns.
    eexists. split; [done|]. cbn [sextets_bytes]. rewrite Hbytes. repeat f_equal; div_mod_lia.
Qed.

Lemma sextets_range s ns : sextets s = Some ns → Forall (λ n, 0 ≤ n < 64) ns.
Proof.
  revert ns. induction s as [|c s IH]; simpl; [by intros ns [= <-]|]. intros ns.
  destruct (char_sextet c) as [n|] eqn:Hc; [|done]. destruct (sextets s); [|done]. intros [= <-].
  apply char_sextet_char in Hc as [? _]. constructor; [done|by apply IH].
Qed.

Lemma sextets_encode s ns : sextets s = Some ns → s = String.string_of_list_ascii (sextet_char <$> ns).
Proof.
  revert ns. induction s as [|c s IH]; simpl; [by intros ns [= <-]|]. intros ns.
  destruct (char_sextet c) as [n|] eqn:Hc; [|done]. destruct (sextets s) as [l|]; [|done]. intros [= <-].
  apply char_sextet_char in Hc as [_ <-]. cbn. f_equal. by apply IH.
Qed.

Lemma sextets_bytes_encode ns : ∀ bytes,
  Forall (λ n, 0 ≤ n < 64) ns → sextets_bytes ns = Some bytes →
  String.string_of_list_ascii (sextet_char <$> ns) = base64_encode bytes ∧ Forall is_byte bytes.
Proof.
  induction ns as [|a|a b|a b c|a b c d l IH] using sextets_ind; cbn [sextets_bytes]; intros bytes Hr Hb;
    repeat match goal with H : Forall _ (_ :: _) |- _ => inversion_clear H end.
  - injection Hb as <-. done.
  - done.
  - destruct (Z.eqb_spec (b mod 16) 0); [|done]. injection Hb as <-. cbn [base64_encode fmap list_fmap].
    split; [|repeat constructor; div_mod_lia].
    cbn [String.string_of_list_ascii]. repeat f_equal; div_mod_lia.
  - destruct (Z.eqb_spec (c mod 4) 0); [|done]. injection Hb as <-. cbn [base64_encode fmap list_fmap].
    split; [|repeat constructor; div_mod_lia].
    cbn [String.string_of_list_ascii]. repeat f_equal; div_mod_lia.
  - destruct (sextets_bytes l) as [bs|] eqn:Hl; [|done]. injection Hb as <-.
    destruct (IH bs ltac:(done) eq_refl) as [He Hall].
    cbn [base64_encode fmap list_fmap String.string_of_list_ascii].
    split; [|repeat constructor; try done; div_mod_lia].
    change (String.string_of_list_ascii (list_fmap Z ascii sextet_char l)) with
      (String.string_of_list_ascii (sextet_char <$> l)). rewrite He.
    repeat f_equal; div_mod_lia.
Qed.

(** What decodes is, newlines apart, the encoding of what it decodes to: the
    strict decoder accepts one text per byte sequence. *)
Lemma base64_decode_canonical s bytes :
  base64_decode s = Some bytes → strip_newlines s = base64_encode bytes ∧ Forall is_byte bytes.
Proof.
  unfold base64_decode. destruct (sextets (strip_newlines s)) as [ns|] eqn:Hns; [|done]. intros Hb.
  rewrite (sextets_encode _ _ Hns). apply sextets_bytes_encode; [by eapply sextets_range|done].
Qed.

Lemma base64_encode_inj a b :
  Forall is_byte a → Forall is_byte b → base64_encode a = base64_encode b → a = b.
Proof.
  intros Ha Hb E. apply base64_decode_encode in Ha, Hb. rewrite E in Ha. congruence.
Qed.

(** [RawURLEncoding.EncodedLen]: a third more than the bytes, rounded up. *)
Lemma base64_encode_length bytes :
  str_len (base64_encode bytes) = (Z.of_nat (length bytes) * 8 + 5) / 6.
Proof.
  unfold str_len. induction bytes as [|a|a b|a b c l IH] using bytes_ind; [reflexivity..|].
  cbn [base64_encode String.length length]. rewrite !Nat2Z.inj_succ.
  rewrite IH. Z.to_euclidean_division_equations; lia.
Qed.

Lemma strip_newlines_length s : str_len (strip_newlines s) <= str_len s.
Proof.
  unfold str_len. induction s as [|c s IH]; simpl; [lia|]. case_match; simpl; lia.
Qed.

Lemma strip_newlines_same s : str_len (strip_newlines s) = str_len s → strip_newlines s = s.
Proof.
  unfold str_len. induction s as [|c s IH]; simpl; [done|]. case_match; simpl.
  - pose proof (strip_newlines_length s). unfold str_len in *. lia.
  - intros ?. f_equal. apply IH. lia.
Qed.

(** Every character of an encoding is in the alphabet, so the separators of
    the tokens that are built from encodings do not occur in them. *)
Lemma base64_encode_alphabet bytes :
  Forall is_byte bytes →
  Forall (λ c, is_Some (char_sextet c)) (String.list_ascii_of_string (base64_encode bytes)).
Proof.
  intros Hb. induction bytes as [|a|a b|a b c l IH] using bytes_ind; cbn [base64_encode];
    repeat match goal with H : Forall _ (_ :: _) |- _ => inversion_clear H end;
    cbn [String.list_ascii_of_string]; repeat constructor; try (by apply IH);
    rewrite sextet_char_sextet by div_mod_lia; done.
Qed.

(** * Bytes of strings *)

Lemma bytes_string_bytes s : bytes_string (string_bytes s) = s.
Proof.
  unfold bytes_string, string_bytes. rewrite map_map.
  rewrite (map_ext _ (fun c => c)); [by rewrite map_id, String.string_of_list_ascii_of_string|].
  intros c. by rewrite N2Z.id, ascii_N_embedding.
Qed.

Lemma string_bytes_string bytes : Forall is_byte bytes → string_bytes (bytes_string bytes) = bytes.
Proof.
  unfold bytes_string, string_bytes. rewrite String.list_ascii_of_string_of_list_ascii, map_map.
  induction 1 as [|b bytes Hb _ IH]; simpl; [done|]. unfold is_byte in Hb.
  rewrite N_ascii_embedding by lia. rewrite Z2N.id by lia. by rewrite IH.
Qed.

Lemma string_bytes_range s : Forall is_byte (string_bytes s).
Proof.
  unfold string_bytes. apply Forall_forall. intros b. rewrite list_elem_of_fmap.
  intros (c & -> & _). unfold is_byte. pose proof (N_ascii_bounded c). lia.
Qed.

Lemma string_bytes_inj a b : string_bytes a = string_bytes b → a = b.
Proof. intros E. by rewrite <- (bytes_string_bytes a), E, bytes_string_bytes. Qed.

Lemma length_string_bytes s : Z.of_nat (length (string_bytes s)) = str_len s.
Proof.
  unfold string_bytes, str_len. rewrite length_map. f_equal.
  induction s; simpl; auto.
Qed.

(** * Hexadecimal text: [hex.DecodeString] *)

Definition hex_value (c : ascii) : option Z :=
  let n := Z.of_N (N_of_ascii c) in
  if is_digit c then Some (n - 48)
  else if in_range "a" "f" c then Some (n - 87)
  else if in_range "A" "F" c then Some (n - 55)
  else None.

Fixpoint hex_decode (s : string) : option (list Z) :=
  match s with
  | "" => Some []
  | String _ "" => None
  | String a (String b rest) =>
      match hex_value a, hex_value b, hex_decode rest with
      | Some x, Some y, Some bytes => Some (x * 16 + y :: bytes)
      | _, _, _ => None
      end
  end.

Lemma hex_value_digit n : 0 ≤ n < 16 → hex_value (hex_digit n) = Some n.
Proof.
  intros H.
  assert (forallb (fun k => bool_decide (hex_value (hex_digit (Z.of_nat k)) = Some (Z.of_nat k)))
    (seq 0 16) = true) as Hall by (vm_compute; reflexivity).
  rewrite forallb_forall in Hall. specialize (Hall (Z.to_nat n)).
  rewrite bool_decide_eq_true, Z2Nat.id in Hall by lia. apply Hall, in_seq. lia.
Qed.

Lemma hex_decode_encode bytes : Forall is_byte bytes → hex_decode (hex_encode bytes) = Some bytes.
Proof.
  induction 1 as [|b bytes Hb _ IH]; cbn [hex_encode hex_decode]; [done|]. unfold is_byte in Hb.
  change 15 with (Z.ones 4). rewrite Z.land_ones, Z.shiftr_div_pow2 by lia.
  rewrite !hex_value_digit by div_mod_lia. rewrite IH. do 2 f_equal. div_mod_lia.
Qed.

Lemma hex_encode_inj a b : Forall is_byte a → Forall is_byte b → hex_encode a = hex_encode b → a = b.
Proof. intros Ha Hb E. apply hex_decode_encode in Ha, Hb. rewrite E in Ha. congruence. Qed.

Lemma hex_encode_length bytes : str_len (hex_encode bytes) = 2 * Z.of_nat (length bytes).
Proof.
  unfold str_len. induction bytes as [|b bytes IH]; [done|].
  cbn [hex_encode String.length length]. lia.
Qed.

Lemma hex_encode_lang n bytes :
  (2 * length bytes)%nat = n → re_lang (RTimes n (RClass is_lower_hex)) (hex_encode bytes).
Proof.
  intros <-. apply re_lang_times. split; [apply Nat2Z.inj; fold (str_len (hex_encode bytes)); rewrite hex_encode_length; lia|].
  induction bytes as [|b bytes IH]; cbn [hex_encode String.list_ascii_of_string]; [constructor|].
  by repeat (constructor; [apply hex_digit_hex|]).
Qed.

(** * HMAC-SHA-256 ([crypto/hmac], FIPS 198) *)

(** The key, hashed when it is longer than a block, padded to a block. *)
Definition hmac_block (key : list Z) : list Z :=
  let key := if (64 <? length key)%nat then sha256 key else key in
  key ++ repeat 0 (64 - length key).

Definition hmac_sha256 (key message : list Z) : list Z :=
  let block := hmac_block key in
  let inner := sha256 (map (Z.lxor 0x36) block ++ message) in
  sha256 (map (Z.lxor 0x5c) block ++ inner).

Lemma sha256_bytes bytes : Forall is_byte (sha256 bytes).
Proof.
  assert (∀ w, Forall is_byte (word_bytes w)) as Hw.
  { intros w. repeat constructor; unfold is_byte; change 0xff with (Z.ones 8);
      rewrite Z.land_ones by lia; by apply Z.mod_pos_bound. }
  unfold sha256. cbn [map concat]. by rewrite !Forall_app.
Qed.

Lemma length_hmac_sha256 key message : length (hmac_sha256 key message) = 32%nat.
Proof. apply length_sha256. Qed.

(** Test case 2 of RFC 4231, and a key longer than a block (case 6). *)
Example hmac_sha256_jefe :
  hex_encode (hmac_sha256 (string_bytes "Jefe") (string_bytes "what do ya want for nothing?")) =
  "5bdcc146bf60754e6a042426089575c75a003f089d2739839dec58b964ec3843".
Proof. vm_compute. reflexivity. Qed.

Example hmac_sha256_long_key :
  hex_encode (hmac_sha256 (repeat 0xaa 131)
    (string_bytes "Test Using Larger Than Block-Size Key - Hash Key First")) =
  "60e431591ee0b67f0d8a26aacbf5b77f8e0bc6213728c5140546040f0ee37f54".
Proof. vm_compute. reflexivity. Qed.
