(* ===== verification/Json.v ===== *)
(** The validator of signed JSON documents: [validateSingleJSON] of
    [internal/githubapp/json.go], which refuses duplicate keys, documents that
    are nested too deeply and anything after the document.

    The validator reads the tokens of [encoding/json]'s [Decoder].  A stream of
    tokens is the list of those the decoder yields; [TError] stands where it
    meets text that is not JSON, and the end of the list is the end of the
    input.  [dec.More] looks at the next token only. *)

From S2P Require Import Prelude.

Open Scope list_scope.
Open Scope nat_scope.

(** * Tokens *)

Inductive token : Type :=
| TOpenObject | TCloseObject | TOpenArray | TCloseArray
| TString (s : string)
| TScalar (text : string)
| TError.

Inductive JSONErr : Set :=
| JSONTooDeep | JSONInvalidValue | JSONInvalidKey | JSONDuplicateKey | JSONInvalidObject
| JSONInvalidArray | JSONUnexpectedDelimiter | JSONTrailing.

(** [dec.Token()]: [None] is an error, the end of the input included. *)
Definition next_token (tokens : list token) : option (token * list token) :=
  match tokens with
  | [] => None
  | TError :: _ => None
  | t :: rest => Some (t, rest)
  end.

(** [dec.More()] *)
Definition more (tokens : list token) : bool :=
  match tokens with
  | [] | TCloseObject :: _ | TCloseArray :: _ => false
  | _ => true
  end.

(** * The validator

    [fuel] bounds the calls; [validateSingleJSON] takes more than the tokens
    allow ([validateSingleJSON_terminates]).  [None] is out of fuel. *)

Definition maxJSONDepth : nat := 64.

Fixpoint validateJSONValue (fuel depth : nat) (tokens : list token) : option (res JSONErr (list token)) :=
  match fuel with
  | O => None
  | S fuel' =>
      if maxJSONDepth <? depth then Some (Err JSONTooDeep)
      else match next_token tokens with
      | None => Some (Err JSONInvalidValue)
      | Some (TOpenObject, rest) => validateMembers fuel' depth ∅ rest
      | Some (TOpenArray, rest) => validateElements fuel' depth rest
      | Some (TCloseObject, _) | Some (TCloseArray, _) => Some (Err JSONUnexpectedDelimiter)
      | Some (_, rest) => Some (Ok rest)
      end
  end
with validateMembers (fuel depth : nat) (seen : gset string) (tokens : list token)
    : option (res JSONErr (list token)) :=
  match fuel with
  | O => None
  | S fuel' =>
      if more tokens
      then match next_token tokens with
      | Some (TString key, rest) =>
          if bool_decide (key ∈ seen) then Some (Err JSONDuplicateKey)
          else match validateJSONValue fuel' (depth + 1) rest with
          | Some (Ok rest) => validateMembers fuel' depth ({[key]} ∪ seen) rest
          | r => r
          end
      | _ => Some (Err JSONInvalidKey)
      end
      else match next_token tokens with
      | Some (TCloseObject, rest) => Some (Ok rest)
      | _ => Some (Err JSONInvalidObject)
      end
  end
with validateElements (fuel depth : nat) (tokens : list token) : option (res JSONErr (list token)) :=
  match fuel with
  | O => None
  | S fuel' =>
      if more tokens
      then match validateJSONValue fuel' (depth + 1) tokens with
      | Some (Ok rest) => validateElements fuel' depth rest
      | r => r
      end
      else match next_token tokens with
      | Some (TCloseArray, rest) => Some (Ok rest)
      | _ => Some (Err JSONInvalidArray)
      end
  end.

Definition validateFuel (tokens : list token) : nat := 2 * length tokens + 2.

Definition validateSingleJSON (tokens : list token) : option (res JSONErr unit) :=
  match validateJSONValue (validateFuel tokens) 0 tokens with
  | Some (Ok []) => Some (Ok tt)
  | Some (Ok _) => Some (Err JSONTrailing)
  | Some (Err e) => Some (Err e)
  | None => None
  end.

(** * Documents *)

Inductive json : Type :=
| JString (s : string)
| JScalar (text : string)
| JObject (members : list (string * json))
| JArray (elements : list json).

(** The tokens of a document. *)
Fixpoint json_tokens (v : json) : list token :=
  match v with
  | JString s => [TString s]
  | JScalar text => [TScalar text]
  | JObject members =>
      TOpenObject :: flat_map (fun m => TString m.1 :: json_tokens m.2) members ++ [TCloseObject]
  | JArray elements => TOpenArray :: flat_map json_tokens elements ++ [TCloseArray]
  end.

(** No object of the document has a key twice, and no value is nested deeper
    than [limit]. *)
Fixpoint json_ok (limit : nat) (v : json) {struct v} : Prop :=
  match v with
  | JString _ | JScalar _ => True
  | JObject members =>
      NoDup members.*1 ∧
      match limit with
      | O => members = []
      | S limit' => (fix all l := match l with [] => True | m :: l' => json_ok limit' m.2 ∧ all l' end) members
      end
  | JArray elements =>
      match limit with
      | O => elements = []
      | S limit' => (fix all l := match l with [] => True | v' :: l' => json_ok limit' v' ∧ all l' end) elements
      end
  end.

(** ** Induction on documents *)

Section json_ind.
Context (P : json → Prop).
Hypothesis P_string : ∀ s, P (JString s).
Hypothesis P_scalar : ∀ text, P (JScalar text).
Hypothesis P_object : ∀ members, Forall (λ m, P m.2) members → P (JObject members).
Hypothesis P_array : ∀ elements, Forall P elements → P (JArray elements).

Fixpoint json_ind' (v : json) : P v.
Proof using All.
  destruct v as [s|text|members|elements].
  - apply P_string.
  - apply P_scalar.
  - apply P_object. induction members as [|m members IH]; constructor; [apply json_ind'|exact IH].
  - apply P_array. induction elements as [|e elements IH]; constructor; [apply json_ind'|exact IH].
Defined.
End json_ind.

Lemma json_ok_object limit members :
  json_ok limit (JObject members) ↔
  NoDup members.*1 ∧ match limit with
    | O => members = []
    | S limit' => Forall (λ m, json_ok limit' m.2) members
    end.
Proof.
  simpl. destruct limit as [|limit]; [done|].
  apply Morphisms_Prop.and_iff_morphism; [done|].
  induction members as [|m members IH]; simpl; [by split; constructor|]. by rewrite Forall_cons, IH.
Qed.

Lemma json_ok_array limit elements :
  json_ok limit (JArray elements) ↔ match limit with
    | O => elements = []
    | S limit' => Forall (json_ok limit') elements
    end.
Proof.
  simpl. destruct limit as [|limit]; [done|].
  induction elements as [|v elements IH]; simpl; [by split; constructor|]. by rewrite Forall_cons, IH.
Qed.

(** * The validator terminates *)

Lemma next_token_some tokens t rest :
  next_token tokens = Some (t, rest) ↔ tokens = t :: rest ∧ t ≠ TError.
Proof.
  split.
  - destruct tokens as [|[] ?]; simpl; intros H; [discriminate H|..]; try discriminate H; by injection H as <- <-.
  - intros [-> Ht]. by destruct t.
Qed.

(** A part returns, and consumes a token when it succeeds. *)
Definition returns (tokens : list token) (o : option (res JSONErr (list token))) : Prop :=
  match o with
  | None => False
  | Some (Err _) => True
  | Some (Ok rest) => length rest < length tokens
  end.

Lemma returns_mono tokens tokens' o : length tokens ≤ length tokens' → returns tokens o → returns tokens' o.
Proof. unfold returns. destruct o as [[rest|e]|]; [lia|done|done]. Qed.

Lemma validate_returns fuel :
  (∀ depth tokens, 2 * length tokens < fuel → returns tokens (validateJSONValue fuel depth tokens)) ∧
  (∀ depth seen tokens, 2 * length tokens < fuel → returns tokens (validateMembers fuel depth seen tokens)) ∧
  (∀ depth tokens, 2 * length tokens + 1 < fuel → returns tokens (validateElements fuel depth tokens)).
Proof.
  induction fuel as [|fuel (IHv & IHm & IHe)]; [by split_and!; intros; lia|]. split_and!.
  - intros depth tokens Hf. simpl. destruct (maxJSONDepth <? depth); [done|].
    destruct (next_token tokens) as [[t rest]|] eqn:E; [|done].
    apply next_token_some in E as [-> _]. simpl in Hf.
    destruct t; try done; simpl; try lia; (eapply returns_mono; [|(apply IHm || apply IHe); lia]); simpl; lia.
  - intros depth seen tokens Hf. simpl.
    destruct (next_token tokens) as [[t rest]|] eqn:E; [|by destruct (more tokens)].
    apply next_token_some in E as [-> _]. simpl in Hf.
    destruct t; simpl; try done; [lia|]. case_bool_decide; [done|].
    pose proof (IHv (depth + 1) rest ltac:(lia)) as Hv.
    destruct (validateJSONValue fuel (depth + 1) rest) as [[rest'|e]|]; try done. simpl in Hv.
    eapply returns_mono; [|apply IHm; lia]. simpl. lia.
  - intros depth tokens Hf. simpl. destruct (more tokens).
    + pose proof (IHv (depth + 1) tokens ltac:(lia)) as Hv.
      destruct (validateJSONValue fuel (depth + 1) tokens) as [[rest'|e]|]; try done. simpl in Hv.
      eapply returns_mono; [|apply IHe; lia]. lia.
    + destruct (next_token tokens) as [[t rest]|] eqn:E; [|done].
      apply next_token_some in E as [-> _]. destruct t; simpl; try done. lia.
Qed.

(** * The validator accepts the documents without duplicate keys *)

Definition member_tokens (m : string * json) : list token := TString m.1 :: json_tokens m.2.

Lemma json_tokens_object members :
  json_tokens (JObject members) = TOpenObject :: flat_map member_tokens members ++ [TCloseObject].
Proof. done. Qed.

Lemma json_tokens_array elements :
  json_tokens (JArray elements) = TOpenArray :: flat_map json_tokens elements ++ [TCloseArray].
Proof. done. Qed.

Lemma json_tokens_length v : 0 < length (json_tokens v).
Proof. destruct v; simpl; lia. Qed.

Lemma more_json v rest : more (json_tokens v ++ rest) = true.
Proof. by destruct v. Qed.

(** The members, and the elements, of a value at a depth are at the next. *)
Definition all_ok {A} (limit : nat) (f : A → json) (l : list A) : Prop :=
  match limit with O => l = [] | S limit' => Forall (λ x, json_ok limit' (f x)) l end.

Lemma all_ok_cons {A} depth (f : A → json) x l :
  depth < maxJSONDepth → json_ok (maxJSONDepth - (depth + 1)) (f x) →
  all_ok (maxJSONDepth - depth) f l → all_ok (maxJSONDepth - depth) f (x :: l).
Proof.
  intros Hd Hx Hl. unfold all_ok in *. destruct (maxJSONDepth - depth) as [|n] eqn:E; [lia|].
  replace (maxJSONDepth - (depth + 1)) with n in Hx by lia. by constructor.
Qed.

Lemma all_ok_inv {A} depth (f : A → json) x l :
  depth ≤ maxJSONDepth → all_ok (maxJSONDepth - depth) f (x :: l) →
  depth < maxJSONDepth ∧ json_ok (maxJSONDepth - (depth + 1)) (f x) ∧ all_ok (maxJSONDepth - depth) f l.
Proof.
  unfold all_ok. intros Hd. destruct (maxJSONDepth - depth) as [|n] eqn:E; [done|].
  rewrite Forall_cons. intros [Hx Hl]. replace (maxJSONDepth - (depth + 1)) with n by lia.
  split_and!; [lia|done|done].
Qed.

Lemma validate_sound fuel :
  (∀ depth tokens rest, validateJSONValue fuel depth tokens = Some (Ok rest) →
     ∃ v, tokens = json_tokens v ++ rest ∧ depth ≤ maxJSONDepth ∧ json_ok (maxJSONDepth - depth) v) ∧
  (∀ depth seen tokens rest, validateMembers fuel depth seen tokens = Some (Ok rest) →
     ∃ members, tokens = flat_map member_tokens members ++ TCloseObject :: rest ∧
       NoDup members.*1 ∧ (∀ key, key ∈ members.*1 → key ∉ seen) ∧
       (depth ≤ maxJSONDepth → all_ok (maxJSONDepth - depth) snd members)) ∧
  (∀ depth tokens rest, validateElements fuel depth tokens = Some (Ok rest) →
     ∃ elements, tokens = flat_map json_tokens elements ++ TCloseArray :: rest ∧
       (depth ≤ maxJSONDepth → all_ok (maxJSONDepth - depth) id elements)).
Proof.
  assert (∀ A depth (f : A → json), all_ok (maxJSONDepth - depth) f []) as Hnil.
  { intros. unfold all_ok. by case_match. }
  induction fuel as [|fuel (IHv & IHm & IHe)]; [done|]. split_and!.
  - intros depth tokens rest. cbn [validateJSONValue]. destruct (Nat.ltb_spec maxJSONDepth depth); [done|].
    destruct (next_token tokens) as [[t rest']|] eqn:E; [|done]. apply next_token_some in E as [-> Hne].
    destruct t as [| | | |s|s|]; intros Hv; try done.
    + apply IHm in Hv as (members & -> & Hnd & _ & Hall). exists (JObject members).
      rewrite json_tokens_object, <- app_comm_cons, <- app_assoc. split; [done|]. split; [done|].
      apply json_ok_object. split; [done|]. by apply Hall.
    + apply IHe in Hv as (elements & -> & Hall). exists (JArray elements).
      rewrite json_tokens_array, <- app_comm_cons, <- app_assoc. split; [done|]. split; [done|].
      apply json_ok_array. by apply Hall.
    + injection Hv as <-. exists (JString s). split; [done|]. split; [done|exact I].
    + injection Hv as <-. exists (JScalar s). split; [done|]. split; [done|exact I].
  - intros depth seen tokens rest. cbn [validateMembers].
    destruct (next_token tokens) as [[t rest']|] eqn:E; [|by destruct (more tokens)].
    apply next_token_some in E as [-> _]. destruct t as [| | | |key|s|]; cbn [more]; try done.
    + intros [= ->]. exists []. split_and!; [done|constructor|by intros key ?%elem_of_nil|done].
    + case_bool_decide as Hseen; [done|].
      destruct (validateJSONValue fuel (depth + 1) rest') as [[rest''|e]|] eqn:Hv; try done. intros Hm.
      apply IHv in Hv as (v & -> & Hd & Hok). apply IHm in Hm as (members & -> & Hnd & Hfresh & Hall).
      exists ((key, v) :: members). simpl. split_and!.
      * by rewrite <- app_assoc.
      * constructor; [|done]. intros Hin%Hfresh. set_solver.
      * intros k [->|Hk]%elem_of_cons; [done|]. specialize (Hfresh k Hk). set_solver.
      * intros Hd'. apply all_ok_cons; [lia|done|by apply Hall].
  - intros depth tokens rest. cbn [validateElements]. destruct (more tokens).
    + destruct (validateJSONValue fuel (depth + 1) tokens) as [[rest''|e]|] eqn:Hv; try done. intros Hm.
      apply IHv in Hv as (v & -> & Hd & Hok). apply IHe in Hm as (elements & -> & Hall).
      exists (v :: elements). simpl. split; [by rewrite <- app_assoc|].
      intros Hd'. apply all_ok_cons; [lia|done|by apply Hall].
    + destruct (next_token tokens) as [[t rest']|] eqn:E; [|done]. apply next_token_some in E as [-> _].
      destruct t; try done. intros [= ->]. by exists [].
Qed.

(** Twice the tokens, and one more, is fuel enough for a document; the rest of
    the input does not matter. *)
Lemma validate_complete v : ∀ fuel depth rest,
  2 * length (json_tokens v) < fuel → depth ≤ maxJSONDepth → json_ok (maxJSONDepth - depth) v →
  validateJSONValue fuel depth (json_tokens v ++ rest) = Some (Ok rest).
Proof.
  induction v as [s|text|members IH|elements IH] using json_ind'; intros fuel depth rest Hf Hd Hok.
  1,2: destruct fuel as [|fuel]; [simpl in Hf; lia|]; simpl; by destruct (Nat.ltb_spec maxJSONDepth depth); [lia|].
  - rewrite json_tokens_object in *. destruct fuel as [|fuel]; [simpl in Hf; lia|].
    cbn [validateJSONValue app next_token]. destruct (Nat.ltb_spec maxJSONDepth depth); [lia|].
    apply json_ok_object in Hok as [Hnd Hall]. change (all_ok (maxJSONDepth - depth) snd members) in Hall.
    simpl in Hf. rewrite length_app in Hf. simpl in Hf. rewrite <- app_assoc. simpl.
    assert (∀ key, key ∈ members.*1 → key ∉ (∅ : gset string)) as Hfresh by set_solver.
    revert Hfresh. generalize (∅ : gset string). revert fuel Hf Hnd Hall.
    induction IH as [|[key v] members Hv _ IHl]; intros fuel Hf Hnd Hall seen Hfresh;
      (destruct fuel as [|fuel]; [simpl in Hf; lia|]); [done|].
    simpl in Hf. rewrite length_app in Hf. apply NoDup_cons in Hnd as [Hkey Hnd].
    apply all_ok_inv in Hall as (Hd' & Hok & Hall); [|done].
    cbn [flat_map member_tokens app validateMembers more next_token fst snd].
    rewrite bool_decide_eq_false_2 by (apply Hfresh; set_solver).
    simpl in Hv, Hok. rewrite <- app_assoc, Hv by (done || lia).
    apply IHl; [lia|done|done|]. intros k Hk. assert (k ≠ key) by (by intros ->).
    specialize (Hfresh k). set_solver.
  - rewrite json_tokens_array in *. destruct fuel as [|fuel]; [simpl in Hf; lia|].
    cbn [validateJSONValue app next_token]. destruct (Nat.ltb_spec maxJSONDepth depth); [lia|].
    apply json_ok_array in Hok. change (all_ok (maxJSONDepth - depth) id elements) in Hok.
    simpl in Hf. rewrite length_app in Hf. simpl in Hf. rewrite <- app_assoc. simpl.
    revert fuel Hf Hok.
    induction IH as [|v elements Hv _ IHl]; intros fuel Hf Hall;
      (destruct fuel as [|fuel]; [simpl in Hf; lia|]); [done|].
    simpl in Hf. rewrite length_app in Hf. apply all_ok_inv in Hall as (Hd' & Hok & Hall); [|done].
    cbn [flat_map validateElements]. rewrite <- app_assoc, more_json, Hv by (done || lia).
    apply IHl; [pose proof (json_tokens_length v); lia|done].
Qed.

(** C39. The validator of signed documents returns on every input, and accepts
    exactly the inputs that are one JSON document in which no object has a key
    twice and no value is nested deeper than 64. *)
Theorem validateSingleJSON_spec tokens :
  (∃ r, validateSingleJSON tokens = Some r) ∧
  (validateSingleJSON tokens = Some (Ok tt) ↔ ∃ v, tokens = json_tokens v ∧ json_ok maxJSONDepth v).
Proof.
  unfold validateSingleJSON, validateFuel. split; [|split].
  - pose proof (proj1 (validate_returns (2 * length tokens + 2)) 0 tokens ltac:(lia)) as Hr.
    destruct (validateJSONValue _ 0 tokens) as [[[|t rest]|e]|]; [by eexists..|done].
  - destruct (validateJSONValue _ 0 tokens) as [[[|t rest]|e]|] eqn:E; try done. intros _.
    apply validate_sound in E as (v & -> & _ & Hok). rewrite Nat.sub_0_r in Hok.
    exists v. by rewrite app_nil_r.
  - intros (v & -> & Hok). rewrite <- (app_nil_r (json_tokens v)) at 2.
    rewrite validate_complete; [done|lia|lia|]. by rewrite Nat.sub_0_r.
Qed.

(** * Evaluated *)

Example validate_accepts :
  validateSingleJSON [TOpenObject; TString "a"; TOpenArray; TScalar "1"; TOpenObject; TCloseObject; TCloseArray;
    TString "b"; TString "a"; TCloseObject] = Some (Ok tt).
Proof. reflexivity. Qed.

Example validate_duplicate :
  validateSingleJSON [TOpenObject; TString "a"; TScalar "1"; TString "a"; TScalar "2"; TCloseObject] =
  Some (Err JSONDuplicateKey).
Proof. reflexivity. Qed.

Example validate_trailing : validateSingleJSON [TScalar "1"; TScalar "2"] = Some (Err JSONTrailing).
Proof. reflexivity. Qed.

Example validate_deep :
  validateSingleJSON (repeat TOpenArray 65 ++ repeat TCloseArray 65) = Some (Ok tt) ∧
  validateSingleJSON (repeat TOpenArray 66 ++ repeat TCloseArray 66) = Some (Err JSONTooDeep).
Proof. by vm_compute. Qed.
