(* ===== verification/Access.v ===== *)
(** Access control: [internal/access/policy.go] and the types of
    [internal/domain/access.go].

    Roles, scopes and permissions are Go string types, so unknown values exist
    and are represented.  The two tables of the package are finite maps, and a
    lookup that misses yields Go's zero value. *)

From S2P Require Import Prelude.

Open Scope Z_scope.

(** * The vocabulary ([internal/domain/access.go]) *)

Abbreviation AccessRole := string (only parsing).
Definition RoleViewer : AccessRole := "viewer".
Definition RoleDeveloper : AccessRole := "developer".
Definition RoleProjectAdmin : AccessRole := "project-admin".
Definition RoleOrganizationAdmin : AccessRole := "organization-admin".
Definition RolePlatformAdmin : AccessRole := "platform-admin".

Abbreviation AccessScopeType := string (only parsing).
Definition ScopePlatform : AccessScopeType := "platform".
Definition ScopeTeam : AccessScopeType := "team".
Definition ScopeProject : AccessScopeType := "project".
Definition ScopeEnvironment : AccessScopeType := "environment".
Definition ScopeNamespace : AccessScopeType := "namespace".
Definition ScopeApplication : AccessScopeType := "application".

Abbreviation Permission := string (only parsing).
Definition PermissionResourcesRead : Permission := "resources.read".
Definition PermissionResourcesWrite : Permission := "resources.write".
Definition PermissionConfigRead : Permission := "config.read".
Definition PermissionConfigWrite : Permission := "config.write".
Definition PermissionOperationsRead : Permission := "operations.read".
Definition PermissionMetricsRead : Permission := "metrics.read".
Definition PermissionLogsRead : Permission := "logs.read".
Definition PermissionSecretsRead : Permission := "secrets.read".
Definition PermissionSecretsBind : Permission := "secrets.bind".
Definition PermissionSecretsCreate : Permission := "secrets.create".
Definition PermissionSecretsRotate : Permission := "secrets.rotate".
Definition PermissionSecretsDelete : Permission := "secrets.delete".
Definition PermissionCertificatesRead : Permission := "certificates.read".
Definition PermissionCertificatesCreate : Permission := "certificates.create".
Definition PermissionCertificatesRotate : Permission := "certificates.rotate".
Definition PermissionCertificatesDelete : Permission := "certificates.delete".
Definition PermissionRegistryCredentialsRead : Permission := "registry-credentials.read".
Definition PermissionRegistryCredentialsCreate : Permission := "registry-credentials.create".
Definition PermissionRegistryCredentialsRotate : Permission := "registry-credentials.rotate".
Definition PermissionRegistryCredentialsDelete : Permission := "registry-credentials.delete".
Definition PermissionBuildsRead : Permission := "builds.read".
Definition PermissionBuildsManage : Permission := "builds.manage".
Definition PermissionBuildsCancel : Permission := "builds.cancel".
Definition PermissionBuildsRetry : Permission := "builds.retry".
Definition PermissionHelmRead : Permission := "helm.read".
Definition PermissionHelmDeploy : Permission := "helm.deploy".
Definition PermissionHelmRetry : Permission := "helm.retry".
Definition PermissionHelmRollback : Permission := "helm.rollback".
Definition PermissionRegistryRead : Permission := "registry.read".
Definition PermissionRegistryPolicyWrite : Permission := "registry.policy.write".
Definition PermissionRegistryCleanupPreview : Permission := "registry.cleanup.preview".
Definition PermissionRegistryCleanupExecute : Permission := "registry.cleanup.execute".
Definition PermissionRegistryTargetsManage : Permission := "registry.targets.manage".
Definition PermissionExternalDNSRead : Permission := "external-dns.read".
Definition PermissionExternalDNSManage : Permission := "external-dns.manage".
Definition PermissionGrantsRead : Permission := "grants.read".
Definition PermissionGrantsManage : Permission := "grants.manage".
Definition PermissionPlatformAdmin : Permission := "platform.admin".

Record AccessTarget := mkTarget {
  t_Type : string;
  t_ID : string;
  t_TeamID : string;
  t_ProjectID : string;
  t_EnvironmentID : string;
  t_Namespace : string;
  t_ApplicationID : string;
}.

Record AccessBinding := mkBinding {
  b_Role : AccessRole;
  b_ScopeType : AccessScopeType;
  b_ScopeID : string;
  b_Permissions : list Permission;
  b_Source : string;
}.

Record AccessCapability := mkCapability {
  c_Role : AccessRole;
  c_ScopeType : AccessScopeType;
  c_ScopeID : string;
  c_Source : string;
  c_Actions : list string;
}.

(** * The policy tables *)

Definition roleRank : gmap string Z :=
  <[RoleViewer := 10]> $
  <[RoleDeveloper := 20]> $
  <[RoleProjectAdmin := 30]> $
  <[RoleOrganizationAdmin := 40]> $
  <[RolePlatformAdmin := 50]> ∅.

Definition viewerPermissions : list Permission :=
  [PermissionResourcesRead;
   PermissionConfigRead;
   PermissionOperationsRead;
   PermissionMetricsRead;
   PermissionSecretsRead;
   PermissionCertificatesRead;
   PermissionRegistryCredentialsRead;
   PermissionBuildsRead;
   PermissionHelmRead;
   PermissionRegistryRead;
   PermissionExternalDNSRead].

Definition developerPermissions : list Permission :=
  [PermissionResourcesRead;
   PermissionResourcesWrite;
   PermissionConfigRead;
   PermissionConfigWrite;
   PermissionOperationsRead;
   PermissionMetricsRead;
   PermissionLogsRead;
   PermissionSecretsRead;
   PermissionSecretsBind;
   PermissionCertificatesRead;
   PermissionRegistryCredentialsRead;
   PermissionBuildsRead;
   PermissionBuildsCancel;
   PermissionBuildsRetry;
   PermissionHelmRead;
   PermissionHelmDeploy;
   PermissionHelmRetry;
   PermissionRegistryRead;
   PermissionExternalDNSRead].

Definition projectAdminPermissions : list Permission :=
  [PermissionResourcesRead;
   PermissionResourcesWrite;
   PermissionConfigRead;
   PermissionConfigWrite;
   PermissionOperationsRead;
   PermissionMetricsRead;
   PermissionLogsRead;
   PermissionSecretsRead;
   PermissionSecretsBind;
   PermissionSecretsCreate;
   PermissionSecretsRotate;
   PermissionSecretsDelete;
   PermissionCertificatesRead;
   PermissionCertificatesCreate;
   PermissionCertificatesRotate;
   PermissionCertificatesDelete;
   PermissionRegistryCredentialsRead;
   PermissionRegistryCredentialsCreate;
   PermissionRegistryCredentialsRotate;
   PermissionRegistryCredentialsDelete;
   PermissionBuildsRead;
   PermissionBuildsManage;
   PermissionBuildsCancel;
   PermissionBuildsRetry;
   PermissionHelmRead;
   PermissionHelmDeploy;
   PermissionHelmRetry;
   PermissionHelmRollback;
   PermissionRegistryRead;
   PermissionRegistryPolicyWrite;
   PermissionRegistryCleanupPreview;
   PermissionRegistryCleanupExecute;
   PermissionExternalDNSRead;
   PermissionGrantsRead;
   PermissionGrantsManage].

Definition organizationAdminPermissions : list Permission :=
  [PermissionResourcesRead;
   PermissionResourcesWrite;
   PermissionConfigRead;
   PermissionConfigWrite;
   PermissionOperationsRead;
   PermissionMetricsRead;
   PermissionLogsRead;
   PermissionSecretsRead;
   PermissionSecretsBind;
   PermissionSecretsCreate;
   PermissionSecretsRotate;
   PermissionSecretsDelete;
   PermissionCertificatesRead;
   PermissionCertificatesCreate;
   PermissionCertificatesRotate;
   PermissionCertificatesDelete;
   PermissionRegistryCredentialsRead;
   PermissionRegistryCredentialsCreate;
   PermissionRegistryCredentialsRotate;
   PermissionRegistryCredentialsDelete;
   PermissionBuildsRead;
   PermissionBuildsManage;
   PermissionBuildsCancel;
   PermissionBuildsRetry;
   PermissionHelmRead;
   PermissionHelmDeploy;
   PermissionHelmRetry;
   PermissionHelmRollback;
   PermissionRegistryRead;
   PermissionRegistryPolicyWrite;
   PermissionRegistryCleanupPreview;
   PermissionRegistryCleanupExecute;
   PermissionExternalDNSRead;
   PermissionGrantsRead;
   PermissionGrantsManage].

Definition platformAdminPermissions : list Permission :=
  [PermissionResourcesRead;
   PermissionResourcesWrite;
   PermissionConfigRead;
   PermissionConfigWrite;
   PermissionOperationsRead;
   PermissionMetricsRead;
   PermissionLogsRead;
   PermissionSecretsRead;
   PermissionSecretsBind;
   PermissionSecretsCreate;
   PermissionSecretsRotate;
   PermissionSecretsDelete;
   PermissionCertificatesRead;
   PermissionCertificatesCreate;
   PermissionCertificatesRotate;
   PermissionCertificatesDelete;
   PermissionRegistryCredentialsRead;
   PermissionRegistryCredentialsCreate;
   PermissionRegistryCredentialsRotate;
   PermissionRegistryCredentialsDelete;
   PermissionBuildsRead;
   PermissionBuildsManage;
   PermissionBuildsCancel;
   PermissionBuildsRetry;
   PermissionHelmRead;
   PermissionHelmDeploy;
   PermissionHelmRetry;
   PermissionHelmRollback;
   PermissionRegistryRead;
   PermissionRegistryPolicyWrite;
   PermissionRegistryCleanupPreview;
   PermissionRegistryCleanupExecute;
   PermissionRegistryTargetsManage;
   PermissionExternalDNSRead;
   PermissionExternalDNSManage;
   PermissionGrantsRead;
   PermissionGrantsManage;
   PermissionPlatformAdmin].

Definition rolePermissions : gmap string (list Permission) :=
  <[RoleViewer := viewerPermissions]> $
  <[RoleDeveloper := developerPermissions]> $
  <[RoleProjectAdmin := projectAdminPermissions]> $
  <[RoleOrganizationAdmin := organizationAdminPermissions]> $
  <[RolePlatformAdmin := platformAdminPermissions]> ∅.

Definition rolePermissionsOf (role : AccessRole) : list Permission :=
  default [] (rolePermissions !! role).

Definition permissionActions (permission : Permission) (scope : AccessScopeType) : list string :=
  switch permission
   [(PermissionResourcesRead, switch scope
      [(ScopePlatform, ["applications:read"; "deployments:read"; "environments:read"; "projects:read"; "team-members:read"; "teams:read"]);
       (ScopeTeam, ["applications:read"; "deployments:read"; "environments:read"; "projects:read"; "team-members:read"; "teams:read"]);
       (ScopeEnvironment, ["deployments:read"; "environments:read"; "projects:read"]);
       (ScopeNamespace, ["deployments:read"; "environments:read"; "projects:read"]);
       (ScopeApplication, ["applications:read"; "deployments:read"; "projects:read"])]
      ["applications:read"; "deployments:read"; "environments:read"; "projects:read"]);
    (PermissionResourcesWrite, switch scope
      [(ScopePlatform, ["applications:create"; "applications:delete"; "deployments:create"; "deployments:update"; "environments:create"; "environments:delete"; "projects:create"]);
       (ScopeTeam, ["applications:create"; "applications:delete"; "deployments:create"; "deployments:update"; "environments:create"; "environments:delete"; "projects:create"]);
       (ScopeProject, ["applications:create"; "applications:delete"; "deployments:create"; "deployments:update"; "environments:create"; "environments:delete"])]
      ["deployments:create"; "deployments:update"]);
    (PermissionConfigRead, ["deployment-config:read"; "deployment-config:validate"]);
    (PermissionConfigWrite, ["deployment-config:preview"; "deployment-config:write"]);
    (PermissionOperationsRead, ["operations:read"]);
    (PermissionMetricsRead, ["metrics:read"]);
    (PermissionLogsRead, ["logs:read"]);
    (PermissionSecretsRead, ["secret-bindings:read"]);
    (PermissionSecretsBind, ["secret-bindings:bind"]);
    (PermissionSecretsCreate, ["secret-bindings:create"]);
    (PermissionSecretsRotate, ["secret-bindings:rotate"]);
    (PermissionSecretsDelete, ["secret-bindings:delete"]);
    (PermissionCertificatesRead, ["certificate-bindings:read"]);
    (PermissionCertificatesCreate, ["certificate-bindings:create"]);
    (PermissionCertificatesRotate, ["certificate-bindings:rotate"]);
    (PermissionCertificatesDelete, ["certificate-bindings:delete"]);
    (PermissionRegistryCredentialsRead, ["registry-credential-bindings:read"]);
    (PermissionRegistryCredentialsCreate, ["registry-credential-bindings:create"]);
    (PermissionRegistryCredentialsRotate, ["registry-credential-bindings:rotate"]);
    (PermissionRegistryCredentialsDelete, ["registry-credential-bindings:delete"]);
    (PermissionBuildsRead, ["app-sources:read"; "builds:read"]);
    (PermissionBuildsManage, ["app-sources:write"]);
    (PermissionBuildsCancel, ["builds:cancel"]);
    (PermissionBuildsRetry, ["builds:retry"]);
    (PermissionHelmRead, ["helm-releases:read"]);
    (PermissionHelmDeploy, ["helm-releases:deploy"; "helm-releases:disable"]);
    (PermissionHelmRetry, ["helm-releases:retry"]);
    (PermissionHelmRollback, ["helm-releases:rollback"]);
    (PermissionRegistryRead, ["registry:read"]);
    (PermissionRegistryPolicyWrite, ["registry-policies:write"]);
    (PermissionRegistryCleanupPreview, ["registry-cleanup:preview"]);
    (PermissionRegistryCleanupExecute, ["registry-cleanup:execute"]);
    (PermissionRegistryTargetsManage, ["registry-targets:read"; "registry-targets:write"]);
    (PermissionExternalDNSRead, ["external-dns-integrations:read"]);
    (PermissionExternalDNSManage, ["external-dns-integrations:read"; "external-dns-integrations:write"]);
    (PermissionGrantsRead, if String.eqb scope ScopePlatform || String.eqb scope ScopeTeam
      then ["access-grants:read"; "team-members:read"; "users:read"]
      else ["access-grants:read"]);
    (PermissionGrantsManage, if String.eqb scope ScopePlatform || String.eqb scope ScopeTeam
      then ["access-grants:create"; "access-grants:delete"; "projects:delete"; "team-members:write"]
      else ["access-grants:create"; "access-grants:delete"; "projects:delete"]);
    (PermissionPlatformAdmin, ["github-installations:setup"; "platform-releases:read"; "team-members:write"; "teams:create"; "teams:read"; "user-invitations:create"; "users:read"])]
   [].

(** * The policy operations *)

Definition ValidRole (role : AccessRole) : bool :=
  match roleRank !! role with Some _ => true | None => false end.

Definition RoleRank (role : AccessRole) : Z := default 0 (roleRank !! role).

Definition ValidScope (scope : AccessScopeType) : bool :=
  str_in scope [ScopePlatform; ScopeTeam; ScopeProject; ScopeEnvironment;
                ScopeNamespace; ScopeApplication].

(** The loop over the permissions, with the set of those already seen. *)
Fixpoint validExtraFrom (seen : list Permission) (permissions : list Permission) : bool :=
  match permissions with
  | [] => true
  | permission :: rest =>
      if negb (String.eqb permission PermissionLogsRead) || str_in permission seen
      then false
      else validExtraFrom (permission :: seen) rest
  end.

Definition ValidExtraPermissions (permissions : list Permission) : bool :=
  validExtraFrom [] permissions.

Definition BindingMatches (binding : AccessBinding) (target : AccessTarget) : bool :=
  let scoped (id : string) :=
    negb (String.eqb (b_ScopeID binding) "") && String.eqb (b_ScopeID binding) id in
  switch (b_ScopeType binding)
    [(ScopePlatform, String.eqb (b_ScopeID binding) "platform");
     (ScopeTeam, scoped (t_TeamID target));
     (ScopeProject, scoped (t_ProjectID target));
     (ScopeEnvironment, scoped (t_EnvironmentID target));
     (ScopeNamespace, scoped (t_Namespace target));
     (ScopeApplication, scoped (t_ApplicationID target))]
    false.

Definition bindingHas (binding : AccessBinding) (permission : Permission) : bool :=
  existsb (fun granted => String.eqb granted permission) (rolePermissionsOf (b_Role binding)) ||
  existsb (fun granted => String.eqb granted permission) (b_Permissions binding).

Definition HasPermission (bindings : list AccessBinding) (target : AccessTarget)
    (permission : Permission) : bool :=
  existsb (fun binding =>
    if negb (BindingMatches binding target) then false
    else
      existsb (fun granted => String.eqb granted permission) (rolePermissionsOf (b_Role binding)) ||
      existsb (fun granted => String.eqb granted permission) (b_Permissions binding))
    bindings.

Definition CanManageGrant (bindings : list AccessBinding) (target : AccessTarget)
    (requestedRole : AccessRole) : bool :=
  existsb (fun binding =>
    if negb (BindingMatches binding target) || negb (bindingHas binding PermissionGrantsManage)
    then false
    else RoleRank requestedRole <=? RoleRank (b_Role binding))
    bindings.

(** The action set is collected in a Go map and then sorted. *)
Definition actionSet (binding : AccessBinding) : gset string :=
  list_to_set
    ((rolePermissionsOf (b_Role binding) ++ b_Permissions binding)%list ≫=
       fun permission => permissionActions permission (b_ScopeType binding)).

Definition Actions (binding : AccessBinding) : list string :=
  sort_strings (elements (actionSet binding)).

Definition capabilityKey (binding : AccessBinding) : string :=
  b_Role binding +:+ nul +:+ b_ScopeType binding +:+ nul +:+
  b_ScopeID binding +:+ nul +:+ b_Source binding.

Definition capabilityOf (binding : AccessBinding) : AccessCapability :=
  mkCapability (b_Role binding) (b_ScopeType binding) (b_ScopeID binding)
    (b_Source binding) (Actions binding).

Fixpoint collectCapabilities (seen : list string) (bindings : list AccessBinding)
    : list AccessCapability :=
  match bindings with
  | [] => []
  | binding :: rest =>
      let key := capabilityKey binding in
      if str_in key seen then collectCapabilities seen rest
      else capabilityOf binding :: collectCapabilities (key :: seen) rest
  end.

Definition capabilityLess (x y : AccessCapability) : bool :=
  if negb (String.eqb (c_ScopeType x) (c_ScopeType y))
  then str_less (c_ScopeType x) (c_ScopeType y)
  else if negb (String.eqb (c_ScopeID x) (c_ScopeID y))
  then str_less (c_ScopeID x) (c_ScopeID y)
  else RoleRank (c_Role y) <? RoleRank (c_Role x).

Definition Capabilities (bindings : list AccessBinding) : list AccessCapability :=
  sort_slice capabilityLess (collectCapabilities [] bindings).

(** * Lemmas on the tables and the loops *)

Create HintDb access.

Lemma valid_role_cases role :
  ValidRole role = true →
  role ∈ [RoleViewer; RoleDeveloper; RoleProjectAdmin; RoleOrganizationAdmin; RolePlatformAdmin].
Proof.
  unfold ValidRole. destruct (roleRank !! role) as [r|] eqn:H; [|done]. intros _.
  unfold roleRank in H. map_literal H; set_solver.
Qed.

Lemma has_eqb (l : list Permission) p :
  existsb (fun granted => String.eqb granted p) l = true ↔ p ∈ l.
Proof.
  rewrite existsb_elem_of. split.
  - by intros (x & Hx & ->%String.eqb_eq).
  - intros H. exists p. by rewrite String.eqb_refl.
Qed.

Lemma bindingHas_spec b p :
  bindingHas b p = true ↔ p ∈ rolePermissionsOf (b_Role b) ∨ p ∈ b_Permissions b.
Proof. unfold bindingHas. by rewrite orb_true_iff, !has_eqb. Qed.

Lemma HasPermission_elem bs t p :
  HasPermission bs t p = true ↔
  ∃ b, b ∈ bs ∧ BindingMatches b t = true ∧ bindingHas b p = true.
Proof.
  unfold HasPermission. rewrite existsb_elem_of. fold bindingHas.
  split; intros (b & Hb & H); exists b.
  - destruct (BindingMatches b t); [|done]. by split_and!.
  - destruct H as [-> H]. by split.
Qed.

Lemma CanManageGrant_elem bs t role :
  CanManageGrant bs t role = true ↔
  ∃ b, b ∈ bs ∧ BindingMatches b t = true ∧
       bindingHas b PermissionGrantsManage = true ∧ RoleRank role ≤ RoleRank (b_Role b).
Proof.
  unfold CanManageGrant. rewrite existsb_elem_of.
  split; intros (b & Hb & H); exists b.
  - destruct (BindingMatches b t), (bindingHas b PermissionGrantsManage); try done.
    apply Z.leb_le in H. by split_and!.
  - destruct H as (-> & -> & ?%Z.leb_le). by split.
Qed.

Lemma validExtra_elem seen ps :
  validExtraFrom seen ps = true → ∀ p, p ∈ ps → p = PermissionLogsRead.
Proof.
  revert seen. induction ps as [|q ps IH]; simpl; intros seen H p Hp; [set_solver|].
  destruct (negb _ || _) eqn:E; [done|]. bool_prop.
  apply elem_of_cons in Hp as [->|Hp]; eauto.
Qed.

Lemma validExtra_length seen ps :
  validExtraFrom seen ps = true → PermissionLogsRead ∈ seen → ps = [].
Proof.
  destruct ps as [|p ps]; [done|]. simpl. intros H Hs.
  destruct (negb _ || _) eqn:E; [done|]. bool_prop. subst.
  apply str_in_spec in Hs. congruence.
Qed.

(** Every inclusion between two roles of the table, checked by computation. *)
Definition role_includes (low high : AccessRole) : bool :=
  forallb (fun p => str_in p (rolePermissionsOf high)) (rolePermissionsOf low).

Definition allRoles : list AccessRole :=
  [RoleViewer; RoleDeveloper; RoleProjectAdmin; RoleOrganizationAdmin; RolePlatformAdmin].

Lemma role_table_monotone :
  forallb (fun low => forallb (fun high =>
    implb (RoleRank low <=? RoleRank high) (role_includes low high)) allRoles) allRoles = true.
Proof. vm_compute. reflexivity. Qed.

Lemma role_rank_includes low high :
  ValidRole low = true → ValidRole high = true → RoleRank low ≤ RoleRank high →
  ∀ p, p ∈ rolePermissionsOf low → p ∈ rolePermissionsOf high.
Proof.
  intros Hl%valid_role_cases Hh%valid_role_cases Hrank p Hp.
  pose proof role_table_monotone as H. rewrite forallb_elem_of in H.
  specialize (H low Hl). rewrite forallb_elem_of in H. specialize (H high Hh).
  apply Z.leb_le in Hrank. rewrite Hrank in H. simpl in H.
  unfold role_includes in H. rewrite forallb_elem_of in H.
  by apply str_in_spec, H.
Qed.

Lemma unknown_role_rank role : ValidRole role = false → RoleRank role = 0.
Proof. unfold ValidRole, RoleRank. by destruct (roleRank !! role). Qed.

Lemma unknown_role_permissions role : ValidRole role = false → rolePermissionsOf role = [].
Proof.
  unfold rolePermissionsOf. intros H.
  destruct (rolePermissions !! role) as [ps|] eqn:E; [|done]. exfalso.
  unfold rolePermissions in E. map_literal E; vm_compute in H; done.
Qed.

Lemma valid_role_rank role : ValidRole role = true → 10 ≤ RoleRank role.
Proof.
  intros H%valid_role_cases.
  repeat (apply elem_of_cons in H as [->|H]; [by vm_compute|]). set_solver.
Qed.

(** * The contract of the package

    [Covers] is what a binding is meant to reach: the whole platform, or the
    one team, project, environment, namespace or application named by a
    non-empty identifier.  [Holds] is the set of permissions of a binding. *)

Inductive Covers (b : AccessBinding) (t : AccessTarget) : Prop :=
| covers_platform :
    b_ScopeType b = ScopePlatform → b_ScopeID b = "platform" → Covers b t
| covers_team :
    b_ScopeType b = ScopeTeam → b_ScopeID b = t_TeamID t → b_ScopeID b ≠ "" → Covers b t
| covers_project :
    b_ScopeType b = ScopeProject → b_ScopeID b = t_ProjectID t → b_ScopeID b ≠ "" → Covers b t
| covers_environment :
    b_ScopeType b = ScopeEnvironment → b_ScopeID b = t_EnvironmentID t → b_ScopeID b ≠ "" → Covers b t
| covers_namespace :
    b_ScopeType b = ScopeNamespace → b_ScopeID b = t_Namespace t → b_ScopeID b ≠ "" → Covers b t
| covers_application :
    b_ScopeType b = ScopeApplication → b_ScopeID b = t_ApplicationID t → b_ScopeID b ≠ "" → Covers b t.

Definition Holds (b : AccessBinding) (p : Permission) : Prop :=
  p ∈ rolePermissionsOf (b_Role b) ∨ p ∈ b_Permissions b.

Lemma switch_in {A} (x : string) (cases : list (string * A)) d y :
  switch x cases d = y → (∃ a, (x, a) ∈ cases ∧ y = a) ∨ y = d.
Proof.
  induction cases as [|[c a] cases IH]; simpl; [auto|].
  destruct (String.eqb_spec x c) as [->|]; intros H.
  - left. exists a. split; [by left | done].
  - destruct (IH H) as [(a' & ? & ?)|?]; [|auto]. left. exists a'. split; [by right | done].
Qed.

Lemma BindingMatches_covers b t : BindingMatches b t = true ↔ Covers b t.
Proof.
  split.
  - unfold BindingMatches. intros H. apply switch_in in H as [(a & Hin & Ha)|]; [|done].
    repeat (apply elem_of_cons in Hin as [[= ? ->]|Hin]);
      try (by apply not_elem_of_nil in Hin); symmetry in Ha; bool_prop;
      [apply covers_platform|apply covers_team|apply covers_project|apply covers_environment
      |apply covers_namespace|apply covers_application]; congruence.
  - unfold BindingMatches. intros [Hs Hi|Hs Hi Hn|Hs Hi Hn|Hs Hi Hn|Hs Hi Hn|Hs Hi Hn];
      rewrite Hs; simpl; [by apply String.eqb_eq|..];
      apply andb_true_iff; split; try (by apply String.eqb_eq);
      by apply negb_true_iff, String.eqb_neq.
Qed.

Lemma manager_role bs t role :
  (∀ b, b ∈ bs → ValidExtraPermissions (b_Permissions b) = true) →
  CanManageGrant bs t role = true →
  ∃ b, b ∈ bs ∧ BindingMatches b t = true ∧ ValidRole (b_Role b) = true ∧
       RoleRank RoleProjectAdmin ≤ RoleRank (b_Role b) ∧ RoleRank role ≤ RoleRank (b_Role b).
Proof.
  intros Hex Hm. apply CanManageGrant_elem in Hm as (b & Hb & Hmatch & Hhas & Hrank).
  exists b. apply bindingHas_spec in Hhas as [Hrole|Hextra].
  - destruct (ValidRole (b_Role b)) eqn:Hv.
    + split_and!; try done. apply valid_role_cases in Hv.
      repeat (apply elem_of_cons in Hv as [Hv|Hv];
        [rewrite Hv in *; first [by vm_compute | by apply str_in_spec in Hrole; vm_compute in Hrole]|]).
      by apply not_elem_of_nil in Hv.
    + rewrite unknown_role_permissions in Hrole by done. by apply not_elem_of_nil in Hrole.
  - pose proof (validExtra_elem _ _ (Hex b Hb) _ Hextra). done.
Qed.

Lemma actionSet_elem b a :
  a ∈ actionSet b ↔ ∃ p, Holds b p ∧ a ∈ permissionActions p (b_ScopeType b).
Proof.
  unfold actionSet, Holds. rewrite elem_of_list_to_set, list_elem_of_bind.
  setoid_rewrite elem_of_app. split; intros (p & ? & ?); exists p; tauto.
Qed.

Lemma Actions_elem b a :
  a ∈ Actions b ↔ ∃ p, Holds b p ∧ a ∈ permissionActions p (b_ScopeType b).
Proof. unfold Actions, sort_strings. by rewrite elem_of_sort_slice, elem_of_elements, actionSet_elem. Qed.

Lemma collectCapabilities_elem seen bs c :
  c ∈ collectCapabilities seen bs → ∃ b, b ∈ bs ∧ c = capabilityOf b.
Proof.
  revert seen. induction bs as [|b bs IH]; simpl; intros seen H.
  { by apply not_elem_of_nil in H. }
  destruct (str_in (capabilityKey b) seen).
  - destruct (IH _ H) as (b' & ? & ?). exists b'. split; [by right | done].
  - apply elem_of_cons in H as [->|H]; [exists b; split; [by left | done]|].
    destruct (IH _ H) as (b' & ? & ?). exists b'. split; [by right | done].
Qed.

Lemma collectCapabilities_complete seen bs b :
  b ∈ bs → str_in (capabilityKey b) seen = false →
  ∃ b', b' ∈ bs ∧ capabilityKey b' = capabilityKey b ∧
        capabilityOf b' ∈ collectCapabilities seen bs.
Proof.
  revert seen. induction bs as [|b0 bs IH]; simpl; intros seen Hb Hs.
  { by apply not_elem_of_nil in Hb. }
  destruct (str_in (capabilityKey b0) seen) eqn:E.
  - apply elem_of_cons in Hb as [->|Hb]; [congruence|].
    destruct (IH seen Hb Hs) as (b' & ? & ? & ?). exists b'. split_and!; [by right | done..].
  - destruct (String.eqb_spec (capabilityKey b0) (capabilityKey b)) as [Heq|Hne].
    + exists b0. split_and!; [by left | done | by left].
    + apply elem_of_cons in Hb as [->|Hb]; [done|].
      destruct (IH (capabilityKey b0 :: seen) Hb) as (b' & ? & ? & ?).
      { unfold str_in in *. simpl. apply orb_false_iff. split; [|done].
        apply String.eqb_neq. congruence. }
      exists b'. split_and!; [by right | done | by right].
Qed.

(** * Theorems *)

(** C33. Role delegation cannot escalate.  Whoever passes [CanManageGrant] for
    a role on a target already holds, on that target, every permission that a
    grant of that role (with any extra permissions the policy accepts) gives
    there. *)
Theorem CanManageGrant_no_escalation (bs : list AccessBinding) (t : AccessTarget)
    (granted : AccessBinding) (p : Permission) :
  (∀ b, b ∈ bs → ValidExtraPermissions (b_Permissions b) = true) →
  ValidExtraPermissions (b_Permissions granted) = true →
  CanManageGrant bs t (b_Role granted) = true →
  HasPermission [granted] t p = true →
  HasPermission bs t p = true.
Proof.
  intros Hex Hg Hm Hp.
  apply manager_role in Hm as (b & Hb & Hmatch & Hv & Hpa & Hrank); [|done].
  apply HasPermission_elem. exists b. split_and!; [done..|].
  apply HasPermission_elem in Hp as (g & ->%list_elem_of_singleton & _ & Hp).
  apply bindingHas_spec. left. apply bindingHas_spec in Hp as [Hp|Hp].
  - destruct (ValidRole (b_Role granted)) eqn:Hvg.
    + by eapply role_rank_includes.
    + rewrite unknown_role_permissions in Hp by done. by apply not_elem_of_nil in Hp.
  - rewrite (validExtra_elem _ _ Hg _ Hp).
    apply (role_rank_includes RoleProjectAdmin); [done..|]. by apply str_in_spec.
Qed.

Lemma CanManageGrant_no_escalation_witness :
  HasPermission
    [mkBinding RoleProjectAdmin ScopeProject "p1" [] "grant"]
    (mkTarget "application" "a1" "t1" "p1" "e1" "n1" "a1") PermissionLogsRead = true.
Proof.
  apply (CanManageGrant_no_escalation _ _
    (mkBinding RoleViewer ScopeApplication "a1" [PermissionLogsRead] "grant")).
  - intros b ->%list_elem_of_singleton. reflexivity.
  - reflexivity.
  - vm_compute. reflexivity.
  - vm_compute. reflexivity.
Defined.

(** The evaluator implements its contract: a permission is allowed on a
    target exactly when some binding covers the target (in the sense of
    [Covers], where an empty identifier never matches) and holds the
    permission. *)
Theorem HasPermission_refines (bs : list AccessBinding) (t : AccessTarget) (p : Permission) :
  HasPermission bs t p = true ↔ ∃ b, b ∈ bs ∧ Covers b t ∧ Holds b p.
Proof.
  rewrite HasPermission_elem. unfold Holds.
  by setoid_rewrite BindingMatches_covers; setoid_rewrite bindingHas_spec.
Qed.

(** The roles form a chain: a valid role of at least the same rank has
    every permission of the lower one, and the inclusion of the permission
    tables is strict only where the rank is. *)
Theorem role_hierarchy (low high : AccessRole) :
  ValidRole low = true → ValidRole high = true →
  (RoleRank low ≤ RoleRank high →
     ∀ p, p ∈ rolePermissionsOf low → p ∈ rolePermissionsOf high) ∧
  (RoleRank low = RoleRank high → low = high).
Proof.
  intros Hl Hh. split; [by apply role_rank_includes|].
  apply valid_role_cases in Hl, Hh. intros Hrank.
  repeat (apply elem_of_cons in Hl as [->|Hl];
    [repeat (apply elem_of_cons in Hh as [->|Hh]; [by vm_compute in Hrank|]);
     by apply not_elem_of_nil in Hh|]).
  by apply not_elem_of_nil in Hl.
Qed.

Lemma role_hierarchy_witness :
  PermissionConfigWrite ∈ rolePermissionsOf RoleOrganizationAdmin.
Proof.
  apply (proj1 (role_hierarchy RoleDeveloper RoleOrganizationAdmin eq_refl eq_refl)).
  - vm_compute. discriminate.
  - apply str_in_spec. vm_compute. reflexivity.
Defined.

(** What the UI is told is what the evaluator allows: every action listed
    in a capability comes from a permission held by a binding of that scope,
    and that permission is allowed on every target the binding covers; the
    action lists are sorted and free of duplicates. *)
Theorem Capabilities_sound (bs : list AccessBinding) (c : AccessCapability) :
  c ∈ Capabilities bs →
  StronglySorted String.le (c_Actions c) ∧ NoDup (c_Actions c) ∧
  ∀ a, a ∈ c_Actions c →
    ∃ b p, b ∈ bs ∧ b_ScopeType b = c_ScopeType c ∧ b_ScopeID b = c_ScopeID c ∧
      a ∈ permissionActions p (c_ScopeType c) ∧
      ∀ t, Covers b t → HasPermission bs t p = true.
Proof.
  unfold Capabilities. rewrite elem_of_sort_slice. intros H.
  apply collectCapabilities_elem in H as (b & Hb & ->). simpl. split_and!.
  - apply sort_strings_sorted.
  - unfold Actions, sort_strings. rewrite sort_slice_permutation. apply NoDup_elements.
  - intros a (p & Hp & Ha)%Actions_elem. exists b, p. split_and!; [done..|].
    intros t Hc. apply HasPermission_elem. exists b.
    by rewrite BindingMatches_covers, bindingHas_spec.
Qed.

Lemma Capabilities_sound_witness :
  NoDup (Actions (mkBinding RoleViewer ScopeProject "p1" [] "grant")).
Proof.
  apply (Capabilities_sound [mkBinding RoleViewer ScopeProject "p1" [] "grant"]
    (capabilityOf (mkBinding RoleViewer ScopeProject "p1" [] "grant"))).
  left.
Defined.

(** [Capabilities] keys a capability by role, scope, identifier and source
    and drops the later bindings of a key whole: a subject with two grants of
    one role and scope, of which only the second carries [logs.read], is
    allowed to read logs by the evaluator, while no capability lists the
    action. *)
Theorem Capabilities_drops_extra_permission :
  let first := mkBinding RoleViewer ScopeProject "p1" [] "explicit" in
  let second := mkBinding RoleViewer ScopeProject "p1" [PermissionLogsRead] "explicit" in
  let t := mkTarget "application" "a1" "t1" "p1" "e1" "n1" "a1" in
  HasPermission [first; second] t PermissionLogsRead = true ∧
  forallb (fun c => negb (str_in "logs:read" (c_Actions c))) (Capabilities [first; second]) = true ∧
  forallb (fun c => str_in "logs:read" (c_Actions c)) (Capabilities [second; first]) = true.
Proof. vm_compute. done. Qed.
