(* ===== verification/BuildModel.v ===== *)
(** The data of the build orchestration: [internal/builds/model.go], the
    result protocol of [internal/builder/result.go], and the state of
    [MemoryStore] in [internal/builds/memory.go].

    A record has a field for every field of the Go struct that a modelled
    operation reads or writes.  The store keeps values, never pointers (its
    methods clone what they take and return), so an update is a new value. *)

From S2P Require Import Prelude Regexp GoStrings.

Open Scope Z_scope.

(** * Errors of the package *)

Inductive BuildErr : Set :=
| ErrNotFound | ErrConflict | ErrUnauthorized | ErrLeaseHeld | ErrLeaseLost
| ErrTerminal | ErrInvalid.

(** * Enumerations *)

Inductive InstallationLifecycle : Set :=
| InstallationPending | InstallationActive | InstallationSuspended | InstallationDeleted.

Inductive RepositoryLifecycle : Set := RepositoryActive | RepositoryRemoved.

Inductive SourceKind : Set := SourceGitHub | SourceGitSSH.

Inductive DeliveryState : Set :=
| DeliveryClaimed | DeliveryProcessing | DeliveryEnqueued | DeliveryIgnored | DeliveryFailed.

Inductive AttemptState : Set :=
| AttemptQueued | AttemptPreparing | AttemptRunning | AttemptCancelling
| AttemptSucceeded | AttemptFailed | AttemptCancelled.

Inductive ReleaseProjectionState : Set :=
| ReleaseProjectionPending | ReleaseProjectionProcessing
| ReleaseProjectionSucceeded | ReleaseProjectionFailed.

#[export] Instance InstallationLifecycle_eq_dec : EqDecision InstallationLifecycle.
Proof. solve_decision. Defined.
#[export] Instance RepositoryLifecycle_eq_dec : EqDecision RepositoryLifecycle.
Proof. solve_decision. Defined.
#[export] Instance SourceKind_eq_dec : EqDecision SourceKind.
Proof. solve_decision. Defined.
#[export] Instance DeliveryState_eq_dec : EqDecision DeliveryState.
Proof. solve_decision. Defined.
#[export] Instance AttemptState_eq_dec : EqDecision AttemptState.
Proof. solve_decision. Defined.
#[export] Instance ReleaseProjectionState_eq_dec : EqDecision ReleaseProjectionState.
Proof. solve_decision. Defined.

Definition terminalAttempt (state : AttemptState) : bool :=
  bool_decide (state = AttemptSucceeded) || bool_decide (state = AttemptFailed) ||
  bool_decide (state = AttemptCancelled).

Definition terminalDelivery (state : DeliveryState) : bool :=
  bool_decide (state = DeliveryEnqueued) || bool_decide (state = DeliveryIgnored) ||
  bool_decide (state = DeliveryFailed).

(** * The builder's result ([internal/builder/result.go]) *)

Record Image := mkImage {
  im_Reference : string;
  im_Digest : string;
  im_Platforms : list string;
}.

Record Cache := mkCache {
  ca_Reference : string;
  ca_Digest : string;
}.

Record BuildResult := mkResult {
  br_APIVersion : string;
  br_OperationID : string;
  br_Generation : Z;
  br_Status : string;
  br_ResultImage : Image;
  br_ResultCache : option Cache;
  br_CacheReuse : string;
  br_Warnings : list string;
  br_StartedAt : Time;
  br_CompletedAt : Time;
}.

(** * Sources, definitions and attempts ([internal/builds/model.go]) *)

Record AccountIdentity := mkAccount {
  ac_ID : Z;
  ac_Login : string;
  ac_Type : string;
}.

Record RepositoryIdentity := mkRepoIdentity {
  ri_ID : Z;
  ri_Name : string;
  ri_OwnerID : Z;
  ri_OwnerLogin : string;
}.

Record Installation := mkInstallation {
  in_ID : string;
  in_AppID : Z;
  in_GitHubInstallationID : Z;
  in_Account : AccountIdentity;
  in_RepositorySelection : string;
  in_Permissions : gmap string string;
  in_Lifecycle : InstallationLifecycle;
  in_SuspendedAt : option Time;
  in_DeletedAt : option Time;
  in_LastVerifiedAt : Time;
  in_UpdatedAt : Time;
}.

Definition in_set_RepositorySelection (v : string) (r : Installation) : Installation :=
  mkInstallation (in_ID r) (in_AppID r) (in_GitHubInstallationID r) (in_Account r) v (in_Permissions r) (in_Lifecycle r) (in_SuspendedAt r) (in_DeletedAt r) (in_LastVerifiedAt r) (in_UpdatedAt r).

Definition in_set_Permissions (v : gmap string string) (r : Installation) : Installation :=
  mkInstallation (in_ID r) (in_AppID r) (in_GitHubInstallationID r) (in_Account r) (in_RepositorySelection r) v (in_Lifecycle r) (in_SuspendedAt r) (in_DeletedAt r) (in_LastVerifiedAt r) (in_UpdatedAt r).

Definition in_set_Lifecycle (v : InstallationLifecycle) (r : Installation) : Installation :=
  mkInstallation (in_ID r) (in_AppID r) (in_GitHubInstallationID r) (in_Account r) (in_RepositorySelection r) (in_Permissions r) v (in_SuspendedAt r) (in_DeletedAt r) (in_LastVerifiedAt r) (in_UpdatedAt r).

Definition in_set_SuspendedAt (v : option Time) (r : Installation) : Installation :=
  mkInstallation (in_ID r) (in_AppID r) (in_GitHubInstallationID r) (in_Account r) (in_RepositorySelection r) (in_Permissions r) (in_Lifecycle r) v (in_DeletedAt r) (in_LastVerifiedAt r) (in_UpdatedAt r).

Definition in_set_DeletedAt (v : option Time) (r : Installation) : Installation :=
  mkInstallation (in_ID r) (in_AppID r) (in_GitHubInstallationID r) (in_Account r) (in_RepositorySelection r) (in_Permissions r) (in_Lifecycle r) (in_SuspendedAt r) v (in_LastVerifiedAt r) (in_UpdatedAt r).

Definition in_set_UpdatedAt (v : Time) (r : Installation) : Installation :=
  mkInstallation (in_ID r) (in_AppID r) (in_GitHubInstallationID r) (in_Account r) (in_RepositorySelection r) (in_Permissions r) (in_Lifecycle r) (in_SuspendedAt r) (in_DeletedAt r) (in_LastVerifiedAt r) v.

Record Repository := mkRepository {
  re_ID : string;
  re_InstallationID : string;
  re_Identity : RepositoryIdentity;
  re_Lifecycle : RepositoryLifecycle;
  re_LastVerifiedAt : Time;
  re_RemovedAt : option Time;
  re_CreatedAt : Time;
  re_UpdatedAt : Time;
}.

Definition re_set_Lifecycle (v : RepositoryLifecycle) (r : Repository) : Repository :=
  mkRepository (re_ID r) (re_InstallationID r) (re_Identity r) v (re_LastVerifiedAt r) (re_RemovedAt r) (re_CreatedAt r) (re_UpdatedAt r).

Definition re_set_RemovedAt (v : option Time) (r : Repository) : Repository :=
  mkRepository (re_ID r) (re_InstallationID r) (re_Identity r) (re_Lifecycle r) (re_LastVerifiedAt r) v (re_CreatedAt r) (re_UpdatedAt r).

Definition re_set_CreatedAt (v : Time) (r : Repository) : Repository :=
  mkRepository (re_ID r) (re_InstallationID r) (re_Identity r) (re_Lifecycle r) (re_LastVerifiedAt r) (re_RemovedAt r) v (re_UpdatedAt r).

Definition re_set_UpdatedAt (v : Time) (r : Repository) : Repository :=
  mkRepository (re_ID r) (re_InstallationID r) (re_Identity r) (re_Lifecycle r) (re_LastVerifiedAt r) (re_RemovedAt r) (re_CreatedAt r) v.

(** [DefinitionSpec], with the registry binding and the execution settings
    that the planner writes into an attempt. *)

Record DefinitionSpec := mkSpec {
  sp_Platforms : list string;
  sp_RegistryServer : string;
  sp_RegistryPrefix : string;
  sp_CacheTrustLane : string;
  sp_ExecutionNamespace : string;
  sp_MaxAttempts : Z;
}.

Definition sp_set_ExecutionNamespace (v : string) (r : DefinitionSpec) : DefinitionSpec :=
  mkSpec (sp_Platforms r) (sp_RegistryServer r) (sp_RegistryPrefix r) (sp_CacheTrustLane r) v (sp_MaxAttempts r).

Record GitSSHSource := mkGitSSH {
  gs_RepositoryURL : string;
  gs_ApprovedHost : string;
}.

Record BuildDefinition := mkDefinition {
  d_ID : string;
  d_ProjectID : string;
  d_ServiceID : string;
  d_Kind : SourceKind;
  d_InstallationID : string;
  d_RepositoryID : string;
  d_GitSSH : option GitSSHSource;
  d_TriggerRef : string;
  d_Spec : DefinitionSpec;
  d_DefinitionDigest : string;
  d_DefinitionGeneration : Z;
  d_Enabled : bool;
  d_CreatedAt : Time;
  d_UpdatedAt : Time;
}.

Definition d_set_ID (v : string) (r : BuildDefinition) : BuildDefinition :=
  mkDefinition v (d_ProjectID r) (d_ServiceID r) (d_Kind r) (d_InstallationID r) (d_RepositoryID r) (d_GitSSH r) (d_TriggerRef r) (d_Spec r) (d_DefinitionDigest r) (d_DefinitionGeneration r) (d_Enabled r) (d_CreatedAt r) (d_UpdatedAt r).

Definition d_set_Spec (v : DefinitionSpec) (r : BuildDefinition) : BuildDefinition :=
  mkDefinition (d_ID r) (d_ProjectID r) (d_ServiceID r) (d_Kind r) (d_InstallationID r) (d_RepositoryID r) (d_GitSSH r) (d_TriggerRef r) v (d_DefinitionDigest r) (d_DefinitionGeneration r) (d_Enabled r) (d_CreatedAt r) (d_UpdatedAt r).

Definition d_set_DefinitionGeneration (v : Z) (r : BuildDefinition) : BuildDefinition :=
  mkDefinition (d_ID r) (d_ProjectID r) (d_ServiceID r) (d_Kind r) (d_InstallationID r) (d_RepositoryID r) (d_GitSSH r) (d_TriggerRef r) (d_Spec r) (d_DefinitionDigest r) v (d_Enabled r) (d_CreatedAt r) (d_UpdatedAt r).

Definition d_set_CreatedAt (v : Time) (r : BuildDefinition) : BuildDefinition :=
  mkDefinition (d_ID r) (d_ProjectID r) (d_ServiceID r) (d_Kind r) (d_InstallationID r) (d_RepositoryID r) (d_GitSSH r) (d_TriggerRef r) (d_Spec r) (d_DefinitionDigest r) (d_DefinitionGeneration r) (d_Enabled r) v (d_UpdatedAt r).

Record DeliveryReceipt := mkReceipt {
  r_ClaimKey : string;
  r_AppID : Z;
  r_GitHubInstallationID : Z;
  r_DeliveryID : string;
  r_Event : string;
  r_BodySHA256 : string;
  r_TypedEvent : string;
  r_RepositoryID : Z;
  r_GitRef : string;
  r_State : DeliveryState;
  r_FailureCode : string;
  r_LeaseOwner : string;
  r_LeaseUntil : Time;
  r_AvailableAt : Time;
  r_ReceivedAt : Time;
  r_CompletedAt : option Time;
  r_UpdatedAt : Time;
}.

Definition r_set_ClaimKey (v : string) (r : DeliveryReceipt) : DeliveryReceipt :=
  mkReceipt v (r_AppID r) (r_GitHubInstallationID r) (r_DeliveryID r) (r_Event r) (r_BodySHA256 r) (r_TypedEvent r) (r_RepositoryID r) (r_GitRef r) (r_State r) (r_FailureCode r) (r_LeaseOwner r) (r_LeaseUntil r) (r_AvailableAt r) (r_ReceivedAt r) (r_CompletedAt r) (r_UpdatedAt r).

Definition r_set_TypedEvent (v : string) (r : DeliveryReceipt) : DeliveryReceipt :=
  mkReceipt (r_ClaimKey r) (r_AppID r) (r_GitHubInstallationID r) (r_DeliveryID r) (r_Event r) (r_BodySHA256 r) v (r_RepositoryID r) (r_GitRef r) (r_State r) (r_FailureCode r) (r_LeaseOwner r) (r_LeaseUntil r) (r_AvailableAt r) (r_ReceivedAt r) (r_CompletedAt r) (r_UpdatedAt r).

Definition r_set_State (v : DeliveryState) (r : DeliveryReceipt) : DeliveryReceipt :=
  mkReceipt (r_ClaimKey r) (r_AppID r) (r_GitHubInstallationID r) (r_DeliveryID r) (r_Event r) (r_BodySHA256 r) (r_TypedEvent r) (r_RepositoryID r) (r_GitRef r) v (r_FailureCode r) (r_LeaseOwner r) (r_LeaseUntil r) (r_AvailableAt r) (r_ReceivedAt r) (r_CompletedAt r) (r_UpdatedAt r).

Definition r_set_FailureCode (v : string) (r : DeliveryReceipt) : DeliveryReceipt :=
  mkReceipt (r_ClaimKey r) (r_AppID r) (r_GitHubInstallationID r) (r_DeliveryID r) (r_Event r) (r_BodySHA256 r) (r_TypedEvent r) (r_RepositoryID r) (r_GitRef r) (r_State r) v (r_LeaseOwner r) (r_LeaseUntil r) (r_AvailableAt r) (r_ReceivedAt r) (r_CompletedAt r) (r_UpdatedAt r).

Definition r_set_LeaseOwner (v : string) (r : DeliveryReceipt) : DeliveryReceipt :=
  mkReceipt (r_ClaimKey r) (r_AppID r) (r_GitHubInstallationID r) (r_DeliveryID r) (r_Event r) (r_BodySHA256 r) (r_TypedEvent r) (r_RepositoryID r) (r_GitRef r) (r_State r) (r_FailureCode r) v (r_LeaseUntil r) (r_AvailableAt r) (r_ReceivedAt r) (r_CompletedAt r) (r_UpdatedAt r).

Definition r_set_LeaseUntil (v : Time) (r : DeliveryReceipt) : DeliveryReceipt :=
  mkReceipt (r_ClaimKey r) (r_AppID r) (r_GitHubInstallationID r) (r_DeliveryID r) (r_Event r) (r_BodySHA256 r) (r_TypedEvent r) (r_RepositoryID r) (r_GitRef r) (r_State r) (r_FailureCode r) (r_LeaseOwner r) v (r_AvailableAt r) (r_ReceivedAt r) (r_CompletedAt r) (r_UpdatedAt r).

Definition r_set_AvailableAt (v : Time) (r : DeliveryReceipt) : DeliveryReceipt :=
  mkReceipt (r_ClaimKey r) (r_AppID r) (r_GitHubInstallationID r) (r_DeliveryID r) (r_Event r) (r_BodySHA256 r) (r_TypedEvent r) (r_RepositoryID r) (r_GitRef r) (r_State r) (r_FailureCode r) (r_LeaseOwner r) (r_LeaseUntil r) v (r_ReceivedAt r) (r_CompletedAt r) (r_UpdatedAt r).

Definition r_set_CompletedAt (v : option Time) (r : DeliveryReceipt) : DeliveryReceipt :=
  mkReceipt (r_ClaimKey r) (r_AppID r) (r_GitHubInstallationID r) (r_DeliveryID r) (r_Event r) (r_BodySHA256 r) (r_TypedEvent r) (r_RepositoryID r) (r_GitRef r) (r_State r) (r_FailureCode r) (r_LeaseOwner r) (r_LeaseUntil r) (r_AvailableAt r) (r_ReceivedAt r) v (r_UpdatedAt r).

Definition r_set_UpdatedAt (v : Time) (r : DeliveryReceipt) : DeliveryReceipt :=
  mkReceipt (r_ClaimKey r) (r_AppID r) (r_GitHubInstallationID r) (r_DeliveryID r) (r_Event r) (r_BodySHA256 r) (r_TypedEvent r) (r_RepositoryID r) (r_GitRef r) (r_State r) (r_FailureCode r) (r_LeaseOwner r) (r_LeaseUntil r) (r_AvailableAt r) (r_ReceivedAt r) (r_CompletedAt r) v.

(** [BuildAttempt]; [DestinationRepository], [PlanPlatforms] and [CacheImports]
    are [PlanRequest.Build.Destination.Repository], [.Platforms] and
    [.Cache.Imports]. *)

Record BuildAttempt := mkAttempt {
  a_ID : string;
  a_DefinitionID : string;
  a_DeliveryClaimKey : string;
  a_TriggerKind : string;
  a_TriggerKey : string;
  a_ProjectID : string;
  a_ServiceID : string;
  a_CommitSHA : string;
  a_GitRef : string;
  a_Generation : Z;
  a_DefinitionDigest : string;
  a_SourceSnapshot : BuildDefinition;
  a_DestinationRepository : string;
  a_PlanPlatforms : list string;
  a_CacheImports : list string;
  a_State : AttemptState;
  a_ExecutionAttempts : Z;
  a_MaxAttempts : Z;
  a_AvailableAt : Time;
  a_LeaseOwner : string;
  a_LeaseUntil : Time;
  a_JobNamespace : string;
  a_JobName : string;
  a_CacheCandidate : string;
  a_CacheReference : string;
  a_Result : option BuildResult;
  a_LogReference : string;
  a_FailureCode : string;
  a_CancelRequestedAt : option Time;
  a_StartedAt : option Time;
  a_CompletedAt : option Time;
  a_CreatedAt : Time;
  a_UpdatedAt : Time;
}.

Definition a_set_SourceSnapshot (v : BuildDefinition) (r : BuildAttempt) : BuildAttempt :=
  mkAttempt (a_ID r) (a_DefinitionID r) (a_DeliveryClaimKey r) (a_TriggerKind r) (a_TriggerKey r) (a_ProjectID r) (a_ServiceID r) (a_CommitSHA r) (a_GitRef r) (a_Generation r) (a_DefinitionDigest r) v (a_DestinationRepository r) (a_PlanPlatforms r) (a_CacheImports r) (a_State r) (a_ExecutionAttempts r) (a_MaxAttempts r) (a_AvailableAt r) (a_LeaseOwner r) (a_LeaseUntil r) (a_JobNamespace r) (a_JobName r) (a_CacheCandidate r) (a_CacheReference r) (a_Result r) (a_LogReference r) (a_FailureCode r) (a_CancelRequestedAt r) (a_StartedAt r) (a_CompletedAt r) (a_CreatedAt r) (a_UpdatedAt r).

Definition a_set_State (v : AttemptState) (r : BuildAttempt) : BuildAttempt :=
  mkAttempt (a_ID r) (a_DefinitionID r) (a_DeliveryClaimKey r) (a_TriggerKind r) (a_TriggerKey r) (a_ProjectID r) (a_ServiceID r) (a_CommitSHA r) (a_GitRef r) (a_Generation r) (a_DefinitionDigest r) (a_SourceSnapshot r) (a_DestinationRepository r) (a_PlanPlatforms r) (a_CacheImports r) v (a_ExecutionAttempts r) (a_MaxAttempts r) (a_AvailableAt r) (a_LeaseOwner r) (a_LeaseUntil r) (a_JobNamespace r) (a_JobName r) (a_CacheCandidate r) (a_CacheReference r) (a_Result r) (a_LogReference r) (a_FailureCode r) (a_CancelRequestedAt r) (a_StartedAt r) (a_CompletedAt r) (a_CreatedAt r) (a_UpdatedAt r).

Definition a_set_ExecutionAttempts (v : Z) (r : BuildAttempt) : BuildAttempt :=
  mkAttempt (a_ID r) (a_DefinitionID r) (a_DeliveryClaimKey r) (a_TriggerKind r) (a_TriggerKey r) (a_ProjectID r) (a_ServiceID r) (a_CommitSHA r) (a_GitRef r) (a_Generation r) (a_DefinitionDigest r) (a_SourceSnapshot r) (a_DestinationRepository r) (a_PlanPlatforms r) (a_CacheImports r) (a_State r) v (a_MaxAttempts r) (a_AvailableAt r) (a_LeaseOwner r) (a_LeaseUntil r) (a_JobNamespace r) (a_JobName r) (a_CacheCandidate r) (a_CacheReference r) (a_Result r) (a_LogReference r) (a_FailureCode r) (a_CancelRequestedAt r) (a_StartedAt r) (a_CompletedAt r) (a_CreatedAt r) (a_UpdatedAt r).

Definition a_set_AvailableAt (v : Time) (r : BuildAttempt) : BuildAttempt :=
  mkAttempt (a_ID r) (a_DefinitionID r) (a_DeliveryClaimKey r) (a_TriggerKind r) (a_TriggerKey r) (a_ProjectID r) (a_ServiceID r) (a_CommitSHA r) (a_GitRef r) (a_Generation r) (a_DefinitionDigest r) (a_SourceSnapshot r) (a_DestinationRepository r) (a_PlanPlatforms r) (a_CacheImports r) (a_State r) (a_ExecutionAttempts r) (a_MaxAttempts r) v (a_LeaseOwner r) (a_LeaseUntil r) (a_JobNamespace r) (a_JobName r) (a_CacheCandidate r) (a_CacheReference r) (a_Result r) (a_LogReference r) (a_FailureCode r) (a_CancelRequestedAt r) (a_StartedAt r) (a_CompletedAt r) (a_CreatedAt r) (a_UpdatedAt r).

Definition a_set_LeaseOwner (v : string) (r : BuildAttempt) : BuildAttempt :=
  mkAttempt (a_ID r) (a_DefinitionID r) (a_DeliveryClaimKey r) (a_TriggerKind r) (a_TriggerKey r) (a_ProjectID r) (a_ServiceID r) (a_CommitSHA r) (a_GitRef r) (a_Generation r) (a_DefinitionDigest r) (a_SourceSnapshot r) (a_DestinationRepository r) (a_PlanPlatforms r) (a_CacheImports r) (a_State r) (a_ExecutionAttempts r) (a_MaxAttempts r) (a_AvailableAt r) v (a_LeaseUntil r) (a_JobNamespace r) (a_JobName r) (a_CacheCandidate r) (a_CacheReference r) (a_Result r) (a_LogReference r) (a_FailureCode r) (a_CancelRequestedAt r) (a_StartedAt r) (a_CompletedAt r) (a_CreatedAt r) (a_UpdatedAt r).

Definition a_set_LeaseUntil (v : Time) (r : BuildAttempt) : BuildAttempt :=
  mkAttempt (a_ID r) (a_DefinitionID r) (a_DeliveryClaimKey r) (a_TriggerKind r) (a_TriggerKey r) (a_ProjectID r) (a_ServiceID r) (a_CommitSHA r) (a_GitRef r) (a_Generation r) (a_DefinitionDigest r) (a_SourceSnapshot r) (a_DestinationRepository r) (a_PlanPlatforms r) (a_CacheImports r) (a_State r) (a_ExecutionAttempts r) (a_MaxAttempts r) (a_AvailableAt r) (a_LeaseOwner r) v (a_JobNamespace r) (a_JobName r) (a_CacheCandidate r) (a_CacheReference r) (a_Result r) (a_LogReference r) (a_FailureCode r) (a_CancelRequestedAt r) (a_StartedAt r) (a_CompletedAt r) (a_CreatedAt r) (a_UpdatedAt r).

Definition a_set_CacheReference (v : string) (r : BuildAttempt) : BuildAttempt :=
  mkAttempt (a_ID r) (a_DefinitionID r) (a_DeliveryClaimKey r) (a_TriggerKind r) (a_TriggerKey r) (a_ProjectID r) (a_ServiceID r) (a_CommitSHA r) (a_GitRef r) (a_Generation r) (a_DefinitionDigest r) (a_SourceSnapshot r) (a_DestinationRepository r) (a_PlanPlatforms r) (a_CacheImports r) (a_State r) (a_ExecutionAttempts r) (a_MaxAttempts r) (a_AvailableAt r) (a_LeaseOwner r) (a_LeaseUntil r) (a_JobNamespace r) (a_JobName r) (a_CacheCandidate r) v (a_Result r) (a_LogReference r) (a_FailureCode r) (a_CancelRequestedAt r) (a_StartedAt r) (a_CompletedAt r) (a_CreatedAt r) (a_UpdatedAt r).

Definition a_set_Result (v : option BuildResult) (r : BuildAttempt) : BuildAttempt :=
  mkAttempt (a_ID r) (a_DefinitionID r) (a_DeliveryClaimKey r) (a_TriggerKind r) (a_TriggerKey r) (a_ProjectID r) (a_ServiceID r) (a_CommitSHA r) (a_GitRef r) (a_Generation r) (a_DefinitionDigest r) (a_SourceSnapshot r) (a_DestinationRepository r) (a_PlanPlatforms r) (a_CacheImports r) (a_State r) (a_ExecutionAttempts r) (a_MaxAttempts r) (a_AvailableAt r) (a_LeaseOwner r) (a_LeaseUntil r) (a_JobNamespace r) (a_JobName r) (a_CacheCandidate r) (a_CacheReference r) v (a_LogReference r) (a_FailureCode r) (a_CancelRequestedAt r) (a_StartedAt r) (a_CompletedAt r) (a_CreatedAt r) (a_UpdatedAt r).

Definition a_set_LogReference (v : string) (r : BuildAttempt) : BuildAttempt :=
  mkAttempt (a_ID r) (a_DefinitionID r) (a_DeliveryClaimKey r) (a_TriggerKind r) (a_TriggerKey r) (a_ProjectID r) (a_ServiceID r) (a_CommitSHA r) (a_GitRef r) (a_Generation r) (a_DefinitionDigest r) (a_SourceSnapshot r) (a_DestinationRepository r) (a_PlanPlatforms r) (a_CacheImports r) (a_State r) (a_ExecutionAttempts r) (a_MaxAttempts r) (a_AvailableAt r) (a_LeaseOwner r) (a_LeaseUntil r) (a_JobNamespace r) (a_JobName r) (a_CacheCandidate r) (a_CacheReference r) (a_Result r) v (a_FailureCode r) (a_CancelRequestedAt r) (a_StartedAt r) (a_CompletedAt r) (a_CreatedAt r) (a_UpdatedAt r).

Definition a_set_FailureCode (v : string) (r : BuildAttempt) : BuildAttempt :=
  mkAttempt (a_ID r) (a_DefinitionID r) (a_DeliveryClaimKey r) (a_TriggerKind r) (a_TriggerKey r) (a_ProjectID r) (a_ServiceID r) (a_CommitSHA r) (a_GitRef r) (a_Generation r) (a_DefinitionDigest r) (a_SourceSnapshot r) (a_DestinationRepository r) (a_PlanPlatforms r) (a_CacheImports r) (a_State r) (a_ExecutionAttempts r) (a_MaxAttempts r) (a_AvailableAt r) (a_LeaseOwner r) (a_LeaseUntil r) (a_JobNamespace r) (a_JobName r) (a_CacheCandidate r) (a_CacheReference r) (a_Result r) (a_LogReference r) v (a_CancelRequestedAt r) (a_StartedAt r) (a_CompletedAt r) (a_CreatedAt r) (a_UpdatedAt r).

Definition a_set_CancelRequestedAt (v : option Time) (r : BuildAttempt) : BuildAttempt :=
  mkAttempt (a_ID r) (a_DefinitionID r) (a_DeliveryClaimKey r) (a_TriggerKind r) (a_TriggerKey r) (a_ProjectID r) (a_ServiceID r) (a_CommitSHA r) (a_GitRef r) (a_Generation r) (a_DefinitionDigest r) (a_SourceSnapshot r) (a_DestinationRepository r) (a_PlanPlatforms r) (a_CacheImports r) (a_State r) (a_ExecutionAttempts r) (a_MaxAttempts r) (a_AvailableAt r) (a_LeaseOwner r) (a_LeaseUntil r) (a_JobNamespace r) (a_JobName r) (a_CacheCandidate r) (a_CacheReference r) (a_Result r) (a_LogReference r) (a_FailureCode r) v (a_StartedAt r) (a_CompletedAt r) (a_CreatedAt r) (a_UpdatedAt r).

Definition a_set_StartedAt (v : option Time) (r : BuildAttempt) : BuildAttempt :=
  mkAttempt (a_ID r) (a_DefinitionID r) (a_DeliveryClaimKey r) (a_TriggerKind r) (a_TriggerKey r) (a_ProjectID r) (a_ServiceID r) (a_CommitSHA r) (a_GitRef r) (a_Generation r) (a_DefinitionDigest r) (a_SourceSnapshot r) (a_DestinationRepository r) (a_PlanPlatforms r) (a_CacheImports r) (a_State r) (a_ExecutionAttempts r) (a_MaxAttempts r) (a_AvailableAt r) (a_LeaseOwner r) (a_LeaseUntil r) (a_JobNamespace r) (a_JobName r) (a_CacheCandidate r) (a_CacheReference r) (a_Result r) (a_LogReference r) (a_FailureCode r) (a_CancelRequestedAt r) v (a_CompletedAt r) (a_CreatedAt r) (a_UpdatedAt r).

Definition a_set_CompletedAt (v : option Time) (r : BuildAttempt) : BuildAttempt :=
  mkAttempt (a_ID r) (a_DefinitionID r) (a_DeliveryClaimKey r) (a_TriggerKind r) (a_TriggerKey r) (a_ProjectID r) (a_ServiceID r) (a_CommitSHA r) (a_GitRef r) (a_Generation r) (a_DefinitionDigest r) (a_SourceSnapshot r) (a_DestinationRepository r) (a_PlanPlatforms r) (a_CacheImports r) (a_State r) (a_ExecutionAttempts r) (a_MaxAttempts r) (a_AvailableAt r) (a_LeaseOwner r) (a_LeaseUntil r) (a_JobNamespace r) (a_JobName r) (a_CacheCandidate r) (a_CacheReference r) (a_Result r) (a_LogReference r) (a_FailureCode r) (a_CancelRequestedAt r) (a_StartedAt r) v (a_CreatedAt r) (a_UpdatedAt r).

Definition a_set_UpdatedAt (v : Time) (r : BuildAttempt) : BuildAttempt :=
  mkAttempt (a_ID r) (a_DefinitionID r) (a_DeliveryClaimKey r) (a_TriggerKind r) (a_TriggerKey r) (a_ProjectID r) (a_ServiceID r) (a_CommitSHA r) (a_GitRef r) (a_Generation r) (a_DefinitionDigest r) (a_SourceSnapshot r) (a_DestinationRepository r) (a_PlanPlatforms r) (a_CacheImports r) (a_State r) (a_ExecutionAttempts r) (a_MaxAttempts r) (a_AvailableAt r) (a_LeaseOwner r) (a_LeaseUntil r) (a_JobNamespace r) (a_JobName r) (a_CacheCandidate r) (a_CacheReference r) (a_Result r) (a_LogReference r) (a_FailureCode r) (a_CancelRequestedAt r) (a_StartedAt r) (a_CompletedAt r) (a_CreatedAt r) v.

(** * The state of the store ([internal/builds/memory.go]) *)

Record OneTimeClaim := mkClaim {
  cl_Kind : string;
  cl_ClaimKey : string;
  cl_RetainUntil : Time;
  cl_Permanent : bool;
}.

Record memoryReleaseProjection := mkProjection {
  p_state : ReleaseProjectionState;
  p_attempts : Z;
  p_availableAt : Time;
  p_leaseOwner : string;
  p_leaseUntil : Time;
  p_leaseEpoch : Z;
  p_failureCode : string;
  p_releaseID : string;
  p_cacheGenerationID : string;
  p_createdAt : Time;
  p_updatedAt : Time;
  p_completedAt : option Time;
}.

Definition p_set_state (v : ReleaseProjectionState) (r : memoryReleaseProjection) : memoryReleaseProjection :=
  mkProjection v (p_attempts r) (p_availableAt r) (p_leaseOwner r) (p_leaseUntil r) (p_leaseEpoch r) (p_failureCode r) (p_releaseID r) (p_cacheGenerationID r) (p_createdAt r) (p_updatedAt r) (p_completedAt r).

Definition p_set_attempts (v : Z) (r : memoryReleaseProjection) : memoryReleaseProjection :=
  mkProjection (p_state r) v (p_availableAt r) (p_leaseOwner r) (p_leaseUntil r) (p_leaseEpoch r) (p_failureCode r) (p_releaseID r) (p_cacheGenerationID r) (p_createdAt r) (p_updatedAt r) (p_completedAt r).

Definition p_set_availableAt (v : Time) (r : memoryReleaseProjection) : memoryReleaseProjection :=
  mkProjection (p_state r) (p_attempts r) v (p_leaseOwner r) (p_leaseUntil r) (p_leaseEpoch r) (p_failureCode r) (p_releaseID r) (p_cacheGenerationID r) (p_createdAt r) (p_updatedAt r) (p_completedAt r).

Definition p_set_leaseOwner (v : string) (r : memoryReleaseProjection) : memoryReleaseProjection :=
  mkProjection (p_state r) (p_attempts r) (p_availableAt r) v (p_leaseUntil r) (p_leaseEpoch r) (p_failureCode r) (p_releaseID r) (p_cacheGenerationID r) (p_createdAt r) (p_updatedAt r) (p_completedAt r).

Definition p_set_leaseUntil (v : Time) (r : memoryReleaseProjection) : memoryReleaseProjection :=
  mkProjection (p_state r) (p_attempts r) (p_availableAt r) (p_leaseOwner r) v (p_leaseEpoch r) (p_failureCode r) (p_releaseID r) (p_cacheGenerationID r) (p_createdAt r) (p_updatedAt r) (p_completedAt r).

Definition p_set_leaseEpoch (v : Z) (r : memoryReleaseProjection) : memoryReleaseProjection :=
  mkProjection (p_state r) (p_attempts r) (p_availableAt r) (p_leaseOwner r) (p_leaseUntil r) v (p_failureCode r) (p_releaseID r) (p_cacheGenerationID r) (p_createdAt r) (p_updatedAt r) (p_completedAt r).

Definition p_set_failureCode (v : string) (r : memoryReleaseProjection) : memoryReleaseProjection :=
  mkProjection (p_state r) (p_attempts r) (p_availableAt r) (p_leaseOwner r) (p_leaseUntil r) (p_leaseEpoch r) v (p_releaseID r) (p_cacheGenerationID r) (p_createdAt r) (p_updatedAt r) (p_completedAt r).

Definition p_set_releaseID (v : string) (r : memoryReleaseProjection) : memoryReleaseProjection :=
  mkProjection (p_state r) (p_attempts r) (p_availableAt r) (p_leaseOwner r) (p_leaseUntil r) (p_leaseEpoch r) (p_failureCode r) v (p_cacheGenerationID r) (p_createdAt r) (p_updatedAt r) (p_completedAt r).

Definition p_set_cacheGenerationID (v : string) (r : memoryReleaseProjection) : memoryReleaseProjection :=
  mkProjection (p_state r) (p_attempts r) (p_availableAt r) (p_leaseOwner r) (p_leaseUntil r) (p_leaseEpoch r) (p_failureCode r) (p_releaseID r) v (p_createdAt r) (p_updatedAt r) (p_completedAt r).

Definition p_set_createdAt (v : Time) (r : memoryReleaseProjection) : memoryReleaseProjection :=
  mkProjection (p_state r) (p_attempts r) (p_availableAt r) (p_leaseOwner r) (p_leaseUntil r) (p_leaseEpoch r) (p_failureCode r) (p_releaseID r) (p_cacheGenerationID r) v (p_updatedAt r) (p_completedAt r).

Definition p_set_updatedAt (v : Time) (r : memoryReleaseProjection) : memoryReleaseProjection :=
  mkProjection (p_state r) (p_attempts r) (p_availableAt r) (p_leaseOwner r) (p_leaseUntil r) (p_leaseEpoch r) (p_failureCode r) (p_releaseID r) (p_cacheGenerationID r) (p_createdAt r) v (p_completedAt r).

Definition p_set_completedAt (v : option Time) (r : memoryReleaseProjection) : memoryReleaseProjection :=
  mkProjection (p_state r) (p_attempts r) (p_availableAt r) (p_leaseOwner r) (p_leaseUntil r) (p_leaseEpoch r) (p_failureCode r) (p_releaseID r) (p_cacheGenerationID r) (p_createdAt r) (p_updatedAt r) v.

Record MemoryStore := mkStore {
  s_claims : gmap string OneTimeClaim;
  s_installations : gmap string Installation;
  s_installationByProvider : gmap string string;
  s_repositories : gmap string Repository;
  s_definitions : gmap string BuildDefinition;
  s_deliveries : gmap string DeliveryReceipt;
  s_attempts : gmap string BuildAttempt;
  s_serviceGeneration : gmap string Z;
  s_releaseProjections : gmap string memoryReleaseProjection;
}.

Definition s_set_claims (v : gmap string OneTimeClaim) (r : MemoryStore) : MemoryStore :=
  mkStore v (s_installations r) (s_installationByProvider r) (s_repositories r) (s_definitions r) (s_deliveries r) (s_attempts r) (s_serviceGeneration r) (s_releaseProjections r).

Definition s_set_installations (v : gmap string Installation) (r : MemoryStore) : MemoryStore :=
  mkStore (s_claims r) v (s_installationByProvider r) (s_repositories r) (s_definitions r) (s_deliveries r) (s_attempts r) (s_serviceGeneration r) (s_releaseProjections r).

Definition s_set_installationByProvider (v : gmap string string) (r : MemoryStore) : MemoryStore :=
  mkStore (s_claims r) (s_installations r) v (s_repositories r) (s_definitions r) (s_deliveries r) (s_attempts r) (s_serviceGeneration r) (s_releaseProjections r).

Definition s_set_repositories (v : gmap string Repository) (r : MemoryStore) : MemoryStore :=
  mkStore (s_claims r) (s_installations r) (s_installationByProvider r) v (s_definitions r) (s_deliveries r) (s_attempts r) (s_serviceGeneration r) (s_releaseProjections r).

Definition s_set_definitions (v : gmap string BuildDefinition) (r : MemoryStore) : MemoryStore :=
  mkStore (s_claims r) (s_installations r) (s_installationByProvider r) (s_repositories r) v (s_deliveries r) (s_attempts r) (s_serviceGeneration r) (s_releaseProjections r).

Definition s_set_deliveries (v : gmap string DeliveryReceipt) (r : MemoryStore) : MemoryStore :=
  mkStore (s_claims r) (s_installations r) (s_installationByProvider r) (s_repositories r) (s_definitions r) v (s_attempts r) (s_serviceGeneration r) (s_releaseProjections r).

Definition s_set_attempts (v : gmap string BuildAttempt) (r : MemoryStore) : MemoryStore :=
  mkStore (s_claims r) (s_installations r) (s_installationByProvider r) (s_repositories r) (s_definitions r) (s_deliveries r) v (s_serviceGeneration r) (s_releaseProjections r).

Definition s_set_serviceGeneration (v : gmap string Z) (r : MemoryStore) : MemoryStore :=
  mkStore (s_claims r) (s_installations r) (s_installationByProvider r) (s_repositories r) (s_definitions r) (s_deliveries r) (s_attempts r) v (s_releaseProjections r).

Definition s_set_releaseProjections (v : gmap string memoryReleaseProjection) (r : MemoryStore) : MemoryStore :=
  mkStore (s_claims r) (s_installations r) (s_installationByProvider r) (s_repositories r) (s_definitions r) (s_deliveries r) (s_attempts r) (s_serviceGeneration r) v.

Definition NewMemoryStore : MemoryStore := mkStore ∅ ∅ ∅ ∅ ∅ ∅ ∅ ∅ ∅.

(** A sequence of field assignments reads in the order of the source. *)
Declare Scope build_scope.
Notation "x |> f" := (f x) (at level 62, left associativity, only parsing) : build_scope.
Open Scope build_scope.

(** * Validation shared by the operations *)

Definition failure_re : regex :=
  RSeq (RClass is_lower) (RRep 0 62 (RClass (fun c => is_lower c || is_digit c || is_one_of ".-" c))).

Definition validateFailureCode (code : string) : bool := re_match failure_re code.

Definition validOwnerLease (owner : string) (duration : Duration) : bool :=
  negb (String.eqb owner "") && (str_len owner <=? 128) && negb (contains_any crlf_nul owner) &&
  (5 * second <=? duration) && (duration <=? 5 * minute).

Definition regexpHex64 (value : string) : bool :=
  (str_len value =? 64) && only_bytes "0123456789abcdef" value.

Definition kube_name_re : regex :=
  let edge := RClass (fun c => is_lower c || is_digit c) in
  RSeq edge (ROpt (RSeq (RRep 0 61 (RClass (fun c => is_lower c || is_digit c || is_one_of ".-" c))) edge)).

Definition log_ref_re : regex :=
  RSeq (RLit "k8s://") (RSeq kube_name_re (RSeq (RLit "/pods/")
    (RSeq kube_name_re (RLit "/containers/agent")))).

Definition ProtocolVersion : string := "builder.kuberploy.io/v1alpha1".

Definition validateBuildResult (result : BuildResult) (cacheRef logRef : string) : bool :=
  let image := br_ResultImage result in
  negb (negb (String.eqb (br_APIVersion result) ProtocolVersion) ||
        negb (String.eqb (br_Status result) "Succeeded") ||
        negb (re_match uuid_re (br_OperationID result)) || (br_Generation result <? 1) ||
        negb (re_match digest_re (im_Digest image)) ||
        negb (has_suffix ("@" +:+ im_Digest image) (im_Reference image)) ||
        (Z.of_nat (length (im_Platforms image)) <? 1) ||
        (2 <? Z.of_nat (length (im_Platforms image))) ||
        negb (strs_sorted (im_Platforms image)) ||
        is_zero_time (br_StartedAt result) ||
        (br_CompletedAt result <? br_StartedAt result) ||
        is_zero_time (br_CompletedAt result)) &&
  str_in (br_CacheReuse result) ["not-requested"; "unavailable"; "hit"; "miss"; "unknown"] &&
  forallb (fun platform => str_in platform ["linux/amd64"; "linux/arm64"]) (im_Platforms image) &&
  strs_distinct (im_Platforms image) &&
  forallb (fun w => str_in w ["ColdBuild"; "CacheDegraded"; "SensitiveBuildArg"]) (br_Warnings result) &&
  strs_distinct (br_Warnings result) &&
  (String.eqb cacheRef "" ||
   negb (negb (str_contains ":generation-" cacheRef) || str_contains "@" cacheRef)) &&
  match br_ResultCache result with
  | None => true
  | Some cache =>
      negb (String.eqb (ca_Reference cache) "" || str_contains "@" (ca_Reference cache) ||
            negb (str_contains ":generation-" (ca_Reference cache)) ||
            negb (re_match digest_re (ca_Digest cache)))
  end &&
  negb (negb (String.eqb logRef "") && negb (re_match log_ref_re logRef)).

Definition cacheReference (attempt : BuildAttempt) : string :=
  split_first ":candidate-" (a_CacheCandidate attempt) +:+
  ":generation-" +:+ format_int (a_Generation attempt).

(** * A concrete instance, for evaluating the definitions *)

Definition sampleID : string := "11111111-1111-4111-8111-111111111111".
Definition sampleID2 : string := "22222222-2222-4222-8222-222222222222".

Definition sampleSpec : DefinitionSpec :=
  mkSpec ["linux/amd64"] "registry.example" "team" "trusted" "builds" 3.

Definition sampleDefinition : BuildDefinition :=
  mkDefinition sampleID "project" "service" SourceGitHub "installation" "repository"
    None "refs/heads/main" sampleSpec "digest" 1 true second second.

(** An attempt queued at [created] for three executions. *)
Definition sampleAttempt (id : string) (created : Time) : BuildAttempt :=
  mkAttempt id sampleID "claim" "github_push" "" "project" "service"
    "0123456789abcdef0123456789abcdef01234567" "refs/heads/main" 1 "digest" sampleDefinition
    "registry.example/team/service" ["linux/amd64"] [] AttemptQueued 0 3 created "" zero_time
    "builds" "job" "registry.example/team/cache:candidate-1" "" None "" "" None None None created created.

Definition sampleResult : BuildResult :=
  let digest := "sha256:0123456789abcdef0123456789abcdef0123456789abcdef0123456789abcdef" in
  mkResult ProtocolVersion sampleID 1 "Succeeded"
    (mkImage ("registry.example/team/service@" +:+ digest) digest ["linux/amd64"]) None
    "not-requested" [] (10 * second) (20 * second).

(** The same attempt once its build has succeeded. *)
Definition sampleSucceeded (id : string) : BuildAttempt :=
  sampleAttempt id second |> a_set_State AttemptSucceeded |> a_set_ExecutionAttempts 1
    |> a_set_Result (Some sampleResult) |> a_set_StartedAt (Some (2 * second))
    |> a_set_CompletedAt (Some (20 * second)).
