(* ===== verification/BuildAttempts.v ===== *)
(** The build-attempt state machine: the attempt methods of [MemoryStore] in
    [internal/builds/memory.go].

    An operation takes the store and the arguments of the Go method and
    returns the error, or the new store with the method's result.  Every
    early return of the source precedes its first write, so an operation that
    fails leaves the store as it was.  The mutex makes each one atomic. *)

From S2P Require Import Prelude Regexp GoStrings BuildModel.

Open Scope Z_scope.

Definition result (A : Type) : Type := res BuildErr (MemoryStore * A).

Definition putAttempt (s : MemoryStore) (attempt : BuildAttempt) : MemoryStore :=
  s |> s_set_attempts (<[a_ID attempt := attempt]> (s_attempts s)).

(** [attempt.LeaseOwner != owner || !attempt.LeaseUntil.After(now)], negated *)
Definition holdsLease (attempt : BuildAttempt) (owner : string) (now : Time) : bool :=
  String.eqb (a_LeaseOwner attempt) owner && (now <? a_LeaseUntil attempt).

Definition dropLease (attempt : BuildAttempt) : BuildAttempt :=
  attempt |> a_set_LeaseOwner "" |> a_set_LeaseUntil zero_time.

(** * Operations *)

Definition activeState (state : AttemptState) : bool :=
  bool_decide (state = AttemptPreparing) || bool_decide (state = AttemptRunning) ||
  bool_decide (state = AttemptCancelling).

Definition activeAttempts (attempts : gmap string BuildAttempt) : gmap string BuildAttempt :=
  filter (fun kv => activeState (a_State kv.2) = true) attempts.

Definition countActive (s : MemoryStore) : Z := Z.of_nat (size (activeAttempts (s_attempts s))).

Definition MaximumConcurrentBuilders : Z := 20.

Definition claimable (now : Time) (active maxConcurrent : Z) (attempt : BuildAttempt) : bool :=
  if terminalAttempt (a_State attempt) || (now <? a_AvailableAt attempt) ||
     (negb (String.eqb (a_LeaseOwner attempt) "") && (now <? a_LeaseUntil attempt))
  then false
  else if bool_decide (a_State attempt = AttemptQueued) && (maxConcurrent <=? active)
  then false
  else true.

Definition olderAttempt (x y : BuildAttempt) : bool :=
  if a_CreatedAt x =? a_CreatedAt y then str_less (a_ID x) (a_ID y)
  else a_CreatedAt x <? a_CreatedAt y.

Definition claimCandidates (s : MemoryStore) (now : Time) (maxConcurrent : Z) : list BuildAttempt :=
  List.filter (claimable now (countActive s) maxConcurrent) (map_to_list (s_attempts s)).*2.

(** The three conditional updates of the claimed attempt. *)
Definition startAttempt (now : Time) (attempt : BuildAttempt) : BuildAttempt :=
  if bool_decide (a_State attempt = AttemptQueued) then
    let attempt := attempt |> a_set_State AttemptPreparing
                           |> a_set_ExecutionAttempts (i64 (a_ExecutionAttempts attempt + 1)) in
    match a_StartedAt attempt with
    | None => attempt |> a_set_StartedAt (Some now)
    | Some _ => attempt
    end
  else attempt.

Definition honourCancel (attempt : BuildAttempt) : BuildAttempt :=
  match a_CancelRequestedAt attempt with
  | Some _ => attempt |> a_set_State AttemptCancelling
  | None => attempt
  end.

Definition leaseAttempt (owner : string) (now : Time) (duration : Duration)
    (attempt : BuildAttempt) : BuildAttempt :=
  attempt |> a_set_LeaseOwner owner |> a_set_LeaseUntil (now + duration) |> a_set_UpdatedAt now.

Definition ClaimNextAttempt (s : MemoryStore) (owner : string) (now : Time)
    (duration : Duration) (maxConcurrent : Z) : result BuildAttempt :=
  if negb (validOwnerLease owner duration) || (maxConcurrent <? 1) ||
     (MaximumConcurrentBuilders <? maxConcurrent) then Err ErrInvalid
  else
    match sort_slice olderAttempt (claimCandidates s now maxConcurrent) with
    | [] => Err ErrNotFound
    | candidate :: _ =>
        let attempt := candidate |> startAttempt now |> honourCancel
                                 |> leaseAttempt owner now duration in
        Ok (putAttempt s attempt, attempt)
    end.

Definition HeartbeatAttempt (s : MemoryStore) (attemptID owner : string) (now : Time)
    (duration : Duration) : result unit :=
  if negb (validOwnerLease owner duration) then Err ErrInvalid
  else match s_attempts s !! attemptID with
  | None => Err ErrNotFound
  | Some attempt =>
      if terminalAttempt (a_State attempt) || negb (holdsLease attempt owner now)
      then Err ErrLeaseLost
      else Ok (s |> s_set_attempts (<[attemptID :=
                 attempt |> a_set_LeaseUntil (now + duration) |> a_set_UpdatedAt now]>
                 (s_attempts s)), tt)
  end.

Definition MarkAttemptRunning (s : MemoryStore) (attemptID owner : string) (now : Time)
    : result unit :=
  match s_attempts s !! attemptID with
  | None => Err ErrNotFound
  | Some attempt =>
      if negb (holdsLease attempt owner now) ||
         (negb (bool_decide (a_State attempt = AttemptPreparing)) &&
          negb (bool_decide (a_State attempt = AttemptRunning)))
      then Err ErrLeaseLost
      else Ok (s |> s_set_attempts (<[attemptID :=
                 attempt |> a_set_State AttemptRunning |> a_set_UpdatedAt now]>
                 (s_attempts s)), tt)
  end.

Definition cancelRequested (attempt : BuildAttempt) : bool :=
  match a_CancelRequestedAt attempt with Some _ => true | None => false end.

Definition DeferAttempt (s : MemoryStore) (attemptID owner code : string)
    (now availableAt : Time) : result unit :=
  if negb (validateFailureCode code) || (availableAt <? now) then Err ErrInvalid
  else match s_attempts s !! attemptID with
  | None => Err ErrNotFound
  | Some attempt =>
      if negb (holdsLease attempt owner now) || terminalAttempt (a_State attempt) ||
         cancelRequested attempt
      then Err ErrLeaseLost
      else Ok (putAttempt s (attempt |> a_set_AvailableAt availableAt |> a_set_FailureCode code
                                     |> a_set_UpdatedAt now |> dropLease), tt)
  end.

Definition ScheduleAttemptRetry (s : MemoryStore) (attemptID owner code : string)
    (now availableAt : Time) : result bool :=
  if negb (validateFailureCode code) || (availableAt <? now) then Err ErrInvalid
  else match s_attempts s !! attemptID with
  | None => Err ErrNotFound
  | Some attempt =>
      if negb (holdsLease attempt owner now) || terminalAttempt (a_State attempt)
      then Err ErrLeaseLost
      else if cancelRequested attempt then
        Ok (putAttempt s (attempt |> a_set_State AttemptCancelling |> a_set_FailureCode code
                                  |> a_set_AvailableAt availableAt |> dropLease
                                  |> a_set_UpdatedAt now), true)
      else
        let attempt := attempt |> dropLease |> a_set_FailureCode code |> a_set_UpdatedAt now in
        if a_MaxAttempts attempt <=? a_ExecutionAttempts attempt then
          Ok (putAttempt s (attempt |> a_set_State AttemptFailed
                                    |> a_set_CompletedAt (Some now)), false)
        else
          Ok (putAttempt s (attempt |> a_set_State AttemptQueued
                                    |> a_set_AvailableAt availableAt), true)
  end.

Definition FailAttempt (s : MemoryStore) (attemptID owner code : string) (now : Time)
    : result unit :=
  if negb (validateFailureCode code) then Err ErrInvalid
  else match s_attempts s !! attemptID with
  | None => Err ErrNotFound
  | Some attempt =>
      if negb (holdsLease attempt owner now) || terminalAttempt (a_State attempt) ||
         cancelRequested attempt
      then Err ErrLeaseLost
      else Ok (putAttempt s (attempt |> a_set_State AttemptFailed |> a_set_FailureCode code
                                     |> a_set_CompletedAt (Some now) |> a_set_UpdatedAt now
                                     |> dropLease), tt)
  end.

Record BuildCompletion := mkCompletion {
  bc_Result : BuildResult;
  bc_CacheReference : string;
  bc_LogReference : string;
}.

(** The completion must be for this attempt: its operation, generation,
    destination, platforms and cache reference. *)
Definition completionMatches (attempt : BuildAttempt) (completion : BuildCompletion) : bool :=
  let r := bc_Result completion in
  String.eqb (br_OperationID r) (a_ID attempt) &&
  (br_Generation r =? a_Generation attempt) &&
  String.eqb (im_Reference (br_ResultImage r))
             (a_DestinationRepository attempt +:+ "@" +:+ im_Digest (br_ResultImage r)) &&
  strs_eqb (im_Platforms (br_ResultImage r)) (a_PlanPlatforms attempt) &&
  (String.eqb (bc_CacheReference completion) "" ||
   String.eqb (bc_CacheReference completion) (cacheReference attempt)).

Definition newReleaseProjection (completed : Time) : memoryReleaseProjection :=
  mkProjection ReleaseProjectionPending 0 completed "" zero_time 0 "" "" "" completed completed None.

Definition CompleteAttempt (s : MemoryStore) (attemptID owner : string)
    (completion : BuildCompletion) (now : Time) : result unit :=
  if negb (validateBuildResult (bc_Result completion) (bc_CacheReference completion)
                               (bc_LogReference completion)) then Err ErrInvalid
  else match s_attempts s !! attemptID with
  | None => Err ErrNotFound
  | Some attempt =>
      if negb (holdsLease attempt owner now) ||
         negb (bool_decide (a_State attempt = AttemptRunning)) ||
         cancelRequested attempt || negb (completionMatches attempt completion)
      then Err ErrLeaseLost
      else
        let attempt := attempt |> a_set_State AttemptSucceeded
          |> a_set_Result (Some (bc_Result completion))
          |> a_set_CacheReference (bc_CacheReference completion)
          |> a_set_LogReference (bc_LogReference completion)
          |> a_set_FailureCode "" |> a_set_CompletedAt (Some now) |> a_set_UpdatedAt now
          |> dropLease in
        let s := putAttempt s attempt in
        match s_releaseProjections s !! a_ID attempt with
        | Some _ => Ok (s, tt)
        | None => Ok (s |> s_set_releaseProjections (<[a_ID attempt := newReleaseProjection now]>
                                                     (s_releaseProjections s)), tt)
        end
  end.

Definition RequestCancel (s : MemoryStore) (attemptID : string) (now : Time)
    : result BuildAttempt :=
  match s_attempts s !! attemptID with
  | None => Err ErrNotFound
  | Some attempt =>
      if terminalAttempt (a_State attempt) then Ok (s, attempt)
      else
        let attempt := attempt |> a_set_CancelRequestedAt (Some now) |> a_set_UpdatedAt now in
        let attempt :=
          if bool_decide (a_State attempt = AttemptQueued) && String.eqb (a_LeaseOwner attempt) ""
          then attempt |> a_set_State AttemptCancelled |> a_set_CompletedAt (Some now)
          else attempt |> a_set_State AttemptCancelling |> a_set_AvailableAt now in
        Ok (putAttempt s attempt, attempt)
  end.

Definition CompleteCancellation (s : MemoryStore) (attemptID owner : string) (now : Time)
    : result unit :=
  match s_attempts s !! attemptID with
  | None => Err ErrNotFound
  | Some attempt =>
      if negb (bool_decide (a_State attempt = AttemptCancelling)) ||
         negb (holdsLease attempt owner now)
      then Err ErrLeaseLost
      else Ok (putAttempt s (attempt |> a_set_State AttemptCancelled
                                     |> a_set_CompletedAt (Some now) |> a_set_UpdatedAt now
                                     |> a_set_FailureCode "" |> dropLease), tt)
  end.

(** * The step relation

    [handle] dispatches an event to its operation and keeps the new store.
    [attempt_move now ev a a'] is the contract: what the event may do to the
    one attempt it addresses. *)

Inductive AttemptEvent : Type :=
| EvClaim (owner : string) (duration : Duration) (maxConcurrent : Z)
| EvHeartbeat (attemptID owner : string) (duration : Duration)
| EvRunning (attemptID owner : string)
| EvDefer (attemptID owner code : string) (availableAt : Time)
| EvRetry (attemptID owner code : string) (availableAt : Time)
| EvFail (attemptID owner code : string)
| EvComplete (attemptID owner : string) (completion : BuildCompletion)
| EvRequestCancel (attemptID : string)
| EvCancelled (attemptID owner : string).

Definition dropOut {A} (m : result A) : res BuildErr MemoryStore :=
  let* r := m in Ok r.1.

Definition handle (s : MemoryStore) (now : Time) (ev : AttemptEvent) : res BuildErr MemoryStore :=
  match ev with
  | EvClaim owner duration maxConcurrent =>
      dropOut (ClaimNextAttempt s owner now duration maxConcurrent)
  | EvHeartbeat attemptID owner duration => dropOut (HeartbeatAttempt s attemptID owner now duration)
  | EvRunning attemptID owner => dropOut (MarkAttemptRunning s attemptID owner now)
  | EvDefer attemptID owner code availableAt =>
      dropOut (DeferAttempt s attemptID owner code now availableAt)
  | EvRetry attemptID owner code availableAt =>
      dropOut (ScheduleAttemptRetry s attemptID owner code now availableAt)
  | EvFail attemptID owner code => dropOut (FailAttempt s attemptID owner code now)
  | EvComplete attemptID owner completion =>
      dropOut (CompleteAttempt s attemptID owner completion now)
  | EvRequestCancel attemptID => dropOut (RequestCancel s attemptID now)
  | EvCancelled attemptID owner => dropOut (CompleteCancellation s attemptID owner now)
  end.

(** The worker that acts in an event; [RequestCancel] comes from a user. *)
Definition eventOwner (ev : AttemptEvent) : option string :=
  match ev with
  | EvClaim owner _ _ | EvHeartbeat _ owner _ | EvRunning _ owner | EvDefer _ owner _ _
  | EvRetry _ owner _ _ | EvFail _ owner _ | EvComplete _ owner _ | EvCancelled _ owner => Some owner
  | EvRequestCancel _ => None
  end.

Inductive attempt_move (now : Time) : AttemptEvent → BuildAttempt → BuildAttempt → Prop :=
| move_claim owner duration maxConcurrent a :
    validOwnerLease owner duration = true →
    terminalAttempt (a_State a) = false →
    a_AvailableAt a ≤ now →
    (a_LeaseOwner a = "" ∨ a_LeaseUntil a ≤ now) →
    attempt_move now (EvClaim owner duration maxConcurrent) a
      (leaseAttempt owner now duration (honourCancel (startAttempt now a)))
| move_heartbeat id owner duration a :
    validOwnerLease owner duration = true →
    terminalAttempt (a_State a) = false → holdsLease a owner now = true →
    attempt_move now (EvHeartbeat id owner duration) a
      (a |> a_set_LeaseUntil (now + duration) |> a_set_UpdatedAt now)
| move_running id owner a :
    holdsLease a owner now = true →
    (a_State a = AttemptPreparing ∨ a_State a = AttemptRunning) →
    attempt_move now (EvRunning id owner) a
      (a |> a_set_State AttemptRunning |> a_set_UpdatedAt now)
| move_defer id owner code availableAt a :
    holdsLease a owner now = true → terminalAttempt (a_State a) = false →
    a_CancelRequestedAt a = None →
    attempt_move now (EvDefer id owner code availableAt) a
      (dropLease (a |> a_set_AvailableAt availableAt |> a_set_FailureCode code
                    |> a_set_UpdatedAt now))
| move_retry_cancel id owner code availableAt a :
    holdsLease a owner now = true → terminalAttempt (a_State a) = false →
    a_CancelRequestedAt a ≠ None →
    attempt_move now (EvRetry id owner code availableAt) a
      (dropLease (a |> a_set_State AttemptCancelling |> a_set_FailureCode code
                    |> a_set_AvailableAt availableAt) |> a_set_UpdatedAt now)
| move_retry_exhausted id owner code availableAt a :
    holdsLease a owner now = true → terminalAttempt (a_State a) = false →
    a_CancelRequestedAt a = None → a_MaxAttempts a ≤ a_ExecutionAttempts a →
    attempt_move now (EvRetry id owner code availableAt) a
      (dropLease a |> a_set_FailureCode code |> a_set_UpdatedAt now
                   |> a_set_State AttemptFailed |> a_set_CompletedAt (Some now))
| move_retry id owner code availableAt a :
    holdsLease a owner now = true → terminalAttempt (a_State a) = false →
    a_CancelRequestedAt a = None → a_ExecutionAttempts a < a_MaxAttempts a →
    attempt_move now (EvRetry id owner code availableAt) a
      (dropLease a |> a_set_FailureCode code |> a_set_UpdatedAt now
                   |> a_set_State AttemptQueued |> a_set_AvailableAt availableAt)
| move_fail id owner code a :
    holdsLease a owner now = true → terminalAttempt (a_State a) = false →
    a_CancelRequestedAt a = None →
    attempt_move now (EvFail id owner code) a
      (dropLease (a |> a_set_State AttemptFailed |> a_set_FailureCode code
                    |> a_set_CompletedAt (Some now) |> a_set_UpdatedAt now))
| move_complete id owner completion a :
    holdsLease a owner now = true → a_State a = AttemptRunning →
    a_CancelRequestedAt a = None → completionMatches a completion = true →
    attempt_move now (EvComplete id owner completion) a
      (dropLease (a |> a_set_State AttemptSucceeded |> a_set_Result (Some (bc_Result completion))
        |> a_set_CacheReference (bc_CacheReference completion)
        |> a_set_LogReference (bc_LogReference completion)
        |> a_set_FailureCode "" |> a_set_CompletedAt (Some now) |> a_set_UpdatedAt now))
| move_cancel_queued id a :
    a_State a = AttemptQueued → a_LeaseOwner a = "" →
    attempt_move now (EvRequestCancel id) a
      (a |> a_set_CancelRequestedAt (Some now) |> a_set_UpdatedAt now
         |> a_set_State AttemptCancelled |> a_set_CompletedAt (Some now))
| move_cancel_active id a :
    terminalAttempt (a_State a) = false →
    (a_State a ≠ AttemptQueued ∨ a_LeaseOwner a ≠ "") →
    attempt_move now (EvRequestCancel id) a
      (a |> a_set_CancelRequestedAt (Some now) |> a_set_UpdatedAt now
         |> a_set_State AttemptCancelling |> a_set_AvailableAt now)
| move_cancelled id owner a :
    holdsLease a owner now = true → a_State a = AttemptCancelling →
    attempt_move now (EvCancelled id owner) a
      (dropLease (a |> a_set_State AttemptCancelled |> a_set_CompletedAt (Some now)
                    |> a_set_UpdatedAt now |> a_set_FailureCode "")).

(** The attempts are stored under their own identifier. *)
Definition keyed (s : MemoryStore) : Prop :=
  ∀ k a, s_attempts s !! k = Some a → a_ID a = k.

(** * Every operation is a move of one attempt *)

Create HintDb builds.
#[export] Hint Constructors attempt_move : builds.

Lemma dropOut_ok {A} (m : result A) s' : dropOut m = Ok s' ↔ ∃ a, m = Ok (s', a).
Proof.
  unfold dropOut. rewrite res_bind_ok. split.
  - intros ([s a] & -> & [= <-]). by exists a.
  - intros (a & ->). by exists (s', a).
Qed.

Lemma claimCandidates_elem s now m a :
  keyed s → a ∈ claimCandidates s now m →
  s_attempts s !! a_ID a = Some a ∧ claimable now (countActive s) m a = true.
Proof.
  unfold claimCandidates. intros Hk H.
  apply list_elem_of_In, filter_In in H as [H Hc]. split; [|done].
  apply list_elem_of_In, list_elem_of_fmap in H as ([k a'] & -> & H). simpl in *.
  apply elem_of_map_to_list in H. by rewrite (Hk _ _ H).
Qed.

Lemma claimable_spec now active m a :
  claimable now active m a = true ↔
  terminalAttempt (a_State a) = false ∧ a_AvailableAt a ≤ now ∧
  (a_LeaseOwner a = "" ∨ a_LeaseUntil a ≤ now) ∧
  (a_State a = AttemptQueued → active < m).
Proof.
  unfold claimable. destruct (terminalAttempt (a_State a)); simpl; [by split; [|intros [? _]]|].
  destruct (Z.ltb_spec now (a_AvailableAt a)); simpl; [split; [done|lia]|].
  assert (negb (String.eqb (a_LeaseOwner a) "") && (now <? a_LeaseUntil a) = false ↔
    (a_LeaseOwner a = "" ∨ a_LeaseUntil a ≤ now)) as <-.
  { rewrite andb_false_iff, negb_false_iff, String.eqb_eq, Z.ltb_ge. done. }
  destruct (negb _ && _); simpl; [by split; [|intros (?&?&?&?)]|].
  assert (bool_decide (a_State a = AttemptQueued) && (m <=? active) = false ↔
    (a_State a = AttemptQueued → active < m)) as <-.
  { rewrite andb_false_iff, bool_decide_eq_false, Z.leb_gt.
    destruct (decide (a_State a = AttemptQueued)); split; tauto. }
  destruct (bool_decide _ && _); simpl; [by split; [|intros (?&?&?&?)]|].
  by split; [intros _; split_and!|].
Qed.

Definition sameButAttempts (s s' : MemoryStore) : Prop :=
  s_claims s' = s_claims s ∧ s_installations s' = s_installations s ∧
  s_installationByProvider s' = s_installationByProvider s ∧
  s_repositories s' = s_repositories s ∧ s_definitions s' = s_definitions s ∧
  s_deliveries s' = s_deliveries s ∧ s_serviceGeneration s' = s_serviceGeneration s.

Definition moved (now : Time) (ev : AttemptEvent) (s s' : MemoryStore) : Prop :=
  ∃ a a', s_attempts s !! a_ID a = Some a ∧ attempt_move now ev a a' ∧
    s_attempts s' = <[a_ID a := a']> (s_attempts s) ∧ sameButAttempts s s'.

Lemma startAttempt_ID now a : a_ID (honourCancel (startAttempt now a)) = a_ID a.
Proof. unfold honourCancel, startAttempt. by repeat case_match. Qed.

(** Takes the guards of an operation apart, on the path that succeeds. *)
Ltac op_cases H :=
  repeat match type of H with
  | (if ?b then _ else _) = Ok _ =>
      let E := fresh "Hg" in destruct b eqn:E; try discriminate H
  | match ?o with Some _ => _ | None => _ end = Ok _ =>
      let E := fresh "Hl" in destruct o eqn:E; try discriminate H
  end; injection H as <- <-; bool_prop.

Lemma cancelRequested_spec a : cancelRequested a = false ↔ a_CancelRequestedAt a = None.
Proof. unfold cancelRequested. by destruct (a_CancelRequestedAt a). Qed.

Ltac move_tac Hk :=
  match goal with
  | Hl : s_attempts ?s !! ?k = Some ?a |- moved _ _ _ _ =>
      pose proof (Hk _ _ Hl) as <-; exists a; eexists; split_and!; [exact Hl | | reflexivity | done];
      repeat match goal with
      | H : cancelRequested _ = false |- _ => apply cancelRequested_spec in H
      end
  end.

Lemma handle_moves s now ev s' :
  keyed s → handle s now ev = Ok s' → s' = s ∨ moved now ev s s'.
Proof.
  intros Hk. destruct ev; cbn [handle]; rewrite dropOut_ok; intros [out H].
  - unfold ClaimNextAttempt in H.
    destruct (negb _ || _ || _) eqn:Hg; [done|]. bool_prop.
    destruct (sort_slice _ _) as [|c cs] eqn:Hs; [done|]. injection H as <- <-. right.
    assert (c ∈ claimCandidates s now maxConcurrent) as Hc.
    { rewrite <- (elem_of_sort_slice olderAttempt), Hs. by left. }
    apply claimCandidates_elem in Hc as [Hc (?&?&?&?)%claimable_spec]; [|done].
    exists c. eexists. split_and!; [done | by apply move_claim | | done].
    simpl. by rewrite startAttempt_ID.
  - unfold HeartbeatAttempt in H. op_cases H. right. move_tac Hk. by constructor.
  - unfold MarkAttemptRunning in H. op_cases H. right. move_tac Hk. constructor; [done|].
    apply andb_false_iff in H0 as [?|?]; bool_prop; auto.
  - unfold DeferAttempt in H. op_cases H. right. move_tac Hk. by constructor.
  - unfold ScheduleAttemptRetry in H. op_cases H; right; move_tac Hk.
    + apply move_retry_cancel; [done..|]. unfold cancelRequested in Hg1.
      by destruct (a_CancelRequestedAt b).
    + by apply move_retry_exhausted.
    + by apply move_retry.
  - unfold FailAttempt in H. op_cases H. right. move_tac Hk. by constructor.
  - unfold CompleteAttempt in H. op_cases H; right; move_tac Hk; by apply move_complete.
  - unfold RequestCancel in H. op_cases H; [by left|]. right.
    destruct (bool_decide _ && _) eqn:E; move_tac Hk; simpl in *; bool_prop.
    + by apply move_cancel_queued.
    + apply move_cancel_active; [done|]. apply andb_false_iff in E as [?|?]; bool_prop; auto.
  - unfold CompleteCancellation in H. op_cases H. right. move_tac Hk. by apply move_cancelled.
Qed.

(** * The invariant of an attempt *)

Record attempt_ok (a : BuildAttempt) : Prop := {
  ok_unleased : a_LeaseOwner a = "" → a_LeaseUntil a = zero_time;
  ok_queued : a_State a = AttemptQueued →
    a_LeaseOwner a = "" ∧ a_ExecutionAttempts a < a_MaxAttempts a;
  ok_terminal : terminalAttempt (a_State a) = true → a_LeaseOwner a = "";
  ok_completed : terminalAttempt (a_State a) = true ↔ a_CompletedAt a ≠ None;
  ok_cancel : a_CancelRequestedAt a ≠ None ↔
    a_State a = AttemptCancelling ∨ a_State a = AttemptCancelled;
  ok_started : activeState (a_State a) = true → a_StartedAt a ≠ None;
  ok_executions : 0 ≤ a_ExecutionAttempts a ≤ a_MaxAttempts a;
  ok_width : a_MaxAttempts a < 2 ^ 63;
  ok_result : a_State a = AttemptSucceeded ↔ a_Result a ≠ None;
}.

Lemma holdsLease_spec a owner now :
  holdsLease a owner now = true ↔ a_LeaseOwner a = owner ∧ now < a_LeaseUntil a.
Proof. unfold holdsLease. by rewrite andb_true_iff, String.eqb_eq, Z.ltb_lt. Qed.

(** A live lease belongs to a named worker, and a queued attempt has none. *)
Lemma live_lease a owner now :
  attempt_ok a → 0 ≤ now → holdsLease a owner now = true →
  a_LeaseOwner a ≠ "" ∧ a_State a ≠ AttemptQueued ∧ terminalAttempt (a_State a) = false ∧
  activeState (a_State a) = true.
Proof.
  intros Hok Hnow [<- Hl]%holdsLease_spec.
  assert (a_LeaseOwner a ≠ "") as Hne.
  { intros H. rewrite (ok_unleased _ Hok H) in Hl. unfold zero_time in Hl. lia. }
  assert (a_State a ≠ AttemptQueued) as Hq by (intros H; by apply Hne, (ok_queued _ Hok H)).
  assert (terminalAttempt (a_State a) = false) as Ht.
  { destruct (terminalAttempt _) eqn:E; [|done]. by destruct Hne; apply (ok_terminal _ Hok). }
  split_and!; [done..|]. by destruct (a_State a).
Qed.

Lemma validOwnerLease_owner owner d : validOwnerLease owner d = true → owner ≠ "" ∧ 0 < d.
Proof.
  unfold validOwnerLease, minute, second. intros H. bool_prop. split; [done|].
  unfold millisecond in *. lia.
Qed.

Ltac ok_field :=
  simpl; intros; subst; unfold zero_time in *;
  first [ discriminate | assumption | tauto | intuition congruence
        | intuition (congruence || lia || discriminate) ].

Lemma attempt_move_ok now ev a a' :
  0 ≤ now → attempt_ok a → attempt_move now ev a a' → attempt_ok a'.
Proof.
  intros Hnow Hok Hmove.
  assert (∀ owner, holdsLease a owner now = true →
    activeState (a_State a) = true ∧ a_LeaseOwner a ≠ "" ∧ a_LeaseOwner a = owner) as Hlive.
  { intros owner H. pose proof (live_lease _ _ _ Hok Hnow H). apply holdsLease_spec in H. tauto. }
  destruct Hok. destruct Hmove;
    repeat match goal with
    | H : validOwnerLease _ _ = true |- _ => apply validOwnerLease_owner in H as [??]
    | H : holdsLease _ _ _ = true |- _ => apply Hlive in H as (?&?&?)
    end; clear Hlive;
    unfold leaseAttempt, honourCancel, startAttempt, dropLease in *;
    destruct a as [? ? ? ? ? ? ? ? ? ? ? ? ? ? ? st ex mx ? lo lu ? ? ? ? rs ? ? ca sa co ? ?]; simpl in *.
  { destruct st; simpl in *; try done; destruct ca, sa; constructor;
      try (simpl; rewrite i64_small by (destruct ok_queued0; [done|]; unfold i64_range; lia));
      ok_field. }
  all: match goal with st : AttemptState |- _ => destruct st end;
    simpl in *; try done; try (intuition discriminate); constructor; ok_field.
Qed.

(** * Moves, terminal states and leases *)

Lemma attempt_move_open now ev a a' :
  attempt_move now ev a a' → terminalAttempt (a_State a) = false.
Proof.
  destruct 1 as [| |? ? ? ? [-> | ->]| | | | | |? ? ? ? ? ->|? ? ->| |? ? ? ? ->]; done.
Qed.

Lemma attempt_move_ID now ev a a' : attempt_move now ev a a' → a_ID a' = a_ID a.
Proof. destruct 1; try done. simpl. apply startAttempt_ID. Qed.

(** While a worker holds an attempt, a move made by another worker is not
    possible, and a user's cancellation leaves the lease in place. *)
Lemma attempt_move_lease now ev a a' holder :
  attempt_move now ev a a' → holder ≠ "" → holdsLease a holder now = true →
  eventOwner ev = Some holder ∨
  (eventOwner ev = None ∧ a_LeaseOwner a' = holder ∧ a_LeaseUntil a' = a_LeaseUntil a).
Proof.
  intros Hm Hne [Ho Hu]%holdsLease_spec.
  destruct Hm; simpl;
    repeat match goal with
    | H : holdsLease _ _ _ = true |- _ => apply holdsLease_spec in H as [? ?]
    end; try (left; congruence); try (right; split_and!; congruence).
  destruct H2; [congruence | lia].
Qed.

(** ** The number of active attempts *)

Lemma activeAttempts_insert (m : gmap string BuildAttempt) k a :
  activeAttempts (<[k := a]> m) =
  if activeState (a_State a) then <[k := a]> (activeAttempts m) else delete k (activeAttempts m).
Proof.
  unfold activeAttempts. destruct (activeState (a_State a)) eqn:E.
  - by rewrite map_filter_insert_True.
  - rewrite map_filter_insert_False; [|simpl; congruence].
    by rewrite map_filter_delete.
Qed.

Lemma activeAttempts_lookup (m : gmap string BuildAttempt) k a :
  m !! k = Some a →
  activeAttempts m !! k = if activeState (a_State a) then Some a else None.
Proof.
  intros H. unfold activeAttempts. destruct (activeState (a_State a)) eqn:E.
  - by apply map_lookup_filter_Some.
  - apply map_lookup_filter_None. right. intros a'. rewrite H. intros [= <-]. simpl. congruence.
Qed.

(** An update adds at most one active attempt, and none when the attempt was
    active already or does not become active. *)
Lemma activeAttempts_update (m : gmap string BuildAttempt) k a a' :
  m !! k = Some a →
  (size (activeAttempts (<[k := a']> m)) ≤
   size (activeAttempts m) +
   (if activeState (a_State a') && negb (activeState (a_State a)) then 1 else 0))%nat.
Proof.
  intros H. rewrite activeAttempts_insert.
  pose proof (activeAttempts_lookup m k a H) as Hl.
  destruct (activeState (a_State a')), (activeState (a_State a)); simpl.
  - rewrite map_size_insert_Some; [lia | by eexists].
  - rewrite map_size_insert_None; [lia | done].
  - rewrite map_size_delete_Some; [unfold activeAttempts; lia | by eexists].
  - rewrite map_size_delete_None; [unfold activeAttempts; lia | done].
Qed.

(** Only a claim makes an attempt active. *)
Lemma attempt_move_active now ev a a' :
  0 ≤ now → attempt_ok a → attempt_move now ev a a' →
  activeState (a_State a') = true → activeState (a_State a) = false →
  a_State a = AttemptQueued ∧ ∃ o d m, ev = EvClaim o d m.
Proof.
  intros Hnow Hok Hm Ha' Ha.
  assert (∀ owner, holdsLease a owner now = true → False) as Hno.
  { intros owner H. pose proof (live_lease _ _ _ Hok Hnow H). intuition congruence. }
  destruct Hm; try (exfalso; eapply Hno; eassumption); try done.
  - split; [by destruct (a_State a) | eauto].
  - exfalso. destruct (a_State a) eqn:E; simpl in *; try done.
    pose proof (ok_queued _ Hok E). destruct H0; tauto.
Qed.
