(* ===== verification/BuildSafety.v ===== *)
(** What the attempt state machine guarantees over every sequence of events:
    the theorems about the operations of [BuildAttempts]. *)

From S2P Require Import Prelude Regexp GoStrings BuildModel BuildAttempts.

Open Scope Z_scope.

(** A call that fails leaves the store as it was. *)
Definition attemptStep (s : MemoryStore) (now : Time) (ev : AttemptEvent) : MemoryStore :=
  match handle s now ev with Ok s' => s' | Err _ => s end.

Definition attemptRun (s : MemoryStore) (evs : list (Time * AttemptEvent)) : MemoryStore :=
  foldl (fun s ev => attemptStep s ev.1 ev.2) s evs.

(** Clocks that do not run before Go's zero time. *)
Definition clocked (evs : list (Time * AttemptEvent)) : Prop := Forall (fun ev => 0 ≤ ev.1) evs.

Definition store_ok (s : MemoryStore) : Prop :=
  keyed s ∧ ∀ k a, s_attempts s !! k = Some a → attempt_ok a.

Lemma step_cases s now ev :
  keyed s → attemptStep s now ev = s ∨
  (handle s now ev = Ok (attemptStep s now ev) ∧ moved now ev s (attemptStep s now ev)).
Proof.
  intros Hk. unfold attemptStep. destruct (handle s now ev) eqn:H; [|by left].
  apply handle_moves in H as [|]; auto.
Qed.

Lemma moved_keyed now ev s s' : keyed s → moved now ev s s' → keyed s'.
Proof.
  intros Hk (a & a' & Ha & Hm & Hs & _) k b. rewrite Hs.
  intros [[<- <-]|[_ ?]]%lookup_insert_Some; [by eapply attempt_move_ID | by apply Hk].
Qed.

Lemma moved_ok now ev s s' : 0 ≤ now → store_ok s → moved now ev s s' → store_ok s'.
Proof.
  intros Hnow [Hk Hok] Hmv. split; [by eapply moved_keyed|].
  destruct Hmv as (a & a' & Ha & Hm & Hs & _). intros k b. rewrite Hs.
  intros [[<- <-]|[_ ?]]%lookup_insert_Some; [|by eapply Hok].
  eapply attempt_move_ok; [done| |done]. by eapply Hok.
Qed.

(** Rule induction over a run, for a property of the store. *)
Lemma run_ind (P : MemoryStore → Prop) s evs :
  store_ok s → clocked evs → P s →
  (∀ s now ev s', store_ok s → 0 ≤ now → (now, ev) ∈ evs → P s →
    handle s now ev = Ok s' → moved now ev s s' → P s') →
  store_ok (attemptRun s evs) ∧ P (attemptRun s evs).
Proof.
  revert s. induction evs as [|[now ev] evs IH]; intros s Hok Hc HP Hstep; [done|].
  inversion Hc as [|? ? Hnow Hc']; subst. simpl in *.
  assert (store_ok (attemptStep s now ev) ∧ P (attemptStep s now ev)) as [??].
  { destruct (step_cases s now ev) as [->|[Hh Hm]]; [apply Hok | done|].
    split; [by eapply moved_ok | eapply Hstep; [done..| |done|done|done]; by left]. }
  apply IH; try done. intros ? ? ? ? ? ? ?. eapply Hstep; [done..|by right].
Qed.

(** Follows one attempt through a run. *)
Lemma run_attempt (P : BuildAttempt → Prop) s evs k a :
  store_ok s → clocked evs → s_attempts s !! k = Some a → P a →
  (∀ now ev b b', 0 ≤ now → attempt_ok b → attempt_move now ev b b' → P b → P b') →
  ∃ a', s_attempts (attemptRun s evs) !! k = Some a' ∧ P a'.
Proof.
  intros Hok Hc Ha HP Hstep.
  apply (run_ind (fun s => ∃ a', s_attempts s !! k = Some a' ∧ P a') s evs); [done..|by eauto|].
  intros s1 now ev s' [Hk1 Hok1] Hnow _ (b & Hb & HPb) _ (c & c' & Hc1 & Hm & Hs & _).
  rewrite Hs. destruct (decide (a_ID c = k)) as [<-|].
  - assert (c = b) as -> by congruence. exists c'. rewrite lookup_insert_eq.
    split; [done|]. by eapply Hstep; [|eapply Hok1| |].
  - exists b. by rewrite lookup_insert_ne.
Qed.

(** * The lifecycle *)

Lemma claimed_cancel owner now d a :
  a_CancelRequestedAt (leaseAttempt owner now d (honourCancel (startAttempt now a))) =
  a_CancelRequestedAt a.
Proof. unfold honourCancel, startAttempt. simpl. by repeat case_match. Qed.

(** What an attempt builds never changes. *)
Definition sameBuild (a a' : BuildAttempt) : Prop :=
  a_ID a' = a_ID a ∧ a_DefinitionID a' = a_DefinitionID a ∧ a_CommitSHA a' = a_CommitSHA a ∧
  a_DeliveryClaimKey a' = a_DeliveryClaimKey a ∧ a_GitRef a' = a_GitRef a ∧
  a_ProjectID a' = a_ProjectID a ∧ a_ServiceID a' = a_ServiceID a ∧
  a_Generation a' = a_Generation a ∧ a_SourceSnapshot a' = a_SourceSnapshot a ∧
  a_DestinationRepository a' = a_DestinationRepository a ∧
  a_PlanPlatforms a' = a_PlanPlatforms a ∧ a_MaxAttempts a' = a_MaxAttempts a.

Lemma attempt_move_sameBuild now ev a a' : attempt_move now ev a a' → sameBuild a a'.
Proof.
  destruct 1; try done. unfold sameBuild, leaseAttempt, honourCancel, startAttempt. simpl.
  by repeat case_match.
Qed.

Lemma attempt_move_executions now ev a a' :
  attempt_ok a → attempt_move now ev a a' → a_ExecutionAttempts a ≤ a_ExecutionAttempts a'.
Proof.
  intros Hok Hm. destruct Hm; try done. unfold leaseAttempt, honourCancel, startAttempt.
  pose proof (ok_executions _ Hok). pose proof (ok_width _ Hok).
  repeat case_match; bool_prop; simpl; try lia.
  all: pose proof (ok_queued _ Hok ltac:(done)); rewrite i64_small; unfold i64_range; lia.
Qed.

Lemma store_ok_run s evs : store_ok s → clocked evs → store_ok (attemptRun s evs).
Proof. intros Hok Hc. by apply (run_ind (λ _, True)). Qed.

(** The lifecycle invariant: from a well-formed store, after any sequence
    of calls with any arguments, every attempt is still there and still well
    formed - a queued or finished attempt has no lease holder, it is finished
    exactly when it has a completion time, has a result exactly when it
    succeeded, a cancellation time exactly when it is being or has been
    cancelled; what it builds has not changed, and it was started at least as
    often as before and never more often than its limit. *)
Theorem attempt_lifecycle_invariant s evs k a :
  store_ok s → clocked evs → s_attempts s !! k = Some a →
  ∃ a', s_attempts (attemptRun s evs) !! k = Some a' ∧ attempt_ok a' ∧ sameBuild a a' ∧
    a_ExecutionAttempts a ≤ a_ExecutionAttempts a' ≤ a_MaxAttempts a.
Proof.
  intros Hok Hc Ha. pose proof (proj2 Hok _ _ Ha) as Hoka.
  destruct (run_attempt (fun b => attempt_ok b ∧ sameBuild a b ∧
    a_ExecutionAttempts a ≤ a_ExecutionAttempts b) s evs k a) as (a' & Ha' & Hok' & Hs & Hex);
    try done.
  - intros now ev b b' Hnow Hb Hm (_ & Hs & Hex). split_and!.
    + by eapply attempt_move_ok.
    + apply attempt_move_sameBuild in Hm. unfold sameBuild in *. intuition congruence.
    + pose proof (attempt_move_executions _ _ _ _ Hb Hm). lia.
  - exists a'. split_and!; try done. pose proof (ok_executions _ Hok').
    destruct Hs as (_ & _ & _ & _ & _ & _ & _ & _ & _ & _ & _ & Hmx). rewrite <- Hmx. lia.
Qed.

(** A finished attempt is final: no sequence of calls changes it. *)
Theorem terminal_attempt_final s evs k a :
  store_ok s → clocked evs → s_attempts s !! k = Some a →
  terminalAttempt (a_State a) = true →
  s_attempts (attemptRun s evs) !! k = Some a.
Proof.
  intros Hok Hc Ha Ht.
  destruct (run_attempt (eq a) s evs k a) as (a' & Ha' & <-); try done.
  intros now ev b b' _ _ Hm <-. apply attempt_move_open in Hm. congruence.
Qed.

(** A cancellation wins: once a user's cancellation is recorded, the
    attempt is cancelling or cancelled for ever - no worker, however late or
    persistent, can run, fail or complete it. *)
Theorem cancelled_never_succeeds s evs k a :
  store_ok s → clocked evs → s_attempts s !! k = Some a → a_CancelRequestedAt a ≠ None →
  ∃ a', s_attempts (attemptRun s evs) !! k = Some a' ∧
    (a_State a' = AttemptCancelling ∨ a_State a' = AttemptCancelled) ∧ a_Result a' = None.
Proof.
  intros Hok Hc Ha Hcan.
  destruct (run_attempt (fun b => attempt_ok b ∧ a_CancelRequestedAt b ≠ None) s evs k a)
    as (a' & Ha' & Hok' & H); try done.
  - split; [by eapply Hok | done].
  - intros now ev b b' Hnow Hb Hm [_ Hc']. split; [by eapply attempt_move_ok|].
    destruct Hm; try done. by rewrite claimed_cancel.
  - exists a'. split; [done|].
    pose proof (proj1 (ok_cancel _ Hok') H) as Hst. split; [done|].
    destruct (a_Result a') eqn:E; [|done].
    assert (a_State a' = AttemptSucceeded) as Hs by (apply (ok_result _ Hok'); congruence).
    destruct Hst; congruence.
Qed.

(** * Capacity *)

(** Every claim of the run asks for at most [m] concurrent builders. *)
Definition withinCapacity (m : Z) (evs : list (Time * AttemptEvent)) : Prop :=
  ∀ now owner duration maxConcurrent,
    (now, EvClaim owner duration maxConcurrent) ∈ evs → maxConcurrent ≤ m.

Lemma claim_capacity s now owner d m s' :
  keyed s → handle s now (EvClaim owner d m) = Ok s' →
  ∃ c, s_attempts s !! a_ID c = Some c ∧ (a_State c = AttemptQueued → countActive s < m) ∧
    s_attempts s' = <[a_ID c := leaseAttempt owner now d (honourCancel (startAttempt now c))]>
                      (s_attempts s).
Proof.
  intros Hk. cbn [handle]. rewrite dropOut_ok. intros [out H]. unfold ClaimNextAttempt in H.
  destruct (_ || _); [done|]. destruct (sort_slice _ _) as [|c cs] eqn:Hs; [done|].
  injection H as <- <-.
  assert (c ∈ claimCandidates s now m) as Hc.
  { rewrite <- (elem_of_sort_slice olderAttempt), Hs. by left. }
  apply claimCandidates_elem in Hc as [Hc (_ & _ & _ & Hcap)%claimable_spec]; [|done].
  exists c. simpl. by rewrite startAttempt_ID.
Qed.

Lemma handle_capacity s now ev s' m :
  store_ok s → 0 ≤ now → handle s now ev = Ok s' → moved now ev s s' →
  (∀ owner d maxConcurrent, ev = EvClaim owner d maxConcurrent → maxConcurrent ≤ m) →
  countActive s ≤ m → countActive s' ≤ m.
Proof.
  intros [Hk Hok] Hnow Hh (a & a' & Ha & Hm & Hs & _) Hcap Hle.
  unfold countActive in *. rewrite Hs.
  pose proof (activeAttempts_update _ _ _ a' Ha) as Hup.
  destruct (activeState (a_State a')) eqn:E', (activeState (a_State a)) eqn:E; simpl in Hup; try lia.
  destruct (attempt_move_active now ev a a' Hnow (Hok _ _ Ha) Hm E' E) as [Hq (o & d & mc & ->)].
  apply claim_capacity in Hh as (c & Hc & Hcq & Hs'); [|done].
  pose proof (Hcap _ _ _ eq_refl).
  destruct (decide (a_State c = AttemptQueued)) as [Hq'|Hnq].
  { apply Hcq in Hq'. unfold countActive in Hq'. lia. }
  rewrite Hs' in Hs.
  destruct (decide (a_ID c = a_ID a)) as [Heq|Hne]; [congruence|].
  pose proof (f_equal (lookup (a_ID a)) Hs) as Hl.
  rewrite lookup_insert_ne, lookup_insert_eq, Ha in Hl by done. congruence.
Qed.

(** The builder capacity is respected: if every claim asks for at most
    [m] concurrent builders, then after any sequence of calls at most [m]
    attempts are preparing, running or cancelling. *)
Theorem builder_capacity s evs m :
  store_ok s → clocked evs → withinCapacity m evs → countActive s ≤ m →
  countActive (attemptRun s evs) ≤ m.
Proof.
  intros Hok Hc Hm Hle. apply (run_ind (fun s => countActive s ≤ m) s evs); [done..|].
  intros s1 now ev s' Hok1 Hnow Hin Hle1 Hh Hmv.
  eapply handle_capacity; [done..| |done]. intros ? ? ? ->. by eapply Hm.
Qed.

(** * Leases *)

(** A live lease excludes every other worker: while a worker holds an
    attempt, a call by another worker that succeeds does not touch it, and a
    user's cancellation leaves the lease in place (so the holder is the one to
    report the cancellation). *)
Theorem lease_exclusive s now ev s' k a holder :
  store_ok s → 0 ≤ now → handle s now ev = Ok s' →
  s_attempts s !! k = Some a → holdsLease a holder now = true → eventOwner ev ≠ Some holder →
  ∃ a', s_attempts s' !! k = Some a' ∧ holdsLease a' holder now = true ∧
    (eventOwner ev ≠ None → a' = a).
Proof.
  intros [Hk Hok] Hnow Hh Ha Hl Hev. apply handle_moves in Hh as [->|Hm]; [by eauto| |done].
  destruct Hm as (c & c' & Hc & Hm & Hs & _). rewrite Hs.
  pose proof (live_lease _ _ _ (Hok _ _ Ha) Hnow Hl) as [Hne _].
  pose proof Hl as [Ho Hu]%holdsLease_spec.
  destruct (decide (a_ID c = k)) as [<-|]; [|exists a; by rewrite lookup_insert_ne].
  assert (c = a) as -> by congruence. rewrite lookup_insert_eq.
  rewrite Ho in Hne.
  destruct (attempt_move_lease _ _ _ _ _ Hm Hne Hl) as [?|(Hn & Ho' & Hu')]; [done|].
  exists c'. split_and!; [done| |by intros ?]. apply holdsLease_spec. by rewrite Ho', Hu'.
Qed.

(** * Claiming *)

Definition attemptAge (a : BuildAttempt) := (a_CreatedAt a, a_ID a).

Lemma ageLess_total : total_less (lex Z.eqb Z.ltb str_less).
Proof. apply lex_total; [apply Z.eqb_eq|apply Zltb_total|apply str_less_total]. Qed.

Lemma olderAttempt_age x y : olderAttempt x y = less_on attemptAge (lex Z.eqb Z.ltb str_less) x y.
Proof. unfold olderAttempt, less_on, lex. simpl. by destruct (_ =? _). Qed.

Lemma sort_head (l : list BuildAttempt) c cs :
  sort_slice olderAttempt l = c :: cs → ∀ x, x ∈ l → olderAttempt x c = false.
Proof. apply (less_on_head attemptAge _ ageLess_total _ olderAttempt_age). Qed.

Lemma elem_of_claimCandidates s now m b k :
  s_attempts s !! k = Some b → claimable now (countActive s) m b = true →
  b ∈ claimCandidates s now m.
Proof.
  intros Hb Hc. apply elem_of_list_filter. split; [|done].
  apply list_elem_of_fmap. exists (k, b). by rewrite elem_of_map_to_list.
Qed.

(** A claim takes the oldest claimable attempt (one that is open, due,
    not held by a live lease and, if it is queued, within the capacity), starts
    and leases it to the caller; [ErrNotFound] is returned only when there is
    none, so an attempt whose worker has vanished is picked up again once its
    lease has expired. *)
Theorem ClaimNextAttempt_oldest s owner now d m :
  keyed s → validOwnerLease owner d = true → 1 ≤ m ≤ MaximumConcurrentBuilders →
  match ClaimNextAttempt s owner now d m with
  | Ok (s', a) => ∃ c, s_attempts s !! a_ID c = Some c ∧
      claimable now (countActive s) m c = true ∧
      (∀ k b, s_attempts s !! k = Some b → claimable now (countActive s) m b = true →
              olderAttempt b c = false) ∧
      a = leaseAttempt owner now d (honourCancel (startAttempt now c)) ∧
      s_attempts s' = <[a_ID c := a]> (s_attempts s) ∧
      (∀ now', now' < now + d → holdsLease a owner now' = true)
  | Err e => e = ErrNotFound ∧
      ∀ k b, s_attempts s !! k = Some b → claimable now (countActive s) m b = false
  end.
Proof.
  intros Hk Hv Hm. unfold ClaimNextAttempt. rewrite Hv.
  replace (m <? 1) with false by lia. replace (MaximumConcurrentBuilders <? m) with false by lia.
  simpl. destruct (sort_slice _ _) as [|c cs] eqn:Hs.
  - split; [done|]. intros k b Hb. destruct (claimable _ _ _ b) eqn:E; [|done].
    pose proof (elem_of_claimCandidates s now m b k Hb E) as Hin.
    rewrite <- (elem_of_sort_slice olderAttempt), Hs in Hin. by apply elem_of_nil in Hin.
  - assert (c ∈ claimCandidates s now m) as Hc.
    { rewrite <- (elem_of_sort_slice olderAttempt), Hs. by left. }
    apply claimCandidates_elem in Hc as [Hc Hcl]; [|done].
    exists c. split; [exact Hc|]. split; [exact Hcl|].
    split; [|split; [reflexivity|split]].
    + intros k b Hb E. eapply sort_head; [exact Hs|]. by eapply elem_of_claimCandidates.
    + cbn [putAttempt s_set_attempts s_attempts leaseAttempt a_ID a_set_LeaseOwner
           a_set_LeaseUntil a_set_UpdatedAt]. by rewrite startAttempt_ID.
    + intros now' Hlt. by apply holdsLease_spec.
Qed.

(** * Completion *)

Lemma CompleteAttempt_inv s id owner c now s' u :
  CompleteAttempt s id owner c now = Ok (s', u) →
  ∃ a, s_attempts s !! id = Some a ∧ holdsLease a owner now = true ∧
    a_State a = AttemptRunning ∧ a_CancelRequestedAt a = None ∧ completionMatches a c = true ∧
    validateBuildResult (bc_Result c) (bc_CacheReference c) (bc_LogReference c) = true ∧
    ∃ a', s_attempts s' = <[a_ID a := a']> (s_attempts s) ∧ a_ID a' = a_ID a ∧
      a_State a' = AttemptSucceeded ∧ a_Result a' = Some (bc_Result c) ∧
      a_LeaseOwner a' = "" ∧ a_CompletedAt a' = Some now ∧
    s_releaseProjections s' =
      match s_releaseProjections s !! a_ID a with
      | Some _ => s_releaseProjections s
      | None => <[a_ID a := newReleaseProjection now]> (s_releaseProjections s)
      end.
Proof.
  unfold CompleteAttempt. intros H. op_cases H.
  all: rename H1 into Hcan; apply cancelRequested_spec in Hcan.
  all: exists b; repeat (split; [assumption || reflexivity|]).
  all: eexists; split; [reflexivity|]; repeat (split; [reflexivity|]).
  all: simpl in *; by rewrite Hg1.
Qed.

(** A build completes exactly once, for exactly what was asked: a
    completion is accepted only from the holder of a live lease on a running
    attempt without a cancellation, and only if the result names this attempt,
    its generation, its destination by digest, its platforms and its own cache
    reference; the attempt then succeeds with that result, one release
    projection exists for it, every other attempt and projection is untouched,
    and every further completion of it is refused. *)
Theorem CompleteAttempt_once s id owner c now s' :
  keyed s → CompleteAttempt s id owner c now = Ok (s', tt) →
  (∃ a, s_attempts s !! id = Some a ∧ holdsLease a owner now = true ∧
    a_State a = AttemptRunning ∧ a_CancelRequestedAt a = None ∧
    br_OperationID (bc_Result c) = id ∧ br_Generation (bc_Result c) = a_Generation a ∧
    im_Reference (br_ResultImage (bc_Result c)) =
      a_DestinationRepository a +:+ "@" +:+ im_Digest (br_ResultImage (bc_Result c)) ∧
    im_Platforms (br_ResultImage (bc_Result c)) = a_PlanPlatforms a) ∧
  (∃ a', s_attempts s' !! id = Some a' ∧ a_State a' = AttemptSucceeded ∧
    a_Result a' = Some (bc_Result c)) ∧
  s_releaseProjections s' !! id =
    Some (default (newReleaseProjection now) (s_releaseProjections s !! id)) ∧
  (∀ id', id' ≠ id → s_attempts s' !! id' = s_attempts s !! id' ∧
    s_releaseProjections s' !! id' = s_releaseProjections s !! id') ∧
  (∀ owner' c' now', is_ok (CompleteAttempt s' id owner' c' now') = false).
Proof.
  intros Hk H. apply CompleteAttempt_inv in H
    as (a & Ha & Hl & Hst & Hcan & Hm & Hv & a' & Hs & Hid & Hst' & Hr & Hlo & Hco & Hp).
  pose proof (Hk _ _ Ha) as <-.
  assert (s_attempts s' !! a_ID a = Some a') as Ha' by (by rewrite Hs, lookup_insert_eq).
  split; [|split; [by eauto|split; [|split]]].
  - exists a. unfold completionMatches in Hm. bool_prop.
    split_and!; try done. by apply strs_eqb_eq.
  - rewrite Hp. destruct (s_releaseProjections s !! a_ID a) eqn:E; [done|].
    by rewrite lookup_insert_eq.
  - intros id' Hne. rewrite Hs, Hp, lookup_insert_ne by done. split; [done|].
    destruct (s_releaseProjections s !! a_ID a); [done|]. by rewrite lookup_insert_ne.
  - intros owner' c' now'. destruct (CompleteAttempt s' _ _ _ _) as [[s2 []]|] eqn:E; [|done].
    apply CompleteAttempt_inv in E as (b & Hb & _ & Hst2 & _). congruence.
Qed.

(** Retrying is bounded: a reported failure puts the attempt back in the
    queue, due at the requested time, exactly when its start count is below
    its limit, and fails it for good otherwise; in both cases the lease is
    released, and a pending cancellation turns it into a cancellation. *)
Theorem ScheduleAttemptRetry_bounded s id owner code now availableAt s' again :
  keyed s → ScheduleAttemptRetry s id owner code now availableAt = Ok (s', again) →
  ∃ a a', s_attempts s !! id = Some a ∧ s_attempts s' !! id = Some a' ∧
    holdsLease a owner now = true ∧ terminalAttempt (a_State a) = false ∧
    a_LeaseOwner a' = "" ∧ a_LeaseUntil a' = zero_time ∧ a_FailureCode a' = code ∧
    a_State a' = (if cancelRequested a then AttemptCancelling
                  else if a_MaxAttempts a <=? a_ExecutionAttempts a then AttemptFailed
                  else AttemptQueued) ∧
    again = negb (bool_decide (a_State a' = AttemptFailed)) ∧
    (again = true → a_AvailableAt a' = availableAt ∧ now ≤ availableAt ∧ a_CompletedAt a' = a_CompletedAt a) ∧
    (again = false → a_CompletedAt a' = Some now).
Proof.
  intros Hk. unfold ScheduleAttemptRetry. intros H. op_cases H.
  all: pose proof (Hk _ _ Hl) as <-.
  all: match type of Hl with _ = Some ?a => exists a end; eexists; split; [reflexivity|].
  all: split; [apply lookup_insert_eq|]; simpl in *; rewrite ?Hg1.
  all: try match goal with H : _ ≤ a_ExecutionAttempts _ |- _ => apply Z.leb_le in H; rewrite H end.
  all: try match goal with H : a_ExecutionAttempts _ < _ |- _ => apply Z.leb_gt in H; rewrite H end.
  all: split_and!; try done; intros; split_and?; done.
Qed.

(** * Witnesses *)

Definition sampleBuilds : MemoryStore :=
  NewMemoryStore |> s_set_attempts (<[sampleID := sampleAttempt sampleID second]>
                                    {[ sampleID2 := sampleAttempt sampleID2 (2 * second) ]}).

Lemma sampleAttempt_ok id created : attempt_ok (sampleAttempt id created).
Proof.
  constructor; simpl; try done; try lia; split; intros H; try done; try discriminate H.
  by destruct H.
Qed.

Lemma sampleBuilds_ok : store_ok sampleBuilds.
Proof.
  split; intros k a; simpl; rewrite lookup_insert_Some, lookup_singleton_Some;
    intros [[<- <-]|[_ [<- <-]]]; try done; apply sampleAttempt_ok.
Qed.

Definition sampleCompletion : BuildCompletion := mkCompletion sampleResult "" "".

(** A worker claims and runs the first attempt, then reports its result. *)
Definition sampleRunning : list (Time * AttemptEvent) :=
  [(5 * second, EvClaim "a" (30 * second) 1); (6 * second, EvRunning sampleID "a")].

Definition sampleFinished : list (Time * AttemptEvent) :=
  sampleRunning ++ [(21 * second, EvComplete sampleID "a" sampleCompletion)].

Ltac clocked_tac := repeat (constructor; [vm_compute; discriminate|]); constructor.

Definition attemptState (s : MemoryStore) (id : string) : option AttemptState :=
  a_State <$> s_attempts s !! id.

Example sampleFinished_state :
  attemptState (attemptRun sampleBuilds sampleFinished) sampleID = Some AttemptSucceeded.
Proof. vm_compute. reflexivity. Qed.

Lemma attempt_lifecycle_invariant_witness :
  ∃ a', s_attempts (attemptRun sampleBuilds sampleFinished) !! sampleID = Some a' ∧ attempt_ok a'.
Proof.
  destruct (attempt_lifecycle_invariant sampleBuilds sampleFinished sampleID
    (sampleAttempt sampleID second)) as (a' & Ha' & Hok & _);
    [exact sampleBuilds_ok | clocked_tac | vm_compute; reflexivity |].
  exists a'. exact (conj Ha' Hok).
Defined.

Lemma terminal_attempt_final_witness :
  let s := attemptRun sampleBuilds sampleFinished in
  ∃ a, s_attempts s !! sampleID = Some a ∧
    s_attempts (attemptRun s [(22 * second, EvRequestCancel sampleID)]) !! sampleID = Some a.
Proof.
  intros s. eexists. split; [vm_compute; reflexivity|].
  apply terminal_attempt_final.
  - apply store_ok_run; [exact sampleBuilds_ok | clocked_tac].
  - clocked_tac.
  - vm_compute. reflexivity.
  - reflexivity.
Defined.

Lemma cancelled_never_succeeds_witness :
  let s := attemptRun sampleBuilds (sampleRunning ++ [(7 * second, EvRequestCancel sampleID)]) in
  ∃ a', s_attempts (attemptRun s [(21 * second, EvComplete sampleID "a" sampleCompletion)])
          !! sampleID = Some a' ∧
    (a_State a' = AttemptCancelling ∨ a_State a' = AttemptCancelled) ∧ a_Result a' = None.
Proof.
  intros s. eapply cancelled_never_succeeds.
  - apply store_ok_run; [exact sampleBuilds_ok | clocked_tac].
  - clocked_tac.
  - vm_compute. reflexivity.
  - discriminate.
Defined.

Lemma builder_capacity_witness :
  countActive (attemptRun sampleBuilds (sampleRunning ++
    [(8 * second, EvClaim "b" (30 * second) 1)])) ≤ 1.
Proof.
  apply builder_capacity.
  - exact sampleBuilds_ok.
  - clocked_tac.
  - intros now owner d m H. repeat (apply elem_of_cons in H as [[= -> -> -> ->]|H]; [lia|]).
    repeat (apply elem_of_cons in H as [H|H]; [try discriminate H; injection H; lia|]).
    by apply elem_of_nil in H.
  - vm_compute. discriminate.
Defined.

Lemma lease_exclusive_witness :
  let s := attemptRun sampleBuilds sampleRunning in
  ∃ s' a', handle s (7 * second) (EvRequestCancel sampleID) = Ok s' ∧
    s_attempts s' !! sampleID = Some a' ∧ holdsLease a' "a" (7 * second) = true.
Proof.
  intros s.
  assert (store_ok s) as Hok by (apply store_ok_run; [exact sampleBuilds_ok | clocked_tac]).
  set (s' := attemptStep s (7 * second) (EvRequestCancel sampleID)).
  assert (handle s (7 * second) (EvRequestCancel sampleID) = Ok s') as H by (vm_compute; reflexivity).
  assert (∃ a, s_attempts s !! sampleID = Some a ∧ holdsLease a "a" (7 * second) = true)
    as (a & Ha & Hl) by (eexists; split; vm_compute; reflexivity).
  destruct (lease_exclusive s (7 * second) (EvRequestCancel sampleID) s' sampleID a "a" Hok
    ltac:(vm_compute; discriminate) H Ha Hl ltac:(discriminate)) as (a' & Ha' & Hl' & _).
  exists s', a'. exact (conj H (conj Ha' Hl')).
Defined.

Lemma ClaimNextAttempt_oldest_witness :
  ∃ s' a, ClaimNextAttempt sampleBuilds "a" (5 * second) (30 * second) 1 = Ok (s', a) ∧
    a_ID a = sampleID ∧ holdsLease a "a" (6 * second) = true.
Proof.
  pose proof (ClaimNextAttempt_oldest sampleBuilds "a" (5 * second) (30 * second) 1
    (proj1 sampleBuilds_ok) eq_refl ltac:(unfold MaximumConcurrentBuilders; lia)) as H.
  assert (∃ s' a, ClaimNextAttempt sampleBuilds "a" (5 * second) (30 * second) 1 = Ok (s', a) ∧
    a_ID a = sampleID) as (s' & a & E & Hid).
  { eexists _, _. split; [vm_compute; reflexivity | reflexivity]. }
  rewrite E in H. destruct H as (c & _ & _ & _ & _ & _ & Hl).
  exists s', a. exact (conj E (conj Hid (Hl (6 * second) eq_refl))).
Defined.

Lemma CompleteAttempt_once_witness :
  let s := attemptRun sampleBuilds sampleRunning in
  ∃ s', CompleteAttempt s sampleID "a" sampleCompletion (21 * second) = Ok (s', tt) ∧
    is_ok (CompleteAttempt s' sampleID "a" sampleCompletion (21 * second)) = false.
Proof.
  intros s.
  assert (keyed s) as Hk.
  { apply (store_ok_run sampleBuilds sampleRunning sampleBuilds_ok). clocked_tac. }
  set (s' := attemptStep s (21 * second) (EvComplete sampleID "a" sampleCompletion)).
  assert (CompleteAttempt s sampleID "a" sampleCompletion (21 * second) = Ok (s', tt)) as H
    by (vm_compute; reflexivity).
  exists s'. split; [exact H|].
  destruct (CompleteAttempt_once s sampleID "a" sampleCompletion (21 * second) s' Hk H)
    as (_ & _ & _ & _ & Hn).
  exact (Hn "a" sampleCompletion (21 * second)).
Defined.

Lemma ScheduleAttemptRetry_bounded_witness :
  let s := attemptRun sampleBuilds sampleRunning in
  ∃ s' a', ScheduleAttemptRetry s sampleID "a" "job-failed" (7 * second) (9 * second) = Ok (s', true) ∧
    s_attempts s' !! sampleID = Some a' ∧ a_FailureCode a' = "job-failed".
Proof.
  intros s.
  assert (keyed s) as Hk.
  { apply (store_ok_run sampleBuilds sampleRunning sampleBuilds_ok). clocked_tac. }
  set (s' := attemptStep s (7 * second) (EvRetry sampleID "a" "job-failed" (9 * second))).
  assert (ScheduleAttemptRetry s sampleID "a" "job-failed" (7 * second) (9 * second) = Ok (s', true))
    as H by (vm_compute; reflexivity).
  destruct (ScheduleAttemptRetry_bounded s sampleID "a" "job-failed" (7 * second) (9 * second) s' true
    Hk H) as (a & a' & _ & Ha' & _ & _ & _ & _ & Hf & _).
  exists s', a'. exact (conj H (conj Ha' Hf)).
Defined.
