(* ===== verification/ReleaseProjections.v ===== *)
(** The release-projection queue: [internal/builds/memory_release_projection.go].

    A succeeded attempt leaves one projection; workers claim projections under
    a lease that carries a fencing epoch.  [BuildDefinition.validate], which
    recomputes a JSON digest and plans a Kubernetes Job, is the parameter
    [definitionValid]. *)

From S2P Require Import Prelude Regexp GoStrings BuildModel.

Open Scope Z_scope.

Record ReleaseProjectionLease := mkLease {
  l_AttemptID : string;
  l_Owner : string;
  l_Epoch : Z;
  l_Until : Time;
}.

Record ReleaseProjectionWork := mkWork {
  w_Attempt : BuildAttempt;
  w_Definition : BuildDefinition;
  w_Lease : ReleaseProjectionLease;
  w_Attempts : Z;
}.

Definition l_set_Until (v : Time) (l : ReleaseProjectionLease) : ReleaseProjectionLease :=
  mkLease (l_AttemptID l) (l_Owner l) (l_Epoch l) v.

(** Go's zero value, read when a key is missing. *)
Definition zeroProjection : memoryReleaseProjection :=
  mkProjection ReleaseProjectionPending 0 zero_time "" zero_time 0 "" "" "" zero_time zero_time None.

Definition projectionAt (s : MemoryStore) (attemptID : string) : memoryReleaseProjection :=
  default zeroProjection (s_releaseProjections s !! attemptID).

Definition putProjection (s : MemoryStore) (attemptID : string)
    (projection : memoryReleaseProjection) : MemoryStore :=
  s |> s_set_releaseProjections (<[attemptID := projection]> (s_releaseProjections s)).

Definition validProjectionLease (lease : ReleaseProjectionLease) : bool :=
  re_match uuid_re (l_AttemptID lease) && negb (String.eqb (l_Owner lease) "") &&
  (str_len (l_Owner lease) <=? 128) && (0 <? l_Epoch lease) && negb (is_zero_time (l_Until lease)).

Definition projectionLeaseMatches (projection : memoryReleaseProjection)
    (lease : ReleaseProjectionLease) (now : Time) : bool :=
  bool_decide (p_state projection = ReleaseProjectionProcessing) &&
  String.eqb (p_leaseOwner projection) (l_Owner lease) &&
  (p_leaseEpoch projection =? l_Epoch lease) &&
  (p_leaseUntil projection =? l_Until lease) && (now <? p_leaseUntil projection).

(** The projection of a lease that the store still accepts. *)
Definition leasedProjection (s : MemoryStore) (lease : ReleaseProjectionLease) (now : Time)
    : option memoryReleaseProjection :=
  match s_releaseProjections s !! l_AttemptID lease with
  | Some projection => if projectionLeaseMatches projection lease now then Some projection else None
  | None => None
  end.

Definition failProjection (code : string) (now : Time) (projection : memoryReleaseProjection)
    : memoryReleaseProjection :=
  projection |> p_set_state ReleaseProjectionFailed |> p_set_failureCode code
             |> p_set_completedAt (Some now) |> p_set_leaseOwner "" |> p_set_leaseUntil zero_time
             |> p_set_updatedAt now.

Definition projectionClaimable (now : Time) (projection : memoryReleaseProjection) : bool :=
  negb ((now <? p_availableAt projection) ||
        (negb (bool_decide (p_state projection = ReleaseProjectionPending)) &&
         (negb (bool_decide (p_state projection = ReleaseProjectionProcessing)) ||
          (now <? p_leaseUntil projection)))).

Definition projectionLess (x y : string * memoryReleaseProjection) : bool :=
  if p_availableAt x.2 =? p_availableAt y.2 then
    if p_createdAt x.2 =? p_createdAt y.2 then str_less x.1 y.1
    else p_createdAt x.2 <? p_createdAt y.2
  else p_availableAt x.2 <? p_availableAt y.2.

Definition projectionQueue (s : MemoryStore) (now : Time) : list string :=
  (sort_slice projectionLess
    (List.filter (fun kv => projectionClaimable now kv.2) (map_to_list (s_releaseProjections s)))).*1.

Section projections.
Context (definitionValid : BuildDefinition → bool).

(** The loop over the ordered queue: entries that can never be projected
    are marked failed on the way, and those writes stay even when nothing
    can be claimed. *)
Fixpoint claimProjection (s : MemoryStore) (owner : string) (now : Time)
    (leaseDuration : Duration) (ids : list string)
    : MemoryStore * res BuildErr ReleaseProjectionWork :=
  match ids with
  | [] => (s, Err ErrNotFound)
  | attemptID :: rest =>
      let projection := projectionAt s attemptID in
      let fail code :=
        claimProjection (putProjection s attemptID (failProjection code now projection))
          owner now leaseDuration rest in
      if 20 <=? p_attempts projection then fail "projection-attempts-exhausted"
      else
        match s_attempts s !! attemptID with
        | None => fail "build-release-input-invalid"
        | Some attempt =>
            if negb (bool_decide (a_State attempt = AttemptSucceeded)) ||
               match a_Result attempt with None => true | Some _ => false end
            then fail "build-release-input-invalid"
            else
              let definition := a_SourceSnapshot attempt in
              if negb (definitionValid definition) ||
                 negb (String.eqb (d_ID definition) (a_DefinitionID attempt))
              then fail "build-source-snapshot-invalid"
              else
                let projection := projection
                  |> p_set_state ReleaseProjectionProcessing |> p_set_leaseOwner owner
                  |> p_set_leaseUntil (now + leaseDuration)
                  |> p_set_leaseEpoch (i64 (p_leaseEpoch projection + 1))
                  |> p_set_attempts (i64 (p_attempts projection + 1))
                  |> p_set_failureCode "" |> p_set_updatedAt now in
                (putProjection s attemptID projection,
                 Ok (mkWork attempt definition
                       (mkLease attemptID owner (p_leaseEpoch projection) (p_leaseUntil projection))
                       (p_attempts projection)))
        end
  end.

Definition ClaimNextReleaseProjection (s : MemoryStore) (owner : string) (now : Time)
    (leaseDuration : Duration) : MemoryStore * res BuildErr ReleaseProjectionWork :=
  if negb (validOwnerLease owner leaseDuration) || is_zero_time now then (s, Err ErrInvalid)
  else claimProjection s owner now leaseDuration (projectionQueue s now).
End projections.

Definition HeartbeatReleaseProjection (s : MemoryStore) (lease : ReleaseProjectionLease)
    (now : Time) (duration : Duration) : res BuildErr (MemoryStore * ReleaseProjectionLease) :=
  if negb (validProjectionLease lease) || negb (validOwnerLease (l_Owner lease) duration) ||
     is_zero_time now then Err ErrInvalid
  else match leasedProjection s lease now with
  | None => Err ErrLeaseLost
  | Some projection =>
      let projection := projection |> p_set_leaseUntil (now + duration) |> p_set_updatedAt now in
      Ok (putProjection s (l_AttemptID lease) projection,
          l_set_Until (p_leaseUntil projection) lease)
  end.

Definition RetryReleaseProjection (s : MemoryStore) (lease : ReleaseProjectionLease)
    (code : string) (now availableAt : Time) : res BuildErr (MemoryStore * bool) :=
  if negb (validProjectionLease lease) || negb (validateFailureCode code) ||
     is_zero_time now || (availableAt <? now) then Err ErrInvalid
  else match leasedProjection s lease now with
  | None => Err ErrLeaseLost
  | Some projection =>
      let projection := projection |> p_set_leaseOwner "" |> p_set_leaseUntil zero_time
                                   |> p_set_failureCode code |> p_set_updatedAt now in
      if 20 <=? p_attempts projection then
        Ok (putProjection s (l_AttemptID lease)
              (projection |> p_set_state ReleaseProjectionFailed |> p_set_completedAt (Some now)),
            false)
      else
        Ok (putProjection s (l_AttemptID lease)
              (projection |> p_set_state ReleaseProjectionPending |> p_set_availableAt availableAt),
            true)
  end.

Definition FailReleaseProjection (s : MemoryStore) (lease : ReleaseProjectionLease)
    (code : string) (now : Time) : res BuildErr (MemoryStore * unit) :=
  if negb (validProjectionLease lease) || negb (validateFailureCode code) || is_zero_time now
  then Err ErrInvalid
  else match leasedProjection s lease now with
  | None => Err ErrLeaseLost
  | Some projection =>
      Ok (putProjection s (l_AttemptID lease) (failProjection code now projection), tt)
  end.

Definition CompleteReleaseProjection (s : MemoryStore) (lease : ReleaseProjectionLease)
    (releaseID cacheGenerationID : string) (now : Time) : res BuildErr (MemoryStore * unit) :=
  if negb (validProjectionLease lease) || negb (re_match uuid_re releaseID) ||
     (negb (String.eqb cacheGenerationID "") && negb (re_match uuid_re cacheGenerationID)) ||
     is_zero_time now then Err ErrInvalid
  else match leasedProjection s lease now with
  | None => Err ErrLeaseLost
  | Some projection =>
      Ok (putProjection s (l_AttemptID lease)
            (projection |> p_set_state ReleaseProjectionSucceeded |> p_set_failureCode ""
               |> p_set_completedAt (Some now) |> p_set_releaseID releaseID
               |> p_set_cacheGenerationID cacheGenerationID
               |> p_set_leaseOwner "" |> p_set_leaseUntil zero_time |> p_set_updatedAt now), tt)
  end.

(** One succeeded attempt whose projection is waiting. *)
Definition sampleQueue : MemoryStore :=
  NewMemoryStore |> s_set_attempts {[ sampleID := sampleSucceeded sampleID ]}
    |> s_set_releaseProjections {[ sampleID :=
         mkProjection ReleaseProjectionPending 0 (20 * second) "" zero_time 0 "" "" ""
           (20 * second) (20 * second) None ]}.

(** * Steps of the queue *)

Inductive ProjectionEvent : Type :=
| PEvClaim (owner : string) (leaseDuration : Duration)
| PEvHeartbeat (lease : ReleaseProjectionLease) (duration : Duration)
| PEvRetry (lease : ReleaseProjectionLease) (code : string) (availableAt : Time)
| PEvFail (lease : ReleaseProjectionLease) (code : string)
| PEvComplete (lease : ReleaseProjectionLease) (releaseID cacheGenerationID : string).

Definition keepStore {A} (s : MemoryStore) (m : res BuildErr (MemoryStore * A)) : MemoryStore :=
  match m with Ok r => r.1 | Err _ => s end.

Definition projectionStep (definitionValid : BuildDefinition → bool) (s : MemoryStore)
    (now : Time) (ev : ProjectionEvent) : MemoryStore :=
  match ev with
  | PEvClaim owner leaseDuration =>
      (ClaimNextReleaseProjection definitionValid s owner now leaseDuration).1
  | PEvHeartbeat lease duration => keepStore s (HeartbeatReleaseProjection s lease now duration)
  | PEvRetry lease code availableAt => keepStore s (RetryReleaseProjection s lease code now availableAt)
  | PEvFail lease code => keepStore s (FailReleaseProjection s lease code now)
  | PEvComplete lease releaseID cacheGenerationID =>
      keepStore s (CompleteReleaseProjection s lease releaseID cacheGenerationID now)
  end.

(** A run: the events in order, each with its clock. *)
Definition projectionRun (definitionValid : BuildDefinition → bool) (s : MemoryStore)
    (evs : list (Time * ProjectionEvent)) : MemoryStore :=
  foldl (fun s ev => projectionStep definitionValid s ev.1 ev.2) s evs.

Definition terminalProjection (state : ReleaseProjectionState) : bool :=
  bool_decide (state = ReleaseProjectionSucceeded) || bool_decide (state = ReleaseProjectionFailed).

(** The epoch counts the claims, and there are at most twenty. *)
Definition projection_ok (p : memoryReleaseProjection) : Prop :=
  p_leaseEpoch p = p_attempts p ∧ 0 ≤ p_attempts p ≤ 20.

Definition projections_ok (s : MemoryStore) : Prop :=
  ∀ id p, s_releaseProjections s !! id = Some p → projection_ok p.

(** How one projection may evolve. *)
Record evolves (p p' : memoryReleaseProjection) : Prop := {
  ev_terminal : terminalProjection (p_state p) = true → p' = p;
  ev_epoch : p_leaseEpoch p ≤ p_leaseEpoch p';
  ev_released : p_leaseEpoch p' = p_leaseEpoch p →
    p_state p' = ReleaseProjectionProcessing → p_state p = ReleaseProjectionProcessing;
}.

#[export] Instance evolves_preorder : PreOrder evolves.
Proof.
  split.
  - intros p. by constructor.
  - intros p q r [t1 e1 r1] [t2 e2 r2]. constructor.
    + intros H. rewrite (t1 H) in *. auto.
    + lia.
    + intros He Hs. assert (p_leaseEpoch r = p_leaseEpoch q) by lia.
      apply r1; [lia | auto].
Qed.

(** A step of the whole queue: every projection evolves, none is dropped, and
    the attempts are only read. *)
Record queue_evolves (s s' : MemoryStore) : Prop := {
  qe_attempts : s_attempts s' = s_attempts s;
  qe_projection : ∀ id p, s_releaseProjections s !! id = Some p →
    ∃ p', s_releaseProjections s' !! id = Some p' ∧ evolves p p';
  qe_ok : projections_ok s → projections_ok s';
}.

#[export] Instance queue_evolves_preorder : PreOrder queue_evolves.
Proof.
  split.
  - intros s. constructor; [done | by intros id p ?; exists p | done].
  - intros s1 s2 s3 [a1 p1 o1] [a2 p2 o2]. constructor; [congruence | | auto].
    intros id p Hp. destruct (p1 _ _ Hp) as (q & Hq & E1). destruct (p2 _ _ Hq) as (r & Hr & E2).
    exists r. split; [done | by etrans].
Qed.

Lemma putProjection_evolves s id p p' :
  s_releaseProjections s !! id = Some p → (projection_ok p → evolves p p' ∧ projection_ok p') →
  projections_ok s → queue_evolves s (putProjection s id p').
Proof.
  intros Hp He Hok. destruct (He (Hok _ _ Hp)) as [Hev Hok'].
  constructor; [done | |].
  - intros id0 p0 H0. simpl. destruct (decide (id = id0)) as [<-|].
    + rewrite lookup_insert_eq. exists p'. split; [done | congruence].
    + rewrite lookup_insert_ne by done. by exists p0.
  - intros _ id0 p0. simpl. destruct (decide (id = id0)) as [<-|].
    + rewrite lookup_insert_eq. by intros [= <-].
    + rewrite lookup_insert_ne by done. apply Hok.
Qed.

Lemma projectionClaimable_spec now p :
  projectionClaimable now p = true →
  terminalProjection (p_state p) = false.
Proof.
  unfold projectionClaimable. intros H. apply negb_true_iff, orb_false_iff in H as [_ H].
  by destruct (p_state p).
Qed.

Lemma failProjection_evolves code now p :
  terminalProjection (p_state p) = false → projection_ok p →
  evolves p (failProjection code now p) ∧ projection_ok (failProjection code now p).
Proof. intros H Hok. split; [|done]. constructor; simpl; [congruence | lia | done]. Qed.

Definition claimed (owner : string) (now : Time) (leaseDuration : Duration)
    (p : memoryReleaseProjection) : memoryReleaseProjection :=
  p |> p_set_state ReleaseProjectionProcessing |> p_set_leaseOwner owner
    |> p_set_leaseUntil (now + leaseDuration) |> p_set_leaseEpoch (i64 (p_leaseEpoch p + 1))
    |> p_set_attempts (i64 (p_attempts p + 1)) |> p_set_failureCode "" |> p_set_updatedAt now.

Lemma claimed_evolves owner now d p :
  terminalProjection (p_state p) = false → p_attempts p < 20 → projection_ok p →
  evolves p (claimed owner now d p) ∧ projection_ok (claimed owner now d p) ∧
  p_leaseEpoch (claimed owner now d p) = p_leaseEpoch p + 1.
Proof.
  intros Ht Ha [He Hr].
  assert (i64 (p_attempts p + 1) = p_attempts p + 1) as E1
    by (apply i64_small; unfold i64_range; lia).
  unfold claimed, projection_ok. simpl. rewrite He, E1. split_and!; try lia.
  constructor; simpl; rewrite ?He, ?E1; [congruence | lia | lia].
Qed.

(** The entries still to be visited by the loop are claimable and distinct. *)
Definition visitable (s : MemoryStore) (now : Time) (ids : list string) : Prop :=
  NoDup ids ∧ ∀ id, id ∈ ids → ∃ p, s_releaseProjections s !! id = Some p ∧
                       projectionClaimable now p = true.

Lemma visitable_tail s now id ids p' :
  visitable s now (id :: ids) → visitable (putProjection s id p') now ids.
Proof.
  intros [Hnd H]. apply NoDup_cons in Hnd as [Hni Hnd]. split; [done|].
  intros i Hi. destruct (H i) as (p & Hp & Hc); [by right|].
  exists p. split; [|done]. simpl. rewrite lookup_insert_ne; [done|]. by intros ->.
Qed.

Lemma projectionQueue_visitable s now : visitable s now (projectionQueue s now).
Proof.
  unfold projectionQueue. split.
  - rewrite sort_slice_permutation. apply NoDup_filter_keys, NoDup_fst_map_to_list.
  - intros id H. apply list_elem_of_fmap in H as ([k p] & -> & H).
    rewrite elem_of_sort_slice in H. apply elem_of_list_filter in H as [H Hc].
    apply elem_of_map_to_list in H. by exists p.
Qed.

(** The effect of a successful claim on the projection it hands out. *)
Definition claim_effect (valid : BuildDefinition → bool) (s s' : MemoryStore) (owner : string) (now : Time) (d : Duration)
    (w : ReleaseProjectionWork) : Prop :=
  ∃ p, s_releaseProjections s !! l_AttemptID (w_Lease w) = Some p ∧
    projectionClaimable now p = true ∧ p_attempts p < 20 ∧
    s_releaseProjections s' !! l_AttemptID (w_Lease w) = Some (claimed owner now d p) ∧
    w_Lease w = mkLease (l_AttemptID (w_Lease w)) owner
                  (p_leaseEpoch (claimed owner now d p)) (now + d) ∧
    s_attempts s !! l_AttemptID (w_Lease w) = Some (w_Attempt w) ∧
    a_State (w_Attempt w) = AttemptSucceeded ∧ a_Result (w_Attempt w) ≠ None ∧
    w_Definition w = a_SourceSnapshot (w_Attempt w) ∧ valid (w_Definition w) = true ∧
    d_ID (w_Definition w) = a_DefinitionID (w_Attempt w).

Lemma claimProjection_evolves valid s owner now d ids :
  projections_ok s → visitable s now ids →
  let r := claimProjection valid s owner now d ids in
  queue_evolves s r.1 ∧ ∀ w, r.2 = Ok w → claim_effect valid s r.1 owner now d w.
Proof.
  revert s. induction ids as [|id ids IH]; intros s Hok Hv; simpl; [done|].
  pose proof (proj2 Hv) as Hvis. destruct (Hvis id) as (p & Hp & Hc'); [by left|].
  pose proof (projectionClaimable_spec _ _ Hc') as Hc.
  assert (projectionAt s id = p) as Ep by (unfold projectionAt; by rewrite Hp).
  assert (∀ code, let s1 := putProjection s id (failProjection code now (projectionAt s id)) in
    let r := claimProjection valid s1 owner now d ids in
    queue_evolves s r.1 ∧ ∀ w, r.2 = Ok w → claim_effect valid s r.1 owner now d w) as Hfail.
  { intros code. rewrite Ep. set (s1 := putProjection _ _ _).
    assert (queue_evolves s s1) as Hq.
    { eapply putProjection_evolves; [done| |done]. intros. by apply failProjection_evolves. }
    destruct (IH s1) as [Hev Hcl]; [by apply (qe_ok _ _ Hq) | by eapply visitable_tail|].
    split; [by etrans|]. intros w Hw. destruct (Hcl w Hw) as (q & Hq1 & Hq2 & Hq3).
    exists q. split; [|done]. unfold s1 in Hq1. simpl in Hq1.
    destruct (decide (id = l_AttemptID (w_Lease w))) as [E|];
      [|by rewrite lookup_insert_ne in Hq1].
    rewrite <- E, lookup_insert_eq in Hq1. injection Hq1 as <-.
    by apply projectionClaimable_spec in Hq2. }
  destruct (Z.leb_spec 20 (p_attempts (projectionAt s id))) as [|Hlt]; [apply Hfail|].
  destruct (s_attempts s !! id) as [attempt|] eqn:Ha; [|apply Hfail].
  destruct (negb (bool_decide _) || _) eqn:Hs; [apply Hfail|].
  destruct (negb (valid _) || _) eqn:Hd; [apply Hfail|]. bool_prop.
  rewrite Ep in *. fold (claimed owner now d p).
  pose proof (claimed_evolves owner now d p Hc Hlt) as Hclaim. split.
  - eapply putProjection_evolves; [done| |done]. intros. split; by apply Hclaim.
  - simpl. intros w [= <-]. exists p. simpl. rewrite lookup_insert_eq.
    split_and!; try done. by destruct (a_Result attempt).
Qed.

(** * Every step evolves the queue *)

Lemma leasedProjection_spec s lease now p :
  leasedProjection s lease now = Some p ↔
  s_releaseProjections s !! l_AttemptID lease = Some p ∧ p_state p = ReleaseProjectionProcessing ∧
  p_leaseOwner p = l_Owner lease ∧ p_leaseEpoch p = l_Epoch lease ∧
  p_leaseUntil p = l_Until lease ∧ now < p_leaseUntil p.
Proof.
  unfold leasedProjection. destruct (_ !! _) as [q|]; [|by split; [|intros [? _]]].
  unfold projectionLeaseMatches.
  destruct (bool_decide_reflect (p_state q = ReleaseProjectionProcessing)); simpl.
  2: { split; [done|]. intros ([= ->] & ? & _). done. }
  destruct (String.eqb_spec (p_leaseOwner q) (l_Owner lease)); simpl.
  2: { split; [done|]. intros ([= ->] & ? & ? & _). done. }
  destruct (Z.eqb_spec (p_leaseEpoch q) (l_Epoch lease)); simpl.
  2: { split; [done|]. intros ([= ->] & ? & ? & ? & _). done. }
  destruct (Z.eqb_spec (p_leaseUntil q) (l_Until lease)); simpl.
  2: { split; [done|]. intros ([= ->] & ? & ? & ? & ? & _). done. }
  destruct (Z.ltb_spec now (p_leaseUntil q)); simpl.
  2: { split; [done|]. intros ([= ->] & ?). lia. }
  split; [by intros [= ->]|by intros [-> _]].
Qed.

(** An update under a lease: the owner may move a projection it is processing
    anywhere, as long as the epoch and the count of claims stay. *)
Lemma leased_update_evolves s lease now p p' :
  projections_ok s → leasedProjection s lease now = Some p →
  p_leaseEpoch p' = p_leaseEpoch p → p_attempts p' = p_attempts p →
  queue_evolves s (putProjection s (l_AttemptID lease) p').
Proof.
  intros Hok (Hp & Hs & _)%leasedProjection_spec He Ha.
  eapply putProjection_evolves; [done| |done]. intros [? ?]. split.
  - constructor; [by rewrite Hs | lia | done].
  - unfold projection_ok. by rewrite He, Ha.
Qed.

Ltac leased_op :=
  repeat match goal with
  | |- context [if ?b then _ else _] => destruct b eqn:?
  | |- context [match leasedProjection ?s ?l ?n with _ => _ end] =>
      destruct (leasedProjection s l n) eqn:?
  end; simpl; try reflexivity; try (by eapply leased_update_evolves).

Lemma projectionStep_evolves valid s now ev :
  projections_ok s → queue_evolves s (projectionStep valid s now ev).
Proof.
  intros Hok. destruct ev; simpl.
  - unfold ClaimNextReleaseProjection. destruct (_ || _); [reflexivity|].
    apply claimProjection_evolves; [done | apply projectionQueue_visitable].
  - unfold HeartbeatReleaseProjection. leased_op.
  - unfold RetryReleaseProjection. leased_op.
  - unfold FailReleaseProjection. leased_op.
  - unfold CompleteReleaseProjection. leased_op.
Qed.

Lemma projectionRun_evolves valid evs s :
  projections_ok s → queue_evolves s (projectionRun valid s evs).
Proof.
  revert s. induction evs as [|[now ev] evs IH]; intros s Hok; [reflexivity|].
  pose proof (projectionStep_evolves valid s now ev Hok) as H. simpl. etrans; [exact H|].
  apply IH. by apply (qe_ok _ _ H).
Qed.

Lemma claim_ok valid s owner now d w s' :
  projections_ok s → ClaimNextReleaseProjection valid s owner now d = (s', Ok w) →
  queue_evolves s s' ∧ claim_effect valid s s' owner now d w ∧
  validOwnerLease owner d = true ∧ is_zero_time now = false.
Proof.
  intros Hok. unfold ClaimNextReleaseProjection. destruct (_ || _) eqn:E; [done|]. bool_prop.
  pose proof (claimProjection_evolves valid s owner now d _ Hok (projectionQueue_visitable s now))
    as [Hev Hcl].
  intros Hc. rewrite Hc in *. split_and!; auto.
Qed.

Lemma projectionClaimable_full now p :
  projectionClaimable now p = true ↔
  p_availableAt p ≤ now ∧
  (p_state p = ReleaseProjectionPending ∨
   p_state p = ReleaseProjectionProcessing ∧ p_leaseUntil p ≤ now).
Proof.
  unfold projectionClaimable. rewrite negb_true_iff, orb_false_iff, Z.ltb_ge.
  destruct (p_state p); simpl; rewrite ?Z.ltb_ge; intuition congruence.
Qed.

(** The projection of an earlier epoch is gone for good. *)
Lemma stale_epoch valid s evs id p lease now :
  projections_ok s → s_releaseProjections s !! id = Some p →
  l_AttemptID lease = id →
  (l_Epoch lease < p_leaseEpoch p ∨
   l_Epoch lease = p_leaseEpoch p ∧ p_state p ≠ ReleaseProjectionProcessing) →
  leasedProjection (projectionRun valid s evs) lease now = None.
Proof.
  intros Hok Hp <- Hold. destruct (leasedProjection _ _ _) as [q|] eqn:E; [|done]. exfalso.
  apply leasedProjection_spec in E as (Hq & Hs & _ & He & _).
  destruct (qe_projection _ _ (projectionRun_evolves valid evs s Hok) _ _ Hp) as (q' & Hq' & Hev).
  assert (q' = q) as -> by congruence. pose proof (ev_epoch _ _ Hev).
  destruct Hold as [?|[He' Hn]]; [lia|]. apply Hn, (ev_released _ _ Hev); [lia | done].
Qed.

Lemma projections_ok_empty s : s_releaseProjections s = ∅ → projections_ok s.
Proof. intros H id p. by rewrite H, lookup_empty. Qed.

(** The lease operations all refuse a lease the store does not accept. *)
Definition leaseRefused (s : MemoryStore) (lease : ReleaseProjectionLease) (now : Time) : Prop :=
  (∀ duration, is_ok (HeartbeatReleaseProjection s lease now duration) = false) ∧
  (∀ code availableAt, is_ok (RetryReleaseProjection s lease code now availableAt) = false) ∧
  (∀ code, is_ok (FailReleaseProjection s lease code now) = false) ∧
  (∀ releaseID cacheGenerationID,
     is_ok (CompleteReleaseProjection s lease releaseID cacheGenerationID now) = false).

Lemma leaseRefused_None s lease now : leasedProjection s lease now = None → leaseRefused s lease now.
Proof.
  intros H. unfold leaseRefused, HeartbeatReleaseProjection, RetryReleaseProjection,
    FailReleaseProjection, CompleteReleaseProjection. rewrite H. split_and!; intros; by case_match.
Qed.

(** * Properties *)

(** A stale worker is fenced off: once an attempt's projection has been
    claimed again, the lease of the earlier claim (in any renewal, that is
    with whatever owner and expiry) is refused by every lease operation, at
    every time and after any further events, so the earlier worker can neither
    complete, fail, retry nor renew. *)
Theorem projection_fencing valid s owner1 now1 d1 s1 w1 evs owner2 now2 d2 s2 w2 evs' lease now :
  projections_ok s →
  ClaimNextReleaseProjection valid s owner1 now1 d1 = (s1, Ok w1) →
  ClaimNextReleaseProjection valid (projectionRun valid s1 evs) owner2 now2 d2 = (s2, Ok w2) →
  l_AttemptID (w_Lease w2) = l_AttemptID (w_Lease w1) →
  l_AttemptID lease = l_AttemptID (w_Lease w1) → l_Epoch lease = l_Epoch (w_Lease w1) →
  leaseRefused (projectionRun valid s2 evs') lease now.
Proof.
  intros Hok (H1 & (p1 & _ & _ & _ & Hp1 & Hl1 & _) & _)%claim_ok H2 Hid Hl He; [|done].
  pose proof (qe_ok _ _ H1 Hok) as Hok1.
  pose proof (projectionRun_evolves valid evs s1 Hok1) as Hr.
  pose proof (qe_ok _ _ Hr Hok1) as Hokr.
  apply claim_ok in H2 as (H2 & (q & Hq & Hc & Ha & Hp2 & _) & _); [|done].
  destruct (qe_projection _ _ Hr _ _ Hp1) as (q' & Hq' & Hev).
  rewrite Hid in *. assert (q' = q) as -> by congruence.
  apply leaseRefused_None. eapply stale_epoch; [by apply (qe_ok _ _ H2) | exact Hp2 | done |].
  left. apply (f_equal l_Epoch) in Hl1. cbn [l_Epoch] in Hl1. rewrite He, Hl1.
  pose proof (ev_epoch _ _ Hev) as Hmono.
  pose proof (proj2 (proj2 (claimed_evolves owner2 now2 d2 q
    (projectionClaimable_spec _ _ Hc) Ha (Hokr _ _ Hq)))) as Hq2.
  rewrite Hq2. lia.
Qed.

(** A claim is exclusive and complete: it hands out a projection that was
    pending or whose previous lease had expired, of a succeeded attempt with a
    result and a valid source snapshot, counts it, raises its epoch by one,
    and leaves a lease that the store accepts until it expires.  No live lease
    is ever taken over. *)
Theorem ClaimNextReleaseProjection_exclusive valid s owner now d s' w :
  projections_ok s → ClaimNextReleaseProjection valid s owner now d = (s', Ok w) →
  ∃ p, s_releaseProjections s !! l_AttemptID (w_Lease w) = Some p ∧
    p_availableAt p ≤ now ∧
    (∀ lease, l_AttemptID lease = l_AttemptID (w_Lease w) → leasedProjection s lease now = None) ∧
    s_attempts s !! l_AttemptID (w_Lease w) = Some (w_Attempt w) ∧
    a_State (w_Attempt w) = AttemptSucceeded ∧ valid (a_SourceSnapshot (w_Attempt w)) = true ∧
    l_Epoch (w_Lease w) = p_leaseEpoch p + 1 ∧ l_Owner (w_Lease w) = owner ∧
    (∀ now', now' < now + d → is_Some (leasedProjection s' (w_Lease w) now')).
Proof.
  intros Hok (_ & (p & Hp & Hc & Ha & Hp' & Hl & Hat & Hs & _ & <- & Hv & _) & _)%claim_ok; [|done].
  pose proof (claimed_evolves owner now d p (projectionClaimable_spec _ _ Hc) Ha (Hok _ _ Hp))
    as (_ & _ & He).
  apply projectionClaimable_full in Hc as [Hav Hst].
  exists p. split_and!; try done.
  - intros lease El. destruct (leasedProjection _ _ _) eqn:E; [|done].
    apply leasedProjection_spec in E as (Hq & ? & _ & _ & _ & ?).
    rewrite El, Hp in Hq. injection Hq as <-. destruct Hst as [|[? ?]]; [congruence | lia].
  - by rewrite Hl, He.
  - by rewrite Hl.
  - intros now' Hlt. exists (claimed owner now d p). apply leasedProjection_spec.
    split; [done|]. by rewrite Hl.
Qed.

(** A finished projection is final: once it has succeeded or failed, no
    event changes any part of it, so a projected release is neither replaced
    nor projected twice; and no projection is ever claimed more than twenty
    times. *)
Theorem projection_final valid s evs id p :
  projections_ok s → s_releaseProjections s !! id = Some p →
  terminalProjection (p_state p) = true →
  s_releaseProjections (projectionRun valid s evs) !! id = Some p ∧
  ∀ id' p', s_releaseProjections (projectionRun valid s evs) !! id' = Some p' →
    p_attempts p' ≤ 20.
Proof.
  intros Hok Hp Ht. pose proof (projectionRun_evolves valid evs s Hok) as Hr. split.
  - destruct (qe_projection _ _ Hr _ _ Hp) as (p' & Hp' & Hev). by rewrite <- (ev_terminal _ _ Hev Ht).
  - intros id' p' Hp'. destruct (qe_ok _ _ Hr Hok _ _ Hp') as [_ ?]. lia.
Qed.

(** What the loop requires of an entry to hand it out. *)
Definition projectable (valid : BuildDefinition → bool) (s : MemoryStore) (now : Time)
    (id : string) : Prop :=
  ∃ p a, s_releaseProjections s !! id = Some p ∧ projectionClaimable now p = true ∧
    p_attempts p < 20 ∧ s_attempts s !! id = Some a ∧ a_State a = AttemptSucceeded ∧
    a_Result a ≠ None ∧ valid (a_SourceSnapshot a) = true ∧
    d_ID (a_SourceSnapshot a) = a_DefinitionID a.

Lemma projectable_put valid s now id id' p' :
  id ≠ id' → projectable valid s now id → projectable valid (putProjection s id' p') now id.
Proof.
  intros Hne (p & a & Hp & H). exists p, a. split; [|done]. simpl.
  by rewrite lookup_insert_ne.
Qed.

Lemma claimProjection_progress valid s owner now d ids id :
  id ∈ ids → projectable valid s now id →
  ∃ w, (claimProjection valid s owner now d ids).2 = Ok w.
Proof.
  revert s. induction ids as [|id' ids IH]; intros s Hin Hpr; [by apply elem_of_nil in Hin|].
  assert (id' ≠ id → ∀ code, ∃ w, (claimProjection valid
    (putProjection s id' (failProjection code now (projectionAt s id'))) owner now d ids).2 = Ok w)
    as Hnext.
  { intros Hne code. apply IH; [|by apply projectable_put].
    by apply elem_of_cons in Hin as [->|]. }
  simpl. destruct (decide (id' = id)) as [->|Hne].
  - destruct Hpr as (p & a & Hp & _ & Hlt & Ha & Hs & Hr & Hv & Hd).
    unfold projectionAt. rewrite Hp. simpl. destruct (Z.leb_spec 20 (p_attempts p)); [lia|].
    rewrite Ha, Hs, Hv, Hd, String.eqb_refl. destruct (a_Result a); [|done]. simpl. eauto.
  - repeat case_match; eauto.
Qed.

(** The queue makes progress: whenever some entry is claimable and
    healthy, a worker with a valid owner and lease gets work, whatever broken
    or exhausted entries stand before it; [ErrNotFound] means that there is
    none. *)
Theorem ClaimNextReleaseProjection_progress valid s owner now d id :
  validOwnerLease owner d = true → is_zero_time now = false → projectable valid s now id →
  ∃ s' w, ClaimNextReleaseProjection valid s owner now d = (s', Ok w).
Proof.
  intros Hv Hn Hp. unfold ClaimNextReleaseProjection. rewrite Hv, Hn. simpl.
  destruct (claimProjection_progress valid s owner now d (projectionQueue s now) id) as [w Hw];
    [|done|by destruct (claimProjection _ _ _ _ _ _) as [s' r]; simpl in *; subst; eauto].
  destruct Hp as (p & _ & Hp & Hc & _). unfold projectionQueue.
  apply list_elem_of_fmap. exists (id, p). split; [done|].
  by rewrite elem_of_sort_slice, elem_of_list_filter, elem_of_map_to_list.
Qed.

(** A lease is used up by the result it reports: after an accepted
    retry, failure or completion (one that changes the store) no lease of that epoch is accepted again. *)
Theorem projection_lease_consumed valid s lease now evs lease' now' ev :
  projections_ok s →
  match ev with PEvRetry l _ _ | PEvFail l _ | PEvComplete l _ _ => l = lease | _ => False end →
  projectionStep valid s now ev ≠ s →
  l_AttemptID lease' = l_AttemptID lease → l_Epoch lease' = l_Epoch lease →
  leaseRefused (projectionRun valid (projectionStep valid s now ev) evs) lease' now'.
Proof.
  intros Hok Hev Hstep Hid He. apply leaseRefused_None.
  pose proof (qe_ok _ _ (projectionStep_evolves valid s now ev Hok) Hok) as Hok'.
  destruct (leasedProjection s lease now) as [p|] eqn:E.
  2: { destruct ev; try done; subst; simpl in *;
       unfold RetryReleaseProjection, FailReleaseProjection, CompleteReleaseProjection in *;
       rewrite E in *; by case_match. }
  pose proof E as (_ & _ & _ & Hep & _)%leasedProjection_spec.
  destruct ev; try done; subst; simpl in *;
    unfold RetryReleaseProjection, FailReleaseProjection, CompleteReleaseProjection in *;
    rewrite E in *; destruct (_ || is_zero_time now || _) || destruct (_ || is_zero_time now);
    try done; try case_match; simpl in *;
    (eapply stale_epoch; [exact Hok' | simpl; apply lookup_insert_eq | done |]);
    right; simpl; split; congruence.
Qed.

(** * Witnesses *)

#[export] Instance projection_ok_dec p : Decision (projection_ok p).
Proof. unfold projection_ok. apply _. Defined.

Lemma projections_ok_eval s :
  bool_decide (map_Forall (λ _, projection_ok) (s_releaseProjections s)) = true →
  projections_ok s.
Proof. intros H%bool_decide_eq_true_1 id p. apply H. Qed.

Lemma projection_fencing_witness :
  ∃ s1 w1 s2 w2,
    ClaimNextReleaseProjection (λ _, true) sampleQueue "a" (30 * second) (5 * second) = (s1, Ok w1) ∧
    ClaimNextReleaseProjection (λ _, true) s1 "b" (40 * second) (5 * second) = (s2, Ok w2) ∧
    leaseRefused s2 (w_Lease w1) (41 * second).
Proof.
  eexists _, _, _, _. split; [vm_compute; reflexivity|]. split; [vm_compute; reflexivity|].
  eapply (projection_fencing (λ _, true) sampleQueue "a" (30 * second) (5 * second) _ _ []
            "b" (40 * second) (5 * second) _ _ []);
    [apply projections_ok_eval; vm_compute; reflexivity | vm_compute; reflexivity | vm_compute; reflexivity | reflexivity..].
Defined.

Lemma ClaimNextReleaseProjection_exclusive_witness :
  ∃ s' w,
    ClaimNextReleaseProjection (λ _, true) sampleQueue "a" (30 * second) (5 * second) = (s', Ok w) ∧
    ∀ now', now' < 30 * second + 5 * second → is_Some (leasedProjection s' (w_Lease w) now').
Proof.
  eexists _, _. split; [vm_compute; reflexivity|].
  edestruct (ClaimNextReleaseProjection_exclusive (λ _, true) sampleQueue "a" (30 * second)
    (5 * second)) as (p & H); [apply projections_ok_eval; vm_compute; reflexivity | vm_compute; reflexivity | apply H].
Defined.

Lemma projection_final_witness :
  let s := keepStore sampleQueue (
    let (s1, r) := ClaimNextReleaseProjection (λ _, true) sampleQueue "a" (30 * second) (5 * second) in
    let* w := r in CompleteReleaseProjection s1 (w_Lease w) sampleID2 "" (31 * second)) in
  p_state (projectionAt s sampleID) = ReleaseProjectionSucceeded ∧
  s_releaseProjections (projectionRun (λ _, true) s [(90 * second, PEvClaim "b" (5 * second))])
    !! sampleID = Some (projectionAt s sampleID).
Proof.
  intros s. split; [vm_compute; reflexivity|].
  apply (projection_final (λ _, true) s);
    [apply projections_ok_eval; vm_compute; reflexivity | vm_compute; reflexivity..].
Defined.

Lemma ClaimNextReleaseProjection_progress_witness :
  ∃ s' w, ClaimNextReleaseProjection (λ _, true) sampleQueue "a" (30 * second) (5 * second) = (s', Ok w).
Proof.
  apply (ClaimNextReleaseProjection_progress (λ _, true) sampleQueue "a" _ _ sampleID);
    [vm_compute; reflexivity..|].
  eexists _, _. split_and!; try (vm_compute; reflexivity). vm_compute. discriminate.
Defined.

Lemma projection_lease_consumed_witness :
  let s := projectionStep (λ _, true) sampleQueue (30 * second) (PEvClaim "a" (5 * second)) in
  let lease := mkLease sampleID "a" 1 (35 * second) in
  leasedProjection s lease (31 * second) = Some (projectionAt s sampleID) ∧
  leaseRefused (projectionStep (λ _, true) s (31 * second) (PEvFail lease "bad-input"))
    lease (32 * second).
Proof.
  intros s lease. split; [vm_compute; reflexivity|].
  apply (projection_lease_consumed (λ _, true) s lease (31 * second) [] lease (32 * second)
           (PEvFail lease "bad-input")); [ | reflexivity | | reflexivity..].
  - apply projections_ok_eval. vm_compute. reflexivity.
  - intros H. apply (f_equal (fun s => p_state (projectionAt s sampleID))) in H.
    vm_compute in H. discriminate H.
Defined.
