(* ===== verification/BuildSources.v ===== *)
(** The sources of builds: GitHub installations, their repositories and the
    build definitions of the services - the methods of [MemoryStore] in
    [internal/builds/memory.go] that keep them, with the validation of
    [internal/builds/model.go].

    As in [BuildAttempts], every early return precedes the first write. *)

From S2P Require Import Prelude Regexp GoStrings Digest BuildModel.
From Stdlib Require Import Ascii.

Open Scope Z_scope.

(** * Validation *)

Definition is_alnum (c : ascii) : bool := is_lower c || is_upper c || is_digit c.

Definition login_re : regex :=
  let edge := RClass is_alnum in
  RSeq edge (ROpt (RSeq (RRep 0 38 (RClass (fun c => is_alnum c || is_one_of "-" c))) edge)).

Definition repository_re : regex := RRep 1 100 (RClass (fun c => is_alnum c || is_one_of "_.-" c)).

Definition permission_re : regex :=
  RSeq (RClass is_lower) (RRep 0 63 (RClass (fun c => is_lower c || is_digit c || is_one_of "_" c))).

Definition validAccount (account : AccountIdentity) : bool :=
  (0 <? ac_ID account) && re_match login_re (ac_Login account) &&
  (String.eqb (ac_Type account) "User" || String.eqb (ac_Type account) "Organization").

Definition validRepository (repository : RepositoryIdentity) : bool :=
  (0 <? ri_ID repository) && (0 <? ri_OwnerID repository) &&
  re_match login_re (ri_OwnerLogin repository) && re_match repository_re (ri_Name repository) &&
  negb (String.eqb (ri_Name repository) ".") && negb (String.eqb (ri_Name repository) "..") &&
  negb (has_suffix ".git" (to_lower (ri_Name repository))).

Definition validLevel (level : string) : bool := str_in level ["none"; "read"; "write"].

Definition validPermissions (permissions : gmap string string) : bool :=
  let n := Z.of_nat (size permissions) in
  negb ((n =? 0) || (64 <? n)) &&
  forallb (fun entry => re_match permission_re entry.1 && validLevel entry.2)
    (map_to_list permissions).

Definition isSome {A} (o : option A) : bool := match o with Some _ => true | None => false end.

Definition installationValid (i : Installation) : bool :=
  negb (negb (re_match uuid_re (in_ID i)) || (in_AppID i <=? 0) ||
        (in_GitHubInstallationID i <=? 0) || negb (validAccount (in_Account i)) ||
        (negb (String.eqb (in_RepositorySelection i) "all") &&
         negb (String.eqb (in_RepositorySelection i) "selected")) ||
        is_zero_time (in_LastVerifiedAt i) || is_zero_time (in_UpdatedAt i)) &&
  negb (bool_decide (in_Lifecycle i = InstallationPending)) &&
  negb ((Z.of_nat (size (in_Permissions i)) =? 0) || (64 <? Z.of_nat (size (in_Permissions i)))) &&
  forallb (fun entry => negb (String.eqb entry.1 "") && validLevel entry.2)
    (map_to_list (in_Permissions i)) &&
  Bool.eqb (bool_decide (in_Lifecycle i = InstallationSuspended)) (isSome (in_SuspendedAt i)) &&
  Bool.eqb (bool_decide (in_Lifecycle i = InstallationDeleted)) (isSome (in_DeletedAt i)).

Definition repositoryValid (r : Repository) : bool :=
  negb (negb (re_match uuid_re (re_ID r)) || negb (re_match uuid_re (re_InstallationID r)) ||
        negb (validRepository (re_Identity r)) || is_zero_time (re_LastVerifiedAt r) ||
        is_zero_time (re_UpdatedAt r)) &&
  Bool.eqb (bool_decide (re_Lifecycle r = RepositoryRemoved)) (isSome (re_RemovedAt r)).

(** * Webhook events ([internal/githubapp/events.go]) *)

Record InstallationEvent := mkInstallationEvent {
  ie_Action : string;
  ie_InstallationID : Z;
  ie_Account : AccountIdentity;
  ie_RepositorySelection : string;
  ie_Permissions : gmap string string;
  ie_SuspendedAt : option Time;
  ie_Sender : AccountIdentity;
}.

Record InstallationRepositoriesEvent := mkRepositoriesEvent {
  rv_Action : string;
  rv_InstallationID : Z;
  rv_Account : AccountIdentity;
  rv_RepositorySelection : string;
  rv_Added : list RepositoryIdentity;
  rv_Removed : list RepositoryIdentity;
  rv_Sender : AccountIdentity;
}.

Definition validSelection (selection : string) : bool :=
  String.eqb selection "all" || String.eqb selection "selected".

Definition validInstallationEvent (event : InstallationEvent) : bool :=
  negb ((ie_InstallationID event <=? 0) || negb (validAccount (ie_Account event)) ||
        negb (validSelection (ie_RepositorySelection event)) ||
        negb (validPermissions (ie_Permissions event))) &&
  str_in (ie_Action event) ["created"; "deleted"; "suspend"; "unsuspend"; "new_permissions_accepted"].

(** The loop over the identities, with its [seen] set. *)
Fixpoint validIdentities (account : AccountIdentity) (identities : list RepositoryIdentity)
    (seen : gset Z) : bool :=
  match identities with
  | [] => true
  | identity :: rest =>
      if negb (validRepository identity) || negb (ri_OwnerID identity =? ac_ID account) ||
         negb (equal_fold (ri_OwnerLogin identity) (ac_Login account)) then false
      else if bool_decide (ri_ID identity ∈ seen) then false
      else validIdentities account rest ({[ri_ID identity]} ∪ seen)
  end.

Definition isEmpty {A} (l : list A) : bool := match l with [] => true | _ => false end.

Definition validRepositoryEvent (event : InstallationRepositoriesEvent) : bool :=
  let removed := String.eqb (rv_Action event) "removed" in
  let added := String.eqb (rv_Action event) "added" in
  let identities := if removed then rv_Removed event else rv_Added event in
  negb ((rv_InstallationID event <=? 0) || negb (validAccount (rv_Account event)) ||
        negb (validSelection (rv_RepositorySelection event))) &&
  (removed || added) && negb (isEmpty identities) &&
  validIdentities (rv_Account event) identities ∅ &&
  ((added && isEmpty (rv_Removed event)) || (removed && isEmpty (rv_Added event))).

(** * Keys of the maps *)

Definition claimMapKey (kind key : string) : string := kind +:+ nul +:+ key.

Definition providerInstallationKey (appID installationID : Z) : string :=
  str_join nul [format_int appID; format_int installationID].

Definition serviceKey (projectID serviceID : string) : string := projectID +:+ nul +:+ serviceID.

Definition repositoryUUID (installationID : string) (identity : RepositoryIdentity) : string :=
  deterministicUUID ["github-repository-v1"; installationID; format_int (ri_ID identity)].

(** * Installations and repositories *)

Definition PutInstallation (s : MemoryStore) (installation : Installation) : res BuildErr MemoryStore :=
  if negb (installationValid installation) then Err ErrInvalid
  else
    let providerKey := providerInstallationKey (in_AppID installation)
                         (in_GitHubInstallationID installation) in
    let taken :=
      match s_installationByProvider s !! providerKey with
      | Some existingID => negb (String.eqb existingID (in_ID installation))
      | None => false
      end in
    let changed :=
      match s_installations s !! in_ID installation with
      | Some current =>
          negb (in_AppID current =? in_AppID installation) ||
          negb (in_GitHubInstallationID current =? in_GitHubInstallationID installation) ||
          negb (ac_ID (in_Account current) =? ac_ID (in_Account installation))
      | None => false
      end in
    if taken then Err ErrConflict
    else if changed then Err ErrConflict
    else Ok (s |> s_set_installations (<[in_ID installation := installation]> (s_installations s))
               |> s_set_installationByProvider
                    (<[providerKey := in_ID installation]> (s_installationByProvider s))).

(** The repository belongs to the account the installation is for. *)
Definition ownedBy (installation : Installation) (identity : RepositoryIdentity) : bool :=
  (ri_OwnerID identity =? ac_ID (in_Account installation)) &&
  equal_fold (ri_OwnerLogin identity) (ac_Login (in_Account installation)).

(** Another entry for the same repository of the same installation. *)
Definition shadows (repositories : gmap string Repository) (installationID : string)
    (repository : Repository) : bool :=
  existsb (fun entry =>
      negb (String.eqb entry.1 (re_ID repository)) &&
      String.eqb (re_InstallationID entry.2) installationID &&
      (ri_ID (re_Identity entry.2) =? ri_ID (re_Identity repository)))
    (map_to_list repositories).

Definition putRepository (repositories : gmap string Repository) (repository : Repository)
    : gmap string Repository :=
  <[re_ID repository := repository]> repositories.

Definition PutRepository (s : MemoryStore) (repository : Repository) : res BuildErr MemoryStore :=
  if negb (repositoryValid repository) then Err ErrInvalid
  else match s_installations s !! re_InstallationID repository with
  | None => Err ErrNotFound
  | Some installation =>
      if negb (ownedBy installation (re_Identity repository)) then Err ErrUnauthorized
      else if shadows (s_repositories s) (re_InstallationID repository) repository
      then Err ErrConflict
      else Ok (s |> s_set_repositories (putRepository (s_repositories s) repository))
  end.

(** The checks of [ReconcileRepositories], in order, with its [active] set. *)
Fixpoint reconcilable (existing : gmap string Repository) (installation : Installation)
    (installationID : string) (repositories : list Repository) (active : gset Z)
    : res BuildErr (gset Z) :=
  match repositories with
  | [] => Ok active
  | repository :: rest =>
      if negb (repositoryValid repository) ||
         negb (String.eqb (re_InstallationID repository) installationID) ||
         negb (bool_decide (re_Lifecycle repository = RepositoryActive)) ||
         negb (ownedBy installation (re_Identity repository)) then Err ErrUnauthorized
      else if bool_decide (ri_ID (re_Identity repository) ∈ active) then Err ErrConflict
      else if shadows existing installationID repository then Err ErrConflict
      else reconcilable existing installation installationID rest
             ({[ri_ID (re_Identity repository)]} ∪ active)
  end.

Definition removeRepository (now : Time) (repository : Repository) : Repository :=
  repository |> re_set_Lifecycle RepositoryRemoved |> re_set_RemovedAt (Some now)
             |> re_set_UpdatedAt now.

(** The entries of the installation that are not in the new list. *)
Definition retire (installationID : string) (active : gset Z) (now : Time) (repository : Repository)
    : Repository :=
  if negb (String.eqb (re_InstallationID repository) installationID) then repository
  else if bool_decide (ri_ID (re_Identity repository) ∈ active) then repository
  else removeRepository now repository.

(** A known repository keeps its creation time. *)
Definition adopt (repositories : gmap string Repository) (repository : Repository)
    : gmap string Repository :=
  let repository :=
    match repositories !! re_ID repository with
    | Some current => repository |> re_set_CreatedAt (re_CreatedAt current)
    | None => repository
    end in
  putRepository repositories repository.

Definition ReconcileRepositories (s : MemoryStore) (installationID : string)
    (repositories : list Repository) (now : Time) : res BuildErr MemoryStore :=
  if negb (re_match uuid_re installationID) || is_zero_time now ||
     (500 <? Z.of_nat (length repositories)) then Err ErrInvalid
  else match s_installations s !! installationID with
  | None => Err ErrNotFound
  | Some installation =>
      let* active := reconcilable (s_repositories s) installation installationID repositories ∅ in
      let kept := retire installationID active now <$> s_repositories s in
      Ok (s |> s_set_repositories (foldl adopt kept repositories))
  end.

(** * Events of the provider *)

(** The account an event names is the account of the installation. *)
Definition sameAccount (installation : Installation) (account : AccountIdentity) : bool :=
  (ac_ID (in_Account installation) =? ac_ID account) &&
  equal_fold (ac_Login (in_Account installation)) (ac_Login account) &&
  String.eqb (ac_Type (in_Account installation)) (ac_Type account).

(** The zero value a Go map returns for a missing key. *)
Definition zeroInstallation : Installation :=
  mkInstallation "" 0 0 (mkAccount 0 "" "") "" ∅ InstallationPending None None zero_time zero_time.

Definition installationAt (s : MemoryStore) (id : string) : Installation :=
  default zeroInstallation (s_installations s !! id).

Definition putInstallation (s : MemoryStore) (id : string) (installation : Installation) : MemoryStore :=
  s |> s_set_installations (<[id := installation]> (s_installations s)).

Definition applyLifecycle (action : string) (now : Time) (installation : Installation)
    : res BuildErr Installation :=
  let deleted := bool_decide (in_Lifecycle installation = InstallationDeleted) in
  switch action
    [("deleted", Ok (installation |> in_set_Lifecycle InstallationDeleted
        |> in_set_SuspendedAt None |> in_set_DeletedAt (Some now)));
     ("suspend", Ok (installation |> in_set_Lifecycle InstallationSuspended
        |> in_set_DeletedAt None |> in_set_SuspendedAt (Some now)));
     ("created", if deleted then Err ErrUnauthorized else
        Ok (installation |> in_set_Lifecycle InstallationActive |> in_set_SuspendedAt None
              |> in_set_DeletedAt None));
     ("unsuspend", if deleted then Err ErrUnauthorized else
        Ok (installation |> in_set_Lifecycle InstallationActive |> in_set_SuspendedAt None
              |> in_set_DeletedAt None));
     ("new_permissions_accepted", if deleted then Err ErrUnauthorized else Ok installation)]
    (Err ErrInvalid).

Definition ApplyInstallationEvent (s : MemoryStore) (appID : Z) (event : InstallationEvent)
    (now : Time) : res BuildErr MemoryStore :=
  if negb (validInstallationEvent event) then Err ErrInvalid
  else match s_installationByProvider s !! providerInstallationKey appID (ie_InstallationID event) with
  | None => Err ErrNotFound
  | Some id =>
      let installation := installationAt s id in
      if negb (sameAccount installation (ie_Account event)) then Err ErrUnauthorized
      else
        let* installation := applyLifecycle (ie_Action event) now
          (installation |> in_set_RepositorySelection (ie_RepositorySelection event)
                        |> in_set_Permissions (ie_Permissions event)) in
        Ok (putInstallation s id (installation |> in_set_UpdatedAt now))
  end.

(** A repository the installation gained: a known one keeps its creation time. *)
Definition addRepository (installationID : string) (now : Time)
    (repositories : gmap string Repository) (identity : RepositoryIdentity)
    : gmap string Repository :=
  let id := repositoryUUID installationID identity in
  let created := match repositories !! id with
                 | Some current => re_CreatedAt current
                 | None => now
                 end in
  <[id := mkRepository id installationID identity RepositoryActive now None created now]> repositories.

(** The search for a repository to remove: the last entry found counts, and
    one that disagrees with the event stops it. *)
Fixpoint findRemoved (installationID : string) (identity : RepositoryIdentity)
    (entries : list (string * Repository)) (foundID : string) : res BuildErr string :=
  match entries with
  | [] => if String.eqb foundID "" then Err ErrNotFound else Ok foundID
  | (id, repository) :: rest =>
      if String.eqb (re_InstallationID repository) installationID &&
         (ri_ID (re_Identity repository) =? ri_ID identity) then
        if negb (ri_OwnerID (re_Identity repository) =? ri_OwnerID identity) ||
           negb (String.eqb (ri_Name (re_Identity repository)) (ri_Name identity)) ||
           negb (equal_fold (ri_OwnerLogin (re_Identity repository)) (ri_OwnerLogin identity))
        then Err ErrUnauthorized
        else findRemoved installationID identity rest id
      else findRemoved installationID identity rest foundID
  end.

Section events.
Context `{MapOrder}.

Fixpoint findAllRemoved (repositories : gmap string Repository) (installationID : string)
    (identities : list RepositoryIdentity) : res BuildErr (list string) :=
  match identities with
  | [] => Ok []
  | identity :: rest =>
      let* id := findRemoved installationID identity (range 31 repositories) "" in
      let* ids := findAllRemoved repositories installationID rest in
      Ok (id :: ids)
  end.

(** [s.repositories[repositoryID]] with its three assignments *)
Definition removeAt (now : Time) (repositories : gmap string Repository) (id : string)
    : gmap string Repository :=
  match repositories !! id with
  | Some repository => <[id := removeRepository now repository]> repositories
  | None => repositories
  end.

Definition ApplyRepositoryEvent (s : MemoryStore) (appID : Z) (event : InstallationRepositoriesEvent)
    (now : Time) : res BuildErr MemoryStore :=
  if negb (validRepositoryEvent event) then Err ErrInvalid
  else match s_installationByProvider s !! providerInstallationKey appID (rv_InstallationID event) with
  | None => Err ErrNotFound
  | Some installationID =>
      let installation := installationAt s installationID in
      if bool_decide (in_Lifecycle installation = InstallationDeleted) ||
         negb (sameAccount installation (rv_Account event)) then Err ErrUnauthorized
      else
        let touched := putInstallation s installationID
          (installation |> in_set_RepositorySelection (rv_RepositorySelection event)
                        |> in_set_UpdatedAt now) in
        if String.eqb (rv_Action event) "added" then
          if forallb (fun identity => validRepository identity && ownedBy installation identity)
               (rv_Added event) then
            Ok (touched |> s_set_repositories
                  (foldl (addRepository installationID now) (s_repositories s) (rv_Added event)))
          else Err ErrUnauthorized
        else if negb (String.eqb (rv_Action event) "removed") then Err ErrInvalid
        else
          let* removeIDs := findAllRemoved (s_repositories s) installationID (rv_Removed event) in
          Ok (touched |> s_set_repositories (foldl (removeAt now) (s_repositories s) removeIDs))
  end.
End events.

(** * Definitions *)

Section definitions.
Context `{MapOrder}.

(** [definition.validate()], which recomputes the JSON digest of the
    definition; the results below hold whatever it accepts. *)
Context (definitionValid : BuildDefinition → bool).

Definition sameService (a b : BuildDefinition) : bool :=
  String.eqb (d_ProjectID a) (d_ProjectID b) && String.eqb (d_ServiceID a) (d_ServiceID b).

(** The loop that looks for the definition of the service. *)
Fixpoint serviceDefinition (definition : BuildDefinition) (entries : list (string * BuildDefinition))
    (found : option BuildDefinition) : res BuildErr (option BuildDefinition) :=
  match entries with
  | [] => Ok found
  | (_, current) :: rest =>
      if negb (sameService current definition) then serviceDefinition definition rest found
      else match found with
      | Some previous =>
          if negb (String.eqb (d_ID current) (d_ID previous)) then Err ErrConflict
          else serviceDefinition definition rest (Some current)
      | None => serviceDefinition definition rest (Some current)
      end
  end.

(** The installation and the repository a GitHub definition builds from. *)
Definition checkSource (s : MemoryStore) (definition : BuildDefinition) : res BuildErr unit :=
  if bool_decide (d_Kind definition = SourceGitHub) then
    match s_installations s !! d_InstallationID definition,
          s_repositories s !! d_RepositoryID definition with
    | Some installation, Some repository =>
        if negb (String.eqb (re_InstallationID repository) (in_ID installation)) ||
           bool_decide (in_Lifecycle installation = InstallationDeleted) ||
           bool_decide (re_Lifecycle repository = RepositoryRemoved) then Err ErrUnauthorized
        else Ok tt
    | _, _ => Err ErrNotFound
    end
  else Ok tt.

Definition PutDefinition (s : MemoryStore) (definition : BuildDefinition) : res BuildErr MemoryStore :=
  if negb (definitionValid definition) then Err ErrInvalid
  else
    let* _ := checkSource s definition in
    let* found := serviceDefinition definition (range 32 (s_definitions s)) None in
    let definition :=
      match found with
      | Some current =>
          definition |> d_set_ID (d_ID current)
                     |> d_set_DefinitionGeneration (i64 (d_DefinitionGeneration current + 1))
                     |> d_set_CreatedAt (d_CreatedAt current)
      | None => definition
      end in
    Ok (s |> s_set_definitions (<[d_ID definition := definition]> (s_definitions s))).
End definitions.

(** * Runs of these operations *)

Inductive SourceEvent : Type :=
| SrcInstallation (installation : Installation)
| SrcRepository (repository : Repository)
| SrcReconcile (installationID : string) (repositories : list Repository)
| SrcDefinition (definition : BuildDefinition)
| SrcInstallationEvent (appID : Z) (event : InstallationEvent)
| SrcRepositoryEvent (appID : Z) (event : InstallationRepositoriesEvent).

Definition handleSource `{MapOrder} (definitionValid : BuildDefinition → bool) (s : MemoryStore)
    (now : Time) (ev : SourceEvent) : res BuildErr MemoryStore :=
  match ev with
  | SrcInstallation installation => PutInstallation s installation
  | SrcRepository repository => PutRepository s repository
  | SrcReconcile installationID repositories => ReconcileRepositories s installationID repositories now
  | SrcDefinition definition => PutDefinition definitionValid s definition
  | SrcInstallationEvent appID event => ApplyInstallationEvent s appID event now
  | SrcRepositoryEvent appID event => ApplyRepositoryEvent s appID event now
  end.

Definition sourceStep `{MapOrder} (definitionValid : BuildDefinition → bool) (s : MemoryStore)
    (ev : Time * SourceEvent) : MemoryStore :=
  match handleSource definitionValid s ev.1 ev.2 with Ok s' => s' | Err _ => s end.

Definition sourceRun `{MapOrder} (definitionValid : BuildDefinition → bool) (s : MemoryStore)
    (evs : list (Time * SourceEvent)) : MemoryStore := foldl (sourceStep definitionValid) s evs.

(** ** The invariant

    Callers name a repository by [deterministicUUID] of its installation and
    its provider identifier, as [internal/builds/setup.go] does. *)

Definition canonical (r : Repository) : Prop :=
  re_ID r = repositoryUUID (re_InstallationID r) (re_Identity r).

Definition providerKeyOf (i : Installation) : string :=
  providerInstallationKey (in_AppID i) (in_GitHubInstallationID i).

Definition repository_ok (installations : gmap string Installation) (k : string) (r : Repository) : Prop :=
  re_ID r = k ∧ canonical r ∧
  ∃ i, installations !! re_InstallationID r = Some i ∧
       ri_OwnerID (re_Identity r) = ac_ID (in_Account i).

Record sources_ok (s : MemoryStore) : Prop := {
  so_installation : ∀ k i, s_installations s !! k = Some i →
    in_ID i = k ∧ s_installationByProvider s !! providerKeyOf i = Some k;
  so_provider : ∀ p id, s_installationByProvider s !! p = Some id →
    ∃ i, s_installations s !! id = Some i ∧ providerKeyOf i = p;
  so_repository : ∀ k r, s_repositories s !! k = Some r → repository_ok (s_installations s) k r;
  so_definition : ∀ k d, s_definitions s !! k = Some d → d_ID d = k;
  so_service : ∀ k1 k2 d1 d2, s_definitions s !! k1 = Some d1 → s_definitions s !! k2 = Some d2 →
    sameService d1 d2 = true → k1 = k2;
}.

Definition canonicalEvent (ev : SourceEvent) : Prop :=
  match ev with
  | SrcRepository r => canonical r
  | SrcReconcile _ rs => Forall canonical rs
  | _ => True
  end.

(** ** Frame lemmas *)

Lemma repository_ok_mono (m m' : gmap string Installation) k r :
  (∀ id i, m !! id = Some i → ∃ i', m' !! id = Some i' ∧ ac_ID (in_Account i') = ac_ID (in_Account i)) →
  repository_ok m k r → repository_ok m' k r.
Proof.
  intros Hm (Hk & Hc & i & Hi & Ho). apply Hm in Hi as (i' & Hi & Ha).
  split_and!; [done..|]. exists i'. by rewrite Ha.
Qed.

Lemma sources_ok_repositories s m :
  sources_ok s → (∀ k r, m !! k = Some r → repository_ok (s_installations s) k r) →
  sources_ok (s |> s_set_repositories m).
Proof. intros [] Hm. by constructor. Qed.

(** An update of an installation that keeps who it is. *)
Lemma sources_ok_installation s id i i' :
  sources_ok s → s_installations s !! id = Some i →
  in_ID i' = in_ID i → providerKeyOf i' = providerKeyOf i →
  ac_ID (in_Account i') = ac_ID (in_Account i) →
  sources_ok (putInstallation s id i').
Proof.
  intros [Hi Hp Hr Hd Hs] Hid HID Hpk Ha. constructor; simpl; try done.
  - intros k j [[<- <-]|[_ Hj]]%lookup_insert_Some; [|by apply Hi].
    rewrite HID, Hpk. by apply Hi.
  - intros p id' Hp'. apply Hp in Hp' as (j & Hj & Hpj).
    destruct (decide (id = id')) as [<-|].
    + rewrite lookup_insert_eq. exists i'. split; [done|]. rewrite Hpk. congruence.
    + rewrite lookup_insert_ne by done. by exists j.
  - intros k r Hkr. eapply repository_ok_mono; [|by apply Hr].
    intros id' j Hj. destruct (decide (id = id')) as [<-|].
    + rewrite lookup_insert_eq. exists i'. split; [done|]. rewrite Ha. congruence.
    + rewrite lookup_insert_ne by done. by exists j.
Qed.

Lemma installationAt_ok s p id :
  sources_ok s → s_installationByProvider s !! p = Some id →
  s_installations s !! id = Some (installationAt s id).
Proof. intros Hok Hp. apply (so_provider _ Hok) in Hp as (i & Hi & _). unfold installationAt. by rewrite Hi. Qed.

Lemma retire_ok m id active now k r : repository_ok m k r → repository_ok m k (retire id active now r).
Proof. unfold retire. by repeat case_match. Qed.

Lemma ownedBy_spec i identity :
  ownedBy i identity = true → ri_OwnerID identity = ac_ID (in_Account i).
Proof. unfold ownedBy. intros H. by bool_prop. Qed.

Lemma reconcilable_spec existing i id rs active active' :
  reconcilable existing i id rs active = Ok active' →
  Forall (λ r, re_InstallationID r = id ∧ re_Lifecycle r = RepositoryActive ∧
    ri_OwnerID (re_Identity r) = ac_ID (in_Account i) ∧ shadows existing id r = false) rs ∧
  (∀ z, z ∈ active' ↔ z ∈ active ∨ z ∈ (ri_ID ∘ re_Identity <$> rs)).
Proof.
  revert active. induction rs as [|r rs IH]; intros active; simpl.
  - intros [= ->]. split; [done|]. intros z. by rewrite elem_of_nil, (right_id False or).
  - destruct (negb _ || _ || _ || _) eqn:Hg; [done|].
    destruct (bool_decide (ri_ID _ ∈ _)) eqn:Hd; [done|].
    destruct (shadows _ _ _) eqn:Hsh; [done|]. bool_prop. intros [Hall Hact]%IH. split.
    + constructor; [|done]. split_and!; try done. by apply ownedBy_spec.
    + intros z. rewrite Hact. set_solver.
Qed.

Lemma adopt_ok m repositories rs :
  (∀ k r, repositories !! k = Some r → repository_ok m k r) →
  Forall (λ r, repository_ok m (re_ID r) r) rs →
  ∀ k r, foldl adopt repositories rs !! k = Some r → repository_ok m k r.
Proof.
  revert repositories. induction rs as [|r0 rs IH]; intros repositories Hm Hrs; [done|].
  inversion Hrs as [|? ? H0 Hrs']; subst. simpl. apply IH; [|done].
  intros k r. unfold adopt, putRepository. destruct (repositories !! re_ID r0) eqn:E; simpl;
    by intros [[<- <-]|[_ ?]]%lookup_insert_Some; [|apply Hm].
Qed.

Lemma addRepository_ok m id i now identities :
  m !! id = Some i → Forall (λ identity, ri_OwnerID identity = ac_ID (in_Account i)) identities →
  ∀ repositories, (∀ k r, repositories !! k = Some r → repository_ok m k r) →
  ∀ k r, foldl (addRepository id now) repositories identities !! k = Some r → repository_ok m k r.
Proof.
  intros Hi. induction 1 as [|identity rest Ho _ IH]; intros repositories Hm; [done|].
  simpl. apply IH. intros k r. unfold addRepository.
  intros [[<- <-]|[_ ?]]%lookup_insert_Some; [|by apply Hm].
  split_and!; [done..|]. by exists i.
Qed.

Lemma removeAt_ok m now ids : ∀ repositories,
  (∀ k r, repositories !! k = Some r → repository_ok m k r) →
  ∀ k r, foldl (removeAt now) repositories ids !! k = Some r → repository_ok m k r.
Proof.
  induction ids as [|id ids IH]; intros repositories Hm; [done|]. simpl. apply IH.
  intros k r. unfold removeAt. destruct (repositories !! id) as [r0|] eqn:E; [|by apply Hm].
  intros [[<- <-]|[_ ?]]%lookup_insert_Some; [|by apply Hm]. exact (Hm _ _ E).
Qed.

Lemma applyLifecycle_same action now i i' :
  applyLifecycle action now i = Ok i' →
  in_ID i' = in_ID i ∧ providerKeyOf i' = providerKeyOf i ∧ in_Account i' = in_Account i.
Proof.
  unfold applyLifecycle, switch.
  repeat match goal with |- (if ?b then _ else _) = _ → _ => destruct b end;
    by intros [= <-].
Qed.

(** ** The definition of a service *)

Lemma serviceDefinition_spec definition entries : ∀ found out,
  serviceDefinition definition entries found = Ok out →
  (∀ c, found = Some c → sameService c definition = true) →
  match out with
  | None => found = None ∧ ∀ k d, (k, d) ∈ entries → sameService d definition = false
  | Some c =>
      sameService c definition = true ∧ (found = Some c ∨ ∃ k, (k, c) ∈ entries) ∧
      (∀ k d, (k, d) ∈ entries → sameService d definition = true → d_ID d = d_ID c) ∧
      (∀ d, found = Some d → d_ID d = d_ID c)
  end.
Proof.
  induction entries as [|[k0 d0] entries IH]; intros found out; simpl.
  - intros [= <-] Hf. destruct found as [c|]; split_and!; auto.
    + by intros ? ? ?%elem_of_nil.
    + by intros ? [= ->].
    + by intros ? ? ?%elem_of_nil.
  - destruct (sameService d0 definition) eqn:E0; simpl.
    + assert (∀ c, Some d0 = Some c → sameService c definition = true) as Hd0 by (by intros ? [= <-]).
      destruct found as [p|]; [destruct (String.eqb _ _) eqn:Ep; [|done]; apply String.eqb_eq in Ep|];
        intros H Hf; specialize (IH _ _ H Hd0); destruct out as [c|]; try (by destruct IH);
        destruct IH as (Hc & Hin & Hall & Hd); split_and!; try done.
      all: try (destruct Hin as [[= ->]|[k Hk]]; right; [exists k0; by left|exists k; by right]).
      all: try (intros k d [[= -> ->]|Hkd]%elem_of_cons Hsd; [by apply Hd|by eapply Hall]).
      intros d [= <-]. rewrite <- Ep. by apply Hd.
    + intros H Hf. specialize (IH _ _ H Hf). destruct out as [c|].
      * destruct IH as (Hc & Hin & Hall & Hd). split_and!; try done.
        -- destruct Hin as [?|[k Hk]]; [by left|right; exists k; by right].
        -- intros k d [[= -> ->]|Hkd]%elem_of_cons Hsd; [congruence|by eapply Hall].
      * destruct IH as [? Hall]. split; [done|].
        intros k d [[= -> ->]|Hkd]%elem_of_cons; [done|by eapply Hall].
Qed.

Lemma sameService_spec a b :
  sameService a b = true ↔ d_ProjectID a = d_ProjectID b ∧ d_ServiceID a = d_ServiceID b.
Proof. unfold sameService. by rewrite andb_true_iff, !String.eqb_eq. Qed.
