(* ===== verification/BuildSourceSafety.v ===== *)
(** What the operations on the sources of builds guarantee: the invariant of
    installations, repositories and definitions, the effect of a
    reconciliation, and the lifecycle of an installation under events. *)

From S2P Require Import Prelude Regexp GoStrings Digest BuildModel BuildSources.

Open Scope Z_scope.

Lemma PutInstallation_ok s i s' : sources_ok s → PutInstallation s i = Ok s' → sources_ok s'.
Proof.
  intros Hok. unfold PutInstallation. fold (providerKeyOf i). destruct (negb _); [done|].
  destruct (s_installations s !! in_ID i) as [c|] eqn:Ei.
  - destruct (so_installation _ Hok _ _ Ei) as [Hc Hpc].
    destruct (match s_installationByProvider s !! _ with Some _ => _ | None => _ end); [done|].
    case_match eqn:Hg; [done|]. intros [= <-]. bool_prop.
    assert (providerKeyOf c = providerKeyOf i) as Hk by (unfold providerKeyOf; congruence).
    rewrite insert_id by congruence. by apply (sources_ok_installation s (in_ID i) c i).
  - destruct (s_installationByProvider s !! providerKeyOf i) as [e|] eqn:Ep.
    { apply (so_provider _ Hok) in Ep as (j & Hj & _).
      case_match eqn:He; [done|]. bool_prop. congruence. }
    intros [= <-]. destruct Hok as [Hi Hp Hr Hd Hs]. constructor; simpl; try done.
    + intros k j [[<- <-]|[Hne Hj]]%lookup_insert_Some; [by rewrite lookup_insert_eq|].
      apply Hi in Hj as [? Hj]. split; [done|]. rewrite lookup_insert_ne; [done|]. congruence.
    + intros p id [[<- <-]|[Hne Hid]]%lookup_insert_Some.
      { exists i. by rewrite lookup_insert_eq. }
      apply Hp in Hid as (j & Hj & Hpj). exists j. rewrite lookup_insert_ne by congruence. done.
    + intros k r Hkr. eapply repository_ok_mono; [|by apply Hr].
      intros id j Hj. exists j. rewrite lookup_insert_ne by congruence. done.
Qed.

Lemma PutRepository_ok s r s' :
  sources_ok s → canonical r → PutRepository s r = Ok s' → sources_ok s'.
Proof.
  intros Hok Hc. unfold PutRepository. destruct (negb _); [done|].
  destruct (s_installations s !! _) as [i|] eqn:Ei; [|done].
  destruct (negb (ownedBy _ _)) eqn:Ho; [done|]. destruct (shadows _ _ _); [done|]. intros [= <-].
  apply sources_ok_repositories; [done|]. intros k r0. unfold putRepository.
  intros [[<- <-]|[_ Hr]]%lookup_insert_Some; [|by apply (so_repository _ Hok)].
  bool_prop. split_and!; [done..|]. exists i. split; [done|]. by apply ownedBy_spec.
Qed.

Lemma ReconcileRepositories_ok s id rs now s' :
  sources_ok s → Forall canonical rs → ReconcileRepositories s id rs now = Ok s' → sources_ok s'.
Proof.
  intros Hok Hc. unfold ReconcileRepositories. destruct (negb _ || _ || _); [done|].
  destruct (s_installations s !! id) as [i|] eqn:Ei; [|done].
  intros (active & Hrec & [= <-])%res_bind_ok. apply reconcilable_spec in Hrec as [Hall _].
  apply sources_ok_repositories; [done|]. apply adopt_ok.
  - intros k r. rewrite lookup_fmap. intros (r0 & Hr & ->)%fmap_Some.
    apply retire_ok. by apply (so_repository _ Hok).
  - rewrite !Forall_forall in *. intros r Hr. destruct (Hall r Hr) as (Hid & _ & Ho & _).
    split_and!; [done|by apply Hc|]. exists i. by rewrite Hid.
Qed.

Lemma PutDefinition_ok `{MapOrder} valid s d s' :
  sources_ok s → PutDefinition valid s d = Ok s' → sources_ok s'.
Proof.
  intros Hok. unfold PutDefinition. destruct (negb _); [done|].
  intros (_ & _ & (found & Hf & [= <-])%res_bind_ok)%res_bind_ok.
  apply serviceDefinition_spec in Hf; [|done].
  set (d' := match found with Some _ => _ | None => _ end).
  assert (∀ e, sameService e d' = sameService e d) as Hd' by (by destruct found).
  assert (∀ k e, s_definitions s !! k = Some e → sameService e d = true → k = d_ID d') as Hkey.
  { intros k e He Hse. assert ((k, e) ∈ range 32 (s_definitions s)) as Hin by by apply elem_of_range.
    destruct found as [c|]; simpl in *.
    - destruct Hf as (_ & _ & Hall & _). rewrite <- (Hall _ _ Hin Hse).
      symmetry. by apply (so_definition _ Hok).
    - destruct Hf as [_ Hall]. by rewrite (Hall _ _ Hin) in Hse. }
  destruct Hok as [Hi Hp Hr Hd Hs]. constructor; simpl; try done.
  - by intros k e [[<- <-]|[_ ?]]%lookup_insert_Some; [|apply Hd].
  - intros k1 k2 d1 d2 [[<- <-]|[Hn1 H1]]%lookup_insert_Some [[<- <-]|[Hn2 H2]]%lookup_insert_Some Hse.
    + done.
    + symmetry. apply (Hkey _ _ H2). rewrite <- Hd'. rewrite sameService_spec in *. intuition congruence.
    + apply (Hkey _ _ H1). by rewrite <- Hd'.
    + by eapply Hs.
Qed.

Lemma ApplyInstallationEvent_ok s appID ev now s' :
  sources_ok s → ApplyInstallationEvent s appID ev now = Ok s' → sources_ok s'.
Proof.
  intros Hok. unfold ApplyInstallationEvent. destruct (negb _); [done|].
  destruct (_ !! _) as [id|] eqn:Ep; [|done]. destruct (negb (sameAccount _ _)); [done|].
  intros (i & (HID & Hpk & Ha)%applyLifecycle_same & [= <-])%res_bind_ok.
  pose proof (installationAt_ok _ _ _ Hok Ep) as Hi.
  apply (sources_ok_installation s id (installationAt s id)); try done.
  simpl; by rewrite Ha.
Qed.

Lemma ApplyRepositoryEvent_ok `{MapOrder} s appID ev now s' :
  sources_ok s → ApplyRepositoryEvent s appID ev now = Ok s' → sources_ok s'.
Proof.
  intros Hok. unfold ApplyRepositoryEvent. destruct (negb _); [done|].
  destruct (_ !! _) as [id|] eqn:Ep; [|done]. destruct (_ || _); [done|].
  pose proof (installationAt_ok _ _ _ Hok Ep) as Hi.
  set (touched := putInstallation _ _ _).
  assert (sources_ok touched) as Ht by by apply (sources_ok_installation s id (installationAt s id)).
  destruct (String.eqb _ _).
  - destruct (forallb _ _) eqn:Hall; [|done]. intros [= <-]. apply sources_ok_repositories; [done|].
    apply (addRepository_ok _ _ (installationAt s id |> in_set_RepositorySelection (rv_RepositorySelection ev)
      |> in_set_UpdatedAt now)).
    + by apply lookup_insert_eq.
    + apply Forall_forall. intros identity Hin. rewrite forallb_elem_of in Hall.
      apply Hall in Hin. bool_prop. by apply ownedBy_spec.
    + by apply (so_repository _ Ht).
  - destruct (negb _); [done|]. intros (ids & _ & [= <-])%res_bind_ok.
    apply sources_ok_repositories; [done|]. apply removeAt_ok, (so_repository _ Ht).
Qed.

(** * The invariant over every run *)

Lemma handleSource_ok `{MapOrder} valid s now ev s' :
  sources_ok s → canonicalEvent ev → handleSource valid s now ev = Ok s' → sources_ok s'.
Proof.
  intros Hok Hc. destruct ev; simpl; intros Hh.
  - by eapply PutInstallation_ok.
  - by eapply PutRepository_ok.
  - by eapply ReconcileRepositories_ok.
  - by eapply PutDefinition_ok.
  - by eapply ApplyInstallationEvent_ok.
  - by eapply ApplyRepositoryEvent_ok.
Qed.

Lemma sourceRun_ok `{MapOrder} valid evs : ∀ s,
  sources_ok s → Forall (λ ev, canonicalEvent ev.2) evs → sources_ok (sourceRun valid s evs).
Proof.
  induction evs as [|[now ev] evs IH]; intros s Hok Hc; [done|].
  inversion Hc as [|? ? He Hc']; subst. apply IH; [|done]. unfold sourceStep. simpl in *.
  destruct (handleSource valid s now ev) eqn:Hh; [by eapply handleSource_ok|done].
Qed.

Lemma NewMemoryStore_sources : sources_ok NewMemoryStore.
Proof. by constructor. Qed.

(** Ownership of build sources: whatever installations, repositories,
    reconciliations, definitions and provider events a store has seen, with
    any arguments and in any order, a repository belongs to a known
    installation of the account that owns it, one repository of an
    installation has one entry, one installation of the provider has one
    entry, and a service has at most one build definition. *)
Theorem sources_invariant `{MapOrder} valid evs s :
  Forall (λ ev, canonicalEvent ev.2) evs → s = sourceRun valid NewMemoryStore evs →
  (∀ k r, s_repositories s !! k = Some r →
     ∃ i, s_installations s !! re_InstallationID r = Some i ∧
          ri_OwnerID (re_Identity r) = ac_ID (in_Account i)) ∧
  (∀ k1 k2 r1 r2, s_repositories s !! k1 = Some r1 → s_repositories s !! k2 = Some r2 →
     re_InstallationID r1 = re_InstallationID r2 →
     ri_ID (re_Identity r1) = ri_ID (re_Identity r2) → k1 = k2) ∧
  (∀ k1 k2 i1 i2, s_installations s !! k1 = Some i1 → s_installations s !! k2 = Some i2 →
     in_AppID i1 = in_AppID i2 → in_GitHubInstallationID i1 = in_GitHubInstallationID i2 → k1 = k2) ∧
  (∀ k1 k2 d1 d2, s_definitions s !! k1 = Some d1 → s_definitions s !! k2 = Some d2 →
     d_ProjectID d1 = d_ProjectID d2 → d_ServiceID d1 = d_ServiceID d2 → k1 = k2).
Proof.
  intros Hc ->. pose proof (sourceRun_ok valid evs _ NewMemoryStore_sources Hc) as Hok.
  set (s := sourceRun _ _ _) in *. split_and!.
  - intros k r Hr. by apply (so_repository _ Hok) in Hr as (_ & _ & ?).
  - intros k1 k2 r1 r2 (<- & Hc1 & _)%(so_repository _ Hok) (<- & Hc2 & _)%(so_repository _ Hok) Hi Hr.
    rewrite Hc1, Hc2. unfold repositoryUUID. by rewrite Hi, Hr.
  - intros k1 k2 i1 i2 [_ H1]%(so_installation _ Hok) [_ H2]%(so_installation _ Hok) Ha Hg.
    unfold providerKeyOf in *. rewrite Ha, Hg in H1. congruence.
  - intros k1 k2 d1 d2 H1 H2 Hp Hs. apply (so_service _ Hok _ _ _ _ H1 H2). by apply sameService_spec.
Qed.

(** * Reconciliation *)

Lemma adopt_lookup_ne rs : ∀ m k, k ∉ (re_ID <$> rs) → foldl adopt m rs !! k = m !! k.
Proof.
  induction rs as [|r rs IH]; intros m k; [done|]. simpl. intros [Hn Hk]%not_elem_of_cons.
  rewrite IH by done. unfold adopt, putRepository. by destruct (m !! re_ID r); simpl; rewrite lookup_insert_ne.
Qed.

Lemma adopt_lookup rs r : ∀ m, NoDup (re_ID <$> rs) → r ∈ rs →
  ∃ created, foldl adopt m rs !! re_ID r = Some (r |> re_set_CreatedAt created).
Proof.
  induction rs as [|r0 rs IH]; intros m; [by intros _ ?%elem_of_nil|].
  simpl. intros [Hn Hd]%NoDup_cons [->|Hr]%elem_of_cons; [|by apply IH].
  rewrite adopt_lookup_ne by done. unfold adopt, putRepository.
  destruct (m !! re_ID r0) as [c|]; simpl; rewrite lookup_insert_eq.
  - by exists (re_CreatedAt c).
  - exists (re_CreatedAt r0). by destruct r0.
Qed.

Lemma shadows_false m id r k r0 :
  shadows m id r = false → m !! k = Some r0 → re_InstallationID r0 = id →
  ri_ID (re_Identity r0) = ri_ID (re_Identity r) → k = re_ID r.
Proof.
  intros Hs Hk Hi He. destruct (decide (k = re_ID r)) as [|Hne]; [done|].
  assert (shadows m id r = true); [|congruence]. unfold shadows. apply existsb_elem_of.
  exists (k, r0). split; [by apply elem_of_map_to_list|]. simpl.
  rewrite Hi, He, Z.eqb_refl, String.eqb_refl. apply String.eqb_neq in Hne. by rewrite Hne.
Qed.

(** Reconciliation is exact: after it succeeds, every repository of the
    list is stored and active; every other repository of the installation that
    was stored is marked removed at that time; and nothing else changes. *)
Theorem ReconcileRepositories_exact s id rs now s' :
  ReconcileRepositories s id rs now = Ok s' → NoDup (re_ID <$> rs) →
  (∀ r, r ∈ rs → re_Lifecycle r = RepositoryActive ∧
     ∃ created, s_repositories s' !! re_ID r = Some (r |> re_set_CreatedAt created)) ∧
  (∀ k r, k ∉ (re_ID <$> rs) → s_repositories s !! k = Some r →
     s_repositories s' !! k =
       Some (if bool_decide (re_InstallationID r = id) then removeRepository now r else r)) ∧
  (∀ k, k ∉ (re_ID <$> rs) → s_repositories s !! k = None → s_repositories s' !! k = None) ∧
  s_installations s' = s_installations s ∧ s_definitions s' = s_definitions s.
Proof.
  intros Hrec Hd. unfold ReconcileRepositories in Hrec. destruct (negb _ || _ || _); [done|].
  destruct (s_installations s !! id) as [i|]; [|done].
  apply res_bind_ok in Hrec as (active & [Hall Hact]%reconcilable_spec & [= <-]). simpl.
  rewrite Forall_forall in Hall. split_and!; try done.
  - intros r Hr. split; [by apply (Hall r Hr)|by apply adopt_lookup].
  - intros k r Hk Hr. rewrite adopt_lookup_ne, lookup_fmap, Hr by done. simpl. f_equal. unfold retire.
    destruct (decide (re_InstallationID r = id)) as [Hid|Hid].
    + rewrite Hid, String.eqb_refl. simpl. rewrite (bool_decide_eq_true_2 (id = id)) by done.
      rewrite bool_decide_eq_false_2; [done|]. rewrite Hact.
      intros [?%not_elem_of_empty|(r1 & Hz & Hr1)%list_elem_of_fmap]; [done|]. apply Hk.
      rewrite (shadows_false _ _ _ _ _ (proj2 (proj2 (proj2 (Hall r1 Hr1)))) Hr Hid Hz).
      apply list_elem_of_fmap. by exists r1.
    + rewrite (bool_decide_eq_false_2 (re_InstallationID r = id)) by done.
      apply String.eqb_neq in Hid. by rewrite Hid.
  - intros k Hk Hr. by rewrite adopt_lookup_ne, lookup_fmap, Hr by done.
Qed.

(** * The lifecycle of an installation *)

(** A deleted installation takes part in nothing more: no event other than
    a suspension is accepted for it, and none of its repositories can be added
    or removed by events; what is accepted leaves it deleted. *)
Theorem deleted_installation_closed `{MapOrder} s appID event repositoryEvent now id i s' :
  s_installationByProvider s !! providerInstallationKey appID (ie_InstallationID event) = Some id →
  s_installations s !! id = Some i → in_Lifecycle i = InstallationDeleted →
  rv_InstallationID repositoryEvent = ie_InstallationID event →
  is_ok (ApplyRepositoryEvent s appID repositoryEvent now) = false ∧
  (ApplyInstallationEvent s appID event now = Ok s' → ie_Action event ≠ "suspend" →
   ie_Action event = "deleted" ∧
   ∃ i', s_installations s' !! id = Some i' ∧ in_Lifecycle i' = InstallationDeleted).
Proof.
  intros Hp Hi Hd He. split.
  - unfold ApplyRepositoryEvent. rewrite He, Hp. destruct (negb _); [done|].
    unfold installationAt. rewrite Hi. simpl. by rewrite Hd.
  - unfold ApplyInstallationEvent. rewrite Hp. destruct (negb _); [done|].
    unfold installationAt. rewrite Hi. simpl. destruct (negb _); [done|].
    intros (i' & Ha & [= <-])%res_bind_ok Hs. unfold applyLifecycle in Ha. simpl in *. rewrite Hd in Ha.
    destruct (String.eqb_spec (ie_Action event) "deleted") as [->|].
    + split; [done|]. eexists. split; [apply lookup_insert_eq|]. injection Ha as <-. done.
    + destruct (String.eqb_spec (ie_Action event) "suspend"); [done|].
      by repeat case_match.
Qed.

(** A deleted installation can come back: a suspension is accepted for it
    and clears the deletion, after which the end of the suspension makes it
    active again.  PostgreSQL's statement refuses that suspension. *)
Theorem deleted_installation_revived s appID event now id i :
  s_installationByProvider s !! providerInstallationKey appID (ie_InstallationID event) = Some id →
  s_installations s !! id = Some i → in_Lifecycle i = InstallationDeleted →
  validInstallationEvent event = true → ie_Action event = "suspend" →
  sameAccount i (ie_Account event) = true →
  ∃ s1 s2 i2,
    ApplyInstallationEvent s appID event now = Ok s1 ∧
    ApplyInstallationEvent s1 appID
      (mkInstallationEvent "unsuspend" (ie_InstallationID event) (ie_Account event)
         (ie_RepositorySelection event) (ie_Permissions event) (ie_SuspendedAt event) (ie_Sender event)) now = Ok s2 ∧
    s_installations s2 !! id = Some i2 ∧ in_Lifecycle i2 = InstallationActive ∧ in_DeletedAt i2 = None.
Proof.
  intros Hp Hi Hd Hv Hs Ha. eexists _, _, _. split_and!.
  - unfold ApplyInstallationEvent. rewrite Hv, Hp. unfold installationAt. rewrite Hi. simpl.
    rewrite Ha, Hs. reflexivity.
  - unfold ApplyInstallationEvent. simpl. rewrite Hp.
    assert (validInstallationEvent (mkInstallationEvent "unsuspend" (ie_InstallationID event)
      (ie_Account event) (ie_RepositorySelection event) (ie_Permissions event) (ie_SuspendedAt event)
      (ie_Sender event)) = true) as ->.
    { unfold validInstallationEvent in *. cbn [ie_Action ie_InstallationID ie_Account ie_RepositorySelection ie_Permissions] in *.
      by rewrite (proj1 (andb_prop _ _ Hv)). }
    simpl. unfold installationAt. simpl. rewrite lookup_insert_eq. simpl.
    unfold sameAccount in *. simpl in *. rewrite Ha. reflexivity.
  - apply lookup_insert_eq.
  - done.
  - done.
Qed.

(** * Witnesses *)

Definition sampleAccount : AccountIdentity := mkAccount 9 "octo" "Organization".

Definition sampleInstallation : Installation :=
  mkInstallation sampleID 1 77 sampleAccount "all" {["metadata" := "read"]} InstallationActive
    None None second second.

Definition sampleRepositoryOf (providerID : Z) (name : string) : Repository :=
  let identity := mkRepoIdentity providerID name 9 "octo" in
  mkRepository (repositoryUUID sampleID identity) sampleID identity RepositoryActive second None
    second second.

Definition sampleSources : list (Time * SourceEvent) :=
  [(second, SrcInstallation sampleInstallation);
   (second, SrcReconcile sampleID [sampleRepositoryOf 303 "api"; sampleRepositoryOf 304 "web"])].

Definition sampleSourceStore : MemoryStore :=
  sourceRun (H := forward_order) (λ _, true) NewMemoryStore sampleSources.

Definition sampleEvent (action : string) : InstallationEvent :=
  mkInstallationEvent action 77 sampleAccount "all" {["metadata" := "read"]} None sampleAccount.

Definition deletedStore : MemoryStore :=
  match ApplyInstallationEvent sampleSourceStore 1 (sampleEvent "deleted") (2 * second) with
  | Ok s => s
  | Err _ => sampleSourceStore
  end.

Lemma sources_invariant_witness :
  size (s_repositories sampleSourceStore) = 2%nat ∧
  ∃ i, s_installations sampleSourceStore !! sampleID = Some i ∧
       ri_OwnerID (re_Identity (sampleRepositoryOf 303 "api")) = ac_ID (in_Account i).
Proof.
  split; [vm_compute; reflexivity|].
  apply (proj1 (sources_invariant (H := forward_order) (λ _, true) sampleSources sampleSourceStore
    ltac:(repeat constructor) eq_refl) (re_ID (sampleRepositoryOf 303 "api"))
    (sampleRepositoryOf 303 "api")).
  vm_compute. reflexivity.
Defined.

Lemma ReconcileRepositories_exact_witness :
  ∃ s' created, ReconcileRepositories sampleSourceStore sampleID [sampleRepositoryOf 303 "api"] (3 * second) = Ok s' ∧
    s_repositories s' !! re_ID (sampleRepositoryOf 304 "web") =
      Some (removeRepository (3 * second) (sampleRepositoryOf 304 "web")) ∧
    s_repositories s' !! re_ID (sampleRepositoryOf 303 "api") =
      Some (sampleRepositoryOf 303 "api" |> re_set_CreatedAt created).
Proof.
  destruct (ReconcileRepositories sampleSourceStore sampleID [sampleRepositoryOf 303 "api"] (3 * second))
    as [s'|e] eqn:Hr; [|exfalso; vm_compute in Hr; discriminate Hr].
  destruct (ReconcileRepositories_exact _ _ _ _ _ Hr) as (Hin & Hout & _); [by repeat constructor; intros ?%elem_of_nil|].
  destruct (Hin (sampleRepositoryOf 303 "api")) as [_ [created Hc]]; [by left|].
  exists s', created. split; [done|]. split; [|exact Hc].
  apply (Hout _ (sampleRepositoryOf 304 "web")); [|vm_compute; reflexivity].
  apply (bool_decide_unpack _). vm_compute. exact I.
Defined.

Lemma deleted_installation_closed_witness :
  is_ok (ApplyRepositoryEvent (H := forward_order) deletedStore 1
    (mkRepositoriesEvent "added" 77 sampleAccount "all" [mkRepoIdentity 305 "docs" 9 "octo"] [] sampleAccount) (3 * second)) = false.
Proof.
  refine (proj1 (deleted_installation_closed (H := forward_order) deletedStore 1 (sampleEvent "created") _
    (3 * second) sampleID (installationAt deletedStore sampleID) deletedStore _ _ _ _));
    vm_compute; reflexivity.
Defined.

Lemma deleted_installation_revived_witness :
  in_Lifecycle (installationAt deletedStore sampleID) = InstallationDeleted ∧
  ∃ s1 s2 i2,
    ApplyInstallationEvent deletedStore 1 (sampleEvent "suspend") (3 * second) = Ok s1 ∧
    ApplyInstallationEvent s1 1 (sampleEvent "unsuspend") (3 * second) = Ok s2 ∧
    s_installations s2 !! sampleID = Some i2 ∧ in_Lifecycle i2 = InstallationActive ∧ in_DeletedAt i2 = None.
Proof.
  split; [vm_compute; reflexivity|].
  apply (deleted_installation_revived deletedStore 1 (sampleEvent "suspend") (3 * second) sampleID
    (installationAt deletedStore sampleID)); vm_compute; reflexivity.
Defined.
