(* ===== verification/BuildDeliveries.v ===== *)
(** Webhook deliveries and the builds they enqueue: the delivery methods of
    [MemoryStore] in [internal/builds/memory.go], and the attempts built by
    [internal/builds/planner.go].

    As in [BuildAttempts], every early return precedes the first write. *)

From S2P Require Import Prelude Regexp GoStrings Digest BuildModel BuildAttempts BuildSources.
From Stdlib Require Import Ascii.

Open Scope Z_scope.

(** * Validation *)

Definition validGitRef (ref : string) : bool :=
  let check (name : string) :=
    negb (String.eqb name "" || String.eqb name "@" || (255 <? str_len name) ||
          has_prefix "/" name || has_suffix "/" name || str_contains "//" name ||
          str_contains ".." name || str_contains "@{" name || has_suffix "." name ||
          has_suffix ".lock" (to_lower name)) &&
    forallb (fun part => negb (String.eqb part "" || String.eqb part "." || String.eqb part ".." ||
                               has_prefix "." part)) (split_byte "/" name) &&
    negb (contains_any (" ~^:?*[\" +:+ crlf_nul +:+ String "009" "") name) in
  if has_prefix "refs/heads/" ref then check (trim_prefix "refs/heads/" ref)
  else if has_prefix "refs/tags/" ref then check (trim_prefix "refs/tags/" ref)
  else false.

Record PushEvent := mkPush {
  pe_Ref : string;
  pe_Created : bool;
  pe_Deleted : bool;
  pe_Forced : bool;
  pe_UntrustedAfter : string;
  pe_Repository : RepositoryIdentity;
  pe_InstallationID : Z;
  pe_Sender : AccountIdentity;
}.

Definition validPushEvent (event : PushEvent) : bool :=
  let after := pe_UntrustedAfter event in
  let allZero := only_bytes "0" after in
  negb ((pe_InstallationID event <=? 0) || negb (validGitRef (pe_Ref event)) ||
        negb (validRepository (pe_Repository event)) ||
        (negb (str_len after =? 40) && negb (str_len after =? 64)) ||
        negb (only_bytes "0123456789abcdef" after)) &&
  ((pe_Deleted event && allZero) || (negb (pe_Deleted event) && negb allZero)).

Inductive Event : Type :=
| EvPush (event : PushEvent)
| EvInstallation (event : InstallationEvent)
| EvRepositories (event : InstallationRepositoriesEvent).

Definition EventInstallationID (event : Event) : Z * bool :=
  let id := match event with
            | EvPush typed => pe_InstallationID typed
            | EvInstallation typed => ie_InstallationID typed
            | EvRepositories typed => rv_InstallationID typed
            end in
  (id, 0 <? id).

(** The closed JSON decoding of a stored payload ([decodeClosedJSON], on top of
    [encoding/json]); the results hold whatever it decodes. *)
Class EventJSON : Type := {
  decodePush : string → option PushEvent;
  decodeInstallation : string → option InstallationEvent;
  decodeRepositories : string → option InstallationRepositoriesEvent;
}.

Definition decodeTypedEvent `{EventJSON} (name encoded : string) : option Event :=
  switch name
    [("push", match decodePush encoded with
              | Some event => if validPushEvent event then Some (EvPush event) else None
              | None => None
              end);
     ("installation", match decodeInstallation encoded with
              | Some event => if validInstallationEvent event then Some (EvInstallation event) else None
              | None => None
              end);
     ("installation_repositories", match decodeRepositories encoded with
              | Some event => if validRepositoryEvent event then Some (EvRepositories event) else None
              | None => None
              end)]
    None.

Definition validateClaim (claim : OneTimeClaim) : bool :=
  negb ((negb (String.eqb (cl_Kind claim) "github-state") &&
         negb (String.eqb (cl_Kind claim) "github-delivery")) ||
        negb (regexpHex64 (cl_ClaimKey claim)) || is_zero_time (cl_RetainUntil claim) ||
        (String.eqb (cl_Kind claim) "github-delivery" && negb (cl_Permanent claim)) ||
        (String.eqb (cl_Kind claim) "github-state" && cl_Permanent claim)).

Definition validateReceipt `{EventJSON} (receipt : DeliveryReceipt) : bool :=
  negb (negb (regexpHex64 (r_ClaimKey receipt)) || (r_AppID receipt <=? 0) ||
        (r_GitHubInstallationID receipt <=? 0) || String.eqb (r_DeliveryID receipt) "" ||
        negb (re_match digest_re (r_BodySHA256 receipt)) ||
        (str_len (r_TypedEvent receipt) =? 0) || (256 * 1024 <? str_len (r_TypedEvent receipt)) ||
        is_zero_time (r_ReceivedAt receipt) || is_zero_time (r_AvailableAt receipt) ||
        negb (bool_decide (r_State receipt = DeliveryClaimed))) &&
  (if String.eqb (r_Event receipt) "push"
   then negb ((r_RepositoryID receipt <=? 0) || negb (validGitRef (r_GitRef receipt)))
   else negb ((negb (String.eqb (r_Event receipt) "installation") &&
               negb (String.eqb (r_Event receipt) "installation_repositories")) ||
              negb (r_RepositoryID receipt =? 0) || negb (String.eqb (r_GitRef receipt) ""))) &&
  match decodeTypedEvent (r_Event receipt) (r_TypedEvent receipt) with
  | None => false
  | Some event =>
      let (installationID, ok) := EventInstallationID event in
      negb (negb ok || negb (installationID =? r_GitHubInstallationID receipt)) &&
      match event with
      | EvPush push =>
          negb (negb (ri_ID (pe_Repository push) =? r_RepositoryID receipt) ||
                negb (String.eqb (pe_Ref push) (r_GitRef receipt)))
      | _ => true
      end
  end.

Definition sameReceiptIdentity (a b : DeliveryReceipt) : bool :=
  String.eqb (r_ClaimKey a) (r_ClaimKey b) && (r_AppID a =? r_AppID b) &&
  (r_GitHubInstallationID a =? r_GitHubInstallationID b) &&
  String.eqb (r_DeliveryID a) (r_DeliveryID b) && String.eqb (r_Event a) (r_Event b) &&
  String.eqb (r_BodySHA256 a) (r_BodySHA256 b) && (r_RepositoryID a =? r_RepositoryID b) &&
  String.eqb (r_GitRef a) (r_GitRef b).

Definition sameDefinition (a b : BuildDefinition) : bool :=
  String.eqb (d_ID a) (d_ID b) && String.eqb (d_ProjectID a) (d_ProjectID b) &&
  String.eqb (d_ServiceID a) (d_ServiceID b) && String.eqb (d_InstallationID a) (d_InstallationID b) &&
  String.eqb (d_RepositoryID a) (d_RepositoryID b) && String.eqb (d_TriggerRef a) (d_TriggerRef b) &&
  Bool.eqb (d_Enabled a) (d_Enabled b) && String.eqb (d_DefinitionDigest a) (d_DefinitionDigest b) &&
  (d_DefinitionGeneration a =? d_DefinitionGeneration b) && (d_UpdatedAt a =? d_UpdatedAt b).

(** * Claims and deliveries *)

Definition putDelivery (s : MemoryStore) (key : string) (receipt : DeliveryReceipt) : MemoryStore :=
  s |> s_set_deliveries (<[key := receipt]> (s_deliveries s)).

Definition ClaimOnce (s : MemoryStore) (claim : OneTimeClaim) : result bool :=
  if negb (validateClaim claim) then Err ErrInvalid
  else
    let key := claimMapKey (cl_Kind claim) (cl_ClaimKey claim) in
    match s_claims s !! key with
    | Some _ => Ok (s, false)
    | None => Ok (s |> s_set_claims (<[key := claim]> (s_claims s)), true)
    end.

Definition ClaimDelivery `{EventJSON} (s : MemoryStore) (claim : OneTimeClaim)
    (receipt : DeliveryReceipt) : result bool :=
  if negb (validateClaim claim) || negb (String.eqb (cl_Kind claim) "github-delivery") ||
     negb (cl_Permanent claim) then Err ErrInvalid
  else
    let receipt := receipt |> r_set_ClaimKey (cl_ClaimKey claim) in
    if negb (validateReceipt receipt) then Err ErrInvalid
    else
      let claimKey := claimMapKey (cl_Kind claim) (cl_ClaimKey claim) in
      match s_deliveries s !! cl_ClaimKey claim with
      | Some existing =>
          if negb (sameReceiptIdentity existing receipt) then Err ErrConflict else Ok (s, false)
      | None =>
          match s_claims s !! claimKey with
          | Some _ => Err ErrConflict
          | None => Ok (putDelivery (s |> s_set_claims (<[claimKey := claim]> (s_claims s)))
                          (r_ClaimKey receipt) receipt, true)
          end
      end.

(** Not leased, or leased until a time that has passed. *)
Definition deliveryFree (receipt : DeliveryReceipt) (now : Time) : bool :=
  String.eqb (r_LeaseOwner receipt) "" || negb (now <? r_LeaseUntil receipt).

Definition deliveryPending (receipt : DeliveryReceipt) (now : Time) : bool :=
  negb (terminalDelivery (r_State receipt)) && negb (now <? r_AvailableAt receipt) &&
  deliveryFree receipt now.

Definition olderReceipt (x y : DeliveryReceipt) : bool :=
  if r_ReceivedAt x =? r_ReceivedAt y then str_less (r_ClaimKey x) (r_ClaimKey y)
  else r_ReceivedAt x <? r_ReceivedAt y.

Definition PendingDeliveries (s : MemoryStore) (now : Time) (limit : Z) : res BuildErr (list string) :=
  if (limit <? 1) || (1000 <? limit) then Err ErrInvalid
  else
    let receipts := List.filter (fun receipt => deliveryPending receipt now)
                      (map_to_list (s_deliveries s)).*2 in
    Ok (r_ClaimKey <$> take (Z.to_nat limit) (sort_slice olderReceipt receipts)).

(** The payload of a finished delivery whose retention has passed goes; the
    claim stays. *)
Definition purgeable (s : MemoryStore) (now : Time) (claimKey : string) (receipt : DeliveryReceipt) : bool :=
  match s_claims s !! claimMapKey "github-delivery" claimKey with
  | None => false
  | Some claim =>
      cl_Permanent claim && terminalDelivery (r_State receipt) &&
      negb (str_len (r_TypedEvent receipt) =? 0) && negb (now <? cl_RetainUntil claim)
  end.

Definition purgeReceipt (s : MemoryStore) (now : Time) (claimKey : string) (receipt : DeliveryReceipt)
    : DeliveryReceipt :=
  if purgeable s now claimKey receipt
  then receipt |> r_set_TypedEvent "" |> r_set_UpdatedAt now else receipt.

Definition PurgeExpiredDeliveryPayloads (s : MemoryStore) (now : Time) : MemoryStore * Z :=
  (s |> s_set_deliveries (map_imap (fun key receipt => Some (purgeReceipt s now key receipt))
                                   (s_deliveries s)),
   Z.of_nat (length (List.filter (fun entry => purgeable s now entry.1 entry.2)
                       (map_to_list (s_deliveries s))))).

Definition AcquireDelivery (s : MemoryStore) (claimKey owner : string) (now : Time)
    (duration : Duration) : result (DeliveryReceipt * bool) :=
  if negb (validOwnerLease owner duration) then Err ErrInvalid
  else match s_deliveries s !! claimKey with
  | None => Err ErrNotFound
  | Some receipt =>
      if terminalDelivery (r_State receipt) then Ok (s, (receipt, false))
      else if (now <? r_AvailableAt receipt) || negb (deliveryFree receipt now)
      then Ok (s, (receipt, false))
      else
        let receipt := receipt |> r_set_State DeliveryProcessing |> r_set_LeaseOwner owner
                               |> r_set_LeaseUntil (now + duration) |> r_set_UpdatedAt now in
        Ok (putDelivery s claimKey receipt, (receipt, true))
  end.

(** [receipt.State != DeliveryProcessing || receipt.LeaseOwner != owner ||
    !receipt.LeaseUntil.After(now)], negated *)
Definition holdsDelivery (receipt : DeliveryReceipt) (owner : string) (now : Time) : bool :=
  bool_decide (r_State receipt = DeliveryProcessing) && String.eqb (r_LeaseOwner receipt) owner &&
  (now <? r_LeaseUntil receipt).

Definition releaseDelivery (receipt : DeliveryReceipt) : DeliveryReceipt :=
  receipt |> r_set_LeaseOwner "" |> r_set_LeaseUntil zero_time.

Definition HeartbeatDelivery (s : MemoryStore) (claimKey owner : string) (now : Time)
    (duration : Duration) : res BuildErr MemoryStore :=
  if negb (validOwnerLease owner duration) then Err ErrInvalid
  else match s_deliveries s !! claimKey with
  | None => Err ErrNotFound
  | Some receipt =>
      if negb (holdsDelivery receipt owner now) then Err ErrLeaseLost
      else Ok (putDelivery s claimKey
                 (receipt |> r_set_LeaseUntil (now + duration) |> r_set_UpdatedAt now))
  end.

Definition RetryDelivery (s : MemoryStore) (claimKey owner code : string) (now availableAt : Time)
    : res BuildErr MemoryStore :=
  if negb (validateFailureCode code) || (availableAt <? now) then Err ErrInvalid
  else match s_deliveries s !! claimKey with
  | None => Err ErrNotFound
  | Some receipt =>
      if negb (holdsDelivery receipt owner now) then Err ErrLeaseLost
      else Ok (putDelivery s claimKey
                 (receipt |> r_set_State DeliveryClaimed |> r_set_FailureCode code
                          |> r_set_AvailableAt availableAt |> releaseDelivery |> r_set_UpdatedAt now))
  end.

Definition FinishDelivery (s : MemoryStore) (claimKey owner : string) (state : DeliveryState)
    (code : string) (now : Time) : res BuildErr MemoryStore :=
  if (negb (bool_decide (state = DeliveryIgnored)) && negb (bool_decide (state = DeliveryFailed))) ||
     (bool_decide (state = DeliveryFailed) && negb (validateFailureCode code)) ||
     (bool_decide (state = DeliveryIgnored) && negb (String.eqb code "")) then Err ErrInvalid
  else match s_deliveries s !! claimKey with
  | None => Err ErrNotFound
  | Some receipt =>
      if negb (holdsDelivery receipt owner now) then Err ErrLeaseLost
      else Ok (putDelivery s claimKey
                 (receipt |> r_set_State state |> r_set_FailureCode code
                          |> r_set_CompletedAt (Some now) |> r_set_UpdatedAt now |> releaseDelivery))
  end.

(** * Authorisation *)

Record AuthorizedPush := mkAuthorized {
  ap_Installation : Installation;
  ap_Repository : Repository;
  ap_Definitions : list BuildDefinition;
}.

(** The stored repository is still the one the event names. *)
Definition sameRepository (repository : Repository) (identity : RepositoryIdentity) : bool :=
  (ri_OwnerID (re_Identity repository) =? ri_OwnerID identity) &&
  String.eqb (ri_Name (re_Identity repository)) (ri_Name identity) &&
  equal_fold (ri_OwnerLogin (re_Identity repository)) (ri_OwnerLogin identity).

Definition triggered (installation : Installation) (repository : Repository) (ref : string)
    (definition : BuildDefinition) : bool :=
  d_Enabled definition && String.eqb (d_InstallationID definition) (in_ID installation) &&
  String.eqb (d_RepositoryID definition) (re_ID repository) &&
  String.eqb (d_TriggerRef definition) ref.

Definition AuthorizePush `{MapOrder} (s : MemoryStore) (appID providerInstallationID : Z)
    (identity : RepositoryIdentity) (ref : string) : res BuildErr AuthorizedPush :=
  if negb (validRepository identity) || negb (validGitRef ref) then Err ErrInvalid
  else match s_installationByProvider s !! providerInstallationKey appID providerInstallationID with
  | None => Err ErrNotFound
  | Some installationID =>
      let installation := installationAt s installationID in
      if negb (bool_decide (in_Lifecycle installation = InstallationActive)) then Err ErrUnauthorized
      else
        match List.find (fun entry =>
                 String.eqb (re_InstallationID entry.2) (in_ID installation) &&
                 (ri_ID (re_Identity entry.2) =? ri_ID identity)) (range 33 (s_repositories s)) with
        | None => Err ErrNotFound
        | Some (_, repository) =>
            if String.eqb (re_ID repository) "" then Err ErrNotFound
            else if negb (bool_decide (re_Lifecycle repository = RepositoryActive)) ||
                    negb (sameRepository repository identity) then Err ErrUnauthorized
            else
              let definitions := List.filter (triggered installation repository ref)
                                   (range 34 (s_definitions s)).*2 in
              Ok (mkAuthorized installation repository
                    (sort_slice (fun x y => str_less (d_ID x) (d_ID y)) definitions))
        end
  end.

Definition AttemptAuthorization (s : MemoryStore) (attemptID : string)
    : res BuildErr (Installation * Repository) :=
  match s_attempts s !! attemptID with
  | None => Err ErrNotFound
  | Some attempt =>
      match s_definitions s !! a_DefinitionID attempt with
      | None => Err ErrNotFound
      | Some definition =>
          match s_installations s !! d_InstallationID definition,
                s_repositories s !! d_RepositoryID definition with
          | Some installation, Some repository =>
              if negb (d_Enabled definition) ||
                 negb (String.eqb (d_DefinitionDigest definition) (a_DefinitionDigest attempt)) ||
                 negb (bool_decide (in_Lifecycle installation = InstallationActive)) ||
                 negb (bool_decide (re_Lifecycle repository = RepositoryActive))
              then Err ErrUnauthorized
              else Ok (installation, repository)
          | _, _ => Err ErrUnauthorized
          end
      end
  end.

(** * The planner *)

Record EnqueuePush := mkEnqueue {
  ep_ClaimKey : string;
  ep_CommitSHA : string;
  ep_GitRef : string;
  ep_ResolvedAt : Time;
}.

(** [ExecutionSettings]: of the operator's settings the attempt keeps the
    namespace; the others only go into the Job. *)
Record ExecutionSettings := mkExecution { ex_Namespace : string }.

Record AttemptDefinition := mkAttemptDefinition {
  ad_Definition : BuildDefinition;
  ad_Execution : ExecutionSettings;
}.

Record BuildRequest := mkRequest {
  bq_OperationID : string;
  bq_Generation : Z;
  bq_ProjectID : string;
  bq_ServiceID : string;
  bq_Commit : string;
  bq_Platforms : list string;
  bq_DestinationRepository : string;
  bq_DestinationReference : string;
  bq_RegistryServer : string;
  bq_RegistryPrefix : string;
  bq_CacheTrustLane : string;
  bq_CacheDefinition : string;
  bq_CacheImports : list string;
  bq_CandidateExport : string;
}.

Record JobPlanRequest := mkPlanRequest {
  jp_Build : BuildRequest;
  jp_Namespace : string;
  jp_RequestConfigMap : string;
  jp_SourceCredentialSecret : string;
}.

Record CheckoutRequest := mkCheckout {
  co_OperationID : string;
  co_Generation : Z;
  co_Commit : string;
  co_RepositoryURL : string;
  co_ApprovedHost : string;
}.

(** What the planner uses of [internal/builder]: the validation of a request
    and of a checkout, and the name of the Job it plans. *)
Class Builder : Type := {
  requestValid : BuildRequest → bool;
  planJob : JobPlanRequest → option string;
  checkoutValid : CheckoutRequest → bool;
}.

Definition generatedBuildRequest (operationID : string) (generation : Z)
    (projectID serviceID commit : string) (spec : DefinitionSpec) (imports : list string)
    (definitionDigest : string) : BuildRequest :=
  let compactOperation := replace_byte "-" "" operationID in
  let platforms := sort_strings (sp_Platforms spec) in
  let platformScope := trim_prefix "linux/" <$> platforms in
  let root := sp_RegistryServer spec +:+ "/" +:+ sp_RegistryPrefix spec +:+ "/projects/" +:+
              projectID +:+ "/services/" +:+ serviceID in
  let cacheRepository := root +:+ "/cache/v1/" +:+ sp_CacheTrustLane spec +:+ "/" +:+
    str_join "-" platformScope +:+ "/" +:+ trim_prefix "sha256:" definitionDigest in
  mkRequest operationID generation projectID serviceID commit platforms
    (root +:+ "/image")
    ("candidate-" +:+ compactOperation +:+ "-g" +:+ format_int generation +:+ "-" +:+ str_take 12 commit)
    (sp_RegistryServer spec) (sp_RegistryPrefix spec)
    (sp_CacheTrustLane spec) definitionDigest imports
    (cacheRepository +:+ ":candidate-" +:+ compactOperation +:+ "-g" +:+ format_int generation).

Definition jobPlanRequest (request : BuildRequest) (spec : DefinitionSpec) (operationID : string)
    : JobPlanRequest :=
  let compact := replace_byte "-" "" operationID in
  mkPlanRequest request (sp_ExecutionNamespace spec)
    ("build-request-" +:+ str_take 24 compact) ("source-credentials-" +:+ str_take 20 compact).

Definition checkoutRequest (operationID : string) (generation : Z) (commit : string)
    (definition : BuildDefinition) (repository : Repository) : CheckoutRequest :=
  if bool_decide (d_Kind definition = SourceGitSSH) then
    let source := default (mkGitSSH "" "") (d_GitSSH definition) in
    mkCheckout operationID generation commit (gs_RepositoryURL source) (gs_ApprovedHost source)
  else
    mkCheckout operationID generation commit
      ("https://github.com/" +:+ ri_OwnerLogin (re_Identity repository) +:+ "/" +:+
       ri_Name (re_Identity repository) +:+ ".git") "github.com".

Definition attemptUUID (claimKey definitionID : string) : string :=
  deterministicUUID ["build-attempt-v1"; claimKey; definitionID].

Definition newAttempt `{Builder} (definition : BuildDefinition) (repository : Repository)
    (delivery : EnqueuePush) (generation : Z) (imports : list string) (now : Time)
    : res BuildErr BuildAttempt :=
  let operationID := attemptUUID (ep_ClaimKey delivery) (d_ID definition) in
  let request := generatedBuildRequest operationID generation (d_ProjectID definition)
    (d_ServiceID definition) (ep_CommitSHA delivery) (d_Spec definition) imports
    (d_DefinitionDigest definition) in
  let checkout := checkoutRequest operationID generation (ep_CommitSHA delivery) definition repository in
  if negb (requestValid request) then Err ErrInvalid
  else match planJob (jobPlanRequest request (d_Spec definition) operationID) with
  | None => Err ErrInvalid
  | Some jobName =>
      if negb (checkoutValid checkout) then Err ErrInvalid
      else Ok (mkAttempt operationID (d_ID definition) (ep_ClaimKey delivery) "github_push"
        (ep_ClaimKey delivery) (d_ProjectID definition) (d_ServiceID definition)
        (ep_CommitSHA delivery) (ep_GitRef delivery) generation (d_DefinitionDigest definition)
        definition (bq_DestinationRepository request) (bq_Platforms request) (bq_CacheImports request)
        AttemptQueued 0 (sp_MaxAttempts (d_Spec definition)) now "" zero_time
        (sp_ExecutionNamespace (d_Spec definition)) jobName (bq_CandidateExport request) "" None "" ""
        None None None now now)
  end.

(** The execution settings are the current ones, and the snapshot is the
    definition that authorised the build. *)
Definition newAttemptWithExecution `{Builder} (definition : BuildDefinition)
    (execution : ExecutionSettings) (repository : Repository) (delivery : EnqueuePush)
    (generation : Z) (imports : list string) (now : Time) : res BuildErr BuildAttempt :=
  let* attempt := newAttempt
    (definition |> d_set_Spec (d_Spec definition |> sp_set_ExecutionNamespace (ex_Namespace execution)))
    repository delivery generation imports now in
  Ok (attempt |> a_set_SourceSnapshot definition).

(** * Enqueueing the builds of a push *)

Definition attemptsForDelivery (s : MemoryStore) (claimKey : string) : list BuildAttempt :=
  sort_slice (fun x y => str_less (a_ID x) (a_ID y))
    (List.filter (fun attempt => String.eqb (a_DeliveryClaimKey attempt) claimKey)
       (map_to_list (s_attempts s)).*2).

Section enqueue.
Context `{MapOrder} `{Builder}.

(** The reference of the newest earlier successful cache of the service. *)
Definition cacheImports (s : MemoryStore) (definition : BuildDefinition) (generation : Z)
    : list string :=
  let candidates := List.filter (fun attempt =>
      String.eqb (a_ProjectID attempt) (d_ProjectID definition) &&
      String.eqb (a_ServiceID attempt) (d_ServiceID definition) &&
      String.eqb (a_DefinitionDigest attempt) (d_DefinitionDigest definition) &&
      bool_decide (a_State attempt = AttemptSucceeded) &&
      negb (String.eqb (a_CacheReference attempt) "") && (a_Generation attempt <? generation))
    (range 35 (s_attempts s)).*2 in
  sort_strings (a_CacheReference <$>
    take 1 (sort_slice (fun x y => a_Generation y <? a_Generation x) candidates)).

(** An attempt for the same push of the same definition, from a delivery whose
    payload is still there. *)
Definition samePush (s : MemoryStore) (input : EnqueuePush) (definition : BuildDefinition)
    (candidate : BuildAttempt) : bool :=
  match s_deliveries s !! a_DeliveryClaimKey candidate with
  | None => false
  | Some receipt =>
      negb (str_len (r_TypedEvent receipt) =? 0) &&
      String.eqb (a_DefinitionID candidate) (d_ID definition) &&
      String.eqb (a_CommitSHA candidate) (ep_CommitSHA input) &&
      String.eqb (a_GitRef candidate) (ep_GitRef input)
  end.

Definition earlierPush (found : option BuildAttempt) (candidate : BuildAttempt) : option BuildAttempt :=
  match found with
  | None => Some candidate
  | Some existing =>
      if (a_Generation candidate <? a_Generation existing) ||
         ((a_Generation candidate =? a_Generation existing) && str_less (a_ID candidate) (a_ID existing))
      then Some candidate else found
  end.

Definition existingPush (s : MemoryStore) (input : EnqueuePush) (definition : BuildDefinition)
    : option BuildAttempt :=
  foldl earlierPush None (List.filter (samePush s input definition) (range 36 (s_attempts s)).*2).

(** The loop over the requested definitions: the attempts and the generations
    staged so far. *)
Fixpoint stageBuilds (s : MemoryStore) (input : EnqueuePush) (now : Time)
    (definitions : list AttemptDefinition) (staged : list BuildAttempt) (generations : gmap string Z)
    : res BuildErr (list BuildAttempt * gmap string Z) :=
  match definitions with
  | [] => Ok (staged, generations)
  | requested :: rest =>
      match s_definitions s !! d_ID (ad_Definition requested) with
      | None => Err ErrUnauthorized
      | Some current =>
          if negb (sameDefinition current (ad_Definition requested)) || negb (d_Enabled current)
          then Err ErrUnauthorized
          else match s_installations s !! d_InstallationID current with
          | None => Err ErrUnauthorized
          | Some installation =>
              if negb (bool_decide (in_Lifecycle installation = InstallationActive))
              then Err ErrUnauthorized
              else match s_repositories s !! d_RepositoryID current with
              | None => Err ErrUnauthorized
              | Some repository =>
                  if negb (bool_decide (re_Lifecycle repository = RepositoryActive)) ||
                     negb (String.eqb (re_InstallationID repository) (in_ID installation))
                  then Err ErrUnauthorized
                  else match s_attempts s !! attemptUUID (ep_ClaimKey input) (d_ID current) with
                  | Some existing =>
                      stageBuilds s input now rest (staged ++ [existing]) generations
                  | None =>
                      match existingPush s input current with
                      | Some existing =>
                          stageBuilds s input now rest (staged ++ [existing]) generations
                      | None =>
                          let key := serviceKey (d_ProjectID current) (d_ServiceID current) in
                          let generation :=
                            match generations !! key with
                            | Some value => value
                            | None => default 0 (s_serviceGeneration s !! key)
                            end in
                          let generation := i64 (generation + 1) in
                          let imports := cacheImports s current generation in
                          let* attempt := newAttemptWithExecution current (ad_Execution requested)
                                            repository input generation imports now in
                          stageBuilds s input now rest (staged ++ [attempt])
                            (<[key := generation]> generations)
                      end
                  end
              end
          end
      end
  end.

(** An attempt is added unless one with its identifier is there. *)
Definition addAttempt (attempts : gmap string BuildAttempt) (attempt : BuildAttempt)
    : gmap string BuildAttempt :=
  match attempts !! a_ID attempt with
  | Some _ => attempts
  | None => <[a_ID attempt := attempt]> attempts
  end.

Definition EnqueuePushBuilds (s : MemoryStore) (input : EnqueuePush) (owner : string)
    (definitions : list AttemptDefinition) (now : Time) : result (list BuildAttempt) :=
  if negb (re_match commit_re (ep_CommitSHA input)) || negb (validGitRef (ep_GitRef input)) ||
     is_zero_time (ep_ResolvedAt input) || String.eqb owner "" then Err ErrInvalid
  else match s_deliveries s !! ep_ClaimKey input with
  | None => Err ErrNotFound
  | Some receipt =>
      if bool_decide (r_State receipt = DeliveryEnqueued)
      then Ok (s, attemptsForDelivery s (ep_ClaimKey input))
      else if negb (holdsDelivery receipt owner now) ||
              negb (String.eqb (r_GitRef receipt) (ep_GitRef input)) then Err ErrLeaseLost
      else if isEmpty definitions then Err ErrInvalid
      else
        let* out := stageBuilds s input now definitions [] ∅ in
        let receipt := receipt |> r_set_State DeliveryEnqueued |> r_set_FailureCode ""
          |> r_set_CompletedAt (Some now) |> r_set_UpdatedAt now |> releaseDelivery in
        Ok (putDelivery
              (s |> s_set_serviceGeneration (out.2 ∪ s_serviceGeneration s)
                 |> s_set_attempts (foldl addAttempt (s_attempts s) out.1))
              (ep_ClaimKey input) receipt, out.1)
  end.
End enqueue.
