(* ===== verification/BuildStore.v ===== *)
(** The whole build store: every method of [MemoryStore] in one step relation,
    and how one step changes the deliveries, the claims and the attempts. *)

From S2P Require Import Prelude Regexp GoStrings Digest BuildModel BuildAttempts BuildSafety ReleaseProjections BuildSources BuildSourceSafety BuildDeliveries.

Open Scope Z_scope.

(** * Events *)

Inductive DeliveryEvent : Type :=
| DvClaimOnce (claim : OneTimeClaim)
| DvClaim (claim : OneTimeClaim) (receipt : DeliveryReceipt)
| DvPurge
| DvAcquire (claimKey owner : string) (duration : Duration)
| DvHeartbeat (claimKey owner : string) (duration : Duration)
| DvRetry (claimKey owner code : string) (availableAt : Time)
| DvFinish (claimKey owner : string) (state : DeliveryState) (code : string)
| DvEnqueue (input : EnqueuePush) (owner : string) (definitions : list AttemptDefinition).

Inductive StoreEvent : Type :=
| StAttempt (ev : AttemptEvent)
| StProjection (ev : ProjectionEvent)
| StSource (ev : SourceEvent)
| StDelivery (ev : DeliveryEvent).

(** The environment of a run: the order of the maps, the decoder of payloads,
    the builder and the validation of definitions. *)
Class Environment : Type := {
  env_order :: MapOrder;
  env_json :: EventJSON;
  env_builder :: Builder;
  definitionValid : BuildDefinition → bool;
}.

Definition handleDelivery `{Environment} (s : MemoryStore) (now : Time) (ev : DeliveryEvent)
    : res BuildErr MemoryStore :=
  match ev with
  | DvClaimOnce claim => dropOut (ClaimOnce s claim)
  | DvClaim claim receipt => dropOut (ClaimDelivery s claim receipt)
  | DvPurge => Ok (PurgeExpiredDeliveryPayloads s now).1
  | DvAcquire claimKey owner duration => dropOut (AcquireDelivery s claimKey owner now duration)
  | DvHeartbeat claimKey owner duration => HeartbeatDelivery s claimKey owner now duration
  | DvRetry claimKey owner code availableAt => RetryDelivery s claimKey owner code now availableAt
  | DvFinish claimKey owner state code => FinishDelivery s claimKey owner state code now
  | DvEnqueue input owner definitions => dropOut (EnqueuePushBuilds s input owner definitions now)
  end.

Definition storeStep `{Environment} (s : MemoryStore) (ev : Time * StoreEvent) : MemoryStore :=
  let (now, ev) := ev in
  match ev with
  | StAttempt ev => attemptStep s now ev
  | StProjection ev => projectionStep definitionValid s now ev
  | StSource ev => sourceStep definitionValid s (now, ev)
  | StDelivery ev => match handleDelivery s now ev with Ok s' => s' | Err _ => s end
  end.

Definition storeRun `{Environment} (s : MemoryStore) (evs : list (Time * StoreEvent)) : MemoryStore :=
  foldl storeStep s evs.

(** * How a delivery changes

    [delivery_move now actor r r']: what [actor] may do to the delivery [r];
    the store itself, without an actor, purges payloads. *)
Inductive delivery_move (now : Time) : option string → DeliveryReceipt → DeliveryReceipt → Prop :=
| dm_purge r :
    terminalDelivery (r_State r) = true →
    delivery_move now None r (r |> r_set_TypedEvent "" |> r_set_UpdatedAt now)
| dm_acquire owner duration r :
    validOwnerLease owner duration = true → terminalDelivery (r_State r) = false →
    deliveryFree r now = true →
    delivery_move now (Some owner) r
      (r |> r_set_State DeliveryProcessing |> r_set_LeaseOwner owner
         |> r_set_LeaseUntil (now + duration) |> r_set_UpdatedAt now)
| dm_heartbeat owner duration r :
    holdsDelivery r owner now = true →
    delivery_move now (Some owner) r (r |> r_set_LeaseUntil (now + duration) |> r_set_UpdatedAt now)
| dm_retry owner code availableAt r :
    holdsDelivery r owner now = true →
    delivery_move now (Some owner) r
      (releaseDelivery (r |> r_set_State DeliveryClaimed |> r_set_FailureCode code
                          |> r_set_AvailableAt availableAt) |> r_set_UpdatedAt now)
| dm_finish owner state code r :
    holdsDelivery r owner now = true → (state = DeliveryIgnored ∨ state = DeliveryFailed) →
    delivery_move now (Some owner) r
      (releaseDelivery (r |> r_set_State state |> r_set_FailureCode code
                          |> r_set_CompletedAt (Some now) |> r_set_UpdatedAt now))
| dm_enqueue owner r :
    holdsDelivery r owner now = true →
    delivery_move now (Some owner) r
      (releaseDelivery (r |> r_set_State DeliveryEnqueued |> r_set_FailureCode ""
                          |> r_set_CompletedAt (Some now) |> r_set_UpdatedAt now)).

(** The actor of a store event on deliveries. *)
Definition deliveryActor (ev : StoreEvent) : option string :=
  match ev with
  | StDelivery (DvAcquire _ owner _ | DvHeartbeat _ owner _ | DvRetry _ owner _ _
               | DvFinish _ owner _ _ | DvEnqueue _ owner _) => Some owner
  | _ => None
  end.

#[export] Hint Constructors delivery_move : builds.

Definition delivery_evolves (now : Time) (actor : option string) (r r' : DeliveryReceipt) : Prop :=
  r' = r ∨ delivery_move now actor r r'.

(** What one step does to the deliveries and the claims: a delivery stays, and
    at most moves; a new one is one that was claimed; a claim stays. *)
Record deliveries_step (now : Time) (actor : option string) (s s' : MemoryStore) : Prop := {
  ds_delivery : ∀ k r, s_deliveries s !! k = Some r →
    ∃ r', s_deliveries s' !! k = Some r' ∧ delivery_evolves now actor r r';
  ds_claim : ∀ k c, s_claims s !! k = Some c → s_claims s' !! k = Some c;
}.

Lemma deliveries_step_same now actor s s' :
  s_deliveries s' = s_deliveries s → s_claims s' = s_claims s → deliveries_step now actor s s'.
Proof.
  intros Hd Hc. constructor; [|by rewrite Hc]. intros k r. rewrite Hd. exists r. split; [done|by left].
Qed.

Lemma deliveries_step_put now actor s k r r' :
  s_deliveries s !! k = Some r → delivery_move now actor r r' →
  ∀ s0, s_deliveries s0 = s_deliveries s → s_claims s0 = s_claims s →
  deliveries_step now actor s (putDelivery s0 k r').
Proof.
  intros Hr Hm s0 Hd Hc. constructor; simpl; [|by rewrite Hc].
  intros k0 r0 H0. rewrite Hd. destruct (decide (k = k0)) as [<-|].
  - rewrite lookup_insert_eq. exists r'. split; [done|]. right. congruence.
  - rewrite lookup_insert_ne by done. exists r0. split; [done|by left].
Qed.

(** ** The frames of the other operations *)

Lemma attemptStep_frame s now ev :
  keyed s → sameButAttempts s (attemptStep s now ev).
Proof.
  intros Hk. destruct (step_cases s now ev Hk) as [->|[_ (a & a' & _ & _ & _ & ?)]]; [|done].
  by split_and!.
Qed.

Lemma sourceStep_frame `{Environment} s ev :
  s_deliveries (sourceStep definitionValid s ev) = s_deliveries s ∧
  s_claims (sourceStep definitionValid s ev) = s_claims s ∧
  s_attempts (sourceStep definitionValid s ev) = s_attempts s ∧
  s_serviceGeneration (sourceStep definitionValid s ev) = s_serviceGeneration s ∧
  s_releaseProjections (sourceStep definitionValid s ev) = s_releaseProjections s.
Proof.
  unfold sourceStep. destruct ev as [now ev]. simpl.
  destruct (handleSource _ s now ev) as [s'|] eqn:Hh; [|done]. destruct ev; simpl in Hh.
  - unfold PutInstallation in Hh. repeat case_match; simplify_eq; done.
  - unfold PutRepository in Hh. repeat case_match; simplify_eq; done.
  - unfold ReconcileRepositories in Hh. repeat case_match; simplify_eq. inv_res. done.
  - unfold PutDefinition in Hh. repeat case_match; simplify_eq. inv_res. done.
  - unfold ApplyInstallationEvent in Hh. repeat case_match; simplify_eq. inv_res. done.
  - unfold ApplyRepositoryEvent in Hh. repeat case_match; simplify_eq; [done|]. inv_res. done.
Qed.

(** Only the projections of the store change. *)
Definition sameButProjections (s s' : MemoryStore) : Prop :=
  s' = (s |> s_set_releaseProjections (s_releaseProjections s')).

Lemma claimProjection_frame valid owner now d ids : ∀ s,
  sameButProjections s (claimProjection valid s owner now d ids).1.
Proof.
  induction ids as [|id ids IH]; intros s; simpl; [by destruct s|].
  repeat case_match; try (etransitivity; [apply IH|by destruct s]); by destruct s.
Qed.

Lemma projectionStep_frame valid s now ev : sameButProjections s (projectionStep valid s now ev).
Proof.
  assert (sameButProjections s s) as Hs by by destruct s.
  destruct ev; simpl; unfold keepStore.
  - unfold ClaimNextReleaseProjection. destruct (_ || _); [done|]. apply claimProjection_frame.
  - unfold HeartbeatReleaseProjection. repeat case_match; simplify_eq; done.
  - unfold RetryReleaseProjection. repeat case_match; simplify_eq; done.
  - unfold FailReleaseProjection. repeat case_match; simplify_eq; done.
  - unfold CompleteReleaseProjection. repeat case_match; simplify_eq; done.
Qed.

(** ** The delivery operations are moves *)

Lemma holdsDelivery_spec r owner now :
  holdsDelivery r owner now = true ↔
  r_State r = DeliveryProcessing ∧ r_LeaseOwner r = owner ∧ now < r_LeaseUntil r.
Proof.
  unfold holdsDelivery. rewrite !andb_true_iff, bool_decide_eq_true, String.eqb_eq, Z.ltb_lt. tauto.
Qed.

Lemma purgeReceipt_evolves s now k r :
  delivery_evolves now None r (purgeReceipt s now k r).
Proof.
  unfold purgeReceipt, purgeable. destruct (s_claims s !! _); [|by left].
  destruct (_ && _ && _ && _) eqn:E; [|by left]. right. bool_prop. by constructor.
Qed.

Lemma handleDelivery_step `{Environment} s now ev s' :
  handleDelivery s now ev = Ok s' →
  deliveries_step now (deliveryActor (StDelivery ev)) s s'.
Proof.
  destruct ev; simpl; rewrite ?dropOut_ok.
  - intros [out H']. unfold ClaimOnce in H'. repeat case_match; simplify_eq; [by apply deliveries_step_same|].
    constructor; simpl; [intros k r Hr; exists r; split; [done|by left]|].
    intros k c Hc. rewrite lookup_insert_ne; [done|]. congruence.
  - intros [out H']. unfold ClaimDelivery in H'. simpl in H'.
    repeat case_match; simplify_eq; [by apply deliveries_step_same|].
    constructor; simpl; intros k c Hc; rewrite lookup_insert_ne by congruence; [|done].
    exists c. split; [done|by left].
  - intros [= <-]. constructor; simpl; [|done]. intros k r Hr. exists (purgeReceipt s now k r).
    split; [by rewrite map_lookup_imap, Hr|apply purgeReceipt_evolves].
  - intros [out H']. unfold AcquireDelivery in H'.
    repeat case_match; simplify_eq; try (by apply deliveries_step_same). bool_prop.
    eapply deliveries_step_put; [done| |done|done]. by constructor.
  - intros H'. unfold HeartbeatDelivery in H'. repeat case_match; simplify_eq. bool_prop.
    eapply deliveries_step_put; [done| |done|done]. by constructor.
  - intros H'. unfold RetryDelivery in H'. repeat case_match; simplify_eq. bool_prop.
    eapply deliveries_step_put; [done| |done|done]. by apply dm_retry.
  - intros H'. unfold FinishDelivery in H'. destruct (_ || _) eqn:Hg; [done|].
    repeat case_match; simplify_eq. bool_prop.
    eapply deliveries_step_put; [done| |done|done]. apply dm_finish; [done|].
    apply andb_false_iff in H2 as [?|?]; bool_prop; auto.
  - intros [out H']. unfold EnqueuePushBuilds in H'. destruct (_ || _ || _ || _); [done|].
    destruct (s_deliveries s !! _) as [r|] eqn:Hr; [|done].
    destruct (bool_decide _); [simplify_eq; by apply deliveries_step_same|].
    destruct (_ || _) eqn:Hg; [done|]. destruct (isEmpty _); [done|]. inv_res. simplify_eq. bool_prop.
    eapply deliveries_step_put; [done| |done|done]. by apply dm_enqueue.
Qed.

Lemma storeStep_deliveries `{Environment} s now ev :
  keyed s → deliveries_step now (deliveryActor ev) s (storeStep s (now, ev)).
Proof.
  intros Hk. destruct ev as [ev|ev|ev|ev]; simpl.
  - destruct (attemptStep_frame s now ev Hk) as (? & _ & _ & _ & _ & ? & _). by apply deliveries_step_same.
  - rewrite (projectionStep_frame definitionValid s now ev). by apply deliveries_step_same.
  - destruct (sourceStep_frame s (now, ev)) as (? & ? & _). by apply deliveries_step_same.
  - destruct (handleDelivery s now ev) eqn:Hh; [by apply handleDelivery_step in Hh|].
    by apply deliveries_step_same.
Qed.

(** ** What a move keeps *)

(** The fields that identify a delivery. *)
Definition receiptIdentity (r : DeliveryReceipt) : string * Z * Z * string * string * string * Z * string :=
  (r_ClaimKey r, r_AppID r, r_GitHubInstallationID r, r_DeliveryID r, r_Event r, r_BodySHA256 r,
   r_RepositoryID r, r_GitRef r).

(** The outcome of a delivery. *)
Definition outcome (r : DeliveryReceipt) : DeliveryState * string * option Time :=
  (r_State r, r_FailureCode r, r_CompletedAt r).

Lemma sameReceiptIdentity_spec a b :
  sameReceiptIdentity a b = true ↔ receiptIdentity a = receiptIdentity b.
Proof.
  unfold sameReceiptIdentity, receiptIdentity.
  rewrite !andb_true_iff, !String.eqb_eq, !Z.eqb_eq. intuition congruence.
Qed.

Lemma delivery_evolves_identity now actor r r' :
  delivery_evolves now actor r r' → receiptIdentity r' = receiptIdentity r.
Proof. by intros [->|[]]. Qed.

Lemma delivery_evolves_final now actor r r' :
  delivery_evolves now actor r r' → terminalDelivery (r_State r) = true → outcome r' = outcome r.
Proof.
  intros [->|Hm] Ht; [done|].
  destruct Hm; try done; try congruence;
    match goal with H : holdsDelivery _ _ _ = true |- _ => apply holdsDelivery_spec in H as (Hs & _ & _) end;
    by rewrite Hs in Ht.
Qed.

Lemma delivery_evolves_lease now actor r r' holder :
  delivery_evolves now actor r r' → holder ≠ "" → holdsDelivery r holder now = true →
  actor ≠ Some holder → r' = r.
Proof.
  intros [->|Hm] Hne Hh Ha; [done|]. apply holdsDelivery_spec in Hh as (Hs & Ho & Hu).
  destruct Hm; try (match goal with H : holdsDelivery _ _ _ = true |- _ =>
    apply holdsDelivery_spec in H as (_ & ? & _) end; congruence).
  - by rewrite Hs in H.
  - unfold deliveryFree in H1. apply orb_true_iff in H1 as [?|?]; bool_prop; [congruence|lia].
Qed.

(** ** Attempts keep their key *)

Lemma addAttempt_lookup staged : ∀ m k a,
  foldl addAttempt m staged !! k = Some a →
  m !! k = Some a ∨ (m !! k = None ∧ a ∈ staged ∧ a_ID a = k).
Proof.
  induction staged as [|b staged IH]; intros m k a; simpl; [by left|].
  intros H. apply IH in H as [H|(H & Hin & Hk)].
  - unfold addAttempt in H. destruct (m !! a_ID b) eqn:E; [by left|].
    apply lookup_insert_Some in H as [[<- <-]|[_ H]]; [|by left].
    right. split_and!; [done|by left|done].
  - right. split_and!; [|by right|done]. unfold addAttempt in H.
    destruct (m !! a_ID b) eqn:E; [done|]. by apply lookup_insert_None in H as [? _].
Qed.

Lemma addAttempt_mono staged : ∀ m k a, m !! k = Some a → foldl addAttempt m staged !! k = Some a.
Proof.
  induction staged as [|b staged IH]; intros m k a Hk; simpl; [done|]. apply IH.
  unfold addAttempt. destruct (m !! a_ID b) eqn:E; [done|]. rewrite lookup_insert_ne; congruence.
Qed.

Lemma handleDelivery_attempts `{Environment} s now ev s' :
  handleDelivery s now ev = Ok s' →
  s_attempts s' = s_attempts s ∨
  ∃ input owner definitions staged, ev = DvEnqueue input owner definitions ∧
    EnqueuePushBuilds s input owner definitions now = Ok (s', staged) ∧
    s_attempts s' = foldl addAttempt (s_attempts s) staged.
Proof.
  destruct ev; simpl; rewrite ?dropOut_ok; try intros [out H']; try intros H'.
  - unfold ClaimOnce in H'. repeat case_match; simplify_eq; by left.
  - unfold ClaimDelivery in H'. simpl in H'. repeat case_match; simplify_eq; by left.
  - injection H' as <-. by left.
  - unfold AcquireDelivery in H'. repeat case_match; simplify_eq; by left.
  - unfold HeartbeatDelivery in H'. repeat case_match; simplify_eq; by left.
  - unfold RetryDelivery in H'. repeat case_match; simplify_eq; by left.
  - unfold FinishDelivery in H'. repeat case_match; simplify_eq; by left.
  - pose proof H' as Hh. unfold EnqueuePushBuilds in Hh. destruct (_ || _ || _ || _); [done|].
    destruct (s_deliveries s !! _) as [r|]; [|done].
    destruct (bool_decide _); [simplify_eq; by left|].
    destruct (_ || _); [done|]. destruct (isEmpty _); [done|]. inv_res. simplify_eq.
    right. by exists input, owner, definitions, a.1.
Qed.

Lemma storeStep_keyed `{Environment} s ev : keyed s → keyed (storeStep s ev).
Proof.
  intros Hk. destruct ev as [now [ev|ev|ev|ev]]; simpl.
  - destruct (step_cases s now ev Hk) as [->|[_ Hm]]; [done|by eapply moved_keyed].
  - by rewrite (projectionStep_frame definitionValid s now ev).
  - destruct (sourceStep_frame s (now, ev)) as (_ & _ & Ha & _). unfold keyed. by rewrite Ha.
  - destruct (handleDelivery s now ev) eqn:Hh; [|done].
    apply handleDelivery_attempts in Hh as [Ha|(input & owner & ds & staged & _ & _ & Ha)];
      unfold keyed; rewrite Ha; [done|].
    intros k a' [Hl|(_ & _ & Hid)]%addAttempt_lookup; [by apply Hk|done].
Qed.

Lemma storeRun_keyed `{Environment} evs : ∀ s, keyed s → keyed (storeRun s evs).
Proof. induction evs as [|ev evs IH]; intros s Hk; [done|]. by apply IH, storeStep_keyed. Qed.

(** A delivery followed through a run. *)
Lemma storeRun_delivery `{Environment} (P : DeliveryReceipt → Prop) evs : ∀ s k r,
  keyed s → s_deliveries s !! k = Some r → P r →
  (∀ now actor r1 r2, delivery_evolves now actor r1 r2 → P r1 → P r2) →
  ∃ r', s_deliveries (storeRun s evs) !! k = Some r' ∧ P r'.
Proof.
  induction evs as [|[now ev] evs IH]; intros s k r Hk Hr HP Hstep; [by exists r|].
  destruct (ds_delivery _ _ _ _ (storeStep_deliveries s now ev Hk) _ _ Hr) as (r1 & Hr1 & Hev).
  change (storeRun s ((now, ev) :: evs)) with (storeRun (storeStep s (now, ev)) evs).
  eapply IH; [by apply storeStep_keyed|exact Hr1|by eapply Hstep|done].
Qed.

Lemma claimed_delivery `{Environment} s claim receipt s1 :
  ClaimDelivery s claim receipt = Ok (s1, true) →
  s_deliveries s !! cl_ClaimKey claim = None ∧ keyed s1 = keyed s ∧
  s_deliveries s1 !! cl_ClaimKey claim = Some (receipt |> r_set_ClaimKey (cl_ClaimKey claim)).
Proof.
  unfold ClaimDelivery. simpl. intros H'. repeat case_match; simplify_eq. split_and!; [done|done|].
  apply lookup_insert_eq.
Qed.

(** A delivery that was claimed is not claimed again under its key. *)
Lemma claimed_again `{Environment} s claim receipt s1 evs claim' receipt' :
  keyed s → ClaimDelivery s claim receipt = Ok (s1, true) → cl_ClaimKey claim' = cl_ClaimKey claim →
  match ClaimDelivery (storeRun s1 evs) claim' receipt' with
  | Ok (s3, accepted) =>
      s3 = storeRun s1 evs ∧ accepted = false ∧
      receiptIdentity (receipt' |> r_set_ClaimKey (cl_ClaimKey claim)) =
      receiptIdentity (receipt |> r_set_ClaimKey (cl_ClaimKey claim))
  | Err e => e = ErrInvalid ∨ e = ErrConflict
  end.
Proof.
  intros Hk Hc He. apply claimed_delivery in Hc as (_ & Hk1 & Hr).
  destruct (storeRun_delivery (λ r, receiptIdentity r =
    receiptIdentity (receipt |> r_set_ClaimKey (cl_ClaimKey claim))) evs s1 _ _
    ltac:(by rewrite Hk1) Hr eq_refl) as (r & Hr2 & Hid).
  { intros now actor r1 r2 Hev <-. by eapply delivery_evolves_identity. }
  unfold ClaimDelivery. destruct (_ || _ || _); [by left|].
  destruct (negb (validateReceipt _)); [by left|].
  simpl. rewrite He, Hr2. destruct (sameReceiptIdentity r _) eqn:E; simpl; [|by right].
  split_and!; [done|done|]. apply sameReceiptIdentity_spec in E. by rewrite <- E.
Qed.

(** * The guarantees for deliveries *)


(** The outcome of a delivery is final, and its lease is exclusive: after
    it is enqueued, ignored or failed no sequence of calls changes its state,
    failure code or completion time; and while a worker's lease lasts, a call
    that is not that worker's leaves the delivery as it is. *)
Theorem delivery_final_and_exclusive `{Environment} s k r :
  keyed s → s_deliveries s !! k = Some r →
  (terminalDelivery (r_State r) = true → ∀ evs,
     ∃ r', s_deliveries (storeRun s evs) !! k = Some r' ∧ outcome r' = outcome r) ∧
  (∀ holder now ev, holder ≠ "" → holdsDelivery r holder now = true →
     deliveryActor ev ≠ Some holder → s_deliveries (storeStep s (now, ev)) !! k = Some r).
Proof.
  intros Hk Hr. split.
  - intros Ht evs.
    destruct (storeRun_delivery (λ r', outcome r' = outcome r) evs s k r Hk Hr eq_refl)
      as (r' & Hr' & Ho); [|by exists r'].
    intros now actor r1 r2 Hev Ho. rewrite <- Ho. eapply delivery_evolves_final; [done|].
    by injection Ho as -> _ _.
  - intros holder now ev Hne Hh Ha.
    destruct (ds_delivery _ _ _ _ (storeStep_deliveries s now ev Hk) _ _ Hr) as (r' & Hr' & Hev).
    by rewrite (delivery_evolves_lease _ _ _ _ _ Hev Hne Hh Ha) in Hr'.
Qed.
