(* ===== verification/BuildStoreSafety.v ===== *)
(** The guarantees of the build store as a whole: the builds a push enqueues
    are authorised, numbered uniquely and traceable to their delivery, and the
    invariants of all components hold in every store that can be reached. *)

From S2P Require Import Prelude Regexp GoStrings Digest BuildModel BuildAttempts BuildSafety ReleaseProjections BuildSources BuildSourceSafety BuildDeliveries BuildStore.

Open Scope Z_scope.

#[local] Opaque deterministicUUID generatedBuildRequest checkoutRequest.

(** * A new attempt *)

Lemma newAttempt_inv `{Builder} current execution repository input generation imports now a :
  newAttemptWithExecution current execution repository input generation imports now = Ok a →
  ∃ request jobName namespace,
    a = mkAttempt (attemptUUID (ep_ClaimKey input) (d_ID current)) (d_ID current) (ep_ClaimKey input)
      "github_push" (ep_ClaimKey input) (d_ProjectID current) (d_ServiceID current)
      (ep_CommitSHA input) (ep_GitRef input) generation (d_DefinitionDigest current) current
      (bq_DestinationRepository request) (bq_Platforms request) (bq_CacheImports request)
      AttemptQueued 0 (sp_MaxAttempts (d_Spec current)) now "" zero_time namespace jobName
      (bq_CandidateExport request) "" None "" "" None None None now now.
Proof.
  unfold newAttemptWithExecution, newAttempt. intros Ha.
  apply res_bind_ok in Ha as (b & Hb & [= <-]). cbv zeta in Hb.
  destruct (negb (requestValid _)); [done|]. destruct (planJob _) as [job|]; [|done].
  destruct (negb (checkoutValid _)); [done|]. injection Hb as <-.
  eexists _, job, _. reflexivity.
Qed.

Lemma newAttempt_fields `{Builder} current execution repository input generation imports now a :
  newAttemptWithExecution current execution repository input generation imports now = Ok a →
  a_ID a = attemptUUID (ep_ClaimKey input) (d_ID current) ∧ a_DefinitionID a = d_ID current ∧
  a_DeliveryClaimKey a = ep_ClaimKey input ∧ a_ProjectID a = d_ProjectID current ∧
  a_ServiceID a = d_ServiceID current ∧ a_CommitSHA a = ep_CommitSHA input ∧
  a_GitRef a = ep_GitRef input ∧ a_Generation a = generation ∧ a_SourceSnapshot a = current ∧
  a_State a = AttemptQueued ∧ a_MaxAttempts a = sp_MaxAttempts (d_Spec current).
Proof. by intros (request & job & namespace & ->)%newAttempt_inv. Qed.

Lemma newAttempt_ok `{Builder} current execution repository input generation imports now a :
  newAttemptWithExecution current execution repository input generation imports now = Ok a →
  1 ≤ sp_MaxAttempts (d_Spec current) ≤ 5 → attempt_ok a.
Proof.
  intros (request & job & namespace & ->)%newAttempt_inv Hm.
  constructor; simpl; try done; try lia; try (split; [done|lia]); split; intros; try done.
  by destruct_or?.
Qed.

Definition attemptKey (a : BuildAttempt) : string := serviceKey (a_ProjectID a) (a_ServiceID a).

Definition generationAt (generations : gmap string Z) (key : string) : Z := default 0 (generations !! key).

(** What a definition needs to be built: it is stored as requested and
    enabled, its installation is active, and its repository is active and
    belongs to the installation. *)
Definition authorizedSource (s : MemoryStore) (requested : AttemptDefinition)
    (current : BuildDefinition) (repository : Repository) : Prop :=
  s_definitions s !! d_ID (ad_Definition requested) = Some current ∧
  sameDefinition current (ad_Definition requested) = true ∧ d_Enabled current = true ∧
  (∃ installation, s_installations s !! d_InstallationID current = Some installation ∧
     in_Lifecycle installation = InstallationActive ∧
     re_InstallationID repository = in_ID installation) ∧
  s_repositories s !! d_RepositoryID current = Some repository ∧
  re_Lifecycle repository = RepositoryActive.

Definition builtFrom `{Builder} (s : MemoryStore) (input : EnqueuePush) (now : Time)
    (definitions : list AttemptDefinition) (a : BuildAttempt) : Prop :=
  ∃ requested current repository generation imports,
    requested ∈ definitions ∧ authorizedSource s requested current repository ∧
    newAttemptWithExecution current (ad_Execution requested) repository input generation imports now = Ok a.

(** * The loop that stages the attempts *)

Definition staged_generation (s : MemoryStore) (generations : gmap string Z) (key : string) : Z :=
  match generations !! key with
  | Some value => value
  | None => generationAt (s_serviceGeneration s) key
  end.

Definition isNew (s : MemoryStore) (a : BuildAttempt) : Prop := s_attempts s !! a_ID a = None.

Record stage_ok `{Builder} (s : MemoryStore) (input : EnqueuePush) (now : Time)
    (definitions : list AttemptDefinition) (staged : list BuildAttempt) (generations : gmap string Z)
    : Prop := {
  st_staged : ∀ a, a ∈ staged →
    s_attempts s !! a_ID a = Some a ∨
    (isNew s a ∧ builtFrom s input now definitions a ∧
     generationAt (s_serviceGeneration s) (attemptKey a) < a_Generation a ≤
       staged_generation s generations (attemptKey a));
  st_unique : ∀ a b, a ∈ staged → b ∈ staged → isNew s a → isNew s b →
    attemptKey a = attemptKey b → a_Generation a = a_Generation b → a_ID a = a_ID b;
  st_generations : ∀ key g, generations !! key = Some g →
    generationAt (s_serviceGeneration s) key ≤ g ≤
      generationAt (s_serviceGeneration s) key + Z.of_nat (length staged);
}.

Lemma stage_existing `{Builder} s input now definitions staged generations a :
  stage_ok s input now definitions staged generations → s_attempts s !! a_ID a = Some a →
  stage_ok s input now definitions (staged ++ [a]) generations.
Proof.
  intros [H1 H2 H3] Ha. constructor.
  - intros b [Hb| ->%list_elem_of_singleton]%elem_of_app; [by apply H1|by left].
  - intros b c [Hb| ->%list_elem_of_singleton]%elem_of_app [Hc| ->%list_elem_of_singleton]%elem_of_app Nb Nc;
      unfold isNew in *; try congruence. by apply H2.
  - intros key g Hg. apply H3 in Hg. rewrite length_app. simpl. lia.
Qed.

Lemma stage_new `{Builder} s input now definitions staged generations a :
  stage_ok s input now definitions staged generations → isNew s a →
  builtFrom s input now definitions a →
  a_Generation a = staged_generation s generations (attemptKey a) + 1 →
  stage_ok s input now definitions (staged ++ [a]) (<[attemptKey a := a_Generation a]> generations).
Proof.
  intros [H1 H2 H3] Hn Hb Hg.
  assert (generationAt (s_serviceGeneration s) (attemptKey a) ≤ staged_generation s generations (attemptKey a) ≤
    generationAt (s_serviceGeneration s) (attemptKey a) + Z.of_nat (length staged)) as Hcur.
  { unfold staged_generation. destruct (generations !! attemptKey a) eqn:E; [by apply H3|lia]. }
  assert (∀ b, b ∈ staged → isNew s b → attemptKey b = attemptKey a → a_Generation b < a_Generation a) as Hlt.
  { intros b Hin Nb He. destruct (H1 b Hin) as [?|(_ & _ & ? & Hle)]; [unfold isNew in *; congruence|].
    rewrite He in Hle. lia. }
  constructor.
  - intros b [Hin| ->%list_elem_of_singleton]%elem_of_app.
    + destruct (H1 b Hin) as [?|(Nb & Hbb & Hlo & Hle)]; [by left|]. right. split_and!; try done.
      unfold staged_generation. destruct (decide (attemptKey a = attemptKey b)) as [He|].
      * rewrite <- He, lookup_insert_eq. pose proof (Hlt b Hin Nb (eq_sym He)). lia.
      * by rewrite lookup_insert_ne.
    + right. split_and!; [done|done|lia|]. unfold staged_generation. rewrite lookup_insert_eq. lia.
  - intros b c [Hb'| ->%list_elem_of_singleton]%elem_of_app [Hc| ->%list_elem_of_singleton]%elem_of_app Nb Nc He Hge.
    + by apply H2.
    + pose proof (Hlt b Hb' Nb He). lia.
    + pose proof (Hlt c Hc Nc (eq_sym He)). lia.
    + done.
  - intros key g. rewrite length_app. simpl.
    intros [[<- <-]|[_ Hk]]%lookup_insert_Some; [lia|]. apply H3 in Hk. lia.
Qed.

Lemma existingPush_stored `{MapOrder} s input d a :
  existingPush s input d = Some a → keyed s → s_attempts s !! a_ID a = Some a.
Proof.
  unfold existingPush. intros Hf Hk.
  assert (∀ l found, foldl earlierPush found l = Some a → a ∈ l ∨ found = Some a) as Hin.
  { induction l as [|b l IH]; intros found Hl; [by right|]. simpl in Hl.
    apply IH in Hl as [?|Hl]; [left; by right|]. unfold earlierPush in Hl.
    destruct found as [e|]; [|left; simplify_eq; by left].
    destruct (_ || _); [left; simplify_eq; by left|by right]. }
  apply Hin in Hf as [Hf|?]; [|done]. apply elem_of_list_filter in Hf as [Hf _].
  apply list_elem_of_fmap in Hf as ([k b] & -> & Hf). apply elem_of_range in Hf. simpl in *.
  by rewrite (Hk _ _ Hf).
Qed.

Lemma stageBuilds_ok `{MapOrder} `{Builder} s input now all definitions :
  keyed s →
  (∀ key, 0 ≤ generationAt (s_serviceGeneration s) key ∧
     generationAt (s_serviceGeneration s) key + Z.of_nat (length all) < 2 ^ 63) →
  (∀ d, d ∈ definitions → d ∈ all) →
  ∀ staged generations staged' generations',
  (length staged + length definitions ≤ length all)%nat →
  stage_ok s input now all staged generations →
  stageBuilds s input now definitions staged generations = Ok (staged', generations') →
  stage_ok s input now all staged' generations' ∧
  (length staged' = length staged + length definitions)%nat.
Proof.
  intros Hk Hb. induction definitions as [|requested rest IH];
    intros Hall staged generations staged' generations' Hl Hok Hst; simpl in *.
  { injection Hst as -> ->. split; [done|lia]. }
  destruct (s_definitions s !! _) as [current|] eqn:Hd; [|done].
  destruct (negb _ || _) eqn:Hg1; [done|].
  destruct (s_installations s !! _) as [installation|] eqn:Hi; [|done].
  destruct (negb (bool_decide (in_Lifecycle _ = _))) eqn:Hg2; [done|].
  destruct (s_repositories s !! _) as [repository|] eqn:Hr; [|done].
  destruct (negb (bool_decide (re_Lifecycle _ = _)) || _) eqn:Hg3; [done|]. bool_prop.
  assert (∀ d, d ∈ rest → d ∈ all) as Hall' by (intros; apply Hall; by right).
  assert (∀ b gs, stage_ok s input now all (staged ++ [b]) gs →
    stageBuilds s input now rest (staged ++ [b]) gs = Ok (staged', generations') →
    stage_ok s input now all staged' generations' ∧ (length staged' = length staged + S (length rest))%nat)
    as Hnext.
  { intros b gs Hok' Hst'. apply IH in Hst' as [? ->]; try done; rewrite length_app; simpl; [split; [done|lia]|lia]. }
  destruct (s_attempts s !! attemptUUID _ _) as [existing|] eqn:He.
  { eapply Hnext; [|exact Hst]. apply stage_existing; [done|]. by rewrite (Hk _ _ He). }
  destruct (existingPush s input current) as [existing|] eqn:Hp.
  { eapply Hnext; [|exact Hst]. apply stage_existing; [done|]. by eapply existingPush_stored. }
  apply res_bind_ok in Hst as (a & Ha & Hst).
  pose proof (newAttempt_fields _ _ _ _ _ _ _ _ Ha) as (Hid & _ & _ & Hpr & Hsv & _ & _ & Hgen & _).
  assert (serviceKey (d_ProjectID current) (d_ServiceID current) = attemptKey a) as Hkey
    by (unfold attemptKey; by rewrite Hpr, Hsv).
  rewrite Hkey in *. fold (generationAt (s_serviceGeneration s) (attemptKey a)) in *.
  fold (staged_generation s generations (attemptKey a)) in *.
  assert (i64_range (staged_generation s generations (attemptKey a) + 1)) as Hsmall%i64_small.
  { destruct (Hb (attemptKey a)). unfold i64_range, staged_generation.
    destruct (generations !! attemptKey a) eqn:Eg; [|lia].
    apply (st_generations _ _ _ _ _ _ Hok) in Eg. lia. }
  rewrite Hsmall in Ha, Hgen, Hst.
  eapply Hnext; [|exact Hst]. rewrite <- Hgen. apply stage_new; [done| | |done].
  - unfold isNew. by rewrite Hid.
  - exists requested, current, repository, (a_Generation a), (cacheImports s current (a_Generation a)).
    rewrite Hgen. split_and!; [apply Hall; by left| |exact Ha].
    split_and!; try done. by exists installation.
Qed.

Lemma stage_start `{Builder} s input now definitions : stage_ok s input now definitions [] ∅.
Proof. constructor; [by intros a ?%elem_of_nil|by intros a b ?%elem_of_nil|]. intros key g. by rewrite lookup_empty. Qed.

(** The state of a store after a push has been enqueued. *)
Definition enqueued (s : MemoryStore) (input : EnqueuePush) (now : Time) (receipt : DeliveryReceipt)
    (staged : list BuildAttempt) (generations : gmap string Z) : MemoryStore :=
  putDelivery
    (s |> s_set_serviceGeneration (generations ∪ s_serviceGeneration s)
       |> s_set_attempts (foldl addAttempt (s_attempts s) staged))
    (ep_ClaimKey input)
    (receipt |> r_set_State DeliveryEnqueued |> r_set_FailureCode ""
       |> r_set_CompletedAt (Some now) |> r_set_UpdatedAt now |> releaseDelivery).

(** Room for the generations that [definitions] more builds may use. *)
Definition room (s : MemoryStore) (definitions : list AttemptDefinition) : Prop :=
  ∀ key, 0 ≤ generationAt (s_serviceGeneration s) key ∧
    generationAt (s_serviceGeneration s) key + Z.of_nat (length definitions) < 2 ^ 63.

Lemma EnqueuePushBuilds_inv `{MapOrder} `{Builder} s input owner definitions now s' staged :
  EnqueuePushBuilds s input owner definitions now = Ok (s', staged) →
  ∃ receipt, s_deliveries s !! ep_ClaimKey input = Some receipt ∧
  ((r_State receipt = DeliveryEnqueued ∧ s' = s ∧ staged = attemptsForDelivery s (ep_ClaimKey input)) ∨
   (holdsDelivery receipt owner now = true ∧ r_GitRef receipt = ep_GitRef input ∧
    ∃ generations, s' = enqueued s input now receipt staged generations ∧
      (keyed s → room s definitions →
       stage_ok s input now definitions staged generations ∧ length staged = length definitions))).
Proof.
  unfold EnqueuePushBuilds. destruct (_ || _ || _ || _); [done|].
  destruct (s_deliveries s !! ep_ClaimKey input) as [r|] eqn:Hr; [|done]. intros He. exists r. split; [done|].
  destruct (bool_decide (r_State r = _)) eqn:Hs; [left; simplify_eq; split_and!; [|done..]; by bool_prop|].
  destruct (_ || _) eqn:Hg; [done|]. destruct (isEmpty definitions); [done|]. bool_prop.
  apply res_bind_ok in He as ([out generations] & Hst & [= <- <-]). right. split_and!; [done..|].
  exists generations. split; [done|]. intros Hk Hroom.
  by apply (stageBuilds_ok s input now definitions definitions Hk Hroom) in Hst;
    [|done|simpl; lia|apply stage_start].
Qed.

(** Only authorised builds are enqueued: an attempt that a push adds is
    queued for the pushed commit and reference of the delivery its worker
    holds, under the identifier derived from the delivery and the definition,
    and snapshots a definition that is stored and enabled, whose installation
    is active and whose repository is active and belongs to it. *)
Theorem EnqueuePushBuilds_authorized `{MapOrder} `{Builder} s input owner definitions now s' staged k a :
  keyed s → room s definitions →
  EnqueuePushBuilds s input owner definitions now = Ok (s', staged) →
  s_attempts s' !! k = Some a → s_attempts s !! k = None →
  (∃ receipt, s_deliveries s !! a_DeliveryClaimKey a = Some receipt ∧
     holdsDelivery receipt owner now = true ∧ r_GitRef receipt = a_GitRef a) ∧
  (∃ requested repository, requested ∈ definitions ∧
     authorizedSource s requested (a_SourceSnapshot a) repository) ∧
  k = attemptUUID (a_DeliveryClaimKey a) (a_DefinitionID a) ∧
  a_DeliveryClaimKey a = ep_ClaimKey input ∧ a_CommitSHA a = ep_CommitSHA input ∧
  a_State a = AttemptQueued ∧ a ∈ staged.
Proof.
  intros Hk Hroom He Ha Hn.
  apply EnqueuePushBuilds_inv in He as (r & Hr & [(_ & -> & _)|(Hh & Href & gens & -> & Hst)]); [congruence|].
  destruct (Hst Hk Hroom) as [Hok _]. simpl in Ha.
  apply addAttempt_lookup in Ha as [?|(_ & Hin & <-)]; [congruence|].
  destruct (st_staged _ _ _ _ _ _ Hok a Hin) as [?|(_ & Hb & _)]; [congruence|].
  destruct Hb as (req & cur & repo & gen & imp & Hreq & Hauth & Hnew).
  apply newAttempt_fields in Hnew as (Hid & Hdef & Hdk & _ & _ & Hcm & Hgr & _ & Hsnap & Hs & _).
  split_and!; try done.
  - exists r. by rewrite Hdk, Hgr.
  - exists req, repo. by rewrite Hsnap.
  - by rewrite Hid, Hdk, Hdef.
Qed.

Lemma attemptsForDelivery_elem s key a :
  a ∈ attemptsForDelivery s key ↔ (∃ k, s_attempts s !! k = Some a) ∧ a_DeliveryClaimKey a = key.
Proof.
  unfold attemptsForDelivery. rewrite elem_of_sort_slice, elem_of_list_filter, String.eqb_eq, list_elem_of_fmap.
  split.
  - intros [([k b] & -> & Hb) He]. apply elem_of_map_to_list in Hb. split; [by exists k|done].
  - intros [[k Hk] He]. split; [|done]. exists (k, a). by rewrite elem_of_map_to_list.
Qed.

(** Enqueueing a push is idempotent: once it has succeeded, calling it
    again for the same delivery - by any worker, at any time, for any
    definitions - leaves the store as it is and returns the attempts of the
    delivery, among them every attempt the first call added. *)
Theorem EnqueuePushBuilds_idempotent `{MapOrder} `{Builder} s input owner definitions now s' staged
    owner' definitions' now' :
  EnqueuePushBuilds s input owner definitions now = Ok (s', staged) → owner' ≠ "" →
  ∃ attempts, EnqueuePushBuilds s' input owner' definitions' now' = Ok (s', attempts) ∧
    (∀ k a, s_attempts s' !! k = Some a → s_attempts s !! k = None → keyed s → room s definitions →
       a ∈ attempts) ∧
    (∀ a, a ∈ attempts → a_DeliveryClaimKey a = ep_ClaimKey input).
Proof.
  intros He Ho. exists (attemptsForDelivery s' (ep_ClaimKey input)).
  assert (∀ a, a ∈ attemptsForDelivery s' (ep_ClaimKey input) → a_DeliveryClaimKey a = ep_ClaimKey input)
    as Hkey by (by intros a [_ ?]%attemptsForDelivery_elem).
  split_and!; [| |done].
  - assert (∃ r, s_deliveries s' !! ep_ClaimKey input = Some r ∧ r_State r = DeliveryEnqueued) as (r & Hr & Hs).
    { pose proof (EnqueuePushBuilds_inv _ _ _ _ _ _ _ He) as (r & Hr & [(Hs & -> & _)|(_ & _ & gens & -> & _)]);
        [by exists r|]. simpl. rewrite lookup_insert_eq. by eexists. }
    unfold EnqueuePushBuilds in *. destruct (_ || _ || _ || _) eqn:Hg; [done|]. bool_prop.
    apply String.eqb_neq in Ho. rewrite Hr, Ho. rewrite bool_decide_eq_true_2 by done.
    by rewrite H1, H4, H3.
  - intros k a Ha Hn Hk Hroom.
    apply EnqueuePushBuilds_inv in He as (r & Hr & [(_ & -> & _)|(_ & _ & gens & -> & Hst)]); [congruence|].
    destruct (Hst Hk Hroom) as [Hok _]. apply attemptsForDelivery_elem. split; [by exists k|]. simpl in Ha.
    apply addAttempt_lookup in Ha as [?|(_ & Hin & <-)]; [congruence|].
    destruct (st_staged _ _ _ _ _ _ Hok a Hin) as [?|(_ & Hb & _)]; [congruence|].
    destruct Hb as (req & cur & repo & gen & imp & _ & _ & Hnew). by apply newAttempt_fields in Hnew as (_ & _ & ? & _).
Qed.

(** * The invariant of the whole store *)

Record store_inv (bound : Z) (s : MemoryStore) : Prop := {
  si_attempts : store_ok s;
  si_sources : sources_ok s;
  si_projections : projections_ok s;
  si_definitions : ∀ k d, s_definitions s !! k = Some d → 1 ≤ sp_MaxAttempts (d_Spec d) ≤ 5;
  si_origin : ∀ k a, s_attempts s !! k = Some a →
    ∃ r, s_deliveries s !! a_DeliveryClaimKey a = Some r ∧ r_State r = DeliveryEnqueued ∧
         r_GitRef r = a_GitRef a;
  si_generation : ∀ k a, s_attempts s !! k = Some a →
    1 ≤ a_Generation a ≤ generationAt (s_serviceGeneration s) (attemptKey a);
  si_unique : ∀ k1 k2 a1 a2, s_attempts s !! k1 = Some a1 → s_attempts s !! k2 = Some a2 →
    attemptKey a1 = attemptKey a2 → a_Generation a1 = a_Generation a2 → k1 = k2;
  si_bound : ∀ key, 0 ≤ generationAt (s_serviceGeneration s) key ≤ bound;
}.

Lemma store_inv_new : store_inv 0 NewMemoryStore.
Proof. by constructor. Qed.

(** The sources of a store are its installations, repositories and
    definitions. *)
Definition sameSources (s s' : MemoryStore) : Prop :=
  s_installations s' = s_installations s ∧ s_installationByProvider s' = s_installationByProvider s ∧
  s_repositories s' = s_repositories s ∧ s_definitions s' = s_definitions s.

Lemma sources_ok_same s s' : sameSources s s' → sources_ok s → sources_ok s'.
Proof.
  intros (Hi & Hp & Hr & Hd) [H1 H2 H3 H4 H5]. constructor; rewrite ?Hi, ?Hp, ?Hr, ?Hd; done.
Qed.

(** A step that moves at most attempts and deliveries in place. *)
Lemma store_inv_step bound now actor s s' :
  store_inv bound s → sameSources s s' → deliveries_step now actor s s' → store_ok s' →
  projections_ok s' → s_serviceGeneration s' = s_serviceGeneration s →
  (∀ k a', s_attempts s' !! k = Some a' → ∃ a, s_attempts s !! k = Some a ∧ sameBuild a a') →
  store_inv bound s'.
Proof.
  intros [_ Hso _ Hd Ho Hg Hu Hb] Hsame Hds Hok Hpj Hsg Hat. constructor; rewrite ?Hsg; try done.
  - by eapply sources_ok_same.
  - destruct Hsame as (_ & _ & _ & ->). done.
  - intros k a' Ha'. destruct (Hat _ _ Ha') as (a & Ha & Hs). unfold sameBuild in Hs.
    destruct (Ho _ _ Ha) as (r & Hr & Hst & Href).
    destruct (ds_delivery _ _ _ _ Hds _ _ Hr) as (r' & Hr' & Hev). exists r'.
    pose proof (delivery_evolves_identity _ _ _ _ Hev) as Hid.
    pose proof (delivery_evolves_final _ _ _ _ Hev ltac:(by rewrite Hst)) as Hfin.
    unfold receiptIdentity, outcome in *. intuition congruence.
  - intros k a' Ha'. destruct (Hat _ _ Ha') as (a & Ha & Hs). unfold sameBuild in Hs.
    apply Hg in Ha. unfold attemptKey in *. intuition congruence.
  - intros k1 k2 a1 a2 (b1 & Hb1 & S1)%Hat (b2 & Hb2 & S2)%Hat He Hge. unfold sameBuild in *.
    apply (Hu k1 k2 b1 b2 Hb1 Hb2); unfold attemptKey in *; intuition congruence.
Qed.

Lemma sameBuild_refl a : sameBuild a a.
Proof. by split_and!. Qed.

(** A completion adds a projection that has not been claimed. *)
Lemma attemptStep_projections s now ev : projections_ok s → projections_ok (attemptStep s now ev).
Proof.
  intros Hp. unfold attemptStep. destruct (handle s now ev) as [s'|] eqn:Hh; [|done].
  destruct ev; cbn [handle] in Hh; apply dropOut_ok in Hh as [out Hh].
  7: { unfold CompleteAttempt in Hh. repeat case_match; simplify_eq; [done|].
       intros id p. simpl. intros [[<- <-]|[_ ?]]%lookup_insert_Some; [|by eapply Hp].
       unfold projection_ok. simpl. lia. }
  all: unfold ClaimNextAttempt, HeartbeatAttempt, MarkAttemptRunning, DeferAttempt,
    ScheduleAttemptRetry, FailAttempt, RequestCancel, CompleteCancellation in Hh;
    repeat case_match; simplify_eq; done.
Qed.

Lemma attemptStep_inv bound s now ev :
  0 ≤ now → store_inv bound s → store_inv bound (attemptStep s now ev).
Proof.
  intros Hnow Hinv. pose proof (si_attempts _ _ Hinv) as Hok.
  destruct (step_cases s now ev (proj1 Hok)) as [->|[_ Hm]]; [done|].
  pose proof Hm as (a & a' & Ha & Hmv & Hs & (Hc & Hi & Hp & Hr & Hd & Hdl & Hsg)).
  apply (store_inv_step bound now None s); [done|by split_and!|by apply deliveries_step_same| | |done|].
  - by eapply moved_ok.
  - by apply attemptStep_projections, (si_projections _ _ Hinv).
  - intros k b. rewrite Hs. intros [[<- <-]|[_ Hk]]%lookup_insert_Some.
    + exists a. split; [done|]. by eapply attempt_move_sameBuild.
    + exists b. split; [done|apply sameBuild_refl].
Qed.

Lemma projectionStep_inv bound valid s now ev :
  store_inv bound s → store_inv bound (projectionStep valid s now ev).
Proof.
  intros Hinv.
  assert (projections_ok (projectionStep valid s now ev)) as Hp.
  { apply (qe_ok _ _ (projectionStep_evolves valid s now ev (si_projections _ _ Hinv))), (si_projections _ _ Hinv). }
  rewrite (projectionStep_frame valid s now ev).
  apply (store_inv_step bound now None s); try done; [by apply deliveries_step_same|exact (si_attempts _ _ Hinv)|].
  intros k a Ha. exists a. split; [done|apply sameBuild_refl].
Qed.

(** Definitions only get the specification of a valid definition. *)
Lemma sourceStep_definitions `{Environment} s ev k d :
  s_definitions (sourceStep definitionValid s ev) !! k = Some d →
  s_definitions s !! k = Some d ∨ ∃ d0, definitionValid d0 = true ∧ d_Spec d = d_Spec d0.
Proof.
  unfold sourceStep. destruct ev as [now ev]. cbn [fst snd].
  destruct (handleSource _ s now ev) as [s'|] eqn:Hh; [|by left]. destruct ev; cbn [handleSource] in Hh.
  - unfold PutInstallation in Hh. repeat case_match; simplify_eq; by left.
  - unfold PutRepository in Hh. repeat case_match; simplify_eq; by left.
  - unfold ReconcileRepositories in Hh. repeat case_match; simplify_eq. inv_res. by left.
  - unfold PutDefinition in Hh. destruct (negb (definitionValid definition)) eqn:Hv; [done|].
    inv_res. bool_prop. simpl. intros [[_ <-]|[_ ?]]%lookup_insert_Some; [|by left].
    right. exists definition. split; [done|]. by destruct a0.
  - unfold ApplyInstallationEvent in Hh. repeat case_match; simplify_eq. inv_res. by left.
  - unfold ApplyRepositoryEvent in Hh. repeat case_match; simplify_eq; [by left|]. inv_res. by left.
Qed.

(** What the validation of a definition promises of its attempts
    ([validateDefinitionSpec] in [internal/builds/model.go]). *)
Class EnvironmentLaws (env : Environment) : Prop := {
  definitionValid_attempts : ∀ d, definitionValid d = true → 1 ≤ sp_MaxAttempts (d_Spec d) ≤ 5;
}.

Lemma sourceStep_inv `{env : Environment} `{!EnvironmentLaws env} bound s ev :
  canonicalEvent ev.2 → store_inv bound s → store_inv bound (sourceStep definitionValid s ev).
Proof.
  intros Hc Hinv. destruct (sourceStep_frame s ev) as (Hdl & Hcl & Hat & Hsg & Hpj).
  pose proof (sourceStep_definitions s ev) as Hdef.
  destruct Hinv as [Hok Hso Hp Hd Ho Hg Hu Hb]. constructor; rewrite ?Hat, ?Hsg, ?Hdl; try done.
  - unfold store_ok, keyed. by rewrite Hat.
  - unfold sourceStep. destruct (handleSource _ _ _ _) eqn:Hh; [by eapply handleSource_ok|done].
  - unfold projections_ok. by rewrite Hpj.
  - intros k d [Hk|(d0 & Hv & ->)]%Hdef; [by eapply Hd|]. by apply definitionValid_attempts.
Qed.

Lemma handleDelivery_frame `{Environment} s now ev s' :
  handleDelivery s now ev = Ok s' →
  sameSources s s' ∧ s_releaseProjections s' = s_releaseProjections s ∧
  ((s_attempts s' = s_attempts s ∧ s_serviceGeneration s' = s_serviceGeneration s) ∨
   ∃ input owner definitions staged, ev = DvEnqueue input owner definitions ∧
     EnqueuePushBuilds s input owner definitions now = Ok (s', staged)).
Proof.
  destruct ev; simpl; rewrite ?dropOut_ok; try intros [out H']; try intros H'.
  - unfold ClaimOnce in H'. repeat case_match; simplify_eq; (split_and!; [by split_and!|done|by left]).
  - unfold ClaimDelivery in H'. simpl in H'. repeat case_match; simplify_eq; (split_and!; [by split_and!|done|by left]).
  - injection H' as <-. split_and!; [by split_and!|done|by left].
  - unfold AcquireDelivery in H'. repeat case_match; simplify_eq; (split_and!; [by split_and!|done|by left]).
  - unfold HeartbeatDelivery in H'. repeat case_match; simplify_eq; (split_and!; [by split_and!|done|by left]).
  - unfold RetryDelivery in H'. repeat case_match; simplify_eq; (split_and!; [by split_and!|done|by left]).
  - unfold FinishDelivery in H'. repeat case_match; simplify_eq; (split_and!; [by split_and!|done|by left]).
  - apply and_assoc. split; [|right; by exists input, owner, definitions, out].
    apply EnqueuePushBuilds_inv in H' as (r & _ & [(_ & -> & _)|(_ & _ & gens & -> & _)]); by split_and!.
Qed.

(** The generations after staging: above the old ones, within the room. *)
Lemma staged_generations_union `{Builder} s input now definitions staged generations key :
  stage_ok s input now definitions staged generations →
  generationAt (generations ∪ s_serviceGeneration s) key = staged_generation s generations key ∧
  generationAt (s_serviceGeneration s) key ≤ staged_generation s generations key ≤
    generationAt (s_serviceGeneration s) key + Z.of_nat (length staged).
Proof.
  intros Hok. unfold staged_generation, generationAt at 1. rewrite lookup_union.
  destruct (generations !! key) as [g|] eqn:E; simpl.
  - rewrite union_Some_l. simpl. split; [done|]. by apply (st_generations _ _ _ _ _ _ Hok).
  - rewrite (left_id None _). split; [done|lia].
Qed.

(** An attempt of the new store was there, or is a staged one. *)
Lemma enqueued_attempt `{Builder} s input now definitions staged generations k a :
  stage_ok s input now definitions staged generations →
  foldl addAttempt (s_attempts s) staged !! k = Some a →
  s_attempts s !! k = Some a ∨
  (a_ID a = k ∧ a ∈ staged ∧ isNew s a ∧ builtFrom s input now definitions a ∧
   generationAt (s_serviceGeneration s) (attemptKey a) < a_Generation a ≤
     staged_generation s generations (attemptKey a)).
Proof.
  intros Hst [?|(Hn & Hin & Hid)]%addAttempt_lookup; [by left|].
  destruct (st_staged _ _ _ _ _ _ Hst a Hin) as [?|(? & ? & ?)]; [left; congruence|by right].
Qed.

Lemma enqueued_unique `{Builder} bound s input now definitions staged generations k1 k2 a1 a2 :
  store_inv bound s → stage_ok s input now definitions staged generations →
  foldl addAttempt (s_attempts s) staged !! k1 = Some a1 →
  foldl addAttempt (s_attempts s) staged !! k2 = Some a2 →
  attemptKey a1 = attemptKey a2 → a_Generation a1 = a_Generation a2 → k1 = k2.
Proof.
  intros Hinv Hst H1 H2 He Hg.
  destruct (enqueued_attempt _ _ _ _ _ _ _ _ Hst H1) as [E1|(<- & I1 & N1 & _ & G1)],
    (enqueued_attempt _ _ _ _ _ _ _ _ Hst H2) as [E2|(<- & I2 & N2 & _ & G2)].
  - by eapply (si_unique _ _ Hinv).
  - apply (si_generation _ _ Hinv) in E1. rewrite He in E1. lia.
  - apply (si_generation _ _ Hinv) in E2. rewrite <- He in E2. lia.
  - by apply (st_unique _ _ _ _ _ _ Hst).
Qed.

Lemma enqueued_inv `{Builder} bound s input now receipt staged generations definitions :
  store_inv bound s →
  s_deliveries s !! ep_ClaimKey input = Some receipt → r_GitRef receipt = ep_GitRef input →
  terminalDelivery (r_State receipt) = false →
  stage_ok s input now definitions staged generations →
  store_inv (bound + Z.of_nat (length staged)) (enqueued s input now receipt staged generations).
Proof.
  intros Hinv Hr Href Ht Hst.
  pose proof (λ key, staged_generations_union s input now definitions staged generations key Hst) as Hun.
  constructor; simpl.
  - destruct (si_attempts _ _ Hinv) as [Hk Hat]. split; intros k a Ha;
      (apply (enqueued_attempt _ _ _ _ _ _ _ _ Hst) in Ha as [Ha|(Hid & _ & _ & Hb & _)]; [by eauto|done ||
       destruct Hb as (req & cur & repo & gen & imp & _ & (Hc & _) & Ha)]).
    eapply newAttempt_ok; [exact Ha|by eapply (si_definitions _ _ Hinv)].
  - by eapply sources_ok_same, (si_sources _ _ Hinv).
  - apply (si_projections _ _ Hinv).
  - apply (si_definitions _ _ Hinv).
  - intros k a [Ha|(_ & _ & _ & Hb & _)]%(enqueued_attempt _ _ _ _ _ _ _ _ Hst).
    + destruct (si_origin _ _ Hinv _ _ Ha) as (r & Hr' & Hs & ?). exists r. rewrite lookup_insert_ne; [done|].
      intros Hkey. assert (r = receipt) as -> by congruence. by rewrite Hs in Ht.
    + destruct Hb as (req & cur & repo & gen & imp & _ & _ & Ha).
      apply newAttempt_fields in Ha as (_ & _ & Hdk & _ & _ & _ & Hgr & _).
      rewrite Hdk, Hgr, lookup_insert_eq. by eexists.
  - intros k a. destruct (Hun (attemptKey a)) as [-> Hle].
    intros [Ha|(_ & _ & _ & _ & ?)]%(enqueued_attempt _ _ _ _ _ _ _ _ Hst).
    + apply (si_generation _ _ Hinv) in Ha. lia.
    + destruct (si_bound _ _ Hinv (attemptKey a)). lia.
  - intros k1 k2 a1 a2. by eapply enqueued_unique.
  - intros key. destruct (Hun key) as [-> Hle]. destruct (si_bound _ _ Hinv key). lia.
Qed.

Lemma store_inv_mono b1 b2 s : b1 ≤ b2 → store_inv b1 s → store_inv b2 s.
Proof. intros Hle []. constructor; try done. intros key. destruct (si_bound0 key). lia. Qed.

(** The builds an event may add. *)
Definition requestedBuilds (ev : StoreEvent) : Z :=
  match ev with
  | StDelivery (DvEnqueue _ _ definitions) => Z.of_nat (length definitions)
  | _ => 0
  end.

Lemma deliveryStep_inv `{Environment} bound s now ev s' :
  store_inv bound s → bound + requestedBuilds (StDelivery ev) < 2 ^ 63 →
  handleDelivery s now ev = Ok s' →
  store_inv (bound + requestedBuilds (StDelivery ev)) s'.
Proof.
  intros Hinv Hroom Hh. pose proof (handleDelivery_step _ _ _ _ Hh) as Hds.
  apply handleDelivery_frame in Hh as (Hsame & Hpj & [[Hat Hsg]|(input & owner & ds & staged & -> & He)]).
  - apply (store_inv_mono bound); [destruct ev; simpl; lia|].
    eapply store_inv_step; [done|done|exact Hds| | |done|].
    + destruct (si_attempts _ _ Hinv). by split; [unfold keyed|]; rewrite Hat.
    + unfold projections_ok. rewrite Hpj. apply (si_projections _ _ Hinv).
    + intros k a. rewrite Hat. exists a. split; [done|apply sameBuild_refl].
  - simpl in *. apply EnqueuePushBuilds_inv in He as (r & Hr & [(_ & -> & _)|(Hhd & Href & gens & -> & Hst)]).
    { eapply store_inv_mono; [|done]. lia. }
    destruct Hst as [Hst Hl].
    { exact (proj1 (si_attempts _ _ Hinv)). }
    { intros key. pose proof (si_bound _ _ Hinv key). lia. }
    rewrite <- Hl in *. eapply enqueued_inv; try done.
    apply holdsDelivery_spec in Hhd as (-> & _). done.
Qed.

Definition canonicalStoreEvent (ev : StoreEvent) : Prop :=
  match ev with StSource ev => canonicalEvent ev | _ => True end.

Definition buildsRequested (evs : list (Time * StoreEvent)) : Z :=
  foldr (λ ev n, requestedBuilds ev.2 + n) 0 evs.

Lemma storeRun_inv `{env : Environment} `{!EnvironmentLaws env} evs : ∀ bound s,
  Forall (λ ev, 0 ≤ ev.1 ∧ canonicalStoreEvent ev.2) evs →
  bound + buildsRequested evs < 2 ^ 63 → store_inv bound s →
  store_inv (bound + buildsRequested evs) (storeRun s evs).
Proof.
  induction evs as [|[now ev] evs IH]; intros bound s Hev Hroom Hinv; simpl in *.
  { by rewrite Z.add_0_r. }
  inversion Hev as [|? ? [Hnow Hc] Hev']; subst. simpl in *.
  assert (0 ≤ buildsRequested evs) as Hpos.
  { clear. induction evs as [|[? ev] evs IH]; simpl; [done|].
    assert (0 ≤ requestedBuilds ev) by (unfold requestedBuilds; repeat case_match; lia). lia. }
  rewrite Z.add_assoc. apply (IH _ (storeStep s (now, ev))); [done|lia|].
  destruct ev as [ev|ev|ev|ev]; simpl; rewrite ?Z.add_0_r.
  - by apply attemptStep_inv.
  - by apply projectionStep_inv.
  - by apply sourceStep_inv.
  - destruct (handleDelivery s now ev) as [s'|] eqn:Hh; [apply (deliveryStep_inv bound s now ev); [done| |done]; unfold requestedBuilds in *; lia|].
    apply (store_inv_mono bound); [destruct ev; lia|done].
Qed.


(** * Witnesses *)

Definition sampleCommit : string := "0123456789abcdef0123456789abcdef01234567".

Definition samplePush : PushEvent :=
  mkPush "refs/heads/main" false false false sampleCommit (mkRepoIdentity 303 "api" 9 "octo") 77
    (mkAccount 9 "octo" "User").

(** An environment: every payload decodes to the sample push, and every request
    can be planned. *)
#[refine] Definition sampleEnvironment : Environment := {|
  env_order := forward_order;
  env_json := {| decodePush _ := Some samplePush; decodeInstallation _ := None; decodeRepositories _ := None |};
  env_builder := {| requestValid _ := true; planJob _ := Some "job"; checkoutValid _ := true |};
  definitionValid d := (1 <=? sp_MaxAttempts (d_Spec d)) && (sp_MaxAttempts (d_Spec d) <=? 5);
|}.
Defined.

Lemma sampleLaws : EnvironmentLaws sampleEnvironment.
Proof. constructor. intros d. simpl. intros H. bool_prop. lia. Qed.

Definition sampleKey : string := "0123456789abcdef0123456789abcdef0123456789abcdef0123456789abcdef".

Definition sampleClaim : OneTimeClaim := mkClaim "github-delivery" sampleKey (100 * second) true.

Definition sampleReceipt : DeliveryReceipt :=
  mkReceipt "" 1 77 "delivery" "push" ("sha256:" +:+ sampleKey) "{}" 303 "refs/heads/main"
    DeliveryClaimed "" "" zero_time (3 * second) (3 * second) None (3 * second).

Definition sampleBuild : BuildDefinition :=
  mkDefinition sampleID "project" "service" SourceGitHub sampleID
    (re_ID (sampleRepositoryOf 303 "api")) None "refs/heads/main" sampleSpec "digest" 1 true second second.

Definition sampleInput : EnqueuePush := mkEnqueue sampleKey sampleCommit "refs/heads/main" (3 * second).

Definition sampleRequested : list AttemptDefinition :=
  [mkAttemptDefinition sampleBuild (mkExecution "builds")].

(** The sources are put in place, and a push is delivered and acquired. *)
Definition sampleAcquired : list (Time * StoreEvent) :=
  ((λ ev, (ev.1, StSource ev.2)) <$> sampleSources) ++
  [(2 * second, StSource (SrcDefinition sampleBuild));
   (3 * second, StDelivery (DvClaim sampleClaim sampleReceipt));
   (4 * second, StDelivery (DvAcquire sampleKey "worker" minute))].

Definition sampleHistory : list (Time * StoreEvent) :=
  (sampleAcquired ++ [(5 * second, StDelivery (DvEnqueue sampleInput "worker" sampleRequested))])%list.

Definition sampleRun (evs : list (Time * StoreEvent)) : MemoryStore :=
  storeRun (H := sampleEnvironment) NewMemoryStore evs.


(** Every store of the sample run keeps its attempts under their identifiers. *)
Lemma sampleRun_keyed evs : keyed (sampleRun evs).
Proof. by apply (storeRun_keyed (H := sampleEnvironment)). Qed.

Lemma sampleRun_room evs : s_serviceGeneration (sampleRun evs) = ∅ → room (sampleRun evs) sampleRequested.
Proof. intros He key. unfold generationAt. rewrite He, lookup_empty. simpl. lia. Qed.

(** The store before the delivery is claimed, and the one after. *)
Definition beforeClaim : MemoryStore := sampleRun (take 3 sampleAcquired).
Definition afterClaim : MemoryStore := sampleRun (take 4 sampleAcquired).

Definition claimSample (s : MemoryStore) : result bool :=
  ClaimDelivery (H := @env_json sampleEnvironment) s sampleClaim sampleReceipt.

Definition afterHistory : MemoryStore :=
  storeRun (H := sampleEnvironment) afterClaim (drop 4 sampleHistory).

Definition redelivery : result bool := claimSample afterHistory.


Lemma delivery_final_and_exclusive_witness :
  ∃ r, s_deliveries (sampleRun sampleHistory) !! sampleKey = Some r ∧
       terminalDelivery (r_State r) = true ∧
       ∃ r', s_deliveries (storeRun (H := sampleEnvironment) (sampleRun sampleHistory)
               [(200 * second, StDelivery DvPurge)]) !! sampleKey = Some r' ∧ outcome r' = outcome r.
Proof.
  destruct (s_deliveries (sampleRun sampleHistory) !! sampleKey) as [r|] eqn:Hr;
    [|exfalso; vm_compute in Hr; discriminate Hr].
  assert (terminalDelivery (r_State r) = true) as Ht.
  { vm_compute in Hr. injection Hr as <-. reflexivity. }
  exists r. split; [done|]. split; [exact Ht|].
  apply (proj1 (delivery_final_and_exclusive (H := sampleEnvironment) _ _ _ (sampleRun_keyed _) Hr) Ht).
Defined.

Lemma EnqueuePushBuilds_authorized_witness :
  ∃ a, s_attempts (sampleRun sampleHistory) !! attemptUUID sampleKey sampleID = Some a ∧
       a_CommitSHA a = sampleCommit ∧ a_State a = AttemptQueued.
Proof.
  destruct (EnqueuePushBuilds (H := forward_order) (H0 := @env_builder sampleEnvironment) (sampleRun sampleAcquired) sampleInput
    "worker" sampleRequested (5 * second)) as [[s' staged]|e] eqn:He; [|exfalso; vm_compute in He; discriminate He].
  assert (sampleRun sampleHistory = s') as Hs by (vm_compute; vm_compute in He; congruence).
  destruct (s_attempts s' !! attemptUUID sampleKey sampleID) as [a|] eqn:Ha;
    [|exfalso; rewrite <- Hs in Ha; vm_compute in Ha; discriminate Ha].
  exists a. rewrite Hs. split; [exact Ha|].
  destruct (EnqueuePushBuilds_authorized (H := forward_order) (H0 := @env_builder sampleEnvironment) _ _ _ _ _ _ _ _ _
    (sampleRun_keyed sampleAcquired) (sampleRun_room sampleAcquired ltac:(vm_compute; reflexivity)) He Ha
    ltac:(vm_compute; reflexivity)) as (_ & _ & _ & _ & Hcm & Hst & _).
  by split.
Defined.

Lemma EnqueuePushBuilds_idempotent_witness :
  ∃ s' staged attempts,
    EnqueuePushBuilds (H := forward_order) (H0 := @env_builder sampleEnvironment) (sampleRun sampleAcquired) sampleInput
      "worker" sampleRequested (5 * second) = Ok (s', staged) ∧
    EnqueuePushBuilds (H := forward_order) (H0 := @env_builder sampleEnvironment) s' sampleInput "other" [] (9 * second) =
      Ok (s', attempts) ∧ staged ≠ [].
Proof.
  destruct (EnqueuePushBuilds (H := forward_order) (H0 := @env_builder sampleEnvironment) (sampleRun sampleAcquired) sampleInput
    "worker" sampleRequested (5 * second)) as [[s' staged]|e] eqn:He; [|exfalso; vm_compute in He; discriminate He].
  destruct (EnqueuePushBuilds_idempotent (H := forward_order) (H0 := @env_builder sampleEnvironment) _ _ _ _ _ _ _ "other" []
    (9 * second) He ltac:(done)) as (attempts & Ha & _ & _).
  exists s', staged, attempts. split; [done|]. split; [exact Ha|].
  intros ->. vm_compute in He. discriminate He.
Defined.
