(* ===== verification/Effects.v ===== *)
(** Operations on shared state that can fail.

    A Go method keeps the writes it made before it returned an error, so an
    operation is a function from the state to the state and a result; the next
    step runs only after a success. *)

From S2P Require Import Prelude.

(** * Operations *)

Definition op (S E A : Type) : Type := S → S * res E A.

Section op.
Context {S E : Type}.

Definition op_ret {A} (a : A) : op S E A := fun s => (s, Ok a).
Definition op_fail {A} (e : E) : op S E A := fun s => (s, Err e).

Definition op_bind {A B} (m : op S E A) (k : A → op S E B) : op S E B := fun s =>
  match m s with
  | (s', Ok a) => k a s'
  | (s', Err e) => (s', Err e)
  end.

(** A computation that does not touch the state. *)
Definition op_lift {F A} (wrap : F → E) (m : res F A) : op S E A :=
  match m with Ok a => op_ret a | Err e => op_fail (wrap e) end.

Definition op_guard (b : bool) (e : E) : op S E unit := if b then op_ret tt else op_fail e.

(** A computation that reads the state. *)
Definition op_read {A} (f : S → res E A) : op S E A := fun s => (s, f s).

(** A method that writes the state only when it succeeds. *)
Definition op_store {F A} (wrap : F → E) (f : S → res F (S * A)) : op S E A := fun s =>
  match f s with
  | Ok (s', a) => (s', Ok a)
  | Err e => (s, Err (wrap e))
  end.
End op.

Notation "'do!' x ':=' m 'in' k" := (op_bind m (fun x => k))
  (at level 10, x name, m at level 100, k at level 200) : res_scope.

(** * Successful operations *)

Section op_ok.
Context {S E A B : Type}.

Lemma op_bind_ok (m : op S E A) (k : A → op S E B) s s' b :
  op_bind m k s = (s', Ok b) ↔ ∃ s1 a, m s = (s1, Ok a) ∧ k a s1 = (s', Ok b).
Proof.
  unfold op_bind. destruct (m s) as [s1 [a|e]]; split.
  - intros H. by exists s1, a.
  - intros (s2 & a' & [= <- <-] & H). done.
  - done.
  - by intros (s2 & a' & ? & H).
Qed.

Lemma op_guard_ok b (e : E) (s s' : S) u : op_guard b e s = (s', Ok u) ↔ b = true ∧ s' = s.
Proof.
  unfold op_guard, op_ret, op_fail. destruct b, u; split; intros H; destruct_and?; simplify_eq; done.
Qed.

Lemma op_lift_ok {F} (wrap : F → E) (m : res F A) (s s' : S) a :
  op_lift wrap m s = (s', Ok a) ↔ m = Ok a ∧ s' = s.
Proof.
  unfold op_lift, op_ret, op_fail. destruct m; split; intros H; destruct_and?; simplify_eq; done.
Qed.

Lemma op_store_ok {F} (wrap : F → E) (f : S → res F (S * A)) s s' a :
  op_store wrap f s = (s', Ok a) ↔ f s = Ok (s', a).
Proof. unfold op_store. destruct (f s) as [[]|]; naive_solver. Qed.

(** What holds after each way a sequence can end. *)
Lemma op_bind_post (Φ : S → res E B → Prop) (m : op S E A) k s :
  (∀ s1 e, m s = (s1, Err e) → Φ s1 (Err e)) →
  (∀ s1 a, m s = (s1, Ok a) → Φ (k a s1).1 (k a s1).2) →
  Φ (op_bind m k s).1 (op_bind m k s).2.
Proof. unfold op_bind. destruct (m s) as [s1 [a|e]]; simpl; auto. Qed.
End op_ok.

(** Takes a successful call apart into its steps. *)
Ltac op_inv :=
  repeat match goal with
  | H : op_bind _ _ _ = (_, Ok _) |- _ =>
      let s := fresh "s" in let a := fresh "a" in let Hm := fresh "Hm" in
      apply op_bind_ok in H as (s & a & Hm & H)
  | H : op_guard _ _ _ = (_, Ok _) |- _ => apply op_guard_ok in H as [? ->]
  | H : op_lift _ _ _ = (_, Ok _) |- _ => apply op_lift_ok in H as [? ->]
  | H : op_store _ _ _ = (_, Ok _) |- _ => apply op_store_ok in H
  | H : op_ret _ _ = (_, Ok _) |- _ => injection H as H; subst
  end.

(** * What an operation does to the state

    [relates R m]: whether [m] succeeds or not, the states before and after it
    are related by [R], a relation that composes. *)

Section relates.
Context {S E : Type} (R : S → S → Prop) `{!PreOrder R}.

Definition relates {A} (m : op S E A) : Prop := ∀ s, R s (m s).1.

Lemma relates_ret {A} (a : A) : relates (op_ret a).
Proof using All. intros s. by simpl. Qed.

Lemma relates_fail {A} e : relates (op_fail (A := A) e).
Proof using All. intros s. by simpl. Qed.

Lemma relates_bind {A B} (m : op S E A) (k : A → op S E B) :
  relates m → (∀ a, relates (k a)) → relates (op_bind m k).
Proof using All.
  intros Hm Hk s. unfold op_bind. specialize (Hm s).
  destruct (m s) as [s1 [a|e]]; simpl in *; [|done]. etrans; [exact Hm|apply Hk].
Qed.

Lemma relates_guard b e : relates (op_guard b e).
Proof using All. destruct b; [apply relates_ret|apply relates_fail]. Qed.

Lemma relates_lift {F A} (wrap : F → E) (m : res F A) : relates (op_lift wrap m).
Proof using All. destruct m; [apply relates_ret|apply relates_fail]. Qed.

Lemma relates_read {A} (f : S → res E A) : relates (op_read f).
Proof using All. intros s. by simpl. Qed.

Lemma relates_store {F A} (wrap : F → E) (f : S → res F (S * A)) :
  (∀ s s' a, f s = Ok (s', a) → R s s') → relates (op_store wrap f).
Proof using All. intros Hf s. unfold op_store. destruct (f s) as [[s' a]|] eqn:Hfs; simpl; [eauto|done]. Qed.
End relates.

(** Goes through the steps of a call; what is left are the methods of the
    stores. *)
Ltac relates_steps :=
  repeat match goal with
  | |- relates _ (op_bind _ _) => apply (relates_bind _); [|intros ?]
  | |- relates _ (op_guard _ _) => apply (relates_guard _)
  | |- relates _ (op_lift _ _) => apply (relates_lift _)
  | |- relates _ (op_read _) => apply (relates_read _)
  | |- relates _ (op_ret _) => apply (relates_ret _)
  | |- relates _ (op_fail _) => apply (relates_fail _)
  | |- relates _ (if ?b then _ else _) => destruct b
  | |- relates _ (match ?x with Some _ => _ | None => _ end) => destruct x
  | |- relates _ (op_store _ _) => apply (relates_store _); intros ? ? ? ?
  | H : res_bind _ _ = Ok _ |- _ =>
      let a := fresh "a" in let Ha := fresh "Ha" in apply res_bind_ok in H as (a & Ha & H); simplify_eq
  end.
