(* ===== verification/Versions.v ===== *)
(** Release versions: [internal/releases/releases.go], its version part.

    A version is parsed into numbers that fit 64 bits and an optional release
    candidate; versions are compared by the numbers, a candidate before its
    release.  The theorems are that the parser and the printer of versions are
    inverse to each other, and that the comparison is a total order on what is
    parsed. *)

From S2P Require Import Prelude Regexp GoStrings.
From Stdlib Require Import Ascii.
From stdpp Require Import pretty.

Open Scope Z_scope.

(** * The patterns *)

(** [0|[1-9][0-9]*] *)
Definition positive_re : regex := RSeq (RClass (in_range "1" "9")) (RStar (RClass is_digit)).
Definition number_re : regex := RAlt (RLit "0") positive_re.

Definition core_re : regex :=
  RSeq number_re (RSeq (RLit ".") (RSeq number_re (RSeq (RLit ".") number_re))).

Definition stable_version_re : regex := core_re.
Definition release_version_re : regex := RSeq core_re (ROpt (RSeq (RLit "-rc.") positive_re)).

(** [^[0-9]{3}_[a-z0-9_]+$] *)
Definition schema_name_re : regex :=
  RSeq (RTimes 3 (RClass is_digit))
    (RSeq (RLit "_") (RPlus (RClass (fun c => is_lower c || is_digit c || is_one_of "_" c)))).

Definition ValidStableVersion (v : string) : bool := re_match stable_version_re v.
Definition ValidReleaseVersion (v : string) : bool := re_match release_version_re v.

(** * Parsing *)

Inductive VersionErr : Set :=
| InvalidVersion | VersionRange | MalformedRange | InvalidBound | EmptyRange | InvalidSchemaName.

(** [releaseVersionRE.FindStringSubmatch]: the three numbers, and that of the
    candidate or nothing.  The numbers have neither [.] nor [-], so the groups
    are the parts between these. *)
Definition releaseSubmatch (v : string) : option (list string * string) :=
  if re_match release_version_re v then
    let (core, candidate) := split_once "-" v in
    Some (split_byte "." core, trim_prefix "rc." candidate)
  else None.

Record releaseVersion := mkVersion {
  rv_core : Z * Z * Z;
  rv_rc : Z;
}.

Definition parseNumber (s : string) : res VersionErr Z :=
  match parse_uint s with Some n => Ok n | None => Err VersionRange end.

Definition versionParts (v : string) : res VersionErr releaseVersion :=
  match releaseSubmatch (trim_prefix "v" v) with
  | Some ([major; minor; patch], candidate) =>
      let* major := parseNumber major in
      let* minor := parseNumber minor in
      let* patch := parseNumber patch in
      let* rc := if negb (String.eqb candidate "") then parseNumber candidate else Ok 0 in
      Ok (mkVersion (major, minor, patch) rc)
  | _ => Err InvalidVersion
  end.

(** * Comparing *)

Fixpoint compareCore (a b : list Z) : Z :=
  match a, b with
  | x :: a', y :: b' => if x <? y then -1 else if y <? x then 1 else compareCore a' b'
  | _, _ => 0
  end.

Definition coreList (v : releaseVersion) : list Z :=
  let '(major, minor, patch) := rv_core v in [major; minor; patch].

Definition compareParts (a b : releaseVersion) : Z :=
  let core := compareCore (coreList a) (coreList b) in
  if negb (core =? 0) then core
  else if rv_rc a =? rv_rc b then 0
  else if rv_rc a =? 0 then 1
  else if rv_rc b =? 0 then -1
  else if rv_rc a <? rv_rc b then -1 else 1.

Definition CompareVersions (a b : string) : res VersionErr Z :=
  let* pa := versionParts a in
  let* pb := versionParts b in
  Ok (compareParts pa pb).

(** * Upgrades *)

Definition ParseUpgradeRange (value : string) : res VersionErr (string * string) :=
  match split_byte " " value with
  | [low; high] =>
      if negb (has_prefix ">=" low) || negb (has_prefix "<" high) then Err MalformedRange
      else
        let minimum := trim_prefix ">=" low in
        let maximum := trim_prefix "<" high in
        if negb (ValidStableVersion minimum) || negb (ValidStableVersion maximum) then Err InvalidBound
        else
          let comparison := match CompareVersions minimum maximum with Ok c => c | Err _ => 0 end in
          if 0 <=? comparison then Err EmptyRange else Ok (minimum, maximum)
  | _ => Err MalformedRange
  end.

(** A candidate is installed where its release would be. *)
Definition installedVersion (version : string) : string :=
  let installed := trim_prefix "v" version in
  match releaseSubmatch installed with
  | Some (core, candidate) =>
      if negb (String.eqb candidate "") then str_join "." (take 3 core) else installed
  | None => installed
  end.

Definition SupportsUpgrade (version value : string) : res VersionErr bool :=
  let* bounds := ParseUpgradeRange value in
  let installed := installedVersion version in
  let* low := CompareVersions installed bounds.1 in
  let* high := CompareVersions installed bounds.2 in
  Ok ((0 <=? low) && (high <? 0)).

Definition SchemaInWindow (installed minimum maximum : string) : res VersionErr bool :=
  if negb (re_match schema_name_re installed) || negb (re_match schema_name_re minimum) ||
     negb (re_match schema_name_re maximum) then Err InvalidSchemaName
  else Ok (negb (str_less installed minimum) && negb (str_less maximum installed)).

(** * Numbers and their texts *)

Definition coreText (core : Z * Z * Z) : string :=
  let '(major, minor, patch) := core in
  format_int major +:+ "." +:+ (format_int minor +:+ "." +:+ format_int patch).

Definition formatVersion (v : releaseVersion) : string :=
  if rv_rc v =? 0 then coreText (rv_core v) else coreText (rv_core v) +:+ "-rc." +:+ format_int (rv_rc v).

Definition version_range (v : releaseVersion) : Prop :=
  let '(major, minor, patch) := rv_core v in
  0 ≤ major < 2 ^ 64 ∧ 0 ≤ minor < 2 ^ 64 ∧ 0 ≤ patch < 2 ^ 64 ∧ 0 ≤ rv_rc v < 2 ^ 64.

(** Numbers of any size. *)
Definition natural (v : releaseVersion) : Prop :=
  let '(major, minor, patch) := rv_core v in 0 ≤ major ∧ 0 ≤ minor ∧ 0 ≤ patch ∧ 0 ≤ rv_rc v.

Lemma re_lang_star_class p s :
  re_lang (RStar (RClass p)) s ↔ Forall (λ c, p c = true) (String.list_ascii_of_string s).
Proof.
  split.
  - intros Hs. apply (re_within_spec (λ c, p c = true)) in Hs; [done|]. by simpl.
  - induction s as [|c s IH]; simpl; [constructor|]. intros [Hc Hs]%Forall_cons.
    rewrite <- (str_app_nil s), <- str_app_cons. constructor; [by constructor|auto].
Qed.

Lemma positive_re_spec s :
  re_lang positive_re s ↔ ∃ c s', s = String c s' ∧ in_range "1" "9" c = true ∧
    Forall (λ c, is_digit c = true) (String.list_ascii_of_string s').
Proof.
  unfold positive_re. rewrite re_lang_seq. setoid_rewrite re_lang_class. setoid_rewrite re_lang_star_class. split.
  - intros (? & s' & -> & (c & -> & Hc) & Hs). exists c, s'. by rewrite str_app_cons, str_app_nil.
  - intros (c & s' & -> & Hc & Hs). exists (String c ""), s'. rewrite str_app_cons, str_app_nil. eauto.
Qed.

Lemma pretty_go_digits n : (0 < n)%N → ∀ r, ∃ s, pretty_N_go n r = s +:+ r ∧ re_lang positive_re s.
Proof.
  induction (N.lt_wf_0 n) as [n _ IH]. intros Hn r. rewrite pretty_N_go_step by done.
  destruct (decide (n `div` 10 = 0)%N) as [Hz|Hz].
  - rewrite Hz, pretty_N_go_0. exists (String (pretty_N_char (n `mod` 10)) "").
    rewrite str_app_cons, str_app_nil. split; [done|]. apply positive_re_spec. eexists _, "". split; [done|].
    split; [|constructor]. pose proof (N.div_mod n 10 ltac:(done)).
    pose proof (N.mod_lt n 10 ltac:(done)). destruct (pretty_char_digit (n `mod` 10)) as [_ Hv]; [done|].
    unfold in_range, byte_code. apply andb_true_iff. rewrite !N.leb_le.
    change (N_of_ascii "1") with 49%N. change (N_of_ascii "9") with 57%N. lia.
  - destruct (IH (n `div` 10)%N ltac:(by apply N.div_lt) ltac:(by apply N.neq_0_lt_0)
      (String (pretty_N_char (n `mod` 10)) r)) as (s & -> & Hs).
    exists (s +:+ String (pretty_N_char (n `mod` 10)) ""). rewrite str_app_assoc, str_app_cons, str_app_nil.
    split; [done|]. apply positive_re_spec in Hs as (c & s' & -> & Hc & Hs). apply positive_re_spec.
    exists c, (s' +:+ String (pretty_N_char (n `mod` 10)) ""). rewrite str_app_cons, list_ascii_app.
    split_and!; [done|done|]. apply Forall_app. split; [done|]. repeat constructor.
    by destruct (pretty_char_digit (n `mod` 10)); [apply N.mod_lt|].
Qed.

Lemma digit_char c : is_digit c = true →
  ∃ d, (d < 10)%N ∧ pretty_N_char d = c ∧ Z.of_N (N_of_ascii c) - 48 = Z.of_N d.
Proof.
  intros Hc. exists (N_of_ascii c - 48)%N.
  assert (forallb (fun k => let c := ascii_of_nat k in implb (is_digit c)
      (Ascii.eqb (pretty_N_char (N_of_ascii c - 48)) c && (N_of_ascii c - 48 <? 10)%N && (48 <=? N_of_ascii c)%N))
    (seq 0 256) = true) as Hall by (vm_compute; reflexivity).
  rewrite forallb_forall in Hall. specialize (Hall (nat_of_ascii c)). cbv zeta in Hall.
  rewrite ascii_nat_embedding, Hc in Hall. simpl in Hall.
  assert (In (nat_of_ascii c) (seq 0 256)) as Hin.
  { apply in_seq. pose proof (nat_ascii_bounded c). lia. }
  specialize (Hall Hin). apply andb_true_iff in Hall as [[He%Ascii.eqb_eq ?%N.ltb_lt]%andb_true_iff ?%N.leb_le].
  split_and!; [done|done|lia].
Qed.

(** Digits after a positive number are the digits of what they spell. *)
Lemma digits_value_go s : ∀ a, (0 < a)%N →
  Forall (λ c, is_digit c = true) (String.list_ascii_of_string s) →
  ∃ n, (0 < n)%N ∧ digits_value (Z.of_N a) s = Some (Z.of_N n) ∧ ∀ r, pretty_N_go n r = pretty_N_go a (s +:+ r).
Proof.
  induction s as [|c s IH]; intros a Ha Hs; simpl in *.
  { exists a. split_and!; [done|done|]. intros r. by rewrite str_app_nil. }
  apply Forall_cons in Hs as [Hc Hs]. rewrite Hc. destruct (digit_char c Hc) as (d & Hd & Hch & ->).
  destruct (IH (a * 10 + d)%N ltac:(lia) Hs) as (n & Hn & Hv & Hp).
  exists n. split; [done|]. split; [by rewrite <- Hv; f_equal; lia|]. intros r.
  rewrite Hp, str_app_cons, pretty_N_go_step by lia.
  rewrite N.div_add_l, N.div_small, N.add_0_r by lia.
  rewrite N.add_comm, N.Div0.mod_add, N.mod_small by lia. by rewrite Hch.
Qed.

(** The canonical decimals are the texts of the numbers. *)
Lemma format_int_pos n : 0 < n → format_int n = pretty_N_go (Z.to_N n) "".
Proof.
  destruct n as [|p|p]; try lia. intros _. unfold format_int. change (pretty (Z.pos p)) with (pretty (N.pos p)).
  unfold pretty, pretty_N. by rewrite decide_False by lia.
Qed.

Lemma positive_re_format s : re_lang positive_re s ↔ ∃ n, 0 < n ∧ s = format_int n.
Proof.
  split.
  - intros (c & s' & -> & Hc & Hs)%positive_re_spec.
    assert (is_digit c = true) as Hdig.
    { unfold is_digit, in_range, byte_code in *. apply andb_true_iff in Hc as [H1%N.leb_le H2%N.leb_le].
      apply andb_true_iff. rewrite !N.leb_le. change (N_of_ascii "0") with 48%N.
      change (N_of_ascii "1") with 49%N in H1. change (N_of_ascii "9") with 57%N in *. lia. }
    destruct (digit_char c Hdig) as (d & Hd & Hch & Hval).
    assert (0 < d)%N as Hpos.
    { unfold in_range, byte_code in Hc. apply andb_true_iff in Hc as [H1%N.leb_le _].
      change (N_of_ascii "1") with 49%N in H1. lia. }
    destruct (digits_value_go s' d Hpos Hs) as (n & Hn & _ & Hp). exists (Z.of_N n). split; [lia|].
    rewrite format_int_pos, N2Z.id, Hp by lia. rewrite (pretty_N_go_step d) by done.
    rewrite N.div_small, N.mod_small, pretty_N_go_0 by done. by rewrite Hch, str_app_nil_r.
  - intros (n & Hn & ->). rewrite format_int_pos by done.
    destruct (pretty_go_digits (Z.to_N n) ltac:(lia) "") as (s & -> & Hs).
    by rewrite str_app_nil_r.
Qed.

Lemma number_re_format s : re_lang number_re s ↔ ∃ n, 0 ≤ n ∧ s = format_int n.
Proof.
  unfold number_re. rewrite re_lang_alt, re_lang_lit, positive_re_format. split.
  - intros [->|(n & Hn & ->)]; [by exists 0|exists n; split; [lia|done]].
  - intros (n & Hn & ->). destruct (decide (n = 0)) as [->|]; [by left|]. right. exists n. split; [lia|done].
Qed.

(** * The texts of versions *)

Lemma format_digits n : 0 ≤ n → Forall (λ c, is_digit c = true) (String.list_ascii_of_string (format_int n)).
Proof.
  intros Hn. assert (re_lang number_re (format_int n)) as Hs by (apply number_re_format; by exists n).
  apply (re_within_spec (λ c, is_digit c = true)) in Hs; [done|].
  unfold number_re, positive_re. cbn [re_within RLit]. split_and!; try done.
  - by intros c <-%Ascii.eqb_eq.
  - intros c Hc. unfold is_digit, in_range, byte_code in *. apply andb_true_iff in Hc as [H1%N.leb_le H2%N.leb_le].
    apply andb_true_iff. rewrite !N.leb_le. change (N_of_ascii "0") with 48%N.
    change (N_of_ascii "1") with 49%N in H1. change (N_of_ascii "9") with 57%N in *. lia.
Qed.

Lemma format_count c n : 0 ≤ n → is_digit c = false → count_byte c (format_int n) = 0.
Proof.
  intros Hn Hc. apply count_byte_none. eapply Forall_impl; [by apply format_digits|].
  intros d Hd ->. simpl in Hd. congruence.
Qed.

Lemma format_nonempty n : 0 ≤ n → ∃ c s, format_int n = String c s ∧ is_digit c = true.
Proof.
  intros Hn. pose proof (format_digits n Hn) as Hd. destruct (format_int n) as [|c s] eqn:E.
  - assert (re_lang number_re "") as H by (apply number_re_format; exists n; split; [done|by rewrite E]).
    by apply re_match_spec in H.
  - apply Forall_cons in Hd as [Hd _]. eauto.
Qed.

Lemma core_re_format s : re_lang core_re s ↔ ∃ a b c, 0 ≤ a ∧ 0 ≤ b ∧ 0 ≤ c ∧ s = coreText (a, b, c).
Proof.
  unfold core_re. repeat setoid_rewrite re_lang_seq. repeat setoid_rewrite re_lang_lit.
  repeat setoid_rewrite number_re_format. split.
  - intros (? & ? & -> & (a & ? & ->) & ? & ? & -> & -> & ? & ? & -> & (b & ? & ->) & ? & ? & -> & -> & c & ? & ->).
    by exists a, b, c.
  - intros (a & b & c & ? & ? & ? & ->). unfold coreText. do 2 eexists. split; [done|]. split; [by exists a|].
    do 2 eexists. split; [done|]. split; [done|]. do 2 eexists. split; [done|]. split; [by exists b|].
    do 2 eexists. split; [done|]. split; [done|]. by exists c.
Qed.

Lemma release_re_format s :
  re_lang release_version_re s ↔ ∃ v, natural v ∧ s = formatVersion v.
Proof.
  unfold release_version_re, ROpt. rewrite re_lang_seq. setoid_rewrite re_lang_alt. setoid_rewrite re_lang_eps.
  setoid_rewrite core_re_format. setoid_rewrite re_lang_seq. setoid_rewrite re_lang_lit.
  setoid_rewrite positive_re_format. split.
  - intros (? & ? & -> & (a & b & c & ? & ? & ? & ->) & [(? & ? & -> & -> & r & ? & ->)| ->]).
    + exists (mkVersion (a, b, c) r). split; [by split_and!; simpl; lia|]. unfold formatVersion. cbn [rv_rc rv_core].
      by rewrite (proj2 (Z.eqb_neq r 0)) by lia.
    + exists (mkVersion (a, b, c) 0). split; [done|]. by rewrite str_app_nil_r.
  - intros ([[[a b] c] r] & (? & ? & ? & ?) & ->). unfold formatVersion. cbn [rv_rc rv_core] in *.
    destruct (Z.eqb_spec r 0) as [->|].
    + exists (coreText (a, b, c)), "". rewrite str_app_nil_r. split; [done|]. split; [by exists a, b, c|by right].
    + exists (coreText (a, b, c)), ("-rc." +:+ format_int r). split; [done|]. split; [by exists a, b, c|].
      left. do 2 eexists. split; [done|]. split; [done|]. exists r. split; [lia|done].
Qed.

Lemma split_once_none c s : count_byte c s = 0 → split_once c s = (s, "").
Proof.
  induction s as [|a s IH]; [done|]. simpl. pose proof (count_byte_nonneg c s).
  destruct (Ascii.eqb a c); [lia|]. intros Hc. by rewrite IH by lia.
Qed.

Lemma coreText_count core ch :
  let '(a, b, c) := core in 0 ≤ a → 0 ≤ b → 0 ≤ c → is_digit ch = false → "."%char ≠ ch →
  count_byte ch (coreText core) = 0.
Proof.
  destruct core as [[a b] c]. intros Ha Hb Hc Hd Hn. unfold coreText. rewrite !count_byte_app, !format_count by done.
  assert (count_byte ch "." = 0) as ->; [|done]. apply count_byte_none. repeat constructor. congruence.
Qed.

Lemma split_coreText a b c : 0 ≤ a → 0 ≤ b → 0 ≤ c →
  split_byte "." (coreText (a, b, c)) = [format_int a; format_int b; format_int c].
Proof.
  intros Ha Hb Hc. unfold coreText.
  assert (∀ x y, 0 ≤ x → split_byte "." (format_int x +:+ "." +:+ y) = format_int x :: split_byte "." y) as Hsplit.
  { intros x y Hx. by apply (split_byte_app "." (format_int x) y), format_count. }
  rewrite !Hsplit by done. by rewrite split_byte_none by by apply format_count.
Qed.

Definition candidateText (rc : Z) : string := if rc =? 0 then "" else format_int rc.

(** The groups of a version are the texts of its numbers. *)
Lemma releaseSubmatch_format a b c r : natural (mkVersion (a, b, c) r) →
  releaseSubmatch (formatVersion (mkVersion (a, b, c) r)) =
  Some ([format_int a; format_int b; format_int c], candidateText r).
Proof.
  intros Hn. assert (re_match release_version_re (formatVersion (mkVersion (a, b, c) r)) = true) as Hm.
  { apply re_match_spec, release_re_format. by eexists. }
  destruct Hn as (? & ? & ? & Hr). cbn [rv_rc] in Hr. unfold releaseSubmatch. rewrite Hm.
  unfold formatVersion, candidateText. cbn [rv_rc rv_core].
  pose proof (coreText_count (a, b, c) "-" ltac:(done) ltac:(done) ltac:(done) eq_refl ltac:(done)) as Hc.
  destruct (r =? 0).
  - rewrite split_once_none by done. by rewrite split_coreText.
  - change ("-rc." +:+ format_int r) with (String "-" ("rc." +:+ format_int r)).
    rewrite split_once_app by done. rewrite split_coreText by done. by rewrite trim_prefix_app.
Qed.

Lemma releaseSubmatch_ok s out : releaseSubmatch s = Some out → ∃ v, natural v ∧ s = formatVersion v.
Proof.
  unfold releaseSubmatch. destruct (re_match release_version_re s) eqn:Hm; [|done]. intros _.
  by apply re_match_spec, release_re_format in Hm.
Qed.

Lemma formatVersion_no_v v : natural v → trim_prefix "v" (formatVersion v) = formatVersion v.
Proof.
  destruct v as [[[a b] c] r]. intros (Ha & _). destruct (format_nonempty a Ha) as (d & s & E & Hd).
  unfold trim_prefix, has_prefix, formatVersion, coreText. cbn [rv_core rv_rc]. rewrite E, !str_app_cons.
  destruct (r =? 0); rewrite ?str_app_cons; cbn [String.prefix]; destruct (ascii_dec "v" d) as [<-|]; done.
Qed.

Lemma parseNumber_format n : 0 ≤ n → parseNumber (format_int n) = if n <? 2 ^ 64 then Ok n else Err VersionRange.
Proof.
  intros Hn. unfold parseNumber. destruct (Z.ltb_spec n (2 ^ 64)); [by rewrite parse_uint_format|].
  destruct (decide (n = 0)) as [->|]; [lia|]. rewrite format_int_pos by lia.
  unfold parse_uint, parse_digits. pose proof (digits_value_pretty (Z.to_N n) "" ltac:(lia)) as Hv.
  destruct (pretty_N_go (Z.to_N n) "") as [|ch s]; [done|]. rewrite Hv. cbn [digits_value].
  rewrite Z2N.id by lia. by rewrite (proj2 (Z.leb_gt n (2 ^ 64 - 1))) by lia.
Qed.

(** What a version that is written out parses to, with or without a [v]. *)
Lemma versionParts_format v : natural v →
  versionParts (formatVersion v) =
    if forallb (fun n => n <? 2 ^ 64) (rv_rc v :: coreList v) then Ok v else Err VersionRange.
Proof.
  intros Hn. unfold versionParts. rewrite formatVersion_no_v by done. destruct v as [[[a b] c] r].
  rewrite releaseSubmatch_format by done. destruct Hn as (Ha & Hb & Hc & Hr). cbn [rv_rc rv_core coreList] in *.
  rewrite !parseNumber_format by done. unfold candidateText. cbn [forallb].
  destruct (a <? 2 ^ 64), (b <? 2 ^ 64), (c <? 2 ^ 64); simpl; rewrite ?andb_false_r; try done.
  destruct (Z.eqb_spec r 0) as [->|]; [done|].
  destruct (format_nonempty r Hr) as (d & s & E & _). rewrite E. simpl. rewrite <- E, parseNumber_format by done.
  by destruct (r <? 2 ^ 64).
Qed.

Lemma versionParts_v s : versionParts ("v" +:+ formatVersion s) = versionParts (trim_prefix "v" ("v" +:+ formatVersion s)) ∨ ¬ natural s.
Proof.
  destruct s as [[[a b] c] r].
  destruct (decide (0 ≤ a ∧ 0 ≤ b ∧ 0 ≤ c ∧ 0 ≤ r)) as [Hn|Hn]; [|by right].
  left. unfold versionParts. rewrite trim_prefix_app. by rewrite formatVersion_no_v.
Qed.

Lemma versionParts_ok s v : versionParts s = Ok v → version_range v ∧ trim_prefix "v" s = formatVersion v.
Proof.
  intros Hs. assert (∃ w, natural w ∧ trim_prefix "v" s = formatVersion w) as (w & Hw & E).
  { unfold versionParts in Hs. destruct (releaseSubmatch _) as [out|] eqn:Hm; [|done].
    by eapply releaseSubmatch_ok. }
  assert (versionParts s = versionParts (formatVersion w)) as Heq.
  { unfold versionParts. by rewrite E, formatVersion_no_v. }
  rewrite Heq, versionParts_format in Hs by done. destruct (forallb _ _) eqn:Hall; [|done].
  injection Hs as ->. split; [|done]. destruct v as [[[a b] c] r]. cbn [forallb coreList rv_rc rv_core] in Hall.
  unfold version_range. destruct Hw as (? & ? & ? & ?). cbn [rv_core rv_rc] in *. bool_prop. lia.
Qed.

Lemma version_range_natural v : version_range v → natural v.
Proof. destruct v as [[[a b] c] r]. unfold version_range, natural. simpl. lia. Qed.

Lemma versionParts_range v : version_range v → versionParts (formatVersion v) = Ok v.
Proof.
  intros Hv. rewrite versionParts_format by by apply version_range_natural.
  destruct v as [[[a b] c] r]. unfold version_range in Hv. cbn [rv_core rv_rc coreList forallb] in *.
  by rewrite !(proj2 (Z.ltb_lt _ _)) by lia.
Qed.

(** Versions are read as they are written: a version whose numbers fit 64
    bits is read back from its text, with or without a leading [v], and what
    is read from any text is written as that text again, less its [v] - so
    numbers with leading zeros, signs, missing or further parts are refused. *)
Theorem version_roundtrip :
  (∀ v, version_range v → versionParts (formatVersion v) = Ok v ∧ versionParts ("v" +:+ formatVersion v) = Ok v) ∧
  (∀ s v, versionParts s = Ok v → version_range v ∧ trim_prefix "v" s = formatVersion v).
Proof.
  split; [|apply versionParts_ok]. intros v Hv. split; [by apply versionParts_range|].
  destruct (versionParts_v v) as [->|Hn]; [|by destruct Hn; apply version_range_natural].
  by rewrite trim_prefix_app, versionParts_range.
Qed.

(** * The order *)

(** A release comes after its candidates. *)
Definition rcKey (rc : Z) : Z := if rc =? 0 then 2 ^ 64 else rc.
Definition versionKey (v : releaseVersion) : list Z := coreList v ++ [rcKey (rv_rc v)].

Lemma compareCore_spec : ∀ a b : list Z, length a = length b →
  (compareCore a b = -1 ∨ compareCore a b = 0 ∨ compareCore a b = 1) ∧
  compareCore b a = - compareCore a b ∧ (compareCore a b = 0 ↔ a = b).
Proof.
  induction a as [|x a IH]; intros [|y b] Hl; simplify_eq/=; [by split_and!; [auto|..]|].
  destruct (Z.ltb_spec x y), (Z.ltb_spec y x); try lia.
  - split_and!; [auto|done|]. split; [done|intros [= ??]; lia].
  - split_and!; [auto|done|]. split; [done|intros [= ??]; lia].
  - destruct (IH b Hl) as (? & ? & Heq). split_and!; [done|done|]. rewrite Heq.
    assert (x = y) as -> by lia. split; [by intros ->|by intros [= ->]].
Qed.

Lemma compareCore_trans : ∀ a b c : list Z, length a = length b → length b = length c →
  compareCore a b ≤ 0 → compareCore b c ≤ 0 →
  compareCore a c ≤ 0 ∧ (compareCore a c = 0 → compareCore a b = 0 ∧ compareCore b c = 0).
Proof.
  induction a as [|x a IH]; intros [|y b] [|z c] Hl1 Hl2; simplify_eq/=; [done|].
  destruct (Z.ltb_spec x y), (Z.ltb_spec y x), (Z.ltb_spec y z), (Z.ltb_spec z y), (Z.ltb_spec x z),
    (Z.ltb_spec z x); try lia. by apply IH.
Qed.

Lemma compareParts_key a b : version_range a → version_range b →
  compareParts a b = compareCore (versionKey a) (versionKey b).
Proof.
  destruct a as [[[a1 a2] a3] ra], b as [[[b1 b2] b3] rb]. unfold version_range, compareParts, versionKey, rcKey.
  cbn [rv_core rv_rc coreList app compareCore]. intros Ha Hb.
  repeat case_match; bool_prop; subst; try done; try lia.
Qed.

(** Comparing versions is a total order: it fails only for what is not a
    version; reversing the arguments reverses the sign; it is zero exactly
    when the texts are the same but for a [v]; it is transitive; and a
    candidate comes before its release and after the candidates before it. *)
Theorem CompareVersions_order :
  (∀ a b, (∃ x, CompareVersions a b = Ok x) ↔ is_ok (versionParts a) = true ∧ is_ok (versionParts b) = true) ∧
  (∀ a b x, CompareVersions a b = Ok x →
     (x = -1 ∨ x = 0 ∨ x = 1) ∧ CompareVersions b a = Ok (- x) ∧
     (x = 0 ↔ trim_prefix "v" a = trim_prefix "v" b)) ∧
  (∀ a b c x y, CompareVersions a b = Ok x → CompareVersions b c = Ok y → x ≤ 0 → y ≤ 0 →
     ∃ z, CompareVersions a c = Ok z ∧ z ≤ 0 ∧ (z = 0 → x = 0 ∧ y = 0)) ∧
  (∀ core rc rc', version_range (mkVersion core rc) → version_range (mkVersion core rc') → 0 < rc → rc < rc' →
     CompareVersions (formatVersion (mkVersion core rc)) (formatVersion (mkVersion core rc')) = Ok (-1) ∧
     CompareVersions (formatVersion (mkVersion core rc')) (formatVersion (mkVersion core 0)) = Ok (-1)).
Proof.
  assert (∀ v, length (versionKey v) = 4%nat) as Hlen by by intros [[[? ?] ?] ?].
  assert (∀ v w, versionKey v = versionKey w → version_range v → version_range w → v = w) as Hinj.
  { intros [[[a b] c] r] [[[a' b'] c'] r']. unfold versionKey, rcKey, version_range. simpl. intros [= -> -> -> Hk] Hv Hw.
    f_equal. destruct (Z.eqb_spec r 0), (Z.eqb_spec r' 0); lia. }
  unfold CompareVersions. split_and!.
  - intros a b. destruct (versionParts a), (versionParts b); simpl; naive_solver.
  - intros a b x Hx. apply res_bind_ok in Hx as (pa & Ha & Hx). apply res_bind_ok in Hx as (pb & Hb & [= <-]).
    rewrite Ha, Hb. simpl. apply versionParts_ok in Ha as [Ha ->], Hb as [Hb ->].
    rewrite !compareParts_key by done.
    destruct (compareCore_spec (versionKey pa) (versionKey pb)) as (H1 & -> & Hz); [by rewrite !Hlen|].
    split_and!; [done|done|]. rewrite Hz. split; [by intros ->%Hinj|]. intros E. f_equal.
    apply (f_equal versionParts) in E. rewrite !versionParts_range in E by done. by injection E.
  - intros a b c x y Hx Hy Hx0 Hy0.
    apply res_bind_ok in Hx as (pa & Ha & Hx). apply res_bind_ok in Hx as (pb & Hb & [= <-]).
    apply res_bind_ok in Hy as (pb' & Hb' & Hy). apply res_bind_ok in Hy as (pc & Hc & [= <-]).
    rewrite Hb in Hb'. injection Hb' as <-. rewrite Ha, Hc. simpl. eexists. split; [done|].
    apply versionParts_ok in Ha as [Ha _], Hb as [Hb _], Hc as [Hc _]. rewrite !compareParts_key in * by done.
    apply compareCore_trans; by rewrite ?Hlen.
  - intros [[a b] c] rc rc' Hv Hv' Hrc Hlt.
    assert (version_range (mkVersion (a, b, c) 0)) as H0 by (unfold version_range in *; simpl in *; lia).
    rewrite !versionParts_range by done. simpl. rewrite !compareParts_key by done. unfold versionKey, rcKey.
    unfold version_range in *. cbn [rv_core rv_rc coreList app compareCore] in *. rewrite !Z.ltb_irrefl.
    rewrite (proj2 (Z.eqb_neq rc 0)), (proj2 (Z.eqb_neq rc' 0)) by lia. cbn [Z.eqb].
    split; [by rewrite (proj2 (Z.ltb_lt rc rc'))|]. by rewrite (proj2 (Z.ltb_lt rc' (2 ^ 64))) by lia.
Qed.

(** * Upgrades *)

Lemma formatVersion_spaces v : natural v → count_byte " " (formatVersion v) = 0.
Proof.
  destruct v as [[[a b] c] r]. intros (Ha & Hb & Hc & Hr). cbn [rv_rc] in Hr.
  pose proof (coreText_count (a, b, c) " " Ha Hb Hc eq_refl ltac:(done)) as Hcore.
  unfold formatVersion. cbn [rv_rc rv_core]. destruct (r =? 0); [done|].
  rewrite !count_byte_app, Hcore, format_count by done. done.
Qed.

Lemma stable_format v : natural v → rv_rc v = 0 → ValidStableVersion (formatVersion v) = true.
Proof.
  destruct v as [[[a b] c] r]. intros (? & ? & ? & _) Hr. cbn [rv_rc] in Hr. subst r.
  apply re_match_spec, core_re_format. by exists a, b, c.
Qed.

Lemma stable_ok s : ValidStableVersion s = true → ∃ v, natural v ∧ rv_rc v = 0 ∧ s = formatVersion v.
Proof.
  intros (a & b & c & ? & ? & ? & ->)%re_match_spec%core_re_format. by exists (mkVersion (a, b, c) 0).
Qed.

(** Without candidates, versions are compared by their numbers. *)
Lemma CompareVersions_stable v w : version_range v → version_range w → rv_rc v = 0 → rv_rc w = 0 →
  CompareVersions (formatVersion v) (formatVersion w) = Ok (compareCore (coreList v) (coreList w)).
Proof.
  intros Hv Hw Rv Rw. unfold CompareVersions. rewrite !versionParts_range by done. simpl.
  unfold compareParts. rewrite Rv, Rw. cbn [Z.eqb]. by destruct (Z.eqb_spec (compareCore (coreList v) (coreList w)) 0) as [->|].
Qed.

Definition rangeText (low high : releaseVersion) : string :=
  ">=" +:+ formatVersion low +:+ " <" +:+ formatVersion high.

Lemma rangeText_split low high : natural low → natural high →
  split_byte " " (rangeText low high) = [">=" +:+ formatVersion low; "<" +:+ formatVersion high].
Proof.
  intros Hl Hh. unfold rangeText.
  change (" <" +:+ formatVersion high) with (String " " ("<" +:+ formatVersion high)).
  rewrite <- str_app_assoc, split_byte_app by (rewrite count_byte_app, formatVersion_spaces by done; done).
  rewrite split_byte_none; [done|]. rewrite count_byte_app, formatVersion_spaces by done. done.
Qed.

Lemma ParseUpgradeRange_format low high : version_range low → version_range high → rv_rc low = 0 → rv_rc high = 0 →
  ParseUpgradeRange (rangeText low high) =
    if compareCore (coreList low) (coreList high) <? 0
    then Ok (formatVersion low, formatVersion high) else Err EmptyRange.
Proof.
  intros Hl Hh Rl Rh. pose proof (version_range_natural _ Hl). pose proof (version_range_natural _ Hh).
  unfold ParseUpgradeRange. rewrite rangeText_split, !has_prefix_app, !trim_prefix_app by done. cbn [negb orb].
  rewrite !stable_format, CompareVersions_stable by done. cbn [negb orb]. rewrite Z.leb_antisym.
  by destruct (_ <? 0).
Qed.

(** The version an installed candidate counts as. *)
Definition released (v : releaseVersion) : releaseVersion := mkVersion (rv_core v) 0.

Lemma installedVersion_format v : natural v → installedVersion (formatVersion v) = formatVersion (released v).
Proof.
  intros Hn. unfold installedVersion. rewrite formatVersion_no_v by done. destruct v as [[[a b] c] r].
  rewrite releaseSubmatch_format by done. unfold candidateText, released, formatVersion. cbn [rv_rc rv_core].
  destruct Hn as (_ & _ & _ & Hr). cbn [rv_rc] in Hr.
  destruct (Z.eqb_spec r 0); [done|]. destruct (format_nonempty r Hr) as (d & s & -> & _). done.
Qed.

(** An upgrade is offered exactly inside the declared range: for an
    installed version and a range of stable versions, the answer is whether
    the numbers of the installed version, those of a candidate counting as its
    release, are at least the lower bound and below the upper one, and a range
    that is empty is refused; a range that is accepted has this form. *)
Theorem SupportsUpgrade_spec :
  (∀ v low high, version_range v → version_range low → version_range high → rv_rc low = 0 → rv_rc high = 0 →
     SupportsUpgrade (formatVersion v) (rangeText low high) =
       if compareCore (coreList low) (coreList high) <? 0
       then Ok ((0 <=? compareCore (coreList v) (coreList low)) && (compareCore (coreList v) (coreList high) <? 0))
       else Err EmptyRange) ∧
  (∀ value bounds, ParseUpgradeRange value = Ok bounds →
     ∃ low high, version_range low ∧ version_range high ∧ rv_rc low = 0 ∧ rv_rc high = 0 ∧
       compareCore (coreList low) (coreList high) < 0 ∧ value = rangeText low high ∧
       bounds = (formatVersion low, formatVersion high)).
Proof.
  split.
  - intros v low high Hv Hl Hh Rl Rh. unfold SupportsUpgrade. rewrite ParseUpgradeRange_format by done.
    destruct (_ <? 0); [|done]. cbn [res_bind fst snd]. rewrite installedVersion_format by by apply version_range_natural.
    assert (version_range (released v)) as Hr by (destruct v as [[[a b] c] r]; unfold version_range in *; simpl in *; lia).
    rewrite !CompareVersions_stable by done. by destruct v as [[[a b] c] r].
  - intros value bounds. unfold ParseUpgradeRange. pose proof (str_join_split " " value) as Hv.
    destruct (split_byte " " value) as [|low [|high [|? ?]]]; try done.
    destruct (has_prefix ">=" low) eqn:Hl; [|done]. destruct (has_prefix "<" high) eqn:Hh; [|done].
    apply has_prefix_spec in Hl as [lo ->], Hh as [hi ->]. rewrite !trim_prefix_app. cbn [negb orb].
    destruct (ValidStableVersion lo) eqn:Sl; [|done]. destruct (ValidStableVersion hi) eqn:Sh; [|done]. cbn [negb orb].
    apply stable_ok in Sl as (low & Nl & Rl & ->), Sh as (high & Nh & Rh & ->).
    destruct (CompareVersions _ _) as [x|] eqn:Hc; [|done]. destruct (Z.leb_spec 0 x); [done|]. intros [= <-].
    pose proof Hc as Hc'. unfold CompareVersions in Hc. apply res_bind_ok in Hc as (pl & Hpl & Hc).
    apply res_bind_ok in Hc as (ph & Hph & _).
    assert (∀ v p, natural v → versionParts (formatVersion v) = Ok p → v = p ∧ version_range v) as Hsame.
    { intros v p Nv Hp. pose proof (versionParts_ok _ _ Hp) as [? _]. rewrite versionParts_format in Hp by done.
      destruct (forallb _ _); [|done]. injection Hp as ->. done. }
    apply Hsame in Hpl as [_ Vl], Hph as [_ Vh]; [|done..]. exists low, high.
    rewrite CompareVersions_stable in Hc' by done. injection Hc' as ->. split_and!; try done.
Qed.

(** * Evaluated *)

Example compare_versions :
  (CompareVersions "v1.2.3" "1.10.0", CompareVersions "1.2.3-rc.9" "1.2.3", CompareVersions "1.2.3-rc.10" "1.2.3-rc.9",
   CompareVersions "1.02.3" "1.2.3", CompareVersions "1.2.18446744073709551616" "1.2.3") =
  (Ok (-1), Ok (-1), Ok 1, Err InvalidVersion, Err VersionRange).
Proof. vm_compute. reflexivity. Qed.

Example supports_upgrade :
  (SupportsUpgrade "v1.4.0-rc.2" ">=1.4.0 <2.0.0", SupportsUpgrade "2.0.0" ">=1.4.0 <2.0.0",
   SupportsUpgrade "1.5.0" ">=2.0.0 <1.4.0") = (Ok true, Ok false, Err EmptyRange).
Proof. vm_compute. reflexivity. Qed.
