(* ===== verification/Releases.v ===== *)
(** Platform releases: the manifest of a release, the checker of the public
    release source, the release cache and the service that answers for the
    latest release - [internal/releases/releases.go], [github.go] and
    [valkey.go].

    An HTTP exchange, the reachability of Valkey and [encoding/json] are
    parameters ([HTTPClient], [LatestCall], [ReleaseJSON]).  A body that cannot
    be read is [None].  The theorems are in ReleaseSafety. *)

From S2P Require Import Prelude Regexp GoStrings Digest Encoding Versions Effects.
From Stdlib Require Import Ascii.

Open Scope Z_scope.

(** * The manifest: [internal/domain/models.go] *)

Record ManifestRelease := mkManifestRelease {
  mr_Tag : string;
  mr_Version : string;
  mr_CreatedAt : Time;
  mr_NotesURL : string;
  mr_Summary : string;
  mr_BreakingChanges : bool;
}.

Record ManifestSource := mkManifestSource {
  ms_Repository : string;
  ms_Commit : string;
}.

Record ManifestVersions := mkManifestVersions {
  mv_Kuberploy : string;
  mv_API : string;
  mv_Worker : string;
  mv_Web : string;
  mv_Migration : string;
  mv_Upgrader : string;
  mv_BuilderAgent : string;
  mv_Chart : string;
}.

Record KubernetesCompatibility := mkKubernetesCompatibility {
  kc_Constraint : string;
  kc_TestedMinors : list string;
}.

Record DatabaseCompatibility := mkDatabaseCompatibility {
  dc_Engine : string;
  dc_CurrentSchema : string;
  dc_MinimumUpgradeableSchema : string;
  dc_MigrationSetSHA256 : string;
  dc_Strategy : string;
  dc_RollbackPolicy : string;
}.

Record ReleaseCompatibility := mkReleaseCompatibility {
  rc_SupportedUpgradeFrom : string;
  rc_Kubernetes : KubernetesCompatibility;
  rc_Database : DatabaseCompatibility;
}.

Record ManifestImage := mkManifestImage {
  mi_Component : string;
  mi_Reference : string;
  mi_Digest : string;
  mi_Platforms : list string;
}.

Record ManifestChart := mkManifestChart {
  mc_Name : string;
  mc_Version : string;
  mc_OCIReference : string;
  mc_OCIDigest : string;
  mc_Package : string;
  mc_PackageSHA256 : string;
}.

Record ManifestArtifacts := mkManifestArtifacts {
  ma_Images : list ManifestImage;
  ma_Chart : ManifestChart;
  ma_ComponentCharts : list ManifestChart;
}.

Record ManifestDependencyLock := mkDependencyLock {
  dl_File : string;
  dl_SHA256 : string;
}.

Record ReleaseManifest := mkReleaseManifest {
  rm_Schema : string;
  rm_SchemaVersion : string;
  rm_Release : ManifestRelease;
  rm_Source : ManifestSource;
  rm_Versions : ManifestVersions;
  rm_Compatibility : ReleaseCompatibility;
  rm_Artifacts : ManifestArtifacts;
  rm_DependencyLock : ManifestDependencyLock;
}.

Record ReleaseInfo := mkReleaseInfo {
  rl_Tag : string;
  rl_Version : string;
  rl_ManifestDigest : string;
  rl_Manifest : ReleaseManifest;
  rl_ManifestBytes : string;
  rl_PublishedAt : Time;
}.

(** * Its validation *)

Inductive ManifestErr : Set :=
| MfSchemaVersion | MfVersion | MfSource | MfSchema | MfNotesURL | MfSummary | MfUpgrader
| MfComponentVersion | MfRange (e : VersionErr) | MfKubernetes | MfDatabase | MfImageCount | MfImage
| MfChart | MfChartCount | MfComponentChart | MfLock
| MfBytes | MfMismatch | MfDecode.

Definition ManifestDigestValid (v : string) : bool := re_match digest_re v.

(** The versions of the components, less the map that names them in errors. *)
Definition componentVersions (m : ReleaseManifest) : list string :=
  let v := rm_Versions m in
  [mv_Kuberploy v; mv_API v; mv_Worker v; mv_Web v; mv_Migration v; mv_BuilderAgent v; mv_Chart v] ++
  if String.eqb (rm_SchemaVersion m) "1.0.0" then [mv_Upgrader v] else [].

Definition wantedComponents (m : ReleaseManifest) : list string :=
  if String.eqb (rm_SchemaVersion m) "1.0.0"
  then ["api"; "worker"; "web"; "migration"; "upgrader"; "builder-agent"]
  else ["api"; "worker"; "web"; "migration"; "builder-agent"].

Definition wantedCharts : list string :=
  ["kuberploy-argocd"; "kuberploy-installer"; "kuberploy-builder"; "kuberploy-cert-manager"; "kuberploy-edge";
   "kuberploy-external-dns"; "kuberploy-external-secrets"; "kuberploy-monitoring"; "kuberploy-postgresql";
   "kuberploy-registry"; "kuberploy-runtime"; "kuberploy-sealed-secrets"; "kuberploy-valkey"].

Definition databaseValid (d : DatabaseCompatibility) : bool :=
  negb (negb (String.eqb (dc_Engine d) "postgresql") || negb (re_match schema_name_re (dc_CurrentSchema d)) ||
        negb (re_match schema_name_re (dc_MinimumUpgradeableSchema d)) ||
        str_less (dc_CurrentSchema d) (dc_MinimumUpgradeableSchema d) ||
        negb (re_match digest_re (dc_MigrationSetSHA256 d)) ||
        negb (String.eqb (dc_Strategy d) "prisma-migrate-deploy-with-advisory-lock") ||
        (str_len (dc_RollbackPolicy d) <? 20) || (512 <? str_len (dc_RollbackPolicy d))).

Definition imageValid (component : string) (image : ManifestImage) : bool :=
  String.eqb (mi_Component image) component &&
  String.eqb (mi_Reference image) ("ghcr.io/kuberploy/kuberploy-" +:+ component) &&
  re_match digest_re (mi_Digest image) && strs_eqb (mi_Platforms image) ["linux/amd64"; "linux/arm64"].

Definition chartValid (name version reference : string) (chart : ManifestChart) : bool :=
  String.eqb (mc_Name chart) name && String.eqb (mc_Version chart) version &&
  String.eqb (mc_OCIReference chart) (reference +:+ ":" +:+ version) &&
  re_match digest_re (mc_OCIDigest chart) &&
  String.eqb (mc_Package chart) (name +:+ "-" +:+ version +:+ ".tgz") &&
  re_match digest_re (mc_PackageSHA256 chart).

(** The loops over the images and the component charts. *)
Fixpoint all2 {A B} (f : A → B → bool) (l : list A) (k : list B) : bool :=
  match l, k with
  | [], [] => true
  | a :: l', b :: k' => f a b && all2 f l' k'
  | _, _ => false
  end.

Definition kubernetesConstraint : string := ">=1.34.0-0 <1.37.0-0".

Definition ValidateManifest (m : ReleaseManifest) : res ManifestErr unit :=
  let release := rm_Release m in
  let version := mr_Version release in
  let artifacts := rm_Artifacts m in
  let chartsRoot := "ghcr.io/kuberploy/charts/" in
  guard! String.eqb (rm_SchemaVersion m) "1.0.0" || String.eqb (rm_SchemaVersion m) "2.0.0" else MfSchemaVersion in
  guard! ValidReleaseVersion version && String.eqb (mr_Tag release) ("v" +:+ version) &&
         negb (is_zero_time (mr_CreatedAt release)) else MfVersion in
  guard! String.eqb (ms_Repository (rm_Source m)) "kuberploy/kuberploy" &&
         re_match commit_re (ms_Commit (rm_Source m)) else MfSource in
  guard! String.eqb (rm_Schema m) ("https://raw.githubusercontent.com/kuberploy/kuberploy/" +:+
         ms_Commit (rm_Source m) +:+ "/release/release-manifest.schema.json") else MfSchema in
  guard! String.eqb (mr_NotesURL release) ("https://github.com/kuberploy/kuberploy/releases/tag/" +:+ mr_Tag release)
         else MfNotesURL in
  guard! (1 <=? str_len (mr_Summary release)) && (str_len (mr_Summary release) <=? 500) else MfSummary in
  guard! String.eqb (rm_SchemaVersion m) "1.0.0" || String.eqb (mv_Upgrader (rm_Versions m)) "" else MfUpgrader in
  guard! forallb (fun v => String.eqb v version) (componentVersions m) else MfComponentVersion in
  let* _ := match ParseUpgradeRange (rc_SupportedUpgradeFrom (rm_Compatibility m)) with
            | Ok _ => Ok tt
            | Err e => Err (MfRange e)
            end in
  let kubernetes := rc_Kubernetes (rm_Compatibility m) in
  guard! String.eqb (kc_Constraint kubernetes) kubernetesConstraint &&
         strs_eqb (kc_TestedMinors kubernetes) ["1.34"; "1.35"; "1.36"] else MfKubernetes in
  guard! databaseValid (rc_Database (rm_Compatibility m)) else MfDatabase in
  guard! (length (ma_Images artifacts) =? length (wantedComponents m))%nat else MfImageCount in
  guard! all2 imageValid (wantedComponents m) (ma_Images artifacts) else MfImage in
  guard! chartValid "kuberploy" version (chartsRoot +:+ "kuberploy") (ma_Chart artifacts) else MfChart in
  guard! (length (ma_ComponentCharts artifacts) =? length wantedCharts)%nat else MfChartCount in
  guard! all2 (fun name => chartValid name version (chartsRoot +:+ name)) wantedCharts (ma_ComponentCharts artifacts)
         else MfComponentChart in
  guard! String.eqb (dl_File (rm_DependencyLock m)) "DEPENDENCIES.md" &&
         re_match digest_re (dl_SHA256 (rm_DependencyLock m)) else MfLock in
  Ok tt.

(** * Decoding: parameters *)

Record githubAsset := mkAsset {
  as_ID : Z;
  as_Name : string;
  as_State : string;
  as_Size : Z;
  as_Digest : string;
}.

Record githubRelease := mkGitHubRelease {
  gr_TagName : string;
  gr_Draft : bool;
  gr_Prerelease : bool;
  gr_Immutable : bool;
  gr_PublishedAt : Time;
  gr_Assets : list githubAsset;
}.

(** [en_UTC]: both times are in UTC. *)
Record releaseCacheEnvelope := mkEnvelope {
  en_Schema : string;
  en_ManifestDigest : string;
  en_ManifestBytes : string;
  en_PublishedAt : Time;
  en_UpstreamETag : string;
  en_LastCheckedAt : Time;
  en_UTC : bool;
}.

(** [decodeManifest] and [decodeEnvelope] refuse unknown fields and anything
    after the one document. *)
Class ReleaseJSON : Type := {
  decodeManifest : string → option ReleaseManifest;
  decodeRelease : string → option githubRelease;
  decodeReleases : string → option (list githubRelease);
  decodeEnvelope : string → option releaseCacheEnvelope;
  encodeEnvelope : releaseCacheEnvelope → string;
}.

Definition maxReleaseBytes : Z := 1024 * 1024.
Definition maxManifestBytes : Z := 256 * 1024.

Definition bytesDigest (body : string) : string := "sha256:" +:+ hex_encode (sha256 (string_bytes body)).

Definition ParseExactManifest `{ReleaseJSON} (body expectedDigest : string) : res ManifestErr ReleaseManifest :=
  if (str_len body =? 0) || (maxManifestBytes <? str_len body) || negb (ManifestDigestValid expectedDigest)
  then Err MfBytes
  else if negb (String.eqb (bytesDigest body) expectedDigest) then Err MfMismatch
  else match decodeManifest body with
  | None => Err MfDecode
  | Some manifest => let* _ := ValidateManifest manifest in Ok manifest
  end.

(** * The checker: [GitHubChecker] *)

Record HTTPResponse := mkResponse {
  hr_StatusCode : Z;
  hr_ETag : string;
  hr_Body : option string;
}.

(** A GET of a URL with an [If-None-Match] header, empty when it is not sent;
    [None] is an error of transport. *)
Definition HTTPClient : Type := string → string → option HTTPResponse.

Inductive ReleaseErr : Set :=
| ErrNotModified | ErrNoStableRelease
| RlFetch | RlStatus (code : Z) | RlRead | RlDecode
| RlUnpublished | RlManyAssets | RlAsset | RlLength | RlDigest | RlTagMismatch
| RlManifest (e : ManifestErr)
| RlCache.

(** There is a release unless nothing was modified. *)
Record FetchResult := mkFetch {
  fr_Release : option ReleaseInfo;
  fr_ETag : string;
  fr_NotModified : bool;
}.

Definition latestReleaseURL : string := "https://api.github.com/repos/kuberploy/kuberploy/releases/latest".
Definition releaseListURL : string := "https://api.github.com/repos/kuberploy/kuberploy/releases?per_page=100".
Definition assetURL (id : Z) : string :=
  "https://api.github.com/repos/kuberploy/kuberploy/releases/assets/" +:+ format_int id.
Definition manifestAsset : string := "release-manifest.json".

Definition readBounded (body : option string) (max : Z) : res ReleaseErr string :=
  match body with
  | None => Err RlRead
  | Some body =>
      let read := str_take (Z.to_nat (max + 1)) body in
      if max <? str_len read then Err RlRead else Ok read
  end.

(** The loop over the assets. *)
Fixpoint findManifest (assets : list githubAsset) (found : option githubAsset) : res ReleaseErr (option githubAsset) :=
  match assets with
  | [] => Ok found
  | asset :: rest =>
      if String.eqb (as_Name asset) manifestAsset then
        match found with
        | Some _ => Err RlManyAssets
        | None => findManifest rest (Some asset)
        end
      else findManifest rest found
  end.

Definition assetValid (asset : githubAsset) : bool :=
  negb ((as_ID asset <=? 0) || negb (String.eqb (as_State asset) "uploaded") || (as_Size asset <=? 0) ||
        (maxManifestBytes <? as_Size asset) || negb (ManifestDigestValid (as_Digest asset))).

Definition stableRelease (release : githubRelease) : bool :=
  negb (negb (ValidStableVersion (trim_prefix "v" (gr_TagName release))) || gr_Draft release ||
        gr_Prerelease release).

Definition manifestResult {A} (m : res ManifestErr A) : res ReleaseErr A :=
  match m with Ok a => Ok a | Err e => Err (RlManifest e) end.

Definition get (http : HTTPClient) (url etag : string) : res ReleaseErr HTTPResponse :=
  match http url etag with Some response => Ok response | None => Err RlFetch end.

Section checker.
Context `{ReleaseJSON} (http : HTTPClient).

Definition verifyStableRelease (release : githubRelease) (etag : string) : res ReleaseErr FetchResult :=
  let version := trim_prefix "v" (gr_TagName release) in
  guard! gr_Immutable release && negb (is_zero_time (gr_PublishedAt release)) else RlUnpublished in
  let* asset := findManifest (gr_Assets release) None in
  match asset with
  | None => Err RlAsset
  | Some asset =>
      guard! assetValid asset else RlAsset in
      let* response := get http (assetURL (as_ID asset)) "" in
      guard! hr_StatusCode response =? 200 else RlStatus (hr_StatusCode response) in
      let* manifestBytes := readBounded (hr_Body response) maxManifestBytes in
      guard! str_len manifestBytes =? as_Size asset else RlLength in
      let digest := bytesDigest manifestBytes in
      guard! String.eqb digest (as_Digest asset) else RlDigest in
      let* manifest := manifestResult (ParseExactManifest manifestBytes digest) in
      guard! String.eqb (mr_Version (rm_Release manifest)) version &&
             String.eqb (mr_Tag (rm_Release manifest)) (gr_TagName release) else RlTagMismatch in
      Ok (mkFetch (Some (mkReleaseInfo (gr_TagName release) version digest manifest manifestBytes
                           (gr_PublishedAt release))) etag false)
  end.

(** The first stable release of the list. *)
Definition latestStableFromList (etag : string) : res ReleaseErr FetchResult :=
  let* response := get http releaseListURL "" in
  guard! hr_StatusCode response =? 200 else RlStatus (hr_StatusCode response) in
  let* body := readBounded (hr_Body response) (maxReleaseBytes * 4) in
  match decodeReleases body with
  | None => Err RlDecode
  | Some releases =>
      match List.find stableRelease releases with
      | None => Err ErrNoStableRelease
      | Some release => verifyStableRelease release etag
      end
  end.

Definition GitHubLatest (cachedETag : string) : res ReleaseErr FetchResult :=
  let* response := get http latestReleaseURL cachedETag in
  if hr_StatusCode response =? 304 then Ok (mkFetch None cachedETag true)
  else if hr_StatusCode response =? 404 then latestStableFromList ""
  else
    guard! hr_StatusCode response =? 200 else RlStatus (hr_StatusCode response) in
    let* body := readBounded (hr_Body response) maxReleaseBytes in
    match decodeRelease body with
    | None => Err RlDecode
    | Some release =>
        if stableRelease release then verifyStableRelease release (hr_ETag response)
        else latestStableFromList (hr_ETag response)
    end.
End checker.

(** * The cache: [ValkeyCache] *)

Record Snapshot := mkSnapshot {
  sn_Release : ReleaseInfo;
  sn_UpstreamETag : string;
  sn_LastCheckedAt : Time;
}.

Definition releaseCacheSchema : string := "kuberploy.release-cache/v1".
Definition maxReleaseCacheBytes : Z := 512 * 1024.
Definition maximumReleaseCacheTTL : Duration := 10 * minute.

Definition etagValid (etag : string) : bool := (str_len etag <=? 512) && negb (contains_any crlf_nul etag).

(** The times of a snapshot are in UTC: the service and the checker convert
    them, and the cache keeps only those that are. *)
Definition encodeReleaseCache `{ReleaseJSON} (snapshot : Snapshot) : res ReleaseErr string :=
  let release := sn_Release snapshot in
  let* manifest := manifestResult (ParseExactManifest (rl_ManifestBytes release) (rl_ManifestDigest release)) in
  if negb (String.eqb (rl_Tag release) (mr_Tag (rm_Release manifest))) ||
     negb (String.eqb (rl_Version release) (mr_Version (rm_Release manifest))) ||
     is_zero_time (rl_PublishedAt release) || is_zero_time (sn_LastCheckedAt snapshot) ||
     negb (etagValid (sn_UpstreamETag snapshot)) then Err RlCache
  else
    let encoded := encodeEnvelope (mkEnvelope releaseCacheSchema (rl_ManifestDigest release)
      (rl_ManifestBytes release) (rl_PublishedAt release) (sn_UpstreamETag snapshot) (sn_LastCheckedAt snapshot) true) in
    if maxReleaseCacheBytes <? str_len encoded then Err RlCache else Ok encoded.

Definition decodeReleaseCache `{ReleaseJSON} (encoded : string) (now : Time) : res ReleaseErr Snapshot :=
  if (str_len encoded =? 0) || (maxReleaseCacheBytes <? str_len encoded) then Err RlCache
  else match decodeEnvelope encoded with
  | None => Err RlCache
  | Some envelope =>
      if negb (String.eqb (en_Schema envelope) releaseCacheSchema) || is_zero_time (en_PublishedAt envelope) ||
         is_zero_time (en_LastCheckedAt envelope) || negb (en_UTC envelope) ||
         negb (etagValid (en_UpstreamETag envelope)) then Err RlCache
      else if is_zero_time now || (now + minute <? en_LastCheckedAt envelope) ||
              (now + minute <? en_PublishedAt envelope) then Err RlCache
      else
        let* manifest := manifestResult (ParseExactManifest (en_ManifestBytes envelope) (en_ManifestDigest envelope)) in
        Ok (mkSnapshot (mkReleaseInfo (mr_Tag (rm_Release manifest)) (mr_Version (rm_Release manifest))
              (en_ManifestDigest envelope) manifest (en_ManifestBytes envelope) (en_PublishedAt envelope))
            (en_UpstreamETag envelope) (en_LastCheckedAt envelope))
  end.

(** The value under the cache's key, [None] when there is none.  [Load] returns
    the snapshot, when there is one, and deletes a value that does not decode;
    [lc_*] say whether Valkey answers. *)
Record LatestCall := mkLatestCall {
  lc_now : Time;
  lc_cacheNow : Time;
  lc_get : bool;
  lc_del : bool;
  lc_set : bool;
  lc_http : HTTPClient;
}.

Section service.
Context `{ReleaseJSON}.

Definition cacheLoad (call : LatestCall) (cache : option string) : option string * option Snapshot :=
  if negb (lc_get call) then (cache, None)
  else match cache with
  | None => (cache, None)
  | Some encoded =>
      match decodeReleaseCache encoded (lc_cacheNow call) with
      | Ok snapshot => (cache, Some snapshot)
      | Err _ => (if lc_del call then None else cache, None)
      end
  end.

Definition cacheStore (call : LatestCall) (cache : option string) (snapshot : Snapshot) (ttl : Duration)
    : option string :=
  if (ttl <? second) || (maximumReleaseCacheTTL <? ttl) then cache
  else match encodeReleaseCache snapshot with
  | Err _ => cache
  | Ok encoded => if lc_set call then Some encoded else cache
  end.

(** * The service *)

(** [Service]: its own snapshot and what is in the cache, if it has one. *)
Record ReleaseState := mkReleaseState {
  rs_local : option Snapshot;
  rs_cache : option (option string);
}.

Definition fresh (now : Time) (ttl : Duration) (snapshot : Snapshot) : bool :=
  time_sub now (sn_LastCheckedAt snapshot) <? ttl.

Definition serviceTTL (ttl : Duration) : Duration := if ttl <=? 0 then 30 * second else ttl.

(** What a fetch makes of the snapshot. *)
Definition refreshed (local : option Snapshot) (result : FetchResult) (now : Time) : res ReleaseErr Snapshot :=
  match fr_NotModified result, fr_Release result with
  | true, _ | false, None =>
      match local with
      | None => Err ErrNotModified
      | Some snapshot => Ok (mkSnapshot (sn_Release snapshot) (sn_UpstreamETag snapshot) now)
      end
  | false, Some release => Ok (mkSnapshot release (fr_ETag result) now)
  end.

(** The end of [Latest]: asks the source, and keeps and caches its answer. *)
Definition fetchLatest (ttl : Duration) (call : LatestCall) : op ReleaseState ReleaseErr Snapshot := fun s =>
  let etag := match rs_local s with Some local => sn_UpstreamETag local | None => "" end in
  match (let* result := GitHubLatest (lc_http call) etag in refreshed (rs_local s) result (lc_now call)) with
  | Err e => (s, Err e)
  | Ok snapshot =>
      (mkReleaseState (Some snapshot)
         ((fun cache => cacheStore call cache snapshot ttl) <$> rs_cache s), Ok snapshot)
  end.

Definition Latest (ttl : Duration) (call : LatestCall) : op ReleaseState ReleaseErr Snapshot := fun s =>
  match rs_local s, rs_cache s with
  | Some local, _ => if fresh (lc_now call) ttl local then (s, Ok local) else fetchLatest ttl call s
  | None, None => fetchLatest ttl call s
  | None, Some cache =>
      match cacheLoad call cache with
      | (cache', None) => fetchLatest ttl call (mkReleaseState None (Some cache'))
      | (cache', Some cached) =>
          let s' := mkReleaseState (Some cached) (Some cache') in
          if fresh (lc_now call) ttl cached then (s', Ok cached) else fetchLatest ttl call s'
      end
  end.

(** A run of the service: calls, and whatever happens to the cache. *)
Inductive ReleaseEvent : Type :=
| RlCall (call : LatestCall)
| RlCacheChanged (value : option string).

Definition releaseStep (ttl : Duration) (s : ReleaseState) (ev : ReleaseEvent) : ReleaseState :=
  match ev with
  | RlCall call => (Latest ttl call s).1
  | RlCacheChanged value => mkReleaseState (rs_local s) ((fun _ => value) <$> rs_cache s)
  end.

Definition releaseRun (ttl : Duration) (s : ReleaseState) (evs : list ReleaseEvent) : ReleaseState :=
  foldl (releaseStep ttl) s evs.
End service.
