(* ===== verification/ReleaseSafety.v ===== *)
(** The guarantees of the release service: what it answers is an exact,
    validated manifest that is fresh, what the checker fetches is the only
    manifest of an immutable stable release, and how far the cache is trusted. *)

From S2P Require Import Prelude Regexp GoStrings Digest Encoding Versions Effects Releases.
From Stdlib Require Import Ascii.

Open Scope Z_scope.

#[local] Opaque sha256 hex_encode ValidateManifest.

(** * Exact releases *)

(** The manifest of a release is what its bytes decode to, the bytes have its
    digest, the manifest is valid and its tag and version are the release's. *)
Definition exact `{ReleaseJSON} (release : ReleaseInfo) : Prop :=
  bytesDigest (rl_ManifestBytes release) = rl_ManifestDigest release ∧
  decodeManifest (rl_ManifestBytes release) = Some (rl_Manifest release) ∧
  ValidateManifest (rl_Manifest release) = Ok tt ∧
  rl_Tag release = mr_Tag (rm_Release (rl_Manifest release)) ∧
  rl_Version release = mr_Version (rm_Release (rl_Manifest release)).

Section exact.
Context `{ReleaseJSON}.

Lemma ParseExactManifest_ok body digest manifest :
  ParseExactManifest body digest = Ok manifest →
  bytesDigest body = digest ∧ decodeManifest body = Some manifest ∧ ValidateManifest manifest = Ok tt ∧
  1 ≤ str_len body ≤ maxManifestBytes.
Proof.
  unfold ParseExactManifest. intros Hp. case_match eqn:Hlen; [done|]. case_match eqn:Hd; [done|]. bool_prop.
  destruct (decodeManifest body) as [m|]; [|done]. apply res_bind_ok in Hp as ([] & Hv & [= <-]).
  pose proof (str_len_nonneg body). split_and!; try done; lia.
Qed.

Lemma manifestResult_ok {A} (m : res ManifestErr A) a : manifestResult m = Ok a → m = Ok a.
Proof. destruct m; simpl; [by intros [= ->]|done]. Qed.

Lemma decodeReleaseCache_exact encoded now snapshot :
  decodeReleaseCache encoded now = Ok snapshot → exact (sn_Release snapshot).
Proof.
  unfold decodeReleaseCache. intros Hd. case_match; [done|]. destruct (decodeEnvelope encoded) as [e|]; [|done].
  case_match; [done|]. case_match; [done|]. apply res_bind_ok in Hd as (m & Hm & [= <-]).
  apply manifestResult_ok, ParseExactManifest_ok in Hm as (? & ? & ? & _). by split_and!.
Qed.

(** ** What the checker verified *)

Lemma findManifest_spec assets : ∀ found out,
  findManifest assets found = Ok out →
  match found with
  | Some _ => List.filter (fun a => String.eqb (as_Name a) manifestAsset) assets = [] ∧ out = found
  | None => List.filter (fun a => String.eqb (as_Name a) manifestAsset) assets = match out with Some a => [a] | None => [] end
  end.
Proof.
  induction assets as [|a assets IH]; intros found out; simpl; [by destruct found; intros [= <-]|].
  destruct (String.eqb (as_Name a) manifestAsset); [|apply IH]. destruct found; [done|].
  intros [-> ->]%IH. done.
Qed.

Definition manifestAssets (release : githubRelease) : list githubAsset :=
  List.filter (fun a => String.eqb (as_Name a) manifestAsset) (gr_Assets release).

(** [verified http release r]: the release [r] is the published, immutable and
    stable [release] of the source, and its bytes are those of its only
    manifest asset, with the size and the digest that are recorded for it. *)
Definition verified (http : HTTPClient) (release : githubRelease) (r : ReleaseInfo) : Prop :=
  stableRelease release = true ∧ gr_Immutable release = true ∧ gr_PublishedAt release ≠ zero_time ∧
  rl_Tag r = gr_TagName release ∧ rl_Version r = trim_prefix "v" (gr_TagName release) ∧
  ∃ asset response, manifestAssets release = [asset] ∧
    as_State asset = "uploaded" ∧ as_Size asset ≤ maxManifestBytes ∧
    http (assetURL (as_ID asset)) "" = Some response ∧ hr_StatusCode response = 200 ∧
    hr_Body response = Some (rl_ManifestBytes r) ∧ str_len (rl_ManifestBytes r) = as_Size asset ∧
    rl_ManifestDigest r = as_Digest asset.

Lemma readBounded_ok body max read :
  readBounded body max = Ok read → 0 ≤ max → body = Some read ∧ str_len read ≤ max.
Proof.
  unfold readBounded. destruct body as [body|]; [|done]. cbv zeta. case_match eqn:Hlen; [done|].
  intros [= <-] Hm. bool_prop. rewrite str_take_short in *; [done|unfold str_len in *; lia..].
Qed.

Lemma get_ok http url etag response : get http url etag = Ok response → http url etag = Some response.
Proof. unfold get. destruct (http url etag); [by intros [= ->]|done]. Qed.

Lemma verifyStableRelease_ok http release etag f :
  stableRelease release = true → verifyStableRelease http release etag = Ok f →
  ∃ r, f = mkFetch (Some r) etag false ∧ exact r ∧ verified http release r.
Proof.
  intros Hst Hv. unfold verifyStableRelease in Hv. apply guard_ok in Hv as [Hpub Hv].
  apply res_bind_ok in Hv as ([asset|] & Hf%findManifest_spec & Hv); [|done].
  apply guard_ok in Hv as [Hasset Hv]. apply res_bind_ok in Hv as (response & Hget%get_ok & Hv).
  apply guard_ok in Hv as [Hstatus Hv]. apply res_bind_ok in Hv as (bytes & Hread & Hv).
  apply readBounded_ok in Hread as [Hbody Hlen]; [|done].
  apply guard_ok in Hv as [Hsize Hv]. apply guard_ok in Hv as [Hdigest Hv].
  apply res_bind_ok in Hv as (m & Hm%manifestResult_ok%ParseExactManifest_ok & Hv).
  apply guard_ok in Hv as [Htag [= <-]]. destruct Hm as (_ & Hdec & Hval & _).
  unfold assetValid in Hasset. apply negb_true_iff in Hasset. bool_prop.
  eexists. split; [done|]. split; [by split_and!|]. split_and!; try done; [by apply Z.eqb_neq|].
  exists asset, response. by split_and!.
Qed.

(** The release the source announced as its latest. *)
Definition announced (http : HTTPClient) (etag : string) (release : githubRelease) : Prop :=
  (∃ response body, http latestReleaseURL etag = Some response ∧ hr_Body response = Some body ∧
     decodeRelease body = Some release) ∨
  (∃ response body releases, http releaseListURL "" = Some response ∧ hr_Body response = Some body ∧
     decodeReleases body = Some releases ∧ List.find stableRelease releases = Some release).

Lemma latestStableFromList_ok http etag etag' f :
  latestStableFromList http etag' = Ok f →
  ∃ r release, f = mkFetch (Some r) etag' false ∧ exact r ∧ verified http release r ∧ announced http etag release.
Proof.
  unfold latestStableFromList. intros Hl. apply res_bind_ok in Hl as (response & Hget%get_ok & Hl).
  apply guard_ok in Hl as [_ Hl]. apply res_bind_ok in Hl as (body & Hread & Hl).
  apply readBounded_ok in Hread as [Hbody _]; [|done]. destruct (decodeReleases body) as [releases|] eqn:Hd; [|done].
  destruct (List.find stableRelease releases) as [release|] eqn:Hf; [|done].
  pose proof (find_some _ _ Hf) as [_ Hst].
  apply verifyStableRelease_ok in Hl as (r & -> & He & Hv); [|done].
  exists r, release. split_and!; [done..|]. right. by exists response, body, releases.
Qed.

Lemma GitHubLatest_ok http etag f :
  GitHubLatest http etag = Ok f →
  f = mkFetch None etag true ∨
  ∃ r release etag', f = mkFetch (Some r) etag' false ∧ exact r ∧ verified http release r ∧ announced http etag release.
Proof.
  unfold GitHubLatest. intros Hl. apply res_bind_ok in Hl as (response & Hget%get_ok & Hl).
  destruct (hr_StatusCode response =? 304); [left; congruence|]. right.
  destruct (hr_StatusCode response =? 404).
  { apply (latestStableFromList_ok http etag) in Hl as (r & release & ? & ?). by exists r, release, "". }
  apply guard_ok in Hl as [_ Hl]. apply res_bind_ok in Hl as (body & Hread & Hl).
  apply readBounded_ok in Hread as [Hbody _]; [|done]. destruct (decodeRelease body) as [release|] eqn:Hd; [|done].
  destruct (stableRelease release) eqn:Hst.
  - apply verifyStableRelease_ok in Hl as (r & -> & He & Hv); [|done].
    exists r, release, (hr_ETag response). split_and!; [done..|]. left. by exists response, body.
  - apply (latestStableFromList_ok http etag) in Hl as (r & release' & ? & ?). by exists r, release', (hr_ETag response).
Qed.

(** What the checker fetches is authentic: a release it returns is one the
    source announced, published, immutable, neither a draft nor a candidate;
    its manifest is the answer to the download of the only manifest asset of
    that release, with the size and the SHA-256 digest recorded for the asset,
    decoded from exactly those bytes and valid for that tag and version. *)
Theorem checker_verified http etag f r :
  GitHubLatest http etag = Ok f → fr_Release f = Some r →
  exact r ∧ ValidStableVersion (rl_Version r) = true ∧
  ∃ release, announced http etag release ∧ verified http release r.
Proof.
  intros [->|(r' & release & etag' & -> & He & Hv & Ha)]%GitHubLatest_ok Hr; [done|]. injection Hr as ->.
  split; [done|]. split; [|by exists release].
  destruct Hv as (Hst & _ & _ & _ & -> & _). unfold stableRelease in Hst. bool_prop. done.
Qed.

(** * The service *)

Definition exactSnapshot (local : option Snapshot) : Prop :=
  match local with Some snapshot => exact (sn_Release snapshot) | None => True end.

Lemma refreshed_exact local http etag f now snapshot :
  exactSnapshot local → GitHubLatest http etag = Ok f → refreshed local f now = Ok snapshot →
  exact (sn_Release snapshot) ∧ sn_LastCheckedAt snapshot = now.
Proof.
  intros Hl Hf Hr. apply GitHubLatest_ok in Hf as [->|(r & release & etag' & -> & He & _)]; simpl in Hr.
  - destruct local; [|done]. by injection Hr as <-.
  - by injection Hr as <-.
Qed.

(** A call keeps the service's own snapshot exact, and what it answers is
    exact and fresh. *)
Definition answers (ttl : Duration) (call : LatestCall) (out : ReleaseState * res ReleaseErr Snapshot) : Prop :=
  exactSnapshot (rs_local out.1) ∧
  ∀ snapshot, out.2 = Ok snapshot →
    exact (sn_Release snapshot) ∧
    (sn_LastCheckedAt snapshot = lc_now call ∨ time_sub (lc_now call) (sn_LastCheckedAt snapshot) < ttl).

Lemma fetchLatest_answers ttl call s : exactSnapshot (rs_local s) → answers ttl call (fetchLatest ttl call s).
Proof.
  intros Hs. unfold fetchLatest. destruct (res_bind _ _) as [snapshot|e] eqn:Hr; [|by split].
  apply res_bind_ok in Hr as (f & Hf & Hr). eapply refreshed_exact in Hr as [He Hat]; [|done..].
  split; [done|]. intros ? [= <-]. auto.
Qed.

Lemma fresh_answers ttl call s local :
  exactSnapshot (rs_local s) → exact (sn_Release local) → fresh (lc_now call) ttl local = true →
  answers ttl call (s, Ok local).
Proof. intros Hs Hl Hf%Z.ltb_lt. split; [done|]. intros ? [= <-]. auto. Qed.

Lemma Latest_exact ttl call s : exactSnapshot (rs_local s) → answers ttl call (Latest ttl call s).
Proof.
  intros Hs. unfold Latest. destruct s as [[local|] [cache|]]; cbn [rs_local rs_cache] in *.
  - destruct (fresh _ _ local) eqn:Hf; [by apply fresh_answers|by apply fetchLatest_answers].
  - destruct (fresh _ _ local) eqn:Hf; [by apply fresh_answers|by apply fetchLatest_answers].
  - destruct (cacheLoad call cache) as [cache' [cached|]] eqn:Hload; [|by apply fetchLatest_answers].
    assert (exact (sn_Release cached)) as Hc.
    { unfold cacheLoad in Hload. destruct (lc_get call); [|done]. destruct cache as [encoded|]; [|done]. cbn [negb] in Hload.
      destruct (decodeReleaseCache _ _) as [sn|] eqn:Hd; [|done]. injection Hload as <- <-.
      by eapply decodeReleaseCache_exact. }
    destruct (fresh _ _ cached) eqn:Hf; [by apply fresh_answers|by apply fetchLatest_answers].
  - by apply fetchLatest_answers.
Qed.

Lemma releaseRun_exact ttl evs : ∀ s, exactSnapshot (rs_local s) → exactSnapshot (rs_local (releaseRun ttl s evs)).
Proof.
  induction evs as [|ev evs IH]; intros s Hs; [done|]. apply IH. destruct ev as [call|value]; simpl; [|done].
  by apply Latest_exact.
Qed.

(** The service answers only with exact and fresh releases: starting
    without a snapshot of its own, after any calls and whatever is written to
    its cache in between, what it answers has a valid manifest that is decoded
    from bytes with the digest it gives, and was checked at the time of the
    call or less than the lifetime of a snapshot before. *)
Theorem release_service_exact ttl s evs call s' snapshot :
  rs_local s = None → Latest ttl call (releaseRun ttl s evs) = (s', Ok snapshot) →
  exact (sn_Release snapshot) ∧
  (sn_LastCheckedAt snapshot = lc_now call ∨ time_sub (lc_now call) (sn_LastCheckedAt snapshot) < ttl).
Proof.
  intros Hs Hl. pose proof (releaseRun_exact ttl evs s ltac:(by rewrite Hs)) as Hrun.
  apply (Latest_exact ttl call) in Hrun as [_ Hout]. apply Hout. by rewrite Hl.
Qed.

(** The cache is trusted for what the latest release is: a service without
    a snapshot that reads one from its cache, however old, keeps and answers
    it when the source says that nothing was modified since the tag that the
    cache itself gave - whether or not the source ever announced it. *)
Theorem cache_trusted ttl call encoded cached response :
  lc_get call = true → decodeReleaseCache encoded (lc_cacheNow call) = Ok cached →
  fresh (lc_now call) ttl cached = false →
  lc_http call latestReleaseURL (sn_UpstreamETag cached) = Some response → hr_StatusCode response = 304 →
  let kept := mkSnapshot (sn_Release cached) (sn_UpstreamETag cached) (lc_now call) in
  ∃ cache', Latest ttl call (mkReleaseState None (Some (Some encoded))) =
    (mkReleaseState (Some kept) (Some cache'), Ok kept).
Proof.
  intros Hget Hd Hf Hhttp Hst kept. unfold Latest, cacheLoad. cbn [rs_local rs_cache]. rewrite Hget. cbn [negb].
  rewrite Hd, Hf. unfold fetchLatest, GitHubLatest, get. cbn [rs_local rs_cache]. rewrite Hhttp. cbn [res_bind]. rewrite Hst.
  cbn [Z.eqb res_bind refreshed fr_NotModified fmap option_fmap option_map]. by eexists.
Qed.
End exact.

(** * Evaluated

    A release is fetched; a month later the cache of another service holds it,
    and the source says that nothing was modified. *)

Definition releaseCommit : string := "0123456789abcdef0123456789abcdef01234567".
Definition releaseDigest : string := "sha256:0123456789abcdef0123456789abcdef0123456789abcdef0123456789abcdef".

Definition sampleImage (component : string) : ManifestImage :=
  mkManifestImage component ("ghcr.io/kuberploy/kuberploy-" +:+ component) releaseDigest ["linux/amd64"; "linux/arm64"].

Definition sampleChart (name : string) : ManifestChart :=
  mkManifestChart name "1.4.0" ("ghcr.io/kuberploy/charts/" +:+ name +:+ ":1.4.0") releaseDigest
    (name +:+ "-1.4.0.tgz") releaseDigest.

Definition sampleManifest : ReleaseManifest :=
  mkReleaseManifest
    ("https://raw.githubusercontent.com/kuberploy/kuberploy/" +:+ releaseCommit +:+
     "/release/release-manifest.schema.json") "2.0.0"
    (mkManifestRelease "v1.4.0" "1.4.0" second "https://github.com/kuberploy/kuberploy/releases/tag/v1.4.0"
       "A release" false)
    (mkManifestSource "kuberploy/kuberploy" releaseCommit)
    (mkManifestVersions "1.4.0" "1.4.0" "1.4.0" "1.4.0" "1.4.0" "" "1.4.0" "1.4.0")
    (mkReleaseCompatibility ">=1.0.0 <2.0.0"
       (mkKubernetesCompatibility ">=1.34.0-0 <1.37.0-0" ["1.34"; "1.35"; "1.36"])
       (mkDatabaseCompatibility "postgresql" "042_releases" "001_init" releaseDigest
          "prisma-migrate-deploy-with-advisory-lock" "restore the backup taken before"))
    (mkManifestArtifacts (sampleImage <$> ["api"; "worker"; "web"; "migration"; "builder-agent"])
       (sampleChart "kuberploy") (sampleChart <$> wantedCharts))
    (mkDependencyLock "DEPENDENCIES.md" releaseDigest).

Example sampleManifest_valid : ValidateManifest sampleManifest = Ok tt.
Proof. vm_compute. reflexivity. Qed.

Definition releaseAnnounced : githubRelease :=
  mkGitHubRelease "v1.4.0" false false true second [mkAsset 7 manifestAsset "uploaded" 2 (bytesDigest "{}")].

Definition sampleEnvelope : releaseCacheEnvelope :=
  mkEnvelope releaseCacheSchema (bytesDigest "{}") "{}" second "etag" (2 * second) true.

Definition releaseJSON : ReleaseJSON := {|
  decodeManifest _ := Some sampleManifest;
  decodeRelease _ := Some releaseAnnounced;
  decodeReleases _ := None;
  decodeEnvelope _ := Some sampleEnvelope;
  encodeEnvelope _ := "envelope";
|}.

(** The source: not modified since the tag [etag]. *)
Definition sampleSource : HTTPClient := fun url ifNoneMatch =>
  if String.eqb url (assetURL 7) then Some (mkResponse 200 "" (Some "{}"))
  else if String.eqb ifNoneMatch "etag" then Some (mkResponse 304 "etag" (Some ""))
  else Some (mkResponse 200 "etag" (Some "release")).

Definition sampleLatest (now : Time) : LatestCall := mkLatestCall now now true true true sampleSource.

Definition emptyService : ReleaseState := mkReleaseState None (Some None).

Definition fetched : res ReleaseErr FetchResult := GitHubLatest (H := releaseJSON) sampleSource "".
Definition answered : ReleaseState * res ReleaseErr Snapshot :=
  Latest (H := releaseJSON) minute (sampleLatest (30 * second))
    (releaseRun (H := releaseJSON) minute emptyService [RlCall (sampleLatest (3 * second)); RlCacheChanged None]).

Definition cachedSnapshot : res ReleaseErr Snapshot := decodeReleaseCache (H := releaseJSON) "envelope" (500 * hour).

Lemma release_outcomes :
  match fetched with Ok f => bool_decide (is_Some (fr_Release f)) | Err _ => false end && is_ok answered.2 &&
  match cachedSnapshot with
  | Ok cached => String.eqb (sn_UpstreamETag cached) "etag" && negb (fresh (500 * hour) minute cached)
  | Err _ => false
  end = true.
Proof. vm_compute. reflexivity. Qed.

Lemma checker_verified_witness :
  ∃ f r, fetched = Ok f ∧ fr_Release f = Some r ∧ ValidStableVersion (rl_Version r) = true.
Proof.
  pose proof release_outcomes as Hok. apply andb_true_iff in Hok as [[Hf _]%andb_true_iff _].
  destruct fetched as [f|] eqn:E; [|discriminate Hf]. destruct (fr_Release f) as [r|] eqn:Hr; [|discriminate Hf].
  exists f, r. split; [reflexivity|]. split; [exact Hr|].
  exact (proj1 (proj2 (checker_verified (H := releaseJSON) sampleSource "" f r E Hr))).
Defined.

Lemma release_service_exact_witness :
  ∃ s' snapshot, answered = (s', Ok snapshot) ∧
    bytesDigest (rl_ManifestBytes (sn_Release snapshot)) = rl_ManifestDigest (sn_Release snapshot).
Proof.
  pose proof release_outcomes as Hok. apply andb_true_iff in Hok as [[_ Ha]%andb_true_iff _].
  destruct answered as [s' [snapshot|]] eqn:E; [|discriminate Ha].
  exists s', snapshot. split; [reflexivity|].
  exact (proj1 (proj1 (release_service_exact (H := releaseJSON) minute emptyService _ _ s' snapshot eq_refl E))).
Defined.

Lemma cache_trusted_witness :
  ∃ cached cache', cachedSnapshot = Ok cached ∧
    (Latest (H := releaseJSON) minute (sampleLatest (500 * hour)) (mkReleaseState None (Some (Some "envelope")))).1 =
      mkReleaseState (Some (mkSnapshot (sn_Release cached) (sn_UpstreamETag cached) (500 * hour))) (Some cache').
Proof.
  pose proof release_outcomes as Hok. apply andb_true_iff in Hok as [_ Hc].
  destruct cachedSnapshot as [cached|] eqn:E; [|discriminate Hc].
  apply andb_true_iff in Hc as [Htag%String.eqb_eq Hstale%negb_true_iff].
  destruct (cache_trusted (H := releaseJSON) minute (sampleLatest (500 * hour)) "envelope" cached
    (mkResponse 304 "etag" (Some "")) eq_refl E Hstale ltac:(rewrite Htag; reflexivity) eq_refl) as (cache' & Hl).
  exists cached, cache'. split; [reflexivity|]. by rewrite Hl.
Defined.
