(* ===== verification/GitHubState.v ===== *)
(** The signed state of the GitHub setup flow and its handoff tokens:
    [internal/githubapp/state.go].

    The secret, the random bytes and the clock are arguments of the operations;
    a secret reader or a random source that fails is [None].  The store that
    consumes a claim is an argument too ([ReplayClaimer], [HandoffConsumer]);
    [nil] is [None]. *)

From S2P Require Import Prelude Regexp GoStrings Digest Encoding BuildModel.
From Stdlib Require Import Ascii.

Open Scope Z_scope.

(** * Errors: [internal/githubapp/errors.go] *)

(** [FromClaimer] is an error of the claiming store, passed through. *)
Inductive GitHubErr : Set :=
| ErrSecretUnavailable | ErrInvalidState | ErrExpiredState | ErrStateReplay
| ErrInvalidHandoff | ErrExpiredHandoff | ErrInvalidWebhook | ErrWebhookTooLarge | ErrWebhookReplay
| FromClaimer (e : BuildErr).

(** * Unix time

    [time.Unix(sec, 0)] adds the seconds between the zero time and 1970 in an
    [int64]; [Unix] takes them off again. *)

Definition unixToInternal : Z := 62135596800.

Definition time_unix (sec : Z) : Time := i64 (sec + unixToInternal) * second.
Definition to_unix (t : Time) : Z := i64 (t / second - unixToInternal).
Definition truncate_second (t : Time) : Time := t - t mod second.

(** * Data *)

Definition opaque_id_re : regex :=
  let first := RClass (fun c => is_upper c || is_lower c || is_digit c) in
  let rest := RClass (fun c => is_upper c || is_lower c || is_digit c || is_one_of "._:-" c) in
  RSeq first (RRep 0 127 rest).

Definition return_key_re : regex :=
  RSeq (RClass is_lower) (RRep 0 63 (RClass (fun c => is_lower c || is_digit c || is_one_of "._-" c))).

Definition validOpaqueID (v : string) : bool := re_match opaque_id_re v.

Definition StatePurposeOAuth : string := "oauth".
Definition StatePurposeSetup : string := "setup".

Definition validPurpose (p : string) : bool :=
  String.eqb p StatePurposeOAuth || String.eqb p StatePurposeSetup.

Record StateRequest := mkStateRequest {
  sr_Purpose : string;
  sr_ActorID : string;
  sr_TeamID : string;
  sr_ExpectedAccountID : Z;
  sr_ReturnKey : string;
}.

Record StateExpectation := mkExpectation {
  se_Purpose : string;
  se_ActorID : string;
  se_TeamID : string;
}.

Record statePayload := mkPayload {
  sp_Version : Z;
  sp_Purpose : string;
  sp_ActorID : string;
  sp_TeamID : string;
  sp_ExpectedAccountID : Z;
  sp_ReturnKey : string;
  sp_Nonce : string;
  sp_IssuedAt : Z;
  sp_ExpiresAt : Z;
}.

Record VerifiedState := mkVerified {
  vs_Purpose : string;
  vs_ActorID : string;
  vs_TeamID : string;
  vs_ExpectedAccountID : Z;
  vs_ReturnKey : string;
  vs_IssuedAt : Time;
  vs_ExpiresAt : Time;
  vs_replay : OneTimeClaim;
}.

(** * The payload as JSON

    [json.Marshal] writes the fields in their order and leaves out the empty
    ones marked [omitempty].  The strings of a payload match the patterns of
    [validateStateRequest] or are base64, so none of their bytes is escaped
    ([payload_plain] below); the escapes of other bytes are not modelled.

    Decoding is [validateSingleJSON] and a decoder that refuses unknown fields,
    on top of [encoding/json]; it is a parameter. *)

Definition double_quote : string := String "034" "".

Definition json_string (s : string) : string := double_quote +:+ s +:+ double_quote.

Definition json_field (name value : string) : string := json_string name +:+ ":" +:+ value.

Definition marshalPayload (p : statePayload) : string :=
  let field name value := [json_field name value] in
  "{" +:+ str_join ","
    (field "v" (format_int (sp_Version p)) ++
     field "purpose" (json_string (sp_Purpose p)) ++
     field "actor_id" (json_string (sp_ActorID p)) ++
     (if String.eqb (sp_TeamID p) "" then [] else field "team_id" (json_string (sp_TeamID p))) ++
     (if sp_ExpectedAccountID p =? 0 then []
      else field "expected_account_id" (format_int (sp_ExpectedAccountID p))) ++
     field "return_key" (json_string (sp_ReturnKey p)) ++
     field "nonce" (json_string (sp_Nonce p)) ++
     field "iat" (format_int (sp_IssuedAt p)) ++
     field "exp" (format_int (sp_ExpiresAt p)))%list +:+ "}".

Class StateJSON : Type := { decodeClosedState : string → option statePayload }.

(** * Issuing and verifying a state *)

Definition validateStateRequest (request : StateRequest) : bool :=
  negb (negb (validPurpose (sr_Purpose request)) || negb (validOpaqueID (sr_ActorID request)) ||
        (negb (String.eqb (sr_TeamID request) "") && negb (validOpaqueID (sr_TeamID request))) ||
        (sr_ExpectedAccountID request <? 0) || negb (re_match return_key_re (sr_ReturnKey request))).

Definition signingKey (secret : option (list Z)) : res GitHubErr (list Z) :=
  match secret with
  | None => Err ErrSecretUnavailable
  | Some key =>
      if (Z.of_nat (length key) <? 32) || (4096 <? Z.of_nat (length key))
      then Err ErrSecretUnavailable else Ok key
  end.

Definition stateMAC (key : list Z) (encodedPayload : string) : list Z :=
  hmac_sha256 key (string_bytes "githubapp-state-v1." ++ string_bytes encodedPayload).

Definition issuedPayload (nonceBytes : list Z) (now : Time) (ttl : Duration) (request : StateRequest)
    : statePayload :=
  let now := truncate_second now in
  mkPayload 1 (sr_Purpose request) (sr_ActorID request) (sr_TeamID request)
    (sr_ExpectedAccountID request) (sr_ReturnKey request) (base64_encode nonceBytes)
    (to_unix now) (to_unix (now + ttl)).

(** [random] is the 32 bytes read, if they could be read. *)
Definition Issue (secret random : option (list Z)) (now : Time) (ttl : Duration)
    (request : StateRequest) : res GitHubErr string :=
  if negb (validateStateRequest request) then Err ErrInvalidState
  else match random with
  | None => Err ErrInvalidState
  | Some nonceBytes =>
      let payload := issuedPayload nonceBytes now ttl request in
      let body := base64_encode (string_bytes (marshalPayload payload)) in
      let* key := signingKey secret in
      Ok (body +:+ "." +:+ base64_encode (stateMAC key body))
  end.

Definition validateStatePayload (payload : statePayload) (expected : StateExpectation) (now : Time)
    (maxTTL : Duration) : res GitHubErr unit :=
  if negb (sp_Version payload =? 1) || negb (String.eqb (sp_Purpose payload) (se_Purpose expected)) ||
     negb (String.eqb (sp_ActorID payload) (se_ActorID expected)) ||
     negb (String.eqb (sp_TeamID payload) (se_TeamID expected)) ||
     negb (validateStateRequest (mkStateRequest (sp_Purpose payload) (sp_ActorID payload)
             (sp_TeamID payload) (sp_ExpectedAccountID payload) (sp_ReturnKey payload)))
  then Err ErrInvalidState
  else match base64_decode (sp_Nonce payload) with
  | None => Err ErrInvalidState
  | Some nonce =>
      if negb (length nonce =? 32)%nat then Err ErrInvalidState
      else
        let issued := time_unix (sp_IssuedAt payload) in
        let expires := time_unix (sp_ExpiresAt payload) in
        if negb (issued <? expires) || (time_sub expires issued <? minute) ||
           (maxTTL <? time_sub expires issued) || (now + 30 * second <? issued)
        then Err ErrInvalidState
        else if negb (now <? expires) then Err ErrExpiredState
        else Ok tt
  end.

(** The key under which a state is consumed. *)
Definition replayKey (purpose nonce : string) : string :=
  hex_encode (sha256 (string_bytes "githubapp-state-v1" ++ 0 :: string_bytes purpose ++ 0 :: string_bytes nonce)).

Definition verifiedState (payload : statePayload) : VerifiedState :=
  let expires := time_unix (sp_ExpiresAt payload) in
  mkVerified (sp_Purpose payload) (sp_ActorID payload) (sp_TeamID payload) (sp_ExpectedAccountID payload)
    (sp_ReturnKey payload) (time_unix (sp_IssuedAt payload)) expires
    (mkClaim "github-state" (replayKey (sp_Purpose payload) (sp_Nonce payload)) expires false).

Definition VerifyRaw `{StateJSON} (secret : option (list Z)) (now : Time) (ttl : Duration)
    (raw : string) (expected : StateExpectation) : res GitHubErr VerifiedState :=
  if negb (validPurpose (se_Purpose expected)) || negb (validOpaqueID (se_ActorID expected)) ||
     (negb (String.eqb (se_TeamID expected) "") && negb (validOpaqueID (se_TeamID expected)))
  then Err ErrInvalidState
  else if (str_len raw =? 0) || (4096 <? str_len raw) || negb (count_byte "." raw =? 1)
  then Err ErrInvalidState
  else
    let parts := split_once "." raw in
    if (str_len parts.1 =? 0) || (str_len parts.2 =? 0) then Err ErrInvalidState
    else match base64_decode parts.2 with
    | None => Err ErrInvalidState
    | Some supplied =>
        if negb (length supplied =? 32)%nat then Err ErrInvalidState
        else
          let* key := signingKey secret in
          if negb (bool_decide (stateMAC key parts.1 = supplied)) then Err ErrInvalidState
          else match base64_decode parts.1 with
          | None => Err ErrInvalidState
          | Some payloadBytes =>
              if (length payloadBytes =? 0)%nat || (2048 <? length payloadBytes)%nat
              then Err ErrInvalidState
              else match decodeClosedState (bytes_string payloadBytes) with
              | None => Err ErrInvalidState
              | Some payload =>
                  let* _ := validateStatePayload payload expected now ttl in
                  Ok (verifiedState payload)
              end
          end
    end.

(** * Consuming a state *)

(** [ReplayClaimer]: [ClaimOnce] of a store of type [S]. *)
Definition ReplayClaimer (S : Type) : Type := S → OneTimeClaim → res BuildErr (S * bool).

Definition from_claimer {A} (m : res BuildErr A) : res GitHubErr A :=
  match m with Ok a => Ok a | Err e => Err (FromClaimer e) end.

Definition ClaimState {S} (claimer : option (ReplayClaimer S)) (s : S) (now : Time)
    (state : VerifiedState) : res GitHubErr S :=
  let claim := vs_replay state in
  match claimer with
  | None => Err ErrInvalidState
  | Some claimOnce =>
      if negb (String.eqb (cl_Kind claim) "github-state") || negb (str_len (cl_ClaimKey claim) =? 64) ||
         is_zero_time (cl_RetainUntil claim) || cl_Permanent claim
      then Err ErrInvalidState
      else if negb (now <? cl_RetainUntil claim) then Err ErrExpiredState
      else
        let* out := from_claimer (claimOnce s claim) in
        if negb out.2 then Err ErrStateReplay else Ok out.1
  end.

(** * Handoff tokens *)

Record HandoffRecord := mkHandoff {
  hr_Digest : list Z;
  hr_ExpiresAt : Time;
}.

Definition handoffDigest (cleartext : string) : list Z :=
  sha256 (string_bytes "githubapp-handoff-v1" ++ 0 :: string_bytes cleartext).

(** [IssueHandoff] returns the token and the record that is stored. *)
Definition IssueHandoff (random : option (list Z)) (now : Time) (ttl : Duration)
    : res GitHubErr (string * HandoffRecord) :=
  if (ttl <? minute) || (10 * minute <? ttl) then Err ErrInvalidHandoff
  else match random with
  | None => Err ErrInvalidHandoff
  | Some randomBytes =>
      let cleartext := base64_encode randomBytes in
      Ok (cleartext, mkHandoff (handoffDigest cleartext) (now + ttl))
  end.

(** The shape both verifications ask of a token. *)
Definition handoffShape (raw : string) : bool :=
  (str_len raw =? 43) &&
  match base64_decode raw with Some decoded => (length decoded =? 32)%nat | None => false end.

Definition VerifyHandoffRaw (now : Time) (record : HandoffRecord) (raw : string) : res GitHubErr unit :=
  if negb (now <? hr_ExpiresAt record) then Err ErrExpiredHandoff
  else if negb (handoffShape raw) then Err ErrInvalidHandoff
  else if negb (bool_decide (handoffDigest raw = hr_Digest record)) then Err ErrInvalidHandoff
  else Ok tt.

(** [HandoffConsumer]: [ConsumeHandoff] of a store of type [S], with errors
    of type [E]. *)
Definition HandoffConsumer (S E : Type) : Type := S → list Z → Time → res E (S * bool).

Definition ConsumeHandoffRaw {S E} (fromConsumer : E → GitHubErr) (consumer : option (HandoffConsumer S E))
    (s : S) (now : Time) (raw : string) : res GitHubErr S :=
  match consumer with
  | None => Err ErrInvalidHandoff
  | Some consume =>
      if negb (handoffShape raw) then Err ErrInvalidHandoff
      else match consume s (handoffDigest raw) now with
      | Err e => Err (fromConsumer e)
      | Ok (s', ok) => if negb ok then Err ErrInvalidHandoff else Ok s'
      end
  end.

(** * Lemmas: the alphabet and the length of what is signed *)

(** A byte that the encoder writes as it is. *)
Definition json_plain (c : ascii) : Prop :=
  is_upper c || is_lower c || is_digit c || is_one_of "._:-" c = true.

Lemma opaque_plain v : validOpaqueID v = true →
  Forall json_plain (String.list_ascii_of_string v) ∧ str_len v ≤ 128.
Proof.
  intros H%re_match_spec. split.
  - eapply re_within_spec; [|exact H].
    split; [intros c Hc; unfold json_plain; by rewrite Hc|]. split; [done|].
    apply re_within_upto. exact (fun c Hc => Hc).
  - apply (re_max_spec _ _ 128) in H; [unfold str_len; lia|by vm_compute].
Qed.

Lemma return_key_plain v : re_match return_key_re v = true →
  Forall json_plain (String.list_ascii_of_string v) ∧ str_len v ≤ 64.
Proof.
  assert (∀ c, is_lower c || is_digit c || is_one_of "._-" c = true → json_plain c) as Hrest.
  { intros c Hc. unfold json_plain. destruct (is_upper c), (is_lower c), (is_digit c); try done.
    unfold is_one_of in *. cbn in *. destruct (Ascii.eqb c "."), (Ascii.eqb c "_"), (Ascii.eqb c ":"); done. }
  intros H%re_match_spec. split.
  - eapply re_within_spec; [|exact H].     split; [intros c Hc; unfold json_plain; rewrite Hc; by rewrite orb_true_r|]. split; [done|].
    apply re_within_upto. exact Hrest.
  - apply (re_max_spec _ _ 64) in H; [unfold str_len; lia|by vm_compute].
Qed.

Lemma pretty_N_length k : ∀ n s, (n < 10 ^ N.of_nat k)%N →
  (String.length (pretty.pretty_N_go n s) ≤ k + String.length s)%nat.
Proof.
  induction k as [|k IH]; intros n s Hn.
  - assert (n = 0%N) as -> by (simpl in Hn; lia). by rewrite pretty.pretty_N_go_0.
  - destruct (decide (n = 0%N)) as [->|Hne]; [rewrite pretty.pretty_N_go_0; lia|].
    rewrite pretty.pretty_N_go_step by lia. etrans; [apply IH|simpl; lia].
    rewrite Nat2N.inj_succ, N.pow_succ_r' in Hn. apply N.Div0.div_lt_upper_bound. lia.
Qed.

Lemma format_int_length z : - 2 ^ 63 ≤ z < 2 ^ 63 → str_len (format_int z) ≤ 20.
Proof.
  intros Hz. unfold str_len, format_int, pretty.pretty, pretty.pretty_Z.
  assert (∀ n, (n < 10 ^ 19)%N → (String.length (pretty.pretty n) ≤ 19)%nat) as HN.
  { intros n Hn. unfold pretty.pretty, pretty.pretty_N. case_decide; [simpl; lia|].
    pose proof (pretty_N_length 19 n "" Hn). simpl in *. lia. }
  destruct z as [|p|p]; [simpl; lia| |].
  - change (pretty.pretty p) with (pretty.pretty (N.pos p)). pose proof (HN (N.pos p) ltac:(lia)). lia.
  - change (pretty.pretty p) with (pretty.pretty (N.pos p)). pose proof (HN (N.pos p) ltac:(lia)).
    rewrite str_app_cons, str_app_nil. simpl. lia.
Qed.

Lemma json_field_length name value : str_len (json_field name value) = str_len name + 3 + str_len value.
Proof. unfold json_field, json_string. rewrite !str_len_app. cbn [str_len]. unfold str_len. simpl. lia. Qed.

Lemma json_string_length s : str_len (json_string s) = str_len s + 2.
Proof. unfold json_string. rewrite !str_len_app. unfold str_len. simpl. lia. Qed.

(** What every payload the manager makes, or accepts, satisfies. *)
Definition payload_plain (p : statePayload) : Prop :=
  validateStateRequest (mkStateRequest (sp_Purpose p) (sp_ActorID p) (sp_TeamID p)
    (sp_ExpectedAccountID p) (sp_ReturnKey p)) = true ∧
  str_len (sp_Nonce p) = 43 ∧
  i64_range (sp_ExpectedAccountID p) ∧ i64_range (sp_IssuedAt p) ∧ i64_range (sp_ExpiresAt p).

(** Evaluates the lengths of the literals. *)
Ltac literal_lengths :=
  repeat match goal with
  | |- context [str_len ?s] =>
      let n := eval vm_compute in (str_len s) in
      lazymatch isZcst n with true => change (str_len s) with n end
  end.

Lemma validateStateRequest_spec r : validateStateRequest r = true →
  str_len (sr_Purpose r) = 5 ∧ str_len (sr_ActorID r) ≤ 128 ∧ str_len (sr_TeamID r) ≤ 128 ∧
  0 ≤ sr_ExpectedAccountID r ∧ str_len (sr_ReturnKey r) ≤ 64.
Proof.
  unfold validateStateRequest. intros H. bool_prop.
  split_and!.
  - unfold validPurpose, StatePurposeOAuth, StatePurposeSetup in *.
    destruct (String.eqb_spec (sr_Purpose r) "oauth") as [->|]; [done|].
    destruct (String.eqb_spec (sr_Purpose r) "setup") as [->|]; done.
  - by apply opaque_plain.
  - destruct (String.eqb_spec (sr_TeamID r) "") as [->|]; [by unfold str_len|].
    simpl in *. bool_prop. by apply opaque_plain.
  - done.
  - by apply return_key_plain.
Qed.

Lemma marshalPayload_length p : sp_Version p = 1 → payload_plain p →
  0 < str_len (marshalPayload p) ≤ 1024.
Proof.
  intros Hv (Hreq & Hn & Ha & Hi & He). apply validateStateRequest_spec in Hreq as (Hp & Hac & Ht & _ & Hr).
  simpl in *. apply format_int_length in Ha, Hi, He.
  unfold marshalPayload. rewrite Hv.
  destruct (String.eqb (sp_TeamID p) ""), (sp_ExpectedAccountID p =? 0); cbn [app str_join];
    rewrite !str_len_app, !json_field_length, !json_string_length; literal_lengths;
    repeat match goal with
    | |- context [str_len ?s] =>
        lazymatch goal with H : 0 <= str_len s |- _ => fail | _ => pose proof (str_len_nonneg s) end
    end; lia.
Qed.

(** * Lemmas: times *)

Lemma second_pos : 0 < second.
Proof. done. Qed.

Lemma time_unix_to_unix t : 0 ≤ t < 2 ^ 62 * second → time_unix (to_unix t) = truncate_second t.
Proof.
  intros Ht. unfold time_unix, to_unix, truncate_second, unixToInternal.
  assert (0 ≤ t / second < 2 ^ 62) as Hd.
  { split; [apply Z.div_pos; lia|apply Z.div_lt_upper_bound; unfold second, millisecond in *; lia]. }
  rewrite (i64_small (t / second - _)) by (unfold i64_range; lia).
  rewrite i64_small by (unfold i64_range; lia).
  pose proof (Z.div_mod t second ltac:(done)). unfold second, millisecond in *. lia.
Qed.

Lemma truncate_second_bounds t : truncate_second t ≤ t < truncate_second t + second.
Proof.
  unfold truncate_second. pose proof (Z.mod_pos_bound t second second_pos). lia.
Qed.

Lemma truncate_second_add t d : 0 ≤ d → truncate_second t + truncate_second d ≤ truncate_second (truncate_second t + d).
Proof.
  intros Hd. unfold truncate_second at 3.
  assert ((truncate_second t + d) mod second = d mod second) as ->; [|unfold truncate_second; lia].
  unfold truncate_second. rewrite <- (Z.mod_add d (t / second) second) by done. f_equal.
  pose proof (Z.div_mod t second ltac:(done)). lia.
Qed.

(** * Lemmas: signing *)

Lemma base64_no_dot bytes : Forall is_byte bytes → count_byte "." (base64_encode bytes) = 0.
Proof.
  intros H. apply count_byte_none. eapply Forall_impl; [by apply base64_encode_alphabet|].
  intros c Hc ->. by destruct Hc.
Qed.

Lemma signingKey_ok secret key : signingKey secret = Ok key → secret = Some key.
Proof. unfold signingKey. intros. repeat case_match; by simplify_eq. Qed.

Lemma stateMAC_bytes key body : Forall is_byte (stateMAC key body) ∧ length (stateMAC key body) = 32%nat.
Proof. split; [apply sha256_bytes|apply length_hmac_sha256]. Qed.

#[local] Opaque stateMAC sha256 replayKey handoffDigest.

Definition validExpectation (expected : StateExpectation) : bool :=
  validPurpose (se_Purpose expected) && validOpaqueID (se_ActorID expected) &&
  (String.eqb (se_TeamID expected) "" || validOpaqueID (se_TeamID expected)).

(** A body signed with the key reaches the checks of the payload. *)
Lemma VerifyRaw_signed `{StateJSON} key text payload now ttl expected :
  signingKey (Some key) = Ok key → validExpectation expected = true →
  0 < str_len text ≤ 1024 → decodeClosedState text = Some payload →
  let body := base64_encode (string_bytes text) in
  VerifyRaw (Some key) now ttl (body +:+ "." +:+ base64_encode (stateMAC key body)) expected =
  (let* _ := validateStatePayload payload expected now ttl in Ok (verifiedState payload)).
Proof.
  intros Hkey Hexp Hlen Hdec body. destruct (stateMAC_bytes key body) as [Hmac Hmlen].
  pose proof (string_bytes_range text) as Htext. unfold VerifyRaw.
  assert (negb (validPurpose (se_Purpose expected)) || negb (validOpaqueID (se_ActorID expected)) ||
     (negb (String.eqb (se_TeamID expected) "") && negb (validOpaqueID (se_TeamID expected))) = false) as ->.
  { unfold validExpectation in Hexp. bool_prop. rewrite H0, H2. simpl.
    by destruct (String.eqb (se_TeamID expected) ""), (validOpaqueID (se_TeamID expected)). }
  change ("." +:+ base64_encode (stateMAC key body)) with (String "." (base64_encode (stateMAC key body))).
  assert (str_len body = (str_len text * 8 + 5) / 6) as Hb.
  { unfold body. by rewrite base64_encode_length, length_string_bytes. }
  assert (str_len (base64_encode (stateMAC key body)) = 43) as Hs.
  { rewrite base64_encode_length, Hmlen. reflexivity. }
  assert (count_byte "." body = 0) as Hbd by (by apply base64_no_dot).
  assert (0 < str_len body ≤ 1366) as Hbl by (rewrite Hb; Z.to_euclidean_division_equations; lia).
  assert (str_len (body +:+ String "." (base64_encode (stateMAC key body))) = str_len body + 44) as ->.
  { rewrite str_len_app. change (String "." ?s) with ("." +:+ s). rewrite str_len_app, Hs. literal_lengths. lia. }
  assert (count_byte "." (body +:+ String "." (base64_encode (stateMAC key body))) = 1) as ->.
  { rewrite count_byte_app. cbn [count_byte].
    rewrite Hbd, base64_no_dot by done. reflexivity. }
  rewrite split_once_app by (by apply base64_no_dot). cbn [fst snd].
  rewrite Hs, base64_decode_encode by done. rewrite Hmlen. cbn [negb Nat.eqb].
  rewrite Hkey. cbn [res_bind]. rewrite bool_decide_eq_true_2 by done.
  assert (base64_decode body = Some (string_bytes text)) as -> by (by apply base64_decode_encode).
  rewrite bytes_string_bytes, Hdec.
  assert (Z.of_nat (length (string_bytes text)) = str_len text) as Hn by apply length_string_bytes.
  rewrite Z.eqb_refl.
  repeat match goal with
  | |- context [?x =? ?y] => assert (x =? y = false) as -> by (apply Z.eqb_neq; lia)
  | |- context [?x <? ?y] => assert (x <? y = false) as -> by (apply Z.ltb_ge; lia)
  end. cbn [orb negb].
  destruct (Nat.eqb_spec (length (string_bytes text)) 0); [lia|].
  destruct (Nat.ltb_spec 2048 (length (string_bytes text))); [lia|].
  done.
Qed.

(** ** The payload of a state that is issued *)

Section issued.
Context (random : list Z) (t : Time) (ttl : Duration) (request : StateRequest).
Hypothesis random_bytes : Forall is_byte random.
Hypothesis random_length : length random = 32%nat.
Hypothesis request_valid : validateStateRequest request = true.
Hypothesis account_range : i64_range (sr_ExpectedAccountID request).
Hypothesis ttl_bounds : minute ≤ ttl ≤ 15 * minute.
Hypothesis clock_range : 0 ≤ t < 2 ^ 61 * second.

Let payload := issuedPayload random t ttl request.
Let issued := truncate_second t.
Let expires := truncate_second (issued + ttl).

Lemma issued_times :
  time_unix (sp_IssuedAt payload) = issued ∧ time_unix (sp_ExpiresAt payload) = expires ∧
  0 ≤ issued ∧ minute ≤ expires - issued ≤ ttl.
Proof using ttl_bounds clock_range.
  clear random_length.
  pose proof (truncate_second_bounds t) as Hti. pose proof (truncate_second_bounds (issued + ttl)) as Hte.
  pose proof (Z.div_mod t second ltac:(done)) as Hdm.
  assert (0 ≤ t / second) by (apply Z.div_pos; [lia|done]).
  assert (0 ≤ issued) by (unfold issued, truncate_second; pose proof second_pos; nia).
  pose proof (truncate_second_add t ttl ltac:(unfold minute, second, millisecond in *; lia)) as Hadd.
  fold issued expires in Hadd, Hti, Hte.
  assert (minute ≤ truncate_second ttl).
  { unfold truncate_second. pose proof (Z.div_mod ttl second ltac:(done)).
    assert (60 ≤ ttl / second) by (apply Z.div_le_lower_bound; unfold minute in *; lia).
    unfold minute, second, millisecond in *. lia. }
  assert (truncate_second issued = issued) as Hidem.
  { unfold issued, truncate_second at 1. assert (truncate_second t mod second = 0) as ->; [|lia].
    unfold truncate_second. replace (t - t mod second) with (t / second * second) by lia.
    by apply Z.mod_mul. }
  unfold payload, issuedPayload. cbn [sp_IssuedAt sp_ExpiresAt]. fold issued.
  split_and!; [| |done|lia|lia].
  - rewrite time_unix_to_unix; [done|]. unfold second, millisecond in *. lia.
  - rewrite time_unix_to_unix; [done|]. unfold minute, second, millisecond in *. lia.
Qed.

Lemma issuedPayload_plain : payload_plain payload.
Proof.
  unfold payload_plain, payload, issuedPayload.
  cbn [sp_Purpose sp_ActorID sp_TeamID sp_ExpectedAccountID sp_ReturnKey sp_Nonce sp_IssuedAt sp_ExpiresAt].
  split_and!; try apply i64_in_range; [by destruct request| |done].
  by rewrite base64_encode_length, random_length.
Qed.

Lemma issuedPayload_validated now :
  validateStatePayload payload
    (mkExpectation (sr_Purpose request) (sr_ActorID request) (sr_TeamID request)) now ttl =
  if now + 30 * second <? issued then Err ErrInvalidState
  else if negb (now <? expires) then Err ErrExpiredState else Ok tt.
Proof.
  destruct issued_times as (Hi & He & Hpos & Hd). unfold validateStatePayload. rewrite Hi, He.
  unfold payload, issuedPayload. cbn -[time_unix base64_encode base64_decode truncate_second].
  assert (mkStateRequest (sr_Purpose request) (sr_ActorID request) (sr_TeamID request)
            (sr_ExpectedAccountID request) (sr_ReturnKey request) = request) as -> by (by destruct request).
  rewrite !String.eqb_refl, request_valid. cbn [negb orb].
  rewrite base64_decode_encode, random_length by done. cbn [negb Nat.eqb].
  assert (time_sub expires issued = expires - issued) as ->.
  { unfold time_sub, minute, second, millisecond in *. lia. }
  assert (issued <? expires = true) as -> by (apply Z.ltb_lt; unfold minute, second, millisecond in *; lia).
  assert (expires - issued <? minute = false) as -> by (apply Z.ltb_ge; lia).
  assert (ttl <? expires - issued = false) as -> by (apply Z.ltb_ge; lia).
  reflexivity.
Qed.
End issued.

Lemma Issue_ok key random t ttl request raw :
  Issue (Some key) (Some random) t ttl request = Ok raw →
  validateStateRequest request = true ∧ signingKey (Some key) = Ok key ∧
  let body := base64_encode (string_bytes (marshalPayload (issuedPayload random t ttl request))) in
  raw = body +:+ "." +:+ base64_encode (stateMAC key body).
Proof.
  unfold Issue. destruct (validateStateRequest request); cbn [negb]; [|done].
  destruct (signingKey (Some key)) as [k|] eqn:Hkey; cbn [res_bind]; [|done].
  apply signingKey_ok in Hkey as Hk. injection Hk as <-. by intros [= <-].
Qed.

(** C40. A state that was issued verifies for the principal and purpose it was
    issued to, with the fields of its request, from thirty seconds before it
    was issued until it expires; outside that time it is refused. *)
Theorem Issue_VerifyRaw `{StateJSON} key random t ttl request raw now :
  Issue (Some key) (Some random) t ttl request = Ok raw →
  Forall is_byte random → length random = 32%nat → i64_range (sr_ExpectedAccountID request) →
  minute ≤ ttl ≤ 15 * minute → 0 ≤ t < 2 ^ 61 * second →
  (let payload := issuedPayload random t ttl request in
   decodeClosedState (marshalPayload payload) = Some payload) →
  let issued := truncate_second t in
  let expires := truncate_second (issued + ttl) in
  VerifyRaw (Some key) now ttl raw
    (mkExpectation (sr_Purpose request) (sr_ActorID request) (sr_TeamID request)) =
  if now + 30 * second <? issued then Err ErrInvalidState
  else if negb (now <? expires) then Err ErrExpiredState
  else Ok (mkVerified (sr_Purpose request) (sr_ActorID request) (sr_TeamID request)
             (sr_ExpectedAccountID request) (sr_ReturnKey request) issued expires
             (mkClaim "github-state" (replayKey (sr_Purpose request) (base64_encode random)) expires false)).
Proof.
  intros Hissue Hbytes Hlen Haccount Httl Ht Hdec issued expires.
  apply Issue_ok in Hissue as (Hreq & Hkey & ->).
  pose proof (issuedPayload_plain random t ttl request Hlen Hreq Haccount) as Hplain.
  destruct (issued_times random t ttl request Httl Ht) as (Hi & He & _).
  rewrite (VerifyRaw_signed _ _ (issuedPayload random t ttl request)); try done.
  - rewrite issuedPayload_validated by done. fold issued expires.
    destruct (now + 30 * second <? issued); [done|]. destruct (negb (now <? expires)); [done|].
    unfold verifiedState. rewrite Hi, He. done.
  - unfold validExpectation. unfold validateStateRequest in Hreq. bool_prop. simpl.
    rewrite H0, H4. by destruct (String.eqb (sr_TeamID request) ""), (validOpaqueID (sr_TeamID request)).
  - by apply marshalPayload_length.
Qed.

(** Only what was signed with the key is accepted, and only for the
    principal it names: an accepted value is a body, a dot and the MAC of that
    very body (up to the newlines base64 ignores), its payload names the
    purpose, the actor and the team of the request, it was not issued in the
    future, it has not expired and it lives no longer than the configured time. *)
Theorem VerifyRaw_authentic `{StateJSON} secret now ttl raw expected v :
  VerifyRaw secret now ttl raw expected = Ok v →
  ∃ key body sig payload,
    signingKey secret = Ok key ∧ raw = body +:+ "." +:+ sig ∧
    strip_newlines sig = base64_encode (stateMAC key body) ∧
    (∃ text, base64_decode body = Some (string_bytes text) ∧ decodeClosedState text = Some payload) ∧
    v = verifiedState payload ∧
    vs_Purpose v = se_Purpose expected ∧ vs_ActorID v = se_ActorID expected ∧
    vs_TeamID v = se_TeamID expected ∧
    vs_IssuedAt v ≤ now + 30 * second ∧ vs_IssuedAt v < vs_ExpiresAt v ∧ now < vs_ExpiresAt v ∧
    minute ≤ time_sub (vs_ExpiresAt v) (vs_IssuedAt v) ≤ ttl ∧
    validateStateRequest (mkStateRequest (vs_Purpose v) (vs_ActorID v) (vs_TeamID v)
      (vs_ExpectedAccountID v) (vs_ReturnKey v)) = true.
Proof.
  intros Hv. unfold VerifyRaw in Hv.
  case_match; [done|]. case_match eqn:Hshape; [done|]. case_match; [done|].
  destruct (base64_decode (split_once "." raw).2) as [supplied|] eqn:Hsig; [|done].
  case_match; [done|]. destruct (signingKey secret) as [key|] eqn:Hkey; cbn [res_bind] in Hv; [|done].
  destruct (bool_decide (stateMAC key (split_once "." raw).1 = supplied)) eqn:Hmac; cbn [negb] in Hv; [|done].
  destruct (base64_decode (split_once "." raw).1) as [bytes|] eqn:Hbody; [|done].
  case_match; [done|]. destruct (decodeClosedState (bytes_string bytes)) as [payload|] eqn:Hdec; [|done].
  apply res_bind_ok in Hv as ([] & Hvalid & [= <-]). apply bool_decide_eq_true_1 in Hmac.
  bool_prop. destruct (split_once "." raw) as [body sig] eqn:Hsplit. cbn [fst snd] in *.
  apply split_once_spec in Hsplit as [-> _]; [|lia].
  apply base64_decode_canonical in Hsig as [Hsig _]. apply base64_decode_canonical in Hbody as Hb.
  unfold validateStatePayload in Hvalid.
  case_match eqn:Hfields; [done|]. destruct (base64_decode (sp_Nonce payload)); [|done].
  case_match; [done|]. case_match eqn:Htimes; [done|]. case_match eqn:Hnow; [done|].
  bool_prop. exists key, body, sig, payload. split_and!; try done; [by rewrite Hsig, Hmac| |lia..].
  exists (bytes_string bytes). by rewrite string_bytes_string by apply Hb.
Qed.

(** * Evaluated *)

Definition sampleKey : list Z := map Z.of_nat (seq 1 32).
Definition sampleRandom : list Z := map Z.of_nat (seq 100 32).
Definition sampleNow : Time := 63900000000 * second + 5.

Definition sampleRequest : StateRequest :=
  mkStateRequest StatePurposeSetup "11111111-1111-4111-8111-111111111111" "" 42 "teams".

Definition samplePayload : statePayload := issuedPayload sampleRandom sampleNow (10 * minute) sampleRequest.

(** A decoder that knows one document. *)
Definition sampleJSON : StateJSON := {|
  decodeClosedState text := if String.eqb text (marshalPayload samplePayload) then Some samplePayload else None;
|}.

Definition sampleState : string :=
  match Issue (Some sampleKey) (Some sampleRandom) sampleNow (10 * minute) sampleRequest with
  | Ok raw => raw
  | Err _ => ""
  end.

Definition sampleExpectation : StateExpectation :=
  mkExpectation StatePurposeSetup "11111111-1111-4111-8111-111111111111" "".

Definition sampleVerified : VerifiedState :=
  match VerifyRaw (H := sampleJSON) (Some sampleKey) (sampleNow + minute) (10 * minute)
          sampleState sampleExpectation with
  | Ok v => v
  | Err _ => verifiedState samplePayload
  end.

Example marshalPayload_ex : marshalPayload samplePayload =
  str_join double_quote ["{"; "v"; ":1,"; "purpose"; ":"; "setup"; ","; "actor_id"; ":";
    "11111111-1111-4111-8111-111111111111"; ","; "expected_account_id"; ":42,"; "return_key"; ":"; "teams";
    ","; "nonce"; ":"; "ZGVmZ2hpamtsbW5vcHFyc3R1dnd4eXp7fH1-f4CBgoM"; ","; "iat"; ":1764403200,"; "exp"; ":1764403800}"].
Proof. vm_compute. reflexivity. Qed.

Example sampleState_tampered :
  VerifyRaw (H := sampleJSON) (Some sampleKey) (sampleNow + minute) (10 * minute)
    ("B" +:+ str_drop 1 sampleState) sampleExpectation = Err ErrInvalidState.
Proof. vm_compute. reflexivity. Qed.

Lemma Issue_VerifyRaw_witness :
  Issue (Some sampleKey) (Some sampleRandom) sampleNow (10 * minute) sampleRequest = Ok sampleState ∧
  VerifyRaw (H := sampleJSON) (Some sampleKey) (sampleNow + minute) (10 * minute)
    sampleState sampleExpectation = Ok sampleVerified.
Proof.
  assert (Issue (Some sampleKey) (Some sampleRandom) sampleNow (10 * minute) sampleRequest = Ok sampleState)
    as Hissue by (vm_compute; reflexivity).
  split; [exact Hissue|].
  etransitivity.
  - apply (Issue_VerifyRaw (H := sampleJSON) sampleKey sampleRandom sampleNow (10 * minute) sampleRequest
      sampleState (sampleNow + minute) Hissue);
      [|vm_compute; reflexivity|unfold i64_range; vm_compute; split; [intros|]; congruence
       |unfold minute, second, millisecond; lia|unfold sampleNow, second, millisecond; lia|vm_compute; reflexivity].
    apply Forall_forall. intros b (n & -> & Hn%elem_of_seq)%list_elem_of_fmap. unfold is_byte. lia.
  - vm_compute. reflexivity.
Defined.

Lemma VerifyRaw_authentic_witness :
  vs_ActorID sampleVerified = "11111111-1111-4111-8111-111111111111" ∧
  sampleNow + minute < vs_ExpiresAt sampleVerified.
Proof.
  destruct (VerifyRaw_authentic (H := sampleJSON) (Some sampleKey) (sampleNow + minute) (10 * minute)
    sampleState sampleExpectation sampleVerified) as (key & body & sig & payload & H); [vm_compute; reflexivity|].
  split; apply H.
Defined.
