(* ===== verification/GitHubSetup.v ===== *)
(** The GitHub setup flow: [SetupService] of [internal/builds/setup.go] and the
    setup tables of the store, [internal/builds/memory_setup.go].

    A call keeps the writes it made before it failed, so an operation is a
    function from the store to the store and a result ([op]).  A [SetupCall]
    holds what one call reads from outside: the successive readings of the
    clock, the signing secret, the random bytes, the answers of the provider
    and of the installation catalogue.  URLs are not modelled: a configuration
    records whether its URLs pass their checks. *)

From S2P Require Import Prelude Regexp GoStrings Digest Encoding BuildModel BuildAttempts BuildSources BuildDeliveries BuildStore Effects GitHubState.
From Stdlib Require Import Ascii.

Open Scope Z_scope.

(** * Data *)

(** [githubapp.Installation], less the client identifier, which the flow does not read. *)
Record ProviderInstallation := mkProviderInstallation {
  gi_ID : Z;
  gi_AppID : Z;
  gi_Account : AccountIdentity;
  gi_RepositorySelection : string;
  gi_Permissions : gmap string string;
  gi_SuspendedAt : option Time;
}.

Record SetupProviderRequest := mkProviderRequest {
  pq_Code : string;
  pq_InstallationID : Z;
  pq_ExpectedGitHubUserID : Z;
  pq_ExpectedAccountID : Z;
}.

(** [Verification] is a user and an installation. *)
Record SetupProviderResult := mkProviderResult {
  pr_User : AccountIdentity;
  pr_Installation : ProviderInstallation;
  pr_Repositories : list RepositoryIdentity;
}.

Record SetupAuthorization := mkAuthorization {
  au_ActorID : string;
  au_IdempotencyKey : string;
  au_RequestFingerprint : string;
  au_State : string;
  au_ExpiresAt : Time;
  au_CreatedAt : Time;
}.

Record SetupHandoff := mkSetupHandoff {
  ho_Digest : list Z;
  ho_ActorID : string;
  ho_GitHubUser : AccountIdentity;
  ho_Installation : ProviderInstallation;
  ho_Repositories : list RepositoryIdentity;
  ho_ExpiresAt : Time;
  ho_CreatedAt : Time;
}.

Record memorySetupHandoff := mkMemoryHandoff {
  mh_record : SetupHandoff;
  mh_consumedAt : option Time;
  mh_linkIdempotencyKey : string;
  mh_linkFingerprint : string;
  mh_linkedInstallation : string;
}.

Record ConsumedSetupHandoff := mkConsumed {
  co_handoff : SetupHandoff;
  co_LinkedInstallationID : string;
  co_Replay : bool;
}.

(** The build store and the setup tables beside it. *)
Record SetupState := mkSetupState {
  ss_builds : MemoryStore;
  ss_authorizations : gmap string SetupAuthorization;
  ss_userBindings : gmap string AccountIdentity;
  ss_userOwners : gmap Z string;
  ss_handoffs : gmap (list Z) memorySetupHandoff;
}.

Definition ss_set_builds (v : MemoryStore) (s : SetupState) : SetupState :=
  mkSetupState v (ss_authorizations s) (ss_userBindings s) (ss_userOwners s) (ss_handoffs s).

Definition ss_set_handoffs (v : gmap (list Z) memorySetupHandoff) (s : SetupState) : SetupState :=
  mkSetupState (ss_builds s) (ss_authorizations s) (ss_userBindings s) (ss_userOwners s) v.

(** * Errors and operations *)

Inductive SetupErr : Set :=
| FromBuilds (e : BuildErr)
| FromGitHub (e : GitHubErr)
| FromProvider
| FromCatalog.

Abbreviation op A := (op SetupState SetupErr A) (only parsing).

Definition op_builds (f : MemoryStore → res BuildErr MemoryStore) : op unit :=
  op_store FromBuilds (fun s => let* builds := f (ss_builds s) in Ok (ss_set_builds builds s, tt)).

(** * Validation *)

Definition setup_idempotency_re : regex :=
  let first := RClass (fun c => is_upper c || is_lower c || is_digit c) in
  let rest := RClass (fun c => is_upper c || is_lower c || is_digit c || is_one_of "._:-" c) in
  RSeq first (RRep 15 127 rest).

Definition installationReturnKeyPrefix : string := "github-installation-".

Definition installationReturnKey (installationID : Z) : res BuildErr string :=
  if installationID <=? 0 then Err ErrInvalid
  else
    let key := installationReturnKeyPrefix +:+ format_int installationID in
    if 64 <? str_len key then Err ErrInvalid else Ok key.

Definition parseInstallationReturnKey (key : string) : res GitHubErr Z :=
  if negb (has_prefix installationReturnKeyPrefix key) then Err ErrInvalidState
  else
    let raw := trim_prefix installationReturnKeyPrefix key in
    match parse_int raw with
    | None => Err ErrInvalidState
    | Some installationID =>
        if (installationID <=? 0) || negb (String.eqb (format_int installationID) raw)
        then Err ErrInvalidState else Ok installationID
    end.

Definition validOAuthCode (code : string) : bool :=
  negb ((str_len code <? 16) || (512 <? str_len code) || negb (String.eqb (trim_space code) code)) &&
  forallb (fun c => in_range "033" "126" c && negb (is_one_of "&=?#%\" c)) (String.list_ascii_of_string code).

(** The repositories belong to the account, and each occurs once. *)
Fixpoint setupRepositories (account : AccountIdentity) (repositories : list RepositoryIdentity)
    (seen : gset Z) : res BuildErr unit :=
  match repositories with
  | [] => Ok tt
  | repository :: rest =>
      if negb (validRepository repository) || negb (ri_OwnerID repository =? ac_ID account) ||
         negb (equal_fold (ri_OwnerLogin repository) (ac_Login account)) then Err ErrUnauthorized
      else if bool_decide (ri_ID repository ∈ seen) then Err ErrInvalid
      else setupRepositories account rest ({[ri_ID repository]} ∪ seen)
  end.

Definition permissionIs (permissions : gmap string string) (name level : string) : bool :=
  String.eqb (default "" (permissions !! name)) level.

Definition validateSetupProviderResult (appID callbackInstallationID expectedUserID expectedAccountID : Z)
    (result : SetupProviderResult) : res BuildErr unit :=
  let user := pr_User result in
  let installation := pr_Installation result in
  let permissions := gi_Permissions installation in
  if (appID <=? 0) || (ac_ID user <=? 0) || negb (String.eqb (ac_Type user) "User") ||
     negb (re_match login_re (ac_Login user)) ||
     ((0 <? expectedUserID) && negb (ac_ID user =? expectedUserID)) ||
     negb (gi_ID installation =? callbackInstallationID) || negb (gi_AppID installation =? appID) ||
     negb (validAccount (gi_Account installation)) ||
     ((0 <? expectedAccountID) && negb (ac_ID (gi_Account installation) =? expectedAccountID)) ||
     negb (validSelection (gi_RepositorySelection installation)) ||
     isSome (gi_SuspendedAt installation) || negb (permissionIs permissions "metadata" "read") ||
     (negb (permissionIs permissions "contents" "read") && negb (permissionIs permissions "contents" "write")) ||
     (500 <? Z.of_nat (length (pr_Repositories result)))
  then Err ErrUnauthorized
  else setupRepositories (gi_Account installation) (pr_Repositories result) ∅.

Definition validateSetupAuthorization (a : SetupAuthorization) : bool :=
  negb (negb (re_match uuid_re (au_ActorID a)) ||
        negb (re_match setup_idempotency_re (au_IdempotencyKey a)) ||
        negb (re_match digest_re (au_RequestFingerprint a)) || (str_len (au_State a) <? 64) ||
        (4096 <? str_len (au_State a)) || is_zero_time (au_ExpiresAt a) || is_zero_time (au_CreatedAt a) ||
        negb (au_CreatedAt a <? au_ExpiresAt a)).

Definition validateSetupHandoff (h : SetupHandoff) : bool :=
  negb (bool_decide (ho_Digest h = repeat 0 32) || negb (re_match uuid_re (ho_ActorID h)) ||
        (ac_ID (ho_GitHubUser h) <=? 0) || negb (String.eqb (ac_Type (ho_GitHubUser h)) "User") ||
        negb (re_match login_re (ac_Login (ho_GitHubUser h))) || is_zero_time (ho_ExpiresAt h) ||
        is_zero_time (ho_CreatedAt h) || negb (ho_CreatedAt h <? ho_ExpiresAt h)) &&
  is_ok (validateSetupProviderResult (gi_AppID (ho_Installation h)) (gi_ID (ho_Installation h))
           (ac_ID (ho_GitHubUser h)) (ac_ID (gi_Account (ho_Installation h)))
           (mkProviderResult (ho_GitHubUser h) (ho_Installation h) (ho_Repositories h))).

(** * The setup tables *)

Definition authorizationKey (actorID idempotencyKey : string) : string := actorID +:+ nul +:+ idempotencyKey.

Definition PutSetupAuthorization (s : SetupState) (authorization : SetupAuthorization)
    : res BuildErr (SetupState * (SetupAuthorization * bool)) :=
  if negb (validateSetupAuthorization authorization) then Err ErrInvalid
  else
    let key := authorizationKey (au_ActorID authorization) (au_IdempotencyKey authorization) in
    match ss_authorizations s !! key with
    | Some existing =>
        if negb (String.eqb (au_RequestFingerprint existing) (au_RequestFingerprint authorization))
        then Err ErrConflict else Ok (s, (existing, true))
    | None =>
        Ok (mkSetupState (ss_builds s) (<[key := authorization]> (ss_authorizations s))
              (ss_userBindings s) (ss_userOwners s) (ss_handoffs s), (authorization, false))
    end.

Definition GitHubUserBinding (s : SetupState) (actorID : string) : res BuildErr AccountIdentity :=
  if negb (re_match uuid_re actorID) then Err ErrInvalid
  else match ss_userBindings s !! actorID with
  | None => Err ErrNotFound
  | Some binding => Ok binding
  end.

Definition BindGitHubUser (s : SetupState) (actorID : string) (identity : AccountIdentity)
    : res BuildErr SetupState :=
  if negb (re_match uuid_re actorID) || (ac_ID identity <=? 0) ||
     negb (String.eqb (ac_Type identity) "User") || negb (re_match login_re (ac_Login identity))
  then Err ErrInvalid
  else
    let owned := match ss_userOwners s !! ac_ID identity with
                 | Some owner => negb (String.eqb owner actorID)
                 | None => false
                 end in
    let bound := match ss_userBindings s !! actorID with
                 | Some current => negb (ac_ID current =? ac_ID identity) ||
                                   negb (String.eqb (ac_Type current) (ac_Type identity))
                 | None => false
                 end in
    if owned then Err ErrUnauthorized
    else if bound then Err ErrUnauthorized
    else Ok (mkSetupState (ss_builds s) (ss_authorizations s)
               (<[actorID := identity]> (ss_userBindings s))
               (<[ac_ID identity := actorID]> (ss_userOwners s)) (ss_handoffs s)).

Definition PutSetupHandoff (s : SetupState) (handoff : SetupHandoff) : res BuildErr SetupState :=
  if negb (validateSetupHandoff handoff) then Err ErrInvalid
  else match ss_handoffs s !! ho_Digest handoff with
  | Some _ => Err ErrConflict
  | None =>
      Ok (ss_set_handoffs (<[ho_Digest handoff := mkMemoryHandoff handoff None "" "" ""]> (ss_handoffs s)) s)
  end.

Definition consumedMemoryHandoff (stored : memorySetupHandoff) (replay : bool) : ConsumedSetupHandoff :=
  mkConsumed (mh_record stored) (mh_linkedInstallation stored) replay.

Definition ConsumeSetupHandoff (s : SetupState) (digest : list Z)
    (actorID idempotencyKey fingerprint : string) (now : Time)
    : res BuildErr (SetupState * (ConsumedSetupHandoff * bool)) :=
  if negb (re_match uuid_re actorID) || negb (re_match setup_idempotency_re idempotencyKey) ||
     negb (re_match digest_re fingerprint) || is_zero_time now then Err ErrInvalid
  else match ss_handoffs s !! digest with
  | None => Err ErrUnauthorized
  | Some stored =>
      if negb (String.eqb (ho_ActorID (mh_record stored)) actorID) ||
         negb (now <? ho_ExpiresAt (mh_record stored)) then Err ErrUnauthorized
      else match mh_consumedAt stored with
      | Some _ =>
          if negb (String.eqb (mh_linkIdempotencyKey stored) idempotencyKey) ||
             negb (String.eqb (mh_linkFingerprint stored) fingerprint) then Err ErrConflict
          else Ok (s, (consumedMemoryHandoff stored true, true))
      | None =>
          let stored := mkMemoryHandoff (mh_record stored) (Some now) idempotencyKey fingerprint
                          (mh_linkedInstallation stored) in
          Ok (ss_set_handoffs (<[digest := stored]> (ss_handoffs s)) s,
              (consumedMemoryHandoff stored false, false))
      end
  end.

Definition CompleteSetupHandoff (s : SetupState) (digest : list Z) (installationID : string)
    : res BuildErr SetupState :=
  if negb (re_match uuid_re installationID) then Err ErrInvalid
  else match ss_handoffs s !! digest with
  | None => Err ErrNotFound
  | Some stored =>
      if negb (isSome (mh_consumedAt stored)) then Err ErrNotFound
      else if negb (String.eqb (mh_linkedInstallation stored) "") &&
              negb (String.eqb (mh_linkedInstallation stored) installationID) then Err ErrConflict
      else Ok (ss_set_handoffs
                 (<[digest := mkMemoryHandoff (mh_record stored) (mh_consumedAt stored)
                                (mh_linkIdempotencyKey stored) (mh_linkFingerprint stored) installationID]>
                    (ss_handoffs s)) s)
  end.

(** * The service *)

(** [SetupService]: [install_url_valid] is [validatedInstallURL], and
    [oauth_valid] is [validateOAuthSetupConfig], of the configured URLs. *)
Record SetupService := mkSetupService {
  sv_AppID : Z;
  sv_StateTTL : Duration;
  sv_HandoffTTL : Duration;
  sv_install_url_valid : bool;
  sv_oauth_valid : bool;
}.

Record CreateGitHubInstallation := mkCreateInstallation {
  ci_GitHubInstallationID : Z;
  ci_AccountLogin : string;
  ci_AccountType : string;
  ci_RepositorySelection : string;
  ci_RepositoryCount : Z;
}.

(** What one call reads from outside.  The provider and the catalogue answer
    [None] for an error; the catalogue gives the identifier of the linked
    installation and whether the request was a replay. *)
Record SetupCall := mkCall {
  sc_now : nat → Time;
  sc_secret : nat → option (list Z);
  sc_random : option (list Z);
  sc_provider : SetupProviderRequest → option SetupProviderResult;
  sc_catalog : string → string → string → string → CreateGitHubInstallation → option (string * bool);
}.

Record BeginSetupRequest := mkBeginRequest {
  bq_ActorID : string;
  bq_ExpectedAccountID : Z;
  bq_ExistingInstallationID : Z;
  bq_ReturnKey : string;
  bq_IdempotencyKey : string;
  bq_RequestFingerprint : string;
}.

Record ContinueSetupRequest := mkContinueRequest {
  cq_ActorID : string;
  cq_State : string;
  cq_InstallationID : Z;
}.

Record CompleteSetupRequest := mkCompleteRequest {
  mq_ActorID : string;
  mq_State : string;
  mq_Code : string;
}.

Record LinkSetupRequest := mkLinkRequest {
  lq_ActorID : string;
  lq_Handoff : string;
  lq_IdempotencyKey : string;
  lq_RequestFingerprint : string;
  lq_RequestID : string;
}.

(** The state a call returns, with its expiry; [Begin] adds whether the
    authorization was a replay. *)
Record SetupStateResult := mkStateResult {
  sr_State : string;
  sr_ExpiresAt : Time;
  sr_Replay : bool;
}.

Record CompleteSetupResult := mkCompleteResult {
  cr_Handoff : string;
  cr_ExpiresAt : Time;
  cr_GitHubUser : AccountIdentity;
  cr_Installation : ProviderInstallation;
  cr_Repositories : list RepositoryIdentity;
}.

Record LinkSetupResult := mkLinkResult {
  lr_InstallationID : string;
  lr_Repositories : list Repository;
  lr_Replay : bool;
}.

Section service.
Context `{StateJSON} (cfg : SetupService).

Definition verifyState (call : SetupCall) (secret reading : nat) (raw : string) (purpose actorID : string)
    : op VerifiedState :=
  op_lift FromGitHub
    (VerifyRaw (sc_secret call secret) (sc_now call reading) (sv_StateTTL cfg) raw
       (mkExpectation purpose actorID "")).

Definition issueState (call : SetupCall) (secret reading : nat) (request : StateRequest) : op string :=
  op_lift FromGitHub
    (Issue (sc_secret call secret) (sc_random call) (sc_now call reading) (sv_StateTTL cfg) request).

(** [ClaimState] on the build store. *)
Definition claimState (call : SetupCall) (reading : nat) (state : VerifiedState) : op unit :=
  op_store FromGitHub (fun s =>
    let* builds := ClaimState (Some ClaimOnce) (ss_builds s) (sc_now call reading) state in
    Ok (ss_set_builds builds s, tt)).

Definition Begin (call : SetupCall) (request : BeginSetupRequest) : op SetupStateResult :=
  do! _ := op_guard (negb (negb (re_match uuid_re (bq_ActorID request)) ||
      (bq_ExpectedAccountID request <? 0) || (bq_ExistingInstallationID request <? 0) ||
      negb (re_match setup_idempotency_re (bq_IdempotencyKey request)) ||
      negb (re_match digest_re (bq_RequestFingerprint request)))) (FromBuilds ErrInvalid) in
  do! _ := op_guard (negb (negb (sv_install_url_valid cfg) || (sv_AppID cfg <=? 0) ||
      negb (sv_oauth_valid cfg))) (FromBuilds ErrInvalid) in
  do! state := issueState call 0 0 (mkStateRequest StatePurposeSetup (bq_ActorID request) ""
      (bq_ExpectedAccountID request) (bq_ReturnKey request)) in
  do! verified := verifyState call 1 1 state StatePurposeSetup (bq_ActorID request) in
  do! stored := op_store FromBuilds (fun s => PutSetupAuthorization s
      (mkAuthorization (bq_ActorID request) (bq_IdempotencyKey request) (bq_RequestFingerprint request)
         state (vs_ExpiresAt verified) (sc_now call 2))) in
  if snd stored
  then
    do! again := verifyState call 2 3 (au_State (fst stored)) StatePurposeSetup (bq_ActorID request) in
    op_ret (mkStateResult (au_State (fst stored)) (vs_ExpiresAt again) true)
  else op_ret (mkStateResult (au_State (fst stored)) (vs_ExpiresAt verified) false).

(** [oauthAuthorizationURL], less the URL. *)
Definition oauthAuthorization (state : string) : bool :=
  negb (negb (sv_oauth_valid cfg) || (str_len state <? 64) || (4096 <? str_len state) ||
        negb (count_byte "." state =? 1)).

Definition Continue (call : SetupCall) (request : ContinueSetupRequest) : op SetupStateResult :=
  do! _ := op_guard (negb (negb (re_match uuid_re (cq_ActorID request)) ||
      (cq_InstallationID request <=? 0) || negb (sv_oauth_valid cfg))) (FromBuilds ErrInvalid) in
  do! returnKey := op_lift FromBuilds (installationReturnKey (cq_InstallationID request)) in
  do! installState := verifyState call 0 0 (cq_State request) StatePurposeSetup (cq_ActorID request) in
  do! _ := claimState call 1 installState in
  do! state := issueState call 1 2 (mkStateRequest StatePurposeOAuth (cq_ActorID request) ""
      (vs_ExpectedAccountID installState) returnKey) in
  do! verified := verifyState call 2 3 state StatePurposeOAuth (cq_ActorID request) in
  do! _ := op_guard (oauthAuthorization state) (FromBuilds ErrInvalid) in
  op_ret (mkStateResult state (vs_ExpiresAt verified) false).

(** The user the actor is bound to, or 0. *)
Definition expectedUser (actorID : string) (s : SetupState) : res SetupErr Z :=
  match GitHubUserBinding s actorID with
  | Ok binding => Ok (ac_ID binding)
  | Err ErrNotFound => Ok 0
  | Err e => Err (FromBuilds e)
  end.

Definition handoffTTL : Duration := if sv_HandoffTTL cfg =? 0 then 5 * minute else sv_HandoffTTL cfg.

Definition Complete (call : SetupCall) (request : CompleteSetupRequest) : op CompleteSetupResult :=
  do! _ := op_guard (re_match uuid_re (mq_ActorID request) && validOAuthCode (mq_Code request))
      (FromBuilds ErrInvalid) in
  do! verified := verifyState call 0 0 (mq_State request) StatePurposeOAuth (mq_ActorID request) in
  do! installationID := op_lift FromGitHub (parseInstallationReturnKey (vs_ReturnKey verified)) in
  do! _ := claimState call 1 verified in
  do! expectedUserID := op_read (expectedUser (mq_ActorID request)) in
  do! provider :=
    match sc_provider call (mkProviderRequest (mq_Code request) installationID expectedUserID
                              (vs_ExpectedAccountID verified)) with
    | Some provider => op_ret provider
    | None => op_fail FromProvider
    end in
  do! _ := op_lift FromBuilds (validateSetupProviderResult (sv_AppID cfg) installationID expectedUserID
      (vs_ExpectedAccountID verified) provider) in
  do! _ := op_store FromBuilds (fun s =>
      let* s := BindGitHubUser s (mq_ActorID request) (pr_User provider) in Ok (s, tt)) in
  do! issued := op_lift FromGitHub (IssueHandoff (sc_random call) (sc_now call 2) handoffTTL) in
  let handoff := mkSetupHandoff (hr_Digest (snd issued)) (mq_ActorID request) (pr_User provider)
      (pr_Installation provider) (pr_Repositories provider) (hr_ExpiresAt (snd issued)) (sc_now call 3) in
  do! _ := op_store FromBuilds (fun s => let* s := PutSetupHandoff s handoff in Ok (s, tt)) in
  op_ret (mkCompleteResult (fst issued) (ho_ExpiresAt handoff) (ho_GitHubUser handoff)
            (ho_Installation handoff) (ho_Repositories handoff)).

(** [setupLinkConsumer]: the store with the handoff it kept. *)
Definition linkConsumer (request : LinkSetupRequest)
    : HandoffConsumer (SetupState * option (ConsumedSetupHandoff * bool)) BuildErr := fun c digest now =>
  let* out := ConsumeSetupHandoff c.1 digest (lq_ActorID request) (lq_IdempotencyKey request)
                (lq_RequestFingerprint request) now in
  Ok ((out.1, Some out.2), true).

Definition consumeHandoff (call : SetupCall) (request : LinkSetupRequest) : op (ConsumedSetupHandoff * bool) :=
  fun s =>
  match ConsumeHandoffRaw FromClaimer (Some (linkConsumer request)) (s, None) (sc_now call 0)
          (lq_Handoff request) with
  | Ok (s', Some consumed) => (s', Ok consumed)
  | Ok (s', None) => (s', Err (FromGitHub ErrInvalidHandoff))
  | Err e => (s, Err (FromGitHub e))
  end.

Definition linkedInstallation (id : string) (handoff : SetupHandoff) (now : Time) : Installation :=
  let installation := ho_Installation handoff in
  mkInstallation id (gi_AppID installation) (gi_ID installation) (gi_Account installation)
    (gi_RepositorySelection installation) (gi_Permissions installation) InstallationActive None None now now.

Definition linkedRepository (id : string) (now : Time) (identity : RepositoryIdentity) : Repository :=
  mkRepository (repositoryUUID id identity) id identity RepositoryActive now None now now.

Definition Link (call : SetupCall) (request : LinkSetupRequest) : op LinkSetupResult :=
  do! _ := op_guard (negb (negb (re_match uuid_re (lq_ActorID request)) ||
      negb (re_match setup_idempotency_re (lq_IdempotencyKey request)) ||
      negb (re_match digest_re (lq_RequestFingerprint request)) ||
      (str_len (lq_RequestID request) =? 0) || (128 <? str_len (lq_RequestID request))))
      (FromBuilds ErrInvalid) in
  do! consumed := consumeHandoff call request in
  let handoff := co_handoff (fst consumed) in
  let installation := ho_Installation handoff in
  do! linked :=
    match sc_catalog call (lq_ActorID request) (lq_IdempotencyKey request) (lq_RequestFingerprint request)
            (lq_RequestID request)
            (mkCreateInstallation (gi_ID installation) (ac_Login (gi_Account installation))
               (ac_Type (gi_Account installation)) (gi_RepositorySelection installation)
               (Z.of_nat (length (ho_Repositories handoff)))) with
    | Some linked => op_ret linked
    | None => op_fail FromCatalog
    end in
  let now := sc_now call 1 in
  do! _ := op_builds (fun s => PutInstallation s (linkedInstallation (fst linked) handoff now)) in
  let repositories := map (linkedRepository (fst linked) now) (ho_Repositories handoff) in
  do! _ := op_builds (fun s => ReconcileRepositories s (fst linked) repositories now) in
  do! _ := op_store FromBuilds (fun s =>
      let* s := CompleteSetupHandoff s (ho_Digest handoff) (fst linked) in Ok (s, tt)) in
  op_ret (mkLinkResult (fst linked)
            (sort_slice (fun x y => ri_ID (re_Identity x) <? ri_ID (re_Identity y)) repositories)
            (snd consumed || snd linked)).
End service.

(** * Runs

    The calls of the service, interleaved with the methods of the build store. *)

Inductive SetupEvent : Type :=
| SvBegin (call : SetupCall) (request : BeginSetupRequest)
| SvContinue (call : SetupCall) (request : ContinueSetupRequest)
| SvComplete (call : SetupCall) (request : CompleteSetupRequest)
| SvLink (call : SetupCall) (request : LinkSetupRequest)
| SvStore (ev : Time * StoreEvent).

Definition setupStep `{StateJSON} `{Environment} (cfg : SetupService) (s : SetupState) (ev : SetupEvent)
    : SetupState :=
  match ev with
  | SvBegin call request => (Begin cfg call request s).1
  | SvContinue call request => (Continue cfg call request s).1
  | SvComplete call request => (Complete cfg call request s).1
  | SvLink call request => (Link call request s).1
  | SvStore ev => ss_set_builds (storeStep (ss_builds s) ev) s
  end.

Definition setupRun `{StateJSON} `{Environment} (cfg : SetupService) (s : SetupState)
    (evs : list SetupEvent) : SetupState := foldl (setupStep cfg) s evs.
