(* ===== verification/GitHubSetupSafety.v ===== *)
(** The guarantees of the GitHub setup flow: a signed state and a handoff token
    are each used once, and an installation is linked only as the provider
    verified it. *)

From S2P Require Import Prelude Regexp GoStrings Digest Encoding BuildModel BuildAttempts BuildSafety BuildSources BuildDeliveries BuildStore Effects GitHubState GitHubSetup.
From Stdlib Require Import Ascii.

Open Scope Z_scope.

#[local] Opaque stateMAC sha256 replayKey handoffDigest deterministicUUID.

(** * What every call preserves

    The build store moves by its own methods; a handoff stays, with its record,
    and once consumed it keeps the request that consumed it; a GitHub user that
    belongs to an actor stays the actor's. *)

Definition handoff_evolves (h h' : memorySetupHandoff) : Prop :=
  mh_record h' = mh_record h ∧
  (is_Some (mh_consumedAt h) →
     mh_consumedAt h' = mh_consumedAt h ∧ mh_linkIdempotencyKey h' = mh_linkIdempotencyKey h ∧
     mh_linkFingerprint h' = mh_linkFingerprint h).

Record setup_evolves `{Environment} (s s' : SetupState) : Prop := {
  se_builds : ∃ evs, ss_builds s' = storeRun (ss_builds s) evs;
  se_handoffs : ∀ d h, ss_handoffs s !! d = Some h →
    ∃ h', ss_handoffs s' !! d = Some h' ∧ handoff_evolves h h';
  se_owners : ∀ id actor, ss_userOwners s !! id = Some actor → ss_userOwners s' !! id = Some actor;
}.

#[export] Instance handoff_evolves_preorder : PreOrder handoff_evolves.
Proof.
  split; [by intros h|]. intros h1 h2 h3 [Hr1 Hc1] [Hr2 Hc2]. split; [congruence|].
  intros Hs. destruct (Hc1 Hs) as (E1 & E2 & E3). rewrite <- E1 in Hs.
  destruct (Hc2 Hs) as (F1 & F2 & F3). split_and!; congruence.
Qed.

Section evolves.
Context `{Environment} `{StateJSON}.

#[export] Instance setup_evolves_preorder : PreOrder setup_evolves.
Proof.
  split.
  - intros s. constructor; [by exists []|by intros d h; exists h|done].
  - intros s1 s2 s3 [[evs1 Hb1] Hh1 Ho1] [[evs2 Hb2] Hh2 Ho2]. constructor.
    + exists (evs1 ++ evs2)%list. unfold storeRun in *. by rewrite foldl_app, <- Hb1.
    + intros d h Hd. destruct (Hh1 d h Hd) as (h' & Hd' & He). destruct (Hh2 d h' Hd') as (h'' & Hd'' & He').
      exists h''. split; [done|by etrans].
    + auto.
Qed.

(** A method of the build store. *)
Lemma evolves_builds s builds ev :
  builds = storeStep (ss_builds s) ev → setup_evolves s (ss_set_builds builds s).
Proof.
  intros ->. constructor; simpl; [by exists [ev]|by intros d h; exists h|done].
Qed.

Lemma evolves_put_handoff s d h :
  (∀ h0, ss_handoffs s !! d = Some h0 → handoff_evolves h0 h) →
  setup_evolves s (ss_set_handoffs (<[d := h]> (ss_handoffs s)) s).
Proof.
  intros Hd. constructor; simpl; [by exists []| |done]. intros d' h' Hd'.
  destruct (decide (d = d')) as [->|].
  - exists h. rewrite lookup_insert_eq. auto.
  - exists h'. by rewrite lookup_insert_ne.
Qed.

Lemma ClaimState_evolves s builds now v :
  ClaimState (Some ClaimOnce) (ss_builds s) now v = Ok builds → setup_evolves s (ss_set_builds builds s).
Proof.
  unfold ClaimState. case_match; [done|]. case_match; [done|].
  destruct (ClaimOnce (ss_builds s) (vs_replay v)) as [[b ok]|] eqn:Hc; simpl; [|done].
  destruct ok; simpl; [|done]. intros [= <-].
  apply (evolves_builds _ _ (now, StDelivery (DvClaimOnce (vs_replay v)))). simpl. by rewrite Hc.
Qed.

Lemma PutSetupAuthorization_evolves s a s' out : PutSetupAuthorization s a = Ok (s', out) → setup_evolves s s'.
Proof.
  unfold PutSetupAuthorization. intros. repeat case_match; simplify_eq; [done|].
  constructor; simpl; [by exists []|by intros d h; exists h|done].
Qed.

Lemma BindGitHubUser_evolves s actor identity s' : BindGitHubUser s actor identity = Ok s' → setup_evolves s s'.
Proof.
  unfold BindGitHubUser. intros. case_match; [done|].
  destruct (match ss_userOwners s !! _ with Some _ => _ | None => _ end) eqn:Howned; [done|].
  case_match; [done|]. simplify_eq.
  constructor; simpl; [by exists []|by intros d h; exists h|]. intros id owner Hid.
  destruct (decide (ac_ID identity = id)) as [<-|]; [|by rewrite lookup_insert_ne].
  rewrite Hid in Howned. bool_prop. subst. by rewrite lookup_insert_eq.
Qed.

Lemma PutSetupHandoff_evolves s h s' : PutSetupHandoff s h = Ok s' → setup_evolves s s'.
Proof.
  unfold PutSetupHandoff. intros. repeat case_match; simplify_eq. apply evolves_put_handoff. congruence.
Qed.

Lemma ConsumeSetupHandoff_evolves s d actor key fp now s' out :
  ConsumeSetupHandoff s d actor key fp now = Ok (s', out) → setup_evolves s s'.
Proof.
  unfold ConsumeSetupHandoff. intros. repeat case_match; simplify_eq; [done|].
  apply evolves_put_handoff. intros h0 Hh. simplify_eq. split; [done|].
  intros [? Hs]. congruence.
Qed.

Lemma CompleteSetupHandoff_evolves s d id s' : CompleteSetupHandoff s d id = Ok s' → setup_evolves s s'.
Proof.
  unfold CompleteSetupHandoff. intros. repeat case_match; simplify_eq.
  apply evolves_put_handoff. intros h0 Hh. by simplify_eq.
Qed.
End evolves.

Section calls.
Context `{Environment} `{StateJSON} (cfg : SetupService).

Lemma Begin_evolves call request : relates setup_evolves (Begin cfg call request).
Proof.
  unfold Begin, issueState, verifyState. relates_steps. by eapply PutSetupAuthorization_evolves.
Qed.

Lemma Continue_evolves call request : relates setup_evolves (Continue cfg call request).
Proof.
  unfold Continue, issueState, verifyState, claimState. relates_steps. by eapply ClaimState_evolves.
Qed.

Lemma Complete_evolves call request : relates setup_evolves (Complete cfg call request).
Proof.
  unfold Complete, verifyState, claimState. relates_steps.
  - by eapply ClaimState_evolves.
  - by eapply BindGitHubUser_evolves.
  - by eapply PutSetupHandoff_evolves.
Qed.

Lemma consumeHandoff_ok call request s s' consumed :
  consumeHandoff call request s = (s', Ok consumed) →
  ConsumeSetupHandoff s (handoffDigest (lq_Handoff request)) (lq_ActorID request)
    (lq_IdempotencyKey request) (lq_RequestFingerprint request) (sc_now call 0) = Ok (s', consumed).
Proof.
  unfold consumeHandoff, ConsumeHandoffRaw, linkConsumer. destruct (handoffShape _); cbn [negb]; [|done].
  cbn [fst]. destruct (ConsumeSetupHandoff _ _ _ _ _ _) as [[s1 out]|]; [|done]. simpl. by intros [= <- <-].
Qed.

Lemma consumeHandoff_evolves call request : relates setup_evolves (consumeHandoff call request).
Proof.
  intros s. destruct (consumeHandoff call request s) as [s' [consumed|e]] eqn:Hc; simpl.
  - apply consumeHandoff_ok in Hc. by eapply ConsumeSetupHandoff_evolves.
  - unfold consumeHandoff in Hc. unfold ConsumeHandoffRaw, linkConsumer in Hc.
    destruct (handoffShape _); cbn [negb fst] in Hc; [|by simplify_eq].
    destruct (ConsumeSetupHandoff _ _ _ _ _ _) as [[s1 out]|]; simpl in Hc; by simplify_eq.
Qed.

Lemma Link_evolves call request : relates setup_evolves (Link call request).
Proof.
  unfold Link, op_builds. relates_steps; [apply consumeHandoff_evolves|..].
  - eapply (evolves_builds _ _ (0, StSource (SrcInstallation _))). simpl. unfold sourceStep. simpl.
    by erewrite Ha.
  - eapply (evolves_builds _ _ (sc_now call 1, StSource (SrcReconcile _ _))). simpl. unfold sourceStep. simpl.
    by erewrite Ha.
  - by eapply CompleteSetupHandoff_evolves.
Qed.

Lemma setupStep_evolves s ev : setup_evolves s (setupStep cfg s ev).
Proof.
  destruct ev; simpl; [apply Begin_evolves|apply Continue_evolves|apply Complete_evolves|apply Link_evolves|].
  by apply (evolves_builds _ _ ev).
Qed.

Lemma setupRun_evolves evs : ∀ s, setup_evolves s (setupRun cfg s evs).
Proof.
  induction evs as [|ev evs IH]; intros s; simpl; [done|].
  etrans; [apply setupStep_evolves|apply IH].
Qed.

(** A claim stays claimed. *)
Lemma storeRun_claims evs : ∀ s k c,
  keyed s → s_claims s !! k = Some c → s_claims (storeRun s evs) !! k = Some c.
Proof.
  induction evs as [|[now ev] evs IH]; intros s k c Hk Hc; [done|].
  change (storeRun s ((now, ev) :: evs)) with (storeRun (storeStep s (now, ev)) evs).
  apply IH; [by apply storeStep_keyed|].
  by apply (ds_claim _ _ _ _ (storeStep_deliveries s now ev Hk)).
Qed.

Lemma setupRun_claims s evs k c :
  keyed (ss_builds s) → s_claims (ss_builds s) !! k = Some c →
  s_claims (ss_builds (setupRun cfg s evs)) !! k = Some c.
Proof.
  intros Hk Hc. destruct (se_builds _ _ (setupRun_evolves evs s)) as [bevs ->]. by apply storeRun_claims.
Qed.
End calls.

(** * A state is used once *)

(** The payload of a signed value, whatever its signature. *)
Definition payloadOf `{StateJSON} (raw : string) : option statePayload :=
  match base64_decode (split_once "." raw).1 with
  | Some bytes => decodeClosedState (bytes_string bytes)
  | None => None
  end.

Lemma VerifyRaw_payload `{StateJSON} secret now ttl raw expected v :
  VerifyRaw secret now ttl raw expected = Ok v →
  ∃ payload, payloadOf raw = Some payload ∧ v = verifiedState payload.
Proof.
  unfold VerifyRaw, payloadOf. intros Hv.
  do 3 (case_match; [done|]). destruct (base64_decode (split_once "." raw).2); [|done].
  case_match; [done|]. apply res_bind_ok in Hv as (key & _ & Hv). case_match; [done|].
  destruct (base64_decode (split_once "." raw).1) as [bytes|]; [|done]. case_match; [done|].
  destruct (decodeClosedState (bytes_string bytes)) as [payload|]; [|done].
  apply res_bind_ok in Hv as (_ & _ & [= <-]). by exists payload.
Qed.

Lemma ClaimState_once b now v b' :
  ClaimState (Some ClaimOnce) b now v = Ok b' →
  let key := claimMapKey "github-state" (cl_ClaimKey (vs_replay v)) in
  s_claims b !! key = None ∧ s_claims b' !! key = Some (vs_replay v).
Proof.
  unfold ClaimState, ClaimOnce. case_match eqn:Hg; [done|]. case_match; [done|].
  bool_prop. destruct (negb (validateClaim (vs_replay v))); [done|].
  replace (cl_Kind (vs_replay v)) with "github-state" by done.
  destruct (s_claims b !! _) eqn:Hc; simpl; [done|]. intros [= <-].
  split; [done|]. simpl. by rewrite lookup_insert_eq.
Qed.

Section once.
Context `{Environment} `{StateJSON} (cfg : SetupService).

Lemma evolves_keyed s s' : setup_evolves s s' → keyed (ss_builds s) → keyed (ss_builds s').
Proof. intros [[bevs ->] _ _]. apply storeRun_keyed. Qed.

(** What a successful [Continue] or [Complete] did with its state. *)
Definition consumes (raw : string) (s s' : SetupState) : Prop :=
  ∃ v s0 b' now, payloadOf raw = Some v ∧ setup_evolves s s0 ∧
    ClaimState (Some ClaimOnce) (ss_builds s0) now (verifiedState v) = Ok b' ∧
    setup_evolves (ss_set_builds b' s0) s'.

Lemma claimState_ok call reading v s s' u :
  claimState call reading v s = (s', Ok u) →
  ∃ b', ClaimState (Some ClaimOnce) (ss_builds s) (sc_now call reading) v = Ok b' ∧ s' = ss_set_builds b' s.
Proof.
  unfold claimState. intros Hc%op_store_ok. apply res_bind_ok in Hc as (b' & Hc & [= <-]). by exists b'.
Qed.

Lemma Continue_consumes call request s s' result :
  Continue cfg call request s = (s', Ok result) → consumes (cq_State request) s s'.
Proof.
  intros Hc. unfold Continue in Hc.
  apply op_bind_ok in Hc as (s1 & _ & [_ ->]%op_guard_ok & Hc).
  apply op_bind_ok in Hc as (s1 & key & [_ ->]%op_lift_ok & Hc).
  apply op_bind_ok in Hc as (s1 & v & [Hv ->]%op_lift_ok & Hc).
  apply op_bind_ok in Hc as (s1 & [] & (b' & Hcl & ->)%claimState_ok & Hc).
  apply VerifyRaw_payload in Hv as (payload & Hp & ->).
  exists payload, s, b', (sc_now call 1). split_and!; [done|done|done|].
  match type of Hc with ?m ?s0 = _ => assert (relates setup_evolves m) as Hr end.
  { unfold issueState, verifyState. relates_steps. }
  specialize (Hr (ss_set_builds b' s)). by rewrite Hc in Hr.
Qed.

Lemma Complete_consumes call request s s' result :
  Complete cfg call request s = (s', Ok result) → consumes (mq_State request) s s'.
Proof.
  intros Hc. unfold Complete in Hc.
  apply op_bind_ok in Hc as (s1 & _ & [_ ->]%op_guard_ok & Hc).
  apply op_bind_ok in Hc as (s1 & v & [Hv ->]%op_lift_ok & Hc).
  apply op_bind_ok in Hc as (s1 & id & [_ ->]%op_lift_ok & Hc).
  apply op_bind_ok in Hc as (s1 & [] & (b' & Hcl & ->)%claimState_ok & Hc).
  apply VerifyRaw_payload in Hv as (payload & Hp & ->).
  exists payload, s, b', (sc_now call 1). split_and!; [done|done|done|].
  match type of Hc with ?m ?s0 = _ => assert (relates setup_evolves m) as Hr end.
  { relates_steps; [by eapply BindGitHubUser_evolves|by eapply PutSetupHandoff_evolves]. }
  specialize (Hr (ss_set_builds b' s)). by rewrite Hc in Hr.
Qed.

Lemma consumes_once raw s s1 evs s2 :
  keyed (ss_builds s) → consumes raw s s1 → ¬ consumes raw (setupRun cfg s1 evs) s2.
Proof.
  intros Hk (v & s0 & b' & now & Hv & Hpre & Hc & Hpost) (v' & t0 & c' & now' & Hv' & Hpre' & Hc' & _).
  rewrite Hv in Hv'. injection Hv' as <-.
  assert (keyed b') as Hkb.
  { apply (evolves_keyed s (ss_set_builds b' s0)); [|done]. etrans; [exact Hpre|]. by eapply ClaimState_evolves. }
  apply ClaimState_once in Hc as [_ Hc]. apply ClaimState_once in Hc' as [Hc' _].
  assert (setup_evolves (ss_set_builds b' s0) t0) as [[bevs Hb] _ _].
  { etrans; [exact Hpost|]. etrans; [apply (setupRun_evolves cfg)|exact Hpre']. }
  simpl in Hb. by erewrite Hb, storeRun_claims in Hc'.
Qed.
End once.

(** A signed state is used once: after a call of [Continue], or of
    [Complete], succeeded with a state, then whatever calls of the service and
    of the store follow, no call of that step succeeds with the same state. *)
Theorem setup_state_once `{Environment} `{StateJSON} (cfg : SetupService) s s1 evs call1 call2 :
  keyed (ss_builds s) →
  (∀ r1 r2 result, Continue cfg call1 r1 s = (s1, Ok result) → cq_State r2 = cq_State r1 →
     ∀ s2 result', Continue cfg call2 r2 (setupRun cfg s1 evs) ≠ (s2, Ok result')) ∧
  (∀ r1 r2 result, Complete cfg call1 r1 s = (s1, Ok result) → mq_State r2 = mq_State r1 →
     ∀ s2 result', Complete cfg call2 r2 (setupRun cfg s1 evs) ≠ (s2, Ok result')).
Proof.
  intros Hk. split; intros r1 r2 result H1 Heq s2 result' H2.
  - apply Continue_consumes in H1, H2. rewrite Heq in H2. by eapply consumes_once.
  - apply Complete_consumes in H1, H2. rewrite Heq in H2. by eapply consumes_once.
Qed.

(** * A handoff is used once *)

Lemma ConsumeSetupHandoff_ok s d actor key fp now s' consumed :
  ConsumeSetupHandoff s d actor key fp now = Ok (s', consumed) →
  ∃ h h', ss_handoffs s !! d = Some h ∧ ss_handoffs s' !! d = Some h' ∧
    mh_record h' = mh_record h ∧ co_handoff consumed.1 = mh_record h ∧
    ho_ActorID (mh_record h) = actor ∧ now < ho_ExpiresAt (mh_record h) ∧
    is_Some (mh_consumedAt h') ∧ mh_linkIdempotencyKey h' = key ∧ mh_linkFingerprint h' = fp ∧
    (is_Some (mh_consumedAt h) →
       mh_linkIdempotencyKey h = key ∧ mh_linkFingerprint h = fp ∧ consumed.2 = true) ∧
    (mh_consumedAt h = None → consumed.2 = false) ∧ ss_builds s' = ss_builds s.
Proof.
  unfold ConsumeSetupHandoff. case_match; [done|]. destruct (ss_handoffs s !! d) as [h|] eqn:Hd; [|done].
  case_match eqn:Hg; [done|]. bool_prop. destruct (mh_consumedAt h) eqn:Hc.
  - case_match eqn:Hk; [done|]. intros [= <- <-]. bool_prop. exists h, h. rewrite Hc.
    split_and!; try done; by eauto.
  - intros [= <- <-]. eexists h, _. split; [done|]. simpl. rewrite lookup_insert_eq.
    split_and!; try done. intros [? Hs]. congruence.
Qed.

Lemma Link_consumes `{Environment} `{StateJSON} (cfg : SetupService) call request s s' result :
  Link call request s = (s', Ok result) →
  ∃ s1 consumed, ConsumeSetupHandoff s (handoffDigest (lq_Handoff request)) (lq_ActorID request)
      (lq_IdempotencyKey request) (lq_RequestFingerprint request) (sc_now call 0) = Ok (s1, consumed) ∧
    setup_evolves s1 s' ∧ (consumed.2 = true → lr_Replay result = true).
Proof.
  intros Hl. unfold Link in Hl.
  apply op_bind_ok in Hl as (s1 & [] & [_ ->]%op_guard_ok & Hl).
  apply op_bind_ok in Hl as (s1 & consumed & Hc%consumeHandoff_ok & Hl).
  exists s1, consumed. split; [done|].
  match type of Hl with ?m _ = _ => assert (relates setup_evolves m) as Hr end.
  { unfold op_builds. relates_steps.
    - eapply (evolves_builds _ _ (0, StSource (SrcInstallation _))). simpl. unfold sourceStep. simpl.
      by erewrite Ha.
    - eapply (evolves_builds _ _ (sc_now call 1, StSource (SrcReconcile _ _))). simpl.
      unfold sourceStep. simpl. by erewrite Ha.
    - by eapply CompleteSetupHandoff_evolves. }
  specialize (Hr s1). rewrite Hl in Hr. split; [done|]. intros Hrep.
  op_inv. simpl. by rewrite Hrep.
Qed.

(** A handoff token links once: if two calls of [Link] succeed with one
    token, whatever happens in between, then they are the same request - the
    actor the token was made for, one idempotency key and one fingerprint - and
    the second is reported as a replay. *)
Theorem setup_handoff_once `{Environment} `{StateJSON} (cfg : SetupService) s s1 s2 evs
    call1 r1 result1 call2 r2 result2 :
  Link call1 r1 s = (s1, Ok result1) → Link call2 r2 (setupRun cfg s1 evs) = (s2, Ok result2) →
  lq_Handoff r2 = lq_Handoff r1 →
  lq_ActorID r2 = lq_ActorID r1 ∧ lq_IdempotencyKey r2 = lq_IdempotencyKey r1 ∧
  lq_RequestFingerprint r2 = lq_RequestFingerprint r1 ∧ lr_Replay result2 = true.
Proof.
  intros H1 H2 Heq.
  apply (Link_consumes cfg) in H1 as (t1 & consumed1 & Hc1 & Hev & _).
  apply (Link_consumes cfg) in H2 as (t2 & consumed2 & Hc2 & _ & Hrep). rewrite Heq in Hc2.
  apply ConsumeSetupHandoff_ok in Hc1 as
    (h1 & h1' & _ & Hd1 & Hrec1 & _ & Ha1 & _ & Hs1 & Hk1 & Hf1 & _).
  apply ConsumeSetupHandoff_ok in Hc2 as
    (h2 & h2' & Hd2 & _ & _ & _ & Ha2 & _ & _ & _ & _ & Hold & _).
  assert (setup_evolves t1 (setupRun cfg s1 evs)) as Hall
    by (etrans; [exact Hev|apply setupRun_evolves]).
  destruct (se_handoffs _ _ Hall _ _ Hd1) as (h & Hd & Hrec & Hcons). rewrite Hd2 in Hd. injection Hd as <-.
  destruct (Hcons Hs1) as (E & Ek & Ef). rewrite <- E in Hs1. destruct (Hold Hs1) as (Ek2 & Ef2 & Hr2).
  split_and!; [congruence..|by apply Hrep].
Qed.

(** * Where a handoff comes from *)

(** Every handoff of [s'] was in [s], with the same record. *)
Definition no_new (s s' : SetupState) : Prop := ∀ d h',
  ss_handoffs s' !! d = Some h' → ∃ h, ss_handoffs s !! d = Some h ∧ mh_record h = mh_record h'.

#[export] Instance no_new_preorder : PreOrder no_new.
Proof.
  split; [by intros s d h; exists h|]. intros s1 s2 s3 H12 H23 d h3 (h2 & Hd2 & <-)%H23. by apply H12.
Qed.

Lemma no_new_same s s' : ss_handoffs s' = ss_handoffs s → no_new s s'.
Proof. intros E d h. rewrite E. by exists h. Qed.

Lemma no_new_put s d h h0 :
  ss_handoffs s !! d = Some h0 → mh_record h0 = mh_record h →
  no_new s (ss_set_handoffs (<[d := h]> (ss_handoffs s)) s).
Proof.
  intros Hd Hr d' h'. simpl. destruct (decide (d = d')) as [<-|].
  - rewrite lookup_insert_eq. intros [= <-]. by exists h0.
  - rewrite lookup_insert_ne by done. by exists h'.
Qed.

Lemma PutSetupAuthorization_no_new s a s' out : PutSetupAuthorization s a = Ok (s', out) → no_new s s'.
Proof. unfold PutSetupAuthorization. intros. repeat case_match; simplify_eq; by apply no_new_same. Qed.

Lemma BindGitHubUser_no_new s actor identity s' : BindGitHubUser s actor identity = Ok s' → no_new s s'.
Proof. unfold BindGitHubUser. intros. repeat case_match; simplify_eq; by apply no_new_same. Qed.

Lemma ConsumeSetupHandoff_no_new s d actor key fp now s' out :
  ConsumeSetupHandoff s d actor key fp now = Ok (s', out) → no_new s s'.
Proof.
  unfold ConsumeSetupHandoff. intros. repeat case_match; simplify_eq; [done|]. by eapply no_new_put.
Qed.

Lemma CompleteSetupHandoff_no_new s d id s' : CompleteSetupHandoff s d id = Ok s' → no_new s s'.
Proof. unfold CompleteSetupHandoff. intros. repeat case_match; simplify_eq. by eapply no_new_put. Qed.

Section origin.
Context `{Environment} `{StateJSON} (cfg : SetupService).

(** What the provider vouched for when a handoff was made. *)
Definition vouched (call : SetupCall) (request : CompleteSetupRequest) (record : SetupHandoff) : Prop :=
  ∃ expectedUserID expectedAccountID,
    let provider := mkProviderResult (ho_GitHubUser record) (ho_Installation record) (ho_Repositories record) in
    let id := gi_ID (ho_Installation record) in
    sc_provider call (mkProviderRequest (mq_Code request) id expectedUserID expectedAccountID) = Some provider ∧
    validateSetupProviderResult (sv_AppID cfg) id expectedUserID expectedAccountID provider = Ok tt.

Definition madeBy (call : SetupCall) (request : CompleteSetupRequest) (r : res SetupErr CompleteSetupResult)
    (record : SetupHandoff) : Prop :=
  ∃ result, r = Ok result ∧ handoffDigest (cr_Handoff result) = ho_Digest record ∧
    ho_ActorID record = mq_ActorID request ∧ vouched call request record.

Definition complete_post (call : SetupCall) (request : CompleteSetupRequest) (s s' : SetupState)
    (r : res SetupErr CompleteSetupResult) : Prop :=
  ∀ d h', ss_handoffs s' !! d = Some h' →
    (∃ h, ss_handoffs s !! d = Some h ∧ mh_record h = mh_record h') ∨
    (ho_Digest (mh_record h') = d ∧ madeBy call request r (mh_record h')).

Lemma complete_post_old call request s s' r : no_new s s' → complete_post call request s s' r.
Proof. intros Hn d h' Hd. left. by apply Hn. Qed.

Lemma validate_id appID id user account provider :
  validateSetupProviderResult appID id user account provider = Ok tt → gi_ID (pr_Installation provider) = id.
Proof. unfold validateSetupProviderResult. case_match eqn:E; [done|]. bool_prop. done. Qed.

Lemma PutSetupHandoff_post call request s s0 s' handoff result :
  no_new s s0 → PutSetupHandoff s0 handoff = Ok s' →
  madeBy call request (Ok result) handoff → complete_post call request s s' (Ok result).
Proof.
  intros Hn Hp Hm d h'. unfold PutSetupHandoff in Hp. repeat case_match; simplify_eq. simpl.
  destruct (decide (ho_Digest handoff = d)) as [<-|].
  - rewrite lookup_insert_eq. intros [= <-]. by right.
  - rewrite lookup_insert_ne by done. intros Hd. left. by apply Hn.
Qed.
Lemma complete_post_bind {A} call request s s1 (m : op A) k :
  no_new s s1 → relates no_new m →
  (∀ s2 a, m s1 = (s2, Ok a) → no_new s s2 → complete_post call request s (k a s2).1 (k a s2).2) →
  complete_post call request s (op_bind m k s1).1 (op_bind m k s1).2.
Proof.
  intros Hn Hm Hk. specialize (Hm s1). apply (op_bind_post (complete_post call request s)).
  - intros s2 e E. rewrite E in Hm. apply complete_post_old. by etrans.
  - intros s2 a E. rewrite E in Hm. apply Hk; [done|]. by etrans.
Qed.

Lemma Complete_post call request s :
  complete_post call request s (Complete cfg call request s).1 (Complete cfg call request s).2.
Proof.
  unfold Complete, verifyState, claimState.
  apply complete_post_bind; [done|relates_steps|intros s1 _ _ Hn1].
  apply complete_post_bind; [done|relates_steps|intros s2 v _ Hn2].
  apply complete_post_bind; [done|relates_steps|intros s3 id _ Hn3].
  apply complete_post_bind; [done|relates_steps; by apply no_new_same|intros s4 _ _ Hn4].
  apply complete_post_bind; [done|relates_steps|intros s5 user _ Hn5].
  apply complete_post_bind; [done|relates_steps|intros s6 provider Hpr Hn6].
  apply complete_post_bind; [done|relates_steps|intros s7 [] [Hval ->]%op_lift_ok Hn7].
  apply complete_post_bind; [done|relates_steps; by eapply BindGitHubUser_no_new|intros s8 _ _ Hn8].
  apply complete_post_bind; [done|relates_steps|intros s9 issued [Hiss ->]%op_lift_ok Hn9].
  apply (op_bind_post (complete_post call request s)).
  - intros s10 e E. unfold op_store in E. repeat case_match; simplify_eq. by apply complete_post_old.
  - intros s10 [] E. apply op_store_ok, res_bind_ok in E as (t & Hput & [= ->]).
    eapply PutSetupHandoff_post; [exact Hn9|exact Hput|].
    eexists. split; [reflexivity|]. simpl. split_and!; [|done|].
    + unfold IssueHandoff in Hiss. repeat case_match; simplify_eq. done.
    + apply validate_id in Hval as Hid. exists user, (vs_ExpectedAccountID v). simpl. rewrite Hid.
      destruct provider. split; [|done].
      destruct (sc_provider call _) as [p|] eqn:E; [|done]. injection Hpr as _ ->. done.
Qed.

Lemma Link_no_new call request : relates no_new (Link call request).
Proof.
  unfold Link, op_builds. relates_steps; try by apply no_new_same.
  - intros s. destruct (consumeHandoff call request s) as [s' [consumed|e]] eqn:Hc; simpl.
    + apply consumeHandoff_ok in Hc. by eapply ConsumeSetupHandoff_no_new.
    + unfold consumeHandoff, ConsumeHandoffRaw, linkConsumer in Hc.
      destruct (handoffShape _); cbn [negb fst] in Hc; [|by simplify_eq].
      destruct (ConsumeSetupHandoff _ _ _ _ _ _) as [[s1 out]|]; simpl in Hc; by simplify_eq.
  - by eapply CompleteSetupHandoff_no_new.
Qed.

Lemma setupStep_post s ev d h' :
  ss_handoffs (setupStep cfg s ev) !! d = Some h' →
  (∃ h, ss_handoffs s !! d = Some h ∧ mh_record h = mh_record h') ∨
  ∃ call request, ev = SvComplete call request ∧ ho_Digest (mh_record h') = d ∧
    madeBy call request (Complete cfg call request s).2 (mh_record h').
Proof.
  destruct ev as [call request|call request|call request|call request|ev]; simpl; intros Hd.
  - left. revert d h' Hd. assert (relates no_new (Begin cfg call request)) as Hr; [|by apply Hr].
    unfold Begin, issueState, verifyState. relates_steps. by eapply PutSetupAuthorization_no_new.
  - left. revert d h' Hd. assert (relates no_new (Continue cfg call request)) as Hr; [|by apply Hr].
    unfold Continue, issueState, verifyState, claimState. relates_steps. by apply no_new_same.
  - apply Complete_post in Hd as [Hd|[Hd Hm]]; [by left|]. right. by exists call, request.
  - left. by apply (Link_no_new call request s) in Hd.
  - left. by exists h'.
Qed.

(** A handoff of a run was there at the start or was made by a call of
    [Complete] of the run. *)
Lemma setupRun_origin evs : ∀ s d h',
  ss_handoffs (setupRun cfg s evs) !! d = Some h' →
  (∃ h, ss_handoffs s !! d = Some h ∧ mh_record h = mh_record h') ∨
  ∃ evs1 evs2 call request, evs = (evs1 ++ SvComplete call request :: evs2)%list ∧
    ho_Digest (mh_record h') = d ∧
    madeBy call request (Complete cfg call request (setupRun cfg s evs1)).2 (mh_record h').
Proof.
  induction evs as [|ev evs IH]; intros s d h' Hd; [left; by exists h'|].
  change (setupRun cfg s (ev :: evs)) with (setupRun cfg (setupStep cfg s ev) evs) in Hd.
  apply IH in Hd as [(h & Hd & <-)|(evs1 & evs2 & call & request & -> & Hdig & Hm)].
  - apply setupStep_post in Hd as [?|(call & request & -> & Hdig & Hm)]; [by left|].
    right. by exists [], evs, call, request.
  - right. by exists (ev :: evs1), evs2, call, request.
Qed.
End origin.

(** What a call of [Link] that succeeds leaves in the build store. *)
Lemma Link_result `{StateJSON} call request s s' result :
  Link call request s = (s', Ok result) →
  ∃ h, ss_handoffs s !! handoffDigest (lq_Handoff request) = Some h ∧
    let record := mh_record h in
    ho_ActorID record = lq_ActorID request ∧ sc_now call 0 < ho_ExpiresAt record ∧
    s_installations (ss_builds s') !! lr_InstallationID result =
      Some (linkedInstallation (lr_InstallationID result) record (sc_now call 1)) ∧
    re_Identity <$> lr_Repositories result ≡ₚ ho_Repositories record.
Proof.
  intros Hl. unfold Link, op_builds in Hl.
  apply op_bind_ok in Hl as (s1 & [] & [_ ->]%op_guard_ok & Hl).
  apply op_bind_ok in Hl as (s1 & consumed & Hc%consumeHandoff_ok & Hl).
  apply ConsumeSetupHandoff_ok in Hc as (h & h' & Hd & _ & _ & Hrec & Ha & Hexp & _ & _ & _ & _ & _ & _).
  apply op_bind_ok in Hl as (s2 & linked & _ & Hl).
  apply op_bind_ok in Hl as (s3 & [] & Hp%op_store_ok & Hl).
  apply op_bind_ok in Hl as (s4 & [] & Hr%op_store_ok & Hl).
  apply op_bind_ok in Hl as (s5 & [] & Hcomp%op_store_ok & [= <- <-]).
  exists h. split; [done|]. simpl. split; [done|]. split; [done|]. rewrite Hrec in *.
  apply res_bind_ok in Hp as (b1 & Hp & [= <-]). apply res_bind_ok in Hr as (b2 & Hr & [= <-]).
  apply res_bind_ok in Hcomp as (t & Hcomp & [= ->]). split.
  - assert (ss_builds s5 = b2) as ->.
    { unfold CompleteSetupHandoff in Hcomp. repeat case_match; by simplify_eq. }
    unfold ReconcileRepositories in Hr. case_match; [done|]. case_match; [|done]. inv_res. simpl.
    unfold PutInstallation in Hp. case_match; [done|]. repeat case_match; simplify_eq; simpl;
      by rewrite lookup_insert_eq.
  - rewrite sort_slice_permutation, <- list_fmap_compose. simpl.
    by rewrite (list_fmap_ext _ id) by done; rewrite list_fmap_id.
Qed.

(** An installation is linked only as the provider verified it: in a run
    that starts without handoffs, when a call of [Link] succeeds, an earlier
    call of [Complete] by the same actor made the token it presents, the
    token has not expired, the provider vouched in that call for the user, the
    installation and its repositories, and these are the installation that is
    now active in the store and the repositories that are returned. *)
Theorem Link_verified `{Environment} `{StateJSON} (cfg : SetupService) evs s0 call request s' result :
  ss_handoffs s0 = ∅ → Link call request (setupRun cfg s0 evs) = (s', Ok result) →
  ∃ evs1 evs2 call' request' made record,
    evs = (evs1 ++ SvComplete call' request' :: evs2)%list ∧
    (Complete cfg call' request' (setupRun cfg s0 evs1)).2 = Ok made ∧
    handoffDigest (cr_Handoff made) = handoffDigest (lq_Handoff request) ∧
    mq_ActorID request' = lq_ActorID request ∧ sc_now call 0 < ho_ExpiresAt record ∧
    vouched cfg call' request' record ∧
    s_installations (ss_builds s') !! lr_InstallationID result =
      Some (linkedInstallation (lr_InstallationID result) record (sc_now call 1)) ∧
    re_Identity <$> lr_Repositories result ≡ₚ ho_Repositories record.
Proof.
  intros Hs0 Hl. apply Link_result in Hl as (h & Hd & Ha & Hexp & Hin & Hre).
  apply setupRun_origin in Hd as
    [(h0 & Hd & _)|(evs1 & evs2 & call' & request' & -> & Hdig & made & Hmade & Htok & Hact & Hv)];
    [by rewrite Hs0 in Hd|].
  exists evs1, evs2, call', request', made, (mh_record h). split_and!; try done; congruence.
Qed.

(** * Evaluated

    An actor continues a setup state, completes it and links the installation. *)

Definition sampleActor : string := "11111111-1111-4111-8111-111111111111".
Definition sampleLinked : string := "22222222-2222-4222-8222-222222222222".
Definition sampleService : SetupService := mkSetupService 5 (10 * minute) 0 true true.

Definition oauthPayload : statePayload :=
  issuedPayload (repeat 7 32) (sampleNow + minute) (10 * minute)
    (mkStateRequest StatePurposeOAuth sampleActor "" 42 "github-installation-7").

Definition setupJSON : StateJSON := {|
  decodeClosedState text :=
    if String.eqb text (marshalPayload samplePayload) then Some samplePayload
    else if String.eqb text (marshalPayload oauthPayload) then Some oauthPayload else None;
|}.

Definition sampleProvider : SetupProviderResult :=
  mkProviderResult (mkAccount 9 "octo" "User")
    (mkProviderInstallation 7 5 (mkAccount 42 "acme" "Organization") "selected"
       {["metadata" := "read"; "contents" := "read"]} None)
    [mkRepoIdentity 100 "web" 42 "acme"].

(** Every reading of the clock is [at]. *)
Definition sampleCall (at_ : Time) (random : list Z) : SetupCall :=
  mkCall (fun _ => at_) (fun _ => Some sampleKey) (Some random)
    (fun request => if (pq_InstallationID request =? 7) then Some sampleProvider else None)
    (fun _ _ _ _ _ => Some (sampleLinked, false)).

Definition emptySetup : SetupState := mkSetupState NewMemoryStore ∅ ∅ ∅ ∅.

Definition sampleContinue : SetupEvent :=
  SvContinue (sampleCall (sampleNow + minute) (repeat 7 32)) (mkContinueRequest sampleActor sampleState 7).

Definition oauthState : string :=
  match Issue (Some sampleKey) (Some (repeat 7 32)) (sampleNow + minute) (10 * minute)
          (mkStateRequest StatePurposeOAuth sampleActor "" 42 "github-installation-7") with
  | Ok raw => raw
  | Err _ => ""
  end.

Definition sampleComplete : SetupEvent :=
  SvComplete (sampleCall (sampleNow + 2 * minute) (repeat 8 32))
    (mkCompleteRequest sampleActor oauthState "0123456789abcdef").

Definition sampleLink : LinkSetupRequest :=
  mkLinkRequest sampleActor (base64_encode (repeat 8 32)) "idempotency-key-1"
    ("sha256:" +:+ hex_encode (repeat 0 32)) "request-1".

#[refine] Definition setupEnvironment : Environment := {|
  env_order := forward_order;
  env_json := {| decodePush _ := None; decodeInstallation _ := None; decodeRepositories _ := None |};
  env_builder := {| requestValid _ := true; planJob _ := None; checkoutValid _ := true |};
  definitionValid _ := true;
|}.
Defined.

Definition sampleSetup (evs : list SetupEvent) : SetupState :=
  setupRun (H := setupJSON) (H0 := setupEnvironment) sampleService emptySetup evs.

Definition sampleLinkCall : SetupCall := sampleCall (sampleNow + 3 * minute) [].

(** The state that [Link] leaves, and its result. *)
Definition linkedSetup : SetupState * res SetupErr LinkSetupResult :=
  Link sampleLinkCall sampleLink (sampleSetup [sampleContinue; sampleComplete]).

Example linked_ok :
  match linkedSetup.2 with
  | Ok result => (lr_InstallationID result, re_Identity <$> lr_Repositories result, lr_Replay result) =
                 (sampleLinked, [mkRepoIdentity 100 "web" 42 "acme"], false)
  | Err _ => False
  end.
Proof. vm_compute. reflexivity. Qed.

Lemma emptySetup_keyed : keyed (ss_builds emptySetup).
Proof. intros k a Ha. simpl in Ha. by rewrite lookup_empty in Ha. Defined.

(** The outcomes of the calls, evaluated once. *)
Definition sampleContinued : SetupState * res SetupErr SetupStateResult :=
  Continue (H := setupJSON) sampleService (sampleCall (sampleNow + minute) (repeat 7 32))
    (mkContinueRequest sampleActor sampleState 7) emptySetup.

Definition linkedID : string :=
  match linkedSetup.2 with Ok result => lr_InstallationID result | Err _ => "" end.

Definition relinked : SetupState * res SetupErr LinkSetupResult :=
  Link sampleLinkCall sampleLink linkedSetup.1.

Lemma sample_outcomes :
  is_ok sampleContinued.2 && is_ok linkedSetup.2 && is_ok relinked.2 && String.eqb linkedID sampleLinked = true.
Proof. vm_compute. reflexivity. Qed.

Lemma outcome_ok {A} (out : SetupState * res SetupErr A) :
  is_ok out.2 = true → ∃ s result, out = (s, Ok result).
Proof. destruct out as [s [result|e]]; simpl; [by exists s, result|done]. Qed.

(** The second use of the state, two minutes later, fails. *)
Lemma setup_state_once_witness :
  ∃ s1 result, sampleContinued = (s1, Ok result) ∧
  ∀ s2 result',
    Continue (H := setupJSON) sampleService (sampleCall (sampleNow + 3 * minute) (repeat 9 32))
      (mkContinueRequest sampleActor sampleState 7)
      (setupRun (H := setupJSON) (H0 := setupEnvironment) sampleService s1 []) ≠ (s2, Ok result').
Proof.
  pose proof sample_outcomes as Hok. bool_prop.
  destruct (outcome_ok sampleContinued) as (s1 & result & E); [assumption|].
  exists s1, result. split; [exact E|].
  exact (proj1 (setup_state_once (H := setupEnvironment) (H0 := setupJSON) sampleService emptySetup s1 []
    (sampleCall (sampleNow + minute) (repeat 7 32)) (sampleCall (sampleNow + 3 * minute) (repeat 9 32))
    emptySetup_keyed) _ _ result E eq_refl).
Defined.

(** The same request again is a replay. *)
Lemma setup_handoff_once_witness :
  ∃ s2 result2, relinked = (s2, Ok result2) ∧ lr_Replay result2 = true.
Proof.
  pose proof sample_outcomes as Hok. bool_prop.
  destruct (outcome_ok linkedSetup) as (s1 & result1 & E1); [assumption|].
  destruct (outcome_ok relinked) as (s2 & result2 & E2); [assumption|].
  exists s2, result2. split; [exact E2|]. unfold relinked in E2. rewrite E1 in E2.
  exact (proj2 (proj2 (proj2 (setup_handoff_once (H := setupEnvironment) (H0 := setupJSON) sampleService _ s1 s2 []
    _ _ result1 _ _ result2 E1 E2 eq_refl)))).
Defined.

Lemma Link_verified_witness :
  ∃ s' result record, linkedSetup = (s', Ok result) ∧
    s_installations (ss_builds s') !! lr_InstallationID result =
      Some (linkedInstallation (lr_InstallationID result) record (sc_now sampleLinkCall 1)) ∧
    re_Identity <$> lr_Repositories result ≡ₚ ho_Repositories record.
Proof.
  pose proof sample_outcomes as Hok. bool_prop.
  destruct (outcome_ok linkedSetup) as (s' & result & E); [assumption|].
  destruct (Link_verified (H := setupEnvironment) (H0 := setupJSON) sampleService [sampleContinue; sampleComplete]
    emptySetup sampleLinkCall sampleLink s' result eq_refl E)
    as (evs1 & evs2 & call' & request' & made & record & _ & _ & _ & _ & _ & _ & Hin & Hre).
  exists s', result, record. split; [exact E|]. split; [exact Hin|exact Hre].
Defined.
