(* ===== verification/GitHubWebhook.v ===== *)
(** GitHub webhooks: the verification of a delivery and the parsing of its
    events, [internal/githubapp/webhook.go] and [events.go], and the acceptance
    of a delivery by the build store, [accept] of [internal/builds/webhook.go].

    [headers name] is [http.Header.Values].  The tokens of a JSON text, the
    decoding of a payload and the encoding of an event are [encoding/json]'s
    and are parameters ([WebhookJSON]). *)

From S2P Require Import Prelude Regexp GoStrings Digest Encoding Json BuildModel BuildAttempts BuildSources BuildDeliveries BuildStore Effects GitHubState.
From Stdlib Require Import Ascii.

Open Scope Z_scope.

(** * Verification *)

Definition webhook_event_re : regex :=
  RSeq (RClass is_lower) (RRep 0 63 (RClass (fun c => is_lower c || is_digit c || is_one_of "_" c))).

Definition delivery_id_re : regex :=
  let hex n := RTimes n (RClass is_lower_hex) in
  RSeq (hex 8%nat) (RSeq (RLit "-") (RSeq (hex 4%nat) (RSeq (RLit "-") (RSeq (hex 4%nat)
    (RSeq (RLit "-") (RSeq (hex 4%nat) (RSeq (RLit "-") (hex 12%nat)))))))).

Record WebhookEnvelope := mkEnvelope {
  we_AppID : Z;
  we_Event : string;
  we_DeliveryID : string;
  we_Body : string;
  we_ReceivedAt : Time;
  we_ReplayUntil : Time;
}.

(** [WebhookVerifier], less the secret reader and the clock. *)
Record WebhookVerifier := mkVerifier {
  wv_appID : Z;
  wv_maxBody : Z;
  wv_replayWindow : Duration;
}.

(** The body of a request: absent, broken while it is read, or bytes. *)
Inductive RequestBody : Type :=
| NoBody
| BrokenBody
| Body (bytes : string).

(** A request, with what the verifier reads for it: the secret and the time. *)
Record WebhookRequest := mkWebhookRequest {
  wr_headers : string → list string;
  wr_body : RequestBody;
  wr_secret : option (list Z);
  wr_now : Time;
}.

Definition exactlyOneHeader (headers : string → list string) (name : string) : option string :=
  match headers name with
  | [value] =>
      if String.eqb value "" || negb (String.eqb (trim_space value) value) || str_contains "," value
      then None else Some value
  | _ => None
  end.

Definition signatureHeader : string := "X-Hub-Signature-256".
Definition eventHeader : string := "X-GitHub-Event".
Definition deliveryHeader : string := "X-GitHub-Delivery".
Definition signaturePrefix : string := "sha256=".

Definition webhookSecret (secret : option (list Z)) : res GitHubErr (list Z) :=
  match secret with
  | None => Err ErrSecretUnavailable
  | Some secret =>
      if (Z.of_nat (length secret) <? 16) || (4096 <? Z.of_nat (length secret))
      then Err ErrSecretUnavailable else Ok secret
  end.

(** The bytes of the signature, if the header has the one form accepted. *)
Definition suppliedSignature (headers : string → list string) : option (list Z) :=
  match exactlyOneHeader headers signatureHeader with
  | None => None
  | Some signature =>
      if negb (str_len signature =? 71) || negb (has_prefix signaturePrefix signature) then None
      else match hex_decode (trim_prefix signaturePrefix signature) with
      | None => None
      | Some supplied =>
          if negb (length supplied =? 32)%nat || negb (String.eqb signature (to_lower signature))
          then None else Some supplied
      end
  end.

Definition matchingHeader (headers : string → list string) (name : string) (re : regex) : option string :=
  match exactlyOneHeader headers name with
  | Some value => if re_match re value then Some value else None
  | None => None
  end.

Definition Verify (v : WebhookVerifier) (request : WebhookRequest) : res GitHubErr WebhookEnvelope :=
  match suppliedSignature (wr_headers request) with
  | None => Err ErrInvalidWebhook
  | Some supplied =>
  match matchingHeader (wr_headers request) eventHeader webhook_event_re with
  | None => Err ErrInvalidWebhook
  | Some event =>
  match matchingHeader (wr_headers request) deliveryHeader delivery_id_re with
  | None => Err ErrInvalidWebhook
  | Some deliveryID =>
  match wr_body request with
  | NoBody | BrokenBody => Err ErrInvalidWebhook
  | Body bytes =>
      let exactBody := str_take (Z.to_nat (wv_maxBody v + 1)) bytes in
      if wv_maxBody v <? str_len exactBody then Err ErrWebhookTooLarge
      else
        let* secret := webhookSecret (wr_secret request) in
        if negb (bool_decide (hmac_sha256 secret (string_bytes exactBody) = supplied))
        then Err ErrInvalidWebhook
        else Ok (mkEnvelope (wv_appID v) event deliveryID exactBody (wr_now request)
                   (wr_now request + wv_replayWindow v))
  end end end end.

(** The key under which a delivery is claimed. *)
Definition deliveryKey (appID installationID : Z) (deliveryID : string) : string :=
  hex_encode (sha256 (string_bytes (str_join nul
    ["githubapp-delivery-v2"; "github"; format_int appID; format_int installationID; deliveryID]))).

Definition deliveryClaim (envelope : WebhookEnvelope) (installationID : Z) : res GitHubErr OneTimeClaim :=
  if (we_AppID envelope <=? 0) || (installationID <=? 0) ||
     negb (re_match delivery_id_re (we_DeliveryID envelope)) || is_zero_time (we_ReceivedAt envelope) ||
     negb (we_ReceivedAt envelope <? we_ReplayUntil envelope)
  then Err ErrInvalidWebhook
  else Ok (mkClaim "github-delivery" (deliveryKey (we_AppID envelope) installationID (we_DeliveryID envelope))
             (we_ReplayUntil envelope) true).

(** [claimDelivery] returns the store the claimer leaves when the delivery was
    already claimed, too. *)
Definition claimDelivery {S} (claimer : ReplayClaimer S) (s : S) (envelope : WebhookEnvelope)
    (installationID : Z) : S * res GitHubErr unit :=
  match deliveryClaim envelope installationID with
  | Err e => (s, Err e)
  | Ok claim =>
      match claimer s claim with
      | Err e => (s, Err (FromClaimer e))
      | Ok (s', ok) => (s', if ok then Ok tt else Err ErrWebhookReplay)
      end
  end.

Definition ClaimEventDelivery {S} (claimer : ReplayClaimer S) (s : S) (envelope : WebhookEnvelope)
    (event : Event) : S * res GitHubErr unit :=
  let (installationID, ok) := EventInstallationID event in
  if negb ok then (s, Err ErrInvalidWebhook) else claimDelivery claimer s envelope installationID.

(** * Payloads *)

Record webhookUser := mkWebhookUser {
  wu_ID : Z;
  wu_Login : string;
  wu_Type : string;
}.

Record webhookRepository := mkWebhookRepository {
  wp_ID : Z;
  wp_Name : string;
  wp_FullName : string;
  wp_Owner : webhookUser;
}.

Record pushPayload := mkPushPayload {
  pp_Ref : string;
  pp_After : string;
  pp_Created : bool;
  pp_Deleted : bool;
  pp_Forced : bool;
  pp_Repository : webhookRepository;
  pp_InstallationID : Z;
  pp_Sender : webhookUser;
}.

Record webhookInstallation := mkWebhookInstallation {
  wi_ID : Z;
  wi_Account : webhookUser;
  wi_RepositorySelection : string;
  wi_Permissions : gmap string string;
  wi_SuspendedAt : option Time;
}.

Record installationPayload := mkInstallationPayload {
  ip_Action : string;
  ip_Installation : webhookInstallation;
  ip_Sender : webhookUser;
}.

Record repositoriesPayload := mkRepositoriesPayload {
  rp_Action : string;
  rp_Installation : webhookInstallation;
  rp_RepositorySelection : string;
  rp_Added : list webhookRepository;
  rp_Removed : list webhookRepository;
  rp_Sender : webhookUser;
}.

Class WebhookJSON : Type := {
  jsonTokens : string → list token;
  unmarshalPush : string → option pushPayload;
  unmarshalInstallation : string → option installationPayload;
  unmarshalRepositories : string → option repositoriesPayload;
  marshalEvent : Event → string;
}.

(** [decodeSingleJSON] *)
Definition decodeSingleJSON `{WebhookJSON} {A} (unmarshal : string → option A) (data : string) : option A :=
  match validateSingleJSON (jsonTokens data) with
  | Some (Ok _) => unmarshal data
  | _ => None
  end.

(** * Identities *)

Definition actor_login_re : regex :=
  let edge := RClass is_alnum in
  RSeq edge (ROpt (RSeq (RRep 0 98 (RClass (fun c => is_alnum c || is_one_of "_-[]" c)))
                        (RClass (fun c => is_alnum c || is_one_of "]" c)))).

(** [AccountIdentity.validate]; [loginPattern] is the [loginRE] of the builds. *)
Definition accountValid (a : AccountIdentity) : bool :=
  negb ((ac_ID a <=? 0) || negb (re_match login_re (ac_Login a)) ||
        (negb (String.eqb (ac_Type a) "User") && negb (String.eqb (ac_Type a) "Organization"))).

Definition actorValid (a : AccountIdentity) : bool :=
  negb ((ac_ID a <=? 0) || negb (re_match actor_login_re (ac_Login a)) ||
        (negb (String.eqb (ac_Type a) "User") && negb (String.eqb (ac_Type a) "Organization") &&
         negb (String.eqb (ac_Type a) "Bot"))).

(** [RepositoryIdentity.validate] *)
Definition repositoryIdentityValid (r : RepositoryIdentity) : bool :=
  negb ((ri_ID r <=? 0) || (ri_OwnerID r <=? 0) || negb (re_match repository_re (ri_Name r)) ||
        negb (re_match login_re (ri_OwnerLogin r)) || String.eqb (ri_Name r) "." ||
        String.eqb (ri_Name r) ".." || has_suffix ".git" (to_lower (ri_Name r))).

Definition userIdentity (u : webhookUser) : AccountIdentity := mkAccount (wu_ID u) (wu_Login u) (wu_Type u).

Definition accountIdentity (u : webhookUser) : res GitHubErr AccountIdentity :=
  if accountValid (userIdentity u) then Ok (userIdentity u) else Err ErrInvalidWebhook.

Definition actorIdentity (u : webhookUser) : res GitHubErr AccountIdentity :=
  if actorValid (userIdentity u) then Ok (userIdentity u) else Err ErrInvalidWebhook.

Definition fullName (r : RepositoryIdentity) : string := ri_OwnerLogin r +:+ "/" +:+ ri_Name r.

(** [webhookRepository.identity] *)
Definition repositoryIdentity (r : webhookRepository) : res GitHubErr RepositoryIdentity :=
  let* owner := accountIdentity (wp_Owner r) in
  let identity := mkRepoIdentity (wp_ID r) (wp_Name r) (wu_ID (wp_Owner r)) (wu_Login (wp_Owner r)) in
  if negb (repositoryIdentityValid identity) || negb (ac_ID owner =? ri_OwnerID identity) ||
     negb (equal_fold (wp_FullName r) (fullName identity))
  then Err ErrInvalidWebhook else Ok identity.

(** * Events *)

Definition object_id_re : regex :=
  RAlt (RTimes 40 (RClass is_lower_hex)) (RTimes 64 (RClass is_lower_hex)).

(** A byte that no rune of a valid reference name has: controls, DEL and the
    characters Git reserves.  (In valid UTF-8 these bytes stand for themselves.) *)
Definition refusedInRef (c : ascii) : bool :=
  in_range "000" "031" c || Ascii.eqb c "127" || is_one_of " ~^:?*[\" c.

Definition validRefName (name : string) : bool :=
  negb (String.eqb name "" || String.eqb name "@" || (255 <? str_len name) || negb (valid_utf8 name) ||
        has_prefix "/" name || has_suffix "/" name || str_contains "//" name || str_contains ".." name ||
        str_contains "@{" name || has_suffix "." name || has_suffix ".lock" (to_lower name)) &&
  negb (existsb refusedInRef (String.list_ascii_of_string name)) &&
  forallb (fun part => negb (String.eqb part "" || String.eqb part "." || String.eqb part ".." ||
                             has_prefix "." part)) (split_byte "/" name).

Definition validWebhookRef (ref : string) : bool :=
  if has_prefix "refs/heads/" ref then validRefName (trim_prefix "refs/heads/" ref)
  else if has_prefix "refs/tags/" ref then validRefName (trim_prefix "refs/tags/" ref)
  else false.

(** [permissionsFromStrings(raw, true)] *)
Definition permissionsFromStrings (raw : gmap string string) : option (gmap string string) :=
  if forallb (fun entry => re_match permission_re entry.1 && validLevel entry.2) (map_to_list raw)
  then Some raw else None.

Definition validateWebhookInstallation (installation : webhookInstallation) (senderRaw : webhookUser)
    : res GitHubErr (AccountIdentity * gmap string string * AccountIdentity) :=
  if (wi_ID installation <=? 0) || negb (validSelection (wi_RepositorySelection installation))
  then Err ErrInvalidWebhook
  else
    let* account := accountIdentity (wi_Account installation) in
    let* sender := actorIdentity senderRaw in
    match permissionsFromStrings (wi_Permissions installation) with
    | None => Err ErrInvalidWebhook
    | Some permissions =>
        if (Z.of_nat (size permissions) =? 0) then Err ErrInvalidWebhook
        else Ok (account, permissions, sender)
    end.

(** The loop of [webhookRepositoryIdentities], with its [seen] set. *)
Fixpoint webhookRepositoryIdentities (raw : list webhookRepository) (account : AccountIdentity)
    (seen : gset Z) : res GitHubErr (list RepositoryIdentity) :=
  match raw with
  | [] => Ok []
  | repository :: rest =>
      match repositoryIdentity repository with
      | Err _ => Err ErrInvalidWebhook
      | Ok identity =>
          if negb (ri_OwnerID identity =? ac_ID account) ||
             negb (equal_fold (ri_OwnerLogin identity) (ac_Login account)) then Err ErrInvalidWebhook
          else if bool_decide (ri_ID identity ∈ seen) then Err ErrInvalidWebhook
          else
            let* identities := webhookRepositoryIdentities rest account ({[ri_ID identity]} ∪ seen) in
            Ok (identity :: identities)
      end
  end.

Section parse.
Context `{WebhookJSON}.

Definition parsePushEvent (body : string) : res GitHubErr PushEvent :=
  match decodeSingleJSON unmarshalPush body with
  | None => Err ErrInvalidWebhook
  | Some payload =>
      if negb (validWebhookRef (pp_Ref payload)) || negb (re_match object_id_re (pp_After payload)) ||
         (pp_InstallationID payload <=? 0) then Err ErrInvalidWebhook
      else
        let allZero := only_bytes "0" (pp_After payload) in
        if (pp_Deleted payload && negb allZero) || (negb (pp_Deleted payload) && allZero) ||
           (pp_Created payload && pp_Deleted payload) then Err ErrInvalidWebhook
        else
          let* repository := repositoryIdentity (pp_Repository payload) in
          let* sender := actorIdentity (pp_Sender payload) in
          Ok (mkPush (pp_Ref payload) (pp_Created payload) (pp_Deleted payload) (pp_Forced payload)
                (pp_After payload) repository (pp_InstallationID payload) sender)
  end.

(** [None] is an event that is not supported. *)
Definition parseInstallationEvent (body : string) : res GitHubErr (option InstallationEvent) :=
  match decodeSingleJSON unmarshalInstallation body with
  | None => Err ErrInvalidWebhook
  | Some payload =>
      if negb (str_in (ip_Action payload)
                 ["created"; "deleted"; "suspend"; "unsuspend"; "new_permissions_accepted"]) then Ok None
      else
        let installation := ip_Installation payload in
        let* out := validateWebhookInstallation installation (ip_Sender payload) in
        Ok (Some (mkInstallationEvent (ip_Action payload) (wi_ID installation) out.1.1
                    (wi_RepositorySelection installation) out.1.2 (wi_SuspendedAt installation) out.2))
  end.

Definition parseInstallationRepositoriesEvent (body : string)
    : res GitHubErr (option InstallationRepositoriesEvent) :=
  match decodeSingleJSON unmarshalRepositories body with
  | None => Err ErrInvalidWebhook
  | Some payload =>
      let adds := String.eqb (rp_Action payload) "added" in
      let removes := String.eqb (rp_Action payload) "removed" in
      if negb adds && negb removes then Ok None
      else
        let installation := rp_Installation payload in
        let* out := validateWebhookInstallation installation (rp_Sender payload) in
        let selection := if String.eqb (rp_RepositorySelection payload) ""
                         then wi_RepositorySelection installation else rp_RepositorySelection payload in
        if negb (validSelection selection) then Err ErrInvalidWebhook
        else
          let* added := webhookRepositoryIdentities (rp_Added payload) out.1.1 ∅ in
          let* removed := webhookRepositoryIdentities (rp_Removed payload) out.1.1 ∅ in
          if (adds && (isEmpty added || negb (isEmpty removed))) ||
             (removes && (isEmpty removed || negb (isEmpty added))) then Err ErrInvalidWebhook
          else Ok (Some (mkRepositoriesEvent (rp_Action payload) (wi_ID installation) out.1.1 selection
                           added removed out.2))
  end.

(** [ParseEvent]: [None] is an event that is ignored. *)
Definition ParseEvent (envelope : WebhookEnvelope) : res GitHubErr (option Event) :=
  switch (we_Event envelope)
    [("push",
       let* event := parsePushEvent (we_Body envelope) in Ok (Some (EvPush event)));
     ("installation",
       let* event := parseInstallationEvent (we_Body envelope) in Ok (EvInstallation <$> event));
     ("installation_repositories",
       let* event := parseInstallationRepositoriesEvent (we_Body envelope) in Ok (EvRepositories <$> event))]
    (Ok None).
End parse.

(** * Accepting a delivery: [WebhookService.accept] *)

Inductive WebhookErr : Set :=
| WhGitHub (e : GitHubErr)
| WhStore (e : BuildErr)
| WhWaker.

Record WebhookOutcome := mkOutcome {
  wo_ClaimKey : string;
  wo_State : DeliveryState;
  wo_AttemptIDs : list string;
  wo_Replay : bool;
}.

Record GitHubPushWake := mkWake {
  gw_GitHubAppID : Z;
  gw_InstallationID : Z;
  gw_RepositoryID : Z;
  gw_TargetRef : string;
  gw_AfterCommit : string;
  gw_DeliveryHash : string;
  gw_ReceivedAt : Time;
}.

(** The receipt of an event, and the claim key it is stored under. *)
Definition deliveryReceipt `{WebhookJSON} (envelope : WebhookEnvelope) (event : Event) (installationID : Z)
    : DeliveryReceipt :=
  let digest := "sha256:" +:+ hex_encode (sha256 (string_bytes (we_Body envelope))) in
  let (repository, ref) := match event with
                           | EvPush push => (ri_ID (pe_Repository push), pe_Ref push)
                           | _ => (0, "")
                           end in
  mkReceipt "" (we_AppID envelope) installationID (we_DeliveryID envelope) (we_Event envelope) digest
    (marshalEvent event) repository ref DeliveryClaimed "" "" zero_time (we_ReceivedAt envelope)
    (we_ReceivedAt envelope) None (we_ReceivedAt envelope).

(** [receiptClaimer]: the store, and the claim key and the replay it saw. *)
Definition receiptClaimer `{EventJSON} (receipt : DeliveryReceipt)
    : ReplayClaimer (MemoryStore * option (string * bool)) := fun c claim =>
  match ClaimDelivery c.1 claim receipt with
  | Ok (s', inserted) => Ok ((s', Some (cl_ClaimKey claim, negb inserted)), inserted)
  | Err e => Err e
  end.

(** The wake of the projection of the repository that a push was made to. *)
Definition wakePush (waker : option (GitHubPushWake → bool)) (envelope : WebhookEnvelope) (claimKey : string)
    (event : Event) : bool :=
  match event, waker with
  | EvPush push, Some wake =>
      if pe_Deleted push then true
      else wake (mkWake (we_AppID envelope) (pe_InstallationID push) (ri_ID (pe_Repository push)) (pe_Ref push)
                   (pe_UntrustedAfter push) ("sha256:" +:+ claimKey) (we_ReceivedAt envelope))
  | _, _ => true
  end.

(** The event is returned for the caller to process; [None] when it is ignored.
    [waker] is [PushWaker]: [false] is an error. *)
Definition accept `{WebhookJSON} `{EventJSON} (v : WebhookVerifier) (waker : option (GitHubPushWake → bool))
    (request : WebhookRequest) : op MemoryStore WebhookErr (WebhookOutcome * option Event) := fun s =>
  match Verify v request with
  | Err e => (s, Err (WhGitHub e))
  | Ok envelope =>
  match ParseEvent envelope with
  | Err e => (s, Err (WhGitHub e))
  | Ok None => (s, Ok (mkOutcome "" DeliveryIgnored [] false, None))
  | Ok (Some event) =>
      let (installationID, ok) := EventInstallationID event in
      if negb ok then (s, Err (WhGitHub ErrInvalidWebhook))
      else if (str_len (marshalEvent event) =? 0) || (256 * 1024 <? str_len (marshalEvent event))
      then (s, Err (WhGitHub ErrInvalidWebhook))
      else
        let receipt := deliveryReceipt envelope event installationID in
        match ClaimEventDelivery (receiptClaimer receipt) (s, None) envelope event with
        | ((s', claimed), out) =>
            match out with
            | Ok _ | Err ErrWebhookReplay =>
                match claimed with
                | None => (s', Err (WhStore ErrInvalid))
                | Some (claimKey, replay) =>
                    if wakePush waker envelope claimKey event
                    then (s', Ok (mkOutcome claimKey DeliveryClaimed [] replay, Some event))
                    else (s', Err WhWaker)
                end
            | Err e => (s', Err (WhGitHub e))
            end
        end
  end end.
