(* ===== verification/WebhookProcessing.v ===== *)
(** Processing an accepted delivery: [processDelivery], [ResumeDelivery] and
    [Handle] of [internal/builds/webhook.go].

    The GitHub provider, the waker of projections and the operator's settings
    (which turn the definitions of a push into attempt definitions) are
    parameters of a call; [sc_now] of the setup flow is [wc_now] here, the
    successive readings of the clock. *)

From S2P Require Import Prelude Regexp GoStrings Digest Encoding Json BuildModel BuildAttempts BuildSources BuildDeliveries BuildStore Effects GitHubState GitHubWebhook.

Open Scope Z_scope.

(** * The provider *)

(** An error of the provider: one that the API says can be retried, at a time;
    one of transport or secrets; or another. *)
Inductive ProviderErr : Set :=
| PrRetryable (retryAt : Time)
| PrUnavailable
| PrOther.

Record ResolvedRef := mkResolved {
  rf_Ref : string;
  rf_CommitSHA : string;
  rf_ResolvedAt : Time;
}.

Record GitHubProvider := mkProvider {
  VerifyInstallation : Z → AccountIdentity → gmap string string → res ProviderErr unit;
  MintInstallationToken : Z → AccountIdentity → list RepositoryIdentity → gmap string string →
    res ProviderErr string;
  ResolveEventRef : string → PushEvent → res ProviderErr ResolvedRef;
}.

Inductive ProcessErr : Set :=
| PcAccept (e : WebhookErr)
| PcStore (e : BuildErr)
| PcProvider (e : ProviderErr)
| PcProviderRetry
| PcInfrastructure.

(** A call of the service: the worker and its lease, the clock, the provider,
    and the settings: [None] when they cannot be read, and then [None] when a
    definition cannot be planned with them. *)
Record WebhookCall := mkWebhookCall {
  wc_Owner : string;
  wc_LeaseDuration : Duration;
  wc_now : nat → Time;
  wc_provider : GitHubProvider;
  wc_settings : option (list BuildDefinition → option (list AttemptDefinition));
}.

(** A Go method that returns an outcome with its error. *)
Abbreviation process A := (op MemoryStore (WebhookOutcome * ProcessErr) A) (only parsing).

Definition zeroOutcome : WebhookOutcome := mkOutcome "" DeliveryClaimed [] false.

Definition outcomeState (state : DeliveryState) (o : WebhookOutcome) : WebhookOutcome :=
  mkOutcome (wo_ClaimKey o) state (wo_AttemptIDs o) (wo_Replay o).

(** A store method whose error is returned with [outcome]. *)
Definition storeCall {A} (outcome : WebhookOutcome) (f : MemoryStore → res BuildErr (MemoryStore * A)) : process A :=
  op_store (fun e => (outcome, PcStore e)) f.

Definition storeWrite (outcome : WebhookOutcome) (f : MemoryStore → res BuildErr MemoryStore) : process unit :=
  storeCall outcome (fun s => let* s := f s in Ok (s, tt)).

(** A store method whose error the caller handles. *)
Definition storeTry {A} (f : MemoryStore → res BuildErr (MemoryStore * A)) : process (res BuildErr A) := fun s =>
  match f s with
  | Ok (s', a) => (s', Ok (Ok a))
  | Err e => (s, Ok (Err e))
  end.

Definition providerRetryAt (e : ProviderErr) (now : Time) : option Time :=
  match e with
  | PrRetryable retryAt => Some (if now <? retryAt then retryAt else now + 30 * second)
  | PrUnavailable => Some (now + 30 * second)
  | PrOther => None
  end.

Section process.
Context `{MapOrder} `{Builder}.

Definition finishDeliveryError (call : WebhookCall) (outcome : WebhookOutcome) (cause : ProcessErr)
    : process WebhookOutcome :=
  let now := wc_now call 4 in
  match cause with
  | PcStore ErrNotFound =>
      do! _ := storeWrite outcome (fun s => RetryDelivery s (wo_ClaimKey outcome) (wc_Owner call)
          "github-installation-pending" now (now + 30 * second)) in
      op_fail (outcomeState DeliveryClaimed outcome, PcProviderRetry)
  | _ =>
      do! _ := storeWrite outcome (fun s => FinishDelivery s (wo_ClaimKey outcome) (wc_Owner call)
          DeliveryFailed "github-authorization-failed" now) in
      op_fail (outcomeState DeliveryFailed outcome, cause)
  end.

Definition providerFailure (call : WebhookCall) (outcome : WebhookOutcome) (e : ProviderErr)
    : process WebhookOutcome :=
  match providerRetryAt e (wc_now call 2) with
  | Some retryAt =>
      do! _ := storeWrite outcome (fun s => RetryDelivery s (wo_ClaimKey outcome) (wc_Owner call)
          "github-provider-retry" (wc_now call 3) retryAt) in
      op_fail (outcomeState DeliveryClaimed outcome, PcProviderRetry)
  | None => finishDeliveryError call outcome (PcProvider e)
  end.

(** The end of an event that builds nothing. *)
Definition finishIgnored (call : WebhookCall) (outcome : WebhookOutcome) : process WebhookOutcome :=
  do! _ := storeWrite outcome (fun s => FinishDelivery s (wo_ClaimKey outcome) (wc_Owner call)
      DeliveryIgnored "" (wc_now call 4)) in
  op_ret (outcomeState DeliveryIgnored outcome).

(** An event about the installation or its repositories. *)
Definition applyEvent (call : WebhookCall) (outcome : WebhookOutcome)
    (apply : MemoryStore → res BuildErr MemoryStore) : process WebhookOutcome :=
  do! applied := storeTry (fun s => let* s := apply s in Ok (s, tt)) in
  match applied with
  | Err e => finishDeliveryError call outcome (PcStore e)
  | Ok _ => finishIgnored call outcome
  end.

Definition requiredPermissions : gmap string string := {["metadata" := "read"; "contents" := "read"]}.

(** A step of the provider: an error ends the delivery or puts it off. *)
Definition providerStep {A} (call : WebhookCall) (outcome : WebhookOutcome) (r : res ProviderErr A)
    (k : A → process WebhookOutcome) : process WebhookOutcome :=
  match r with
  | Ok a => k a
  | Err e => providerFailure call outcome e
  end.

(** [commitRE] is checked on the commit the provider resolved. *)
Definition resolvedValid (resolved : ResolvedRef) (push : PushEvent) : bool :=
  String.eqb (rf_Ref resolved) (pe_Ref push) && re_match commit_re (rf_CommitSHA resolved) &&
  negb (is_zero_time (rf_ResolvedAt resolved)).

(** The builds of a push that the provider resolved. *)
Definition enqueueResolved (call : WebhookCall) (outcome : WebhookOutcome) (push : PushEvent)
    (authorized : AuthorizedPush) (resolved : ResolvedRef) : process WebhookOutcome :=
  if negb (resolvedValid resolved push) then finishDeliveryError call outcome (PcStore ErrUnauthorized)
  else match wc_settings call with
  | None => op_fail (outcome, PcInfrastructure)
  | Some plan =>
      match plan (ap_Definitions authorized) with
      | None => finishDeliveryError call outcome PcInfrastructure
      | Some definitions =>
          do! attempts := storeTry (fun s => EnqueuePushBuilds s
              (mkEnqueue (wo_ClaimKey outcome) (rf_CommitSHA resolved) (rf_Ref resolved) (rf_ResolvedAt resolved))
              (wc_Owner call) definitions (wc_now call 3)) in
          match attempts with
          | Err ErrUnauthorized => finishDeliveryError call outcome (PcStore ErrUnauthorized)
          | Err e => op_fail (outcome, PcStore e)
          | Ok attempts =>
              op_ret (mkOutcome (wo_ClaimKey outcome) DeliveryEnqueued (a_ID <$> attempts) (wo_Replay outcome))
          end
      end
  end.

Definition processPush (call : WebhookCall) (outcome : WebhookOutcome) (stored : DeliveryReceipt)
    (push : PushEvent) : process WebhookOutcome :=
  if pe_Deleted push then finishIgnored call outcome
  else
    do! authorization := op_read (fun s =>
      Ok (AuthorizePush s (r_AppID stored) (pe_InstallationID push) (pe_Repository push) (pe_Ref push))) in
    match authorization with
    | Err e => finishDeliveryError call outcome (PcStore e)
    | Ok authorized =>
        if isEmpty (ap_Definitions authorized) then finishIgnored call outcome
        else
          let account := in_Account (ap_Installation authorized) in
          let heartbeat reading := storeWrite outcome (fun s => HeartbeatDelivery s (wo_ClaimKey outcome)
              (wc_Owner call) (wc_now call reading) (wc_LeaseDuration call)) in
          do! _ := heartbeat 1%nat in
          providerStep call outcome
            (VerifyInstallation (wc_provider call) (pe_InstallationID push) account requiredPermissions) (fun _ =>
          providerStep call outcome
            (MintInstallationToken (wc_provider call) (pe_InstallationID push) account
               [re_Identity (ap_Repository authorized)] requiredPermissions) (fun token =>
          do! _ := heartbeat 2%nat in
          providerStep call outcome (ResolveEventRef (wc_provider call) token push) (fun resolved =>
          enqueueResolved call outcome push authorized resolved)))
    end.

Definition processDelivery (call : WebhookCall) (claimKey : string) (event : Event) (replay : bool)
    : process WebhookOutcome :=
  do! acquired := storeCall zeroOutcome (fun s =>
      AcquireDelivery s claimKey (wc_Owner call) (wc_now call 0) (wc_LeaseDuration call)) in
  let stored := fst acquired in
  let outcome := mkOutcome claimKey (r_State stored) [] replay in
  if negb (snd acquired) then op_ret outcome
  else match event with
  | EvInstallation typed =>
      applyEvent call outcome (fun s => ApplyInstallationEvent s (r_AppID stored) typed (wc_now call 1))
  | EvRepositories typed =>
      applyEvent call outcome (fun s => ApplyRepositoryEvent s (r_AppID stored) typed (wc_now call 1))
  | EvPush push => processPush call outcome stored push
  end.

Definition Delivery (s : MemoryStore) (claimKey : string) : res BuildErr DeliveryReceipt :=
  match s_deliveries s !! claimKey with Some receipt => Ok receipt | None => Err ErrNotFound end.

Definition ResumeDelivery `{EventJSON} (call : WebhookCall) (claimKey : string) : process WebhookOutcome :=
  do! _ := op_guard (validOwnerLease (wc_Owner call) (wc_LeaseDuration call) && regexpHex64 claimKey)
      (zeroOutcome, PcStore ErrInvalid) in
  do! receipt := storeCall zeroOutcome (fun s => let* receipt := Delivery s claimKey in Ok (s, receipt)) in
  if terminalDelivery (r_State receipt)
  then op_ret (mkOutcome claimKey (r_State receipt) [] true)
  else match decodeTypedEvent (r_Event receipt) (r_TypedEvent receipt) with
  | None => op_fail (zeroOutcome, PcStore ErrInvalid)
  | Some event => processDelivery call claimKey event true
  end.

Definition Handle `{WebhookJSON} `{EventJSON} (call : WebhookCall) (v : WebhookVerifier)
    (waker : option (GitHubPushWake → bool)) (request : WebhookRequest) : process WebhookOutcome :=
  do! _ := op_guard (validOwnerLease (wc_Owner call) (wc_LeaseDuration call)) (zeroOutcome, PcStore ErrInvalid) in
  do! accepted := (fun s => match accept v waker request s with
                            | (s', Ok accepted) => (s', Ok accepted)
                            | (s', Err e) => (s', Err (zeroOutcome, PcAccept e))
                            end) in
  match snd accepted with
  | None => op_ret (fst accepted)
  | Some event => processDelivery call (wo_ClaimKey (fst accepted)) event (wo_Replay (fst accepted))
  end.
End process.
