(* ===== verification/WebhookSafety.v ===== *)
(** The guarantees of the webhook path: what is accepted is authentic and is
    accepted once, what the parser accepts the store accepts, and a build is
    made only of what the provider resolved. *)

From S2P Require Import Prelude Regexp GoStrings Digest Encoding Json BuildModel BuildAttempts BuildSafety BuildSources BuildDeliveries BuildStore BuildStoreSafety Effects GitHubState GitHubWebhook WebhookProcessing.
From Stdlib Require Import Ascii.

Open Scope Z_scope.

#[local] Opaque sha256 hmac_sha256 deterministicUUID.

(** * What the parser accepts, the store accepts *)

Lemma accountValid_validAccount a : accountValid a = validAccount a.
Proof.
  unfold accountValid, validAccount. rewrite Z.leb_antisym.
  destruct (0 <? ac_ID a), (re_match login_re (ac_Login a)),
    (String.eqb (ac_Type a) "User"), (String.eqb (ac_Type a) "Organization"); done.
Qed.

Lemma repositoryIdentityValid_validRepository r : repositoryIdentityValid r = validRepository r.
Proof.
  unfold repositoryIdentityValid, validRepository. rewrite !Z.leb_antisym.
  destruct (0 <? ri_ID r), (0 <? ri_OwnerID r), (re_match repository_re (ri_Name r)),
    (re_match login_re (ri_OwnerLogin r)), (String.eqb (ri_Name r) "."), (String.eqb (ri_Name r) ".."); done.
Qed.

Lemma accountIdentity_ok u a : accountIdentity u = Ok a → a = userIdentity u ∧ validAccount a = true.
Proof.
  unfold accountIdentity. rewrite accountValid_validAccount.
  destruct (validAccount (userIdentity u)) eqn:E; [|done]. by intros [= <-].
Qed.

Lemma repositoryIdentity_ok r identity :
  repositoryIdentity r = Ok identity → validRepository identity = true.
Proof.
  unfold repositoryIdentity. intros H. apply res_bind_ok in H as (owner & _ & H).
  rewrite repositoryIdentityValid_validRepository in H. case_match eqn:E; [done|].
  injection H as <-. by bool_prop.
Qed.

(** A reference the parser accepts has none of the bytes the store refuses. *)
Lemma validRefName_git name : validRefName name = true →
  negb (String.eqb name "" || String.eqb name "@" || (255 <? str_len name) ||
          has_prefix "/" name || has_suffix "/" name || str_contains "//" name ||
          str_contains ".." name || str_contains "@{" name || has_suffix "." name ||
          has_suffix ".lock" (to_lower name)) &&
    forallb (fun part => negb (String.eqb part "" || String.eqb part "." || String.eqb part ".." ||
                               has_prefix "." part)) (split_byte "/" name) &&
    negb (contains_any (" ~^:?*[\" +:+ crlf_nul +:+ String "009" "") name) = true.
Proof.
  unfold validRefName. intros H. apply andb_true_iff in H as [H Hparts]. apply andb_true_iff in H as [Hname Hbytes].
  rewrite Hparts, andb_true_r. apply andb_true_iff. split.
  - destruct (String.eqb name ""), (String.eqb name "@"), (255 <? str_len name), (has_prefix "/" name),
      (has_suffix "/" name), (str_contains "//" name), (str_contains ".." name), (str_contains "@{" name),
      (has_suffix "." name), (has_suffix ".lock" (to_lower name)); try done; by destruct (valid_utf8 name).
  - apply negb_true_iff, not_true_iff_false. intros Hc. apply negb_true_iff, not_true_iff_false in Hbytes.
    apply Hbytes. unfold contains_any in Hc. apply existsb_exists in Hc as (c & Hin & Hc).
    apply existsb_exists. exists c. split; [done|]. unfold refusedInRef.
    unfold is_one_of in Hc. apply existsb_exists in Hc as (d & Hd & ->%Ascii.eqb_eq).
    simpl in Hd. repeat destruct Hd as [<-|Hd]; done.
Qed.

Lemma validWebhookRef_git ref : validWebhookRef ref = true → validGitRef ref = true.
Proof.
  unfold validWebhookRef, validGitRef. destruct (has_prefix "refs/heads/" ref); [apply validRefName_git|].
  destruct (has_prefix "refs/tags/" ref); [apply validRefName_git|done].
Qed.

Lemma hex_times_bytes n s : re_lang (RTimes n (RClass is_lower_hex)) s →
  str_len s = Z.of_nat n ∧ only_bytes "0123456789abcdef" s = true.
Proof.
  rewrite re_lang_times. unfold str_len. intros [<- Hall]. split; [done|].
  unfold only_bytes. apply forallb_forall. intros c Hc. rewrite Forall_forall in Hall.
  specialize (Hall c). rewrite list_elem_of_In in Hall. specialize (Hall Hc).
  assert (forallb (fun k => implb (is_lower_hex (ascii_of_nat k)) (is_one_of "0123456789abcdef" (ascii_of_nat k)))
    (seq 0 256) = true) as Hcheck by (vm_compute; reflexivity).
  rewrite forallb_forall in Hcheck. specialize (Hcheck (nat_of_ascii c)). rewrite ascii_nat_embedding, Hall in Hcheck.
  apply Hcheck, in_seq. pose proof (nat_ascii_bounded c). lia.
Qed.

Lemma object_id_bytes s : re_match object_id_re s = true →
  (str_len s = 40 ∨ str_len s = 64) ∧ only_bytes "0123456789abcdef" s = true.
Proof.
  rewrite re_match_spec. unfold object_id_re. rewrite re_lang_alt.
  intros [H|H]; apply hex_times_bytes in H as [-> ?]; auto.
Qed.

Section parse.
Context `{WebhookJSON}.

Lemma parsePushEvent_valid body event : parsePushEvent body = Ok event → validPushEvent event = true.
Proof.
  unfold parsePushEvent. destruct (decodeSingleJSON unmarshalPush body) as [p|]; [|done].
  case_match eqn:Hg; [done|]. case_match eqn:Hz; [done|]. intros He.
  apply res_bind_ok in He as (repository & Hr & He). apply res_bind_ok in He as (sender & _ & [= <-]).
  apply repositoryIdentity_ok in Hr. bool_prop. unfold validPushEvent. simpl.
  match goal with H : re_match object_id_re _ = true |- _ => apply object_id_bytes in H as [Hl ->] end.
  rewrite validWebhookRef_git, Hr by done.
  assert (pp_InstallationID p <=? 0 = false) as -> by (apply Z.leb_gt; lia).
  destruct (pp_Deleted p), (only_bytes "0" (pp_After p)); try done; simpl;
    by destruct Hl as [-> | ->].
Qed.

Lemma validateWebhookInstallation_ok installation sender out :
  validateWebhookInstallation installation sender = Ok out →
  0 < wi_ID installation ∧ validSelection (wi_RepositorySelection installation) = true ∧
  validAccount out.1.1 = true ∧ out.1.2 = wi_Permissions installation ∧
  (Z.of_nat (size out.1.2) ≤ 64 → validPermissions out.1.2 = true).
Proof.
  unfold validateWebhookInstallation, permissionsFromStrings. case_match eqn:Hg; [done|]. intros Ho. bool_prop.
  apply res_bind_ok in Ho as (account & Ha & Ho). apply res_bind_ok in Ho as (s & _ & Ho).
  apply accountIdentity_ok in Ha as [_ Ha]. destruct (forallb _ _) eqn:Hall; [|done].
  case_match eqn:Hsz; [done|]. injection Ho as <-. simpl. split_and!; try done. intros Hle. unfold validPermissions. rewrite Hsz, Hall.
  assert (64 <? Z.of_nat (size (wi_Permissions installation)) = false) as -> by (apply Z.ltb_ge; lia). done.
Qed.

Lemma parseInstallationEvent_valid body event :
  parseInstallationEvent body = Ok (Some event) → Z.of_nat (size (ie_Permissions event)) ≤ 64 →
  validInstallationEvent event = true.
Proof.
  unfold parseInstallationEvent. destruct (decodeSingleJSON unmarshalInstallation body) as [p|]; [|done].
  destruct (str_in (ip_Action p) _) eqn:Haction; cbn [negb]; [|done]. intros He Hsz.
  apply res_bind_ok in He as (out & Ho & [= <-]).
  apply validateWebhookInstallation_ok in Ho as (Hid & Hsel & Ha & _ & Hp).
  unfold validInstallationEvent.
  cbn [ie_InstallationID ie_Account ie_RepositorySelection ie_Permissions ie_Action] in *.
  rewrite Hsel, Ha, Hp, Haction by done.
  assert (wi_ID (ip_Installation p) <=? 0 = false) as -> by (apply Z.leb_gt; lia). done.
Qed.

Lemma webhookRepositoryIdentities_valid raw account : ∀ seen identities,
  webhookRepositoryIdentities raw account seen = Ok identities → validIdentities account identities seen = true.
Proof.
  induction raw as [|r raw IH]; intros seen identities; simpl; [by intros [= <-]|].
  destruct (repositoryIdentity r) as [identity|] eqn:Hr; [|done]. apply repositoryIdentity_ok in Hr.
  case_match eqn:Howner; [done|]. case_match eqn:Hseen; [done|]. intros Hi.
  apply res_bind_ok in Hi as (rest & Hrest & [= <-]). simpl. rewrite Hr. cbn [negb orb].
  rewrite Howner, Hseen. by apply IH.
Qed.

Lemma parseInstallationRepositoriesEvent_valid body event :
  parseInstallationRepositoriesEvent body = Ok (Some event) → validRepositoryEvent event = true.
Proof.
  unfold parseInstallationRepositoriesEvent.
  destruct (decodeSingleJSON unmarshalRepositories body) as [p|]; [|done].
  case_match eqn:Haction; [done|]. intros He. apply res_bind_ok in He as (out & Ho & He).
  apply validateWebhookInstallation_ok in Ho as (Hid & _ & Ha & _ & _).
  case_match eqn:Hsel; [done|]. apply res_bind_ok in He as (added & Hadd & He).
  apply res_bind_ok in He as (removed & Hrem & He). case_match eqn:Hlists; [done|]. injection He as <-.
  apply webhookRepositoryIdentities_valid in Hadd, Hrem.
  unfold validRepositoryEvent. cbn -[validSelection validAccount validIdentities].
  rewrite Ha. apply negb_false_iff in Hsel. rewrite Hsel.
  assert (wi_ID (rp_Installation p) <=? 0 = false) as -> by (apply Z.leb_gt; lia).
  destruct (String.eqb_spec (rp_Action p) "removed") as [->|].
  - simpl in *. rewrite Hrem. destruct removed, added; done.
  - destruct (String.eqb (rp_Action p) "added"); [|done]. simpl in *. rewrite Hadd.
    destruct removed, added; done.
Qed.
End parse.

(** * Acceptance *)

(** [encoding/json] decodes what it encoded. *)
Definition decodes `{WebhookJSON} `{EventJSON} (event : Event) : Prop :=
  match event with
  | EvPush push => decodePush (marshalEvent event) = Some push
  | EvInstallation typed => decodeInstallation (marshalEvent event) = Some typed
  | EvRepositories typed => decodeRepositories (marshalEvent event) = Some typed
  end.

(** The store accepts the permissions of at most 64 kinds. *)
Definition fewPermissions (event : Event) : Prop :=
  match event with
  | EvInstallation typed => Z.of_nat (size (ie_Permissions typed)) ≤ 64
  | _ => True
  end.

Definition eventOf (event : Event) : string :=
  match event with
  | EvPush _ => "push"
  | EvInstallation _ => "installation"
  | EvRepositories _ => "installation_repositories"
  end.

Definition eventValid (event : Event) : bool :=
  match event with
  | EvPush push => validPushEvent push
  | EvInstallation typed => validInstallationEvent typed
  | EvRepositories typed => validRepositoryEvent typed
  end.

Section accept.
Context `{WebhookJSON} `{EventJSON}.

Lemma ParseEvent_valid envelope event :
  ParseEvent envelope = Ok (Some event) → fewPermissions event →
  we_Event envelope = eventOf event ∧ eventValid event = true.
Proof.
  unfold ParseEvent. cbn [switch]. intros Hp Hf.
  destruct (String.eqb_spec (we_Event envelope) "push") as [->|].
  { apply res_bind_ok in Hp as (e & He & [= <-]). split; [done|]. by eapply parsePushEvent_valid. }
  destruct (String.eqb_spec (we_Event envelope) "installation") as [->|].
  { apply res_bind_ok in Hp as ([e|] & He & Hp); simplify_eq/=. split; [done|].
    by eapply parseInstallationEvent_valid. }
  destruct (String.eqb_spec (we_Event envelope) "installation_repositories") as [->|]; [|done].
  apply res_bind_ok in Hp as ([e|] & He & Hp); simplify_eq/=. split; [done|].
  by eapply parseInstallationRepositoriesEvent_valid.
Qed.

Lemma eventValid_installation event : eventValid event = true →
  EventInstallationID event = ((EventInstallationID event).1, true) ∧ 0 < (EventInstallationID event).1.
Proof.
  intros Hv. assert (0 < (EventInstallationID event).1) as Hid.
  { destruct event; simpl in *; unfold validPushEvent, validInstallationEvent, validRepositoryEvent in Hv;
      bool_prop; lia. }
  split; [|done]. unfold EventInstallationID in *. cbn [fst] in *. f_equal. by apply Z.ltb_lt.
Qed.

Lemma eventValid_decode event :
  decodes event → eventValid event = true → decodeTypedEvent (eventOf event) (marshalEvent event) = Some event.
Proof.
  unfold decodeTypedEvent. destruct event; simpl; intros -> Hv; by rewrite Hv.
Qed.

Lemma deliveryKey_hex appID id deliveryID : regexpHex64 (deliveryKey appID id deliveryID) = true.
Proof.
  unfold regexpHex64. destruct (hex_times_bytes 64 (deliveryKey appID id deliveryID)) as [-> ->]; [|done].
  unfold deliveryKey. apply hex_encode_lang. by rewrite length_sha256.
Qed.

#[local] Opaque deliveryKey.

Lemma bodyDigest_valid bytes : re_match digest_re ("sha256:" +:+ hex_encode (sha256 bytes)) = true.
Proof.
  apply re_match_spec, lang_seq; [by apply re_lang_lit|]. apply hex_encode_lang. by rewrite length_sha256.
Qed.

(** What [Verify] has checked. *)
Lemma Verify_ok v request envelope :
  Verify v request = Ok envelope →
  ∃ secret bytes, wr_secret request = Some secret ∧ wr_body request = Body bytes ∧
    suppliedSignature (wr_headers request) = Some (hmac_sha256 secret (string_bytes bytes)) ∧
    re_match delivery_id_re (we_DeliveryID envelope) = true ∧
    exactlyOneHeader (wr_headers request) deliveryHeader = Some (we_DeliveryID envelope) ∧
    we_AppID envelope = wv_appID v ∧ we_Body envelope = bytes ∧
    we_ReceivedAt envelope = wr_now request ∧ we_ReplayUntil envelope = wr_now request + wv_replayWindow v.
Proof.
  unfold Verify, matchingHeader. destruct (suppliedSignature _) as [supplied|] eqn:Hs; [|done].
  destruct (exactlyOneHeader _ eventHeader) as [ev|]; [|done]. destruct (re_match webhook_event_re ev); [|done].
  destruct (exactlyOneHeader _ deliveryHeader) as [id|]; [|done]. destruct (re_match delivery_id_re id) eqn:Hid; [|done].
  destruct (wr_body request) as [| |bytes]; [done..|]. cbv zeta. case_match eqn:Hlen; [done|]. intros Hv.
  apply res_bind_ok in Hv as (secret & Hsec & Hv). case_match eqn:Hmac; [done|]. injection Hv as <-. bool_prop.
  unfold webhookSecret in Hsec. destruct (wr_secret request) as [key|]; [|done]. case_match; [done|].
  injection Hsec as ->.
  assert (str_take (Z.to_nat (wv_maxBody v + 1)) bytes = bytes) as Hb by (apply str_take_short; unfold str_len in *; lia).
  exists secret, bytes. simpl. rewrite Hb in *. subst supplied. by split_and!.
Qed.

Lemma deliveryReceipt_digest envelope event id :
  r_BodySHA256 (deliveryReceipt envelope event id) =
  "sha256:" +:+ hex_encode (sha256 (string_bytes (we_Body envelope))).
Proof. unfold deliveryReceipt. by destruct event. Qed.

(** The claim of an event. *)
Lemma deliveryClaim_ok envelope id claim :
  deliveryClaim envelope id = Ok claim →
  cl_ClaimKey claim = deliveryKey (we_AppID envelope) id (we_DeliveryID envelope).
Proof. unfold deliveryClaim. case_match; [done|]. by intros [= <-]. Qed.

(** What a call of [accept] that returns an event has done. *)
Lemma accept_ok v waker request s s1 o event :
  accept v waker request s = (s1, Ok (o, Some event)) →
  ∃ envelope claim inserted, let id := (EventInstallationID event).1 in
    Verify v request = Ok envelope ∧ ParseEvent envelope = Ok (Some event) ∧
    deliveryClaim envelope id = Ok claim ∧
    ClaimDelivery s claim (deliveryReceipt envelope event id) = Ok (s1, inserted) ∧
    wo_Replay o = negb inserted ∧ wo_ClaimKey o = cl_ClaimKey claim.
Proof.
  unfold accept. destruct (Verify v request) as [envelope|] eqn:Hv; [|done].
  destruct (ParseEvent envelope) as [[e|]|] eqn:Hp; [|done..].
  unfold ClaimEventDelivery, claimDelivery, receiptClaimer.
  destruct (EventInstallationID e) as [id ok] eqn:Hid. destruct ok; cbn [negb fst]; [|done].
  case_match; [done|]. destruct (deliveryClaim envelope id) as [claim|e'] eqn:Hc; [|by destruct e'].
  destruct (ClaimDelivery s claim _) as [[s' inserted]|] eqn:Hd; [|done].
  intros Ho. assert (e = event ∧ s' = s1 ∧ o = mkOutcome (cl_ClaimKey claim) DeliveryClaimed [] (negb inserted))
    as (-> & -> & ->) by (destruct inserted; case_match; by simplify_eq).
  exists envelope, claim, inserted. rewrite Hid. done.
Qed.

(** What an event that is verified, parsed and encoded leads to: the claim of
    its delivery by the store. *)
Lemma accept_claims v waker request s envelope event :
  0 < wv_appID v → 0 < wr_now request → 0 < wv_replayWindow v →
  Verify v request = Ok envelope → ParseEvent envelope = Ok (Some event) →
  fewPermissions event → 1 ≤ str_len (marshalEvent event) ≤ 256 * 1024 →
  let iid := (EventInstallationID event).1 in
  let key := deliveryKey (wv_appID v) iid (we_DeliveryID envelope) in
  let claim := mkClaim "github-delivery" key (we_ReplayUntil envelope) true in
  accept v waker request s =
    match ClaimDelivery s claim (deliveryReceipt envelope event iid) with
    | Ok (s', inserted) =>
        if wakePush waker envelope key event
        then (s', Ok (mkOutcome key DeliveryClaimed [] (negb inserted), Some event)) else (s', Err WhWaker)
    | Err e => (s, Err (WhGitHub (FromClaimer e)))
    end.
Proof.
  intros Happ Hnow Hwin Hv Hp Hf Hlen iid key claim.
  destruct (ParseEvent_valid _ _ Hp Hf) as [_ [Hid Hpos]%eventValid_installation].
  pose proof (Verify_ok _ _ _ Hv) as (secret & bytes & _ & _ & _ & Hdel & _ & Happ' & _ & Hat & Huntil).
  unfold accept. rewrite Hv, Hp, Hid. unfold ClaimEventDelivery, claimDelivery, receiptClaimer. rewrite Hid.
  cbn [negb fst]. fold iid. fold iid in Hpos. case_match eqn:Hg; [bool_prop; lia|].
  assert (deliveryClaim envelope iid = Ok claim) as ->.
  { unfold deliveryClaim, claim, key. rewrite Hdel, Happ', Hat, Huntil. unfold is_zero_time, zero_time.
    case_match eqn:Hc; [bool_prop; lia|done]. }
  destruct (ClaimDelivery s claim _) as [[s' inserted]|]; [|done]. by destruct inserted.
Qed.

(** The store accepts the receipt of such an event. *)
Lemma deliveryReceipt_valid v request envelope event :
  0 < wv_appID v → 0 < wr_now request →
  Verify v request = Ok envelope → ParseEvent envelope = Ok (Some event) → decodes event →
  fewPermissions event → 1 ≤ str_len (marshalEvent event) ≤ 256 * 1024 →
  let iid := (EventInstallationID event).1 in
  validateReceipt (deliveryReceipt envelope event iid
    |> r_set_ClaimKey (deliveryKey (wv_appID v) iid (we_DeliveryID envelope))) = true.
Proof.
  intros Happ Hnow Hv Hp Hd Hf Hlen iid.
  destruct (ParseEvent_valid _ _ Hp Hf) as [Hname Hvalid].
  pose proof (eventValid_installation _ Hvalid) as [Hid Hpos].
  pose proof (Verify_ok _ _ _ Hv) as (secret & bytes & _ & _ & _ & Hdel & _ & Happ' & _ & Hat & _).
  assert (String.eqb (we_DeliveryID envelope) "" = false) as Hne.
  { apply String.eqb_neq. intros E. rewrite E in Hdel. vm_compute in Hdel. done. }
  pose proof (eventValid_decode _ Hd Hvalid) as Hdec. fold iid in Hpos.
  unfold validateReceipt, deliveryReceipt. rewrite Hname, Happ', Hat.
  assert (∀ z, 0 < z → z <=? 0 = false) as Hle by (intros z ?; apply Z.leb_gt; done).
  assert (∀ z, 0 < z → is_zero_time z = false) as Hz by (intros z ?; apply Z.eqb_neq; unfold zero_time; lia).
  destruct event as [push|typed|typed]; cbn [r_ClaimKey r_AppID r_GitHubInstallationID r_DeliveryID r_Event r_BodySHA256 r_TypedEvent r_RepositoryID
      r_GitRef r_State r_ReceivedAt r_AvailableAt r_set_ClaimKey eventOf] in *;
    rewrite Hdec, deliveryKey_hex, bodyDigest_valid, Hne, !Hle, !Hz, Hid by done;
    fold iid; rewrite Z.eqb_refl; (rewrite (proj2 (Z.eqb_neq (str_len _) 0)), (proj2 (Z.ltb_ge (256 * 1024) _)) by lia);
    try (by rewrite Z.eqb_refl).
  cbn [eventValid] in Hvalid. unfold validPushEvent, validRepository in Hvalid. bool_prop.
  rewrite Z.eqb_refl, (String.eqb_refl (pe_Ref push)), Hle by done. by destruct (validGitRef (pe_Ref push)).
Qed.
End accept.

(** What the parser accepts, the store accepts: for a delivery that is
    verified and parsed, and whose event [encoding/json] encodes within the
    limit and decodes again, [accept] neither refuses the receipt nor the
    claim as invalid.  It claims the delivery under its key, or reports a
    replay of the receipt that is there, or a conflict with another. *)
Theorem accept_total `{WebhookJSON} `{EventJSON} v waker request s envelope event :
  0 < wv_appID v → 0 < wr_now request → 0 < wv_replayWindow v →
  Verify v request = Ok envelope → ParseEvent envelope = Ok (Some event) → decodes event →
  fewPermissions event → 1 ≤ str_len (marshalEvent event) ≤ 256 * 1024 →
  let key := deliveryKey (wv_appID v) (EventInstallationID event).1 (we_DeliveryID envelope) in
  let receipt := deliveryReceipt envelope event (EventInstallationID event).1 |> r_set_ClaimKey key in
  let woken := wakePush waker envelope key event in
  match s_deliveries s !! key with
  | Some existing =>
      accept v waker request s =
        (s, if sameReceiptIdentity existing receipt
            then if woken then Ok (mkOutcome key DeliveryClaimed [] true, Some event) else Err WhWaker
            else Err (WhGitHub (FromClaimer ErrConflict)))
  | None =>
      match s_claims s !! claimMapKey "github-delivery" key with
      | Some _ => accept v waker request s = (s, Err (WhGitHub (FromClaimer ErrConflict)))
      | None => ∃ s', accept v waker request s =
          (s', if woken then Ok (mkOutcome key DeliveryClaimed [] false, Some event) else Err WhWaker) ∧
          s_deliveries s' = <[key := receipt]> (s_deliveries s)
      end
  end.
Proof.
  intros Happ Hnow Hwin Hv Hp Hd Hf Hlen key receipt woken.
  pose proof (Verify_ok _ _ _ Hv) as (_ & _ & _ & _ & _ & _ & _ & _ & _ & Hat & Huntil).
  pose proof (accept_claims v waker request s envelope event Happ Hnow Hwin Hv Hp Hf Hlen) as Ha.
  pose proof (deliveryReceipt_valid v request envelope event Happ Hnow Hv Hp Hd Hf Hlen) as Hr.
  cbv zeta in Ha, Hr. fold key in Ha, Hr. fold receipt in Hr. fold woken in Ha.
  assert (validateClaim (mkClaim "github-delivery" key (we_ReplayUntil envelope) true) = true) as Hc.
  { unfold validateClaim, key. simpl. rewrite deliveryKey_hex, Huntil.
    unfold is_zero_time, zero_time. by rewrite (proj2 (Z.eqb_neq _ 0)) by lia. }
  unfold ClaimDelivery in Ha. rewrite Hc in Ha. cbn [cl_Kind cl_Permanent cl_ClaimKey] in Ha.
  fold receipt in Ha. rewrite Hr in Ha. simpl in Ha.
  destruct (s_deliveries s !! key) as [existing|].
  - rewrite Ha. destruct (sameReceiptIdentity existing receipt), woken; done.
  - destruct (s_claims s !! _); [done|]. eexists. rewrite Ha. split; [by destruct woken|].
    by destruct woken.
Qed.


(** * What a delivery builds *)

Definition sameAttempts (s s' : MemoryStore) : Prop := s_attempts s' = s_attempts s.

#[local] Instance sameAttempts_preorder : PreOrder sameAttempts.
Proof. unfold sameAttempts. split; [done|]. intros s1 s2 s3 H1 H2. congruence. Qed.

(** The methods of the store that leave the attempts alone. *)
Lemma storeWrite_attempts outcome (f : MemoryStore → res BuildErr MemoryStore) :
  (∀ s s', f s = Ok s' → sameAttempts s s') → relates sameAttempts (storeWrite outcome f).
Proof.
  intros Hf. apply (relates_store _). intros s s' [] Hs. apply res_bind_ok in Hs as (t & Ht & [= <-]). by apply Hf.
Qed.

Lemma storeTry_attempts {A} (f : MemoryStore → res BuildErr (MemoryStore * A)) :
  (∀ s s' a, f s = Ok (s', a) → sameAttempts s s') → relates sameAttempts (storeTry f).
Proof. intros Hf s. unfold storeTry. destruct (f s) as [[s' a]|] eqn:E; [by eapply Hf|done]. Qed.

Lemma ClaimDelivery_keyed `{EventJSON} s claim receipt s' inserted :
  ClaimDelivery s claim receipt = Ok (s', inserted) → keyed s → keyed s'.
Proof. unfold ClaimDelivery. simpl. intros. repeat case_match; by simplify_eq. Qed.

Section process.
Context `{MapOrder} `{Builder}.

Lemma FinishDelivery_attempts s key owner state code now s' :
  FinishDelivery s key owner state code now = Ok s' → sameAttempts s s'.
Proof. unfold FinishDelivery. intros. repeat case_match; by simplify_eq. Qed.

Lemma RetryDelivery_attempts s key owner code now available s' :
  RetryDelivery s key owner code now available = Ok s' → sameAttempts s s'.
Proof. unfold RetryDelivery. intros. repeat case_match; by simplify_eq. Qed.

Lemma HeartbeatDelivery_attempts s key owner now duration s' :
  HeartbeatDelivery s key owner now duration = Ok s' → sameAttempts s s'.
Proof. unfold HeartbeatDelivery. intros. repeat case_match; by simplify_eq. Qed.

Lemma applied_attempts s appID now s' :
  (∀ ev, ApplyInstallationEvent s appID ev now = Ok s' → sameAttempts s s') ∧
  (∀ ev, ApplyRepositoryEvent s appID ev now = Ok s' → sameAttempts s s').
Proof.
  split; intros ev Hs.
  - unfold ApplyInstallationEvent in Hs. repeat case_match; simplify_eq. by inv_res.
  - unfold ApplyRepositoryEvent in Hs. repeat case_match; simplify_eq; [done|]. by inv_res.
Qed.

Lemma finishIgnored_attempts call outcome : relates sameAttempts (finishIgnored call outcome).
Proof. unfold finishIgnored. relates_steps. apply storeWrite_attempts. intros ??. apply FinishDelivery_attempts. Qed.

Lemma finishDeliveryError_attempts call outcome cause :
  relates sameAttempts (finishDeliveryError call outcome cause).
Proof.
  unfold finishDeliveryError.
  repeat case_match; relates_steps; apply storeWrite_attempts; intros ??;
    (apply FinishDelivery_attempts || apply RetryDelivery_attempts).
Qed.

Lemma providerFailure_attempts call outcome e : relates sameAttempts (providerFailure call outcome e).
Proof.
  unfold providerFailure. case_match; [|apply finishDeliveryError_attempts].
  relates_steps. apply storeWrite_attempts. intros ??. apply RetryDelivery_attempts.
Qed.

Lemma applyEvent_attempts call outcome apply :
  (∀ s s', apply s = Ok s' → sameAttempts s s') → relates sameAttempts (applyEvent call outcome apply).
Proof.
  intros Ha. unfold applyEvent. apply (relates_bind _).
  - apply storeTry_attempts. intros s s' [] Hs. apply res_bind_ok in Hs as (t & Ht & [= <-]). by apply Ha.
  - intros [|]; [apply finishIgnored_attempts|apply finishDeliveryError_attempts].
Qed.

(** The attempts that are staged are stored already, or made for the push. *)
Lemma stageBuilds_origin s input now definitions :
  keyed s → ∀ staged generations out,
  stageBuilds s input now definitions staged generations = Ok out →
  ∀ a, a ∈ out.1 → s_attempts s !! a_ID a = Some a ∨ a ∈ staged ∨
    (a_CommitSHA a = ep_CommitSHA input ∧ a_GitRef a = ep_GitRef input ∧
     a_DeliveryClaimKey a = ep_ClaimKey input).
Proof.
  intros Hk. induction definitions as [|requested rest IH]; intros staged generations out Hst a Ha; simpl in Hst.
  { injection Hst as <-. auto. }
  destruct (s_definitions s !! _) as [current|]; [|done]. case_match; [done|].
  destruct (s_installations s !! _); [|done]. case_match; [done|].
  destruct (s_repositories s !! _) as [repository|]; [|done]. case_match; [done|].
  destruct (s_attempts s !! attemptUUID _ _) as [existing|] eqn:He.
  { destruct (IH _ _ _ Hst a Ha) as [?|[[?| ->%list_elem_of_singleton]%elem_of_app|?]]; auto.
    left. by rewrite (Hk _ _ He). }
  destruct (existingPush s input current) as [existing|] eqn:Hp.
  { destruct (IH _ _ _ Hst a Ha) as [?|[[?| ->%list_elem_of_singleton]%elem_of_app|?]]; auto.
    left. by eapply existingPush_stored. }
  apply res_bind_ok in Hst as (b & Hb & Hst).
  apply newAttempt_fields in Hb as (_ & _ & Hdk & _ & _ & Hc & Hr & _).
  destruct (IH _ _ _ Hst a Ha) as [?|[[?| ->%list_elem_of_singleton]%elem_of_app|?]]; auto.
Qed.

Lemma EnqueuePushBuilds_origin s input owner definitions now s' staged k a :
  keyed s → EnqueuePushBuilds s input owner definitions now = Ok (s', staged) →
  s_attempts s' !! k = Some a → s_attempts s !! k = None →
  a_CommitSHA a = ep_CommitSHA input ∧ a_GitRef a = ep_GitRef input ∧ a_DeliveryClaimKey a = ep_ClaimKey input.
Proof.
  unfold EnqueuePushBuilds. intros Hk He Ha Hn. destruct (_ || _ || _ || _); [done|].
  destruct (s_deliveries s !! _) as [r|]; [|done].
  destruct (bool_decide _); [simplify_eq; congruence|].
  destruct (_ || _); [done|]. destruct (isEmpty definitions); [done|].
  apply res_bind_ok in He as (out & Hst & [= <- <-]). simpl in Ha.
  apply addAttempt_lookup in Ha as [Ha|(_ & Hin & Hid)]; [congruence|].
  apply (stageBuilds_origin _ _ _ _ Hk) with (a := a) in Hst as [Hst|[Hst|?]]; [congruence| |done..].
  by apply elem_of_nil in Hst.
Qed.

(** An attempt that a call of [processPush] made. *)
Definition builtBy (call : WebhookCall) (outcome : WebhookOutcome) (stored : DeliveryReceipt) (push : PushEvent)
    (s : MemoryStore) (a : BuildAttempt) : Prop :=
  ∃ authorized token resolved,
    let p := wc_provider call in
    let account := in_Account (ap_Installation authorized) in
    pe_Deleted push = false ∧
    AuthorizePush s (r_AppID stored) (pe_InstallationID push) (pe_Repository push) (pe_Ref push) = Ok authorized ∧
    VerifyInstallation p (pe_InstallationID push) account requiredPermissions = Ok tt ∧
    MintInstallationToken p (pe_InstallationID push) account [re_Identity (ap_Repository authorized)]
      requiredPermissions = Ok token ∧
    ResolveEventRef p token push = Ok resolved ∧
    a_CommitSHA a = rf_CommitSHA resolved ∧ re_match commit_re (a_CommitSHA a) = true ∧
    a_GitRef a = pe_Ref push ∧ a_DeliveryClaimKey a = wo_ClaimKey outcome.

(** The attempts that are new after an operation. *)
Definition newAttempts {E A} (Good : BuildAttempt → Prop) (s : MemoryStore) (m : op MemoryStore E A) : Prop :=
  ∀ k a, s_attempts (m s).1 !! k = Some a → s_attempts s !! k = None → Good a.

Lemma newAttempts_none {E A} Good s (m : op MemoryStore E A) : relates sameAttempts m → newAttempts Good s m.
Proof. intros Hm k a Ha Hn. rewrite (Hm s) in Ha. congruence. Qed.

Lemma newAttempts_bind {E A B} Good s (m : op MemoryStore E A) (k : A → op MemoryStore E B) :
  relates sameAttempts m →
  (∀ s1 a, m s = (s1, Ok a) → s_attempts s1 = s_attempts s → newAttempts Good s1 (k a)) →
  newAttempts Good s (op_bind m k).
Proof.
  intros Hm Hk key b Hb Hn. unfold op_bind in Hb. pose proof (Hm s) as Hs.
  destruct (m s) as [s1 [a|e]] eqn:Hms; simpl in *.
  - eapply (Hk s1 a); [done|done|exact Hb|by rewrite Hs].
  - rewrite Hs in Hb. congruence.
Qed.

Lemma keyed_same s s' : s_attempts s' = s_attempts s → keyed s → keyed s'.
Proof. unfold keyed. by intros ->. Qed.

Lemma enqueueResolved_new (Good : BuildAttempt → Prop) call outcome push authorized resolved s :
  keyed s →
  (∀ a, resolvedValid resolved push = true → a_CommitSHA a = rf_CommitSHA resolved →
     a_GitRef a = rf_Ref resolved → a_DeliveryClaimKey a = wo_ClaimKey outcome → Good a) →
  newAttempts Good s (enqueueResolved call outcome push authorized resolved).
Proof.
  intros Hk Hgood. unfold enqueueResolved. destruct (resolvedValid resolved push) eqn:Hv; cbn [negb].
  2: { apply newAttempts_none, finishDeliveryError_attempts. }
  destruct (wc_settings call) as [plan|]; [|by apply newAttempts_none, (relates_fail _)].
  destruct (plan _) as [definitions|]; [|apply newAttempts_none, finishDeliveryError_attempts].
  intros k a Ha Hn. unfold op_bind, storeTry in Ha.
  destruct (EnqueuePushBuilds s _ _ _ _) as [[s' staged]|e] eqn:He; cbv beta iota in Ha.
  - eapply EnqueuePushBuilds_origin in He as (? & ? & ?); [|done..]. auto.
  - assert (relates sameAttempts (match e with
      | ErrUnauthorized => finishDeliveryError call outcome (PcStore ErrUnauthorized)
      | e => op_fail (outcome, PcStore e) end)) as Hr.
    { destruct e; apply finishDeliveryError_attempts || apply (relates_fail _). }
    specialize (Hr s). unfold sameAttempts in Hr. destruct e; rewrite Hr in Ha; congruence.
Qed.

Lemma providerStep_new {A} (Good : BuildAttempt → Prop) s call outcome (r : res ProviderErr A) k :
  (∀ a, r = Ok a → newAttempts Good s (k a)) → newAttempts Good s (providerStep call outcome r k).
Proof.
  intros Hr. unfold providerStep. destruct r; [by apply Hr|]. apply newAttempts_none, providerFailure_attempts.
Qed.

Lemma processPush_new call outcome stored push s :
  keyed s → newAttempts (builtBy call outcome stored push s) s (processPush call outcome stored push).
Proof.
  intros Hk. unfold processPush. destruct (pe_Deleted push) eqn:Hdel.
  { apply newAttempts_none, finishIgnored_attempts. }
  assert (∀ n, relates sameAttempts (storeWrite outcome (fun s => HeartbeatDelivery s (wo_ClaimKey outcome)
    (wc_Owner call) (wc_now call n) (wc_LeaseDuration call)))) as Hbeat.
  { intros n. apply storeWrite_attempts. intros ??. apply HeartbeatDelivery_attempts. }
  apply newAttempts_bind; [by apply (relates_read _)|]. intros s1 [authorized|e] [= <- Hauth] _.
  2: { apply newAttempts_none, finishDeliveryError_attempts. }
  destruct (isEmpty _); [apply newAttempts_none, finishIgnored_attempts|].
  apply newAttempts_bind; [apply Hbeat|]. intros s2 _ _ Hs2.
  apply providerStep_new. intros [] Hverify. apply providerStep_new. intros token Hmint.
  apply newAttempts_bind; [apply Hbeat|]. intros s3 _ _ Hs3. apply providerStep_new. intros resolved Hres.
  apply enqueueResolved_new; [apply (keyed_same s); [congruence|done]|].
  intros a Hv Hc Href Hkey. exists authorized, token, resolved. unfold resolvedValid in Hv. bool_prop.
  split_and!; congruence.
Qed.

(** A build is made only of what GitHub vouches for: whatever becomes of a
    delivery that is processed, an attempt that is new afterwards is for a
    push that deleted nothing; the store authorised the repository and the
    reference of the push, the provider verified the installation, issued a
    token for that repository alone and resolved the reference with it, and
    the attempt is for the commit it resolved, never the one of the payload. *)
Theorem processDelivery_commit call claimKey event replay s k a :
  keyed s →
  s_attempts (processDelivery call claimKey event replay s).1 !! k = Some a → s_attempts s !! k = None →
  ∃ push stored s1, event = EvPush push ∧
    AcquireDelivery s claimKey (wc_Owner call) (wc_now call 0) (wc_LeaseDuration call) = Ok (s1, (stored, true)) ∧
    builtBy call (mkOutcome claimKey (r_State stored) [] replay) stored push s1 a.
Proof.
  intros Hk Ha Hn. unfold processDelivery in Ha.
  assert (∀ s s' out, AcquireDelivery s claimKey (wc_Owner call) (wc_now call 0) (wc_LeaseDuration call) = Ok (s', out) →
    sameAttempts s s') as Hsame.
  { intros t t' out Ht. unfold AcquireDelivery in Ht. repeat case_match; by simplify_eq. }
  unfold op_bind at 1, storeCall, op_store in Ha.
  destruct (AcquireDelivery s _ _ _ _) as [[s1 [stored got]]|] eqn:Hacq; [|simpl in Ha; congruence].
  pose proof (Hsame _ _ _ Hacq) as Hs1. cbn [fst snd] in Ha. rewrite <- Hs1 in Hn.
  destruct got; cbn [negb] in Ha; [|simpl in Ha; congruence].
  destruct event as [push|typed|typed].
  - exists push, stored, s1. split_and!; [done|done|]. eapply processPush_new; [by apply (keyed_same s)|done..].
  - rewrite applyEvent_attempts in Ha; [congruence|]. intros t t' Ht. by eapply applied_attempts in Ht.
  - rewrite applyEvent_attempts in Ha; [congruence|]. intros t t' Ht. by eapply applied_attempts in Ht.
Qed.
End process.

(** * Evaluated

    A push is delivered, taken in, processed and delivered again. *)

Definition hookVerifier : WebhookVerifier := mkVerifier 1 (25 * 1024 * 1024) (10 * minute).
Definition hookSecret : list Z := repeat 7 32.
Definition hookDelivery : string := "01234567-89ab-cdef-0123-456789abcdef".

Definition hookHeaders (name : string) : list string :=
  switch name
    [(signatureHeader, [signaturePrefix +:+ hex_encode (hmac_sha256 hookSecret (string_bytes "{}"))]);
     (eventHeader, ["push"]);
     (deliveryHeader, [hookDelivery])]
    [].

Definition hookRequest : WebhookRequest :=
  mkWebhookRequest hookHeaders (Body "{}") (Some hookSecret) (3 * second).

Definition hookPayload : pushPayload :=
  mkPushPayload "refs/heads/main" sampleCommit false false false
    (mkWebhookRepository 303 "api" "octo/api" (mkWebhookUser 9 "octo" "User")) 77 (mkWebhookUser 9 "octo" "User").

Definition hookJSON : WebhookJSON := {|
  jsonTokens _ := [TOpenObject; TCloseObject];
  unmarshalPush _ := Some hookPayload;
  unmarshalInstallation _ := None;
  unmarshalRepositories _ := None;
  marshalEvent _ := "{}";
|}.

Definition hookEnvelope : WebhookEnvelope :=
  mkEnvelope 1 "push" hookDelivery "{}" (3 * second) (3 * second + 10 * minute).

Definition hookKey : string := deliveryKey 1 77 hookDelivery.

Definition hookAccept (s : MemoryStore) : MemoryStore * res WebhookErr (WebhookOutcome * option Event) :=
  accept (H := hookJSON) (H0 := @env_json sampleEnvironment) hookVerifier None hookRequest s.

Definition hookProvider : GitHubProvider :=
  mkProvider (fun _ _ _ => Ok tt) (fun _ _ _ _ => Ok "token")
    (fun _ push => Ok (mkResolved (pe_Ref push) sampleCommit (4 * second))).

Definition hookCall : WebhookCall :=
  mkWebhookCall "worker" minute (fun n => (4 + Z.of_nat n) * second) hookProvider
    (Some (fun definitions => Some ((fun d => mkAttemptDefinition d (mkExecution "builds")) <$> definitions))).

Definition hookProcess (s : MemoryStore) : MemoryStore * res (WebhookOutcome * ProcessErr) WebhookOutcome :=
  processDelivery (H := forward_order) (H0 := @env_builder sampleEnvironment) hookCall hookKey (EvPush samplePush)
    false s.

Definition hookAttempt : string := attemptUUID hookKey sampleID.

Definition hookOutcome (out : MemoryStore * res WebhookErr (WebhookOutcome * option Event)) (replay : bool) : bool :=
  match out.2 with
  | Ok (o, Some _) => Bool.eqb (wo_Replay o) replay
  | _ => false
  end.

(** The outcomes, evaluated once: the delivery is taken in, its push is built,
    and a second time it is a replay. *)
Lemma hook_outcomes :
  hookOutcome (hookAccept beforeClaim) false &&
  hookOutcome (hookAccept (hookAccept beforeClaim).1) true &&
  isSome (s_attempts (hookProcess (hookAccept beforeClaim).1).1 !! hookAttempt) = true.
Proof. vm_compute. reflexivity. Qed.

Lemma hookOutcome_ok out replay :
  hookOutcome out replay = true → ∃ s o event, out = (s, Ok (o, Some event)) ∧ wo_Replay o = replay.
Proof.
  destruct out as [s [[o [event|]]|]]; unfold hookOutcome; simpl; try done.
  intros Hr. exists s, o, event. split; [done|]. by apply eqb_prop.
Qed.

Lemma accept_total_witness :
  ∃ s', hookAccept beforeClaim = (s', Ok (mkOutcome hookKey DeliveryClaimed [] false, Some (EvPush samplePush))) ∧
    is_Some (s_deliveries s' !! hookKey).
Proof.
  pose proof (accept_total (H := hookJSON) (H0 := @env_json sampleEnvironment) hookVerifier None hookRequest
    beforeClaim hookEnvelope (EvPush samplePush) eq_refl eq_refl eq_refl
    ltac:(vm_compute; reflexivity) ltac:(vm_compute; reflexivity) eq_refl I
    ltac:(split; vm_compute; congruence)) as Ht.
  cbv zeta in Ht. change (deliveryKey _ _ _) with hookKey in Ht.
  assert (s_deliveries beforeClaim !! hookKey = None) as Hd by (vm_compute; reflexivity).
  assert (s_claims beforeClaim !! claimMapKey "github-delivery" hookKey = None) as Hc by (vm_compute; reflexivity).
  rewrite Hd, Hc in Ht. destruct Ht as (s' & Ha & Hs). exists s'. split; [exact Ha|].
  rewrite Hs, lookup_insert_eq. by eexists.
Defined.


Lemma hook_not_built : s_attempts (hookAccept beforeClaim).1 !! hookAttempt = None.
Proof. vm_compute. reflexivity. Qed.

Lemma processDelivery_commit_witness :
  ∃ a, s_attempts (hookProcess (hookAccept beforeClaim).1).1 !! hookAttempt = Some a ∧
    ∃ push token resolved, EvPush samplePush = EvPush push ∧ ResolveEventRef hookProvider token push = Ok resolved ∧
      a_CommitSHA a = rf_CommitSHA resolved.
Proof.
  pose proof hook_outcomes as Hok. apply andb_true_iff in Hok as [[H1 _]%andb_true_iff H3].
  destruct (s_attempts (hookProcess _).1 !! hookAttempt) as [a|] eqn:Ha; [|discriminate H3].
  exists a. split; [reflexivity|].
  assert (keyed (hookAccept beforeClaim).1) as Hk.
  { destruct (hookOutcome_ok _ _ H1) as (s1 & o & event & E1 & _). rewrite E1.
    apply accept_ok in E1 as (e1 & c1 & i1 & _ & _ & _ & Hd & _).
    apply (ClaimDelivery_keyed _ _ _ _ _ Hd), sampleRun_keyed. }
  destruct (processDelivery_commit (H := forward_order) (H0 := @env_builder sampleEnvironment) hookCall hookKey
    (EvPush samplePush) false _ _ _ Hk Ha hook_not_built)
    as (push & stored & s1 & Hpush & _ & authorized & token & resolved & _ & _ & _ & _ & Hres & Hc & _).
  exists push, token, resolved. split; [exact Hpush|]. split; [exact Hres|exact Hc].
Defined.
