(* ===== verification/RegistryModel.v ===== *)
(** The data of the registry lifecycle ([internal/domain/models.go]) and the
    validation of its parts ([internal/registry]: lifecycle.go,
    distribution.go, maintenance.go, executor.go).

    Enumerations that arrive from a database row or a request stay strings, as
    in the source, because the code checks them against the closed set. *)

From S2P Require Import Prelude Regexp GoStrings.
From Stdlib Require Import Ascii.

Open Scope Z_scope.

(** * Errors ([internal/store/store.go]) *)

Inductive RegistryErr : Set :=
| ErrRegistryExternalLifecycle | ErrRegistryObservationIncomplete
| ErrRegistrySnapshotStale | ErrRegistryGraphInvalid | ErrRegistryPolicyInvalid.

(** * Data *)

Definition RegistryTargetManaged : string := "managed".
Definition RegistryTargetExternal : string := "external".
Definition RegistryManifestIndex : string := "index".
Definition RegistryManifestImage : string := "manifest".
Definition RegistryArtifactPresent : string := "present".
Definition RegistryReferenceCurrentGitIntent : string := "current-git-intent".
Definition RegistryReferenceObservedRunning : string := "observed-running".
Definition RegistryReferencePin : string := "pin".
Definition RegistryReferenceActiveOperation : string := "active-operation".
Definition RegistryAuthorityGitIntent : string := "git-intent".
Definition RegistryAuthorityRuntime : string := "runtime".
Definition RegistryAuthorityOperations : string := "operations".

Record RegistryTarget := mkTarget {
  t_ID : string;
  t_Mode : string;
  t_RepositoryPrefix : string;
}.

Record ServiceRegistryPolicy := mkPolicy {
  po_RegistryTargetID : string;
  po_ServiceID : string;
  po_Repository : string;
  po_KeepLastSuccessful : Z;
  po_MinimumSafetyAge : Duration;
  po_CacheUnusedExpiry : Duration;
  po_CacheByteQuota : Z;
  po_CreatedAt : Time;
  po_UpdatedAt : Time;
}.

Record RegistryManifest := mkManifest {
  m_RegistryTargetID : string;
  m_Repository : string;
  m_Digest : string;
  m_Kind : string;
  m_SizeBytes : Z;
  m_Present : bool;
  m_FirstObservedAt : Time;
  m_LastObservedAt : Time;
  m_LastObservationRevision : Z;
}.

Record RegistryBlob := mkBlob {
  b_RegistryTargetID : string;
  b_Repository : string;
  b_Digest : string;
  b_SizeBytes : Z;
  b_Present : bool;
  b_FirstObservedAt : Time;
  b_LastObservedAt : Time;
  b_LastObservationRevision : Z;
}.

Record RegistryManifestLink := mkLink {
  ln_Repository : string;
  ln_ParentDigest : string;
  ln_ChildDigest : string;
}.

Record RegistryManifestBlobLink := mkBlobLink {
  bl_Repository : string;
  bl_ManifestDigest : string;
  bl_BlobDigest : string;
}.

Record RegistryCatalogObservation := mkCatalogObs {
  co_RegistryTargetID : string;
  co_Repository : string;
  co_Revision : Z;
  co_Complete : bool;
  co_ObservedAt : Time;
  co_ManifestCount : Z;
  co_BlobCount : Z;
}.

Record RegistryCatalogSnapshot := mkCatalog {
  cs_Observation : RegistryCatalogObservation;
  cs_Manifests : list RegistryManifest;
  cs_Blobs : list RegistryBlob;
  cs_Children : list RegistryManifestLink;
  cs_BlobLinks : list RegistryManifestBlobLink;
}.

Record RegistryInventoryObservation := mkInventory {
  iv_RegistryTargetID : string;
  iv_Revision : string;
  iv_Complete : bool;
  iv_Repositories : list string;
  iv_ObservedAt : Time;
}.

Record RegistryAuthorityObservation := mkAuthority {
  ao_RegistryTargetID : string;
  ao_ServiceID : string;
  ao_Authority : string;
  ao_Revision : string;
  ao_Complete : bool;
  ao_ObservedAt : Time;
}.

Record RegistryArtifactReference := mkReference {
  rf_RegistryTargetID : string;
  rf_ServiceID : string;
  rf_Repository : string;
  rf_Digest : string;
  rf_Kind : string;
}.

Record RegistryRelease := mkRelease {
  rl_ID : string;
  rl_RegistryTargetID : string;
  rl_ServiceID : string;
  rl_Repository : string;
  rl_RootDigest : string;
  rl_CreatedAt : Time;
  rl_SucceededAt : option Time;
  rl_Availability : string;
}.

Record RegistryCacheGeneration := mkGeneration {
  cg_ID : string;
  cg_RegistryTargetID : string;
  cg_ServiceID : string;
  cg_Repository : string;
  cg_PlatformSet : string;
  cg_TrustLane : string;
  cg_CacheSchema : string;
  cg_Generation : Z;
  cg_RootDigest : string;
  cg_SizeBytes : Z;
  cg_State : string;
  cg_ActiveImports : Z;
  cg_ActiveExports : Z;
  cg_CreatedAt : Time;
  cg_LastUsedAt : Time;
}.

#[export] Instance RegistryCacheGeneration_eq_dec : EqDecision RegistryCacheGeneration.
Proof. solve_decision. Defined.

Record RegistryLifecycleSnapshot := mkSnapshot {
  sn_Target : RegistryTarget;
  sn_Policy : ServiceRegistryPolicy;
  sn_Inventory : RegistryInventoryObservation;
  sn_CatalogObservations : list RegistryCatalogObservation;
  sn_AuthorityObservations : list RegistryAuthorityObservation;
  sn_References : list RegistryArtifactReference;
  sn_Releases : list RegistryRelease;
  sn_CacheGenerations : list RegistryCacheGeneration;
  sn_Manifests : list RegistryManifest;
  sn_Blobs : list RegistryBlob;
  sn_Children : list RegistryManifestLink;
  sn_BlobLinks : list RegistryManifestBlobLink;
}.

Inductive RegistryCleanupDisposition : Set := RegistryCleanupProtect | RegistryCleanupDelete.

#[export] Instance RegistryCleanupDisposition_eq_dec : EqDecision RegistryCleanupDisposition.
Proof. solve_decision. Defined.

Record RegistryCleanupItem := mkItem {
  it_Ordinal : Z;
  it_Repository : string;
  it_ResourceKind : string;
  it_Digest : string;
  it_Disposition : RegistryCleanupDisposition;
  it_Action : string;
  it_EstimatedBytes : Z;
  it_Reasons : list string;
  it_State : string;
}.

Record RegistryCleanupSummary := mkSummary {
  su_ProtectedManifests : Z;
  su_DeletedManifests : Z;
  su_GarbageCollectBlobs : Z;
  su_EstimatedBytes : Z;
  su_CacheBytesBefore : Z;
  su_CacheBytesAfter : Z;
  su_CacheQuotaSatisfied : bool;
}.

(** The plan without its tokens: [SnapshotToken], [AuthorityToken] and
    [PlanDigest] are SHA-256 digests of the JSON encodings of the snapshot and
    of the plan, so they are functions of what is modelled here. *)
Record RegistryCleanupPlan := mkPlan {
  pl_RegistryTargetID : string;
  pl_ServiceID : string;
  pl_State : string;
  pl_Policy : ServiceRegistryPolicy;
  pl_Inventory : RegistryInventoryObservation;
  pl_Catalogs : list RegistryCatalogObservation;
  pl_Authorities : list RegistryAuthorityObservation;
  pl_Summary : RegistryCleanupSummary;
  pl_Items : list RegistryCleanupItem;
  pl_CreatedAt : Time;
}.

(** Go's zero values, read from a map at a missing key. *)
Definition zeroManifest : RegistryManifest := mkManifest "" "" "" "" 0 false zero_time zero_time 0.
Definition zeroCatalogObservation : RegistryCatalogObservation :=
  mkCatalogObs "" "" 0 false zero_time 0 0.

(** * Names *)

Definition nodeKey (repository digest : string) : string := repository +:+ nul +:+ digest.

Definition validDigest (value : string) : bool :=
  negb (negb (str_len value =? str_len "sha256:" + 64) || negb (has_prefix "sha256:" value)) &&
  forallb is_lower_hex (String.list_ascii_of_string (str_drop 7 value)).

Definition isAlphaNumeric (b : ascii) : bool := is_digit b || is_lower b.

Fixpoint skip_while (p : ascii → bool) (s : string) : string :=
  match s with
  | "" => ""
  | String c s' => if p c then skip_while p s' else s
  end.

(** The loop over a component; the index [i] of the source is the rest of the
    string here, and a round consumes at least one byte of it. *)
Fixpoint componentLoop (fuel : nat) (s : string) : bool :=
  match fuel, s with
  | O, _ => false
  | S _, "" => true
  | S fuel', String b _ =>
      if negb (isAlphaNumeric b) then false
      else
        match skip_while isAlphaNumeric s with
        | "" => true
        | String c s2 =>
            let separated (s3 : string) :=
              match s3 with
              | "" => false
              | String d _ => if negb (isAlphaNumeric d) then false else componentLoop fuel' s3
              end in
            if Ascii.eqb c "." then separated s2
            else if Ascii.eqb c "_" then
              separated (match s2 with
                         | String d s3 => if Ascii.eqb d "_" then s3 else s2
                         | "" => s2
                         end)
            else if Ascii.eqb c "-" then separated (skip_while (Ascii.eqb "-") s2)
            else false
        end
  end.

Definition validRepositoryComponent (component : string) : bool :=
  if String.eqb component "" then false
  else componentLoop (S (String.length component)) component.

Definition validRepository (repository : string) : bool :=
  if (str_len repository <? 1) || (255 <? str_len repository) ||
     has_prefix "/" repository || has_suffix "/" repository then false
  else forallb validRepositoryComponent (split_byte "/" repository).

Definition validSafeIdentity (value : string) : bool :=
  if String.eqb value "" || (256 <? str_len value) || negb (String.eqb (trim_space value) value)
  then false
  else forallb (fun r => is_lower r || is_upper r || is_digit r || is_one_of "._:@/+" r ||
                         Ascii.eqb r "-") (String.list_ascii_of_string value).

Definition repositoryInTarget (target : RegistryTarget) (repository : string) : bool :=
  if negb (validRepository repository) then false
  else
    let prefix := trim_suffix "/" (t_RepositoryPrefix target) in
    String.eqb repository prefix || has_prefix (prefix +:+ "/") repository.

(** * Policies *)

Definition DefaultKeepLastSuccessful : Z := 10.
Definition MinimumKeepLastSuccessful : Z := 1.
Definition MaximumKeepLastSuccessful : Z := 100.
Definition DefaultRegistrySafetyAge : Duration := 24 * hour.
Definition DefaultCacheUnusedExpiry : Duration := 7 * 24 * hour.
Definition DefaultCacheByteQuota : Z := Z.shiftl 10 30.

Definition DefaultPolicy (targetID serviceID repository : string) (now : Time)
    : ServiceRegistryPolicy :=
  mkPolicy targetID serviceID repository DefaultKeepLastSuccessful DefaultRegistrySafetyAge
    DefaultCacheUnusedExpiry DefaultCacheByteQuota now now.

Definition NormalizePolicy (policy : ServiceRegistryPolicy) (now : Time) : ServiceRegistryPolicy :=
  mkPolicy (po_RegistryTargetID policy) (po_ServiceID policy) (po_Repository policy)
    (if po_KeepLastSuccessful policy =? 0 then DefaultKeepLastSuccessful
     else po_KeepLastSuccessful policy)
    (if po_MinimumSafetyAge policy =? 0 then DefaultRegistrySafetyAge
     else po_MinimumSafetyAge policy)
    (if po_CacheUnusedExpiry policy =? 0 then DefaultCacheUnusedExpiry
     else po_CacheUnusedExpiry policy)
    (if po_CacheByteQuota policy =? 0 then DefaultCacheByteQuota else po_CacheByteQuota policy)
    (if is_zero_time (po_CreatedAt policy) then now else po_CreatedAt policy)
    now.

Definition ValidatePolicy (policy : ServiceRegistryPolicy) : res RegistryErr unit :=
  if negb (validSafeIdentity (po_RegistryTargetID policy)) ||
     negb (validSafeIdentity (po_ServiceID policy)) ||
     negb (validRepository (po_Repository policy)) then Err ErrRegistryPolicyInvalid
  else if (po_KeepLastSuccessful policy <? MinimumKeepLastSuccessful) ||
          (MaximumKeepLastSuccessful <? po_KeepLastSuccessful policy)
  then Err ErrRegistryPolicyInvalid
  else if (po_MinimumSafetyAge policy <? minute) || (po_CacheUnusedExpiry policy <? minute)
  then Err ErrRegistryPolicyInvalid
  else if po_CacheByteQuota policy <=? 0 then Err ErrRegistryPolicyInvalid
  else Ok tt.

Definition ProblemArtifactExpired : string := "ArtifactExpired".
Definition ProblemArtifactMissing : string := "ArtifactMissing".

Definition ArtifactProblemCode (target : RegistryTarget) (release : RegistryRelease)
    (manifestPresent : bool) : string :=
  if manifestPresent && String.eqb (rl_Availability release) RegistryArtifactPresent then ""
  else if String.eqb (t_Mode target) RegistryTargetManaged then ProblemArtifactExpired
  else ProblemArtifactMissing.

(** * Lemmas *)

Lemma validDigest_length d : validDigest d = true → String.length d = 71%nat.
Proof.
  unfold validDigest. rewrite !andb_true_iff, negb_true_iff, orb_false_iff. intros [[H _] _].
  apply negb_false_iff, Z.eqb_eq in H. unfold str_len in H. simpl in H. lia.
Qed.

Lemma validDigest_nonempty d : validDigest d = true → d ≠ "".
Proof. intros H ->. by apply validDigest_length in H. Qed.

Lemma string_app_inj_length a1 a2 b1 b2 :
  String.length b1 = String.length b2 → a1 +:+ b1 = a2 +:+ b2 → a1 = a2 ∧ b1 = b2.
Proof.
  intros Hl. revert a2. induction a1 as [|c a1 IH]; intros [|c2 a2] H.
  - done.
  - exfalso. pose proof (f_equal str_len H) as E. rewrite !str_len_app in E.
    unfold str_len in E. simpl in E. lia.
  - exfalso. pose proof (f_equal str_len H) as E. rewrite !str_len_app in E.
    unfold str_len in E. simpl in E. lia.
  - rewrite !str_app_cons in H. injection H as -> H. by destruct (IH _ H) as [-> ->].
Qed.

(** A node key determines the repository and the digest. *)
Lemma nodeKey_inj r1 r2 d1 d2 :
  validDigest d1 = true → validDigest d2 = true → nodeKey r1 d1 = nodeKey r2 d2 → r1 = r2 ∧ d1 = d2.
Proof.
  intros H1%validDigest_length H2%validDigest_length H. unfold nodeKey in H.
  apply string_app_inj_length in H as [-> H]; [|unfold nul; rewrite !str_app_cons, !str_app_nil; simpl; congruence].
  by apply string_app_inj_length in H as [_ ->]; [|congruence].
Qed.

Lemma NormalizePolicy_idempotent policy now :
  now ≠ 0 → NormalizePolicy (NormalizePolicy policy now) now = NormalizePolicy policy now.
Proof.
  intros Hn. unfold NormalizePolicy. simpl. f_equal; repeat case_match; bool_prop; try done;
    unfold is_zero_time, zero_time in *; bool_prop; congruence.
Qed.
