(* ===== verification/RegistryGraph.v ===== *)
(** The graph algorithms of [internal/registry/lifecycle.go]: the cycle check,
    the depth of a manifest and the reachability closure, on adjacency maps. *)

From S2P Require Import Prelude Regexp GoStrings.

Abbreviation graph := (gmap string (list string)).

(** [children[node]], the empty slice when the key is missing *)
Definition next (children : graph) (node : string) : list string := default [] (children !! node).

Definition edge (children : graph) (parent child : string) : Prop := child ∈ next children parent.

(** * cyclic *)

Inductive mark : Set := visiting | done_.

(** Visits the nodes in turn, until one of them closes a cycle. *)
Fixpoint visit_all (visit : string → gmap string mark → bool * gmap string mark)
    (nodes : list string) (state : gmap string mark) : bool * gmap string mark :=
  match nodes with
  | [] => (false, state)
  | node :: rest =>
      let (found, state') := visit node state in
      if found then (true, state') else visit_all visit rest state'
  end.

Fixpoint visit (fuel : nat) (children : graph) (node : string) (state : gmap string mark)
    : bool * gmap string mark :=
  match fuel with
  | O => (true, state)
  | S fuel' =>
      match state !! node with
      | Some visiting => (true, state)
      | Some done_ => (false, state)
      | None =>
          let (found, state') :=
            visit_all (visit fuel' children) (next children node) (<[node := visiting]> state) in
          if found then (true, state') else (false, <[node := done_]> state')
      end
  end.

Definition cyclic `{MapOrder} (children : graph) : bool :=
  (visit_all (visit (S (size children)) children) (range 0 children).*1 ∅).1.

(** ** Without a cycle the marks are well founded *)

Definition done_acc (children : graph) (state : gmap string mark) : Prop :=
  ∀ n, state !! n = Some done_ → Acc (flip (edge children)) n.

Lemma visit_all_complete children f nodes state :
  (∀ n st st', done_acc children st → f n st = (false, st') →
     Acc (flip (edge children)) n ∧ done_acc children st') →
  done_acc children state →
  ∀ state', visit_all f nodes state = (false, state') →
  (∀ n, n ∈ nodes → Acc (flip (edge children)) n) ∧ done_acc children state'.
Proof.
  intros Hf. revert state. induction nodes as [|n nodes IH]; simpl; intros state Hd state'.
  - intros [= <-]. split; [|done]. intros n Hn. by apply elem_of_nil in Hn.
  - destruct (f n state) as [[] st1] eqn:E; [done|]. intros H.
    destruct (Hf _ _ _ Hd E) as [Hn Hd1]. destruct (IH _ Hd1 _ H) as [Hns Hd']. split; [|done].
    intros m [->|Hm]%elem_of_cons; auto.
Qed.

Lemma visit_complete children fuel node state state' :
  done_acc children state → visit fuel children node state = (false, state') →
  Acc (flip (edge children)) node ∧ done_acc children state'.
Proof.
  revert node state state'. induction fuel as [|fuel IH]; [done|].
  intros node state state' Hd. simpl.
  destruct (state !! node) as [[]|] eqn:E; [done | |].
  - intros [= <-]. split; [by apply Hd | done].
  - destruct (visit_all _ _ _) as [[] st1] eqn:Hv; [done|]. intros [= <-].
    apply (visit_all_complete children) in Hv as [Hc Hd1].
    + assert (Acc (flip (edge children)) node) as Hacc by (constructor; intros c Hcd; by apply Hc).
      split; [done|]. intros n [[<- _]|[_ ?]]%lookup_insert_Some; auto.
    + intros n st st' ? ?. by eapply IH.
    + intros n [[<- ?]|[_ ?]]%lookup_insert_Some; auto. done.
Qed.

(** ** A reported cycle is one *)

(** The nodes being visited are the path to the current node. *)
Definition on_path (children : graph) (state : gmap string mark) (path : gset string)
    (node : string) : Prop :=
  (∀ v, state !! v = Some visiting ↔ v ∈ path) ∧
  (∀ v, v ∈ path → tc (edge children) v node) ∧ path ⊆ dom children.

Lemma visit_all_path f nodes state (path : gset string) :
  (∀ n st st', (∀ v, st !! v = Some visiting ↔ v ∈ path) → n ∈ nodes → f n st = (false, st') →
     ∀ v, st' !! v = Some visiting ↔ v ∈ path) →
  (∀ v, state !! v = Some visiting ↔ v ∈ path) →
  ∀ b state', visit_all f nodes state = (b, state') →
  (if b then ∃ n st, n ∈ nodes ∧ (∀ v, st !! v = Some visiting ↔ v ∈ path) ∧ (f n st).1 = true
   else ∀ v, state' !! v = Some visiting ↔ v ∈ path).
Proof.
  revert state. induction nodes as [|n nodes IH]; simpl; intros state Hf Hs b state'.
  { by intros [= <- <-]. }
  destruct (f n state) as [[] st1] eqn:E.
  - intros [= <- <-]. exists n, state. rewrite E. split_and!; [by left | done..].
  - intros H. eapply IH in H; [| |eapply Hf; [done|by left|done]].
    + destruct b; [|done]. destruct H as (m & st & ? & ? & ?). exists m, st. by split; [right|].
    + intros m st st' ? ?. apply Hf; [done | by right].
Qed.

Lemma visiting_insert (state : gmap string mark) (path : gset string) node :
  (∀ v, state !! v = Some visiting ↔ v ∈ path) →
  ∀ v, <[node := visiting]> state !! v = Some visiting ↔ v ∈ {[node]} ∪ path.
Proof.
  intros Hs v. rewrite elem_of_union, elem_of_singleton, <- Hs.
  destruct (decide (v = node)) as [->|Hne].
  - rewrite lookup_insert_eq. tauto.
  - rewrite lookup_insert_ne by congruence. tauto.
Qed.

Lemma visit_path children fuel node state state' (path : gset string) :
  (∀ v, state !! v = Some visiting ↔ v ∈ path) → visit fuel children node state = (false, state') →
  ∀ v, state' !! v = Some visiting ↔ v ∈ path.
Proof.
  revert node state state' path. induction fuel as [|fuel IH]; [done|].
  intros node state state' path Hs. simpl. destruct (state !! node) as [[]|] eqn:E; [done| |].
  - by intros [= <-].
  - destruct (visit_all _ _ _) as [[] st1] eqn:Hv; [done|]. intros [= <-].
    assert (node ∉ path) as Hn by (rewrite <- Hs; congruence).
    apply (visit_all_path _ _ _ ({[node]} ∪ path)) in Hv.
    + intros v. destruct (decide (v = node)) as [->|Hne].
      * rewrite lookup_insert_eq. split; [done|]. by intros ?.
      * rewrite lookup_insert_ne by congruence. rewrite Hv, elem_of_union, elem_of_singleton. tauto.
    + intros n st st' ? _. by apply IH.
    + by apply visiting_insert.
Qed.

Lemma visit_sound children fuel node state path :
  on_path children state path node → (size path + fuel = S (size children))%nat →
  (visit fuel children node state).1 = true → ∃ v, tc (edge children) v v.
Proof.
  revert node state path. induction fuel as [|fuel IH]; intros node state path (Hs & Hp & Hd) Hf.
  { apply subseteq_size in Hd. rewrite size_dom in Hd. lia. }
  simpl. destruct (state !! node) as [[]|] eqn:E; [|done|].
  - intros _. exists node. by apply Hp, Hs.
  - destruct (visit_all _ _ _) as [[] st1] eqn:Hv; [|done]. intros _.
    assert (node ∉ path) as Hn by (rewrite <- Hs; congruence).
    apply (visit_all_path _ _ _ ({[node]} ∪ path)) in Hv.
    + destruct Hv as (c & st & Hc & Hst & Hv). eapply (IH c st ({[node]} ∪ path)); [| |done].
      * split_and!; [done | |].
        -- intros v [->%elem_of_singleton|Hv']%elem_of_union; [by apply tc_once|].
           eapply tc_r; [by apply Hp | done].
        -- intros v [->%elem_of_singleton|?]%elem_of_union; [|by apply Hd].
           unfold edge, next in Hc. apply elem_of_dom.
           destruct (children !! node); [done | by apply elem_of_nil in Hc].
      * rewrite size_union; [rewrite size_singleton; lia|].
        intros v ->%elem_of_singleton. done.
    + intros n st st' Hst _. by apply visit_path.
    + by apply visiting_insert.
Qed.

(** ** The check decides acyclicity *)

Lemma next_dom children n c : c ∈ next children n → n ∈ dom children.
Proof.
  unfold next. rewrite elem_of_dom. destruct (children !! n); [done|].
  by intros ?%elem_of_nil.
Qed.

Definition acyclic (children : graph) : Prop := ∀ v, ¬ tc (edge children) v v.

Lemma cyclic_false `{MapOrder} children :
  cyclic children = false → ∀ n, Acc (flip (edge children)) n.
Proof.
  unfold cyclic. destruct (visit_all _ _ _) as [[] st] eqn:E; [done|]. intros _ n.
  apply (visit_all_complete children) in E as [Hall _].
  - constructor. intros c Hc. assert (Acc (flip (edge children)) n) as Hn.
    { apply Hall, range_keys. by eapply next_dom. }
    by apply (Acc_inv Hn).
  - intros m st1 st2 ? ?. by eapply visit_complete.
  - intros m. by rewrite lookup_empty.
Qed.

Lemma acc_acyclic children : (∀ n, Acc (flip (edge children)) n) → acyclic children.
Proof.
  intros Hacc v. induction (Hacc v) as [v _ IH]. intros Hv. inversion Hv as [? ? Hvv|? c ? Hc Hcv]; subst.
  - by apply (IH v).
  - apply (IH c); [done|]. by eapply tc_r.
Qed.

Lemma cyclic_true `{MapOrder} children : cyclic children = true → ∃ v, tc (edge children) v v.
Proof.
  unfold cyclic. destruct (visit_all _ _ _) as [[] st] eqn:E; [|done]. intros _.
  apply (visit_all_path _ _ _ ∅) in E.
  - destruct E as (n & st1 & Hn & Hst & Hv).
    eapply (visit_sound _ _ _ _ ∅); [|by rewrite size_empty|exact Hv].
    split_and!; [done| |apply empty_subseteq]. intros v Hv'. by apply not_elem_of_empty in Hv'.
  - intros m st1 st2 ? _. by apply visit_path.
  - intros v. rewrite lookup_empty. split; [done|]. intros Hv. by apply not_elem_of_empty in Hv.
Qed.

Lemma cyclic_acyclic `{MapOrder} children : cyclic children = false ↔ acyclic children.
Proof.
  split; [intros; by apply acc_acyclic, cyclic_false|]. intros Ha.
  destruct (cyclic children) eqn:E; [|done]. apply cyclic_true in E as [v Hv]. by apply Ha in Hv.
Qed.

(** The cycle check is exact: it reports a cycle exactly when some
    manifest reaches itself through child edges, it always terminates within
    the stack the graph allows, and the order in which Go ranges over the map
    cannot change its answer. *)
Theorem cyclic_correct (order : MapOrder) children :
  cyclic children = true ↔ ∃ v, tc (edge children) v v.
Proof.
  split; [apply cyclic_true|]. intros [v Hv]. destruct (cyclic children) eqn:E; [done|].
  by apply cyclic_acyclic in E as []%(λ E, E v Hv).
Qed.

(** * Reachability *)

(** [addReason]: the reasons of a node are a set. *)
Definition addReason (target : gmap string (gset string)) (key reason : string)
    : gmap string (gset string) :=
  <[key := {[reason]} ∪ default ∅ (target !! key)]> target.

Definition addReasons (target : gmap string (gset string)) (l : list (string * string))
    : gmap string (gset string) :=
  foldl (fun t kr => addReason t kr.1 kr.2) target l.

Definition sortedKeys `{MapOrder} {A} (values : gmap string A) : list string :=
  sort_strings (range 1 values).*1.

(** The loop over the children of one manifest. *)
Fixpoint protectChildren (reason : string) (cs : list string) (protected : gmap string (gset string))
    : gmap string (gset string) :=
  match cs with
  | [] => protected
  | child :: rest =>
      protectChildren reason rest
        (match protected !! child with
         | Some _ => protected
         | None => addReason protected child reason
         end)
  end.

(** The work list over the protected manifests, with its sorted queue. *)
Fixpoint spread (fuel : nat) (children : graph) (reason : string) (queue : list string)
    (seen : gset string) (protected : gmap string (gset string)) : gmap string (gset string) :=
  match fuel, queue with
  | _, [] => protected
  | O, _ => protected
  | S fuel', key :: queue' =>
      if decide (key ∈ seen) then spread fuel' children reason queue' seen protected
      else spread fuel' children reason (sort_strings (queue' ++ next children key))
             ({[key]} ∪ seen) (protectChildren reason (next children key) protected)
  end.

(** The number of edges bounds the rounds of the work lists. *)
Definition edge_count (children : graph) : nat :=
  map_fold (fun _ cs n => length cs + n)%nat 0%nat children.

Definition protectReachable `{MapOrder} (children : graph) (reason : string)
    (protected : gmap string (gset string)) : gmap string (gset string) :=
  let queue := sortedKeys protected in
  spread (length queue + edge_count children) children reason queue ∅ protected.

Lemma protectChildren_lookup reason cs protected k :
  protectChildren reason cs protected !! k =
  match protected !! k with
  | Some r => Some r
  | None => if decide (k ∈ cs) then Some {[reason]} else None
  end.
Proof.
  revert protected. induction cs as [|c cs IH]; intros protected; cbn [protectChildren].
  - destruct (protected !! k); [done|]. by rewrite decide_False by apply not_elem_of_nil.
  - rewrite IH. destruct (decide (k = c)) as [->|Hne].
    + destruct (protected !! c) eqn:E; [by rewrite E|].
      rewrite (decide_True (P := c ∈ c :: cs)) by (by left).
      unfold addReason. rewrite lookup_insert_eq, E. f_equal. apply (right_id_L ∅ _).
    + assert ((match protected !! c with Some _ => protected | None => addReason protected c reason end)
        !! k = protected !! k) as ->.
      { destruct (protected !! c); [done|]. unfold addReason. by rewrite lookup_insert_ne. }
      destruct (protected !! k); [done|].
      destruct (decide (k ∈ cs)), (decide (k ∈ c :: cs)) as [Hin|Hni]; try done.
      * destruct Hni. by right.
      * by apply elem_of_cons in Hin as [|].
Qed.

Lemma edge_count_delete children key :
  (edge_count (delete key children) + length (next children key) = edge_count children)%nat.
Proof.
  unfold next. destruct (children !! key) as [cs|] eqn:E; simpl.
  - pose proof (map_fold_delete_L (fun _ cs n => length cs + n)%nat 0%nat key cs children
      ltac:(intros; simpl; lia) E) as H. unfold edge_count in *. lia.
  - rewrite delete_id by done. lia.
Qed.

(** What the closure computes: every node reachable from a protected one is
    protected, those that were not protected before get [reason], and the
    reasons of the others stay. *)
Definition reaches (children : graph) (protected : gmap string (gset string)) (k : string) : Prop :=
  ∃ root, root ∈ dom protected ∧ rtc (edge children) root k.

Definition closure_of (children : graph) (reason : string)
    (protected result : gmap string (gset string)) : Prop :=
  (∀ k r, protected !! k = Some r → result !! k = Some r) ∧
  (∀ k r, protected !! k = None → result !! k = Some r → r = {[reason]} ∧ reaches children protected k) ∧
  (∀ k c, k ∈ dom result → edge children k c → c ∈ dom result).

Lemma elem_of_sort_strings x l : x ∈ sort_strings l ↔ x ∈ l.
Proof. apply elem_of_sort_slice. Qed.

Lemma length_sort_strings l : length (sort_strings l) = length l.
Proof. apply length_sort_slice. Qed.

(** The invariant of the work list [protected]: its entries are the initial
    ones and reachable ones; the frontier is in the queue. *)
Record spreading (children : graph) (reason : string) (initial : gmap string (gset string))
    (queue : list string) (seen : gset string) (protected : gmap string (gset string)) : Prop := {
  sp_old : ∀ k r, initial !! k = Some r → protected !! k = Some r;
  sp_new : ∀ k r, initial !! k = None → protected !! k = Some r →
    r = {[reason]} ∧ reaches children initial k;
  sp_queue : ∀ k, k ∈ dom protected → k ∈ seen ∨ k ∈ queue;
  sp_in : ∀ k, k ∈ queue → k ∈ dom protected;
  sp_closed : ∀ k c, k ∈ seen → edge children k c → c ∈ dom protected;
}.

Lemma spreading_reaches children reason initial queue seen protected k :
  spreading children reason initial queue seen protected → k ∈ dom protected →
  reaches children initial k.
Proof.
  intros Hs [r Hr]%elem_of_dom. destruct (initial !! k) eqn:E.
  - exists k. split; [by apply elem_of_dom|reflexivity].
  - by apply (sp_new _ _ _ _ _ _ Hs k r E Hr).
Qed.

Lemma spreading_step children reason initial key queue seen protected :
  spreading children reason initial (key :: queue) seen protected → key ∉ seen →
  spreading children reason initial (sort_strings (queue ++ next children key)) ({[key]} ∪ seen)
    (protectChildren reason (next children key) protected).
Proof.
  intros Hs Hk.
  assert (∀ k, k ∈ dom (protectChildren reason (next children key) protected) ↔
    k ∈ dom protected ∨ k ∈ next children key) as Hdom.
  { intros k. rewrite !elem_of_dom, protectChildren_lookup. destruct (protected !! k).
    - split; [by left | by eexists].
    - destruct (decide _); split; try by eexists.
      + by right.
      + by intros [? ?].
      + by intros [[? ?]|?]. }
  destruct Hs as [Ho Hn Hq Hi Hc]. constructor.
  - intros k r Hr. rewrite protectChildren_lookup. by rewrite (Ho _ _ Hr).
  - intros k r Hr. rewrite protectChildren_lookup. destruct (protected !! k) eqn:E.
    + intros [= <-]. by apply Hn.
    + destruct (decide _) as [Hkc|]; [|done]. intros [= <-]. split; [done|].
      assert (reaches children initial key) as (root & Hroot & Hp).
      { assert (key ∈ dom protected) as Hkd by (apply Hi; by left).
        apply elem_of_dom in Hkd as [r Hkr]. destruct (initial !! key) eqn:E'.
        - exists key. split; [by apply elem_of_dom|reflexivity].
        - by apply (Hn key r). }
      exists root. split; [done|]. by eapply rtc_r.
  - intros k [Hd|Hd]%Hdom; rewrite elem_of_union, elem_of_singleton, elem_of_sort_strings, elem_of_app.
    + destruct (Hq k Hd) as [?|[->|?]%elem_of_cons]; auto.
    + auto.
  - intros k. rewrite elem_of_sort_strings, elem_of_app, Hdom. intros [?|?]; [|by right].
    left. apply Hi. by right.
  - intros k c. rewrite elem_of_union, elem_of_singleton, Hdom. intros [->|?] He; [by right|].
    left. by eapply Hc.
Qed.

Lemma spread_closure children reason initial fuel queue seen protected rem :
  spreading children reason initial queue seen protected →
  (∀ k, k ∉ seen → next rem k = next children k) → (length queue + edge_count rem ≤ fuel)%nat →
  closure_of children reason initial (spread fuel children reason queue seen protected).
Proof.
  revert queue seen protected rem. induction fuel as [|fuel IH]; intros queue seen protected rem Hs Hr Hf.
  all: destruct queue as [|key queue]; cbn [spread]; try (simpl in Hf; lia).
  1, 2: destruct Hs as [Ho Hn Hq Hi Hc]; split_and!; [done..|];
    intros k c Hk He; destruct (Hq k Hk) as [?|?%elem_of_nil]; [by eapply Hc | done].
  destruct (decide (key ∈ seen)) as [Hin|Hni].
  - eapply IH; [|exact Hr | simpl in Hf; lia]. destruct Hs as [Ho Hn Hq Hi Hc]. constructor; try done.
    + intros k Hk. destruct (Hq k Hk) as [?|[->|?]%elem_of_cons]; auto.
    + intros k Hk. apply Hi. by right.
  - eapply (IH _ _ _ (delete key rem)).
    + by apply spreading_step.
    + intros k. rewrite elem_of_union, elem_of_singleton. intros Hk. unfold next.
      rewrite lookup_delete_ne by (intros ->; tauto). apply Hr. tauto.
    + pose proof (edge_count_delete rem key). rewrite length_sort_strings, length_app.
      rewrite Hr in * by done. simpl in Hf. lia.
Qed.

Lemma elem_of_sortedKeys `{MapOrder} {A} (m : gmap string A) k : k ∈ sortedKeys m ↔ k ∈ dom m.
Proof. unfold sortedKeys. by rewrite elem_of_sort_strings, range_keys. Qed.

Lemma protectReachable_closure `{MapOrder} children reason protected :
  closure_of children reason protected (protectReachable children reason protected).
Proof.
  eapply spread_closure; [|reflexivity|reflexivity]. constructor.
  - done.
  - intros k r H1 H2. congruence.
  - intros k Hk. right. by apply elem_of_sortedKeys.
  - intros k Hk. by apply elem_of_sortedKeys.
  - intros k c []%not_elem_of_empty.
Qed.

(** The closure determines its result. *)
Lemma closure_of_dom children reason protected result k :
  closure_of children reason protected result → k ∈ dom result ↔ reaches children protected k.
Proof.
  intros (Ho & Hn & Hc). split.
  - intros [r Hr]%elem_of_dom. destruct (protected !! k) eqn:E.
    + exists k. split; [by apply elem_of_dom|reflexivity].
    + by apply (Hn k r).
  - intros (root & [r Hr]%elem_of_dom & Hp).
    assert (root ∈ dom result) as Hroot by (apply elem_of_dom; eauto).
    clear Hr. induction Hp; [done|]. apply IHHp. by eapply Hc.
Qed.

Lemma closure_of_unique children reason protected r1 r2 :
  closure_of children reason protected r1 → closure_of children reason protected r2 → r1 = r2.
Proof.
  intros H1 H2. apply map_eq. intros k.
  pose proof (closure_of_dom _ _ _ _ k H1) as D1. pose proof (closure_of_dom _ _ _ _ k H2) as D2.
  rewrite elem_of_dom in D1, D2. destruct H1 as (Ho1 & Hn1 & _), H2 as (Ho2 & Hn2 & _).
  destruct (protected !! k) as [r|] eqn:E.
  { by rewrite (Ho1 _ _ E), (Ho2 _ _ E). }
  destruct (r1 !! k) as [a|] eqn:E1, (r2 !! k) as [b|] eqn:E2; try done.
  - destruct (Hn1 _ _ E E1) as [-> _], (Hn2 _ _ E E2) as [-> _]. done.
  - destruct (proj2 D2) as [? ?]; [by apply D1 | done].
  - destruct (proj2 D1) as [? ?]; [by apply D2 | done].
Qed.

(** * manifestDepths *)

(** [parents[child] = append(parents[child], parent)], edge by edge. *)
Definition addEdge (parents : graph) (parent child : string) : graph :=
  <[child := (next parents child ++ [parent])%list]> parents.

Definition manifestParents `{MapOrder} (children : graph) : graph :=
  foldl (fun parents entry =>
      foldl (fun parents child => addEdge parents entry.1 child) parents entry.2)
    ∅ (range 2 children).

(** The memoised recursion over the parents. *)
Fixpoint depth_all (depth : string → gmap string Z → Z * gmap string Z) (ps : list string)
    (value : Z) (depths : gmap string Z) : Z * gmap string Z :=
  match ps with
  | [] => (value, depths)
  | parent :: rest =>
      let (d, depths') := depth parent depths in
      depth_all depth rest (Z.max value (d + 1)) depths'
  end.

Fixpoint depth (fuel : nat) (parents : graph) (key : string) (depths : gmap string Z)
    : Z * gmap string Z :=
  match fuel with
  | O => (0%Z, depths)
  | S fuel' =>
      match depths !! key with
      | Some value => (value, depths)
      | None =>
          let (value, depths') := depth_all (depth fuel' parents) (next parents key) 0%Z depths in
          (value, <[key := value]> depths')
      end
  end.

Definition manifestDepths `{MapOrder} {A} (manifests : gmap string A) (children : graph)
    : gmap string Z :=
  let parents := manifestParents children in
  foldl (fun depths key => (depth (S (size parents)) parents key depths).2)
    ∅ (range 3 manifests).*1.

(** ** The parents are the reversed edges *)

Lemma next_addEdge parents p c c' q :
  q ∈ next (addEdge parents p c) c' ↔ q ∈ next parents c' ∨ (c' = c ∧ q = p).
Proof.
  unfold addEdge, next at 1. destruct (decide (c' = c)) as [->|Hne].
  - rewrite lookup_insert_eq. simpl. rewrite elem_of_app, list_elem_of_singleton. tauto.
  - rewrite lookup_insert_ne by congruence. unfold next. intuition congruence.
Qed.

Lemma next_addEdges parents p cs c q :
  q ∈ next (foldl (fun parents child => addEdge parents p child) parents cs) c ↔
  q ∈ next parents c ∨ (c ∈ cs ∧ q = p).
Proof.
  revert parents. induction cs as [|c' cs IH]; intros parents; simpl.
  - rewrite elem_of_nil. tauto.
  - rewrite IH, next_addEdge, elem_of_cons. tauto.
Qed.

Lemma manifestParents_next `{MapOrder} children c q :
  q ∈ next (manifestParents children) c ↔ edge children q c.
Proof.
  unfold manifestParents, edge.
  assert (∀ entries (parents : graph),
    q ∈ next (foldl (fun parents entry =>
      foldl (fun parents child => addEdge parents entry.1 child) parents entry.2) parents entries) c ↔
    q ∈ next parents c ∨ ∃ cs, (q, cs) ∈ entries ∧ c ∈ cs) as Hgen.
  { induction entries as [|[p cs] entries IH]; intros parents; simpl.
    - split; [by left|]. intros [?|(cs & []%elem_of_nil & _)]. done.
    - rewrite IH, next_addEdges. setoid_rewrite elem_of_cons. split.
      + intros [[?|[? ->]]|(cs' & ? & ?)]; [by left | right; eauto | right; eauto].
      + intros [?|(cs' & [[= -> ->]|?] & ?)]; eauto. }
  rewrite Hgen. unfold next. rewrite lookup_empty. simpl. setoid_rewrite elem_of_range. split.
  - intros [?%elem_of_nil|(cs & -> & ?)]; done.
  - destruct (children !! q) as [cs|]; [|by intros ?%elem_of_nil]. simpl. right. eauto.
Qed.

(** ** Every computed depth is one more than the greatest depth of a parent *)

Definition depth_eq (parents : graph) (depths : gmap string Z) (k : string) (v : Z) : Prop :=
  (0 ≤ v)%Z ∧
  (∀ p, p ∈ next parents k → ∃ vp, depths !! p = Some vp ∧ (vp + 1 ≤ v)%Z) ∧
  (v = 0%Z ∨ ∃ p vp, p ∈ next parents k ∧ depths !! p = Some vp ∧ v = (vp + 1)%Z).

Definition depths_ok (parents : graph) (depths : gmap string Z) : Prop :=
  ∀ k v, depths !! k = Some v → depth_eq parents depths k v.

Lemma depth_eq_mono parents d1 d2 k v : d1 ⊆ d2 → depth_eq parents d1 k v → depth_eq parents d2 k v.
Proof.
  intros Hs (Hv & Hp & Hm). split_and!; [done| |].
  - intros p (vp & ? & ?)%Hp. exists vp. split; [by eapply lookup_weaken|done].
  - destruct Hm as [?|(p & vp & ? & ? & ?)]; [by left|right].
    exists p, vp. split_and!; [done|by eapply lookup_weaken|done].
Qed.

Lemma depths_ok_insert parents depths k v :
  depths_ok parents depths → depths !! k = None → depth_eq parents depths k v →
  depths_ok parents (<[k := v]> depths).
Proof.
  intros Hd Hk Hv k' v' Hl. eapply depth_eq_mono; [by apply insert_subseteq|].
  apply lookup_insert_Some in Hl as [[<- <-]|[? ?]]; [done|by apply Hd].
Qed.

Lemma depth_eq_unique parents depths k v v' :
  depth_eq parents depths k v → depth_eq parents depths k v' → v = v'.
Proof.
  assert (∀ a b, depth_eq parents depths k a → depth_eq parents depths k b → (a ≤ b)%Z) as Hle.
  { intros a b (_ & _ & [->|(p & vp & Hin & Hvp & ->)]) (Hb & Hp & _); [done|].
    destruct (Hp p Hin) as (wp & Hwp & ?). assert (wp = vp) as -> by congruence. done. }
  intros H1 H2. pose proof (Hle _ _ H1 H2). pose proof (Hle _ _ H2 H1). lia.
Qed.

(** The keys on the recursion stack: strict descendants of the current key. *)
Definition below (parents : graph) (stack : gset string) (key : string) : Prop :=
  stack ⊆ dom parents ∧ ∀ s, s ∈ stack → tc (edge parents) s key.

Definition depth_good (parents : graph) (depths : gmap string Z) (key : string)
    (r : Z * gmap string Z) : Prop :=
  depths ⊆ r.2 ∧ depths_ok parents r.2 ∧ r.2 !! key = Some r.1.

Lemma depth_all_good parents f ps : ∀ value depths,
  (∀ p d, p ∈ ps → depths_ok parents d → depth_good parents d p (f p d)) →
  depths_ok parents depths → (0 ≤ value)%Z →
  let r := depth_all f ps value depths in
  depths ⊆ r.2 ∧ depths_ok parents r.2 ∧ (value ≤ r.1)%Z ∧
  (∀ p, p ∈ ps → ∃ vp, r.2 !! p = Some vp ∧ (vp + 1 ≤ r.1)%Z) ∧
  (r.1 = value ∨ ∃ p vp, p ∈ ps ∧ r.2 !! p = Some vp ∧ r.1 = (vp + 1)%Z).
Proof.
  induction ps as [|p ps IH]; intros value depths Hf Hd Hv; simpl.
  - split_and!; [done|done|lia| |by left]. by intros p ?%elem_of_nil.
  - destruct (Hf p depths ltac:(by left) Hd) as (Hs & Hd1 & Hl).
    destruct (f p depths) as [d depths1]. simpl in *.
    destruct (IH (Z.max value (d + 1)) depths1) as (Hs2 & Hd2 & Hv2 & Hall & Hmax).
    { intros q dq Hq. apply Hf. by right. }
    { done. }
    { lia. }
    destruct (depth_all f ps _ _) as [v2 depths2]. simpl in *.
    assert (depths2 !! p = Some d) as Hl2 by (by eapply lookup_weaken).
    split_and!; [by etrans|done|lia| |].
    + intros q [->|Hq]%elem_of_cons; [|by apply Hall]. exists d. split; [done|lia].
    + destruct Hmax as [->|(q & vq & ? & ? & ?)].
      * destruct (Z.max_spec value (d + 1)) as [[_ ->]|[_ ->]]; [|by left].
        right. exists p, d. split_and!; [by left|done|done].
      * right. exists q, vq. split_and!; [by right|done|done].
Qed.

Lemma depth_good_fuel parents fuel : acyclic parents → ∀ stack key depths,
  below parents stack key → (size stack + fuel = S (size parents))%nat → depths_ok parents depths →
  depth_good parents depths key (depth fuel parents key depths).
Proof.
  intros Ha. induction fuel as [|fuel IH]; intros stack key depths [Hsub Hbel] Hf Hd.
  { apply subseteq_size in Hsub. rewrite size_dom in Hsub. lia. }
  cbn [depth]. destruct (depths !! key) as [v|] eqn:E; [done|].
  assert (key ∉ stack) as Hk by (intros Hin; by apply (Ha key), Hbel).
  destruct (depth_all_good parents (depth fuel parents) (next parents key) 0%Z depths)
    as (Hs & Hd1 & Hv & Hall & Hmax); [|done|lia|].
  { intros p d Hp. apply (IH ({[key]} ∪ stack)).
    - split.
      + intros s [->%elem_of_singleton|Hs]%elem_of_union; [by eapply next_dom | by apply Hsub].
      + intros s [->%elem_of_singleton|Hs]%elem_of_union; [by apply tc_once|].
        eapply tc_r; [by apply Hbel | done].
    - rewrite size_union; [rewrite size_singleton; lia|]. intros s ->%elem_of_singleton. done. }
  destruct (depth_all _ _ _ _) as [v depths1] eqn:Hr. simpl in *.
  destruct (decide (depths1 !! key = None)) as [Hn|Hn].
  - split_and!; simpl.
    + etrans; [done|]. by apply insert_subseteq.
    + apply depths_ok_insert; [done|done|]. by split_and!.
    + apply lookup_insert_eq.
  - apply not_eq_None_Some in Hn as [v' Hv'].
    assert (v' = v) as -> by (eapply depth_eq_unique; [by apply Hd1 | by split_and!]).
    unfold depth_good. simpl. by rewrite insert_id.
Qed.

Lemma depths_all_keys parents : acyclic parents → ∀ keys depths,
  depths_ok parents depths →
  let r := foldl (fun depths key => (depth (S (size parents)) parents key depths).2) depths keys in
  depths ⊆ r ∧ depths_ok parents r ∧ ∀ k, k ∈ keys → k ∈ dom r.
Proof.
  intros Ha keys. induction keys as [|key keys IH]; intros depths Hd; simpl.
  - split_and!; [done..|]. by intros k ?%elem_of_nil.
  - destruct (depth_good_fuel parents (S (size parents)) Ha ∅ key depths) as (Hs & Hd1 & Hl);
      [split; [apply empty_subseteq|by intros s ?%not_elem_of_empty]|by rewrite size_empty|done|].
    destruct (IH _ Hd1) as (Hs2 & Hd2 & Hall). split_and!; [by etrans|done|].
    intros k [->|Hk]%elem_of_cons; [|by apply Hall].
    apply elem_of_dom. eexists. by eapply lookup_weaken.
Qed.

Lemma parents_acyclic `{MapOrder} children :
  acyclic children → acyclic (manifestParents children).
Proof.
  intros Ha v Hv. apply (Ha v).
  assert (∀ x y, tc (edge (manifestParents children)) x y → tc (edge children) y x) as Hrev.
  { induction 1 as [x y Hxy|x y z Hxy _ IH]; apply (manifestParents_next children) in Hxy.
    - by apply tc_once.
    - by eapply tc_r. }
  by apply Hrev.
Qed.

Lemma manifestDepths_ok `{MapOrder} {A} (manifests : gmap string A) children :
  acyclic children →
  depths_ok (manifestParents children) (manifestDepths manifests children) ∧
  ∀ k, k ∈ dom manifests → k ∈ dom (manifestDepths manifests children).
Proof.
  intros Ha. destruct (depths_all_keys (manifestParents children) (parents_acyclic _ Ha)
    (range 3 manifests).*1 ∅) as (_ & Hd & Hall); [intros k v; by rewrite lookup_empty|].
  split; [done|]. intros k Hk. by apply Hall, range_keys.
Qed.

(** A child is deeper than each of its parents. *)
Lemma manifestDepths_child `{MapOrder} {A} (manifests : gmap string A) children p c :
  acyclic children → edge children p c → c ∈ dom manifests →
  ∃ dp dc, manifestDepths manifests children !! p = Some dp ∧
    manifestDepths manifests children !! c = Some dc ∧ (dp < dc)%Z.
Proof.
  intros Ha He Hc. destruct (manifestDepths_ok manifests children Ha) as [Hd Hall].
  apply Hall, elem_of_dom in Hc as [dc Hdc].
  destruct (proj1 (proj2 (Hd _ _ Hdc)) p) as (dp & Hdp & Hlt); [by apply manifestParents_next|].
  exists dp, dc. split_and!; [done..|lia].
Qed.

(** The depths do not depend on the order in which the maps are ranged over. *)
Lemma manifestDepths_unique {A} (o1 o2 : MapOrder) (manifests : gmap string A) children k d1 d2 :
  acyclic children →
  manifestDepths (H := o1) manifests children !! k = Some d1 →
  manifestDepths (H := o2) manifests children !! k = Some d2 → d1 = d2.
Proof.
  intros Ha. pose proof (proj1 (manifestDepths_ok (H := o1) manifests children Ha)) as Hd1.
  pose proof (proj1 (manifestDepths_ok (H := o2) manifests children Ha)) as Hd2.
  revert d1 d2. assert (Acc (flip (edge (manifestParents (H := o1) children))) k) as Hacc.
  { apply (cyclic_false (H := o1)), cyclic_acyclic. by apply parents_acyclic. }
  induction Hacc as [k _ IH]. intros d1 d2 H1 H2.
  assert (∀ a b (oa ob : MapOrder) (da db : gmap string Z),
    depth_eq (manifestParents (H := oa) children) da k a →
    depth_eq (manifestParents (H := ob) children) db k b →
    (∀ p vp wp, edge children p k → da !! p = Some vp → db !! p = Some wp → vp = wp) → (a ≤ b)%Z)
    as Hle.
  { intros a b oa ob da db (_ & _ & Hm) (Hb & Hp & _) Heq.
    destruct Hm as [->|(p & vp & Hin & Hvp & ->)]; [done|].
    apply (manifestParents_next (H := oa) children) in Hin.
    destruct (Hp p) as (wp & Hwp & ?); [by apply (manifestParents_next (H := ob))|].
    rewrite (Heq p vp wp) by done. done. }
  assert (∀ p vp wp, edge children p k →
    manifestDepths (H := o1) manifests children !! p = Some vp →
    manifestDepths (H := o2) manifests children !! p = Some wp → vp = wp) as Heq.
  { intros p vp wp He. apply IH. by apply (manifestParents_next (H := o1) children). }
  pose proof (Hle _ _ _ _ _ _ (Hd1 _ _ H1) (Hd2 _ _ H2) Heq).
  pose proof (Hle _ _ _ _ _ _ (Hd2 _ _ H2) (Hd1 _ _ H1) ltac:(intros; symmetry; eauto)). lia.
Qed.
