(* ===== verification/RegistryLifecycle.v ===== *)
(** The cleanup planner of [internal/registry/lifecycle.go]: catalog
    validation, the lifecycle graph, release and cache retention, and
    [BuildCleanupPlan].

    The planner is a pure function of the snapshot; its maps are ranged over
    in the order of a [MapOrder].  Errors keep the sentinel and drop the
    message text. *)

From S2P Require Import Prelude Regexp GoStrings RegistryModel RegistryGraph.

Open Scope Z_scope.

(** * Reasons *)

Definition ReasonCurrentGitIntent : string := "current-git-intent".
Definition ReasonObservedRunning : string := "observed-running".
Definition ReasonPin : string := "pin".
Definition ReasonActiveOperation : string := "active-operation".
Definition ReasonRetainedSuccessWindow : string := "retained-success-window".
Definition ReasonMinimumSafetyAge : string := "minimum-safety-age".
Definition ReasonCacheActive : string := "cache-active".
Definition ReasonCacheRetained : string := "cache-retained-generation".
Definition ReasonCacheRecentlyUsed : string := "cache-recently-used".
Definition ReasonOutsideServiceScope : string := "outside-service-scope".
Definition ReasonReachableManifest : string := "reachable-from-protected-manifest".
Definition ReasonReachableBlob : string := "reachable-from-protected-manifest-blob".
Definition ReasonRetentionEligible : string := "retention-eligible".
Definition ReasonCacheExpired : string := "cache-unused-expired".
Definition ReasonCacheQuota : string := "cache-byte-quota".
Definition ReasonUnreachableBlob : string := "globally-unreachable".

Definition stringSet (values : list string) : gset string :=
  foldl (fun out value => if String.eqb value "" then out else {[value]} ∪ out) ∅ values.

Definition reasonSlice (reasons : gset string) : list string := sort_strings (elements reasons).

Abbreviation outcome := (res RegistryErr).

(** * The catalog and its validation *)

Definition latestCatalog (observations : list RegistryCatalogObservation) (repository : string)
    : option RegistryCatalogObservation :=
  foldl (fun latest observation =>
      if String.eqb (co_Repository observation) repository &&
         match latest with
         | None => true
         | Some l => co_Revision l <? co_Revision observation
         end
      then Some observation else latest)
    None observations.

Definition knownKind (kind : string) : bool :=
  String.eqb kind RegistryManifestIndex || String.eqb kind RegistryManifestImage.

(** A repeated [map[string]struct{}] membership test. *)
Definition has {A} (m : gmap string A) (k : string) : bool :=
  match m !! k with Some _ => true | None => false end.

Fixpoint catalogManifests (observation : RegistryCatalogObservation) (l : list RegistryManifest)
    (manifests : gmap string RegistryManifest) : outcome (gmap string RegistryManifest) :=
  match l with
  | [] => Ok manifests
  | manifest :: rest =>
      if negb (String.eqb (m_RegistryTargetID manifest) (co_RegistryTargetID observation)) ||
         negb (String.eqb (m_Repository manifest) (co_Repository observation)) ||
         negb (validDigest (m_Digest manifest)) || (m_SizeBytes manifest <? 0)
      then Err ErrRegistryGraphInvalid
      else if negb (knownKind (m_Kind manifest)) then Err ErrRegistryGraphInvalid
      else if has manifests (m_Digest manifest) then Err ErrRegistryGraphInvalid
      else catalogManifests observation rest (<[m_Digest manifest := manifest]> manifests)
  end.

Fixpoint catalogBlobs (observation : RegistryCatalogObservation) (l : list RegistryBlob)
    (blobs : gmap string unit) : outcome (gmap string unit) :=
  match l with
  | [] => Ok blobs
  | blob :: rest =>
      if negb (String.eqb (b_RegistryTargetID blob) (co_RegistryTargetID observation)) ||
         negb (String.eqb (b_Repository blob) (co_Repository observation)) ||
         negb (validDigest (b_Digest blob)) || (b_SizeBytes blob <? 0)
      then Err ErrRegistryGraphInvalid
      else if has blobs (b_Digest blob) then Err ErrRegistryGraphInvalid
      else catalogBlobs observation rest (<[b_Digest blob := tt]> blobs)
  end.

Fixpoint catalogChildren (observation : RegistryCatalogObservation)
    (manifests : gmap string RegistryManifest) (l : list RegistryManifestLink)
    (seen : gmap string unit) (children : graph) : outcome graph :=
  match l with
  | [] => Ok children
  | link :: rest =>
      let parent := manifests !! ln_ParentDigest link in
      let key := nodeKey (ln_ParentDigest link) (ln_ChildDigest link) in
      if negb (String.eqb (ln_Repository link) (co_Repository observation)) ||
         negb (has manifests (ln_ParentDigest link)) || negb (has manifests (ln_ChildDigest link)) ||
         negb (String.eqb (m_Kind (default zeroManifest parent)) RegistryManifestIndex) ||
         String.eqb (ln_ParentDigest link) (ln_ChildDigest link)
      then Err ErrRegistryGraphInvalid
      else if has seen key then Err ErrRegistryGraphInvalid
      else catalogChildren observation manifests rest (<[key := tt]> seen)
             (<[ln_ParentDigest link :=
                (next children (ln_ParentDigest link) ++ [ln_ChildDigest link])%list]> children)
  end.

Fixpoint catalogBlobLinks (observation : RegistryCatalogObservation)
    (manifests : gmap string RegistryManifest) (blobs : gmap string unit)
    (l : list RegistryManifestBlobLink) (seen : gmap string unit) : outcome unit :=
  match l with
  | [] => Ok tt
  | link :: rest =>
      let key := nodeKey (bl_ManifestDigest link) (bl_BlobDigest link) in
      if negb (String.eqb (bl_Repository link) (co_Repository observation)) ||
         negb (has manifests (bl_ManifestDigest link)) || negb (has blobs (bl_BlobDigest link))
      then Err ErrRegistryGraphInvalid
      else if has seen key then Err ErrRegistryGraphInvalid
      else catalogBlobLinks observation manifests blobs rest (<[key := tt]> seen)
  end.

Definition ValidateCatalog `{MapOrder} (snapshot : RegistryCatalogSnapshot) : outcome unit :=
  let observation := cs_Observation snapshot in
  if String.eqb (co_RegistryTargetID observation) "" || String.eqb (co_Repository observation) "" ||
     (co_Revision observation <=? 0) || is_zero_time (co_ObservedAt observation)
  then Err ErrRegistryGraphInvalid
  else if negb (co_Complete observation) then
    if negb (length (cs_Manifests snapshot) =? 0)%nat || negb (length (cs_Blobs snapshot) =? 0)%nat ||
       negb (length (cs_Children snapshot) =? 0)%nat || negb (length (cs_BlobLinks snapshot) =? 0)%nat
    then Err ErrRegistryGraphInvalid else Ok tt
  else if negb (co_ManifestCount observation =? Z.of_nat (length (cs_Manifests snapshot))) ||
          negb (co_BlobCount observation =? Z.of_nat (length (cs_Blobs snapshot)))
  then Err ErrRegistryGraphInvalid
  else
    let* manifests := catalogManifests observation (cs_Manifests snapshot) ∅ in
    let* blobs := catalogBlobs observation (cs_Blobs snapshot) ∅ in
    let* children := catalogChildren observation manifests (cs_Children snapshot) ∅ ∅ in
    if cyclic children then Err ErrRegistryGraphInvalid
    else catalogBlobLinks observation manifests blobs (cs_BlobLinks snapshot) ∅.

(** * The lifecycle graph *)

Record lifecycleGraph := mkGraph {
  g_manifests : gmap string RegistryManifest;
  g_blobByDigest : gmap string (list RegistryBlob);
  g_children : graph;
  g_manifestBlobs : graph;
}.

(** [graph.manifests[key].Digest != ""]: the node is in the graph. *)
Definition present (manifests : gmap string RegistryManifest) (key : string) : bool :=
  negb (String.eqb (m_Digest (default zeroManifest (manifests !! key))) "").

Definition bump (counts : gmap string Z) (k : string) : gmap string Z :=
  <[k := default 0 (counts !! k) + 1]> counts.

Fixpoint graphManifests (snapshot : RegistryLifecycleSnapshot) (repositories : gset string)
    (l : list RegistryManifest) (manifests : gmap string RegistryManifest) (counts : gmap string Z)
    : outcome (gmap string RegistryManifest * gmap string Z) :=
  match l with
  | [] => Ok (manifests, counts)
  | manifest :: rest =>
      if negb (m_Present manifest) then graphManifests snapshot repositories rest manifests counts
      else
        let key := nodeKey (m_Repository manifest) (m_Digest manifest) in
        if negb (String.eqb (m_RegistryTargetID manifest) (t_ID (sn_Target snapshot))) ||
           negb (validDigest (m_Digest manifest)) ||
           negb (bool_decide (m_Repository manifest ∈ repositories)) || present manifests key ||
           (m_SizeBytes manifest <? 0) || is_zero_time (m_FirstObservedAt manifest) ||
           is_zero_time (m_LastObservedAt manifest) || (m_LastObservationRevision manifest <=? 0) ||
           negb (knownKind (m_Kind manifest))
        then Err ErrRegistryGraphInvalid
        else graphManifests snapshot repositories rest (<[key := manifest]> manifests)
               (bump counts (m_Repository manifest))
  end.

Fixpoint graphBlobs (snapshot : RegistryLifecycleSnapshot) (repositories : gset string)
    (l : list RegistryBlob) (blobNodes : gset string) (blobByDigest : gmap string (list RegistryBlob))
    (counts : gmap string Z) : outcome (gset string * gmap string (list RegistryBlob) * gmap string Z) :=
  match l with
  | [] => Ok (blobNodes, blobByDigest, counts)
  | blob :: rest =>
      if negb (b_Present blob) then graphBlobs snapshot repositories rest blobNodes blobByDigest counts
      else
        let key := nodeKey (b_Repository blob) (b_Digest blob) in
        if negb (String.eqb (b_RegistryTargetID blob) (t_ID (sn_Target snapshot))) ||
           negb (validDigest (b_Digest blob)) ||
           negb (bool_decide (b_Repository blob ∈ repositories)) || (b_SizeBytes blob <? 0) ||
           is_zero_time (b_FirstObservedAt blob) || is_zero_time (b_LastObservedAt blob) ||
           (b_LastObservationRevision blob <=? 0)
        then Err ErrRegistryGraphInvalid
        else if bool_decide (key ∈ blobNodes) then Err ErrRegistryGraphInvalid
        else graphBlobs snapshot repositories rest ({[key]} ∪ blobNodes)
               (<[b_Digest blob :=
                  (default [] (blobByDigest !! b_Digest blob) ++ [blob])%list]> blobByDigest)
               (bump counts (b_Repository blob))
  end.

Fixpoint graphChildren (manifests : gmap string RegistryManifest) (l : list RegistryManifestLink)
    (children : graph) : outcome graph :=
  match l with
  | [] => Ok children
  | link :: rest =>
      let parent := nodeKey (ln_Repository link) (ln_ParentDigest link) in
      let child := nodeKey (ln_Repository link) (ln_ChildDigest link) in
      if negb (present manifests parent) || negb (present manifests child) ||
         negb (String.eqb (m_Kind (default zeroManifest (manifests !! parent))) RegistryManifestIndex)
      then Err ErrRegistryGraphInvalid
      else graphChildren manifests rest (<[parent := (next children parent ++ [child])%list]> children)
  end.

Fixpoint graphBlobLinks (manifests : gmap string RegistryManifest) (blobNodes : gset string)
    (l : list RegistryManifestBlobLink) (manifestBlobs : graph) : outcome graph :=
  match l with
  | [] => Ok manifestBlobs
  | link :: rest =>
      let manifest := nodeKey (bl_Repository link) (bl_ManifestDigest link) in
      let blob := nodeKey (bl_Repository link) (bl_BlobDigest link) in
      if negb (present manifests manifest) then Err ErrRegistryGraphInvalid
      else if negb (bool_decide (blob ∈ blobNodes)) then Err ErrRegistryGraphInvalid
      else graphBlobLinks manifests blobNodes rest
             (<[manifest := (next manifestBlobs manifest ++ [bl_BlobDigest link])%list]> manifestBlobs)
  end.

Fixpoint checkReleases (snapshot : RegistryLifecycleSnapshot)
    (manifests : gmap string RegistryManifest) (l : list RegistryRelease) : outcome unit :=
  match l with
  | [] => Ok tt
  | release :: rest =>
      if negb (String.eqb (rl_RegistryTargetID release) (t_ID (sn_Target snapshot))) ||
         negb (String.eqb (rl_ServiceID release) (po_ServiceID (sn_Policy snapshot))) ||
         negb (String.eqb (rl_Repository release) (po_Repository (sn_Policy snapshot)))
      then Err ErrRegistryGraphInvalid
      else if String.eqb (rl_Availability release) RegistryArtifactPresent &&
              negb (present manifests (nodeKey (rl_Repository release) (rl_RootDigest release)))
      then Err ErrRegistryObservationIncomplete
      else checkReleases snapshot manifests rest
  end.

Definition deadCache (cache : RegistryCacheGeneration) : bool :=
  String.eqb (cg_State cache) "deleted" || String.eqb (cg_State cache) "missing".

Fixpoint checkCaches (manifests : gmap string RegistryManifest) (l : list RegistryCacheGeneration)
    : outcome unit :=
  match l with
  | [] => Ok tt
  | cache :: rest =>
      if negb (deadCache cache) &&
         negb (present manifests (nodeKey (cg_Repository cache) (cg_RootDigest cache)))
      then Err ErrRegistryObservationIncomplete
      else checkCaches manifests rest
  end.

(** The observed counts of a repository match its nodes. *)
Definition catalogClosed (snapshot : RegistryLifecycleSnapshot) (countsM countsB : gmap string Z)
    (repository : string) : bool :=
  match latestCatalog (sn_CatalogObservations snapshot) repository with
  | None => false
  | Some observation =>
      co_Complete observation &&
      (co_ManifestCount observation =? default 0 (countsM !! repository)) &&
      (co_BlobCount observation =? default 0 (countsB !! repository))
  end.

Definition newLifecycleGraph `{MapOrder} (snapshot : RegistryLifecycleSnapshot)
    : outcome lifecycleGraph :=
  let repositories := stringSet (iv_Repositories (sn_Inventory snapshot)) in
  let* nodes := graphManifests snapshot repositories (sn_Manifests snapshot) ∅ ∅ in
  let '(manifests, countsM) := nodes in
  let* blobs := graphBlobs snapshot repositories (sn_Blobs snapshot) ∅ ∅ ∅ in
  let '(blobNodes, blobByDigest, countsB) := blobs in
  let* children := graphChildren manifests (sn_Children snapshot) ∅ in
  if cyclic children then Err ErrRegistryGraphInvalid
  else
    let* manifestBlobs := graphBlobLinks manifests blobNodes (sn_BlobLinks snapshot) ∅ in
    let* _ := checkReleases snapshot manifests (sn_Releases snapshot) in
    let* _ := checkCaches manifests (sn_CacheGenerations snapshot) in
    if forallb (catalogClosed snapshot countsM countsB) (elements repositories)
    then Ok (mkGraph manifests blobByDigest children manifestBlobs)
    else Err ErrRegistryObservationIncomplete.

(** * Completeness of the observations *)

Definition staleAt (maxAge : Duration) (now observedAt : Time) : bool :=
  (0 <? maxAge) && (observedAt <? now - maxAge).

Fixpoint checkAuthorities (snapshot : RegistryLifecycleSnapshot) (now : Time) (maxAge : Duration)
    (l : list RegistryAuthorityObservation) (required : gmap string bool)
    : outcome (gmap string bool) :=
  match l with
  | [] => Ok required
  | observation :: rest =>
      if negb (String.eqb (ao_RegistryTargetID observation) (t_ID (sn_Target snapshot))) ||
         negb (String.eqb (ao_ServiceID observation) (po_ServiceID (sn_Policy snapshot)))
      then Err ErrRegistryObservationIncomplete
      else if negb (has required (ao_Authority observation)) ||
              default false (required !! ao_Authority observation) ||
              negb (ao_Complete observation) || String.eqb (ao_Revision observation) ""
      then Err ErrRegistryObservationIncomplete
      else if staleAt maxAge now (ao_ObservedAt observation)
      then Err ErrRegistryObservationIncomplete
      else checkAuthorities snapshot now maxAge rest (<[ao_Authority observation := true]> required)
  end.

Definition requiredAuthorities : gmap string bool :=
  <[RegistryAuthorityGitIntent := false]> (<[RegistryAuthorityRuntime := false]>
    {[ RegistryAuthorityOperations := false ]}).

Definition catalogFresh (snapshot : RegistryLifecycleSnapshot) (now : Time) (maxAge : Duration)
    (repository : string) : bool :=
  match latestCatalog (sn_CatalogObservations snapshot) repository with
  | None => false
  | Some observation =>
      negb (negb (co_Complete observation) ||
            negb (String.eqb (co_RegistryTargetID observation) (t_ID (sn_Target snapshot)))) &&
      negb (staleAt maxAge now (co_ObservedAt observation))
  end.

Definition validateCompleteness `{MapOrder} (snapshot : RegistryLifecycleSnapshot) (now : Time)
    (maxAge : Duration) : outcome unit :=
  let inventory := sn_Inventory snapshot in
  let repositories := stringSet (iv_Repositories inventory) in
  if negb (iv_Complete inventory) ||
     negb (String.eqb (iv_RegistryTargetID inventory) (t_ID (sn_Target snapshot))) ||
     String.eqb (iv_Revision inventory) "" then Err ErrRegistryObservationIncomplete
  else if staleAt maxAge now (iv_ObservedAt inventory) then Err ErrRegistryObservationIncomplete
  else if negb (size repositories =? length (iv_Repositories inventory))%nat ||
          negb (bool_decide (po_Repository (sn_Policy snapshot) ∈ repositories))
  then Err ErrRegistryObservationIncomplete
  else if negb (forallb (fun cache =>
      String.eqb (cg_RegistryTargetID cache) (t_ID (sn_Target snapshot)) &&
      String.eqb (cg_ServiceID cache) (po_ServiceID (sn_Policy snapshot)) &&
      bool_decide (cg_Repository cache ∈ repositories)) (sn_CacheGenerations snapshot))
  then Err ErrRegistryObservationIncomplete
  else if negb (forallb (catalogFresh snapshot now maxAge) (elements repositories))
  then Err ErrRegistryObservationIncomplete
  else
    let* required := checkAuthorities snapshot now maxAge (sn_AuthorityObservations snapshot)
                       requiredAuthorities in
    if forallb (fun entry => entry.2) (range 10 required) then Ok tt
    else Err ErrRegistryObservationIncomplete.

(** * Protected references *)

Definition referenceReason (kind : string) : string :=
  switch kind
    [(RegistryReferenceCurrentGitIntent, ReasonCurrentGitIntent);
     (RegistryReferenceObservedRunning, ReasonObservedRunning);
     (RegistryReferencePin, ReasonPin);
     (RegistryReferenceActiveOperation, ReasonActiveOperation)] "".

Fixpoint protectReferences (snapshot : RegistryLifecycleSnapshot)
    (manifests : gmap string RegistryManifest) (l : list RegistryArtifactReference)
    (protected : gmap string (gset string)) : outcome (gmap string (gset string)) :=
  match l with
  | [] => Ok protected
  | reference :: rest =>
      if negb (String.eqb (rf_RegistryTargetID reference) (t_ID (sn_Target snapshot))) ||
         negb (String.eqb (rf_ServiceID reference) (po_ServiceID (sn_Policy snapshot)))
      then Err ErrRegistryGraphInvalid
      else
        let reason := referenceReason (rf_Kind reference) in
        let key := nodeKey (rf_Repository reference) (rf_Digest reference) in
        if String.eqb reason "" || negb (present manifests key)
        then Err ErrRegistryObservationIncomplete
        else protectReferences snapshot manifests rest (addReason protected key reason)
  end.

(** * The window of successful releases *)

Definition newerRelease (x y : RegistryRelease) : bool :=
  if negb (rl_CreatedAt x =? rl_CreatedAt y) then rl_CreatedAt y <? rl_CreatedAt x
  else str_less (rl_ID y) (rl_ID x).

(** A release that counts: it succeeded and its root is in the catalog. *)
Definition retainable (snapshot : RegistryLifecycleSnapshot)
    (manifests : gmap string RegistryManifest) (release : RegistryRelease) : bool :=
  negb (negb (String.eqb (rl_RegistryTargetID release) (t_ID (sn_Target snapshot))) ||
        negb (String.eqb (rl_ServiceID release) (po_ServiceID (sn_Policy snapshot))) ||
        match rl_SucceededAt release with None => true | Some _ => false end ||
        negb (String.eqb (rl_Availability release) RegistryArtifactPresent)) &&
  present manifests (nodeKey (rl_Repository release) (rl_RootDigest release)).

Fixpoint retainReleases (snapshot : RegistryLifecycleSnapshot)
    (manifests : gmap string RegistryManifest) (l : list RegistryRelease) (seen : gset string)
    (retained : Z) (protected : gmap string (gset string)) : gmap string (gset string) :=
  match l with
  | [] => protected
  | release :: rest =>
      let key := nodeKey (rl_Repository release) (rl_RootDigest release) in
      if negb (retainable snapshot manifests release) || bool_decide (key ∈ seen)
      then retainReleases snapshot manifests rest seen retained protected
      else if retained <? po_KeepLastSuccessful (sn_Policy snapshot)
      then retainReleases snapshot manifests rest ({[key]} ∪ seen) (retained + 1)
             (addReason protected key ReasonRetainedSuccessWindow)
      else retainReleases snapshot manifests rest ({[key]} ∪ seen) retained protected
  end.

Definition protectSuccessfulReleases (snapshot : RegistryLifecycleSnapshot)
    (manifests : gmap string RegistryManifest) (protected : gmap string (gset string))
    : gmap string (gset string) :=
  retainReleases snapshot manifests (sort_slice newerRelease (sn_Releases snapshot)) ∅ 0 protected.

(** * Caches *)

Definition maxBlobSize (blobs : list RegistryBlob) : Z :=
  foldl (fun size blob => if size <? b_SizeBytes blob then b_SizeBytes blob else size) 0 blobs.

(** The blobs of one manifest that were not counted before. *)
Fixpoint addBlobSizes (g : lifecycleGraph) (digests : list string) (seenBlobs : gset string)
    (size : Z) : gset string * Z :=
  match digests with
  | [] => (seenBlobs, size)
  | digest :: rest =>
      if decide (digest ∈ seenBlobs) then addBlobSizes g rest seenBlobs size
      else addBlobSizes g rest ({[digest]} ∪ seenBlobs)
             (i64 (size + maxBlobSize (default [] (g_blobByDigest g !! digest))))
  end.

Fixpoint observeSize (fuel : nat) (g : lifecycleGraph) (queue : list string)
    (seenManifests seenBlobs : gset string) (size : Z) : Z :=
  match fuel, queue with
  | _, [] => size
  | O, _ => size
  | S fuel', key :: queue' =>
      if decide (key ∈ seenManifests) then observeSize fuel' g queue' seenManifests seenBlobs size
      else match g_manifests g !! key with
      | None => observeSize fuel' g queue' seenManifests seenBlobs size
      | Some manifest =>
          let (seenBlobs', size') :=
            addBlobSizes g (next (g_manifestBlobs g) key) seenBlobs
              (i64 (size + m_SizeBytes manifest)) in
          observeSize fuel' g (queue' ++ next (g_children g) key)%list ({[key]} ∪ seenManifests)
            seenBlobs' size'
      end
  end.

Definition cacheRootObservedSize (g : lifecycleGraph) (root : string) : Z :=
  observeSize (1 + edge_count (g_children g)) g [root] ∅ ∅ 0.

Record rootInfo := mkRoot {
  ro_key : string;
  ro_size : Z;
  ro_lastUsed : Time;
  ro_generation : Z;
  ro_id : string;
}.

Definition zeroRoot : rootInfo := mkRoot "" 0 zero_time 0 "".

(** The four conditional updates of the root of a generation. *)
Definition updateRoot (g : lifecycleGraph) (generation : RegistryCacheGeneration) (key : string)
    (root : rootInfo) : rootInfo :=
  let size := if cg_SizeBytes generation =? 0 then cacheRootObservedSize g key
              else cg_SizeBytes generation in
  let older := String.eqb (ro_id root) "" || (cg_Generation generation <? ro_generation root) ||
               ((cg_Generation generation =? ro_generation root) &&
                str_less (cg_ID generation) (ro_id root)) in
  mkRoot key
    (if ro_size root <? size then size else ro_size root)
    (if is_zero_time (ro_lastUsed root) || (ro_lastUsed root <? cg_LastUsedAt generation)
     then cg_LastUsedAt generation else ro_lastUsed root)
    (if older then cg_Generation generation else ro_generation root)
    (if older then cg_ID generation else ro_id root).

Definition cacheKey (generation : RegistryCacheGeneration) : string :=
  nodeKey (cg_Repository generation) (cg_RootDigest generation).

Definition cacheGroup (generation : RegistryCacheGeneration) : string :=
  str_join nul [cg_PlatformSet generation; cg_TrustLane generation; cg_CacheSchema generation].

Definition liveCaches (snapshot : RegistryLifecycleSnapshot) : list RegistryCacheGeneration :=
  List.filter (fun generation => negb (deadCache generation)) (sn_CacheGenerations snapshot).

Definition cacheRoots (g : lifecycleGraph) (l : list RegistryCacheGeneration) : gmap string rootInfo :=
  foldl (fun roots generation =>
      let key := cacheKey generation in
      <[key := updateRoot g generation key (default zeroRoot (roots !! key))]> roots) ∅ l.

Definition cacheGroups (l : list RegistryCacheGeneration) : gmap string (list RegistryCacheGeneration) :=
  foldl (fun groups generation =>
      let group := cacheGroup generation in
      <[group := (default [] (groups !! group) ++ [generation])%list]> groups) ∅ l.

Definition newerGeneration (x y : RegistryCacheGeneration) : bool :=
  if negb (cg_Generation x =? cg_Generation y) then cg_Generation y <? cg_Generation x
  else str_less (cg_ID y) (cg_ID x).

Definition cacheActive (generation : RegistryCacheGeneration) : bool :=
  String.eqb (cg_State generation) "exporting" || (0 <? cg_ActiveImports generation) ||
  (0 <? cg_ActiveExports generation).

(** The loop over one group, newest generation first. *)
Fixpoint fixGroup (cutoff : Time) (l : list RegistryCacheGeneration) (kept : Z)
    (fixed : gmap string (gset string)) : gmap string (gset string) :=
  match l with
  | [] => fixed
  | generation :: rest =>
      let key := cacheKey generation in
      if cacheActive generation then fixGroup cutoff rest kept (addReason fixed key ReasonCacheActive)
      else if String.eqb (cg_State generation) "succeeded" && (kept <? 1)
      then fixGroup cutoff rest (kept + 1) (addReason fixed key ReasonCacheRetained)
      else if negb (cg_CreatedAt generation <? cutoff)
      then fixGroup cutoff rest kept (addReason fixed key ReasonMinimumSafetyAge)
      else fixGroup cutoff rest kept fixed
  end.

Definition fixCaches `{MapOrder} (cutoff : Time) (groups : gmap string (list RegistryCacheGeneration))
    : gmap string (gset string) :=
  foldl (fun fixed entry => fixGroup cutoff (sort_slice newerGeneration entry.2) 0 fixed)
    ∅ (range 11 groups).

Record candidate := mkCandidate {
  ct_root : rootInfo;
  ct_expired : bool;
}.

Definition candidateLess (x y : candidate) : bool :=
  if negb (Bool.eqb (ct_expired x) (ct_expired y)) then ct_expired x
  else if negb (ro_lastUsed (ct_root x) =? ro_lastUsed (ct_root y))
  then ro_lastUsed (ct_root x) <? ro_lastUsed (ct_root y)
  else if negb (ro_generation (ct_root x) =? ro_generation (ct_root y))
  then ro_generation (ct_root x) <? ro_generation (ct_root y)
  else str_less (ro_id (ct_root x)) (ro_id (ct_root y)).

Definition cacheCandidates `{MapOrder} (roots : gmap string rootInfo)
    (fixed : gmap string (gset string)) (expiry : Time) : list candidate :=
  omap (fun entry =>
      if negb (size (default ∅ (fixed !! entry.1)) =? 0)%nat then None
      else Some (mkCandidate entry.2 (negb (expiry <? ro_lastUsed entry.2))))
    (range 12 roots).

(** Deletes the expired candidates, then the least recently used ones while
    the caches that remain are over the quota. *)
Fixpoint evict (quota : Z) (l : list candidate) (remaining : Z)
    (fixed deletedRoots : gmap string (gset string))
    : gmap string (gset string) * gmap string (gset string) * Z :=
  match l with
  | [] => (fixed, deletedRoots, remaining)
  | c :: rest =>
      let key := ro_key (ct_root c) in
      if ct_expired c
      then evict quota rest (i64 (remaining - ro_size (ct_root c))) fixed
             (addReason deletedRoots key ReasonCacheExpired)
      else if quota <? remaining
      then evict quota rest (i64 (remaining - ro_size (ct_root c))) fixed
             (addReason deletedRoots key ReasonCacheQuota)
      else evict quota rest remaining (addReason fixed key ReasonCacheRecentlyUsed) deletedRoots
  end.

Record cacheDecision := mkDecision {
  cd_protect : bool;
  cd_reasons : list string;
}.

Definition decideCaches `{MapOrder} (snapshot : RegistryLifecycleSnapshot) (g : lifecycleGraph)
    (now : Time) : gmap string cacheDecision * Z * Z :=
  let live := liveCaches snapshot in
  let roots := cacheRoots g live in
  let before := foldl (fun before entry => i64 (before + ro_size entry.2)) 0 (range 13 roots) in
  let fixed := fixCaches (now - po_MinimumSafetyAge (sn_Policy snapshot)) (cacheGroups live) in
  let candidates := sort_slice candidateLess
    (cacheCandidates roots fixed (now - po_CacheUnusedExpiry (sn_Policy snapshot))) in
  let '(fixed, deletedRoots, remaining) :=
    evict (po_CacheByteQuota (sn_Policy snapshot)) candidates before fixed ∅ in
  let decisions := foldl (fun decisions entry =>
      <[entry.1 := mkDecision true (reasonSlice entry.2)]> decisions) ∅ (range 14 fixed) in
  let decisions := foldl (fun decisions entry =>
      if has fixed entry.1 then decisions
      else <[entry.1 := mkDecision false (reasonSlice entry.2)]> decisions)
    decisions (range 15 deletedRoots) in
  (decisions, before, if remaining <? 0 then 0 else remaining).

(** * The plan *)

Definition cleanupItem (repository resourceKind digest : string)
    (disposition : RegistryCleanupDisposition) (action : string) (bytes : Z)
    (reasons : gset string) : RegistryCleanupItem :=
  mkItem 0 repository resourceKind digest disposition action bytes (reasonSlice reasons)
    (if bool_decide (disposition = RegistryCleanupProtect) then "protected" else "planned").

(** The decisions of the caches become protections and deletion reasons. *)
Definition applyDecisions `{MapOrder} (decisions : gmap string cacheDecision)
    (protected deleteReasons : gmap string (gset string))
    : gmap string (gset string) * gmap string (gset string) :=
  foldl (fun acc entry =>
      let reasons := (fun reason => (entry.1, reason)) <$> cd_reasons entry.2 in
      if cd_protect entry.2 then (addReasons acc.1 reasons, acc.2)
      else (acc.1, addReasons acc.2 reasons))
    (protected, deleteReasons) (range 20 decisions).

Definition serviceRepositories (snapshot : RegistryLifecycleSnapshot) : gmap string string :=
  foldl (fun repositories cache =>
      if String.eqb (cg_ServiceID cache) (po_ServiceID (sn_Policy snapshot))
      then <[cg_Repository cache := "cache-manifest"]> repositories else repositories)
    {[ po_Repository (sn_Policy snapshot) := "release-manifest" ]} (sn_CacheGenerations snapshot).

(** Manifests of other services and young manifests are kept. *)
Definition scopeReason (repositories : gmap string string) (cutoff : Time)
    (manifest : RegistryManifest) : option string :=
  if negb (has repositories (m_Repository manifest)) then Some ReasonOutsideServiceScope
  else if negb (m_FirstObservedAt manifest <? cutoff) then Some ReasonMinimumSafetyAge
  else None.

Definition protectScope `{MapOrder} (repositories : gmap string string) (cutoff : Time)
    (manifests : gmap string RegistryManifest) (protected : gmap string (gset string))
    : gmap string (gset string) :=
  foldl (fun protected entry =>
      match scopeReason repositories cutoff entry.2 with
      | Some reason => addReason protected entry.1 reason
      | None => protected
      end) protected (range 21 manifests).

(** Whatever is neither protected nor condemned by a cache decision is
    eligible; nothing outside the scope may become eligible. *)
Fixpoint markEligible (repositories : gmap string string) (protected : gmap string (gset string))
    (l : list (string * RegistryManifest)) (deleteReasons : gmap string (gset string))
    : outcome (gmap string (gset string)) :=
  match l with
  | [] => Ok deleteReasons
  | (key, manifest) :: rest =>
      if has protected key then markEligible repositories protected rest deleteReasons
      else if negb (has repositories (m_Repository manifest)) then Err ErrRegistryGraphInvalid
      else if (size (default ∅ (deleteReasons !! key)) =? 0)%nat
      then markEligible repositories protected rest
             (addReason deleteReasons key ReasonRetentionEligible)
      else markEligible repositories protected rest deleteReasons
  end.

Definition manifestItem (repositories : gmap string string)
    (protected deleteReasons : gmap string (gset string)) (key : string)
    (manifest : RegistryManifest) : RegistryCleanupItem :=
  let resourceKind := default "" (repositories !! m_Repository manifest) in
  let resourceKind := if String.eqb resourceKind "" then "release-manifest" else resourceKind in
  match protected !! key with
  | Some reasons => cleanupItem (m_Repository manifest) resourceKind (m_Digest manifest)
      RegistryCleanupProtect "none" (m_SizeBytes manifest) reasons
  | None => cleanupItem (m_Repository manifest) resourceKind (m_Digest manifest)
      RegistryCleanupDelete "delete-manifest" (m_SizeBytes manifest)
      (default ∅ (deleteReasons !! key))
  end.

Definition reachableBlobs `{MapOrder} (g : lifecycleGraph) (protected : gmap string (gset string))
    : gset string :=
  foldl (fun blobs entry =>
      foldl (fun blobs digest => {[digest]} ∪ blobs) blobs (next (g_manifestBlobs g) entry.1))
    ∅ (range 22 protected).

Definition blobReasons (reachable : gset string) (cutoff : Time) (digest : string)
    (blobs : list RegistryBlob) : gset string :=
  foldl (fun reasons blob =>
      if negb (b_FirstObservedAt blob <? cutoff) then {[ReasonMinimumSafetyAge]} ∪ reasons
      else reasons)
    (if bool_decide (digest ∈ reachable) then {[ReasonReachableBlob]} else ∅) blobs.

Definition blobItem (reachable : gset string) (cutoff : Time) (digest : string)
    (blobs : list RegistryBlob) : RegistryCleanupItem :=
  let reasons := blobReasons reachable cutoff digest blobs in
  if negb (size reasons =? 0)%nat
  then cleanupItem "*" "blob" digest RegistryCleanupProtect "none" (maxBlobSize blobs) reasons
  else cleanupItem "*" "blob" digest RegistryCleanupDelete "garbage-collect-blob"
         (maxBlobSize blobs) {[ReasonUnreachableBlob]}.

Definition isBlob (item : RegistryCleanupItem) : bool := String.eqb (it_ResourceKind item) "blob".

(** The order of the items: manifests before blobs, parents before children. *)
Definition itemLess (depths : gmap string Z) (x y : RegistryCleanupItem) : bool :=
  let px := if isBlob x then 1 else 0 in
  let py := if isBlob y then 1 else 0 in
  let dx := if px =? 0 then default 0 (depths !! nodeKey (it_Repository x) (it_Digest x)) else 0 in
  let dy := if py =? 0 then default 0 (depths !! nodeKey (it_Repository y) (it_Digest y)) else 0 in
  if negb (px =? py) then px <? py
  else if negb (dx =? dy) then dx <? dy
  else if negb (String.eqb (it_Repository x) (it_Repository y))
  then str_less (it_Repository x) (it_Repository y)
  else if negb (String.eqb (it_ResourceKind x) (it_ResourceKind y))
  then str_less (it_ResourceKind x) (it_ResourceKind y)
  else str_less (it_Digest x) (it_Digest y).

Definition setOrdinal (ordinal : nat) (item : RegistryCleanupItem) : RegistryCleanupItem :=
  mkItem (Z.of_nat ordinal) (it_Repository item) (it_ResourceKind item) (it_Digest item)
    (it_Disposition item) (it_Action item) (it_EstimatedBytes item) (it_Reasons item)
    (it_State item).

Definition sortCleanupItems `{MapOrder} (items : list RegistryCleanupItem) (g : lifecycleGraph)
    : list RegistryCleanupItem :=
  imap setOrdinal (sort_slice (itemLess (manifestDepths (g_manifests g) (g_children g))) items).

Definition countItem (summary : RegistryCleanupSummary) (item : RegistryCleanupItem)
    : RegistryCleanupSummary :=
  let deleted := bool_decide (it_Disposition item = RegistryCleanupDelete) in
  let '(mkSummary p d b bytes before after ok) := summary in
  if isBlob item && deleted
  then mkSummary p d (b + 1) (i64 (bytes + it_EstimatedBytes item)) before after ok
  else if negb (isBlob item) && deleted then mkSummary p (d + 1) b bytes before after ok
  else if negb (isBlob item) then mkSummary (p + 1) d b bytes before after ok
  else summary.

Definition summarize (items : list RegistryCleanupItem) (cacheBefore cacheAfter quota : Z)
    : RegistryCleanupSummary :=
  foldl countItem (mkSummary 0 0 0 0 cacheBefore cacheAfter (cacheAfter <=? quota)) items.

(** The protected manifests and the reasons to delete the others: everything
    [BuildCleanupPlan] decides before it writes items. *)
Definition protections `{MapOrder} (snapshot : RegistryLifecycleSnapshot) (g : lifecycleGraph)
    (now : Time) (decisions : gmap string cacheDecision)
    : outcome (gmap string (gset string) * gmap string (gset string)) :=
  let cutoff := now - po_MinimumSafetyAge (sn_Policy snapshot) in
  let repositories := serviceRepositories snapshot in
  let* protected := protectReferences snapshot (g_manifests g) (sn_References snapshot) ∅ in
  let protected := protectSuccessfulReleases snapshot (g_manifests g) protected in
  let '(protected, deleteReasons) := applyDecisions decisions protected ∅ in
  let protected := protectScope repositories cutoff (g_manifests g) protected in
  let protected := protectReachable (g_children g) ReasonReachableManifest protected in
  let* deleteReasons := markEligible repositories protected (range 23 (g_manifests g)) deleteReasons in
  Ok (protected, deleteReasons).

Definition planItems `{MapOrder} (snapshot : RegistryLifecycleSnapshot) (g : lifecycleGraph)
    (now : Time) (protected deleteReasons : gmap string (gset string)) : list RegistryCleanupItem :=
  let cutoff := now - po_MinimumSafetyAge (sn_Policy snapshot) in
  let reachable := reachableBlobs g protected in
  ((fun entry => manifestItem (serviceRepositories snapshot) protected deleteReasons entry.1 entry.2)
     <$> range 24 (g_manifests g)) ++
  ((fun entry => blobItem reachable cutoff entry.1 entry.2) <$> range 25 (g_blobByDigest g)).

Definition BuildCleanupPlan `{MapOrder} (snapshot : RegistryLifecycleSnapshot) (now : Time)
    (maxObservationAge : Duration) : outcome RegistryCleanupPlan :=
  let target := sn_Target snapshot in
  let policy := sn_Policy snapshot in
  if String.eqb (t_Mode target) RegistryTargetExternal then Err ErrRegistryExternalLifecycle
  else if negb (String.eqb (t_Mode target) RegistryTargetManaged) then Err ErrRegistryPolicyInvalid
  else
    let* _ := ValidatePolicy policy in
    if negb (String.eqb (t_ID target) (po_RegistryTargetID policy)) then Err ErrRegistryPolicyInvalid
    else
      let* _ := validateCompleteness snapshot now maxObservationAge in
      let* g := newLifecycleGraph snapshot in
      let '(decisions, cacheBefore, cacheAfter) := decideCaches snapshot g now in
      let* decided := protections snapshot g now decisions in
      let '(protected, deleteReasons) := decided in
      let items := sortCleanupItems (planItems snapshot g now protected deleteReasons) g in
      Ok (mkPlan (t_ID target) (po_ServiceID policy) "preview" policy (sn_Inventory snapshot)
            (sn_CatalogObservations snapshot) (sn_AuthorityObservations snapshot)
            (summarize items cacheBefore cacheAfter (po_CacheByteQuota policy)) items now).

(** * A concrete snapshot

    A running index with one child and its blob, and an old manifest with its
    own blob that nothing refers to. *)

Definition sampleDigest (c : string) : string := "sha256:" +:+ String.concat "" (replicate 64 c).

Definition sampleNow : Time := 100 * hour.

Definition sampleManifest (c kind : string) : RegistryManifest :=
  mkManifest "t1" "team/app" (sampleDigest c) kind 10 true hour hour 1.

Definition sampleBlob (c : string) : RegistryBlob :=
  mkBlob "t1" "team/app" (sampleDigest c) 100 true hour hour 1.

Definition sampleSnapshot : RegistryLifecycleSnapshot :=
  mkSnapshot (mkTarget "t1" RegistryTargetManaged "team")
    (mkPolicy "t1" "svc" "team/app" 1 minute hour 1000 hour hour)
    (mkInventory "t1" "r1" true ["team/app"] sampleNow)
    [mkCatalogObs "t1" "team/app" 1 true sampleNow 3 2]
    [mkAuthority "t1" "svc" RegistryAuthorityGitIntent "r1" true sampleNow;
     mkAuthority "t1" "svc" RegistryAuthorityRuntime "r1" true sampleNow;
     mkAuthority "t1" "svc" RegistryAuthorityOperations "r1" true sampleNow]
    [mkReference "t1" "svc" "team/app" (sampleDigest "a") RegistryReferenceObservedRunning]
    [] []
    [sampleManifest "c" RegistryManifestImage; sampleManifest "b" RegistryManifestImage;
     sampleManifest "a" RegistryManifestIndex]
    [sampleBlob "d"; sampleBlob "e"]
    [mkLink "team/app" (sampleDigest "a") (sampleDigest "b")]
    [mkBlobLink "team/app" (sampleDigest "b") (sampleDigest "d");
     mkBlobLink "team/app" (sampleDigest "c") (sampleDigest "e")].

Example samplePlan_items :
  match BuildCleanupPlan sampleSnapshot sampleNow hour with
  | Ok plan => (λ it, (it_Ordinal it, it_Digest it, it_Disposition it, it_Reasons it)) <$> pl_Items plan
  | Err _ => []
  end =
  [(0, sampleDigest "a", RegistryCleanupProtect, [ReasonObservedRunning]);
   (1, sampleDigest "c", RegistryCleanupDelete, [ReasonRetentionEligible]);
   (2, sampleDigest "b", RegistryCleanupProtect, [ReasonReachableManifest]);
   (3, sampleDigest "d", RegistryCleanupProtect, [ReasonReachableBlob]);
   (4, sampleDigest "e", RegistryCleanupDelete, [ReasonUnreachableBlob])].
Proof. vm_compute. reflexivity. Qed.
