(* ===== verification/RegistryFacts.v ===== *)
(** What the stages of the cleanup planner compute, in terms of the snapshot. *)

From S2P Require Import Prelude Regexp GoStrings RegistryModel RegistryGraph RegistryLifecycle.

Open Scope Z_scope.

(** * The snapshot as a graph *)

Definition manifestKey (m : RegistryManifest) : string := nodeKey (m_Repository m) (m_Digest m).

(** A manifest of the catalog, under its key. *)
Definition catalogued (snapshot : RegistryLifecycleSnapshot) (k : string) (m : RegistryManifest) : Prop :=
  m ∈ sn_Manifests snapshot ∧ m_Present m = true ∧ k = manifestKey m.

Definition childEdge (snapshot : RegistryLifecycleSnapshot) (p c : string) : Prop :=
  ∃ link, link ∈ sn_Children snapshot ∧ p = nodeKey (ln_Repository link) (ln_ParentDigest link) ∧
    c = nodeKey (ln_Repository link) (ln_ChildDigest link).

Definition blobEdge (snapshot : RegistryLifecycleSnapshot) (k digest : string) : Prop :=
  ∃ link, link ∈ sn_BlobLinks snapshot ∧ k = nodeKey (bl_Repository link) (bl_ManifestDigest link) ∧
    digest = bl_BlobDigest link.

Lemma present_spec manifests k :
  present manifests k = true ↔ ∃ m, manifests !! k = Some m ∧ m_Digest m ≠ "".
Proof.
  unfold present. rewrite negb_true_iff, String.eqb_neq. destruct (manifests !! k); simpl.
  - split; [by eauto | by intros (? & [= ->] & ?)].
  - split; [done | by intros (? & ? & _)].
Qed.

(** The keys of a graph under construction are the keys of its manifests. *)
Definition keyed_by (manifests : gmap string RegistryManifest) : Prop :=
  ∀ k m, manifests !! k = Some m → k = manifestKey m ∧ validDigest (m_Digest m) = true.

Lemma keyed_present manifests k : keyed_by manifests → present manifests k = true ↔ k ∈ dom manifests.
Proof.
  intros Hk. rewrite present_spec, elem_of_dom. split; [by intros (m & -> & _); eexists|].
  intros [m Hm]. exists m. split; [done|]. by apply validDigest_nonempty, (Hk k m).
Qed.

Lemma graphManifests_spec snapshot repositories l : ∀ manifests counts manifests' counts',
  keyed_by manifests →
  graphManifests snapshot repositories l manifests counts = Ok (manifests', counts') →
  keyed_by manifests' ∧
  (∀ k m, manifests' !! k = Some m ↔
     manifests !! k = Some m ∨ (m ∈ l ∧ m_Present m = true ∧ k = manifestKey m)) ∧
  (∀ m, m ∈ l → m_Present m = true → m_Repository m ∈ repositories) ∧
  map_to_list manifests' ≡ₚ map_to_list manifests ++
    ((fun m => (manifestKey m, m)) <$> List.filter m_Present l).
Proof.
  induction l as [|m l IH]; intros manifests counts manifests' counts' Hk; cbn [graphManifests].
  - intros [= <- <-]. split_and!; [done| |by intros ? ?%elem_of_nil|by rewrite app_nil_r].
    intros k m. rewrite elem_of_nil. tauto.
  - destruct (m_Present m) eqn:Hp; cbn [negb].
    2: { intros H. apply IH in H as (? & Hm & Hr & Hl); [|done].
         cbn [List.filter]. rewrite Hp. split_and!; [done| | |done].
         - intros k m'. rewrite Hm, elem_of_cons. split; [tauto|]. intros [?|([->|?] & ? & ?)]; auto; congruence.
         - intros m' [->|?]%elem_of_cons; [congruence|auto]. }
    destruct (_ || _) eqn:Hg; [done|]. bool_prop.
    fold (manifestKey m). intros Hgm. apply IH in Hgm.
    2: { intros k m'. intros [[<- <-]|[_ ?]]%lookup_insert_Some; [done|by apply Hk]. }
    destruct Hgm as (Hk' & Hm & Hr & Hl).
    assert (manifests !! manifestKey m = None) as Hn.
    { destruct (manifests !! manifestKey m) eqn:E; [|done]. exfalso.
      assert (present manifests (manifestKey m) = true) by (apply keyed_present, elem_of_dom; eauto).
      unfold manifestKey in *. congruence. }
    split_and!; [done| | |].
    + intros k m'. rewrite Hm, lookup_insert_Some, elem_of_cons. split.
      * intros [[[<- <-]|[? ?]]|?]; auto; tauto.
      * intros [Hl'|([->|?] & ? & ->)]; auto. left. right. split; [|done]. intros <-. congruence.
    + intros m' [->|?]%elem_of_cons; [done|auto].
    + cbn [List.filter]. rewrite Hp, Hl, map_to_list_insert by done. simpl.
      by rewrite Permutation_middle.
Qed.

Lemma graphChildren_spec manifests l : ∀ children children',
  graphChildren manifests l children = Ok children' →
  (∀ p c, edge children' p c ↔ edge children p c ∨
     ∃ link, link ∈ l ∧ p = nodeKey (ln_Repository link) (ln_ParentDigest link) ∧
       c = nodeKey (ln_Repository link) (ln_ChildDigest link)) ∧
  (∀ link, link ∈ l →
     present manifests (nodeKey (ln_Repository link) (ln_ParentDigest link)) = true ∧
     present manifests (nodeKey (ln_Repository link) (ln_ChildDigest link)) = true).
Proof.
  induction l as [|link l IH]; intros children children'; cbn [graphChildren].
  - intros [= <-]. setoid_rewrite elem_of_nil. split; [|done]. intros. split; [by left|].
    intros [?|(? & [] & _)]. done.
  - destruct (_ || _) eqn:Hg; [done|]. bool_prop. intros Hgm. apply IH in Hgm as [Hc1 Hc2].
    setoid_rewrite elem_of_cons. split; [|by intros link' [->|?]; auto].
    intros p c. rewrite Hc1. unfold edge.
    assert (c ∈ next (<[nodeKey (ln_Repository link) (ln_ParentDigest link) :=
        (next children (nodeKey (ln_Repository link) (ln_ParentDigest link)) ++
         [nodeKey (ln_Repository link) (ln_ChildDigest link)])%list]> children) p ↔
      c ∈ next children p ∨ (p = nodeKey (ln_Repository link) (ln_ParentDigest link) ∧
        c = nodeKey (ln_Repository link) (ln_ChildDigest link))) as ->.
    { apply next_addEdge. }
    split.
    + intros [[?|[? ?]]|(l' & ? & ?)]; [by left|right; by eauto|right; by eauto].
    + intros [?|(l' & [->|?] & ?)]; [by left; left|left; by right|right; by eauto].
Qed.

Lemma graphBlobLinks_spec manifests blobNodes l : ∀ links links',
  graphBlobLinks manifests blobNodes l links = Ok links' →
  ∀ k d, d ∈ next links' k ↔ d ∈ next links k ∨
    ∃ link, link ∈ l ∧ k = nodeKey (bl_Repository link) (bl_ManifestDigest link) ∧
      d = bl_BlobDigest link.
Proof.
  induction l as [|link l IH]; intros links links'; cbn [graphBlobLinks].
  - intros [= <-] k d. setoid_rewrite elem_of_nil. split; [by left|]. intros [?|(? & [] & _)]. done.
  - destruct (negb _); [done|]. destruct (negb _); [done|]. intros H k d.
    rewrite (IH _ _ H). setoid_rewrite elem_of_cons.
    assert (d ∈ next (<[nodeKey (bl_Repository link) (bl_ManifestDigest link) :=
        (next links (nodeKey (bl_Repository link) (bl_ManifestDigest link)) ++
         [bl_BlobDigest link])%list]> links) k ↔
      d ∈ next links k ∨ (k = nodeKey (bl_Repository link) (bl_ManifestDigest link) ∧
        d = bl_BlobDigest link)) as -> by apply next_addEdge.
    split.
    + intros [[?|[? ?]]|(l' & ? & ?)]; [by left|right; by eauto|right; by eauto].
    + intros [?|(l' & [->|?] & ?)]; [by left; left|left; by right|right; by eauto].
Qed.

Lemma graphBlobs_spec snapshot repositories l : ∀ nodes blobs counts nodes' blobs' counts',
  (∀ d b, blobs !! d = Some b → b ≠ []) →
  graphBlobs snapshot repositories l nodes blobs counts = Ok (nodes', blobs', counts') →
  (∀ d b, blobs' !! d = Some b → b ≠ []) ∧
  (∀ d b, b ∈ default [] (blobs' !! d) ↔
     b ∈ default [] (blobs !! d) ∨ (b ∈ l ∧ b_Present b = true ∧ b_Digest b = d)).
Proof.
  induction l as [|b l IH]; intros nodes blobs counts nodes' blobs' counts' Hne; cbn [graphBlobs].
  - intros [= <- <- <-]. split; [done|]. intros d b. rewrite elem_of_nil. tauto.
  - destruct (b_Present b) eqn:Hp; cbn [negb].
    2: { intros H. apply IH in H as [? H]; [|done]. split; [done|]. intros d b'.
         rewrite H, elem_of_cons. split; [tauto|]. intros [?|([->|?] & ? & ?)]; auto; congruence. }
    destruct (_ || _); [done|]. destruct (bool_decide _); [done|]. intros H. apply IH in H as [Hn H].
    2: { intros d l'. intros [[<- <-]|[_ ?]]%lookup_insert_Some; [|by eapply Hne].
         by destruct (default [] _). }
    split; [done|]. intros d b'. rewrite H, elem_of_cons.
    destruct (decide (b_Digest b = d)) as [<-|Hd].
    + rewrite lookup_insert_eq. simpl. rewrite elem_of_app, list_elem_of_singleton. intuition congruence.
    + rewrite lookup_insert_ne by done. split; [tauto|]. intros [?|([->|?] & ? & ?)]; auto. congruence.
Qed.

(** * The lifecycle graph *)

Record graph_of (snapshot : RegistryLifecycleSnapshot) (g : lifecycleGraph) : Prop := {
  gr_keyed : keyed_by (g_manifests g);
  gr_manifest : ∀ k m, g_manifests g !! k = Some m ↔ catalogued snapshot k m;
  gr_manifests : map_to_list (g_manifests g) ≡ₚ
    (fun m => (manifestKey m, m)) <$> List.filter m_Present (sn_Manifests snapshot);
  gr_child : ∀ p c, edge (g_children g) p c ↔ childEdge snapshot p c;
  gr_ends : ∀ p c, childEdge snapshot p c → p ∈ dom (g_manifests g) ∧ c ∈ dom (g_manifests g);
  gr_acyclic : acyclic (g_children g);
  gr_blob : ∀ k d, d ∈ next (g_manifestBlobs g) k ↔ blobEdge snapshot k d;
  gr_digest : ∀ d b, b ∈ default [] (g_blobByDigest g !! d) ↔
    b ∈ sn_Blobs snapshot ∧ b_Present b = true ∧ b_Digest b = d;
  gr_digests : ∀ d l, g_blobByDigest g !! d = Some l → l ≠ [];
}.

Lemma newLifecycleGraph_spec `{MapOrder} snapshot g :
  newLifecycleGraph snapshot = Ok g → graph_of snapshot g.
Proof.
  unfold newLifecycleGraph. set (repositories := stringSet _).
  intros Hg. apply res_bind_ok in Hg as ([manifests countsM] & Hm & Hg).
  apply res_bind_ok in Hg as ([[nodes blobs] countsB] & Hb & Hg).
  apply res_bind_ok in Hg as (children & Hc & Hg).
  destruct (cyclic children) eqn:Hcy; [done|].
  apply res_bind_ok in Hg as (links & Hl & Hg).
  apply res_bind_ok in Hg as (_ & _ & Hg). apply res_bind_ok in Hg as (_ & _ & Hg).
  destruct (forallb _ _); [|done]. injection Hg as <-.
  assert (keyed_by ∅) as He by (intros k m; by rewrite lookup_empty).
  destruct (graphManifests_spec _ _ _ _ _ _ _ He Hm) as (Hk & Hm1 & _ & Hm2).
  destruct (graphChildren_spec _ _ _ _ Hc) as [Hc1 Hc2].
  apply graphBlobs_spec in Hb as [Hb1 Hb2]; [|intros d l; by rewrite lookup_empty].
  pose proof (graphBlobLinks_spec _ _ _ _ _ Hl) as Hl1. constructor; simpl.
  - done.
  - intros k m. rewrite Hm1, lookup_empty. unfold catalogued. intuition discriminate.
  - by rewrite Hm2, map_to_list_empty.
  - intros p c. rewrite Hc1. unfold edge, next. rewrite lookup_empty, elem_of_nil.
    unfold childEdge. tauto.
  - intros p c (link & Hin & -> & ->). rewrite <- !(keyed_present _ _ Hk). by apply Hc2.
  - by apply cyclic_acyclic in Hcy.
  - intros k d. rewrite Hl1. unfold next, blobEdge. rewrite lookup_empty, elem_of_nil. tauto.
  - intros d b. rewrite Hb2, lookup_empty, elem_of_nil. tauto.
  - done.
Qed.

(** The graph does not depend on the order of the ranges. *)
Lemma cyclic_order (o1 o2 : MapOrder) children : cyclic (H := o1) children = cyclic (H := o2) children.
Proof.
  apply bool_iff_eq. rewrite <- !not_false_iff_true, (cyclic_acyclic (H := o1)).
  by rewrite (cyclic_acyclic (H := o2)).
Qed.

Lemma newLifecycleGraph_order (o1 o2 : MapOrder) snapshot :
  newLifecycleGraph (H := o1) snapshot = newLifecycleGraph (H := o2) snapshot.
Proof.
  unfold newLifecycleGraph. destruct (graphManifests _ _ _ _ _) as [[]|]; [|done]. simpl.
  destruct (graphBlobs _ _ _ _ _ _) as [[[]]|]; [|done]. simpl.
  destruct (graphChildren _ _ _) as [c|]; [|done]. simpl. by rewrite (cyclic_order o1 o2).
Qed.

(** * Protections only grow *)

Abbreviation reasons_map := (gmap string (gset string)).

(** Every recorded key has a reason. *)
Definition reasoned (m : reasons_map) : Prop := ∀ k r, m !! k = Some r → r ≠ ∅.

Lemma addReason_dom m k r : dom (addReason m k r) = {[k]} ∪ dom m.
Proof. unfold addReason. by rewrite dom_insert_L. Qed.

Lemma addReason_reasoned m k r : reasoned m → reasoned (addReason m k r).
Proof.
  unfold addReason. intros Hm k' r' [[<- <-]|[_ ?]]%lookup_insert_Some; [|by eapply Hm].
  intros He. apply (not_elem_of_empty (C := gset string) r). rewrite <- He. by apply elem_of_union_l, elem_of_singleton.
Qed.

Lemma addReasons_dom m l k : k ∈ dom (addReasons m l) ↔ k ∈ dom m ∨ k ∈ l.*1.
Proof.
  unfold addReasons. revert m. induction l as [|[k' r] l IH]; intros m; simpl.
  - rewrite elem_of_nil. tauto.
  - rewrite IH, addReason_dom, elem_of_union, elem_of_singleton, elem_of_cons. tauto.
Qed.

Lemma addReasons_reasoned m l : reasoned m → reasoned (addReasons m l).
Proof.
  unfold addReasons. revert m. induction l as [|[k' r] l IH]; intros m Hm; simpl; [done|].
  by apply IH, addReason_reasoned.
Qed.

Lemma reasoned_empty : reasoned ∅.
Proof. intros k r. by rewrite lookup_empty. Qed.

Lemma protectReferences_spec snapshot manifests l : ∀ protected protected',
  protectReferences snapshot manifests l protected = Ok protected' →
  (reasoned protected → reasoned protected') ∧ dom protected ⊆ dom protected' ∧
  ∀ r, r ∈ l → nodeKey (rf_Repository r) (rf_Digest r) ∈ dom protected' ∧
    present manifests (nodeKey (rf_Repository r) (rf_Digest r)) = true.
Proof.
  induction l as [|r l IH]; intros protected protected'; cbn [protectReferences].
  - intros [= <-]. split_and!; [done..|]. by intros r ?%elem_of_nil.
  - destruct (negb _ || negb _); [done|]. destruct (_ || _) eqn:Hg; [done|]. bool_prop.
    intros Hr. apply IH in Hr as (Hr1 & Hr2 & Hr3). rewrite addReason_dom in Hr2. split_and!.
    + intros. by apply Hr1, addReason_reasoned.
    + etrans; [|exact Hr2]. apply union_subseteq_r.
    + intros r' [->|?]%elem_of_cons; [|by apply Hr3]. split; [|done].
      apply Hr2. by apply elem_of_union_l, elem_of_singleton.
Qed.

(** * The retained releases *)

Definition releaseKey (r : RegistryRelease) : string := nodeKey (rl_Repository r) (rl_RootDigest r).

Definition rootsOf (snapshot : RegistryLifecycleSnapshot) (manifests : gmap string RegistryManifest)
    (l : list RegistryRelease) : gset string :=
  list_to_set (releaseKey <$> List.filter (retainable snapshot manifests) l).

(** The roots of the successful releases that are not older than [r]. *)
Definition newerRoots (snapshot : RegistryLifecycleSnapshot) (manifests : gmap string RegistryManifest)
    (r : RegistryRelease) : gset string :=
  rootsOf snapshot manifests (List.filter (fun y => negb (newerRelease r y)) (sn_Releases snapshot)).

Lemma elem_of_rootsOf snapshot manifests l k :
  k ∈ rootsOf snapshot manifests l ↔
  ∃ r, r ∈ l ∧ retainable snapshot manifests r = true ∧ k = releaseKey r.
Proof.
  unfold rootsOf. rewrite elem_of_list_to_set, list_elem_of_fmap.
  setoid_rewrite elem_of_list_filter. naive_solver.
Qed.

Lemma retain_mono snapshot manifests l : ∀ seen retained protected,
  dom protected ⊆ dom (retainReleases snapshot manifests l seen retained protected) ∧
  (reasoned protected → reasoned (retainReleases snapshot manifests l seen retained protected)).
Proof.
  induction l as [|r l IH]; intros seen retained protected; cbn [retainReleases]; [done|].
  repeat case_match; try apply IH. destruct (IH ({[releaseKey r]} ∪ seen) (retained + 1)
    (addReason protected (releaseKey r) ReasonRetainedSuccessWindow)) as [H1 H2]. split.
  - etrans; [|exact H1]. rewrite addReason_dom. apply union_subseteq_r.
  - intros. by apply H2, addReason_reasoned.
Qed.

Lemma retain_window snapshot manifests l1 r l2 : ∀ seen retained protected,
  (retained ≤ Z.of_nat (size seen)) →
  (Z.of_nat (size seen) ≤ po_KeepLastSuccessful (sn_Policy snapshot) → seen ⊆ dom protected) →
  retainable snapshot manifests r = true →
  Z.of_nat (size (seen ∪ (rootsOf snapshot manifests l1 ∪ {[releaseKey r]}))) ≤
    po_KeepLastSuccessful (sn_Policy snapshot) →
  releaseKey r ∈ dom (retainReleases snapshot manifests (l1 ++ r :: l2) seen retained protected).
Proof.
  induction l1 as [|x l1 IH]; intros seen retained protected Hret Hseen Hr Hsize.
  - cbn [app retainReleases]. rewrite Hr. cbn [negb orb]. fold (releaseKey r).
    destruct (bool_decide_reflect (releaseKey r ∈ seen)) as [Hin|Hni].
    + apply retain_mono, Hseen; [|done]. etrans; [|exact Hsize].
      apply Nat2Z.inj_le, subseteq_size, union_subseteq_l.
    + assert (retained < po_KeepLastSuccessful (sn_Policy snapshot)) as Hlt.
      { assert (size ({[releaseKey r]} ∪ seen) = S (size seen)) as E.
        { rewrite size_union; [by rewrite size_singleton|]. by intros y ->%elem_of_singleton. }
        assert (size ({[releaseKey r]} ∪ seen) ≤ size (seen ∪ (rootsOf snapshot manifests [] ∪ {[releaseKey r]})))%nat
          as Hle by (apply subseteq_size; set_solver).
        lia. }
      rewrite (proj2 (Z.ltb_lt _ _) Hlt). apply retain_mono. rewrite addReason_dom.
      by apply elem_of_union_l, elem_of_singleton.
  - cbn [app retainReleases]. fold (releaseKey x).
    destruct (retainable snapshot manifests x) eqn:Hx; cbn [negb orb].
    2: { apply IH; try done. etrans; [|exact Hsize]. unfold rootsOf. cbn [List.filter]. by rewrite Hx. }
    assert (rootsOf snapshot manifests (x :: l1) = {[releaseKey x]} ∪ rootsOf snapshot manifests l1) as Hroots.
    { unfold rootsOf. cbn [List.filter]. by rewrite Hx. }
    rewrite Hroots in Hsize.
    destruct (bool_decide_reflect (releaseKey x ∈ seen)) as [Hin|Hni].
    { apply IH; try done. etrans; [|exact Hsize]. apply Nat2Z.inj_le, subseteq_size. set_solver. }
    assert (size ({[releaseKey x]} ∪ seen) = S (size seen)) as E.
    { rewrite size_union; [by rewrite size_singleton|]. by intros y ->%elem_of_singleton. }
    assert (Z.of_nat (size (({[releaseKey x]} ∪ seen) ∪ (rootsOf snapshot manifests l1 ∪ {[releaseKey r]}))) ≤
      po_KeepLastSuccessful (sn_Policy snapshot)) as Hsize'.
    { etrans; [|exact Hsize]. apply Nat2Z.inj_le, subseteq_size. set_solver. }
    destruct (Z.ltb_spec retained (po_KeepLastSuccessful (sn_Policy snapshot))).
    + apply IH; [lia| |done|done]. intros Hle. rewrite addReason_dom.
      assert (seen ⊆ dom protected) by (apply Hseen; lia). set_solver.
    + apply IH; [lia| |done|done]. lia.
Qed.

(** Newest first: both comparisons of the planner go by a number and then by
    an identifier, downwards. *)
Lemma newest_first_total :
  total_less (lex Z.eqb (λ x y, y <? x) (λ x y : string, str_less y x)).
Proof.
  apply lex_total; [apply Z.eqb_eq|apply (reversed_total _ Zltb_total)|].
  apply (reversed_total _ str_less_total).
Qed.

Lemma newerRelease_sorted l : StronglySorted (sort_le newerRelease) (sort_slice newerRelease l).
Proof. exact (less_on_sorted (λ r, (rl_CreatedAt r, rl_ID r)) _ newest_first_total _ (λ _ _, eq_refl) l). Qed.

Lemma newerGeneration_sorted l :
  StronglySorted (sort_le newerGeneration) (sort_slice newerGeneration l).
Proof. exact (less_on_sorted (λ c, (cg_Generation c, cg_ID c)) _ newest_first_total _ (λ _ _, eq_refl) l). Qed.

(** In a sorted slice, what stands before an element is not after it. *)
Lemma sorted_before {A} (R : A → A → Prop) l1 x l2 y :
  StronglySorted R (l1 ++ x :: l2) → y ∈ l1 → R y x.
Proof.
  induction l1 as [|z l1 IH]; simpl; intros Hs Hy; [by apply elem_of_nil in Hy|].
  apply StronglySorted_inv in Hs as [Hs Hall]. apply elem_of_cons in Hy as [->|Hy]; [|by apply IH].
  rewrite Forall_forall in Hall. apply Hall, elem_of_app. right. by left.
Qed.

(** The newest [KeepLastSuccessful] successful roots are protected. *)
Lemma protectSuccessfulReleases_window snapshot manifests protected r :
  r ∈ sn_Releases snapshot → retainable snapshot manifests r = true →
  Z.of_nat (size (newerRoots snapshot manifests r)) ≤ po_KeepLastSuccessful (sn_Policy snapshot) →
  releaseKey r ∈ dom (protectSuccessfulReleases snapshot manifests protected).
Proof.
  intros Hin Hr Hsize. unfold protectSuccessfulReleases.
  pose proof (newerRelease_sorted (sn_Releases snapshot)) as Hs.
  assert (r ∈ sort_slice newerRelease (sn_Releases snapshot)) as Hin' by by apply elem_of_sort_slice.
  apply list_elem_of_split in Hin' as (l1 & l2 & E). rewrite E in *.
  apply retain_window; [by rewrite size_empty|intros; apply empty_subseteq|done|].
  etrans; [|exact Hsize]. apply Nat2Z.inj_le, subseteq_size. intros k Hk.
  apply elem_of_rootsOf. rewrite !elem_of_union, elem_of_singleton, elem_of_rootsOf in Hk.
  setoid_rewrite elem_of_list_filter. setoid_rewrite negb_true_iff.
  destruct Hk as [?%not_elem_of_empty|[(y & Hy & Hyr & ->)| ->]]; [done| |].
  - exists y. split_and!; [|exact (sorted_before _ _ _ _ _ Hs Hy)|done|done].
    apply (elem_of_sort_slice newerRelease). rewrite E. apply elem_of_app. by left.
  - exists r. split_and!; try done.
    exact (less_on_irrefl (λ r, (rl_CreatedAt r, rl_ID r)) _ newest_first_total r).
Qed.

(** * The kept caches *)

(** The caches that are always kept: those in use, young ones, and the newest
    successful generation of each lane. *)
Definition keptCache (snapshot : RegistryLifecycleSnapshot) (now : Time)
    (c : RegistryCacheGeneration) : Prop :=
  c ∈ liveCaches snapshot ∧
  (cacheActive c = true ∨ now - po_MinimumSafetyAge (sn_Policy snapshot) ≤ cg_CreatedAt c ∨
   cg_State c = "succeeded" ∧
   ∀ c', c' ∈ liveCaches snapshot → cacheGroup c' = cacheGroup c → cg_State c' = "succeeded" →
     c' = c ∨ newerGeneration c c' = true).

Lemma cacheGroups_spec l c group :
  c ∈ default [] (cacheGroups l !! group) ↔ c ∈ l ∧ cacheGroup c = group.
Proof.
  unfold cacheGroups.
  assert (∀ groups : gmap string (list RegistryCacheGeneration),
    c ∈ default [] (foldl (fun groups generation =>
      let group := cacheGroup generation in
      <[group := (default [] (groups !! group) ++ [generation])%list]> groups) groups l !! group) ↔
    c ∈ default [] (groups !! group) ∨ (c ∈ l ∧ cacheGroup c = group)) as H.
  { induction l as [|x l IH]; intros groups; simpl.
    - rewrite elem_of_nil. tauto.
    - rewrite IH, elem_of_cons. destruct (decide (cacheGroup x = group)) as [<-|Hne].
      + rewrite lookup_insert_eq. simpl. rewrite elem_of_app, list_elem_of_singleton.
        intuition congruence.
      + rewrite lookup_insert_ne by done. intuition congruence. }
  rewrite H, lookup_empty, elem_of_nil. tauto.
Qed.

Lemma addReason_in m k r : k ∈ dom (addReason m k r).
Proof. rewrite addReason_dom. by apply elem_of_union_l, elem_of_singleton. Qed.

Lemma addReason_sub m k r : dom m ⊆ dom (addReason m k r).
Proof. rewrite addReason_dom. apply union_subseteq_r. Qed.

Lemma fixGroup_mono cutoff l : ∀ kept fixed,
  dom fixed ⊆ dom (fixGroup cutoff l kept fixed) ∧
  (reasoned fixed → reasoned (fixGroup cutoff l kept fixed)).
Proof.
  induction l as [|c l IH]; intros kept fixed; cbn [fixGroup]; [done|].
  repeat case_match; try apply IH.
  all: edestruct IH as [Hd Hr]; split; [etrans; [apply addReason_sub|exact Hd]|].
  all: intros; apply Hr, addReason_reasoned; done.
Qed.

(** An active or young generation is fixed, and so is the first successful one. *)
Lemma fixGroup_fixes cutoff l1 c l2 : ∀ kept fixed,
  (cacheActive c = true ∨ cutoff ≤ cg_CreatedAt c ∨
   cg_State c = "succeeded" ∧ kept = 0 ∧ ∀ x, x ∈ l1 → cg_State x = "succeeded" → x = c) →
  cacheKey c ∈ dom (fixGroup cutoff (l1 ++ c :: l2) kept fixed).
Proof.
  induction l1 as [|x l1 IH]; intros kept fixed Hc; cbn [app fixGroup].
  - assert (∀ k r, cacheKey c ∈ dom (fixGroup cutoff l2 k (addReason fixed (cacheKey c) r))) as Hin.
    { intros k r. apply fixGroup_mono, addReason_in. }
    destruct (cacheActive c); [apply Hin|]. destruct (_ && _) eqn:E; [apply Hin|].
    destruct (Z.ltb_spec (cg_CreatedAt c) cutoff); simpl; [|apply Hin]. exfalso.
    destruct Hc as [?|[?|(Hs & -> & _)]]; [done|lia|]. by rewrite Hs in E.
  - destruct (decide (x = c)) as [->|Hne].
    { assert (∀ k r, cacheKey c ∈ dom (fixGroup cutoff (l1 ++ c :: l2) k
        (addReason fixed (cacheKey c) r))) as Hin by (intros k r; apply fixGroup_mono, addReason_in).
      destruct (cacheActive c); [apply Hin|]. destruct (_ && _) eqn:E; [apply Hin|].
      destruct (Z.ltb_spec (cg_CreatedAt c) cutoff); simpl; [|apply Hin]. exfalso.
      destruct Hc as [?|[?|(Hs & -> & _)]]; [done|lia|]. by rewrite Hs in E. }
    assert (∀ k f, (kept = 0 → cg_State x ≠ "succeeded" → k = 0) →
      cacheKey c ∈ dom (fixGroup cutoff (l1 ++ c :: l2) k f)) as Hgo.
    { intros k f Hk. apply IH. destruct Hc as [?|[?|(Hs & Hkept & Hx)]]; [by left|by right; left|].
      right; right. split_and!; [done| |].
      - apply Hk; [done|]. intros Hs'. apply Hne, Hx; [by left|done].
      - intros y Hy. apply Hx. by right. }
    destruct (cacheActive x); [by apply Hgo|]. destruct (_ && _) eqn:E.
    + apply Hgo. intros _ Hns. apply andb_true_iff in E as [E%String.eqb_eq _]. done.
    + destruct (negb _); by apply Hgo.
Qed.

Lemma fixCaches_mono `{MapOrder} cutoff (l : list (string * list RegistryCacheGeneration)) : ∀ fixed,
  let r := foldl (fun fixed entry => fixGroup cutoff (sort_slice newerGeneration entry.2) 0 fixed) fixed l in
  dom fixed ⊆ dom r ∧ (reasoned fixed → reasoned r).
Proof.
  induction l as [|e l IH]; intros fixed; simpl; [done|].
  destruct (IH (fixGroup cutoff (sort_slice newerGeneration e.2) 0 fixed)) as [H1 H2].
  pose proof (fixGroup_mono cutoff (sort_slice newerGeneration e.2) 0 fixed) as [H3 H4].
  split; [by etrans|auto].
Qed.

Lemma fixCaches_kept `{MapOrder} snapshot now c :
  keptCache snapshot now c →
  cacheKey c ∈ dom (fixCaches (now - po_MinimumSafetyAge (sn_Policy snapshot))
                      (cacheGroups (liveCaches snapshot))).
Proof.
  intros [Hlive Hkept]. unfold fixCaches. set (cutoff := now - _) in *.
  assert (c ∈ default [] (cacheGroups (liveCaches snapshot) !! cacheGroup c)) as Hc
    by by apply cacheGroups_spec.
  destruct (cacheGroups (liveCaches snapshot) !! cacheGroup c) as [l|] eqn:El;
    [|by apply elem_of_nil in Hc]. simpl in Hc.
  assert ((cacheGroup c, l) ∈ range 11 (cacheGroups (liveCaches snapshot))) as Hr by by apply elem_of_range.
  apply list_elem_of_split in Hr as (e1 & e2 & ->). rewrite foldl_app. cbn [foldl].
  apply (fixCaches_mono cutoff e2). cbn [snd].
  pose proof (newerGeneration_sorted l) as Hs.
  assert (c ∈ sort_slice newerGeneration l) as Hin by by apply elem_of_sort_slice.
  apply list_elem_of_split in Hin as (l1 & l2 & E). rewrite E in *. apply fixGroup_fixes.
  destruct Hkept as [?|[?|[Hsu Hnew]]]; [by left|by right; left|]. right; right.
  split_and!; [done..|]. intros x Hx Hxs.
  assert (x ∈ default [] (cacheGroups (liveCaches snapshot) !! cacheGroup c)) as Hxl.
  { rewrite El. simpl. apply (elem_of_sort_slice newerGeneration). rewrite E. apply elem_of_app. by left. }
  apply cacheGroups_spec in Hxl as [Hxl Hxg]. destruct (Hnew x Hxl Hxg Hxs) as [?|Hn]; [done|].
  pose proof (sorted_before _ _ _ _ _ Hs Hx) as Hle. unfold sort_le in Hle. congruence.
Qed.

(** * The cache decisions *)

Lemma fixCaches_reasoned `{MapOrder} cutoff groups : reasoned (fixCaches cutoff groups).
Proof. apply fixCaches_mono, reasoned_empty. Qed.

Lemma evict_mono quota l : ∀ remaining fixed deletedRoots,
  let r := evict quota l remaining fixed deletedRoots in
  dom fixed ⊆ dom r.1.1 ∧ (reasoned fixed → reasoned r.1.1) ∧
  (reasoned deletedRoots → reasoned r.1.2).
Proof.
  induction l as [|c l IH]; intros remaining fixed deletedRoots; cbn [evict]; [done|].
  repeat case_match.
  1, 2: edestruct IH as (Hd & Hf & Hr); split_and!; [exact Hd|exact Hf|];
    intros; apply Hr, addReason_reasoned; done.
  edestruct IH as (Hd & Hf & Hr). split_and!; [|by intros; apply Hf, addReason_reasoned|exact Hr].
  etrans; [apply addReason_sub|exact Hd].
Qed.

Lemma foldl_insert_lookup {A B} (f : A → B) (l : list (string * A)) (k : string) :
  ∀ m : gmap string B, NoDup l.*1 →
  foldl (fun m entry => <[entry.1 := f entry.2]> m) m l !! k =
  match list_to_map (M := gmap string A) l !! k with Some a => Some (f a) | None => m !! k end.
Proof.
  induction l as [|[k' a] l IH]; intros m; simpl; [by rewrite lookup_empty|].
  intros [Hn Hd]%NoDup_cons. rewrite IH by done. destruct (decide (k' = k)) as [->|Hne].
  - rewrite lookup_insert_eq.
    rewrite (not_elem_of_list_to_map_1 (M := gmap string) l k) by done. by rewrite lookup_insert_eq.
  - by rewrite !lookup_insert_ne by done.
Qed.

Lemma list_to_map_range `{MapOrder} {A} site (m : gmap string A) : list_to_map (range site m) = m.
Proof.
  rewrite <- (list_to_map_to_list m) at 2. apply list_to_map_proper; [apply range_NoDup|apply range_perm].
Qed.

Lemma foldl_keep_lookup {A B} (f : A → B) (fixed : gmap string (gset string)) (l : list (string * A))
    (k : string) : ∀ m : gmap string B, NoDup l.*1 →
  foldl (fun m entry => if has fixed entry.1 then m else <[entry.1 := f entry.2]> m) m l !! k =
  match list_to_map (M := gmap string A) l !! k with
  | Some a => if has fixed k then m !! k else Some (f a)
  | None => m !! k
  end.
Proof.
  induction l as [|[k' a] l IH]; intros m; simpl; [by rewrite lookup_empty|].
  intros [Hn Hd]%NoDup_cons. rewrite IH by done. destruct (decide (k' = k)) as [->|Hne].
  - rewrite lookup_insert_eq.
    rewrite (not_elem_of_list_to_map_1 (M := gmap string) l k) by done.
    destruct (has fixed k); [done|]. by rewrite lookup_insert_eq.
  - destruct (has fixed k'); by rewrite !lookup_insert_ne by done.
Qed.

Definition fixedCaches `{MapOrder} (snapshot : RegistryLifecycleSnapshot) (g : lifecycleGraph)
    (now : Time) : reasons_map * reasons_map * Z :=
  let live := liveCaches snapshot in
  let roots := cacheRoots g live in
  let fixed := fixCaches (now - po_MinimumSafetyAge (sn_Policy snapshot)) (cacheGroups live) in
  evict (po_CacheByteQuota (sn_Policy snapshot))
    (sort_slice candidateLess
      (cacheCandidates roots fixed (now - po_CacheUnusedExpiry (sn_Policy snapshot))))
    (foldl (fun before entry => i64 (before + ro_size entry.2)) 0 (range 13 roots)) fixed ∅.

(** A decision of a cache root: kept with the reasons of [fixed], else deleted
    with those of [deletedRoots]. *)
Lemma decideCaches_lookup `{MapOrder} snapshot g now k :
  (decideCaches snapshot g now).1.1 !! k =
  match (fixedCaches snapshot g now).1.1 !! k with
  | Some reasons => Some (mkDecision true (reasonSlice reasons))
  | None => (mkDecision false ∘ reasonSlice) <$> (fixedCaches snapshot g now).1.2 !! k
  end.
Proof.
  unfold decideCaches, fixedCaches. cbv zeta.
  destruct (evict _ _ _ _ _) as [[fixed deletedRoots] remaining]. cbn [fst snd].
  rewrite (foldl_keep_lookup (fun r => mkDecision false (reasonSlice r))) by apply range_NoDup.
  rewrite (foldl_insert_lookup (fun r => mkDecision true (reasonSlice r))) by apply range_NoDup.
  rewrite !list_to_map_range, lookup_empty. unfold has.
  by destruct (deletedRoots !! k), (fixed !! k).
Qed.

Lemma fixedCaches_reasoned `{MapOrder} snapshot g now :
  reasoned (fixedCaches snapshot g now).1.1 ∧ reasoned (fixedCaches snapshot g now).1.2.
Proof.
  unfold fixedCaches. edestruct evict_mono as (_ & Hf & Hd).
  split; [apply Hf, fixCaches_reasoned | apply Hd, reasoned_empty].
Qed.

Lemma reasonSlice_elem r reasons : r ∈ reasonSlice reasons ↔ r ∈ reasons.
Proof. unfold reasonSlice. by rewrite elem_of_sort_strings, elem_of_elements. Qed.

Lemma reasonSlice_nonempty reasons : reasons ≠ ∅ → ∃ r, r ∈ reasonSlice reasons.
Proof. intros [r Hr]%set_choose_L. exists r. by apply reasonSlice_elem. Qed.

Lemma decideCaches_kept `{MapOrder} snapshot g now c :
  keptCache snapshot now c →
  ∃ r rs, (decideCaches snapshot g now).1.1 !! cacheKey c = Some (mkDecision true rs) ∧ r ∈ rs.
Proof.
  intros Hk%fixCaches_kept. rewrite decideCaches_lookup.
  assert (cacheKey c ∈ dom (fixedCaches snapshot g now).1.1) as Hd.
  { unfold fixedCaches. by apply evict_mono. }
  apply elem_of_dom in Hd as [reasons Hr]. rewrite Hr.
  destruct (reasonSlice_nonempty reasons) as [r Hin].
  { by apply (proj1 (fixedCaches_reasoned snapshot g now) (cacheKey c)). }
  by exists r, (reasonSlice reasons).
Qed.

(** * Applying the decisions and the scope *)

Lemma applyDecisions_spec `{MapOrder} decisions protected deleteReasons :
  let r := applyDecisions decisions protected deleteReasons in
  (∀ k, k ∈ dom r.1 ↔ k ∈ dom protected ∨
     ∃ d, decisions !! k = Some d ∧ cd_protect d = true ∧ cd_reasons d ≠ []) ∧
  (reasoned protected → reasoned r.1) ∧ (reasoned deleteReasons → reasoned r.2).
Proof.
  cbn zeta. unfold applyDecisions.
  assert (∀ (l : list (string * cacheDecision)) (acc : reasons_map * reasons_map),
    let r := foldl (fun acc entry =>
      let reasons := (fun reason => (entry.1, reason)) <$> cd_reasons entry.2 in
      if cd_protect entry.2 then (addReasons acc.1 reasons, acc.2)
      else (acc.1, addReasons acc.2 reasons)) acc l in
    (∀ k, k ∈ dom r.1 ↔ k ∈ dom acc.1 ∨
       ∃ d, (k, d) ∈ l ∧ cd_protect d = true ∧ cd_reasons d ≠ []) ∧
    (reasoned acc.1 → reasoned r.1) ∧ (reasoned acc.2 → reasoned r.2)) as Hgen.
  { induction l as [|[k' d] l IH]; intros acc; simpl.
    { split_and!; try done. intros k. split; [by left|]. by intros [?|(d & ?%elem_of_nil & _)]. }
    specialize (IH (if cd_protect d
      then (addReasons acc.1 ((fun reason => (k', reason)) <$> cd_reasons d), acc.2)
      else (acc.1, addReasons acc.2 ((fun reason => (k', reason)) <$> cd_reasons d)))).
    destruct IH as (H1 & H2 & H3). split_and!.
    - intros k. rewrite H1. destruct (cd_protect d) eqn:Ed; simpl.
      + rewrite addReasons_dom.
        assert (k ∈ ((fun reason => (k', reason)) <$> cd_reasons d).*1 ↔ k = k' ∧ cd_reasons d ≠ []) as ->.
        { rewrite <- list_fmap_compose, list_elem_of_fmap. destruct (cd_reasons d) as [|r rs]; simpl.
          - setoid_rewrite elem_of_nil. naive_solver.
          - split; [by intros (? & -> & _)|]. intros [-> _]. exists r. split; [done|by left]. }
        setoid_rewrite elem_of_cons. naive_solver.
      + setoid_rewrite elem_of_cons. naive_solver congruence.
    - intros. apply H2. destruct (cd_protect d); [by apply addReasons_reasoned|done].
    - intros. apply H3. destruct (cd_protect d); [done|by apply addReasons_reasoned]. }
  destruct (Hgen (range 20 decisions) (protected, deleteReasons)) as (H1 & H2 & H3).
  split_and!; try done. intros k. rewrite H1. simpl. by setoid_rewrite elem_of_range.
Qed.

Lemma protectScope_spec `{MapOrder} repositories cutoff manifests protected k :
  k ∈ dom (protectScope repositories cutoff manifests protected) ↔
  k ∈ dom protected ∨
  ∃ m, manifests !! k = Some m ∧ scopeReason repositories cutoff m ≠ None.
Proof.
  unfold protectScope. setoid_rewrite <- (elem_of_range 21 manifests).
  generalize (range 21 manifests). intros l. revert protected.
  induction l as [|[k' m] l IH]; intros protected; simpl.
  - setoid_rewrite elem_of_nil. naive_solver.
  - rewrite IH. setoid_rewrite elem_of_cons.
    destruct (scopeReason repositories cutoff m) eqn:E; [rewrite addReason_dom|]; set_unfold; naive_solver.
Qed.
