(* ===== verification/RegistrySafety.v ===== *)
(** The guarantees of the registry cleanup planner: nothing that is in use,
    nothing it needs, and nothing outside the service is ever deleted, every
    item is accounted for once, parents go before children, and the plan is a
    function of the snapshot. *)

From S2P Require Import Prelude Regexp GoStrings RegistryModel RegistryGraph RegistryLifecycle RegistryFacts.

Open Scope Z_scope.

(** * What must be kept

    The roots of the retention policy, stated on the snapshot: referenced
    manifests (Git intent, running, pinned, operations), the newest successful
    releases, the caches in use, and whatever is young or not the service's. *)
Inductive rooted (snapshot : RegistryLifecycleSnapshot) (g : lifecycleGraph) (now : Time)
    : string → Prop :=
| rooted_reference r :
    r ∈ sn_References snapshot → rooted snapshot g now (nodeKey (rf_Repository r) (rf_Digest r))
| rooted_release r :
    r ∈ sn_Releases snapshot → retainable snapshot (g_manifests g) r = true →
    Z.of_nat (size (newerRoots snapshot (g_manifests g) r)) ≤ po_KeepLastSuccessful (sn_Policy snapshot) →
    rooted snapshot g now (releaseKey r)
| rooted_cache c : keptCache snapshot now c → rooted snapshot g now (cacheKey c)
| rooted_foreign k m :
    catalogued snapshot k m → m_Repository m ∉ dom (serviceRepositories snapshot) →
    rooted snapshot g now k
| rooted_young k m :
    catalogued snapshot k m →
    now - po_MinimumSafetyAge (sn_Policy snapshot) ≤ m_FirstObservedAt m →
    rooted snapshot g now k.

Lemma has_dom {A} (m : gmap string A) k : has m k = true ↔ k ∈ dom m.
Proof.
  unfold has. rewrite elem_of_dom. by destruct (m !! k); split.
Qed.

Lemma scopeReason_None repositories cutoff m :
  scopeReason repositories cutoff m = None ↔
  m_Repository m ∈ dom repositories ∧ m_FirstObservedAt m < cutoff.
Proof.
  unfold scopeReason. rewrite <- has_dom. destruct (has repositories _); simpl.
  - destruct (Z.ltb_spec (m_FirstObservedAt m) cutoff); simpl; intuition (done || lia).
  - intuition done.
Qed.

Lemma protections_inv `{MapOrder} snapshot g now decisions P D :
  protections snapshot g now decisions = Ok (P, D) →
  ∃ p0 p1 d1,
    protectReferences snapshot (g_manifests g) (sn_References snapshot) ∅ = Ok p0 ∧
    applyDecisions decisions (protectSuccessfulReleases snapshot (g_manifests g) p0) ∅ = (p1, d1) ∧
    P = protectReachable (g_children g) ReasonReachableManifest
          (protectScope (serviceRepositories snapshot)
             (now - po_MinimumSafetyAge (sn_Policy snapshot)) (g_manifests g) p1) ∧
    markEligible (serviceRepositories snapshot) P (range 23 (g_manifests g)) d1 = Ok D.
Proof.
  unfold protections. intros Hp. apply res_bind_ok in Hp as (p0 & H0 & Hp). cbv zeta in Hp.
  destruct (applyDecisions _ _ _) as [p1 d1] eqn:E1.
  apply res_bind_ok in Hp as (d2 & H2 & [= <- <-]). by exists p0, p1, d1.
Qed.

Lemma protections_rooted `{MapOrder} snapshot g now P D :
  graph_of snapshot g → protections snapshot g now (decideCaches snapshot g now).1.1 = Ok (P, D) →
  ∀ root k, rooted snapshot g now root → rtc (childEdge snapshot) root k → k ∈ dom P.
Proof.
  intros Hg Hp root k Hroot Hreach.
  apply protections_inv in Hp as (p0 & p1 & d1 & H0 & H1 & HP & _).
  set (scope := protectScope _ _ _ _) in HP.
  assert (root ∈ dom scope) as Hin.
  { apply protectReferences_spec in H0 as (_ & _ & Href).
    pose proof (applyDecisions_spec (decideCaches snapshot g now).1.1
      (protectSuccessfulReleases snapshot (g_manifests g) p0) ∅) as (Hdec & _ & _).
    rewrite H1 in Hdec. cbn [fst] in Hdec.
    apply protectScope_spec. destruct Hroot as [r Hr|r Hr Hret Hsz|c Hc|k0 m Hm Hf|k0 m Hm Hy].
    - left. apply Hdec. left. apply retain_mono. by apply Href.
    - left. apply Hdec. left. by apply protectSuccessfulReleases_window.
    - left. apply Hdec. right. destruct (decideCaches_kept snapshot g now c Hc) as (r & rs & Hd & Hr).
      exists (mkDecision true rs). split_and!; [done..|]. simpl. intros ->. by apply elem_of_nil in Hr.
    - right. exists m. split; [by apply (gr_manifest _ _ Hg)|]. rewrite scopeReason_None. tauto.
    - right. exists m. split; [by apply (gr_manifest _ _ Hg)|]. rewrite scopeReason_None. lia. }
  rewrite HP. apply (closure_of_dom (g_children g) ReasonReachableManifest scope).
  - apply protectReachable_closure.
  - exists root. split; [done|]. clear Hin Hroot. induction Hreach as [|x y z Hxy _ IH]; [done|].
    eapply rtc_l; [|exact IH]. by apply (gr_child _ _ Hg).
Qed.

Lemma BuildCleanupPlan_inv `{MapOrder} snapshot now maxAge plan :
  BuildCleanupPlan snapshot now maxAge = Ok plan →
  ∃ g P D, newLifecycleGraph snapshot = Ok g ∧
    protections snapshot g now (decideCaches snapshot g now).1.1 = Ok (P, D) ∧
    pl_Items plan = sortCleanupItems (planItems snapshot g now P D) g ∧
    pl_Summary plan = summarize (pl_Items plan) (decideCaches snapshot g now).1.2
      (decideCaches snapshot g now).2 (po_CacheByteQuota (sn_Policy snapshot)) ∧
    ValidatePolicy (sn_Policy snapshot) = Ok tt ∧
    t_Mode (sn_Target snapshot) = RegistryTargetManaged.
Proof.
  unfold BuildCleanupPlan. destruct (String.eqb _ RegistryTargetExternal); [done|].
  destruct (negb (String.eqb _ RegistryTargetManaged)) eqn:Em; [done|]. bool_prop.
  intros Hp. apply res_bind_ok in Hp as ([] & Hv & Hp). destruct (negb _); [done|].
  apply res_bind_ok in Hp as (_ & _ & Hp). apply res_bind_ok in Hp as (g & Hg & Hp).
  destruct (decideCaches snapshot g now) as [[decisions before] after] eqn:Ed.
  apply res_bind_ok in Hp as ([P D] & Hpr & [= <-]). exists g, P, D. simpl.
  rewrite Ed. by split_and!.
Qed.

Lemma elem_of_sortCleanupItems `{MapOrder} items g item :
  item ∈ sortCleanupItems items g ↔
  ∃ n it, sort_slice (itemLess (manifestDepths (g_manifests g) (g_children g))) items !! n = Some it ∧
    item = setOrdinal n it.
Proof.
  unfold sortCleanupItems. rewrite elem_of_lookup_imap. naive_solver.
Qed.

Lemma sorted_item_elem `{MapOrder} items g n it :
  sort_slice (itemLess (manifestDepths (g_manifests g) (g_children g))) items !! n = Some it →
  it ∈ items.
Proof. intros Hl%list_elem_of_lookup_2. by apply elem_of_sort_slice in Hl. Qed.

Lemma serviceRepositories_kind snapshot r kind :
  serviceRepositories snapshot !! r = Some kind → kind = "release-manifest" ∨ kind = "cache-manifest".
Proof.
  unfold serviceRepositories.
  assert (∀ (l : list RegistryCacheGeneration) (m : gmap string string),
    (∀ kind, m !! r = Some kind → kind = "release-manifest" ∨ kind = "cache-manifest") →
    ∀ kind, foldl (fun repositories cache =>
      if String.eqb (cg_ServiceID cache) (po_ServiceID (sn_Policy snapshot))
      then <[cg_Repository cache := "cache-manifest"]> repositories else repositories) m l !! r
      = Some kind → kind = "release-manifest" ∨ kind = "cache-manifest") as Hgen.
  { induction l as [|c l IH]; intros m Hm; simpl; [done|]. apply IH. intros k'.
    destruct (String.eqb _ _); [|apply Hm].
    intros [[_ <-]|[_ ?]]%lookup_insert_Some; [by right|by apply Hm]. }
  apply Hgen. intros k' [_ <-]%lookup_singleton_Some. by left.
Qed.

Lemma manifestItem_fields repositories P D k m :
  it_Repository (manifestItem repositories P D k m) = m_Repository m ∧
  it_Digest (manifestItem repositories P D k m) = m_Digest m ∧
  it_EstimatedBytes (manifestItem repositories P D k m) = m_SizeBytes m ∧
  it_ResourceKind (manifestItem repositories P D k m) =
    (let kind := default "" (repositories !! m_Repository m) in
     if String.eqb kind "" then "release-manifest" else kind) ∧
  it_Disposition (manifestItem repositories P D k m) =
    (if has P k then RegistryCleanupProtect else RegistryCleanupDelete).
Proof. unfold manifestItem, has. by destruct (P !! k). Qed.

Lemma manifestItem_not_blob snapshot P D k m :
  isBlob (manifestItem (serviceRepositories snapshot) P D k m) = false.
Proof.
  unfold isBlob.
  destruct (manifestItem_fields (serviceRepositories snapshot) P D k m) as (_ & _ & _ & -> & _).
  cbv zeta. destruct (serviceRepositories snapshot !! m_Repository m) as [kind|] eqn:E; [|done].
  apply serviceRepositories_kind in E as [->| ->]; done.
Qed.

Lemma blobItem_fields reachable cutoff d l :
  it_Repository (blobItem reachable cutoff d l) = "*" ∧
  it_Digest (blobItem reachable cutoff d l) = d ∧
  it_ResourceKind (blobItem reachable cutoff d l) = "blob" ∧
  it_Disposition (blobItem reachable cutoff d l) =
    (if decide (blobReasons reachable cutoff d l = ∅) then RegistryCleanupDelete
     else RegistryCleanupProtect).
Proof.
  unfold blobItem. destruct (decide (blobReasons reachable cutoff d l = ∅)) as [->|Hne].
  - by rewrite size_empty.
  - destruct (size (blobReasons reachable cutoff d l) =? 0)%nat eqn:E; [|done].
    apply Nat.eqb_eq in E. by apply size_empty_iff, leibniz_equiv in E.
Qed.

(** The items before sorting: one per manifest and one per blob digest. *)
Lemma elem_of_planItems `{MapOrder} snapshot g now P D it :
  it ∈ planItems snapshot g now P D ↔
  (∃ k m, g_manifests g !! k = Some m ∧ it = manifestItem (serviceRepositories snapshot) P D k m) ∨
  (∃ d l, g_blobByDigest g !! d = Some l ∧
     it = blobItem (reachableBlobs g P) (now - po_MinimumSafetyAge (sn_Policy snapshot)) d l).
Proof.
  unfold planItems. rewrite elem_of_app, !list_elem_of_fmap. split.
  - intros [([k m] & -> & Hm)|([d l] & -> & Hd)]; [left|right];
      eexists _, _; (split; [by eapply elem_of_range|done]).
  - intros [(k & m & Hm & ->)|(d & l & Hd & ->)]; [left; exists (k, m)|right; exists (d, l)];
      (split; [done|by apply elem_of_range]).
Qed.

Lemma planned_manifest `{MapOrder} snapshot g now P D n it items :
  sort_slice (itemLess (manifestDepths (g_manifests g) (g_children g))) items !! n = Some it →
  items = planItems snapshot g now P D → isBlob it = false →
  ∃ k m, g_manifests g !! k = Some m ∧ it = manifestItem (serviceRepositories snapshot) P D k m.
Proof.
  intros Hl%sorted_item_elem -> Hb. apply elem_of_planItems in Hl as [?|(d & l & _ & ->)]; [done|].
  unfold isBlob in Hb. by rewrite (proj1 (proj2 (proj2 (blobItem_fields _ _ d l)))) in Hb.
Qed.

Lemma planned_blob `{MapOrder} snapshot g now P D n it items :
  sort_slice (itemLess (manifestDepths (g_manifests g) (g_children g))) items !! n = Some it →
  items = planItems snapshot g now P D → isBlob it = true →
  ∃ d l, g_blobByDigest g !! d = Some l ∧
    it = blobItem (reachableBlobs g P) (now - po_MinimumSafetyAge (sn_Policy snapshot)) d l.
Proof.
  intros Hl%sorted_item_elem -> Hb. apply elem_of_planItems in Hl as [(k & m & _ & ->)|?]; [|done].
  by rewrite manifestItem_not_blob in Hb.
Qed.

(** The item of a manifest of the plan: its key and its disposition. *)
Lemma manifest_item_key snapshot P D k m n item g :
  graph_of snapshot g → g_manifests g !! k = Some m →
  item = setOrdinal n (manifestItem (serviceRepositories snapshot) P D k m) →
  nodeKey (it_Repository item) (it_Digest item) = k ∧ catalogued snapshot k m ∧
  it_Disposition item = if has P k then RegistryCleanupProtect else RegistryCleanupDelete.
Proof.
  intros Hg Hm ->. simpl.
  destruct (manifestItem_fields (serviceRepositories snapshot) P D k m) as (-> & -> & _ & _ & ->).
  split_and!; [|by apply (gr_manifest _ _ Hg)|done].
  symmetry. apply (gr_keyed _ _ Hg k m Hm).
Qed.

(** C1. Garbage collection is safe: the plan never deletes a manifest that is
    referenced (by Git intent, a running workload, a pin or an operation), that
    is the root of one of the newest successful releases the policy keeps, that
    is the root of a cache in use or of the newest cache of a lane, that is
    younger than the safety age or that belongs to another service, nor any
    manifest reachable from one of these through child edges - in whatever
    order the maps are ranged over. *)
Theorem cleanup_never_deletes_rooted (order : MapOrder) snapshot g now maxAge plan item root :
  BuildCleanupPlan snapshot now maxAge = Ok plan → newLifecycleGraph snapshot = Ok g →
  item ∈ pl_Items plan → isBlob item = false → it_Disposition item = RegistryCleanupDelete →
  rooted snapshot g now root →
  ¬ rtc (childEdge snapshot) root (nodeKey (it_Repository item) (it_Digest item)).
Proof.
  intros Hplan Hg Hin Hb Hdel Hroot Hreach.
  apply BuildCleanupPlan_inv in Hplan as (g' & P & D & Hg' & Hp & Hitems & _).
  assert (g' = g) as -> by congruence. apply newLifecycleGraph_spec in Hg.
  rewrite Hitems in Hin. apply elem_of_sortCleanupItems in Hin as (n & it & Hl & E).
  rewrite E in Hb. destruct (planned_manifest _ _ _ _ _ _ _ _ Hl eq_refl Hb) as (k & m & Hm & Hit).
  rewrite Hit in E. destruct (manifest_item_key _ _ _ _ _ _ _ _ Hg Hm E) as (Hk & _ & Hd).
  rewrite Hk in Hreach. pose proof (protections_rooted _ _ _ _ _ Hg Hp _ _ Hroot Hreach) as HinP.
  apply has_dom in HinP. rewrite HinP in Hd. congruence.
Qed.

(** * Blobs *)

Lemma reachableBlobs_spec `{MapOrder} g P d :
  d ∈ reachableBlobs g P ↔ ∃ k, k ∈ dom P ∧ d ∈ next (g_manifestBlobs g) k.
Proof.
  unfold reachableBlobs.
  assert (∀ (l : list string) (s : gset string),
    d ∈ foldl (fun blobs digest => {[digest]} ∪ blobs) s l ↔ d ∈ s ∨ d ∈ l) as Hin.
  { induction l as [|x l IH]; intros s; simpl.
    - rewrite elem_of_nil. tauto.
    - rewrite IH, elem_of_union, elem_of_singleton, elem_of_cons. tauto. }
  assert (∀ (l : list (string * gset string)) (s : gset string),
    d ∈ foldl (fun blobs entry =>
      foldl (fun blobs digest => {[digest]} ∪ blobs) blobs (next (g_manifestBlobs g) entry.1)) s l ↔
    d ∈ s ∨ ∃ k, k ∈ l.*1 ∧ d ∈ next (g_manifestBlobs g) k) as Hout.
  { induction l as [|[k r] l IH]; intros s; simpl.
    - setoid_rewrite elem_of_nil. naive_solver.
    - rewrite IH, Hin. setoid_rewrite elem_of_cons. naive_solver. }
  rewrite Hout. setoid_rewrite (range_keys 22 P). split; [|by right].
  by intros [?%not_elem_of_empty|?].
Qed.

Lemma blobReasons_empty reachable cutoff d l :
  blobReasons reachable cutoff d l = ∅ ↔
  d ∉ reachable ∧ ∀ b, b ∈ l → b_FirstObservedAt b < cutoff.
Proof.
  unfold blobReasons.
  assert (∀ s : gset string, foldl (fun reasons blob =>
      if negb (b_FirstObservedAt blob <? cutoff) then {[ReasonMinimumSafetyAge]} ∪ reasons
      else reasons) s l = ∅ ↔ s = ∅ ∧ ∀ b, b ∈ l → b_FirstObservedAt b < cutoff) as ->.
  { induction l as [|b l IH]; intros s; simpl.
    - setoid_rewrite elem_of_nil. naive_solver.
    - setoid_rewrite elem_of_cons. destruct (Z.ltb_spec (b_FirstObservedAt b) cutoff); simpl; rewrite IH.
      + naive_solver.
      + split.
        * intros [He _]. exfalso. apply (not_elem_of_empty (C := gset string) ReasonMinimumSafetyAge).
          rewrite <- He. by apply elem_of_union_l, elem_of_singleton.
        * intros [_ Ha]. specialize (Ha b (or_introl eq_refl)). lia. }
  destruct (bool_decide_reflect (d ∈ reachable)); [|tauto]. split; [|tauto].
  intros [He _]. by apply non_empty_singleton_L in He.
Qed.

(** Blob collection is safe: a blob is collected only if no manifest that
    the plan keeps, in any repository of the registry, refers to it, and only
    if every repository has held it for longer than the safety age; so what
    every rooted manifest needs stays complete. *)
Theorem cleanup_never_deletes_reachable_blob (order : MapOrder) snapshot now maxAge plan item :
  BuildCleanupPlan snapshot now maxAge = Ok plan →
  item ∈ pl_Items plan → isBlob item = true → it_Disposition item = RegistryCleanupDelete →
  (∀ kept, kept ∈ pl_Items plan → isBlob kept = false → it_Disposition kept = RegistryCleanupProtect →
     ¬ blobEdge snapshot (nodeKey (it_Repository kept) (it_Digest kept)) (it_Digest item)) ∧
  (∀ b, b ∈ sn_Blobs snapshot → b_Present b = true → b_Digest b = it_Digest item →
     b_FirstObservedAt b < now - po_MinimumSafetyAge (sn_Policy snapshot)).
Proof.
  intros Hplan Hin Hb Hdel.
  apply BuildCleanupPlan_inv in Hplan as (g & P & D & Hg & Hp & Hitems & _).
  apply newLifecycleGraph_spec in Hg. rewrite Hitems in *.
  apply elem_of_sortCleanupItems in Hin as (n & it & Hl & ->).
  destruct (planned_blob _ _ _ _ _ _ _ _ Hl eq_refl Hb) as (d & l & Hd & ->). simpl in *.
  destruct (blobItem_fields (reachableBlobs g P) (now - po_MinimumSafetyAge (sn_Policy snapshot)) d l)
    as (_ & -> & _ & Hdisp).
  rewrite Hdisp in Hdel. destruct (decide _) as [He|]; [|done].
  apply blobReasons_empty in He as [Hnr Hold]. split.
  - intros kept Hkept Hkb Hkd He. apply elem_of_sortCleanupItems in Hkept as (n' & it' & Hl' & E).
    rewrite E in Hkb. destruct (planned_manifest _ _ _ _ _ _ _ _ Hl' eq_refl Hkb) as (k & m & Hm & Hit).
    rewrite Hit in E. destruct (manifest_item_key _ _ _ _ _ _ _ _ Hg Hm E) as (Hk & _ & Hd').
    rewrite Hk in He. apply Hnr, reachableBlobs_spec. exists k.
    split; [|by apply (gr_blob _ _ Hg)]. apply has_dom.
    destruct (has P k); [done|]. congruence.
  - intros b Hb' Hp' Hbd. apply Hold.
    assert (b ∈ default [] (g_blobByDigest g !! d)) as Hin by by apply (gr_digest _ _ Hg).
    by rewrite Hd in Hin.
Qed.

(** * The order of the items *)

Definition itemRank (depths : gmap string Z) (x : RegistryCleanupItem) :=
  let px := if isBlob x then 1 else 0 in
  (px, (if px =? 0 then default 0 (depths !! nodeKey (it_Repository x) (it_Digest x)) else 0,
        (it_Repository x, (it_ResourceKind x, it_Digest x)))).

Definition rankLess :=
  lex Z.eqb Z.ltb (lex Z.eqb Z.ltb (lex String.eqb str_less (lex String.eqb str_less str_less))).

Lemma rankLess_total : total_less rankLess.
Proof.
  repeat (apply lex_total; [first [apply Z.eqb_eq | apply String.eqb_eq]
                           |first [apply Zltb_total | apply str_less_total]|]).
  apply str_less_total.
Qed.

Lemma itemLess_rank depths x y :
  itemLess depths x y = less_on (itemRank depths) rankLess x y.
Proof. reflexivity. Qed.

Lemma sorted_items depths l :
  StronglySorted (sort_le (itemLess depths)) (sort_slice (itemLess depths) l).
Proof. exact (less_on_sorted (itemRank depths) rankLess rankLess_total _ (itemLess_rank depths) l). Qed.

Lemma pl_Items_lookup `{MapOrder} items g i item :
  sortCleanupItems items g !! i = Some item →
  ∃ it, sort_slice (itemLess (manifestDepths (g_manifests g) (g_children g))) items !! i = Some it ∧
    item = setOrdinal i it.
Proof.
  unfold sortCleanupItems. rewrite list_lookup_imap_Some. intros (it & -> & Hl). by exists it.
Qed.

(** The plan is ordered for its executor: the items carry their position
    as ordinal, every manifest comes before all blobs, and an index comes
    before the manifests it refers to, so a parent is deleted before its
    children and a blob after every manifest that names it. *)
Theorem cleanup_order (order : MapOrder) snapshot now maxAge plan i j x y :
  BuildCleanupPlan snapshot now maxAge = Ok plan →
  pl_Items plan !! i = Some x → pl_Items plan !! j = Some y →
  it_Ordinal x = Z.of_nat i ∧
  (isBlob x = false → isBlob y = true → (i < j)%nat) ∧
  (isBlob x = false → isBlob y = false →
   childEdge snapshot (nodeKey (it_Repository x) (it_Digest x)) (nodeKey (it_Repository y) (it_Digest y)) →
   (i < j)%nat).
Proof.
  intros Hplan Hx Hy.
  apply BuildCleanupPlan_inv in Hplan as (g & P & D & Hg & Hp & Hitems & _).
  apply newLifecycleGraph_spec in Hg. rewrite Hitems in *.
  set (depths := manifestDepths (g_manifests g) (g_children g)) in *.
  apply pl_Items_lookup in Hx as (a & Ha & ->). apply pl_Items_lookup in Hy as (b & Hb & ->).
  fold depths in Ha, Hb.
  assert ((itemLess depths a b = true) → (i < j)%nat) as Hlt.
  { intros Hless. destruct (decide (j = i)) as [->|Hne].
    - assert (a = b) as -> by congruence. rewrite itemLess_rank in Hless.
      by rewrite (less_on_irrefl _ _ rankLess_total) in Hless.
    - destruct (decide (j < i)%nat); [|lia].
      pose proof (StronglySorted_lookup _ _ j i b a (sorted_items depths _) Hb Ha ltac:(lia)) as Hle.
      unfold sort_le in Hle. congruence. }
  split_and!; [done| |].
  - intros Hbx Hby. apply Hlt. unfold itemLess. change (isBlob a = false) in Hbx.
    change (isBlob b = true) in Hby. by rewrite Hbx, Hby.
  - intros Hbx Hby He. apply Hlt. change (isBlob a = false) in Hbx. change (isBlob b = false) in Hby.
    destruct (planned_manifest _ _ _ _ _ _ _ _ Hb eq_refl Hby) as (k & m & Hm & Hit).
    assert (setOrdinal j b = setOrdinal j (manifestItem (serviceRepositories snapshot) P D k m)) as E
      by by rewrite Hit.
    destruct (manifest_item_key _ _ _ _ _ _ _ _ Hg Hm E) as (Hk & _ & _).
    apply (gr_child _ _ Hg) in He. simpl in He, Hk.
    destruct (manifestDepths_child (g_manifests g) (g_children g) _ _ (gr_acyclic _ _ Hg) He)
      as (da & db & Hda & Hdb & Hlt').
    { rewrite Hk. by eapply elem_of_dom_2. }
    unfold itemLess. fold depths in Hda, Hdb. rewrite Hbx, Hby. simpl. rewrite Hda, Hdb. simpl.
    replace (da =? db) with false by (symmetry; apply Z.eqb_neq; lia). simpl. by apply Z.ltb_lt.
Qed.

(** * Accounting *)

Lemma filter_imap_ordinal {B} (p : RegistryCleanupItem → bool) (f : RegistryCleanupItem → B) l :
  (∀ n x, p (setOrdinal n x) = p x) → (∀ n x, f (setOrdinal n x) = f x) →
  f <$> List.filter p (imap setOrdinal l) = f <$> List.filter p l.
Proof.
  intros Hp Hf.
  assert (∀ k, f <$> List.filter p (imap (λ n, setOrdinal (k + n)) l) = f <$> List.filter p l) as Hgen.
  { induction l as [|x l IH]; intros k; [done|]. rewrite imap_cons. cbn [List.filter]. rewrite Hp.
    assert (imap ((λ n, setOrdinal (k + n)) ∘ S) l = imap (λ n, setOrdinal (S k + n)) l) as ->.
    { apply imap_ext. intros. simpl. by rewrite <- Nat.add_succ_comm. }
    destruct (p x); rewrite ?fmap_cons, ?Hf, IH; done. }
  apply (Hgen 0%nat).
Qed.

Lemma filter_permutation {A} (p : A → bool) l1 l2 : l1 ≡ₚ l2 → List.filter p l1 ≡ₚ List.filter p l2.
Proof.
  induction 1 as [|x l1 l2 _ IH|x y l|l1 l2 l3 _ IH1 _ IH2]; simpl; [done| | |by etrans].
  - destruct (p x); [by constructor|done].
  - destruct (p x), (p y); try done. constructor.
Qed.

Lemma filter_fmap_all {A} (p : RegistryCleanupItem → bool) (f : A → RegistryCleanupItem) l :
  (∀ a, p (f a) = true) → List.filter p (f <$> l) = f <$> l.
Proof.
  intros Hp. induction l as [|a l IH]; [done|]. rewrite !fmap_cons. cbn [List.filter].
  by rewrite Hp, IH.
Qed.

Lemma filter_fmap_none {A} (p : RegistryCleanupItem → bool) (f : A → RegistryCleanupItem) l :
  (∀ a, p (f a) = false) → List.filter p (f <$> l) = [].
Proof.
  intros Hp. induction l as [|a l IH]; [done|]. rewrite !fmap_cons. cbn [List.filter].
  by rewrite Hp, IH.
Qed.

Lemma blobItem_isBlob reachable cutoff d l : isBlob (blobItem reachable cutoff d l) = true.
Proof. unfold isBlob. by rewrite (proj1 (proj2 (proj2 (blobItem_fields reachable cutoff d l)))). Qed.

Lemma countItem_fold l : ∀ s,
  let r := foldl countItem s l in
  su_ProtectedManifests r + su_DeletedManifests r =
    su_ProtectedManifests s + su_DeletedManifests s +
    Z.of_nat (length (List.filter (λ it, negb (isBlob it)) l)) ∧
  su_GarbageCollectBlobs r = su_GarbageCollectBlobs s +
    Z.of_nat (length (List.filter (λ it, isBlob it && bool_decide (it_Disposition it = RegistryCleanupDelete)) l)).
Proof.
  induction l as [|it l IH]; intros s; cbn [foldl List.filter]; [cbn [length]; lia|].
  destruct (IH (countItem s it)) as [H1 H2]. rewrite H1, H2. clear.
  destruct s as [p d b e ? ? ?]. unfold countItem.
  destruct (isBlob it), (bool_decide (it_Disposition it = RegistryCleanupDelete));
    cbn [negb andb length su_ProtectedManifests su_DeletedManifests su_GarbageCollectBlobs]; lia.
Qed.

(** What a sorted, numbered plan contains does not depend on the sort or the
    ordinals. *)
Lemma sortCleanupItems_select {B} (p : RegistryCleanupItem → bool) (f : RegistryCleanupItem → B) less items :
  (∀ n x, p (setOrdinal n x) = p x) → (∀ n x, f (setOrdinal n x) = f x) →
  f <$> List.filter p (imap setOrdinal (sort_slice less items)) ≡ₚ f <$> List.filter p items.
Proof.
  intros Hp Hf. rewrite filter_imap_ordinal by done.
  apply fmap_Permutation, filter_permutation, sort_slice_permutation.
Qed.

Lemma planItems_blobs `{MapOrder} snapshot g now P D :
  it_Digest <$> List.filter isBlob (planItems snapshot g now P D) = (range 25 (g_blobByDigest g)).*1.
Proof.
  unfold planItems. rewrite List.filter_app, filter_fmap_none, filter_fmap_all; simpl.
  - rewrite <- list_fmap_compose. apply list_fmap_ext. intros i [d l] _. simpl.
    by rewrite (proj1 (proj2 (blobItem_fields _ _ d l))).
  - intros []. by rewrite blobItem_isBlob.
  - intros []. by rewrite manifestItem_not_blob.
Qed.

Lemma planItems_manifests `{MapOrder} snapshot g now P D :
  graph_of snapshot g →
  (λ it, (it_Repository it, it_Digest it)) <$>
    List.filter (λ it, negb (isBlob it)) (planItems snapshot g now P D) ≡ₚ
  (λ m, (m_Repository m, m_Digest m)) <$> List.filter m_Present (sn_Manifests snapshot).
Proof.
  intros Hg. unfold planItems.
  rewrite List.filter_app, filter_fmap_all, filter_fmap_none, app_nil_r.
  - rewrite <- list_fmap_compose, range_perm, (gr_manifests _ _ Hg), <- list_fmap_compose.
    match goal with |- ?a ≡ₚ ?b => assert (a = b) as ->; [|done] end.
    apply list_fmap_ext. intros i m _. simpl.
    by destruct (manifestItem_fields (serviceRepositories snapshot) P D (manifestKey m) m) as (-> & -> & _).
  - intros []. by rewrite blobItem_isBlob.
  - intros []. by rewrite manifestItem_not_blob.
Qed.

(** Every artifact is accounted for exactly once: the manifest items of a
    plan are the present manifests of the catalog, each once; the blob items
    are the digests of the present blobs, each once; and the summary counts
    them. *)
Theorem cleanup_accounts_for_everything (order : MapOrder) snapshot now maxAge plan :
  BuildCleanupPlan snapshot now maxAge = Ok plan →
  ((λ it, (it_Repository it, it_Digest it)) <$> List.filter (λ it, negb (isBlob it)) (pl_Items plan)) ≡ₚ
    ((λ m, (m_Repository m, m_Digest m)) <$> List.filter m_Present (sn_Manifests snapshot)) ∧
  NoDup (it_Digest <$> List.filter isBlob (pl_Items plan)) ∧
  (∀ d, d ∈ it_Digest <$> List.filter isBlob (pl_Items plan) ↔
     ∃ b, b ∈ sn_Blobs snapshot ∧ b_Present b = true ∧ b_Digest b = d) ∧
  su_ProtectedManifests (pl_Summary plan) + su_DeletedManifests (pl_Summary plan) =
    Z.of_nat (length (List.filter m_Present (sn_Manifests snapshot))).
Proof.
  intros Hplan.
  apply BuildCleanupPlan_inv in Hplan as (g & P & D & Hg & Hp & Hitems & Hsum & _).
  apply newLifecycleGraph_spec in Hg. rewrite Hitems in *. clear Hitems.
  unfold sortCleanupItems in *. set (less := itemLess _) in *.
  pose proof (planItems_manifests snapshot g now P D Hg) as Hperm.
  split_and!.
  - by rewrite sortCleanupItems_select.
  - rewrite sortCleanupItems_select, planItems_blobs by done. apply range_NoDup.
  - intros d. rewrite sortCleanupItems_select, planItems_blobs, range_keys, elem_of_dom by done. split.
    + intros [l Hl]. pose proof (gr_digests _ _ Hg _ _ Hl) as Hne.
      destruct l as [|b l]; [done|]. exists b. apply (gr_digest _ _ Hg d b). rewrite Hl. by left.
    + intros (b & Hb). apply (gr_digest _ _ Hg d b) in Hb.
      destruct (g_blobByDigest g !! d); [done|by apply elem_of_nil in Hb].
  - rewrite Hsum. unfold summarize. rewrite (proj1 (countItem_fold _ _)).
    simpl. f_equal. apply Permutation_length in Hperm. rewrite !length_fmap in Hperm. rewrite <- Hperm.
    pose proof (Permutation_length (sortCleanupItems_select (λ it, negb (isBlob it)) it_Digest less
      (planItems snapshot g now P D) ltac:(done) ltac:(done))) as E.
    rewrite !length_fmap in E. lia.
Qed.

(** * Witnesses, on the snapshot of [RegistryLifecycle] *)

Definition sampleTrash : RegistryCleanupItem :=
  mkItem 1 "team/app" "release-manifest" (sampleDigest "c") RegistryCleanupDelete "delete-manifest" 10
    [ReasonRetentionEligible] "planned".

Lemma cleanup_never_deletes_rooted_witness :
  ∃ plan, BuildCleanupPlan sampleSnapshot sampleNow hour = Ok plan ∧ sampleTrash ∈ pl_Items plan ∧
    ¬ rtc (childEdge sampleSnapshot) (nodeKey "team/app" (sampleDigest "a"))
        (nodeKey "team/app" (sampleDigest "c")).
Proof.
  assert (∃ plan, BuildCleanupPlan sampleSnapshot sampleNow hour = Ok plan ∧
    pl_Items plan !! 1%nat = Some sampleTrash) as (plan & Hplan & Hl).
  { eexists. split; [vm_compute; reflexivity | vm_compute; reflexivity]. }
  assert (∃ g, newLifecycleGraph sampleSnapshot = Ok g) as (g & Hg).
  { eexists. vm_compute. reflexivity. }
  exists plan. split; [exact Hplan|]. split; [exact (list_elem_of_lookup_2 _ _ _ Hl)|].
  apply (cleanup_never_deletes_rooted forward_order sampleSnapshot g sampleNow hour plan sampleTrash
    (nodeKey "team/app" (sampleDigest "a")) Hplan Hg (list_elem_of_lookup_2 _ _ _ Hl) eq_refl eq_refl).
  apply (rooted_reference sampleSnapshot g sampleNow
    (mkReference "t1" "svc" "team/app" (sampleDigest "a") RegistryReferenceObservedRunning)).
  by left.
Defined.

Definition sampleTrashBlob : RegistryCleanupItem :=
  mkItem 4 "*" "blob" (sampleDigest "e") RegistryCleanupDelete "garbage-collect-blob" 100
    [ReasonUnreachableBlob] "planned".

Lemma cleanup_never_deletes_reachable_blob_witness :
  ∃ plan, BuildCleanupPlan sampleSnapshot sampleNow hour = Ok plan ∧ sampleTrashBlob ∈ pl_Items plan ∧
    ∀ b, b ∈ sn_Blobs sampleSnapshot → b_Present b = true → b_Digest b = sampleDigest "e" →
      b_FirstObservedAt b < sampleNow - minute.
Proof.
  assert (∃ plan, BuildCleanupPlan sampleSnapshot sampleNow hour = Ok plan ∧
    pl_Items plan !! 4%nat = Some sampleTrashBlob) as (plan & Hplan & Hl).
  { eexists. split; [vm_compute; reflexivity | vm_compute; reflexivity]. }
  exists plan. split; [exact Hplan|]. split; [exact (list_elem_of_lookup_2 _ _ _ Hl)|].
  exact (proj2 (cleanup_never_deletes_reachable_blob forward_order sampleSnapshot sampleNow hour plan
    sampleTrashBlob Hplan (list_elem_of_lookup_2 _ _ _ Hl) eq_refl eq_refl)).
Defined.

Lemma cleanup_order_witness :
  ∃ plan x y, BuildCleanupPlan sampleSnapshot sampleNow hour = Ok plan ∧
    pl_Items plan !! 0%nat = Some x ∧ pl_Items plan !! 2%nat = Some y ∧ it_Ordinal x = 0 ∧
    (isBlob x = false → isBlob y = false →
     childEdge sampleSnapshot (nodeKey (it_Repository x) (it_Digest x))
       (nodeKey (it_Repository y) (it_Digest y)) → (0 < 2)%nat).
Proof.
  assert (∃ plan x y, BuildCleanupPlan sampleSnapshot sampleNow hour = Ok plan ∧
    pl_Items plan !! 0%nat = Some x ∧ pl_Items plan !! 2%nat = Some y) as (plan & x & y & Hp & Hx & Hy).
  { eexists _, _, _. split; [vm_compute; reflexivity|]. split; vm_compute; reflexivity. }
  exists plan, x, y.
  destruct (cleanup_order forward_order sampleSnapshot sampleNow hour plan 0 2 x y Hp Hx Hy)
    as (Ho & _ & He).
  exact (conj Hp (conj Hx (conj Hy (conj Ho He)))).
Defined.

Lemma cleanup_accounts_for_everything_witness :
  ∃ plan, BuildCleanupPlan sampleSnapshot sampleNow hour = Ok plan ∧
    su_ProtectedManifests (pl_Summary plan) + su_DeletedManifests (pl_Summary plan) = 3.
Proof.
  assert (∃ plan, BuildCleanupPlan sampleSnapshot sampleNow hour = Ok plan) as (plan & Hp).
  { eexists. vm_compute. reflexivity. }
  exists plan. split; [exact Hp|].
  exact (proj2 (proj2 (proj2 (cleanup_accounts_for_everything forward_order sampleSnapshot sampleNow
    hour plan Hp)))).
Defined.
