(* ===== verification/RegistryDeterminism.v ===== *)
(** The plan is a function of the snapshot: no stage of the planner depends on
    the order in which Go ranges over its maps. *)

From S2P Require Import Prelude Regexp GoStrings RegistryModel RegistryGraph RegistryLifecycle RegistryFacts RegistrySafety.

Open Scope Z_scope.

(** * Recording reasons commutes *)

Lemma addReason_comm m k1 r1 k2 r2 :
  addReason (addReason m k1 r1) k2 r2 = addReason (addReason m k2 r2) k1 r1.
Proof.
  unfold addReason. destruct (decide (k1 = k2)) as [->|Hne].
  - rewrite !lookup_insert_eq, !insert_insert_eq. f_equal. set_solver.
  - rewrite !lookup_insert_ne by done. by rewrite insert_insert_ne.
Qed.

Lemma addReasons_permutation m l1 l2 : l1 ≡ₚ l2 → addReasons m l1 = addReasons m l2.
Proof. intros Hp. apply foldl_permutation; [|done]. intros. apply addReason_comm. Qed.

Lemma addReasons_app m l1 l2 : addReasons m (l1 ++ l2) = addReasons (addReasons m l1) l2.
Proof. unfold addReasons. by rewrite foldl_app. Qed.

Lemma addReasons_comm m l1 l2 :
  addReasons (addReasons m l1) l2 = addReasons (addReasons m l2) l1.
Proof. rewrite <- !addReasons_app. apply addReasons_permutation, Permutation_app_comm. Qed.

(** A loop that records reasons computed from its entries. *)
Lemma record_loop_order {A} (pairs : A → list (string * string)) l1 l2 m :
  l1 ≡ₚ l2 → foldl (λ m a, addReasons m (pairs a)) m l1 = foldl (λ m a, addReasons m (pairs a)) m l2.
Proof. intros Hp. apply foldl_permutation; [|done]. intros. apply addReasons_comm. Qed.

(** * The caches *)

Fixpoint fixPairs (cutoff : Time) (l : list RegistryCacheGeneration) (kept : Z)
    : list (string * string) :=
  match l with
  | [] => []
  | c :: rest =>
      if cacheActive c then (cacheKey c, ReasonCacheActive) :: fixPairs cutoff rest kept
      else if String.eqb (cg_State c) "succeeded" && (kept <? 1)
      then (cacheKey c, ReasonCacheRetained) :: fixPairs cutoff rest (kept + 1)
      else if negb (cg_CreatedAt c <? cutoff)
      then (cacheKey c, ReasonMinimumSafetyAge) :: fixPairs cutoff rest kept
      else fixPairs cutoff rest kept
  end.

Lemma fixGroup_pairs cutoff l : ∀ kept fixed,
  fixGroup cutoff l kept fixed = addReasons fixed (fixPairs cutoff l kept).
Proof.
  induction l as [|c l IH]; intros kept fixed; cbn [fixGroup fixPairs]; [done|].
  repeat case_match; apply IH.
Qed.

Lemma fixCaches_order (o1 o2 : MapOrder) cutoff groups :
  fixCaches (H := o1) cutoff groups = fixCaches (H := o2) cutoff groups.
Proof.
  unfold fixCaches. apply foldl_permutation; [|apply range_order].
  intros m x y. rewrite !fixGroup_pairs. apply addReasons_comm.
Qed.

Lemma i64_congr a b : a mod 2 ^ 64 = b mod 2 ^ 64 → i64 a = i64 b.
Proof.
  intros E. unfold i64. f_equal. rewrite (Z.add_mod a), (Z.add_mod b), E by lia. done.
Qed.

Lemma i64_mod a : i64 a mod 2 ^ 64 = a mod 2 ^ 64.
Proof.
  unfold i64. rewrite <- Zminus_mod_idemp_l, Z.mod_mod, Zminus_mod_idemp_l by lia. f_equal. lia.
Qed.

Lemma i64_add_l a b : i64 (i64 a + b) = i64 (a + b).
Proof. apply i64_congr. by rewrite <- Z.add_mod_idemp_l, i64_mod, Z.add_mod_idemp_l by lia. Qed.

Lemma sum_order (o1 o2 : MapOrder) (roots : gmap string rootInfo) :
  foldl (fun before entry => i64 (before + ro_size entry.2)) 0 (range (MapOrder := o1) 13 roots) =
  foldl (fun before entry => i64 (before + ro_size entry.2)) 0 (range (MapOrder := o2) 13 roots).
Proof.
  apply foldl_permutation; [|apply range_order]. intros b x y. rewrite !i64_add_l. f_equal. lia.
Qed.

(** The identifier of a root is the one of a generation stored there. *)
Lemma cacheRoots_id g l k root :
  cacheRoots g l !! k = Some root →
  ro_key root = k ∧ ∃ c, c ∈ l ∧ cacheKey c = k ∧ ro_id root = cg_ID c.
Proof.
  unfold cacheRoots.
  assert (∀ (l' : list RegistryCacheGeneration) (roots : gmap string rootInfo),
    (∀ c, c ∈ l' → c ∈ l) →
    (∀ k root, roots !! k = Some root →
      ro_key root = k ∧ ∃ c, c ∈ l ∧ cacheKey c = k ∧ ro_id root = cg_ID c) →
    ∀ k root, foldl (fun roots generation =>
      let key := cacheKey generation in
      <[key := updateRoot g generation key (default zeroRoot (roots !! key))]> roots) roots l' !! k
      = Some root → ro_key root = k ∧ ∃ c, c ∈ l ∧ cacheKey c = k ∧ ro_id root = cg_ID c) as Hgen.
  { induction l' as [|c l' IH]; intros roots Hsub Hr; simpl; [apply Hr|].
    apply IH; [intros; apply Hsub; by right|].
    intros k' root' [[<- <-]|[_ ?]]%lookup_insert_Some; [|by apply Hr].
    assert (c ∈ l) as Hc by (apply Hsub; by left).
    split; [done|]. unfold updateRoot. cbn [ro_id].
    destruct (roots !! cacheKey c) as [old|] eqn:E; simpl; [|by exists c].
    destruct (_ || _) eqn:Eo; [by exists c|]. by apply Hr. }
  apply Hgen; [done|]. intros k' root'. by rewrite lookup_empty.
Qed.

Definition candidateRank (c : candidate) :=
  (ct_expired c, (ro_lastUsed (ct_root c), (ro_generation (ct_root c), ro_id (ct_root c)))).

Definition candidateRankLess :=
  lex Bool.eqb true_first (lex Z.eqb Z.ltb (lex Z.eqb Z.ltb str_less)).

Lemma candidateRankLess_total : total_less candidateRankLess.
Proof.
  apply lex_total; [apply eqb_true_iff|apply true_first_total|].
  repeat (apply lex_total; [apply Z.eqb_eq|apply Zltb_total|]). apply str_less_total.
Qed.

Lemma candidateLess_rank x y : candidateLess x y = less_on candidateRank candidateRankLess x y.
Proof.
  unfold candidateLess, less_on, candidateRankLess, lex, candidateRank. simpl.
  by destruct (ct_expired x), (ct_expired y).
Qed.

Lemma cacheCandidates_order (o1 o2 : MapOrder) roots fixed expiry :
  cacheCandidates (H := o1) roots fixed expiry ≡ₚ cacheCandidates (H := o2) roots fixed expiry.
Proof. unfold cacheCandidates. apply omap_Permutation, range_order. Qed.

(** The identifiers of cache generations are unique. *)
Definition distinctCaches (snapshot : RegistryLifecycleSnapshot) : Prop :=
  NoDup (cg_ID <$> sn_CacheGenerations snapshot).

Lemma distinct_cache_key snapshot c1 c2 :
  distinctCaches snapshot → c1 ∈ liveCaches snapshot → c2 ∈ liveCaches snapshot →
  cg_ID c1 = cg_ID c2 → c1 = c2.
Proof.
  unfold distinctCaches, liveCaches. rewrite !elem_of_list_filter. intros Hnd [H1 _] [H2 _] E.
  apply list_elem_of_lookup in H1 as [i1 H1]. apply list_elem_of_lookup in H2 as [i2 H2].
  assert (i1 = i2) as ->; [|congruence].
  eapply NoDup_lookup; [exact Hnd| |]; rewrite list_lookup_fmap; [by rewrite H1|by rewrite H2, E].
Qed.

Lemma candidates_sorted_order (o1 o2 : MapOrder) snapshot g fixed expiry :
  distinctCaches snapshot →
  sort_slice candidateLess (cacheCandidates (H := o1) (cacheRoots g (liveCaches snapshot)) fixed expiry) =
  sort_slice candidateLess (cacheCandidates (H := o2) (cacheRoots g (liveCaches snapshot)) fixed expiry).
Proof.
  intros Hd. apply (less_on_unique candidateRank _ candidateRankLess_total _ candidateLess_rank);
    [apply cacheCandidates_order|].
  assert (∀ c, c ∈ cacheCandidates (H := o1) (cacheRoots g (liveCaches snapshot)) fixed expiry →
    ∃ k, cacheRoots g (liveCaches snapshot) !! k = Some (ct_root c)) as Hin.
  { intros c. unfold cacheCandidates. rewrite list_elem_of_omap. intros ([k root] & Hk & Hc).
    destruct (negb _); [done|]. injection Hc as <-. exists k. exact (proj1 (elem_of_range 12 _ _ _) Hk). }
  intros x y (kx & Hx)%Hin (ky & Hy)%Hin E.
  destruct (cacheRoots_id _ _ _ _ Hx) as (_ & cx & Hcx & <- & Hix).
  destruct (cacheRoots_id _ _ _ _ Hy) as (_ & cy & Hcy & <- & Hiy).
  unfold candidateRank in E. injection E as Ee _ _ Ei.
  assert (cx = cy) as -> by (eapply distinct_cache_key; [done..|congruence]).
  destruct x, y; simpl in *. congruence.
Qed.

Lemma fixedCaches_order (o1 o2 : MapOrder) snapshot g now :
  distinctCaches snapshot →
  fixedCaches (H := o1) snapshot g now = fixedCaches (H := o2) snapshot g now.
Proof.
  intros Hd. unfold fixedCaches. rewrite (fixCaches_order o1 o2), (sum_order o1 o2).
  by rewrite (candidates_sorted_order o1 o2).
Qed.

Lemma decideCaches_rest `{MapOrder} snapshot g now :
  (decideCaches snapshot g now).1.2 =
    foldl (fun before entry => i64 (before + ro_size entry.2)) 0
      (range 13 (cacheRoots g (liveCaches snapshot))) ∧
  (decideCaches snapshot g now).2 =
    (if (fixedCaches snapshot g now).2 <? 0 then 0 else (fixedCaches snapshot g now).2).
Proof. unfold decideCaches, fixedCaches. cbv zeta. by destruct (evict _ _ _ _ _) as [[]]. Qed.

Lemma decideCaches_order (o1 o2 : MapOrder) snapshot g now :
  distinctCaches snapshot →
  decideCaches (H := o1) snapshot g now = decideCaches (H := o2) snapshot g now.
Proof.
  intros Hd. pose proof (fixedCaches_order o1 o2 snapshot g now Hd) as E.
  destruct (decideCaches_rest (H := o1) snapshot g now) as [B1 A1].
  destruct (decideCaches_rest (H := o2) snapshot g now) as [B2 A2].
  assert ((decideCaches (H := o1) snapshot g now).1.1 = (decideCaches (H := o2) snapshot g now).1.1) as D.
  { apply map_eq. intros k. by rewrite !decideCaches_lookup, E. }
  destruct (decideCaches (H := o1) snapshot g now) as [[d1 b1] a1],
    (decideCaches (H := o2) snapshot g now) as [[d2 b2] a2]. simpl in *.
  rewrite (sum_order o1 o2) in B1. rewrite E in A1. subst. done.
Qed.

(** * The protections *)

Lemma applyDecisions_order (o1 o2 : MapOrder) decisions P D :
  applyDecisions (H := o1) decisions P D = applyDecisions (H := o2) decisions P D.
Proof.
  unfold applyDecisions. apply foldl_permutation; [|apply range_order].
  intros [p d] x y. cbv zeta. destruct (cd_protect x.2), (cd_protect y.2); cbn [fst snd]; try done.
  - f_equal. apply addReasons_comm.
  - f_equal. apply addReasons_comm.
Qed.

Lemma protectScope_order (o1 o2 : MapOrder) repositories cutoff manifests P :
  protectScope (H := o1) repositories cutoff manifests P =
  protectScope (H := o2) repositories cutoff manifests P.
Proof.
  unfold protectScope. apply foldl_permutation; [|apply range_order].
  intros p x y. repeat case_match; try done. apply addReason_comm.
Qed.

Lemma protectReachable_order (o1 o2 : MapOrder) children reason P :
  protectReachable (H := o1) children reason P = protectReachable (H := o2) children reason P.
Proof. eapply closure_of_unique; apply protectReachable_closure. Qed.

(** Nothing outside the scope becomes eligible, so marking always succeeds. *)
Definition eligible (P D : reasons_map) (l : list (string * RegistryManifest)) : list (string * string) :=
  omap (λ entry, if has P entry.1 then None
                 else if (size (default ∅ (D !! entry.1)) =? 0)%nat
                 then Some (entry.1, ReasonRetentionEligible) else None) l.

Lemma eligible_ext P D D' l :
  (∀ k, k ∈ l.*1 → D !! k = D' !! k) → eligible P D l = eligible P D' l.
Proof.
  induction l as [|[k m] l IH]; [done|]. intros Hk. unfold eligible. cbn [omap list_omap fst].
  rewrite (Hk k) by (by left). fold (eligible P D l) (eligible P D' l).
  rewrite IH; [done|]. intros k' Hk'. apply Hk. by right.
Qed.

Lemma markEligible_eligible repositories P l : ∀ D,
  NoDup l.*1 → (∀ k m, (k, m) ∈ l → has P k = true ∨ has repositories (m_Repository m) = true) →
  markEligible repositories P l D = Ok (addReasons D (eligible P D l)).
Proof.
  induction l as [|[k m] l IH]; intros D; cbn [markEligible]; [done|].
  intros [Hn Hd]%NoDup_cons Hs.
  assert (∀ k' m', (k', m') ∈ l → has P k' = true ∨ has repositories (m_Repository m') = true) as Hs'.
  { intros k' m' Hin. apply (Hs k'). by right. }
  unfold eligible. cbn [omap list_omap fst]. fold (eligible P D l).
  destruct (has P k) eqn:Hp; [by apply IH|].
  destruct (Hs k m) as [?| ->]; [by left|congruence|]. cbn [negb].
  destruct (size (default ∅ (D !! k)) =? 0)%nat; [|by apply IH].
  rewrite IH by done. rewrite (eligible_ext P (addReason D k ReasonRetentionEligible) D); [done|].
  intros k' Hk'. unfold addReason. rewrite lookup_insert_ne; [done|]. by intros <-.
Qed.

Lemma protections_order (o1 o2 : MapOrder) snapshot g now decisions :
  protections (H := o1) snapshot g now decisions = protections (H := o2) snapshot g now decisions.
Proof.
  unfold protections. cbv zeta.
  destruct (protectReferences _ _ _ _) as [p0|]; [|done]. cbn [res_bind].
  rewrite (applyDecisions_order o1 o2). destruct (applyDecisions _ _ _) as [p1 d1].
  rewrite (protectScope_order o1 o2), (protectReachable_order o1 o2).
  set (scope := protectScope _ _ _ _). set (P := protectReachable _ _ _).
  assert (∀ k m, g_manifests g !! k = Some m →
    has P k = true ∨ has (serviceRepositories snapshot) (m_Repository m) = true) as Hs.
  { intros k m Hm. destruct (has (serviceRepositories snapshot) (m_Repository m)) eqn:E; [by right|left].
    apply has_dom, (closure_of_dom (g_children g) ReasonReachableManifest scope);
      [apply protectReachable_closure|].
    exists k. split; [|reflexivity]. apply (protectScope_spec (H := o2)). right. exists m.
    split; [done|]. unfold scopeReason. by rewrite E. }
  rewrite !markEligible_eligible.
  - simpl. do 2 f_equal. apply addReasons_permutation, omap_Permutation, range_order.
  - apply (range_NoDup (H := o2)).
  - intros k m Hin%(elem_of_range (H := o2)). by apply Hs.
  - apply (range_NoDup (H := o1)).
  - intros k m Hin%(elem_of_range (H := o1)). by apply Hs.
Qed.

(** * The depths and the items *)

Lemma depth_dom parents (S : gset string) fuel :
  (∀ k p, k ∈ S → p ∈ next parents k → p ∈ S) → ∀ key depths,
  key ∈ S → dom depths ⊆ S → dom (depth fuel parents key depths).2 ⊆ S.
Proof.
  intros Hcl. induction fuel as [|fuel IH]; intros key depths Hk Hd; cbn [depth]; [done|].
  destruct (depths !! key); [done|].
  assert (∀ ps value d, (∀ p, p ∈ ps → p ∈ S) → dom d ⊆ S →
    dom (depth_all (depth fuel parents) ps value d).2 ⊆ S) as Hall.
  { induction ps as [|p ps IHp]; intros value d Hps Hds; cbn [depth_all]; [done|].
    destruct (depth fuel parents p d) as [v d'] eqn:E. apply IHp; [intros; apply Hps; by right|].
    pose proof (IH p d ltac:(apply Hps; by left) Hds) as Hd'. by rewrite E in Hd'. }
  destruct (depth_all _ _ _ _) as [value depths'] eqn:E. cbn [snd].
  pose proof (Hall (next parents key) 0 depths ltac:(intros; by eapply Hcl) Hd) as Hd'.
  rewrite E in Hd'. rewrite dom_insert_L. set_solver.
Qed.

Lemma manifestDepths_dom `{MapOrder} {A} (manifests : gmap string A) children :
  (∀ p c, edge children p c → p ∈ dom manifests) →
  dom (manifestDepths manifests children) ⊆ dom manifests.
Proof.
  intros Hcl. unfold manifestDepths.
  assert (∀ keys (depths : gmap string Z), (∀ k, k ∈ keys → k ∈ dom manifests) →
    dom depths ⊆ dom manifests →
    dom (foldl (fun depths key => (depth (S (size (manifestParents children)))
      (manifestParents children) key depths).2) depths keys) ⊆ dom manifests) as Hgen.
  { induction keys as [|key keys IH]; intros depths Hk Hd; cbn [foldl]; [done|].
    apply IH; [intros; apply Hk; by right|]. apply depth_dom; [|apply Hk; by left|done].
    intros k p _ Hp%(manifestParents_next children). by eapply Hcl. }
  apply Hgen; [|by rewrite dom_empty_L].
  intros k. by rewrite range_keys.
Qed.

Lemma manifestDepths_order (o1 o2 : MapOrder) {A} (manifests : gmap string A) children :
  acyclic children → (∀ p c, edge children p c → p ∈ dom manifests) →
  manifestDepths (H := o1) manifests children = manifestDepths (H := o2) manifests children.
Proof.
  intros Ha Hcl. apply map_eq. intros k.
  pose proof (manifestDepths_dom (H := o1) manifests children Hcl k) as D1.
  pose proof (manifestDepths_dom (H := o2) manifests children Hcl k) as D2.
  pose proof (proj2 (manifestDepths_ok (H := o1) manifests children Ha) k) as F1.
  pose proof (proj2 (manifestDepths_ok (H := o2) manifests children Ha) k) as F2.
  rewrite !elem_of_dom in *.
  destruct (manifestDepths (H := o1) manifests children !! k) as [v1|] eqn:E1,
    (manifestDepths (H := o2) manifests children !! k) as [v2|] eqn:E2; try done.
  - f_equal. by eapply (manifestDepths_unique o1 o2).
  - destruct F2 as [? ?]; [by apply D1|]. done.
  - destruct F1 as [? ?]; [by apply D2|]. done.
Qed.

Lemma reachableBlobs_order (o1 o2 : MapOrder) g P :
  reachableBlobs (H := o1) g P = reachableBlobs (H := o2) g P.
Proof.
  apply set_eq. intros d. by rewrite (reachableBlobs_spec (H := o1)), (reachableBlobs_spec (H := o2)).
Qed.

(** Items are told apart by their rank. *)
Lemma planItems_rank `{MapOrder} snapshot g now P D depths x y :
  graph_of snapshot g → x ∈ planItems snapshot g now P D → y ∈ planItems snapshot g now P D →
  itemRank depths x = itemRank depths y → x = y.
Proof.
  intros Hg Hx Hy E. unfold itemRank in E. cbv zeta in E. injection E as Eb _ Er _ Ed.
  apply elem_of_planItems in Hx as [(k & m & Hm & ->)|(d & l & Hl & ->)],
    Hy as [(k' & m' & Hm' & ->)|(d' & l' & Hl' & ->)];
    rewrite ?manifestItem_not_blob, ?blobItem_isBlob in Eb; try done.
  - destruct (manifestItem_fields (serviceRepositories snapshot) P D k m) as (R1 & D1 & _).
    destruct (manifestItem_fields (serviceRepositories snapshot) P D k' m') as (R2 & D2 & _).
    rewrite R1, R2 in Er. rewrite D1, D2 in Ed.
    destruct (gr_keyed _ _ Hg _ _ Hm) as [-> _], (gr_keyed _ _ Hg _ _ Hm') as [-> _].
    assert (manifestKey m = manifestKey m') as Ek by (unfold manifestKey; congruence).
    rewrite Ek in Hm. by assert (m = m') as -> by congruence.
  - rewrite !(proj1 (proj2 (blobItem_fields _ _ _ _))) in Ed. subst. congruence.
Qed.

Lemma sortCleanupItems_order (o1 o2 : MapOrder) snapshot g now P D :
  graph_of snapshot g →
  sortCleanupItems (H := o1) (planItems (H := o1) snapshot g now P D) g =
  sortCleanupItems (H := o2) (planItems (H := o2) snapshot g now P D) g.
Proof.
  intros Hg. unfold sortCleanupItems. f_equal.
  rewrite (manifestDepths_order o1 o2); [|apply (gr_acyclic _ _ Hg)|].
  2: { intros p c He%(gr_child _ _ Hg). by apply (gr_ends _ _ Hg) in He as [? _]. }
  apply (less_on_unique (itemRank _) rankLess rankLess_total _ (itemLess_rank _)).
  - unfold planItems. rewrite (reachableBlobs_order o1 o2).
    apply Permutation_app; apply fmap_Permutation, range_order.
  - intros x y Hx Hy. by apply (planItems_rank (H := o1) snapshot g now P D).
Qed.

Lemma validateCompleteness_order (o1 o2 : MapOrder) snapshot now maxAge :
  validateCompleteness (H := o1) snapshot now maxAge = validateCompleteness (H := o2) snapshot now maxAge.
Proof.
  unfold validateCompleteness. cbv zeta.
  destruct (_ || _ || _); [done|]. destruct (staleAt _ _ _); [done|]. destruct (_ || _); [done|].
  destruct (negb _); [done|]. destruct (negb _); [done|].
  destruct (checkAuthorities _ _ _ _ _) as [required|]; [|done]. cbn [res_bind].
  by rewrite (forallb_permutation _ _ _ (range_order o1 o2 10 10 required)).
Qed.

(** The planner is deterministic: for a snapshot whose cache generations
    have distinct identifiers the plan - or the error - is the same whatever
    order Go ranges over the maps in, so the same snapshot always gives the
    same digest and the same ordered items. *)
Theorem BuildCleanupPlan_deterministic (o1 o2 : MapOrder) snapshot now maxAge :
  distinctCaches snapshot →
  BuildCleanupPlan (H := o1) snapshot now maxAge = BuildCleanupPlan (H := o2) snapshot now maxAge.
Proof.
  intros Hd. unfold BuildCleanupPlan. cbv zeta.
  destruct (String.eqb _ _); [done|]. destruct (negb _); [done|].
  destruct (ValidatePolicy _); [|done]. cbn [res_bind]. destruct (negb _); [done|].
  rewrite (validateCompleteness_order o1 o2), (newLifecycleGraph_order o1 o2).
  destruct (validateCompleteness _ _ _); [|done]. cbn [res_bind].
  destruct (newLifecycleGraph snapshot) as [g|] eqn:Hg; [|done]. cbn [res_bind].
  apply (newLifecycleGraph_spec (H := o2)) in Hg.
  rewrite (decideCaches_order o1 o2) by done.
  destruct (decideCaches snapshot g now) as [[decisions before] after].
  rewrite (protections_order o1 o2). destruct (protections _ _ _ _) as [[P D]|]; [|done].
  cbn [res_bind]. by rewrite (sortCleanupItems_order o1 o2 snapshot).
Qed.

Lemma BuildCleanupPlan_deterministic_witness :
  BuildCleanupPlan (H := forward_order) sampleSnapshot sampleNow hour =
  BuildCleanupPlan (H := reverse_order) sampleSnapshot sampleNow hour ∧
  is_ok (BuildCleanupPlan (H := reverse_order) sampleSnapshot sampleNow hour) = true.
Proof.
  split; [|vm_compute; reflexivity].
  apply (BuildCleanupPlan_deterministic forward_order reverse_order). constructor.
Defined.
