(* ===== verification/Publications.v ===== *)
(** Protected Git publication ([internal/gitpublication/model.go], [store.go] and
    [provider.go]): the state machine of the pull request that publishes one
    accepted command, what may be observed of the provider, and the store that
    swaps one version for the next.

    A publication is a value; [With...] makes the next one.  [net/url] is only
    used by [validPullRequestURL], whose comment says what of it is modelled. *)

From S2P Require Import Prelude Regexp GoStrings.
From Stdlib Require Import Ascii.

Open Scope Z_scope.

(** * Errors

    [Other] stands for the errors of the provider, the refresher and the store
    behind the interfaces; [Joined] is [errors.Join]. *)

Inductive PubErr :=
| ErrInvalid | ErrNotFound | ErrConflict | ErrProviderMismatch | ErrMergeNotVisible
| Other (message : string)
| Joined (first second : PubErr).

(** [errors.Is(err, ErrConflict)] *)
Fixpoint IsConflict (e : PubErr) : bool :=
  match e with
  | ErrConflict => true
  | Joined e1 e2 => IsConflict e1 || IsConflict e2
  | _ => false
  end.

(** * Patterns *)

Definition hex_n (n : nat) : regex := RTimes n (RClass is_lower_hex).

Definition uuidPattern : regex :=
  RSeq (hex_n 8) (RSeq (RLit "-") (RSeq (hex_n 4) (RSeq (RLit "-")
    (RSeq (RClass (in_range "1" "5")) (RSeq (hex_n 3) (RSeq (RLit "-")
    (RSeq (RClass (is_one_of "89ab")) (RSeq (hex_n 3) (RSeq (RLit "-") (hex_n 12)))))))))).

Definition commitPattern : regex := RAlt (hex_n 40) (hex_n 64).

Definition is_alnum (c : ascii) : bool := is_lower c || is_upper c || is_digit c.

Definition ownerPattern : regex :=
  RSeq (RClass is_alnum)
    (ROpt (RSeq (RUpTo 38 (RClass (λ c, is_alnum c || is_one_of "-" c))) (RClass is_alnum))).

Definition namePattern : regex := RRep 1 100 (RClass (λ c, is_alnum c || is_one_of "_.-" c)).

Definition refPattern : regex :=
  RSeq (RLit "refs/heads/") (RSeq (RClass is_alnum)
    (RUpTo 199 (RClass (λ c, is_alnum c || is_one_of "._/-" c)))).

Definition validCommit (revision : string) : bool := re_match commitPattern revision.
Definition validUUID (s : string) : bool := re_match uuidPattern s.

Definition validRef (value : string) : bool :=
  re_match refPattern value && negb (str_contains ".." value) && negb (str_contains "//" value) &&
  negb (has_suffix "/" value).

(** * Data *)

Definition ModeDirect : string := "direct".
Definition ModePullRequest : string := "pull-request".

Inductive State :=
| StatePendingCandidate | StateWriteBaseReady | StateCandidateReady | StatePullRequestOpen
| StatePullRequestClosed | StateMergePending | StateMergeVerified.

#[export] Instance State_eq_dec : EqDecision State.
Proof. solve_decision. Defined.

Definition PullRequestOpen : string := "open".
Definition PullRequestClosed : string := "closed".

Record Repository := mkRepo {
  rp_InstallationID : Z;
  rp_ID : Z;
  rp_Owner : string;
  rp_Name : string;
}.

#[export] Instance Repository_eq_dec : EqDecision Repository.
Proof. solve_decision. Defined.

Definition validRepository (r : Repository) : bool :=
  negb ((rp_InstallationID r <=? 0) || (rp_ID r <=? 0) || negb (re_match ownerPattern (rp_Owner r)) ||
        negb (re_match namePattern (rp_Name r)) || String.eqb (rp_Name r) "." || String.eqb (rp_Name r) ".." ||
        equal_fold (rp_Name r) ".git" || has_suffix ".git" (to_lower (rp_Name r))).

Record Publication := mkPublication {
  pb_OperationID : string;
  pb_BindingID : string;
  pb_Repository : Repository;
  pb_TargetRef : string;
  pb_BaseRevision : string;
  pb_WriteBaseRevision : string;
  pb_CandidateRef : string;
  pb_CandidateRevision : string;
  pb_PullRequestNumber : Z;
  pb_PullRequestURL : string;
  pb_PullRequestState : string;
  pb_MergeRevision : string;
  pb_TargetRevision : string;
  pb_State : State;
  pb_ProviderObservedAt : option Time;
  pb_CreatedAt : Time;
  pb_UpdatedAt : Time;
  pb_Version : Z;
}.

#[export] Instance Publication_eq_dec : EqDecision Publication.
Proof. solve_decision. Defined.

Definition zeroPublication : Publication :=
  mkPublication "" "" (mkRepo 0 0 "" "") "" "" "" "" "" 0 "" "" "" "" StatePendingCandidate None zero_time zero_time 0.

(** * Validity *)

Definition candidateRefPrefix : string := "refs/heads/kuberploy/operations/".

Definition CandidateRef (operationID : string) : res PubErr string :=
  guard! validUUID operationID else ErrInvalid in Ok (candidateRefPrefix +:+ operationID).

(** [url.Parse] with scheme [https], host [github.com], no user, no query, no
    fragment and the wanted escaped path.  The wanted path needs no escaping
    when the repository is valid, so it has to be written literally; the scheme
    may be in any case, and an empty query and an empty fragment go unnoticed. *)
Definition validPullRequestURL (repository : Repository) (number : Z) (value : string) : bool :=
  let want := "/" +:+ rp_Owner repository +:+ "/" +:+ rp_Name repository +:+ "/pull/" +:+ format_int number in
  String.eqb (to_lower (str_take 5 value)) "https" &&
  str_in (str_drop 5 value) (map (λ rest, "://github.com" +:+ want +:+ rest) [""; "?"; "#"; "?#"]).

Definition is_empty (s : string) : bool := String.eqb s "".

(** What each state has of a publication: [p.State]'s case of [Validate]. *)
Definition noPullRequest (p : Publication) : bool :=
  (pb_PullRequestNumber p =? 0) && is_empty (pb_PullRequestURL p) && is_empty (pb_PullRequestState p) &&
  is_empty (pb_MergeRevision p) && is_empty (pb_TargetRevision p) && negb (bool_decide (is_Some (pb_ProviderObservedAt p))).

Definition observed (p : Publication) : bool :=
  match pb_ProviderObservedAt p with
  | None => false
  | Some at_ => negb (is_zero_time at_) && negb (at_ <? pb_CreatedAt p) && negb (pb_UpdatedAt p <? at_)
  end.

Definition prIdentity (p : Publication) : bool :=
  (0 <? pb_PullRequestNumber p) &&
  validPullRequestURL (pb_Repository p) (pb_PullRequestNumber p) (pb_PullRequestURL p).

Definition withPullRequest (p : Publication) (state : string) : bool :=
  validCommit (pb_WriteBaseRevision p) && validCommit (pb_CandidateRevision p) && prIdentity p &&
  String.eqb (pb_PullRequestState p) state && observed p.

Definition validState (p : Publication) : bool :=
  match pb_State p with
  | StatePendingCandidate =>
      is_empty (pb_WriteBaseRevision p) && is_empty (pb_CandidateRevision p) && noPullRequest p
  | StateWriteBaseReady =>
      validCommit (pb_WriteBaseRevision p) && is_empty (pb_CandidateRevision p) && noPullRequest p
  | StateCandidateReady =>
      validCommit (pb_WriteBaseRevision p) && validCommit (pb_CandidateRevision p) && noPullRequest p
  | StatePullRequestOpen =>
      withPullRequest p PullRequestOpen && is_empty (pb_MergeRevision p) && is_empty (pb_TargetRevision p)
  | StatePullRequestClosed =>
      withPullRequest p PullRequestClosed && is_empty (pb_MergeRevision p) && is_empty (pb_TargetRevision p)
  | StateMergePending =>
      withPullRequest p PullRequestClosed && validCommit (pb_MergeRevision p) && is_empty (pb_TargetRevision p)
  | StateMergeVerified =>
      withPullRequest p PullRequestClosed && validCommit (pb_MergeRevision p) && validCommit (pb_TargetRevision p)
  end.

(** [Publication.Validate], as a predicate. *)
Definition Validate (p : Publication) : bool :=
  match CandidateRef (pb_OperationID p) with
  | Err _ => false
  | Ok derived =>
      negb (negb (validUUID (pb_BindingID p)) || negb (validRepository (pb_Repository p)) ||
            negb (validRef (pb_TargetRef p)) || negb (String.eqb (pb_CandidateRef p) derived) ||
            String.eqb (pb_CandidateRef p) (pb_TargetRef p) || negb (validCommit (pb_BaseRevision p)) ||
            is_zero_time (pb_CreatedAt p) || is_zero_time (pb_UpdatedAt p) ||
            (pb_UpdatedAt p <? pb_CreatedAt p) || (pb_Version p <=? 0)) &&
      validState p
  end.

(** A value with the verdict on it: [return next, next.Validate()]. *)
Definition validated (p : Publication) : res PubErr Publication :=
  guard! Validate p else ErrInvalid in Ok p.

Definition NewPublication (operationID bindingID : string) (repository : Repository)
    (targetRef baseRevision : string) (now : Time) : res PubErr Publication :=
  let* candidateRef := CandidateRef operationID in
  validated (mkPublication operationID bindingID repository targetRef baseRevision "" candidateRef "" 0 "" ""
    "" "" StatePendingCandidate None now now 1).

Definition DesiredRevision (p : Publication) : option string :=
  if negb (bool_decide (pb_State p = StateMergeVerified)) || negb (validCommit (pb_TargetRevision p))
  then None else Some (pb_TargetRevision p).

(** * Observations of the provider ([provider.go]) *)

Record PullRequestObservation := mkObservation {
  ob_Repository : Repository;
  ob_Number : Z;
  ob_URL : string;
  ob_TargetRef : string;
  ob_HeadRef : string;
  ob_HeadRevision : string;
  ob_State : string;
  ob_Merged : bool;
  ob_MergeRevision : string;
  ob_ObservedAt : Time;
}.

Definition observationFor (o : PullRequestObservation) (p : Publication) : bool :=
  negb (negb (Validate p) || negb (bool_decide (ob_Repository o = pb_Repository p)) || (ob_Number o <=? 0) ||
        negb (validPullRequestURL (ob_Repository o) (ob_Number o) (ob_URL o)) ||
        negb (String.eqb (ob_TargetRef o) (pb_TargetRef p)) ||
        negb (String.eqb (ob_HeadRef o) (pb_CandidateRef p)) ||
        negb (String.eqb (ob_HeadRevision o) (pb_CandidateRevision p)) || is_zero_time (ob_ObservedAt o) ||
        (ob_ObservedAt o <? pb_CreatedAt p) || negb (str_in (ob_State o) [PullRequestOpen; PullRequestClosed])) &&
  (if ob_Merged o
   then String.eqb (ob_State o) PullRequestClosed && validCommit (ob_MergeRevision o)
   else is_empty (ob_MergeRevision o)) &&
  negb ((0 <? pb_PullRequestNumber p) &&
        (negb (pb_PullRequestNumber p =? ob_Number o) || negb (String.eqb (pb_PullRequestURL p) (ob_URL o)))).

Record TargetHeadObservation := mkHead {
  th_Repository : Repository;
  th_TargetRef : string;
  th_Revision : string;
  th_ObservedAt : Time;
}.

Definition headFor (o : TargetHeadObservation) (p : Publication) : bool :=
  negb (negb (Validate p) || negb (bool_decide (th_Repository o = pb_Repository p)) ||
        negb (String.eqb (th_TargetRef o) (pb_TargetRef p)) || negb (validCommit (th_Revision o)) ||
        is_zero_time (th_ObservedAt o) || (th_ObservedAt o <? pb_CreatedAt p) ||
        match pb_ProviderObservedAt p with Some at_ => th_ObservedAt o <? at_ | None => false end).

(** * Steps *)

Definition WithWriteBase (p : Publication) (revision : string) (now : Time) : res PubErr Publication :=
  guard! negb (negb (validCommit revision) || is_zero_time now || (now <? pb_UpdatedAt p)) else ErrInvalid in
  if negb (bool_decide (pb_State p = StatePendingCandidate)) then
    guard! String.eqb (pb_WriteBaseRevision p) revision else ErrConflict in Ok p
  else
    validated (mkPublication (pb_OperationID p) (pb_BindingID p) (pb_Repository p) (pb_TargetRef p)
      (pb_BaseRevision p) revision (pb_CandidateRef p) (pb_CandidateRevision p) (pb_PullRequestNumber p)
      (pb_PullRequestURL p) (pb_PullRequestState p) (pb_MergeRevision p) (pb_TargetRevision p)
      StateWriteBaseReady (pb_ProviderObservedAt p) (pb_CreatedAt p) now (i64 (pb_Version p + 1))).

Definition WithCandidate (p : Publication) (revision : string) (now : Time) : res PubErr Publication :=
  guard! negb (negb (validCommit revision) || is_zero_time now || (now <? pb_UpdatedAt p)) else ErrInvalid in
  if negb (bool_decide (pb_State p = StateWriteBaseReady)) then
    guard! String.eqb (pb_CandidateRevision p) revision else ErrConflict in Ok p
  else
    validated (mkPublication (pb_OperationID p) (pb_BindingID p) (pb_Repository p) (pb_TargetRef p)
      (pb_BaseRevision p) (pb_WriteBaseRevision p) (pb_CandidateRef p) revision (pb_PullRequestNumber p)
      (pb_PullRequestURL p) (pb_PullRequestState p) (pb_MergeRevision p) (pb_TargetRevision p)
      StateCandidateReady (pb_ProviderObservedAt p) (pb_CreatedAt p) now (i64 (pb_Version p + 1))).

(** The state an observation leads to, with the merge revision it gives. *)
Definition observedState (o : PullRequestObservation) : option (State * string) :=
  if String.eqb (ob_State o) PullRequestOpen && negb (ob_Merged o) then Some (StatePullRequestOpen, "")
  else if String.eqb (ob_State o) PullRequestClosed && negb (ob_Merged o) then Some (StatePullRequestClosed, "")
  else if String.eqb (ob_State o) PullRequestClosed && ob_Merged o then Some (StateMergePending, ob_MergeRevision o)
  else None.

Definition WithPullRequest (p : Publication) (o : PullRequestObservation) (now : Time) : res PubErr Publication :=
  guard! negb (bool_decide (pb_State p = StatePendingCandidate) || bool_decide (pb_State p = StateMergeVerified) ||
               is_zero_time now || (now <? pb_UpdatedAt p) || negb (observationFor o p)) else ErrProviderMismatch in
  guard! negb match pb_ProviderObservedAt p with Some at_ => ob_ObservedAt o <? at_ | None => false end
    else ErrProviderMismatch in
  guard! negb (negb (is_empty (pb_MergeRevision p)) &&
               (negb (ob_Merged o) || negb (String.eqb (ob_MergeRevision o) (pb_MergeRevision p))))
    else ErrProviderMismatch in
  match observedState o with
  | None => Err ErrProviderMismatch
  | Some (state, mergeRevision) =>
      validated (mkPublication (pb_OperationID p) (pb_BindingID p) (pb_Repository p) (pb_TargetRef p)
        (pb_BaseRevision p) (pb_WriteBaseRevision p) (pb_CandidateRef p) (pb_CandidateRevision p) (ob_Number o)
        (ob_URL o) (ob_State o) mergeRevision "" state (Some (ob_ObservedAt o)) (pb_CreatedAt p) now
        (i64 (pb_Version p + 1)))
  end.

Definition WithVerifiedMerge (p : Publication) (targetRevision : string) (now : Time) : res PubErr Publication :=
  guard! negb (negb (bool_decide (pb_State p = StateMergePending)) || negb (validCommit targetRevision) ||
               is_zero_time now || (now <? pb_UpdatedAt p)) else ErrInvalid in
  validated (mkPublication (pb_OperationID p) (pb_BindingID p) (pb_Repository p) (pb_TargetRef p)
    (pb_BaseRevision p) (pb_WriteBaseRevision p) (pb_CandidateRef p) (pb_CandidateRevision p)
    (pb_PullRequestNumber p) (pb_PullRequestURL p) (pb_PullRequestState p) (pb_MergeRevision p) targetRevision
    StateMergeVerified (pb_ProviderObservedAt p) (pb_CreatedAt p) now (i64 (pb_Version p + 1))).

(** * Transitions *)

Definition validStateChange (previous next : State) : bool :=
  match previous, next with
  | StatePendingCandidate, StateWriteBaseReady | StateWriteBaseReady, StateCandidateReady => true
  | (StateCandidateReady | StatePullRequestOpen | StatePullRequestClosed),
    (StatePullRequestOpen | StatePullRequestClosed | StateMergePending) => true
  | StateMergePending, (StateMergePending | StateMergeVerified) => true
  | StateMergeVerified, StateMergeVerified => true
  | _, _ => false
  end.

(** What was set stays as it is: [previous != "" && next != previous] refused. *)
Definition kept (previous next : string) : bool := is_empty previous || String.eqb next previous.

Definition ValidateTransition (previous next : Publication) : bool :=
  negb (negb (Validate previous) || negb (Validate next) ||
        negb (String.eqb (pb_OperationID previous) (pb_OperationID next)) ||
        negb (String.eqb (pb_BindingID previous) (pb_BindingID next)) ||
        negb (bool_decide (pb_Repository previous = pb_Repository next)) ||
        negb (String.eqb (pb_TargetRef previous) (pb_TargetRef next)) ||
        negb (String.eqb (pb_BaseRevision previous) (pb_BaseRevision next)) ||
        negb (String.eqb (pb_CandidateRef previous) (pb_CandidateRef next)) ||
        negb (pb_CreatedAt previous =? pb_CreatedAt next) ||
        negb (pb_Version next =? i64 (pb_Version previous + 1)) ||
        negb (kept (pb_WriteBaseRevision previous) (pb_WriteBaseRevision next)) ||
        negb (kept (pb_CandidateRevision previous) (pb_CandidateRevision next)) ||
        (0 <? pb_PullRequestNumber previous) &&
          (negb (pb_PullRequestNumber next =? pb_PullRequestNumber previous) ||
           negb (String.eqb (pb_PullRequestURL next) (pb_PullRequestURL previous))) ||
        negb (kept (pb_MergeRevision previous) (pb_MergeRevision next)) ||
        negb (kept (pb_TargetRevision previous) (pb_TargetRevision next))) &&
  validStateChange (pb_State previous) (pb_State next).

(** * What the pull request says *)

Definition PullRequestTitle (operationID : string) : res PubErr string :=
  guard! validUUID operationID else ErrInvalid in Ok ("kuberploy: publish operation " +:+ operationID).

Definition newline : string := String "010" "".

Definition PullRequestBody (p : Publication) : res PubErr string :=
  guard! negb (negb (Validate p) || negb (validCommit (pb_CandidateRevision p))) else ErrInvalid in
  Ok ("Kuberploy-Operation: " +:+ pb_OperationID p +:+ newline +:+
      "Kuberploy-Binding: " +:+ pb_BindingID p +:+ newline +:+
      "Kuberploy-Candidate: " +:+ pb_CandidateRevision p).

(** * The store ([store.go]: [MemoryStore])

    [samePublication] compares every field, and [clonePublication] copies the
    one pointer; on values both are nothing but equality and identity. *)

Abbreviation MemoryStore := (gmap string Publication).
Definition NewMemoryStore : MemoryStore := ∅.

Definition samePublication (left right : Publication) : bool := bool_decide (left = right).

Definition CreatePublication (s : MemoryStore) (p : Publication) : res PubErr MemoryStore :=
  guard! negb (negb (Validate p) || negb (bool_decide (pb_State p = StatePendingCandidate)) ||
               negb (pb_Version p =? 1)) else ErrInvalid in
  match s !! pb_OperationID p with
  | Some current => guard! samePublication current p else ErrConflict in Ok s
  | None => Ok (<[pb_OperationID p := p]> s)
  end.

Definition PublicationOf (s : MemoryStore) (operationID : string) : res PubErr Publication :=
  guard! validUUID operationID else ErrInvalid in
  match s !! operationID with
  | None => Err ErrNotFound
  | Some p => guard! Validate p else ErrInvalid in Ok p
  end.

Definition CompareAndSwapPublication (s : MemoryStore) (previous next : Publication) : res PubErr MemoryStore :=
  guard! ValidateTransition previous next else ErrInvalid in
  match s !! pb_OperationID previous with
  | None => Err ErrNotFound
  | Some current =>
      guard! samePublication current previous else ErrConflict in
      Ok (<[pb_OperationID next := next]> s)
  end.

Definition pending (p : Publication) : bool :=
  bool_decide (pb_State p ∈ [StatePullRequestOpen; StatePullRequestClosed; StateMergePending]).

Definition olderPublication (a b : Publication) : bool :=
  if pb_UpdatedAt a =? pb_UpdatedAt b then str_less (pb_OperationID a) (pb_OperationID b)
  else pb_UpdatedAt a <? pb_UpdatedAt b.

Definition PendingPublications `{MapOrder} (s : MemoryStore) (limit : Z) : res PubErr (list Publication) :=
  guard! negb ((limit <=? 0) || (100 <? limit)) else ErrInvalid in
  Ok (take (Z.to_nat limit) (sort_slice olderPublication (List.filter pending (map snd (range 0 s))))).

Definition RecoverVerifiedPublications (s : MemoryStore) (limit : Z) : res PubErr Z :=
  guard! negb ((limit <=? 0) || (100 <? limit)) else ErrInvalid in Ok 0.

(** * What holds of the state machine *)

#[local] Opaque re_match validUUID validCommit validRef validRepository validPullRequestURL.

(** * Boolean guards *)

Lemma negb_orb_true a b : negb (a || b) = true ↔ a = false ∧ b = false.
Proof. destruct a, b; naive_solver. Qed.

Lemma is_empty_true s : is_empty s = true ↔ s = "".
Proof. apply String.eqb_eq. Qed.

Lemma kept_true a b : kept a b = true ↔ a = "" ∨ b = a.
Proof. unfold kept. by rewrite orb_true_iff, is_empty_true, String.eqb_eq. Qed.

Lemma validated_ok p q : validated p = Ok q → q = p ∧ Validate p = true.
Proof. unfold validated. destruct (Validate p); [|done]. by intros [= <-]. Qed.

Lemma validCommit_empty : validCommit "" = false.
Proof. reflexivity. Qed.

(** * What a valid publication has *)

Lemma Validate_state p : Validate p = true → validState p = true.
Proof. unfold Validate. destruct (CandidateRef _); [|done]. intros [_ ?]%andb_true_iff. done. Qed.

Lemma Validate_version p : Validate p = true → 0 < pb_Version p.
Proof.
  unfold Validate. destruct (CandidateRef _); [|done]. intros [Hn _]%andb_true_iff.
  rewrite !negb_orb_true in Hn. lia.
Qed.

(** Nothing of a pull request before there is one, and no target revision before
    it was verified. *)
Lemma valid_unset p :
  Validate p = true →
  (pb_State p = StatePendingCandidate → pb_WriteBaseRevision p = "") ∧
  (pb_State p ∈ [StatePendingCandidate; StateWriteBaseReady] → pb_CandidateRevision p = "") ∧
  (pb_State p ∈ [StatePendingCandidate; StateWriteBaseReady; StateCandidateReady] →
     pb_PullRequestNumber p = 0 ∧ pb_MergeRevision p = "") ∧
  (pb_State p ≠ StateMergeVerified → pb_TargetRevision p = "") ∧
  (pb_State p ∈ [StatePullRequestOpen; StatePullRequestClosed] → pb_MergeRevision p = "").
Proof.
  intros Hs%Validate_state. unfold validState, withPullRequest, noPullRequest in Hs.
  destruct (pb_State p); rewrite !andb_true_iff, ?is_empty_true, ?Z.eqb_eq in Hs; set_solver.
Qed.

(** * Steps are transitions *)

Inductive publication_step (p : Publication) : Publication → Prop :=
| step_write_base revision now q : WithWriteBase p revision now = Ok q → publication_step p q
| step_candidate revision now q : WithCandidate p revision now = Ok q → publication_step p q
| step_pull_request o now q : WithPullRequest p o now = Ok q → publication_step p q
| step_verified_merge revision now q : WithVerifiedMerge p revision now = Ok q → publication_step p q.

(** A transition whose changes are the ones given. *)
Lemma transition_intro p q :
  Validate p = true → Validate q = true →
  pb_OperationID p = pb_OperationID q → pb_BindingID p = pb_BindingID q → pb_Repository p = pb_Repository q →
  pb_TargetRef p = pb_TargetRef q → pb_BaseRevision p = pb_BaseRevision q → pb_CandidateRef p = pb_CandidateRef q →
  pb_CreatedAt p = pb_CreatedAt q → pb_Version q = i64 (pb_Version p + 1) →
  (pb_WriteBaseRevision p = "" ∨ pb_WriteBaseRevision q = pb_WriteBaseRevision p) →
  (pb_CandidateRevision p = "" ∨ pb_CandidateRevision q = pb_CandidateRevision p) →
  (0 < pb_PullRequestNumber p →
     pb_PullRequestNumber q = pb_PullRequestNumber p ∧ pb_PullRequestURL q = pb_PullRequestURL p) →
  (pb_MergeRevision p = "" ∨ pb_MergeRevision q = pb_MergeRevision p) →
  (pb_TargetRevision p = "" ∨ pb_TargetRevision q = pb_TargetRevision p) →
  validStateChange (pb_State p) (pb_State q) = true →
  ValidateTransition p q = true.
Proof.
  intros Hp Hq Hid Hb Hr Ht Hbase Hc Hcr Hv Hw Hca Hpr Hm Htr Hs.
  unfold ValidateTransition. rewrite Hs, andb_true_r, Hp, Hq, Hid, Hb, Ht, Hbase, Hc, Hcr, Hv.
  rewrite !String.eqb_refl, !Z.eqb_refl, (bool_decide_eq_true_2 _ Hr).
  rewrite (proj2 (kept_true _ _) Hw), (proj2 (kept_true _ _) Hca), (proj2 (kept_true _ _) Hm),
    (proj2 (kept_true _ _) Htr). simpl.
  destruct (Z.ltb_spec 0 (pb_PullRequestNumber p)) as [Hn|Hn]; [|done].
  destruct (Hpr Hn) as [-> ->]. by rewrite Z.eqb_refl, String.eqb_refl.
Qed.

Lemma step_transition_revision p q (Hp : Validate p = true) :
  (∃ revision now, WithWriteBase p revision now = Ok q ∨ WithCandidate p revision now = Ok q ∨
     WithVerifiedMerge p revision now = Ok q) →
  q = p ∨ ValidateTransition p q = true.
Proof.
  destruct (valid_unset p Hp) as (Hw & Hc & Hpr & Ht & Hm).
  intros (revision & now & [H|[H|H]]);
    [unfold WithWriteBase in H|unfold WithCandidate in H|unfold WithVerifiedMerge in H];
    repeat break_match_hyp H; inv_res; bool_prop; try (by left); right;
    apply validated_ok in H as [-> Hv]; apply transition_intro; simpl; try done; auto;
    match goal with E : pb_State p = _ |- _ => rewrite E in *; simpl in * end; auto;
    left; apply Hc || apply Ht; set_solver.
Qed.

(** What an observation that fits says. *)
Lemma observationFor_fields o p :
  observationFor o p = true →
  ob_Repository o = pb_Repository p ∧ ob_HeadRevision o = pb_CandidateRevision p ∧
  ob_HeadRef o = pb_CandidateRef p ∧ ob_TargetRef o = pb_TargetRef p ∧
  (ob_Merged o = true → validCommit (ob_MergeRevision o) = true) ∧
  (0 < pb_PullRequestNumber p → ob_Number o = pb_PullRequestNumber p ∧ ob_URL o = pb_PullRequestURL p).
Proof.
  unfold observationFor. intros [[Hn Hm]%andb_true_iff Hp]%andb_true_iff.
  apply negb_true_iff in Hn. bool_prop. split_and!; [done..| |].
  - intros E. rewrite E in Hm. by bool_prop.
  - intros Hpos. apply Z.ltb_lt in Hpos. rewrite Hpos in Hp. simpl in Hp.
    apply negb_true_iff in Hp. bool_prop. done.
Qed.

Lemma observedState_cases o state revision :
  observedState o = Some (state, revision) →
  (state = StatePullRequestOpen ∨ state = StatePullRequestClosed) ∧ revision = "" ∧ ob_Merged o = false ∨
  state = StateMergePending ∧ revision = ob_MergeRevision o ∧ ob_Merged o = true.
Proof.
  unfold observedState.
  destruct (String.eqb (ob_State o) PullRequestOpen), (String.eqb (ob_State o) PullRequestClosed), (ob_Merged o);
    simpl; naive_solver.
Qed.

(** The states a publication leaves through an observation. *)
Lemma observed_change p o now q :
  Validate p = true → WithPullRequest p o now = Ok q →
  validStateChange (pb_State p) (pb_State q) = true ∧
  (pb_MergeRevision p = "" ∨ pb_MergeRevision q = pb_MergeRevision p).
Proof.
  intros Hp H. destruct (valid_unset p Hp) as (_ & Hc & Hpr & _ & Hm).
  unfold WithPullRequest in H. repeat break_match_hyp H; inv_res.
  apply validated_ok in H as [-> Hv]. simpl.
  pose proof (Validate_state _ Hp) as Hsp. apply Validate_state in Hv.
  unfold validState, withPullRequest in Hv, Hsp. simpl in Hv.
  match goal with E : observedState o = Some _ |- _ => apply observedState_cases in E as Hcase end.
  destruct (pb_State p) eqn:Es; try (exfalso; bool_prop; done); simpl in *.
  - exfalso. rewrite (Hc ltac:(set_solver)), validCommit_empty in Hv.
    destruct Hcase as [([->| ->] & _)|(-> & _)]; simpl in Hv; bool_prop; congruence.
  - destruct (Hpr ltac:(set_solver)) as [_ ->].
    destruct Hcase as [([->| ->] & _)|(-> & _)]; (split; [done|by left]).
  - rewrite (Hm ltac:(set_solver)). destruct Hcase as [([->| ->] & _)|(-> & _)]; (split; [done|by left]).
  - rewrite (Hm ltac:(set_solver)). destruct Hcase as [([->| ->] & _)|(-> & _)]; (split; [done|by left]).
  - assert (is_empty (pb_MergeRevision p) = false) as He.
    { apply not_true_iff_false. intros E%is_empty_true. rewrite E, validCommit_empty in Hsp. bool_prop. done. }
    match goal with E : negb (negb (is_empty _) && _) = true |- _ => rewrite He in E; simpl in E; rename E into Hk end.
    destruct Hcase as [(_ & _ & Hmerged)|(-> & -> & Hmerged)]; rewrite Hmerged in Hk; [done|].
    simpl in Hk. rewrite negb_involutive in Hk. apply String.eqb_eq in Hk. by split; [|right].
Qed.

(** Every step of a publication - a write base, a candidate, an observation of
    its pull request, a verified merge - either repeats what is there already
    or makes a valid publication that the store accepts as its next version. *)
Theorem publication_step_valid p q :
  Validate p = true → publication_step p q → q = p ∨ ValidateTransition p q = true.
Proof.
  intros Hp [revision now q' H|revision now q' H|o now q' H|revision now q' H];
    try (apply step_transition_revision; [done|]; eauto; fail).
  right. destruct (observed_change _ _ _ _ Hp H) as [Hs Hm]. destruct (valid_unset p Hp) as (_ & _ & _ & Ht & _).
  unfold WithPullRequest in H. repeat break_match_hyp H; inv_res. bool_prop.
  apply validated_ok in H as [-> Hv].
  match goal with E : observationFor o p = true |- _ => destruct (observationFor_fields _ _ E) as (_&_&_&_&_&Hn) end.
  apply transition_intro; simpl; auto.
Qed.
