(* ===== verification/PublicationService.v ===== *)
(** The service and the reconciler of protected publications
    ([internal/gitpublication/service.go] and [reconciler.go]).

    The store, the provider and the clock are interfaces.  They act on a world
    [W] that stands for everything outside the service: the rows of the store,
    the repository at the provider, and what other workers do to both while a
    call is out.  [memory_store] makes [MemoryStore] an instance.  A service
    without a store or a provider, and a reconciler that polls too often or too
    seldom, refuse every call; they are not modelled. *)

From S2P Require Import Prelude Regexp GoStrings Publications.

Open Scope Z_scope.

(** * Requests to the provider *)

Record CreatePullRequestRequest := mkCreatePR {
  cr_Repository : Repository;
  cr_TargetRef : string;
  cr_HeadRef : string;
  cr_HeadSHA : string;
  cr_Title : string;
  cr_Body : string;
}.

Record FindPullRequestRequest := mkFindPR {
  fr_Repository : Repository;
  fr_TargetRef : string;
  fr_HeadRef : string;
  fr_HeadSHA : string;
}.

Record GetPullRequestRequest := mkGetPR {
  gp_Repository : Repository;
  gp_Number : Z;
}.

(** * Interfaces *)

Class Store (W : Type) := {
  Fetch : W → string → W * res PubErr Publication;
  Swap : W → Publication → Publication → W * option PubErr;
  Pending : W → Z → W * res PubErr (list Publication);
  Recover : W → Z → W * res PubErr Z;
}.

Class Provider (W : Type) := {
  CreatePullRequest : W → CreatePullRequestRequest → W * res PubErr PullRequestObservation;
  FindPullRequest : W → FindPullRequestRequest → W * res PubErr (PullRequestObservation * bool);
  GetPullRequest : W → GetPullRequestRequest → W * res PubErr PullRequestObservation;
  ResolveTargetHead : W → Repository → string → W * res PubErr TargetHeadObservation;
  IsAncestor : W → Repository → string → string → W * res PubErr bool;
}.

(** [Service.Now], and [Service.VerifiedMerge], which need not be there. *)
Class Clock (W : Type) := Now : W → W * Time.
Class Refresher (W : Type) :=
  VerifiedMerge : option (W → Publication → TargetHeadObservation → W * option PubErr).

(** What a method returns: a publication and an error, either of them the zero
    value. *)
Definition answer : Type := Publication * option PubErr.

Definition refuse (e : PubErr) : answer := (zeroPublication, Some e).
Definition give (p : Publication) : answer := (p, None).

(** [let! x, w := m in k]: [m] changes the world; an error is returned. *)
Notation "'let!' x , w ':=' m 'in' k" :=
  (let '(w, r) := m in match r with Err e => (w, refuse e) | Ok x => k end)
  (at level 200, x name, w name, m at level 100, k at level 200, right associativity).

Section service.
Context {W : Type} `{!Store W, !Provider W, !Clock W, !Refresher W}.

(** [s.Store.CompareAndSwapPublication], whose error leaves [failed]. *)
Definition swap (w : W) (current next failed : Publication) : W * answer :=
  let '(w, e) := Swap w current next in
  match e with
  | Some e => (w, (failed, Some e))
  | None => (w, give next)
  end.

(** The part [RecordCandidate] and [RecordWriteBase] share. *)
Definition record (step : Publication → string → Time → res PubErr Publication)
    (w : W) (operationID revision : string) : W * answer :=
  let! current, w := Fetch w operationID in
  let '(w, now) := Now w in
  match step current revision now with
  | Err e => (w, refuse e)
  | Ok next =>
      if pb_Version next =? pb_Version current then (w, give current)
      else swap w current next zeroPublication
  end.

Definition RecordCandidate := record WithCandidate.
Definition RecordWriteBase := record WithWriteBase.

Definition verifyMerge (w : W) (current : Publication) : W * answer :=
  let '(w, r) := ResolveTargetHead w (pb_Repository current) (pb_TargetRef current) in
  match r with
  | Err e => (w, (current, Some e))
  | Ok head =>
  if negb (headFor head current) then (w, (current, Some ErrProviderMismatch)) else
  let '(w, now) := Now w in
  if now <? th_ObservedAt head then (w, (current, Some ErrProviderMismatch)) else
  let '(w, r) := IsAncestor w (pb_Repository current) (pb_MergeRevision current) (th_Revision head) in
  match r with
  | Err e => (w, (current, Some e))
  | Ok present =>
  if negb present then (w, (current, Some ErrMergeNotVisible)) else
  let '(w, now) := Now w in
  match WithVerifiedMerge current (th_Revision head) now with
  | Err e => (w, (current, Some e))
  | Ok next =>
  let '(w, e) :=
    match VerifiedMerge with
    | Some RefreshVerifiedMerge => RefreshVerifiedMerge w next head
    | None => (w, None)
    end in
  match e with
  | Some e => (w, (current, Some e))
  | None => swap w current next current
  end end end end.

Definition applyObservation (w : W) (current : Publication) (o : PullRequestObservation) : W * answer :=
  let '(w, now) := Now w in
  if now <? ob_ObservedAt o then (w, refuse ErrProviderMismatch) else
  match WithPullRequest current o now with
  | Err e => (w, refuse e)
  | Ok next =>
      let '(w, e) := Swap w current next in
      match e with
      | Some e => (w, refuse e)
      | None =>
          if negb (bool_decide (pb_State next = StateMergePending)) then (w, give next)
          else verifyMerge w next
      end
  end.

Definition findRequest (current : Publication) : FindPullRequestRequest :=
  mkFindPR (pb_Repository current) (pb_TargetRef current) (pb_CandidateRef current) (pb_CandidateRevision current).

Definition createRequest (current : Publication) (title body : string) : CreatePullRequestRequest :=
  mkCreatePR (pb_Repository current) (pb_TargetRef current) (pb_CandidateRef current)
    (pb_CandidateRevision current) title body.

(** Title, body and creation: the first error of the three. *)
Definition create (w : W) (current : Publication) : W * res PubErr PullRequestObservation :=
  match PullRequestTitle (pb_OperationID current) with
  | Err e => (w, Err e)
  | Ok title =>
      match PullRequestBody current with
      | Err e => (w, Err e)
      | Ok body => CreatePullRequest w (createRequest current title body)
      end
  end.

(** The pull request of the candidate: the one that is there, or else a new
    one; when the creation fails, the lookup is repeated. *)
Definition locate (w : W) (current : Publication) : W * res PubErr PullRequestObservation :=
  let '(w, r) := FindPullRequest w (findRequest current) in
  match r with
  | Err e => (w, Err e)
  | Ok (o, true) => (w, Ok o)
  | Ok (_, false) =>
      let '(w, r) := create w current in
      match r with
      | Ok o => (w, Ok o)
      | Err createErr =>
          let '(w, r) := FindPullRequest w (findRequest current) in
          match r with
          | Err e => (w, Err (Joined createErr e))
          | Ok (_, false) => (w, Err createErr)
          | Ok (o, true) => (w, Ok o)
          end
      end
  end.

Definition EnsurePullRequest (w : W) (operationID : string) : W * answer :=
  let! current, w := Fetch w operationID in
  if bool_decide (pb_State current ∈ [StatePendingCandidate; StateWriteBaseReady])
  then (w, refuse ErrConflict)
  else if bool_decide (pb_State current = StateMergeVerified) then (w, give current)
  else
    let! o, w :=
      if 0 <? pb_PullRequestNumber current
      then GetPullRequest w (mkGetPR (pb_Repository current) (pb_PullRequestNumber current))
      else locate w current in
    applyObservation w current o.

Definition Observe (w : W) (operationID : string) : W * answer :=
  let! current, w := Fetch w operationID in
  if pb_PullRequestNumber current =? 0 then (w, refuse ErrConflict) else
  let! o, w := GetPullRequest w (mkGetPR (pb_Repository current) (pb_PullRequestNumber current)) in
  applyObservation w current o.

(** * The reconciler *)

Definition join (errors : option PubErr) (e : PubErr) : option PubErr :=
  match errors with None => Some e | Some errors => Some (Joined errors e) end.

Fixpoint observeAll (w : W) (publications : list Publication) (observed : Z) (errors : option PubErr)
    : W * (Z * option PubErr) :=
  match publications with
  | [] => (w, (observed, errors))
  | p :: rest =>
      let '(w, (_, e)) := Observe w (pb_OperationID p) in
      match e with
      | None => observeAll w rest (observed + 1) errors
      | Some e => observeAll w rest observed (if IsConflict e then errors else join errors e)
      end
  end.

Definition RunOnce (w : W) (batch : Z) : W * (Z * option PubErr) :=
  if (batch <? 1) || (100 <? batch) then (w, (0, Some ErrInvalid)) else
  let '(w, r) := Recover w batch in
  match r with
  | Err e => (w, (0, Some e))
  | Ok recovered =>
      let '(w, r) := Pending w batch in
      match r with
      | Err e => (w, (0, Some e))
      | Ok publications =>
          let '(w, (observed, errors)) := observeAll w publications 0 None in
          (w, (recovered + observed, errors))
      end
  end.

End service.

(** * The memory store as an instance

    A world that holds a [MemoryStore] beside whatever else it holds. *)

Record MemoryWorld (R : Type) := mkWorld {
  mw_store : MemoryStore;
  mw_rest : R;
}.
Arguments mkWorld {R}.
Arguments mw_store {R}.
Arguments mw_rest {R}.

#[export] Instance memory_store {R} `{MapOrder} : Store (MemoryWorld R) := {|
  Fetch w operationID := (w, PublicationOf (mw_store w) operationID);
  Swap w previous next :=
    match CompareAndSwapPublication (mw_store w) previous next with
    | Ok s => (mkWorld s (mw_rest w), None)
    | Err e => (w, Some e)
    end;
  Pending w limit := (w, PendingPublications (mw_store w) limit);
  Recover w limit := (w, RecoverVerifiedPublications (mw_store w) limit);
|}.
