(* ===== verification/PublicationSafety.v ===== *)
(** What holds of protected publications: a stored publication only moves
    forward, its desired revision is one the provider vouched for, the service
    does nothing to the store that the store's own operations do not allow, and
    a candidate is given one pull request.

    The service runs beside other workers.  Whatever it calls may find, when it
    returns, that they have stepped in between; [Surroundings] relies on them to
    step as the service itself does. *)

From S2P Require Import Prelude Regexp GoStrings Publications PublicationService.

Open Scope Z_scope.

#[local] Opaque re_match validUUID validCommit validRef validRepository validPullRequestURL.

(** * A later version of a publication *)

Definition phase (state : State) : nat :=
  match state with
  | StatePendingCandidate => 0
  | StateWriteBaseReady => 1
  | StateCandidateReady => 2
  | StatePullRequestOpen | StatePullRequestClosed => 3
  | StateMergePending => 4
  | StateMergeVerified => 5
  end.

Record advances (p q : Publication) : Prop := {
  adv_operation : pb_OperationID q = pb_OperationID p;
  adv_binding : pb_BindingID q = pb_BindingID p;
  adv_repository : pb_Repository q = pb_Repository p;
  adv_target : pb_TargetRef q = pb_TargetRef p;
  adv_base : pb_BaseRevision q = pb_BaseRevision p;
  adv_candidate_ref : pb_CandidateRef q = pb_CandidateRef p;
  adv_created : pb_CreatedAt q = pb_CreatedAt p;
  adv_write_base : pb_WriteBaseRevision p ≠ "" → pb_WriteBaseRevision q = pb_WriteBaseRevision p;
  adv_candidate : pb_CandidateRevision p ≠ "" → pb_CandidateRevision q = pb_CandidateRevision p;
  adv_pull_request : 0 < pb_PullRequestNumber p →
    pb_PullRequestNumber q = pb_PullRequestNumber p ∧ pb_PullRequestURL q = pb_PullRequestURL p;
  adv_merge : pb_MergeRevision p ≠ "" → pb_MergeRevision q = pb_MergeRevision p;
  adv_target_revision : pb_TargetRevision p ≠ "" → pb_TargetRevision q = pb_TargetRevision p;
  adv_phase : (phase (pb_State p) ≤ phase (pb_State q))%nat;
}.

#[export] Instance advances_preorder : PreOrder advances.
Proof.
  split.
  - intros p. by constructor.
  - intros p q r [] []. constructor; try congruence; try lia; try (intros Hne; etrans; [|eauto]; auto; congruence).
    + intros Hne. rewrite <- adv_write_base0 by done. apply adv_write_base1. by rewrite adv_write_base0.
    + intros Hne. rewrite <- adv_candidate0 by done. apply adv_candidate1. by rewrite adv_candidate0.
    + intros Hn. destruct (adv_pull_request0 Hn) as [E1 E2]. rewrite <- E1, <- E2. apply adv_pull_request1. lia.
    + intros Hne. rewrite <- adv_merge0 by done. apply adv_merge1. by rewrite adv_merge0.
    + intros Hne. rewrite <- adv_target_revision0 by done. apply adv_target_revision1. by rewrite adv_target_revision0.
Qed.

Lemma state_change_phase a b : validStateChange a b = true → (phase a ≤ phase b)%nat.
Proof. destruct a, b; simpl; (done || lia). Qed.

Lemma transition_advances p q :
  ValidateTransition p q = true → Validate p = true ∧ Validate q = true ∧ advances p q.
Proof.
  unfold ValidateTransition. intros [Hn Hs]%andb_true_iff. apply negb_true_iff in Hn. bool_prop.
  split_and!; [done|done|]. constructor; try congruence; try by apply state_change_phase.
  all: try (match goal with Hk : kept ?a _ = true |- ?a ≠ _ → _ => apply kept_true in Hk; naive_solver end).
  intros Hpos. match goal with E : (0 <? _) && _ = false |- _ => apply Z.ltb_lt in Hpos; rewrite Hpos in E end.
  simpl in *. bool_prop. done.
Qed.

(** A verified publication keeps its desired revision. *)
Lemma advances_desired p q revision :
  Validate q = true → advances p q → DesiredRevision p = Some revision → DesiredRevision q = Some revision.
Proof.
  unfold DesiredRevision. intros Hq Ha Hd.
  destruct (bool_decide_reflect (pb_State p = StateMergeVerified)) as [Hs|]; [|done]. simpl in Hd.
  destruct (validCommit (pb_TargetRevision p)) eqn:Hc; [|done]. injection Hd as <-.
  pose proof (adv_phase _ _ Ha) as Hp. rewrite Hs in Hp.
  assert (pb_State q = StateMergeVerified) as -> by (destruct (pb_State q); simpl in Hp; done || lia).
  assert (pb_TargetRevision p ≠ "") as Hne by (intros E; by rewrite E, validCommit_empty in Hc).
  by rewrite (adv_target_revision _ _ Ha Hne), Hc.
Qed.

(** * The store and its surroundings *)

Section safety.
Context {W : Type} `{!Store W, !Provider W, !Clock W, !Refresher W} (held : W → MemoryStore).

(** The provider resolved the target branch to the revision and said that it
    contains the merge, and the refresher was done with it. *)
Record vouched (p : Publication) : Prop := {
  vouched_head : ∃ w w' head,
    ResolveTargetHead w (pb_Repository p) (pb_TargetRef p) = (w', Ok head) ∧
    th_Repository head = pb_Repository p ∧ th_TargetRef head = pb_TargetRef p ∧
    th_Revision head = pb_TargetRevision p;
  vouched_ancestor : ∃ w w',
    IsAncestor w (pb_Repository p) (pb_MergeRevision p) (pb_TargetRevision p) = (w', Ok true);
  vouched_refreshed : ∀ refresh, VerifiedMerge = Some refresh → ∃ w w' head, refresh w p head = (w', None);
}.

(** A step of the store: an intent is created, or a version is swapped for the
    next, a verified one only when it was vouched for. *)
Inductive store_step (s s' : MemoryStore) : Prop :=
| stepCreate p : CreatePublication s p = Ok s' → store_step s s'
| stepSwap p q :
    CompareAndSwapPublication s p q = Ok s' →
    (pb_State q = StateMergeVerified → pb_State p = StateMergeVerified ∨ vouched q) → store_step s s'.

Definition evolves : MemoryStore → MemoryStore → Prop := rtc store_step.

Record recorded (s : MemoryStore) : Prop := {
  rec_valid : ∀ k p, s !! k = Some p → Validate p = true ∧ pb_OperationID p = k;
  rec_vouched : ∀ k p, s !! k = Some p → pb_State p = StateMergeVerified →
    ∃ v, vouched v ∧ pb_Repository v = pb_Repository p ∧ pb_TargetRef v = pb_TargetRef p ∧
      pb_MergeRevision v = pb_MergeRevision p ∧ pb_TargetRevision v = pb_TargetRevision p;
}.

Lemma CreatePublication_ok s p s' :
  CreatePublication s p = Ok s' →
  Validate p = true ∧ pb_State p = StatePendingCandidate ∧
  (s' = s ∨ s !! pb_OperationID p = None ∧ s' = <[pb_OperationID p := p]> s).
Proof. unfold CreatePublication. intros H. repeat break_match_hyp H; inv_res; bool_prop; auto. Qed.

Lemma CompareAndSwap_ok s p q s' :
  CompareAndSwapPublication s p q = Ok s' →
  ValidateTransition p q = true ∧ s !! pb_OperationID p = Some p ∧ s' = <[pb_OperationID p := q]> s.
Proof.
  unfold CompareAndSwapPublication. intros H. repeat break_match_hyp H; inv_res; bool_prop.
  match goal with E : samePublication _ _ = true |- _ => apply bool_decide_eq_true in E; subst end.
  match goal with E : ValidateTransition _ _ = true |- _ => destruct (transition_advances _ _ E) as (_&_&Ha) end.
  by rewrite (adv_operation _ _ Ha).
Qed.

Lemma store_step_recorded s s' : recorded s → store_step s s' → recorded s'.
Proof.
  intros [Hv Hw] [p Hc|p q Hc Hvouch].
  - apply CreatePublication_ok in Hc as (Hp & Hs & [->|[_ ->]]); [done|].
    split; intros k r [[<- <-]|[_ Hk]]%lookup_insert_Some; eauto. congruence.
  - apply CompareAndSwap_ok in Hc as (Ht & Hp & ->).
    destruct (transition_advances _ _ Ht) as (_ & Hq & Ha).
    split; intros k r [[<- <-]|[_ Hk]]%lookup_insert_Some; eauto.
    + split; [done|]. by rewrite (adv_operation _ _ Ha).
    + intros Hsq. destruct (Hvouch Hsq) as [Hsp|?]; [|by exists q].
      destruct (Hw _ _ Hp Hsp) as (v & Hv' & Hrv & Htv & Hm & Htr).
      exists v. apply Validate_state in Hq as Hsq'. destruct (Hv _ _ Hp) as [Hpv _].
      apply Validate_state in Hpv. unfold validState in Hpv. rewrite Hsp in Hpv. bool_prop.
      split_and!; [done|by rewrite (adv_repository _ _ Ha)|by rewrite (adv_target _ _ Ha)|..].
      * rewrite Hm. symmetry. apply (adv_merge _ _ Ha). intros E. by rewrite E, validCommit_empty in *.
      * rewrite Htr. symmetry. apply (adv_target_revision _ _ Ha). intros E. by rewrite E, validCommit_empty in *.
Qed.

Lemma evolves_recorded s s' : recorded s → evolves s s' → recorded s'.
Proof. intros Hr He. induction He; eauto using store_step_recorded. Qed.

Lemma recorded_New : recorded NewMemoryStore.
Proof. split; intros k p Hk; discriminate Hk. Qed.

Lemma store_step_advances s s' k p :
  recorded s → store_step s s' → s !! k = Some p → ∃ q, s' !! k = Some q ∧ advances p q.
Proof.
  intros Hr [r Hc|r q Hc _] Hk.
  - apply CreatePublication_ok in Hc as (_ & _ & [->|[Hn ->]]); [by exists p|].
    exists p. rewrite lookup_insert_ne by congruence. done.
  - apply CompareAndSwap_ok in Hc as (Ht & Hp & ->). destruct (decide (pb_OperationID r = k)) as [<-|].
    + exists q. rewrite lookup_insert_eq. assert (r = p) as -> by congruence. split; [done|].
      by apply transition_advances.
    + exists p. by rewrite lookup_insert_ne.
Qed.

Lemma evolves_advances s s' k p :
  recorded s → evolves s s' → s !! k = Some p → ∃ q, s' !! k = Some q ∧ advances p q.
Proof.
  intros Hr He. revert p Hr. induction He as [|s s1 s' Hs _ IH]; intros p Hr Hk; [by exists p|].
  destruct (store_step_advances _ _ _ _ Hr Hs Hk) as (q & Hq & Ha).
  destruct (IH q (store_step_recorded _ _ Hr Hs) Hq) as (q' & Hq' & Ha').
  exists q'. split; [done|by etrans].
Qed.

(** * What the service relies on

    Whatever is called, other workers may have stepped meanwhile; a fetch
    answers what is stored, and a swap that succeeds was one step. *)

Record Surroundings : Prop := {
  rely_fetch : ∀ w id w' r, Fetch w id = (w', r) →
    evolves (held w) (held w') ∧ ∀ p, r = Ok p → PublicationOf (held w') id = Ok p;
  rely_swap : ∀ w p q w' e, Swap w p q = (w', e) →
    match e with
    | None => ∃ s s', evolves (held w) s ∧ CompareAndSwapPublication s p q = Ok s' ∧ evolves s' (held w')
    | Some _ => evolves (held w) (held w')
    end;
  rely_pending : ∀ w n w' r, Pending w n = (w', r) → evolves (held w) (held w');
  rely_recover : ∀ w n w' r, Recover w n = (w', r) → evolves (held w) (held w');
  rely_create : ∀ w x w' r, CreatePullRequest w x = (w', r) → evolves (held w) (held w');
  rely_find : ∀ w x w' r, FindPullRequest w x = (w', r) → evolves (held w) (held w');
  rely_get : ∀ w x w' r, GetPullRequest w x = (w', r) → evolves (held w) (held w');
  rely_head : ∀ w x y w' r, ResolveTargetHead w x y = (w', r) → evolves (held w) (held w');
  rely_ancestor : ∀ w x y z w' r, IsAncestor w x y z = (w', r) → evolves (held w) (held w');
  rely_now : ∀ w w' t, Now w = (w', t) → evolves (held w) (held w');
  rely_refresh : ∀ refresh w p h w' e,
    VerifiedMerge = Some refresh → refresh w p h = (w', e) → evolves (held w) (held w');
}.

Context (Hrely : Surroundings).

(** Every call the service makes appears in its context as an equation; [relies]
    replaces it by what the surroundings do. *)
Ltac relies :=
  repeat match goal with
  | E : Fetch _ _ = _ |- _ => apply (rely_fetch Hrely) in E as [E ?Hfetched]
  | E : Pending _ _ = _ |- _ => apply (rely_pending Hrely) in E
  | E : Recover _ _ = _ |- _ => apply (rely_recover Hrely) in E
  | E : CreatePullRequest _ _ = _ |- _ => apply (rely_create Hrely) in E
  | E : FindPullRequest _ _ = _ |- _ => apply (rely_find Hrely) in E
  | E : GetPullRequest _ _ = _ |- _ => apply (rely_get Hrely) in E
  | E : Now _ = _ |- _ => apply (rely_now Hrely) in E
  end.

Ltac chain :=
  first
    [ assumption
    | apply rtc_refl
    | match goal with
      | E : evolves (held ?w) (held _) |- evolves (held ?w) _ => etrans; [exact E|]; clear E; chain
      end ].

Ltac evolution := relies; chain.

Lemma swapped w p q w' e :
  (pb_State q = StateMergeVerified → pb_State p = StateMergeVerified ∨ vouched q) →
  Swap w p q = (w', e) → evolves (held w) (held w').
Proof using Hrely.
  intros Hv Hs. apply (rely_swap Hrely) in Hs. destruct e as [e|]; [done|].
  destruct Hs as (s & s' & H1 & H2 & H3). etrans; [exact H1|]. eapply rtc_l; [|exact H3]. by eapply stepSwap.
Qed.

Lemma swap_evolves w p q failed w' a :
  (pb_State q = StateMergeVerified → pb_State p = StateMergeVerified ∨ vouched q) →
  swap w p q failed = (w', a) → evolves (held w) (held w').
Proof using Hrely.
  unfold swap. intros Hv Hs. destruct (Swap w p q) as [w1 e] eqn:E. apply swapped in E; [|done].
  by destruct e; injection Hs as <- _.
Qed.

Lemma recording_unverified p revision now q :
  Validate p = true → (WithWriteBase p revision now = Ok q ∨ WithCandidate p revision now = Ok q) →
  pb_State q = StateMergeVerified → pb_State p = StateMergeVerified.
Proof.
  intros _ [H|H]; [unfold WithWriteBase in H|unfold WithCandidate in H];
    repeat break_match_hyp H; inv_res; try done; by apply validated_ok in H as [-> _].
Qed.

Lemma observation_unverified p o now q : WithPullRequest p o now = Ok q → pb_State q ≠ StateMergeVerified.
Proof.
  unfold WithPullRequest. intros H. repeat break_match_hyp H; inv_res.
  match goal with E : observedState o = Some _ |- _ => apply observedState_cases in E end.
  apply validated_ok in H as [-> _]. simpl. naive_solver.
Qed.

Lemma PublicationOf_valid s id p : PublicationOf s id = Ok p → s !! id = Some p ∧ Validate p = true.
Proof. unfold PublicationOf. intros H. repeat break_match_hyp H; inv_res; done. Qed.

Lemma record_evolves step w id revision w' a :
  (∀ p now q, Validate p = true → step p revision now = Ok q →
     pb_State q = StateMergeVerified → pb_State p = StateMergeVerified) →
  record step w id revision = (w', a) → evolves (held w) (held w').
Proof using Hrely.
  intros Hstep. unfold record. destruct (Fetch w id) as [w1 [p|]] eqn:E1; intros H; [|injection H as <- _; evolution].
  destruct (Now w1) as [w2 t] eqn:E2.
  destruct (step p revision t) as [q|] eqn:E3; [|injection H as <- _; evolution].
  destruct (pb_Version q =? pb_Version p); [injection H as <- _; evolution|].
  apply swap_evolves in H; [evolution|]. relies.
  destruct (PublicationOf_valid _ _ _ (Hfetched _ eq_refl)) as [_ Hv]. intros Hq. left. by eapply Hstep.
Qed.

(** [verifyMerge] marks a publication only after the provider vouched for it. *)
Lemma verifyMerge_cases w p w' a :
  verifyMerge w p = (w', a) →
  ∃ w1, evolves (held w) (held w1) ∧
    (w' = w1 ∧ snd a ≠ None ∨ ∃ q, vouched q ∧ swap w1 p q p = (w', a)).
Proof using Hrely.
  unfold verifyMerge. destruct (ResolveTargetHead w _ _) as [w1 [h|]] eqn:E1;
    apply (rely_head Hrely) in E1 as He1; [|intros [= <- <-]; exists w1; split; [chain|by left]].
  destruct (headFor h p) eqn:Eh; simpl; [|intros [= <- <-]; exists w1; split; [chain|by left]].
  destruct (Now w1) as [w2 t] eqn:E2.
  destruct (t <? th_ObservedAt h); [intros [= <- <-]; exists w2; split; [evolution|by left]|].
  destruct (IsAncestor w2 _ _ _) as [w3 [present|]] eqn:E3;
    apply (rely_ancestor Hrely) in E3 as He3; [|intros [= <- <-]; exists w3; split; [evolution|by left]].
  destruct present; simpl; [|intros [= <- <-]; exists w3; split; [evolution|by left]].
  destruct (Now w3) as [w4 t'] eqn:E4.
  destruct (WithVerifiedMerge p (th_Revision h) t') as [q|] eqn:E5;
    [|intros [= <- <-]; exists w4; split; [evolution|by left]].
  unfold WithVerifiedMerge in E5. repeat break_match_hyp E5; inv_res. apply validated_ok in E5 as [-> _].
  set (q := mkPublication _ _ _ _ _ _ _ _ _ _ _ _ _ _ _ _ _ _).
  set (refreshed := match VerifiedMerge with Some _ => _ | None => _ end).
  destruct refreshed as [w5 e] eqn:E6. unfold refreshed in E6.
  assert (evolves (held w4) (held w5)) as He5.
  { destruct VerifiedMerge as [refresh|] eqn:Er; [|injection E6 as <- _; apply rtc_refl].
    by eapply (rely_refresh Hrely). }
  destruct e as [e|]; [intros [= <- <-]; exists w5; split; [evolution|by left]|].
  intros Hs. exists w5. split; [evolution|]. right. exists q. split; [|exact Hs].
  unfold headFor in Eh. apply negb_true_iff in Eh. bool_prop. split; simpl.
  - exists w, w1, h. done.
  - by exists w2, w3.
  - intros refresh Hr. rewrite Hr in E6. by exists w4, w5, h.
Qed.

Lemma verifyMerge_evolves w p w' a : verifyMerge w p = (w', a) → evolves (held w) (held w').
Proof using Hrely.
  intros (w1 & He & [[-> _]|(q & Hq & Hs)])%verifyMerge_cases; [done|].
  apply swap_evolves in Hs; [chain|]. by right.
Qed.

Lemma applyObservation_evolves w p o w' a : applyObservation w p o = (w', a) → evolves (held w) (held w').
Proof using Hrely.
  unfold applyObservation. destruct (Now w) as [w1 t] eqn:E1.
  destruct (t <? ob_ObservedAt o); [intros [= <- _]; evolution|].
  destruct (WithPullRequest p o t) as [q|] eqn:E2; [|intros [= <- _]; evolution].
  destruct (Swap w1 p q) as [w2 e] eqn:E3. apply swapped in E3; [|intros Hq; by apply observation_unverified in E2].
  destruct e; [intros [= <- _]; evolution|].
  case_bool_decide; simpl; [|intros [= <- _]; evolution].
  intros Hv%verifyMerge_evolves. evolution.
Qed.

Lemma locate_evolves w p w' r : locate w p = (w', r) → evolves (held w) (held w').
Proof using Hrely.
  unfold locate. destruct (FindPullRequest w _) as [w1 [[o [|]]|]] eqn:E1; try (intros [= <- _]; evolution).
  assert (∀ w2 r2, create w1 p = (w2, r2) → evolves (held w1) (held w2)) as Hc.
  { intros w2 r2. unfold create. destruct (PullRequestTitle _); [|intros [= <- _]; chain].
    destruct (PullRequestBody _); [|intros [= <- _]; chain]. intros Hc. evolution. }
  destruct (create w1 p) as [w2 [o'|]] eqn:E2; specialize (Hc _ _ eq_refl); [intros [= <- _]; evolution|].
  destruct (FindPullRequest w2 _) as [w3 [[o'' [|]]|]] eqn:E3; intros [= <- _]; evolution.
Qed.

Lemma Observe_evolves w id w' a : Observe w id = (w', a) → evolves (held w) (held w').
Proof using Hrely.
  unfold Observe. destruct (Fetch w id) as [w1 [p|]] eqn:E1; [|intros [= <- _]; evolution].
  destruct (pb_PullRequestNumber p =? 0); [intros [= <- _]; evolution|].
  destruct (GetPullRequest w1 _) as [w2 [o|]] eqn:E2; [|intros [= <- _]; evolution].
  intros Ha%applyObservation_evolves. evolution.
Qed.

Lemma EnsurePullRequest_evolves w id w' a : EnsurePullRequest w id = (w', a) → evolves (held w) (held w').
Proof using Hrely.
  unfold EnsurePullRequest. destruct (Fetch w id) as [w1 [p|]] eqn:E1; [|intros [= <- _]; evolution].
  case_bool_decide; [intros [= <- _]; evolution|].
  case_bool_decide; [intros [= <- _]; evolution|].
  set (found := if 0 <? pb_PullRequestNumber p then _ else _). destruct found as [w2 r] eqn:E2.
  assert (evolves (held w1) (held w2)) as He.
  { unfold found in E2. destruct (0 <? pb_PullRequestNumber p); [evolution|by eapply locate_evolves]. }
  destruct r as [o|]; [|intros [= <- _]; evolution]. intros Ha%applyObservation_evolves. evolution.
Qed.

Lemma observeAll_evolves l : ∀ w n errors w' r,
  observeAll w l n errors = (w', r) → evolves (held w) (held w').
Proof using Hrely.
  induction l as [|p l IH]; intros w n errors w' r; simpl; [intros [= <- _]; chain|].
  destruct (Observe w (pb_OperationID p)) as [w1 [q e]] eqn:E. apply Observe_evolves in E.
  destruct e; intros H%IH; chain.
Qed.

Lemma RunOnce_evolves w batch w' r : RunOnce w batch = (w', r) → evolves (held w) (held w').
Proof using Hrely.
  unfold RunOnce. destruct (_ || _); [intros [= <- _]; chain|].
  destruct (Recover w batch) as [w1 [n|]] eqn:E1; [|intros [= <- _]; evolution].
  destruct (Pending w1 batch) as [w2 [l|]] eqn:E2; [|intros [= <- _]; evolution].
  destruct (observeAll w2 l 0 None) as [w3 [m e]] eqn:E3. intros [= <- _]. apply observeAll_evolves in E3. evolution.
Qed.

(** * The service as steps *)

Inductive service_call (w w' : W) : Prop :=
| callRecordWriteBase id revision a : RecordWriteBase w id revision = (w', a) → service_call w w'
| callRecordCandidate id revision a : RecordCandidate w id revision = (w', a) → service_call w w'
| callEnsurePullRequest id a : EnsurePullRequest w id = (w', a) → service_call w w'
| callObserve id a : Observe w id = (w', a) → service_call w w'
| callRunOnce batch r : RunOnce w batch = (w', r) → service_call w w'.

Lemma service_call_evolves w w' : service_call w w' → evolves (held w) (held w').
Proof using Hrely.
  intros [id revision a H|id revision a H|id a H|id a H|batch r H].
  - eapply record_evolves; [|exact H]. intros p now q Hp Hq. by eapply recording_unverified; [|left].
  - eapply record_evolves; [|exact H]. intros p now q Hp Hq. by eapply recording_unverified; [|right].
  - by eapply EnsurePullRequest_evolves.
  - by eapply Observe_evolves.
  - by eapply RunOnce_evolves.
Qed.

Lemma service_calls_evolve w w' : rtc service_call w w' → evolves (held w) (held w').
Proof using Hrely. induction 1; [apply rtc_refl|]. etrans; [by apply service_call_evolves|done]. Qed.

(** C25. The service and its reconciler refine the store: whatever they are asked,
    whatever the provider answers and whatever other workers do meanwhile,
    what they do to the stored publications is a sequence of steps the store
    allows, and a publication becomes verified only when the provider has
    resolved the target branch of the very repository to its target revision
    and said that this revision contains the merge, and the refresher has run. *)
Theorem service_refines_store w w' : service_call w w' → evolves (held w) (held w').
Proof using Hrely. apply service_call_evolves. Qed.

(** C12. Once a protected publication has a desired revision it is that revision
    for good, and the provider has vouched for it.  A stored publication is
    valid, and whatever the service and other workers do, the one stored later
    under its operation is a later version of it: the same repository, refs
    and base, the same write base, candidate, pull request and merge once it
    has them, and never an earlier phase. *)
Theorem published_revision_final w id p w' :
  evolves NewMemoryStore (held w) → held w !! id = Some p → rtc service_call w w' →
  Validate p = true ∧
  (∀ revision, DesiredRevision p = Some revision →
     ∃ v, vouched v ∧ pb_Repository v = pb_Repository p ∧ pb_TargetRef v = pb_TargetRef p ∧
       pb_MergeRevision v = pb_MergeRevision p ∧ pb_TargetRevision v = revision) ∧
  ∃ q, held w' !! id = Some q ∧ advances p q ∧
    ∀ revision, DesiredRevision p = Some revision → DesiredRevision q = Some revision.
Proof using Hrely.
  intros Hw Hp Hcalls. pose proof (evolves_recorded _ _ recorded_New Hw) as Hr.
  pose proof (service_calls_evolve _ _ Hcalls) as He.
  pose proof (evolves_recorded _ _ Hr He) as Hr'.
  destruct (evolves_advances _ _ _ _ Hr He Hp) as (q & Hq & Ha). split_and!.
  - by apply (rec_valid _ Hr _ _ Hp).
  - intros revision Hd. unfold DesiredRevision in Hd.
    destruct (bool_decide_reflect (pb_State p = StateMergeVerified)) as [Hs|]; [|done]. simpl in Hd.
    destruct (validCommit (pb_TargetRevision p)); [|done]. injection Hd as <-.
    by apply (rec_vouched _ Hr _ _ Hp Hs).
  - exists q. split_and!; [done|done|]. intros revision Hd. eapply advances_desired; [|done|done].
    by apply (rec_valid _ Hr' _ _ Hq).
Qed.

(** * What the answers are worth

    An answer without an error is stored, or a later version of it is. *)

Definition stored (s : MemoryStore) (r : Publication) : Prop :=
  ∃ q, s !! pb_OperationID r = Some q ∧ advances r q.

Lemma stored_evolves s s' r : recorded s → stored s r → evolves s s' → stored s' r.
Proof.
  intros Hr (q & Hq & Ha) He. destruct (evolves_advances _ _ _ _ Hr He Hq) as (q' & Hq' & Ha').
  exists q'. split; [done|by etrans].
Qed.

Lemma fetched w id w' p :
  recorded (held w) → Fetch w id = (w', Ok p) → recorded (held w') ∧ pb_OperationID p = id ∧ stored (held w') p.
Proof using Hrely.
  intros Hr Hf. apply (rely_fetch Hrely) in Hf as [He Hp].
  destruct (PublicationOf_valid _ _ _ (Hp _ eq_refl)) as [Hk _].
  pose proof (evolves_recorded _ _ Hr He) as Hr'. destruct (rec_valid _ Hr' _ _ Hk) as [_ Hid].
  split_and!; [done|done|]. exists p. by rewrite Hid.
Qed.

Lemma swap_stored w p q w' :
  recorded (held w) → (pb_State q = StateMergeVerified → pb_State p = StateMergeVerified ∨ vouched q) →
  Swap w p q = (w', None) → pb_OperationID q = pb_OperationID p ∧ recorded (held w') ∧ stored (held w') q.
Proof using Hrely.
  intros Hr Hv Hs. apply (rely_swap Hrely) in Hs as (s & s' & H1 & H2 & H3).
  pose proof (evolves_recorded _ _ Hr H1) as Hr1.
  assert (store_step s s') as Hst by by eapply stepSwap.
  pose proof (store_step_recorded _ _ Hr1 Hst) as Hr2.
  apply CompareAndSwap_ok in H2 as (Ht & _ & ->). destruct (transition_advances _ _ Ht) as (_ & _ & Ha).
  pose proof (adv_operation _ _ Ha) as Hid. split_and!; [done|by eapply evolves_recorded|].
  eapply stored_evolves; [exact Hr2| |exact H3]. exists q. by rewrite Hid, lookup_insert_eq.
Qed.

Lemma verifyMerge_stored w p w' r :
  recorded (held w) → verifyMerge w p = (w', give r) →
  pb_OperationID r = pb_OperationID p ∧ recorded (held w') ∧ stored (held w') r.
Proof using Hrely.
  intros Hr (w1 & He & [[_ Hn]|(q & Hq & Hs)])%verifyMerge_cases; [done|].
  unfold swap, give in Hs. destruct (Swap w1 p q) as [w2 [e|]] eqn:E; injection Hs as <- <-; [done|].
  eapply swap_stored; [by eapply evolves_recorded| |exact E]. by right.
Qed.

Lemma applyObservation_stored w p o w' r :
  recorded (held w) → applyObservation w p o = (w', give r) →
  pb_OperationID r = pb_OperationID p ∧ stored (held w') r.
Proof using Hrely.
  unfold applyObservation. intros Hr. destruct (Now w) as [w1 t] eqn:E1.
  destruct (t <? ob_ObservedAt o); [done|].
  destruct (WithPullRequest p o t) as [q|] eqn:E2; [|done].
  destruct (Swap w1 p q) as [w2 [e|]] eqn:E3; [done|].
  apply swap_stored in E3 as (Hid & Hr2 & Hst);
    [|eapply evolves_recorded; [exact Hr|evolution]|intros Hq; by apply observation_unverified in E2].
  case_bool_decide; simpl; [|by intros [= <- <-]].
  intros (Hid' & _ & ?)%verifyMerge_stored; [|done]. split; [congruence|done].
Qed.

Lemma record_stored step w id revision w' r :
  (∀ p now q, Validate p = true → step p revision now = Ok q →
     pb_State q = StateMergeVerified → pb_State p = StateMergeVerified) →
  recorded (held w) → record step w id revision = (w', give r) →
  pb_OperationID r = id ∧ stored (held w') r.
Proof using Hrely.
  intros Hstep Hr. unfold record. destruct (Fetch w id) as [w1 [p|]] eqn:E1; [|done].
  destruct (fetched _ _ _ _ Hr E1) as (Hr1 & Hid & Hst).
  apply (rely_fetch Hrely) in E1 as [_ Hv]. destruct (PublicationOf_valid _ _ _ (Hv _ eq_refl)) as [_ Hval].
  destruct (Now w1) as [w2 t] eqn:E2. apply (rely_now Hrely) in E2.
  destruct (step p revision t) as [q|] eqn:E3; [|done].
  destruct (pb_Version q =? pb_Version p).
  - intros [= <- <-]. split; [done|]. by eapply stored_evolves.
  - unfold swap, give. destruct (Swap w2 p q) as [w3 [e|]] eqn:E; [done|]. intros [= <- <-].
    apply swap_stored in E as (Hid' & _ & ?); [split; [congruence|done]|by eapply evolves_recorded|].
    intros Hq. left. by eapply Hstep.
Qed.

(** An answer without an error is worth its while: the publication that
    [RecordWriteBase], [RecordCandidate], [EnsurePullRequest] or [Observe]
    gives is the one of the operation asked for, and it is what the store
    holds, or what the store holds is a later version of it. *)
Theorem answer_stored w id w' r :
  evolves NewMemoryStore (held w) →
  (∃ revision, RecordWriteBase w id revision = (w', give r)) ∨
  (∃ revision, RecordCandidate w id revision = (w', give r)) ∨
  EnsurePullRequest w id = (w', give r) ∨ Observe w id = (w', give r) →
  pb_OperationID r = id ∧ stored (held w') r.
Proof using Hrely.
  intros Hw%(evolves_recorded _ _ recorded_New) [[revision H]|[[revision H]|[H|H]]].
  - eapply record_stored; [|exact Hw|exact H]. intros p now q Hp Hq. by eapply recording_unverified; [|left].
  - eapply record_stored; [|exact Hw|exact H]. intros p now q Hp Hq. by eapply recording_unverified; [|right].
  - unfold EnsurePullRequest in H. destruct (Fetch w id) as [w1 [p|]] eqn:E1; [|done].
    destruct (fetched _ _ _ _ Hw E1) as (Hr1 & Hid & Hst).
    case_bool_decide; [done|]. case_bool_decide; [by injection H as <- <-|].
    set (found := if 0 <? pb_PullRequestNumber p then _ else _) in H. destruct found as [w2 [o|]] eqn:E2; [|done].
    apply applyObservation_stored in H as [? ?]; [split; [congruence|done]|].
    eapply evolves_recorded; [exact Hr1|]. unfold found in E2.
    destruct (0 <? pb_PullRequestNumber p); [evolution|by eapply locate_evolves].
  - unfold Observe in H. destruct (Fetch w id) as [w1 [p|]] eqn:E1; [|done].
    destruct (fetched _ _ _ _ Hw E1) as (Hr1 & Hid & Hst).
    destruct (pb_PullRequestNumber p =? 0); [done|].
    destruct (GetPullRequest w1 _) as [w2 [o|]] eqn:E2; [|done].
    apply applyObservation_stored in H as [? ?]; [split; [congruence|done]|].
    eapply evolves_recorded; [exact Hr1|evolution].
Qed.

End safety.

(** * The memory store keeps its side of the interface *)

Section memory.
Context {R : Type} `{MapOrder} `{!Provider (MemoryWorld R), !Clock (MemoryWorld R), !Refresher (MemoryWorld R)}.

(** A world no other worker steps in: what is called leaves the rows alone. *)
Record alone : Prop := {
  alone_create : ∀ w x, mw_store (fst (CreatePullRequest w x)) = mw_store w;
  alone_find : ∀ w x, mw_store (fst (FindPullRequest w x)) = mw_store w;
  alone_get : ∀ w x, mw_store (fst (GetPullRequest w x)) = mw_store w;
  alone_head : ∀ w x y, mw_store (fst (ResolveTargetHead w x y)) = mw_store w;
  alone_ancestor : ∀ w x y z, mw_store (fst (IsAncestor w x y z)) = mw_store w;
  alone_now : ∀ w, mw_store (fst (Now w)) = mw_store w;
  alone_refresh : ∀ refresh w p h, VerifiedMerge = Some refresh → mw_store (fst (refresh w p h)) = mw_store w;
}.

Lemma unchanged_evolves (w w' : MemoryWorld R) :
  mw_store w' = mw_store w → evolves (mw_store w) (mw_store w').
Proof. intros ->. apply rtc_refl. Qed.

Lemma memory_surroundings : alone → Surroundings mw_store.
Proof.
  intros [Hc Hf Hg Hh Ha Hn Hr]. split.
  - intros w id w' r [= <- <-]. split; [apply rtc_refl|done].
  - intros w p q w' e. simpl. destruct (CompareAndSwapPublication (mw_store w) p q) as [s|] eqn:E; intros [= <- <-].
    + exists (mw_store w), s. split_and!; [apply rtc_refl|done|apply rtc_refl].
    + apply rtc_refl.
  - intros w n w' r [= <- _]. apply rtc_refl.
  - intros w n w' r [= <- _]. apply rtc_refl.
  - intros w x w' r E. apply unchanged_evolves. by rewrite <- (Hc w x), E.
  - intros w x w' r E. apply unchanged_evolves. by rewrite <- (Hf w x), E.
  - intros w x w' r E. apply unchanged_evolves. by rewrite <- (Hg w x), E.
  - intros w x y w' r E. apply unchanged_evolves. by rewrite <- (Hh w x y), E.
  - intros w x y z w' r E. apply unchanged_evolves. by rewrite <- (Ha w x y z), E.
  - intros w w' t E. apply unchanged_evolves. by rewrite <- (Hn w), E.
  - intros refresh w p h w' e Hv E. apply unchanged_evolves. by rewrite <- (Hr _ w p h Hv), E.
Qed.

End memory.

(** * One pull request per candidate *)

Section once.
Context {W : Type} `{!Store W, !Provider W, !Clock W, !Refresher W} (opened : W → string → nat).

(** [opened w head]: the pull requests there are for a head.  A lookup that finds
    none tells the truth; a creation may open one whatever it answers; nothing
    else does. *)
Record Provides : Prop := {
  find_none : ∀ w x w' o, FindPullRequest w x = (w', Ok (o, false)) → opened w (fr_HeadRef x) = 0%nat;
  create_one : ∀ w x h,
    (opened (fst (CreatePullRequest w x)) h ≤ opened w h + (if decide (h = cr_HeadRef x) then 1 else 0))%nat;
  find_opens : ∀ w x, opened (fst (FindPullRequest w x)) = opened w;
  get_opens : ∀ w x, opened (fst (GetPullRequest w x)) = opened w;
  head_opens : ∀ w x y, opened (fst (ResolveTargetHead w x y)) = opened w;
  ancestor_opens : ∀ w x y z, opened (fst (IsAncestor w x y z)) = opened w;
  fetch_opens : ∀ w id, opened (fst (Fetch w id)) = opened w;
  swap_opens : ∀ w p q, opened (fst (Swap w p q)) = opened w;
  pending_opens : ∀ w n, opened (fst (Pending w n)) = opened w;
  recover_opens : ∀ w n, opened (fst (Recover w n)) = opened w;
  now_opens : ∀ w, opened (fst (Now w)) = opened w;
  refresh_opens : ∀ refresh w p h, VerifiedMerge = Some refresh → opened (fst (refresh w p h)) = opened w;
}.

Context (Hp : Provides).

Lemma refreshed_opens w p h w' e :
  match VerifiedMerge with Some refresh => refresh w p h | None => (w, None) end = (w', e) → opened w' = opened w.
Proof using Hp.
  destruct VerifiedMerge as [refresh|] eqn:E; [|by intros [= <- _]].
  intros Hr. rewrite <- (refresh_opens Hp _ w p h E). by rewrite Hr.
Qed.

(** A call whose result is named opens nothing. *)
Ltac opens_nothing :=
  repeat match goal with
  | E : match VerifiedMerge with _ => _ end = _ |- _ => apply refreshed_opens in E
  | E : ?call = (_, _) |- _ =>
      let law := lazymatch call with
        | FindPullRequest ?w ?x => constr:(find_opens Hp w x)
        | GetPullRequest ?w ?x => constr:(get_opens Hp w x)
        | ResolveTargetHead ?w ?x ?y => constr:(head_opens Hp w x y)
        | IsAncestor ?w ?x ?y ?z => constr:(ancestor_opens Hp w x y z)
        | Fetch ?w ?x => constr:(fetch_opens Hp w x)
        | Swap ?w ?x ?y => constr:(swap_opens Hp w x y)
        | Pending ?w ?x => constr:(pending_opens Hp w x)
        | Recover ?w ?x => constr:(recover_opens Hp w x)
        | Now ?w => constr:(now_opens Hp w)
        end in
      pose proof law; rewrite E in *; clear E; cbn [fst] in *
  end; congruence.

(** Every path of a method, each ending in a world the method leaves. *)
Ltac opens_paths H := repeat break_match_hyp H; injection H as <- _; try opens_nothing.

Lemma verifyMerge_opens w p w' a : verifyMerge w p = (w', a) → opened w' = opened w.
Proof using Hp. unfold verifyMerge, swap. intros H. opens_paths H. Qed.

Lemma applyObservation_opens w p o w' a : applyObservation w p o = (w', a) → opened w' = opened w.
Proof using Hp.
  unfold applyObservation. intros H.
  destruct (Now w) as [w1 t] eqn:E1. destruct (t <? ob_ObservedAt o); [injection H as <- _; opens_nothing|].
  destruct (WithPullRequest p o t); [|injection H as <- _; opens_nothing].
  destruct (Swap w1 p _) as [w2 e] eqn:E2. destruct e; [injection H as <- _; opens_nothing|].
  case_bool_decide; simpl in H; [|injection H as <- _; opens_nothing].
  apply verifyMerge_opens in H. rewrite H. opens_nothing.
Qed.

Lemma record_opens step w id revision w' a : record step w id revision = (w', a) → opened w' = opened w.
Proof using Hp. unfold record, swap. intros H. opens_paths H. Qed.

Lemma Observe_opens w id w' a : Observe w id = (w', a) → opened w' = opened w.
Proof using Hp.
  unfold Observe. intros H. destruct (Fetch w id) as [w1 [p|]] eqn:E1; [|injection H as <- _; opens_nothing].
  destruct (pb_PullRequestNumber p =? 0); [injection H as <- _; opens_nothing|].
  destruct (GetPullRequest w1 _) as [w2 [o|]] eqn:E2; [|injection H as <- _; opens_nothing].
  apply applyObservation_opens in H. rewrite H. opens_nothing.
Qed.

Lemma observeAll_opens l : ∀ w n errors w' r, observeAll w l n errors = (w', r) → opened w' = opened w.
Proof using Hp.
  induction l as [|p l IH]; intros w n errors w' r; simpl; [by intros [= <- _]|].
  destruct (Observe w (pb_OperationID p)) as [w1 [q e]] eqn:E. apply Observe_opens in E.
  destruct e; intros H%IH; congruence.
Qed.

(** A creation follows a lookup that found nothing. *)
Lemma locate_opens w p w' r h : locate w p = (w', r) → (opened w h ≤ 1 → opened w' h ≤ 1)%nat.
Proof using Hp.
  unfold locate. destruct (FindPullRequest w (findRequest p)) as [w1 [[o [|]]|]] eqn:E1.
  1,3: intros [= <- _]; pose proof (find_opens Hp w (findRequest p)) as Hf; rewrite E1 in Hf; simpl in Hf; by rewrite Hf.
  pose proof (find_none Hp _ _ _ _ E1) as Hnone. pose proof (find_opens Hp w (findRequest p)) as Hf.
  rewrite E1 in Hf. simpl in Hf, Hnone. intros H Hle.
  assert (∀ w2 r2, create w1 p = (w2, r2) → opened w2 h ≤ 1)%nat as Hc.
  { unfold create. intros w2 r2. destruct (PullRequestTitle _) as [title|]; [|by intros [= <- _]; rewrite Hf].
    destruct (PullRequestBody p) as [body|]; [|by intros [= <- _]; rewrite Hf]. intros Hc.
    pose proof (create_one Hp w1 (createRequest p title body) h) as Ho. rewrite Hc in Ho. simpl in Ho.
    rewrite Hf in Ho. destruct (decide (h = pb_CandidateRef p)) as [->|]; [rewrite Hnone in Ho|]; lia. }
  destruct (create w1 p) as [w2 r2] eqn:E2. specialize (Hc _ _ eq_refl).
  destruct r2 as [o'|]; [by injection H as <- _|].
  destruct (FindPullRequest w2 (findRequest p)) as [w3 [[o'' [|]]|]] eqn:E3; injection H as <- _;
    pose proof (find_opens Hp w2 (findRequest p)) as Hf2; rewrite E3 in Hf2; simpl in Hf2; by rewrite Hf2.
Qed.

Lemma EnsurePullRequest_opens w id w' a h :
  EnsurePullRequest w id = (w', a) → (opened w h ≤ 1 → opened w' h ≤ 1)%nat.
Proof using Hp.
  unfold EnsurePullRequest. intros H Hle. destruct (Fetch w id) as [w1 [p|]] eqn:E1.
  2:{ injection H as <- _. assert (opened w1 = opened w) as -> by opens_nothing. done. }
  assert (opened w1 = opened w) as Hf by opens_nothing.
  case_bool_decide; [injection H as <- _; by rewrite Hf|].
  case_bool_decide; [injection H as <- _; by rewrite Hf|].
  set (found := if 0 <? pb_PullRequestNumber p then _ else _) in H. destruct found as [w2 r] eqn:E2.
  assert (opened w2 h ≤ 1)%nat as H2.
  { unfold found in E2. destruct (0 <? pb_PullRequestNumber p).
    - assert (opened w2 = opened w1) as -> by opens_nothing. by rewrite Hf.
    - eapply locate_opens; [exact E2|by rewrite Hf]. }
  destruct r as [o|]; [|by injection H as <- _]. apply applyObservation_opens in H. by rewrite H.
Qed.

(** A candidate is reviewed in one pull request: with a provider whose
    lookup tells the truth - but whose creation may fail after it has opened
    one - a worker that calls the service however often opens no second pull
    request for a head that has none or one. *)
Theorem one_pull_request w w' h :
  (opened w h ≤ 1)%nat → rtc service_call w w' → (opened w' h ≤ 1)%nat.
Proof using Hp.
  intros Hle Hcalls. induction Hcalls as [|w w1 w' Hc _ IH]; [done|]. apply IH.
  destruct Hc as [id revision a H|id revision a H|id a H|id a H|batch r H].
  - apply record_opens in H. by rewrite H.
  - apply record_opens in H. by rewrite H.
  - by eapply EnsurePullRequest_opens.
  - apply Observe_opens in H. by rewrite H.
  - unfold RunOnce in H. destruct (_ || _); [injection H as <- _; done|].
    destruct (Recover w batch) as [w2 [n|]] eqn:E1; [|injection H as <- _; assert (opened w2 = opened w) as -> by opens_nothing; done].
    destruct (Pending w2 batch) as [w3 [l|]] eqn:E2; [|injection H as <- _; assert (opened w3 = opened w) as -> by opens_nothing; done].
    destruct (observeAll w3 l 0 None) as [w4 [m e]] eqn:E3. injection H as <- _.
    apply observeAll_opens in E3. rewrite E3. assert (opened w3 = opened w) as -> by opens_nothing. done.
Qed.

End once.

(** * A concrete world *)

#[local] Existing Instance forward_order.

(** * The provider *)

Record Remote := mkRemote {
  rm_pulls : list PullRequestObservation;
  rm_time : Time;
}.

Abbreviation World := (MemoryWorld Remote).

Definition repeat_byte (n : nat) (s : string) : string := str_join "" (replicate n s).
Definition sha (digit : string) : string := repeat_byte 40 digit.

Definition pullOf (x : CreatePullRequestRequest) (now : Time) : PullRequestObservation :=
  mkObservation (cr_Repository x) 7 "https://github.com/kuberploy/platform/pull/7" (cr_TargetRef x)
    (cr_HeadRef x) (cr_HeadSHA x) PullRequestOpen false "" now.

Definition merge (o : PullRequestObservation) (now : Time) : PullRequestObservation :=
  mkObservation (ob_Repository o) (ob_Number o) (ob_URL o) (ob_TargetRef o) (ob_HeadRef o) (ob_HeadRevision o)
    PullRequestClosed true (sha "c") now.

Definition forHead (head : string) (o : PullRequestObservation) : bool := String.eqb (ob_HeadRef o) head.

Definition zeroObservation : PullRequestObservation :=
  mkObservation (mkRepo 0 0 "" "") 0 "" "" "" "" "" false "" 0.

Definition opens (w : World) (x : CreatePullRequestRequest) : World :=
  mkWorld (mw_store w)
    (mkRemote (rm_pulls (mw_rest w) ++ [pullOf x (rm_time (mw_rest w))]) (rm_time (mw_rest w))).

(** The creation opens a pull request, but its answer never arrives; by the
    time a pull request is got it was merged. *)
#[local] Instance losing : Provider World := {|
  CreatePullRequest w x := (opens w x, Err (Other "connection reset"));
  FindPullRequest w x :=
    (w, match List.find (forHead (fr_HeadRef x)) (rm_pulls (mw_rest w)) with
        | Some o => Ok (o, true)
        | None => Ok (zeroObservation, false)
        end);
  GetPullRequest w x :=
    (w, match List.find (λ o, ob_Number o =? gp_Number x) (rm_pulls (mw_rest w)) with
        | Some o => Ok (merge o (rm_time (mw_rest w)))
        | None => Err (Other "not found")
        end);
  ResolveTargetHead w repository ref := (w, Ok (mkHead repository ref (sha "d") (rm_time (mw_rest w))));
  IsAncestor w _ _ _ := (w, Ok true);
|}.

#[local] Instance ticking : Clock World := λ w,
  let now := rm_time (mw_rest w) + minute in
  (mkWorld (mw_store w) (mkRemote (rm_pulls (mw_rest w)) now), now).

#[local] Instance refreshing : Refresher World := Some (λ w _ _, (w, None)).

Lemma losing_surroundings : Surroundings (mw_store (R := Remote)).
Proof. apply memory_surroundings. split; try done. intros refresh w p h [= <-]. done. Qed.

(** * The publication *)

Definition operation : string := "3f2504e0-4f89-41d3-9a0c-0305e82c3301".
Definition binding : string := "9b2d7c10-1a2b-4c3d-8e4f-5a6b7c8d9e0f".

Definition intent : Publication :=
  mkPublication operation binding (mkRepo 5 6 "kuberploy" "platform") "refs/heads/main" (sha "a") ""
    (candidateRefPrefix +:+ operation) "" 0 "" "" "" "" StatePendingCandidate None hour hour 1.

Definition begin : World := mkWorld {[operation := intent]} (mkRemote [] (2 * hour)).
Definition based : World := fst (RecordWriteBase begin operation (sha "a")).
Definition candidate : World := fst (RecordCandidate based operation (sha "b")).
Definition reviewed : World := fst (EnsurePullRequest candidate operation).
Definition merged : World := fst (Observe reviewed operation).

Definition at_operation (w : World) : Publication := default zeroPublication (mw_store w !! operation).

Lemma published_states :
  map (λ w, pb_State (at_operation w)) [begin; based; candidate; reviewed; merged] =
    [StatePendingCandidate; StateWriteBaseReady; StateCandidateReady; StatePullRequestOpen; StateMergeVerified] ∧
  length (rm_pulls (mw_rest merged)) = 1%nat.
Proof. split; vm_compute; reflexivity. Qed.

Lemma begin_evolves : evolves NewMemoryStore (mw_store begin).
Proof.
  apply rtc_once, (stepCreate _ _ intent). vm_compute. reflexivity.
Qed.

(** The calls, as steps of the service. *)
Lemma reviewed_calls : rtc service_call begin reviewed.
Proof.
  apply (rtc_l _ _ based). { by apply (callRecordWriteBase _ _ operation (sha "a") _ (surjective_pairing _)). }
  apply (rtc_l _ _ candidate). { by apply (callRecordCandidate _ _ operation (sha "b") _ (surjective_pairing _)). }
  apply rtc_once. by apply (callEnsurePullRequest _ _ operation _ (surjective_pairing _)).
Qed.

Lemma published_calls : rtc service_call begin merged.
Proof.
  etrans; [apply reviewed_calls|]. apply rtc_once.
  by apply (callObserve _ _ operation _ (surjective_pairing _)).
Qed.

Lemma reviewed_evolves : evolves NewMemoryStore (mw_store reviewed).
Proof.
  etrans; [apply begin_evolves|]. apply (service_calls_evolve _ losing_surroundings), reviewed_calls.
Qed.

Lemma published_evolves : evolves NewMemoryStore (mw_store merged).
Proof.
  etrans; [apply begin_evolves|]. apply (service_calls_evolve _ losing_surroundings), published_calls.
Qed.

(** * The theorems at work *)

Lemma publication_step_valid_witness :
  at_operation based = intent ∨ ValidateTransition intent (at_operation based) = true.
Proof.
  apply publication_step_valid; [vm_compute; reflexivity|].
  apply (step_write_base _ (sha "a") (2 * hour + minute)). vm_compute. reflexivity.
Defined.

Lemma service_refines_store_witness : evolves (mw_store reviewed) (mw_store merged).
Proof.
  apply (service_refines_store mw_store losing_surroundings).
  exact (callObserve _ _ operation _ (surjective_pairing _)).
Defined.

Lemma published_revision_final_witness :
  ∃ q, mw_store merged !! operation = Some q ∧ advances (at_operation merged) q ∧
    ∀ revision, DesiredRevision (at_operation merged) = Some revision → DesiredRevision q = Some revision.
Proof.
  apply (published_revision_final mw_store losing_surroundings merged operation (at_operation merged) merged).
  - apply published_evolves.
  - vm_compute. reflexivity.
  - apply rtc_refl.
Defined.

Lemma answer_stored_witness : stored (mw_store merged) (at_operation merged).
Proof.
  apply (answer_stored mw_store losing_surroundings reviewed operation merged (at_operation merged)).
  - apply reviewed_evolves.
  - right. right. right. vm_compute. reflexivity.
Defined.

Definition pulls (w : World) (head : string) : nat := length (List.filter (forHead head) (rm_pulls (mw_rest w))).

Lemma losing_provides : Provides pulls.
Proof.
  split; try done.
  - intros w x w' o. simpl. destruct (List.find _ _) eqn:Ef; [done|]. intros [= <- _].
    unfold pulls. induction (rm_pulls (mw_rest w)) as [|y l IH]; [done|]. simpl in *.
    destruct (forHead (fr_HeadRef x) y); [done|]. by apply IH.
  - intros w x h. simpl. unfold pulls, opens. simpl.
    rewrite List.filter_app, length_app. simpl. unfold forHead at 2. simpl.
    destruct (decide (h = cr_HeadRef x)) as [->|Hne].
    + rewrite String.eqb_refl. simpl. lia.
    + rewrite (proj2 (String.eqb_neq _ _)) by done. simpl. lia.
  - intros w p q. simpl. by destruct (CompareAndSwapPublication _ _ _).
  - intros refresh w p h [= <-]. done.
Qed.

Lemma one_pull_request_witness :
  (pulls merged (candidateRefPrefix +:+ operation) ≤ 1)%nat.
Proof.
  apply (one_pull_request pulls losing_provides begin).
  - vm_compute. lia.
  - apply published_calls.
Defined.
