(* ===== verification/ControlModel.v ===== *)
(** The state of the control-plane store: [Store] of
    [internal/store/memory/store.go] with the types of [internal/domain], the
    errors of [internal/store/store.go], and the small operations its handlers
    share (idempotency records, loops over a map).

    A record has a field for every field of the Go struct that a modelled
    handler reads or writes; a deployment's rendered configuration, route,
    runtime and environment are left out, as are the maps of configuration
    previews, registry plans and auto-deploy policies.  Of a registry record
    only the service it belongs to is kept, and of a pull credential only its
    project: a deletion matches on nothing else. *)

From S2P Require Import Prelude Regexp GoStrings Digest Encoding Access Publications.
From Stdlib Require Import Ascii.

Open Scope Z_scope.

(** * Errors ([internal/store/store.go])

    The deletion errors wrap [ErrConflict] with a reason. *)

Inductive StoreErr : Set :=
| ErrNotFound | ErrConflict | ErrDeletionConfirmation | ErrSelfDeletion
| ErrUserDeletionBlocked | ErrTeamDeletionBlocked | ErrProjectDeletionBlocked
| ErrApplicationDeletionBlocked | ErrEnvironmentDeletionBlocked
| ErrBootstrapConsumed | ErrIdempotencyConflict | ErrForbidden | ErrInvitationInvalid
| ErrOperationLeaseLost.

Definition wrapsConflict (e : StoreErr) : bool :=
  match e with
  | ErrConflict | ErrDeletionConfirmation | ErrSelfDeletion | ErrUserDeletionBlocked
  | ErrTeamDeletionBlocked | ErrProjectDeletionBlocked | ErrApplicationDeletionBlocked
  | ErrEnvironmentDeletionBlocked => true
  | _ => false
  end.

(** * Records *)

Record User := mkUser {
  u_ID : string;
  u_Email : string;
  u_DisplayName : string;
  u_Role : string;
  u_Issuer : string;
  u_Subject : string;
  u_GrantRevision : Z;
  u_CreatedAt : Time;
}.

Definition u_set_Email (v : string) (r : User) : User :=
  mkUser (u_ID r) v (u_DisplayName r) (u_Role r) (u_Issuer r) (u_Subject r) (u_GrantRevision r) (u_CreatedAt r).

Definition u_set_DisplayName (v : string) (r : User) : User :=
  mkUser (u_ID r) (u_Email r) v (u_Role r) (u_Issuer r) (u_Subject r) (u_GrantRevision r) (u_CreatedAt r).

Definition u_set_Issuer (v : string) (r : User) : User :=
  mkUser (u_ID r) (u_Email r) (u_DisplayName r) (u_Role r) v (u_Subject r) (u_GrantRevision r) (u_CreatedAt r).

Definition u_set_GrantRevision (v : Z) (r : User) : User :=
  mkUser (u_ID r) (u_Email r) (u_DisplayName r) (u_Role r) (u_Issuer r) (u_Subject r) v (u_CreatedAt r).

Record UserInvitation := mkInvitation {
  iv_ID : string;
  iv_Email : string;
  iv_ExpiresAt : Time;
}.

Definition iv_set_ExpiresAt (v : Time) (r : UserInvitation) : UserInvitation :=
  mkInvitation (iv_ID r) (iv_Email r) v.

Record invitationRecord := mkInvitationRecord {
  ir_invitation : UserInvitation;
  ir_email : string;
  ir_accepted : bool;
}.

Definition ir_set_invitation (v : UserInvitation) (r : invitationRecord) : invitationRecord :=
  mkInvitationRecord v (ir_email r) (ir_accepted r).

Definition ir_set_accepted (v : bool) (r : invitationRecord) : invitationRecord :=
  mkInvitationRecord (ir_invitation r) (ir_email r) v.

Record Team := mkTeam {
  tm_ID : string;
  tm_Name : string;
  tm_Slug : string;
  tm_CreatedAt : Time;
}.

(** [TeamMember]: the [User] pointer is only filled in by the listing, which pairs a member with its user. *)
Record TeamMember := mkMember {
  me_TeamID : string;
  me_UserID : string;
  me_Role : string;
  me_CreatedAt : Time;
}.

Definition me_set_Role (v : string) (r : TeamMember) : TeamMember :=
  mkMember (me_TeamID r) (me_UserID r) v (me_CreatedAt r).

Record GitHubInstallation := mkGitHubInstallation {
  gi_ID : string;
  gi_GitHubInstallationID : Z;
  gi_AccountLogin : string;
  gi_AccountType : string;
  gi_OwnerUserID : string;
  gi_Visibility : string;
  gi_TeamID : string;
  gi_RepositorySelection : string;
  gi_RepositoryCount : Z;
  gi_CreatedAt : Time;
  gi_UpdatedAt : Time;
}.

Definition gi_set_OwnerUserID (v : string) (r : GitHubInstallation) : GitHubInstallation :=
  mkGitHubInstallation (gi_ID r) (gi_GitHubInstallationID r) (gi_AccountLogin r) (gi_AccountType r) v (gi_Visibility r) (gi_TeamID r) (gi_RepositorySelection r) (gi_RepositoryCount r) (gi_CreatedAt r) (gi_UpdatedAt r).

Definition gi_set_Visibility (v : string) (r : GitHubInstallation) : GitHubInstallation :=
  mkGitHubInstallation (gi_ID r) (gi_GitHubInstallationID r) (gi_AccountLogin r) (gi_AccountType r) (gi_OwnerUserID r) v (gi_TeamID r) (gi_RepositorySelection r) (gi_RepositoryCount r) (gi_CreatedAt r) (gi_UpdatedAt r).

Definition gi_set_TeamID (v : string) (r : GitHubInstallation) : GitHubInstallation :=
  mkGitHubInstallation (gi_ID r) (gi_GitHubInstallationID r) (gi_AccountLogin r) (gi_AccountType r) (gi_OwnerUserID r) (gi_Visibility r) v (gi_RepositorySelection r) (gi_RepositoryCount r) (gi_CreatedAt r) (gi_UpdatedAt r).

Definition gi_set_RepositorySelection (v : string) (r : GitHubInstallation) : GitHubInstallation :=
  mkGitHubInstallation (gi_ID r) (gi_GitHubInstallationID r) (gi_AccountLogin r) (gi_AccountType r) (gi_OwnerUserID r) (gi_Visibility r) (gi_TeamID r) v (gi_RepositoryCount r) (gi_CreatedAt r) (gi_UpdatedAt r).

Definition gi_set_RepositoryCount (v : Z) (r : GitHubInstallation) : GitHubInstallation :=
  mkGitHubInstallation (gi_ID r) (gi_GitHubInstallationID r) (gi_AccountLogin r) (gi_AccountType r) (gi_OwnerUserID r) (gi_Visibility r) (gi_TeamID r) (gi_RepositorySelection r) v (gi_CreatedAt r) (gi_UpdatedAt r).

Definition gi_set_UpdatedAt (v : Time) (r : GitHubInstallation) : GitHubInstallation :=
  mkGitHubInstallation (gi_ID r) (gi_GitHubInstallationID r) (gi_AccountLogin r) (gi_AccountType r) (gi_OwnerUserID r) (gi_Visibility r) (gi_TeamID r) (gi_RepositorySelection r) (gi_RepositoryCount r) (gi_CreatedAt r) v.

Record AccessGrant := mkGrant {
  g_ID : string;
  g_SubjectUserID : string;
  g_SubjectTeamID : string;
  g_Role : AccessRole;
  g_ScopeType : AccessScopeType;
  g_ScopeID : string;
  g_Permissions : list Permission;
  g_Source : string;
  g_CreatedBy : string;
  g_CreatedAt : Time;
}.

Record ServiceAccount := mkAccount {
  sa_ID : string;
  sa_ProjectID : string;
  sa_Name : string;
  sa_Role : AccessRole;
  sa_CreatedBy : string;
  sa_CreatedAt : Time;
  sa_DisabledAt : option Time;
}.

Definition sa_set_DisabledAt (v : option Time) (r : ServiceAccount) : ServiceAccount :=
  mkAccount (sa_ID r) (sa_ProjectID r) (sa_Name r) (sa_Role r) (sa_CreatedBy r) (sa_CreatedAt r) v.

Record ServiceAccountToken := mkToken {
  tk_ID : string;
  tk_ServiceAccountID : string;
  tk_Name : string;
  tk_Prefix : string;
  tk_Scopes : list string;
  tk_ExpiresAt : Time;
  tk_LastUsedAt : option Time;
  tk_RevokedAt : option Time;
  tk_CreatedBy : string;
  tk_CreatedAt : Time;
}.

Definition tk_set_LastUsedAt (v : option Time) (r : ServiceAccountToken) : ServiceAccountToken :=
  mkToken (tk_ID r) (tk_ServiceAccountID r) (tk_Name r) (tk_Prefix r) (tk_Scopes r) (tk_ExpiresAt r) v (tk_RevokedAt r) (tk_CreatedBy r) (tk_CreatedAt r).

Definition tk_set_RevokedAt (v : option Time) (r : ServiceAccountToken) : ServiceAccountToken :=
  mkToken (tk_ID r) (tk_ServiceAccountID r) (tk_Name r) (tk_Prefix r) (tk_Scopes r) (tk_ExpiresAt r) (tk_LastUsedAt r) v (tk_CreatedBy r) (tk_CreatedAt r).

Record passwordCredential := mkCredential {
  pc_userID : string;
  pc_hash : string;
}.

Definition pc_set_hash (v : string) (r : passwordCredential) : passwordCredential :=
  mkCredential (pc_userID r) v.

Record session := mkSession {
  se_userID : string;
  se_revision : Z;
  se_expires : Time;
}.

Record Project := mkProject {
  p_ID : string;
  p_Name : string;
  p_Slug : string;
  p_TeamID : string;
  p_CreatedAt : Time;
}.

Record Environment := mkEnvironment {
  e_ID : string;
  e_ProjectID : string;
  e_Name : string;
  e_Slug : string;
  e_Namespace : string;
  e_ArgoProject : string;
  e_ProtectionPolicy : string;
  e_CreatedAt : Time;
}.

Record Application := mkApplication {
  ap_ID : string;
  ap_ProjectID : string;
  ap_Name : string;
  ap_Slug : string;
  ap_SourceKind : string;
  ap_CreatedAt : Time;
}.

Record EnvironmentAppPlacement := mkPlacement {
  pl_ProjectID : string;
  pl_EnvironmentID : string;
  pl_ApplicationID : string;
  pl_ApplicationName : string;
  pl_ApplicationSlug : string;
  pl_State : string;
  pl_DesiredState : string;
  pl_CreatedAt : Time;
  pl_UpdatedAt : Time;
}.

Definition pl_set_DesiredState (v : string) (r : EnvironmentAppPlacement) : EnvironmentAppPlacement :=
  mkPlacement (pl_ProjectID r) (pl_EnvironmentID r) (pl_ApplicationID r) (pl_ApplicationName r) (pl_ApplicationSlug r) (pl_State r) v (pl_CreatedAt r) (pl_UpdatedAt r).

Definition pl_set_UpdatedAt (v : Time) (r : EnvironmentAppPlacement) : EnvironmentAppPlacement :=
  mkPlacement (pl_ProjectID r) (pl_EnvironmentID r) (pl_ApplicationID r) (pl_ApplicationName r) (pl_ApplicationSlug r) (pl_State r) (pl_DesiredState r) (pl_CreatedAt r) v.

Record Deployment := mkDeployment {
  dp_ID : string;
  dp_EnvironmentID : string;
  dp_ApplicationID : string;
  dp_Image : string;
  dp_Replicas : Z;
  dp_Port : Z;
  dp_State : string;
  dp_OperationID : string;
  dp_Generation : Z;
  dp_DesiredRevision : string;
  dp_ObservedRevision : string;
  dp_CreatedAt : Time;
  dp_UpdatedAt : Time;
}.

Definition dp_set_State (v : string) (r : Deployment) : Deployment :=
  mkDeployment (dp_ID r) (dp_EnvironmentID r) (dp_ApplicationID r) (dp_Image r) (dp_Replicas r) (dp_Port r) v (dp_OperationID r) (dp_Generation r) (dp_DesiredRevision r) (dp_ObservedRevision r) (dp_CreatedAt r) (dp_UpdatedAt r).

Definition dp_set_DesiredRevision (v : string) (r : Deployment) : Deployment :=
  mkDeployment (dp_ID r) (dp_EnvironmentID r) (dp_ApplicationID r) (dp_Image r) (dp_Replicas r) (dp_Port r) (dp_State r) (dp_OperationID r) (dp_Generation r) v (dp_ObservedRevision r) (dp_CreatedAt r) (dp_UpdatedAt r).

Definition dp_set_UpdatedAt (v : Time) (r : Deployment) : Deployment :=
  mkDeployment (dp_ID r) (dp_EnvironmentID r) (dp_ApplicationID r) (dp_Image r) (dp_Replicas r) (dp_Port r) (dp_State r) (dp_OperationID r) (dp_Generation r) (dp_DesiredRevision r) (dp_ObservedRevision r) (dp_CreatedAt r) v.

Record ProgressStep := mkStep {
  ps_Name : string;
  ps_Status : string;
  ps_Detail : string;
  ps_StartedAt : option Time;
  ps_FinishedAt : option Time;
}.

Record ProblemData := mkProblem {
  pb_Code : string;
  pb_Detail : string;
}.

Record PullRequestPublication := mkPullRequest {
  pr_Number : Z;
  pr_URL : string;
  pr_State : string;
  pr_CandidateRevision : string;
}.

Record Operation := mkOperation {
  op_ID : string;
  op_Kind : string;
  op_Status : string;
  op_TargetType : string;
  op_TargetID : string;
  op_RequestID : string;
  op_Generation : Z;
  op_Progress : list ProgressStep;
  op_GitRevision : string;
  op_PullRequest : option PullRequestPublication;
  op_Problem : option ProblemData;
  op_CreatedAt : Time;
  op_UpdatedAt : Time;
  op_FinishedAt : option Time;
}.

Definition op_set_Status (v : string) (r : Operation) : Operation :=
  mkOperation (op_ID r) (op_Kind r) v (op_TargetType r) (op_TargetID r) (op_RequestID r) (op_Generation r) (op_Progress r) (op_GitRevision r) (op_PullRequest r) (op_Problem r) (op_CreatedAt r) (op_UpdatedAt r) (op_FinishedAt r).

Definition op_set_Progress (v : list ProgressStep) (r : Operation) : Operation :=
  mkOperation (op_ID r) (op_Kind r) (op_Status r) (op_TargetType r) (op_TargetID r) (op_RequestID r) (op_Generation r) v (op_GitRevision r) (op_PullRequest r) (op_Problem r) (op_CreatedAt r) (op_UpdatedAt r) (op_FinishedAt r).

Definition op_set_GitRevision (v : string) (r : Operation) : Operation :=
  mkOperation (op_ID r) (op_Kind r) (op_Status r) (op_TargetType r) (op_TargetID r) (op_RequestID r) (op_Generation r) (op_Progress r) v (op_PullRequest r) (op_Problem r) (op_CreatedAt r) (op_UpdatedAt r) (op_FinishedAt r).

Definition op_set_PullRequest (v : option PullRequestPublication) (r : Operation) : Operation :=
  mkOperation (op_ID r) (op_Kind r) (op_Status r) (op_TargetType r) (op_TargetID r) (op_RequestID r) (op_Generation r) (op_Progress r) (op_GitRevision r) v (op_Problem r) (op_CreatedAt r) (op_UpdatedAt r) (op_FinishedAt r).

Definition op_set_Problem (v : option ProblemData) (r : Operation) : Operation :=
  mkOperation (op_ID r) (op_Kind r) (op_Status r) (op_TargetType r) (op_TargetID r) (op_RequestID r) (op_Generation r) (op_Progress r) (op_GitRevision r) (op_PullRequest r) v (op_CreatedAt r) (op_UpdatedAt r) (op_FinishedAt r).

Definition op_set_UpdatedAt (v : Time) (r : Operation) : Operation :=
  mkOperation (op_ID r) (op_Kind r) (op_Status r) (op_TargetType r) (op_TargetID r) (op_RequestID r) (op_Generation r) (op_Progress r) (op_GitRevision r) (op_PullRequest r) (op_Problem r) (op_CreatedAt r) v (op_FinishedAt r).

Definition op_set_FinishedAt (v : option Time) (r : Operation) : Operation :=
  mkOperation (op_ID r) (op_Kind r) (op_Status r) (op_TargetType r) (op_TargetID r) (op_RequestID r) (op_Generation r) (op_Progress r) (op_GitRevision r) (op_PullRequest r) (op_Problem r) (op_CreatedAt r) (op_UpdatedAt r) v.

Record idemRecord := mkIdem {
  id_fingerprint : string;
  id_typ : string;
  id_resourceID : string;
  id_operationID : string;
}.

Record WorkMessage := mkMessage {
  wm_OperationID : string;
  wm_Kind : string;
  wm_ScopeID : string;
  wm_Generation : Z;
  wm_TraceID : string;
  wm_DeliveryID : string;
}.

Record outboxRecord := mkOutbox {
  ob_message : WorkMessage;
  ob_published : bool;
  ob_attempts : Z;
}.

Definition ob_set_published (v : bool) (r : outboxRecord) : outboxRecord :=
  mkOutbox (ob_message r) v (ob_attempts r).

Definition ob_set_attempts (v : Z) (r : outboxRecord) : outboxRecord :=
  mkOutbox (ob_message r) (ob_published r) v.

Record WriteCommand := mkCommand {
  wc_DeploymentID : string;
  wc_Action : string;
}.

Record operationLease := mkLease {
  le_owner : string;
  le_until : Time;
}.
(** Go's zero values, which a map lookup that misses yields. *)

Definition zeroUser : User := mkUser "" "" "" "" "" "" 0 zero_time.
Definition zeroServiceAccountToken : ServiceAccountToken := mkToken "" "" "" "" [] zero_time None None "" zero_time.
Definition zeroProject : Project := mkProject "" "" "" "" zero_time.
Definition zeroEnvironment : Environment := mkEnvironment "" "" "" "" "" "" "" zero_time.
Definition zeroApplication : Application := mkApplication "" "" "" "" "" zero_time.
Definition zeroEnvironmentAppPlacement : EnvironmentAppPlacement := mkPlacement "" "" "" "" "" "" "" zero_time zero_time.
Definition zeroDeployment : Deployment := mkDeployment "" "" "" "" 0 0 "" "" 0 "" "" zero_time zero_time.
Definition zeroTeam : Team := mkTeam "" "" "" zero_time.
Definition zeroTeamMember : TeamMember := mkMember "" "" "" zero_time.
Definition zeroGitHubInstallation : GitHubInstallation := mkGitHubInstallation "" 0 "" "" "" "" "" "" 0 zero_time zero_time.
Definition zeroOperation : Operation := mkOperation "" "" "" "" "" "" 0 [] "" None None zero_time zero_time None.

(** * The store *)

Record Store := mkControl {
  s_users : gmap string User;
  s_invitations : gmap string invitationRecord;
  s_teams : gmap string Team;
  s_memberships : gmap string (gmap string TeamMember);
  s_installations : gmap string GitHubInstallation;
  s_accessGrants : gmap string AccessGrant;
  s_serviceAccounts : gmap string ServiceAccount;
  s_serviceAccountTokens : gmap string ServiceAccountToken;
  s_serviceAccountTokenHashes : gmap string string;
  s_passwordCredentials : gmap string passwordCredential;
  s_sessions : gmap string session;
  s_projects : gmap string Project;
  s_environments : gmap string Environment;
  s_applications : gmap string Application;
  s_environmentAppPlacements : gmap string (gmap string EnvironmentAppPlacement);
  s_deployments : gmap string Deployment;
  s_deploymentInputs : gmap string Deployment;
  s_gitWriteCommands : gmap string WriteCommand;
  s_gitPublicationModes : gmap string string;
  s_gitPublications : gmap string Publication;
  s_gitBindings : gset string;
  s_operations : gmap string Operation;
  s_idempotency : gmap string idemRecord;
  s_outbox : gmap string outboxRecord;
  s_outboxDatasetID : string;
  s_audits : Z;
  s_leases : gmap string operationLease;
  s_projectRegistryPullCredentials : gmap string string;
  s_registryPolicies : gmap string string;
  s_registryPins : gmap string string;
  s_registryAuthorities : gmap string string;
  s_registryReleases : gmap string string;
  s_registryCaches : gmap string string;
}.

Definition s_set_users (v : gmap string User) (r : Store) : Store :=
  mkControl v (s_invitations r) (s_teams r) (s_memberships r) (s_installations r) (s_accessGrants r) (s_serviceAccounts r) (s_serviceAccountTokens r) (s_serviceAccountTokenHashes r) (s_passwordCredentials r) (s_sessions r) (s_projects r) (s_environments r) (s_applications r) (s_environmentAppPlacements r) (s_deployments r) (s_deploymentInputs r) (s_gitWriteCommands r) (s_gitPublicationModes r) (s_gitPublications r) (s_gitBindings r) (s_operations r) (s_idempotency r) (s_outbox r) (s_outboxDatasetID r) (s_audits r) (s_leases r) (s_projectRegistryPullCredentials r) (s_registryPolicies r) (s_registryPins r) (s_registryAuthorities r) (s_registryReleases r) (s_registryCaches r).

Definition s_set_invitations (v : gmap string invitationRecord) (r : Store) : Store :=
  mkControl (s_users r) v (s_teams r) (s_memberships r) (s_installations r) (s_accessGrants r) (s_serviceAccounts r) (s_serviceAccountTokens r) (s_serviceAccountTokenHashes r) (s_passwordCredentials r) (s_sessions r) (s_projects r) (s_environments r) (s_applications r) (s_environmentAppPlacements r) (s_deployments r) (s_deploymentInputs r) (s_gitWriteCommands r) (s_gitPublicationModes r) (s_gitPublications r) (s_gitBindings r) (s_operations r) (s_idempotency r) (s_outbox r) (s_outboxDatasetID r) (s_audits r) (s_leases r) (s_projectRegistryPullCredentials r) (s_registryPolicies r) (s_registryPins r) (s_registryAuthorities r) (s_registryReleases r) (s_registryCaches r).

Definition s_set_teams (v : gmap string Team) (r : Store) : Store :=
  mkControl (s_users r) (s_invitations r) v (s_memberships r) (s_installations r) (s_accessGrants r) (s_serviceAccounts r) (s_serviceAccountTokens r) (s_serviceAccountTokenHashes r) (s_passwordCredentials r) (s_sessions r) (s_projects r) (s_environments r) (s_applications r) (s_environmentAppPlacements r) (s_deployments r) (s_deploymentInputs r) (s_gitWriteCommands r) (s_gitPublicationModes r) (s_gitPublications r) (s_gitBindings r) (s_operations r) (s_idempotency r) (s_outbox r) (s_outboxDatasetID r) (s_audits r) (s_leases r) (s_projectRegistryPullCredentials r) (s_registryPolicies r) (s_registryPins r) (s_registryAuthorities r) (s_registryReleases r) (s_registryCaches r).

Definition s_set_memberships (v : gmap string (gmap string TeamMember)) (r : Store) : Store :=
  mkControl (s_users r) (s_invitations r) (s_teams r) v (s_installations r) (s_accessGrants r) (s_serviceAccounts r) (s_serviceAccountTokens r) (s_serviceAccountTokenHashes r) (s_passwordCredentials r) (s_sessions r) (s_projects r) (s_environments r) (s_applications r) (s_environmentAppPlacements r) (s_deployments r) (s_deploymentInputs r) (s_gitWriteCommands r) (s_gitPublicationModes r) (s_gitPublications r) (s_gitBindings r) (s_operations r) (s_idempotency r) (s_outbox r) (s_outboxDatasetID r) (s_audits r) (s_leases r) (s_projectRegistryPullCredentials r) (s_registryPolicies r) (s_registryPins r) (s_registryAuthorities r) (s_registryReleases r) (s_registryCaches r).

Definition s_set_installations (v : gmap string GitHubInstallation) (r : Store) : Store :=
  mkControl (s_users r) (s_invitations r) (s_teams r) (s_memberships r) v (s_accessGrants r) (s_serviceAccounts r) (s_serviceAccountTokens r) (s_serviceAccountTokenHashes r) (s_passwordCredentials r) (s_sessions r) (s_projects r) (s_environments r) (s_applications r) (s_environmentAppPlacements r) (s_deployments r) (s_deploymentInputs r) (s_gitWriteCommands r) (s_gitPublicationModes r) (s_gitPublications r) (s_gitBindings r) (s_operations r) (s_idempotency r) (s_outbox r) (s_outboxDatasetID r) (s_audits r) (s_leases r) (s_projectRegistryPullCredentials r) (s_registryPolicies r) (s_registryPins r) (s_registryAuthorities r) (s_registryReleases r) (s_registryCaches r).

Definition s_set_accessGrants (v : gmap string AccessGrant) (r : Store) : Store :=
  mkControl (s_users r) (s_invitations r) (s_teams r) (s_memberships r) (s_installations r) v (s_serviceAccounts r) (s_serviceAccountTokens r) (s_serviceAccountTokenHashes r) (s_passwordCredentials r) (s_sessions r) (s_projects r) (s_environments r) (s_applications r) (s_environmentAppPlacements r) (s_deployments r) (s_deploymentInputs r) (s_gitWriteCommands r) (s_gitPublicationModes r) (s_gitPublications r) (s_gitBindings r) (s_operations r) (s_idempotency r) (s_outbox r) (s_outboxDatasetID r) (s_audits r) (s_leases r) (s_projectRegistryPullCredentials r) (s_registryPolicies r) (s_registryPins r) (s_registryAuthorities r) (s_registryReleases r) (s_registryCaches r).

Definition s_set_serviceAccounts (v : gmap string ServiceAccount) (r : Store) : Store :=
  mkControl (s_users r) (s_invitations r) (s_teams r) (s_memberships r) (s_installations r) (s_accessGrants r) v (s_serviceAccountTokens r) (s_serviceAccountTokenHashes r) (s_passwordCredentials r) (s_sessions r) (s_projects r) (s_environments r) (s_applications r) (s_environmentAppPlacements r) (s_deployments r) (s_deploymentInputs r) (s_gitWriteCommands r) (s_gitPublicationModes r) (s_gitPublications r) (s_gitBindings r) (s_operations r) (s_idempotency r) (s_outbox r) (s_outboxDatasetID r) (s_audits r) (s_leases r) (s_projectRegistryPullCredentials r) (s_registryPolicies r) (s_registryPins r) (s_registryAuthorities r) (s_registryReleases r) (s_registryCaches r).

Definition s_set_serviceAccountTokens (v : gmap string ServiceAccountToken) (r : Store) : Store :=
  mkControl (s_users r) (s_invitations r) (s_teams r) (s_memberships r) (s_installations r) (s_accessGrants r) (s_serviceAccounts r) v (s_serviceAccountTokenHashes r) (s_passwordCredentials r) (s_sessions r) (s_projects r) (s_environments r) (s_applications r) (s_environmentAppPlacements r) (s_deployments r) (s_deploymentInputs r) (s_gitWriteCommands r) (s_gitPublicationModes r) (s_gitPublications r) (s_gitBindings r) (s_operations r) (s_idempotency r) (s_outbox r) (s_outboxDatasetID r) (s_audits r) (s_leases r) (s_projectRegistryPullCredentials r) (s_registryPolicies r) (s_registryPins r) (s_registryAuthorities r) (s_registryReleases r) (s_registryCaches r).

Definition s_set_serviceAccountTokenHashes (v : gmap string string) (r : Store) : Store :=
  mkControl (s_users r) (s_invitations r) (s_teams r) (s_memberships r) (s_installations r) (s_accessGrants r) (s_serviceAccounts r) (s_serviceAccountTokens r) v (s_passwordCredentials r) (s_sessions r) (s_projects r) (s_environments r) (s_applications r) (s_environmentAppPlacements r) (s_deployments r) (s_deploymentInputs r) (s_gitWriteCommands r) (s_gitPublicationModes r) (s_gitPublications r) (s_gitBindings r) (s_operations r) (s_idempotency r) (s_outbox r) (s_outboxDatasetID r) (s_audits r) (s_leases r) (s_projectRegistryPullCredentials r) (s_registryPolicies r) (s_registryPins r) (s_registryAuthorities r) (s_registryReleases r) (s_registryCaches r).

Definition s_set_passwordCredentials (v : gmap string passwordCredential) (r : Store) : Store :=
  mkControl (s_users r) (s_invitations r) (s_teams r) (s_memberships r) (s_installations r) (s_accessGrants r) (s_serviceAccounts r) (s_serviceAccountTokens r) (s_serviceAccountTokenHashes r) v (s_sessions r) (s_projects r) (s_environments r) (s_applications r) (s_environmentAppPlacements r) (s_deployments r) (s_deploymentInputs r) (s_gitWriteCommands r) (s_gitPublicationModes r) (s_gitPublications r) (s_gitBindings r) (s_operations r) (s_idempotency r) (s_outbox r) (s_outboxDatasetID r) (s_audits r) (s_leases r) (s_projectRegistryPullCredentials r) (s_registryPolicies r) (s_registryPins r) (s_registryAuthorities r) (s_registryReleases r) (s_registryCaches r).

Definition s_set_sessions (v : gmap string session) (r : Store) : Store :=
  mkControl (s_users r) (s_invitations r) (s_teams r) (s_memberships r) (s_installations r) (s_accessGrants r) (s_serviceAccounts r) (s_serviceAccountTokens r) (s_serviceAccountTokenHashes r) (s_passwordCredentials r) v (s_projects r) (s_environments r) (s_applications r) (s_environmentAppPlacements r) (s_deployments r) (s_deploymentInputs r) (s_gitWriteCommands r) (s_gitPublicationModes r) (s_gitPublications r) (s_gitBindings r) (s_operations r) (s_idempotency r) (s_outbox r) (s_outboxDatasetID r) (s_audits r) (s_leases r) (s_projectRegistryPullCredentials r) (s_registryPolicies r) (s_registryPins r) (s_registryAuthorities r) (s_registryReleases r) (s_registryCaches r).

Definition s_set_projects (v : gmap string Project) (r : Store) : Store :=
  mkControl (s_users r) (s_invitations r) (s_teams r) (s_memberships r) (s_installations r) (s_accessGrants r) (s_serviceAccounts r) (s_serviceAccountTokens r) (s_serviceAccountTokenHashes r) (s_passwordCredentials r) (s_sessions r) v (s_environments r) (s_applications r) (s_environmentAppPlacements r) (s_deployments r) (s_deploymentInputs r) (s_gitWriteCommands r) (s_gitPublicationModes r) (s_gitPublications r) (s_gitBindings r) (s_operations r) (s_idempotency r) (s_outbox r) (s_outboxDatasetID r) (s_audits r) (s_leases r) (s_projectRegistryPullCredentials r) (s_registryPolicies r) (s_registryPins r) (s_registryAuthorities r) (s_registryReleases r) (s_registryCaches r).

Definition s_set_environments (v : gmap string Environment) (r : Store) : Store :=
  mkControl (s_users r) (s_invitations r) (s_teams r) (s_memberships r) (s_installations r) (s_accessGrants r) (s_serviceAccounts r) (s_serviceAccountTokens r) (s_serviceAccountTokenHashes r) (s_passwordCredentials r) (s_sessions r) (s_projects r) v (s_applications r) (s_environmentAppPlacements r) (s_deployments r) (s_deploymentInputs r) (s_gitWriteCommands r) (s_gitPublicationModes r) (s_gitPublications r) (s_gitBindings r) (s_operations r) (s_idempotency r) (s_outbox r) (s_outboxDatasetID r) (s_audits r) (s_leases r) (s_projectRegistryPullCredentials r) (s_registryPolicies r) (s_registryPins r) (s_registryAuthorities r) (s_registryReleases r) (s_registryCaches r).

Definition s_set_applications (v : gmap string Application) (r : Store) : Store :=
  mkControl (s_users r) (s_invitations r) (s_teams r) (s_memberships r) (s_installations r) (s_accessGrants r) (s_serviceAccounts r) (s_serviceAccountTokens r) (s_serviceAccountTokenHashes r) (s_passwordCredentials r) (s_sessions r) (s_projects r) (s_environments r) v (s_environmentAppPlacements r) (s_deployments r) (s_deploymentInputs r) (s_gitWriteCommands r) (s_gitPublicationModes r) (s_gitPublications r) (s_gitBindings r) (s_operations r) (s_idempotency r) (s_outbox r) (s_outboxDatasetID r) (s_audits r) (s_leases r) (s_projectRegistryPullCredentials r) (s_registryPolicies r) (s_registryPins r) (s_registryAuthorities r) (s_registryReleases r) (s_registryCaches r).

Definition s_set_environmentAppPlacements (v : gmap string (gmap string EnvironmentAppPlacement)) (r : Store) : Store :=
  mkControl (s_users r) (s_invitations r) (s_teams r) (s_memberships r) (s_installations r) (s_accessGrants r) (s_serviceAccounts r) (s_serviceAccountTokens r) (s_serviceAccountTokenHashes r) (s_passwordCredentials r) (s_sessions r) (s_projects r) (s_environments r) (s_applications r) v (s_deployments r) (s_deploymentInputs r) (s_gitWriteCommands r) (s_gitPublicationModes r) (s_gitPublications r) (s_gitBindings r) (s_operations r) (s_idempotency r) (s_outbox r) (s_outboxDatasetID r) (s_audits r) (s_leases r) (s_projectRegistryPullCredentials r) (s_registryPolicies r) (s_registryPins r) (s_registryAuthorities r) (s_registryReleases r) (s_registryCaches r).

Definition s_set_deployments (v : gmap string Deployment) (r : Store) : Store :=
  mkControl (s_users r) (s_invitations r) (s_teams r) (s_memberships r) (s_installations r) (s_accessGrants r) (s_serviceAccounts r) (s_serviceAccountTokens r) (s_serviceAccountTokenHashes r) (s_passwordCredentials r) (s_sessions r) (s_projects r) (s_environments r) (s_applications r) (s_environmentAppPlacements r) v (s_deploymentInputs r) (s_gitWriteCommands r) (s_gitPublicationModes r) (s_gitPublications r) (s_gitBindings r) (s_operations r) (s_idempotency r) (s_outbox r) (s_outboxDatasetID r) (s_audits r) (s_leases r) (s_projectRegistryPullCredentials r) (s_registryPolicies r) (s_registryPins r) (s_registryAuthorities r) (s_registryReleases r) (s_registryCaches r).

Definition s_set_deploymentInputs (v : gmap string Deployment) (r : Store) : Store :=
  mkControl (s_users r) (s_invitations r) (s_teams r) (s_memberships r) (s_installations r) (s_accessGrants r) (s_serviceAccounts r) (s_serviceAccountTokens r) (s_serviceAccountTokenHashes r) (s_passwordCredentials r) (s_sessions r) (s_projects r) (s_environments r) (s_applications r) (s_environmentAppPlacements r) (s_deployments r) v (s_gitWriteCommands r) (s_gitPublicationModes r) (s_gitPublications r) (s_gitBindings r) (s_operations r) (s_idempotency r) (s_outbox r) (s_outboxDatasetID r) (s_audits r) (s_leases r) (s_projectRegistryPullCredentials r) (s_registryPolicies r) (s_registryPins r) (s_registryAuthorities r) (s_registryReleases r) (s_registryCaches r).

Definition s_set_gitWriteCommands (v : gmap string WriteCommand) (r : Store) : Store :=
  mkControl (s_users r) (s_invitations r) (s_teams r) (s_memberships r) (s_installations r) (s_accessGrants r) (s_serviceAccounts r) (s_serviceAccountTokens r) (s_serviceAccountTokenHashes r) (s_passwordCredentials r) (s_sessions r) (s_projects r) (s_environments r) (s_applications r) (s_environmentAppPlacements r) (s_deployments r) (s_deploymentInputs r) v (s_gitPublicationModes r) (s_gitPublications r) (s_gitBindings r) (s_operations r) (s_idempotency r) (s_outbox r) (s_outboxDatasetID r) (s_audits r) (s_leases r) (s_projectRegistryPullCredentials r) (s_registryPolicies r) (s_registryPins r) (s_registryAuthorities r) (s_registryReleases r) (s_registryCaches r).

Definition s_set_gitPublicationModes (v : gmap string string) (r : Store) : Store :=
  mkControl (s_users r) (s_invitations r) (s_teams r) (s_memberships r) (s_installations r) (s_accessGrants r) (s_serviceAccounts r) (s_serviceAccountTokens r) (s_serviceAccountTokenHashes r) (s_passwordCredentials r) (s_sessions r) (s_projects r) (s_environments r) (s_applications r) (s_environmentAppPlacements r) (s_deployments r) (s_deploymentInputs r) (s_gitWriteCommands r) v (s_gitPublications r) (s_gitBindings r) (s_operations r) (s_idempotency r) (s_outbox r) (s_outboxDatasetID r) (s_audits r) (s_leases r) (s_projectRegistryPullCredentials r) (s_registryPolicies r) (s_registryPins r) (s_registryAuthorities r) (s_registryReleases r) (s_registryCaches r).

Definition s_set_gitPublications (v : gmap string Publication) (r : Store) : Store :=
  mkControl (s_users r) (s_invitations r) (s_teams r) (s_memberships r) (s_installations r) (s_accessGrants r) (s_serviceAccounts r) (s_serviceAccountTokens r) (s_serviceAccountTokenHashes r) (s_passwordCredentials r) (s_sessions r) (s_projects r) (s_environments r) (s_applications r) (s_environmentAppPlacements r) (s_deployments r) (s_deploymentInputs r) (s_gitWriteCommands r) (s_gitPublicationModes r) v (s_gitBindings r) (s_operations r) (s_idempotency r) (s_outbox r) (s_outboxDatasetID r) (s_audits r) (s_leases r) (s_projectRegistryPullCredentials r) (s_registryPolicies r) (s_registryPins r) (s_registryAuthorities r) (s_registryReleases r) (s_registryCaches r).

Definition s_set_gitBindings (v : gset string) (r : Store) : Store :=
  mkControl (s_users r) (s_invitations r) (s_teams r) (s_memberships r) (s_installations r) (s_accessGrants r) (s_serviceAccounts r) (s_serviceAccountTokens r) (s_serviceAccountTokenHashes r) (s_passwordCredentials r) (s_sessions r) (s_projects r) (s_environments r) (s_applications r) (s_environmentAppPlacements r) (s_deployments r) (s_deploymentInputs r) (s_gitWriteCommands r) (s_gitPublicationModes r) (s_gitPublications r) v (s_operations r) (s_idempotency r) (s_outbox r) (s_outboxDatasetID r) (s_audits r) (s_leases r) (s_projectRegistryPullCredentials r) (s_registryPolicies r) (s_registryPins r) (s_registryAuthorities r) (s_registryReleases r) (s_registryCaches r).

Definition s_set_operations (v : gmap string Operation) (r : Store) : Store :=
  mkControl (s_users r) (s_invitations r) (s_teams r) (s_memberships r) (s_installations r) (s_accessGrants r) (s_serviceAccounts r) (s_serviceAccountTokens r) (s_serviceAccountTokenHashes r) (s_passwordCredentials r) (s_sessions r) (s_projects r) (s_environments r) (s_applications r) (s_environmentAppPlacements r) (s_deployments r) (s_deploymentInputs r) (s_gitWriteCommands r) (s_gitPublicationModes r) (s_gitPublications r) (s_gitBindings r) v (s_idempotency r) (s_outbox r) (s_outboxDatasetID r) (s_audits r) (s_leases r) (s_projectRegistryPullCredentials r) (s_registryPolicies r) (s_registryPins r) (s_registryAuthorities r) (s_registryReleases r) (s_registryCaches r).

Definition s_set_idempotency (v : gmap string idemRecord) (r : Store) : Store :=
  mkControl (s_users r) (s_invitations r) (s_teams r) (s_memberships r) (s_installations r) (s_accessGrants r) (s_serviceAccounts r) (s_serviceAccountTokens r) (s_serviceAccountTokenHashes r) (s_passwordCredentials r) (s_sessions r) (s_projects r) (s_environments r) (s_applications r) (s_environmentAppPlacements r) (s_deployments r) (s_deploymentInputs r) (s_gitWriteCommands r) (s_gitPublicationModes r) (s_gitPublications r) (s_gitBindings r) (s_operations r) v (s_outbox r) (s_outboxDatasetID r) (s_audits r) (s_leases r) (s_projectRegistryPullCredentials r) (s_registryPolicies r) (s_registryPins r) (s_registryAuthorities r) (s_registryReleases r) (s_registryCaches r).

Definition s_set_outbox (v : gmap string outboxRecord) (r : Store) : Store :=
  mkControl (s_users r) (s_invitations r) (s_teams r) (s_memberships r) (s_installations r) (s_accessGrants r) (s_serviceAccounts r) (s_serviceAccountTokens r) (s_serviceAccountTokenHashes r) (s_passwordCredentials r) (s_sessions r) (s_projects r) (s_environments r) (s_applications r) (s_environmentAppPlacements r) (s_deployments r) (s_deploymentInputs r) (s_gitWriteCommands r) (s_gitPublicationModes r) (s_gitPublications r) (s_gitBindings r) (s_operations r) (s_idempotency r) v (s_outboxDatasetID r) (s_audits r) (s_leases r) (s_projectRegistryPullCredentials r) (s_registryPolicies r) (s_registryPins r) (s_registryAuthorities r) (s_registryReleases r) (s_registryCaches r).

Definition s_set_outboxDatasetID (v : string) (r : Store) : Store :=
  mkControl (s_users r) (s_invitations r) (s_teams r) (s_memberships r) (s_installations r) (s_accessGrants r) (s_serviceAccounts r) (s_serviceAccountTokens r) (s_serviceAccountTokenHashes r) (s_passwordCredentials r) (s_sessions r) (s_projects r) (s_environments r) (s_applications r) (s_environmentAppPlacements r) (s_deployments r) (s_deploymentInputs r) (s_gitWriteCommands r) (s_gitPublicationModes r) (s_gitPublications r) (s_gitBindings r) (s_operations r) (s_idempotency r) (s_outbox r) v (s_audits r) (s_leases r) (s_projectRegistryPullCredentials r) (s_registryPolicies r) (s_registryPins r) (s_registryAuthorities r) (s_registryReleases r) (s_registryCaches r).

Definition s_set_audits (v : Z) (r : Store) : Store :=
  mkControl (s_users r) (s_invitations r) (s_teams r) (s_memberships r) (s_installations r) (s_accessGrants r) (s_serviceAccounts r) (s_serviceAccountTokens r) (s_serviceAccountTokenHashes r) (s_passwordCredentials r) (s_sessions r) (s_projects r) (s_environments r) (s_applications r) (s_environmentAppPlacements r) (s_deployments r) (s_deploymentInputs r) (s_gitWriteCommands r) (s_gitPublicationModes r) (s_gitPublications r) (s_gitBindings r) (s_operations r) (s_idempotency r) (s_outbox r) (s_outboxDatasetID r) v (s_leases r) (s_projectRegistryPullCredentials r) (s_registryPolicies r) (s_registryPins r) (s_registryAuthorities r) (s_registryReleases r) (s_registryCaches r).

Definition s_set_leases (v : gmap string operationLease) (r : Store) : Store :=
  mkControl (s_users r) (s_invitations r) (s_teams r) (s_memberships r) (s_installations r) (s_accessGrants r) (s_serviceAccounts r) (s_serviceAccountTokens r) (s_serviceAccountTokenHashes r) (s_passwordCredentials r) (s_sessions r) (s_projects r) (s_environments r) (s_applications r) (s_environmentAppPlacements r) (s_deployments r) (s_deploymentInputs r) (s_gitWriteCommands r) (s_gitPublicationModes r) (s_gitPublications r) (s_gitBindings r) (s_operations r) (s_idempotency r) (s_outbox r) (s_outboxDatasetID r) (s_audits r) v (s_projectRegistryPullCredentials r) (s_registryPolicies r) (s_registryPins r) (s_registryAuthorities r) (s_registryReleases r) (s_registryCaches r).

Definition s_set_projectRegistryPullCredentials (v : gmap string string) (r : Store) : Store :=
  mkControl (s_users r) (s_invitations r) (s_teams r) (s_memberships r) (s_installations r) (s_accessGrants r) (s_serviceAccounts r) (s_serviceAccountTokens r) (s_serviceAccountTokenHashes r) (s_passwordCredentials r) (s_sessions r) (s_projects r) (s_environments r) (s_applications r) (s_environmentAppPlacements r) (s_deployments r) (s_deploymentInputs r) (s_gitWriteCommands r) (s_gitPublicationModes r) (s_gitPublications r) (s_gitBindings r) (s_operations r) (s_idempotency r) (s_outbox r) (s_outboxDatasetID r) (s_audits r) (s_leases r) v (s_registryPolicies r) (s_registryPins r) (s_registryAuthorities r) (s_registryReleases r) (s_registryCaches r).

Definition s_set_registryPolicies (v : gmap string string) (r : Store) : Store :=
  mkControl (s_users r) (s_invitations r) (s_teams r) (s_memberships r) (s_installations r) (s_accessGrants r) (s_serviceAccounts r) (s_serviceAccountTokens r) (s_serviceAccountTokenHashes r) (s_passwordCredentials r) (s_sessions r) (s_projects r) (s_environments r) (s_applications r) (s_environmentAppPlacements r) (s_deployments r) (s_deploymentInputs r) (s_gitWriteCommands r) (s_gitPublicationModes r) (s_gitPublications r) (s_gitBindings r) (s_operations r) (s_idempotency r) (s_outbox r) (s_outboxDatasetID r) (s_audits r) (s_leases r) (s_projectRegistryPullCredentials r) v (s_registryPins r) (s_registryAuthorities r) (s_registryReleases r) (s_registryCaches r).

Definition s_set_registryPins (v : gmap string string) (r : Store) : Store :=
  mkControl (s_users r) (s_invitations r) (s_teams r) (s_memberships r) (s_installations r) (s_accessGrants r) (s_serviceAccounts r) (s_serviceAccountTokens r) (s_serviceAccountTokenHashes r) (s_passwordCredentials r) (s_sessions r) (s_projects r) (s_environments r) (s_applications r) (s_environmentAppPlacements r) (s_deployments r) (s_deploymentInputs r) (s_gitWriteCommands r) (s_gitPublicationModes r) (s_gitPublications r) (s_gitBindings r) (s_operations r) (s_idempotency r) (s_outbox r) (s_outboxDatasetID r) (s_audits r) (s_leases r) (s_projectRegistryPullCredentials r) (s_registryPolicies r) v (s_registryAuthorities r) (s_registryReleases r) (s_registryCaches r).

Definition s_set_registryAuthorities (v : gmap string string) (r : Store) : Store :=
  mkControl (s_users r) (s_invitations r) (s_teams r) (s_memberships r) (s_installations r) (s_accessGrants r) (s_serviceAccounts r) (s_serviceAccountTokens r) (s_serviceAccountTokenHashes r) (s_passwordCredentials r) (s_sessions r) (s_projects r) (s_environments r) (s_applications r) (s_environmentAppPlacements r) (s_deployments r) (s_deploymentInputs r) (s_gitWriteCommands r) (s_gitPublicationModes r) (s_gitPublications r) (s_gitBindings r) (s_operations r) (s_idempotency r) (s_outbox r) (s_outboxDatasetID r) (s_audits r) (s_leases r) (s_projectRegistryPullCredentials r) (s_registryPolicies r) (s_registryPins r) v (s_registryReleases r) (s_registryCaches r).

Definition s_set_registryReleases (v : gmap string string) (r : Store) : Store :=
  mkControl (s_users r) (s_invitations r) (s_teams r) (s_memberships r) (s_installations r) (s_accessGrants r) (s_serviceAccounts r) (s_serviceAccountTokens r) (s_serviceAccountTokenHashes r) (s_passwordCredentials r) (s_sessions r) (s_projects r) (s_environments r) (s_applications r) (s_environmentAppPlacements r) (s_deployments r) (s_deploymentInputs r) (s_gitWriteCommands r) (s_gitPublicationModes r) (s_gitPublications r) (s_gitBindings r) (s_operations r) (s_idempotency r) (s_outbox r) (s_outboxDatasetID r) (s_audits r) (s_leases r) (s_projectRegistryPullCredentials r) (s_registryPolicies r) (s_registryPins r) (s_registryAuthorities r) v (s_registryCaches r).

Definition s_set_registryCaches (v : gmap string string) (r : Store) : Store :=
  mkControl (s_users r) (s_invitations r) (s_teams r) (s_memberships r) (s_installations r) (s_accessGrants r) (s_serviceAccounts r) (s_serviceAccountTokens r) (s_serviceAccountTokenHashes r) (s_passwordCredentials r) (s_sessions r) (s_projects r) (s_environments r) (s_applications r) (s_environmentAppPlacements r) (s_deployments r) (s_deploymentInputs r) (s_gitWriteCommands r) (s_gitPublicationModes r) (s_gitPublications r) (s_gitBindings r) (s_operations r) (s_idempotency r) (s_outbox r) (s_outboxDatasetID r) (s_audits r) (s_leases r) (s_projectRegistryPullCredentials r) (s_registryPolicies r) (s_registryPins r) (s_registryAuthorities r) (s_registryReleases r) v.
Definition New : Store :=
  mkControl ∅ ∅ ∅ ∅ ∅ ∅ ∅ ∅ ∅ ∅ ∅ ∅ ∅ ∅ ∅ ∅ ∅ ∅ ∅ ∅ ∅ ∅ ∅ ∅ "" 0 ∅ ∅ ∅ ∅ ∅ ∅ ∅.

(** A sequence of assignments reads in the order of the source. *)
Declare Scope control_scope.
Notation "x |> f" := (f x) (at level 62, left associativity, only parsing) : control_scope.
Open Scope control_scope.

(** * Calls

    A handler runs under the store's mutex.  The readings of the clock within
    one call are one instant, [c_now]; [c_id] are the identifiers that [id.New]
    (random UUIDs) yields in the call, in order. *)

Record Call := mkCall {
  c_now : Time;
  c_id : nat → string;
}.

(** [Result]: the value and whether an idempotent request was replayed. *)
Record Result (A : Type) := mkResult {
  Value : A;
  Replay : bool;
}.
Arguments mkResult {A}.
Arguments Value {A}.
Arguments Replay {A}.

(** A handler returns its value and the state it leaves, or an error, on which
    it has changed nothing. *)
Abbreviation outcome A := (res StoreErr (Store * A)).

(** * Idempotency *)

Definition ik (actor scope key : string) : string := actor +:+ nul +:+ scope +:+ nul +:+ key.

(** [check]: a recorded key is only good for the request it was recorded for. *)
Definition check (old : option idemRecord) (fingerprint : string) : bool :=
  match old with
  | Some record => String.eqb (id_fingerprint record) fingerprint
  | None => true
  end.

Definition record_idem (key : string) (record : idemRecord) (s : Store) : Store :=
  s |> s_set_idempotency (<[key := record]> (s_idempotency s)).

Definition count_audit (s : Store) : Store := s |> s_set_audits (s_audits s + 1).

(** * Loops over a map whose rounds are independent *)

(** [for k, v := range m { if f(k, v) { return ... } }] *)
Definition any_where {A} (f : string → A → bool) (m : gmap string A) : bool :=
  existsb (λ kv, f kv.1 kv.2) (map_to_list m).

(** [for k, v := range m { if f(k, v) { delete(m, k) } }] *)
Definition drop_where {A} (f : string → A → bool) (m : gmap string A) : gmap string A :=
  filter (λ kv, f kv.1 kv.2 = false) m.

(** [for k, v := range m { if f(k, v) { m[k] = g(v) } }] *)
Definition update_where {A} (f : string → A → bool) (g : A → A) (m : gmap string A) : gmap string A :=
  map_imap (λ k a, Some (if f k a then g a else a)) m.

Lemma any_where_true {A} f (m : gmap string A) :
  any_where f m = true ↔ ∃ k a, m !! k = Some a ∧ f k a = true.
Proof.
  unfold any_where. rewrite existsb_elem_of. split.
  - intros ([k a] & H%elem_of_map_to_list & Hf). by exists k, a.
  - intros (k & a & H & Hf). exists (k, a). by rewrite elem_of_map_to_list.
Qed.

Lemma any_where_false {A} f (m : gmap string A) :
  any_where f m = false ↔ ∀ k a, m !! k = Some a → f k a = false.
Proof.
  rewrite <- not_true_iff_false, any_where_true. split.
  - intros H k a Ha. destruct (f k a) eqn:E; [|done]. destruct H. by exists k, a.
  - intros H (k & a & Ha & Hf). by rewrite (H _ _ Ha) in Hf.
Qed.

Lemma lookup_drop_where {A} f (m : gmap string A) k a :
  drop_where f m !! k = Some a ↔ m !! k = Some a ∧ f k a = false.
Proof. unfold drop_where. by rewrite map_lookup_filter_Some. Qed.

Lemma lookup_update_where {A} f g (m : gmap string A) k :
  update_where f g m !! k = (λ a, if f k a then g a else a) <$> m !! k.
Proof. unfold update_where. rewrite map_lookup_imap. by destruct (m !! k). Qed.

Lemma lookup_update_where_Some {A} f g (m : gmap string A) k b :
  update_where f g m !! k = Some b ↔ ∃ a, m !! k = Some a ∧ b = (if f k a then g a else a).
Proof. rewrite lookup_update_where, fmap_Some. done. Qed.

(** * Keys of bytes: [hex.EncodeToString] of a token's or a session's hash *)

Definition hash_key (hash : list Z) : string := hex_encode hash.

Definition len (bytes : list Z) : Z := Z.of_nat (length bytes).

(** [strings.ToLower(strings.TrimSpace(email))] *)
Definition normalEmail (email : string) : string := to_lower (trim_space email).

(** * The environment's destination ([internal/domain/destination.go]) *)

(** [strings.TrimRight(s, dash)] *)
Fixpoint trim_right_dash (s : string) : string :=
  match s with
  | "" => ""
  | String c s' =>
      match trim_right_dash s' with
      | "" => if Ascii.eqb c "-" then "" else String c ""
      | t => String c t
      end
  end.

Definition DeriveEnvironmentDestination (project : Project) (environmentSlug : string) : string * string :=
  let candidate := "kp-" +:+ p_Slug project +:+ "-" +:+ environmentSlug in
  let namespace :=
    if 63 <? str_len candidate then
      let sum := sha256 (string_bytes (p_ID project +:+ nul +:+ environmentSlug)) in
      let suffix := hex_encode (take 5 sum) in
      let prefix := trim_right_dash (str_take 52 candidate) in
      prefix +:+ "-" +:+ suffix
    else candidate in
  (namespace, namespace).
