(* ===== verification/ControlAccess.v ===== *)
(** Who may do what in the control-plane store: the role bindings of an actor,
    the resolution of a target to the project, team and namespace it lies in,
    [authorizeLocked], and the reads that filter by it -
    [internal/store/memory/access.go].

    The decision itself is the policy of Access.v; this file supplies what that
    policy decides about from the store.  The order in which Go ranges over a
    map is the parameter [MapOrder]. *)

From S2P Require Import Prelude Regexp GoStrings Access ControlModel.

Open Scope Z_scope.

Definition platformTarget : AccessTarget := mkTarget "platform" "platform" "" "" "" "" "".
Definition teamTarget (teamID : string) : AccessTarget := mkTarget "team" teamID teamID "" "" "" "".
Definition projectTarget (project : Project) : AccessTarget :=
  mkTarget "project" (p_ID project) (p_TeamID project) (p_ID project) "" "" "".
Definition zeroTarget : AccessTarget := mkTarget "" "" "" "" "" "" "".

(** A target as a caller writes it: a type and an ID. *)
Definition target (type ID : string) : AccessTarget := mkTarget type ID "" "" "" "" "".

Definition deletedIssuer : string := "kuberploy:deleted".

(** Lookups that fall back to the zero value. *)
Definition projectAt (s : Store) (ID : string) : Project := default zeroProject (s_projects s !! ID).
Definition environmentAt (s : Store) (ID : string) : Environment :=
  default zeroEnvironment (s_environments s !! ID).
Definition applicationAt (s : Store) (ID : string) : Application :=
  default zeroApplication (s_applications s !! ID).
Definition membersOf (s : Store) (teamID : string) : gmap string TeamMember :=
  default ∅ (s_memberships s !! teamID).

Definition present {A} (o : option A) : bool := match o with Some _ => true | None => false end.

Section access.
Context `{MapOrder}.

(** * Bindings *)

Definition grantBinding (grant : AccessGrant) : AccessBinding :=
  mkBinding (g_Role grant) (g_ScopeType grant) (g_ScopeID grant) (g_Permissions grant) (g_Source grant).

Definition subjectOf (s : Store) (actor : string) (grant : AccessGrant) : bool :=
  String.eqb (g_SubjectUserID grant) actor ||
  negb (String.eqb (g_SubjectTeamID grant) "") && present (membersOf s (g_SubjectTeamID grant) !! actor).

Definition memberBinding (teamID : string) (member : TeamMember) : AccessBinding :=
  mkBinding (if String.eqb (me_Role member) "owner" then RoleOrganizationAdmin else RoleDeveloper)
    ScopeTeam teamID [] ("team-" +:+ me_Role member).

Definition bindingsLocked (s : Store) (actor : string) : list AccessBinding :=
  (map (λ kv, grantBinding kv.2)
     (List.filter (λ kv, subjectOf s actor kv.2) (range 0 (s_accessGrants s))) ++
   omap (λ kv, memberBinding kv.1 <$> kv.2 !! actor) (range 1 (s_memberships s)))%list.

Definition isAdminLocked (s : Store) (actor : string) : bool :=
  match s_users s !! actor with
  | None => false
  | Some user =>
      negb (String.eqb (u_Issuer user) deletedIssuer) &&
      HasPermission (bindingsLocked s actor) platformTarget PermissionPlatformAdmin
  end.

Definition ownsTeamLocked (s : Store) (actor teamID : string) : bool :=
  match membersOf s teamID !! actor with
  | Some member => String.eqb (me_Role member) "owner"
  | None => false
  end.

Definition canManageTeamLocked (s : Store) (actor teamID : string) : bool :=
  HasPermission (bindingsLocked s actor) (teamTarget teamID) PermissionGrantsManage.

Definition canAccessTeamLocked (s : Store) (actor teamID : string) : bool :=
  if String.eqb teamID "" then isAdminLocked s actor
  else if negb (present (s_teams s !! teamID)) then false
  else HasPermission (bindingsLocked s actor) (teamTarget teamID) PermissionResourcesRead.

(** * Targets

    [resolveTargetLocked] calls itself only for the target of an operation,
    which is a deployment, an environment or a project: [resolveResource] is
    its switch without that case. *)

Definition environmentTarget (type ID : string) (environment : Environment) (project : Project)
    (applicationID : string) : AccessTarget :=
  mkTarget type ID (p_TeamID project) (p_ID project) (e_ID environment) (e_Namespace environment) applicationID.

Definition resolveSecretBinding (s : Store) (t : AccessTarget) : AccessTarget * bool :=
  let application := applicationAt s (t_ApplicationID t) in
  let environment := environmentAt s (t_EnvironmentID t) in
  let project := projectAt s (ap_ProjectID application) in
  let valid :=
    negb (String.eqb (t_ID t) "") && present (s_applications s !! t_ApplicationID t) &&
    present (s_environments s !! t_EnvironmentID t) && negb (String.eqb (p_ID project) "") &&
    String.eqb (e_ProjectID environment) (p_ID project) && String.eqb (t_ProjectID t) (p_ID project) &&
    String.eqb (t_TeamID t) (p_TeamID project) && String.eqb (t_Namespace t) (e_Namespace environment) in
  (environmentTarget "secret-binding" (t_ID t) environment project (ap_ID application), valid).

Definition resolveResource (s : Store) (t : AccessTarget) : AccessTarget * bool :=
  switch (t_Type t)
    [("platform", (platformTarget, true));
     ("team", (teamTarget (t_ID t), present (s_teams s !! t_ID t)));
     ("project", (projectTarget (projectAt s (t_ID t)), present (s_projects s !! t_ID t)));
     ("environment",
       let environment := environmentAt s (t_ID t) in
       let project := projectAt s (e_ProjectID environment) in
       (environmentTarget "environment" (e_ID environment) environment project "",
        present (s_environments s !! t_ID t) && negb (String.eqb (p_ID project) "")));
     ("namespace",
       match List.find (λ kv, String.eqb (e_Namespace kv.2) (t_ID t)) (range 2 (s_environments s)) with
       | Some (_, environment) =>
           let project := projectAt s (e_ProjectID environment) in
           (environmentTarget "namespace" (e_Namespace environment) environment project "",
            negb (String.eqb (p_ID project) ""))
       | None => (zeroTarget, false)
       end);
     ("application",
       let application := applicationAt s (t_ID t) in
       let project := projectAt s (ap_ProjectID application) in
       (mkTarget "application" (ap_ID application) (p_TeamID project) (p_ID project) "" "" (ap_ID application),
        present (s_applications s !! t_ID t) && negb (String.eqb (p_ID project) "")));
     ("secret-binding", resolveSecretBinding s t);
     ("deployment",
       let deployment := default zeroDeployment (s_deployments s !! t_ID t) in
       let environment := environmentAt s (dp_EnvironmentID deployment) in
       let project := projectAt s (e_ProjectID environment) in
       (environmentTarget "deployment" (dp_ID deployment) environment project (dp_ApplicationID deployment),
        present (s_deployments s !! t_ID t) && negb (String.eqb (p_ID project) "")))]
    (zeroTarget, false).

Definition resolveTargetLocked (s : Store) (t : AccessTarget) : AccessTarget * bool :=
  if String.eqb (t_Type t) "operation" then
    match s_operations s !! t_ID t with
    | None => (zeroTarget, false)
    | Some operation =>
        if str_in (op_TargetType operation) ["deployment"; "environment"; "project"]
        then resolveResource s (target (op_TargetType operation) (op_TargetID operation))
        else (zeroTarget, false)
    end
  else resolveResource s t.

(** The target a grant on a scope is about, if it lies in the project. *)
Definition scopeTargetForProjectLocked (s : Store) (project : Project)
    (scopeType : AccessScopeType) (scopeID : string) : AccessTarget * bool :=
  let inside (t : AccessTarget) :=
    (t, String.eqb (t_ProjectID t) (p_ID project) ||
        String.eqb scopeType ScopeTeam && String.eqb (t_TeamID t) (p_TeamID project)) in
  switch scopeType
    [(ScopeTeam,
       if String.eqb (p_TeamID project) "" || negb (String.eqb scopeID (p_TeamID project))
       then (zeroTarget, false)
       else inside (fst (resolveTargetLocked s (target "team" scopeID))));
     (ScopeProject,
       if negb (String.eqb scopeID (p_ID project)) then (zeroTarget, false)
       else inside (fst (resolveTargetLocked s (target "project" scopeID))));
     (ScopeEnvironment, inside (fst (resolveTargetLocked s (target "environment" scopeID))));
     (ScopeNamespace, inside (fst (resolveTargetLocked s (target "namespace" scopeID))));
     (ScopeApplication, inside (fst (resolveTargetLocked s (target "application" scopeID))))]
    (zeroTarget, false).

(** A project is visible through its own bindings or through one on something
    inside it. *)
Definition canAccessProjectLocked (s : Store) (actor : string) (project : Project) : bool :=
  if String.eqb (p_ID project) "" then false
  else
    let bindings := bindingsLocked s actor in
    HasPermission bindings (projectTarget project) PermissionResourcesRead ||
    existsb (λ binding,
      let '(t, ok) := scopeTargetForProjectLocked s project (b_ScopeType binding) (b_ScopeID binding) in
      ok && HasPermission [binding] t PermissionResourcesRead) bindings.

(** * Authorization *)

Definition authorizeLocked (s : Store) (actor : string) (permission : Permission) (t : AccessTarget)
    : res StoreErr unit :=
  let '(resolved, exists_) := resolveTargetLocked s t in
  guard! exists_ else ErrNotFound in
  let bindings := bindingsLocked s actor in
  if HasPermission bindings resolved permission then Ok tt
  else
    let projectVisible :=
      String.eqb (t_Type resolved) "project" &&
      canAccessProjectLocked s actor (projectAt s (t_ProjectID resolved)) in
    if String.eqb (t_Type resolved) "platform" || projectVisible ||
       HasPermission bindings resolved PermissionResourcesRead
    then Err ErrForbidden
    else Err ErrNotFound.

Definition Authorize := authorizeLocked.

Definition AuthorizePromotion (s : Store) (actor environmentID applicationID : string) : res StoreErr unit :=
  let environment := environmentAt s environmentID in
  let application := applicationAt s applicationID in
  let project := projectAt s (e_ProjectID environment) in
  guard! negb (negb (present (s_environments s !! environmentID)) ||
               negb (present (s_applications s !! applicationID)) ||
               negb (present (s_projects s !! e_ProjectID environment)) ||
               negb (String.eqb (ap_ProjectID application) (e_ProjectID environment))) else ErrNotFound in
  let t := environmentTarget "deployment" (environmentID +:+ ":" +:+ applicationID) environment project
             (ap_ID application) in
  let bindings := bindingsLocked s actor in
  if HasPermission bindings t PermissionResourcesWrite then Ok tt
  else if HasPermission bindings t PermissionResourcesRead then Err ErrForbidden
  else Err ErrNotFound.

Definition EffectiveCapabilities (s : Store) (actor : string) : res StoreErr (list AccessCapability) :=
  guard! present (s_users s !! actor) else ErrNotFound in
  Ok (Capabilities (bindingsLocked s actor)).

(** * Reads for an actor *)

(** [sort.Slice] by the time of creation. *)
Definition byCreation {A} (createdAt : A → Time) (l : list A) : list A :=
  sort_slice (λ a b, createdAt a <? createdAt b) l.

Definition readable (s : Store) (actor : string) (permission : Permission) (t : AccessTarget) : bool :=
  let '(resolved, ok) := resolveTargetLocked s t in
  ok && HasPermission (bindingsLocked s actor) resolved permission.

Definition ListProjectsForActor (s : Store) (actor : string) : list Project :=
  byCreation p_CreatedAt
    (List.filter (canAccessProjectLocked s actor) (map snd (range 3 (s_projects s)))).

Definition GetProjectForActor (s : Store) (actor projectID : string) : res StoreErr Project :=
  match s_projects s !! projectID with
  | Some project => if canAccessProjectLocked s actor project then Ok project else Err ErrNotFound
  | None => Err ErrNotFound
  end.

Definition ListEnvironmentsForActor (s : Store) (actor : string) : list Environment :=
  byCreation e_CreatedAt
    (List.filter (λ e, readable s actor PermissionResourcesRead (target "environment" (e_ID e)))
      (map snd (range 4 (s_environments s)))).

Definition GetEnvironmentForActor (s : Store) (actor environmentID : string) : res StoreErr Environment :=
  match s_environments s !! environmentID with
  | Some environment =>
      if readable s actor PermissionResourcesRead (target "environment" environmentID)
      then Ok environment else Err ErrNotFound
  | None => Err ErrNotFound
  end.

Definition ListApplicationsForActor (s : Store) (actor : string) : list Application :=
  byCreation ap_CreatedAt
    (List.filter (λ a, readable s actor PermissionResourcesRead (target "application" (ap_ID a)))
      (map snd (range 5 (s_applications s)))).

Definition GetApplicationForActor (s : Store) (actor applicationID : string) : res StoreErr Application :=
  match s_applications s !! applicationID with
  | Some application =>
      if readable s actor PermissionResourcesRead (target "application" applicationID)
      then Ok application else Err ErrNotFound
  | None => Err ErrNotFound
  end.

Definition canAccessDeploymentLocked (s : Store) (actor : string) (deployment : Deployment) : bool :=
  readable s actor PermissionResourcesRead (target "deployment" (dp_ID deployment)).

Definition ListDeploymentsForActor (s : Store) (actor : string) : list Deployment :=
  byCreation dp_CreatedAt
    (List.filter (canAccessDeploymentLocked s actor) (map snd (range 6 (s_deployments s)))).

Definition GetDeploymentForActor (s : Store) (actor deploymentID : string) : res StoreErr Deployment :=
  match s_deployments s !! deploymentID with
  | Some deployment =>
      if canAccessDeploymentLocked s actor deployment then Ok deployment else Err ErrNotFound
  | None => Err ErrNotFound
  end.

Definition canAccessOperationLocked (s : Store) (actor : string) (operation : Operation) : bool :=
  readable s actor PermissionOperationsRead (target "operation" (op_ID operation)).

Definition runtimeActions : list string :=
  ["runtime.logs.snapshot"; "runtime.logs.follow"; "runtime.events.snapshot"].

Definition AuditRuntimeAccess (s : Store) (actor deploymentID action : string) : outcome unit :=
  guard! str_in action runtimeActions else ErrConflict in
  let* _ := authorizeLocked s actor PermissionLogsRead (target "deployment" deploymentID) in
  Ok (count_audit s, tt).

(** The active placements that deployments older than the placement table
    imply, beside the recorded ones. *)
Definition impliedPlacement (environment : Environment) (environmentID : string) (application : Application)
    (deployment : Deployment) : EnvironmentAppPlacement :=
  mkPlacement (e_ProjectID environment) environmentID (ap_ID application)
    (ap_Name application) (ap_Slug application) "active" "running"
    (dp_CreatedAt deployment) (dp_UpdatedAt deployment).

Definition addImplied (s : Store) (environment : Environment) (environmentID : string)
    (byApplication : gmap string EnvironmentAppPlacement) (deployment : Deployment)
    : gmap string EnvironmentAppPlacement :=
  if negb (String.eqb (dp_EnvironmentID deployment) environmentID) then byApplication
  else if present (byApplication !! dp_ApplicationID deployment) then byApplication
  else match s_applications s !! dp_ApplicationID deployment with
  | None => byApplication
  | Some application =>
      if negb (String.eqb (ap_ProjectID application) (e_ProjectID environment)) then byApplication
      else <[ap_ID application := impliedPlacement environment environmentID application deployment]>
             byApplication
  end.

Definition placementLess (a b : EnvironmentAppPlacement) : bool :=
  if String.eqb (pl_ApplicationSlug a) (pl_ApplicationSlug b)
  then str_less (pl_ApplicationID a) (pl_ApplicationID b)
  else str_less (pl_ApplicationSlug a) (pl_ApplicationSlug b).

Definition placementsOf (s : Store) (environmentID : string) : gmap string EnvironmentAppPlacement :=
  default ∅ (s_environmentAppPlacements s !! environmentID).

Definition ListEnvironmentAppPlacementsForActor (s : Store) (actor environmentID : string)
    : res StoreErr (list EnvironmentAppPlacement) :=
  match s_environments s !! environmentID with
  | None => Err ErrNotFound
  | Some environment =>
      guard! readable s actor PermissionResourcesRead (target "environment" environmentID) else ErrNotFound in
      let byApplication :=
        foldl (addImplied s environment environmentID) (placementsOf s environmentID)
          (map snd (range 7 (s_deployments s))) in
      Ok (sort_slice placementLess (map snd (range 8 byApplication)))
  end.

End access.
