(* ===== verification/ControlIdentity.v ===== *)
(** Identities of the control-plane store: the bootstrap of the first
    administrator, passwords and sessions ([internal/store/memory/store.go]),
    invitations, users, teams and their members ([access.go]).

    Every handler returns an [outcome]: an error leaves the state as it was. *)

From S2P Require Import Prelude Regexp GoStrings Access ControlModel ControlAccess.
From Stdlib Require Import Ascii.

Open Scope Z_scope.

(** * Bootstrap, passwords and sessions ([store.go]) *)

Definition BootstrapRequired (s : Store) : bool := bool_decide (s_users s = ∅).

Definition bootstrapGrant (call : Call) (u : User) : AccessGrant :=
  mkGrant (c_id call 0) (u_ID u) "" RolePlatformAdmin ScopePlatform "platform" [] "bootstrap"
    (u_ID u) (u_CreatedAt u).

Definition openSession (hash : list Z) (u : User) (expires : Time) (s : Store) : Store :=
  s |> s_set_sessions (<[hash_key hash := mkSession (u_ID u) (u_GrantRevision u) expires]> (s_sessions s)).

Definition BootstrapAdmin (s : Store) (call : Call) (u : User) (passwordHash : string) (hash : list Z)
    (expires : Time) : outcome unit :=
  guard! BootstrapRequired s else ErrBootstrapConsumed in
  let email := normalEmail (u_Email u) in
  guard! negb (String.eqb email "" || String.eqb passwordHash "") else ErrConflict in
  guard! negb (present (s_passwordCredentials s !! email)) else ErrConflict in
  Ok (s |> s_set_users (<[u_ID u := u]> (s_users s))
        |> s_set_passwordCredentials
             (<[email := mkCredential (u_ID u) passwordHash]> (s_passwordCredentials s))
        |> s_set_accessGrants (<[c_id call 0 := bootstrapGrant call u]> (s_accessGrants s))
        |> openSession hash u expires, tt).

Definition LocalCredential (s : Store) (email : string) : res StoreErr (User * string) :=
  match s_passwordCredentials s !! normalEmail email with
  | None => Err ErrNotFound
  | Some credential =>
      match s_users s !! pc_userID credential with
      | None => Err ErrNotFound
      | Some u =>
          if String.eqb (u_Issuer u) deletedIssuer then Err ErrNotFound
          else Ok (u, pc_hash credential)
      end
  end.

Definition CreateLoginSession (s : Store) (call : Call) (userID expectedHash upgradedHash : string)
    (sessionHash : list Z) (expires : Time) : outcome User :=
  match s_users s !! userID with
  | None => Err ErrNotFound
  | Some u =>
      guard! negb (String.eqb (u_Issuer u) deletedIssuer || negb (len sessionHash =? 32) ||
                   negb (c_now call <? expires)) else ErrNotFound in
      let email := normalEmail (u_Email u) in
      match s_passwordCredentials s !! email with
      | None => Err ErrNotFound
      | Some credential =>
          guard! negb (negb (String.eqb (pc_userID credential) userID) ||
                       negb (String.eqb (pc_hash credential) expectedHash)) else ErrNotFound in
          let s1 :=
            if negb (String.eqb upgradedHash "")
            then s |> s_set_passwordCredentials
                        (<[email := credential |> pc_set_hash upgradedHash]> (s_passwordCredentials s))
            else s in
          Ok (openSession sessionHash u expires s1, u)
      end
  end.

Definition UserBySession (s : Store) (hash : list Z) (now : Time) : res StoreErr User :=
  match s_sessions s !! hash_key hash with
  | None => Err ErrNotFound
  | Some session =>
      guard! now <? se_expires session else ErrNotFound in
      match s_users s !! se_userID session with
      | None => Err ErrNotFound
      | Some u =>
          if String.eqb (u_Issuer u) deletedIssuer || negb (u_GrantRevision u =? se_revision session)
          then Err ErrNotFound
          else Ok u
      end
  end.

Definition RevokeSession (s : Store) (hash : list Z) : outcome unit :=
  Ok (s |> s_set_sessions (delete (hash_key hash) (s_sessions s)), tt).

(** * Revoking what a change of grants invalidates ([bumpGrantsLocked]) *)

Definition revokeAt (now : Time) (token : ServiceAccountToken) : ServiceAccountToken :=
  token |> tk_set_RevokedAt (Some now).

Definition liveTokenOf (accountID : string) (token : ServiceAccountToken) : bool :=
  String.eqb (tk_ServiceAccountID token) accountID && negb (present (tk_RevokedAt token)).

Definition dropSessionsOf (userID : string) (sessions : gmap string session) : gmap string session :=
  drop_where (λ _ session, String.eqb (se_userID session) userID) sessions.

Definition bumpGrants1 (now : Time) (s : Store) (userID : string) : Store :=
  match s_users s !! userID with
  | None => s
  | Some u =>
      if String.eqb (u_Role u) "platform-admin" then s
      else
        s |> s_set_users (<[userID := u |> u_set_GrantRevision (i64 (u_GrantRevision u + 1))]> (s_users s))
          |> s_set_serviceAccountTokens
               (update_where (λ _, liveTokenOf userID) (revokeAt now) (s_serviceAccountTokens s))
          |> s_set_sessions (dropSessionsOf userID (s_sessions s))
  end.

Definition bumpGrantsLocked (now : Time) (userIDs : gset string) (s : Store) : Store :=
  foldl (bumpGrants1 now) s (elements userIDs).

Definition bumpGrantSubjectsLocked (now : Time) (grant : AccessGrant) (s : Store) : Store :=
  let users :=
    if negb (String.eqb (g_SubjectUserID grant) "") then {[ g_SubjectUserID grant ]}
    else dom (membersOf s (g_SubjectTeamID grant)) in
  bumpGrantsLocked now users s.

Section identity.
Context `{MapOrder}.

(** * Invitations *)

Definition CreateUserInvitation (s : Store) (call : Call) (actor email : string) (tokenHash : list Z)
    (expires : Time) : outcome UserInvitation :=
  guard! isAdminLocked s actor else ErrForbidden in
  let now := c_now call in
  guard! negb (negb (len tokenHash =? 32) || negb (now <? expires) ||
               (now + (24 * hour + minute) <? expires)) else ErrConflict in
  let key := hash_key tokenHash in
  guard! negb (present (s_invitations s !! key)) else ErrConflict in
  let superseded (record : invitationRecord) :=
    negb (ir_accepted record) && equal_fold (ir_email record) email &&
    (now <? iv_ExpiresAt (ir_invitation record)) in
  let expire (record : invitationRecord) :=
    record |> ir_set_invitation (ir_invitation record |> iv_set_ExpiresAt now) in
  let invitation := mkInvitation (c_id call 0) email expires in
  Ok (s |> s_set_invitations
             (<[key := mkInvitationRecord invitation email false]>
                (update_where (λ _, superseded) expire (s_invitations s)))
        |> count_audit, invitation).

Definition invitedUser (call : Call) (record : invitationRecord) (displayName : string) : User :=
  mkUser (c_id call 0) (ir_email record) displayName "developer" "kuberploy:invitation"
    (iv_ID (ir_invitation record)) 1 (c_now call).

Definition AcceptUserInvitation (s : Store) (call : Call) (tokenHash : list Z)
    (displayName passwordHash : string) (sessionHash previousSessionHash : list Z)
    (sessionExpires : Time) : outcome User :=
  let key := hash_key tokenHash in
  let now := c_now call in
  match s_invitations s !! key with
  | None => Err ErrInvitationInvalid
  | Some record =>
      guard! negb (ir_accepted record || negb (now <? iv_ExpiresAt (ir_invitation record)) ||
                   negb (len sessionHash =? 32) || negb (now <? sessionExpires)) else ErrInvitationInvalid in
      let u := invitedUser call record displayName in
      let email := normalEmail (ir_email record) in
      guard! negb (present (s_passwordCredentials s !! email) || String.eqb passwordHash "")
        else ErrInvitationInvalid in
      guard! negb (negb (len previousSessionHash =? 0) && negb (len previousSessionHash =? 32))
        else ErrInvitationInvalid in
      let sessions :=
        if len previousSessionHash =? 32 then delete (hash_key previousSessionHash) (s_sessions s)
        else s_sessions s in
      Ok (s |> s_set_sessions sessions
            |> s_set_users (<[u_ID u := u]> (s_users s))
            |> s_set_passwordCredentials
                 (<[email := mkCredential (u_ID u) passwordHash]> (s_passwordCredentials s))
            |> openSession sessionHash u sessionExpires
            |> s_set_invitations (<[key := record |> ir_set_accepted true]> (s_invitations s))
            |> count_audit, u)
  end.

(** * Users *)

Definition ownerCountLocked (s : Store) (teamID : string) : nat :=
  length (List.filter (λ kv, String.eqb (me_Role kv.2) "owner") (map_to_list (membersOf s teamID))).

Definition lastOwner (s : Store) (teamID : string) (member : TeamMember) : bool :=
  String.eqb (me_Role member) "owner" && (ownerCountLocked s teamID =? 1)%nat.

(** The users an actor sees: all of them for an administrator, the members of
    the teams it manages otherwise.  A member without a user would be listed
    as Go's zero value. *)
Definition visibleUsers (s : Store) (actor : string) : res StoreErr (gset string) :=
  if isAdminLocked s actor then Ok (dom (s_users s))
  else
    let managed := List.filter (canManageTeamLocked s actor) (map fst (range 0 (s_teams s))) in
    match managed with
    | [] => Err ErrForbidden
    | _ => Ok (⋃ (map (λ teamID, dom (membersOf s teamID)) managed))
    end.

Definition ListUsersForActor (s : Store) (actor : string) : res StoreErr (list User) :=
  let* visible := visibleUsers s actor in
  let shown (userID : string) : option User :=
    let user := default zeroUser (s_users s !! userID) in
    if present (s_serviceAccounts s !! userID) then None
    else if String.eqb (u_Issuer user) deletedIssuer then None
    else Some user in
  Ok (byCreation u_CreatedAt (omap shown (map fst (range 1 (gset_to_gmap tt visible))))).

Definition deletedUser (user : User) : User :=
  user |> u_set_Email "" |> u_set_DisplayName "Deleted user" |> u_set_Issuer deletedIssuer
       |> u_set_GrantRevision (i64 (u_GrantRevision user + 1)).

Definition DeleteUser (s : Store) (call : Call) (actor userID confirmationEmail key fp : string)
    : outcome bool :=
  let idemKey := ik actor ("users.delete:" +:+ userID) key in
  let old := s_idempotency s !! idemKey in
  guard! check old fp else ErrIdempotencyConflict in
  if present old then Ok (s, true) else
  guard! isAdminLocked s actor else ErrForbidden in
  guard! negb (String.eqb actor userID) else ErrSelfDeletion in
  match s_users s !! userID with
  | None => Ok (s, false)
  | Some user =>
      if String.eqb (u_Issuer user) deletedIssuer then Ok (s, false) else
      guard! negb (present (s_serviceAccounts s !! userID)) else ErrNotFound in
      guard! equal_fold (trim_space confirmationEmail) (trim_space (u_Email user))
        else ErrDeletionConfirmation in
      guard! negb (any_where (λ teamID members,
                 match members !! userID with
                 | Some member => lastOwner s teamID member
                 | None => false
                 end) (s_memberships s)) else ErrUserDeletionBlocked in
      Ok (s |> s_set_memberships (delete userID <$> s_memberships s)
            |> s_set_installations
                 (update_where (λ _ installation, String.eqb (gi_OwnerUserID installation) userID)
                    (λ installation, installation |> gi_set_OwnerUserID actor
                                                  |> gi_set_UpdatedAt (c_now call)) (s_installations s))
            |> s_set_accessGrants
                 (drop_where (λ _ grant, String.eqb (g_SubjectUserID grant) userID) (s_accessGrants s))
            |> s_set_sessions (dropSessionsOf userID (s_sessions s))
            |> s_set_passwordCredentials
                 (delete (normalEmail (u_Email user)) (s_passwordCredentials s))
            |> s_set_users (<[userID := deletedUser user]> (s_users s))
            |> record_idem idemKey (mkIdem fp "user" userID "")
            |> count_audit, false)
  end.

(** * Teams *)

Definition CreateTeam (s : Store) (call : Call) (actor key fp Name Slug : string) : outcome (Result Team) :=
  guard! present (s_users s !! actor) else ErrForbidden in
  let idemKey := ik actor "teams.create" key in
  let old := s_idempotency s !! idemKey in
  guard! check old fp else ErrIdempotencyConflict in
  match old with
  | Some record => Ok (s, mkResult (default zeroTeam (s_teams s !! id_resourceID record)) true)
  | None =>
      guard! negb (any_where (λ _ team, String.eqb (tm_Slug team) Slug) (s_teams s)) else ErrConflict in
      let team := mkTeam (c_id call 0) Name Slug (c_now call) in
      Ok (s |> s_set_teams (<[tm_ID team := team]> (s_teams s))
            |> s_set_memberships
                 (<[tm_ID team := {[ actor := mkMember (tm_ID team) actor "owner" (c_now call) ]}]>
                    (s_memberships s))
            |> record_idem idemKey (mkIdem fp "team" (tm_ID team) "")
            |> count_audit, mkResult team false)
  end.

Definition ListTeamsForActor (s : Store) (actor : string) : list Team :=
  byCreation tm_CreatedAt
    (map snd (List.filter (λ kv, canAccessTeamLocked s actor kv.1) (range 0 (s_teams s)))).

Definition DeleteTeam (s : Store) (call : Call) (actor teamID confirmationName key fp : string)
    : outcome bool :=
  let idemKey := ik actor ("teams.delete:" +:+ teamID) key in
  let old := s_idempotency s !! idemKey in
  guard! check old fp else ErrIdempotencyConflict in
  if present old then Ok (s, true) else
  match s_teams s !! teamID with
  | None => Err ErrNotFound
  | Some team =>
      guard! canManageTeamLocked s actor teamID else ErrForbidden in
      guard! String.eqb (trim_space confirmationName) (tm_Name team) else ErrDeletionConfirmation in
      guard! negb (any_where (λ _ project, String.eqb (p_TeamID project) teamID) (s_projects s))
        else ErrTeamDeletionBlocked in
      guard! negb (any_where (λ _ installation, String.eqb (gi_TeamID installation) teamID)
                     (s_installations s)) else ErrTeamDeletionBlocked in
      let affected := dom (membersOf s teamID) in
      Ok (s |> s_set_accessGrants
                 (drop_where (λ _ grant, String.eqb (g_SubjectTeamID grant) teamID ||
                     String.eqb (g_ScopeType grant) ScopeTeam && String.eqb (g_ScopeID grant) teamID)
                   (s_accessGrants s))
            |> s_set_memberships (delete teamID (s_memberships s))
            |> s_set_teams (delete teamID (s_teams s))
            |> record_idem idemKey (mkIdem fp "team" teamID "")
            |> count_audit
            |> bumpGrantsLocked (c_now call) affected, false)
  end.

(** A member is listed with its user, Go's zero value if there is none. *)
Definition ListTeamMembersForActor (s : Store) (actor teamID : string)
    : res StoreErr (list (TeamMember * User)) :=
  guard! present (s_teams s !! teamID) && canAccessTeamLocked s actor teamID else ErrNotFound in
  Ok (byCreation (λ mu, me_CreatedAt mu.1)
       (map (λ kv, (kv.2, default zeroUser (s_users s !! me_UserID kv.2)))
          (range 0 (membersOf s teamID)))).

Definition AddTeamMember (s : Store) (call : Call) (actor teamID key fp UserID Role : string)
    : outcome (Result TeamMember) :=
  guard! present (s_teams s !! teamID) else ErrNotFound in
  guard! canManageTeamLocked s actor teamID else ErrForbidden in
  match s_users s !! UserID with
  | None => Err ErrNotFound
  | Some user =>
      guard! negb (String.eqb (u_Issuer user) deletedIssuer) else ErrNotFound in
      guard! negb (present (s_serviceAccounts s !! UserID)) else ErrNotFound in
      let idemKey := ik actor ("teams.members.add:" +:+ teamID) key in
      let old := s_idempotency s !! idemKey in
      guard! check old fp else ErrIdempotencyConflict in
      match old with
      | Some record =>
          Ok (s, mkResult (default zeroTeamMember (membersOf s teamID !! id_resourceID record)) true)
      | None =>
          let existing := membersOf s teamID !! UserID in
          guard! negb (match existing with
                       | Some member => lastOwner s teamID member && negb (String.eqb Role "owner")
                       | None => false
                       end) else ErrConflict in
          let changed :=
            match existing with
            | Some member => negb (String.eqb (me_Role member) Role)
            | None => true
            end in
          let member := default (mkMember teamID UserID "" (c_now call)) existing |> me_set_Role Role in
          let s1 :=
            s |> s_set_memberships
                   (<[teamID := <[UserID := member]> (membersOf s teamID)]> (s_memberships s))
              |> record_idem idemKey (mkIdem fp "team-member" UserID "")
              |> count_audit in
          Ok (if changed then bumpGrantsLocked (c_now call) {[ UserID ]} s1 else s1,
              mkResult member false)
      end
  end.

Definition RemoveTeamMember (s : Store) (call : Call) (actor teamID userID : string) : outcome unit :=
  guard! present (s_teams s !! teamID) else ErrNotFound in
  guard! canManageTeamLocked s actor teamID else ErrForbidden in
  match membersOf s teamID !! userID with
  | None => Ok (s, tt)
  | Some member =>
      guard! negb (lastOwner s teamID member) else ErrConflict in
      Ok (s |> s_set_memberships
                 (<[teamID := delete userID (membersOf s teamID)]> (s_memberships s))
            |> count_audit
            |> bumpGrantsLocked (c_now call) {[ userID ]}, tt)
  end.

End identity.
