(* ===== verification/ControlAutomation.v ===== *)
(** Service accounts and their tokens: the token policy of
    [internal/automation/policy.go] and the handlers of
    [internal/store/memory/service_accounts.go]. *)

From S2P Require Import Prelude Regexp GoStrings Access ControlModel ControlAccess ControlIdentity.
From Stdlib Require Import Ascii.

Open Scope Z_scope.

(** * The token policy ([policy.go]) *)

Definition MaxTokenTTL : Duration := 90 * 24 * hour.

(** [^kp_sa_[A-Za-z0-9_-]{8}$] *)
Definition tokenPrefixPattern : regex :=
  RSeq (RLit "kp_sa_")
    (RRep 8 8 (RClass (λ c, is_lower c || is_upper c || is_digit c || is_one_of "_-" c))).

Definition ValidRole (role : AccessRole) : bool :=
  str_in role [RoleViewer; RoleDeveloper; RoleProjectAdmin].

(** The white space beyond ASCII that [strings.TrimSpace] removes, as UTF-8. *)
Definition unicodeSpaces : list string :=
  map (fold_right String "")
    [["194"; "133"]; ["194"; "160"]; ["225"; "154"; "128"];
     ["226"; "128"; "128"]; ["226"; "128"; "129"]; ["226"; "128"; "130"]; ["226"; "128"; "131"];
     ["226"; "128"; "132"]; ["226"; "128"; "133"]; ["226"; "128"; "134"]; ["226"; "128"; "135"];
     ["226"; "128"; "136"]; ["226"; "128"; "137"]; ["226"; "128"; "138"];
     ["226"; "128"; "168"]; ["226"; "128"; "169"]; ["226"; "128"; "175"]; ["226"; "129"; "159"];
     ["227"; "128"; "128"]]%char.

(** [strings.TrimSpace(s) == s], for a string that is valid UTF-8. *)
Definition trimmed (s : string) : bool :=
  String.eqb (trim_space s) s &&
  negb (existsb (λ space, has_prefix space s || has_suffix space s) unicodeSpaces).

(** A control character ([unicode.IsControl]): those of ASCII, and U+0080 to
    U+009F, which UTF-8 writes after C2. *)
Fixpoint has_control (s : string) : bool :=
  match s with
  | "" => false
  | String c s' =>
      in_range "000" "031" c || Ascii.eqb c "127" ||
      match s' with
      | String d _ => Ascii.eqb c "194" && in_range "128" "159" d
      | "" => false
      end || has_control s'
  end.

Definition ValidName (name : string) : bool :=
  negb ((str_len name <? 1) || (100 <? str_len name) || negb (valid_utf8 name) || negb (trimmed name)) &&
  negb (has_control name).

Definition ValidTokenPrefix (prefix : string) : bool := re_match tokenPrefixPattern prefix.

Definition AutomationScopeAppRead : string := "app.read".
Definition AutomationScopeAppEdit : string := "app.edit".
Definition AutomationScopeBuildCreate : string := "build.create".
Definition AutomationScopeLogsRead : string := "logs.read".

Definition automationScopes : list string :=
  [AutomationScopeAppRead; AutomationScopeAppEdit; AutomationScopeBuildCreate; AutomationScopeLogsRead].

(** The loop, with the scopes already seen. *)
Fixpoint normalizeFrom (seen scopes : list string) : option (list string) :=
  match scopes with
  | [] => Some []
  | scope :: rest =>
      if negb (str_in scope automationScopes) then None
      else if str_in scope seen then None
      else match normalizeFrom (scope :: seen) rest with
           | Some result => Some (scope :: result)
           | None => None
           end
  end.

Definition NormalizeScopes (scopes : list string) : option (list string) :=
  if (length scopes =? 0)%nat || (4 <? length scopes)%nat then None
  else match normalizeFrom [] scopes with
       | Some result => Some (sort_strings result)
       | None => None
       end.

Definition Allows (scopes : list string) (required : string) : bool :=
  existsb (λ scope, String.eqb scope required) scopes.

Definition ValidExpiry (now expires : Time) : bool :=
  (now + 5 * minute <? expires) && negb (now + MaxTokenTTL <? expires).

(** * Service accounts *)

Record AutomationPrincipal := mkPrincipal {
  pr_User : User;
  pr_ServiceAccountID : string;
  pr_TokenID : string;
  pr_Scopes : list string;
  pr_ExpiresAt : Time;
}.

Definition serviceAccountIssuer : string := "kuberploy:service-account".

Section automation.
Context `{MapOrder}.

Definition manageableServiceAccountLocked (s : Store) (actor accountID : string)
    : res StoreErr (ServiceAccount * Project) :=
  match s_serviceAccounts s !! accountID with
  | None => Err ErrNotFound
  | Some account =>
      match s_projects s !! sa_ProjectID account with
      | None => Err ErrNotFound
      | Some project =>
          let bindings := bindingsLocked s actor in
          guard! HasPermission bindings (projectTarget project) PermissionResourcesRead else ErrNotFound in
          guard! CanManageGrant bindings (projectTarget project) (sa_Role account) else ErrForbidden in
          Ok (account, project)
      end
  end.

Definition accountUser (call : Call) (Name : string) : User :=
  mkUser (c_id call 0) "" Name "developer" serviceAccountIssuer (c_id call 0) 1 (c_now call).

Definition CreateServiceAccount (s : Store) (call : Call) (actor key fp ProjectID Name : string)
    (Role : AccessRole) : outcome (Result ServiceAccount) :=
  guard! ValidName Name else ErrConflict in
  match s_projects s !! ProjectID with
  | None => Err ErrNotFound
  | Some project =>
      let bindings := bindingsLocked s actor in
      guard! HasPermission bindings (projectTarget project) PermissionResourcesRead else ErrNotFound in
      guard! negb (negb (ValidRole Role) || negb (CanManageGrant bindings (projectTarget project) Role))
        else ErrForbidden in
      let idemKey := ik actor ("projects.service-accounts.create:" +:+ p_ID project) key in
      let old := s_idempotency s !! idemKey in
      guard! check old fp else ErrIdempotencyConflict in
      match old with
      | Some record =>
          match s_serviceAccounts s !! id_resourceID record with
          | None => Err ErrConflict
          | Some account => Ok (s, mkResult account true)
          end
      | None =>
          guard! negb (any_where (λ _ account, String.eqb (sa_ProjectID account) (p_ID project) &&
                                   equal_fold (sa_Name account) Name) (s_serviceAccounts s))
            else ErrConflict in
          let user := accountUser call Name in
          let account :=
            mkAccount (u_ID user) (p_ID project) Name Role actor (c_now call) None in
          let grant :=
            mkGrant (c_id call 1) (u_ID user) "" Role ScopeProject (p_ID project) [] "service-account"
              actor (c_now call) in
          Ok (s |> s_set_users (<[u_ID user := user]> (s_users s))
                |> s_set_serviceAccounts (<[sa_ID account := account]> (s_serviceAccounts s))
                |> s_set_accessGrants (<[g_ID grant := grant]> (s_accessGrants s))
                |> record_idem idemKey (mkIdem fp "service-account" (sa_ID account) "")
                |> count_audit, mkResult account false)
      end
  end.

(** What both listings require: to read the project and its grants. *)
Definition grantsReadable (s : Store) (actor : string) (project : Project) : res StoreErr unit :=
  let bindings := bindingsLocked s actor in
  guard! HasPermission bindings (projectTarget project) PermissionResourcesRead else ErrNotFound in
  guard! HasPermission bindings (projectTarget project) PermissionGrantsRead else ErrForbidden in
  Ok tt.

Definition ListServiceAccounts (s : Store) (actor projectID : string) : res StoreErr (list ServiceAccount) :=
  match s_projects s !! projectID with
  | None => Err ErrNotFound
  | Some project =>
      let* _ := grantsReadable s actor project in
      Ok (sort_slice (λ a b, if negb (sa_CreatedAt a =? sa_CreatedAt b)
                             then sa_CreatedAt a <? sa_CreatedAt b else str_less (sa_ID a) (sa_ID b))
           (List.filter (λ account, String.eqb (sa_ProjectID account) (p_ID project))
              (map snd (range 0 (s_serviceAccounts s)))))
  end.

Definition CreateServiceAccountToken (s : Store) (call : Call)
    (actor key fp ServiceAccountID Name Prefix : string) (TokenHash : list Z) (Scopes : list string)
    (ExpiresAt : Time) : outcome (Result ServiceAccountToken) :=
  guard! ValidName Name else ErrConflict in
  let* found := manageableServiceAccountLocked s actor ServiceAccountID in
  let account := fst found in
  let idemKey := ik actor ("service-accounts.tokens.create:" +:+ sa_ID account) key in
  let old := s_idempotency s !! idemKey in
  guard! check old fp else ErrIdempotencyConflict in
  match old with
  | Some record =>
      match s_serviceAccountTokens s !! id_resourceID record with
      | None => Err ErrConflict
      | Some token => Ok (s, mkResult token true)
      end
  | None =>
      guard! negb (present (sa_DisabledAt account) || negb (len TokenHash =? 32) ||
                   negb (ValidTokenPrefix Prefix)) else ErrConflict in
      guard! ValidExpiry (c_now call) ExpiresAt else ErrConflict in
      match NormalizeScopes Scopes with
      | None => Err ErrConflict
      | Some scopes =>
          let hashKey := hash_key TokenHash in
          guard! negb (present (s_serviceAccountTokenHashes s !! hashKey)) else ErrConflict in
          let token :=
            mkToken (c_id call 0) (sa_ID account) Name Prefix scopes ExpiresAt None None actor (c_now call) in
          Ok (s |> s_set_serviceAccountTokens (<[tk_ID token := token]> (s_serviceAccountTokens s))
                |> s_set_serviceAccountTokenHashes
                     (<[hashKey := tk_ID token]> (s_serviceAccountTokenHashes s))
                |> record_idem idemKey (mkIdem fp "service-account-token" (tk_ID token) "")
                |> count_audit, mkResult token false)
      end
  end.

Definition ServiceAccountTokenReplay (s : Store) (actor serviceAccountID key fp : string)
    : res StoreErr (option (Result ServiceAccountToken)) :=
  let* found := manageableServiceAccountLocked s actor serviceAccountID in
  let old := s_idempotency s !! ik actor ("service-accounts.tokens.create:" +:+ sa_ID (fst found)) key in
  match old with
  | None => Ok None
  | Some record =>
      guard! check old fp else ErrIdempotencyConflict in
      match s_serviceAccountTokens s !! id_resourceID record with
      | None => Err ErrConflict
      | Some token => Ok (Some (mkResult token true))
      end
  end.

Definition ListServiceAccountTokens (s : Store) (actor serviceAccountID : string)
    : res StoreErr (list ServiceAccountToken) :=
  match s_serviceAccounts s !! serviceAccountID with
  | None => Err ErrNotFound
  | Some account =>
      match s_projects s !! sa_ProjectID account with
      | None => Err ErrNotFound
      | Some project =>
          let* _ := grantsReadable s actor project in
          Ok (sort_slice (λ a b, if negb (tk_CreatedAt a =? tk_CreatedAt b)
                                 then tk_CreatedAt a <? tk_CreatedAt b else str_less (tk_ID a) (tk_ID b))
               (List.filter (λ token, String.eqb (tk_ServiceAccountID token) (sa_ID account))
                  (map snd (range 0 (s_serviceAccountTokens s)))))
      end
  end.

Definition RevokeServiceAccountToken (s : Store) (call : Call)
    (actor serviceAccountID tokenID key fp : string) : outcome bool :=
  let* found := manageableServiceAccountLocked s actor serviceAccountID in
  let account := fst found in
  let idemKey := ik actor ("service-accounts.tokens.revoke:" +:+ sa_ID account +:+ ":" +:+ tokenID) key in
  let old := s_idempotency s !! idemKey in
  guard! check old fp else ErrIdempotencyConflict in
  if present old then Ok (s, true) else
  match s_serviceAccountTokens s !! tokenID with
  | None => Err ErrNotFound
  | Some token =>
      guard! String.eqb (tk_ServiceAccountID token) (sa_ID account) else ErrNotFound in
      let s1 :=
        if present (tk_RevokedAt token) then s
        else s |> s_set_serviceAccountTokens
                    (<[tk_ID token := revokeAt (c_now call) token]> (s_serviceAccountTokens s))
               |> count_audit in
      Ok (s1 |> record_idem idemKey (mkIdem fp "service-account-token" (tk_ID token) ""), false)
  end.

Definition DisableServiceAccount (s : Store) (call : Call) (actor serviceAccountID key fp : string)
    : outcome bool :=
  let* found := manageableServiceAccountLocked s actor serviceAccountID in
  let account := fst found in
  let idemKey := ik actor ("service-accounts.disable:" +:+ sa_ID account) key in
  let old := s_idempotency s !! idemKey in
  guard! check old fp else ErrIdempotencyConflict in
  if present old then Ok (s, true) else
  let s1 :=
    if present (sa_DisabledAt account) then s
    else s |> s_set_serviceAccounts
                (<[sa_ID account := account |> sa_set_DisabledAt (Some (c_now call))]> (s_serviceAccounts s))
           |> s_set_serviceAccountTokens
                (update_where (λ _, liveTokenOf (sa_ID account)) (revokeAt (c_now call))
                   (s_serviceAccountTokens s))
           |> count_audit in
  Ok (s1 |> record_idem idemKey (mkIdem fp "service-account" (sa_ID account) ""), false).

(** The bearer's token, at a time the caller read; its last use is refreshed
    at most every fifteen minutes. *)
Definition ServiceAccountByToken (s : Store) (tokenHash : list Z) (now : Time)
    : outcome AutomationPrincipal :=
  guard! len tokenHash =? 32 else ErrNotFound in
  match s_serviceAccountTokenHashes s !! hash_key tokenHash with
  | None => Err ErrNotFound
  | Some tokenID =>
  match s_serviceAccountTokens s !! tokenID with
  | None => Err ErrNotFound
  | Some token =>
  guard! negb (present (tk_RevokedAt token) || negb (now <? tk_ExpiresAt token)) else ErrNotFound in
  match s_serviceAccounts s !! tk_ServiceAccountID token with
  | None => Err ErrNotFound
  | Some account =>
  guard! negb (present (sa_DisabledAt account)) else ErrNotFound in
  match s_users s !! sa_ID account with
  | None => Err ErrNotFound
  | Some user =>
  guard! negb (negb (String.eqb (u_Issuer user) serviceAccountIssuer) ||
               negb (String.eqb (u_Subject user) (sa_ID account))) else ErrNotFound in
  let stale :=
    match tk_LastUsedAt token with
    | None => true
    | Some used => used <? now - 15 * minute
    end in
  let s1 :=
    if stale then s |> s_set_serviceAccountTokens
                          (<[tk_ID token := token |> tk_set_LastUsedAt (Some now)]> (s_serviceAccountTokens s))
    else s in
  Ok (s1, mkPrincipal user (sa_ID account) (tk_ID token) (tk_Scopes token) (tk_ExpiresAt token))
  end end end end.

End automation.
