(* ===== verification/ControlResources.v ===== *)
(** Projects, environments and applications of the control-plane store
    ([internal/store/memory/store.go]).

    Every handler returns an [outcome]: an error leaves the state as it was. *)

From S2P Require Import Prelude Regexp GoStrings Access ControlModel ControlAccess ControlIdentity.

Open Scope Z_scope.

Definition EnvironmentDevelopment : string := "development".
Definition EnvironmentProtected : string := "protected".

Definition ApplicationSourceOCI : string := "oci".
Definition ApplicationSourceGitHub : string := "github".
Definition ApplicationSourceGitSSH : string := "git-ssh".
Definition ApplicationSourceHelm : string := "helm".

Definition validSourceKind (kind : string) : bool :=
  str_in kind [ApplicationSourceOCI; ApplicationSourceGitHub; ApplicationSourceGitSSH; ApplicationSourceHelm].

(** An unknown kind of source is an image's. *)
Definition sourceKind (kind : string) : string :=
  if validSourceKind kind then kind else ApplicationSourceOCI.

Definition EnvironmentAppPlacementDraft : string := "draft".
Definition EnvironmentAppPlacementStopped : string := "stopped".

Section resources.
Context `{MapOrder}.

(** * Projects *)

Definition projectCreationTarget (TeamID : string) : AccessTarget :=
  if negb (String.eqb TeamID "") then target "team" TeamID else target "platform" "platform".

Definition CreateProject (s : Store) (call : Call) (actor key fp Name Slug TeamID : string)
    : outcome (Result Project) :=
  let k := ik actor "projects.create" key in
  let old := s_idempotency s !! k in
  guard! check old fp else ErrIdempotencyConflict in
  match old with
  | Some record =>
      let* _ := authorizeLocked s actor PermissionResourcesWrite (projectCreationTarget TeamID) in
      Ok (s, mkResult (projectAt s (id_resourceID record)) true)
  | None =>
      let* _ := authorizeLocked s actor PermissionResourcesWrite (projectCreationTarget TeamID) in
      guard! negb (any_where (λ _ v, String.eqb (p_Slug v) Slug) (s_projects s)) else ErrConflict in
      let p := mkProject (c_id call 0) Name Slug TeamID (c_now call) in
      Ok (s |> s_set_projects (<[p_ID p := p]> (s_projects s))
            |> record_idem k (mkIdem fp "project" (p_ID p) "")
            |> count_audit, mkResult p false)
  end.

Definition GetProject (s : Store) (projectID : string) : res StoreErr Project :=
  match s_projects s !! projectID with Some x => Ok x | None => Err ErrNotFound end.

Definition ListProjects (s : Store) : list Project :=
  byCreation p_CreatedAt (map snd (range 0 (s_projects s))).

(** The loop body that removes a service account of the project: its user,
    sessions and tokens, with the tokens' hashes. *)
Definition accountOf (s : Store) (projectID accountID : string) : bool :=
  match s_serviceAccounts s !! accountID with
  | Some account => String.eqb (sa_ProjectID account) projectID
  | None => false
  end.

Definition dropAccounts (s : Store) (gone : string → bool) : Store :=
  let goneToken tokenID :=
    match s_serviceAccountTokens s !! tokenID with
    | Some token => gone (tk_ServiceAccountID token)
    | None => false
    end in
  s |> s_set_serviceAccounts (drop_where (λ accountID _, gone accountID) (s_serviceAccounts s))
    |> s_set_users (drop_where (λ userID _, gone userID) (s_users s))
    |> s_set_sessions (drop_where (λ _ session, gone (se_userID session)) (s_sessions s))
    |> s_set_serviceAccountTokens
         (drop_where (λ _ token, gone (tk_ServiceAccountID token)) (s_serviceAccountTokens s))
    |> s_set_serviceAccountTokenHashes
         (drop_where (λ _ tokenID, goneToken tokenID) (s_serviceAccountTokenHashes s)).

Definition scopedTo (scopeType scopeID : string) (grant : AccessGrant) : bool :=
  String.eqb (g_ScopeType grant) scopeType && String.eqb (g_ScopeID grant) scopeID.

Definition dropGrants (scopeType scopeID : string) (s : Store) : Store :=
  s |> s_set_accessGrants (drop_where (λ _, scopedTo scopeType scopeID) (s_accessGrants s)).

Definition projectInUse (s : Store) (projectID : string) : bool :=
  any_where (λ _ environment, String.eqb (e_ProjectID environment) projectID) (s_environments s) ||
  any_where (λ _ application, String.eqb (ap_ProjectID application) projectID) (s_applications s) ||
  any_where (λ _ account, String.eqb (sa_ProjectID account) projectID && negb (present (sa_DisabledAt account)))
    (s_serviceAccounts s).

Definition DeleteProject (s : Store) (call : Call) (actor projectID confirmationName key fp : string)
    : outcome bool :=
  let idemKey := ik actor ("projects.delete:" +:+ projectID) key in
  let old := s_idempotency s !! idemKey in
  guard! check old fp else ErrIdempotencyConflict in
  if present old then Ok (s, true) else
  match s_projects s !! projectID with
  | None => Err ErrNotFound
  | Some project =>
      let* _ := authorizeLocked s actor PermissionGrantsManage (target "project" projectID) in
      guard! String.eqb (trim_space confirmationName) (p_Name project) else ErrDeletionConfirmation in
      guard! negb (projectInUse s projectID) else ErrProjectDeletionBlocked in
      Ok (dropAccounts s (accountOf s projectID)
            |> dropGrants ScopeProject projectID
            |> (λ s1, s1 |> s_set_projectRegistryPullCredentials
                  (drop_where (λ _ projectOf, String.eqb projectOf projectID)
                     (s_projectRegistryPullCredentials s1)))
            |> (λ s1, s1 |> s_set_projects (delete projectID (s_projects s1)))
            |> record_idem idemKey (mkIdem fp "project" projectID "")
            |> count_audit, false)
  end.

(** * Environments *)

Definition protectionPolicy (policy : string) : string :=
  if String.eqb policy "" then EnvironmentProtected else policy.

Definition CreateEnvironment (s : Store) (call : Call)
    (actor key fp ProjectID Name Slug ProtectionPolicy : string) : outcome (Result Environment) :=
  let k := ik actor "environments.create" key in
  let old := s_idempotency s !! k in
  guard! check old fp else ErrIdempotencyConflict in
  match old with
  | Some record =>
      let replayed := environmentAt s (id_resourceID record) in
      let* _ := authorizeLocked s actor PermissionResourcesWrite (target "project" (e_ProjectID replayed)) in
      Ok (s, mkResult replayed true)
  | None =>
      match s_projects s !! ProjectID with
      | None => Err ErrNotFound
      | Some project =>
          let* _ := authorizeLocked s actor PermissionResourcesWrite (target "project" (p_ID project)) in
          let '(Namespace, ArgoProject) := DeriveEnvironmentDestination project Slug in
          let policy := protectionPolicy ProtectionPolicy in
          guard! str_in policy [EnvironmentDevelopment; EnvironmentProtected] else ErrConflict in
          guard! negb (any_where (λ _ v, String.eqb (e_Namespace v) Namespace ||
                         String.eqb (e_ProjectID v) ProjectID && String.eqb (e_Slug v) Slug)
                         (s_environments s)) else ErrConflict in
          let v := mkEnvironment (c_id call 0) ProjectID Name Slug Namespace ArgoProject policy (c_now call) in
          Ok (s |> s_set_environments (<[e_ID v := v]> (s_environments s))
                |> record_idem k (mkIdem fp "environment" (e_ID v) "")
                |> count_audit, mkResult v false)
      end
  end.

Definition GetEnvironment (s : Store) (environmentID : string) : res StoreErr Environment :=
  match s_environments s !! environmentID with Some x => Ok x | None => Err ErrNotFound end.

Definition ListEnvironments (s : Store) : list Environment :=
  byCreation e_CreatedAt (map snd (range 0 (s_environments s))).

(** A deployment that a deletion of its environment may remove. *)
Definition retired (s : Store) (environmentID : string) (deployment : Deployment) : bool :=
  let placement :=
    default zeroEnvironmentAppPlacement (placementsOf s environmentID !! dp_ApplicationID deployment) in
  String.eqb (dp_State deployment) "stopped" &&
  String.eqb (pl_State placement) EnvironmentAppPlacementDraft &&
  String.eqb (pl_DesiredState placement) EnvironmentAppPlacementStopped.

Definition inEnvironment (environmentID : string) (deployment : Deployment) : bool :=
  String.eqb (dp_EnvironmentID deployment) environmentID.

Definition DeleteEnvironment (s : Store) (call : Call) (actor environmentID confirmationName key fp : string)
    : outcome bool :=
  let idemKey := ik actor ("environments.delete:" +:+ environmentID) key in
  let old := s_idempotency s !! idemKey in
  guard! check old fp else ErrIdempotencyConflict in
  if present old then Ok (s, true) else
  match s_environments s !! environmentID with
  | None => Err ErrNotFound
  | Some environment =>
      let* _ := authorizeLocked s actor PermissionResourcesWrite
                  (target "project" (e_ProjectID environment)) in
      guard! String.eqb (trim_space confirmationName) (e_Name environment) else ErrDeletionConfirmation in
      guard! negb (any_where (λ _ deployment, inEnvironment environmentID deployment &&
                                negb (retired s environmentID deployment)) (s_deployments s))
        else ErrEnvironmentDeletionBlocked in
      Ok (s |> s_set_gitWriteCommands
                 (drop_where (λ _ command,
                    match s_deployments s !! wc_DeploymentID command with
                    | Some deployment => inEnvironment environmentID deployment
                    | None => false
                    end) (s_gitWriteCommands s))
            |> s_set_deployments (drop_where (λ _, inEnvironment environmentID) (s_deployments s))
            |> s_set_deploymentInputs (drop_where (λ _, inEnvironment environmentID) (s_deploymentInputs s))
            |> s_set_gitBindings (s_gitBindings s ∖ {[ environmentID ]})
            |> dropGrants ScopeEnvironment environmentID
            |> (λ s1, s1 |> s_set_environmentAppPlacements (delete environmentID (s_environmentAppPlacements s1)))
            |> (λ s1, s1 |> s_set_environments (delete environmentID (s_environments s1)))
            |> record_idem idemKey (mkIdem fp "environment" environmentID "")
            |> count_audit, false)
  end.

(** * Applications *)

Definition draftPlacement (call : Call) (project : Project) (EnvironmentID : string) (v : Application)
    : EnvironmentAppPlacement :=
  mkPlacement (p_ID project) EnvironmentID (ap_ID v) (ap_Name v) (ap_Slug v)
    EnvironmentAppPlacementDraft EnvironmentAppPlacementStopped (c_now call) (c_now call).

(** The stopped draft of an application built from a repository: its
    deployment and the finished operation that stands for its creation. *)
Definition sourceDraft (call : Call) (EnvironmentID : string) (v : Application) : Deployment :=
  mkDeployment (c_id call 1) EnvironmentID (ap_ID v) "" 1 3000 "stopped" (c_id call 2) 1 "" ""
    (c_now call) (c_now call).

Definition sourceDraftOperation (call : Call) (v : Application) : Operation :=
  mkOperation (c_id call 2) "deployment.source-draft" "succeeded" "deployment" (c_id call 1)
    ("application-create:" +:+ ap_ID v) 1 [] "" None None (c_now call) (c_now call) (Some (c_now call)).

Definition placeApplication (call : Call) (project : Project) (EnvironmentID : string) (v : Application)
    (s : Store) : Store :=
  if String.eqb EnvironmentID "" then s
  else
    let s1 :=
      s |> s_set_environmentAppPlacements
             (<[EnvironmentID := <[ap_ID v := draftPlacement call project EnvironmentID v]>
                                   (placementsOf s EnvironmentID)]> (s_environmentAppPlacements s)) in
    if str_in (ap_SourceKind v) [ApplicationSourceGitHub; ApplicationSourceGitSSH] then
      s1 |> s_set_deployments (<[c_id call 1 := sourceDraft call EnvironmentID v]> (s_deployments s1))
         |> s_set_operations (<[c_id call 2 := sourceDraftOperation call v]> (s_operations s1))
    else s1.

Definition newApplication (call : Call) (ProjectID Name Slug SourceKind : string) : Application :=
  mkApplication (c_id call 0) ProjectID Name Slug (sourceKind SourceKind) (c_now call).

(** An application may be created into an environment of its project. *)
Definition placementTarget (s : Store) (project : Project) (EnvironmentID : string) : res StoreErr unit :=
  if String.eqb EnvironmentID "" then Ok tt
  else match s_environments s !! EnvironmentID with
  | None => Err ErrNotFound
  | Some environment =>
      guard! String.eqb (e_ProjectID environment) (p_ID project) else ErrConflict in Ok tt
  end.

Definition CreateApplication (s : Store) (call : Call)
    (actor key fp ProjectID EnvironmentID Name Slug SourceKind : string) : outcome (Result Application) :=
  let k := ik actor "applications.create" key in
  let old := s_idempotency s !! k in
  guard! check old fp else ErrIdempotencyConflict in
  match old with
  | Some record =>
      let replayed := applicationAt s (id_resourceID record) in
      let* _ := authorizeLocked s actor PermissionResourcesWrite (target "project" (ap_ProjectID replayed)) in
      Ok (s, mkResult replayed true)
  | None =>
      match s_projects s !! ProjectID with
      | None => Err ErrNotFound
      | Some project =>
          let* _ := authorizeLocked s actor PermissionResourcesWrite (target "project" (p_ID project)) in
          let* _ := placementTarget s project EnvironmentID in
          guard! negb (any_where (λ _ v, String.eqb (ap_ProjectID v) ProjectID && String.eqb (ap_Slug v) Slug)
                         (s_applications s)) else ErrConflict in
          let v := newApplication call ProjectID Name Slug SourceKind in
          Ok (s |> s_set_applications (<[ap_ID v := v]> (s_applications s))
                |> placeApplication call project EnvironmentID v
                |> record_idem k (mkIdem fp "application" (ap_ID v) "")
                |> count_audit, mkResult v false)
      end
  end.

Definition GetApplication (s : Store) (applicationID : string) : res StoreErr Application :=
  match s_applications s !! applicationID with Some x => Ok x | None => Err ErrNotFound end.

Definition ListApplications (s : Store) : list Application :=
  byCreation ap_CreatedAt (map snd (range 0 (s_applications s))).

Definition ofApplication (applicationID : string) (deployment : Deployment) : bool :=
  String.eqb (dp_ApplicationID deployment) applicationID.

(** The deployments a deletion removes take their Git write commands and their
    inputs with them, by the deployment's key. *)
Definition dropDeployments (s : Store) (gone : Deployment → bool) : Store :=
  let goneID deploymentID :=
    match s_deployments s !! deploymentID with
    | Some deployment => gone deployment
    | None => false
    end in
  s |> s_set_deployments (drop_where (λ _, gone) (s_deployments s))
    |> s_set_gitWriteCommands (drop_where (λ _ command, goneID (wc_DeploymentID command)) (s_gitWriteCommands s))
    |> s_set_deploymentInputs (drop_where (λ _ input, goneID (dp_ID input)) (s_deploymentInputs s)).

Definition dropRegistryService (applicationID : string) (s : Store) : Store :=
  let serviceOf {A : Type} (_ : A) (service : string) := String.eqb service applicationID in
  s |> s_set_registryPolicies (drop_where serviceOf (s_registryPolicies s))
    |> s_set_registryPins (drop_where serviceOf (s_registryPins s))
    |> s_set_registryAuthorities (drop_where serviceOf (s_registryAuthorities s))
    |> s_set_registryReleases (drop_where serviceOf (s_registryReleases s))
    |> s_set_registryCaches (drop_where serviceOf (s_registryCaches s)).

Definition DeleteApplication (s : Store) (call : Call) (actor applicationID confirmationName key fp : string)
    : outcome bool :=
  let idemKey := ik actor ("applications.delete:" +:+ applicationID) key in
  let old := s_idempotency s !! idemKey in
  guard! check old fp else ErrIdempotencyConflict in
  if present old then Ok (s, true) else
  match s_applications s !! applicationID with
  | None => Err ErrNotFound
  | Some application =>
      let* _ := authorizeLocked s actor PermissionResourcesWrite
                  (target "project" (ap_ProjectID application)) in
      guard! String.eqb (trim_space confirmationName) (ap_Name application) else ErrDeletionConfirmation in
      guard! negb (any_where (λ _ deployment, ofApplication applicationID deployment &&
                                negb (String.eqb (dp_State deployment) "stopped")) (s_deployments s))
        else ErrApplicationDeletionBlocked in
      Ok (dropDeployments s (ofApplication applicationID)
            |> (λ s1, s1 |> s_set_environmentAppPlacements (delete applicationID <$> s_environmentAppPlacements s1))
            |> dropRegistryService applicationID
            |> dropGrants ScopeApplication applicationID
            |> (λ s1, s1 |> s_set_applications (delete applicationID (s_applications s1)))
            |> record_idem idemKey (mkIdem fp "application" applicationID "")
            |> count_audit, false)
  end.

End resources.
