(* ===== verification/ControlGrants.v ===== *)
(** GitHub installations and the access grants of a project
    ([internal/store/memory/access.go]).

    Every handler returns an [outcome]: an error leaves the state as it was. *)

From S2P Require Import Prelude Regexp GoStrings Access ControlModel ControlAccess ControlIdentity.

Open Scope Z_scope.

Section grants.
Context `{MapOrder}.

(** * GitHub installations *)

Record CreateGitHubInstallationInput := mkInstallationInput {
  ii_GitHubInstallationID : Z;
  ii_AccountLogin : string;
  ii_AccountType : string;
  ii_RepositorySelection : string;
  ii_RepositoryCount : Z;
}.

Definition newInstallation (call : Call) (actor : string) (input : CreateGitHubInstallationInput)
    : GitHubInstallation :=
  mkGitHubInstallation (c_id call 0) (ii_GitHubInstallationID input) (ii_AccountLogin input)
    (ii_AccountType input) actor "private" "" (ii_RepositorySelection input) (ii_RepositoryCount input)
    (c_now call) (c_now call).

Definition putInstallation (idemKey fp : string) (installation : GitHubInstallation) (s : Store) : Store :=
  s |> s_set_installations (<[gi_ID installation := installation]> (s_installations s))
    |> record_idem idemKey (mkIdem fp "github-installation" (gi_ID installation) "")
    |> count_audit.

Definition CreateGitHubInstallation (s : Store) (call : Call) (actor key fp : string)
    (input : CreateGitHubInstallationInput) : outcome (Result GitHubInstallation) :=
  guard! isAdminLocked s actor else ErrForbidden in
  let idemKey := ik actor "github-installations.create" key in
  let old := s_idempotency s !! idemKey in
  guard! check old fp else ErrIdempotencyConflict in
  match old with
  | Some record =>
      Ok (s, mkResult (default zeroGitHubInstallation (s_installations s !! id_resourceID record)) true)
  | None =>
      guard! negb (any_where (λ _ installation,
               gi_GitHubInstallationID installation =? ii_GitHubInstallationID input) (s_installations s))
        else ErrConflict in
      let installation := newInstallation call actor input in
      Ok (putInstallation idemKey fp installation s, mkResult installation false)
  end.

(** A second link by the owner refreshes what GitHub may change. *)
Definition relinkable (actor : string) (input : CreateGitHubInstallationInput)
    (installation : GitHubInstallation) : bool :=
  negb (negb (String.eqb (gi_OwnerUserID installation) actor) ||
        negb (equal_fold (gi_AccountLogin installation) (ii_AccountLogin input)) ||
        negb (String.eqb (gi_AccountType installation) (ii_AccountType input)) ||
        negb (String.eqb (ii_RepositorySelection input) "all") &&
        negb (String.eqb (ii_RepositorySelection input) "selected")).

Definition relinked (call : Call) (input : CreateGitHubInstallationInput)
    (installation : GitHubInstallation) : GitHubInstallation :=
  installation |> gi_set_RepositorySelection (ii_RepositorySelection input)
               |> gi_set_RepositoryCount (ii_RepositoryCount input)
               |> gi_set_UpdatedAt (c_now call).

Definition LinkVerifiedGitHubInstallation (s : Store) (call : Call) (actor key fp : string)
    (input : CreateGitHubInstallationInput) : outcome (GitHubInstallation * bool) :=
  guard! present (s_users s !! actor) else ErrNotFound in
  let idemKey := ik actor "github-installations.link" key in
  let old := s_idempotency s !! idemKey in
  guard! check old fp else ErrIdempotencyConflict in
  match old with
  | Some record =>
      match s_installations s !! id_resourceID record with
      | None => Err ErrNotFound
      | Some installation => Ok (s, (installation, true))
      end
  | None =>
      match List.find (λ kv, gi_GitHubInstallationID kv.2 =? ii_GitHubInstallationID input)
              (range 0 (s_installations s)) with
      | Some (installationID, installation) =>
          guard! relinkable actor input installation else ErrConflict in
          let installation := relinked call input installation in
          Ok (s |> s_set_installations (<[installationID := installation]> (s_installations s))
                |> record_idem idemKey (mkIdem fp "github-installation" (gi_ID installation) "")
                |> count_audit, (installation, false))
      | None =>
          let installation := newInstallation call actor input in
          Ok (putInstallation idemKey fp installation s, (installation, false))
      end
  end.

Definition seesInstallation (s : Store) (actor : string) (installation : GitHubInstallation) : bool :=
  isAdminLocked s actor || String.eqb (gi_OwnerUserID installation) actor ||
  String.eqb (gi_Visibility installation) "team" && present (membersOf s (gi_TeamID installation) !! actor).

Definition ListGitHubInstallationsForActor (s : Store) (actor : string) : list GitHubInstallation :=
  byCreation gi_CreatedAt
    (List.filter (seesInstallation s actor) (map snd (range 0 (s_installations s)))).

Definition AuthorizeGitHubInstallationForProject (s : Store) (actor installationID projectID : string)
    : res StoreErr unit :=
  match s_installations s !! installationID, s_projects s !! projectID with
  | Some installation, Some project =>
      let* _ := authorizeLocked s actor PermissionBuildsManage (target "project" (p_ID project)) in
      guard! isAdminLocked s actor || String.eqb (gi_OwnerUserID installation) actor ||
             String.eqb (gi_Visibility installation) "team" &&
             negb (String.eqb (gi_TeamID installation) "") &&
             String.eqb (gi_TeamID installation) (p_TeamID project) else ErrNotFound in
      Ok tt
  | _, _ => Err ErrNotFound
  end.

(** Whose view of the installation a change of its sharing alters. *)
Definition sharingAffects (s : Store) (installation : GitHubInstallation) (TeamID : string) : gset string :=
  let members teamID := if String.eqb teamID "" then ∅ else dom (membersOf s teamID) in
  {[ gi_OwnerUserID installation ]} ∪ members (gi_TeamID installation) ∪ members TeamID.

Definition UpdateGitHubInstallationSharing (s : Store) (call : Call)
    (actor installationID key fp Visibility TeamID : string) : outcome (Result GitHubInstallation) :=
  match s_installations s !! installationID with
  | None => Err ErrNotFound
  | Some installation =>
      let idemKey := ik actor ("github-installations.sharing:" +:+ installationID) key in
      let old := s_idempotency s !! idemKey in
      guard! check old fp else ErrIdempotencyConflict in
      match old with
      | Some record =>
          match s_installations s !! id_resourceID record with
          | None => Err ErrNotFound
          | Some stored => Ok (s, mkResult stored true)
          end
      | None =>
          let admin := isAdminLocked s actor in
          let currentTeamOwner :=
            negb (String.eqb (gi_TeamID installation) "") &&
            canManageTeamLocked s actor (gi_TeamID installation) in
          guard! admin || String.eqb actor (gi_OwnerUserID installation) || currentTeamOwner
            else ErrForbidden in
          guard! negb (String.eqb Visibility "team") || present (s_teams s !! TeamID) else ErrNotFound in
          guard! negb (String.eqb Visibility "team") || admin || canManageTeamLocked s actor TeamID
            else ErrForbidden in
          let idem := mkIdem fp "github-installation" (gi_ID installation) "" in
          if String.eqb (gi_Visibility installation) Visibility && String.eqb (gi_TeamID installation) TeamID
          then Ok (record_idem idemKey idem s, mkResult installation false)
          else
            let affected := sharingAffects s installation TeamID in
            let installation :=
              installation |> gi_set_Visibility Visibility |> gi_set_TeamID TeamID
                           |> gi_set_UpdatedAt (c_now call) in
            Ok (s |> s_set_installations (<[gi_ID installation := installation]> (s_installations s))
                  |> record_idem idemKey idem
                  |> count_audit
                  |> bumpGrantsLocked (c_now call) affected, mkResult installation false)
      end
  end.

(** * Access grants of a project *)

Record CreateAccessGrantInput := mkGrantInput {
  gr_ProjectID : string;
  gr_SubjectUserID : string;
  gr_SubjectTeamID : string;
  gr_Role : AccessRole;
  gr_ScopeType : AccessScopeType;
  gr_ScopeID : string;
  gr_Permissions : list Permission;
}.

Definition grantLess (a b : AccessGrant) : bool :=
  if g_CreatedAt a =? g_CreatedAt b then str_less (g_ID a) (g_ID b) else g_CreatedAt a <? g_CreatedAt b.

Definition ListProjectAccessGrants (s : Store) (actor projectID : string) : res StoreErr (list AccessGrant) :=
  match s_projects s !! projectID with
  | None => Err ErrNotFound
  | Some project =>
      let* _ := authorizeLocked s actor PermissionGrantsRead (target "project" projectID) in
      Ok (sort_slice grantLess
           (List.filter (λ grant, snd (scopeTargetForProjectLocked s project (g_ScopeType grant) (g_ScopeID grant)))
              (map snd (range 1 (s_accessGrants s)))))
  end.

(** What a grant may look like at all: one subject, known role and scope, no
    extra permission but [logs.read], no platform-wide grant, and the
    administrating roles only on their own kind of scope. *)
Definition wellFormedGrant (input : CreateAccessGrantInput) : bool :=
  negb (Bool.eqb (String.eqb (gr_SubjectUserID input) "") (String.eqb (gr_SubjectTeamID input) "") ||
        negb (ValidRole (gr_Role input)) || negb (ValidScope (gr_ScopeType input)) ||
        negb (ValidExtraPermissions (gr_Permissions input)) ||
        String.eqb (gr_Role input) RolePlatformAdmin ||
        String.eqb (gr_ScopeType input) ScopePlatform ||
        String.eqb (gr_Role input) RoleOrganizationAdmin && negb (String.eqb (gr_ScopeType input) ScopeTeam) ||
        String.eqb (gr_Role input) RoleProjectAdmin && negb (String.eqb (gr_ScopeType input) ScopeProject)).

Definition sameGrant (input : CreateAccessGrantInput) (grant : AccessGrant) : bool :=
  String.eqb (g_SubjectUserID grant) (gr_SubjectUserID input) &&
  String.eqb (g_SubjectTeamID grant) (gr_SubjectTeamID input) &&
  String.eqb (g_Role grant) (gr_Role input) &&
  String.eqb (g_ScopeType grant) (gr_ScopeType input) && String.eqb (g_ScopeID grant) (gr_ScopeID input).

Definition explicitGrant (call : Call) (actor : string) (input : CreateAccessGrantInput) : AccessGrant :=
  mkGrant (c_id call 0) (gr_SubjectUserID input) (gr_SubjectTeamID input) (gr_Role input)
    (gr_ScopeType input) (gr_ScopeID input) (gr_Permissions input) "explicit" actor (c_now call).

Definition CreateProjectAccessGrant (s : Store) (call : Call) (actor key fp : string)
    (input : CreateAccessGrantInput) : outcome (Result AccessGrant) :=
  match s_projects s !! gr_ProjectID input with
  | None => Err ErrNotFound
  | Some project =>
      guard! wellFormedGrant input else ErrConflict in
      let '(t, ok) := scopeTargetForProjectLocked s project (gr_ScopeType input) (gr_ScopeID input) in
      guard! ok else ErrNotFound in
      let bindings := bindingsLocked s actor in
      guard! HasPermission bindings (projectTarget project) PermissionResourcesRead else ErrNotFound in
      guard! CanManageGrant bindings t (gr_Role input) else ErrForbidden in
      guard! (if negb (String.eqb (gr_SubjectUserID input) "")
              then present (s_users s !! gr_SubjectUserID input)
              else present (s_teams s !! gr_SubjectTeamID input)) else ErrNotFound in
      let idemKey := ik actor ("projects.grants.create:" +:+ gr_ProjectID input) key in
      let old := s_idempotency s !! idemKey in
      guard! check old fp else ErrIdempotencyConflict in
      match old with
      | Some record =>
          match s_accessGrants s !! id_resourceID record with
          | None => Err ErrConflict
          | Some grant => Ok (s, mkResult grant true)
          end
      | None =>
          guard! negb (any_where (λ _, sameGrant input) (s_accessGrants s)) else ErrConflict in
          let grant := explicitGrant call actor input in
          Ok (s |> s_set_accessGrants (<[g_ID grant := grant]> (s_accessGrants s))
                |> record_idem idemKey (mkIdem fp "access-grant" (g_ID grant) "")
                |> count_audit
                |> bumpGrantSubjectsLocked (c_now call) grant, mkResult grant false)
      end
  end.

Definition DeleteProjectAccessGrant (s : Store) (call : Call) (actor projectID grantID key fp : string)
    : outcome bool :=
  match s_projects s !! projectID with
  | None => Err ErrNotFound
  | Some project =>
      let bindings := bindingsLocked s actor in
      guard! HasPermission bindings (projectTarget project) PermissionResourcesRead else ErrNotFound in
      let idemKey := ik actor ("projects.grants.delete:" +:+ projectID +:+ ":" +:+ grantID) key in
      let old := s_idempotency s !! idemKey in
      guard! check old fp else ErrIdempotencyConflict in
      if present old then Ok (s, true) else
      match s_accessGrants s !! grantID with
      | None => Err ErrNotFound
      | Some grant =>
          let '(t, ok) := scopeTargetForProjectLocked s project (g_ScopeType grant) (g_ScopeID grant) in
          guard! ok else ErrNotFound in
          guard! String.eqb (g_Source grant) "explicit" && CanManageGrant bindings t (g_Role grant)
            else ErrForbidden in
          Ok (s |> s_set_accessGrants (delete grantID (s_accessGrants s))
                |> record_idem idemKey (mkIdem fp "access-grant" grantID "")
                |> count_audit
                |> bumpGrantSubjectsLocked (c_now call) grant, false)
      end
  end.

End grants.
