(* ===== verification/ControlSteps.v ===== *)
(** The control-plane store as a transition system: the requests its handlers
    serve, the call that serves each, and the histories of a store, in which no
    identifier is issued twice. *)

From S2P Require Import Prelude Regexp GoStrings Access ControlModel ControlAccess ControlIdentity ControlAutomation ControlResources ControlGrants.

Open Scope Z_scope.

(** * Requests *)

Inductive Request :=
| BootstrapAdminR (u : User) (passwordHash : string) (hash : list Z) (expires : Time)
| CreateLoginSessionR (userID expectedHash upgradedHash : string) (sessionHash : list Z) (expires : Time)
| RevokeSessionR (hash : list Z)
| CreateUserInvitationR (actor email : string) (tokenHash : list Z) (expires : Time)
| AcceptUserInvitationR (tokenHash : list Z) (displayName passwordHash : string)
    (sessionHash previousSessionHash : list Z) (sessionExpires : Time)
| DeleteUserR (actor userID confirmationEmail key fp : string)
| CreateTeamR (actor key fp Name Slug : string)
| DeleteTeamR (actor teamID confirmationName key fp : string)
| AddTeamMemberR (actor teamID key fp UserID Role : string)
| RemoveTeamMemberR (actor teamID userID : string)
| CreateServiceAccountR (actor key fp ProjectID Name : string) (Role : AccessRole)
| CreateServiceAccountTokenR (actor key fp ServiceAccountID Name Prefix : string) (TokenHash : list Z)
    (Scopes : list string) (ExpiresAt : Time)
| RevokeServiceAccountTokenR (actor serviceAccountID tokenID key fp : string)
| DisableServiceAccountR (actor serviceAccountID key fp : string)
| ServiceAccountByTokenR (tokenHash : list Z) (now : Time)
| CreateProjectR (actor key fp Name Slug TeamID : string)
| DeleteProjectR (actor projectID confirmationName key fp : string)
| CreateEnvironmentR (actor key fp ProjectID Name Slug ProtectionPolicy : string)
| DeleteEnvironmentR (actor environmentID confirmationName key fp : string)
| CreateApplicationR (actor key fp ProjectID EnvironmentID Name Slug SourceKind : string)
| DeleteApplicationR (actor applicationID confirmationName key fp : string)
| CreateGitHubInstallationR (actor key fp : string) (input : CreateGitHubInstallationInput)
| LinkVerifiedGitHubInstallationR (actor key fp : string) (input : CreateGitHubInstallationInput)
| UpdateGitHubInstallationSharingR (actor installationID key fp Visibility TeamID : string)
| CreateProjectAccessGrantR (actor key fp : string) (input : CreateAccessGrantInput)
| DeleteProjectAccessGrantR (actor projectID grantID key fp : string)
| AuditRuntimeAccessR (actor deploymentID action : string).

(** The actor of a request that acts on behalf of one. *)
Definition actorOf (r : Request) : option string :=
  match r with
  | BootstrapAdminR _ _ _ _ | CreateLoginSessionR _ _ _ _ _ | RevokeSessionR _
  | AcceptUserInvitationR _ _ _ _ _ _ | ServiceAccountByTokenR _ _ => None
  | CreateUserInvitationR actor _ _ _ | DeleteUserR actor _ _ _ _ | CreateTeamR actor _ _ _ _
  | DeleteTeamR actor _ _ _ _ | AddTeamMemberR actor _ _ _ _ _ | RemoveTeamMemberR actor _ _
  | CreateServiceAccountR actor _ _ _ _ _ | CreateServiceAccountTokenR actor _ _ _ _ _ _ _ _
  | RevokeServiceAccountTokenR actor _ _ _ _ | DisableServiceAccountR actor _ _ _
  | CreateProjectR actor _ _ _ _ _ | DeleteProjectR actor _ _ _ _
  | CreateEnvironmentR actor _ _ _ _ _ _ | DeleteEnvironmentR actor _ _ _ _
  | CreateApplicationR actor _ _ _ _ _ _ _ | DeleteApplicationR actor _ _ _ _
  | CreateGitHubInstallationR actor _ _ _ | LinkVerifiedGitHubInstallationR actor _ _ _
  | UpdateGitHubInstallationSharingR actor _ _ _ _ _ | CreateProjectAccessGrantR actor _ _ _
  | DeleteProjectAccessGrantR actor _ _ _ _ | AuditRuntimeAccessR actor _ _ => Some actor
  end.

Definition final {A} (m : outcome A) : res StoreErr Store := let* r := m in Ok (fst r).

Section steps.
Context `{MapOrder}.

Definition serve (s : Store) (c : Call) (r : Request) : res StoreErr Store :=
  match r with
  | BootstrapAdminR u ph h ex => final (BootstrapAdmin s c u ph h ex)
  | CreateLoginSessionR u eh uh h ex => final (CreateLoginSession s c u eh uh h ex)
  | RevokeSessionR h => final (RevokeSession s h)
  | CreateUserInvitationR a em h ex => final (CreateUserInvitation s c a em h ex)
  | AcceptUserInvitationR t d ph h pr ex => final (AcceptUserInvitation s c t d ph h pr ex)
  | DeleteUserR a u em k fp => final (DeleteUser s c a u em k fp)
  | CreateTeamR a k fp nm sl => final (CreateTeam s c a k fp nm sl)
  | DeleteTeamR a t nm k fp => final (DeleteTeam s c a t nm k fp)
  | AddTeamMemberR a t k fp u ro => final (AddTeamMember s c a t k fp u ro)
  | RemoveTeamMemberR a t u => final (RemoveTeamMember s c a t u)
  | CreateServiceAccountR a k fp p nm ro => final (CreateServiceAccount s c a k fp p nm ro)
  | CreateServiceAccountTokenR a k fp sa nm pf h sc ex =>
      final (CreateServiceAccountToken s c a k fp sa nm pf h sc ex)
  | RevokeServiceAccountTokenR a sa t k fp => final (RevokeServiceAccountToken s c a sa t k fp)
  | DisableServiceAccountR a sa k fp => final (DisableServiceAccount s c a sa k fp)
  | ServiceAccountByTokenR h now => final (ServiceAccountByToken s h now)
  | CreateProjectR a k fp nm sl t => final (CreateProject s c a k fp nm sl t)
  | DeleteProjectR a p nm k fp => final (DeleteProject s c a p nm k fp)
  | CreateEnvironmentR a k fp p nm sl pol => final (CreateEnvironment s c a k fp p nm sl pol)
  | DeleteEnvironmentR a e nm k fp => final (DeleteEnvironment s c a e nm k fp)
  | CreateApplicationR a k fp p e nm sl kd => final (CreateApplication s c a k fp p e nm sl kd)
  | DeleteApplicationR a ap nm k fp => final (DeleteApplication s c a ap nm k fp)
  | CreateGitHubInstallationR a k fp i => final (CreateGitHubInstallation s c a k fp i)
  | LinkVerifiedGitHubInstallationR a k fp i => final (LinkVerifiedGitHubInstallation s c a k fp i)
  | UpdateGitHubInstallationSharingR a i k fp v t =>
      final (UpdateGitHubInstallationSharing s c a i k fp v t)
  | CreateProjectAccessGrantR a k fp i => final (CreateProjectAccessGrant s c a k fp i)
  | DeleteProjectAccessGrantR a p g k fp => final (DeleteProjectAccessGrant s c a p g k fp)
  | AuditRuntimeAccessR a d act => final (AuditRuntimeAccess s a d act)
  end.

(** * Histories

    [id.New] draws random UUIDs.  What is assumed of them is that they are not
    empty and that no identifier is drawn twice in the life of the store:
    [used] are those drawn so far. *)

Definition issues (c : Call) (r : Request) : list string :=
  match r with
  | BootstrapAdminR u _ _ _ => [u_ID u; c_id c 0]
  | _ => [c_id c 0; c_id c 1; c_id c 2]
  end.

Definition fresh (used : gset string) (c : Call) (r : Request) : Prop :=
  NoDup (issues c r) ∧ ∀ x, x ∈ issues c r → x ≠ "" ∧ x ∉ used.

Inductive history (used : gset string) (s : Store) : gset string → Store → Prop :=
| history_refl : history used s used s
| history_step used' s' c r s'' :
    history used s used' s' → fresh used' c r → serve s' c r = Ok s'' →
    history used s (used' ∪ list_to_set (issues c r)) s''.

Lemma history_trans u1 s1 u2 s2 u3 s3 :
  history u1 s1 u2 s2 → history u2 s2 u3 s3 → history u1 s1 u3 s3.
Proof. intros H12 H23. induction H23; [done|]. econstructor; eauto. Qed.

(** A script of calls, run: [None] when one is refused or issues an identifier
    again. *)

#[export] Instance fresh_dec used c r : Decision (fresh used c r).
Proof.
  refine (cast_if (decide (NoDup (issues c r) ∧ Forall (λ x, x ≠ "" ∧ x ∉ used) (issues c r))));
    unfold fresh; rewrite <- Forall_forall; done.
Defined.

Fixpoint run (used : gset string) (s : Store) (script : list (Call * Request))
    : option (gset string * Store) :=
  match script with
  | [] => Some (used, s)
  | (c, r) :: rest =>
      if negb (bool_decide (fresh used c r)) then None
      else match serve s c r with
           | Ok s' => run (used ∪ list_to_set (issues c r)) s' rest
           | Err _ => None
           end
  end.

Lemma run_history used s script used' s' : run used s script = Some (used', s') → history used s used' s'.
Proof.
  revert used s. induction script as [|[c r] rest IH]; intros used s; simpl.
  - intros [= <- <-]. constructor.
  - case_bool_decide as Hf; [|done]. simpl. destruct (serve s c r) as [s1|] eqn:Hs; [|done].
    intros Hr. eapply history_trans; [|by eapply IH]. econstructor; [constructor|done|done].
Qed.

(** Where a script that runs leaves the store. *)
Definition after (script : list (Call * Request)) : gset string * Store := default (∅, New) (run ∅ New script).

Lemma after_history script :
  present (run ∅ New script) = true → history ∅ New (fst (after script)) (snd (after script)).
Proof.
  unfold after. destruct (run ∅ New script) as [[used s]|] eqn:E; [|done]. intros _. by eapply run_history.
Qed.

End steps.
