(* ===== verification/ControlFacts.v ===== *)
(** What one call does to the control-plane store, map by map: what is in the
    map afterwards that was not before, and what can be gone.  The theorems of
    ControlSafety follow from these lemmas, so that no invariant repeats the
    case analysis over the handlers. *)

From S2P Require Import Prelude Regexp GoStrings Digest Access ControlModel ControlAccess ControlIdentity ControlAutomation ControlResources ControlGrants ControlSteps.

Open Scope Z_scope.

#[local] Opaque sha256 hex_encode hash_key.

(** * The revocation of what a change of grants invalidates *)

Definition bumps (s : Store) (userIDs : gset string) (userID : string) : bool :=
  bool_decide (userID ∈ userIDs) &&
  match s_users s !! userID with
  | Some u => negb (String.eqb (u_Role u) "platform-admin")
  | None => false
  end.

Definition bumpUser (u : User) : User := u |> u_set_GrantRevision (i64 (u_GrantRevision u + 1)).

(** [bumped now userIDs s s']: exactly the revisions of the users, their live
    tokens and their sessions differ. *)
Record bumped (now : Time) (hit : string → bool) (s s' : Store) : Prop := {
  bumped_frame : ∃ us ts ss,
    s' = s |> s_set_users us |> s_set_serviceAccountTokens ts |> s_set_sessions ss;
  bumped_users : ∀ k, s_users s' !! k = (λ u, if hit k then bumpUser u else u) <$> s_users s !! k;
  bumped_tokens : ∀ k, s_serviceAccountTokens s' !! k =
    (λ t, if hit (tk_ServiceAccountID t) && negb (present (tk_RevokedAt t)) then revokeAt now t else t)
      <$> s_serviceAccountTokens s !! k;
  bumped_sessions : ∀ h x, s_sessions s' !! h = Some x ↔
    s_sessions s !! h = Some x ∧ hit (se_userID x) = false;
}.

Lemma bumped_none now s : bumped now (λ _, false) s s.
Proof.
  constructor.
  - exists (s_users s), (s_serviceAccountTokens s), (s_sessions s). by destruct s.
  - intros k. by destruct (s_users s !! k).
  - intros k. by destruct (s_serviceAccountTokens s !! k).
  - naive_solver.
Qed.

Lemma bumped_ext now hit hit' s s' : (∀ k, hit k = hit' k) → bumped now hit s s' → bumped now hit' s s'.
Proof.
  intros He [Hf Hu Ht Hs]. constructor; [done|..].
  - intros k. by rewrite Hu, He.
  - intros k. rewrite Ht. destruct (s_serviceAccountTokens s !! k); simpl; by rewrite ?He.
  - intros h x. by rewrite Hs, He.
Qed.

Lemma bumped_trans now hit1 hit2 s1 s2 s3 :
  (∀ k, hit1 k && hit2 k = false) →
  bumped now hit1 s1 s2 → bumped now hit2 s2 s3 → bumped now (λ k, hit1 k || hit2 k) s1 s3.
Proof.
  intros Hd [(us & ts & ss & Hf) Hu Ht Hs] [(us' & ts' & ss' & Hf') Hu' Ht' Hs']. constructor.
  - exists us', ts', ss'. by rewrite Hf', Hf.
  - intros k. rewrite Hu', Hu. destruct (s_users s1 !! k); [|done]. simpl.
    specialize (Hd k). by destruct (hit1 k), (hit2 k).
  - intros k. rewrite Ht', Ht. destruct (s_serviceAccountTokens s1 !! k) as [t|]; [|done]. simpl.
    specialize (Hd (tk_ServiceAccountID t)).
    destruct (hit1 (tk_ServiceAccountID t)) eqn:E1, (tk_RevokedAt t) eqn:Er; simpl in *;
      rewrite ?E1, ?Hd, ?Er; simpl; rewrite ?andb_false_r; done.
  - intros h x. rewrite Hs', Hs, orb_false_iff. naive_solver.
Qed.

Lemma bumpGrants1_bumped now s userID :
  bumped now (bumps s {[ userID ]}) s (bumpGrants1 now s userID).
Proof.
  unfold bumpGrants1, bumps. destruct (s_users s !! userID) as [u|] eqn:E.
  2:{ eapply bumped_ext; [|apply bumped_none]. intros k. simpl.
      case_bool_decide as Hk; [|done]. apply elem_of_singleton in Hk as ->. by rewrite E. }
  destruct (String.eqb (u_Role u) "platform-admin") eqn:Er.
  { eapply bumped_ext; [|apply bumped_none]. intros k. simpl.
    case_bool_decide as Hk; [|done]. apply elem_of_singleton in Hk as ->. by rewrite E, Er. }
  assert (∀ k, bool_decide (k ∈ ({[userID]} : gset string)) &&
     match s_users s !! k with Some u => negb (String.eqb (u_Role u) "platform-admin") | None => false end =
     String.eqb k userID) as Hk.
  { intros k. case_bool_decide as Hk; simpl.
    - apply elem_of_singleton in Hk as ->. by rewrite E, Er, String.eqb_refl.
    - symmetry. apply String.eqb_neq. set_solver. }
  constructor; simpl.
  - by eexists _, _, _.
  - intros k. rewrite Hk. destruct (String.eqb_spec k userID) as [->|Hne].
    + by rewrite lookup_insert_eq, E.
    + rewrite lookup_insert_ne by done. by destruct (s_users s !! k).
  - intros k. rewrite lookup_update_where. destruct (s_serviceAccountTokens s !! k); [|done]. simpl.
    by rewrite Hk.
  - intros h x. unfold dropSessionsOf. by rewrite lookup_drop_where, Hk.
Qed.

Lemma bumps_after now hit s s' ids k : bumped now hit s s' → bumps s' ids k = bumps s ids k.
Proof.
  intros [_ Hu _ _]. unfold bumps. rewrite Hu.
  destruct (s_users s !! k); [|done]. simpl. by destruct (hit k).
Qed.

Lemma bumpGrantsLocked_bumped now ids s : bumped now (bumps s ids) s (bumpGrantsLocked now ids s).
Proof.
  unfold bumpGrantsLocked.
  apply (bumped_ext now (λ k, bumps s (list_to_set (elements ids)) k)).
  { intros k. by rewrite list_to_set_elements_L. }
  pose proof (NoDup_elements ids) as Hd. revert s Hd.
  induction (elements ids) as [|x l IH]; intros s Hd; simpl.
  - eapply bumped_ext; [|apply bumped_none]. intros k. unfold bumps. by rewrite bool_decide_eq_false_2.
  - apply NoDup_cons in Hd as [Hx Hd]. pose proof (bumpGrants1_bumped now s x) as H1.
    specialize (IH (bumpGrants1 now s x) Hd).
    eapply (bumped_ext _ _ _ _ _ (λ k, eq_refl)), bumped_ext; [|eapply bumped_trans; [|exact H1|exact IH]].
    + intros k. cbv beta. rewrite (bumps_after _ _ _ _ _ _ H1). unfold bumps.
      rewrite <- andb_orb_distrib_l. f_equal. rewrite <- bool_decide_or.
      apply bool_decide_ext. by rewrite elem_of_union.
    + intros k. cbv beta. rewrite (bumps_after _ _ _ _ _ _ H1). unfold bumps.
      destruct (bool_decide_reflect (k ∈ ({[x]} : gset string))) as [->%elem_of_singleton|]; [|done].
      rewrite (bool_decide_eq_false_2 (x ∈ list_to_set l)) by (rewrite elem_of_list_to_set; done).
      by rewrite andb_false_r.
Qed.

(** * The cases of a call

    [call_paths] splits a successful call into the paths of its handler,
    [serve_cases] into the handlers and their paths. *)

Ltac split_ok H :=
  cbn beta iota zeta in H;
  lazymatch type of H with
  | Ok _ = Ok _ => injection H; clear H; intros; subst
  | Err _ = Ok _ => discriminate H
  | res_bind _ _ = Ok _ =>
      let a := fresh "a" in let Ha := fresh "Ha" in apply res_bind_ok in H as (a & Ha & H); split_ok H
  | (if ?b then _ else _) = Ok _ => let E := fresh "E" in destruct b eqn:E; split_ok H
  | (match ?x with _ => _ end) = Ok _ => let E := fresh "E" in destruct x eqn:E; split_ok H
  end.

Ltac call_paths H :=
  cbn [serve final] in H; unfold final in H;
  apply res_bind_ok in H as ([? ?] & H & [= <-]); cbn [fst];
  unfold BootstrapAdmin, CreateLoginSession, RevokeSession, CreateUserInvitation, AcceptUserInvitation,
    DeleteUser, CreateTeam, DeleteTeam, AddTeamMember, RemoveTeamMember, CreateServiceAccount,
    CreateServiceAccountToken, RevokeServiceAccountToken, DisableServiceAccount, ServiceAccountByToken,
    CreateProject, DeleteProject, CreateEnvironment, DeleteEnvironment, CreateApplication,
    DeleteApplication, CreateGitHubInstallation, LinkVerifiedGitHubInstallation,
    UpdateGitHubInstallationSharing, CreateProjectAccessGrant, DeleteProjectAccessGrant,
    AuditRuntimeAccess in H;
  split_ok H.

Ltac serve_cases r H := destruct r; call_paths H.

(** [field] computes one map of the state a call leaves; a revocation of grants
    is replaced by what [bumped] says of it. *)

Ltac state_cbn :=
  cbn [
    s_users s_set_users s_invitations s_set_invitations s_teams s_set_teams s_memberships
    s_set_memberships s_installations s_set_installations s_accessGrants s_set_accessGrants
    s_serviceAccounts s_set_serviceAccounts s_serviceAccountTokens s_set_serviceAccountTokens
    s_serviceAccountTokenHashes s_set_serviceAccountTokenHashes s_passwordCredentials
    s_set_passwordCredentials s_sessions s_set_sessions s_projects s_set_projects s_environments
    s_set_environments s_applications s_set_applications s_environmentAppPlacements
    s_set_environmentAppPlacements s_deployments s_set_deployments s_deploymentInputs
    s_set_deploymentInputs s_gitWriteCommands s_set_gitWriteCommands s_gitPublicationModes s_set_gitPublicationModes
    s_gitPublications s_set_gitPublications s_gitBindings s_set_gitBindings
    s_operations s_set_operations s_idempotency s_set_idempotency s_outbox s_set_outbox
    s_outboxDatasetID s_set_outboxDatasetID s_audits s_set_audits s_leases s_set_leases
    s_projectRegistryPullCredentials s_set_projectRegistryPullCredentials s_registryPolicies
    s_set_registryPolicies s_registryPins s_set_registryPins s_registryAuthorities
    s_set_registryAuthorities s_registryReleases s_set_registryReleases s_registryCaches
    s_set_registryCaches] in *.

Ltac field :=
  try unfold bumpGrantSubjectsLocked;
  repeat match goal with
  | |- context [bumpGrantsLocked ?now ?ids ?s] =>
      let Hb := fresh "Hb" in
      pose proof (bumpGrantsLocked_bumped now ids s) as Hb;
      generalize dependent (bumpGrantsLocked now ids s); intros ? Hb;
      destruct Hb as [(? & ? & ? & ->) Hbu Hbt Hbs]
  end;
  unfold openSession, putInstallation, record_idem, count_audit, dropGrants, dropAccounts, dropDeployments,
    dropRegistryService, placeApplication, placementsOf in *;
  repeat match goal with |- context [if ?b then _ else _] => destruct b eqn:? end;
  state_cbn.

(** A map afterwards is one the constructors of its [_change] describe. *)
Ltac by_change r Hs :=
  serve_cases r Hs; field; bool_prop;
  repeat match goal with a : () |- _ => destruct a end;
  first [by constructor | solve [econstructor; eauto]].

(** What remains of a lookup in a map that was updated at a key. *)
Ltac at_key k :=
  match goal with
  | |- context [<[?i := _]> _ !! k] =>
      destruct (decide (i = k)) as [<-|];
      [rewrite lookup_insert_eq | rewrite lookup_insert_ne by done]
  | |- context [delete ?i _ !! k] =>
      destruct (decide (i = k)) as [<-|];
      [rewrite lookup_delete_eq | rewrite lookup_delete_ne by done]
  end.

Section served.
Context `{MapOrder}.
Implicit Types (s : Store) (c : Call) (r : Request).

(** ** Projects *)

Inductive projects_change s c : Request → gmap string Project → Prop :=
| projects_same r : projects_change s c r (s_projects s)
| projects_new actor key fp Name Slug TeamID :
    authorizeLocked s actor PermissionResourcesWrite (projectCreationTarget TeamID) = Ok tt →
    any_where (λ _ v, String.eqb (p_Slug v) Slug) (s_projects s) = false →
    projects_change s c (CreateProjectR actor key fp Name Slug TeamID)
      (<[c_id c 0 := mkProject (c_id c 0) Name Slug TeamID (c_now c)]> (s_projects s))
| projects_gone actor projectID name key fp :
    authorizeLocked s actor PermissionGrantsManage (target "project" projectID) = Ok tt →
    projectInUse s projectID = false →
    projects_change s c (DeleteProjectR actor projectID name key fp) (delete projectID (s_projects s)).

Lemma serve_projects s c r s' : serve s c r = Ok s' → projects_change s c r (s_projects s').
Proof. intros Hs. by_change r Hs. Qed.

(** ** Environments *)

Inductive environments_change s c : Request → gmap string Environment → Prop :=
| environments_same r : environments_change s c r (s_environments s)
| environments_new actor key fp ProjectID Name Slug policy project Namespace ArgoProject :
    s_projects s !! ProjectID = Some project →
    authorizeLocked s actor PermissionResourcesWrite (target "project" (p_ID project)) = Ok tt →
    DeriveEnvironmentDestination project Slug = (Namespace, ArgoProject) →
    any_where (λ _ v, String.eqb (e_Namespace v) Namespace ||
       String.eqb (e_ProjectID v) ProjectID && String.eqb (e_Slug v) Slug) (s_environments s) = false →
    environments_change s c (CreateEnvironmentR actor key fp ProjectID Name Slug policy)
      (<[c_id c 0 := mkEnvironment (c_id c 0) ProjectID Name Slug Namespace ArgoProject
           (protectionPolicy policy) (c_now c)]> (s_environments s))
| environments_gone actor environmentID name key fp environment :
    s_environments s !! environmentID = Some environment →
    authorizeLocked s actor PermissionResourcesWrite (target "project" (e_ProjectID environment)) = Ok tt →
    environments_change s c (DeleteEnvironmentR actor environmentID name key fp)
      (delete environmentID (s_environments s)).

Lemma serve_environments s c r s' : serve s c r = Ok s' → environments_change s c r (s_environments s').
Proof. intros Hs. by_change r Hs. Qed.

(** ** Applications, their placements and deployments *)

Inductive applications_change s c : Request → gmap string Application → Prop :=
| applications_same r : applications_change s c r (s_applications s)
| applications_new actor key fp ProjectID EnvironmentID Name Slug SourceKind project :
    s_projects s !! ProjectID = Some project →
    authorizeLocked s actor PermissionResourcesWrite (target "project" (p_ID project)) = Ok tt →
    any_where (λ _ v, String.eqb (ap_ProjectID v) ProjectID && String.eqb (ap_Slug v) Slug)
      (s_applications s) = false →
    applications_change s c (CreateApplicationR actor key fp ProjectID EnvironmentID Name Slug SourceKind)
      (<[c_id c 0 := newApplication c ProjectID Name Slug SourceKind]> (s_applications s))
| applications_gone actor applicationID name key fp application :
    s_applications s !! applicationID = Some application →
    authorizeLocked s actor PermissionResourcesWrite (target "project" (ap_ProjectID application)) = Ok tt →
    applications_change s c (DeleteApplicationR actor applicationID name key fp)
      (delete applicationID (s_applications s)).

Lemma serve_applications s c r s' : serve s c r = Ok s' → applications_change s c r (s_applications s').
Proof. intros Hs. by_change r Hs. Qed.

Inductive placements_change s c : Request → gmap string (gmap string EnvironmentAppPlacement) → Prop :=
| placements_same r : placements_change s c r (s_environmentAppPlacements s)
| placements_new actor key fp ProjectID EnvironmentID Name Slug SourceKind project :
    s_projects s !! ProjectID = Some project →
    authorizeLocked s actor PermissionResourcesWrite (target "project" (p_ID project)) = Ok tt →
    EnvironmentID ≠ "" →
    placementTarget s project EnvironmentID = Ok tt →
    placements_change s c (CreateApplicationR actor key fp ProjectID EnvironmentID Name Slug SourceKind)
      (<[EnvironmentID :=
           <[c_id c 0 := draftPlacement c project EnvironmentID (newApplication c ProjectID Name Slug SourceKind)]>
             (placementsOf s EnvironmentID)]> (s_environmentAppPlacements s))
| placements_environment_gone actor environmentID name key fp environment :
    s_environments s !! environmentID = Some environment →
    authorizeLocked s actor PermissionResourcesWrite (target "project" (e_ProjectID environment)) = Ok tt →
    placements_change s c (DeleteEnvironmentR actor environmentID name key fp)
      (delete environmentID (s_environmentAppPlacements s))
| placements_application_gone actor applicationID name key fp application :
    s_applications s !! applicationID = Some application →
    authorizeLocked s actor PermissionResourcesWrite (target "project" (ap_ProjectID application)) = Ok tt →
    placements_change s c (DeleteApplicationR actor applicationID name key fp)
      (delete applicationID <$> s_environmentAppPlacements s).

Lemma serve_placements s c r s' :
  serve s c r = Ok s' → placements_change s c r (s_environmentAppPlacements s').
Proof. intros Hs. by_change r Hs. Qed.

Inductive deployments_change s c : Request → gmap string Deployment → Prop :=
| deployments_same r : deployments_change s c r (s_deployments s)
| deployments_new actor key fp ProjectID EnvironmentID Name Slug SourceKind project :
    s_projects s !! ProjectID = Some project →
    authorizeLocked s actor PermissionResourcesWrite (target "project" (p_ID project)) = Ok tt →
    EnvironmentID ≠ "" →
    placementTarget s project EnvironmentID = Ok tt →
    deployments_change s c (CreateApplicationR actor key fp ProjectID EnvironmentID Name Slug SourceKind)
      (<[c_id c 1 := sourceDraft c EnvironmentID (newApplication c ProjectID Name Slug SourceKind)]>
         (s_deployments s))
| deployments_environment_gone actor environmentID name key fp environment :
    s_environments s !! environmentID = Some environment →
    authorizeLocked s actor PermissionResourcesWrite (target "project" (e_ProjectID environment)) = Ok tt →
    any_where (λ _ deployment, inEnvironment environmentID deployment &&
       negb (retired s environmentID deployment)) (s_deployments s) = false →
    deployments_change s c (DeleteEnvironmentR actor environmentID name key fp)
      (drop_where (λ _, inEnvironment environmentID) (s_deployments s))
| deployments_application_gone actor applicationID name key fp application :
    s_applications s !! applicationID = Some application →
    authorizeLocked s actor PermissionResourcesWrite (target "project" (ap_ProjectID application)) = Ok tt →
    any_where (λ _ deployment, ofApplication applicationID deployment &&
       negb (String.eqb (dp_State deployment) "stopped")) (s_deployments s) = false →
    deployments_change s c (DeleteApplicationR actor applicationID name key fp)
      (drop_where (λ _, ofApplication applicationID) (s_deployments s)).

Lemma serve_deployments s c r s' : serve s c r = Ok s' → deployments_change s c r (s_deployments s').
Proof. intros Hs. by_change r Hs. Qed.

(** ** Teams and their members *)

Inductive teams_change s c : Request → gmap string Team → Prop :=
| teams_same r : teams_change s c r (s_teams s)
| teams_new actor key fp Name Slug :
    any_where (λ _ team, String.eqb (tm_Slug team) Slug) (s_teams s) = false →
    teams_change s c (CreateTeamR actor key fp Name Slug)
      (<[c_id c 0 := mkTeam (c_id c 0) Name Slug (c_now c)]> (s_teams s))
| teams_gone actor teamID name key fp :
    any_where (λ _ project, String.eqb (p_TeamID project) teamID) (s_projects s) = false →
    any_where (λ _ installation, String.eqb (gi_TeamID installation) teamID) (s_installations s) = false →
    teams_change s c (DeleteTeamR actor teamID name key fp) (delete teamID (s_teams s)).

Lemma serve_teams s c r s' : serve s c r = Ok s' → teams_change s c r (s_teams s').
Proof. intros Hs. by_change r Hs. Qed.

Inductive memberships_change s c : Request → gmap string (gmap string TeamMember) → Prop :=
| memberships_same r : memberships_change s c r (s_memberships s)
| memberships_team_new actor key fp Name Slug :
    memberships_change s c (CreateTeamR actor key fp Name Slug)
      (<[c_id c 0 := {[ actor := mkMember (c_id c 0) actor "owner" (c_now c) ]}]> (s_memberships s))
| memberships_team_gone actor teamID name key fp :
    memberships_change s c (DeleteTeamR actor teamID name key fp) (delete teamID (s_memberships s))
| memberships_add actor teamID key fp UserID Role :
    present (s_teams s !! teamID) = true →
    match membersOf s teamID !! UserID with
    | Some member => lastOwner s teamID member && negb (String.eqb Role "owner")
    | None => false
    end = false →
    memberships_change s c (AddTeamMemberR actor teamID key fp UserID Role)
      (<[teamID := <[UserID := me_set_Role Role
           (default (mkMember teamID UserID "" (c_now c)) (membersOf s teamID !! UserID))]> (membersOf s teamID)]>
         (s_memberships s))
| memberships_remove actor teamID userID member :
    present (s_teams s !! teamID) = true →
    membersOf s teamID !! userID = Some member → lastOwner s teamID member = false →
    memberships_change s c (RemoveTeamMemberR actor teamID userID)
      (<[teamID := delete userID (membersOf s teamID)]> (s_memberships s))
| memberships_user_gone actor userID email key fp :
    any_where (λ teamID members,
       match members !! userID with
       | Some member => lastOwner s teamID member
       | None => false
       end) (s_memberships s) = false →
    memberships_change s c (DeleteUserR actor userID email key fp) (delete userID <$> s_memberships s).

Lemma serve_memberships s c r s' : serve s c r = Ok s' → memberships_change s c r (s_memberships s').
Proof. intros Hs. by_change r Hs. Qed.

(** ** Access grants *)

Definition accountGrant (c : Call) (actor : string) (Role : AccessRole) (projectID : string) : AccessGrant :=
  mkGrant (c_id c 1) (c_id c 0) "" Role ScopeProject projectID [] "service-account" actor (c_now c).

Inductive grants_change s c : Request → gmap string AccessGrant → Prop :=
| grants_same r : grants_change s c r (s_accessGrants s)
| grants_bootstrap u ph h ex :
    BootstrapRequired s = true →
    grants_change s c (BootstrapAdminR u ph h ex) (<[c_id c 0 := bootstrapGrant c u]> (s_accessGrants s))
| grants_account actor key fp ProjectID Name Role project :
    s_projects s !! ProjectID = Some project → ValidRole Role = true →
    CanManageGrant (bindingsLocked s actor) (projectTarget project) Role = true →
    grants_change s c (CreateServiceAccountR actor key fp ProjectID Name Role)
      (<[c_id c 1 := accountGrant c actor Role (p_ID project)]> (s_accessGrants s))
| grants_explicit actor key fp input project t :
    s_projects s !! gr_ProjectID input = Some project →
    wellFormedGrant input = true →
    scopeTargetForProjectLocked s project (gr_ScopeType input) (gr_ScopeID input) = (t, true) →
    CanManageGrant (bindingsLocked s actor) t (gr_Role input) = true →
    (if negb (String.eqb (gr_SubjectUserID input) "") then present (s_users s !! gr_SubjectUserID input)
     else present (s_teams s !! gr_SubjectTeamID input)) = true →
    grants_change s c (CreateProjectAccessGrantR actor key fp input)
      (<[c_id c 0 := explicitGrant c actor input]> (s_accessGrants s))
| grants_user_gone actor userID email key fp :
    isAdminLocked s actor = true → actor ≠ userID →
    grants_change s c (DeleteUserR actor userID email key fp)
      (drop_where (λ _ grant, String.eqb (g_SubjectUserID grant) userID) (s_accessGrants s))
| grants_team_gone actor teamID name key fp team :
    s_teams s !! teamID = Some team →
    grants_change s c (DeleteTeamR actor teamID name key fp)
      (drop_where (λ _ grant, String.eqb (g_SubjectTeamID grant) teamID ||
          String.eqb (g_ScopeType grant) ScopeTeam && String.eqb (g_ScopeID grant) teamID) (s_accessGrants s))
| grants_project_gone actor projectID name key fp :
    grants_change s c (DeleteProjectR actor projectID name key fp)
      (drop_where (λ _, scopedTo ScopeProject projectID) (s_accessGrants s))
| grants_environment_gone actor environmentID name key fp :
    grants_change s c (DeleteEnvironmentR actor environmentID name key fp)
      (drop_where (λ _, scopedTo ScopeEnvironment environmentID) (s_accessGrants s))
| grants_application_gone actor applicationID name key fp :
    grants_change s c (DeleteApplicationR actor applicationID name key fp)
      (drop_where (λ _, scopedTo ScopeApplication applicationID) (s_accessGrants s))
| grants_deleted actor projectID grantID key fp grant project t :
    s_projects s !! projectID = Some project →
    s_accessGrants s !! grantID = Some grant → g_Source grant = "explicit" →
    scopeTargetForProjectLocked s project (g_ScopeType grant) (g_ScopeID grant) = (t, true) →
    CanManageGrant (bindingsLocked s actor) t (g_Role grant) = true →
    grants_change s c (DeleteProjectAccessGrantR actor projectID grantID key fp)
      (delete grantID (s_accessGrants s)).

Lemma serve_grants s c r s' : serve s c r = Ok s' → grants_change s c r (s_accessGrants s').
Proof. intros Hs. by_change r Hs. Qed.

(** ** Users *)

Inductive user_change s c : Request → string → option User → option User → Prop :=
| user_same r k o : user_change s c r k o o
| user_bumped r k u : user_change s c r k (Some u) (Some (bumpUser u))
| user_bootstrapped u ph h ex o :
    BootstrapRequired s = true → user_change s c (BootstrapAdminR u ph h ex) (u_ID u) o (Some u)
| user_invited th dn ph h pr ex record o :
    user_change s c (AcceptUserInvitationR th dn ph h pr ex) (c_id c 0) o (Some (invitedUser c record dn))
| user_account actor key fp ProjectID Name Role o :
    user_change s c (CreateServiceAccountR actor key fp ProjectID Name Role) (c_id c 0) o
      (Some (accountUser c Name))
| user_deleted actor k email key fp u :
    isAdminLocked s actor = true → actor ≠ k → u_Issuer u ≠ deletedIssuer →
    present (s_serviceAccounts s !! k) = false →
    user_change s c (DeleteUserR actor k email key fp) k (Some u) (Some (deletedUser u))
| user_gone actor projectID name key fp k o :
    accountOf s projectID k = true →
    user_change s c (DeleteProjectR actor projectID name key fp) k o None.

Lemma lookup_drop_key {A} (f : string → bool) (m : gmap string A) k :
  drop_where (λ k _, f k) m !! k = if f k then None else m !! k.
Proof.
  apply option_eq. intros a. rewrite lookup_drop_where. destruct (f k); naive_solver.
Qed.

Lemma serve_users s c r s' :
  serve s c r = Ok s' → ∀ k, user_change s c r k (s_users s !! k) (s_users s' !! k).
Proof.
  intros Hs k. serve_cases r Hs; field; bool_prop; try by constructor.
  all: try (rewrite Hbu; destruct (s_users s !! k); simpl; [destruct (bumps _ _ _)|]; by constructor).
  all: try (at_key k; by constructor).
  - destruct (decide (userID = k)) as [<-|]; [rewrite lookup_insert_eq|rewrite lookup_insert_ne by done; by constructor].
    match goal with E : s_users s !! _ = Some _ |- _ => rewrite E end. by constructor.
  - rewrite lookup_drop_key. destruct (accountOf _ _ _) eqn:Ea; by constructor.
Qed.

(** ** Service accounts and tokens

    A handler that changes an account, a token or an installation stores it
    under the record's own identifier: [keyed]. *)

Definition keyed {A} (ID : A → string) (m : gmap string A) : Prop := ∀ k a, m !! k = Some a → ID a = k.

Inductive account_change s c : Request → string → option ServiceAccount → option ServiceAccount → Prop :=
| account_same r k o : account_change s c r k o o
| account_new actor key fp ProjectID Name Role project o :
    s_projects s !! ProjectID = Some project →
    account_change s c (CreateServiceAccountR actor key fp ProjectID Name Role) (c_id c 0) o
      (Some (mkAccount (c_id c 0) (p_ID project) Name Role actor (c_now c) None))
| account_disabled actor k key fp account :
    account_change s c (DisableServiceAccountR actor k key fp) k (Some account)
      (Some (sa_set_DisabledAt (Some (c_now c)) account))
| account_gone actor projectID name key fp k o :
    accountOf s projectID k = true →
    account_change s c (DeleteProjectR actor projectID name key fp) k o None.

Lemma manageable_account s actor accountID account project :
  manageableServiceAccountLocked s actor accountID = Ok (account, project) →
  s_serviceAccounts s !! accountID = Some account.
Proof. unfold manageableServiceAccountLocked. intros Hm. by split_ok Hm. Qed.

Ltac manageable :=
  repeat match goal with
  | a : ServiceAccount * Project |- _ => destruct a; cbn [fst] in *
  | Ha : manageableServiceAccountLocked _ _ _ = Ok _ |- _ => apply manageable_account in Ha
  end.

Lemma serve_accounts s c r s' :
  keyed sa_ID (s_serviceAccounts s) → serve s c r = Ok s' →
  ∀ k, account_change s c r k (s_serviceAccounts s !! k) (s_serviceAccounts s' !! k).
Proof.
  intros Hkeyed Hs k. serve_cases r Hs; manageable; field; bool_prop; try by constructor.
  - at_key k; [|by constructor]. by econstructor.
  - match goal with Ha : s_serviceAccounts s !! _ = Some _ |- _ => pose proof (Hkeyed _ _ Ha) as Hk end.
    rewrite Hk. at_key k; [|by constructor].
    match goal with Ha : s_serviceAccounts s !! _ = Some _ |- _ => rewrite Ha end. by constructor.
  - rewrite lookup_drop_key. destruct (accountOf _ _ _) eqn:Ea; by constructor.
Qed.

Inductive token_change s c : Request → string → option ServiceAccountToken → option ServiceAccountToken → Prop :=
| token_same r k o : token_change s c r k o o
| token_revoked r k token : token_change s c r k (Some token) (Some (revokeAt (c_now c) token))
| token_used h now k token :
    tk_RevokedAt token = None →
    token_change s c (ServiceAccountByTokenR h now) k (Some token) (Some (tk_set_LastUsedAt (Some now) token))
| token_new actor key fp accountID Name Prefix h Scopes expires scopes account o :
    s_serviceAccounts s !! accountID = Some account → sa_DisabledAt account = None →
    token_change s c (CreateServiceAccountTokenR actor key fp accountID Name Prefix h Scopes expires)
      (c_id c 0) o
      (Some (mkToken (c_id c 0) (sa_ID account) Name Prefix scopes expires None None actor (c_now c)))
| token_gone actor projectID name key fp k token :
    accountOf s projectID (tk_ServiceAccountID token) = true →
    token_change s c (DeleteProjectR actor projectID name key fp) k (Some token) None.

Lemma present_false {A} (o : option A) : present o = false ↔ o = None.
Proof. by destruct o. Qed.

Lemma present_true {A} (o : option A) : present o = true ↔ ∃ a, o = Some a.
Proof. destruct o; naive_solver. Qed.

Lemma token_revoked_where s c r k (f : ServiceAccountToken → bool) o :
  token_change s c r k o ((λ t, if f t then revokeAt (c_now c) t else t) <$> o).
Proof. destruct o as [t|]; simpl; [destruct (f t)|]; constructor. Qed.

Lemma serve_tokens s c r s' :
  keyed tk_ID (s_serviceAccountTokens s) → serve s c r = Ok s' →
  ∀ k, token_change s c r k (s_serviceAccountTokens s !! k) (s_serviceAccountTokens s' !! k).
Proof.
  intros Hkeyed Hs k. serve_cases r Hs; manageable; field; bool_prop;
    rewrite ?present_false in *; try by constructor.
  all: try (rewrite Hbt; apply token_revoked_where).
  all: try (match goal with Ha : s_serviceAccountTokens _ !! _ = Some _ |- _ =>
      rewrite (Hkeyed _ _ Ha); at_key k; [rewrite Ha|] end; by constructor).
  - at_key k; [|by constructor]. by econstructor.
  - rewrite lookup_update_where. apply token_revoked_where.
  - destruct (s_serviceAccountTokens s !! k) as [token|] eqn:Et.
    + destruct (accountOf s projectID (tk_ServiceAccountID token)) eqn:Ea.
      * destruct (drop_where _ _ !! k) eqn:Ed; [|by econstructor].
        apply lookup_drop_where in Ed as [? ?]. simplify_eq. congruence.
      * rewrite (proj2 (lookup_drop_where _ _ _ token)) by done. constructor.
    + destruct (drop_where _ _ !! k) eqn:Ed; [|by econstructor].
      apply lookup_drop_where in Ed as [? ?]. simplify_eq.
Qed.

(** ** Installations *)

Inductive installation_change s c : Request → string → option GitHubInstallation →
    option GitHubInstallation → Prop :=
| installation_same r k o : installation_change s c r k o o
| installation_new r k o installation :
    gi_Visibility installation = "private" → gi_ID installation = k → k = c_id c 0 →
    installation_change s c r k o (Some installation)
| installation_moved r k installation installation' :
    gi_Visibility installation' = gi_Visibility installation →
    gi_TeamID installation' = gi_TeamID installation → gi_ID installation' = gi_ID installation →
    installation_change s c r k (Some installation) (Some installation')
| installation_shared actor k key fp Visibility TeamID installation :
    (Visibility = "team" → present (s_teams s !! TeamID) = true) →
    installation_change s c (UpdateGitHubInstallationSharingR actor k key fp Visibility TeamID) k
      (Some installation)
      (Some (installation |> gi_set_Visibility Visibility |> gi_set_TeamID TeamID
                          |> gi_set_UpdatedAt (c_now c))).

Lemma find_range site {A} (f : string * A → bool) (m : gmap string A) k a :
  List.find f (range site m) = Some (k, a) → m !! k = Some a ∧ f (k, a) = true.
Proof.
  intros [Hin Hf]%find_some. apply list_elem_of_In in Hin.
  by apply elem_of_range in Hin.
Qed.

Lemma serve_installations s c r s' :
  keyed gi_ID (s_installations s) → serve s c r = Ok s' →
  ∀ k, installation_change s c r k (s_installations s !! k) (s_installations s' !! k).
Proof.
  intros Hkeyed Hs k. serve_cases r Hs; field; bool_prop; try by constructor.
  all: try (at_key k; [eapply installation_new|apply installation_same]; done).
  - rewrite lookup_update_where. destruct (s_installations s !! k); simpl; [case_match|]; by constructor.
  - match goal with E : List.find _ _ = Some _ |- _ => apply find_range in E as [E _]; rename E into Ei end.
    at_key k; [rewrite Ei|]; by constructor.
  - match goal with Ei : s_installations s !! _ = Some ?i |- _ =>
      change (gi_ID (i |> gi_set_Visibility _ |> gi_set_TeamID _ |> gi_set_UpdatedAt _)) with (gi_ID i);
      rewrite (Hkeyed _ _ Ei); at_key k; [rewrite Ei|by constructor] end.
    apply installation_shared. intros ->. by destruct (present (s_teams s !! TeamID)).
Qed.

(** ** Idempotency records are never changed *)

Lemma serve_idempotency s c r s' : serve s c r = Ok s' → s_idempotency s ⊆ s_idempotency s'.
Proof.
  intros Hs. serve_cases r Hs; field; rewrite ?present_false in *; try done.
  all: try (apply insert_subseteq; done).
Qed.

(** ** The calls that change several maps at once

    A deletion that is not a replay takes what hangs on the record with it. *)

Ltac one_call Hs := call_paths Hs; [by left|right]; field; bool_prop.

Lemma deleteTeam_cases s c actor teamID name key fp s' :
  serve s c (DeleteTeamR actor teamID name key fp) = Ok s' →
  s' = s ∨
  s_accessGrants s' = drop_where (λ _ grant, String.eqb (g_SubjectTeamID grant) teamID ||
      String.eqb (g_ScopeType grant) ScopeTeam && String.eqb (g_ScopeID grant) teamID) (s_accessGrants s) ∧
  s_memberships s' = delete teamID (s_memberships s) ∧ s_teams s' = delete teamID (s_teams s).
Proof. intros Hs. by one_call Hs. Qed.

Lemma deleteProject_cases s c actor projectID name key fp s' :
  serve s c (DeleteProjectR actor projectID name key fp) = Ok s' →
  s' = s ∨
  s_accessGrants s' = drop_where (λ _, scopedTo ScopeProject projectID) (s_accessGrants s) ∧
  s_serviceAccounts s' = drop_where (λ accountID _, accountOf s projectID accountID) (s_serviceAccounts s) ∧
  s_serviceAccountTokens s' =
    drop_where (λ _ token, accountOf s projectID (tk_ServiceAccountID token)) (s_serviceAccountTokens s) ∧
  s_projects s' = delete projectID (s_projects s).
Proof. intros Hs. by one_call Hs. Qed.

Lemma deleteEnvironment_cases s c actor environmentID name key fp s' :
  serve s c (DeleteEnvironmentR actor environmentID name key fp) = Ok s' →
  s' = s ∨
  s_accessGrants s' = drop_where (λ _, scopedTo ScopeEnvironment environmentID) (s_accessGrants s) ∧
  s_environmentAppPlacements s' = delete environmentID (s_environmentAppPlacements s) ∧
  s_deployments s' = drop_where (λ _, inEnvironment environmentID) (s_deployments s) ∧
  s_environments s' = delete environmentID (s_environments s).
Proof. intros Hs. by one_call Hs. Qed.

Lemma deleteApplication_cases s c actor applicationID name key fp s' :
  serve s c (DeleteApplicationR actor applicationID name key fp) = Ok s' →
  s' = s ∨
  s_accessGrants s' = drop_where (λ _, scopedTo ScopeApplication applicationID) (s_accessGrants s) ∧
  s_environmentAppPlacements s' = delete applicationID <$> s_environmentAppPlacements s ∧
  s_deployments s' = drop_where (λ _, ofApplication applicationID) (s_deployments s) ∧
  s_applications s' = delete applicationID (s_applications s).
Proof. intros Hs. by one_call Hs. Qed.

Lemma createTeam_cases s c actor key fp Name Slug s' :
  serve s c (CreateTeamR actor key fp Name Slug) = Ok s' →
  s' = s ∨
  s_teams s' = <[c_id c 0 := mkTeam (c_id c 0) Name Slug (c_now c)]> (s_teams s) ∧
  s_memberships s' =
    <[c_id c 0 := {[ actor := mkMember (c_id c 0) actor "owner" (c_now c) ]}]> (s_memberships s).
Proof. intros Hs. by one_call Hs. Qed.

Lemma createServiceAccount_cases s c actor key fp ProjectID Name Role s' :
  serve s c (CreateServiceAccountR actor key fp ProjectID Name Role) = Ok s' →
  s' = s ∨
  s_users s' = <[c_id c 0 := accountUser c Name]> (s_users s) ∧
  ∃ project, s_projects s !! ProjectID = Some project ∧
    s_serviceAccounts s' =
      <[c_id c 0 := mkAccount (c_id c 0) (p_ID project) Name Role actor (c_now c) None]> (s_serviceAccounts s).
Proof. intros Hs. one_call Hs. split; [done|]. by eexists. Qed.

Lemma createApplication_cases s c actor key fp ProjectID EnvironmentID Name Slug SourceKind s' :
  serve s c (CreateApplicationR actor key fp ProjectID EnvironmentID Name Slug SourceKind) = Ok s' →
  s' = s ∨
  s_applications s' = <[c_id c 0 := newApplication c ProjectID Name Slug SourceKind]> (s_applications s).
Proof. intros Hs. by one_call Hs. Qed.

End served.
