(* ===== verification/ControlInvariants.v ===== *)
(** The invariants of the control-plane store: every record is filed under its
    own identifier, which was issued ([identified]); every reference from one
    map into another is to something that exists ([tenancy]); slugs and
    namespaces are unique ([names]); every team has an owner ([owned]).

    For each map there are two lemmas: where what is in it after a call comes
    from ([_origin]) and what becomes of what was in it ([_fate]). *)

From S2P Require Import Prelude Regexp GoStrings Access ControlModel ControlAccess ControlIdentity ControlAutomation ControlResources ControlGrants ControlSteps ControlFacts.

Open Scope Z_scope.

(** An identifier in use that the call would have issued. *)
Ltac reissued Hn :=
  exfalso; apply Hn; simpl; rewrite ?elem_of_cons;
  first [left; congruence | right; left; congruence | right; right; left; congruence].

Section invariants.
Context `{MapOrder}.
Implicit Types (s : Store) (c : Call) (r : Request) (used : gset string).

(** * Every record is filed under its own identifier *)

Definition filed {A} (used : gset string) (ID : A → string) (m : gmap string A) : Prop :=
  ∀ k a, m !! k = Some a → ID a = k ∧ k ∈ used.

Record identified used s : Prop := {
  id_used : "" ∉ used;
  id_users : filed used u_ID (s_users s);
  id_teams : filed used tm_ID (s_teams s);
  id_projects : filed used p_ID (s_projects s);
  id_environments : filed used e_ID (s_environments s);
  id_applications : filed used ap_ID (s_applications s);
  id_deployments : filed used dp_ID (s_deployments s);
  id_grants : filed used g_ID (s_accessGrants s);
  id_accounts : filed used sa_ID (s_serviceAccounts s);
  id_tokens : filed used tk_ID (s_serviceAccountTokens s);
  id_installations : filed used gi_ID (s_installations s);
}.

Lemma filed_keyed {A} used ID (m : gmap string A) : filed used ID m → keyed ID m.
Proof. intros Hf k a Ha. by destruct (Hf _ _ Ha). Qed.

Lemma filed_mono {A} used used' ID (m : gmap string A) : used ⊆ used' → filed used ID m → filed used' ID m.
Proof. intros Hu Hf k a Ha. destruct (Hf _ _ Ha). set_solver. Qed.

Lemma filed_insert {A} used ID (m : gmap string A) k a :
  ID a = k → k ∈ used → filed used ID m → filed used ID (<[k := a]> m).
Proof. intros ?? Hf k' a' [[<- <-]|[_ Ha]]%lookup_insert_Some; [done|]. by apply Hf. Qed.

Lemma filed_delete {A} used ID (m : gmap string A) k : filed used ID m → filed used ID (delete k m).
Proof. intros Hf k' a' [_ Ha]%lookup_delete_Some. by apply Hf. Qed.

Lemma filed_drop {A} used ID (m : gmap string A) f : filed used ID m → filed used ID (drop_where f m).
Proof. intros Hf k a [Ha _]%lookup_drop_where. by apply Hf. Qed.

Lemma fresh_used used c r x : fresh used c r → x ∈ issues c r → x ≠ "" ∧ x ∉ used.
Proof. intros [_ Hf]. apply Hf. Qed.

(** A call issues no identifier in use. *)
Lemma used_not_issued used c r k : fresh used c r → k ∈ used → k ∉ issues c r.
Proof. intros Hf Hk Hi. by destruct (fresh_used _ _ _ _ Hf Hi). Qed.

Lemma issued_used used c r x : x ∈ issues c r → x ∈ used ∪ list_to_set (issues c r).
Proof. intros Hx. apply elem_of_union_r. by apply elem_of_list_to_set. Qed.

Ltac issued := apply issued_used; simpl; rewrite ?elem_of_cons; tauto.

(** A map whose entries stay, are issued now or go. *)
Lemma filed_change {A} used c r (ID : A → string) (m m' : gmap string A) :
  filed used ID m →
  (∀ k a, m' !! k = Some a → (∃ a0, m !! k = Some a0 ∧ ID a = ID a0) ∨ ID a = k ∧ k ∈ issues c r) →
  filed (used ∪ list_to_set (issues c r)) ID m'.
Proof.
  intros Hf Hc k a Ha. destruct (Hc _ _ Ha) as [(a0 & Ha0 & ->)|[? Hi]].
  - destruct (Hf _ _ Ha0). split; [done|]. by apply elem_of_union_l.
  - split; [done|]. by apply issued_used.
Qed.

#[local] Hint Resolve filed_insert filed_delete filed_drop : control.
#[local] Hint Extern 1 (_ ∈ _) => issued : control.

Lemma identified_step used s c r s' :
  fresh used c r → identified used s → serve s c r = Ok s' →
  identified (used ∪ list_to_set (issues c r)) s'.
Proof.
  intros Hfr [Hn H1 H2 H3 H4 H5 H6 H7 H8 H9 H10] Hs.
  pose proof (serve_accounts _ _ _ _ (filed_keyed _ _ _ H8) Hs) as Ha.
  pose proof (serve_tokens _ _ _ _ (filed_keyed _ _ _ H9) Hs) as Ht.
  pose proof (serve_installations _ _ _ _ (filed_keyed _ _ _ H10) Hs) as Hi.
  pose proof (serve_users _ _ _ _ Hs) as Hus.
  assert (∀ A ID (m : gmap string A), filed used ID m → filed (used ∪ list_to_set (issues c r)) ID m) as Hm.
  { intros A ID m. apply filed_mono. apply union_subseteq_l. }
  constructor.
  - intros [?|Hi0%elem_of_list_to_set]%elem_of_union; [done|]. by apply (fresh_used _ _ _ _ Hfr) in Hi0 as [? _].
  - apply (filed_change _ _ _ _ _ _ H1). intros k u Hk. specialize (Hus k). rewrite Hk in Hus.
    inversion Hus; subst; eauto; right; (split; [done|simpl; rewrite ?elem_of_cons; tauto]).
  - apply Hm in H2. destruct (serve_teams _ _ _ _ Hs); eauto with control.
  - apply Hm in H3. destruct (serve_projects _ _ _ _ Hs); eauto with control.
  - apply Hm in H4. destruct (serve_environments _ _ _ _ Hs); eauto with control.
  - apply Hm in H5. destruct (serve_applications _ _ _ _ Hs); eauto with control.
  - apply Hm in H6. destruct (serve_deployments _ _ _ _ Hs); eauto with control.
  - apply Hm in H7. destruct (serve_grants _ _ _ _ Hs); eauto with control.
  - apply (filed_change _ _ _ _ _ _ H8). intros k a Hk. specialize (Ha k). rewrite Hk in Ha.
    inversion Ha; subst; eauto; right; (split; [done|simpl; rewrite ?elem_of_cons; tauto]).
  - apply (filed_change _ _ _ _ _ _ H9). intros k a Hk. specialize (Ht k). rewrite Hk in Ht.
    inversion Ht; subst; eauto; right; (split; [done|simpl; rewrite ?elem_of_cons; tauto]).
  - apply (filed_change _ _ _ _ _ _ H10). intros k a Hk. specialize (Hi k). rewrite Hk in Hi.
    inversion Hi; subst; eauto.
    right; (split; [done|destruct r; simpl; rewrite ?elem_of_cons; tauto]).
Qed.

(** * References

    [exists_in m ID]: the identifier names a record of the map. *)

Definition exists_in {A} (m : gmap string A) (ID : string) : Prop := ∃ a, m !! ID = Some a.

Definition sameProject s (environmentID applicationID projectID : string) : Prop :=
  ∃ e a, s_environments s !! environmentID = Some e ∧ s_applications s !! applicationID = Some a ∧
    e_ProjectID e = projectID ∧ ap_ProjectID a = projectID.

(** What a grant's scope refers to.  A namespace is not an identifier, so
    nothing is said of it. *)
Definition scopeExists s (scopeType scopeID : string) : Prop :=
  (scopeType = ScopeTeam → exists_in (s_teams s) scopeID) ∧
  (scopeType = ScopeProject → exists_in (s_projects s) scopeID) ∧
  (scopeType = ScopeEnvironment → exists_in (s_environments s) scopeID) ∧
  (scopeType = ScopeApplication → exists_in (s_applications s) scopeID).

Record tenancy s : Prop := {
  ten_team : ∀ k p, s_projects s !! k = Some p → p_TeamID p ≠ "" → exists_in (s_teams s) (p_TeamID p);
  ten_environment : ∀ k e, s_environments s !! k = Some e → exists_in (s_projects s) (e_ProjectID e);
  ten_application : ∀ k a, s_applications s !! k = Some a → exists_in (s_projects s) (ap_ProjectID a);
  ten_account : ∀ k a, s_serviceAccounts s !! k = Some a →
    exists_in (s_projects s) (sa_ProjectID a) ∧
    ∃ u, s_users s !! k = Some u ∧ u_Issuer u = serviceAccountIssuer ∧ u_Subject u = k;
  ten_token : ∀ k t, s_serviceAccountTokens s !! k = Some t →
    exists_in (s_serviceAccounts s) (tk_ServiceAccountID t);
  ten_placement : ∀ environmentID m, s_environmentAppPlacements s !! environmentID = Some m →
    exists_in (s_environments s) environmentID ∧
    ∀ applicationID p, m !! applicationID = Some p →
      pl_EnvironmentID p = environmentID ∧ pl_ApplicationID p = applicationID ∧
      sameProject s environmentID applicationID (pl_ProjectID p);
  ten_deployment : ∀ k d, s_deployments s !! k = Some d →
    ∃ projectID, sameProject s (dp_EnvironmentID d) (dp_ApplicationID d) projectID;
  ten_installation : ∀ k i, s_installations s !! k = Some i → gi_Visibility i = "team" →
    exists_in (s_teams s) (gi_TeamID i);
  ten_members : ∀ k, exists_in (s_memberships s) k ↔ exists_in (s_teams s) k;
  ten_subject : ∀ k g, s_accessGrants s !! k = Some g → g_SubjectTeamID g ≠ "" →
    exists_in (s_teams s) (g_SubjectTeamID g);
  ten_scope : ∀ k g, s_accessGrants s !! k = Some g → scopeExists s (g_ScopeType g) (g_ScopeID g);
}.

(** ** What becomes of what exists *)

Lemma insert_fate {A} used c r (ID : A → string) (m : gmap string A) k a i b :
  fresh used c r → filed used ID m → m !! k = Some a → i ∈ issues c r → <[i := b]> m !! k = Some a.
Proof.
  intros Hfr Hf Hk Hi. rewrite lookup_insert_ne; [done|].
  intros ->. destruct (Hf _ _ Hk). by apply (used_not_issued _ _ _ _ Hfr) in Hi.
Qed.

Lemma projects_fate used s c r s' k p :
  fresh used c r → identified used s → serve s c r = Ok s' →
  s_projects s !! k = Some p →
  s_projects s' !! k = Some p ∨
  ∃ actor name key fp, r = DeleteProjectR actor k name key fp ∧ projectInUse s k = false.
Proof.
  intros Hfr Hid Hs Hk. pose proof (id_projects _ _ Hid) as Hf. destruct (serve_projects _ _ _ _ Hs); [by left|..].
  - left. eapply insert_fate; [done..|]. simpl. rewrite !elem_of_cons. tauto.
  - destruct (decide (projectID = k)) as [->|]; [right; eauto 8|].
    left. by rewrite lookup_delete_ne.
Qed.

Lemma teams_fate used s c r s' k t :
  fresh used c r → identified used s → serve s c r = Ok s' →
  s_teams s !! k = Some t →
  s_teams s' !! k = Some t ∨
  ∃ actor name key fp, r = DeleteTeamR actor k name key fp ∧
    any_where (λ _ project, String.eqb (p_TeamID project) k) (s_projects s) = false ∧
    any_where (λ _ installation, String.eqb (gi_TeamID installation) k) (s_installations s) = false.
Proof.
  intros Hfr Hid Hs Hk. pose proof (id_teams _ _ Hid) as Hf. destruct (serve_teams _ _ _ _ Hs); [by left|..].
  - left. eapply insert_fate; [done..|]. simpl. rewrite !elem_of_cons. tauto.
  - destruct (decide (teamID = k)) as [->|]; [right; eauto 8|].
    left. by rewrite lookup_delete_ne.
Qed.

Lemma environments_fate used s c r s' k e :
  fresh used c r → identified used s → serve s c r = Ok s' →
  s_environments s !! k = Some e →
  s_environments s' !! k = Some e ∨ ∃ actor name key fp, r = DeleteEnvironmentR actor k name key fp.
Proof.
  intros Hfr Hid Hs Hk. pose proof (id_environments _ _ Hid) as Hf. destruct (serve_environments _ _ _ _ Hs); [by left|..].
  - left. eapply insert_fate; [done..|]. simpl. rewrite !elem_of_cons. tauto.
  - destruct (decide (environmentID = k)) as [->|]; [right; eauto 8|].
    left. by rewrite lookup_delete_ne.
Qed.

Lemma applications_fate used s c r s' k a :
  fresh used c r → identified used s → serve s c r = Ok s' →
  s_applications s !! k = Some a →
  s_applications s' !! k = Some a ∨ ∃ actor name key fp, r = DeleteApplicationR actor k name key fp.
Proof.
  intros Hfr Hid Hs Hk. pose proof (id_applications _ _ Hid) as Hf. destruct (serve_applications _ _ _ _ Hs); [by left|..].
  - left. eapply insert_fate; [done..|]. simpl. rewrite !elem_of_cons. tauto.
  - destruct (decide (applicationID = k)) as [->|]; [right; eauto 8|].
    left. by rewrite lookup_delete_ne.
Qed.

Lemma accounts_fate used s c r s' k a :
  fresh used c r → identified used s → serve s c r = Ok s' →
  s_serviceAccounts s !! k = Some a →
  (∃ a', s_serviceAccounts s' !! k = Some a' ∧ sa_ProjectID a' = sa_ProjectID a) ∨
  ∃ actor projectID name key fp, r = DeleteProjectR actor projectID name key fp ∧
    accountOf s projectID k = true.
Proof.
  intros Hfr Hid Hs Hk. pose proof (serve_accounts _ _ _ _ (filed_keyed _ _ _ (id_accounts _ _ Hid)) Hs k) as Hc.
  rewrite Hk in Hc. inversion Hc; subst; eauto 10.
  destruct (id_accounts _ _ Hid _ _ Hk) as [_ Hu].
  apply (used_not_issued _ _ _ _ Hfr) in Hu. simpl in Hu. rewrite !elem_of_cons in Hu. tauto.
Qed.

Lemma projectInUse_false s k :
  projectInUse s k = false →
  (∀ i e, s_environments s !! i = Some e → e_ProjectID e ≠ k) ∧
  (∀ i a, s_applications s !! i = Some a → ap_ProjectID a ≠ k) ∧
  (∀ i a, s_serviceAccounts s !! i = Some a → sa_ProjectID a = k → is_Some (sa_DisabledAt a)).
Proof.
  unfold projectInUse. rewrite !orb_false_iff, !any_where_false.
  intros [[He Ha] Hacc]. split_and!.
  - intros i e Hi. by apply String.eqb_neq, (He i).
  - intros i a Hi. by apply String.eqb_neq, (Ha i).
  - intros i a Hi Hp. specialize (Hacc _ _ Hi). rewrite Hp, String.eqb_refl in Hacc. simpl in Hacc.
    apply negb_false_iff, present_true in Hacc as [x ->]. eauto.
Qed.

(** ** Where what exists comes from *)

Lemma authorize_exists s actor permission t :
  authorizeLocked s actor permission t = Ok tt → snd (resolveTargetLocked s t) = true.
Proof.
  unfold authorizeLocked. destruct (resolveTargetLocked s t) as [resolved ok]. by destruct ok.
Qed.

Lemma placementTarget_ok s project environmentID :
  placementTarget s project environmentID = Ok tt → environmentID ≠ "" →
  ∃ e, s_environments s !! environmentID = Some e ∧ e_ProjectID e = p_ID project.
Proof.
  unfold placementTarget. intros Hp Hne. rewrite (proj2 (String.eqb_neq _ _) Hne) in Hp.
  destruct (s_environments s !! environmentID) as [e|]; [|done].
  destruct (String.eqb_spec (e_ProjectID e) (p_ID project)); [|done]. eauto.
Qed.

Lemma no_empty_key {A} used (ID : A → string) (m : gmap string A) :
  "" ∉ used → filed used ID m → m !! "" = None.
Proof. intros Hn Hf. destruct (m !! "") eqn:E; [|done]. by destruct (Hf _ _ E). Qed.

Lemma projectAt_exists used s ID :
  identified used s → p_ID (projectAt s ID) ≠ "" → exists_in (s_projects s) ID.
Proof.
  unfold projectAt. intros Hid. destruct (s_projects s !! ID) as [p|] eqn:E; [by exists p|done].
Qed.

(** A grant's scope that lies in a project refers to something that exists. *)
Lemma scopeTarget_exists used s project scopeType scopeID t :
  identified used s → tenancy s → s_projects s !! p_ID project = Some project →
  scopeTargetForProjectLocked s project scopeType scopeID = (t, true) →
  scopeExists s scopeType scopeID.
Proof.
  intros Hid Ht Hp Hs.
  assert (p_ID project ≠ "") as Hne.
  { intros E. rewrite E, (no_empty_key _ _ _ (id_used _ _ Hid) (id_projects _ _ Hid)) in Hp. done. }
  assert (projectAt s "" = zeroProject) as Hz.
  { unfold projectAt. by rewrite (no_empty_key _ _ _ (id_used _ _ Hid) (id_projects _ _ Hid)). }
  revert Hs. unfold scopeTargetForProjectLocked, switch.
  repeat match goal with |- context [String.eqb scopeType ?x] => destruct (String.eqb_spec scopeType x) as [->|] end;
    intros Hs; try discriminate Hs; split_and!; intros Hsc; try discriminate Hsc.
  - destruct (String.eqb_spec (p_TeamID project) ""); [done|].
    destruct (String.eqb_spec scopeID (p_TeamID project)) as [->|]; [|done]. by eapply ten_team.
  - destruct (String.eqb_spec scopeID (p_ID project)) as [->|]; [|done]. by exists project.
  - injection Hs as _ Hin. rewrite orb_false_r in Hin. apply String.eqb_eq in Hin.
    cbn [resolveTargetLocked resolveResource target t_Type t_ID fst] in Hin. unfold environmentAt in Hin.
    destruct (s_environments s !! scopeID) as [e|] eqn:E; [by exists e|]. simpl in Hin.
    rewrite Hz in Hin. by rewrite <- Hin in Hne.
  - injection Hs as _ Hin. rewrite orb_false_r in Hin. apply String.eqb_eq in Hin.
    unfold resolveTargetLocked, resolveResource, applicationAt in Hin. simpl in Hin.
    destruct (s_applications s !! scopeID) as [a|] eqn:E; [by exists a|]. simpl in Hin.
    rewrite Hz in Hin. by rewrite <- Hin in Hne.
Qed.

(** ** The references after a call *)

(** A call with fresh identifiers, from a state the invariants hold in. *)
Record good_call used s c r s' : Prop := {
  gc_fresh : fresh used c r;
  gc_identified : identified used s;
  gc_tenancy : tenancy s;
  gc_serve : serve s c r = Ok s';
}.

Lemma team_stays used s c r s' k :
  good_call used s c r s' →
  exists_in (s_teams s) k →
  (∀ actor name key fp, r ≠ DeleteTeamR actor k name key fp) → exists_in (s_teams s') k.
Proof.
  intros [Hfr Hid Hten Hs] [t Ht] Hr. destruct (teams_fate _ _ _ _ _ _ _ Hfr Hid Hs Ht) as [?|(? & ? & ? & ? & -> & _)]; [by eexists|].
  by destruct (Hr _ _ _ _ eq_refl).
Qed.

Lemma project_stays used s c r s' k :
  good_call used s c r s' →
  exists_in (s_projects s) k →
  (∀ actor name key fp, r ≠ DeleteProjectR actor k name key fp) → exists_in (s_projects s') k.
Proof.
  intros [Hfr Hid Hten Hs] [p Hp] Hr. destruct (projects_fate _ _ _ _ _ _ _ Hfr Hid Hs Hp) as [?|(? & ? & ? & ? & -> & _)]; [by eexists|].
  by destruct (Hr _ _ _ _ eq_refl).
Qed.

Lemma ten_team_step used s c r s' k p :
  good_call used s c r s' →
  s_projects s' !! k = Some p → p_TeamID p ≠ "" → exists_in (s_teams s') (p_TeamID p).
Proof.
  intros [Hfr Hid Hten Hs] Hk Hne.
  assert (exists_in (s_teams s) (p_TeamID p) ∧
    (s_projects s !! k = Some p ∨ ∀ actor name key fp, r ≠ DeleteTeamR actor (p_TeamID p) name key fp))
    as [[t Ht] Hor].
  { destruct (serve_projects _ _ _ _ Hs) as [r0|actor key fp Name Slug TeamID Hauth Hslug|].
    - split; [by eapply ten_team|by left].
    - apply lookup_insert_Some in Hk as [[<- <-]|[_ Hk]]; [|by split; [eapply ten_team|left]].
      split; [|by right]. apply authorize_exists in Hauth. unfold projectCreationTarget in Hauth.
      simpl in Hne. rewrite (proj2 (String.eqb_neq _ _) Hne) in Hauth. simpl in Hauth.
      by apply present_true in Hauth.
    - apply lookup_delete_Some in Hk as [_ Hk]. split; [by eapply ten_team|by left]. }
  destruct (teams_fate _ _ _ _ _ _ _ Hfr Hid Hs Ht) as [?|(? & ? & ? & ? & -> & Hp & _)]; [by eexists|].
  exfalso. destruct Hor as [Hold|Hr]; [|by eapply Hr].
  rewrite any_where_false in Hp. specialize (Hp _ _ Hold). by rewrite String.eqb_refl in Hp.
Qed.

Lemma ten_environment_step used s c r s' k e :
  good_call used s c r s' →
  s_environments s' !! k = Some e → exists_in (s_projects s') (e_ProjectID e).
Proof.
  intros [Hfr Hid Hten Hs] Hk.
  assert (exists_in (s_projects s) (e_ProjectID e) ∧
    (s_environments s !! k = Some e ∨ ∀ actor name key fp, r ≠ DeleteProjectR actor (e_ProjectID e) name key fp))
    as [[p Hp] Hor].
  { destruct (serve_environments _ _ _ _ Hs) as [r0| |].
    - split; [by eapply ten_environment|by left].
    - apply lookup_insert_Some in Hk as [[<- <-]|[_ Hk]]; [|by split; [eapply ten_environment|left]].
      split; [by eexists|by right].
    - apply lookup_delete_Some in Hk as [_ Hk]. split; [by eapply ten_environment|by left]. }
  destruct (projects_fate _ _ _ _ _ _ _ Hfr Hid Hs Hp) as [?|(? & ? & ? & ? & -> & Hu)]; [by eexists|].
  exfalso. destruct Hor as [Hold|Hr]; [|by eapply Hr].
  by apply projectInUse_false in Hu as (Hu & _ & _); eapply Hu.
Qed.

Lemma ten_application_step used s c r s' k a :
  good_call used s c r s' →
  s_applications s' !! k = Some a → exists_in (s_projects s') (ap_ProjectID a).
Proof.
  intros [Hfr Hid Hten Hs] Hk.
  assert (exists_in (s_projects s) (ap_ProjectID a) ∧
    (s_applications s !! k = Some a ∨ ∀ actor name key fp, r ≠ DeleteProjectR actor (ap_ProjectID a) name key fp))
    as [[p Hp] Hor].
  { destruct (serve_applications _ _ _ _ Hs) as [r0| |].
    - split; [by eapply ten_application|by left].
    - apply lookup_insert_Some in Hk as [[<- <-]|[_ Hk]]; [|by split; [eapply ten_application|left]].
      split; [by eexists|by right].
    - apply lookup_delete_Some in Hk as [_ Hk]. split; [by eapply ten_application|by left]. }
  destruct (projects_fate _ _ _ _ _ _ _ Hfr Hid Hs Hp) as [?|(? & ? & ? & ? & -> & Hu)]; [by eexists|].
  exfalso. destruct Hor as [Hold|Hr]; [|by eapply Hr].
  by apply projectInUse_false in Hu as (_ & Hu & _); eapply Hu.
Qed.

(** A service account outlives its project never, its user always. *)
Lemma ten_account_step used s c r s' k a :
  good_call used s c r s' →
  s_serviceAccounts s' !! k = Some a →
  exists_in (s_projects s') (sa_ProjectID a) ∧
  ∃ u, s_users s' !! k = Some u ∧ u_Issuer u = serviceAccountIssuer ∧ u_Subject u = k.
Proof.
  intros [Hfr Hid Hten Hs] Hk.
  destruct (s_serviceAccounts s !! k) as [a0|] eqn:Hold.
  - destruct (ten_account _ Hten _ _ Hold) as [[p Hp] (u & Hu & Hi & Hsub)].
    pose proof (serve_accounts _ _ _ _ (filed_keyed _ _ _ (id_accounts _ _ Hid)) Hs k) as Hc.
    rewrite Hold, Hk in Hc.
    assert (sa_ProjectID a = sa_ProjectID a0) as Hpa.
    { inversion Hc; subst; [done| |done].
      destruct (id_accounts _ _ Hid _ _ Hold) as [_ Hu']. apply (used_not_issued _ _ _ _ Hfr) in Hu'.
      reissued Hu'. }
    split.
    + rewrite Hpa. destruct (projects_fate _ _ _ _ _ _ _ Hfr Hid Hs Hp) as [?|(actor & name & key & fp & -> & Hused)];
        [by eexists|].
      destruct (deleteProject_cases _ _ _ _ _ _ _ _ Hs) as [->|(_ & Hacc & _)]; [by eexists|].
      rewrite Hacc, lookup_drop_key in Hk. unfold accountOf in Hk. by rewrite Hold, String.eqb_refl in Hk.
    + pose proof (serve_users _ _ _ _ Hs k) as Huc. rewrite Hu in Huc.
      destruct (id_users _ _ Hid _ _ Hu) as [Hik Hused].
      pose proof (used_not_issued _ _ _ _ Hfr Hused) as Hni.
      inversion Huc; subst; try reissued Hni; eauto.
      * rewrite Hold in *. done.
      * destruct (deleteProject_cases _ _ _ _ _ _ _ _ Hs) as [->|(_ & Hacc & _)]; [congruence|].
        rewrite Hacc, lookup_drop_key in Hk. by destruct (accountOf _ _ _).
  - pose proof (serve_accounts _ _ _ _ (filed_keyed _ _ _ (id_accounts _ _ Hid)) Hs k) as Hc.
    rewrite Hold, Hk in Hc. inversion Hc; subst.
    destruct (createServiceAccount_cases _ _ _ _ _ _ _ _ _ Hs) as [->|(Hus & project' & Hp' & Hacc)]; [congruence|].
    rewrite Hacc, lookup_insert_eq in Hk. injection Hk as Hk. split; simpl.
    + rewrite <- Hk. destruct (id_projects _ _ Hid _ _ Hp') as [-> _].
      eapply project_stays; [by split|by eexists|by intros].
    + rewrite Hus, lookup_insert_eq. by eexists.
Qed.

Lemma ten_token_step used s c r s' k t :
  good_call used s c r s' →
  s_serviceAccountTokens s' !! k = Some t → exists_in (s_serviceAccounts s') (tk_ServiceAccountID t).
Proof.
  intros [Hfr Hid Hten Hs] Hk.
  assert (∃ a, s_serviceAccounts s !! tk_ServiceAccountID t = Some a) as [a Ha].
  { pose proof (serve_tokens _ _ _ _ (filed_keyed _ _ _ (id_tokens _ _ Hid)) Hs k) as Hc. rewrite Hk in Hc.
    inversion Hc; subst; try (by match goal with E : Some _ = _ !! k |- _ => apply (ten_token _ Hten k _ (eq_sym E)) end);
      [by eapply ten_token|].
    match goal with E : s_serviceAccounts s !! _ = Some _ |- _ => destruct (id_accounts _ _ Hid _ _ E) as [-> _] end.
    by eexists. }
  destruct (accounts_fate _ _ _ _ _ _ _ Hfr Hid Hs Ha) as [(a' & ? & _)|(? & p & ? & ? & ? & -> & Hof)];
    [by eexists|].
  destruct (deleteProject_cases _ _ _ _ _ _ _ _ Hs) as [->|(_ & _ & Htok & _)]; [by eexists|].
  rewrite Htok in Hk. apply lookup_drop_where in Hk as [_ Hk]. congruence.
Qed.

(** An environment and an application of one project stay that while neither
    is deleted. *)
Lemma sameProject_stays used s c r s' environmentID applicationID projectID :
  good_call used s c r s' →
  sameProject s environmentID applicationID projectID →
  (∀ actor name key fp, r ≠ DeleteEnvironmentR actor environmentID name key fp) →
  (∀ actor name key fp, r ≠ DeleteApplicationR actor applicationID name key fp) →
  sameProject s' environmentID applicationID projectID.
Proof.
  intros [Hfr Hid Hten Hs] (e & a & He & Ha & Hpe & Hpa) Hne Hna. exists e, a.
  destruct (environments_fate _ _ _ _ _ _ _ Hfr Hid Hs He) as [He'|(? & ? & ? & ? & ->)]; [|by destruct (Hne _ _ _ _ eq_refl)].
  destruct (applications_fate _ _ _ _ _ _ _ Hfr Hid Hs Ha) as [Ha'|(? & ? & ? & ? & ->)]; [|by destruct (Hna _ _ _ _ eq_refl)].
  done.
Qed.

(** The calls that change placements and deployments change more than them,
    unless they change nothing. *)
Definition linked s c r s' : Prop :=
  match r with
  | DeleteEnvironmentR _ environmentID _ _ _ =>
      s_environmentAppPlacements s' = delete environmentID (s_environmentAppPlacements s) ∧
      s_deployments s' = drop_where (λ _, inEnvironment environmentID) (s_deployments s)
  | DeleteApplicationR _ applicationID _ _ _ =>
      s_environmentAppPlacements s' = delete applicationID <$> s_environmentAppPlacements s ∧
      s_deployments s' = drop_where (λ _, ofApplication applicationID) (s_deployments s)
  | CreateApplicationR _ _ _ ProjectID _ Name Slug SourceKind =>
      s_applications s' = <[c_id c 0 := newApplication c ProjectID Name Slug SourceKind]> (s_applications s)
  | _ => True
  end.

Lemma serve_linked s c r s' : serve s c r = Ok s' → s' = s ∨ linked s c r s'.
Proof.
  intros Hs. destruct r; try by right.
  - destruct (deleteEnvironment_cases _ _ _ _ _ _ _ _ Hs) as [?|(_ & ? & ? & _)]; [by left|by right].
  - by apply createApplication_cases in Hs.
  - destruct (deleteApplication_cases _ _ _ _ _ _ _ _ Hs) as [?|(_ & ? & ? & _)]; [by left|by right].
Qed.

(** What a call that creates an application puts into an environment belongs
    to the environment's project. *)
Lemma sameProject_created used s c actor key fp ProjectID EnvironmentID Name Slug SourceKind s' project :
  good_call used s c (CreateApplicationR actor key fp ProjectID EnvironmentID Name Slug SourceKind) s' →
  s_applications s' = <[c_id c 0 := newApplication c ProjectID Name Slug SourceKind]> (s_applications s) →
  s_projects s !! ProjectID = Some project → EnvironmentID ≠ "" →
  placementTarget s project EnvironmentID = Ok tt →
  sameProject s' EnvironmentID (c_id c 0) ProjectID.
Proof.
  intros [Hfr Hid Hten Hs] Ha Hp Hne (e & He & Hpe)%placementTarget_ok; [|done].
  destruct (id_projects _ _ Hid _ _ Hp) as [Hpid _].
  destruct (environments_fate _ _ _ _ _ _ _ Hfr Hid Hs He) as [He'|(? & ? & ? & ? & ?)]; [|done].
  exists e, (newApplication c ProjectID Name Slug SourceKind).
  rewrite Ha, lookup_insert_eq, Hpe. done.
Qed.

Lemma ten_deployment_step used s c r s' k d :
  good_call used s c r s' →
  s_deployments s' !! k = Some d →
  ∃ projectID, sameProject s' (dp_EnvironmentID d) (dp_ApplicationID d) projectID.
Proof.
  intros Hg Hk. pose proof Hg as [Hfr Hid Hten Hs].
  assert (s_deployments s !! k = Some d →
    (∀ actor name key fp, r ≠ DeleteEnvironmentR actor (dp_EnvironmentID d) name key fp) →
    (∀ actor name key fp, r ≠ DeleteApplicationR actor (dp_ApplicationID d) name key fp) →
    ∃ projectID, sameProject s' (dp_EnvironmentID d) (dp_ApplicationID d) projectID) as Hstay.
  { intros Hd Hne Hna. destruct (ten_deployment _ Hten _ _ Hd) as [pid Hsame].
    exists pid. by eapply sameProject_stays. }
  destruct (serve_linked _ _ _ _ Hs) as [->|Hl]; [by eapply ten_deployment|].
  pose proof (serve_deployments _ _ _ _ Hs) as Hc. remember (s_deployments s') as ds eqn:Eds.
  destruct Hc; simpl in Hl.
  - apply Hstay; [done|..]; intros ???? ->; destruct Hl as [_ Hl]; rewrite Eds, Hl in Hk;
      apply lookup_drop_where in Hk as [_ Hk]; by apply String.eqb_neq in Hk.
  - apply lookup_insert_Some in Hk as [[<- <-]|[_ Hk]]; [|by apply Hstay].
    exists ProjectID. by eapply sameProject_created.
  - apply lookup_drop_where in Hk as [Hk Hd]. apply String.eqb_neq in Hd.
    apply Hstay; [done|congruence|done].
  - apply lookup_drop_where in Hk as [Hk Hd]. apply String.eqb_neq in Hd.
    apply Hstay; [done|done|congruence].
Qed.

Lemma ten_placement_step used s c r s' environmentID m :
  good_call used s c r s' →
  s_environmentAppPlacements s' !! environmentID = Some m →
  exists_in (s_environments s') environmentID ∧
  ∀ applicationID p, m !! applicationID = Some p →
    pl_EnvironmentID p = environmentID ∧ pl_ApplicationID p = applicationID ∧
    sameProject s' environmentID applicationID (pl_ProjectID p).
Proof.
  intros Hg Hk. pose proof Hg as [Hfr Hid Hten Hs].
  (* an old placement of an environment and an application that stay *)
  assert (∀ m0, s_environmentAppPlacements s !! environmentID = Some m0 →
    (∀ actor name key fp, r ≠ DeleteEnvironmentR actor environmentID name key fp) →
    exists_in (s_environments s') environmentID ∧
    ∀ applicationID p, m0 !! applicationID = Some p →
      (∀ actor name key fp, r ≠ DeleteApplicationR actor applicationID name key fp) →
      pl_EnvironmentID p = environmentID ∧ pl_ApplicationID p = applicationID ∧
      sameProject s' environmentID applicationID (pl_ProjectID p)) as Hstay.
  { intros m0 Hm0 Hne. destruct (ten_placement _ Hten _ _ Hm0) as [[e He] Hpl]. split.
    - destruct (environments_fate _ _ _ _ _ _ _ Hfr Hid Hs He) as [?|(? & ? & ? & ? & ->)]; [by eexists|].
      by destruct (Hne _ _ _ _ eq_refl).
    - intros applicationID p Hp Hna. destruct (Hpl _ _ Hp) as (? & ? & Hsame).
      split_and!; [done..|]. by eapply sameProject_stays. }
  destruct (serve_linked _ _ _ _ Hs) as [->|Hl]; [by eapply ten_placement|].
  pose proof (serve_placements _ _ _ _ Hs) as Hc. remember (s_environmentAppPlacements s') as ms eqn:Ems.
  destruct Hc as [r|actor key fp ProjectID EnvironmentID Name Slug SourceKind project Hp _ Hne Htarget
    |actor environmentID' name key fp environment He _|actor applicationID' name key fp application Ha _].
  - assert (∀ actor name key fp, r ≠ DeleteEnvironmentR actor environmentID name key fp) as Hne.
    { intros actor name key fp ->. destruct Hl as [Hpl _].
      by rewrite Ems, Hpl, lookup_delete_eq in Hk. }
    destruct (Hstay _ Hk Hne) as [? Hpl]. split; [done|]. intros applicationID p Hp. apply Hpl; [done|].
    intros actor name key fp ->. destruct Hl as [Hpl' _].
    rewrite Ems, Hpl', lookup_fmap in Hk.
    destruct (s_environmentAppPlacements s !! environmentID); [|done]. injection Hk as <-.
    by rewrite lookup_delete_eq in Hp.
  - pose proof (sameProject_created _ _ _ _ _ _ _ _ _ _ _ _ _ Hg Hl Hp Hne Htarget) as Hsame.
    apply lookup_insert_Some in Hk as [[<- <-]|[_ Hk]].
    + split; [destruct Hsame as (e & ? & ? & _); by exists e|]. intros applicationID p Hpl.
      apply lookup_insert_Some in Hpl as [[<- <-]|[_ Hpl]].
      * split_and!; [done..|]. simpl. by destruct (id_projects _ _ Hid _ _ Hp) as [-> _].
      * unfold placementsOf in Hpl.
        destruct (s_environmentAppPlacements s !! EnvironmentID) as [m0|] eqn:Hm0; [|done].
        by apply (Hstay m0); [|by intros| |by intros].
    + destruct (Hstay _ Hk) as [? Hpl]; [by intros|]. split; [done|]. intros. by apply Hpl; [|by intros].
  - apply lookup_delete_Some in Hk as [Hd Hk].
    destruct (Hstay _ Hk) as [? Hpl]; [congruence|]. split; [done|]. intros. by apply Hpl; [|by intros].
  - rewrite lookup_fmap in Hk. destruct (s_environmentAppPlacements s !! environmentID) as [m0|] eqn:Hm0; [|done].
    injection Hk as <-. destruct (Hstay _ eq_refl) as [? Hpl]; [by intros|]. split; [done|].
    intros applicationID p [Hd Hp]%lookup_delete_Some. apply Hpl; [done|congruence].
Qed.

Lemma ten_installation_step used s c r s' k i :
  good_call used s c r s' → filed used gi_ID (s_installations s) →
  s_installations s' !! k = Some i → gi_Visibility i = "team" → exists_in (s_teams s') (gi_TeamID i).
Proof.
  intros Hg Hf Hk Hv. pose proof Hg as [Hfr Hid Hten Hs].
  assert (∀ i0, s_installations s !! k = Some i0 → gi_Visibility i0 = "team" →
    exists_in (s_teams s') (gi_TeamID i0)) as Hstay.
  { intros i0 Hi0 Hv0. destruct (ten_installation _ Hten _ _ Hi0 Hv0) as [t Ht].
    destruct (teams_fate _ _ _ _ _ _ _ Hfr Hid Hs Ht) as [?|(? & ? & ? & ? & _ & _ & Hi)]; [by eexists|].
    rewrite any_where_false in Hi. specialize (Hi _ _ Hi0). by rewrite String.eqb_refl in Hi. }
  pose proof (serve_installations _ _ _ _ (filed_keyed _ _ _ Hf) Hs k) as Hc. rewrite Hk in Hc.
  inversion Hc; subst.
  - by apply Hstay.
  - congruence.
  - match goal with E : gi_TeamID i = gi_TeamID _ |- _ => rewrite E end. apply Hstay; congruence.
  - simpl in *. eapply team_stays; [done| |by intros]. apply present_true. auto.
Qed.

Lemma exists_insert {A} (m : gmap string A) k a i : exists_in (<[k := a]> m) i ↔ i = k ∨ exists_in m i.
Proof.
  unfold exists_in. destruct (decide (i = k)) as [->|Hne].
  - rewrite lookup_insert_eq. naive_solver.
  - rewrite lookup_insert_ne by done. naive_solver.
Qed.

Lemma exists_delete {A} (m : gmap string A) k i : exists_in (delete k m) i ↔ i ≠ k ∧ exists_in m i.
Proof.
  unfold exists_in. destruct (decide (i = k)) as [->|Hne].
  - rewrite lookup_delete_eq. naive_solver.
  - rewrite lookup_delete_ne by done. naive_solver.
Qed.

Lemma exists_fmap {A B} (f : A → B) (m : gmap string A) i : exists_in (f <$> m) i ↔ exists_in m i.
Proof. unfold exists_in. rewrite lookup_fmap. destruct (m !! i); naive_solver. Qed.

(** The team-member maps and the teams change together. *)
Lemma ten_members_step used s c r s' k :
  good_call used s c r s' → exists_in (s_memberships s') k ↔ exists_in (s_teams s') k.
Proof.
  intros [Hfr Hid Hten Hs]. pose proof (ten_members _ Hten) as Hm.
  assert (s' = s ∨ match r with
    | CreateTeamR actor _ _ Name Slug => s_teams s' = <[c_id c 0 := mkTeam (c_id c 0) Name Slug (c_now c)]> (s_teams s) ∧
        s_memberships s' = <[c_id c 0 := {[ actor := mkMember (c_id c 0) actor "owner" (c_now c) ]}]> (s_memberships s)
    | DeleteTeamR _ teamID _ _ _ =>
        s_teams s' = delete teamID (s_teams s) ∧ s_memberships s' = delete teamID (s_memberships s)
    | _ => True end) as [->|Hl]; [| done |].
  { destruct r; try by right.
    - by apply createTeam_cases in Hs.
    - destruct (deleteTeam_cases _ _ _ _ _ _ _ _ Hs) as [?|(_ & ? & ?)]; [by left|by right]. }
  pose proof (serve_memberships _ _ _ _ Hs) as Hms. remember (s_memberships s') as ms eqn:Ems.
  pose proof (serve_teams _ _ _ _ Hs) as Hts. remember (s_teams s') as ts eqn:Ets.
  destruct r; try (destruct Hl as [-> ->]; rewrite ?exists_insert, ?exists_delete, Hm; done);
    inversion Hts; inversion Hms; subst;
    rewrite ?exists_insert, ?exists_fmap, Hm; try done.
  all: split; [|by right]; intros [->|?]; [|done]; by apply present_true.
Qed.

(** Every grant is old or made by this call. *)
Lemma grants_origin s c r s' k g :
  serve s c r = Ok s' → s_accessGrants s' !! k = Some g →
  s_accessGrants s !! k = Some g ∨ (k ∈ issues c r ∧ g_ID g = k).
Proof.
  intros Hs Hk. destruct (serve_grants _ _ _ _ Hs); try (by left);
    try (by apply lookup_drop_where in Hk as [? _]; left).
  all: try (apply lookup_insert_Some in Hk as [[<- <-]|[_ Hk]]; [|by left]; right; split; [simpl; rewrite ?elem_of_cons; tauto|done]).
  apply lookup_delete_Some in Hk as [_ ?]. by left.
Qed.

(** A deletion leaves no grant on, or to, what it deletes. *)
Definition undeleted r (g : AccessGrant) : Prop :=
  match r with
  | DeleteTeamR _ teamID _ _ _ => g_SubjectTeamID g ≠ teamID ∧ (g_ScopeType g = ScopeTeam → g_ScopeID g ≠ teamID)
  | DeleteProjectR _ projectID _ _ _ => g_ScopeType g = ScopeProject → g_ScopeID g ≠ projectID
  | DeleteEnvironmentR _ environmentID _ _ _ => g_ScopeType g = ScopeEnvironment → g_ScopeID g ≠ environmentID
  | DeleteApplicationR _ applicationID _ _ _ => g_ScopeType g = ScopeApplication → g_ScopeID g ≠ applicationID
  | _ => True
  end.

Lemma scopedTo_false scopeType scopeID g :
  scopedTo scopeType scopeID g = false ↔ (g_ScopeType g = scopeType → g_ScopeID g ≠ scopeID).
Proof.
  unfold scopedTo. rewrite andb_false_iff, !String.eqb_neq.
  destruct (decide (g_ScopeType g = scopeType)); naive_solver.
Qed.

Lemma grants_undeleted s c r s' k g :
  serve s c r = Ok s' → s_accessGrants s' !! k = Some g → s' = s ∨ undeleted r g.
Proof.
  intros Hs Hk. destruct r; try by right.
  - destruct (deleteTeam_cases _ _ _ _ _ _ _ _ Hs) as [?|(Hg & _)]; [by left|right].
    rewrite Hg in Hk. apply lookup_drop_where in Hk as [_ Hk].
    apply orb_false_iff in Hk as [Ht%String.eqb_neq Hsc]. split; [done|exact (proj1 (scopedTo_false _ _ _) Hsc)].
  - destruct (deleteProject_cases _ _ _ _ _ _ _ _ Hs) as [?|(Hg & _)]; [by left|right].
    rewrite Hg in Hk. apply lookup_drop_where in Hk as [_ Hk]. exact (proj1 (scopedTo_false _ _ _) Hk).
  - destruct (deleteEnvironment_cases _ _ _ _ _ _ _ _ Hs) as [?|(Hg & _)]; [by left|right].
    rewrite Hg in Hk. apply lookup_drop_where in Hk as [_ Hk]. exact (proj1 (scopedTo_false _ _ _) Hk).
  - destruct (deleteApplication_cases _ _ _ _ _ _ _ _ Hs) as [?|(Hg & _)]; [by left|right].
    rewrite Hg in Hk. apply lookup_drop_where in Hk as [_ Hk]. exact (proj1 (scopedTo_false _ _ _) Hk).
Qed.

(** The scope and the subject of a new grant exist. *)
Lemma grants_new_refs used s c r s' k g :
  good_call used s c r s' → s_accessGrants s' !! k = Some g → s_accessGrants s !! k ≠ Some g →
  scopeExists s (g_ScopeType g) (g_ScopeID g) ∧
  (g_SubjectTeamID g ≠ "" → exists_in (s_teams s) (g_SubjectTeamID g)) ∧
  undeleted r g.
Proof.
  intros [Hfr Hid Hten Hs] Hk Hnew. destruct (serve_grants _ _ _ _ Hs); try done;
    try (by apply lookup_drop_where in Hk as [? _]); try (by apply lookup_delete_Some in Hk as [_ ?]).
  all: apply lookup_insert_Some in Hk as [[<- <-]|[_ Hk]]; [|done].
  - unfold scopeExists; split_and!; simpl; first [done|intros; done].
  - match goal with E : s_projects s !! _ = Some _ |- _ => rename E into Hp; destruct (id_projects _ _ Hid _ _ Hp) as [-> _] end.
    unfold scopeExists; split_and!; simpl; first [done|intros; done|intros _; by eexists].
  - match goal with E : s_projects s !! _ = Some _ |- _ => rename E into Hp; destruct (id_projects _ _ Hid _ _ Hp) as [Hpid _] end.
    split_and!; [|simpl|done].
    + eapply scopeTarget_exists; [done..| |done]. by rewrite Hpid.
    + intros Hne. match goal with E : wellFormedGrant _ = true |- _ => rename E into Hw end.
      match goal with E : (if _ then _ else _) = true |- _ => rename E into Hsub end.
      unfold wellFormedGrant in Hw. apply negb_true_iff in Hw. bool_prop.
      match goal with E : Bool.eqb _ _ = false |- _ => rename E into Hb end.
      rewrite (proj2 (String.eqb_neq _ _) Hne) in Hb.
      destruct (String.eqb (gr_SubjectUserID input) ""); [|done]. by apply present_true.
Qed.

Lemma ten_grants_step used s c r s' k g :
  good_call used s c r s' → s_accessGrants s' !! k = Some g →
  (g_SubjectTeamID g ≠ "" → exists_in (s_teams s') (g_SubjectTeamID g)) ∧
  scopeExists s' (g_ScopeType g) (g_ScopeID g).
Proof.
  intros Hg Hk. pose proof Hg as [Hfr Hid Hten Hs].
  destruct (grants_undeleted _ _ _ _ _ _ Hs Hk) as [->|Hun].
  { split; [by eapply ten_subject|by eapply ten_scope]. }
  assert (scopeExists s (g_ScopeType g) (g_ScopeID g) ∧
    (g_SubjectTeamID g ≠ "" → exists_in (s_teams s) (g_SubjectTeamID g))) as [(Ht & Hp & He & Ha) Hsub].
  { destruct (grants_origin _ _ _ _ _ _ Hs Hk) as [Hold|[Hi Hgk]].
    - split; [by eapply ten_scope|by eapply ten_subject].
    - destruct (grants_new_refs _ _ _ _ _ _ _ Hg Hk) as (? & ? & _); [|done].
      intros Hold. destruct (id_grants _ _ Hid _ _ Hold) as [_ Hu]. by apply (used_not_issued _ _ _ _ Hfr) in Hu. }
  split; [|split_and!].
  - intros Hne. eapply team_stays; [done|by apply Hsub|]. intros ???? ->. by destruct Hun.
  - intros Hsc. eapply team_stays; [done|by apply Ht|]. intros ???? ->. destruct Hun as [_ Hun]. by apply Hun.
  - intros Hsc. eapply project_stays; [done|by apply Hp|]. intros ???? ->. by apply Hun.
  - intros Hsc. destruct (He Hsc) as [e Hee].
    destruct (environments_fate _ _ _ _ _ _ _ Hfr Hid Hs Hee) as [?|(? & ? & ? & ? & ->)]; [by eexists|by destruct Hun].
  - intros Hsc. destruct (Ha Hsc) as [e Hee].
    destruct (applications_fate _ _ _ _ _ _ _ Hfr Hid Hs Hee) as [?|(? & ? & ? & ? & ->)]; [by eexists|by destruct Hun].
Qed.

Lemma tenancy_step used s c r s' : good_call used s c r s' → tenancy s'.
Proof.
  intros Hg. constructor; intros.
  - by eapply ten_team_step.
  - by eapply ten_environment_step.
  - by eapply ten_application_step.
  - by eapply ten_account_step.
  - by eapply ten_token_step.
  - by eapply ten_placement_step.
  - by eapply ten_deployment_step.
  - eapply ten_installation_step; [done|by destruct Hg as [_ [] _ _]|done..].
  - by eapply ten_members_step.
  - by eapply ten_grants_step.
  - by eapply ten_grants_step.
Qed.

(** * Unique names *)

Record names s : Prop := {
  nm_project : ∀ k1 k2 p1 p2, s_projects s !! k1 = Some p1 → s_projects s !! k2 = Some p2 →
    p_Slug p1 = p_Slug p2 → k1 = k2;
  nm_environment : ∀ k1 k2 e1 e2, s_environments s !! k1 = Some e1 → s_environments s !! k2 = Some e2 →
    e_Namespace e1 = e_Namespace e2 ∨ e_ProjectID e1 = e_ProjectID e2 ∧ e_Slug e1 = e_Slug e2 → k1 = k2;
  nm_application : ∀ k1 k2 a1 a2, s_applications s !! k1 = Some a1 → s_applications s !! k2 = Some a2 →
    ap_ProjectID a1 = ap_ProjectID a2 ∧ ap_Slug a1 = ap_Slug a2 → k1 = k2;
  nm_team : ∀ k1 k2 t1 t2, s_teams s !! k1 = Some t1 → s_teams s !! k2 = Some t2 →
    tm_Slug t1 = tm_Slug t2 → k1 = k2;
}.

(** A map in which no two entries clash keeps that when an entry that clashes
    with none is added. *)
Lemma clash_insert {A} (clash : A → A → Prop) (m : gmap string A) k a :
  (∀ x y, clash x y → clash y x) →
  (∀ k1 k2 x y, m !! k1 = Some x → m !! k2 = Some y → clash x y → k1 = k2) →
  (∀ k1 x, m !! k1 = Some x → ¬ clash x a) →
  ∀ k1 k2 x y, <[k := a]> m !! k1 = Some x → <[k := a]> m !! k2 = Some y → clash x y → k1 = k2.
Proof.
  intros Hsym Hm Hn k1 k2 x y [[<- <-]|[? Hx]]%lookup_insert_Some [[<- <-]|[? Hy]]%lookup_insert_Some Hc;
    [done|..].
  - destruct (Hn _ _ Hy). by apply Hsym.
  - by destruct (Hn _ _ Hx).
  - by eapply Hm.
Qed.

Lemma clash_delete {A} (clash : A → A → Prop) (m : gmap string A) k :
  (∀ k1 k2 x y, m !! k1 = Some x → m !! k2 = Some y → clash x y → k1 = k2) →
  ∀ k1 k2 x y, delete k m !! k1 = Some x → delete k m !! k2 = Some y → clash x y → k1 = k2.
Proof. intros Hm k1 k2 x y [_ Hx]%lookup_delete_Some [_ Hy]%lookup_delete_Some. by eapply Hm. Qed.

Lemma names_step s c r s' : names s → serve s c r = Ok s' → names s'.
Proof.
  intros [Hp He Ha Ht] Hs. constructor.
  - destruct (serve_projects _ _ _ _ Hs) as [|? ? ? ? ? ? _ Hslug|]; [done| |by apply (clash_delete (λ x y, p_Slug x = p_Slug y))].
    apply (clash_insert (λ x y, p_Slug x = p_Slug y)); [done|done|].
    rewrite any_where_false in Hslug. intros k1 x Hx. by apply String.eqb_neq, (Hslug k1).
  - set (clash := λ x y, e_Namespace x = e_Namespace y ∨ e_ProjectID x = e_ProjectID y ∧ e_Slug x = e_Slug y).
    destruct (serve_environments _ _ _ _ Hs) as [|? ? ? ? ? ? ? ? ? ? _ _ _ Hslug|]; [done| |by apply (clash_delete clash)].
    apply (clash_insert clash); [unfold clash; intuition congruence|done|].
    rewrite any_where_false in Hslug. intros k1 x Hx. specialize (Hslug _ _ Hx).
    apply orb_false_iff in Hslug as [Hn%String.eqb_neq Hsl]. intros [Hc|[Hc1 Hc2]]; [done|]. simpl in *.
    by rewrite Hc1, Hc2, !String.eqb_refl in Hsl.
  - set (clash := λ x y, ap_ProjectID x = ap_ProjectID y ∧ ap_Slug x = ap_Slug y).
    destruct (serve_applications _ _ _ _ Hs) as [|? ? ? ? ? ? ? ? ? _ _ Hslug|]; [done| |by apply (clash_delete clash)].
    apply (clash_insert clash); [unfold clash; intuition congruence|done|].
    rewrite any_where_false in Hslug. intros k1 x Hx. specialize (Hslug _ _ Hx). intros [Hc1 Hc2]. simpl in *.
    by rewrite Hc1, Hc2, !String.eqb_refl in Hslug.
  - destruct (serve_teams _ _ _ _ Hs) as [|? ? ? ? ? Hslug|]; [done| |by apply (clash_delete (λ x y, tm_Slug x = tm_Slug y))].
    apply (clash_insert (λ x y, tm_Slug x = tm_Slug y)); [done|done|].
    rewrite any_where_false in Hslug. intros k1 x Hx. by apply String.eqb_neq, (Hslug k1).
Qed.

(** * Every team has an owner *)

Definition has_owner (members : gmap string TeamMember) : Prop :=
  ∃ userID member, members !! userID = Some member ∧ me_Role member = "owner".

Definition owned s : Prop := ∀ teamID members, s_memberships s !! teamID = Some members → has_owner members.

(** A member that is not the last owner leaves an owner behind. *)
Lemma other_owner s teamID userID member :
  membersOf s teamID !! userID = Some member → me_Role member = "owner" →
  lastOwner s teamID member = false →
  ∃ other member', other ≠ userID ∧ membersOf s teamID !! other = Some member' ∧ me_Role member' = "owner".
Proof.
  intros Hm Ho. unfold lastOwner. rewrite Ho, String.eqb_refl. simpl. unfold ownerCountLocked.
  set (owner := λ kv : string * TeamMember, String.eqb (me_Role kv.2) "owner").
  set (l := List.filter owner (map_to_list (membersOf s teamID))). intros Hl%Nat.eqb_neq.
  assert ((userID, member) ∈ l) as Hin.
  { apply elem_of_list_filter. split; [by apply elem_of_map_to_list|]. unfold owner. simpl. by rewrite Ho. }
  assert (NoDup l.*1) as Hd by apply NoDup_filter_keys, NoDup_fst_map_to_list.
  assert (∃ kv, kv ∈ l ∧ kv.1 ≠ userID) as ([k m] & Hk & Hne).
  { destruct l as [|kv1 [|kv2 l']] eqn:El; [by apply elem_of_nil in Hin|done|].
    simpl in Hd. apply NoDup_cons in Hd as [Hd _].
    destruct (decide (kv1.1 = userID)) as [E1|]; [|exists kv1; split; [left|done]].
    exists kv2. split; [right; left|]. intros E2. apply Hd. rewrite E1, <- E2. left. }
  apply elem_of_list_filter in Hk as [Hk Ho']. apply elem_of_map_to_list in Hk.
  exists k, m. split_and!; [done|done|]. by apply String.eqb_eq.
Qed.

Lemma membersOf_Some s teamID members : s_memberships s !! teamID = Some members → membersOf s teamID = members.
Proof. unfold membersOf. by intros ->. Qed.

Lemma has_owner_insert members userID member :
  has_owner members → (∀ old, members !! userID = Some old → me_Role old = "owner" →
    me_Role member = "owner" ∨ ∃ other m', other ≠ userID ∧ members !! other = Some m' ∧ me_Role m' = "owner") →
  has_owner (<[userID := member]> members).
Proof.
  intros (u & m & Hm & Ho) Hold. destruct (decide (u = userID)) as [->|Hne].
  - destruct (Hold _ Hm Ho) as [?|(o & m' & Hne & Hm' & Ho')].
    + exists userID, member. by rewrite lookup_insert_eq.
    + exists o, m'. by rewrite lookup_insert_ne.
  - exists u, m. by rewrite lookup_insert_ne.
Qed.

Lemma has_owner_delete members userID :
  has_owner members → (∀ old, members !! userID = Some old → me_Role old = "owner" →
    ∃ other m', other ≠ userID ∧ members !! other = Some m' ∧ me_Role m' = "owner") →
  has_owner (delete userID members).
Proof.
  intros (u & m & Hm & Ho) Hold. destruct (decide (u = userID)) as [->|Hne].
  - destruct (Hold _ Hm Ho) as (o & m' & Hne & Hm' & Ho'). exists o, m'. by rewrite lookup_delete_ne.
  - exists u, m. by rewrite lookup_delete_ne.
Qed.

Lemma owned_step used s c r s' : good_call used s c r s' → owned s → owned s'.
Proof.
  intros [Hfr Hid Hten Hs] Hown teamID members.
  assert (∀ k, present (s_teams s !! k) = true → ∃ m, s_memberships s !! k = Some m ∧ has_owner m) as Hteam.
  { intros k Hk%present_true. apply (ten_members _ Hten) in Hk as [m Hm]. exists m. split; [done|]. by eapply Hown. }
  destruct (serve_memberships _ _ _ _ Hs) as [|actor key fp Name Slug|actor teamID' name key fp
    |actor teamID' key fp UserID Role Ht Hlast|actor teamID' userID member Ht Hm Hlast|actor userID email key fp Hlast].
  - apply Hown.
  - intros [[<- <-]|[_ Hm]]%lookup_insert_Some; [|by eapply Hown].
    eexists actor, _. by rewrite lookup_singleton_eq.
  - intros [_ Hm]%lookup_delete_Some. by eapply Hown.
  - intros [[<- <-]|[_ Hm]]%lookup_insert_Some; [|by eapply Hown].
    destruct (Hteam _ Ht) as (m & Hm & Ho). rewrite (membersOf_Some _ _ _ Hm) in *.
    apply has_owner_insert; [done|]. intros old Hold Hrole. simpl. rewrite Hold in Hlast. simpl.
    destruct (lastOwner s teamID' old) eqn:El; simpl in Hlast.
    + left. apply negb_false_iff, String.eqb_eq in Hlast. done.
    + right. rewrite <- (membersOf_Some _ _ _ Hm) in Hold |- *. by eapply other_owner.
  - intros [[<- <-]|[_ Hm']]%lookup_insert_Some; [|by eapply Hown].
    destruct (Hteam _ Ht) as (m & Hm' & Ho). rewrite (membersOf_Some _ _ _ Hm') in *.
    apply has_owner_delete; [done|]. intros old Hold Hrole. assert (old = member) as -> by congruence.
    rewrite <- (membersOf_Some _ _ _ Hm') in Hold |- *. by eapply other_owner.
  - rewrite lookup_fmap. destruct (s_memberships s !! teamID) as [m|] eqn:Hm; [|done]. intros [= <-].
    apply has_owner_delete; [by eapply Hown|]. intros old Hold Hrole.
    rewrite any_where_false in Hlast. specialize (Hlast _ _ Hm). rewrite Hold in Hlast.
    rewrite <- (membersOf_Some _ _ _ Hm) in Hold |- *. by eapply other_owner.
Qed.

(** * All of them, in every history *)

Record control_wf used s : Prop := {
  wf_identified : identified used s;
  wf_tenancy : tenancy s;
  wf_names : names s;
  wf_owned : owned s;
}.

Lemma control_wf_step used s c r s' :
  fresh used c r → control_wf used s → serve s c r = Ok s' →
  control_wf (used ∪ list_to_set (issues c r)) s'.
Proof.
  intros Hfr [Hid Hten Hn Ho] Hs. constructor.
  - by eapply identified_step.
  - by eapply tenancy_step.
  - by eapply names_step.
  - by eapply owned_step.
Qed.

Lemma control_wf_history used s used' s' : control_wf used s → history used s used' s' → control_wf used' s'.
Proof. intros Hwf Hh. induction Hh; [done|]. by eapply control_wf_step. Qed.

Lemma control_wf_New : control_wf ∅ New.
Proof.
  assert (∀ A (k : string) (a : A), (∅ : gmap string A) !! k ≠ Some a) as He.
  { intros A k a. by rewrite lookup_empty. }
  constructor; [| |constructor|]; try (by intros ? ? Hk; destruct (He _ _ _ Hk));
    try (by intros ? ? ? ? Hk; destruct (He _ _ _ Hk)).
  - constructor; [set_solver|..]; intros k a Hk; destruct (He _ _ _ Hk).
  - constructor; try (by intros ? ? Hk; destruct (He _ _ _ Hk)).
    intros k. unfold exists_in. simpl. split; intros [? Hk]; destruct (He _ _ _ Hk).
Qed.

(** Identifiers stay used. *)
Lemma history_used used s used' s' : history used s used' s' → used ⊆ used'.
Proof. induction 1; [done|]. set_solver. Qed.

End invariants.
