(* ===== verification/ControlSafety.v ===== *)
(** What the control-plane store guarantees over every history of calls: its
    invariants, and who its administrator is.  The bindings of an actor are
    described here for the files that follow. *)

From S2P Require Import Prelude Regexp GoStrings Digest Access ControlModel ControlAccess ControlIdentity ControlAutomation ControlResources ControlGrants ControlSteps ControlFacts ControlInvariants.

Open Scope Z_scope.

#[local] Opaque sha256 hex_encode hash_key.

Section safety.
Context `{MapOrder}.
Implicit Types (s : Store) (c : Call) (r : Request) (used : gset string).

(** * Bindings *)

Lemma elem_of_bindings s actor b :
  b ∈ bindingsLocked s actor ↔
  (∃ k g, s_accessGrants s !! k = Some g ∧ subjectOf s actor g = true ∧ b = grantBinding g) ∨
  (∃ teamID members member, s_memberships s !! teamID = Some members ∧ members !! actor = Some member ∧
     b = memberBinding teamID member).
Proof.
  unfold bindingsLocked. rewrite elem_of_app, list_elem_of_fmap, list_elem_of_omap. split.
  - intros [([k g] & -> & [Hin Hs]%elem_of_list_filter)|([k m] & Hin & Hb)].
    + left. apply elem_of_range in Hin. by exists k, g.
    + right. apply elem_of_range in Hin. simpl in Hb. apply fmap_Some in Hb as (mem & Hm & ->). by exists k, m, mem.
  - intros [(k & g & Hk & Hs & ->)|(k & m & mem & Hk & Hm & ->)].
    + left. exists (k, g). split; [done|]. apply elem_of_list_filter. split; [by apply elem_of_range|done].
    + right. exists (k, m). split; [by apply elem_of_range|]. simpl. by rewrite Hm.
Qed.

Lemma HasPermission_true bindings t permission :
  HasPermission bindings t permission = true ↔
  ∃ b, b ∈ bindings ∧ BindingMatches b t = true ∧ bindingHas b permission = true.
Proof.
  unfold HasPermission. rewrite existsb_elem_of. unfold bindingHas.
  split; intros (b & Hb & Hm); exists b; (split; [done|]).
  - by destruct (BindingMatches b t).
  - destruct Hm as [-> Hm]. done.
Qed.

(** The platform is matched by platform-wide bindings alone. *)
Lemma platform_matches b : BindingMatches b platformTarget = true → b_ScopeType b = ScopePlatform.
Proof.
  unfold BindingMatches, switch, platformTarget. cbn [t_TeamID t_ProjectID t_EnvironmentID t_Namespace t_ApplicationID].
  destruct (String.eqb_spec (b_ScopeType b) ScopePlatform) as [?|_]; [done|].
  repeat case_match; try done; rewrite andb_true_iff, negb_true_iff; intros [? ?]; congruence.
Qed.

(** * The administrator *)

Definition rootGrant (root : string) (g : AccessGrant) : Prop :=
  g_SubjectUserID g = root ∧ g_SubjectTeamID g = "" ∧ g_Role g = RolePlatformAdmin ∧
  g_ScopeType g = ScopePlatform ∧ g_ScopeID g = "platform" ∧ g_Source g = "bootstrap".

Definition alive (root : string) s : Prop := ∃ u, s_users s !! root = Some u ∧ u_Issuer u ≠ deletedIssuer.

(** [root] is a user that holds the one platform-wide grant. *)
Record administered (root : string) s : Prop := {
  adm_user : is_Some (s_users s !! root);
  adm_person : s_serviceAccounts s !! root = None;
  adm_grant : ∃ k g, s_accessGrants s !! k = Some g ∧ rootGrant root g;
  adm_only : ∀ k g, s_accessGrants s !! k = Some g → g_ScopeType g = ScopePlatform → rootGrant root g;
}.

Lemma isAdmin_root root s actor : administered root s → isAdminLocked s actor = true → actor = root.
Proof.
  intros [_ _ _ Honly]. unfold isAdminLocked.
  destruct (s_users s !! actor) as [u'|]; [|done]. intros [_ Hp]%andb_true_iff.
  apply HasPermission_true in Hp as (b & Hb & Hm & _). apply platform_matches in Hm.
  apply elem_of_bindings in Hb as [(k' & g' & Hk' & Hs & ->)|(t & m & mem & _ & _ & ->)]; [|done].
  destruct (Honly _ _ Hk' Hm) as (Hsub & Hteam & _). unfold subjectOf in Hs.
  rewrite Hsub, Hteam in Hs. simpl in Hs. rewrite orb_false_r in Hs. by apply String.eqb_eq in Hs.
Qed.

Lemma root_isAdmin root s : administered root s → alive root s → isAdminLocked s root = true.
Proof.
  intros [_ _ (k & g & Hk & Hsub & Hteam & Hrole & Hsc & Hid & _) _] (u & Hu & Hi). unfold isAdminLocked.
  rewrite Hu, (proj2 (String.eqb_neq _ _) Hi). simpl.
  apply HasPermission_true. exists (grantBinding g). split_and!.
  - apply elem_of_bindings. left. exists k, g. split_and!; [done| |done].
    unfold subjectOf. by rewrite Hsub, String.eqb_refl.
  - unfold BindingMatches, grantBinding. simpl. by rewrite Hsc, Hid.
  - unfold bindingHas, grantBinding. simpl. by rewrite Hrole.
Qed.

Definition unadministered s : Prop := ∀ k g, s_accessGrants s !! k = Some g → g_ScopeType g ≠ ScopePlatform.

(** Only the bootstrap makes a platform-wide grant. *)
Lemma platform_grant_origin s c r s' k g :
  serve s c r = Ok s' → s_accessGrants s' !! k = Some g → g_ScopeType g = ScopePlatform →
  s_accessGrants s !! k = Some g ∨
  ∃ u ph h ex, r = BootstrapAdminR u ph h ex ∧ s_users s = ∅ ∧ k = c_id c 0 ∧ g = bootstrapGrant c u.
Proof.
  intros Hs Hk Hp. destruct (serve_grants _ _ _ _ Hs); try (by left);
    try (by apply lookup_drop_where in Hk as [? _]; left); try (by apply lookup_delete_Some in Hk as [_ ?]; left);
    (apply lookup_insert_Some in Hk as [[<- <-]|[_ Hk]]; [|by left]).
  - right. eexists _, _, _, _. split_and!; [done| |done..].
    match goal with E : BootstrapRequired s = true |- _ => by apply bool_decide_eq_true in E end.
  - done.
  - match goal with E : wellFormedGrant _ = true |- _ => rename E into Hw end.
    unfold wellFormedGrant in Hw. apply negb_true_iff in Hw. bool_prop. done.
Qed.

Lemma administered_step used s c r s' root :
  fresh used c r → control_wf used s → administered root s → serve s c r = Ok s' → administered root s'.
Proof.
  intros Hfr [Hid Hten _ _] Hadm Hs. pose proof Hadm as [[u Hu] Hacc (k & g & Hk & Hg) Honly].
  destruct (id_users _ _ Hid _ _ Hu) as [Huid Hused].
  assert (s_users s ≠ ∅) as Hne by (intros E; by rewrite E, lookup_empty in Hu).
  pose proof (used_not_issued _ _ _ _ Hfr Hused) as Hni. constructor.
  - pose proof (serve_users _ _ _ _ Hs root) as Hc. rewrite Hu in Hc.
    inversion Hc; subst; try reissued Hni; eauto.
    + unfold accountOf in *. by rewrite Hacc in *.
  - pose proof (serve_accounts _ _ _ _ (filed_keyed _ _ _ (id_accounts _ _ Hid)) Hs root) as Hc.
    rewrite Hacc in Hc. inversion Hc; subst; try done. reissued Hni.
  - exists k, g. split; [|done]. destruct (id_grants _ _ Hid _ _ Hk) as [_ Hgu].
    pose proof (used_not_issued _ _ _ _ Hfr Hgu) as Hgn.
    destruct Hg as (Hsub & Hteam & Hrole & Hsc & Hscid & Hsrc).
    destruct (serve_grants _ _ _ _ Hs); try done; try (rewrite lookup_insert_ne; [done|]; intros <-; reissued Hgn).
    + apply lookup_drop_where. split; [done|]. rewrite Hsub. apply String.eqb_neq.
      match goal with E : isAdminLocked s _ = true |- _ => apply (isAdmin_root _ _ _ Hadm) in E end.
      congruence.
    + apply lookup_drop_where. split; [done|]. rewrite Hteam, Hsc.
      destruct teamID; [exfalso|done].
      match goal with E : s_teams s !! _ = Some _ |- _ => destruct (id_teams _ _ Hid _ _ E) as [_ ?] end.
      by apply (id_used _ _ Hid).
    + apply lookup_drop_where. split; [done|]. unfold scopedTo. by rewrite Hsc.
    + apply lookup_drop_where. split; [done|]. unfold scopedTo. by rewrite Hsc.
    + apply lookup_drop_where. split; [done|]. unfold scopedTo. by rewrite Hsc.
    + rewrite lookup_delete_ne; [done|]. intros ->. congruence.
  - intros k' g' Hk' Hp. destruct (platform_grant_origin _ _ _ _ _ _ Hs Hk' Hp) as [?|(? & ? & ? & ? & _ & ? & _)];
      [by eapply Honly|done].
Qed.

Lemma alive_step used s c r s' root :
  fresh used c r → control_wf used s → administered root s → alive root s → serve s c r = Ok s' → alive root s'.
Proof.
  intros Hfr [Hid Hten _ _] Hadm (u & Hu & Hi) Hs.
  destruct (id_users _ _ Hid _ _ Hu) as [Huid Hused]. pose proof (used_not_issued _ _ _ _ Hfr Hused) as Hni.
  pose proof (serve_users _ _ _ _ Hs root) as Hc. rewrite Hu in Hc. unfold alive.
  inversion Hc; subst; try reissued Hni; eauto.
  - match goal with E : isAdminLocked s _ = true |- _ => by apply (isAdmin_root _ _ _ Hadm) in E end.
  - unfold accountOf in *. by rewrite (adm_person _ _ Hadm) in *.
Qed.

Lemma unadministered_step s c r s' :
  unadministered s → serve s c r = Ok s' →
  unadministered s' ∨ ∃ u ph h ex, r = BootstrapAdminR u ph h ex.
Proof.
  intros Hun Hs. destruct r; try (by right; eauto).
  all: left; intros k g Hk Hp; destruct (platform_grant_origin _ _ _ _ _ _ Hs Hk Hp) as [?|(? & ? & ? & ? & ? & _)];
    [by eapply Hun|done].
Qed.

Lemma bootstrap_administers used s c u ph h ex s' :
  fresh used c (BootstrapAdminR u ph h ex) → control_wf used s → unadministered s →
  serve s c (BootstrapAdminR u ph h ex) = Ok s' →
  administered (u_ID u) s' ∧ s_users s' !! u_ID u = Some u.
Proof.
  intros Hfr [Hid _ _ _] Hun Hs.
  assert (s_users s' !! u_ID u = Some u ∧ s_accessGrants s' = <[c_id c 0 := bootstrapGrant c u]> (s_accessGrants s) ∧
    s_serviceAccounts s' = s_serviceAccounts s) as (Hu & Hg & Ha).
  { call_paths Hs. field. by rewrite lookup_insert_eq. }
  destruct (fresh_used _ _ _ (u_ID u) Hfr) as [_ Hn]; [simpl; left|]. split; [|done]. constructor.
  - by exists u.
  - rewrite Ha. destruct (s_serviceAccounts s !! u_ID u) eqn:E; [|done].
    by destruct (id_accounts _ _ Hid _ _ E).
  - exists (c_id c 0), (bootstrapGrant c u). rewrite Hg, lookup_insert_eq. done.
  - rewrite Hg. intros k g [[<- <-]|[_ Hk]]%lookup_insert_Some Hp; [done|]. by destruct (Hun _ _ Hk).
Qed.

Lemma administered_history used s used' s' root :
  control_wf used s → administered root s → alive root s → history used s used' s' →
  administered root s' ∧ alive root s'.
Proof.
  intros Hwf Hadm Hal Hh. induction Hh as [|used' s' c r s'' Hh [IHadm IHal] Hfr Hs]; [done|].
  pose proof (control_wf_history _ _ _ _ Hwf Hh). split; [by eapply administered_step|by eapply alive_step].
Qed.

Lemma history_administered used s :
  history ∅ New used s → unadministered s ∨ ∃ root, administered root s.
Proof.
  intros Hh. induction Hh as [|used s c r s' Hh IH Hfr Hs].
  - left. intros k g Hk. cbn [s_accessGrants New] in Hk. by rewrite lookup_empty in Hk.
  - pose proof (control_wf_history _ _ _ _ control_wf_New Hh) as Hwf.
    destruct IH as [Hun|(root & Hadm)]; [|right; exists root; by eapply administered_step].
    destruct (unadministered_step _ _ _ _ Hun Hs) as [?|(u & ph & h & ex & ->)]; [by left|].
    right. exists (u_ID u). by eapply bootstrap_administers.
Qed.

(** * The properties *)


(** C24. Whatever is called after the first administrator was bootstrapped, that
    user and nobody else is the platform's administrator: no invitation, team,
    grant or service account makes another, and no deletion or revocation
    takes it away. *)
Theorem bootstrap_admin_only used0 s0 c u ph h ex s1 used s :
  history ∅ New used0 s0 → fresh used0 c (BootstrapAdminR u ph h ex) → u_Issuer u ≠ deletedIssuer →
  serve s0 c (BootstrapAdminR u ph h ex) = Ok s1 →
  history (used0 ∪ list_to_set (issues c (BootstrapAdminR u ph h ex))) s1 used s →
  ∀ actor, isAdminLocked s actor = true ↔ actor = u_ID u.
Proof.
  intros Hh0 Hfr Hi Hs Hh.
  pose proof (control_wf_history _ _ _ _ control_wf_New Hh0) as Hwf.
  assert (unadministered s0) as Hun.
  { destruct (history_administered _ _ Hh0) as [?|(root & [[u0 Hu0] _ _ _])]; [done|].
    call_paths Hs.
    match goal with E : BootstrapRequired s0 = true |- _ => apply bool_decide_eq_true in E; rewrite E in Hu0 end.
    by rewrite lookup_empty in Hu0. }
  destruct (bootstrap_administers _ _ _ _ _ _ _ _ Hfr Hwf Hun Hs) as [Hadm Hu].
  eapply administered_history in Hh as [Hadm' Hal]; [|by eapply control_wf_step|done|by exists u].
  intros actor. split; [by apply isAdmin_root|]. intros ->. by apply root_isAdmin.
Qed.

End safety.
