(* ===== verification/ControlTenancy.v ===== *)
(** Authorization in the control-plane store: what a caller learns about what
    it may not see, that a project is out of reach of actors without a grant on
    it, and what the deletion of an environment leaves behind. *)

From S2P Require Import Prelude Regexp GoStrings Digest Access ControlModel ControlAccess ControlIdentity ControlAutomation ControlResources ControlGrants ControlSteps ControlFacts ControlInvariants ControlSafety.

Open Scope Z_scope.

#[local] Opaque sha256 hex_encode hash_key.

Section tenancy.
Context `{MapOrder}.
Implicit Types (s : Store) (c : Call) (r : Request) (used : gset string).

(** * Roles *)

Definition roles_valid s : Prop := ∀ k g, s_accessGrants s !! k = Some g → Access.ValidRole (g_Role g) = true.

Lemma roles_valid_step s c r s' : roles_valid s → serve s c r = Ok s' → roles_valid s'.
Proof.
  intros Hv Hs k g Hk. destruct (serve_grants _ _ _ _ Hs); try (by eapply Hv);
    try (apply lookup_drop_where in Hk as [? _]; by eapply Hv);
    try (apply lookup_delete_Some in Hk as [_ ?]; by eapply Hv);
    (apply lookup_insert_Some in Hk as [[<- <-]|[_ Hk]]; [|by eapply Hv]).
  - done.
  - match goal with E : ValidRole Role = true |- _ => apply str_in_spec in E; rename E into Hr end.
    rewrite !elem_of_cons in Hr. by destruct Hr as [->|[->|[->|Hr%elem_of_nil]]].
  - match goal with E : wellFormedGrant _ = true |- _ => rename E into Hw end.
    unfold wellFormedGrant in Hw. apply negb_true_iff in Hw. by bool_prop.
Qed.

Lemma roles_valid_history used s : history ∅ New used s → roles_valid s.
Proof.
  intros Hh. induction Hh; [|by eapply roles_valid_step].
  intros k g Hk. cbn [s_accessGrants New] in Hk. by rewrite lookup_empty in Hk.
Qed.

Lemma valid_role_reads role : Access.ValidRole role = true → PermissionResourcesRead ∈ rolePermissionsOf role.
Proof.
  unfold Access.ValidRole, rolePermissionsOf. destruct (roleRank !! role) as [z|] eqn:E; [|done]. intros _.
  unfold roleRank in E. map_literal E; vm_compute; left.
Qed.

(** Whoever may do anything to a target may read it. *)
Lemma binding_reads s actor b permission :
  roles_valid s → b ∈ bindingsLocked s actor → bindingHas b permission = true →
  bindingHas b PermissionResourcesRead = true.
Proof.
  intros Hv Hb _. unfold bindingHas. apply orb_true_iff. left. apply existsb_elem_of.
  exists PermissionResourcesRead. split; [|done]. apply valid_role_reads.
  apply elem_of_bindings in Hb as [(k & g & Hk & _ & ->)|(k & m & mem & _ & _ & ->)]; simpl.
  - by eapply Hv.
  - by destruct (String.eqb (me_Role mem) "owner").
Qed.

(** * The contract of authorization

    [entitled]: some binding of the actor covers the target and has the
    permission.  [visible]: the platform always is; anything the actor may
    read is; and a project is through a binding on something inside it. *)

Definition entitled s (actor : string) (permission : Permission) (t : AccessTarget) : Prop :=
  ∃ resolved b, resolveTargetLocked s t = (resolved, true) ∧ b ∈ bindingsLocked s actor ∧
    BindingMatches b resolved = true ∧ bindingHas b permission = true.

Definition visible s (actor : string) (t : AccessTarget) : Prop :=
  entitled s actor PermissionResourcesRead t ∨
  ∃ resolved, resolveTargetLocked s t = (resolved, true) ∧
    (t_Type resolved = "platform" ∨
     t_Type resolved = "project" ∧ canAccessProjectLocked s actor (projectAt s (t_ProjectID resolved)) = true).

Lemma entitled_spec s actor permission t resolved :
  resolveTargetLocked s t = (resolved, true) →
  entitled s actor permission t ↔ HasPermission (bindingsLocked s actor) resolved permission = true.
Proof.
  intros Hr. unfold entitled. rewrite HasPermission_true, Hr. split.
  - intros (? & b & [= <-] & ? & ? & ?). by exists b.
  - intros (b & ? & ? & ?). by exists resolved, b.
Qed.

Lemma authorizeLocked_spec s actor permission t :
  roles_valid s →
  (authorizeLocked s actor permission t = Ok tt ↔ entitled s actor permission t) ∧
  (authorizeLocked s actor permission t = Err ErrForbidden ↔
     visible s actor t ∧ ¬ entitled s actor permission t) ∧
  (authorizeLocked s actor permission t = Err ErrNotFound ↔ ¬ visible s actor t).
Proof.
  intros Hv. destruct (resolveTargetLocked s t) as [resolved [|]] eqn:Hr.
  - assert (entitled s actor permission t → visible s actor t) as Hreads.
    { intros (x & b & Hx & Hb & Hm & Hp). left. exists x, b. split_and!; [done..|]. by eapply binding_reads. }
    assert (visible s actor t ↔
      (String.eqb (t_Type resolved) "platform" ||
       String.eqb (t_Type resolved) "project" &&
         canAccessProjectLocked s actor (projectAt s (t_ProjectID resolved)) ||
       HasPermission (bindingsLocked s actor) resolved PermissionResourcesRead) = true) as Hvis.
    { unfold visible. rewrite (entitled_spec _ _ _ _ _ Hr), Hr, !orb_true_iff, andb_true_iff, !String.eqb_eq.
      naive_solver. }
    pose proof (entitled_spec s actor permission _ _ Hr) as He. unfold authorizeLocked. rewrite Hr. cbn [negb].
    destruct (HasPermission (bindingsLocked s actor) resolved permission).
    { assert (entitled s actor permission t) by by apply He. specialize (Hreads ltac:(done)). naive_solver. }
    assert (¬ entitled s actor permission t) by (intros ?%He; done).
    destruct (_ || _ || _); split_and!; split; try done; try tauto.
  - assert (∀ p, ¬ entitled s actor p t) as Hne by (intros p (? & ? & Hx & _); congruence).
    assert (¬ visible s actor t) as Hnv.
    { intros [?|(? & Hx & _)]; [by eapply Hne|congruence]. }
    unfold authorizeLocked. rewrite Hr. cbn [negb]. specialize (Hne permission). split_and!; split; try done; tauto.
Qed.

(** C4. Authorization keeps its contract in every history of the store: a
    permission is granted exactly to those a binding of theirs gives it on the
    target; what an actor can see but not do so is forbidden; and whatever is
    outside its visible scope is answered as if it did not exist. *)
Theorem authorize_contract used s actor permission t :
  history ∅ New used s →
  (authorizeLocked s actor permission t = Ok tt ↔ entitled s actor permission t) ∧
  (authorizeLocked s actor permission t = Err ErrForbidden ↔
     visible s actor t ∧ ¬ entitled s actor permission t) ∧
  (authorizeLocked s actor permission t = Err ErrNotFound ↔ ¬ visible s actor t).
Proof. intros Hh. by eapply authorizeLocked_spec, roles_valid_history. Qed.

(** * Isolation of a project *)

(** An actor that may neither write a project's resources nor manage its
    grants. *)
Definition stranger s (actor : string) (project : Project) : Prop :=
  HasPermission (bindingsLocked s actor) (projectTarget project) PermissionResourcesWrite = false ∧
  HasPermission (bindingsLocked s actor) (projectTarget project) PermissionGrantsManage = false.

Lemma authorize_project s actor permission projectID project :
  s_projects s !! projectID = Some project →
  authorizeLocked s actor permission (target "project" projectID) = Ok tt →
  HasPermission (bindingsLocked s actor) (projectTarget project) permission = true.
Proof.
  intros Hp. unfold authorizeLocked.
  assert (resolveTargetLocked s (target "project" projectID) = (projectTarget project, true)) as ->.
  { unfold resolveTargetLocked, resolveResource, projectAt. simpl. by rewrite Hp. }
  cbn [negb]. destruct (HasPermission _ _ permission); [done|]. by destruct (_ || _ || _).
Qed.

Section isolation.
Context used s c r s' project (Hg : good_call used s c r s')
  (Hp : s_projects s !! p_ID project = Some project)
  (Hstranger : ∀ actor, actorOf r = Some actor → stranger s actor project).

Lemma stranger_refused actor permission :
  actorOf r = Some actor →
  permission = PermissionResourcesWrite ∨ permission = PermissionGrantsManage →
  authorizeLocked s actor permission (target "project" (p_ID project)) ≠ Ok tt.
Proof using Hp Hstranger.
  intros Ha Hperm Hok. apply (authorize_project _ _ _ _ _ Hp) in Hok.
  destruct (Hstranger _ Ha) as [H1 H2]. destruct Hperm as [->| ->]; congruence.
Qed.

(** What the call may do under another project's authority is not done to
    this one. *)
Lemma other_project actor projectID permission :
  actorOf r = Some actor →
  permission = PermissionResourcesWrite ∨ permission = PermissionGrantsManage →
  authorizeLocked s actor permission (target "project" projectID) = Ok tt → projectID ≠ p_ID project.
Proof using Hp Hstranger. intros Ha Hperm Hok ->. by eapply stranger_refused. Qed.

Lemma isolated_project : s_projects s' !! p_ID project = Some project.
Proof using All.
  pose proof Hg as [Hfr Hid Hten Hs]. pose proof other_project as Hother.
  revert Hother. generalize dependent r. intros r0 Hg0 Hst Hfr Hs Hother.
  destruct (serve_projects _ _ _ _ Hs); [done|..].
  - eapply insert_fate; [done|by eapply id_projects|done|]. simpl. left.
  - rewrite lookup_delete_ne; [done|]. eapply Hother; [done| |done]. by right.
Qed.

Lemma isolated_environment k e : e_ProjectID e = p_ID project →
  s_environments s' !! k = Some e ↔ s_environments s !! k = Some e.
Proof using All.
  intros He. pose proof Hg as [Hfr Hid Hten Hs]. pose proof other_project as Hother.
  revert Hother. generalize dependent r. intros r0 Hg0 Hst Hfr Hs Hother.
  destruct (serve_environments _ _ _ _ Hs) as [|? ? ? ? ? ? ? project' ? ? Hp' Hauth|? ? ? ? ? environment Hk Hauth];
    [done|..].
  - destruct (id_projects _ _ Hid _ _ Hp') as [Hpid _].
    apply Hother in Hauth; [|done|by left]. split; intros Hk.
    + apply lookup_insert_Some in Hk as [[<- <-]|[_ Hk]]; [|done]. simpl in He. congruence.
    + eapply insert_fate; [done|by eapply id_environments|done|]. simpl. left.
  - apply Hother in Hauth; [|done|by left]. rewrite lookup_delete_Some. split; [tauto|].
    intros Hke. split; [|done]. intros <-. congruence.
Qed.

Lemma isolated_application k a : ap_ProjectID a = p_ID project →
  s_applications s' !! k = Some a ↔ s_applications s !! k = Some a.
Proof using All.
  intros He. pose proof Hg as [Hfr Hid Hten Hs]. pose proof other_project as Hother.
  revert Hother. generalize dependent r. intros r0 Hg0 Hst Hfr Hs Hother.
  destruct (serve_applications _ _ _ _ Hs) as [|? ? ? ? ? ? ? ? project' Hp' Hauth|? ? ? ? ? application Hk Hauth];
    [done|..].
  - destruct (id_projects _ _ Hid _ _ Hp') as [Hpid _].
    apply Hother in Hauth; [|done|by left]. split; intros Hk.
    + apply lookup_insert_Some in Hk as [[<- <-]|[_ Hk]]; [|done]. simpl in He. congruence.
    + eapply insert_fate; [done|by eapply id_applications|done|]. simpl. left.
  - apply Hother in Hauth; [|done|by left]. rewrite lookup_delete_Some. split; [tauto|].
    intros Hke. split; [|done]. intros <-. congruence.
Qed.

Lemma isolated_deployment k d : (∃ e, s_environments s !! dp_EnvironmentID d = Some e ∧ e_ProjectID e = p_ID project) →
  s_deployments s' !! k = Some d ↔ s_deployments s !! k = Some d.
Proof using All.
  intros (e & He & Hep). pose proof Hg as [Hfr Hid Hten Hs]. pose proof other_project as Hother.
  revert Hother. generalize dependent r. intros r0 Hg0 Hst Hfr Hs Hother.
  destruct (serve_deployments _ _ _ _ Hs) as [|? ? ? ? ? ? ? ? project' Hp' Hauth Hne Htarget
    |? ? ? ? ? environment Hk Hauth _|? ? ? ? ? application Hk Hauth _]; [done|..].
  - destruct (id_projects _ _ Hid _ _ Hp') as [Hpid _]. apply Hother in Hauth; [|done|by left].
    split; intros Hk.
    + apply lookup_insert_Some in Hk as [[<- <-]|[_ Hk]]; [|done]. simpl in He.
      apply placementTarget_ok in Htarget as (e' & He' & Hpe); [congruence|done].
    + eapply insert_fate; [done|by eapply id_deployments|done|]. simpl. right. left.
  - apply Hother in Hauth; [|done|by left]. rewrite lookup_drop_where. split; [tauto|].
    intros Hd. split; [done|]. apply String.eqb_neq. intros <-. congruence.
  - apply Hother in Hauth; [|done|by left]. rewrite lookup_drop_where. split; [tauto|].
    intros Hd. split; [done|]. apply String.eqb_neq. intros <-.
    destruct (ten_deployment _ Hten _ _ Hd) as (pid & e' & a & He' & Ha & Hpe & Hpa). congruence.
Qed.

End isolation.


End tenancy.

(** * Namespaces *)

#[local] Opaque sha256 hex_encode hash_key.

Lemma destination_not_empty project slug : fst (DeriveEnvironmentDestination project slug) ≠ "".
Proof.
  unfold DeriveEnvironmentDestination. cbv zeta. cbn [fst]. destruct (63 <? _).
  - destruct (trim_right_dash _); by rewrite ?str_app_cons.
  - by rewrite str_app_cons.
Qed.

Section namespaces.
Context `{MapOrder}.
Implicit Types (s : Store) (c : Call) (r : Request) (used : gset string).

(** Every environment is where its project and slug say. *)
Definition derived s : Prop :=
  ∀ k e, s_environments s !! k = Some e →
    ∃ p, s_projects s !! e_ProjectID e = Some p ∧
      e_Namespace e = fst (DeriveEnvironmentDestination p (e_Slug e)).

Lemma project_unchanged used s c r s' k p p' :
  fresh used c r → identified used s → serve s c r = Ok s' →
  s_projects s !! k = Some p → s_projects s' !! k = Some p' → p' = p.
Proof.
  intros Hfr Hid Hs Hp Hp'. destruct (serve_projects _ _ _ _ Hs) as [|? ? ? ? ? ? _ _|].
  - congruence.
  - apply lookup_insert_Some in Hp' as [[<- _]|[_ ?]]; [|congruence].
    destruct (id_projects _ _ Hid _ _ Hp) as [_ Hu]. apply (used_not_issued _ _ _ _ Hfr) in Hu.
    destruct Hu. simpl. left.
  - apply lookup_delete_Some in Hp' as [_ ?]. congruence.
Qed.

Lemma derived_step used s c r s' :
  fresh used c r → control_wf used s → derived s → serve s c r = Ok s' → derived s'.
Proof.
  intros Hfr Hwf Hd Hs k e Hk. pose proof (control_wf_step _ _ _ _ _ Hfr Hwf Hs) as Hwf'.
  destruct (ten_environment _ (wf_tenancy _ _ Hwf') _ _ Hk) as [p' Hp'].
  assert (∃ p, s_projects s !! e_ProjectID e = Some p ∧
    e_Namespace e = fst (DeriveEnvironmentDestination p (e_Slug e))) as (p & Hp & Hn).
  { destruct (serve_environments _ _ _ _ Hs) as [|? ? ? ? ? ? ? project ? ? Hp _ Hder|].
    - by eapply Hd.
    - apply lookup_insert_Some in Hk as [[<- <-]|[_ Hk]]; [|by eapply Hd].
      exists project. cbn [e_ProjectID e_Namespace e_Slug]. by rewrite Hder.
    - apply lookup_delete_Some in Hk as [_ Hk]. by eapply Hd. }
  exists p'. split; [done|]. by rewrite Hn, (project_unchanged _ _ _ _ _ _ _ _ Hfr (wf_identified _ _ Hwf) Hs Hp Hp').
Qed.

Lemma derived_history used s : history ∅ New used s → derived s.
Proof.
  intros Hh. induction Hh as [|used s c r s' Hh IH Hfr Hs].
  - intros k e Hk. cbn [s_environments New] in Hk. by rewrite lookup_empty in Hk.
  - eapply derived_step; [done| |done..]. by eapply control_wf_history; [apply control_wf_New|].
Qed.

Lemma namespace_matches s e p :
  s_environments s !! e_ID e = Some e → s_projects s !! e_ProjectID e = Some p → p_ID p ≠ "" →
  resolveTargetLocked s (target "environment" (e_ID e)) =
    (environmentTarget "environment" (e_ID e) e p "", true).
Proof.
  intros He Hp Hne. unfold resolveTargetLocked, resolveResource, environmentAt, projectAt. simpl.
  rewrite He. simpl. rewrite Hp. simpl. by rewrite (proj2 (String.eqb_neq _ _) Hne).
Qed.

(** A grant on a namespace gives its holder the permissions of its role on the
    environment the namespace belongs to. *)
Lemma namespace_grant_reaches s e p grantID g permission :
  roles_valid s →
  s_environments s !! e_ID e = Some e → s_projects s !! e_ProjectID e = Some p → p_ID p ≠ "" →
  e_Namespace e = fst (DeriveEnvironmentDestination p (e_Slug e)) →
  s_accessGrants s !! grantID = Some g → g_ScopeType g = ScopeNamespace →
  permission ∈ rolePermissionsOf (g_Role g) → g_SubjectUserID g ≠ "" → g_ScopeID g = e_Namespace e →
  authorizeLocked s (g_SubjectUserID g) permission (target "environment" (e_ID e)) = Ok tt.
Proof.
  intros Hroles He Hp Hne Hn Hg Hsc Hperm Hsub Hsid. apply authorizeLocked_spec; [done|].
  exists (environmentTarget "environment" (e_ID e) e p ""), (grantBinding g). split_and!.
  - by apply namespace_matches.
  - apply elem_of_bindings. left. exists grantID, g. split_and!; [done| |done].
    unfold subjectOf. by rewrite String.eqb_refl.
  - unfold BindingMatches, grantBinding, environmentTarget. simpl. rewrite Hsc, Hsid. simpl.
    rewrite (proj2 (String.eqb_neq _ _)) by (rewrite Hn; apply destination_not_empty).
    by apply String.eqb_eq.
  - unfold bindingHas. apply orb_true_iff. left. apply existsb_elem_of. exists permission.
    split; [done|apply String.eqb_refl].
Qed.


End namespaces.
