(* ===== verification/ControlSessions.v ===== *)
(** Who is signed in: what a deletion of a user, a revocation of a token and a
    change of grants do to the sessions and tokens there are, and to those
    there will be. *)

From S2P Require Import Prelude Regexp GoStrings Digest Access ControlModel ControlAccess ControlIdentity ControlAutomation ControlResources ControlGrants ControlSteps ControlFacts ControlInvariants ControlSafety.

Open Scope Z_scope.

#[local] Opaque sha256 hex_encode hash_key.

Section sessions.
Context `{MapOrder}.
Implicit Types (s : Store) (c : Call) (r : Request) (used : gset string).

(** * Deleted users *)

Definition deleted s (userID : string) : Prop :=
  ∃ u, s_users s !! userID = Some u ∧ u_Issuer u = deletedIssuer.

Lemma deleted_not_account used s userID :
  control_wf used s → deleted s userID → s_serviceAccounts s !! userID = None.
Proof.
  intros Hwf (u & Hu & Hi). destruct (s_serviceAccounts s !! userID) eqn:E; [|done].
  destruct (ten_account _ (wf_tenancy _ _ Hwf) _ _ E) as [_ (u' & Hu' & Hi' & _)].
  rewrite Hu in Hu'. injection Hu' as <-. by rewrite Hi in Hi'.
Qed.

Lemma deleted_step used s c r s' userID :
  fresh used c r → control_wf used s → deleted s userID → serve s c r = Ok s' → deleted s' userID.
Proof.
  intros Hfr Hwf Hd Hs. pose proof (deleted_not_account _ _ _ Hwf Hd) as Hacc.
  destruct Hd as (u & Hu & Hi).
  destruct (id_users _ _ (wf_identified _ _ Hwf) _ _ Hu) as [_ Hused].
  pose proof (used_not_issued _ _ _ _ Hfr Hused) as Hni.
  pose proof (serve_users _ _ _ _ Hs userID) as Hc. rewrite Hu in Hc. unfold deleted.
  inversion Hc; subst; try reissued Hni; eauto.
  unfold accountOf in *. by rewrite Hacc in *.
Qed.

Lemma deleted_history used s used' s' userID :
  control_wf used s → deleted s userID → history used s used' s' → deleted s' userID.
Proof.
  intros Hwf Hd Hh. induction Hh as [|used' s' c r s'' Hh IH Hfr Hs]; [done|].
  eapply deleted_step; [done|by eapply control_wf_history|done..].
Qed.

(** A deletion that reports success for a user that exists leaves it deleted. *)
Lemma DeleteUser_deleted s c actor userID email key fp s' :
  DeleteUser s c actor userID email key fp = Ok (s', false) → is_Some (s_users s !! userID) → deleted s' userID.
Proof.
  intros Hs [u Hu]. unfold DeleteUser in Hs. split_ok Hs; bool_prop; simplify_eq.
  - by exists u.
  - eexists. split; [apply lookup_insert_eq|done].
Qed.

Lemma UserBySession_ok s hash now u :
  UserBySession s hash now = Ok u →
  ∃ x, s_sessions s !! hash_key hash = Some x ∧ now < se_expires x ∧
    s_users s !! se_userID x = Some u ∧ u_Issuer u ≠ deletedIssuer ∧ u_GrantRevision u = se_revision x.
Proof.
  unfold UserBySession. intros Hs. split_ok Hs. bool_prop. eexists. split_and!; try done; by bool_prop.
Qed.

(** A deleted user is locked out for good: from a deletion that succeeds on,
    whatever is called, no session and no credential leads to the user, no
    login opens a session for it, no service account's token stands for it,
    and it is not an administrator. *)
Theorem deleted_user_locked_out used s c actor userID email key fp s1 used' s' :
  history ∅ New used s → fresh used c (DeleteUserR actor userID email key fp) →
  is_Some (s_users s !! userID) → DeleteUser s c actor userID email key fp = Ok (s1, false) →
  history (used ∪ list_to_set (issues c (DeleteUserR actor userID email key fp))) s1 used' s' →
  (∀ hash now u, UserBySession s' hash now = Ok u → u_ID u ≠ userID) ∧
  (∀ address u hash, LocalCredential s' address = Ok (u, hash) → u_ID u ≠ userID) ∧
  (∀ c' expected upgraded hash expires,
     CreateLoginSession s' c' userID expected upgraded hash expires = Err ErrNotFound) ∧
  (∀ hash now s'' principal, ServiceAccountByToken s' hash now = Ok (s'', principal) →
     u_ID (pr_User principal) ≠ userID) ∧
  isAdminLocked s' userID = false.
Proof.
  intros Hh Hfr Hex Hdel Hh1.
  pose proof (control_wf_history _ _ _ _ control_wf_New Hh) as Hwf.
  assert (serve s c (DeleteUserR actor userID email key fp) = Ok s1) as Hs by (simpl; by rewrite Hdel).
  pose proof (control_wf_step _ _ _ _ _ Hfr Hwf Hs) as Hwf1.
  pose proof (control_wf_history _ _ _ _ Hwf1 Hh1) as [Hid _ _ _].
  pose proof (deleted_history _ _ _ _ _ Hwf1 (DeleteUser_deleted _ _ _ _ _ _ _ _ Hdel Hex) Hh1) as (u & Hu & Hi).
  assert (∀ k v, s_users s' !! k = Some v → u_Issuer v ≠ deletedIssuer → u_ID v ≠ userID) as Hlive.
  { intros k v Hv Hvi Hvid. destruct (id_users _ _ Hid _ _ Hv) as [Hk _]. congruence. }
  split_and!.
  - intros hash now v (x & _ & _ & Hv & Hvi & _)%UserBySession_ok. by eapply Hlive.
  - intros address v hash Hl. unfold LocalCredential in Hl. split_ok Hl. bool_prop. by eapply Hlive.
  - intros. unfold CreateLoginSession. by rewrite Hu, Hi.
  - intros hash now s'' pr Hl. unfold ServiceAccountByToken in Hl. split_ok Hl; bool_prop; simpl;
      (eapply Hlive; [done|]); congruence || (intros Hd; rewrite Hd in *; done).
  - unfold isAdminLocked. by rewrite Hu, Hi.
Qed.

(** * Revoked tokens *)

(** A token that no longer authenticates: it is gone, it is revoked, or its
    account is disabled. *)
Definition dead s (tokenID : string) : Prop :=
  ∀ t, s_serviceAccountTokens s !! tokenID = Some t →
    is_Some (tk_RevokedAt t) ∨
    ∀ a, s_serviceAccounts s !! tk_ServiceAccountID t = Some a → is_Some (sa_DisabledAt a).

Lemma disabled_step used s c r s' accountID a' :
  fresh used c r → identified used s → serve s c r = Ok s' →
  exists_in (s_serviceAccounts s) accountID →
  (∀ a, s_serviceAccounts s !! accountID = Some a → is_Some (sa_DisabledAt a)) →
  s_serviceAccounts s' !! accountID = Some a' → is_Some (sa_DisabledAt a').
Proof.
  intros Hfr Hid Hs [a Ha] Hd Ha'.
  destruct (id_accounts _ _ Hid _ _ Ha) as [_ Hused]. pose proof (used_not_issued _ _ _ _ Hfr Hused) as Hni.
  pose proof (serve_accounts _ _ _ _ (filed_keyed _ _ _ (id_accounts _ _ Hid)) Hs accountID) as Hc.
  rewrite Ha, Ha' in Hc. inversion Hc; subst; try reissued Hni; [by eapply Hd|done].
Qed.

Lemma dead_step used s c r s' tokenID :
  fresh used c r → control_wf used s → tokenID ∈ used → dead s tokenID → serve s c r = Ok s' → dead s' tokenID.
Proof.
  intros Hfr Hwf Hused Hd Hs t' Ht'.
  pose proof (wf_identified _ _ Hwf) as Hid. pose proof (used_not_issued _ _ _ _ Hfr Hused) as Hni.
  pose proof (serve_tokens _ _ _ _ (filed_keyed _ _ _ (id_tokens _ _ Hid)) Hs tokenID) as Hc.
  rewrite Ht' in Hc.
  assert (∀ t, s_serviceAccountTokens s !! tokenID = Some t →
    tk_ServiceAccountID t' = tk_ServiceAccountID t → tk_RevokedAt t' = tk_RevokedAt t →
    is_Some (tk_RevokedAt t') ∨
    ∀ a, s_serviceAccounts s' !! tk_ServiceAccountID t' = Some a → is_Some (sa_DisabledAt a)) as Hsame.
  { intros t Ht Hsa Hrv. destruct (Hd _ Ht) as [?|Hdis]; [left; congruence|right]. rewrite Hsa. intros a.
    eapply disabled_step; [done..| |done]. by eapply ten_token; [apply Hwf|]. }
  inversion Hc; subst; try reissued Hni; eauto.
Qed.

Lemma dead_history used s used' s' tokenID :
  control_wf used s → tokenID ∈ used → dead s tokenID → history used s used' s' → dead s' tokenID.
Proof.
  intros Hwf Hused Hd Hh. induction Hh as [|used' s' c r s'' Hh IH Hfr Hs]; [done|].
  eapply dead_step; [done|by eapply control_wf_history| |done..]. by eapply history_used.
Qed.

(** A bearer is known by a live token of an enabled account. *)
Lemma ServiceAccountByToken_live used s hash now s' principal :
  control_wf used s → ServiceAccountByToken s hash now = Ok (s', principal) →
  ∃ t a, s_serviceAccountTokens s !! pr_TokenID principal = Some t ∧ tk_RevokedAt t = None ∧ now < tk_ExpiresAt t ∧
    s_serviceAccounts s !! tk_ServiceAccountID t = Some a ∧ sa_DisabledAt a = None ∧
    pr_ServiceAccountID principal = tk_ServiceAccountID t ∧ pr_Scopes principal = tk_Scopes t ∧
    u_ID (pr_User principal) = tk_ServiceAccountID t.
Proof.
  intros [Hid _ _ _] Hs. unfold ServiceAccountByToken in Hs. split_ok Hs; bool_prop; rewrite ?present_false in *; simpl.
  all: match goal with
    | Ht : s_serviceAccountTokens _ !! _ = Some ?t, Ha : s_serviceAccounts _ !! _ = Some ?a,
      Hu : s_users _ !! _ = Some ?u |- _ =>
        destruct (id_tokens _ _ Hid _ _ Ht) as [Htk _], (id_accounts _ _ Hid _ _ Ha) as [Hak _],
          (id_users _ _ Hid _ _ Hu) as [Huk _]; exists t, a
    end; split_and!; congruence || done.
Qed.

(** Revocation is final: once a token is revoked or its service account
    disabled, no call ever makes the token authenticate a bearer again - not
    even the deletion of the project and the creation of new accounts and
    tokens in another. *)
Theorem revoked_token_final used s tokenID t used' s' :
  history ∅ New used s → s_serviceAccountTokens s !! tokenID = Some t →
  is_Some (tk_RevokedAt t) ∨
    (∃ a, s_serviceAccounts s !! tk_ServiceAccountID t = Some a ∧ is_Some (sa_DisabledAt a)) →
  history used s used' s' →
  ∀ hash now s'' principal, ServiceAccountByToken s' hash now = Ok (s'', principal) →
    pr_TokenID principal ≠ tokenID.
Proof.
  intros Hh Ht Hrev Hh' hash now s'' principal Hs Heq.
  pose proof (control_wf_history _ _ _ _ control_wf_New Hh) as Hwf.
  pose proof (control_wf_history _ _ _ _ Hwf Hh') as Hwf'.
  destruct (id_tokens _ _ (wf_identified _ _ Hwf) _ _ Ht) as [_ Hused].
  assert (dead s tokenID) as Hd.
  { intros t0 Ht0. replace t0 with t by congruence.
    destruct Hrev as [?|(a & Ha & Hdis)]; [by left|right]. intros a0 Ha0. congruence. }
  destruct (ServiceAccountByToken_live _ _ _ _ _ _ Hwf' Hs) as (t' & a & Ht' & Hr & _ & Ha & Hdis & _).
  rewrite Heq in Ht'. destruct (dead_history _ _ _ _ _ Hwf Hused Hd Hh' _ Ht') as [[? ?]|Hdd]; [congruence|].
  destruct (Hdd _ Ha). congruence.
Qed.

(** * A gained binding signs its holder out *)

Definition signed_out s (userID : string) : Prop :=
  (∀ h x, s_sessions s !! h = Some x → se_userID x ≠ userID) ∧
  (∀ k t, s_serviceAccountTokens s !! k = Some t → tk_ServiceAccountID t = userID → is_Some (tk_RevokedAt t)).

Lemma bumped_signed_out now hit s s' userID : bumped now hit s s' → hit userID = true → signed_out s' userID.
Proof.
  intros [_ _ Ht Hs] Hhit. split.
  - intros h x Hx. apply Hs in Hx as [_ Hx]. congruence.
  - intros k t. rewrite Ht. destruct (s_serviceAccountTokens s !! k) as [t0|]; [|done]. simpl. intros [= <-] Hsa.
    assert (tk_ServiceAccountID t0 = userID) as Hsa0 by by destruct (hit _ && _).
    rewrite Hsa0, Hhit. simpl. destruct (tk_RevokedAt t0) eqn:E; simpl; by eexists.
Qed.

Lemma bump_signs_out now ids s userID u :
  s_users s !! userID = Some u → u_Role u ≠ "platform-admin" → userID ∈ ids →
  signed_out (bumpGrantsLocked now ids s) userID.
Proof.
  intros Hu Hr Hin. eapply bumped_signed_out; [apply bumpGrantsLocked_bumped|].
  unfold bumps. rewrite bool_decide_eq_true_2 by done. rewrite Hu. simpl.
  apply negb_true_iff. by apply String.eqb_neq.
Qed.

Lemma bump_frame now ids s :
  s_accessGrants (bumpGrantsLocked now ids s) = s_accessGrants s ∧
  s_memberships (bumpGrantsLocked now ids s) = s_memberships s.
Proof. destruct (bumpGrantsLocked_bumped now ids s) as [(? & ? & ? & ->) _ _ _]. done. Qed.

(** Where a binding an actor has after a call comes from. *)
Lemma binding_fewer s s' actor :
  (∀ k g, s_accessGrants s' !! k = Some g → subjectOf s' actor g = true → s_accessGrants s !! k = Some g) →
  (∀ k m mem, s_memberships s' !! k = Some m → m !! actor = Some mem →
     ∃ m0, s_memberships s !! k = Some m0 ∧ m0 !! actor = Some mem) →
  ∀ b, b ∈ bindingsLocked s' actor → b ∈ bindingsLocked s actor.
Proof.
  intros Hg Hm b. rewrite !elem_of_bindings. intros [(k & g & Hk & Hs & ->)|(k & m & mem & Hk & Hmem & ->)].
  - left. exists k, g. split_and!; [by apply Hg| |done]. clear Hg. unfold subjectOf in *.
    apply orb_true_iff in Hs as [->|Hs]; [done|]. apply andb_true_iff in Hs as [Hne Hs].
    rewrite Hne. simpl. apply present_true in Hs as [mem Hmem]. unfold membersOf in Hmem.
    destruct (s_memberships s' !! g_SubjectTeamID g) as [m'|] eqn:Em; [|done].
    destruct (Hm _ _ _ Em Hmem) as (m0 & Hm0 & Hmem0).
    unfold membersOf. rewrite Hm0. simpl. rewrite Hmem0. by rewrite orb_true_r.
  - right. destruct (Hm _ _ _ Hk Hmem) as (m0 & Hm0 & Hmem0). by exists k, m0, mem.
Qed.

Definition grants_more r : Prop :=
  (∃ u ph h ex, r = BootstrapAdminR u ph h ex) ∨
  (∃ actor key fp ProjectID Name Role, r = CreateServiceAccountR actor key fp ProjectID Name Role) ∨
  ∃ actor key fp input, r = CreateProjectAccessGrantR actor key fp input.

Lemma grants_fewer s c r s' :
  serve s c r = Ok s' → grants_more r ∨
  ∀ k g, s_accessGrants s' !! k = Some g → s_accessGrants s !! k = Some g.
Proof.
  intros Hs. unfold grants_more. destruct (serve_grants _ _ _ _ Hs); eauto 10; right; intros k g Hk;
    try (by apply lookup_drop_where in Hk as [? _]); by apply lookup_delete_Some in Hk as [_ ?].
Qed.

(** The memberships of a user that a call neither makes the owner of a new team
    nor adds to a team. *)
Lemma members_fewer s c r s' userID :
  serve s c r = Ok s' →
  (∀ actor key fp Name Slug, r = CreateTeamR actor key fp Name Slug → actor ≠ userID) →
  (∀ actor teamID key fp UserID Role, r = AddTeamMemberR actor teamID key fp UserID Role →
     UserID = userID → ∃ m, membersOf s teamID !! UserID = Some m ∧ me_Role m = Role) →
  ∀ k m mem, s_memberships s' !! k = Some m → m !! userID = Some mem →
    ∃ m0, s_memberships s !! k = Some m0 ∧ m0 !! userID = Some mem.
Proof.
  intros Hs Hteam Hadd k m mem Hk Hmem.
  assert (∀ teamID mem, membersOf s teamID !! userID = Some mem →
    ∃ m0, s_memberships s !! teamID = Some m0 ∧ m0 !! userID = Some mem) as Hof.
  { intros teamID mem0. unfold membersOf. destruct (s_memberships s !! teamID) as [m0|]; [|done]. eauto. }
  destruct (serve_memberships _ _ _ _ Hs) as [|actor key fp Name Slug|actor teamID' name key fp
    |actor teamID' key fp UserID Role Ht Hlast|actor teamID' uID member Ht Hm Hlast|actor uID email key fp Hlast].
  - by exists m.
  - apply lookup_insert_Some in Hk as [[<- <-]|[_ Hk]]; [|by exists m].
    apply lookup_singleton_Some in Hmem as [-> _]. by destruct (Hteam _ _ _ _ _ eq_refl).
  - apply lookup_delete_Some in Hk as [_ Hk]. by exists m.
  - apply lookup_insert_Some in Hk as [[<- <-]|[_ Hk]]; [|by exists m].
    apply lookup_insert_Some in Hmem as [[-> <-]|[_ Hmem]]; [|by apply Hof].
    destruct (Hadd _ _ _ _ _ _ eq_refl eq_refl) as (m0 & Hm0 & Hr). apply Hof. rewrite Hm0. simpl. f_equal.
    rewrite <- Hr. by destruct m0.
  - apply lookup_insert_Some in Hk as [[<- <-]|[_ Hk]]; [|by exists m].
    apply lookup_delete_Some in Hmem as [_ Hmem]. by apply Hof.
  - rewrite lookup_fmap in Hk. destruct (s_memberships s !! k) as [m0|]; [|done].
    injection Hk as <-. apply lookup_delete_Some in Hmem as [_ Hmem]. by exists m0.
Qed.

Lemma AddTeamMember_signs_out s c actor teamID key fp UserID Role s' u :
  serve s c (AddTeamMemberR actor teamID key fp UserID Role) = Ok s' →
  s_users s !! UserID = Some u → u_Role u ≠ "platform-admin" →
  s' = s ∨ signed_out s' UserID ∨ ∃ m, membersOf s teamID !! UserID = Some m ∧ me_Role m = Role.
Proof.
  intros Hs Hu Hr. call_paths Hs; [by left|right].
  match goal with |- signed_out (if ?b then _ else _) _ ∨ _ => destruct b eqn:Hch end.
  - left. injection Hu as ->. eapply bump_signs_out; [eassumption|done|]. by apply elem_of_singleton.
  - right. destruct (membersOf s teamID !! UserID) as [m|]; [|done].
    exists m. split; [done|]. by apply negb_false_iff, String.eqb_eq in Hch.
Qed.

Lemma CreateProjectAccessGrant_signs_out s c actor key fp input s' userID u :
  serve s c (CreateProjectAccessGrantR actor key fp input) = Ok s' → userID ≠ "" →
  s_users s !! userID = Some u → u_Role u ≠ "platform-admin" →
  (∀ k g, s_accessGrants s' !! k = Some g → subjectOf s' userID g = true → s_accessGrants s !! k = Some g) ∨
  signed_out s' userID.
Proof.
  intros Hs Hne Hu Hr. call_paths Hs; [by left|].
  match goal with E : wellFormedGrant _ = true |- _ => rename E into Hw end.
  unfold wellFormedGrant in Hw. apply negb_true_iff in Hw. bool_prop.
  match goal with E : Bool.eqb _ _ = false |- _ => rename E into Hb end.
  unfold bumpGrantSubjectsLocked. set (g := explicitGrant c actor input).
  set (s1 := count_audit _). set (ids := if negb (String.eqb (g_SubjectUserID g) "") then _ else _).
  destruct (decide (subjectOf s1 userID g = true)) as [Hsub|Hsub].
  - right. eapply (bump_signs_out _ _ s1); [exact Hu|done|]. unfold ids, g. simpl.
    unfold subjectOf, g in Hsub. simpl in Hsub.
    destruct (String.eqb_spec (gr_SubjectUserID input) "") as [He|He]; simpl.
    + rewrite He in Hsub. apply orb_true_iff in Hsub as [Hsub|Hsub]; [by apply String.eqb_eq in Hsub|].
      apply andb_true_iff in Hsub as [_ Hsub]. apply elem_of_dom. by apply present_true in Hsub.
    + apply elem_of_singleton. apply orb_true_iff in Hsub as [Hsub|Hsub]; [by apply String.eqb_eq in Hsub|].
      apply andb_true_iff in Hsub as [Hsub _]. by destruct (String.eqb (gr_SubjectTeamID input) "").
  - left. intros k g' Hk Hs'. destruct (bump_frame (c_now c) ids s1) as [Hg Hm].
    rewrite Hg in Hk. unfold s1 in Hk. cbn [s_accessGrants count_audit record_idem] in Hk.
    unfold count_audit, record_idem in Hk. state_cbn.
    apply lookup_insert_Some in Hk as [[_ <-]|[_ Hk]]; [|done].
    destruct Hsub. unfold subjectOf, membersOf in *. by rewrite Hm in Hs'.
Qed.

(** Whoever gains a binding is signed out: when a call gives an existing
    user, other than the administrator, a role binding it did not have -
    through a grant to it, a grant to a team it is in, a team it is added to or
    a new role there - no session of the user is left and all its tokens are
    revoked.  The one exception is the creator of a team, who becomes its
    owner. *)
Theorem gained_binding_signs_out used s c r s' userID u b :
  history ∅ New used s → fresh used c r → serve s c r = Ok s' →
  s_users s !! userID = Some u → u_Role u ≠ "platform-admin" →
  b ∈ bindingsLocked s' userID → b ∉ bindingsLocked s userID →
  signed_out s' userID ∨ ∃ key fp Name Slug, r = CreateTeamR userID key fp Name Slug.
Proof.
  intros Hh Hfr Hs Hu Hr Hb Hnb.
  pose proof (control_wf_history _ _ _ _ control_wf_New Hh) as [Hid _ _ _].
  destruct (id_users _ _ Hid _ _ Hu) as [_ Hused]. pose proof (used_not_issued _ _ _ _ Hfr Hused) as Hni.
  assert (userID ≠ "") as Hne by (intros ->; by apply (id_used _ _ Hid)).
  assert ((∀ k g, s_accessGrants s' !! k = Some g → subjectOf s' userID g = true → s_accessGrants s !! k = Some g) →
    (∀ actor key fp Name Slug, r = CreateTeamR actor key fp Name Slug → actor ≠ userID) →
    (∀ actor teamID key fp UserID Role, r = AddTeamMemberR actor teamID key fp UserID Role →
       UserID = userID → ∃ m, membersOf s teamID !! UserID = Some m ∧ me_Role m = Role) → False) as Hfewer.
  { intros Hg Ht Ha. apply Hnb. eapply binding_fewer; [done|by eapply members_fewer|done]. }
  destruct (grants_fewer _ _ _ _ Hs) as [[(v & ph & h & ex & ->)|[(actor & key & fp & pid & nm & ro & ->)
    |(actor & key & fp & input & ->)]]|Hfew].
  - exfalso. call_paths Hs.
    match goal with E : BootstrapRequired s = true |- _ => apply bool_decide_eq_true in E; rewrite E in Hu end.
    by rewrite lookup_empty in Hu.
  - exfalso. apply Hfewer; [|by intros..]. intros k g Hk Hsub.
    pose proof (serve_grants _ _ _ _ Hs) as Hc. inversion Hc; subst;
      match goal with E : _ = s_accessGrants s' |- _ => rewrite <- E in Hk end; [done|].
    apply lookup_insert_Some in Hk as [[_ <-]|[_ Hk]]; [|done].
    unfold subjectOf in Hsub. simpl in Hsub. rewrite orb_false_r in Hsub.
    apply String.eqb_eq in Hsub. reissued Hni.
  - left. destruct (CreateProjectAccessGrant_signs_out _ _ _ _ _ _ _ _ _ Hs Hne Hu Hr); [|done].
    exfalso. by apply Hfewer.
  - destruct r; try (by destruct Hfewer; [intros; by apply Hfew|by intros..]).
    + destruct (decide (actor = userID)) as [->|Hna]; [right; eauto|].
      destruct Hfewer; [intros; by apply Hfew| |by intros]. by intros ? ? ? ? ? [= <- _ _ _ _].
    + left. destruct (decide (UserID = userID)) as [->|Hna].
      * destruct (AddTeamMember_signs_out _ _ _ _ _ _ _ _ _ _ Hs Hu Hr) as [->|[?|Hsame]]; [done|done|].
        destruct Hfewer; [intros; by apply Hfew|by intros|].
        by intros ? ? ? ? ? ? [= <- <- _ _ <- <-] _.
      * destruct Hfewer; [intros; by apply Hfew|by intros|]. by intros ? ? ? ? ? ? [= _ _ _ _ <- _] ?.
Qed.

End sessions.

(** * Replays *)

#[local] Opaque sha256 hex_encode hash_key.

Section replay.
Context `{MapOrder}.
Implicit Types (s : Store) (c : Call) (r : Request) (used : gset string).

(** The key a request is recorded under, and its fingerprint. *)
Definition keyOf r : option (string * string) :=
  match r with
  | DeleteUserR actor userID _ key fp => Some (ik actor ("users.delete:" +:+ userID) key, fp)
  | CreateTeamR actor key fp _ _ => Some (ik actor "teams.create" key, fp)
  | DeleteTeamR actor teamID _ key fp => Some (ik actor ("teams.delete:" +:+ teamID) key, fp)
  | AddTeamMemberR actor teamID key fp _ _ => Some (ik actor ("teams.members.add:" +:+ teamID) key, fp)
  | CreateServiceAccountR actor key fp projectID _ _ =>
      Some (ik actor ("projects.service-accounts.create:" +:+ projectID) key, fp)
  | CreateServiceAccountTokenR actor key fp accountID _ _ _ _ _ =>
      Some (ik actor ("service-accounts.tokens.create:" +:+ accountID) key, fp)
  | RevokeServiceAccountTokenR actor accountID tokenID key fp =>
      Some (ik actor ("service-accounts.tokens.revoke:" +:+ accountID +:+ ":" +:+ tokenID) key, fp)
  | DisableServiceAccountR actor accountID key fp =>
      Some (ik actor ("service-accounts.disable:" +:+ accountID) key, fp)
  | CreateProjectR actor key fp _ _ _ => Some (ik actor "projects.create" key, fp)
  | DeleteProjectR actor projectID _ key fp => Some (ik actor ("projects.delete:" +:+ projectID) key, fp)
  | CreateEnvironmentR actor key fp _ _ _ _ => Some (ik actor "environments.create" key, fp)
  | DeleteEnvironmentR actor environmentID _ key fp =>
      Some (ik actor ("environments.delete:" +:+ environmentID) key, fp)
  | CreateApplicationR actor key fp _ _ _ _ _ => Some (ik actor "applications.create" key, fp)
  | DeleteApplicationR actor applicationID _ key fp =>
      Some (ik actor ("applications.delete:" +:+ applicationID) key, fp)
  | CreateGitHubInstallationR actor key fp _ => Some (ik actor "github-installations.create" key, fp)
  | LinkVerifiedGitHubInstallationR actor key fp _ => Some (ik actor "github-installations.link" key, fp)
  | UpdateGitHubInstallationSharingR actor installationID key fp _ _ =>
      Some (ik actor ("github-installations.sharing:" +:+ installationID) key, fp)
  | CreateProjectAccessGrantR actor key fp input =>
      Some (ik actor ("projects.grants.create:" +:+ gr_ProjectID input) key, fp)
  | DeleteProjectAccessGrantR actor projectID grantID key fp =>
      Some (ik actor ("projects.grants.delete:" +:+ projectID +:+ ":" +:+ grantID) key, fp)
  | _ => None
  end.

(** Handlers that look a record up file the key under the record's own
    identifier. *)
Ltac own_ids Hid :=
  repeat match goal with
  | a : ServiceAccount * Project |- _ => destruct a; cbn [fst] in *
  | Ha : manageableServiceAccountLocked _ _ _ = Ok _ |- _ => apply manageable_account in Ha
  | Hp : s_projects _ !! ?k = Some ?p |- _ =>
      lazymatch goal with
      | _ : p_ID p = k |- _ => fail
      | _ => pose proof (proj1 (id_projects _ _ Hid _ _ Hp))
      end
  | Ha : s_serviceAccounts _ !! ?k = Some ?a |- _ =>
      lazymatch goal with
      | _ : sa_ID a = k |- _ => fail
      | _ => pose proof (proj1 (id_accounts _ _ Hid _ _ Ha))
      end
  end; subst.

(** What the handler learnt of the record that is filed under its key. *)
Ltac on_record Hr :=
  repeat match goal with
  | E : context [s_idempotency ?s !! ?k] |- _ =>
      lazymatch type of Hr with
      | s_idempotency s !! k = Some _ => tryif constr_eq E Hr then fail else rewrite Hr in E
      end
  end;
  cbn [present negb] in *; simplify_eq.

Lemma checked_record s k fp i :
  s_idempotency s !! k = Some i → check (Some i) fp = true →
  ∃ record, s_idempotency s !! k = Some record ∧ id_fingerprint record = fp.
Proof. intros Hi Hc%String.eqb_eq. by exists i. Qed.

Lemma checked_present s k fp :
  present (s_idempotency s !! k) = true → check (s_idempotency s !! k) fp = true →
  ∃ record, s_idempotency s !! k = Some record ∧ id_fingerprint record = fp.
Proof. intros [i Hi]%present_true Hc. rewrite Hi in Hc. by apply (checked_record _ _ _ i). Qed.

Lemma keyed_recorded used s c r s' k fp :
  identified used s → serve s c r = Ok s' → keyOf r = Some (k, fp) →
  (∃ record, s_idempotency s' !! k = Some record ∧ id_fingerprint record = fp) ∨
  s' = s ∧ ∃ actor userID email key, r = DeleteUserR actor userID email key fp.
Proof.
  intros Hid Hs Hk. serve_cases r Hs; cbn [keyOf] in Hk; try discriminate Hk; injection Hk as <- <-;
    own_ids Hid; try (by right; eauto 10); left; field.
  all: try (by eexists; rewrite lookup_insert_eq).
  all: try by eapply checked_record.
  all: by eapply checked_present.
Qed.

(** A call whose key is on record repeats the recorded call: it has the same
    fingerprint, or fails, and it changes nothing. *)
Lemma replay_same used s c r s' k fp record :
  identified used s → serve s c r = Ok s' → keyOf r = Some (k, fp) →
  s_idempotency s !! k = Some record → id_fingerprint record = fp ∧ s' = s.
Proof.
  intros Hid Hs Hk Hr. serve_cases r Hs; cbn [keyOf] in Hk; try discriminate Hk; injection Hk as <- <-;
    own_ids Hid.
  all: on_record Hr; first [discriminate | split; [by apply String.eqb_eq|done]].
Qed.

(** * Exactly once *)

(** The record of a call survives every later one. *)
Lemma history_records used s used' s' :
  history used s used' s' → s_idempotency s ⊆ s_idempotency s'.
Proof.
  induction 1 as [|u2 s2 c r s3 _ IH _ Hs]; [done|]. etrans; [exact IH|]. by eapply serve_idempotency.
Qed.

(** C31. A request that carries an idempotency key takes effect at most once.
    After a call under a key that changed the store, whatever calls follow, a
    further call under that key - of the same actor, for the same operation and
    the same target - either fails or repeats the first one: it has the same
    fingerprint and leaves the store as it finds it. *)
Theorem performed_once used s c r s1 used' s' k fp c2 r2 fp2 s2 :
  history ∅ New used s → fresh used c r → serve s c r = Ok s1 → keyOf r = Some (k, fp) → s1 ≠ s →
  history (used ∪ list_to_set (issues c r)) s1 used' s' →
  keyOf r2 = Some (k, fp2) → serve s' c2 r2 = Ok s2 →
  fp2 = fp ∧ s2 = s'.
Proof.
  intros Hh Hfr Hs Hk Hne Hh' Hk2 Hs2.
  pose proof (control_wf_history _ _ _ _ control_wf_New Hh) as Hwf.
  pose proof (control_wf_step _ _ _ _ _ Hfr Hwf Hs) as Hwf1.
  pose proof (control_wf_history _ _ _ _ Hwf1 Hh') as Hwf'.
  destruct (keyed_recorded _ _ _ _ _ _ _ (wf_identified _ _ Hwf) Hs Hk) as [(record & Hr & <-)|[? _]]; [|done].
  eapply lookup_weaken in Hr; [|by eapply history_records].
  destruct (replay_same _ _ _ _ _ _ _ _ (wf_identified _ _ Hwf') Hs2 Hk2 Hr). done.
Qed.

End replay.
