(* ===== verification/ControlOperations.v ===== *)
(** The operations of the control-plane store and their work queue
    ([internal/store/memory/store.go]): the outbox that announces an operation,
    the leases under which workers run it, and what completing, failing and
    requeueing it does to the operation and its deployment.

    [now] is the time a handler reads.  An error leaves the state as it was. *)

From S2P Require Import Prelude GoStrings Access Publications ControlModel ControlAccess ControlResources.

Open Scope Z_scope.

(** * Reading operations *)

Definition pullRequestFromPublication (publication : Publication) : PullRequestPublication :=
  mkPullRequest (pb_PullRequestNumber publication) (pb_PullRequestURL publication)
    (pb_PullRequestState publication) (pb_CandidateRevision publication).

Definition operationWithPublicationLocked (s : Store) (op : Operation) : Operation :=
  match s_gitPublications s !! op_ID op with
  | Some publication =>
      if 0 <? pb_PullRequestNumber publication
      then op |> op_set_PullRequest (Some (pullRequestFromPublication publication))
      else op
  | None => op
  end.

Definition GetOperation (s : Store) (v : string) : res StoreErr Operation :=
  match s_operations s !! v with
  | None => Err ErrNotFound
  | Some x => Ok (operationWithPublicationLocked s x)
  end.

(** The latest operation comes first. *)
Definition newerOperation (a b : Operation) : bool := op_CreatedAt b <? op_CreatedAt a.

Definition terminal (v : string) : bool := str_in v ["succeeded"; "failed"; "cancelled"; "superseded"].

Section operations.
Context `{MapOrder}.

Definition ListOperations (s : Store) : list Operation :=
  sort_slice newerOperation (map (operationWithPublicationLocked s) (map snd (range 0 (s_operations s)))).

Definition ListOperationsForActor (s : Store) (actor : string) : list Operation :=
  sort_slice newerOperation
    (map (operationWithPublicationLocked s)
       (List.filter (canAccessOperationLocked s actor) (map snd (range 0 (s_operations s))))).

(** A negative limit panics: [items[:limit]]. *)
Definition ListRecentOperationsForActor (s : Store) (actor : string) (limit : Z) : option (list Operation) :=
  let items := ListOperationsForActor s actor in
  if limit <? Z.of_nat (length items)
  then if limit <? 0 then None else Some (take (Z.to_nat limit) items)
  else Some items.

Definition GetOperationForActor (s : Store) (actor operationID : string) : res StoreErr Operation :=
  match s_operations s !! operationID with
  | None => Err ErrNotFound
  | Some operation =>
      guard! canAccessOperationLocked s actor operation else ErrNotFound in
      Ok (operationWithPublicationLocked s operation)
  end.

(** * The outbox *)

(** [append], then [break] at the limit: a limit below one still gives one. *)
Definition PendingOutbox (s : Store) (limit : Z) : list WorkMessage :=
  take (Z.to_nat (Z.max 1 limit))
    (map ob_message (List.filter (λ v, negb (ob_published v)) (map snd (range 0 (s_outbox s))))).

Definition unfinished (operation : Operation) : bool := str_in (op_Status operation) ["queued"; "running"].

(** An event that was published to a dataset that is gone. *)
Definition lostEvent (s : Store) (operationID : string) (event : outboxRecord) : bool :=
  match s_operations s !! operationID with
  | Some operation => ob_published event && unfinished operation
  | None => false
  end.

(** [None]: the identity of the dataset is invalid. *)
Definition ReconcileOutboxDataset (s : Store) (datasetID : string) : option (Store * Z) :=
  if negb (str_len datasetID =? 36) then None else
  if String.eqb (s_outboxDatasetID s) datasetID then Some (s, 0) else
  Some (s |> s_set_outbox (update_where (lostEvent s) (ob_set_published false) (s_outbox s))
          |> s_set_outboxDatasetID datasetID,
        Z.of_nat (length (List.filter (λ kv, lostEvent s (fst kv) (snd kv)) (map_to_list (s_outbox s))))).

Definition MarkOutboxPublished (s : Store) (v : string) : outcome unit :=
  match s_outbox s !! v with
  | None => Err ErrNotFound
  | Some x => Ok (s |> s_set_outbox (<[v := x |> ob_set_published true]> (s_outbox s)), tt)
  end.

Definition MarkOutboxFailure (s : Store) (v : string) : outcome unit :=
  match s_outbox s !! v with
  | None => Err ErrNotFound
  | Some x => Ok (s |> s_set_outbox (<[v := x |> ob_set_attempts (i64 (ob_attempts x + 1))]> (s_outbox s)), tt)
  end.

(** * Leases *)

Definition leaseOf (s : Store) (v : string) : operationLease := default (mkLease "" zero_time) (s_leases s !! v).

Definition grantLease (v worker : string) (until_ : Time) (s : Store) : Store :=
  s |> s_set_leases (<[v := mkLease worker until_]> (s_leases s)).

Definition dropLease (v : string) (s : Store) : Store := s |> s_set_leases (delete v (s_leases s)).

Definition putOperation (v : string) (op : Operation) (s : Store) : Store :=
  s |> s_set_operations (<[v := op]> (s_operations s)).

(** What a worker may be given: queued operations, and running ones whose lease
    has run out. *)
Definition leasable (s : Store) (now : Time) (v : string) (op : Operation) : bool :=
  String.eqb (op_Status op) "queued" ||
  String.eqb (op_Status op) "running" && negb (now <? le_until (leaseOf s v)).

(** The loop of [LeasePendingOperations].  An operation without an outbox
    record dereferences a nil pointer: [None]. *)
Fixpoint leaseEach (now : Time) (worker : string) (limit until_ : Z) (ops : list (string * Operation))
    (s : Store) (out : list WorkMessage) : option (Store * list WorkMessage) :=
  match ops with
  | [] => Some (s, out)
  | (v, op) :: rest =>
      if leasable s now v op && (Z.of_nat (length out) <? limit) then
        match s_outbox s !! v with
        | None => None
        | Some event =>
            leaseEach now worker limit until_ rest (grantLease v worker until_ s) (out ++ [ob_message event])
        end
      else leaseEach now worker limit until_ rest s out
  end.

Definition LeasePendingOperations (s : Store) (now : Time) (worker : string) (limit : Z) (lease : Duration)
    : option (Store * list WorkMessage) :=
  leaseEach now worker limit (now + lease) (range 0 (s_operations s)) s [].

(** * Running an operation *)

Definition supersede (now : Time) (detail : string) (op : Operation) : Operation :=
  op |> op_set_Status "superseded" |> op_set_Problem (Some (mkProblem "Superseded" detail))
     |> op_set_UpdatedAt now |> op_set_FinishedAt (Some now).

Definition gitWriteKind : string := "deployment.git-write".

(** An earlier write of the same target that is still running. *)
Definition earlierWrite (op other : Operation) : bool :=
  String.eqb (op_TargetID other) (op_TargetID op) && (op_Generation other <? op_Generation op) &&
  String.eqb (op_Status other) "running".

Definition deploymentAt (s : Store) (ID : string) : Deployment := default zeroDeployment (s_deployments s !! ID).

Definition startRunning (s : Store) (now : Time) (v worker : string) (lease : Duration) (op : Operation)
    : Store * (Operation * bool) :=
  let op' := op |> op_set_Status "running" |> op_set_UpdatedAt now
                |> op_set_Progress [mkStep "git-write" "running" "" (Some now) None] in
  (s |> grantLease v worker (now + lease) |> putOperation v op', (op', true)).

Definition StartOperation (s : Store) (now : Time) (v : string) (generation : Z) (worker : string)
    (lease : Duration) : outcome (Operation * bool) :=
  guard! negb (String.eqb worker "" || (lease <=? 0)) else ErrConflict in
  match s_operations s !! v with
  | None => Err ErrNotFound
  | Some op =>
      if negb (op_Generation op =? generation) || terminal (op_Status op) then Ok (s, (op, false)) else
      let l := leaseOf s v in
      if negb (String.eqb (le_owner l) "") && negb (String.eqb (le_owner l) worker) && (now <? le_until l)
      then Ok (s, (op, false)) else
      if String.eqb (op_Kind op) gitWriteKind && any_where (λ _, earlierWrite op) (s_operations s)
      then Ok (s |> dropLease v, (op, false)) else
      if String.eqb (op_Kind op) gitWriteKind && (op_Generation op <? dp_Generation (deploymentAt s (op_TargetID op)))
      then
        let op' := supersede now "A newer deployment release is current." op in
        Ok (s |> putOperation v op' |> dropLease v, (op', false))
      else Ok (startRunning s now v worker lease op)
  end.

(** A worker whose lease on the running operation is live. *)
Definition holds (s : Store) (now : Time) (v worker : string) (op : Operation) : bool :=
  String.eqb (op_Status op) "running" && String.eqb (le_owner (leaseOf s v)) worker &&
  (now <? le_until (leaseOf s v)).

Definition HeartbeatOperation (s : Store) (now : Time) (v : string) (generation : Z) (worker : string)
    (lease : Duration) : outcome unit :=
  guard! negb (String.eqb worker "" || (lease <=? 0)) else ErrConflict in
  match s_operations s !! v with
  | None => Err ErrNotFound
  | Some op =>
      guard! op_Generation op =? generation else ErrConflict in
      if terminal (op_Status op) then Ok (s, tt) else
      guard! holds s now v worker op else ErrOperationLeaseLost in
      Ok (s |> grantLease v worker (now + lease), tt)
  end.

(** * Ending an operation *)

Record GitPublicationResult := mkResultOf {
  gw_Mode : string;
  gw_Revision : string;
  gw_CandidateRevision : string;
  gw_PullRequestNumber : Z;
  gw_PullRequestURL : string;
  gw_PullRequestState : string;
}.

(** A result that carries nothing of a pull request. *)
Definition noReceipt (result : GitPublicationResult) : bool :=
  String.eqb (gw_CandidateRevision result) "" && (gw_PullRequestNumber result =? 0) &&
  String.eqb (gw_PullRequestURL result) "" && String.eqb (gw_PullRequestState result) "".

Definition publicationResultMatchesOperation (result : GitPublicationResult) (operation : Operation) : bool :=
  match op_PullRequest operation with
  | None =>
      String.eqb (gw_Mode result) ModeDirect && negb (String.eqb (gw_Revision result) "") &&
      String.eqb (op_GitRevision operation) (gw_Revision result) && noReceipt result
  | Some pullRequest =>
      String.eqb (gw_Mode result) ModePullRequest && String.eqb (gw_Revision result) "" &&
      String.eqb (op_GitRevision operation) "" &&
      String.eqb (gw_CandidateRevision result) (pr_CandidateRevision pullRequest) &&
      (gw_PullRequestNumber result =? pr_Number pullRequest) &&
      String.eqb (gw_PullRequestURL result) (pr_URL pullRequest) &&
      String.eqb (gw_PullRequestState result) (pr_State pullRequest)
  end.

Definition publicationResultMatchesReceipt (result : GitPublicationResult) (publication : Publication) : bool :=
  String.eqb (gw_Mode result) ModePullRequest && String.eqb (gw_Revision result) "" &&
  String.eqb (gw_CandidateRevision result) (pb_CandidateRevision publication) &&
  (gw_PullRequestNumber result =? pb_PullRequestNumber publication) &&
  String.eqb (gw_PullRequestURL result) (pb_PullRequestURL publication) &&
  String.eqb (gw_PullRequestState result) (pb_PullRequestState publication) &&
  (0 <? pb_PullRequestNumber publication) && Validate publication.

Definition protectedDeploymentState (publication : Publication) : string :=
  if bool_decide (pb_State publication ∈ [StateMergePending; StateMergeVerified]) then "merge-pending-index"
  else if String.eqb (pb_PullRequestState publication) PullRequestClosed then "review-closed"
  else "review-pending".

(** An absent mode is the direct one. *)
Definition publicationMode (s : Store) (v : string) : string :=
  let mode := default "" (s_gitPublicationModes s !! v) in
  if String.eqb mode "" then ModeDirect else mode.

(** What the result is worth in the mode of the operation: the pull request, the
    state of the deployment and the detail of the progress. *)
Definition acceptResult (s : Store) (v : string) (result : GitPublicationResult)
    : res StoreErr (option PullRequestPublication * string * string) :=
  let mode := publicationMode s v in
  if String.eqb mode ModeDirect then
    guard! negb (negb (String.eqb (gw_Mode result) ModeDirect) || String.eqb (gw_Revision result) "" ||
                 negb (noReceipt result)) else ErrConflict in
    Ok (None, "git-committed", "committed as " +:+ gw_Revision result)
  else if String.eqb mode ModePullRequest then
    match s_gitPublications s !! v with
    | None => Err ErrConflict
    | Some publication =>
        guard! publicationResultMatchesReceipt result publication else ErrConflict in
        Ok (Some (pullRequestFromPublication publication), protectedDeploymentState publication,
            "pull request created")
    end
  else Err ErrConflict.

Definition MutationDelete : string := "delete".

(** The write removed the application's desired state. *)
Definition deletes (s : Store) (v mode : string) : bool :=
  match s_gitWriteCommands s !! v with
  | Some command => String.eqb (wc_Action command) MutationDelete && String.eqb mode ModeDirect
  | None => false
  end.

(** [placements[d.ApplicationID]] of an environment that has a map of them: its
    desired state becomes stopped, a placement that is not there included. *)
Definition stopPlacement (now : Time) (d : Deployment) (s : Store) : Store :=
  match s_environmentAppPlacements s !! dp_EnvironmentID d with
  | None => s
  | Some placements =>
      let placement := default zeroEnvironmentAppPlacement (placements !! dp_ApplicationID d) in
      s |> s_set_environmentAppPlacements
             (<[dp_EnvironmentID d :=
                  <[dp_ApplicationID d :=
                      placement |> pl_set_DesiredState EnvironmentAppPlacementStopped |> pl_set_UpdatedAt now]> placements]>
                (s_environmentAppPlacements s))
  end.

(** The deployment follows the write, if it is still of its generation. *)
Definition followWrite (now : Time) (v : string) (generation : Z) (op : Operation) (state revision : string)
    (s : Store) : Store :=
  let d := deploymentAt s (op_TargetID op) in
  if negb (String.eqb (op_Kind op) gitWriteKind) || negb (dp_Generation d =? generation) then s else
  let mode := publicationMode s v in
  let stopped := deletes s (op_ID op) mode in
  let d1 := d |> dp_set_State (if stopped then "stopped" else state) in
  let d2 := if String.eqb mode ModeDirect then d1 |> dp_set_DesiredRevision revision else d1 in
  let d3 := d2 |> dp_set_UpdatedAt now in
  (if stopped then stopPlacement now d s else s) |> s_set_deployments (<[dp_ID d3 := d3]> (s_deployments s)).

Definition variableSetKind : string := "variable-set.git-write".

Definition isGitWrite (op : Operation) : bool := str_in (op_Kind op) [gitWriteKind; variableSetKind].

Definition succeed (now : Time) (revision detail : string) (pullRequest : option PullRequestPublication)
    (op : Operation) : Operation :=
  op |> op_set_Status "succeeded" |> op_set_GitRevision revision |> op_set_PullRequest pullRequest
     |> op_set_UpdatedAt now |> op_set_FinishedAt (Some now)
     |> op_set_Progress [mkStep "git-write" "succeeded" detail None (Some now)].

Definition CompleteGitOperation (s : Store) (now : Time) (v : string) (generation : Z) (worker : string)
    (result : GitPublicationResult) : outcome unit :=
  match s_operations s !! v with
  | None => Err ErrNotFound
  | Some op =>
      if String.eqb (op_Status op) "succeeded" then
        guard! publicationResultMatchesOperation result (operationWithPublicationLocked s op) else ErrConflict in
        Ok (s, tt)
      else
      guard! negb (negb (op_Generation op =? generation) || negb (isGitWrite op) ||
                   negb (String.eqb (op_Status op) "running")) else ErrConflict in
      guard! negb (String.eqb worker "") && holds s now v worker op else ErrOperationLeaseLost in
      let* accepted := acceptResult s v result in
      let '(pullRequest, state, detail) := accepted in
      Ok (s |> putOperation v (succeed now (gw_Revision result) detail pullRequest op)
            |> followWrite now v generation op state (gw_Revision result)
            |> count_audit
            |> dropLease v, tt)
  end.

Definition fail (now : Time) (code detail : string) (op : Operation) : Operation :=
  op |> op_set_Status "failed" |> op_set_Problem (Some (mkProblem code detail))
     |> op_set_FinishedAt (Some now) |> op_set_UpdatedAt now
     |> op_set_Progress [mkStep "git-write" "failed" detail None (Some now)].

(** The failure that is reported was reported before. *)
Definition failedSo (op : Operation) (code detail : string) : bool :=
  String.eqb (op_Status op) "failed" &&
  match op_Problem op with
  | Some problem => String.eqb (pb_Code problem) code && String.eqb (pb_Detail problem) detail
  | None => false
  end.

Definition FailOperation (s : Store) (now : Time) (v : string) (generation : Z) (worker code detail : string)
    : outcome unit :=
  match s_operations s !! v with
  | None => Err ErrNotFound
  | Some op =>
      guard! op_Generation op =? generation else ErrConflict in
      if String.eqb (op_Status op) "succeeded" || failedSo op code detail then Ok (s, tt) else
      guard! negb (String.eqb worker "") && holds s now v worker op else ErrOperationLeaseLost in
      Ok (s |> putOperation v (fail now code detail op) |> dropLease v, tt)
  end.

Definition requeue (now : Time) (detail : string) (op : Operation) : Operation :=
  op |> op_set_Status "queued" |> op_set_Problem None |> op_set_FinishedAt None |> op_set_UpdatedAt now
     |> op_set_Progress [mkStep "git-write" "pending" detail None None].

Definition RequeueOperation (s : Store) (now : Time) (operationID : string) (generation : Z)
    (worker code detail : string) : outcome unit :=
  match s_operations s !! operationID with
  | None => Err ErrNotFound
  | Some op =>
      guard! (op_Generation op =? generation) && isGitWrite op else ErrConflict in
      if str_in (op_Status op) ["succeeded"; "queued"] then Ok (s, tt) else
      guard! negb (String.eqb worker "") && holds s now operationID worker op else ErrOperationLeaseLost in
      Ok (s |> putOperation operationID (requeue now detail op) |> dropLease operationID, tt)
  end.

End operations.
