(* ===== verification/ControlQueue.v ===== *)
(** The work queue of the control-plane store as a transition system: what the
    workers ask of it, what one call changes of one operation and its lease,
    and sequences of calls in which workers and users alternate. *)

From S2P Require Import Prelude GoStrings Access Publications ControlModel ControlAccess ControlResources ControlSteps ControlFacts ControlOperations.

Open Scope Z_scope.

Section queue.
Context `{MapOrder}.
Implicit Types (s : Store) (v : string) (op : Operation).

(** * Calls *)

Inductive Work :=
| LeaseW (worker : string) (limit : Z) (lease : Duration)
| StartW (v : string) (generation : Z) (worker : string) (lease : Duration)
| HeartbeatW (v : string) (generation : Z) (worker : string) (lease : Duration)
| CompleteW (v : string) (generation : Z) (worker : string) (result : GitPublicationResult)
| FailW (v : string) (generation : Z) (worker code detail : string)
| RequeueW (v : string) (generation : Z) (worker code detail : string)
| PublishedW (v : string)
| AttemptedW (v : string)
| ReconcileW (datasetID : string).

Definition workerOf (w : Work) : option string :=
  match w with
  | LeaseW worker _ _ | StartW _ _ worker _ | HeartbeatW _ _ worker _ | CompleteW _ _ worker _
  | FailW _ _ worker _ _ | RequeueW _ _ worker _ _ => Some worker
  | PublishedW _ | AttemptedW _ | ReconcileW _ => None
  end.

Definition okay {A} (m : outcome A) : option Store := match m with Ok r => Some (fst r) | Err _ => None end.

(** [None]: the call is refused, or it panics. *)
Definition work s (now : Time) (w : Work) : option Store :=
  match w with
  | LeaseW worker limit lease => fst <$> LeasePendingOperations s now worker limit lease
  | StartW v generation worker lease => okay (StartOperation s now v generation worker lease)
  | HeartbeatW v generation worker lease => okay (HeartbeatOperation s now v generation worker lease)
  | CompleteW v generation worker result => okay (CompleteGitOperation s now v generation worker result)
  | FailW v generation worker code detail => okay (FailOperation s now v generation worker code detail)
  | RequeueW v generation worker code detail => okay (RequeueOperation s now v generation worker code detail)
  | PublishedW v => okay (MarkOutboxPublished s v)
  | AttemptedW v => okay (MarkOutboxFailure s v)
  | ReconcileW datasetID => fst <$> ReconcileOutboxDataset s datasetID
  end.

(** Workers and users alternate. *)
Inductive Event :=
| Worked (now : Time) (w : Work)
| Asked (c : Call) (r : Request).

Definition handle s (e : Event) : option Store :=
  match e with
  | Worked now w => work s now w
  | Asked c r => match serve s c r with Ok s' => Some s' | Err _ => None end
  end.

(** A call that is refused leaves the store as it was. *)
Definition handled s (e : Event) : Store := default s (handle s e).

Definition handleAll s (events : list Event) : Store := foldl handled s events.

(** * What one call changes of an operation *)

Inductive operation_change s (now : Time) (w : Work) v : option Operation → option Operation → Prop :=
| operation_same o : operation_change s now w v o o
| operation_started generation worker lease op :
    w = StartW v generation worker lease → worker ≠ "" →
    terminal (op_Status op) = false → op_Generation op = generation →
    (le_owner (leaseOf s v) ≠ "" → le_owner (leaseOf s v) ≠ worker → le_until (leaseOf s v) ≤ now) →
    (op_Kind op = gitWriteKind →
       any_where (λ _, earlierWrite op) (s_operations s) = false ∧
       dp_Generation (deploymentAt s (op_TargetID op)) ≤ op_Generation op) →
    operation_change s now w v (Some op) (Some (fst (snd (startRunning s now v worker lease op))))
| operation_superseded generation worker lease op detail :
    w = StartW v generation worker lease → worker ≠ "" → terminal (op_Status op) = false →
    (le_owner (leaseOf s v) ≠ "" → le_owner (leaseOf s v) ≠ worker → le_until (leaseOf s v) ≤ now) →
    operation_change s now w v (Some op) (Some (supersede now detail op))
| operation_completed generation worker result op pullRequest revision detail :
    w = CompleteW v generation worker result → worker ≠ "" → holds s now v worker op = true →
    operation_change s now w v (Some op) (Some (succeed now revision detail pullRequest op))
| operation_failed generation worker code detail op :
    w = FailW v generation worker code detail → worker ≠ "" → holds s now v worker op = true →
    operation_change s now w v (Some op) (Some (fail now code detail op))
| operation_requeued generation worker code detail op :
    w = RequeueW v generation worker code detail → worker ≠ "" → holds s now v worker op = true →
    operation_change s now w v (Some op) (Some (requeue now detail op)).

(** Leases: given, dropped, or left alone. *)
Inductive lease_change s (now : Time) (w : Work) v : option operationLease → option operationLease → Prop :=
| lease_same o : lease_change s now w v o o
| lease_polled worker limit lease op o :
    w = LeaseW worker limit lease → s_operations s !! v = Some op → leasable s now v op = true →
    lease_change s now w v o (Some (mkLease worker (now + lease)))
| lease_started generation worker lease op o :
    w = StartW v generation worker lease → s_operations s !! v = Some op → worker ≠ "" →
    (le_owner (leaseOf s v) ≠ "" → le_owner (leaseOf s v) ≠ worker → le_until (leaseOf s v) ≤ now) →
    lease_change s now w v o (Some (mkLease worker (now + lease)))
| lease_given_up generation worker lease op o :
    w = StartW v generation worker lease → s_operations s !! v = Some op → worker ≠ "" →
    (le_owner (leaseOf s v) ≠ "" → le_owner (leaseOf s v) ≠ worker → le_until (leaseOf s v) ≤ now) →
    lease_change s now w v o None
| lease_renewed generation worker lease op o :
    w = HeartbeatW v generation worker lease → s_operations s !! v = Some op → holds s now v worker op = true →
    worker ≠ "" → lease_change s now w v o (Some (mkLease worker (now + lease)))
| lease_ended worker op o :
    (∃ generation result, w = CompleteW v generation worker result) ∨
      (∃ generation code detail, w = FailW v generation worker code detail ∨ w = RequeueW v generation worker code detail) →
    s_operations s !! v = Some op → holds s now v worker op = true → worker ≠ "" →
    lease_change s now w v o None.

(** * The frame of a call *)

Lemma okay_Some {A} (m : outcome A) s' : okay m = Some s' ↔ ∃ a, m = Ok (s', a).
Proof. destruct m as [[s1 a]|e]; simpl; naive_solver. Qed.

Lemma leaseOf_lookup s s' v : s_leases s' !! v = s_leases s !! v → leaseOf s' v = leaseOf s v.
Proof. unfold leaseOf. by intros ->. Qed.

Lemma leaseEach_frame now worker limit until_ ops : ∀ s out s' out',
  NoDup ops.*1 → leaseEach now worker limit until_ ops s out = Some (s', out') →
  ∃ ls, s' = s |> s_set_leases ls ∧
    ∀ v, ls !! v = s_leases s !! v ∨
      ∃ op, (v, op) ∈ ops ∧ leasable s now v op = true ∧ ls !! v = Some (mkLease worker until_).
Proof.
  induction ops as [|[v op] ops IH]; intros s out s' out' Hd Hl; simpl in Hl.
  - injection Hl as <- _. exists (s_leases s). split; [by destruct s|]. by left.
  - apply NoDup_cons in Hd as [Hv Hd]. destruct (leasable s now v op && _) eqn:Hc.
    + destruct (s_outbox s !! v) as [event|]; [|done].
      destruct (IH _ _ _ _ Hd Hl) as (ls & -> & Hls). exists ls. split; [done|]. intros k.
      destruct (Hls k) as [Hk|(op' & Hin & Hlk & Hk)]; rewrite Hk.
      * simpl. destruct (decide (v = k)) as [<-|Hne]; [|left; by rewrite lookup_insert_ne].
        right. exists op. rewrite lookup_insert_eq. apply andb_true_iff in Hc as [Hc _]. split_and!; [by left|done|done].
      * right. exists op'. split_and!; [by right| |done].
        assert (v ≠ k) as Hne by (intros ->; apply Hv, list_elem_of_fmap; by exists (k, op')).
        unfold leasable in *. rewrite (leaseOf_lookup s) in Hlk; [done|]. simpl. by rewrite lookup_insert_ne.
    + destruct (IH _ _ _ _ Hd Hl) as (ls & -> & Hls). exists ls. split; [done|]. intros k.
      destruct (Hls k) as [?|(op' & Hin & ? & ?)]; [by left|right; exists op'; split_and!; [by right|done|done]].
Qed.

Lemma LeasePendingOperations_frame s now worker limit lease s' out :
  LeasePendingOperations s now worker limit lease = Some (s', out) →
  ∃ ls, s' = s |> s_set_leases ls ∧
    ∀ v, ls !! v = s_leases s !! v ∨
      ∃ op, s_operations s !! v = Some op ∧ leasable s now v op = true ∧
        ls !! v = Some (mkLease worker (now + lease)).
Proof.
  unfold LeasePendingOperations. intros Hl.
  destruct (leaseEach_frame _ _ _ _ _ _ _ _ _ (range_NoDup _ _) Hl) as (ls & -> & Hls).
  exists ls. split; [done|]. intros v. destruct (Hls v) as [?|(op & Hin & ? & ?)]; [by left|right].
  exists op. split; [|done]. by apply elem_of_range in Hin.
Qed.

Lemma stopPlacement_frame now d s :
  ∃ ps, stopPlacement now d s = s |> s_set_environmentAppPlacements ps.
Proof.
  unfold stopPlacement. destruct (_ !! _); eauto. exists (s_environmentAppPlacements s). by destruct s.
Qed.

Lemma followWrite_frame now v generation op state revision s :
  ∃ ps ds, followWrite now v generation op state revision s =
    s |> s_set_environmentAppPlacements ps |> s_set_deployments ds.
Proof.
  unfold followWrite. destruct (_ || _).
  - exists (s_environmentAppPlacements s), (s_deployments s). by destruct s.
  - destruct (deletes _ _ _); [|exists (s_environmentAppPlacements s); eexists; by destruct s].
    destruct (stopPlacement_frame now (deploymentAt s (op_TargetID op)) s) as [ps ->]. eauto.
Qed.

Lemma start_guard (l : operationLease) worker now :
  negb (String.eqb (le_owner l) "") && negb (String.eqb (le_owner l) worker) && (now <? le_until l) = false →
  le_owner l ≠ "" → le_owner l ≠ worker → le_until l ≤ now.
Proof.
  intros Hg H1%String.eqb_neq H2%String.eqb_neq. rewrite H1, H2 in Hg. simpl in Hg. lia.
Qed.

End queue.

(** The paths of a call that succeeds. *)
Ltac work_cases w Hw :=
  destruct w; cbn [work] in Hw;
  [apply fmap_Some in Hw as ([? ?] & Hw & ->); cbn [fst];
   apply LeasePendingOperations_frame in Hw as (ls & -> & Hls)
  |apply okay_Some in Hw as [? Hw];
   unfold StartOperation, HeartbeatOperation, CompleteGitOperation, FailOperation, RequeueOperation,
     MarkOutboxPublished, MarkOutboxFailure in Hw; split_ok Hw ..
  |apply fmap_Some in Hw as ([? ?] & Hw & ->); cbn [fst]; unfold ReconcileOutboxDataset in Hw;
   repeat break_match_hyp Hw; try discriminate Hw; injection Hw as <- <-].

(** One map of the store a call leaves. *)
Ltac work_field :=
  repeat match goal with
  | a : () |- _ => destruct a
  | |- context [followWrite ?now ?v ?g ?op ?st ?rev ?s] =>
      let ps := fresh "ps" in let ds := fresh "ds" in
      destruct (followWrite_frame now v g op st rev s) as (ps & ds & ->)
  end;
  unfold dropLease, putOperation, grantLease, count_audit in *; state_cbn.

Section frame.
Context `{MapOrder}.
Implicit Types (s : Store) (v : string) (op : Operation).

Lemma started_guards s op k :
  k && any_where (λ _, earlierWrite op) (s_operations s) = false →
  k && (op_Generation op <? dp_Generation (deploymentAt s (op_TargetID op))) = false → k = String.eqb (op_Kind op) gitWriteKind →
  op_Kind op = gitWriteKind →
  any_where (λ _, earlierWrite op) (s_operations s) = false ∧
  dp_Generation (deploymentAt s (op_TargetID op)) ≤ op_Generation op.
Proof. intros H1 H2 -> E%String.eqb_eq. rewrite E in H1, H2. simpl in *. split; [done|lia]. Qed.

Lemma work_operations s now w s' :
  work s now w = Some s' → ∀ v, operation_change s now w v (s_operations s !! v) (s_operations s' !! v).
Proof.
  intros Hw v. work_cases w Hw; work_field; try apply operation_same; bool_prop.
  all: match goal with |- operation_change _ _ _ ?u _ (<[?i := _]> _ !! ?u) =>
      destruct (decide (i = u)) as [->|]; [rewrite lookup_insert_eq|rewrite lookup_insert_ne by done; apply operation_same] end.
  all: match goal with E : s_operations _ !! ?u = Some _ |- operation_change _ _ _ ?u (_ !! ?u) _ => rewrite E end.
  - eapply operation_superseded; [done|done|done|]. by apply start_guard.
  - eapply operation_started; [done|done|done|done|by apply start_guard|]. intros Hk. by eapply started_guards.
  - by eapply operation_completed.
  - by eapply operation_failed.
  - by eapply operation_requeued.
Qed.

Lemma work_leases s now w s' :
  work s now w = Some s' → ∀ v, lease_change s now w v (s_leases s !! v) (s_leases s' !! v).
Proof.
  intros Hw v. work_cases w Hw; work_field; try apply lease_same; bool_prop.
  - destruct (Hls v) as [->|(op & Hop & Hl & ->)]; [apply lease_same|by eapply lease_polled].
  - at_key v; [|apply lease_same]. eapply lease_given_up; [done|done|done|by apply start_guard].
  - at_key v; [|apply lease_same]. eapply lease_given_up; [done|done|done|by apply start_guard].
  - at_key v; [|apply lease_same]. eapply lease_started; [done|done|done|by apply start_guard].
  - at_key v; [|apply lease_same]. by eapply lease_renewed.
  - at_key v; [|apply lease_same]. eapply lease_ended; [left; eauto|done..].
  - at_key v; [|apply lease_same]. eapply lease_ended; [right; eauto 8|done..].
  - at_key v; [|apply lease_same]. eapply lease_ended; [right; eauto 8|done..].
Qed.

(** ** What a user's request does to the queue

    Only the draft of a source application adds an operation, a finished one. *)

Lemma serve_queue s c r s' :
  serve s c r = Ok s' →
  s_leases s' = s_leases s ∧
  (s_operations s' = s_operations s ∨
   ∃ op, op_Status op = "succeeded" ∧ c_id c 2 ∈ issues c r ∧
     s_operations s' = <[c_id c 2 := op]> (s_operations s)).
Proof.
  intros Hs. serve_cases r Hs; field; try (by split; [|left]).
  split; [done|right]. eexists. split_and!; [|simpl; right; right; left|done]. done.
Qed.

End frame.
