(* ===== verification/ControlWork.v ===== *)
(** What holds of the work queue: a live lease excludes every other worker, a
    finished operation stays finished, the writes of one deployment run one
    after the other and in order, the work of a crashed worker is taken up
    again, and what a completed write does to its deployment. *)

From S2P Require Import Prelude GoStrings Access Publications ControlModel ControlAccess ControlResources ControlSteps ControlFacts ControlOperations ControlQueue.

Open Scope Z_scope.

Section work.
Context `{MapOrder}.
Implicit Types (s : Store) (v : string) (op : Operation).

(** An event that may come between: nobody's request reissues [v]. *)
Definition spares v (e : Event) : Prop :=
  match e with Worked _ _ => True | Asked c r => v ∉ issues c r end.

Lemma handled_operation s e v :
  spares v e →
  (∃ now w, e = Worked now w ∧
     operation_change s now w v (s_operations s !! v) (s_operations (handled s e) !! v) ∧
     lease_change s now w v (s_leases s !! v) (s_leases (handled s e) !! v)) ∨
  s_operations (handled s e) !! v = s_operations s !! v ∧ s_leases (handled s e) !! v = s_leases s !! v.
Proof.
  intros Hv. unfold handled, handle. destruct e as [now w|c r].
  - destruct (work s now w) as [s'|] eqn:Hw; [|by right]. left. exists now, w.
    split_and!; [done|by apply work_operations|by apply work_leases].
  - right. destruct (serve s c r) as [s'|] eqn:Hs; [|done]. simpl in *.
    destruct (serve_queue _ _ _ _ Hs) as [-> [->|(op & _ & Hi & ->)]]; [done|].
    rewrite lookup_insert_ne; [done|]. intros <-. by apply Hv.
Qed.

(** * Leases exclude *)

(** [worker] runs the operation under a lease that lasts to [until_]. *)
Definition running_under s v op worker (until_ : Time) : Prop :=
  s_operations s !! v = Some op ∧ op_Status op = "running" ∧ s_leases s !! v = Some (mkLease worker until_).

(** An event before the lease runs out in which its holder has no part. *)
Definition others v worker (until_ : Time) (e : Event) : Prop :=
  spares v e ∧ ∀ now w, e = Worked now w → now < until_ ∧ workerOf w ≠ Some worker.

Lemma leaseOf_held s v op worker until_ : running_under s v op worker until_ → leaseOf s v = mkLease worker until_.
Proof. intros (_ & _ & Hl). unfold leaseOf. by rewrite Hl. Qed.

Lemma lease_excludes_event s e v op worker until_ :
  worker ≠ "" → running_under s v op worker until_ → others v worker until_ e →
  running_under (handled s e) v op worker until_.
Proof.
  intros Hw Hr [Hsp He]. pose proof (leaseOf_held _ _ _ _ _ Hr) as Hl. destruct Hr as (Hop & Hst & Hlease).
  destruct (handled_operation s e v Hsp) as [(now & w & -> & Ho & Hc)|[Ho Hc]];
    [|unfold running_under; by rewrite Ho, Hc].
  destruct (He _ _ eq_refl) as [Hnow Hnot].
  assert (∀ worker', workerOf w = Some worker' →
    (le_owner (leaseOf s v) ≠ "" → le_owner (leaseOf s v) ≠ worker' → le_until (leaseOf s v) ≤ now) → False) as Hfree.
  { intros worker' E Hle. rewrite Hl in Hle. simpl in Hle.
    assert (until_ ≤ now) by (apply Hle; [done|congruence]). lia. }
  assert (∀ worker' op', workerOf w = Some worker' → holds s now v worker' op' = true → False) as Hnh.
  { intros worker' op' E Hh. unfold holds in Hh. rewrite Hl in Hh. bool_prop. simpl in *. congruence. }
  assert (s_operations (handled s (Worked now w)) !! v = Some op) as Hop'.
  { rewrite Hop in Ho. clear Hc. inversion Ho; try subst w; try done; exfalso;
      first [by eapply Hnh | by eapply Hfree]. }
  split_and!; [done|done|]. rewrite Hlease in Hc. clear Ho. inversion Hc; try subst w; try done; exfalso;
    try (first [by eapply Hnh | by eapply Hfree]).
  - unfold leasable in *. rewrite Hl in *. simplify_eq. rewrite Hst in *. simpl in *. bool_prop. lia.
  - eapply Hnh; [|eassumption]. naive_solver.
Qed.

(** C14. A lease excludes: while a worker runs an operation under a lease that has
    not run out, whatever the other workers and the users do leaves the
    operation running and the lease with its holder - nobody else starts,
    completes, fails, requeues or is handed it - and the holder can renew it. *)
Theorem operation_lease_excludes s events v op worker until_ now lease :
  worker ≠ "" → running_under s v op worker until_ → Forall (others v worker until_) events →
  running_under (handleAll s events) v op worker until_ ∧
  (now < until_ → 0 < lease →
     ∃ s', HeartbeatOperation (handleAll s events) now v (op_Generation op) worker lease = Ok (s', tt) ∧
       running_under s' v op worker (now + lease)).
Proof.
  intros Hw Hr Hall.
  assert (running_under (handleAll s events) v op worker until_) as Hr'.
  { unfold handleAll. revert s Hr. induction Hall as [|e events He _ IH]; intros s Hr; [done|].
    simpl. apply IH. by apply lease_excludes_event. }
  split; [done|]. intros Hnow Hlease. pose proof (leaseOf_held _ _ _ _ _ Hr') as Hl.
  destruct Hr' as (Hop & Hst & Hle). unfold HeartbeatOperation, holds, terminal.
  rewrite Hop, Hl, Hst, Z.eqb_refl. simpl. rewrite (proj2 (String.eqb_neq _ _) Hw), String.eqb_refl.
  rewrite (proj2 (Z.ltb_lt _ _) Hnow), (proj2 (Z.leb_gt _ _) Hlease). simpl.
  eexists. split; [done|]. unfold running_under, grantLease. state_cbn. by rewrite lookup_insert_eq.
Qed.

(** * Finished operations *)

(** A finished operation is final: once it has succeeded, failed, was
    cancelled or superseded, no worker and no user changes it in any way. *)
Theorem finished_operation_final s events v op :
  s_operations s !! v = Some op → terminal (op_Status op) = true → Forall (spares v) events →
  s_operations (handleAll s events) !! v = Some op.
Proof.
  intros Hop Ht Hall. unfold handleAll. revert s Hop. induction Hall as [|e events He _ IH]; intros s Hop; [done|].
  simpl. apply IH. destruct (handled_operation s e v He) as [(now & w & -> & Ho & _)|[-> _]]; [|done].
  rewrite Hop in Ho. inversion Ho; subst; try done; exfalso; try congruence.
  all: match goal with E : holds _ _ _ _ _ = true |- _ => unfold holds in E; bool_prop end;
    match goal with E : op_Status ?o = _, Ht : terminal (op_Status ?o) = true |- _ => by rewrite E in Ht end.
Qed.

(** * Writes run one after the other *)

Definition is_write op : Prop := op_Kind op = gitWriteKind.

Record queue_wf s : Prop := {
  q_keyed : ∀ k d, s_deployments s !! k = Some d → dp_ID d = k;
  q_positive : ∀ v op, s_operations s !! v = Some op → is_write op → 0 < op_Generation op;
  q_bounded : ∀ v op, s_operations s !! v = Some op → is_write op →
    op_Generation op ≤ dp_Generation (deploymentAt s (op_TargetID op));
  q_distinct : ∀ v1 v2 op1 op2, s_operations s !! v1 = Some op1 → s_operations s !! v2 = Some op2 →
    is_write op1 → is_write op2 → op_TargetID op1 = op_TargetID op2 → op_Generation op1 = op_Generation op2 → v1 = v2;
  q_serial : ∀ v1 v2 op1 op2, s_operations s !! v1 = Some op1 → s_operations s !! v2 = Some op2 →
    is_write op1 → is_write op2 → op_TargetID op1 = op_TargetID op2 →
    op_Status op1 = "running" → op_Status op2 = "running" → v1 = v2;
}.

(** What no call changes of an operation. *)
Definition same_order op op' : Prop :=
  op_Kind op' = op_Kind op ∧ op_TargetID op' = op_TargetID op ∧ op_Generation op' = op_Generation op.

Lemma operation_change_order s now w v op' o :
  operation_change s now w v o (Some op') → ∃ op, o = Some op ∧ same_order op op'.
Proof. intros Hc. inversion Hc; subst; eexists; split; done. Qed.

(** Who runs afterwards ran before, or was just started. *)
Lemma operation_change_running s now w v op op' :
  operation_change s now w v (Some op) (Some op') → op_Status op' = "running" →
  op_Status op = "running" ∨
  (∃ generation worker lease, w = StartW v generation worker lease) ∧
  (op_Kind op = gitWriteKind →
     any_where (λ _, earlierWrite op) (s_operations s) = false ∧
     dp_Generation (deploymentAt s (op_TargetID op)) ≤ op_Generation op).
Proof. intros Hc Hr. inversion Hc; subst; try (by left); try (right; split; [by do 3 eexists|assumption]). all: discriminate Hr. Qed.

(** The identity of a deployment: its key and its generation. *)
Definition deployed s (k : string) : option (string * Z) :=
  (λ d, (dp_ID d, dp_Generation d)) <$> s_deployments s !! k.

Lemma followWrite_deployed s now v generation op state revision k :
  (∀ k d, s_deployments s !! k = Some d → dp_ID d = k) → 0 < generation →
  deployed (followWrite now v generation op state revision s) k = deployed s k.
Proof.
  intros Hk Hpos. unfold followWrite. destruct (negb _ || negb _) eqn:Hg; [done|]. bool_prop.
  unfold deploymentAt in *. destruct (s_deployments s !! op_TargetID op) as [d|] eqn:Hd; simpl in *; [|lia].
  set (d3 := dp_set_UpdatedAt _ _).
  assert (dp_ID d3 = dp_ID d ∧ dp_Generation d3 = dp_Generation d) as [E1 E2].
  { unfold d3. by destruct (String.eqb (publicationMode s v) ModeDirect). }
  unfold deployed. match goal with |- context [s_set_deployments ?m ?t] =>
    change (s_deployments (s_set_deployments m t)) with m end.
  match goal with |- context [<[?i := d3]> _] => assert (i = op_TargetID op) as -> end.
  { rewrite <- (Hk _ _ Hd). by rewrite <- E1. }
  destruct (decide (op_TargetID op = k)) as [<-|Hne].
  - rewrite lookup_insert_eq, Hd. cbn [fmap option_fmap option_map]. by rewrite E1, E2.
  - by rewrite lookup_insert_ne.
Qed.

Lemma work_deployed s now w s' k : queue_wf s → work s now w = Some s' → deployed s' k = deployed s k.
Proof.
  intros Hwf Hw. work_cases w Hw; try (by work_field).
  destruct (String.eqb (op_Kind o) gitWriteKind) eqn:Hk.
  - unfold deployed at 1. unfold dropLease, count_audit. state_cbn.
    match goal with |- context [followWrite ?now ?v ?g ?op ?st ?rev ?s1] =>
      change (s_deployments (followWrite now v g op st rev s1)) with (s_deployments (followWrite now v g op st rev s1));
      pose proof (followWrite_deployed s1 now v g op st rev k) as Hf end.
    unfold deployed in Hf at 1. unfold putOperation in *. rewrite Hf; [done| |].
    + apply (q_keyed _ Hwf).
    + bool_prop. subst. by eapply (q_positive _ Hwf).
  - unfold followWrite. rewrite Hk. simpl. by work_field.
Qed.

Lemma deployed_generation s s' k :
  deployed s' k = deployed s k → dp_Generation (deploymentAt s' k) = dp_Generation (deploymentAt s k).
Proof.
  unfold deployed, deploymentAt. destruct (s_deployments s' !! k), (s_deployments s !! k); simpl; congruence.
Qed.

(** A write that starts, or runs on, is the only one of its target. *)
Lemma serial_started s now w s' v1 v2 op1 op2 op1' :
  queue_wf s → work s now w = Some s' → v1 ≠ v2 →
  s_operations s !! v1 = Some op1 → s_operations s !! v2 = Some op2 → is_write op1 → is_write op2 →
  op_TargetID op1 = op_TargetID op2 →
  operation_change s now w v1 (Some op1) (Some op1') → op_Status op1' = "running" → op_Status op2 = "running" → False.
Proof.
  intros Hwf Hw Hne H1 H2 K1 K2 Ht Hc R1 R2.
  destruct (operation_change_running _ _ _ _ _ _ Hc R1) as [R|[_ Hs]]; [by apply Hne, (q_serial _ Hwf _ _ _ _ H1 H2)|].
  destruct (Hs K1) as [He Hle]. pose proof (q_bounded _ Hwf _ _ H2 K2) as Hb. rewrite <- Ht in Hb.
  assert (op_Generation op1 ≠ op_Generation op2) as Hg
    by (intros E; by apply Hne, (q_distinct _ Hwf _ _ _ _ H1 H2)).
  pose proof (proj1 (any_where_false _ _) He _ _ H2) as Hf. unfold earlierWrite in Hf.
  rewrite Ht, String.eqb_refl, R2 in Hf. simpl in Hf. rewrite andb_true_r in Hf. lia.
Qed.

Lemma queue_wf_work s now w s' : queue_wf s → work s now w = Some s' → queue_wf s'.
Proof.
  intros Hwf Hw. pose proof (work_operations _ _ _ _ Hw) as Hop.
  assert (∀ v op', s_operations s' !! v = Some op' → ∃ op, s_operations s !! v = Some op ∧ same_order op op' ∧
    operation_change s now w v (Some op) (Some op')) as Hold.
  { intros v op' Hv. specialize (Hop v). rewrite Hv in Hop.
    destruct (operation_change_order _ _ _ _ _ _ Hop) as (op & Ho & Hs). exists op. rewrite Ho in Hop. done. }
  unfold is_write in *. split.
  - intros k d Hk. pose proof (work_deployed _ _ _ _ k Hwf Hw) as Hd. unfold deployed in Hd. rewrite Hk in Hd.
    destruct (s_deployments s !! k) as [d0|] eqn:E; [|done]. injection Hd as -> _. by apply (q_keyed _ Hwf).
  - intros v op' Hv K. destruct (Hold _ _ Hv) as (op & Ho & (E1 & _ & ->) & _).
    apply (q_positive _ Hwf _ _ Ho). unfold is_write in *. congruence.
  - intros v op' Hv K. destruct (Hold _ _ Hv) as (op & Ho & (E1 & -> & ->) & _).
    rewrite (deployed_generation s) by by apply (work_deployed _ _ _ _ _ Hwf Hw).
    apply (q_bounded _ Hwf _ _ Ho). unfold is_write in *. congruence.
  - intros v1 v2 op1' op2' H1 H2 K1 K2.
    destruct (Hold _ _ H1) as (op1 & O1 & (A1 & -> & ->) & _), (Hold _ _ H2) as (op2 & O2 & (A2 & -> & ->) & _).
    apply (q_distinct _ Hwf _ _ _ _ O1 O2); unfold is_write in *; congruence.
  - intros v1 v2 op1' op2' H1 H2 K1 K2 Ht R1 R2. destruct (decide (v1 = v2)) as [|Hne]; [done|exfalso].
    destruct (Hold _ _ H1) as (op1 & O1 & (A1 & B1 & C1) & D1), (Hold _ _ H2) as (op2 & O2 & (A2 & B2 & C2) & D2).
    assert (is_write op1 ∧ is_write op2) as [W1 W2] by (unfold is_write in *; split; congruence).
    rewrite B1, B2 in Ht.
    destruct (operation_change_running _ _ _ _ _ _ D2 R2) as [Q2|[(g2 & x2 & l2 & E2) _]].
    + by eapply (serial_started s now w s' v1 v2).
    + destruct (operation_change_running _ _ _ _ _ _ D1 R1) as [Q1|[(g1 & x1 & l1 & E1) _]].
      * by eapply (serial_started s now w s' v2 v1).
      * apply Hne. congruence.
Qed.


(** * A crashed worker's operation *)

(** Everything a worker may be given was announced. *)
Definition announced s (now : Time) : Prop :=
  ∀ v op, s_operations s !! v = Some op → leasable s now v op = true → is_Some (s_outbox s !! v).

Lemma leaseEach_complete now worker limit until_ ops : ∀ s out,
  NoDup ops.*1 → Z.of_nat (length out + length ops) <= limit →
  (∀ v op, (v, op) ∈ ops → leasable s now v op = true → is_Some (s_outbox s !! v)) →
  ∃ s' out', leaseEach now worker limit until_ ops s out = Some (s', out') ∧ out ⊆ out' ∧
    ∀ v op event, (v, op) ∈ ops → leasable s now v op = true → s_outbox s !! v = Some event →
      ob_message event ∈ out' ∧ s_leases s' !! v = Some (mkLease worker until_).
Proof.
  induction ops as [|[k o] ops IH]; intros s out Hd Hlen Hann; simpl.
  - exists s, out. split_and!; [done|done|]. intros v op event Hin. by apply elem_of_nil in Hin.
  - apply NoDup_cons in Hd as [Hk Hd]. cbn [length] in Hlen.
    assert (∀ v op, (v, op) ∈ ops → v ≠ k) as Hne.
    { intros v op Hin ->. apply Hk, list_elem_of_fmap. by exists (k, op). }
    rewrite (proj2 (Z.ltb_lt (Z.of_nat (length out)) limit)) by lia. rewrite andb_true_r.
    destruct (leasable s now k o) eqn:Hlk.
    + destruct (Hann k o) as [event He]; [by left|done|]. rewrite He.
      set (s1 := grantLease k worker until_ s).
      assert (∀ v op, (v, op) ∈ ops → leasable s1 now v op = leasable s now v op) as Hsame.
      { intros v op Hin. unfold leasable. rewrite (leaseOf_lookup s s1); [done|].
        unfold s1, grantLease. state_cbn. rewrite lookup_insert_ne; [done|]. intros <-. by eapply Hne. }
      destruct (IH s1 (out ++ [ob_message event])%list Hd) as (s' & out' & Hl & Hsub & Hall).
      * rewrite length_app. simpl. lia.
      * intros v op Hin. rewrite Hsame by done. apply Hann. by right.
      * exists s', out'. split_and!; [done|set_solver|]. intros v op ev [[= -> ->]|Hin]%elem_of_cons Hlv Hev.
        -- split; [apply Hsub; rewrite He in Hev; injection Hev as ->; set_solver|].
           destruct (leaseEach_frame _ _ _ _ _ _ _ _ _ Hd Hl) as (ls & -> & Hls). state_cbn.
           destruct (Hls k) as [->|(op' & Hin & _)]; [|by destruct (Hne _ _ Hin)].
           unfold s1, grantLease. state_cbn. by rewrite lookup_insert_eq.
        -- eapply Hall; [done|by rewrite Hsame|done].
    + destruct (IH s out Hd) as (s' & out' & Hl & Hsub & Hall); [lia|intros; eapply Hann; [by right|done]|].
      exists s', out'. split_and!; [done|done|]. intros v op ev [[= -> ->]|Hin]%elem_of_cons Hlv Hev; [congruence|].
      by eapply Hall.
Qed.

(** What starting a running operation that was handed over comes to. *)
Lemma start_resumes s now v op worker lease :
  s_operations s !! v = Some op → op_Status op = "running" → le_owner (leaseOf s v) = worker →
  worker ≠ "" → 0 < lease →
  ∃ s' op' started,
    StartOperation s now v (op_Generation op) worker lease = Ok (s', (op', started)) ∧
    (started = true ∧ running_under s' v op' worker (now + lease) ∨
     started = false ∧ is_write op ∧
       (s_operations s' !! v = Some op' ∧ op_Status op' = "superseded" ∧
          op_Generation op < dp_Generation (deploymentAt s (op_TargetID op)) ∨
        any_where (λ _, earlierWrite op) (s_operations s) = true ∧ s_leases s' !! v = None)).
Proof.
  intros Hop Hst Hl Hw Hlease. unfold StartOperation.
  rewrite (proj2 (String.eqb_neq _ _) Hw), (proj2 (Z.leb_gt _ _) Hlease), Hop, Z.eqb_refl, Hst, Hl.
  rewrite String.eqb_refl. simpl. rewrite andb_false_r. simpl. unfold is_write.
  destruct (String.eqb_spec (op_Kind op) gitWriteKind) as [Hk|Hk]; simpl.
  2:{ do 3 eexists. split; [done|]. left. split; [done|]. unfold running_under, putOperation, grantLease. state_cbn.
      by rewrite !lookup_insert_eq. }
  destruct (any_where _ _) eqn:He.
  { do 3 eexists. split; [done|]. right. split_and!; [done|done|]. right. split; [done|]. unfold dropLease. state_cbn.
    by rewrite lookup_delete_eq. }
  destruct (Z.ltb_spec (op_Generation op) (dp_Generation (deploymentAt s (op_TargetID op)))) as [Hg|Hg].
  - do 3 eexists. split; [done|]. right. split_and!; [done|done|]. left. unfold dropLease, putOperation. state_cbn.
    by rewrite lookup_insert_eq.
  - do 3 eexists. split; [done|]. left. split; [done|]. unfold running_under, putOperation, grantLease. state_cbn.
    by rewrite !lookup_insert_eq.
Qed.

(** C37. The work of a worker that crashed is taken up again: once its lease has
    run out, a poll by another worker that asks for enough gives it the
    operation and the lease, and when it then starts the operation, the
    operation runs again under its own lease - unless a newer release has made
    it obsolete, when it is closed as superseded, or an earlier write of the
    same deployment still runs, when the lease is given back.  An announced
    queue never makes the poll panic. *)
Theorem crashed_work_resumed s now v op worker limit lease event :
  announced s now → s_operations s !! v = Some op → op_Status op = "running" →
  le_until (leaseOf s v) ≤ now → s_outbox s !! v = Some event →
  worker ≠ "" → 0 < lease → Z.of_nat (size (s_operations s)) ≤ limit →
  ∃ s1 out, LeasePendingOperations s now worker limit lease = Some (s1, out) ∧ ob_message event ∈ out ∧
    running_under s1 v op worker (now + lease) ∧
    ∀ now', ∃ s2 op' started,
      StartOperation s1 now' v (op_Generation op) worker lease = Ok (s2, (op', started)) ∧
      (started = true ∧ running_under s2 v op' worker (now' + lease) ∨
       started = false ∧ is_write op ∧
         (s_operations s2 !! v = Some op' ∧ op_Status op' = "superseded" ∧
            op_Generation op < dp_Generation (deploymentAt s (op_TargetID op)) ∨
          any_where (λ _, earlierWrite op) (s_operations s) = true ∧ s_leases s2 !! v = None)).
Proof.
  intros Hann Hop Hst Hexp Hev Hw Hlease Hlim.
  assert (leasable s now v op = true) as Hlk.
  { unfold leasable. rewrite Hst. simpl. rewrite (proj2 (Z.ltb_ge _ _) Hexp). done. }
  destruct (leaseEach_complete now worker limit (now + lease) (range 0 (s_operations s)) s []) as (s1 & out & Hl & _ & Hall).
  - apply range_NoDup.
  - rewrite (Permutation_length (range_perm _ _)), length_map_to_list. done.
  - intros k op' Hin. apply elem_of_range in Hin. by apply Hann.
  - destruct (Hall v op event) as [Hin Hl1]; [by apply elem_of_range|done|done|].
    pose proof (LeasePendingOperations_frame s now worker limit lease s1 out Hl) as (ls & Es1 & _).
    assert (s_operations s1 = s_operations s ∧ s_deployments s1 = s_deployments s) as [Eo Ed] by by rewrite Es1.
    exists s1, out. split; [exact Hl|]. split; [done|]. split; [by split_and!; [rewrite Eo|..]|].
    intros now'. assert (deploymentAt s = deploymentAt s1) as -> by (unfold deploymentAt; by rewrite Ed).
    rewrite <- Eo. apply start_resumes; [by rewrite Eo|done| |done..]. unfold leaseOf. by rewrite Hl1.
Qed.

(** * Completion *)

(** What a write does to the deployment it was made for. *)
Definition follows s v (generation : Z) op (result : GitPublicationResult) (d d' : Deployment) : Prop :=
  if decide (is_write op ∧ dp_Generation d = generation) then
    dp_ID d' = dp_ID d ∧ dp_Generation d' = dp_Generation d ∧
    dp_DesiredRevision d' =
      (if String.eqb (publicationMode s v) ModeDirect then gw_Revision result else dp_DesiredRevision d)
  else d' = d.

Lemma followWrite_follows s now v generation op state result k :
  (∀ k d, s_deployments s !! k = Some d → dp_ID d = k) → (is_write op → 0 < generation) →
  let s' := followWrite now v generation op state (gw_Revision result) s in
  (k ≠ op_TargetID op → s_deployments s' !! k = s_deployments s !! k) ∧
  ∀ d, s_deployments s !! op_TargetID op = Some d →
    ∃ d', s_deployments s' !! op_TargetID op = Some d' ∧ follows s v generation op result d d'.
Proof.
  intros Hk Hpos s'. unfold s', followWrite, follows, is_write.
  destruct (String.eqb_spec (op_Kind op) gitWriteKind) as [Hw|Hw]; simpl.
  2:{ split; [done|]. intros d Hd. exists d. split; [done|]. destruct (decide _) as [[? _]|]; done. }
  unfold deploymentAt. destruct (s_deployments s !! op_TargetID op) as [d|] eqn:Hd.
  2:{ specialize (Hpos Hw). simpl. destruct generation; [lia|done|done]. }
  simpl.
  destruct (Z.eqb_spec (dp_Generation d) generation) as [Hg|Hg]; simpl.
  2:{ split; [done|]. intros d0 [= <-]. exists d. split; [done|]. destruct (decide _) as [[_ ?]|]; done. }
  pose proof (Hk _ _ Hd) as Hid.
  destruct (String.eqb (publicationMode s v) ModeDirect), (deletes s (op_ID op) _);
    try destruct (stopPlacement_frame now d s) as [ps ->]; state_cbn;
    rewrite <- Hid; split; try (intros Hne; by rewrite lookup_insert_ne);
    intros d0 [= <-]; eexists; rewrite lookup_insert_eq; (split; [done|]);
    destruct (decide _) as [_|Hn]; (done || by destruct Hn).
Qed.

(** Completing a write does what it means to.  It succeeds only for the worker
    that holds the running operation, at its generation, or as a repetition of
    the very result that is recorded, which changes nothing.  It closes the
    operation and drops the lease; no other deployment changes; and its own
    deployment follows only if it is still of that generation, taking the
    desired revision of a direct commit and keeping its own when the write is
    published through a pull request. *)
Theorem completion_contract s now v generation worker result s' :
  queue_wf s → CompleteGitOperation s now v generation worker result = Ok (s', tt) →
  ∃ op, s_operations s !! v = Some op ∧
    (op_Status op = "succeeded" ∧ s' = s ∧
       publicationResultMatchesOperation result (operationWithPublicationLocked s op) = true ∨
     op_Generation op = generation ∧ holds s now v worker op = true ∧
       (∃ op', s_operations s' !! v = Some op' ∧ op_Status op' = "succeeded" ∧
          op_GitRevision op' = gw_Revision result) ∧
       s_leases s' !! v = None ∧
       (∀ k, k ≠ op_TargetID op → s_deployments s' !! k = s_deployments s !! k) ∧
       ∀ d, s_deployments s !! op_TargetID op = Some d →
         ∃ d', s_deployments s' !! op_TargetID op = Some d' ∧ follows s v generation op result d d').
Proof.
  intros Hwf Hc. unfold CompleteGitOperation in Hc. split_ok Hc; bool_prop; eexists; (split; [done|]).
  - by left.
  - right. match goal with E : op_Generation o = _ |- _ => rename E into Hg end.
    match goal with E : isGitWrite o = true |- _ => clear E end.
    match goal with E : acceptResult _ _ _ = Ok (_, ?st, _) |- _ => rename st into state end.
    set (closed := putOperation v _ s).
    assert (∀ k, s_deployments closed !! k = s_deployments s !! k) as Hd by done.
    destruct (followWrite_frame now v generation o state (gw_Revision result) closed) as (ps & ds & Ef).
    split_and!; [done|done| | | |].
    + rewrite Ef. unfold closed, dropLease, count_audit, putOperation. state_cbn. rewrite lookup_insert_eq. by eexists.
    + unfold dropLease. state_cbn. apply lookup_delete_eq.
    + intros k Hk. apply (followWrite_follows closed now v generation o state result k); [apply (q_keyed _ Hwf)| |done].
      intros Hw. rewrite <- Hg. by eapply (q_positive _ Hwf).
    + intros d Hdd. apply (followWrite_follows closed now v generation o state result v); [apply (q_keyed _ Hwf)| |done].
      intros Hw. rewrite <- Hg. by eapply (q_positive _ Hwf).
Qed.

(** * The outbox *)

Lemma size_filter_where {A} (f : string → A → bool) (m : gmap string A) :
  size (filter (λ kv, f (fst kv) (snd kv) = true) m) =
  length (List.filter (λ kv, f (fst kv) (snd kv)) (map_to_list m)).
Proof.
  rewrite map_filter_alt, <- length_map_to_list, map_to_list_to_map.
  - induction (map_to_list m) as [|[k a] l IH]; [done|]. rewrite filter_cons. simpl.
    destruct (f k a) eqn:Hf; [rewrite decide_True by done|rewrite decide_False by (simpl; congruence)]; simpl; by rewrite IH.
  - pose proof (NoDup_fst_map_to_list m) as Hd. induction (map_to_list m) as [|kv l IH]; [done|].
    apply NoDup_cons in Hd as [Hk Hd]. rewrite filter_cons. destruct (decide _); [|by apply IH].
    apply NoDup_cons. split; [|by apply IH]. intros (y & E & [_ Hy]%list_elem_of_filter)%list_elem_of_fmap.
    apply Hk, list_elem_of_fmap. by exists y.
Qed.

(** Losing the dataset of the message queue loses no work: when the dataset
    has a new identity, every event whose operation is queued or running is
    pending again, and exactly the published ones of those are counted; no
    other event changes, nor any other part of the store; and asking again
    with the same identity changes nothing. *)
Theorem outbox_replayed s datasetID s' replayed :
  ReconcileOutboxDataset s datasetID = Some (s', replayed) → s_outboxDatasetID s ≠ datasetID →
  (∀ v event op, s_outbox s' !! v = Some event → s_operations s !! v = Some op → unfinished op = true →
     ob_published event = false) ∧
  (∀ v, s_outbox s' !! v = (λ e, if lostEvent s v e then ob_set_published false e else e) <$> s_outbox s !! v) ∧
  replayed = Z.of_nat (size (filter (λ kv, lostEvent s (fst kv) (snd kv) = true) (s_outbox s))) ∧
  s_operations s' = s_operations s ∧ s_leases s' = s_leases s ∧ s_deployments s' = s_deployments s ∧
  ReconcileOutboxDataset s' datasetID = Some (s', 0).
Proof.
  unfold ReconcileOutboxDataset. intros Hr Hne. destruct (negb _) eqn:Hlen; [done|].
  rewrite (proj2 (String.eqb_neq _ _) Hne) in Hr. injection Hr as <- <-.
  assert (∀ v, update_where (lostEvent s) (ob_set_published false) (s_outbox s) !! v =
    (λ e, if lostEvent s v e then ob_set_published false e else e) <$> s_outbox s !! v) as Ho
    by (intros v; by rewrite lookup_update_where).
  split_and!; try done.
  - intros v event op. state_cbn. rewrite Ho. intros (e & Hev & ->)%fmap_Some Hop Hun.
    unfold lostEvent. rewrite Hop, Hun, andb_true_r. by destruct (ob_published e) eqn:Hpub.
  - f_equal. symmetry. apply (size_filter_where (λ v e, lostEvent s v e)).
  - state_cbn. by rewrite String.eqb_refl.
Qed.

End work.
