(* ===== verification/ControlExamples.v ===== *)
(** Concrete lives of the control-plane store and of its work queue: the theorems
    of ControlSafety, ControlTenancy, ControlSessions and ControlWork are applied
    to them, so that their hypotheses are seen to hold together. *)

From S2P Require Import Prelude Regexp GoStrings Digest Access ControlModel ControlAccess ControlIdentity ControlAutomation ControlResources ControlGrants ControlSteps ControlFacts ControlInvariants ControlSafety ControlTenancy ControlSessions.
From stdpp Require Import pretty.

Open Scope Z_scope.

#[local] Existing Instance forward_order.

(** The [n]th call, an hour after the one before, draws identifiers of its own. *)
Definition call (n : nat) : Call :=
  mkCall (Z.of_nat n * hour) (λ i, "id-" +:+ pretty n +:+ "-" +:+ pretty i).

Definition bytes32 (b : Z) : list Z := replicate 32 b.

Definition root : User :=
  mkUser "root" "root@kuberploy.io" "Root" "platform-admin" "kuberploy:bootstrap" "root" 1 0.

Definition bootstrapR : Request := BootstrapAdminR root "root-hash" (bytes32 1) (100 * hour).

(** The administrator, a team and its project. *)
Definition founding : list (Call * Request) :=
  [(call 1, bootstrapR);
   (call 2, CreateTeamR "root" "k2" "fp2" "Core" "core");
   (call 3, CreateProjectR "root" "k3" "fp3" "Shop" "shop" "id-2-0")].

(** A developer who accepts an invitation. *)
Definition joining : list (Call * Request) :=
  [(call 4, CreateUserInvitationR "root" "dev@kuberploy.io" (bytes32 4) (5 * hour + 1));
   (call 5, AcceptUserInvitationR (bytes32 4) "Dev" "dev-hash" (bytes32 5) [] (100 * hour))].

Definition dev : string := "id-5-0".

(** An environment whose namespace the developer may write to. *)
Definition deploying : list (Call * Request) :=
  [(call 6, CreateEnvironmentR "root" "k6" "fp6" "id-3-0" "Production" "prod" "development");
   (call 7, CreateProjectAccessGrantR "root" "k7" "fp7"
      (mkGrantInput "id-3-0" dev "" RoleDeveloper ScopeNamespace "kp-shop-prod" []));
   (call 8, CreateApplicationR "root" "k8" "fp8" "id-3-0" "" "API" "api" "oci")].

(** A service account whose token is revoked. *)
Definition automating : list (Call * Request) :=
  [(call 9, CreateServiceAccountR "root" "k9" "fp9" "id-3-0" "ci" RoleDeveloper);
   (call 10, CreateServiceAccountTokenR "root" "k10" "fp10" "id-9-0" "deploy" "kp_sa_12345678" (bytes32 10)
      ["app.read"] (100 * hour));
   (call 11, RevokeServiceAccountTokenR "root" "id-9-0" "id-10-0" "k11" "fp11")].

Definition lived : list (Call * Request) := founding ++ joining ++ deploying ++ automating.

Definition shop : gset string * Store := after lived.

Lemma lived_runs : present (run ∅ New lived) = true.
Proof. vm_compute. reflexivity. Qed.


Definition isOk {E A} (m : res E A) : bool := match m with Ok _ => true | Err _ => false end.

Lemma lived_history : history ∅ New (fst shop) (snd shop).
Proof. exact (after_history lived lived_runs). Qed.

(** A further call that [serve] answers. *)
Definition next (s : Store) (c : Call) (r : Request) : Store :=
  match serve s c r with Ok s' => s' | Err _ => s end.

Lemma next_served s c r : isOk (serve s c r) = true → serve s c r = Ok (next s c r).
Proof. unfold next. by destruct (serve s c r). Qed.


Lemma bootstrap_admin_only_witness :
  isAdminLocked (snd (after [(call 1, bootstrapR)])) dev = true ↔ dev = u_ID root.
Proof.
  eapply (bootstrap_admin_only ∅ New (call 1) root "root-hash" (bytes32 1) (100 * hour)).
  - constructor.
  - apply (bool_decide_unpack _). vm_compute. exact I.
  - vm_compute. discriminate.
  - reflexivity.
  - constructor.
Defined.

Definition mayWrite : AccessTarget := target "environment" "id-6-0".

Lemma authorize_contract_witness :
  authorizeLocked (snd shop) dev PermissionGrantsManage mayWrite = Err ErrForbidden ↔
  visible (snd shop) dev mayWrite ∧ ¬ entitled (snd shop) dev PermissionGrantsManage mayWrite.
Proof. apply (authorize_contract (fst shop)), lived_history. Defined.

Lemma authorize_contract_sample :
  map (λ p, authorizeLocked (snd shop) dev p mayWrite) [PermissionResourcesRead; PermissionGrantsManage] =
    [Ok tt; Err ErrForbidden] ∧
  authorizeLocked (snd shop) dev PermissionResourcesRead (target "project" "id-3-1") = Err ErrNotFound.
Proof. split; vm_compute; reflexivity. Qed.

(** The developer opens a team of its own. *)
Definition foundsTeam : Request := CreateTeamR dev "k12" "fp12" "Dev" "dev".


(** The administrator deletes the environment and creates it again. *)
Definition deletes : Request := DeleteEnvironmentR "root" "id-6-0" "Production" "k12" "fp12".
Definition recreates : Request :=
  CreateEnvironmentR "root" "k13" "fp13" "id-3-0" "Production, again" "prod" "protected".

Definition emptied : Store := next (snd shop) (call 12) deletes.
Definition recreated : Store := next emptied (call 13) recreates.


(** The administrator deletes the developer. *)
Definition deletesDev : Request := DeleteUserR "root" dev " DEV@kuberploy.io" "k12" "fp12".

Lemma deleted_user_locked_out_witness :
  isAdminLocked (next (snd shop) (call 12) deletesDev) dev = false.
Proof.
  eapply (deleted_user_locked_out (fst shop) (snd shop) (call 12) "root" dev " DEV@kuberploy.io" "k12" "fp12").
  - apply lived_history.
  - apply (bool_decide_unpack _). vm_compute. exact I.
  - exists (default zeroUser (s_users (snd shop) !! dev)). vm_compute. reflexivity.
  - vm_compute. reflexivity.
  - constructor.
Defined.

Lemma revoked_token_final_witness :
  s_serviceAccountTokens (snd shop) !! "id-10-0" ≠ None ∧
  ∀ hash now s principal, ServiceAccountByToken (snd shop) hash now = Ok (s, principal) →
    pr_TokenID principal ≠ "id-10-0".
Proof.
  split; [vm_compute; discriminate|].
  eapply (revoked_token_final (fst shop) (snd shop) "id-10-0"
    (default zeroServiceAccountToken (s_serviceAccountTokens (snd shop) !! "id-10-0"))).
  - apply lived_history.
  - vm_compute. reflexivity.
  - left. exists (11 * hour). vm_compute. reflexivity.
  - constructor.
Defined.

(** The developer is added to the team. *)
Definition addsDev : Request := AddTeamMemberR "root" "id-2-0" "k12" "fp12" dev "developer".

#[local] Instance binding_eq_dec : EqDecision AccessBinding.
Proof. solve_decision. Defined.

Lemma gained_binding_signs_out_witness :
  signed_out (next (snd shop) (call 12) addsDev) dev ∨ ∃ key fp Name Slug, addsDev = CreateTeamR dev key fp Name Slug.
Proof.
  eapply (gained_binding_signs_out (fst shop) (snd shop) (call 12) addsDev _ dev
    (default zeroUser (s_users (snd shop) !! dev))
    (List.last (bindingsLocked (next (snd shop) (call 12) addsDev) dev) (grantBinding (mkGrant "" "" "" "" "" "" [] "" "" 0)))).
  - apply lived_history.
  - apply (bool_decide_unpack _). vm_compute. exact I.
  - apply next_served. vm_compute. reflexivity.
  - vm_compute. reflexivity.
  - vm_compute. discriminate.
  - apply (bool_decide_unpack _). vm_compute. exact I.
  - apply (bool_decide_unpack _). vm_compute. exact I.
Defined.

(** The developer's team is asked for twice. *)
Lemma performed_once_witness :
  "fp12" = "fp12" ∧ next (next (snd shop) (call 12) foundsTeam) (call 13) foundsTeam = next (snd shop) (call 12) foundsTeam.
Proof.
  eapply (performed_once (fst shop) (snd shop) (call 12) foundsTeam _ _ _ (ik dev "teams.create" "k12") "fp12"
    (call 13) foundsTeam).
  - apply lived_history.
  - apply (bool_decide_unpack _). vm_compute. exact I.
  - apply next_served. vm_compute. reflexivity.
  - reflexivity.
  - intros He. apply (f_equal (λ s, size (s_teams s))) in He. vm_compute in He. discriminate He.
  - constructor.
  - reflexivity.
  - apply next_served. vm_compute. reflexivity.
Defined.

(** * The work queue *)

From S2P Require Import Publications ControlOperations ControlQueue ControlWork.

#[local] Existing Instance forward_order.

Definition write (v : string) (generation : Z) (status : string) : Operation :=
  mkOperation v gitWriteKind status "deployment" "web" "request" generation [] "" None None hour hour None.

Definition event (v : string) (generation : Z) : outboxRecord :=
  mkOutbox (mkMessage v gitWriteKind "prod" generation "request" "") true 0.

Definition deployed_web : Deployment :=
  mkDeployment "web" "prod" "api" "registry/api@sha256:0" 1 80 "pending-git" "first" 1 "" "" hour hour.

Definition deployments : gmap string Deployment := {["web" := deployed_web]}.
Definition operations : gmap string Operation := {["first" := write "first" 1 "queued"]}.

Definition accepted : Store :=
  New |> s_set_deployments deployments
      |> s_set_operations operations
      |> s_set_outbox {["first" := event "first" 1]}.

(** Ada starts the write at two o'clock, for ten minutes. *)
Definition lease : Duration := 10 * minute.
Definition started : Store := handled accepted (Worked (2 * hour) (StartW "first" 1 "ada" lease)).

Definition running : Operation := default zeroOperation (s_operations started !! "first").

Definition commit : GitPublicationResult := mkResultOf ModeDirect "c0ffee" "" 0 "" "".

Definition completed : Store :=
  handled started (Worked (2 * hour + minute) (CompleteW "first" 1 "ada" commit)).

Lemma completed_sample :
  map (λ s, (op_Status (default zeroOperation (s_operations s !! "first")),
             dp_State (deploymentAt s "web"), dp_DesiredRevision (deploymentAt s "web")))
      [accepted; started; completed] =
    [("queued", "pending-git", ""); ("running", "pending-git", ""); ("succeeded", "git-committed", "c0ffee")].
Proof. vm_compute. reflexivity. Qed.

Lemma started_running : running_under started "first" running "ada" (2 * hour + lease).
Proof. split_and!; vm_compute; reflexivity. Qed.

(** Bob polls and tries to start it, and somebody founds the platform. *)
Definition meanwhile : list Event :=
  [Worked (2 * hour + minute) (LeaseW "bob" 10 lease);
   Worked (2 * hour + 2 * minute) (StartW "first" 1 "bob" lease);
   Asked (mkCall (2 * hour) (λ _, "grant"))
     (BootstrapAdminR (mkUser "root" "root@kuberploy.io" "Root" "platform-admin" "kuberploy:bootstrap" "root" 1 0)
        "hash" [] (3 * hour))].

Lemma operation_lease_excludes_witness : running_under (handleAll started meanwhile) "first" running "ada" (2 * hour + lease).
Proof.
  apply (operation_lease_excludes started meanwhile "first" running "ada" (2 * hour + lease) 0 0).
  - discriminate.
  - apply started_running.
  - apply Forall_cons; split; [|apply Forall_cons; split; [|apply Forall_cons; split; [|constructor]]].
    + split; [exact I|]. intros now w [= <- <-]. split; [reflexivity|discriminate].
    + split; [exact I|]. intros now w [= <- <-]. split; [reflexivity|discriminate].
    + split; [|discriminate]. apply (bool_decide_unpack _). vm_compute. exact I.
Defined.

Lemma finished_operation_final_witness :
  s_operations (handleAll completed meanwhile) !! "first" =
    Some (default zeroOperation (s_operations completed !! "first")).
Proof.
  apply (finished_operation_final completed meanwhile "first" (default zeroOperation (s_operations completed !! "first"))).
  - vm_compute. reflexivity.
  - vm_compute. reflexivity.
  - apply Forall_cons; split; [exact I|apply Forall_cons; split; [exact I|apply Forall_cons; split; [|constructor]]].
    apply (bool_decide_unpack _). vm_compute. exact I.
Defined.

Lemma accepted_wf : queue_wf accepted.
Proof.
  assert (∀ v op, s_operations accepted !! v = Some op → v = "first" ∧ op = write "first" 1 "queued") as Hop.
  { intros v op Hv. change (operations !! v = Some op) in Hv. unfold operations in Hv. apply lookup_singleton_Some in Hv as [<- <-]. done. }
  split.
  - intros k d Hk. change (deployments !! k = Some d) in Hk. unfold deployments in Hk. apply lookup_singleton_Some in Hk as [<- <-]. done.
  - intros v op [-> ->]%Hop _. done.
  - intros v op [-> ->]%Hop _. by vm_compute.
  - intros v1 v2 op1 op2 [-> _]%Hop [-> _]%Hop. done.
  - intros v1 v2 op1 op2 [-> _]%Hop [-> _]%Hop. done.
Qed.


(** Ada crashed; an hour later Bob polls. *)
Lemma crashed_work_resumed_witness :
  ∃ s1 out, LeasePendingOperations started (3 * hour) "bob" 10 lease = Some (s1, out) ∧
    ob_message (event "first" 1) ∈ out.
Proof.
  destruct (crashed_work_resumed started (3 * hour) "first" running "bob" 10 lease (event "first" 1))
    as (s1 & out & Hl & Hin & _).
  - intros v op Hop _. exists (event "first" 1).
    assert (s_operations started !! v = <["first" := running]> operations !! v) as E by reflexivity.
    rewrite E in Hop. unfold operations in Hop. apply lookup_insert_Some in Hop as [[<- _]|[Hne Hop]]; [vm_compute; reflexivity|].
    apply lookup_singleton_Some in Hop as [<- _]. destruct Hne. reflexivity.
  - vm_compute. reflexivity.
  - vm_compute. reflexivity.
  - vm_compute. discriminate.
  - vm_compute. reflexivity.
  - discriminate.
  - reflexivity.
  - vm_compute. discriminate.
  - exists s1, out. split; [exact Hl|exact Hin].
Defined.

Lemma started_wf : queue_wf started.
Proof.
  apply (queue_wf_work accepted (2 * hour) (StartW "first" 1 "ada" lease)); [apply accepted_wf|].
  vm_compute. reflexivity.
Qed.

Lemma completion_contract_witness :
  ∃ op, s_operations started !! "first" = Some op ∧
    (op_Status op = "succeeded" ∧ completed = started ∧
       publicationResultMatchesOperation commit (operationWithPublicationLocked started op) = true ∨
     op_Generation op = 1 ∧ holds started (2 * hour + minute) "first" "ada" op = true ∧
       (∃ op', s_operations completed !! "first" = Some op' ∧ op_Status op' = "succeeded" ∧
          op_GitRevision op' = "c0ffee") ∧
       s_leases completed !! "first" = None ∧
       (∀ k, k ≠ op_TargetID op → s_deployments completed !! k = s_deployments started !! k) ∧
       ∀ d, s_deployments started !! op_TargetID op = Some d →
         ∃ d', s_deployments completed !! op_TargetID op = Some d' ∧ follows started "first" 1 op commit d d').
Proof.
  apply (completion_contract started (2 * hour + minute) "first" 1 "ada" commit completed).
  - apply started_wf.
  - vm_compute. reflexivity.
Defined.

Definition dataset : string := "7d444840-9dc0-11d1-b245-5ffdce74fad2".

Lemma outbox_replayed_witness :
  ∃ s', ReconcileOutboxDataset accepted dataset = Some (s', 1) ∧ ReconcileOutboxDataset s' dataset = Some (s', 0).
Proof.
  eexists. split; [vm_compute; reflexivity|].
  refine (proj2 (proj2 (proj2 (proj2 (proj2 (proj2 (outbox_replayed accepted dataset _ 1 _ _))))))).
  - vm_compute. reflexivity.
  - vm_compute. discriminate.
Defined.
