(* ===== verification/Workload.v ===== *)
(** The workload of an application ([internal/domain/workload.go]): what may be
    asked of Kubernetes for it, and the validation that decides.

    A slice or a map of the source may be nil, which [reflect.DeepEqual] tells
    from an empty one: it is an [option] here.  The validators append to a list
    of problems; here each returns its own, in the order of the appends.
    [ValidateWorkloadRuntime] and its parts range over maps: [MapOrder]. *)

From S2P Require Import Prelude Regexp GoStrings.
From Stdlib Require Import Ascii.

Open Scope Z_scope.

(** * Data *)

Definition slice (A : Type) : Type := option (list A).
Definition items {A} (s : slice A) : list A := default [] s.
Definition count {A} (s : slice A) : Z := Z.of_nat (length (items s)).

Definition dict : Type := option (gmap string string).
Definition entries (d : dict) : gmap string string := default ∅ d.
Definition dict_size (d : dict) : Z := Z.of_nat (size (entries d)).

Record WorkloadPort := mkPort {
  po_Name : string;
  po_ContainerPort : Z;
  po_ServicePort : Z;
  po_Protocol : string;
}.

Record SecretBindingRef := mkSecretRef {
  sr_BindingID : string;
  sr_Name : string;
  sr_Key : string;
  sr_Version : Z;
}.

(** [ValueFrom] is a struct with the one field [SecretBindingRef]. *)
Record WorkloadEnv := mkEnv {
  en_Name : string;
  en_Value : option string;
  en_ValueFrom : option SecretBindingRef;
}.

Record ResourceList := mkResources {
  rl_CPU : string;
  rl_Memory : string;
}.

(** [NodeSelectorRequirement] and [LabelSelectorRequirement] *)
Record SelectorRequirement := mkRequirement {
  rq_Key : string;
  rq_Operator : string;
  rq_Values : slice string;
}.

(** A [NodeSelectorTerm] is its expressions, a [NodeSelector] its terms. *)
Definition NodeSelectorTerm : Type := slice SelectorRequirement.

Record PreferredSchedulingTerm := mkPreferred {
  pt_Weight : Z;
  pt_Preference : NodeSelectorTerm;
}.

Record NodeAffinity := mkNodeAffinity {
  na_Required : option (slice NodeSelectorTerm);
  na_Preferred : slice PreferredSchedulingTerm;
}.

Record LabelSelector := mkSelector {
  ls_MatchLabels : dict;
  ls_MatchExpressions : slice SelectorRequirement;
}.

Record PodAffinityTerm := mkPodTerm {
  pa_LabelSelector : LabelSelector;
  pa_TopologyKey : string;
}.

Record WeightedPodAffinityTerm := mkWeighted {
  wp_Weight : Z;
  wp_PodAffinityTerm : PodAffinityTerm;
}.

Record PodAffinity := mkPodAffinity {
  pf_Required : slice PodAffinityTerm;
  pf_Preferred : slice WeightedPodAffinityTerm;
}.

Record WorkloadAffinity := mkAffinity {
  af_NodeAffinity : option NodeAffinity;
  af_PodAffinity : option PodAffinity;
  af_PodAntiAffinity : option PodAffinity;
}.

Record TopologySpreadConstraint := mkSpread {
  ts_MaxSkew : Z;
  ts_TopologyKey : string;
  ts_WhenUnsatisfiable : string;
  ts_LabelSelector : LabelSelector;
  ts_MinDomains : option Z;
  ts_NodeAffinityPolicy : string;
  ts_NodeTaintsPolicy : string;
}.

Record WorkloadToleration := mkToleration {
  to_Key : string;
  to_Operator : string;
  to_Value : string;
  to_Effect : string;
  to_TolerationSeconds : option Z;
}.

Record WorkloadProbePort := mkProbePort {
  pp_Name : string;
  pp_Number : Z;
}.

Record WorkloadHTTPGetAction := mkHTTPGet {
  hg_Path : string;
  hg_Port : WorkloadProbePort;
  hg_Scheme : string;
}.

(** A TCP action is its port, an exec action its command. *)
Record WorkloadProbe := mkProbe {
  pb_HTTPGet : option WorkloadHTTPGetAction;
  pb_TCPSocket : option WorkloadProbePort;
  pb_Exec : option (slice string);
  pb_InitialDelaySeconds : option Z;
  pb_PeriodSeconds : option Z;
  pb_TimeoutSeconds : option Z;
  pb_SuccessThreshold : option Z;
  pb_FailureThreshold : option Z;
}.

Record WorkloadProbes := mkProbes {
  ph_Startup : option WorkloadProbe;
  ph_Readiness : option WorkloadProbe;
  ph_Liveness : option WorkloadProbe;
}.

Record WorkloadRuntime := mkRuntime {
  rt_WorkloadType : string;
  rt_Replicas : Z;
  rt_StrategyType : string;
  rt_Command : slice string;
  rt_Args : slice string;
  rt_WorkingDirectory : string;
  rt_PodManagementPolicy : string;
  rt_TerminationGracePeriodSeconds : option Z;
  rt_Ports : slice WorkloadPort;
  rt_Env : slice WorkloadEnv;
  rt_Requests : ResourceList;
  rt_Limits : option ResourceList;
  rt_NodeSelector : dict;
  rt_Affinity : option WorkloadAffinity;
  rt_TopologySpreadConstraints : slice TopologySpreadConstraint;
  rt_Tolerations : slice WorkloadToleration;
  rt_PriorityClassName : string;
  rt_Probes : option WorkloadProbes;
}.

Definition zeroRuntime : WorkloadRuntime :=
  mkRuntime "" 0 "" None None "" "" None None None (mkResources "" "") None None None None None "" None.

#[export] Instance SelectorRequirement_eq_dec : EqDecision SelectorRequirement.
Proof. solve_decision. Defined.
#[export] Instance PreferredSchedulingTerm_eq_dec : EqDecision PreferredSchedulingTerm.
Proof. solve_decision. Defined.
#[export] Instance NodeAffinity_eq_dec : EqDecision NodeAffinity.
Proof. solve_decision. Defined.
#[export] Instance LabelSelector_eq_dec : EqDecision LabelSelector.
Proof. solve_decision. Defined.
#[export] Instance PodAffinityTerm_eq_dec : EqDecision PodAffinityTerm.
Proof. solve_decision. Defined.
#[export] Instance WeightedPodAffinityTerm_eq_dec : EqDecision WeightedPodAffinityTerm.
Proof. solve_decision. Defined.
#[export] Instance PodAffinity_eq_dec : EqDecision PodAffinity.
Proof. solve_decision. Defined.
#[export] Instance WorkloadAffinity_eq_dec : EqDecision WorkloadAffinity.
Proof. solve_decision. Defined.
#[export] Instance TopologySpreadConstraint_eq_dec : EqDecision TopologySpreadConstraint.
Proof. solve_decision. Defined.
#[export] Instance WorkloadToleration_eq_dec : EqDecision WorkloadToleration.
Proof. solve_decision. Defined.

Record WorkloadValidationError := mkInvalid {
  we_Pointer : string;
  we_Code : string;
  we_Detail : string;
}.

Abbreviation problems := (list WorkloadValidationError).

(** * Patterns and quantities *)

Definition is_dash_lower (c : ascii) : bool := is_lower c || is_digit c || is_one_of "-" c.
Definition is_letter (c : ascii) : bool := is_lower c || is_upper c.
Definition is_alphanumeric (c : ascii) : bool := is_letter c || is_digit c.

(** [first(?:inner*last)?] *)
Definition bracketed (first inner last : ascii → bool) : regex :=
  RSeq (RClass first) (ROpt (RSeq (RStar (RClass inner)) (RClass last))).

Definition portNamePattern : regex := bracketed is_lower is_dash_lower (λ c, is_lower c || is_digit c).

Definition envNamePattern : regex :=
  RSeq (RClass (λ c, is_letter c || is_one_of "_" c)) (RStar (RClass (λ c, is_alphanumeric c || is_one_of "_" c))).

Definition secretPartPattern : regex := RPlus (RClass (λ c, is_alphanumeric c || is_one_of "._-" c)).

Definition hex_n (n : nat) : regex := RTimes n (RClass is_lower_hex).

Definition uuidPattern : regex :=
  RSeq (hex_n 8) (RSeq (RLit "-") (RSeq (hex_n 4) (RSeq (RLit "-")
    (RSeq (RClass (in_range "1" "8")) (RSeq (hex_n 3) (RSeq (RLit "-")
    (RSeq (RClass (is_one_of "89ab")) (RSeq (hex_n 3) (RSeq (RLit "-") (hex_n 12)))))))))).

Definition labelNamePattern : regex :=
  bracketed is_alphanumeric (λ c, is_alphanumeric c || is_one_of "-_." c) is_alphanumeric.

Definition dnsLabelPattern : regex :=
  bracketed (λ c, is_lower c || is_digit c) is_dash_lower (λ c, is_lower c || is_digit c).

Definition is_empty (s : string) : bool := String.eqb s "".

Definition validDNSLabel (value : string) : bool :=
  (0 <? str_len value) && (str_len value <=? 63) && re_match dnsLabelPattern value.

Definition validSecretRef (r : SecretBindingRef) : bool :=
  re_match uuidPattern (sr_BindingID r) && validDNSLabel (sr_Name r) && (str_len (sr_Key r) <=? 253) &&
  re_match secretPartPattern (sr_Key r) && (0 <? sr_Version r).

Definition reservedSchedulingKey (key : string) : bool :=
  String.eqb key "node-role.kubernetes.io/control-plane" || String.eqb key "node-role.kubernetes.io/master" ||
  has_prefix "kuberploy.io/" key.

Definition validPrefixLabel (label : string) : bool :=
  negb ((str_len label =? 0) || (63 <? str_len label) || negb (re_match dnsLabelPattern label)).

Definition validLabelKey (value : string) : bool :=
  if is_empty value || (253 <? str_len value) then false
  else
    let parts := split_byte "/" value in
    let name := List.last parts "" in
    if (2 <? Z.of_nat (length parts)) || (63 <? str_len name) || negb (re_match labelNamePattern name) then false
    else match parts with
    | [_] => true
    | prefix :: _ => if 253 <? str_len prefix then false else forallb validPrefixLabel (split_byte "." prefix)
    | [] => false
    end.

(** The value of a label, which may be empty. *)
Definition invalidLabelValue (value : string) : bool :=
  (63 <? str_len value) || negb (is_empty value) && negb (re_match labelNamePattern value).

(** Of a quantity that is refused the number is not read. *)
Definition cpuMilli (value : string) : Z * bool :=
  if has_suffix "m" value then
    match parse_int (trim_suffix "m" value) with
    | Some milli => (milli, (0 <? milli) && (milli <=? 1000000))
    | None => (0, false)
    end
  else
    let parts := split_byte "." value in
    let whole_part := hd "" parts in
    if (2 <? Z.of_nat (length parts)) || is_empty whole_part || (4 <? str_len whole_part) then (0, false)
    else match parse_int whole_part with
    | None => (0, false)
    | Some whole =>
        if whole <? 0 then (0, false)
        else
          let total (fraction : Z) :=
            let milli := i64 (i64 (whole * 1000) + fraction) in (milli, (0 <? milli) && (milli <=? 1000000)) in
          match parts with
          | [_; digits] =>
              if (str_len digits <? 1) || (3 <? str_len digits) then (0, false)
              else match parse_int (str_take 3 (digits +:+ "000")) with
              | None => (0, false)
              | Some fraction => total fraction
              end
          | _ => total 0
          end
    end.

(** The suffixes exclude each other, so that the order in which Go ranges over
    them does not matter. *)
Definition memoryUnits : list (string * Z) :=
  [("Ki", 2 ^ 10); ("Mi", 2 ^ 20); ("Gi", 2 ^ 30); ("Ti", 2 ^ 40)].

Definition memoryBytes (value : string) : Z * bool :=
  match List.find (λ unit, has_suffix unit.1 value) memoryUnits with
  | None => (0, false)
  | Some (suffix, multiplier) =>
      let number := trim_suffix suffix value in
      if is_empty number || (12 <? str_len number) || has_prefix "0" number then (0, false)
      else match parse_int number with
      | None => (0, false)
      | Some amount =>
          if (amount <=? 0) || (64 * 2 ^ 40 / multiplier <? amount) then (0, false)
          else (i64 (amount * multiplier), true)
      end
  end.

(** * Construction *)

Definition DefaultCPURequest : string := "50m".
Definition DefaultMemoryRequest : string := "100Mi".

Section workload.
Context `{MapOrder}.

Definition DefaultWorkloadRuntime (port : Z) (ordinary : gmap string string) : WorkloadRuntime :=
  let keys := sort_strings (range 0 ordinary).*1 in
  mkRuntime "Deployment" 1 "RollingUpdate" None None "" "" None
    (Some [mkPort "http" port 0 ""])
    (Some (map (λ key, mkEnv key (Some (default "" (ordinary !! key))) None) keys))
    (mkResources DefaultCPURequest DefaultMemoryRequest) None None None None None "" None.

Definition normalizePort (p : WorkloadPort) : WorkloadPort :=
  mkPort (po_Name p) (po_ContainerPort p) (po_ServicePort p)
    (if is_empty (po_Protocol p) then "TCP" else po_Protocol p).

Definition normalizeEnv (e : WorkloadEnv) : WorkloadEnv :=
  mkEnv (trim_space (en_Name e)) (en_Value e) (en_ValueFrom e).

Definition orElse (value fallback : string) : string := if is_empty value then fallback else value.

(** The source writes the ports and the names through the slices it shares with
    its caller; the model returns them. *)
Definition NormalizeWorkloadRuntime (r : WorkloadRuntime) : WorkloadRuntime :=
  let workloadType := orElse (rt_WorkloadType r) "Deployment" in
  mkRuntime workloadType
    (if rt_Replicas r =? 0 then 1 else rt_Replicas r)
    (orElse (rt_StrategyType r) "RollingUpdate")
    (rt_Command r) (rt_Args r) (rt_WorkingDirectory r)
    (if String.eqb workloadType "StatefulSet" then orElse (rt_PodManagementPolicy r) "OrderedReady"
     else rt_PodManagementPolicy r)
    (rt_TerminationGracePeriodSeconds r)
    (map normalizePort <$> rt_Ports r) (map normalizeEnv <$> rt_Env r)
    (mkResources (orElse (rl_CPU (rt_Requests r)) DefaultCPURequest)
                 (orElse (rl_Memory (rt_Requests r)) DefaultMemoryRequest))
    (rt_Limits r) (rt_NodeSelector r) (rt_Affinity r) (rt_TopologySpreadConstraints r) (rt_Tolerations r)
    (rt_PriorityClassName r) (rt_Probes r).

(** The fields of [CreateDeployment] that make a runtime. *)
Definition RuntimeForCreateDeployment (runtime : WorkloadRuntime) (port replicas : Z)
    (environment : gmap string string) : WorkloadRuntime :=
  NormalizeWorkloadRuntime
    (if count (rt_Ports runtime) =? 0
     then let r := DefaultWorkloadRuntime port environment in
       mkRuntime (rt_WorkloadType r) replicas (rt_StrategyType r) (rt_Command r) (rt_Args r)
         (rt_WorkingDirectory r) (rt_PodManagementPolicy r) (rt_TerminationGracePeriodSeconds r) (rt_Ports r)
         (rt_Env r) (rt_Requests r) (rt_Limits r) (rt_NodeSelector r) (rt_Affinity r)
         (rt_TopologySpreadConstraints r) (rt_Tolerations r) (rt_PriorityClassName r) (rt_Probes r)
     else runtime).

Definition addOrdinary (ordinary : gmap string string) (variable : WorkloadEnv) : gmap string string :=
  match en_Value variable with
  | Some value => <[en_Name variable := value]> ordinary
  | None => ordinary
  end.

Definition LegacyWorkloadFields (r : WorkloadRuntime) : Z * Z * gmap string string :=
  let port := match items (rt_Ports r) with p :: _ => po_ContainerPort p | [] => 0 end in
  (rt_Replicas r, port, foldl addOrdinary ∅ (items (rt_Env r))).

(** * Validation *)


(** [if bad { add(pointer, code, detail) }] *)
Definition add_if (bad : bool) (pointer code detail : string) : problems :=
  if bad then [mkInvalid pointer code detail] else [].

Definition at_index (pointer : string) (index : nat) : string :=
  pointer +:+ "/" +:+ format_int (Z.of_nat index).

(** [for index, x := range l] *)
Fixpoint each_from {A} (index : nat) (check : nat → A → problems) (l : list A) : problems :=
  match l with
  | [] => []
  | x :: rest => (check index x ++ each_from (S index) check rest)%list
  end.
Definition each {A} := @each_from A 0.

Definition outside (lo hi n : Z) : bool := (n <? lo) || (hi <? n).

Definition total_bytes (l : list string) : Z := foldl (λ total value, total + str_len value) 0 l.

Definition invalidArgument (value : string) : bool :=
  is_empty value || (4096 <? str_len value) || negb (valid_utf8 value) || str_contains (String "000" "") value.

Definition validateRuntimeCommandVector (values : slice string) (maximum : Z) (pointer : string) : problems :=
  (add_if (bool_decide (is_Some values) && outside 1 maximum (count values)) pointer "OutOfRange"
     ("configure between 1 and " +:+ format_int maximum +:+ " entries or omit the field") ++
   each (λ index value, add_if (invalidArgument value) (at_index pointer index) "InvalidCommandArgument"
     "command entries must be valid UTF-8, non-empty, NUL-free, and at most 4096 bytes") (items values))%list.

(** [path.Clean] of a rooted path. *)
Definition cleanSegment (kept : list string) (segment : string) : list string :=
  if is_empty segment || String.eqb segment "." then kept
  else if String.eqb segment ".." then tl kept
  else segment :: kept.

Definition cleanRooted (p : string) : string :=
  "/" +:+ str_join "/" (rev (foldl cleanSegment [] (split_byte "/" p))).

Definition invalidWorkingDirectory (wd : string) : bool :=
  negb (is_empty wd) &&
  ((4096 <? str_len wd) || negb (valid_utf8 wd) || str_contains (String "000" "") wd ||
   negb (has_prefix "/" wd) || negb (String.eqb (cleanRooted wd) wd)).

Definition validateKind (r : WorkloadRuntime) : problems :=
  let workloadType := orElse (rt_WorkloadType r) "Deployment" in
  let strategyType := orElse (rt_StrategyType r) "RollingUpdate" in
  let policy := rt_PodManagementPolicy r in
  (add_if (negb (str_in workloadType ["Deployment"; "StatefulSet"])) "/runtime/workloadType"
     "InvalidWorkloadType" "workloadType must be Deployment or StatefulSet" ++
   (if negb (is_empty (rt_PriorityClassName r)) && negb (validDNSLabel (rt_PriorityClassName r))
    then add_if true "/runtime/priorityClassName" "InvalidDNSLabel"
           "priorityClassName must be a Kubernetes DNS label"
    else add_if (has_prefix "system-" (rt_PriorityClassName r)) "/runtime/priorityClassName"
           "ReservedPriorityClass" "Kubernetes system-* PriorityClasses are reserved for cluster-critical workloads") ++
   add_if (outside 1 100 (rt_Replicas r)) "/runtime/replicas" "OutOfRange" "replicas must be between 1 and 100" ++
   (if String.eqb workloadType "StatefulSet" then
      (add_if (negb (str_in strategyType ["RollingUpdate"; "OnDelete"])) "/runtime/strategy/type"
         "InvalidStatefulSetStrategy" "StatefulSet strategy type must be RollingUpdate or OnDelete" ++
       add_if (negb (str_in policy [""; "OrderedReady"; "Parallel"])) "/runtime/podManagementPolicy"
         "InvalidPodManagementPolicy" "StatefulSet podManagementPolicy must be OrderedReady or Parallel")
    else
      (add_if (negb (str_in strategyType ["RollingUpdate"; "Recreate"])) "/runtime/strategy/type"
         "InvalidDeploymentStrategy" "Deployment strategy type must be RollingUpdate or Recreate" ++
       add_if (negb (is_empty policy)) "/runtime/podManagementPolicy" "Forbidden"
         "podManagementPolicy is supported only for StatefulSet workloads")))%list.

Definition validateProcess (r : WorkloadRuntime) : problems :=
  (validateRuntimeCommandVector (rt_Command r) 64 "/runtime/command" ++
   validateRuntimeCommandVector (rt_Args r) 128 "/runtime/args" ++
   add_if (2 ^ 16 <? total_bytes (items (rt_Command r)) + total_bytes (items (rt_Args r))) "/runtime"
     "CommandTooLong" "container command and arguments are limited to 65536 bytes in total" ++
   add_if (invalidWorkingDirectory (rt_WorkingDirectory r)) "/runtime/workingDirectory"
     "InvalidWorkingDirectory" "workingDirectory must be a canonical absolute path of at most 4096 bytes" ++
   add_if (match rt_TerminationGracePeriodSeconds r with Some n => outside 1 3600 n | None => false end)
     "/runtime/terminationGracePeriodSeconds" "OutOfRange"
     "termination grace period must be between 1 and 3600 seconds")%list.

(** The loop over the ports, with the names it has seen. *)
Fixpoint validatePorts (index : nat) (seen : gset string) (ports : list WorkloadPort) : problems :=
  match ports with
  | [] => []
  | port :: rest =>
      let pointer := at_index "/runtime/ports" index in
      (add_if ((15 <? str_len (po_Name port)) || negb (re_match portNamePattern (po_Name port)))
         (pointer +:+ "/name") "InvalidPortName"
         "use a unique lowercase Kubernetes port name of at most 15 characters" ++
       add_if (bool_decide (po_Name port ∈ seen)) (pointer +:+ "/name") "Duplicate" "port names must be unique" ++
       add_if (outside 1 65535 (po_ContainerPort port) || outside 0 65535 (po_ServicePort port)) pointer
         "InvalidPort" "containerPort and optional servicePort must be between 1 and 65535" ++
       add_if (negb (str_in (po_Protocol port) ["TCP"; "UDP"])) (pointer +:+ "/protocol") "InvalidProtocol"
         "protocol must be TCP or UDP" ++
       validatePorts (S index) ({[po_Name port]} ∪ seen) rest)%list
  end.

Definition validateEnvValue (pointer : string) (variable : WorkloadEnv) : problems :=
  match en_Value variable, en_ValueFrom variable with
  | Some value, None =>
      add_if (4096 <? str_len value) (pointer +:+ "/value") "TooLong"
        "ordinary ConfigMap values are limited to 4096 bytes"
  | None, Some ref =>
      add_if (negb (validSecretRef ref)) (pointer +:+ "/valueFrom/secretBindingRef") "InvalidSecretBindingRef"
        "reference an existing binding by immutable UUID, reviewed DNS name, key, and positive integer version; secret values are not accepted here"
  | _, _ => add_if true pointer "ExactlyOneRequired" "set exactly one of value or valueFrom.secretBindingRef"
  end.

Fixpoint validateEnv (index : nat) (seen : gset string) (env : list WorkloadEnv) : problems :=
  match env with
  | [] => []
  | variable :: rest =>
      let pointer := at_index "/runtime/env" index in
      (add_if ((128 <? str_len (en_Name variable)) || negb (re_match envNamePattern (en_Name variable)))
         (pointer +:+ "/name") "InvalidEnvironmentName" "use a POSIX-style name of at most 128 characters" ++
       add_if (bool_decide (en_Name variable ∈ seen)) (pointer +:+ "/name") "Duplicate"
         "environment names must be unique" ++
       validateEnvValue pointer variable ++
       validateEnv (S index) ({[en_Name variable]} ∪ seen) rest)%list
  end.

Definition invalidCPU : string := "CPU must be positive, at most 1000 cores, and use cores or millicores".
Definition invalidMemory : string := "memory must be positive, at most 64Ti, and use Ki, Mi, Gi, or Ti".

(** A limit beside its request, both as the parsers return them. *)
Definition validateLimit (limit : string) (parse : string → Z * bool) (request : Z * bool)
    (pointer invalid below : string) : problems :=
  if is_empty limit then []
  else
    let '(value, ok) := parse limit in
    if negb ok then add_if true pointer "InvalidQuantity" invalid
    else add_if (request.2 && (value <? request.1)) pointer "LimitBelowRequest" below.

Definition validateResources (r : WorkloadRuntime) : problems :=
  let cpu := cpuMilli (rl_CPU (rt_Requests r)) in
  let memory := memoryBytes (rl_Memory (rt_Requests r)) in
  (add_if (negb cpu.2) "/runtime/resources/requests/cpu" "InvalidQuantity" invalidCPU ++
   add_if (negb memory.2) "/runtime/resources/requests/memory" "InvalidQuantity" invalidMemory ++
   match rt_Limits r with
   | None => []
   | Some limits =>
       add_if (is_empty (rl_CPU limits) && is_empty (rl_Memory limits)) "/runtime/resources/limits" "Required"
         "configure at least one CPU or memory limit" ++
       validateLimit (rl_CPU limits) cpuMilli cpu "/runtime/resources/limits/cpu" invalidCPU
         "CPU limit must be greater than or equal to its request" ++
       validateLimit (rl_Memory limits) memoryBytes memory "/runtime/resources/limits/memory" invalidMemory
         "memory limit must be greater than or equal to its request"
   end)%list.

(** ** Scheduling *)

Definition validateSelectorEntry (pointer : string) (entry : string * string) : problems :=
  let '(key, value) := entry in
  let here := pointer +:+ "/" +:+ key in
  (add_if (negb (validLabelKey key)) here "InvalidLabelKey" "selector key must be a Kubernetes label key" ++
   add_if (has_prefix "/runtime/nodeSelector" pointer && reservedSchedulingKey key) here "ReservedSchedulingKey"
     "system, control-plane, and builder node labels are not available to application scheduling" ++
   add_if (invalidLabelValue value) here "InvalidLabelValue" "selector value must be a Kubernetes label value")%list.

Definition validateNodeSelector (selector : dict) (pointer : string) : problems :=
  (add_if (32 <? dict_size selector) pointer "OutOfRange" "at most 32 selector entries are allowed" ++
   flat_map (validateSelectorEntry pointer) (range 1 (entries selector)))%list.

Definition needsValues (operators : list string) (e : SelectorRequirement) : bool := str_in (rq_Operator e) operators.

(** [needsValues && (len < 1 || len > 32) || !needsValues && len > 0] *)
Definition wrongValues (needed : bool) (e : SelectorRequirement) : bool :=
  if needed then outside 1 32 (count (rq_Values e)) else 0 <? count (rq_Values e).

Definition validateLabelExpression (pointer : string) (index : nat) (e : SelectorRequirement) : problems :=
  let path := at_index (pointer +:+ "/matchExpressions") index in
  let needed := needsValues ["In"; "NotIn"] e in
  (add_if (negb (validLabelKey (rq_Key e))) (path +:+ "/key") "InvalidLabelKey" "key must be a Kubernetes label key" ++
   add_if (negb needed && negb (str_in (rq_Operator e) ["Exists"; "DoesNotExist"])) (path +:+ "/operator")
     "InvalidValue" "use In, NotIn, Exists, or DoesNotExist" ++
   add_if (wrongValues needed e) (path +:+ "/values") "InvalidValue" "values must match the selected operator" ++
   each (λ valueIndex value, add_if (invalidLabelValue value) (at_index (path +:+ "/values") valueIndex)
     "InvalidLabelValue" "selector values must be Kubernetes label values") (items (rq_Values e)))%list.

Definition validateLabelSelector (selector : LabelSelector) (pointer : string) : problems :=
  let labels := ls_MatchLabels selector in
  let expressions := ls_MatchExpressions selector in
  (add_if ((dict_size labels =? 0) && (count expressions =? 0)) pointer "Required"
     "an explicit label selector is required" ++
   add_if ((32 <? dict_size labels) || (32 <? count expressions)) pointer "OutOfRange"
     "a label selector supports at most 32 labels and 32 expressions" ++
   validateNodeSelector labels (pointer +:+ "/matchLabels") ++
   each (validateLabelExpression pointer) (items expressions))%list.

Definition validateNodeValue (path : string) (ordered : bool) (valueIndex : nat) (value : string) : problems :=
  let here := at_index (path +:+ "/values") valueIndex in
  (add_if ((63 <? str_len value) || negb (re_match labelNamePattern value)) here "InvalidLabelValue"
     "selector values must be Kubernetes label values" ++
   add_if (ordered && negb (bool_decide (is_Some (parse_int value)))) here "InvalidInteger"
     "Gt and Lt values must be integers")%list.

Definition validateNodeExpression (pointer : string) (index : nat) (e : SelectorRequirement) : problems :=
  let path := at_index (pointer +:+ "/matchExpressions") index in
  let ordered := str_in (rq_Operator e) ["Gt"; "Lt"] in
  (add_if (negb (validLabelKey (rq_Key e))) (path +:+ "/key") "InvalidLabelKey" "key must be a Kubernetes label key" ++
   add_if (reservedSchedulingKey (rq_Key e)) (path +:+ "/key") "ReservedSchedulingKey"
     "system, control-plane, and builder node labels are not available to application scheduling" ++
   add_if (negb (str_in (rq_Operator e) ["In"; "NotIn"; "Exists"; "DoesNotExist"; "Gt"; "Lt"]))
     (path +:+ "/operator") "InvalidValue" "unsupported node selector operator" ++
   add_if (wrongValues (needsValues ["In"; "NotIn"; "Gt"; "Lt"] e) e) (path +:+ "/values") "InvalidValue"
     "values must match the selected operator" ++
   add_if (ordered && negb (count (rq_Values e) =? 1)) (path +:+ "/values") "InvalidValue"
     "Gt and Lt require exactly one integer value" ++
   each (validateNodeValue path ordered) (items (rq_Values e)))%list.

Definition validateNodeTerm (term : NodeSelectorTerm) (pointer : string) : problems :=
  (add_if (outside 1 32 (count term)) (pointer +:+ "/matchExpressions") "OutOfRange"
     "configure between 1 and 32 match expressions" ++
   each (validateNodeExpression pointer) (items term))%list.

Definition validatePodAffinityTerm (term : PodAffinityTerm) (pointer : string) : problems :=
  (add_if (negb (validLabelKey (pa_TopologyKey term))) (pointer +:+ "/topologyKey") "InvalidLabelKey"
     "topologyKey must be a Kubernetes label key" ++
   add_if (reservedSchedulingKey (pa_TopologyKey term)) (pointer +:+ "/topologyKey") "ReservedSchedulingKey"
     "system and builder placement labels are not available to application scheduling" ++
   validateLabelSelector (pa_LabelSelector term) (pointer +:+ "/labelSelector"))%list.

Definition requiredPointer (pointer : string) : string := pointer +:+ "/requiredDuringSchedulingIgnoredDuringExecution".
Definition preferredPointer (pointer : string) : string := pointer +:+ "/preferredDuringSchedulingIgnoredDuringExecution".

Definition validateWeighted (pointer : string) (index : nat) (term : WeightedPodAffinityTerm) : problems :=
  let path := at_index (preferredPointer pointer) index in
  (add_if (outside 1 100 (wp_Weight term)) (path +:+ "/weight") "OutOfRange" "weight must be between 1 and 100" ++
   validatePodAffinityTerm (wp_PodAffinityTerm term) (path +:+ "/podAffinityTerm"))%list.

Definition validatePodAffinity (affinity : option PodAffinity) (pointer : string) : problems :=
  match affinity with
  | None => []
  | Some affinity =>
      (add_if ((count (pf_Required affinity) =? 0) && (count (pf_Preferred affinity) =? 0)) pointer "Required"
         "pod affinity must configure a required or preferred term" ++
       add_if ((16 <? count (pf_Required affinity)) || (16 <? count (pf_Preferred affinity))) pointer "OutOfRange"
         "at most 16 required and 16 preferred pod affinity terms are allowed" ++
       each (λ index term, validatePodAffinityTerm term (at_index (requiredPointer pointer) index))
         (items (pf_Required affinity)) ++
       each (validateWeighted pointer) (items (pf_Preferred affinity)))%list
  end.

Definition nodeAffinityPointer : string := "/runtime/affinity/nodeAffinity".

Definition validatePreferred (index : nat) (term : PreferredSchedulingTerm) : problems :=
  let pointer := at_index (preferredPointer nodeAffinityPointer) index in
  (add_if (outside 1 100 (pt_Weight term)) (pointer +:+ "/weight") "OutOfRange" "weight must be between 1 and 100" ++
   validateNodeTerm (pt_Preference term) (pointer +:+ "/preference"))%list.

Definition validateNodeAffinity (node : NodeAffinity) : problems :=
  let termsPointer := requiredPointer nodeAffinityPointer +:+ "/nodeSelectorTerms" in
  (add_if (negb (bool_decide (is_Some (na_Required node))) && (count (na_Preferred node) =? 0)) nodeAffinityPointer
     "Required" "nodeAffinity must configure a required or preferred term" ++
   match na_Required node with
   | None => []
   | Some terms =>
       add_if (outside 1 16 (count terms)) termsPointer "OutOfRange"
         "configure between 1 and 16 required node selector terms" ++
       each (λ index term, validateNodeTerm term (at_index termsPointer index)) (items terms)
   end ++
   add_if (16 <? count (na_Preferred node)) (preferredPointer nodeAffinityPointer) "OutOfRange"
     "at most 16 preferred node selector terms are allowed" ++
   each validatePreferred (items (na_Preferred node)))%list.

Definition validateAffinity (affinity : WorkloadAffinity) : problems :=
  (add_if (negb (bool_decide (is_Some (af_NodeAffinity affinity))) &&
           negb (bool_decide (is_Some (af_PodAffinity affinity))) &&
           negb (bool_decide (is_Some (af_PodAntiAffinity affinity)))) "/runtime/affinity" "Required"
     "affinity must configure node, pod, or pod anti-affinity" ++
   match af_NodeAffinity affinity with Some node => validateNodeAffinity node | None => [] end ++
   validatePodAffinity (af_PodAffinity affinity) "/runtime/affinity/podAffinity" ++
   validatePodAffinity (af_PodAntiAffinity affinity) "/runtime/affinity/podAntiAffinity")%list.

Definition spreadPointer (index : nat) : string := at_index "/runtime/topologySpreadConstraints" index.

Definition validateSpread (index : nat) (c : TopologySpreadConstraint) : problems :=
  let pointer := spreadPointer index in
  (add_if (outside 1 100 (ts_MaxSkew c)) (pointer +:+ "/maxSkew") "OutOfRange" "maxSkew must be between 1 and 100" ++
   add_if (negb (validLabelKey (ts_TopologyKey c))) (pointer +:+ "/topologyKey") "InvalidLabelKey"
     "topologyKey must be a Kubernetes label key" ++
   add_if (reservedSchedulingKey (ts_TopologyKey c)) (pointer +:+ "/topologyKey") "ReservedSchedulingKey"
     "system and builder placement labels are not available to application scheduling" ++
   add_if (negb (str_in (ts_WhenUnsatisfiable c) ["DoNotSchedule"; "ScheduleAnyway"]))
     (pointer +:+ "/whenUnsatisfiable") "InvalidValue" "use DoNotSchedule or ScheduleAnyway" ++
   validateLabelSelector (ts_LabelSelector c) (pointer +:+ "/labelSelector") ++
   match ts_MinDomains c with
   | None => []
   | Some domains =>
       if negb (String.eqb (ts_WhenUnsatisfiable c) "DoNotSchedule")
       then add_if true (pointer +:+ "/minDomains") "InvalidValue"
              "minDomains is supported only when whenUnsatisfiable is DoNotSchedule"
       else add_if (outside 1 1000 domains) (pointer +:+ "/minDomains") "OutOfRange"
              "minDomains must be between 1 and 1000"
   end ++
   flat_map (λ policy, add_if (negb (str_in policy.1 [""; "Honor"; "Ignore"])) (pointer +:+ "/" +:+ policy.2)
     "InvalidValue" "use Honor or Ignore")
     [(ts_NodeAffinityPolicy c, "nodeAffinityPolicy"); (ts_NodeTaintsPolicy c, "nodeTaintsPolicy")])%list.

Definition validateToleration (index : nat) (t : WorkloadToleration) : problems :=
  let pointer := at_index "/runtime/tolerations" index in
  (add_if (negb (validLabelKey (to_Key t))) (pointer +:+ "/key") "InvalidLabelKey"
     "a specific taint key is required; broad all-taint tolerations are not allowed" ++
   add_if (reservedSchedulingKey (to_Key t)) (pointer +:+ "/key") "ReservedSchedulingKey"
     "system, control-plane, and builder taints cannot be tolerated by a service" ++
   add_if (negb (str_in (to_Operator t) ["Equal"; "Exists"])) (pointer +:+ "/operator") "InvalidValue"
     "operator must be Equal or Exists" ++
   add_if (String.eqb (to_Operator t) "Exists" && negb (is_empty (to_Value t))) (pointer +:+ "/value") "Forbidden"
     "Exists tolerations must not set a value" ++
   add_if (invalidLabelValue (to_Value t)) (pointer +:+ "/value") "InvalidLabelValue"
     "toleration value must be a Kubernetes label value" ++
   add_if (negb (str_in (to_Effect t) ["NoSchedule"; "PreferNoSchedule"; "NoExecute"])) (pointer +:+ "/effect")
     "InvalidValue" "a specific NoSchedule, PreferNoSchedule, or NoExecute effect is required" ++
   add_if (match to_TolerationSeconds t with
           | Some seconds => negb (String.eqb (to_Effect t) "NoExecute") || outside 0 604800 seconds
           | None => false
           end) (pointer +:+ "/tolerationSeconds") "InvalidValue"
     "tolerationSeconds is allowed only for NoExecute and must be between 0 and 604800")%list.

Definition validateScheduling (r : WorkloadRuntime) : problems :=
  (validateNodeSelector (rt_NodeSelector r) "/runtime/nodeSelector" ++
   match rt_Affinity r with Some affinity => validateAffinity affinity | None => [] end ++
   add_if (16 <? count (rt_TopologySpreadConstraints r)) "/runtime/topologySpreadConstraints" "OutOfRange"
     "at most 16 topology spread constraints are allowed" ++
   each validateSpread (items (rt_TopologySpreadConstraints r)) ++
   add_if (32 <? count (rt_Tolerations r)) "/runtime/tolerations" "OutOfRange"
     "at most 32 tolerations are allowed" ++
   each validateToleration (items (rt_Tolerations r)))%list.

(** ** Probes *)

Definition probeTarget (port : WorkloadProbePort) (candidate : WorkloadPort) : bool :=
  String.eqb (po_Protocol candidate) "TCP" &&
  (negb (is_empty (pp_Name port)) && (pp_Number port =? 0) && String.eqb (po_Name candidate) (pp_Name port) ||
   is_empty (pp_Name port) && negb (outside 1 65535 (pp_Number port)) &&
   (po_ContainerPort candidate =? pp_Number port)).

Definition validateProbePort (r : WorkloadRuntime) (port : WorkloadProbePort) (pointer : string) : problems :=
  add_if (negb (existsb (probeTarget port) (items (rt_Ports r)))) pointer "InvalidProbePort"
    "probe port must reference a configured TCP container port by name or number".

Definition validateProbeSeconds (value : option Z) (minimum maximum : Z) (pointer : string) : problems :=
  add_if (match value with Some n => outside minimum maximum n | None => false end) pointer "OutOfRange"
    ("value must be between " +:+ format_int minimum +:+ " and " +:+ format_int maximum).

Definition is_control (c : ascii) : bool := in_range "000" "031" c.

Definition invalidProbePath (path : string) : bool :=
  (str_len path =? 0) || (2048 <? str_len path) || negb (has_prefix "/" path) ||
  existsb is_control (String.list_ascii_of_string path).

Definition validateHTTPGet (r : WorkloadRuntime) (pointer : string) (action : WorkloadHTTPGetAction) : problems :=
  (add_if (invalidProbePath (hg_Path action)) (pointer +:+ "/httpGet/path") "InvalidProbePath"
     "HTTP probe path must begin with /, contain no control characters, and be at most 2048 bytes" ++
   add_if (negb (str_in (hg_Scheme action) [""; "HTTP"; "HTTPS"])) (pointer +:+ "/httpGet/scheme") "InvalidValue"
     "HTTP probe scheme must be HTTP or HTTPS" ++
   validateProbePort r (hg_Port action) (pointer +:+ "/httpGet/port"))%list.

Definition validateExec (pointer : string) (command : slice string) : problems :=
  let here := pointer +:+ "/exec/command" in
  (add_if (outside 1 32 (count command)) here "OutOfRange"
     "exec probe command must contain between 1 and 32 arguments" ++
   each (λ index argument, add_if (invalidArgument argument) (at_index here index) "InvalidCommandArgument"
     "exec probe arguments must be valid UTF-8, non-empty, NUL-free, and at most 4096 bytes") (items command) ++
   add_if (2 ^ 14 <? total_bytes (items command)) here "TooLong"
     "exec probe command is limited to 16384 bytes")%list.

Definition configured {A} (o : option A) : Z := match o with Some _ => 1 | None => 0 end.

Definition validateProbe (r : WorkloadRuntime) (phase : string) (probe : WorkloadProbe) : problems :=
  let pointer := "/runtime/probes/" +:+ phase in
  let optional {A} (check : A → problems) (o : option A) := match o with Some a => check a | None => [] end in
  (optional (validateHTTPGet r pointer) (pb_HTTPGet probe) ++
   optional (λ port, validateProbePort r port (pointer +:+ "/tcpSocket/port")) (pb_TCPSocket probe) ++
   optional (validateExec pointer) (pb_Exec probe) ++
   add_if (negb (configured (pb_HTTPGet probe) + configured (pb_TCPSocket probe) + configured (pb_Exec probe) =? 1))
     pointer "ExactlyOneRequired" "set exactly one of httpGet, tcpSocket, or exec" ++
   validateProbeSeconds (pb_InitialDelaySeconds probe) 0 3600 (pointer +:+ "/initialDelaySeconds") ++
   validateProbeSeconds (pb_PeriodSeconds probe) 1 300 (pointer +:+ "/periodSeconds") ++
   validateProbeSeconds (pb_TimeoutSeconds probe) 1 300 (pointer +:+ "/timeoutSeconds") ++
   validateProbeSeconds (pb_SuccessThreshold probe) 1 100 (pointer +:+ "/successThreshold") ++
   validateProbeSeconds (pb_FailureThreshold probe) 1 100 (pointer +:+ "/failureThreshold") ++
   add_if (negb (String.eqb phase "readiness") &&
           match pb_SuccessThreshold probe with Some n => negb (n =? 1) | None => false end)
     (pointer +:+ "/successThreshold") "InvalidValue"
     "startup and liveness probe successThreshold must be 1")%list.

Definition phases (probes : WorkloadProbes) : list (string * option WorkloadProbe) :=
  [("startup", ph_Startup probes); ("readiness", ph_Readiness probes); ("liveness", ph_Liveness probes)].

Definition validateProbes (r : WorkloadRuntime) : problems :=
  match rt_Probes r with
  | None => []
  | Some probes =>
      (flat_map (λ candidate, match candidate.2 with
                              | Some probe => validateProbe r candidate.1 probe
                              | None => []
                              end) (phases probes) ++
       add_if (forallb (λ candidate, negb (bool_decide (is_Some candidate.2))) (phases probes)) "/runtime/probes"
         "Required" "configure at least one startup, readiness, or liveness probe")%list
  end.

Definition ValidateWorkloadRuntime (r : WorkloadRuntime) : problems :=
  (validateKind r ++ validateProcess r ++
   add_if (outside 1 32 (count (rt_Ports r))) "/runtime/ports" "OutOfRange" "configure between 1 and 32 ports" ++
   validatePorts 0 ∅ (items (rt_Ports r)) ++
   add_if (256 <? count (rt_Env r)) "/runtime/env" "OutOfRange" "at most 256 environment entries are allowed" ++
   validateEnv 0 ∅ (items (rt_Env r)) ++
   validateResources r ++ validateScheduling r ++ validateProbes r)%list.

(** * The selectors of an application *)

Definition applicationLabel : string := "kuberploy.io/application".

Definition exactSelector (applicationID : string) (selector : LabelSelector) : bool :=
  negb (is_empty applicationID || negb (count (ls_MatchExpressions selector) =? 0) ||
        negb (dict_size (ls_MatchLabels selector) =? 1) ||
        negb (String.eqb (default "" (entries (ls_MatchLabels selector) !! applicationLabel)) applicationID)).

Definition requireExact (applicationID : string) (selector : LabelSelector) (pointer : string) : problems :=
  add_if (negb (exactSelector applicationID selector)) pointer "ApplicationSelectorRequired"
    "Pod placement selectors must target only this exact application; arbitrary labels, expressions, and cross-application identity are not accepted.".

Definition validatePodTerms (applicationID : string) (affinity : option PodAffinity) (pointer : string) : problems :=
  match affinity with
  | None => []
  | Some affinity =>
      (each (λ index term, requireExact applicationID (pa_LabelSelector term)
         (at_index (requiredPointer pointer) index +:+ "/labelSelector")) (items (pf_Required affinity)) ++
       each (λ index term, requireExact applicationID (pa_LabelSelector (wp_PodAffinityTerm term))
         (at_index (preferredPointer pointer) index +:+ "/podAffinityTerm/labelSelector"))
         (items (pf_Preferred affinity)))%list
  end.

Definition ValidateApplicationScheduling (r : WorkloadRuntime) (applicationID : string) : problems :=
  (match rt_Affinity r with
   | None => []
   | Some affinity =>
       validatePodTerms applicationID (af_PodAffinity affinity) "/runtime/affinity/podAffinity" ++
       validatePodTerms applicationID (af_PodAntiAffinity affinity) "/runtime/affinity/podAntiAffinity"
   end ++
   each (λ index c, requireExact applicationID (ts_LabelSelector c) (spreadPointer index +:+ "/labelSelector"))
     (items (rt_TopologySpreadConstraints r)))%list.

End workload.
