(* ===== verification/WorkloadFacts.v ===== *)
(** What an accepted workload is: [ValidateWorkloadRuntime] and
    [ValidateApplicationScheduling] admit only workloads that stay inside the
    application's own bounds. *)

From S2P Require Import Prelude Regexp GoStrings Workload.
From Stdlib Require Import Ascii.

Open Scope Z_scope.

(** * No problems *)

Create HintDb problems.

Lemma add_if_nil bad pointer code detail : add_if bad pointer code detail = [] ↔ bad = false.
Proof. by destruct bad. Qed.

Lemma each_from_nil {A} (check : nat → A → problems) l : ∀ i,
  each_from i check l = [] ↔ ∀ j x, l !! j = Some x → check (i + j)%nat x = [].
Proof.
  induction l as [|a l IH]; intros i; simpl; [by split; intros|].
  rewrite app_nil, IH. split.
  - intros [Ha Hl] [|j] x Hx; simplify_eq/=; [by rewrite Nat.add_0_r|].
    rewrite Nat.add_succ_r. by apply (Hl j).
  - intros Hl. split; [specialize (Hl 0%nat a eq_refl); by rewrite Nat.add_0_r in Hl|].
    intros j x Hx. specialize (Hl (S j) x Hx). by rewrite Nat.add_succ_r in Hl.
Qed.

Lemma each_nil {A} (check : nat → A → problems) l :
  each check l = [] ↔ ∀ j x, l !! j = Some x → check j x = [].
Proof. apply each_from_nil. Qed.

Lemma flat_map_nil {A} (check : A → problems) l : flat_map check l = [] ↔ ∀ x, x ∈ l → check x = [].
Proof.
  induction l as [|a l IH]; simpl; [by split; intros; set_solver|].
  rewrite app_nil, IH. set_solver.
Qed.

Lemma outside_false lo hi n : outside lo hi n = false ↔ lo ≤ n ≤ hi.
Proof. unfold outside. rewrite orb_false_iff, !Z.ltb_ge. done. Qed.

#[export] Hint Rewrite @app_nil @add_if_nil @each_nil @flat_map_nil outside_false negb_false_iff orb_false_iff
  andb_false_iff negb_true_iff : problems.

(** An element that a loop has passed. *)
Lemma each_elem {A} (check : nat → A → problems) l x : each check l = [] → x ∈ l → ∃ i, check i x = [].
Proof.
  rewrite each_nil. intros Hall [i Hi]%list_elem_of_lookup. exists i. by apply Hall.
Qed.

(** * Loops that remember names *)

Section names.
Context `{MapOrder}.

Lemma validatePorts_nil ports : ∀ index seen,
  validatePorts index seen ports = [] →
  NoDup (po_Name <$> ports) ∧
  ∀ p, p ∈ ports → po_Name p ∉ seen ∧ 1 ≤ po_ContainerPort p ≤ 65535 ∧ 0 ≤ po_ServicePort p ≤ 65535 ∧
    (po_Protocol p = "TCP" ∨ po_Protocol p = "UDP").
Proof.
  induction ports as [|p ports IH]; intros index seen Hv; [split; [constructor|set_solver]|].
  cbn [validatePorts] in Hv. autorewrite with problems in Hv.
  destruct Hv as (_ & Hseen & (Hc & Hs) & Hp & Hrest).
  apply IH in Hrest as [Hnd Hall]. bool_prop. apply str_in_spec in Hp. split.
  - rewrite fmap_cons. constructor; [|done]. intros (q & Hq & Hin)%list_elem_of_fmap.
    destruct (Hall q Hin) as [Hn _]. set_solver.
  - intros q [->|Hin]%elem_of_cons; [split_and!; set_solver|].
    destruct (Hall q Hin) as (Hn & ?). split; [set_solver|done].
Qed.

(** What a variable holds: a short value or a reference that is well formed. *)
Definition envAllowed (e : WorkloadEnv) : Prop :=
  (∃ value, en_Value e = Some value ∧ en_ValueFrom e = None ∧ str_len value ≤ 4096) ∨
  (∃ ref, en_Value e = None ∧ en_ValueFrom e = Some ref ∧ validSecretRef ref = true).

Lemma validateEnvValue_nil pointer e : validateEnvValue pointer e = [] → envAllowed e.
Proof.
  unfold validateEnvValue, envAllowed.
  destruct (en_Value e) as [value|], (en_ValueFrom e) as [ref|]; try done;
    autorewrite with problems; intros Hv; bool_prop.
  - left. eauto.
  - right. eauto.
Qed.

Lemma validateEnv_nil env : ∀ index seen,
  validateEnv index seen env = [] →
  NoDup (en_Name <$> env) ∧ ∀ e, e ∈ env → en_Name e ∉ seen ∧ envAllowed e.
Proof.
  induction env as [|e env IH]; intros index seen Hv; [split; [constructor|set_solver]|].
  cbn [validateEnv] in Hv. autorewrite with problems in Hv.
  destruct Hv as (_ & Hseen & Hval & Hrest).
  apply IH in Hrest as [Hnd Hall]. apply validateEnvValue_nil in Hval. bool_prop. split.
  - rewrite fmap_cons. constructor; [|done]. intros (q & Hq & Hin)%list_elem_of_fmap.
    destruct (Hall q Hin) as [Hn _]. set_solver.
  - intros q [->|Hin]%elem_of_cons; [by split|].
    destruct (Hall q Hin) as (Hn & ?). split; [set_solver|done].
Qed.
End names.

(** * Quantities: positive, bounded, and computed without overflow *)

Lemma cpuMilli_bounds value milli : cpuMilli value = (milli, true) → 0 < milli ≤ 1000000.
Proof.
  unfold cpuMilli. intros Hc. repeat (break_match_hyp Hc; simplify_eq/=); bool_prop; lia.
Qed.

Lemma memoryBytes_bounds value bytes : memoryBytes value = (bytes, true) → 0 < bytes ≤ 64 * 2 ^ 40.
Proof.
  unfold memoryBytes. destruct (List.find _ memoryUnits) as [[suffix multiplier]|] eqn:Hf; [|done].
  assert (0 < multiplier) as Hpos.
  { apply find_some in Hf as [Hin _]. simpl in Hin. intuition simplify_eq; lia. }
  destruct (_ || _); [done|]. destruct (parse_int _) as [amount|]; [|done].
  destruct (_ || _) eqn:E; [done|]. intros [= <-]. bool_prop.
  assert (amount * multiplier ≤ 64 * 2 ^ 40).
  { transitivity (64 * 2 ^ 40 / multiplier * multiplier); [nia|]. pose proof (Z.mul_div_le (64 * 2 ^ 40) multiplier Hpos). lia. }
  rewrite i64_small; [|unfold i64_range]; nia.
Qed.

Lemma validateLimit_nil limit parse request pointer invalid below :
  validateLimit limit parse request pointer invalid below = [] → limit ≠ "" → request.2 = true →
  ∃ value, parse limit = (value, true) ∧ request.1 ≤ value.
Proof.
  unfold validateLimit, is_empty. intros Hv Hne Hr. apply String.eqb_neq in Hne. rewrite Hne in Hv.
  destruct (parse limit) as [value [|]] eqn:Hp; simpl in Hv; [|done].
  apply add_if_nil in Hv. rewrite Hr in Hv. simpl in Hv. apply Z.ltb_ge in Hv. eauto.
Qed.

(** * Where a workload may be placed

    The keys by which it asks for nodes, and the selectors by which it names
    pods. *)

Definition nodeTermKeys (term : NodeSelectorTerm) : list string := map rq_Key (items term).

Definition podTerms (affinity : option PodAffinity) : list PodAffinityTerm :=
  match affinity with
  | None => []
  | Some a => (items (pf_Required a) ++ map wp_PodAffinityTerm (items (pf_Preferred a)))%list
  end.

Definition podTermsOf (r : WorkloadRuntime) : list PodAffinityTerm :=
  match rt_Affinity r with
  | None => []
  | Some a => (podTerms (af_PodAffinity a) ++ podTerms (af_PodAntiAffinity a))%list
  end.

Definition nodeTermsOf (r : WorkloadRuntime) : list NodeSelectorTerm :=
  match rt_Affinity r with
  | None => []
  | Some a =>
      match af_NodeAffinity a with
      | None => []
      | Some node =>
          (match na_Required node with Some terms => items terms | None => [] end ++
           map pt_Preference (items (na_Preferred node)))%list
      end
  end.

Definition placementKeys (r : WorkloadRuntime) : list string :=
  ((map_to_list (entries (rt_NodeSelector r))).*1 ++
   flat_map nodeTermKeys (nodeTermsOf r) ++
   map pa_TopologyKey (podTermsOf r) ++
   map ts_TopologyKey (items (rt_TopologySpreadConstraints r)) ++
   map to_Key (items (rt_Tolerations r)))%list.

Definition podSelectors (r : WorkloadRuntime) : list LabelSelector :=
  (map pa_LabelSelector (podTermsOf r) ++
   map ts_LabelSelector (items (rt_TopologySpreadConstraints r)))%list.

Definition probePorts (probe : WorkloadProbe) : list WorkloadProbePort :=
  (match pb_HTTPGet probe with Some action => [hg_Port action] | None => [] end ++
   match pb_TCPSocket probe with Some port => [port] | None => [] end)%list.

Definition probesOf (r : WorkloadRuntime) : list WorkloadProbe :=
  match rt_Probes r with
  | None => []
  | Some p => omap snd (phases p)
  end.

(** A port of the workload that a probe asks for. *)
Definition reaches (r : WorkloadRuntime) (port : WorkloadProbePort) : Prop :=
  ∃ p, p ∈ items (rt_Ports r) ∧ po_Protocol p = "TCP" ∧
    ((pp_Name port = po_Name p ∧ pp_Number port = 0) ∨ (pp_Name port = "" ∧ pp_Number port = po_ContainerPort p)).

(** A limit is at least the request it limits. *)
Definition covers (parse : string → Z * bool) (limit : string) (request : Z) : Prop :=
  limit = "" ∨ ∃ value, parse limit = (value, true) ∧ request ≤ value.

Record confined (applicationID : string) (r : WorkloadRuntime) : Prop := {
  cf_replicas : 1 ≤ rt_Replicas r ≤ 100;
  cf_priority : has_prefix "system-" (rt_PriorityClassName r) = false;
  cf_ports : NoDup (po_Name <$> items (rt_Ports r));
  cf_port : ∀ p, p ∈ items (rt_Ports r) → 1 ≤ po_ContainerPort p ≤ 65535 ∧ 0 ≤ po_ServicePort p ≤ 65535;
  cf_env : NoDup (en_Name <$> items (rt_Env r));
  cf_variable : ∀ e, e ∈ items (rt_Env r) → envAllowed e;
  cf_resources : ∃ cpu memory,
    cpuMilli (rl_CPU (rt_Requests r)) = (cpu, true) ∧ 0 < cpu ≤ 1000000 ∧
    memoryBytes (rl_Memory (rt_Requests r)) = (memory, true) ∧ 0 < memory ≤ 64 * 2 ^ 40 ∧
    ∀ limits, rt_Limits r = Some limits →
      covers cpuMilli (rl_CPU limits) cpu ∧ covers memoryBytes (rl_Memory limits) memory;
  cf_keys : ∀ key, key ∈ placementKeys r → reservedSchedulingKey key = false;
  cf_selectors : ∀ s, s ∈ podSelectors r →
    items (ls_MatchExpressions s) = [] ∧ entries (ls_MatchLabels s) = {[ applicationLabel := applicationID ]};
  cf_probes : ∀ probe port, probe ∈ probesOf r → port ∈ probePorts probe → reaches r port;
}.

(** * Selectors *)

Lemma dict_singleton (m : gmap string string) : size m = 1%nat → ∃ key value, m = {[ key := value ]}.
Proof.
  intros Hs. destruct (map_choose m) as (key & value & Hm); [intros ->; by rewrite map_size_empty in Hs|].
  exists key, value. rewrite <- (insert_delete_id m key value Hm) in Hs |- *.
  rewrite map_size_insert_None in Hs by apply lookup_delete_eq.
  assert (delete key m = ∅) as -> by (apply map_size_empty_inv; lia). done.
Qed.

Section selectors.
Context `{MapOrder}.

Lemma exactSelector_spec applicationID s :
  exactSelector applicationID s = true ↔
  applicationID ≠ "" ∧ items (ls_MatchExpressions s) = [] ∧
  entries (ls_MatchLabels s) = {[ applicationLabel := applicationID ]}.
Proof.
  unfold exactSelector, count, dict_size, is_empty.
  rewrite negb_true_iff, !orb_false_iff, !negb_false_iff, !Z.eqb_eq, String.eqb_neq, String.eqb_eq. split.
  - intros [[[Hne Hc] Hs] Hl]. split_and!; [done|by destruct (items _)|].
    assert (size (entries (ls_MatchLabels s)) = 1%nat) as Hsize by lia.
    apply dict_singleton in Hsize as (k & v & Hm). rewrite Hm in Hl |- *.
    destruct (decide (k = applicationLabel)) as [->|Hk].
    + rewrite lookup_singleton_eq in Hl. simpl in Hl. by rewrite Hl.
    + rewrite lookup_singleton_ne in Hl by done. simpl in Hl. congruence.
  - intros (Hne & -> & ->). by split_and!.
Qed.

Lemma requireExact_nil applicationID s pointer :
  requireExact applicationID s pointer = [] ↔ exactSelector applicationID s = true.
Proof. unfold requireExact. by rewrite add_if_nil, negb_false_iff. Qed.

Lemma validatePodTerms_nil applicationID affinity pointer :
  validatePodTerms applicationID affinity pointer = [] ↔
  ∀ t, t ∈ podTerms affinity → exactSelector applicationID (pa_LabelSelector t) = true.
Proof.
  destruct affinity as [a|]; simpl; [|by split; intros; set_solver].
  rewrite app_nil, !each_nil. setoid_rewrite requireExact_nil. setoid_rewrite elem_of_app. split.
  - intros [Hr Hp] t [[i Hi]%list_elem_of_lookup|(w & -> & [i Hi]%list_elem_of_lookup)%list_elem_of_fmap]; eauto.
  - intros Hall. split.
    + intros i t Hi. apply Hall. left. by eapply list_elem_of_lookup_2.
    + intros i w Hi. apply Hall. right. apply list_elem_of_fmap. exists w. split; [done|].
      by eapply list_elem_of_lookup_2.
Qed.

(** The scheduling of an application is accepted exactly when each of its
    selectors is the one label of the application. *)
Lemma ValidateApplicationScheduling_nil r applicationID :
  ValidateApplicationScheduling r applicationID = [] ↔
  ∀ s, s ∈ podSelectors r → exactSelector applicationID s = true.
Proof.
  unfold ValidateApplicationScheduling, podSelectors. rewrite app_nil, each_nil.
  setoid_rewrite requireExact_nil. setoid_rewrite elem_of_app.
  assert ((match rt_Affinity r with
           | None => []
           | Some a => validatePodTerms applicationID (af_PodAffinity a) "/runtime/affinity/podAffinity" ++
                       validatePodTerms applicationID (af_PodAntiAffinity a) "/runtime/affinity/podAntiAffinity"
           end)%list = [] ↔
          ∀ t, t ∈ podTermsOf r → exactSelector applicationID (pa_LabelSelector t) = true) as Hpods.
  { unfold podTermsOf. destruct (rt_Affinity r) as [a|]; [|by split; intros; set_solver].
    rewrite app_nil, !validatePodTerms_nil. set_solver. }
  rewrite Hpods. split.
  - intros [Hp Hs] s [(t & -> & Ht)%list_elem_of_fmap|(c & -> & [i Hi]%list_elem_of_lookup)%list_elem_of_fmap]; eauto.
  - intros Hall. split.
    + intros t Ht. apply Hall. left. apply list_elem_of_fmap. eauto.
    + intros i c Hi. apply Hall. right. apply list_elem_of_fmap. exists c. split; [done|].
      by eapply list_elem_of_lookup_2.
Qed.
End selectors.

(** * Keys *)

Section keys.
Context `{MapOrder}.

Definition unreserved (keys : list string) : Prop := ∀ key, key ∈ keys → reservedSchedulingKey key = false.

Lemma unreserved_app k1 k2 : unreserved (k1 ++ k2) ↔ unreserved k1 ∧ unreserved k2.
Proof. unfold unreserved. set_solver. Qed.

Lemma validateNodeTerm_nil term pointer : validateNodeTerm term pointer = [] → unreserved (nodeTermKeys term).
Proof.
  unfold validateNodeTerm. rewrite app_nil. intros [_ Hall] key (e & -> & He)%list_elem_of_fmap.
  destruct (each_elem _ _ _ Hall He) as [i Hi]. unfold validateNodeExpression in Hi.
  autorewrite with problems in Hi. tauto.
Qed.

Lemma validateNodeAffinity_nil node : validateNodeAffinity node = [] →
  ∀ term, term ∈ (match na_Required node with Some terms => items terms | None => [] end ++
                  map pt_Preference (items (na_Preferred node)))%list → unreserved (nodeTermKeys term).
Proof.
  unfold validateNodeAffinity. rewrite !app_nil. intros (_ & Hreq & _ & Hpref) term [Ht|Ht]%elem_of_app.
  - destruct (na_Required node) as [terms|]; [|set_solver]. apply app_nil in Hreq as [_ Hreq].
    destruct (each_elem _ _ _ Hreq Ht) as [i Hi]. by eapply validateNodeTerm_nil.
  - apply list_elem_of_fmap in Ht as (p & -> & Hp). destruct (each_elem _ _ _ Hpref Hp) as [i Hi].
    unfold validatePreferred in Hi. apply app_nil in Hi as [_ Hi]. by eapply validateNodeTerm_nil.
Qed.

Lemma validatePodAffinityTerm_nil term pointer :
  validatePodAffinityTerm term pointer = [] → reservedSchedulingKey (pa_TopologyKey term) = false.
Proof. unfold validatePodAffinityTerm. autorewrite with problems. tauto. Qed.

Lemma validatePodAffinity_nil affinity pointer :
  validatePodAffinity affinity pointer = [] → unreserved (map pa_TopologyKey (podTerms affinity)).
Proof.
  destruct affinity as [a|]; simpl; [|by intros _ key ?%elem_of_nil].
  rewrite !app_nil. intros (_ & _ & Hreq & Hpref) key (t & -> & Ht)%list_elem_of_fmap.
  apply elem_of_app in Ht as [Ht|(w & -> & Hw)%list_elem_of_fmap].
  - destruct (each_elem _ _ _ Hreq Ht) as [i Hi]. by eapply validatePodAffinityTerm_nil.
  - destruct (each_elem _ _ _ Hpref Hw) as [i Hi]. unfold validateWeighted in Hi.
    apply app_nil in Hi as [_ Hi]. by eapply validatePodAffinityTerm_nil.
Qed.

Lemma validateAffinity_nil r a : rt_Affinity r = Some a → validateAffinity a = [] →
  (∀ term, term ∈ nodeTermsOf r → unreserved (nodeTermKeys term)) ∧ unreserved (map pa_TopologyKey (podTermsOf r)).
Proof.
  intros Ha. unfold validateAffinity, nodeTermsOf, podTermsOf. rewrite Ha, !app_nil.
  intros (_ & Hn & Hp & Hq). split.
  - destruct (af_NodeAffinity a) as [node|]; [by apply validateNodeAffinity_nil|set_solver].
  - rewrite map_app, unreserved_app. split; by eapply validatePodAffinity_nil.
Qed.

Lemma validateNodeSelector_nil selector :
  validateNodeSelector selector "/runtime/nodeSelector" = [] → unreserved (map_to_list (entries selector)).*1.
Proof.
  unfold validateNodeSelector. rewrite app_nil, flat_map_nil.
  intros [_ Hall] key ([k v] & -> & Hin)%list_elem_of_fmap. rewrite <- (range_perm 1) in Hin.
  specialize (Hall _ Hin). cbn [validateSelectorEntry] in Hall. autorewrite with problems in Hall.
  destruct Hall as (_ & [?|?] & _); [done|tauto].
Qed.

Lemma validateScheduling_nil r : validateScheduling r = [] → unreserved (placementKeys r).
Proof.
  unfold validateScheduling, placementKeys. rewrite !app_nil, !unreserved_app.
  intros (Hsel & Haff & _ & Hspread & _ & Htol).
  assert ((∀ term, term ∈ nodeTermsOf r → unreserved (nodeTermKeys term)) ∧
          unreserved (map pa_TopologyKey (podTermsOf r))) as [Hn Hp].
  { destruct (rt_Affinity r) as [a|] eqn:Ha; [by eapply validateAffinity_nil|].
    unfold nodeTermsOf, podTermsOf. rewrite Ha. split; [set_solver|by intros key ?%elem_of_nil]. }
  split_and!; [by apply validateNodeSelector_nil| |done| |].
  - intros key Hkey%list_elem_of_In%in_flat_map. destruct Hkey as (term & Ht & Hkey).
    eapply (Hn term); by apply list_elem_of_In.
  - intros key (c & -> & Hc)%list_elem_of_fmap. destruct (each_elem _ _ _ Hspread Hc) as [i Hi].
    unfold validateSpread in Hi. autorewrite with problems in Hi. tauto.
  - intros key (t & -> & Ht)%list_elem_of_fmap. destruct (each_elem _ _ _ Htol Ht) as [i Hi].
    unfold validateToleration in Hi. autorewrite with problems in Hi. tauto.
Qed.

(** * Probes and resources *)

Lemma probeTarget_reaches r port : existsb (probeTarget port) (items (rt_Ports r)) = true → reaches r port.
Proof.
  rewrite existsb_elem_of. intros (p & Hp & Ht). exists p. unfold probeTarget, is_empty in Ht.
  apply andb_true_iff in Ht as [Htcp [Ht|Ht]%orb_true_iff]; bool_prop; split_and!; try done; [left|right]; by split.
Qed.

Lemma validateProbe_nil r phase probe port :
  validateProbe r phase probe = [] → port ∈ probePorts probe → reaches r port.
Proof.
  unfold validateProbe, probePorts. rewrite !app_nil. intros (Hhttp & Htcp & _) [Hp|Hp]%elem_of_app.
  - destruct (pb_HTTPGet probe) as [action|]; [|set_solver]. apply list_elem_of_singleton in Hp as ->.
    unfold validateHTTPGet, validateProbePort in Hhttp. rewrite !app_nil, !add_if_nil, !negb_false_iff in Hhttp.
    destruct Hhttp as (_ & _ & Hhttp). by apply probeTarget_reaches.
  - destruct (pb_TCPSocket probe) as [p|]; [|set_solver]. apply list_elem_of_singleton in Hp as ->.
    unfold validateProbePort in Htcp. rewrite add_if_nil, negb_false_iff in Htcp. by apply probeTarget_reaches.
Qed.

Lemma validateProbes_nil r probe port :
  validateProbes r = [] → probe ∈ probesOf r → port ∈ probePorts probe → reaches r port.
Proof.
  unfold validateProbes, probesOf. destruct (rt_Probes r) as [probes|]; [|set_solver].
  rewrite app_nil, flat_map_nil. intros [Hall _] ([phase o] & Hin & Ho)%list_elem_of_omap.
  simpl in Ho. subst o. apply (validateProbe_nil r phase). exact (Hall _ Hin).
Qed.

Lemma validateResources_nil r : validateResources r = [] → ∃ cpu memory,
  cpuMilli (rl_CPU (rt_Requests r)) = (cpu, true) ∧ memoryBytes (rl_Memory (rt_Requests r)) = (memory, true) ∧
  ∀ limits, rt_Limits r = Some limits →
    covers cpuMilli (rl_CPU limits) cpu ∧ covers memoryBytes (rl_Memory limits) memory.
Proof.
  unfold validateResources. autorewrite with problems. intros (Hcpu & Hmem & Hlim).
  destruct (cpuMilli _) as [cpu cpuOK] eqn:Ec, (memoryBytes _) as [memory memOK] eqn:Em. simpl in *. subst.
  exists cpu, memory. split_and!; [done|done|]. intros limits Hl. rewrite Hl in Hlim.
  rewrite !app_nil in Hlim. destruct Hlim as (_ & Hc & Hm). unfold covers.
  split; [destruct (decide (rl_CPU limits = "")) as [|Hne]|destruct (decide (rl_Memory limits = "")) as [|Hne]];
    try (by left); right; [by apply (validateLimit_nil _ _ _ _ _ _ Hc)|by apply (validateLimit_nil _ _ _ _ _ _ Hm)].
Qed.
End keys.

(** * The theorem *)

Section confinement.
Context `{MapOrder}.

(** C19. A workload that both validators accept stays within its application:
    bounded replicas, ports and resources, limits no lower than requests,
    distinct ports and variables, no key reserved for the control plane or the
    builders among those that place it, probes only of its own TCP ports - and
    every pod it selects, for affinity or for spreading, is chosen by exactly
    the label of the application. *)
Theorem workload_confined r applicationID :
  ValidateWorkloadRuntime r = [] → ValidateApplicationScheduling r applicationID = [] →
  confined applicationID r.
Proof.
  unfold ValidateWorkloadRuntime. rewrite !app_nil, ValidateApplicationScheduling_nil.
  intros (Hkind & _ & _ & Hports & _ & Henv & Hres & Hsched & Hprobes) Hsel.
  apply validatePorts_nil in Hports as [Hpn Hp]. apply validateEnv_nil in Henv as [Hen He].
  apply validateResources_nil in Hres as (cpu & memory & Hcpu & Hmem & Hlim).
  unfold validateKind in Hkind. rewrite !app_nil in Hkind. destruct Hkind as (_ & Hprio & Hrep & _).
  split; try done.
  - by apply add_if_nil, outside_false in Hrep.
  - by destruct (_ && _); [|apply add_if_nil in Hprio].
  - intros p Hin. by destruct (Hp p Hin) as (_ & ? & ? & _).
  - intros e Hin. by destruct (He e Hin).
  - exists cpu, memory. pose proof (cpuMilli_bounds _ _ Hcpu). pose proof (memoryBytes_bounds _ _ Hmem). eauto 10.
  - by apply validateScheduling_nil.
  - intros s Hs. by apply Hsel, exactSelector_spec in Hs as (_ & ? & ?).
  - intros probe port Hprobe Hport. by eapply validateProbes_nil.
Qed.

End confinement.

(** * Round trip of the legacy fields *)

Section legacy.
Context `{MapOrder}.

Definition ordinaryEnv (ordinary : gmap string string) (key : string) : WorkloadEnv :=
  mkEnv key (Some (default "" (ordinary !! key))) None.

Lemma lookup_addOrdinary ordinary keys k : ∀ acc,
  (∀ key, key ∈ keys → is_Some (ordinary !! key)) →
  foldl addOrdinary acc (map (ordinaryEnv ordinary) keys) !! k =
  if decide (k ∈ keys) then ordinary !! k else acc !! k.
Proof.
  induction keys as [|key keys IH]; intros acc Hin; cbn [foldl map].
  - case_decide; [set_solver|done].
  - rewrite IH by (intros; apply Hin; set_solver). unfold addOrdinary, ordinaryEnv. simpl.
    destruct (Hin key) as [value Hv]; [set_solver|]. rewrite Hv. simpl.
    destruct (decide (k = key)) as [->|]; [rewrite lookup_insert_eq|rewrite lookup_insert_ne by done];
      repeat case_decide; set_solver.
Qed.

Lemma legacy_fields_roundtrip port ordinary :
  LegacyWorkloadFields (DefaultWorkloadRuntime port ordinary) = (1, port, ordinary).
Proof.
  unfold LegacyWorkloadFields, DefaultWorkloadRuntime, items. simpl. f_equal.
  apply map_eq. intros k.
  change (foldl addOrdinary ∅ (map (ordinaryEnv ordinary) (sort_strings (range 0 ordinary).*1)) !! k = ordinary !! k).
  assert (∀ key, key ∈ sort_strings (range 0 ordinary).*1 ↔ is_Some (ordinary !! key)) as Hkeys.
  { intros key. unfold sort_strings. by rewrite elem_of_sort_slice, range_keys, elem_of_dom. }
  rewrite lookup_addOrdinary by (intros; by apply Hkeys). case_decide as Hk; [done|].
  rewrite Hkeys in Hk. rewrite lookup_empty. symmetry. by apply eq_None_not_Some.
Qed.
End legacy.

(** * Examples *)

(** A fraction may carry a sign: what Kubernetes refuses, this parser takes for
    950 millicores. *)
Example cpuMilli_sign : cpuMilli "1.-5" = (950, true) ∧ cpuMilli "1.5" = (1500, true) ∧ cpuMilli "0.-50" = (-50, false).
Proof. done. Qed.

Example quantities :
  (cpuMilli "50m", memoryBytes "100Mi", memoryBytes "65Ti", memoryBytes "010Mi") =
  ((50, true), (104857600, true), (0, false), (0, false)).
Proof. done. Qed.

Definition shopID : string := "33333333-3333-4333-8333-333333333333".

(** A database that keeps its replicas apart and is probed on its port. *)
Definition shopDatabase : WorkloadRuntime :=
  let selector := mkSelector (Some {[ applicationLabel := shopID ]}) None in
  mkRuntime "StatefulSet" 3 "OnDelete" None (Some ["--verbose"]) "/var/lib/db" "" (Some 30)
    (Some [mkPort "db" 5432 0 "TCP"])
    (Some [mkEnv "PGDATA" (Some "/var/lib/db") None;
           mkEnv "PASSWORD" None (Some (mkSecretRef shopID "db" "password" 1))])
    (mkResources "500m" "1Gi") (Some (mkResources "2" "")) (Some {[ "disk" := "ssd" ]})
    (Some (mkAffinity None None
      (Some (mkPodAffinity (Some [mkPodTerm selector "kubernetes.io/hostname"]) None))))
    (Some [mkSpread 1 "topology.kubernetes.io/zone" "ScheduleAnyway" selector None "Honor" ""])
    (Some [mkToleration "dedicated" "Equal" "db" "NoExecute" (Some 60)]) "important"
    (Some (mkProbes None None (Some (mkProbe None (Some (mkProbePort "db" 0)) None None (Some 10) None (Some 1) None)))).

Lemma workload_confined_witness : confined shopID (NormalizeWorkloadRuntime shopDatabase).
Proof. apply workload_confined; vm_compute; reflexivity. Defined.

(** A workload that asks for the control plane, and one that selects the pods
    of another application. *)
Example greedy_refused :
  map we_Code (ValidateWorkloadRuntime (mkRuntime "" 1 "" None None "" "" None (Some [mkPort "http" 80 0 "TCP"]) None
    (mkResources "1" "1Gi") (Some (mkResources "0.5" "")) (Some {[ "node-role.kubernetes.io/control-plane" := "" ]})
    None None None "system-node-critical" None)) =
  ["ReservedPriorityClass"; "LimitBelowRequest"; "ReservedSchedulingKey"].
Proof. vm_compute. reflexivity. Qed.

Example other_application_refused :
  map we_Pointer (ValidateApplicationScheduling shopDatabase "44444444-4444-4444-8444-444444444444") =
  ["/runtime/affinity/podAntiAffinity/requiredDuringSchedulingIgnoredDuringExecution/0/labelSelector";
   "/runtime/topologySpreadConstraints/0/labelSelector"].
Proof. vm_compute. reflexivity. Qed.
