(* ===== verification/JsonValues.v ===== *)
(** JSON values as [encoding/json] reads and writes them: what
    [internal/appconfig] keeps of a document.

    A value decoded with [UseNumber] keeps the text of a number.  An object is
    Go's [map[string]any]; here it is the list of its entries in ascending order
    of keys, the order in which [json.Marshal] writes them, so that equal
    objects are equal lists.  Values are immutable: a copy is the value. *)

From S2P Require Import Prelude Regexp GoStrings Digest.
From Stdlib Require Import Ascii.

Open Scope Z_scope.

Inductive value : Type :=
| VNull
| VBool (b : bool)
| VNumber (text : string)
| VString (s : string)
| VArray (elements : list value)
| VObject (members : list (string * value)).

#[export] Instance value_eq_dec : EqDecision value.
Proof.
  refine (fix go (v1 v2 : value) : Decision (v1 = v2) :=
    let _ : EqDecision value := @go in
    match v1, v2 with
    | VNull, VNull => left eq_refl
    | VBool a, VBool b => cast_if (decide (a = b))
    | VNumber a, VNumber b => cast_if (decide (a = b))
    | VString a, VString b => cast_if (decide (a = b))
    | VArray a, VArray b => cast_if (decide (a = b))
    | VObject a, VObject b => cast_if (decide (a = b))
    | _, _ => right _
    end); congruence.
Defined.

Definition members_of : Type := list (string * value).

(** * Objects *)

Section members.
Context {A : Type}.

Fixpoint get (key : string) (members : list (string * A)) : option A :=
  match members with
  | [] => None
  | (k, v) :: rest => if String.eqb k key then Some v else get key rest
  end.

(** [m[key] = v] *)
Fixpoint put (key : string) (v : A) (members : list (string * A)) : list (string * A) :=
  match members with
  | [] => [(key, v)]
  | (k, w) :: rest =>
      if String.eqb k key then (key, v) :: rest
      else if str_less key k then (key, v) :: members
      else (k, w) :: put key v rest
  end.

(** [delete(m, key)] *)
Definition remove (key : string) (members : list (string * A)) : list (string * A) :=
  List.filter (λ kv, negb (String.eqb kv.1 key)) members.

(** Ascending keys. *)
Fixpoint ascending (members : list (string * A)) : bool :=
  match members with
  | [] => true
  | (k, _) :: rest => forallb (λ kv, str_less k kv.1) rest && ascending rest
  end.
End members.

(** The type assertions [v.(map[string]any)], [v.([]any)] and [v.(string)] of
    a value that may be missing. *)
Definition as_object (v : option value) : option members_of :=
  match v with Some (VObject members) => Some members | _ => None end.
Definition as_array (v : option value) : option (list value) :=
  match v with Some (VArray elements) => Some elements | _ => None end.
Definition as_string (v : option value) : option string :=
  match v with Some (VString s) => Some s | _ => None end.

(** A failed assertion leaves a nil map, in which every key is missing. *)
Definition object_or_nil (v : option value) : members_of := default [] (as_object v).

(** [v != nil], and [v == "s"], of a map entry. *)
Definition not_nil (v : option value) : bool :=
  match v with None | Some VNull => false | Some _ => true end.
Definition equals_string (v : option value) (s : string) : bool :=
  match v with Some (VString t) => String.eqb t s | _ => false end.
Definition equals_true (v : option value) : bool :=
  match v with Some (VBool b) => b | _ => false end.

(** * [json.Marshal] *)

Definition dquote : ascii := "034".
Definition backslash : ascii := "092".

Definition unicode_escape (digits : string) : string := String backslash (String "u" digits).

Definition escape_byte (c : ascii) : string :=
  let short (e : ascii) := String backslash (String e "") in
  if Ascii.eqb c dquote || Ascii.eqb c backslash then short c
  else if Ascii.eqb c "008" then short "b"%char
  else if Ascii.eqb c "012" then short "f"%char
  else if Ascii.eqb c "010" then short "n"%char
  else if Ascii.eqb c "013" then short "r"%char
  else if Ascii.eqb c "009" then short "t"%char
  else if in_range "000" "031" c || is_one_of "<>&" c
  then unicode_escape ("00" +:+ hex_encode [Z.of_N (N_of_ascii c)])
  else String c "".

(** The well-formed sequences of three and of four bytes. *)
Definition three_bytes (a b c : ascii) : bool :=
  in_range "224" "239" a &&
  ((if Ascii.eqb a "224" then in_range "160" "191" b
    else if Ascii.eqb a "237" then in_range "128" "159" b else utf8_tail b) && utf8_tail c).

Definition four_bytes (a b c d : ascii) : bool :=
  in_range "240" "244" a &&
  (if Ascii.eqb a "240" then in_range "144" "191" b
   else if Ascii.eqb a "244" then in_range "128" "143" b else utf8_tail b) &&
  utf8_tail c && utf8_tail d.

(** U+2028 and U+2029 *)
Definition line_separator (a b c : ascii) : bool :=
  Ascii.eqb a "226" && Ascii.eqb b "128" && (Ascii.eqb c "168" || Ascii.eqb c "169").

Definition invalid_rune : string := unicode_escape "fffd".

(** The text between the quotes; a byte that begins no rune is replaced. *)
Fixpoint quoted (s : string) : string :=
  match s with
  | "" => ""
  | String a r1 =>
      if in_range "000" "127" a then escape_byte a +:+ quoted r1
      else match r1 with
      | "" => invalid_rune
      | String b r2 =>
          if in_range "194" "223" a && utf8_tail b then String a (String b (quoted r2))
          else match r2 with
          | "" => invalid_rune +:+ quoted r1
          | String c r3 =>
              if three_bytes a b c then
                (if line_separator a b c
                 then unicode_escape (if Ascii.eqb c "168" then "2028" else "2029")
                 else String a (String b (String c ""))) +:+ quoted r3
              else match r3 with
              | "" => invalid_rune +:+ quoted r1
              | String d r4 =>
                  if four_bytes a b c d then String a (String b (String c (String d (quoted r4))))
                  else invalid_rune +:+ quoted r1
              end
          end
      end
  end.

Definition quote (s : string) : string := String dquote (quoted s +:+ String dquote "").

(** The text of a number that was decoded is a number, which is written as it
    is; the number without a text is 0. *)
Fixpoint Marshal (v : value) : string :=
  match v with
  | VNull => "null"
  | VBool b => if b then "true" else "false"
  | VNumber text => if String.eqb text "" then "0" else text
  | VString s => quote s
  | VArray elements => "[" +:+ str_join "," (map Marshal elements) +:+ "]"
  | VObject members =>
      "{" +:+ str_join "," (map (λ kv, quote kv.1 +:+ ":" +:+ Marshal kv.2) members) +:+ "}"
  end.

(** [json.MarshalIndent(v, prefix, "  ")] at some depth. *)
Definition newline : string := String "010" "".

Fixpoint indent (depth : nat) : string := match depth with O => "" | S d => "  " +:+ indent d end.

Fixpoint MarshalIndent (depth : nat) (v : value) : string :=
  let here := newline +:+ indent depth in
  let inner := newline +:+ indent (S depth) in
  match v with
  | VArray (_ :: _ as elements) =>
      "[" +:+ inner +:+ str_join ("," +:+ inner) (map (MarshalIndent (S depth)) elements) +:+ here +:+ "]"
  | VObject (_ :: _ as members) =>
      "{" +:+ inner +:+
      str_join ("," +:+ inner) (map (λ kv, quote kv.1 +:+ ": " +:+ MarshalIndent (S depth) kv.2) members) +:+
      here +:+ "}"
  | _ => Marshal v
  end.

(** * What a decoder returns

    Strings of valid UTF-8, numbers with a text, objects in order. *)

Definition is_number_byte (c : ascii) : bool := is_digit c || is_one_of "+-.eE" c.

Definition number_text (text : string) : bool :=
  negb (String.eqb text "") && forallb is_number_byte (String.list_ascii_of_string text).

Fixpoint valid_value (v : value) : bool :=
  match v with
  | VNull | VBool _ => true
  | VNumber text => number_text text
  | VString s => valid_utf8 s
  | VArray elements => forallb valid_value elements
  | VObject members => ascending members && forallb (λ kv, valid_utf8 kv.1 && valid_value kv.2) members
  end.

(** * Facts about objects *)

Section members_facts.
Context {A : Type}.
Implicit Types (m : list (string * A)).

Lemma str_less_ne a b : str_less a b = true → a ≠ b.
Proof. intros H ->. by rewrite str_less_irrefl in H. Qed.

Lemma ascending_cons k (v : A) m :
  ascending ((k, v) :: m) = true ↔ (∀ kv, kv ∈ m → str_less k kv.1 = true) ∧ ascending m = true.
Proof. simpl. by rewrite andb_true_iff, forallb_elem_of. Qed.

Lemma get_elem_of m k v : get k m = Some v → (k, v) ∈ m.
Proof.
  induction m as [|[k' v'] m IH]; simpl; [done|]. destruct (String.eqb_spec k' k) as [->|].
  - intros [= ->]. by left.
  - intros. right. auto.
Qed.

Lemma get_not_elem m k : k ∉ m.*1 ↔ get k m = None.
Proof.
  induction m as [|[k' v'] m IH]; simpl; [set_solver|]. destruct (String.eqb_spec k' k) as [->|]; set_solver.
Qed.

Lemma get_put_eq m k v : get k (put k v m) = Some v.
Proof.
  induction m as [|[k' v'] m IH]; simpl; [by rewrite String.eqb_refl|].
  destruct (String.eqb_spec k' k); simpl; [by rewrite String.eqb_refl|].
  destruct (str_less k k'); simpl; [by rewrite String.eqb_refl|].
  by destruct (String.eqb_spec k' k).
Qed.

Lemma get_put_ne m k k' v : k ≠ k' → get k' (put k v m) = get k' m.
Proof.
  intros Hne. induction m as [|[k'' w] m IH]; simpl; [by destruct (String.eqb_spec k k')|].
  destruct (String.eqb_spec k'' k) as [->|]; simpl; [by destruct (String.eqb_spec k k')|].
  destruct (str_less k k''); simpl.
  - by destruct (String.eqb_spec k k').
  - by destruct (String.eqb_spec k'' k').
Qed.

Lemma get_remove_eq m k : get k (remove k m) = None.
Proof.
  apply get_not_elem. intros (kv & -> & Hin)%list_elem_of_fmap. apply elem_of_list_filter in Hin as [_ Hne].
  by rewrite String.eqb_refl in Hne.
Qed.

Lemma get_remove_ne m k k' : k ≠ k' → get k' (remove k m) = get k' m.
Proof.
  intros Hne. induction m as [|[k'' w] m IH]; simpl; [done|].
  destruct (String.eqb_spec k'' k) as [->|]; simpl; [by destruct (String.eqb_spec k k')|].
  by destruct (String.eqb_spec k'' k').
Qed.

Lemma put_elem_of m k v kv : kv ∈ put k v m → kv = (k, v) ∨ kv ∈ m.
Proof.
  induction m as [|[k' w] m IH]; simpl; [set_solver|].
  destruct (String.eqb k' k), (str_less k k'); set_solver.
Qed.

Lemma ascending_put m k v : ascending m = true → ascending (put k v m) = true.
Proof.
  induction m as [|[k' w] m IH]; [done|]. rewrite ascending_cons. intros [Hk Hm]. simpl put.
  destruct (String.eqb_spec k' k) as [->|Hne]; [by apply ascending_cons|].
  destruct (str_less k k') eqn:Hless; apply ascending_cons.
  - split; [|by apply ascending_cons]. intros [k2 v2] [[= -> ->]|Hin]%elem_of_cons; [done|].
    by apply (tl_trans _ str_less_total _ k'); [|apply (Hk (k2, v2))].
  - split; [|by apply IH]. intros kv [->|Hin]%put_elem_of; [|by apply Hk]. simpl.
    destruct (str_less k' k) eqn:E; [done|]. by destruct Hne; apply str_le_antisym.
Qed.

Lemma ascending_remove m k : ascending m = true → ascending (remove k m) = true.
Proof.
  induction m as [|[k' w] m IH]; [done|]. rewrite ascending_cons. intros [Hk Hm]. simpl.
  destruct (negb (String.eqb k' k)); [|by apply IH]. apply ascending_cons. split; [|by apply IH].
  intros kv [Hin _]%elem_of_list_filter. by apply Hk.
Qed.

(** Objects in order with the same entries are the same list. *)
Lemma ascending_head_less k (v : A) m k' v' : ascending ((k, v) :: m) = true → get k' m = Some v' → str_less k k' = true.
Proof. rewrite ascending_cons. intros [Hk _] Hg%get_elem_of. by apply (Hk (k', v')). Qed.

Lemma ascending_ext m1 : ∀ m2, ascending m1 = true → ascending m2 = true →
  (∀ k, get k m1 = get k m2) → m1 = m2.
Proof.
  induction m1 as [|[k1 v1] m1 IH]; intros [|[k2 v2] m2] H1 H2 Heq; [done| | |].
  - specialize (Heq k2). simpl in Heq. by rewrite String.eqb_refl in Heq.
  - specialize (Heq k1). simpl in Heq. by rewrite String.eqb_refl in Heq.
  - assert (k1 = k2) as <-.
    { pose proof (Heq k1) as E1. pose proof (Heq k2) as E2. simpl in E1, E2.
      rewrite String.eqb_refl in E1, E2. destruct (String.eqb_spec k2 k1) as [|Hne]; [done|].
      destruct (String.eqb_spec k1 k2) as [|_]; [congruence|].
      pose proof (ascending_head_less _ _ _ _ _ H2 (eq_sym E1)) as L1.
      pose proof (ascending_head_less _ _ _ _ _ H1 E2) as L2.
      by rewrite (str_less_asym _ _ L1) in L2. }
    pose proof (Heq k1) as E. simpl in E. rewrite String.eqb_refl in E. injection E as <-. f_equal.
    apply ascending_cons in H1 as [L1 H1], H2 as [L2 H2]. apply IH; [done|done|]. intros k.
    destruct (decide (k = k1)) as [->|Hne].
    + assert (∀ m, (∀ kv, kv ∈ m → str_less k1 kv.1 = true) → get k1 m = None) as Hnone.
      { intros m Hm. destruct (get k1 m) as [v|] eqn:Hg; [|done]. apply get_elem_of, Hm in Hg. simpl in Hg.
        by rewrite str_less_irrefl in Hg. }
      by rewrite !Hnone.
    + specialize (Heq k). simpl in Heq. by destruct (String.eqb_spec k1 k).
Qed.
End members_facts.

(** * Induction over values *)

Section value_ind.
Variable P : value → Prop.
Hypothesis Hnull : P VNull.
Hypothesis Hbool : ∀ b, P (VBool b).
Hypothesis Hnumber : ∀ text, P (VNumber text).
Hypothesis Hstring : ∀ s, P (VString s).
Hypothesis Harray : ∀ elements, Forall P elements → P (VArray elements).
Hypothesis Hobject : ∀ members, Forall (λ kv, P kv.2) members → P (VObject members).

Fixpoint value_ind' (v : value) : P v :=
  match v with
  | VNull => Hnull
  | VBool b => Hbool b
  | VNumber text => Hnumber text
  | VString s => Hstring s
  | VArray elements =>
      Harray elements ((fix all (l : list value) : Forall P l :=
        match l with [] => Forall_nil_2 _ | v :: l' => Forall_cons_2 _ _ _ (value_ind' v) (all l') end) elements)
  | VObject members =>
      Hobject members ((fix all (l : list (string * value)) : Forall (λ kv, P kv.2) l :=
        match l with [] => Forall_nil_2 _ | kv :: l' => Forall_cons_2 _ _ _ (value_ind' kv.2) (all l') end) members)
  end.
End value_ind.
