(* ===== verification/JsonEncoding.v ===== *)
(** [json.Marshal] loses nothing: two decoded values with the same encoding are
    the same value.  This is what lets [internal/appconfig] compare documents by
    their encodings. *)

From S2P Require Import Prelude Regexp GoStrings Digest JsonValues.
From Stdlib Require Import Ascii.

Open Scope Z_scope.

(** * Strings

    [unquote] reads a quoted text back, up to the closing quote. *)

Definition hex_nibble (c : ascii) : N :=
  if is_digit c then (N_of_ascii c - 48)%N else (N_of_ascii c - 87)%N.

Definition unescape_short (e : ascii) : ascii :=
  if Ascii.eqb e "b" then "008" else if Ascii.eqb e "f" then "012" else if Ascii.eqb e "n" then "010"
  else if Ascii.eqb e "r" then "013" else if Ascii.eqb e "t" then "009" else e.

(** The characters that an escape of four digits stands for. *)
Definition unescape_rune (h1 h2 h3 h4 : ascii) (rest : string) : string :=
  if Ascii.eqb h1 "2" then String "226" (String "128" (String (if Ascii.eqb h4 "8" then "168" else "169") rest))
  else String (ascii_of_N (16 * hex_nibble h3 + hex_nibble h4)) rest.

Definition prepend (f : string → string) (o : option (string * string)) : option (string * string) :=
  match o with Some (s, rest) => Some (f s, rest) | None => None end.

Fixpoint unquote (text : string) : option (string * string) :=
  match text with
  | "" => None
  | String c r =>
      if Ascii.eqb c dquote then Some ("", r)
      else if Ascii.eqb c backslash then
        match r with
        | String "u" (String h1 (String h2 (String h3 (String h4 r')))) =>
            prepend (unescape_rune h1 h2 h3 h4) (unquote r')
        | String e r' => prepend (String (unescape_short e)) (unquote r')
        | "" => None
        end
      else prepend (String c) (unquote r)
  end.

Lemma unquote_literal c text :
  in_range "000" "127" c = false → unquote (String c text) = prepend (String c) (unquote text).
Proof.
  intros Hc. simpl. destruct (Ascii.eqb_spec c dquote) as [->|]; [done|].
  by destruct (Ascii.eqb_spec c backslash) as [->|].
Qed.

Lemma unquote_escape_byte c text :
  in_range "000" "127" c = true → unquote (escape_byte c +:+ text) = prepend (String c) (unquote text).
Proof. destruct c as [[] [] [] [] [] [] [] []]; try done; reflexivity. Qed.

Lemma tail_literal b : utf8_tail b = true → in_range "000" "127" b = false.
Proof. destruct b as [[] [] [] [] [] [] [] []]; done. Qed.

Lemma lead_literal lo hi b : (128 <= byte_code lo)%N → in_range lo hi b = true → in_range "000" "127" b = false.
Proof.
  unfold in_range. intros Hlo [H1 _]%andb_true_iff. apply N.leb_le in H1. apply andb_false_iff. right.
  apply N.leb_gt. change (byte_code "127") with 127%N. lia.
Qed.

Lemma three_literal a b c : three_bytes a b c = true →
  in_range "000" "127" a = false ∧ in_range "000" "127" b = false ∧ in_range "000" "127" c = false.
Proof.
  unfold three_bytes. intros [Ha [Hb Hc]%andb_true_iff]%andb_true_iff. split_and!.
  - by eapply lead_literal, Ha.
  - destruct (Ascii.eqb a "224"); [by eapply lead_literal, Hb|].
    destruct (Ascii.eqb a "237"); [by eapply lead_literal, Hb|by apply tail_literal].
  - by apply tail_literal.
Qed.

Lemma four_literal a b c d : four_bytes a b c d = true →
  in_range "000" "127" a = false ∧ in_range "000" "127" b = false ∧ in_range "000" "127" c = false ∧
  in_range "000" "127" d = false.
Proof.
  unfold four_bytes. intros [[[Ha Hb]%andb_true_iff Hc]%andb_true_iff Hd]%andb_true_iff. split_and!.
  - by eapply lead_literal, Ha.
  - destruct (Ascii.eqb a "240"); [by eapply lead_literal, Hb|].
    destruct (Ascii.eqb a "244"); [by eapply lead_literal, Hb|by apply tail_literal].
  - by apply tail_literal.
  - by apply tail_literal.
Qed.

Lemma line_separator_spec a b c : line_separator a b c = true →
  String a (String b (String c "")) =
  String "226" (String "128" (String (if Ascii.eqb c "168" then "168" else "169") "")).
Proof.
  unfold line_separator. intros [[->%Ascii.eqb_eq ->%Ascii.eqb_eq]%andb_true_iff Hc]%andb_true_iff.
  apply orb_true_iff in Hc as [->%Ascii.eqb_eq| ->%Ascii.eqb_eq]; done.
Qed.

Lemma unquote_separator c text :
  unquote (unicode_escape (if Ascii.eqb c "168" then "2028" else "2029") +:+ text) =
  prepend (λ s, String "226" (String "128" (String (if Ascii.eqb c "168" then "168" else "169") s))) (unquote text).
Proof. by destruct (Ascii.eqb c "168"). Qed.

Lemma prepend_prepend f g o : prepend f (prepend g o) = prepend (λ s, f (g s)) o.
Proof. by destruct o as [[]|]. Qed.

Lemma unquote_quoted n : ∀ s rest, (String.length s <= n)%nat → valid_utf8 s = true →
  unquote (quoted s +:+ String dquote rest) = Some (s, rest).
Proof.
  induction n as [|n IH]; intros [|a r1] rest Hn Hv; simpl in Hn; try lia; [done|done|].
  cbn [quoted valid_utf8] in *.
  destruct (in_range "000" "127" a) eqn:Ha.
  { rewrite str_app_assoc, unquote_escape_byte, IH by (done || lia). done. }
  destruct r1 as [|b r2]; [done|]. cbn [String.length] in Hn.
  destruct (in_range "194" "223" a) eqn:Ha2.
  { apply andb_true_iff in Hv as [Hb Hv]. rewrite Hb. cbn [andb].
    rewrite !str_app_cons, !unquote_literal by (done || by apply tail_literal).
    rewrite IH by (done || lia). done. }
  cbn [andb]. destruct r2 as [|c r3]; [done|]. cbn [String.length] in Hn.
  destruct (in_range "224" "239" a) eqn:Ha3.
  { apply andb_true_iff in Hv as [Hbc Hv].
    assert (three_bytes a b c = true) as H3 by (unfold three_bytes; rewrite Ha3; exact Hbc).
    rewrite H3. destruct (line_separator a b c) eqn:Hl.
    - apply line_separator_spec in Hl. injection Hl as -> -> Hc.
      rewrite str_app_assoc, unquote_separator, IH by (done || lia). simpl. by rewrite <- Hc.
    - apply three_literal in H3 as (? & ? & ?). rewrite !str_app_cons, str_app_nil, !unquote_literal by done.
      rewrite IH by (done || lia). done. }
  assert (three_bytes a b c = false) as -> by (unfold three_bytes; by rewrite Ha3).
  destruct r3 as [|d r4]; [done|]. cbn [String.length] in Hn.
  rewrite !andb_true_iff in Hv. destruct Hv as [[[[Ha4 Hb] Hc] Hd] Hv].
  assert (four_bytes a b c d = true) as H4 by (unfold four_bytes; by rewrite Ha4, Hb, Hc, Hd).
  rewrite H4. apply four_literal in H4 as (? & ? & ? & ?).
  rewrite !str_app_cons, !unquote_literal by done. rewrite IH by (done || lia). done.
Qed.

Lemma quote_prefix s1 s2 r1 r2 : valid_utf8 s1 = true → valid_utf8 s2 = true →
  quote s1 +:+ r1 = quote s2 +:+ r2 → s1 = s2 ∧ r1 = r2.
Proof.
  intros H1 H2 Heq.
  assert (∀ s r, valid_utf8 s = true → unquote (str_drop 1 (quote s +:+ r)) = Some (s, r)) as Hread.
  { intros s r Hs. unfold quote. rewrite str_app_cons. cbn [str_drop]. rewrite str_app_assoc, str_app_cons, str_app_nil.
    by eapply unquote_quoted. }
  pose proof (Hread s1 r1 H1) as E1. rewrite Heq, Hread in E1 by done. by simplify_eq.
Qed.

(** * Values

    An encoding tells its kind by its first byte, and where it ends by what can
    follow it inside a document. *)

Definition delimited (rest : string) : bool :=
  match rest with "" => true | String c _ => is_one_of ",]}" c end.

Definition kind (v : value) : nat :=
  match v with
  | VNull => 0 | VBool _ => 1 | VNumber _ => 2 | VString _ => 3 | VArray _ => 4 | VObject _ => 5
  end.

Definition kind_byte (c : ascii) : nat :=
  if is_number_byte c then 2
  else if Ascii.eqb c dquote then 3
  else if Ascii.eqb c "[" then 4
  else if Ascii.eqb c "{" then 5
  else if Ascii.eqb c "n" then 0
  else if Ascii.eqb c "t" || Ascii.eqb c "f" then 1 else 6.

Lemma number_text_cons text : number_text text = true →
  ∃ c s, text = String c s ∧ is_number_byte c = true ∧ forallb is_number_byte (String.list_ascii_of_string s) = true.
Proof.
  unfold number_text. destruct text as [|c s]; [done|]. simpl. intros [Hc Hs]%andb_true_iff. eauto.
Qed.

Lemma Marshal_number text : number_text text = true → Marshal (VNumber text) = text.
Proof. by intros (c & s & -> & _)%number_text_cons. Qed.

Lemma Marshal_head v : valid_value v = true → ∃ c s, Marshal v = String c s ∧ kind_byte c = kind v.
Proof.
  destruct v as [|[]|text|s|elements|members]; intros Hv; simpl in Hv;
    try (eexists _, _; split; [reflexivity|reflexivity]).
  rewrite (Marshal_number text Hv). apply number_text_cons in Hv as (c & s & -> & Hc & _). exists c, s.
  split; [done|]. unfold kind_byte. by rewrite Hc.
Qed.

Lemma Marshal_kind v1 v2 r1 r2 : valid_value v1 = true → valid_value v2 = true →
  Marshal v1 +:+ r1 = Marshal v2 +:+ r2 → kind v1 = kind v2.
Proof.
  intros (c1 & s1 & -> & H1)%Marshal_head (c2 & s2 & -> & H2)%Marshal_head.
  rewrite !str_app_cons. intros [= -> _]. congruence.
Qed.

Lemma delimited_not_number c rest : delimited (String c rest) = true → is_number_byte c = false.
Proof. simpl. destruct c as [[] [] [] [] [] [] [] []]; done. Qed.

Lemma number_prefix t1 : ∀ t2 r1 r2,
  forallb is_number_byte (String.list_ascii_of_string t1) = true →
  forallb is_number_byte (String.list_ascii_of_string t2) = true →
  delimited r1 = true → delimited r2 = true → t1 +:+ r1 = t2 +:+ r2 → t1 = t2 ∧ r1 = r2.
Proof.
  induction t1 as [|c t1 IH]; intros [|c2 t2] r1 r2; rewrite ?str_app_nil, ?str_app_cons; simpl.
  - done.
  - intros _ [Hc _]%andb_true_iff Hd _ ->. apply delimited_not_number in Hd. congruence.
  - intros [Hc _]%andb_true_iff _ _ Hd <-. apply delimited_not_number in Hd. congruence.
  - intros [_ H1]%andb_true_iff [_ H2]%andb_true_iff Hd1 Hd2 [= -> Heq].
    destruct (IH t2 r1 r2 H1 H2 Hd1 Hd2 Heq) as [-> ->]. done.
Qed.

(** A list of items between delimiters, whose items can be told apart. *)
Section join.
Context {A : Type} (f : A → string) (close : ascii).

Definition separable (a : A) (others : list A) : Prop :=
  ∀ a' r1 r2, a' ∈ others → delimited r1 = true → delimited r2 = true →
    f a +:+ r1 = f a' +:+ r2 → a = a' ∧ r1 = r2.

Hypothesis Hclose : is_one_of ",]}" close = true.
Hypothesis Hcomma : close ≠ ","%char.

Lemma join_cons a l rest : ∃ rest', str_join "," (map f (a :: l)) +:+ String close rest = f a +:+ rest' ∧
  delimited rest' = true ∧
  rest' = match l with [] => String close rest | _ => String "," (str_join "," (map f l) +:+ String close rest) end.
Proof.
  destruct l as [|b l]; [by exists (String close rest)|].
  exists (String "," (str_join "," (map f (b :: l)) +:+ String close rest)). split_and!; [|done..].
  cbn [map str_join]. by rewrite !str_app_assoc.
Qed.

Lemma join_prefix l1 l2 rest1 rest2 :
  (∀ a, a ∈ l1 → separable a l2) →
  (∀ a c s, a ∈ l1 ∨ a ∈ l2 → f a = String c s → c ≠ close) → (∀ a, a ∈ l1 ∨ a ∈ l2 → f a ≠ "") →
  str_join "," (map f l1) +:+ String close rest1 = str_join "," (map f l2) +:+ String close rest2 →
  l1 = l2 ∧ rest1 = rest2.
Proof.
  revert l2. induction l1 as [|a l1 IH]; intros l2 Hsep Hhead Hne.
  - destruct l2 as [|b l2]; [by intros [= ->]|]. destruct (join_cons b l2 rest2) as (r & -> & _).
    destruct (f b) as [|c s] eqn:Eb; [by destruct (Hne b); [set_solver|]|].
    rewrite str_app_cons. intros [= <- _]. by destruct (Hhead b close s); [set_solver|..].
  - destruct (join_cons a l1 rest1) as (ra & -> & Hda & Hra). destruct l2 as [|b l2].
    { destruct (f a) as [|c s] eqn:Ea; [by destruct (Hne a); [set_solver|]|].
      rewrite str_app_cons. intros [= -> _]. by destruct (Hhead a close s); [set_solver|..]. }
    destruct (join_cons b l2 rest2) as (rb & -> & Hdb & Hrb). intros Heq.
    destruct (Hsep a ltac:(set_solver) b ra rb) as [<- Hr]; [set_solver|done..|].
    rewrite Hra, Hrb in Hr. destruct l1 as [|a1 l1], l2 as [|b1 l2].
    + by injection Hr as ->.
    + injection Hr. intros _ E. by destruct Hcomma.
    + injection Hr. intros _ E. by destruct Hcomma.
    + injection Hr as Hr. destruct (IH (b1 :: l2)) as [E ->]; [..|done|].
      * intros x Hx x' r1 r2 Hx'. apply Hsep; set_solver.
      * intros x c s Hx. apply Hhead; set_solver.
      * intros x Hx. apply Hne; set_solver.
      * by rewrite E.
Qed.
End join.

Definition member_text (kv : string * value) : string := quote kv.1 +:+ ":" +:+ Marshal kv.2.

Lemma Marshal_head_not v c s : valid_value v = true → Marshal v = String c s → c ≠ "]"%char.
Proof. intros (c' & s' & -> & Hk)%Marshal_head [= <- <-] ->. destruct v; done. Qed.

Lemma Marshal_prefix v1 : ∀ v2 r1 r2, valid_value v1 = true → valid_value v2 = true →
  delimited r1 = true → delimited r2 = true → Marshal v1 +:+ r1 = Marshal v2 +:+ r2 → v1 = v2 ∧ r1 = r2.
Proof.
  induction v1 as [|b1|t1|s1|l1 IH|m1 IH] using value_ind'; intros v2 r1 r2 H1 H2 Hd1 Hd2 Heq;
    pose proof (Marshal_kind _ _ _ _ H1 H2 Heq) as Hk; destruct v2 as [|b2|t2|s2|l2|m2]; try done.
  - cbn [Marshal] in Heq. by apply (inj (String.append "null")) in Heq.
  - destruct b1, b2; simpl in Heq; rewrite !str_app_cons in Heq; by simplify_eq.
  - rewrite !Marshal_number in Heq by done. unfold valid_value, number_text in H1, H2.
    apply andb_true_iff in H1 as [_ H1]. apply andb_true_iff in H2 as [_ H2].
    by destruct (number_prefix t1 t2 r1 r2 H1 H2 Hd1 Hd2 Heq) as [-> ->].
  - by destruct (quote_prefix s1 s2 r1 r2 H1 H2 Heq) as [-> ->].
  - cbn [Marshal] in Heq. cbn [valid_value] in H1, H2. rewrite forallb_elem_of in H1, H2.
    rewrite !str_app_cons, !str_app_nil, !str_app_assoc, !str_app_cons, !str_app_nil in Heq. injection Heq as Heq.
    rewrite Forall_forall in IH.
    destruct (join_prefix Marshal "]" eq_refl ltac:(done) l1 l2 r1 r2) as [-> ->]; [..|done|done].
    + intros a Ha a' ra ra' Ha'. apply IH; auto.
    + intros a c s [Ha|Ha]; apply Marshal_head_not; auto.
    + intros a [Ha|Ha]; [apply H1 in Ha|apply H2 in Ha]; by apply Marshal_head in Ha as (c & s & -> & _).
  - cbn [Marshal] in Heq. cbn [valid_value] in H1, H2.
    apply andb_true_iff in H1 as [_ H1]. apply andb_true_iff in H2 as [_ H2]. rewrite forallb_elem_of in H1, H2.
    rewrite !str_app_cons, !str_app_nil, !str_app_assoc, !str_app_cons, !str_app_nil in Heq. injection Heq as Heq.
    rewrite Forall_forall in IH. change (λ kv, quote kv.1 +:+ ":" +:+ Marshal kv.2) with member_text in Heq.
    destruct (join_prefix member_text "}" eq_refl ltac:(done) m1 m2 r1 r2) as [-> ->]; [..|done|done].
    + intros [k v] Ha [k' v'] ra ra' Ha' Hda Hda'. unfold member_text. cbn [fst snd]. rewrite !str_app_assoc.
      apply H1 in Ha as Hva. apply H2 in Ha' as Hva'. cbn [fst snd] in Hva, Hva'.
      apply andb_true_iff in Hva as [Hk1 Hv1]. apply andb_true_iff in Hva' as [Hk2 Hv2].
      intros E. destruct (quote_prefix k k' _ _ Hk1 Hk2 E) as [<- E2].
      rewrite !str_app_cons, !str_app_nil in E2. injection E2 as E2.
      by destruct (IH (k, v) Ha v' ra ra' Hv1 Hv2 Hda Hda' E2) as [<- <-].
    + intros a c s _. unfold member_text, quote. rewrite str_app_cons. intros [= <- _]. done.
    + intros a _. done.
Qed.

(** [json.Marshal] is injective on what a decoder returns: documents with
    the same encoding are the same document. *)
Theorem Marshal_injective v1 v2 :
  valid_value v1 = true → valid_value v2 = true → Marshal v1 = Marshal v2 → v1 = v2.
Proof.
  intros H1 H2 Heq. apply (Marshal_prefix v1 v2 "" "" H1 H2); [done..|]. by rewrite !str_app_nil_r.
Qed.
