(* ===== verification/AppConfig.v ===== *)
(** The desired-state document of an application
    ([internal/appconfig/config.go]): parsing and validation, JSON pointers and
    patches, the comparison of two documents and the edit that [Apply] makes.

    YAML, JSON Schema, the decoding of JSON into the Go types of a workload and
    of Kubernetes' resources, and the policy of middlewares
    ([internal/middlewareprofiles]) are interfaces.  Details of diagnostics are
    texts of the source. *)

From S2P Require Import Prelude Regexp GoStrings Digest Encoding JsonValues Workload.
From Stdlib Require Import Ascii.

Open Scope Z_scope.

Definition MaxDocument : Z := 2 ^ 18.
Definition MaxDiff : Z := 2 ^ 16.
Definition DocumentID : string := "app.yaml".

Definition EditablePointers : list string :=
  ["/spec/runtime/workloadType"; "/spec/runtime/replicas"; "/spec/runtime/strategy"; "/spec/runtime/podManagementPolicy";
   "/spec/runtime/ports"; "/spec/runtime/env"; "/spec/runtime/resources"; "/spec/runtime/nodeSelector";
   "/spec/runtime/affinity"; "/spec/runtime/topologySpreadConstraints"; "/spec/runtime/tolerations";
   "/spec/runtime/priorityClassName"; "/spec/runtime/probes"; "/spec/runtime/command"; "/spec/runtime/args";
   "/spec/runtime/workingDirectory"; "/spec/runtime/terminationGracePeriodSeconds";
   "/spec/routes"; "/spec/middlewares"; "/spec/overrides"].

Definition LockedPointers : list string :=
  ["/apiVersion"; "/kind"; "/metadata/id"; "/metadata/name";
   "/spec/projectId"; "/spec/applicationId"; "/spec/environmentId"; "/spec/delivery"; "/spec/runtime/configRevision"].

Record Diagnostic := mkDiagnostic {
  dg_Code : string;
  dg_Detail : string;
  dg_Pointer : string;
  dg_Line : Z;
  dg_Column : Z;
}.

Definition diagnostic (code detail pointer : string) : Diagnostic := mkDiagnostic code detail pointer 0 0.

Record SemanticChange := mkChange {
  sc_Pointer : string;
  sc_Summary : string;
  sc_Before : value;
  sc_After : value;
}.

(** * Texts *)

(** [strings.ReplaceAll] of a pair of bytes that cannot overlap itself. *)
Fixpoint replace_pair (c d : ascii) (r s : string) : string :=
  match s with
  | String a (String b s'' as s') =>
      if Ascii.eqb a c && Ascii.eqb b d then r +:+ replace_pair c d r s'' else String a (replace_pair c d r s')
  | _ => s
  end.

Definition bounded (text : string) (limit : nat) : string := str_take limit text.

Definition emptyRoot (path : string) : string := if is_empty path then "/" else path.

Definition escape (text : string) : string := replace_byte "/" "~1" (replace_byte "~" "~0" text).

Definition pointer (parts : list string) : string :=
  match parts with [] => "" | _ => "/" +:+ str_join "/" (map escape parts) end.

Definition badEscape (part : string) : bool :=
  str_contains "~" (replace_pair "~" "0" "" (replace_pair "~" "1" "" part)).
Definition unescape (part : string) : string := replace_pair "~" "0" "~" (replace_pair "~" "1" "/" part).

Definition parsePointer (text : string) : res string (list string) :=
  guard! has_prefix "/" text else "path must be an absolute JSON pointer" in
  let parts := split_byte "/" (str_drop 1 text) in
  guard! negb (existsb badEscape parts) else "invalid JSON pointer escape" in
  Ok (map unescape parts).

(** The loop [for j := i; j > 0 && less(values[j], values[j-1]); j--] that
    [sortStrings] and [sortDiagnostics] run for every [i]: the last element
    sinks into the sorted ones, which are reversed here. *)
Fixpoint sink {A} (less : A → A → bool) (x : A) (sorted : list A) : list A :=
  match sorted with
  | y :: rest => if less x y then y :: sink less x rest else x :: sorted
  | [] => [x]
  end.

Definition insertion_sort {A} (less : A → A → bool) (l : list A) : list A :=
  rev (foldl (λ sorted x, sink less x sorted) [] l).

Definition sortStrings : list string → list string := insertion_sort str_less.
Definition sortDiagnostics : list Diagnostic → list Diagnostic :=
  insertion_sort (λ a b, str_less (dg_Pointer a) (dg_Pointer b)).

(** * Looking into a document

    [strconv.Atoi] is [parse_int]. *)

Definition child (v : value) (token : string) : option value :=
  match v with
  | VObject members => get token members
  | VArray elements =>
      match parse_int token with
      | Some index =>
          if (index <? 0) || (Z.of_nat (length elements) <=? index) then None
          else elements !! Z.to_nat index
      | None => None
      end
  | _ => None
  end.

Fixpoint descend (v : value) (tokens : list string) : option value :=
  match tokens with
  | [] => Some v
  | token :: rest => match child v token with Some c => descend c rest | None => None end
  end.

Definition valueAt (root : value) (path : string) : option value :=
  match parsePointer path with Ok tokens => descend root tokens | Err _ => None end.

Definition stringAt (root : value) (path : string) : option string := as_string (valueAt root path).

(** * Comparing documents *)

Definition boundedSemanticValues (before after : value) : value * value * string :=
  if 4096 <? str_len (Marshal before) + str_len (Marshal after)
  then (VNull, VNull, "value changed (details omitted by preview bound)")
  else (before, after, "value changed").

Definition maxChanges : nat := 256.

Definition recordChange (path : string) (left right : value) (changes : list SemanticChange) : list SemanticChange :=
  if (length changes <? maxChanges)%nat then
    let '(before, after, summary) := boundedSemanticValues left right in
    (changes ++ [mkChange (emptyRoot path) summary before after])%list
  else changes.

(** The keys of two objects, sorted: they are collected in a set, and the order
    in which Go ranges over it is lost in the sort. *)
Definition orderedKeys (lm rm : list (string * value)) : list string :=
  sortStrings (remove_dups (lm.*1 ++ rm.*1)).

Definition unequal (left right : value) : bool := negb (String.eqb (Marshal left) (Marshal right)).

(** The closure [walk] of [compare]; a key that is missing is nil, which has no
    keys below it. *)
Definition walkMissing (path : string) (right : value) (changes : list SemanticChange) : list SemanticChange :=
  if unequal VNull right then recordChange path VNull right changes else changes.

Definition below (path key : string) : string := path +:+ "/" +:+ escape key.

Fixpoint walk (left : value) (path : string) (right : value) (changes : list SemanticChange)
    : list SemanticChange :=
  if negb (unequal left right) then changes
  else match left, right with
  | VObject lm, VObject rm =>
      let walkers := map (λ kv, (kv.1, walk kv.2)) lm in
      foldl (λ changes key,
          let next := default VNull (get key rm) in
          match get key walkers with
          | Some walker => walker (below path key) next changes
          | None => walkMissing (below path key) next changes
          end) changes (orderedKeys lm rm)
  | _, _ => recordChange path left right changes
  end.

Definition compare (before after : value) : list SemanticChange := walk before "" after [].

Definition editable (path : string) : bool :=
  existsb (λ root, String.eqb path root || has_prefix (root +:+ "/") path) EditablePointers.

(** * Patches *)

Record PatchOperation := mkPatch {
  pt_Op : string;
  pt_Path : string;
  pt_Value : value;
}.

Definition patchIndex (raw : string) (length : Z) (add : bool) : res string Z :=
  if String.eqb raw "-" && add then Ok length
  else match parse_int raw with
  | None => Err "array index is out of bounds"
  | Some index =>
      guard! negb ((index <? 0) || (length <? index) || negb add && (index =? length))
        else "array index is out of bounds" in
      Ok index
  end.

Definition insert_at (index : nat) (v : value) (l : list value) : list value := (take index l ++ v :: drop index l)%list.
Definition remove_at (index : nat) (l : list value) : list value := (take index l ++ drop (S index) l)%list.

Definition patchLast (current : value) (key : string) (o : PatchOperation) : res string value :=
  match current with
  | VObject members =>
      guard! String.eqb (pt_Op o) "add" || bool_decide (is_Some (get key members)) else "path does not exist" in
      if String.eqb (pt_Op o) "remove" then Ok (VObject (remove key members))
      else Ok (VObject (put key (pt_Value o) members))
  | VArray elements =>
      let* index := patchIndex key (Z.of_nat (length elements)) (String.eqb (pt_Op o) "add") in
      let i := Z.to_nat index in
      Ok (VArray (switch (pt_Op o)
        [("add", insert_at i (pt_Value o) elements);
         ("replace", <[i := pt_Value o]> elements);
         ("remove", remove_at i elements)] elements))
  | _ => Err "path parent is not an object or array"
  end.

Fixpoint patchAt (current : value) (tokens : list string) (o : PatchOperation) : res string value :=
  match tokens with
  | [] => Err "empty patch path"
  | [key] => patchLast current key o
  | key :: rest =>
      match current with
      | VObject members =>
          match get key members with
          | None => Err "path does not exist"
          | Some c => let* updated := patchAt c rest o in Ok (VObject (put key updated members))
          end
      | VArray elements =>
          let* index := patchIndex key (Z.of_nat (length elements)) false in
          let i := Z.to_nat index in
          let* updated := patchAt (default VNull (elements !! i)) rest o in
          Ok (VArray (<[i := updated]> elements))
      | _ => Err "path parent is not an object or array"
      end
  end.

Definition applyPatch (root : value) (o : PatchOperation) : res string value :=
  guard! str_in (pt_Op o) ["add"; "replace"; "remove"] else "op must be add, replace, or remove" in
  guard! negb (is_empty (pt_Path o)) else "the document root cannot be replaced" in
  let* tokens := parsePointer (pt_Path o) in
  patchAt root tokens o.

(** * Libraries and policies *)

(** [yaml.Node], of which the checks read these fields; an alias is a flag. *)
Inductive yamlNode : Type :=
| mkNode (mapping : bool) (Anchor : string) (alias : bool) (Tag : string) (Line Column : Z) (Content : list yamlNode).

(** [jsonschema.ValidationError] *)
Inductive ValidationError : Type :=
| mkViolation (InstanceLocation : list string) (message : string) (Causes : list ValidationError).

Inductive SchemaFailure : Type :=
| Violation (e : ValidationError)
| SchemaError (message : string).

Class Libraries := {
  (** What [Decode] of a YAML decoder returns, call after call, until the end of
      the input. *)
  yaml_decode : string → list (res string yamlNode);
  (** [Decode] of a mapping node; then [json.Marshal] and the decoding of its
      output with [UseNumber]. *)
  yaml_value : yamlNode → res string (res string (list (string * value)));
  (** The compiled schema; [None] when it does not compile. *)
  schema_validate : option (list (string * value) → option SchemaFailure);
  (** [json.Unmarshal] into a [WorkloadRuntime], which it fills as far as it
      gets. *)
  runtime_decode : value → WorkloadRuntime * option string;
  (** The strict decoding of an override into the type of its resource. *)
  override_decode : string → list (string * value) → option string;
  (** [middlewareprofiles.ValidateDefinitions] of a [spec]. *)
  ValidateDefinitions : list (string * value) → bool;
}.

(** What a JSON decoder returns is well-formed. *)
Class LibraryLaws `{Libraries} := {
  yaml_value_valid : ∀ node members,
    yaml_value node = Ok (Ok members) → valid_value (VObject members) = true;
}.

(** * Parsing *)

Definition normalize (raw : string) : res string string :=
  guard! negb ((str_len raw =? 0) || (MaxDocument <? str_len raw))
    else "AppConfig must be between 1 and " +:+ format_int MaxDocument +:+ " bytes" in
  let raw := replace_byte "013" newline (replace_pair "013" "010" newline raw) in
  guard! negb (str_contains (String "000" "") raw) else "AppConfig contains a NUL byte" in
  Ok (if has_suffix newline raw then raw else raw +:+ newline).

Definition unsafeYAML : string := "YAML anchors, aliases, and custom tags are not accepted.".

Fixpoint forbiddenYAML (node : yamlNode) : option Diagnostic :=
  match node with
  | mkNode _ anchor alias tag line column content =>
      if negb (is_empty anchor) || alias || negb (is_empty tag) && negb (has_prefix "!!" tag)
      then Some (mkDiagnostic "UnsafeYAML" unsafeYAML "" line column)
      else
        (fix first (nodes : list yamlNode) : option Diagnostic :=
           match nodes with
           | [] => None
           | n :: rest => match forbiddenYAML n with Some d => Some d | None => first rest end
           end) content
  end.

(** The leaves of a validation error, in order. *)
Fixpoint leavesOf (e : ValidationError) : list ValidationError :=
  match e with
  | mkViolation _ _ [] => [e]
  | mkViolation _ _ causes => flat_map leavesOf causes
  end.

Definition violationDiagnostic (e : ValidationError) : Diagnostic :=
  match e with
  | mkViolation location message _ => diagnostic "SchemaViolation" (bounded message 512) (pointer location)
  end.

Definition flattenValidation (e : ValidationError) : list Diagnostic :=
  map violationDiagnostic (take 64 (leavesOf e)).

Definition domainPointer (text : string) : string :=
  let text := "/spec" +:+ text in
  let selector := "/spec/runtime/nodeSelector/" in
  if has_prefix selector text then selector +:+ escape (trim_prefix selector text) else text.

Definition domainDiagnostic (problem : WorkloadValidationError) : Diagnostic :=
  diagnostic (we_Code problem) (we_Detail problem) (domainPointer (we_Pointer problem)).

(** * Overrides of Kubernetes' resources *)

Definition autoDeployImageRE : regex :=
  RSeq (RPlus (RClass (λ c, negb (is_space c) && negb (is_one_of "@" c))))
    (RSeq (RLit "@sha256:") (RTimes 64 (RClass is_lower_hex))).

Definition autoDeployDigestRE : regex := RSeq (RLit "sha256:") (RTimes 64 (RClass is_lower_hex)).

Definition protectedResourceLabels : list string :=
  ["app.kubernetes.io/name"; "app.kubernetes.io/instance"; "app.kubernetes.io/managed-by"; "helm.sh/chart"].

Definition isolation (pointer : string) (detail : string) : Diagnostic :=
  diagnostic "ProtectedWorkloadIsolation" detail pointer.

Definition when (bad : bool) (d : Diagnostic) : list Diagnostic := if bad then [d] else [].

Fixpoint for_each {A} (index : nat) (check : nat → A → list Diagnostic) (l : list A) : list Diagnostic :=
  match l with
  | [] => []
  | x :: rest => (check index x ++ for_each (S index) check rest)%list
  end.

Definition checkVolume (root : string) (index : nat) (v : value) : list Diagnostic :=
  when (not_nil (get "hostPath" (object_or_nil (Some v))))
    (isolation (at_index (root +:+ "/template/spec/volumes") index +:+ "/hostPath")
       "HostPath volumes are outside the App workload boundary.").

Definition checkPort (container : string) (index : nat) (v : value) : list Diagnostic :=
  when (not_nil (get "hostPort" (object_or_nil (Some v))))
    (isolation (at_index (container +:+ "/ports") index +:+ "/hostPort")
       "Host ports are outside the App workload boundary.").

Definition checkContainer (root field : string) (index : nat) (v : value) : list Diagnostic :=
  match v with
  | VObject container =>
      let here := at_index (root +:+ "/template/spec/" +:+ field) index in
      let security := object_or_nil (get "securityContext" container) in
      (when (match as_string (get "image" container) with
             | Some image => negb (re_match autoDeployImageRE image)
             | None => false
             end)
         (diagnostic "ImmutableImageRequired"
            "Advanced container images must use an immutable repository@sha256 digest." (here +:+ "/image")) ++
       for_each 0 (checkPort here) (default [] (as_array (get "ports" container))) ++
       when (equals_true (get "privileged" security) || equals_true (get "allowPrivilegeEscalation" security) ||
             equals_string (get "procMount" security) "Unmasked")
         (isolation (here +:+ "/securityContext")
            "Privileged or host-equivalent container security settings are outside the App workload boundary.") ++
       when (not_nil (get "add" (object_or_nil (get "capabilities" security))))
         (isolation (here +:+ "/securityContext/capabilities/add")
            "Adding Linux capabilities is outside the App workload boundary."))%list
  | _ => []
  end.

Definition isolatedFields : list string :=
  ["serviceAccountName"; "hostNetwork"; "hostPID"; "hostIPC"; "hostUsers"].

Definition validateOverridePodTemplate (spec : members_of) (root : string) : list Diagnostic :=
  match as_object (get "template" spec) with
  | None => []
  | Some template =>
      match as_object (get "spec" template) with
      | None => []
      | Some podSpec =>
          (flat_map (λ field, when (bool_decide (is_Some (get field podSpec)))
             (isolation (root +:+ "/template/spec/" +:+ field)
                "The in-cluster App identity and host-isolation boundary cannot be overridden.")) isolatedFields ++
           for_each 0 (checkVolume root) (default [] (as_array (get "volumes" podSpec))) ++
           flat_map (λ field,
             for_each 0 (checkContainer root field) (default [] (as_array (get field podSpec))))
             ["containers"; "initContainers"])%list
      end
  end.

Section documents.
Context `{MapOrder} `{Libraries}.

Definition validateTypedResourceOverride (resource : string) (override : members_of) (root : string)
    : option Diagnostic :=
  if str_in resource ["deployment"; "service"; "ingress"; "serviceAccount"] then
    match override_decode resource override with
    | None => None
    | Some message => Some (diagnostic "InvalidResourceOverride" (bounded message 512) root)
    end
  else Some (diagnostic "InvalidResourceOverride" "The advanced resource kind is unsupported." root).

Definition protectedKey (key : string) : bool := has_prefix "kuberploy.io/" key || str_in key protectedResourceLabels.

(** [for key := range values] *)
Definition checkIdentity (root field : string) (metadata : members_of) : list Diagnostic :=
  flat_map (λ kv : string * value, when (protectedKey kv.1)
      (diagnostic "ProtectedResourceIdentity" "Kuberploy-owned resource identity metadata cannot be overridden."
         (root +:+ "/metadata/" +:+ field +:+ "/" +:+ escape kv.1)))
    (range 0 (list_to_map (object_or_nil (get field metadata)) : gmap string value)).

Definition checkOverride (runtime : WorkloadRuntime) (overrides : members_of) (resource : string) : list Diagnostic :=
  match as_object (get resource overrides) with
  | None => []
  | Some override =>
      let root := "/spec/overrides/" +:+ resource in
      match validateTypedResourceOverride resource override root with
      | Some problem => [problem]
      | None =>
          (when (String.eqb resource "deployment" && String.eqb (rt_WorkloadType runtime) "StatefulSet" &&
                 (0 <? Z.of_nat (length override)))
             (diagnostic "OverrideResourceMismatch"
                "Deployment overrides are unavailable while the App workload type is StatefulSet." root) ++
           flat_map (λ field, checkIdentity root field (object_or_nil (get "metadata" override)))
             ["labels"; "annotations"] ++
           match as_object (get "spec" override) with
           | None => []
           | Some resourceSpec =>
               (when ((String.eqb resource "deployment" || String.eqb resource "service") &&
                      not_nil (get "selector" resourceSpec))
                  (diagnostic "ProtectedResourceIdentity" "The generated App selector cannot be overridden."
                     (root +:+ "/spec/selector")) ++
                if String.eqb resource "deployment"
                then validateOverridePodTemplate resourceSpec (root +:+ "/spec") else [])%list
           end)%list
      end
  end.

Definition validateResourceOverrides (spec : members_of) (runtime : WorkloadRuntime) : list Diagnostic :=
  match as_object (get "overrides" spec) with
  | None => []
  | Some overrides =>
      flat_map (checkOverride runtime overrides) ["deployment"; "service"; "ingress"; "serviceAccount"]
  end.

(** * [ParseAndValidate] *)

(** A parsed document is nil when nothing was parsed. *)
Definition parsing : Type := option members_of * WorkloadRuntime * list Diagnostic.

Definition unparsed (code detail : string) : parsing := (None, zeroRuntime, [diagnostic code detail ""]).

(** The one mapping of the YAML stream, as JSON. *)
Definition readYAML (raw : string) : parsing + members_of :=
  match yaml_decode raw with
  | [] => inl (unparsed "InvalidYAML" "EOF")
  | Err message :: _ => inl (unparsed "InvalidYAML" (bounded message 512))
  | Ok node :: more =>
      match more with
      | Ok _ :: _ => inl (unparsed "MultipleDocuments" "AppConfig must contain exactly one YAML document.")
      | Err message :: _ => inl (unparsed "InvalidYAML" (bounded message 512))
      | [] =>
          match node with
          | mkNode _ _ _ _ _ _ [mkNode true _ _ _ _ _ _ as root] =>
              match forbiddenYAML root with
              | Some d => inl (None, zeroRuntime, [d])
              | None =>
                  match yaml_value root with
                  | Err message => inl (unparsed "InvalidYAML" (bounded message 512))
                  | Ok (Err message) => inl (unparsed "InvalidDocument" (bounded message 512))
                  | Ok (Ok members) => inr members
                  end
              end
          | _ => inl (unparsed "InvalidDocument" "AppConfig must be a YAML mapping.")
          end
      end
  end.

Definition schemaDiagnostics (check : list (string * value) → option SchemaFailure) (parsed : members_of)
    : list Diagnostic :=
  match check parsed with
  | None => []
  | Some (Violation e) => flattenValidation e
  | Some (SchemaError message) => [diagnostic "SchemaViolation" (bounded message 512) ""]
  end.

(** What follows the schema: the policies of the platform. *)
Definition validateSpec (parsed : members_of) (diagnostics : list Diagnostic) : WorkloadRuntime * list Diagnostic :=
  match as_object (get "spec" parsed) with
  | None => (zeroRuntime, diagnostics)
  | Some spec =>
      let diagnostics :=
        (diagnostics ++ when (negb (ValidateDefinitions spec))
           (diagnostic "MiddlewarePolicyViolation"
              "Middleware definitions and ordered route references must use only the closed, bounded platform policy."
              "/spec/middlewares"))%list in
      match get "runtime" spec with
      | None => (zeroRuntime, diagnostics)
      | Some runtimeValue =>
          match runtime_decode runtimeValue with
          | (runtime, Some message) =>
              (runtime, match diagnostics with
                        | [] => [diagnostic "InvalidRuntime" (bounded message 512) "/spec/runtime"]
                        | _ => diagnostics
                        end)
          | (runtime, None) =>
              let applicationID := default "" (stringAt (VObject parsed) "/spec/applicationId") in
              (runtime,
               (diagnostics ++ map domainDiagnostic (ValidateWorkloadRuntime runtime) ++
                map domainDiagnostic (ValidateApplicationScheduling runtime applicationID) ++
                validateResourceOverrides spec runtime)%list)
          end
      end
  end.

Definition ParseAndValidate (raw : string) : parsing :=
  match normalize raw with
  | Err message => unparsed "InvalidDocument" message
  | Ok raw =>
      match readYAML raw with
      | inl failure => failure
      | inr parsed =>
          match schema_validate with
          | None => unparsed "SchemaUnavailable" "The AppConfig schema could not be compiled."
          | Some check =>
              let '(runtime, diagnostics) := validateSpec parsed (schemaDiagnostics check parsed) in
              (Some parsed, runtime, diagnostics)
          end
      end
  end.

(** A document that is accepted, with what was parsed. *)
Definition accepts (raw : string) (parsed : members_of) (runtime : WorkloadRuntime) : Prop :=
  ParseAndValidate raw = (Some parsed, runtime, []).

(** * Editing *)

Record Candidate := mkCandidate {
  cd_Raw : string;
  cd_Parsed : option members_of;
  cd_Runtime : WorkloadRuntime;
  cd_Hash : list Z;
  cd_Changes : list SemanticChange;
  cd_Diagnostics : list Diagnostic;
}.

Record Change := mkEdit {
  ch_Mode : string;
  ch_Documents : list (string * string);
  ch_Patch : list PatchOperation;
}.

Definition rejected (code detail pointer : string) : Candidate :=
  mkCandidate "" None zeroRuntime [] [] [diagnostic code detail pointer].

Definition currentInvalid (detail : string) : Candidate := rejected "CurrentConfigInvalid" detail "".
Definition notEditable : string := "The stored AppConfig is invalid and cannot be edited.".

(** The loop over the operations, from [index]. *)
Fixpoint patchAll (index : nat) (root : value) (patch : list PatchOperation) : res Candidate value :=
  match patch with
  | [] => Ok root
  | o :: rest =>
      match applyPatch root o with
      | Err message =>
          Err (rejected "InvalidPatch"
            ("patch[" +:+ format_int (Z.of_nat index) +:+ "]: " +:+ bounded message 384) (pt_Path o))
      | Ok root => patchAll (S index) root rest
      end
  end.

(** The text that a change asks for. *)
Definition requestedText (current : members_of) (change : Change) : res Candidate string :=
  switch (ch_Mode change)
    [("yaml",
       match ch_Documents change with
       | [(ID, raw)] =>
           if String.eqb ID DocumentID && (Z.of_nat (length (ch_Patch change)) =? 0) then Ok raw
           else Err (rejected "InvalidChange" "YAML mode requires exactly one app.yaml document replacement." "")
       | _ => Err (rejected "InvalidChange" "YAML mode requires exactly one app.yaml document replacement." "")
       end);
     ("jsonPatch",
       let operations := Z.of_nat (length (ch_Patch change)) in
       if (operations =? 0) || (128 <? operations) || negb (Z.of_nat (length (ch_Documents change)) =? 0)
       then Err (rejected "InvalidChange" "JSON Patch mode requires between 1 and 128 operations." "")
       else let* root := patchAll 0 (VObject current) (ch_Patch change) in
            Ok (MarshalIndent 0 root +:+ newline))]
    (Err (rejected "InvalidChange" "mode must be yaml or jsonPatch." "")).

Definition lockedField (change : SemanticChange) : list Diagnostic :=
  when (negb (editable (sc_Pointer change)))
    (diagnostic "LockedField" "This field is owned by Kuberploy or the release pipeline." (sc_Pointer change)).

Definition parsedValue (parsed : option members_of) : value :=
  match parsed with Some members => VObject members | None => VNull end.

Definition sha256_text (raw : string) : list Z := sha256 (string_bytes raw).

Definition Apply (current : string) (change : Change) : Candidate :=
  match ParseAndValidate current with
  | (currentParsed, _, []) =>
      match requestedText (default [] currentParsed) change with
      | Err candidate => candidate
      | Ok raw =>
          match normalize raw with
          | Err message => rejected "InvalidDocument" message ""
          | Ok normalized =>
              match ParseAndValidate normalized with
              | (parsed, runtime, []) =>
                  let changes := compare (parsedValue currentParsed) (parsedValue parsed) in
                  mkCandidate normalized parsed runtime (sha256_text normalized) changes
                    (take 64 (flat_map lockedField changes))
              | (parsed, runtime, diagnostics) => mkCandidate normalized parsed runtime [] [] diagnostics
              end
          end
      end
  | _ => currentInvalid notEditable
  end.

(** What [WithResolvedMiddlewares] and [WithAutoDeployDerived] end with: the
    effective document is written, parsed again and compared. *)
Definition reparse (currentParsed : option members_of) (effective : members_of) : Candidate :=
  let raw := MarshalIndent 0 (VObject effective) +:+ newline in
  match ParseAndValidate raw with
  | (parsed, runtime, []) =>
      mkCandidate raw parsed runtime (sha256_text raw)
        (compare (parsedValue currentParsed) (parsedValue parsed)) []
  | (parsed, runtime, diagnostics) => mkCandidate raw parsed runtime [] [] diagnostics
  end.

(** [definitions] is the JSON of the resolved definitions. *)
Definition WithResolvedMiddlewares (current : string) (candidate : Candidate) (definitions : list value)
    : Candidate :=
  match cd_Diagnostics candidate, cd_Parsed candidate with
  | [], Some parsed =>
      match ParseAndValidate current with
      | (currentParsed, _, []) =>
          match as_object (get "spec" parsed) with
          | None => rejected "MiddlewareMaterializationFailed" "The AppConfig spec is unavailable." ""
          | Some spec =>
              reparse currentParsed (put "spec" (VObject (put "middlewares" (VArray definitions) spec)) parsed)
          end
      | _ => currentInvalid notEditable
      end
  | _, _ => candidate
  end.

(** * Projections of a document *)

Definition MaterializedImage (parsed : members_of) : string * bool :=
  let root := VObject parsed in
  let mode := stringAt root "/spec/delivery/mode" in
  let repository := stringAt root "/spec/delivery/release/repository" in
  let digest := stringAt root "/spec/delivery/release/digest" in
  let image := default "" repository +:+ "@" +:+ default "" digest in
  (image, bool_decide (mode = Some "image") && bool_decide (is_Some repository) &&
          bool_decide (is_Some digest) && re_match autoDeployImageRE image).

Record CertificateReferenceSelection := mkCertificate {
  ce_Host : string;
  ce_BindingID : string;
  ce_Name : string;
  ce_Version : Z;
}.

(** [rawReference["version"]], a number written the canonical way. *)
Definition referenceVersion (v : option value) : option Z :=
  match v with
  | Some (VNumber text) =>
      match parse_int text with
      | Some version => if String.eqb (format_int version) text && (0 <? version) then Some version else None
      | None => None
      end
  | _ => None
  end.

Definition certificateReference (host : string) (tls : members_of) : option CertificateReferenceSelection :=
  match as_object (get "secretRef" tls) with
  | None => None
  | Some reference =>
      match as_string (get "bindingId" reference), as_string (get "name" reference),
            referenceVersion (get "version" reference) with
      | Some bindingID, Some name, Some version =>
          if (length reference =? 3)%nat then Some (mkCertificate host bindingID name version) else None
      | _, _, _ => None
      end
  end.

(** [None] is [errInvalidCertificateReferences]. *)
Fixpoint certificateRoutes (routes : list value) : option (list CertificateReferenceSelection) :=
  match routes with
  | [] => Some []
  | rawRoute :: rest =>
      match as_object (Some rawRoute) with
      | None => None
      | Some route =>
          match as_string (get "host" route), as_object (get "tls" route) with
          | Some host, Some tls =>
              match as_string (get "mode" tls) with
              | None => None
              | Some mode =>
                  if negb (String.eqb mode "customCertificate") then certificateRoutes rest
                  else match certificateReference host tls with
                  | None => None
                  | Some reference => cons reference <$> certificateRoutes rest
                  end
              end
          | _, _ => None
          end
      end
  end.

Definition CertificateReferences (parsed : members_of) : option (list CertificateReferenceSelection) :=
  match as_object (get "spec" parsed) with
  | None => None
  | Some spec =>
      match get "routes" spec with
      | None => Some []
      | Some (VArray routes) => if (32 <? length routes)%nat then None else certificateRoutes routes
      | Some _ => None
      end
  end.

(** * The binding of an operation's snapshot *)

Record Binding := mkBinding {
  bd_ProjectID : string;
  bd_EnvironmentID : string;
  bd_ApplicationID : string;
  bd_ApplicationSlug : string;
  bd_Image : string;
  bd_Runtime : WorkloadRuntime;
}.

Definition expectedFields (b : Binding) (repository digest : string) : gmap string string :=
  list_to_map [("/metadata/id", bd_ApplicationID b); ("/metadata/name", bd_ApplicationSlug b);
    ("/spec/projectId", bd_ProjectID b); ("/spec/applicationId", bd_ApplicationID b);
    ("/spec/environmentId", bd_EnvironmentID b); ("/spec/delivery/mode", "image");
    ("/spec/delivery/release/repository", repository); ("/spec/delivery/release/digest", digest)].

Definition mismatch (detail pointer : string) : Diagnostic := diagnostic "OperationBindingMismatch" detail pointer.

Definition identityMismatch : string :=
  "The operation snapshot does not match server-owned identity or release state.".
Definition schedulingMismatch : string :=
  "The operation snapshot does not match server-validated scheduling state.".

(** The scheduling fields, compared with [reflect.DeepEqual]. *)
Definition schedulingMatches (actual want : WorkloadRuntime) : list (string * bool) :=
  [("/spec/runtime/nodeSelector", bool_decide (rt_NodeSelector actual = rt_NodeSelector want));
   ("/spec/runtime/affinity", bool_decide (rt_Affinity actual = rt_Affinity want));
   ("/spec/runtime/topologySpreadConstraints",
     bool_decide (rt_TopologySpreadConstraints actual = rt_TopologySpreadConstraints want));
   ("/spec/runtime/tolerations", bool_decide (rt_Tolerations actual = rt_Tolerations want));
   ("/spec/runtime/priorityClassName", String.eqb (rt_PriorityClassName actual) (rt_PriorityClassName want))].

Definition ValidateBinding (raw : string) (b : Binding) : list Diagnostic :=
  match ParseAndValidate raw with
  | (parsed, runtime, []) =>
      let root := parsedValue parsed in
      if negb (str_contains "@" (bd_Image b)) then
        [mismatch "The operation image is not an immutable repository@digest reference." "/spec/delivery"]
      else
        let '(repository, digest) := split_once "@" (bd_Image b) in
        let out :=
          (flat_map (λ kv, when (negb (bool_decide (stringAt root kv.1 = Some kv.2))) (mismatch identityMismatch kv.1))
             (range 1 (expectedFields b repository digest)) ++
           when (bool_decide (is_Some (valueAt root "/spec/delivery/release/sourceRevision")))
             (mismatch "sourceRevision is release-owned and is not available in this deployment operation model."
                "/spec/delivery/release/sourceRevision") ++
           flat_map (λ field, when (negb field.2) (mismatch schedulingMismatch field.1))
             (schedulingMatches runtime (NormalizeWorkloadRuntime (bd_Runtime b))))%list in
        if (1 <? length out)%nat then sortDiagnostics out else out
  | (_, _, diagnostics) => diagnostics
  end.

End documents.

(** * The diff that is shown *)

Definition diffMarker : string := newline +:+ "... diff truncated by Kuberploy ..." +:+ newline.

Definition boundedDiff (text : string) : string :=
  if str_len text <=? MaxDiff then text
  else str_take (Z.to_nat (MaxDiff - str_len diffMarker)) text +:+ diffMarker.

(** A loop over the lines of one side: [inr] is the text so far, [inl] the
    answer when the bound is reached. *)
Fixpoint diffLines (sign : string) (lines : list string) (b : string) : string + string :=
  match lines with
  | [] => inr b
  | line :: rest =>
      let b := b +:+ sign +:+ line +:+ newline in
      if MaxDiff <=? str_len b then inl (boundedDiff b) else diffLines sign rest b
  end.

Definition diffHeader (path : string) : string :=
  "--- a/" +:+ path +:+ newline +:+ "+++ b/" +:+ path +:+ newline +:+
  "@@ bounded full-document diff @@" +:+ newline.

Definition linesOf (text : string) : list string := split_byte "010" (trim_suffix newline text).

Definition GitDiff (path before after : string) : string :=
  if String.eqb before after then ""
  else match diffLines "-" (linesOf before) (diffHeader path) with
  | inl answer => answer
  | inr b =>
      match diffLines "+" (linesOf after) b with
      | inl answer => answer
      | inr b => b
      end
  end.
