(* ===== verification/AppConfigFacts.v ===== *)
(** Facts about documents of applications: pointers read back, patches act where
    they point, and the comparison misses nothing until it stops counting. *)

From S2P Require Import Prelude Regexp GoStrings Digest JsonValues JsonEncoding Workload AppConfig.
From Stdlib Require Import Ascii.

Open Scope Z_scope.

(** * Pointers *)

Lemma replace_byte_cons c r a s :
  replace_byte c r (String a s) = (if Ascii.eqb a c then r else String a "") +:+ replace_byte c r s.
Proof. done. Qed.

Lemma replace_byte_app c r s1 s2 : replace_byte c r (s1 +:+ s2) = replace_byte c r s1 +:+ replace_byte c r s2.
Proof.
  induction s1 as [|a s1 IH]; [done|]. by rewrite str_app_cons, !replace_byte_cons, IH, str_app_assoc.
Qed.

Definition escape_char (c : ascii) : string :=
  if Ascii.eqb c "~" then "~0" else if Ascii.eqb c "/" then "~1" else String c "".

Lemma escape_cons c s : escape (String c s) = escape_char c +:+ escape s.
Proof.
  unfold escape. rewrite replace_byte_cons, replace_byte_app. f_equal. unfold escape_char.
  destruct (Ascii.eqb_spec c "~") as [->|]; [done|]. simpl. by destruct (Ascii.eqb c "/").
Qed.

Lemma replace_pair_other c d r a s : a ≠ c → replace_pair c d r (String a s) = String a (replace_pair c d r s).
Proof.
  intros Hne. destruct s as [|b s]; [done|]. simpl. by destruct (Ascii.eqb_spec a c).
Qed.

Lemma replace_pair_hit c d r s : replace_pair c d r (String c (String d s)) = r +:+ replace_pair c d r s.
Proof. simpl. by rewrite !Ascii.eqb_refl. Qed.

Lemma replace_pair_miss c d r b s : b ≠ d →
  replace_pair c d r (String c (String b s)) = String c (replace_pair c d r (String b s)).
Proof.
  intros Hne. cbn [replace_pair]. rewrite Ascii.eqb_refl. by destruct (Ascii.eqb_spec b d).
Qed.

(** The text after one of the two replacements. *)
Definition half_escaped (slash : string) (s : string) : string :=
  replace_byte "/" slash (replace_byte "~" "~0" s).

Lemma half_escaped_cons slash c s : half_escaped slash (String c s) =
  (if Ascii.eqb c "~" then "~0" else if Ascii.eqb c "/" then slash else String c "") +:+ half_escaped slash s.
Proof.
  unfold half_escaped. rewrite replace_byte_cons, replace_byte_app. f_equal.
  destruct (Ascii.eqb_spec c "~") as [->|]; [done|]. simpl. destruct (Ascii.eqb c "/"); [by rewrite str_app_nil_r|done].
Qed.

Lemma replace_first r s : replace_pair "~" "1" r (escape s) = half_escaped r s.
Proof.
  induction s as [|c s IH]; [done|]. rewrite escape_cons, half_escaped_cons. unfold escape_char.
  destruct (Ascii.eqb_spec c "~") as [->|Hc].
  { rewrite !str_app_cons, !str_app_nil, replace_pair_miss, replace_pair_other by done. by rewrite IH. }
  destruct (Ascii.eqb_spec c "/") as [->|].
  { rewrite !str_app_cons, !str_app_nil, replace_pair_hit. by rewrite IH. }
  rewrite !str_app_cons, !str_app_nil, replace_pair_other by done. by rewrite IH.
Qed.

Lemma unescape_escape s : unescape (escape s) = s.
Proof.
  unfold unescape. rewrite replace_first. induction s as [|c s IH]; [done|]. rewrite half_escaped_cons.
  destruct (Ascii.eqb_spec c "~") as [->|Hc].
  { rewrite !str_app_cons, !str_app_nil, replace_pair_hit. by rewrite IH. }
  destruct (Ascii.eqb_spec c "/") as [->|]; rewrite !str_app_cons, !str_app_nil, replace_pair_other by done; by rewrite IH.
Qed.

Lemma str_contains_byte c a s : str_contains (String c "") (String a s) = Ascii.eqb c a || str_contains (String c "") s.
Proof.
  change (has_prefix (String c "") (String a s) || str_contains (String c "") s = Ascii.eqb c a || str_contains (String c "") s).
  f_equal. unfold has_prefix. simpl. destruct (ascii_dec c a) as [->|Hne]; [rewrite Ascii.eqb_refl; by destruct s|].
  symmetry. by apply Ascii.eqb_neq.
Qed.

Lemma badEscape_escape s : badEscape (escape s) = false.
Proof.
  unfold badEscape. rewrite replace_first. induction s as [|c s IH]; [done|]. rewrite half_escaped_cons.
  destruct (Ascii.eqb_spec c "~") as [->|Hc].
  { rewrite !str_app_cons, !str_app_nil, replace_pair_hit. by rewrite str_app_nil. }
  destruct (Ascii.eqb_spec c "/") as [->|]; [by rewrite str_app_nil|].
  rewrite !str_app_cons, !str_app_nil, replace_pair_other, str_contains_byte, IH by done.
  by destruct (Ascii.eqb_spec "~" c) as [<-|].
Qed.

(** A text without a byte, split at it. *)
Definition without (c : ascii) (s : string) : Prop := count_byte c s = 0.

Lemma split_byte_first c s1 s2 : without c s1 →
  split_byte c (s1 +:+ String c s2) = s1 :: split_byte c s2.
Proof.
  unfold without. induction s1 as [|a s1 IH]; intros Hw; rewrite ?str_app_nil, ?str_app_cons; cbn [split_byte].
  - by rewrite Ascii.eqb_refl.
  - cbn [count_byte] in Hw. pose proof (count_byte_nonneg c s1). destruct (Ascii.eqb a c); [lia|].
    by rewrite IH by lia.
Qed.

Lemma split_byte_without c s : without c s → split_byte c s = [s].
Proof.
  unfold without. induction s as [|a s IH]; intros Hw; [done|]. cbn [count_byte split_byte] in *.
  pose proof (count_byte_nonneg c s). destruct (Ascii.eqb a c); [lia|]. by rewrite IH by lia.
Qed.

Lemma escape_without s : without "/" (escape s).
Proof.
  unfold without. induction s as [|c s IH]; [done|]. rewrite escape_cons, count_byte_app, IH. unfold escape_char.
  destruct (Ascii.eqb_spec c "~"); [done|]. destruct (Ascii.eqb_spec c "/"); [done|].
  cbn [count_byte]. by destruct (Ascii.eqb_spec c "/").
Qed.

Lemma split_join_escape parts : parts ≠ [] → split_byte "/" (str_join "/" (map escape parts)) = map escape parts.
Proof.
  induction parts as [|p [|q parts] IH]; intros Hne; [done| |].
  - apply split_byte_without, escape_without.
  - change (str_join "/" (map escape (p :: q :: parts))) with
      (escape p +:+ String "/" (str_join "/" (map escape (q :: parts)))).
    rewrite split_byte_first by apply escape_without. by rewrite IH.
Qed.

Lemma pointer_reads parts : parts ≠ [] → parsePointer (pointer parts) = Ok parts.
Proof.
  intros Hne. assert (pointer parts = String "/" (str_join "/" (map escape parts))) as -> by by destruct parts.
  unfold parsePointer. assert (∀ s, has_prefix "/" (String "/" s) = true) as -> by (intros s; apply (has_prefix_app "/" s)).
  cbn [str_drop]. rewrite split_join_escape by done.
  assert (existsb badEscape (map escape parts) = false) as ->.
  { induction parts as [|p parts IH]; [done|]. simpl. rewrite badEscape_escape. simpl.
    destruct parts; [done|]. by apply IH. }
  cbn [negb]. f_equal. rewrite map_map. rewrite (map_ext (λ x, unescape (escape x)) (λ x, x) unescape_escape).
  apply map_id.
Qed.

(** * Patches

    A patch writes where its path points, and nowhere that parts from its path
    at a key of an object. *)

(** Two paths that part at a key of an object inside [v]. *)
Inductive parts_in : value → list string → list string → Prop :=
| parts_here members k k' rest rest' :
    k ≠ k' → parts_in (VObject members) (k :: rest) (k' :: rest')
| parts_below v k c rest rest' :
    child v k = Some c → parts_in c rest rest' → parts_in v (k :: rest) (k :: rest').

Lemma patchIndex_ok raw n add index : patchIndex raw n add = Ok index → raw ≠ "-" →
  parse_int raw = Some index ∧ 0 ≤ index ≤ n ∧ (add = false → index < n).
Proof.
  unfold patchIndex. intros Hp Hne. apply String.eqb_neq in Hne. rewrite Hne in Hp. simpl in Hp.
  destruct (parse_int raw) as [i|]; [|done]. apply guard_ok in Hp as [Hp [= ->]].
  apply negb_true_iff, orb_false_iff in Hp as [Hp Ha]. apply orb_false_iff in Hp as [H1 H2]. bool_prop.
  split_and!; [done|lia|lia|]. intros ->. simpl in Ha. bool_prop. lia.
Qed.

(** An index into an array that a patch does not add at the end of. *)
Lemma patchIndex_child elements token index :
  patchIndex token (Z.of_nat (length elements)) false = Ok index →
  ∃ c, elements !! Z.to_nat index = Some c ∧ child (VArray elements) token = Some c ∧ parse_int token = Some index.
Proof.
  intros Hp. assert (token ≠ "-") as Hne by (by intros ->).
  apply patchIndex_ok in Hp as (Hi & Hb & Hlt); [|done].
  specialize (Hlt eq_refl). destruct (lookup_lt_is_Some_2 elements (Z.to_nat index)) as [c Hc]; [lia|].
  exists c. split_and!; [done| |done]. simpl. rewrite Hi.
  destruct (Z.ltb_spec index 0), (Z.leb_spec (Z.of_nat (length elements)) index); try lia. done.
Qed.

Lemma child_array elements token index c : parse_int token = Some index → 0 ≤ index →
  elements !! Z.to_nat index = Some c → child (VArray elements) token = Some c.
Proof.
  intros Hi Hpos Hc. simpl. rewrite Hi. apply lookup_lt_Some in Hc as Hlt.
  destruct (Z.ltb_spec index 0), (Z.leb_spec (Z.of_nat (length elements)) index); try lia. done.
Qed.

Definition writes (o : PatchOperation) : Prop := pt_Op o = "add" ∨ pt_Op o = "replace".

Lemma patchLast_written current key o updated : writes o → key ≠ "-" →
  patchLast current key o = Ok updated → child updated key = Some (pt_Value o).
Proof.
  intros Hw Hkey Hp. destruct current as [| | | |elements|members]; try done; cbn [patchLast] in Hp.
  - apply res_bind_ok in Hp as (a & Ha & Hp). apply patchIndex_ok in Ha as (Hi & Hb & Hlt); [|done].
    destruct Hw as [Hw|Hw]; rewrite Hw in Hp, Hlt; injection Hp as <-;
      apply (child_array _ _ a); try done; try lia.
    + apply list_lookup_middle. rewrite length_take. lia.
    + apply list_lookup_insert_eq. specialize (Hlt eq_refl). lia.
  - apply guard_ok in Hp as [_ Hp].
    assert (String.eqb (pt_Op o) "remove" = false) as Hr by (by destruct Hw as [-> | ->]).
    rewrite Hr in Hp. injection Hp as <-. apply get_put_eq.
Qed.

Lemma patchLast_kept current key other rest o updated :
  (∃ members, current = VObject members) → key ≠ other →
  patchLast current key o = Ok updated → descend updated (other :: rest) = descend current (other :: rest).
Proof.
  intros [members ->] Hne Hp. cbn [patchLast] in Hp. apply guard_ok in Hp as [_ Hp].
  destruct (String.eqb (pt_Op o) "remove"); injection Hp as <-; cbn [descend child].
  - by rewrite get_remove_ne.
  - by rewrite get_put_ne.
Qed.

(** The step of a patch that goes below a child. *)
Lemma patchAt_below v k k2 rest o updated : patchAt v (k :: k2 :: rest) o = Ok updated →
  ∃ c c', child v k = Some c ∧ patchAt c (k2 :: rest) o = Ok c' ∧ child updated k = Some c' ∧
    ∀ other tokens, k ≠ other → (∃ members, v = VObject members) →
      descend updated (other :: tokens) = descend v (other :: tokens).
Proof.
  intros Hp. destruct v as [| | | |elements|members]; try done; cbn [patchAt] in Hp.
  - inv_res. apply patchIndex_child in Ha as (c & Hc & Hchild & Hi). rewrite Hc in Ha0. simpl in Ha0.
    exists c, a0. split_and!; [done|done| |by intros ?? _ [? ?]].
    apply (child_array _ _ a); [done| |].
    + cbn [child] in Hchild. rewrite Hi in Hchild. destruct (Z.ltb_spec a 0); [done|lia].
    + apply list_lookup_insert_eq. by eapply lookup_lt_Some.
  - destruct (get k members) as [c|] eqn:Hg; [|done]. inv_res. exists c, a. split_and!; [done|done| |].
    + apply get_put_eq.
    + intros other tokens Hne _. cbn [descend child]. by rewrite get_put_ne.
Qed.

Lemma patchAt_written tokens o : writes o → ∀ v updated,
  patchAt v tokens o = Ok updated → List.last tokens "-" ≠ "-" → descend updated tokens = Some (pt_Value o).
Proof.
  intros Hw. induction tokens as [|k [|k2 rest] IH]; intros v updated Hp Hlast; [done| |].
  - cbn [descend]. by rewrite (patchLast_written v k o updated).
  - apply patchAt_below in Hp as (c & c' & _ & Hp & Hc & _).
    change (match child updated k with Some c => descend c (k2 :: rest) | None => None end = Some (pt_Value o)).
    rewrite Hc. by apply (IH c).
Qed.

Lemma patchAt_kept tokens o : ∀ v updated others,
  patchAt v tokens o = Ok updated → parts_in v tokens others → descend updated others = descend v others.
Proof.
  induction tokens as [|k rest IH]; intros v updated others Hp Hd; inversion Hd as [members k1 k' rest1 rest' Hne|v1 k1 c rest1 rest' Hchild Hrest]; subst.
  - destruct rest as [|k2 rest].
    + eapply patchLast_kept; [by eexists|done|done].
    + apply patchAt_below in Hp as (c & c' & _ & _ & _ & Hkept). apply Hkept; [done|by eexists].
  - destruct rest as [|k2 rest]; [by inversion Hrest|].
    apply patchAt_below in Hp as (c' & c'' & Hc & Hp & Hc' & _).
    cbn [descend]. rewrite Hc, Hc'. rewrite Hc in Hchild. injection Hchild as ->. by apply IH.
Qed.

(** A patch does what RFC 6902 says and no more: after an [add] or a
    [replace], its path leads to its value; and every path that parts from its
    own at a key of an object leads to what it led to before. *)
Theorem patch_lens root o updated tokens :
  applyPatch root o = Ok updated → parsePointer (pt_Path o) = Ok tokens →
  (writes o → List.last tokens "-" ≠ "-" → descend updated tokens = Some (pt_Value o)) ∧
  (∀ others, parts_in root tokens others → descend updated others = descend root others).
Proof.
  intros Hp Ht. unfold applyPatch in Hp. apply guard_ok in Hp as [_ Hp]. apply guard_ok in Hp as [_ Hp].
  rewrite Ht in Hp. simpl in Hp. split.
  - intros Hw Hlast. by eapply patchAt_written.
  - intros others Hd. by eapply patchAt_kept.
Qed.

(** * The diff is bounded *)

Lemma str_take_length n : ∀ s, (String.length (str_take n s) ≤ n)%nat.
Proof. induction n as [|n IH]; intros [|c s]; simpl; try lia. specialize (IH s). lia. Qed.

Lemma boundedDiff_length text : str_len (boundedDiff text) ≤ MaxDiff.
Proof.
  unfold boundedDiff. destruct (Z.leb_spec (str_len text) MaxDiff) as [|_]; [done|].
  rewrite str_len_app. assert (str_len diffMarker = 37) as -> by done.
  pose proof (str_take_length (Z.to_nat (MaxDiff - 37)) text). unfold str_len, MaxDiff in *. lia.
Qed.

Lemma diffLines_bounded sign lines : ∀ b, match diffLines sign lines b with
  | inl answer => str_len answer ≤ MaxDiff
  | inr b' => lines ≠ [] → str_len b' < MaxDiff
  end.
Proof.
  induction lines as [|line lines IH]; intros b; [by intros []|]. cbn [diffLines].
  destruct (Z.leb_spec MaxDiff (str_len (b +:+ sign +:+ line +:+ newline))) as [|Hlt]; [apply boundedDiff_length|].
  specialize (IH (b +:+ sign +:+ line +:+ newline)). destruct (diffLines sign lines _) as [answer|b'] eqn:E; [done|].
  intros _. destruct lines as [|l lines]; [by injection E as <-|by apply IH].
Qed.

Lemma split_byte_nonempty c s : split_byte c s ≠ [].
Proof. destruct s as [|a s]; simpl; [done|]. destruct (Ascii.eqb a c); [done|]. by destruct (split_byte c s). Qed.

(** The diff that a preview shows is bounded: whatever the documents and the
    path, it is at most [MaxDiff] bytes. *)
Theorem GitDiff_bounded path before after : str_len (GitDiff path before after) ≤ MaxDiff.
Proof.
  unfold GitDiff. destruct (String.eqb before after); [done|].
  pose proof (diffLines_bounded "-" (linesOf before) (diffHeader path)) as H1.
  destruct (diffLines "-" _ _) as [answer|b]; [done|].
  pose proof (diffLines_bounded "+" (linesOf after) b) as H2.
  destruct (diffLines "+" _ _) as [answer|b']; [done|]. specialize (H2 (split_byte_nonempty _ _)). lia.
Qed.
