(* ===== verification/AppConfigSafety.v ===== *)
(** What an edit of a document can change ([Apply] of
    [internal/appconfig/config.go]): locked fields keep their values as long as
    the comparison records every difference, and a difference it does not
    record is not refused. *)

From Stdlib Require Import Ascii.
From S2P Require Import Prelude Regexp GoStrings Digest JsonValues JsonEncoding Workload AppConfig AppConfigFacts.

Open Scope Z_scope.

(** * The insertion sort *)

Lemma sink_perm {A} (less : A → A → bool) x l : sink less x l ≡ₚ x :: l.
Proof.
  induction l as [|y l IH]; simpl; [done|]. destruct (less x y); [|done]. rewrite IH. by apply Permutation_swap.
Qed.

Lemma insertion_sort_perm {A} (less : A → A → bool) l : insertion_sort less l ≡ₚ l.
Proof.
  unfold insertion_sort. rewrite <- Permutation_rev.
  assert (∀ acc, foldl (λ sorted x, sink less x sorted) acc l ≡ₚ l ++ acc) as Hfold.
  { induction l as [|x l IH]; intros acc; simpl; [done|]. rewrite IH, sink_perm. by rewrite Permutation_middle. }
  by rewrite Hfold, app_nil_r.
Qed.

Lemma elem_of_orderedKeys lm rm key : key ∈ orderedKeys lm rm ↔ key ∈ lm.*1 ∨ key ∈ rm.*1.
Proof.
  unfold orderedKeys, sortStrings. by rewrite insertion_sort_perm, elem_of_remove_dups, elem_of_app.
Qed.

(** * The differences of two documents

    Where [walk] finds one, with the two values, before anything is bounded. *)

Definition under (key : string) (d : list string * (value * value)) : list string * (value * value) := (key :: d.1, d.2).

Definition missing (right : value) : list (list string * (value * value)) :=
  if unequal VNull right then [([], (VNull, right))] else [].

Fixpoint differences (left right : value) : list (list string * (value * value)) :=
  if negb (unequal left right) then []
  else match left, right with
  | VObject lm, VObject rm =>
      let lefts := map (λ kv, (kv.1, differences kv.2)) lm in
      flat_map (λ key, map (under key)
        (match get key lefts with
         | Some find => find (default VNull (get key rm))
         | None => missing (default VNull (get key rm))
         end)) (orderedKeys lm rm)
  | _, _ => [([], (left, right))]
  end.

Definition report (path : string) (changes : list SemanticChange) (d : list string * (value * value))
    : list SemanticChange :=
  recordChange (path +:+ pointer d.1) d.2.1 d.2.2 changes.

Lemma pointer_cons key parts : pointer (key :: parts) = "/" +:+ escape key +:+ pointer parts.
Proof. destruct parts; [by rewrite str_app_nil_r|done]. Qed.

Lemma report_below path key ds changes :
  foldl (report (below path key)) changes ds = foldl (report path) changes (map (under key) ds).
Proof.
  revert changes. induction ds as [|d ds IH]; intros changes; [done|]. simpl. rewrite IH. f_equal.
  unfold report, below, under. cbn [fst snd]. rewrite pointer_cons. by rewrite !str_app_assoc.
Qed.

Lemma get_map {A B} (f : A → B) key (l : list (string * A)) :
  get key (map (λ kv, (kv.1, f kv.2)) l) = f <$> get key l.
Proof. induction l as [|[k a] l IH]; simpl; [done|]. by destruct (String.eqb k key). Qed.

Lemma foldl_flat_map {A B C} (f : A → B → A) (g : C → list B) l : ∀ a,
  foldl f a (flat_map g l) = foldl (λ a c, foldl f a (g c)) a l.
Proof. induction l as [|c l IH]; intros a; simpl; [done|]. by rewrite foldl_app, IH. Qed.

Lemma foldl_ext_in {A B} (f g : A → B → A) l : ∀ a, (∀ a b, b ∈ l → f a b = g a b) → foldl f a l = foldl g a l.
Proof.
  induction l as [|b l IH]; intros a Hfg; simpl; [done|]. rewrite Hfg by set_solver. apply IH. set_solver.
Qed.

Lemma walkMissing_report path right changes :
  walkMissing path right changes = foldl (report path) changes (missing right).
Proof.
  unfold walkMissing, missing, report. destruct (unequal VNull right); [|done].
  simpl. by rewrite str_app_nil_r.
Qed.

Lemma walk_report left : ∀ path right changes,
  walk left path right changes = foldl (report path) changes (differences left right).
Proof.
  induction left as [| | | |elements _|lm IH] using value_ind'; intros path right changes.
  1-5: cbn [walk differences]; destruct (unequal _ right); [|done];
    cbn [negb foldl]; unfold report; cbn [fst snd pointer]; by rewrite str_app_nil_r.
  cbn [walk differences]. destruct (unequal _ right); [|done]. cbn [negb].
  destruct right as [| | | | |rm]; try (cbn [foldl]; unfold report; cbn [fst snd pointer]; by rewrite str_app_nil_r).
  rewrite foldl_flat_map. apply foldl_ext_in. intros acc key _. rewrite <- report_below.
  rewrite (get_map walk key lm), (get_map differences key lm).
  destruct (get key lm) as [l|] eqn:Hg; cbn [fmap option_fmap option_map].
  - rewrite Forall_forall in IH. apply get_elem_of in Hg. by apply (IH _ Hg).
  - apply walkMissing_report.
Qed.

(** * Nothing is missed

    [field] follows keys; what is missing is nil.  [shallow] is a value without
    the members it may have. *)

Fixpoint field (v : value) (tokens : list string) : value :=
  match tokens with
  | [] => v
  | token :: rest => field (default VNull (get token (object_or_nil (Some v)))) rest
  end.

Definition shallow (v : value) : value := match v with VObject _ => VObject [] | _ => v end.

Definition comparable (a b : list string) : Prop := a `prefix_of` b ∨ b `prefix_of` a.

Lemma field_nil tokens : field VNull tokens = VNull.
Proof. by induction tokens. Qed.

Lemma unequal_false left right : valid_value left = true → valid_value right = true →
  unequal left right = false → left = right.
Proof.
  unfold unequal. intros Hl Hr He. apply negb_false_iff, String.eqb_eq in He. by apply Marshal_injective.
Qed.

Lemma valid_member members key v :
  valid_value (VObject members) = true → get key members = Some v → valid_value v = true.
Proof.
  simpl. intros [_ Hall]%andb_true_iff Hg%get_elem_of. rewrite forallb_elem_of in Hall.
  by apply Hall, andb_true_iff in Hg as [_ ?].
Qed.

Lemma valid_next members key :
  valid_value (VObject members) = true → valid_value (default VNull (get key members)) = true.
Proof. intros Hv. destruct (get key members) eqn:Hg; [|done]. by eapply valid_member. Qed.

Lemma differences_complete left : ∀ right tokens,
  valid_value left = true → valid_value right = true →
  shallow (field left tokens) ≠ shallow (field right tokens) →
  ∃ d, d ∈ differences left right ∧ comparable d.1 tokens.
Proof.
  induction left as [| | | |elements _|lm IH] using value_ind'; intros right tokens Hl Hr Hne.
  1-5: cbn [differences]; destruct (unequal _ right) eqn:Hu;
    [cbn [negb]; eexists; split; [by left|]; left; apply prefix_nil
    |by apply unequal_false in Hu as <-].
  cbn [differences]. destruct (unequal _ right) eqn:Hu; [|by apply unequal_false in Hu as <-]. cbn [negb].
  destruct right as [| | | | |rm];
    try (eexists; split; [by left|]; left; apply prefix_nil).
  destruct tokens as [|token rest]; [done|]. cbn [field object_or_nil as_object default] in Hne.
  assert (∃ d, d ∈ match get token (map (λ kv, (kv.1, differences kv.2)) lm) with
                   | Some find => find (default VNull (get token rm))
                   | None => missing (default VNull (get token rm))
                   end ∧ comparable d.1 rest) as (d & Hd & Hc).
  { rewrite (get_map differences token lm). unfold object_or_nil, as_object in Hne. simpl in Hne.
    destruct (get token lm) as [l|] eqn:Hg; simpl in Hne |- *.
    - rewrite Forall_forall in IH. apply (IH (token, l)); [by apply get_elem_of| | |done].
      + exact (valid_member lm token l Hl Hg).
      + by apply valid_next.
    - rewrite field_nil in Hne. unfold missing. destruct (unequal VNull _) eqn:Hn.
      + eexists. split; [by left|]. left. apply prefix_nil.
      + apply unequal_false in Hn; [|done|by apply valid_next]. rewrite <- Hn, field_nil in Hne. done. }
  exists (under token d). split.
  - apply list_elem_of_In, in_flat_map. exists token. split.
    + apply list_elem_of_In, elem_of_orderedKeys.
      destruct (decide (token ∈ lm.*1)) as [|Hnl]; [by left|right].
      destruct (decide (token ∈ rm.*1)) as [|Hnr]; [done|].
      apply get_not_elem in Hnl, Hnr. rewrite (get_map differences token lm), Hnl, Hnr in Hd. by apply elem_of_nil in Hd.
    + apply list_elem_of_In, list_elem_of_fmap. eauto.
  - destruct Hc as [Hc|Hc]; [left|right]; by apply prefix_cons.
Qed.

(** * What is recorded *)

Lemma recordChange_length path left right changes :
  (length changes ≤ length (recordChange path left right changes))%nat.
Proof.
  unfold recordChange. destruct (_ <? _)%nat; [|done]. destruct (boundedSemanticValues _ _) as [[??]?].
  rewrite length_app. lia.
Qed.

Lemma report_length path ds : ∀ changes, (length changes ≤ length (foldl (report path) changes ds))%nat.
Proof.
  induction ds as [|d ds IH]; intros changes; simpl; [done|].
  etransitivity; [apply recordChange_length|apply IH].
Qed.

Lemma recordChange_elem path left right changes : (length changes < maxChanges)%nat →
  (∀ c, c ∈ changes → c ∈ recordChange path left right changes) ∧
  ∃ c, c ∈ recordChange path left right changes ∧ sc_Pointer c = emptyRoot path.
Proof.
  intros Hl. unfold recordChange. apply Nat.ltb_lt in Hl as ->.
  destruct (boundedSemanticValues _ _) as [[??]?]. split; [set_solver|]. eexists. split; [apply elem_of_app; right; by left|done].
Qed.

(** As long as the comparison has not stopped counting, it reports every
    difference. *)
Lemma report_complete path ds : ∀ changes,
  (length (foldl (report path) changes ds) < maxChanges)%nat →
  (∀ c, c ∈ changes → c ∈ foldl (report path) changes ds) ∧
  ∀ d, d ∈ ds → ∃ c, c ∈ foldl (report path) changes ds ∧ sc_Pointer c = emptyRoot (path +:+ pointer d.1).
Proof.
  induction ds as [|d ds IH]; intros changes Hl; simpl in *; [split; [done|set_solver]|].
  pose proof (report_length path ds (report path changes d)) as Hmono.
  pose proof (recordChange_length (path +:+ pointer d.1) d.2.1 d.2.2 changes) as Hstep.
  destruct (IH _ Hl) as [Hkept Hds].
  destruct (recordChange_elem (path +:+ pointer d.1) d.2.1 d.2.2 changes) as [Hold (c & Hc & Hp)];
    [unfold report in Hmono, Hl; lia|].
  split; [intros; by apply Hkept, Hold|]. intros d' [->|Hd']%elem_of_cons; [|by apply Hds].
  exists c. split; [by apply Hkept|done].
Qed.

Lemma compare_complete (before after : value) tokens :
  valid_value before = true → valid_value after = true → (length (compare before after) < maxChanges)%nat →
  shallow (field before tokens) ≠ shallow (field after tokens) →
  ∃ c parts, c ∈ compare before after ∧ sc_Pointer c = emptyRoot (pointer parts) ∧ comparable parts tokens.
Proof.
  intros Hb Ha Hl Hne. destruct (differences_complete before after tokens Hb Ha Hne) as (d & Hd & Hc).
  unfold compare in *. rewrite walk_report in *.
  destruct (report_complete _ _ _ Hl) as [_ Hall]. destruct (Hall d Hd) as (c & Hin & Hp).
  exists c, d.1. by rewrite str_app_nil in Hp.
Qed.

(** * Editable pointers *)

Definition editableRoots : list (list string) :=
  omap (λ p, match parsePointer p with Ok tokens => Some tokens | Err _ => None end) EditablePointers.

(** A path that no editable pointer leads to, or into, or through. *)
Definition comparableb (a b : list string) : bool := bool_decide (a `prefix_of` b) || bool_decide (b `prefix_of` a).
Definition locked (tokens : list string) : bool := negb (existsb (comparableb tokens) editableRoots).

Lemma comparableb_spec a b : comparableb a b = true ↔ comparable a b.
Proof. unfold comparableb. by rewrite orb_true_iff, !bool_decide_eq_true. Qed.

Lemma split_byte_twice c s1 s2 : split_byte c (s1 +:+ String c s2) = (split_byte c s1 ++ split_byte c s2)%list.
Proof.
  induction s1 as [|a s1 IH]; rewrite ?str_app_nil, ?str_app_cons; cbn [split_byte]; [by rewrite Ascii.eqb_refl|].
  rewrite IH. destruct (Ascii.eqb a c); [done|]. by destruct (split_byte c s1) as [|w ws] eqn:E; [destruct s1; simpl in E; repeat case_match|].
Qed.

Lemma pointer_inj a b : a ≠ [] → b ≠ [] → pointer a = pointer b → a = b.
Proof.
  intros Ha Hb Hp. pose proof (pointer_reads a Ha) as H1. rewrite Hp, pointer_reads in H1 by done. by simplify_eq.
Qed.

(** A pointer that continues another. *)
Lemma pointer_continues root parts rest : root ≠ [] → parts ≠ [] →
  pointer parts = (pointer root +:+ "/") +:+ rest → root `prefix_of` parts.
Proof.
  intros Hr Hp Heq. pose proof (pointer_reads parts Hp) as Hread. rewrite Heq in Hread.
  assert (pointer root = String "/" (str_join "/" (map escape root))) as Hroot by by destruct root.
  rewrite Hroot, str_app_assoc, !str_app_cons, str_app_nil in Hread. unfold parsePointer in Hread.
  apply guard_ok in Hread as [_ Hread]. apply guard_ok in Hread as [_ Hread]. cbn [str_drop] in Hread.
  rewrite split_byte_twice, split_join_escape, map_app, map_map in Hread by done.
  rewrite (map_ext (λ x, unescape (escape x)) (λ x, x) unescape_escape), map_id in Hread.
  injection Hread as <-. by eexists.
Qed.

Definition reads_back (p : string) : bool :=
  match parsePointer p with
  | Ok (token :: tokens) => String.eqb (pointer (token :: tokens)) p
  | _ => false
  end.

Lemma editableRoots_pointers p : p ∈ EditablePointers →
  ∃ root, root ∈ editableRoots ∧ root ≠ [] ∧ p = pointer root.
Proof.
  assert (forallb reads_back EditablePointers = true) as Hall by (vm_compute; reflexivity).
  rewrite forallb_elem_of in Hall. intros Hin. specialize (Hall p Hin). unfold reads_back in Hall.
  destruct (parsePointer p) as [[|token tokens]|] eqn:Hp; try done. apply String.eqb_eq in Hall.
  exists (token :: tokens). split_and!; [|done|done]. unfold editableRoots. apply list_elem_of_omap.
  exists p. by rewrite Hp.
Qed.

Lemma editable_under parts : editable (emptyRoot (pointer parts)) = true → ∃ root, root ∈ editableRoots ∧ root `prefix_of` parts.
Proof.
  destruct parts as [|token tokens]; [by intros H; vm_compute in H|].
  assert (emptyRoot (pointer (token :: tokens)) = pointer (token :: tokens)) as -> by done.
  unfold editable. rewrite existsb_elem_of. intros (p & Hp & Hedit).
  apply editableRoots_pointers in Hp as (root & Hroot & Hne & ->). exists root. split; [done|].
  apply orb_true_iff in Hedit as [Heq|Hpre].
  - apply String.eqb_eq, pointer_inj in Heq as <-; done.
  - apply has_prefix_spec in Hpre as [rest Hrest]. by eapply pointer_continues.
Qed.

Lemma locked_incomparable tokens root : locked tokens = true → root ∈ editableRoots → ¬ comparable tokens root.
Proof.
  unfold locked. intros Hl Hr Hc%comparableb_spec. apply negb_true_iff in Hl.
  assert (existsb (comparableb tokens) editableRoots = true) as Ht; [|congruence].
  apply existsb_elem_of. eauto.
Qed.

Lemma comparable_through root parts tokens : root `prefix_of` parts → comparable parts tokens → comparable tokens root.
Proof.
  intros Hr [Hp|Hp]; [right; by etransitivity|]. unfold comparable. by destruct (prefix_weak_total tokens root parts); [..|left|right].
Qed.

(** * The theorem *)

Section edits.
Context `{MapOrder} `{LibraryLaws}.

Lemma ParseAndValidate_valid raw parsed runtime diagnostics :
  ParseAndValidate raw = (parsed, runtime, diagnostics) → valid_value (parsedValue parsed) = true.
Proof.
  unfold ParseAndValidate, unparsed. destruct (normalize raw) as [text|]; [|by intros [= <- _ _]].
  destruct (readYAML text) as [failure|members] eqn:Hy.
  - unfold readYAML, unparsed in Hy. intros ->. repeat case_match; simplify_eq; done.
  - assert (valid_value (VObject members) = true) as Hv.
    { unfold readYAML in Hy. repeat case_match; simplify_eq. by eapply yaml_value_valid. }
    destruct schema_validate as [check|]; [|by intros [= <- _ _]].
    destruct (validateSpec _ _) as [rt ds]. by intros [= <- _ _].
Qed.

Lemma patchAll_refused patch : ∀ index root c, patchAll index root patch = Err c → cd_Diagnostics c ≠ [].
Proof.
  induction patch as [|o patch IH]; intros index root c; simpl; [done|].
  destruct (applyPatch root o); [apply IH|]. by intros [= <-].
Qed.

Lemma requestedText_refused current change c : requestedText current change = Err c → cd_Diagnostics c ≠ [].
Proof.
  unfold requestedText, switch. repeat case_match; try (by intros [= <-]); try done.
  destruct (patchAll _ _ _) as [root|c'] eqn:Hp; simpl; [done|]. intros [= <-]. by eapply patchAll_refused.
Qed.

Lemma unlocked changes : take 64 (flat_map lockedField changes) = [] →
  ∀ c, c ∈ changes → editable (sc_Pointer c) = true.
Proof.
  intros Ht c Hc. destruct (flat_map lockedField changes) as [|d ds] eqn:Hf; [|done].
  assert (lockedField c = []) as Hl.
  { destruct (lockedField c) as [|d ds] eqn:E; [done|]. exfalso.
    assert (d ∈ flat_map lockedField changes) as Hin; [|rewrite Hf in Hin; by apply elem_of_nil in Hin].
    apply list_elem_of_In, in_flat_map. exists c. split; [by apply list_elem_of_In|]. rewrite E. by left. }
  unfold lockedField in Hl. by destruct (editable (sc_Pointer c)).
Qed.

(** What [Apply] did when it has no diagnostics. *)
Lemma Apply_accepted current change : cd_Diagnostics (Apply current change) = [] →
  ∃ before after r r', ParseAndValidate current = (before, r, []) ∧
    ParseAndValidate (cd_Raw (Apply current change)) = (after, r', []) ∧
    cd_Parsed (Apply current change) = after ∧
    cd_Changes (Apply current change) = compare (parsedValue before) (parsedValue after) ∧
    ∀ c, c ∈ cd_Changes (Apply current change) → editable (sc_Pointer c) = true.
Proof.
  unfold Apply. destruct (ParseAndValidate current) as [[before r] [|d ds]]; [|done].
  destruct (requestedText _ change) as [raw|refused] eqn:Hreq; [|by intros Hd%(requestedText_refused _ _ _ Hreq)].
  destruct (normalize raw) as [normalized|]; [|done].
  destruct (ParseAndValidate normalized) as [[after r'] [|d ds]] eqn:Hp; [|done].
  cbn [cd_Diagnostics cd_Raw cd_Parsed cd_Changes]. intros Hd. exists before, after, r, r'.
  split_and!; try done. by apply unlocked.
Qed.

(** C5. Locked fields keep their values. When an edit is accepted and the
    comparison recorded fewer changes than it can, then along every path that
    no editable pointer leads to, into or through - those of [LockedPointers]
    and everything below them - the accepted document has the very scalars,
    arrays and objects of the current one. *)
Theorem locked_fields_kept current change :
  cd_Diagnostics (Apply current change) = [] → (length (cd_Changes (Apply current change)) < maxChanges)%nat →
  ∃ before after r r', ParseAndValidate current = (before, r, []) ∧
    ParseAndValidate (cd_Raw (Apply current change)) = (after, r', []) ∧
    ∀ tokens, locked tokens = true →
      shallow (field (parsedValue before) tokens) = shallow (field (parsedValue after) tokens).
Proof.
  intros (before & after & r & r' & Hb & Ha & _ & Hc & Hedit)%Apply_accepted Hl.
  exists before, after, r, r'. split_and!; [done|done|]. intros tokens Hlocked.
  apply dec_stable. intros Hne. rewrite Hc in Hl, Hedit.
  destruct (compare_complete (parsedValue before) (parsedValue after) tokens) as (c & parts & Hin & Hp & Hcomp);
    [by eapply ParseAndValidate_valid..|done|done|].
  apply Hedit in Hin. rewrite Hp in Hin. apply editable_under in Hin as (root & Hroot & Hpre).
  eapply locked_incomparable; [done..|]. by eapply comparable_through.
Qed.
End edits.

(** * Concrete documents *)

From S2P Require Import WorkloadFacts.

(** * Libraries that read the two documents by name

    [yaml_decode] knows the texts of a table; its nodes carry the text as their
    tag, and every document satisfies the schema and has the same runtime. *)

Definition tableLibraries (table : list (string * members_of)) (runtime : WorkloadRuntime) : Libraries := {|
  yaml_decode text := [Ok (mkNode false "" false "" 1 1 [mkNode true "" false ("!!" +:+ text) 1 1 []])];
  yaml_value node :=
    match node with
    | mkNode _ _ _ tag _ _ _ =>
        match get (trim_prefix "!!" tag) table with
        | Some members => if valid_value (VObject members) then Ok (Ok members) else Err "invalid"
        | None => Err "unknown document"
        end
    end;
  schema_validate := Some (λ _, None);
  runtime_decode _ := (runtime, None);
  override_decode _ _ := None;
  ValidateDefinitions _ := true;
|}.

Lemma table_laws table runtime : @LibraryLaws (tableLibraries table runtime).
Proof.
  constructor. intros [mapping anchor alias tag line column content] members. simpl.
  destruct (get _ table) as [m|]; [|done]. destruct (ascending m && _) eqn:E; [|done]. by intros [= <-].
Qed.

Definition number (n : Z) : value := VNumber (format_int n).

Fixpoint upTo (n : nat) : list Z := match n with O => [] | S m => (upTo m ++ [Z.of_nat m])%list end.

(** A map of [n] labels with the value [v]. *)
Definition labels (prefix : string) (v : string) (n : nat) : value :=
  VObject (foldl (λ m i, put (prefix +:+ format_int i) (VString v) m) [] (upTo n)).

(** A document with two full maps of metadata overrides. *)
Definition documentWith (v revision : string) : members_of :=
  [("apiVersion", VString "config.kuberploy.io/v1alpha1");
   ("kind", VString "AppConfig");
   ("metadata", VObject [("id", VString shopID); ("name", VString "shop")]);
   ("spec", VObject
     [("applicationId", VString shopID);
      ("delivery", VObject [("mode", VString "image")]);
      ("environmentId", VString "22222222-2222-4222-8222-222222222222");
      ("overrides", VObject
        [("deployment", VObject
          [("metadata", VObject [("annotations", labels "a" v 128); ("labels", labels "l" v 128)])])]);
      ("projectId", VString "11111111-1111-4111-8111-111111111111");
      ("runtime", VObject [("configRevision", VString revision); ("replicas", number 1)])])].

Definition before : members_of := documentWith "old" "reviewed".
Definition after : members_of := documentWith "new" "forged".

Definition hiddenLine : string := "hidden" +:+ newline.
Definition currentLine : string := "current" +:+ newline.

Definition shopRuntime : WorkloadRuntime := NormalizeWorkloadRuntime (DefaultWorkloadRuntime 8080 ∅).

#[local] Instance shopLibraries : Libraries :=
  tableLibraries [(currentLine, before); (hiddenLine, after)] shopRuntime.

Definition hiddenEdit : Change := mkEdit "yaml" [("app.yaml", "hidden")] [].

Example hidden : let c := Apply "current" hiddenEdit in
  (length (cd_Changes c), cd_Diagnostics c, cd_Parsed c) = (256%nat, [], Some after).
Proof. vm_compute. reflexivity. Qed.

(** * A locked field that is edited

    More labels change than the comparison records; the ones after them in the
    order of keys go unnoticed. *)

Definition configRevision : string := "/spec/runtime/configRevision".



(** * The theorems at work *)

(** A route is added and the replicas are scaled; then the image is touched. *)
Definition plain : members_of := documentWith "old" "reviewed".

Definition scaled : members_of :=
  put "spec" (VObject (put "routes" (VArray []) (object_or_nil (get "spec" plain)))) plain.

Definition addRoutes : Change := mkEdit "jsonPatch" [] [mkPatch "add" "/spec/routes" (VArray [])].
Definition scaledText : string := MarshalIndent 0 (VObject scaled) +:+ newline.

Definition editLibraries : Libraries := tableLibraries [(currentLine, plain); (scaledText, scaled)] shopRuntime.

Lemma locked_fields_kept_witness :
  let c := Apply (H0 := editLibraries) "current" addRoutes in
  cd_Parsed c = Some scaled ∧ map sc_Pointer (cd_Changes c) = ["/spec/routes"] ∧
  ∃ b a r r', ParseAndValidate (H0 := editLibraries) "current" = (b, r, []) ∧
    ParseAndValidate (H0 := editLibraries) (cd_Raw c) = (a, r', []) ∧
    ∀ tokens, locked tokens = true → shallow (field (parsedValue b) tokens) = shallow (field (parsedValue a) tokens).
Proof.
  split; [vm_compute; reflexivity|]. split; [vm_compute; reflexivity|].
  apply (locked_fields_kept (H1 := table_laws _ _)).
  - vm_compute. reflexivity.
  - apply Nat.ltb_lt. vm_compute. reflexivity.
Defined.

(** Every locked pointer leads where the theorem speaks. *)
Example locked_pointers : forallb (λ p, match parsePointer p with Ok tokens => locked tokens | Err _ => false end)
  LockedPointers = true.
Proof. vm_compute. reflexivity. Qed.

Lemma patch_lens_witness :
  descend (VObject scaled) ["spec"; "routes"] = Some (VArray []) ∧
  descend (VObject scaled) ["spec"; "projectId"] = descend (VObject plain) ["spec"; "projectId"].
Proof.
  destruct (patch_lens (VObject plain) (mkPatch "add" "/spec/routes" (VArray [])) (VObject scaled) ["spec"; "routes"])
    as [Hw Hk].
  - vm_compute. reflexivity.
  - reflexivity.
  - split.
    + apply Hw; [by left|discriminate].
    + apply Hk. eapply parts_below; [reflexivity|]. by apply parts_here.
Defined.

(** What RFC 6901 does not allow is refused, but for a tilde that the first
    replacement exposes. *)
Example pointers :
  (parsePointer "/a~1b/~0c", is_ok (parsePointer "/a~2"), parsePointer "/~~10") =
  (Ok ["a/b"; "~c"], false, Ok ["~/0"]).
Proof. reflexivity. Qed.
