(* ===== verification/AutoDeployConfig.v ===== *)
(** The intent of an automatic deployment ([internal/appconfig/autodeploy.go]):
    the document of an application without what a deployment derives, the image
    that a deployment puts into it, and the fields it derives again.

    [encoding/json]'s decoder is an interface.  A copy of a document is the
    document, since values are immutable here. *)

From Stdlib Require Import Ascii.
From S2P Require Import Prelude Regexp GoStrings Digest Encoding JsonValues Workload AppConfig.

Open Scope Z_scope.

(** * The decoder *)

Class JSONDecoder := {
  (** The first value of a text and the text after it, with [UseNumber]. *)
  json_decode : string → option (value * string);
  (** The number that a [float64] decoded from a number is written as. *)
  float_text : string → string;
}.

Class JSONLaws `{JSONDecoder} := {
  decode_valid : ∀ text v rest, json_decode text = Some (v, rest) → valid_value v = true;
  decode_Marshal : ∀ v, valid_value v = true → json_decode (Marshal v) = Some (v, "");
  decode_end : json_decode "" = None;
  float_text_valid : ∀ text, number_text text = true → number_text (float_text text) = true;
}.

(** Decoding without [UseNumber] rounds the numbers. *)
Fixpoint rounded `{JSONDecoder} (v : value) : value :=
  match v with
  | VNumber text => VNumber (float_text text)
  | VArray elements => VArray (map rounded elements)
  | VObject members => VObject (map (λ kv, (kv.1, rounded kv.2)) members)
  | _ => v
  end.

Definition rounded_members `{JSONDecoder} (members : members_of) : members_of :=
  map (λ kv, (kv.1, rounded kv.2)) members.

Definition digest_text (raw : string) : string := "sha256:" +:+ hex_encode (sha256_text raw).

Definition autoDeployIntentDigest (raw : string) : string := if is_empty raw then "" else digest_text raw.

(** * Dependencies *)

Record AutoDeployDependencyIntent := mkDependency {
  ad_Path : string;
  ad_Present : bool;
  ad_BlobID : string;
  ad_ContentSHA256 : string;
}.

Definition validDependency (d : AutoDeployDependencyIntent) : bool :=
  if ad_Present d
  then negb (is_empty (ad_BlobID d) || negb (re_match autoDeployDigestRE (ad_ContentSHA256 d)))
  else negb (negb (is_empty (ad_BlobID d)) || negb (is_empty (ad_ContentSHA256 d))).

Definition validAutoDeployDependencies (dependencies : list AutoDeployDependencyIntent) : bool :=
  match dependencies with
  | [first; second] =>
      negb (is_empty (ad_Path first) || is_empty (ad_Path second) || String.eqb (ad_Path first) (ad_Path second)) &&
      forallb validDependency dependencies
  | _ => false
  end.

(** [json.Marshal] of a dependency, with [omitempty], as a value. *)
Definition dependencyValue (d : AutoDeployDependencyIntent) : value :=
  let optional key text := if is_empty text then [] else [(key, VString text)] in
  VObject (optional "blobId" (ad_BlobID d) ++ optional "contentSha256" (ad_ContentSHA256 d) ++
           [("path", VString (ad_Path d)); ("present", VBool (ad_Present d))])%list.

(** [json.Unmarshal] of a value into a dependency: entry by entry, to the field
    whose name it has but for case; a null leaves a field as it is, other names
    are ignored, another type is an error. *)
Definition assignDependency (d : AutoDeployDependencyIntent) (entry : string * value)
    : option AutoDeployDependencyIntent :=
  let '(key, v) := entry in
  let text (set : string → AutoDeployDependencyIntent) :=
    match v with VNull => Some d | VString s => Some (set s) | _ => None end in
  if equal_fold "path" key then
    text (λ s, mkDependency s (ad_Present d) (ad_BlobID d) (ad_ContentSHA256 d))
  else if equal_fold "present" key then
    match v with
    | VNull => Some d
    | VBool b => Some (mkDependency (ad_Path d) b (ad_BlobID d) (ad_ContentSHA256 d))
    | _ => None
    end
  else if equal_fold "blobId" key then
    text (λ s, mkDependency (ad_Path d) (ad_Present d) s (ad_ContentSHA256 d))
  else if equal_fold "contentSha256" key then
    text (λ s, mkDependency (ad_Path d) (ad_Present d) (ad_BlobID d) s)
  else Some d.

Fixpoint assignAll (d : AutoDeployDependencyIntent) (entries : members_of) : option AutoDeployDependencyIntent :=
  match entries with
  | [] => Some d
  | entry :: rest => match assignDependency d entry with Some d => assignAll d rest | None => None end
  end.

Definition decodeDependency (v : value) : option AutoDeployDependencyIntent :=
  let zero := mkDependency "" false "" "" in
  match v with
  | VNull => Some zero
  | VObject members => assignAll zero members
  | _ => None
  end.

Definition decodeDependencies (v : value) : option (list AutoDeployDependencyIntent) :=
  match v with
  | VNull => Some []
  | VArray elements => mapM decodeDependency elements
  | _ => None
  end.

(** * The canonical intent *)

Definition autoDeployDependenciesKey : string := "x-kuberploy-auto-deploy-dependencies".

(** [route["dns"]["mode"] == "sslip"] *)
Definition usesSSLIP (route : members_of) : bool :=
  equals_string (get "mode" (object_or_nil (get "dns" route))) "sslip".

(** [for _, item := range m[key] { item, _ := item.(map[string]any); f(item) }],
    where [f] changes objects; the loop does nothing where the entry is not an
    array. *)
Definition edit_object (f : members_of → members_of) (v : value) : value :=
  match v with VObject members => VObject (f members) | _ => v end.

Definition edit_each (key : string) (f : members_of → members_of) (members : members_of) : members_of :=
  match get key members with
  | Some (VArray elements) => put key (VArray (map (edit_object f) elements)) members
  | _ => members
  end.

Definition edit_member (key : string) (f : members_of → members_of) (members : members_of) : members_of :=
  match get key members with
  | Some (VObject m) => put key (VObject (f m)) members
  | _ => members
  end.

Definition dropHost (route : members_of) : members_of := if usesSSLIP route then remove "host" route else route.

Definition dropProfileSpec (definition : members_of) : members_of :=
  if bool_decide (is_Some (get "profileRef" definition)) then remove "spec" definition else definition.

Definition canonicalSpec (spec : members_of) : members_of :=
  edit_each "middlewares" dropProfileSpec
    (edit_each "routes" dropHost
      (edit_member "runtime" (remove "configRevision")
        (put "delivery" (VObject [("mode", VString "image")]) spec))).

(** [None] is the error. *)
Definition canonicalAutoDeployIntent (parsed : members_of) : option members_of :=
  match as_object (get "spec" parsed) with
  | Some spec => Some (put "spec" (VObject (canonicalSpec spec)) parsed)
  | None => None
  end.

Definition keepsHost (route : members_of) : bool := usesSSLIP route && bool_decide (is_Some (get "host" route)).
Definition keepsProfileSpec (definition : members_of) : bool :=
  bool_decide (is_Some (get "profileRef" definition)) && bool_decide (is_Some (get "spec" definition)).

Definition none_of (key : string) (bad : members_of → bool) (members : members_of) : bool :=
  forallb (λ v, negb (bad (object_or_nil (Some v)))) (default [] (as_array (get key members))).

Definition validateCanonicalIntentShape (value : members_of) : bool :=
  (match get autoDeployDependenciesKey value with
   | None => true
   | Some raw =>
       match decodeDependencies raw with
       | Some dependencies => validAutoDeployDependencies dependencies
       | None => false
       end
   end) &&
  match as_object (get "spec" value) with
  | None => false
  | Some spec =>
      match as_object (get "delivery" spec) with
      | None => false
      | Some delivery =>
          (length delivery =? 1)%nat && equals_string (get "mode" delivery) "image" &&
          negb (bool_decide (is_Some (get "configRevision" (object_or_nil (get "runtime" spec))))) &&
          none_of "routes" keepsHost spec && none_of "middlewares" keepsProfileSpec spec
      end
  end.

Section intents.
Context `{MapOrder} `{Libraries} `{JSONDecoder}.

(** The decoder's second call must fail.  A null is a nil map, which has no
    spec. *)
Definition ValidateAutoDeployIntentTemplate (raw digest : string) : bool :=
  if is_empty raw || (MaxDocument <? str_len raw) || negb (re_match autoDeployDigestRE digest) then false
  else match json_decode raw with
  | Some (VObject members, rest) =>
      negb (bool_decide (is_Some (json_decode rest))) && String.eqb (Marshal (VObject members)) raw &&
      String.eqb digest (digest_text raw) && validateCanonicalIntentShape members
  | _ => false
  end.

(** Text and digest, or the diagnostics. *)
Definition templateInvalid (detail : string) : list Diagnostic := [diagnostic "AutoDeployTemplateInvalid" detail ""].

Definition tooLong (raw : string) : bool := is_empty raw || (MaxDocument <? str_len raw).

Definition AutoDeployIntentTemplate (raw : string) : res (list Diagnostic) (string * string) :=
  match ParseAndValidate raw with
  | (parsed, _, []) =>
      match canonicalAutoDeployIntent (default [] parsed) with
      | None => Err (templateInvalid "The AppConfig could not be reduced to a safe image-only deployment template.")
      | Some template =>
          let encoded := Marshal (VObject template) in
          if tooLong encoded then Err (templateInvalid "The AppConfig template exceeds the supported bound.")
          else Ok (encoded, digest_text encoded)
      end
  | (_, _, diagnostics) => Err diagnostics
  end.

Definition dependencyIntentInvalid : string := "invalid auto-deploy dependency intent".

Definition BindAutoDeployDependencies (intent : string) (dependencies : list AutoDeployDependencyIntent)
    : res string (string * string) :=
  guard! ValidateAutoDeployIntentTemplate intent (autoDeployIntentDigest intent) &&
         validAutoDeployDependencies dependencies else dependencyIntentInvalid in
  match json_decode intent, json_decode (Marshal (VArray (map dependencyValue dependencies))) with
  | Some (VObject members, _), Some (canonicalDependencies, _) =>
      let bound := put autoDeployDependenciesKey (rounded canonicalDependencies) (rounded_members members) in
      let encoded := Marshal (VObject bound) in
      guard! negb (tooLong encoded) else dependencyIntentInvalid in
      Ok (encoded, autoDeployIntentDigest encoded)
  | _, _ => Err "cannot unmarshal"
  end.

(** * Deploying an image *)

Definition releaseOf (repository digest : string) : value :=
  VObject [("mode", VString "image");
           ("release", VObject [("digest", VString digest); ("repository", VString repository)])].

(** [spec["delivery"] = release] *)
Definition withImage (repository digest : string) (parsed : members_of) : members_of :=
  edit_member "spec" (put "delivery" (releaseOf repository digest)) parsed.

Definition liveTemplate (current : string) (dependencies : option (list AutoDeployDependencyIntent))
    : res (list Diagnostic) string :=
  match AutoDeployIntentTemplate current with
  | Err diagnostics => Err diagnostics
  | Ok (template, _) =>
      match dependencies with
      | None => Ok template
      | Some dependencies =>
          match BindAutoDeployDependencies template dependencies with
          | Ok (bound, _) => Ok bound
          | Err _ => Err [diagnostic "AutoDeployDependencyInvalid"
                            "The projected variable dependency identity is invalid." ""]
          end
      end
  end.

(** [dependencies] is [None] when it is nil. *)
Definition ApplyAutoDeployImageWithDependencies (current pinnedIntent pinnedDigest image : string)
    (dependencies : option (list AutoDeployDependencyIntent)) : Candidate :=
  if negb (ValidateAutoDeployIntentTemplate pinnedIntent pinnedDigest) || negb (re_match autoDeployImageRE image)
  then rejected "AutoDeployTemplateInvalid" "The pinned image-only template is invalid." ""
  else
    match ParseAndValidate current with
    | (currentParsed, _, []) =>
        let conflict :=
          rejected "AutoDeployTemplateConflict"
            "The current AppConfig intent changed; revise the auto-deploy policy before deploying another build." "" in
        match liveTemplate current dependencies with
        | Err _ => conflict
        | Ok live =>
            if negb (String.eqb (autoDeployIntentDigest live) pinnedDigest) || negb (String.eqb live pinnedIntent)
            then conflict
            else
              let '(repository, digest) := split_once "@" image in
              if negb (str_contains "@" image) || is_empty repository || is_empty digest
              then rejected "AutoDeployImageInvalid" "The verified build image is not an immutable repository digest." ""
              else reparse currentParsed (withImage repository digest (default [] currentParsed))
        end
    | _ => currentInvalid "The stored AppConfig is invalid and cannot be auto-deployed."
    end.

Definition ApplyAutoDeployImage (current pinnedIntent pinnedDigest image : string) : Candidate :=
  ApplyAutoDeployImageWithDependencies current pinnedIntent pinnedDigest image None.

(** * Fields that are derived again *)

Record RegistryPullReference := mkPullReference {
  rp_TargetID : string;
  rp_ProfileName : string;
  rp_ProfileRevision : Z;
}.

Definition validPullReference (r : RegistryPullReference) : bool :=
  re_match uuidPattern (rp_TargetID r) && validDNSLabel (rp_ProfileName r) && (0 <? rp_ProfileRevision r).

Definition pullValue (r : RegistryPullReference) : value :=
  VObject [("profileName", VString (rp_ProfileName r));
           ("profileRevision", VNumber (format_int (rp_ProfileRevision r)));
           ("targetId", VString (rp_TargetID r))].

Definition withPull (pull : option RegistryPullReference) (delivery : members_of) : members_of :=
  match pull with
  | None => remove "registryPull" delivery
  | Some r => put "registryPull" (pullValue r) delivery
  end.

Definition setHost (host : string) (route : members_of) : members_of :=
  if usesSSLIP route then put "host" (VString host) route else route.

Definition routesOf (spec : members_of) : list value := default [] (as_array (get "routes" spec)).

(** [AutoDeployUsesSSLIP]: some route of a document asks for it. *)
Definition specUsesSSLIP (spec : members_of) : bool :=
  existsb (λ v, usesSSLIP (object_or_nil (Some v))) (routesOf spec).

Definition AutoDeployUsesSSLIP (candidate : Candidate) : bool :=
  match cd_Parsed candidate with
  | None => false
  | Some parsed => specUsesSSLIP (object_or_nil (get "spec" parsed))
  end.

Definition mutationFailed (detail : string) : Candidate := rejected "AutoDeployMutationFailed" detail "".

Definition WithAutoDeployDerived (current : string) (candidate : Candidate)
    (registryPull : option RegistryPullReference) (sslipHostname : string) : Candidate :=
  match cd_Diagnostics candidate, cd_Parsed candidate with
  | [], Some parsed =>
      match ParseAndValidate current with
      | (currentParsed, _, []) =>
          match as_object (get "spec" parsed) with
          | None => mutationFailed "The AppConfig spec is unavailable."
          | Some spec =>
              match as_object (get "delivery" spec) with
              | None => mutationFailed "The AppConfig delivery is unavailable."
              | Some delivery =>
                  if match registryPull with Some r => negb (validPullReference r) | None => false end
                  then rejected "AutoDeployRegistryPullInvalid"
                         "The server-derived registry pull profile is invalid." ""
                  else if specUsesSSLIP spec && is_empty sslipHostname
                  then rejected "SSLIPHostnameUnavailable"
                         "The server-derived sslip.io hostname is unavailable." ""
                  else
                    let spec := edit_each "routes" (setHost sslipHostname)
                                  (put "delivery" (VObject (withPull registryPull delivery)) spec) in
                    reparse currentParsed (put "spec" (VObject spec) parsed)
              end
          end
      | _ => currentInvalid "The stored AppConfig is invalid and cannot be auto-deployed."
      end
  | _, _ => candidate
  end.

End intents.

(** * What the codec of intents guarantees *)

From S2P Require Import JsonEncoding AppConfigFacts AppConfigSafety.

(** * Edits of objects *)

Section edits.
Context {A : Type}.
Implicit Types (m : list (string * A)).

Lemma put_put m k v w : put k v (put k w m) = put k v m.
Proof.
  induction m as [|[k' v'] m IH]; simpl; [by rewrite String.eqb_refl|].
  destruct (String.eqb_spec k' k) as [->|Hne]; simpl; [by rewrite String.eqb_refl|].
  destruct (str_less k k') eqn:Hl; simpl; [by rewrite String.eqb_refl|].
  destruct (String.eqb_spec k' k); [done|]. by rewrite Hl, IH.
Qed.

Lemma put_get m k v : ascending m = true → get k m = Some v → put k v m = m.
Proof.
  intros Ha Hg. apply ascending_ext; [by apply ascending_put|done|]. intros k'.
  destruct (decide (k = k')) as [<-|]; [by rewrite get_put_eq|by rewrite get_put_ne].
Qed.

Lemma remove_remove m k : remove k (remove k m) = remove k m.
Proof.
  unfold remove. induction m as [|[k' v] m IH]; simpl; [done|].
  destruct (negb (String.eqb k' k)) eqn:E; simpl; [rewrite E|]; by rewrite ?IH.
Qed.

Lemma remove_put m k v : remove k (put k v m) = remove k m.
Proof.
  unfold remove. induction m as [|[k' w] m IH]; simpl; [by rewrite String.eqb_refl|].
  destruct (String.eqb_spec k' k) as [->|Hne]; simpl; [by rewrite String.eqb_refl|].
  apply String.eqb_neq in Hne. destruct (str_less k k'); simpl; rewrite ?String.eqb_refl, Hne; simpl; by rewrite ?IH.
Qed.
End edits.

Definition edit_array (f : members_of → members_of) (v : value) : value :=
  match v with VArray elements => VArray (map (edit_object f) elements) | _ => v end.

Lemma get_edit_each key f m k : get k (edit_each key f m) = (if String.eqb k key then edit_array f else id) <$> get k m.
Proof.
  unfold edit_each. destruct (String.eqb_spec k key) as [->|Hne].
  - destruct (get key m) as [v|] eqn:Hg; simpl; [|done]. destruct v; simpl; try done. by rewrite get_put_eq.
  - rewrite option_fmap_id. destruct (get key m) as [[]|]; try done. by rewrite get_put_ne.
Qed.

Lemma get_edit_member key f m k :
  get k (edit_member key f m) = (if String.eqb k key then edit_object f else id) <$> get k m.
Proof.
  unfold edit_member. destruct (String.eqb_spec k key) as [->|Hne].
  - destruct (get key m) as [v|] eqn:Hg; simpl; [|done]. destruct v; simpl; try done. by rewrite get_put_eq.
  - rewrite option_fmap_id. destruct (get key m) as [[]|]; try done. by rewrite get_put_ne.
Qed.

Lemma ascending_edit_each key f m : ascending m = true → ascending (edit_each key f m) = true.
Proof. unfold edit_each. intros. destruct (get key m) as [[]|]; try done. by apply ascending_put. Qed.

Lemma ascending_edit_member key f m : ascending m = true → ascending (edit_member key f m) = true.
Proof. unfold edit_member. intros. destruct (get key m) as [[]|]; try done. by apply ascending_put. Qed.

Create HintDb ascending.
#[export] Hint Resolve ascending_put ascending_remove ascending_edit_each ascending_edit_member : ascending.

Lemma edit_object_compose f g v : edit_object f (edit_object g v) = edit_object (λ m, f (g m)) v.
Proof. by destruct v. Qed.

Lemma edit_array_compose f g v : edit_array f (edit_array g v) = edit_array (λ m, f (g m)) v.
Proof.
  destruct v; try done. simpl. f_equal. rewrite map_map. apply map_ext. intros. apply edit_object_compose.
Qed.

Lemma edit_array_ext f g v : (∀ m, f m = g m) → edit_array f v = edit_array g v.
Proof.
  intros Hfg. destruct v; try done. simpl. f_equal. apply map_ext. intros []; simpl; try done. by rewrite Hfg.
Qed.

(** * The canonical intent, key by key *)

Definition canonicalDelivery : value := VObject [("mode", VString "image")].

Definition canonicalEntry (key : string) : value → value :=
  if String.eqb key "runtime" then edit_object (remove "configRevision")
  else if String.eqb key "routes" then edit_array dropHost
  else if String.eqb key "middlewares" then edit_array dropProfileSpec
  else id.

Lemma get_canonicalSpec spec key : get key (canonicalSpec spec) =
  if String.eqb key "delivery" then Some canonicalDelivery else canonicalEntry key <$> get key spec.
Proof.
  unfold canonicalSpec, canonicalEntry. rewrite !get_edit_each, get_edit_member.
  destruct (String.eqb_spec key "delivery") as [->|Hd]; [by rewrite get_put_eq|]. rewrite get_put_ne by done.
  destruct (String.eqb_spec key "middlewares") as [->|]; [by destruct (get _ spec)|].
  destruct (String.eqb_spec key "routes") as [->|]; [by destruct (get _ spec)|].
  destruct (String.eqb_spec key "runtime") as [->|]; by destruct (get _ spec).
Qed.

Lemma ascending_canonicalSpec spec : ascending spec = true → ascending (canonicalSpec spec) = true.
Proof. intros. unfold canonicalSpec. auto with ascending. Qed.

(** Two specs that agree in their canonical entries have the same intent. *)
Lemma canonicalSpec_ext spec1 spec2 : ascending spec1 = true → ascending spec2 = true →
  (∀ key, key ≠ "delivery" → canonicalEntry key <$> get key spec1 = canonicalEntry key <$> get key spec2) →
  canonicalSpec spec1 = canonicalSpec spec2.
Proof.
  intros H1 H2 Heq. apply ascending_ext; [by apply ascending_canonicalSpec..|]. intros key.
  rewrite !get_canonicalSpec. destruct (String.eqb_spec key "delivery"); [done|]. by apply Heq.
Qed.

Lemma usesSSLIP_get route route' : get "dns" route = get "dns" route' → usesSSLIP route = usesSSLIP route'.
Proof. unfold usesSSLIP. by intros ->. Qed.

Lemma dropHost_idem route : dropHost (dropHost route) = dropHost route.
Proof.
  unfold dropHost. destruct (usesSSLIP route) eqn:E; [|by rewrite E].
  rewrite (usesSSLIP_get (remove "host" route) route), E by (by apply get_remove_ne). apply remove_remove.
Qed.

Lemma dropHost_setHost host route : dropHost (setHost host route) = dropHost route.
Proof.
  unfold dropHost, setHost. destruct (usesSSLIP route) eqn:E; [|by rewrite E].
  rewrite (usesSSLIP_get (put "host" (VString host) route) route), E by (by apply get_put_ne). apply remove_put.
Qed.

Lemma dropProfileSpec_idem definition : dropProfileSpec (dropProfileSpec definition) = dropProfileSpec definition.
Proof.
  unfold dropProfileSpec. destruct (bool_decide (is_Some (get "profileRef" definition))) eqn:E; [|by rewrite E].
  rewrite get_remove_ne, E by done. apply remove_remove.
Qed.

Lemma canonicalSpec_idem spec : ascending spec = true → canonicalSpec (canonicalSpec spec) = canonicalSpec spec.
Proof.
  intros Ha. apply canonicalSpec_ext; [by apply ascending_canonicalSpec|done|]. intros key Hk.
  rewrite get_canonicalSpec. apply String.eqb_neq in Hk as ->. destruct (get key spec) as [v|]; [|done]. simpl.
  f_equal. unfold canonicalEntry. repeat case_match; try done.
  - rewrite edit_object_compose. destruct v; try done. simpl. by rewrite remove_remove.
  - rewrite edit_array_compose. apply edit_array_ext, dropHost_idem.
  - rewrite edit_array_compose. apply edit_array_ext, dropProfileSpec_idem.
Qed.

Lemma canonicalSpec_delivery spec delivery : ascending spec = true →
  canonicalSpec (put "delivery" delivery spec) = canonicalSpec spec.
Proof.
  intros Ha. apply canonicalSpec_ext; [by apply ascending_put|done|]. intros key Hk. by rewrite get_put_ne.
Qed.

Lemma canonicalSpec_hosts spec host : ascending spec = true →
  canonicalSpec (edit_each "routes" (setHost host) spec) = canonicalSpec spec.
Proof.
  intros Ha. apply canonicalSpec_ext; [by apply ascending_edit_each|done|]. intros key Hk.
  rewrite get_edit_each. destruct (String.eqb_spec key "routes") as [->|]; [|by destruct (get key spec)].
  destruct (get "routes" spec) as [v|]; [|done]. simpl. f_equal. unfold canonicalEntry. simpl.
  rewrite edit_array_compose. apply edit_array_ext, dropHost_setHost.
Qed.

(** ** The shape of a canonical intent *)

Lemma none_of_edited key f bad spec v : get key spec = Some (edit_array f v) → (∀ m, bad (f m) = false) →
  bad [] = false → none_of key bad spec = true.
Proof.
  unfold none_of. intros -> Hf Hnil. destruct v; try done. simpl. apply forallb_forall. intros x Hx.
  apply in_map_iff in Hx as (y & <- & _). destruct y; unfold object_or_nil; simpl; by rewrite ?Hf, ?Hnil.
Qed.

Lemma none_of_missing key bad spec : get key spec = None → none_of key bad spec = true.
Proof. unfold none_of. by intros ->. Qed.

Lemma keepsHost_dropped route : keepsHost (dropHost route) = false.
Proof.
  unfold keepsHost, dropHost. destruct (usesSSLIP route) eqn:E; [|by rewrite E].
  rewrite get_remove_eq. rewrite bool_decide_false by (by intros []). apply andb_false_r.
Qed.

Lemma keepsProfileSpec_dropped definition : keepsProfileSpec (dropProfileSpec definition) = false.
Proof.
  unfold keepsProfileSpec, dropProfileSpec.
  destruct (bool_decide (is_Some (get "profileRef" definition))) eqn:E; [|by rewrite E].
  rewrite get_remove_eq. rewrite (bool_decide_false (is_Some None)) by (by intros []). apply andb_false_r.
Qed.

Lemma canonical_shape parsed template : canonicalAutoDeployIntent parsed = Some template →
  get autoDeployDependenciesKey parsed = None → validateCanonicalIntentShape template = true.
Proof.
  unfold canonicalAutoDeployIntent, validateCanonicalIntentShape. intros Hc Hdeps.
  destruct (as_object (get "spec" parsed)) as [spec|]; [|done]. injection Hc as <-.
  rewrite get_put_ne, Hdeps by done. rewrite get_put_eq. cbn [andb as_object].
  rewrite get_canonicalSpec. simpl (String.eqb _ _). cbn [as_object canonicalDelivery].
  assert (get "configRevision" (object_or_nil (get "runtime" (canonicalSpec spec))) = None) as ->.
  { rewrite get_canonicalSpec. simpl (String.eqb _ _). destruct (get "runtime" spec) as [v|]; [|done].
    destruct v; try done. apply get_remove_eq. }
  assert (none_of "routes" keepsHost (canonicalSpec spec) = true) as ->.
  { destruct (get "routes" spec) as [v|] eqn:Hr.
    - apply (none_of_edited _ dropHost _ _ v); [|apply keepsHost_dropped|done].
      rewrite get_canonicalSpec. simpl (String.eqb _ _). by rewrite Hr.
    - apply none_of_missing. rewrite get_canonicalSpec. simpl (String.eqb _ _). by rewrite Hr. }
  destruct (get "middlewares" spec) as [v|] eqn:Hr.
  - rewrite (none_of_edited _ dropProfileSpec _ _ v); [done| |apply keepsProfileSpec_dropped|done].
    rewrite get_canonicalSpec. simpl (String.eqb _ _). by rewrite Hr.
  - rewrite none_of_missing; [done|]. rewrite get_canonicalSpec. simpl (String.eqb _ _). by rewrite Hr.
Qed.
