(* ===== verification/AutoDeployConfigSafety.v ===== *)
(** Automatic deployments change the image and what is derived from it, and
    nothing an operator pinned: theorems about
    [internal/appconfig/autodeploy.go]. *)

From Stdlib Require Import Ascii.
From S2P Require Import Prelude Regexp GoStrings Digest Encoding JsonValues JsonEncoding Workload AppConfig AppConfigFacts AppConfigSafety AutoDeployConfig.

Open Scope Z_scope.

(** * Deploying an image *)

Lemma split_at_byte c s l r : str_contains (String c "") s = true → split_once c s = (l, r) → s = l +:+ String c r.
Proof.
  intros Hc Hs. apply split_once_spec in Hs as [-> _]; [done|].
  revert Hc. clear Hs. induction s as [|a s IH]; [done|]. rewrite str_contains_byte. cbn [count_byte].
  pose proof (count_byte_nonneg c s). rewrite (Ascii.eqb_sym c a). destruct (Ascii.eqb a c); simpl; [lia|]. apply IH.
Qed.

(** [withImage] is a patch that adds [/spec/delivery]. *)
Definition imagePatch (repository digest : string) : PatchOperation :=
  mkPatch "add" "/spec/delivery" (releaseOf repository digest).

Lemma withImage_patch repository digest parsed spec : as_object (get "spec" parsed) = Some spec →
  patchAt (VObject parsed) ["spec"; "delivery"] (imagePatch repository digest) =
  Ok (VObject (withImage repository digest parsed)).
Proof.
  unfold withImage, edit_member. cbn [patchAt]. intros Hs. destruct (get "spec" parsed) as [[]|]; try done.
Qed.

Lemma as_object_get o spec : as_object o = Some spec → o = Some (VObject spec).
Proof. destruct o as [[]|]; simpl; by try intros [= ->]. Qed.

Lemma withImage_spec repository digest parsed spec : as_object (get "spec" parsed) = Some spec →
  withImage repository digest parsed = put "spec" (VObject (put "delivery" (releaseOf repository digest) spec)) parsed.
Proof. unfold withImage, edit_member. by intros ->%as_object_get. Qed.

Lemma canonical_withImage repository digest parsed : valid_value (VObject parsed) = true →
  canonicalAutoDeployIntent (withImage repository digest parsed) = canonicalAutoDeployIntent parsed.
Proof.
  intros Hv. unfold canonicalAutoDeployIntent. destruct (as_object (get "spec" parsed)) as [spec|] eqn:Hs.
  - rewrite (withImage_spec _ _ _ spec) by done. rewrite get_put_eq. cbn [as_object]. rewrite put_put.
    rewrite canonicalSpec_delivery; [done|]. apply as_object_get in Hs. eapply valid_member in Hs; [|done].
    by apply andb_true_iff in Hs as [? _].
  - unfold withImage, edit_member. destruct (get "spec" parsed) as [[]|] eqn:E; try done; by rewrite E.
Qed.

Lemma materialized_withImage repository digest parsed spec : as_object (get "spec" parsed) = Some spec →
  re_match autoDeployImageRE (repository +:+ String "@" digest) = true →
  MaterializedImage (withImage repository digest parsed) = (repository +:+ String "@" digest, true).
Proof.
  intros Hs Hm. rewrite (withImage_spec _ _ _ spec) by done.
  set (written := put "spec" (VObject (put "delivery" (releaseOf repository digest) spec)) parsed).
  assert (∀ tokens, descend (VObject written) ("spec" :: "delivery" :: tokens) =
                    descend (releaseOf repository digest) tokens) as Hd.
  { intros tokens. unfold written. cbn [descend child]. rewrite get_put_eq. cbn [descend child]. by rewrite get_put_eq. }
  assert (stringAt (VObject written) "/spec/delivery/mode" = Some "image") as Hmode
    by (change (as_string (descend (VObject written) ["spec"; "delivery"; "mode"]) = Some "image"); by rewrite Hd).
  assert (stringAt (VObject written) "/spec/delivery/release/repository" = Some repository) as Hrep
    by (change (as_string (descend (VObject written) ["spec"; "delivery"; "release"; "repository"]) = Some repository);
        by rewrite Hd).
  assert (stringAt (VObject written) "/spec/delivery/release/digest" = Some digest) as Hdig
    by (change (as_string (descend (VObject written) ["spec"; "delivery"; "release"; "digest"]) = Some digest);
        by rewrite Hd).
  unfold MaterializedImage. rewrite Hmode, Hrep, Hdig. cbn [default].
  rewrite !bool_decide_true by eauto. unfold id. rewrite str_app_cons, str_app_nil. by rewrite Hm.
Qed.

Section deployments.
Context `{MapOrder} `{LibraryLaws} `{JSONDecoder}.

(** The document that was parsed and the template it has. *)
Lemma template_of current live digest : AutoDeployIntentTemplate current = Ok (live, digest) →
  ∃ parsed runtime template, ParseAndValidate current = (parsed, runtime, []) ∧
    canonicalAutoDeployIntent (default [] parsed) = Some template ∧ tooLong live = false ∧
    live = Marshal (VObject template) ∧ digest = digest_text live.
Proof.
  unfold AutoDeployIntentTemplate. destruct (ParseAndValidate current) as [[parsed runtime] [|d ds]]; [|done].
  destruct (canonicalAutoDeployIntent _) as [template|] eqn:Ht; [|done].
  destruct (tooLong _) eqn:Hl; [done|]. intros [= <- <-]. by exists parsed, runtime, template.
Qed.

Lemma liveTemplate_of current dependencies live : liveTemplate current dependencies = Ok live →
  ∃ template digest, AutoDeployIntentTemplate current = Ok (template, digest).
Proof. unfold liveTemplate. destruct (AutoDeployIntentTemplate current) as [[template digest]|]; [|done]. by exists template, digest. Qed.

Lemma canonical_spec parsed template : canonicalAutoDeployIntent parsed = Some template →
  ∃ spec, as_object (get "spec" parsed) = Some spec.
Proof. unfold canonicalAutoDeployIntent. destruct (as_object (get "spec" parsed)) as [spec|]; [by exists spec|done]. Qed.

Lemma reparse_accepted before effective : cd_Diagnostics (reparse before effective) = [] →
  cd_Raw (reparse before effective) = MarshalIndent 0 (VObject effective) +:+ newline ∧
  ∃ after runtime, ParseAndValidate (cd_Raw (reparse before effective)) = (after, runtime, []) ∧
    cd_Parsed (reparse before effective) = after.
Proof.
  unfold reparse. destruct (ParseAndValidate _) as [[after runtime] [|d ds]] eqn:Hp; [|done].
  cbn [cd_Raw cd_Parsed cd_Diagnostics]. rewrite Hp. intros _. split; [done|]. by exists after, runtime.
Qed.

Lemma reparse_raw before effective : cd_Raw (reparse before effective) = MarshalIndent 0 (VObject effective) +:+ newline.
Proof. unfold reparse. by destruct (ParseAndValidate _) as [[??] [|??]]. Qed.

(** C6. An automatic deployment changes the image and nothing else. Where it
    goes through, the live document has the intent the policy pinned, byte for
    byte; what is written is the live document with the delivery replaced by the
    verified image, it passed validation, its materialized image is that image,
    every path that parts from [/spec/delivery] reads as before, and it has the
    intent the live document had. *)
Theorem image_only_deployment current pinnedIntent pinnedDigest image dependencies :
  let c := ApplyAutoDeployImageWithDependencies current pinnedIntent pinnedDigest image dependencies in
  cd_Diagnostics c = [] →
  ∃ parsed runtime repository digest, ParseAndValidate current = (parsed, runtime, []) ∧
    liveTemplate current dependencies = Ok pinnedIntent ∧ autoDeployIntentDigest pinnedIntent = pinnedDigest ∧
    image = repository +:+ String "@" digest ∧
    let live := default [] parsed in
    let written := withImage repository digest live in
    cd_Raw c = MarshalIndent 0 (VObject written) +:+ newline ∧
    (∃ after r, ParseAndValidate (cd_Raw c) = (after, r, []) ∧ cd_Parsed c = after) ∧
    MaterializedImage written = (image, true) ∧
    (∀ others, parts_in (VObject live) ["spec"; "delivery"] others →
       descend (VObject written) others = descend (VObject live) others) ∧
    canonicalAutoDeployIntent written = canonicalAutoDeployIntent live.
Proof.
  cbv zeta. unfold ApplyAutoDeployImageWithDependencies.
  destruct (ValidateAutoDeployIntentTemplate pinnedIntent pinnedDigest); [|done].
  destruct (re_match autoDeployImageRE image) eqn:Hm; [|done]. cbn [negb orb].
  destruct (ParseAndValidate current) as [[parsed runtime] [|d ds]] eqn:Hp; [|done].
  destruct (liveTemplate current dependencies) as [live|] eqn:Hl; [|done].
  destruct (String.eqb_spec (autoDeployIntentDigest live) pinnedDigest) as [Hd|]; [|done].
  destruct (String.eqb_spec live pinnedIntent) as [->|]; [|done]. cbn [negb orb].
  destruct (split_once "@" image) as [repository digest] eqn:Hs.
  destruct (str_contains "@" image) eqn:Hat; [|done]. cbn [negb orb].
  destruct (is_empty repository || is_empty digest); [done|]. intros Hok.
  apply split_at_byte in Hs; [|done]. subst image.
  destruct (liveTemplate_of _ _ _ Hl) as (t & td & (p & r & template & Hp' & Hc & _)%template_of).
  rewrite Hp in Hp'. injection Hp' as <- <-. destruct (canonical_spec _ _ Hc) as [spec Hspec].
  apply reparse_accepted in Hok as (Hraw & Hafter).
  exists parsed, runtime, repository, digest. split_and!; try done.
  - by apply (materialized_withImage _ _ _ spec).
  - intros others Hparts. eapply patchAt_kept; [|done]. by eapply withImage_patch.
  - apply canonical_withImage. apply ParseAndValidate_valid in Hp.
    destruct parsed as [members|]; [done|]. by vm_compute.
Qed.

(** ** What is derived again *)

(** The document that [WithAutoDeployDerived] writes. *)
Definition derivedSpec (pull : option RegistryPullReference) (host : string) (delivery spec : members_of) : members_of :=
  edit_each "routes" (setHost host) (put "delivery" (VObject (withPull pull delivery)) spec).

Lemma get_withPull pull delivery key : key ≠ "registryPull" → get key (withPull pull delivery) = get key delivery.
Proof. intros Hne. destruct pull; [by apply get_put_ne|by apply get_remove_ne]. Qed.

Lemma canonical_derived pull host delivery spec : ascending spec = true →
  canonicalSpec (derivedSpec pull host delivery spec) = canonicalSpec spec.
Proof.
  intros Ha. unfold derivedSpec. rewrite canonicalSpec_hosts by auto with ascending. by apply canonicalSpec_delivery.
Qed.

Lemma descend_derived pull host delivery spec parsed tokens : as_object (get "spec" parsed) = Some spec →
  as_object (get "delivery" spec) = Some delivery → tokens ≠ [] → hd "" tokens ≠ "registryPull" →
  descend (VObject (put "spec" (VObject (derivedSpec pull host delivery spec)) parsed)) ("spec" :: "delivery" :: tokens) =
  descend (VObject parsed) ("spec" :: "delivery" :: tokens).
Proof.
  intros Hs%as_object_get Hd%as_object_get Hne Hkey. cbn [descend child]. rewrite get_put_eq, Hs. cbn [descend child].
  unfold derivedSpec. rewrite get_edit_each. simpl (String.eqb _ _). rewrite get_put_eq, Hd.
  destruct tokens as [|token tokens]; [done|]. unfold id. cbn [fmap option_fmap option_map descend child].
  by rewrite get_withPull.
Qed.

Lemma materialized_derived pull host delivery spec parsed : as_object (get "spec" parsed) = Some spec →
  as_object (get "delivery" spec) = Some delivery →
  MaterializedImage (put "spec" (VObject (derivedSpec pull host delivery spec)) parsed) = MaterializedImage parsed.
Proof.
  intros Hs Hd. set (written := put "spec" _ parsed).
  assert (∀ path tokens, parsePointer path = Ok ("spec" :: "delivery" :: tokens) → tokens ≠ [] →
    hd "" tokens ≠ "registryPull" → stringAt (VObject written) path = stringAt (VObject parsed) path) as Hread.
  { intros path tokens Hp Hne Hk. unfold stringAt, valueAt. rewrite Hp. f_equal. by apply descend_derived. }
  unfold MaterializedImage.
  rewrite (Hread "/spec/delivery/mode" ["mode"]), (Hread "/spec/delivery/release/repository" ["release"; "repository"]),
    (Hread "/spec/delivery/release/digest" ["release"; "digest"]); done.
Qed.

(** What a deployment derives again stays within the pinned intent. Where the
    derivation goes through, what is written and validated has the intent and
    the image of the document it started from; the registry profile, if any, is
    valid, and a document that asks for a host of sslip.io was given one. *)
Theorem derived_keeps_intent current candidate parsed pull host :
  cd_Parsed candidate = Some parsed → cd_Diagnostics candidate = [] → valid_value (VObject parsed) = true →
  let c := WithAutoDeployDerived current candidate pull host in
  cd_Diagnostics c = [] →
  ∃ written, cd_Raw c = MarshalIndent 0 (VObject written) +:+ newline ∧
    (∃ after r, ParseAndValidate (cd_Raw c) = (after, r, []) ∧ cd_Parsed c = after) ∧
    canonicalAutoDeployIntent written = canonicalAutoDeployIntent parsed ∧
    MaterializedImage written = MaterializedImage parsed ∧
    (∀ r, pull = Some r → validPullReference r = true) ∧
    (AutoDeployUsesSSLIP candidate = true → host ≠ "").
Proof.
  cbv zeta. intros Hparsed Hnone Hv. unfold WithAutoDeployDerived, AutoDeployUsesSSLIP. rewrite Hnone, Hparsed.
  destruct (ParseAndValidate current) as [[before r] [|d ds]]; [|done].
  destruct (as_object (get "spec" parsed)) as [spec|] eqn:Hs; [|done].
  destruct (as_object (get "delivery" spec)) as [delivery|] eqn:Hd; [|done].
  destruct (match pull with Some r => _ | None => _ end) eqn:Hpull; [done|].
  destruct (specUsesSSLIP spec && is_empty host) eqn:Hhost; [done|].
  fold (derivedSpec pull host delivery spec). intros Hok%reparse_accepted. destruct Hok as [Hraw Hafter].
  assert (ascending spec = true) as Ha.
  { apply as_object_get in Hs. eapply valid_member in Hs; [|done]. by apply andb_true_iff in Hs as [? _]. }
  eexists. split; [exact Hraw|]. split; [done|]. split; [|split; [by apply materialized_derived|split]].
  - unfold canonicalAutoDeployIntent. rewrite get_put_eq, Hs. cbn [as_object]. by rewrite canonical_derived, put_put.
  - intros reference ->. by apply negb_false_iff in Hpull.
  - apply as_object_get in Hs. rewrite Hs. unfold object_or_nil. simpl. intros Huses ->. by rewrite Huses in Hhost.
Qed.
End deployments.

(** * Stored templates *)

Lemma digest_text_valid raw : re_match autoDeployDigestRE (digest_text raw) = true.
Proof.
  apply re_match_spec, lang_seq; [by apply re_lang_lit|]. apply hex_encode_lang.
  unfold sha256_text. by rewrite length_sha256.
Qed.

Definition well_formed (members : members_of) : Prop := valid_value (VObject members) = true.

Lemma well_formed_spec members : well_formed members ↔
  ascending members = true ∧ ∀ kv, kv ∈ members → valid_utf8 kv.1 = true ∧ valid_value kv.2 = true.
Proof.
  unfold well_formed. cbn [valid_value]. rewrite andb_true_iff, forallb_elem_of. apply and_iff_compat_l.
  split; intros Hall kv Hin; [by apply andb_true_iff, Hall|by apply andb_true_iff, Hall].
Qed.

Lemma elem_of_put {A} kv k (v : A) m : kv ∈ put k v m → kv = (k, v) ∨ kv ∈ m.
Proof.
  induction m as [|[k' v'] m IH]; simpl; [set_solver|]. repeat case_match; set_solver.
Qed.

Lemma elem_of_remove {A} kv k (m : list (string * A)) : kv ∈ remove k m → kv ∈ m.
Proof. unfold remove. rewrite list_elem_of_In, filter_In, <- list_elem_of_In. by intros [? _]. Qed.

Lemma valid_put k v m : valid_utf8 k = true → valid_value v = true → well_formed m → well_formed (put k v m).
Proof.
  intros Hk Hv [Ha Hall]%well_formed_spec. apply well_formed_spec. split; [by apply ascending_put|].
  intros kv [-> |Hin]%elem_of_put; [done|by apply Hall].
Qed.

Lemma valid_remove k m : well_formed m → well_formed (remove k m).
Proof.
  intros [Ha Hall]%well_formed_spec. apply well_formed_spec. split; [by apply ascending_remove|].
  intros kv Hin%elem_of_remove. by apply Hall.
Qed.

Definition preserves (f : members_of → members_of) : Prop := ∀ m, well_formed m → well_formed (f m).

Lemma valid_edit_object f v : preserves f → valid_value v = true → valid_value (edit_object f v) = true.
Proof. intros Hf. destruct v; try done. apply Hf. Qed.

Lemma valid_edit_array f v : preserves f → valid_value v = true → valid_value (edit_array f v) = true.
Proof.
  intros Hf. destruct v as [| | | |elements|]; try done. cbn [edit_array valid_value]. rewrite !forallb_elem_of.
  intros Hall v (x & -> & Hx)%list_elem_of_fmap. by apply valid_edit_object, Hall.
Qed.

Lemma valid_edit_each key f : valid_utf8 key = true → preserves f → preserves (edit_each key f).
Proof.
  intros Hk Hf m Hm. unfold edit_each. destruct (get key m) as [[| | | |elements|]|] eqn:Hg; try done.
  apply valid_put; [done| |done]. apply (valid_edit_array f (VArray elements)); [done|]. by eapply valid_member.
Qed.

Lemma valid_edit_member key f : valid_utf8 key = true → preserves f → preserves (edit_member key f).
Proof.
  intros Hk Hf m Hm. unfold edit_member. destruct (get key m) as [[| | | | |members]|] eqn:Hg; try done.
  apply valid_put; [done| |done]. apply Hf. by eapply (valid_member m key (VObject members)).
Qed.

Lemma valid_canonicalSpec : preserves canonicalSpec.
Proof.
  intros spec Hs. unfold canonicalSpec.
  apply valid_edit_each; [done| |apply valid_edit_each; [done| |apply valid_edit_member; [done| |by apply valid_put]]].
  - intros m. unfold dropProfileSpec. case_match; [apply valid_remove|done].
  - intros m. unfold dropHost. case_match; [apply valid_remove|done].
  - intros m. apply valid_remove.
Qed.

(** ** Rounding, and the dependencies *)

Lemma ascending_map {A B} (f : A → B) (m : list (string * A)) :
  ascending (map (λ kv, (kv.1, f kv.2)) m) = ascending m.
Proof.
  induction m as [|[k v] m IH]; [done|]. cbn [map ascending fst snd]. rewrite IH. f_equal.
  clear. induction m as [|kv m IH]; [done|]. simpl. by rewrite IH.
Qed.

Definition readable (d : AutoDeployDependencyIntent) : Prop :=
  valid_utf8 (ad_Path d) = true ∧ valid_utf8 (ad_BlobID d) = true ∧ valid_utf8 (ad_ContentSHA256 d) = true.

Lemma decode_dependencyValue d : decodeDependency (dependencyValue d) = Some d.
Proof. destruct d as [path present [|b blob] [|c content]]; reflexivity. Qed.

Lemma decode_dependencyValues dependencies :
  decodeDependencies (VArray (map dependencyValue dependencies)) = Some dependencies.
Proof.
  simpl. induction dependencies as [|d ds IH]; [done|]. cbn [map mapM]. by rewrite decode_dependencyValue, IH.
Qed.

Lemma dependencyValues_valid dependencies : Forall readable dependencies →
  valid_value (VArray (map dependencyValue dependencies)) = true.
Proof.
  intros Hr. cbn [valid_value]. apply forallb_elem_of. intros v (d & -> & Hd)%list_elem_of_fmap.
  rewrite Forall_forall in Hr. apply Hr in Hd as (Hp & Hb & Hc).
  unfold dependencyValue. destruct d as [path present [|b blob] [|c content]]; cbn [ad_Path ad_BlobID ad_ContentSHA256] in *;
    cbn -[valid_utf8]; by rewrite ?Hp, ?Hb, ?Hc.
Qed.

Section rounding.
Context `{JSONDecoder}.

Lemma rounded_dependencies dependencies :
  rounded (VArray (map dependencyValue dependencies)) = VArray (map dependencyValue dependencies).
Proof.
  cbn [rounded]. f_equal. rewrite map_map. apply map_ext. intros [path present [|b blob] [|c content]]; reflexivity.
Qed.

Lemma get_rounded key m : get key (rounded_members m) = rounded <$> get key m.
Proof. apply get_map. Qed.

Lemma as_object_rounded o : as_object (rounded <$> o) = rounded_members <$> as_object o.
Proof. by destruct o as [[]|]. Qed.

Lemma object_or_nil_rounded o : object_or_nil (rounded <$> o) = rounded_members (object_or_nil o).
Proof. by destruct o as [[]|]. Qed.

Lemma equals_string_rounded o s : equals_string (rounded <$> o) s = equals_string o s.
Proof. by destruct o as [[]|]. Qed.

Lemma is_Some_rounded (o : option value) : bool_decide (is_Some (rounded <$> o)) = bool_decide (is_Some o).
Proof. apply bool_decide_ext. by rewrite fmap_is_Some. Qed.

Lemma usesSSLIP_rounded route : usesSSLIP (rounded_members route) = usesSSLIP route.
Proof. unfold usesSSLIP. by rewrite get_rounded, object_or_nil_rounded, get_rounded, equals_string_rounded. Qed.

Lemma keepsHost_rounded route : keepsHost (rounded_members route) = keepsHost route.
Proof. unfold keepsHost. by rewrite usesSSLIP_rounded, get_rounded, is_Some_rounded. Qed.

Lemma keepsProfileSpec_rounded m : keepsProfileSpec (rounded_members m) = keepsProfileSpec m.
Proof. unfold keepsProfileSpec. by rewrite !get_rounded, !is_Some_rounded. Qed.

Lemma none_of_rounded key bad m : (∀ m, bad (rounded_members m) = bad m) →
  none_of key bad (rounded_members m) = none_of key bad m.
Proof.
  intros Hbad. unfold none_of. rewrite get_rounded. destruct (get key m) as [[| | | |elements|]|]; try done.
  simpl. induction elements as [|v elements IH]; [done|]. simpl. rewrite IH. f_equal. f_equal.
  change (Some (rounded v)) with (rounded <$> Some v). by rewrite object_or_nil_rounded.
Qed.

(** What is not about the dependencies survives rounding and binding. *)
Lemma bound_shape t dependencies : validAutoDeployDependencies dependencies = true →
  validateCanonicalIntentShape t = true →
  validateCanonicalIntentShape
    (put autoDeployDependenciesKey (VArray (map dependencyValue dependencies)) (rounded_members t)) = true.
Proof.
  intros Hdeps. unfold validateCanonicalIntentShape. intros [_ Hs]%andb_true_iff.
  rewrite get_put_eq, get_put_ne, decode_dependencyValues, Hdeps, get_rounded, as_object_rounded by done.
  destruct (as_object (get "spec" t)) as [spec|]; [|done]. cbn [fmap option_fmap option_map andb].
  rewrite !get_rounded, as_object_rounded.
  destruct (as_object (get "delivery" spec)) as [delivery|]; [|done]. cbn [fmap option_fmap option_map].
  unfold rounded_members at 1. rewrite length_map.
  rewrite get_rounded, equals_string_rounded, object_or_nil_rounded, get_rounded, is_Some_rounded.
  by rewrite none_of_rounded, none_of_rounded by (apply keepsHost_rounded || apply keepsProfileSpec_rounded).
Qed.
End rounding.

Lemma rounded_valid `{JSONLaws} v : valid_value v = true → valid_value (rounded v) = true.
Proof.
  induction v as [|b|text|s|elements IH|members IH] using value_ind'; try done.
  - apply float_text_valid.
  - cbn [rounded valid_value]. rewrite !forallb_elem_of. intros Hall v (x & -> & Hx)%list_elem_of_fmap.
    rewrite Forall_forall in IH. by apply IH, Hall.
  - intros [Ha Hall]%well_formed_spec. apply well_formed_spec. split.
    + by rewrite ascending_map.
    + intros kv (x & -> & Hx)%list_elem_of_fmap. rewrite Forall_forall in IH. cbn [fst snd].
      apply Hall in Hx as Hv. split; [apply Hv|by apply IH, Hv].
Qed.

Section templates.
Context `{MapOrder} `{LibraryLaws} `{JSONLaws}.

Lemma canonical_valid parsed template : valid_value (VObject parsed) = true →
  canonicalAutoDeployIntent parsed = Some template → valid_value (VObject template) = true.
Proof.
  intros Hv. unfold canonicalAutoDeployIntent. destruct (as_object (get "spec" parsed)) as [spec|] eqn:Hs; [|done].
  intros [= <-]. apply as_object_get in Hs. eapply valid_member in Hs; [|done].
  apply valid_put; [done| |done]. by apply valid_canonicalSpec.
Qed.

(** A template of a document that does not hold the reserved key. *)
Lemma template_valid current template digest parsed runtime :
  ParseAndValidate current = (Some parsed, runtime, []) → get autoDeployDependenciesKey parsed = None →
  AutoDeployIntentTemplate current = Ok (template, digest) →
  ∃ t, valid_value (VObject t) = true ∧ template = Marshal (VObject t) ∧ tooLong template = false ∧
    get autoDeployDependenciesKey t = None ∧ validateCanonicalIntentShape t = true.
Proof.
  intros Hp Hkey (p & r & t & Hp' & Hc & Hlong & -> & _)%template_of.
  rewrite Hp in Hp'. injection Hp' as <- <-. cbn [default] in Hc. exists t. split_and!; try done.
  - eapply canonical_valid; [|done]. by apply ParseAndValidate_valid in Hp.
  - unfold canonicalAutoDeployIntent in Hc. destruct (as_object _); [|done]. injection Hc as <-. by rewrite get_put_ne.
  - by eapply canonical_shape.
Qed.

(** A canonical text validates. *)
Lemma canonical_validates t : valid_value (VObject t) = true → tooLong (Marshal (VObject t)) = false →
  validateCanonicalIntentShape t = true →
  ValidateAutoDeployIntentTemplate (Marshal (VObject t)) (autoDeployIntentDigest (Marshal (VObject t))) = true.
Proof.
  intros Hv Hlong Hshape. unfold ValidateAutoDeployIntentTemplate, autoDeployIntentDigest.
  unfold tooLong in Hlong. rewrite Hlong. apply orb_false_iff in Hlong as [-> _].
  rewrite digest_text_valid, decode_Marshal, decode_end, !String.eqb_refl, Hshape by done.
  rewrite bool_decide_false by (by intros []). done.
Qed.

(** Binding writes the dependencies into the rounded template. *)
Lemma bound_of t dependencies bound digest : valid_value (VObject t) = true →
  Forall readable dependencies → validateCanonicalIntentShape t = true →
  BindAutoDeployDependencies (Marshal (VObject t)) dependencies = Ok (bound, digest) →
  ∃ b, valid_value (VObject b) = true ∧ bound = Marshal (VObject b) ∧ tooLong bound = false ∧
    validateCanonicalIntentShape b = true ∧
    decodeDependencies <$> get autoDeployDependenciesKey b = Some (Some dependencies).
Proof.
  intros Hv Hr Hs Hb. unfold BindAutoDeployDependencies in Hb. apply guard_ok in Hb as [Hvalid Hb].
  apply andb_true_iff in Hvalid as [_ Hvalid].
  rewrite !decode_Marshal in Hb by (done || by apply dependencyValues_valid).
  rewrite rounded_dependencies in Hb. apply guard_ok in Hb as [Hlong Hb]. apply negb_true_iff in Hlong.
  remember (put autoDeployDependenciesKey (VArray (map dependencyValue dependencies)) (rounded_members t)) as b eqn:Eb.
  assert (bound = Marshal (VObject b)) as -> by congruence. clear Hb. exists b.
  split_and!; [|done|done| |]; rewrite Eb.
  - apply valid_put; [done|by apply dependencyValues_valid|by apply (rounded_valid (VObject t))].
  - apply bound_shape; done.
  - rewrite get_put_eq. cbn [fmap option_fmap option_map]. by rewrite decode_dependencyValues.
Qed.

End templates.

(** * Concrete intents *)

From Stdlib Require Import Ascii ClassicalEpsilon.
From S2P Require Import WorkloadFacts.

(** A decoder that knows some objects by their text. *)
Definition tableDecoder (table : list members_of) : JSONDecoder := {|
  json_decode text :=
    (λ members, (VObject members, "")) <$> find (λ members, String.eqb (Marshal (VObject members)) text) table;
  float_text text := text;
|}.

(** The decoder that finds the value a text encodes, if there is one. *)
Definition encodes (text : string) (v : value) : Prop := valid_value v = true ∧ Marshal v = text.

Definition exactDecoder : JSONDecoder := {|
  json_decode text :=
    match excluded_middle_informative (∃ v, encodes text v) with
    | left found => Some (proj1_sig (constructive_indefinite_description _ found), "")
    | right _ => None
    end;
  float_text text := text;
|}.

Lemma exact_laws : @JSONLaws exactDecoder.
Proof.
  constructor; simpl.
  - intros text v rest. destruct (excluded_middle_informative _) as [found|]; [|done]. intros [= <- _].
    apply (proj2_sig (constructive_indefinite_description (encodes text) found)).
  - intros v Hv. destruct (excluded_middle_informative _) as [found|Hno]; [|by destruct Hno; exists v].
    destruct (proj2_sig (constructive_indefinite_description (encodes (Marshal v)) found)) as [Hw Heq].
    f_equal. f_equal. apply (Marshal_prefix _ v "" "" Hw Hv); [done..|]. by rewrite !str_app_nil_r.
  - destruct (excluded_middle_informative _) as [found|]; [|done]. exfalso. destruct found as (v & Hv & Heq).
    apply Marshal_head in Hv as (c & s & Hm & _). congruence.
  - done.
Qed.

(** * A shop whose image is deployed *)

Definition route : value :=
  VObject [("dns", VObject [("mode", VString "sslip")]); ("host", VString "old.example.com"); ("path", VString "/")].

Definition shop : members_of :=
  [("apiVersion", VString "config.kuberploy.io/v1alpha1");
   ("kind", VString "AppConfig");
   ("spec", VObject
     [("applicationId", VString shopID);
      ("delivery", releaseOf "registry.example.com/shop" ("sha256:" +:+ str_join "" (repeat "0" 64)));
      ("middlewares", VArray [VObject [("profileRef", VString "auth"); ("spec", VObject [])]]);
      ("routes", VArray [route]);
      ("runtime", VObject [("configRevision", VString "reviewed"); ("replicas", number 2)])])].

Definition shopIntent : members_of := default [] (canonicalAutoDeployIntent shop).
Definition shopIntentText : string := Marshal (VObject shopIntent).

Definition newDigest : string := "sha256:" +:+ str_join "" (repeat "a" 64).
Definition newRepository : string := "registry.example.com/shop".
Definition newImage : string := newRepository +:+ "@" +:+ newDigest.

Definition deployed : members_of := withImage newRepository newDigest shop.
Definition deployedText : string := MarshalIndent 0 (VObject deployed) +:+ newline.

Definition derivedShop : members_of :=
  put "spec" (VObject (edit_each "routes" (setHost "shop.10-0-0-1.sslip.io")
    (object_or_nil (get "spec" deployed)))) deployed.
Definition derivedText : string := MarshalIndent 0 (VObject derivedShop) +:+ newline.

#[local] Instance deployLibraries : Libraries :=
  tableLibraries [(currentLine, shop); (deployedText, deployed); (derivedText, derivedShop)] shopRuntime.
#[local] Instance deploy_laws : LibraryLaws := table_laws _ _.
#[local] Instance deployDecoder : JSONDecoder := tableDecoder [shopIntent].

(** Only what is derived is gone from the intent. *)
Example intent_of_shop : get "spec" shopIntent = Some (VObject
  [("applicationId", VString shopID);
   ("delivery", VObject [("mode", VString "image")]);
   ("middlewares", VArray [VObject [("profileRef", VString "auth")]]);
   ("routes", VArray [VObject [("dns", VObject [("mode", VString "sslip")]); ("path", VString "/")]]);
   ("runtime", VObject [("replicas", number 2)])]).
Proof. reflexivity. Qed.

Definition deployment : Candidate :=
  ApplyAutoDeployImage "current" shopIntentText (autoDeployIntentDigest shopIntentText) newImage.

(** Another intent is a conflict. *)
Example deployments :
  let conflict := ApplyAutoDeployImage "hidden" shopIntentText (autoDeployIntentDigest shopIntentText) newImage in
  (cd_Diagnostics deployment, cd_Parsed deployment, map dg_Code (cd_Diagnostics conflict)) =
  ([], Some deployed, ["CurrentConfigInvalid"]).
Proof. vm_compute. reflexivity. Qed.

Lemma image_only_deployment_witness :
  ∃ parsed runtime repository digest, ParseAndValidate "current" = (parsed, runtime, []) ∧
    liveTemplate "current" None = Ok shopIntentText ∧
    autoDeployIntentDigest shopIntentText = autoDeployIntentDigest shopIntentText ∧
    newImage = repository +:+ String "@" digest ∧
    let live := default [] parsed in
    let written := withImage repository digest live in
    cd_Raw deployment = MarshalIndent 0 (VObject written) +:+ newline ∧
    (∃ after r, ParseAndValidate (cd_Raw deployment) = (after, r, []) ∧ cd_Parsed deployment = after) ∧
    MaterializedImage written = (newImage, true) ∧
    (∀ others, parts_in (VObject live) ["spec"; "delivery"] others →
       descend (VObject written) others = descend (VObject live) others) ∧
    canonicalAutoDeployIntent written = canonicalAutoDeployIntent live.
Proof.
  unfold deployment, ApplyAutoDeployImage.
  apply (image_only_deployment "current" shopIntentText
    (autoDeployIntentDigest shopIntentText) newImage None).
  vm_compute. reflexivity.
Defined.

Lemma derived_keeps_intent_witness :
  let c := WithAutoDeployDerived "current" deployment None "shop.10-0-0-1.sslip.io" in
  cd_Diagnostics c = [] ∧
  ∃ written, cd_Raw c = MarshalIndent 0 (VObject written) +:+ newline ∧
    (∃ after r, ParseAndValidate (cd_Raw c) = (after, r, []) ∧ cd_Parsed c = after) ∧
    canonicalAutoDeployIntent written = canonicalAutoDeployIntent deployed ∧
    MaterializedImage written = MaterializedImage deployed ∧
    (∀ r : RegistryPullReference, None = Some r → validPullReference r = true) ∧
    (AutoDeployUsesSSLIP deployment = true → "shop.10-0-0-1.sslip.io" ≠ "").
Proof.
  split; [vm_compute; reflexivity|].
  apply (derived_keeps_intent "current" deployment deployed None "shop.10-0-0-1.sslip.io");
    vm_compute; reflexivity.
Defined.

Definition parents : list AutoDeployDependencyIntent :=
  [mkDependency "projects/shop/variables.yaml" true "blob" ("sha256:" +:+ str_join "" (repeat "b" 64));
   mkDependency "environments/shop/variables.yaml" false "" ""].


Example parents_valid : (validAutoDeployDependencies parents, decodeDependencies (VArray (map dependencyValue parents))) =
  (true, Some parents).
Proof. reflexivity. Qed.
