(* ===== verification/AutoDeploy.v ===== *)
(** Automatic deployments ([internal/autodeploy/model.go]): policies, their
    revisions, runs and submissions, and what makes each of them valid; with the
    identity of the variables a policy depends on
    ([internal/variablecompiler/compiler.go]).

    [Validate] methods are booleans: they answer nil or [ErrInvalid]. *)

From Stdlib Require Import Ascii.
From S2P Require Import Prelude Regexp GoStrings Digest Encoding JsonValues Workload AppConfig AutoDeployConfig.

Open Scope Z_scope.

(** * Patterns *)

Definition is_uuid (s : string) : bool := re_match uuid_re s.
Definition is_digest (s : string) : bool := re_match digest_re s.

(** A quote, one of two prefixes, a digest, a quote. *)
Definition configETagRE : regex :=
  RSeq (RClass (Ascii.eqb dquote))
    (RSeq (RAlt (RLit "sha256:") (RLit "cfg-sha256-"))
      (RSeq (RTimes 64 (RClass is_lower_hex)) (RClass (Ascii.eqb dquote)))).

(** * Data *)

Record Policy := mkPolicy {
  py_ID : string;
  py_BuildDefinitionID : string;
  py_ProjectID : string;
  py_ApplicationID : string;
  py_EnvironmentID : string;
  py_CurrentRevision : Z;
  py_CreatedBy : string;
  py_CreatedAt : Time;
}.

#[export] Instance Policy_eq_dec : EqDecision Policy.
Proof. solve_decision. Defined.

Definition py_set_CurrentRevision (v : Z) (p : Policy) : Policy :=
  mkPolicy (py_ID p) (py_BuildDefinitionID p) (py_ProjectID p) (py_ApplicationID p) (py_EnvironmentID p) v
    (py_CreatedBy p) (py_CreatedAt p).

Record Template := mkTemplate {
  tl_SourceDeploymentID : string;
  tl_SourceDeploymentGeneration : Z;
  tl_SourceConfigETag : string;
  tl_ConfigIntent : string;
}.

Record Revision := mkRevision {
  rv_PolicyID : string;
  rv_Revision : Z;
  rv_Enabled : bool;
  rv_Template : Template;
  rv_TemplateDigest : string;
  rv_ServiceActorID : string;
  rv_CreatedBy : string;
  rv_CreatedAt : Time;
}.

Inductive RunState : Set := RunPending | RunProcessing | RunSubmitted | RunFailed.

Record Run := mkRun {
  rn_AttemptID : string;
  rn_PolicyID : string;
  rn_PolicyRevision : Z;
  rn_DefinitionID : string;
  rn_DefinitionDigest : string;
  rn_ReleaseID : string;
  rn_TemplateDigest : string;
  rn_SourceDeploymentID : string;
  rn_SourceDeploymentGeneration : Z;
  rn_SourceConfigETag : string;
  rn_IdempotencyKey : string;
  rn_State : RunState;
  rn_OperationID : string;
  rn_DeploymentID : string;
  rn_FailureCode : string;
  rn_Attempts : Z;
  rn_AvailableAt : Time;
  rn_CreatedAt : Time;
  rn_UpdatedAt : Time;
  rn_CompletedAt : option Time;
}.

Record Lease := mkLease {
  lz_AttemptID : string;
  lz_PolicyID : string;
  lz_Owner : string;
  lz_Epoch : Z;
  lz_Until : Time;
}.

Record AutoDeployWork := mkWork {
  wk_Policy : Policy;
  wk_Revision : Revision;
  wk_Run : Run;
  wk_Lease : Lease;
}.

Record VerifiedRelease := mkVerified {
  ve_AttemptID : string;
  ve_DefinitionID : string;
  ve_DefinitionDigest : string;
  ve_ProjectID : string;
  ve_ApplicationID : string;
  ve_ReleaseID : string;
  ve_Image : string;
  ve_CommitSHA : string;
  ve_CompletedAt : Time;
}.

Record Submission := mkSubmission {
  sb_ActorID : string;
  sb_IdempotencyKey : string;
  sb_RequestID : string;
  sb_AttemptID : string;
  sb_PolicyID : string;
  sb_PolicyRevision : Z;
  sb_ProjectID : string;
  sb_ApplicationID : string;
  sb_EnvironmentID : string;
  sb_Image : string;
  sb_ConfigIntent : string;
  sb_TemplateDigest : string;
  sb_SourceDeploymentID : string;
  sb_SourceDeploymentGeneration : Z;
  sb_SourceConfigETag : string;
}.

Record SubmissionReceipt := mkReceipt {
  rc_OperationID : string;
  rc_DeploymentID : string;
  rc_Replay : bool;
}.

(** * Validity *)

Definition validPolicy (p : Policy) : bool :=
  negb (negb (is_uuid (py_ID p)) || negb (is_uuid (py_ProjectID p)) ||
        negb (is_uuid (py_ApplicationID p)) || negb (is_uuid (py_EnvironmentID p)) || (py_CurrentRevision p <? 1) ||
        negb (is_uuid (py_CreatedBy p)) || is_zero_time (py_CreatedAt p)).

Definition TemplateDigest (t : Template) : string :=
  if is_empty (tl_ConfigIntent t) then "" else digest_text (tl_ConfigIntent t).

Definition IdempotencyKey (policyID : string) (revision : Z) (attemptID : string) : string :=
  "auto-deploy/" +:+ policyID +:+ "/" +:+ format_int revision +:+ "/" +:+ attemptID.

Section validity.
Context `{JSONDecoder}.

Definition validTemplate (t : Template) (digest : string) : bool :=
  negb (negb (is_uuid (tl_SourceDeploymentID t)) || (tl_SourceDeploymentGeneration t <? 1) ||
        negb (re_match configETagRE (tl_SourceConfigETag t)) ||
        negb (ValidateAutoDeployIntentTemplate (tl_ConfigIntent t) digest)).

Definition validRevisionFor (r : Revision) (policy : Policy) : bool :=
  negb (negb (validPolicy policy) || negb (String.eqb (rv_PolicyID r) (py_ID policy)) || (rv_Revision r <? 1) ||
        (py_CurrentRevision policy <? rv_Revision r) ||
        negb (validTemplate (rv_Template r) (rv_TemplateDigest r)) || negb (is_digest (rv_TemplateDigest r)) ||
        negb (is_uuid (rv_ServiceActorID r)) || negb (is_uuid (rv_CreatedBy r)) ||
        is_zero_time (rv_CreatedAt r) || (rv_CreatedAt r <? py_CreatedAt policy)).

Definition validSubmission (s : Submission) : bool :=
  negb (negb (is_uuid (sb_ActorID s)) ||
        negb (String.eqb (sb_IdempotencyKey s) (IdempotencyKey (sb_PolicyID s) (sb_PolicyRevision s) (sb_AttemptID s))) ||
        negb (is_uuid (sb_AttemptID s)) || negb (is_uuid (sb_PolicyID s)) || (sb_PolicyRevision s <? 1) ||
        is_empty (sb_RequestID s) || (256 <? str_len (sb_RequestID s)) ||
        negb (is_uuid (sb_ProjectID s)) || negb (is_uuid (sb_EnvironmentID s)) || negb (is_uuid (sb_ApplicationID s)) ||
        negb (re_match autoDeployImageRE (sb_Image s)) ||
        negb (ValidateAutoDeployIntentTemplate (sb_ConfigIntent s) (sb_TemplateDigest s)) ||
        negb (is_uuid (sb_SourceDeploymentID s)) || (sb_SourceDeploymentGeneration s <? 1) ||
        negb (re_match configETagRE (sb_SourceConfigETag s))).
End validity.

(** The switch over the state of a run. *)
Definition validRunState (r : Run) : bool :=
  let completed := bool_decide (is_Some (rn_CompletedAt r)) in
  match rn_State r with
  | RunPending | RunProcessing =>
      negb (completed || negb (is_empty (rn_OperationID r)) || negb (is_empty (rn_DeploymentID r)))
  | RunSubmitted =>
      negb (negb completed || negb (is_uuid (rn_OperationID r)) || negb (is_uuid (rn_DeploymentID r)) ||
            negb (is_empty (rn_FailureCode r)))
  | RunFailed =>
      negb (negb completed || is_empty (rn_FailureCode r) || (63 <? str_len (rn_FailureCode r)) ||
            negb (is_empty (rn_OperationID r)) || negb (is_empty (rn_DeploymentID r)))
  end.

Definition validRun (r : Run) : bool :=
  negb (negb (is_uuid (rn_AttemptID r)) || negb (is_uuid (rn_PolicyID r)) || (rn_PolicyRevision r <? 1) ||
        negb (is_uuid (rn_DefinitionID r)) || negb (is_digest (rn_DefinitionDigest r)) ||
        negb (is_uuid (rn_ReleaseID r)) || negb (is_digest (rn_TemplateDigest r)) ||
        negb (String.eqb (rn_IdempotencyKey r) (IdempotencyKey (rn_PolicyID r) (rn_PolicyRevision r) (rn_AttemptID r))) ||
        negb (is_uuid (rn_SourceDeploymentID r)) || (rn_SourceDeploymentGeneration r <? 1) ||
        negb (re_match configETagRE (rn_SourceConfigETag r)) || (rn_Attempts r <? 0) || (20 <? rn_Attempts r) ||
        is_zero_time (rn_AvailableAt r) || is_zero_time (rn_CreatedAt r) || is_zero_time (rn_UpdatedAt r) ||
        (rn_UpdatedAt r <? rn_CreatedAt r)) && validRunState r.

Definition validRelease (r : VerifiedRelease) : bool :=
  negb (negb (is_uuid (ve_AttemptID r)) || negb (is_uuid (ve_DefinitionID r)) || negb (is_digest (ve_DefinitionDigest r)) ||
        negb (is_uuid (ve_ProjectID r)) || negb (is_uuid (ve_ApplicationID r)) || negb (is_uuid (ve_ReleaseID r)) ||
        negb (re_match autoDeployImageRE (ve_Image r)) || negb (re_match commit_re (ve_CommitSHA r)) ||
        is_zero_time (ve_CompletedAt r)).

(** * The variables an application depends on

    Of a projected document, the fields that are read here. *)

Record Document := mkDocument {
  dc_Path : string;
  dc_ApplicationID : string;
  dc_BlobID : string;
  dc_ContentSHA256 : string;
  dc_Raw : string;
  dc_Valid : bool;
}.

Record DependencyState := mkState {
  ds_Path : string;
  ds_Present : bool;
  ds_BlobID : string;
}.

Record Bundle := mkBundle {
  bu_ETag : string;
  bu_Documents : list Document;
  bu_Dependencies : list DependencyState;
}.

(** The documents by path, the last one of a path. *)
Definition byPath (documents : list Document) : gmap string Document :=
  foldl (λ m d, if is_empty (dc_ApplicationID d) then <[dc_Path d := d]> m else m) ∅ documents.

Definition canonicalDependency (documents : gmap string Document) (state : DependencyState)
    : option AutoDeployDependencyIntent :=
  let document := documents !! ds_Path state in
  let found := bool_decide (is_Some document) in
  if negb (eqb (ds_Present state) found) ||
     ds_Present state && match document with
                         | Some d => negb (String.eqb (ds_BlobID state) (dc_BlobID d)) || negb (dc_Valid d)
                         | None => true
                         end ||
     negb (ds_Present state) && negb (is_empty (ds_BlobID state))
  then None
  else match document with
  | Some d => Some (mkDependency (ds_Path state) (ds_Present state) (dc_BlobID d) (dc_ContentSHA256 d))
  | None => Some (mkDependency (ds_Path state) (ds_Present state) "" "")
  end.

(** [None] is [ErrInvalid]; the digest that is returned too is not used. *)
Definition CanonicalDependencyIntent (states : list DependencyState) (documents : list Document)
    : option (list AutoDeployDependencyIntent) :=
  if negb (length states =? 2)%nat then None
  else mapM (canonicalDependency (byPath documents)) states.

(** The one document of an application. *)
Definition autoDeployApplicationDocument (bundle : Bundle) (applicationID : string) : option Document :=
  match List.filter (λ d, String.eqb (dc_ApplicationID d) applicationID) (bu_Documents bundle) with
  | [document] => Some document
  | _ => None
  end.

(** * The policy tables of the store *)

From S2P Require Import Access ControlModel ControlAccess.

Inductive PolicyErr : Set :=
| ErrInvalid
| ErrPolicyConflict
| BaseErr (e : StoreErr)
| OtherErr (message : string).

(** * The store *)

Record autoDeployCommandRecord := mkCommand {
  cm_action : string;
  cm_digest : string;
  cm_policyID : string;
  cm_revision : Z;
}.

Record PolicyStore := mkPolicyStore {
  st_base : Store;
  st_policies : gmap string Policy;
  st_revisions : gmap string (gmap Z Revision);
  st_commands : gmap string autoDeployCommandRecord;
  st_runs : gmap string (list Run);
}.

Definition autoDeployCommandKey (actorID key : string) : string := actorID +:+ String "000" key.

(** [s.autoDeployRevisions[policyID]]; a map that is missing is empty. *)
Definition revisionsOf (s : PolicyStore) (policyID : string) : gmap Z Revision := default ∅ (st_revisions s !! policyID).

(** The policy, its revision, and whether the command was one of the past. *)
Definition answer : Type := Policy * Revision * bool.

Definition base {A} (m : res StoreErr A) : res PolicyErr A :=
  match m with Ok a => Ok a | Err e => Err (BaseErr e) end.

Section policies.
Context `{MapOrder} `{JSONDecoder}.

(** [None]: there is no such command. *)
Definition autoDeployPolicyReplayLocked (s : PolicyStore) (actorID key action digest : string)
    : res PolicyErr (option answer) :=
  match st_commands s !! autoDeployCommandKey actorID key with
  | None => Ok None
  | Some command =>
      guard! negb (negb (String.eqb (cm_action command) action) || negb (String.eqb (cm_digest command) digest))
        else BaseErr ErrIdempotencyConflict in
      match st_policies s !! cm_policyID command with
      | None => Err (BaseErr ErrConflict)
      | Some policy =>
          let* _ := base (authorizeLocked (st_base s) actorID PermissionBuildsRead
                            (target "application" (py_ApplicationID policy))) in
          match revisionsOf s (py_ID policy) !! cm_revision command with
          | None => Err (BaseErr ErrConflict)
          | Some revision => Ok (Some (policy, revision, true))
          end
      end
  end.

Definition PolicyCommandReplay := autoDeployPolicyReplayLocked.

Definition authorizeAutoDeployPolicyMutationLocked (s : Store)
    (actorID projectID environmentID applicationID serviceActorID : string) (requireActiveServiceActor : bool)
    : res StoreErr unit :=
  let* _ := authorizeLocked s actorID PermissionBuildsManage (target "application" applicationID) in
  match s_environments s !! environmentID, s_applications s !! applicationID, s_projects s !! projectID with
  | Some environment, Some application, Some project =>
      guard! String.eqb (e_ProjectID environment) projectID && String.eqb (ap_ProjectID application) projectID
        else ErrNotFound in
      let t := mkTarget "deployment" (environmentID +:+ ":" +:+ applicationID) (p_TeamID project) projectID
                 environmentID (e_Namespace environment) applicationID in
      let bindings := bindingsLocked s actorID in
      guard! HasPermission bindings t PermissionResourcesWrite else ErrForbidden in
      match s_serviceAccounts s !! serviceActorID with
      | None => Err ErrNotFound
      | Some account =>
          guard! negb (negb (String.eqb (sa_ProjectID account) projectID) ||
                       requireActiveServiceActor && present (sa_DisabledAt account)) else ErrNotFound in
          guard! CanManageGrant bindings (mkTarget "project" projectID (p_TeamID project) projectID "" "" "")
                   (sa_Role account) else ErrForbidden in
          Ok tt
      end
  | _, _, _ => Err ErrNotFound
  end.

Definition sameDestination (p q : Policy) : bool :=
  String.eqb (py_ApplicationID p) (py_ApplicationID q) && String.eqb (py_EnvironmentID p) (py_EnvironmentID q).

Definition CreatePolicy (s : PolicyStore) (policy : Policy) (revision : Revision) (key digest requestID : string)
    : res PolicyErr (PolicyStore * answer) :=
  let* replay := autoDeployPolicyReplayLocked s (py_CreatedBy policy) key "create" digest in
  match replay with
  | Some answer => Ok (s, answer)
  | None =>
      guard! negb (negb (validPolicy policy) || negb (validRevisionFor revision policy) ||
                   negb (py_CurrentRevision policy =? 1) || negb (rv_Revision revision =? 1) ||
                   is_empty key || is_empty digest || is_empty requestID) else ErrInvalid in
      let* _ := base (authorizeAutoDeployPolicyMutationLocked (st_base s) (py_CreatedBy policy) (py_ProjectID policy)
                        (py_EnvironmentID policy) (py_ApplicationID policy) (rv_ServiceActorID revision) true) in
      guard! negb (present (st_policies s !! py_ID policy)) else BaseErr ErrConflict in
      guard! negb (existsb (λ kv, sameDestination kv.2 policy) (range 0 (st_policies s))) else BaseErr ErrConflict in
      let command := autoDeployCommandKey (py_CreatedBy policy) key in
      Ok (mkPolicyStore (count_audit (st_base s))
            (<[py_ID policy := policy]> (st_policies s))
            (<[py_ID policy := {[rv_Revision revision := revision]}]> (st_revisions s))
            (<[command := mkCommand "create" digest (py_ID policy) (rv_Revision revision)]> (st_commands s))
            (st_runs s),
          (policy, revision, false))
  end.

(** Two policies are compared as structs, their times to the instant. *)
Definition RevisePolicy (s : PolicyStore) (prior : Policy) (revision : Revision) (key digest requestID : string)
    : res PolicyErr (PolicyStore * answer) :=
  let* replay := autoDeployPolicyReplayLocked s (rv_CreatedBy revision) key "revise" digest in
  match replay with
  | Some answer => Ok (s, answer)
  | None =>
      match st_policies s !! py_ID prior with
      | None => Err (BaseErr ErrNotFound)
      | Some current =>
          let next := py_set_CurrentRevision (rv_Revision revision) prior in
          guard! negb (negb (bool_decide (current = prior)) ||
                       negb (rv_Revision revision =? i64 (py_CurrentRevision prior + 1)) ||
                       negb (validRevisionFor revision next) || is_empty key || is_empty digest || is_empty requestID)
            else BaseErr ErrConflict in
          let* _ := base (authorizeAutoDeployPolicyMutationLocked (st_base s) (rv_CreatedBy revision)
                            (py_ProjectID prior) (py_EnvironmentID prior) (py_ApplicationID prior)
                            (rv_ServiceActorID revision) (rv_Enabled revision)) in
          Ok (mkPolicyStore (count_audit (st_base s))
                (<[py_ID prior := next]> (st_policies s))
                (<[py_ID prior := <[rv_Revision revision := revision]> (revisionsOf s (py_ID prior))]> (st_revisions s))
                (<[autoDeployCommandKey (rv_CreatedBy revision) key :=
                     mkCommand "revise" digest (py_ID prior) (rv_Revision revision)]> (st_commands s))
                (st_runs s),
              (next, revision, false))
      end
  end.

(** ** Reads *)

(** A policy beside its current revision, if it is there. *)
Definition PolicyStatus : Type := Policy * option Revision.

Definition statusOf (s : PolicyStore) (policy : Policy) : PolicyStatus :=
  (policy, revisionsOf s (py_ID policy) !! py_CurrentRevision policy).

Definition PolicyForActor (s : PolicyStore) (actorID policyID : string) : res PolicyErr PolicyStatus :=
  match st_policies s !! policyID with
  | None => Err (BaseErr ErrNotFound)
  | Some policy =>
      let* _ := base (authorizeLocked (st_base s) actorID PermissionBuildsRead
                        (target "application" (py_ApplicationID policy))) in
      Ok (policy, revisionsOf s policyID !! py_CurrentRevision policy)
  end.

Definition policyBefore (a b : PolicyStatus) : bool :=
  (py_CreatedAt a.1 <? py_CreatedAt b.1) ||
  (py_CreatedAt a.1 =? py_CreatedAt b.1) && str_less (py_ID a.1) (py_ID b.1).

Definition PoliciesForApplication (s : PolicyStore) (actorID applicationID : string)
    : res PolicyErr (list PolicyStatus) :=
  let* _ := base (authorizeLocked (st_base s) actorID PermissionBuildsRead (target "application" applicationID)) in
  Ok (sort_slice policyBefore
        (map (λ kv, statusOf s kv.2)
          (List.filter (λ kv, String.eqb (py_ApplicationID kv.2) applicationID) (range 1 (st_policies s))))).

Definition outOfRange (limit : Z) : bool := (limit <? 1) || (100 <? limit).

(** Two critical sections, between which the store can change. *)
Definition PolicyRevisionsForActor (s later : PolicyStore) (actorID policyID : string) (limit : Z)
    : res PolicyErr (list Revision) :=
  guard! negb (outOfRange limit) else ErrInvalid in
  let* _ := PolicyForActor s actorID policyID in
  Ok (take (Z.to_nat limit)
        (sort_slice (λ a b, rv_Revision b <? rv_Revision a) (map snd (map_to_list (revisionsOf later policyID))))).

Definition PolicyRunsForActor (s later : PolicyStore) (actorID policyID : string) (limit : Z)
    : res PolicyErr (list Run) :=
  guard! negb (outOfRange limit) else ErrInvalid in
  let* _ := PolicyForActor s actorID policyID in
  Ok (take (Z.to_nat limit)
        (sort_slice (λ a b, rn_CreatedAt b <? rn_CreatedAt a) (default [] (st_runs later !! policyID)))).

End policies.
