(* ===== verification/AutoDeployService.v ===== *)
(** The service that makes and revises policies
    ([internal/autodeploy/policy.go]).

    What it reads of the catalogue and the projection is an interface.  It calls
    the store twice, first for a replay and then for the command; the store may
    change in between, and is [s] and then [later] here.  The service is one whose
    dependencies are set. *)

From Stdlib Require Import Ascii.
From S2P Require Import Prelude Regexp GoStrings Digest Encoding JsonValues Workload AppConfig AutoDeployConfig AutoDeploy.
From S2P Require Import Access ControlModel ControlAccess AutoDeploy.

Open Scope Z_scope.

Record BuildSourceIdentity := mkSource {
  so_ID : string;
  so_ProjectID : string;
  so_ApplicationID : string;
}.

(** Of a [domain.Deployment], what the service reads. *)
Record SourceDeployment := mkSourceDeployment {
  sd_ID : string;
  sd_ApplicationID : string;
  sd_EnvironmentID : string;
  sd_Generation : Z;
  sd_ConfigRaw : string;
}.

Class PolicyCatalog := {
  BuildDefinitionIdentity : string → res PolicyErr BuildSourceIdentity;
  GetApplication : string → res PolicyErr Application;
  GetEnvironment : string → res PolicyErr Environment;
  GetDeployment : string → res PolicyErr SourceDeployment;
  GetServiceAccount : string → res PolicyErr ServiceAccount;
  (** [Projection.Bundle(ctx, actor, deployment, "", 0)] *)
  ProjectedBundle : string → SourceDeployment → res PolicyErr Bundle;
}.

(** The identifier that is drawn, if one is, and the clock. *)
Record ServiceCall := mkServiceCall {
  sc_NewID : option string;
  sc_Now : Time;
}.

Record CreatePolicyInput := mkCreatePolicy {
  ci_ExpectedApplicationID : string;
  ci_BuildDefinitionID : string;
  ci_EnvironmentID : string;
  ci_TemplateDeploymentID : string;
  ci_ServiceActorID : string;
  ci_Enabled : bool;
  ci_IdempotencyKey : string;
  ci_RequestDigest : string;
  ci_RequestID : string;
}.

Record RevisePolicyInput := mkRevisePolicy {
  ri_Policy : Policy;
  ri_CurrentRevision : Revision;
  ri_TemplateDeploymentID : string;
  ri_ServiceActorID : string;
  ri_Enabled : bool;
  ri_IdempotencyKey : string;
  ri_RequestDigest : string;
  ri_RequestID : string;
}.

Section service.
Context `{MapOrder} `{Libraries} `{JSONDecoder} `{PolicyCatalog}.

Definition CommandReplay (s : PolicyStore) (actor key action requestDigest expectedApplicationID expectedPolicyID : string)
    : res PolicyErr (option answer) :=
  let create := String.eqb action "create" in
  let revise := String.eqb action "revise" in
  guard! negb (negb (is_uuid actor) || is_empty key || negb (is_digest requestDigest) ||
               negb create && negb revise || create && negb (is_uuid expectedApplicationID) ||
               revise && negb (is_empty expectedApplicationID) && negb (is_uuid expectedApplicationID) ||
               create && negb (is_empty expectedPolicyID) || revise && negb (is_uuid expectedPolicyID))
    else ErrInvalid in
  let* replay := PolicyCommandReplay s actor key action requestDigest in
  match replay with
  | None => Ok None
  | Some (policy, revision, found) =>
      guard! negb (negb (is_empty expectedApplicationID) &&
                   negb (String.eqb (py_ApplicationID policy) expectedApplicationID) ||
                   revise && negb (String.eqb (py_ID policy) expectedPolicyID)) else ErrPolicyConflict in
      Ok (Some (policy, revision, true))
  end.

(** What the catalogue must say of the parts of a policy. *)
Definition belongTogether (definition : BuildSourceIdentity) (application : Application) (environment : Environment)
    (deployment : SourceDeployment) (account : ServiceAccount) (environmentID deploymentID serviceActorID : string) : bool :=
  negb (negb (String.eqb (ap_ID application) (so_ApplicationID definition)) ||
        negb (String.eqb (ap_ProjectID application) (so_ProjectID definition)) ||
        negb (String.eqb (e_ID environment) environmentID) ||
        negb (String.eqb (e_ProjectID environment) (so_ProjectID definition)) ||
        negb (String.eqb (sd_ID deployment) deploymentID) ||
        negb (String.eqb (sd_ApplicationID deployment) (ap_ID application)) ||
        negb (String.eqb (sd_EnvironmentID deployment) (e_ID environment)) ||
        negb (String.eqb (sa_ID account) serviceActorID) ||
        negb (String.eqb (sa_ProjectID account) (so_ProjectID definition)) || present (sa_DisabledAt account)).

(** The template of a deployment whose projected document is the accepted one. *)
Definition templateOf (deployment : SourceDeployment) (bundle : Bundle) : res PolicyErr Template :=
  guard! negb (is_empty (bu_ETag bundle)) else ErrPolicyConflict in
  match autoDeployApplicationDocument bundle (sd_ApplicationID deployment) with
  | None => Err ErrPolicyConflict
  | Some document =>
      guard! negb (negb (dc_Valid document) || is_empty (sd_ConfigRaw deployment) ||
                   negb (String.eqb (dc_Raw document) (sd_ConfigRaw deployment))) else ErrPolicyConflict in
      match CanonicalDependencyIntent (bu_Dependencies bundle) (bu_Documents bundle) with
      | None => Err ErrPolicyConflict
      | Some dependencies =>
          match AutoDeployIntentTemplate (dc_Raw document) with
          | Err _ => Err ErrPolicyConflict
          | Ok (intent, _) =>
              match BindAutoDeployDependencies intent dependencies with
              | Err _ => Err ErrPolicyConflict
              | Ok (intent, digest) =>
                  let template := mkTemplate (sd_ID deployment) (sd_Generation deployment) (bu_ETag bundle) intent in
                  guard! validTemplate template digest else ErrPolicyConflict in
                  Ok template
              end
          end
      end
  end.

Definition resolveTemplate (definition : BuildSourceIdentity) (environmentID deploymentID serviceActorID : string)
    : res PolicyErr (Environment * Application * Template) :=
  guard! negb (negb (is_uuid (so_ID definition)) || negb (is_uuid (so_ProjectID definition)) ||
               negb (is_uuid (so_ApplicationID definition))) else ErrPolicyConflict in
  let* application := GetApplication (so_ApplicationID definition) in
  let* environment := GetEnvironment environmentID in
  let* deployment := GetDeployment deploymentID in
  let* account := GetServiceAccount serviceActorID in
  guard! belongTogether definition application environment deployment account environmentID deploymentID serviceActorID
    else ErrPolicyConflict in
  match ProjectedBundle serviceActorID deployment with
  | Err _ => Err ErrPolicyConflict
  | Ok bundle => let* template := templateOf deployment bundle in Ok (environment, application, template)
  end.

Definition Create (s later : PolicyStore) (call : ServiceCall) (actor : string) (input : CreatePolicyInput)
    : res PolicyErr (PolicyStore * answer) :=
  guard! negb (negb (is_uuid actor) || negb (is_uuid (ci_ExpectedApplicationID input)) ||
               negb (is_uuid (ci_EnvironmentID input)) || negb (is_uuid (ci_TemplateDeploymentID input)) ||
               negb (is_uuid (ci_ServiceActorID input)) || is_empty (ci_IdempotencyKey input) ||
               is_empty (ci_RequestDigest input) || is_empty (ci_RequestID input)) else ErrInvalid in
  let* replay := CommandReplay s actor (ci_IdempotencyKey input) "create" (ci_RequestDigest input)
                   (ci_ExpectedApplicationID input) "" in
  match replay with
  | Some answer => Ok (later, answer)
  | None =>
      let* definition := BuildDefinitionIdentity (ci_ExpectedApplicationID input) in
      guard! String.eqb (so_ApplicationID definition) (ci_ExpectedApplicationID input) else ErrPolicyConflict in
      let* resolved := resolveTemplate definition (ci_EnvironmentID input) (ci_TemplateDeploymentID input)
                         (ci_ServiceActorID input) in
      let '(environment, application, template) := resolved in
      match sc_NewID call with
      | None => Err ErrInvalid
      | Some policyID =>
          guard! is_uuid policyID else ErrInvalid in
          let policy := mkPolicy policyID "" (so_ProjectID definition) (ap_ID application) (e_ID environment) 1 actor
                          (sc_Now call) in
          let revision := mkRevision policyID 1 (ci_Enabled input) template (TemplateDigest template)
                            (ci_ServiceActorID input) actor (sc_Now call) in
          guard! validPolicy policy && validRevisionFor revision policy else ErrInvalid in
          CreatePolicy later policy revision (ci_IdempotencyKey input) (ci_RequestDigest input) (ci_RequestID input)
      end
  end.

(** The revision that disables a policy is the current one, but for who made it
    and when. *)
Definition disablingRevision (call : ServiceCall) (actor : string) (number : Z) (input : RevisePolicyInput)
    : res PolicyErr Revision :=
  let current := ri_CurrentRevision input in
  guard! negb (negb (validRevisionFor current (ri_Policy input)) ||
               negb (rv_Revision current =? py_CurrentRevision (ri_Policy input)) ||
               negb (is_empty (ri_TemplateDeploymentID input)) &&
               negb (String.eqb (ri_TemplateDeploymentID input) (tl_SourceDeploymentID (rv_Template current))) ||
               negb (is_empty (ri_ServiceActorID input)) &&
               negb (String.eqb (ri_ServiceActorID input) (rv_ServiceActorID current))) else ErrPolicyConflict in
  Ok (mkRevision (rv_PolicyID current) number false (rv_Template current) (rv_TemplateDigest current)
        (rv_ServiceActorID current) actor (sc_Now call)).

Definition enablingRevision (call : ServiceCall) (actor : string) (number : Z) (input : RevisePolicyInput)
    : res PolicyErr Revision :=
  let policy := ri_Policy input in
  guard! is_uuid (ri_TemplateDeploymentID input) && is_uuid (ri_ServiceActorID input) else ErrInvalid in
  match BuildDefinitionIdentity (py_ApplicationID policy) with
  | Err _ => Err ErrPolicyConflict
  | Ok definition =>
      guard! String.eqb (so_ProjectID definition) (py_ProjectID policy) &&
             String.eqb (so_ApplicationID definition) (py_ApplicationID policy) else ErrPolicyConflict in
      let* resolved := resolveTemplate definition (py_EnvironmentID policy) (ri_TemplateDeploymentID input)
                         (ri_ServiceActorID input) in
      Ok (mkRevision (py_ID policy) number true resolved.2 (TemplateDigest resolved.2) (ri_ServiceActorID input) actor
            (sc_Now call))
  end.

Definition Revise (s later : PolicyStore) (call : ServiceCall) (actor : string) (input : RevisePolicyInput)
    : res PolicyErr (PolicyStore * answer) :=
  let policy := ri_Policy input in
  guard! negb (negb (is_uuid actor) || negb (validPolicy policy) || is_empty (ri_IdempotencyKey input) ||
               is_empty (ri_RequestDigest input) || is_empty (ri_RequestID input)) else ErrInvalid in
  let* replay := CommandReplay s actor (ri_IdempotencyKey input) "revise" (ri_RequestDigest input)
                   (py_ApplicationID policy) (py_ID policy) in
  match replay with
  | Some answer => Ok (later, answer)
  | None =>
      let number := i64 (py_CurrentRevision policy + 1) in
      let* revision := (if ri_Enabled input then enablingRevision else disablingRevision) call actor number input in
      guard! validRevisionFor revision (py_set_CurrentRevision number policy) else ErrInvalid in
      RevisePolicy later policy revision (ri_IdempotencyKey input) (ri_RequestDigest input) (ri_RequestID input)
  end.

End service.
