(* ===== verification/AutoDeployPolicyFacts.v ===== *)
(** What the policies of automatic deployments promise: their revisions form a
    history that is only added to, a command is performed once, and what a
    policy pins decides what is deployed. *)

From Stdlib Require Import Ascii.
From S2P Require Import Prelude Regexp GoStrings Digest Encoding JsonValues Versions Workload AppConfig AppConfigFacts AutoDeployConfig AutoDeployConfigSafety AutoDeploy.
From S2P Require Import Access ControlModel ControlAccess AutoDeploy AutoDeployService.

Open Scope Z_scope.

(** * Histories

    Between two commands the rest of the store, and the runs, may become
    anything. *)

Section histories.
Context `{MapOrder} `{JSONDecoder}.

Inductive policy_step : PolicyStore → PolicyStore → Prop :=
| step_create s policy revision key digest requestID s' a :
    CreatePolicy s policy revision key digest requestID = Ok (s', a) → policy_step s s'
| step_revise s prior revision key digest requestID s' a :
    RevisePolicy s prior revision key digest requestID = Ok (s', a) → policy_step s s'
| step_other s b runs :
    policy_step s (mkPolicyStore b (st_policies s) (st_revisions s) (st_commands s) runs).

Definition noPolicies (b : Store) : PolicyStore := mkPolicyStore b ∅ ∅ ∅ ∅.

Definition reachable (s : PolicyStore) : Prop := ∃ b, rtc policy_step (noPolicies b) s.

(** * The invariant *)

Definition policy_wf (s : PolicyStore) (id : string) (p : Policy) : Prop :=
  py_ID p = id ∧ validPolicy p = true ∧ i64_range (py_CurrentRevision p) ∧
  (∀ n, is_Some (revisionsOf s id !! n) ↔ 1 ≤ n ≤ py_CurrentRevision p) ∧
  ∀ n r, revisionsOf s id !! n = Some r → rv_Revision r = n ∧ validRevisionFor r p = true.

(** The author of the policy made it, the author of a revision revised it. *)
Definition command_wf (s : PolicyStore) (k : string) (c : autoDeployCommandRecord) : Prop :=
  ∃ p r key, st_policies s !! cm_policyID c = Some p ∧ revisionsOf s (cm_policyID c) !! cm_revision c = Some r ∧
    (cm_action c = "create" ∧ cm_revision c = 1 ∧ k = autoDeployCommandKey (py_CreatedBy p) key ∨
     cm_action c = "revise" ∧ 1 < cm_revision c ∧ k = autoDeployCommandKey (rv_CreatedBy r) key).

Record policies_wf (s : PolicyStore) : Prop := {
  wf_policies : ∀ id p, st_policies s !! id = Some p → policy_wf s id p;
  wf_destinations : ∀ id id' p p', st_policies s !! id = Some p → st_policies s !! id' = Some p' →
    sameDestination p p' = true → id = id';
  wf_commands : ∀ k c, st_commands s !! k = Some c → command_wf s k c;
}.

(** Policies keep what they are, revisions and commands are final. *)
Record extends (s s' : PolicyStore) : Prop := {
  ext_policies : ∀ id p, st_policies s !! id = Some p →
    ∃ n, py_CurrentRevision p ≤ n ∧ st_policies s' !! id = Some (py_set_CurrentRevision n p);
  ext_revisions : ∀ id n r, is_Some (st_policies s !! id) →
    revisionsOf s id !! n = Some r → revisionsOf s' id !! n = Some r;
  ext_commands : ∀ k c, st_commands s !! k = Some c → st_commands s' !! k = Some c;
}.

(** * What a command does *)

(** The store after a command, and what it found when it was admitted. *)
Definition performed (s : PolicyStore) (author key : string) (action digest : string) (policy : Policy)
    (revision : Revision) (revisions : gmap Z Revision) : PolicyStore :=
  mkPolicyStore (count_audit (st_base s)) (<[py_ID policy := policy]> (st_policies s))
    (<[py_ID policy := <[rv_Revision revision := revision]> revisions]> (st_revisions s))
    (<[autoDeployCommandKey author key := mkCommand action digest (py_ID policy) (rv_Revision revision)]>
       (st_commands s))
    (st_runs s).

Inductive admitted (s : PolicyStore) : string → string → Policy → Revision → gmap Z Revision → Prop :=
| admitted_create policy revision :
    st_policies s !! py_ID policy = None → (∀ id p, st_policies s !! id = Some p → sameDestination p policy = false) →
    rv_Revision revision = 1 →
    admitted s (py_CreatedBy policy) "create" policy revision ∅
| admitted_revise prior revision :
    st_policies s !! py_ID prior = Some prior → rv_Revision revision = i64 (py_CurrentRevision prior + 1) →
    admitted s (rv_CreatedBy revision) "revise" (py_set_CurrentRevision (rv_Revision revision) prior) revision
      (revisionsOf s (py_ID prior)).

Definition commanded (s : PolicyStore) (author key action digest : string) (s' : PolicyStore) (a : answer) : Prop :=
  (s' = s ∧ autoDeployPolicyReplayLocked s author key action digest = Ok (Some a)) ∨
  (∃ policy revision revisions, admitted s author action policy revision revisions ∧
     validRevisionFor revision policy = true ∧ py_CurrentRevision policy = rv_Revision revision ∧
     st_commands s !! autoDeployCommandKey author key = None ∧
     s' = performed s author key action digest policy revision revisions ∧ a = (policy, revision, false)).

Lemma replay_none s actorID key action digest :
  autoDeployPolicyReplayLocked s actorID key action digest = Ok None →
  st_commands s !! autoDeployCommandKey actorID key = None.
Proof.
  unfold autoDeployPolicyReplayLocked. destruct (st_commands s !! _) as [command|]; [|done]. intros Hr.
  apply guard_ok in Hr as [_ Hr]. destruct (st_policies s !! _) as [policy|]; [|done].
  apply res_bind_ok in Hr as (u & _ & Hr). by destruct (_ !! cm_revision command).
Qed.

Lemma CreatePolicy_commanded s policy revision key digest requestID s' a :
  CreatePolicy s policy revision key digest requestID = Ok (s', a) →
  commanded s (py_CreatedBy policy) key "create" digest s' a.
Proof.
  unfold CreatePolicy. intros Hc. apply res_bind_ok in Hc as ([replay|] & Hr & Hc).
  { injection Hc as <- <-. by left. }
  apply guard_ok in Hc as [Hv Hc]. apply res_bind_ok in Hc as (u & _ & Hc).
  apply guard_ok in Hc as [Hnew Hc]. apply guard_ok in Hc as [Hdest Hc]. injection Hc as <- <-.
  right. exists policy, revision, ∅. bool_prop. split_and!; try done; [|congruence|by eapply replay_none].
  apply admitted_create; [|intros id p Hp|done].
  - by destruct (st_policies s !! py_ID policy).
  - destruct (sameDestination p policy) eqn:Hs; [|done].
    assert (existsb (λ kv, sameDestination kv.2 policy) (range 0 (st_policies s)) = true) as Ht; [|congruence].
    apply existsb_elem_of. exists (id, p). by rewrite elem_of_range.
Qed.

Lemma RevisePolicy_commanded s prior revision key digest requestID s' a :
  RevisePolicy s prior revision key digest requestID = Ok (s', a) →
  commanded s (rv_CreatedBy revision) key "revise" digest s' a.
Proof.
  unfold RevisePolicy. intros Hc. apply res_bind_ok in Hc as ([replay|] & Hr & Hc).
  { injection Hc as <- <-. by left. }
  destruct (st_policies s !! py_ID prior) as [current|] eqn:Hp; [|done].
  apply guard_ok in Hc as [Hv Hc]. apply res_bind_ok in Hc as (u & _ & Hc). injection Hc as <- <-.
  right. bool_prop. subst current.
  eexists _, revision, _. split_and!; [by apply admitted_revise|done|done|by eapply replay_none|done|done].
Qed.

(** ** The invariant is kept *)

Lemma revisionsOf_performed s author key action digest policy revision revisions id :
  revisionsOf (performed s author key action digest policy revision revisions) id =
  if decide (id = py_ID policy) then <[rv_Revision revision := revision]> revisions else revisionsOf s id.
Proof.
  unfold revisionsOf, performed. simpl. destruct (decide (id = py_ID policy)) as [->|].
  - by rewrite lookup_insert_eq.
  - by rewrite lookup_insert_ne.
Qed.

Lemma validRevision_policy r p : validRevisionFor r p = true → rv_PolicyID r = py_ID p ∧ validPolicy p = true ∧
  1 ≤ rv_Revision r ≤ py_CurrentRevision p.
Proof. unfold validRevisionFor. intros Hv. bool_prop. split_and!; try done; lia. Qed.

(** A revision that is valid stays valid when the policy advances. *)
Lemma validRevision_advance r p n : validRevisionFor r p = true → py_CurrentRevision p ≤ n →
  validRevisionFor r (py_set_CurrentRevision n p) = true.
Proof.
  intros Hv Hn. apply validRevision_policy in Hv as Hpolicy. destruct Hpolicy as (_ & Hp & Hr).
  unfold validRevisionFor, validPolicy in *.
  cbn [py_set_CurrentRevision py_ID py_ProjectID py_ApplicationID py_EnvironmentID py_CurrentRevision py_CreatedBy py_CreatedAt].
  assert ((n <? rv_Revision r) = (py_CurrentRevision p <? rv_Revision r)) as ->
    by (destruct (Z.ltb_spec n (rv_Revision r)), (Z.ltb_spec (py_CurrentRevision p) (rv_Revision r)); lia).
  assert ((n <? 1) = (py_CurrentRevision p <? 1)) as ->
    by (destruct (Z.ltb_spec n 1), (Z.ltb_spec (py_CurrentRevision p) 1); lia).
  done.
Qed.

Lemma next_revision cur : i64_range cur → 1 ≤ i64 (cur + 1) → 1 ≤ cur → i64 (cur + 1) = cur + 1.
Proof.
  unfold i64_range. intros Hr Hn Hc. destruct (decide (cur + 1 = 2 ^ 63)) as [Heq|]; [|apply i64_small; unfold i64_range; lia].
  rewrite Heq in Hn. by vm_compute in Hn.
Qed.

Lemma sameDestination_sym p q : sameDestination p q = sameDestination q p.
Proof. unfold sameDestination. by rewrite (String.eqb_sym (py_ApplicationID p)), (String.eqb_sym (py_EnvironmentID p)). Qed.

(** What an admitted revision adds to. *)
Lemma admitted_facts s author action policy revision revisions : policies_wf s →
  admitted s author action policy revision revisions → validRevisionFor revision policy = true →
  py_CurrentRevision policy = rv_Revision revision →
  i64_range (py_CurrentRevision policy) ∧
  (∀ n, is_Some (revisions !! n) ↔ 1 ≤ n < py_CurrentRevision policy) ∧
  (∀ n r, revisions !! n = Some r → rv_Revision r = n ∧ validRevisionFor r policy = true) ∧
  (∀ id p, st_policies s !! id = Some p → id ≠ py_ID policy → sameDestination p policy = false) ∧
  ∀ p, st_policies s !! py_ID policy = Some p →
    policy = py_set_CurrentRevision (py_CurrentRevision policy) p ∧ py_CurrentRevision p ≤ py_CurrentRevision policy ∧
    revisions = revisionsOf s (py_ID policy).
Proof.
  intros [Hwf Hdest _] Had Hv Hcur. destruct Had as [policy revision Hnone Hother Hone|prior revision Hp Hnext].
  - rewrite Hcur, Hone. split_and!; [done|..].
    + intros n. rewrite lookup_empty. split; [by intros []|lia].
    + intros n r. by rewrite lookup_empty.
    + intros id p Hp _. by eapply Hother.
    + intros p Hp. congruence.
  - cbn [py_set_CurrentRevision py_CurrentRevision py_ID] in *.
    destruct (Hwf _ _ Hp) as (Hid & Hpv & Hrange & Hrevs & Heach).
    apply validRevision_policy in Hv as (_ & _ & Hr). cbn [py_set_CurrentRevision py_CurrentRevision] in Hr.
    assert (1 ≤ py_CurrentRevision prior) as Hpos by (unfold validPolicy in Hpv; bool_prop; lia).
    assert (i64_range (rv_Revision revision)) as Hrange' by (rewrite Hnext; apply i64_in_range).
    rewrite Hnext in Hr, Hrange' |- *.
    assert (i64 (py_CurrentRevision prior + 1) = py_CurrentRevision prior + 1) as Heq by (apply next_revision; [done|lia|done]).
    rewrite Heq in Hr, Hrange' |- *. split_and!; [done|..].
    + intros n. rewrite Hrevs. lia.
    + intros n r Hlook. apply Heach in Hlook as [Hn Hval]. split; [done|]. apply validRevision_advance; [done|lia].
    + intros id p Hlook Hne. destruct (sameDestination p _) eqn:Hs; [|done]. destruct Hne. by eapply Hdest.
    + intros p Hlook. simplify_eq. split_and!; [done|lia|done].
Qed.

Lemma performed_wf s author key action digest policy revision revisions : policies_wf s →
  admitted s author action policy revision revisions → validRevisionFor revision policy = true →
  py_CurrentRevision policy = rv_Revision revision → st_commands s !! autoDeployCommandKey author key = None →
  let s' := performed s author key action digest policy revision revisions in policies_wf s' ∧ extends s s'.
Proof.
  intros Hwf Had Hv Hcur Hnew s'.
  destruct (admitted_facts _ _ _ _ _ _ Hwf Had Hv Hcur) as (Hrange & Hrevs & Heach & Hdest & Hprior).
  apply validRevision_policy in Hv as Hp. destruct Hp as (_ & Hpv & Hr).
  assert (extends s s') as Hext.
  { split; subst s'.
    - intros id p Hlook. simpl. destruct (decide (id = py_ID policy)) as [->|Hne].
      + exists (py_CurrentRevision policy). destruct (Hprior p Hlook) as (Hset & Hle & _).
        split; [done|]. rewrite lookup_insert_eq. by rewrite <- Hset.
      + exists (py_CurrentRevision p). rewrite lookup_insert_ne by done. split; [done|]. rewrite Hlook. by destruct p.
    - intros id n r [p Hlook] Hrev. rewrite revisionsOf_performed. destruct (decide (id = py_ID policy)) as [->|]; [|done].
      destruct (Hprior p Hlook) as (_ & _ & ->). rewrite lookup_insert_ne; [done|]. intros <-.
      assert (is_Some (revisionsOf s (py_ID policy) !! rv_Revision revision)) as Hsome by done.
      apply Hrevs in Hsome. lia.
    - intros k c Hlook. simpl. rewrite lookup_insert_ne; [done|]. intros <-. congruence. }
  split; [|done]. destruct Hwf as [Hpol Hdestination Hcommands]. split.
  - intros id p. subst s'. unfold policy_wf. rewrite revisionsOf_performed. simpl.
    destruct (decide (id = py_ID policy)) as [->|Hne].
    + rewrite lookup_insert_eq. intros [= <-]. split_and!; try done.
      * intros n. destruct (decide (rv_Revision revision = n)) as [<-|Hn].
        -- rewrite lookup_insert_eq. split; [lia|done].
        -- rewrite lookup_insert_ne, Hrevs by done. lia.
      * intros n r. destruct (decide (rv_Revision revision = n)) as [<-|Hn].
        -- rewrite lookup_insert_eq. by intros [= <-].
        -- rewrite lookup_insert_ne by done. apply Heach.
    + rewrite lookup_insert_ne by done. apply Hpol.
  - intros id id' p p'. subst s'. simpl. rewrite !lookup_insert_Some. intros [[<- <-]|[Hne Hp]] [[<- <-]|[Hne' Hp']]; [done|..].
    + rewrite sameDestination_sym. intros Hs. rewrite (Hdest id' p') in Hs by done. done.
    + intros Hs. rewrite (Hdest id p) in Hs by done. done.
    + by eapply Hdestination.
  - intros k c. subst s'. simpl. rewrite lookup_insert_Some. intros [[<- <-]|[Hne Hc]].
    + exists policy, revision, key. simpl. rewrite revisionsOf_performed, decide_True, !lookup_insert_eq by done.
      split_and!; [done|done|]. inversion Had; subst; simpl; [by left|right]. split_and!; [done| |done].
      destruct (Hpol _ _ H1) as (_ & Hprv & Hprange & _). unfold validPolicy in Hprv. bool_prop.
      rewrite H2 in Hr |- *. rewrite next_revision in Hr |- * by (done || lia). lia.
    + destruct (Hcommands k c Hc) as (p & r & key' & Hlook & Hrev & Hwho).
      destruct (ext_policies _ _ Hext _ _ Hlook) as (n & _ & Hlook').
      exists (py_set_CurrentRevision n p), r, key'. split_and!; [done| |done].
      eapply ext_revisions; [exact Hext|by eexists|done].
Qed.

(** ** Histories *)

Lemma commanded_wf s author key action digest s' a : policies_wf s →
  commanded s author key action digest s' a → policies_wf s' ∧ extends s s'.
Proof.
  intros Hwf [[-> _]|(policy & revision & revisions & Had & Hv & Hcur & Hnew & -> & _)].
  - split; [done|]. split; [|done|done]. intros id p Hp. exists (py_CurrentRevision p). split; [done|]. rewrite Hp. by destruct p.
  - by apply performed_wf.
Qed.

Lemma extends_refl s : extends s s.
Proof. split; [|done|done]. intros id p Hp. exists (py_CurrentRevision p). split; [done|]. rewrite Hp. by destruct p. Qed.

Lemma extends_trans s1 s2 s3 : extends s1 s2 → extends s2 s3 → extends s1 s3.
Proof.
  intros [Hp Hr Hc] [Hp' Hr' Hc']. split.
  - intros id p Hlook. destruct (Hp id p Hlook) as (n & Hle & Hlook'). destruct (Hp' _ _ Hlook') as (n' & Hle' & Hlook'').
    exists n'. split; [simpl in Hle'; lia|done].
  - intros id n r [p Hlook] Hrev. destruct (Hp id p Hlook) as (m & _ & Hlook'). eauto.
  - eauto.
Qed.

Lemma step_wf s s' : policies_wf s → policy_step s s' → policies_wf s' ∧ extends s s'.
Proof.
  intros Hwf Hstep. destruct Hstep as [s policy revision key digest requestID s' a Hc|s prior revision key digest requestID s' a Hc|s b runs].
  - eapply commanded_wf; [done|]. by eapply CreatePolicy_commanded.
  - eapply commanded_wf; [done|]. by eapply RevisePolicy_commanded.
  - destruct Hwf as [H1 H2 H3]. destruct (extends_refl s) as [E1 E2 E3]. by split; split.
Qed.

Lemma steps_wf s s' : policies_wf s → rtc policy_step s s' → policies_wf s' ∧ extends s s'.
Proof.
  intros Hwf Hsteps. induction Hsteps as [s|s1 s2 s3 Hstep _ IH]; [split; [done|apply extends_refl]|].
  destruct (step_wf _ _ Hwf Hstep) as [Hwf' Hext]. destruct (IH Hwf') as [Hwf'' Hext'].
  split; [done|]. by eapply extends_trans.
Qed.

Lemma reachable_wf s : reachable s → policies_wf s.
Proof.
  intros [b Hsteps]. apply steps_wf in Hsteps as [Hwf _]; [done|]. by split; intros; simplify_map_eq.
Qed.

(** C27. Policies form a history that is only added to. In every history of the
    store each policy is valid, its revisions are exactly those from 1 to its
    current one and each is valid for it; no two policies deploy one
    application to one environment; a recorded command leads to the revision its
    author made. Whatever happens later, a policy keeps all but its current
    revision, which only grows, and no revision and no command changes. *)
Theorem policy_history s s' : reachable s → rtc policy_step s s' → policies_wf s' ∧ extends s s'.
Proof. intros Hs Hsteps. by apply steps_wf; [apply reachable_wf|]. Qed.

(** ** Commands *)

Lemma replay_some s author key action digest command :
  st_commands s !! autoDeployCommandKey author key = Some command →
  ∀ r, autoDeployPolicyReplayLocked s author key action digest = Ok r →
  cm_action command = action ∧ cm_digest command = digest ∧
  ∃ p rev, st_policies s !! cm_policyID command = Some p ∧ revisionsOf s (py_ID p) !! cm_revision command = Some rev ∧
    r = Some (p, rev, true).
Proof.
  unfold autoDeployPolicyReplayLocked. intros -> r Hr. apply guard_ok in Hr as [Hsame Hr].
  destruct (st_policies s !! cm_policyID command) as [p|]; [|done]. apply res_bind_ok in Hr as (u & _ & Hr).
  destruct (revisionsOf s (py_ID p) !! cm_revision command) as [rev|] eqn:Hrev; [|done]. injection Hr as <-.
  bool_prop. split_and!; [done|done|]. by exists p, rev.
Qed.

(** An answer of a replay says so. *)
Lemma replayed_found s author key action digest policy revision found :
  autoDeployPolicyReplayLocked s author key action digest = Ok (Some (policy, revision, found)) → found = true.
Proof.
  intros Hr. destruct (st_commands s !! autoDeployCommandKey author key) as [command|] eqn:Hc.
  - by destruct (replay_some _ _ _ _ _ _ Hc _ Hr) as (_ & _ & p & rev & _ & _ & [= _ _ ->]).
  - unfold autoDeployPolicyReplayLocked in Hr. by rewrite Hc in Hr.
Qed.

(** What a command that was performed wrote is there ever after. *)
Lemma commanded_kept s1 s2 s3 author key action digest policy revision : reachable s1 →
  commanded s1 author key action digest s2 (policy, revision, false) → rtc policy_step s2 s3 →
  st_commands s3 !! autoDeployCommandKey author key =
    Some (mkCommand action digest (py_ID policy) (rv_Revision revision)) ∧
  ∃ n, py_CurrentRevision policy ≤ n ∧ st_policies s3 !! py_ID policy = Some (py_set_CurrentRevision n policy) ∧
    revisionsOf s3 (py_ID policy) !! rv_Revision revision = Some revision.
Proof.
  intros Hreach Hc Hsteps. apply reachable_wf in Hreach as Hwf.
  destruct (commanded_wf _ _ _ _ _ _ _ Hwf Hc) as [Hwf2 _].
  destruct (steps_wf _ _ Hwf2 Hsteps) as [Hwf3 Hext].
  destruct Hc as [[_ Hreplay]|(p & rev & revisions & _ & _ & _ & _ & -> & Heq)].
  { by apply replayed_found in Hreplay. }
  injection Heq as -> ->. set (s2 := performed _ _ _ _ _ _ _ _) in *.
  assert (st_policies s2 !! py_ID p = Some p) as Hpolicy by apply lookup_insert_eq.
  split; [apply (ext_commands _ _ Hext); apply lookup_insert_eq|].
  destruct (ext_policies _ _ Hext _ _ Hpolicy) as (n & Hle & Hpolicy3). exists n. split_and!; [done|done|].
  apply (ext_revisions _ _ Hext); [by eexists|]. subst s2. by rewrite revisionsOf_performed, decide_True, lookup_insert_eq.
Qed.

(** The two commands, with the same shape. *)
Inductive PolicyCommand :=
| CreateCommand (policy : Policy)
| ReviseCommand (prior : Policy).

Definition authorOf (c : PolicyCommand) (revision : Revision) : string :=
  match c with CreateCommand policy => py_CreatedBy policy | ReviseCommand _ => rv_CreatedBy revision end.

Definition actionOf (c : PolicyCommand) : string :=
  match c with CreateCommand _ => "create" | ReviseCommand _ => "revise" end.

Definition perform (s : PolicyStore) (c : PolicyCommand) (revision : Revision) (key digest requestID : string)
    : res PolicyErr (PolicyStore * answer) :=
  match c with
  | CreateCommand policy => CreatePolicy s policy revision key digest requestID
  | ReviseCommand prior => RevisePolicy s prior revision key digest requestID
  end.

Lemma perform_commanded s c revision key digest requestID s' a :
  perform s c revision key digest requestID = Ok (s', a) →
  commanded s (authorOf c revision) key (actionOf c) digest s' a.
Proof. destruct c; [apply CreatePolicy_commanded|apply RevisePolicy_commanded]. Qed.

(** A command is performed once. After an actor's command with some key was
    performed, whatever happened since, every command of that actor with that
    key that is answered at all is the same one - the same action with the same
    digest - and it changes nothing: its answer is the policy it is about, with
    the revision that was made the first time, marked as a replay. *)
Theorem policy_command_once s1 s2 s3 s4 c revision key digest requestID policy made c' revision' digest' requestID' a :
  reachable s1 → perform s1 c revision key digest requestID = Ok (s2, (policy, made, false)) →
  rtc policy_step s2 s3 → authorOf c' revision' = authorOf c revision →
  perform s3 c' revision' key digest' requestID' = Ok (s4, a) →
  actionOf c' = actionOf c ∧ digest' = digest ∧ s4 = s3 ∧
  ∃ n, py_CurrentRevision policy ≤ n ∧ a = (py_set_CurrentRevision n policy, made, true).
Proof.
  intros Hreach Hfirst%perform_commanded Hsteps Hauthor Hagain.
  destruct (commanded_kept _ _ _ _ _ _ _ _ _ Hreach Hfirst Hsteps) as (Hcommand & n & Hle & Hpolicy & Hrevision).
  rewrite <- Hauthor in Hcommand.
  apply perform_commanded in Hagain as [[-> Hr]|(p & rev & revisions & _ & _ & _ & Hnone & _)]; [|congruence].
  destruct (replay_some _ _ _ _ _ _ Hcommand _ Hr) as (Ha & Hd & p3 & rev3 & Hp3 & Hrev3 & [= ->]).
  cbn [cm_policyID cm_revision cm_action cm_digest] in *. simplify_map_eq. split_and!; [done|done|done|]. by exists n.
Qed.
End histories.

(** * What a policy pins decides what is deployed

    The service of [internal/autodeploy/policy.go] composed with the writer of
    [internal/appconfig/autodeploy.go]. *)

(** ** The gate *)

(** An image reference is cut at its one [@]. *)
Lemma image_cut image : re_match autoDeployImageRE image = true →
  ∃ repository digest, image = repository +:+ String "@" digest ∧ split_once "@" image = (repository, digest) ∧
    str_contains "@" image = true ∧ is_empty repository = false ∧ is_empty digest = false.
Proof.
  intros Hm. apply re_match_spec, re_lang_seq in Hm as (s1 & s2 & -> & H1 & H2).
  apply re_lang_seq in H1 as (? & s1' & -> & (c & -> & Hc)%re_lang_class & Hs%re_lang_star_class).
  apply re_lang_seq in H2 as (s2' & s3 & -> & ->%re_lang_lit & _).
  assert (count_byte "@" (String c s1') = 0) as Hcount.
  { apply count_byte_none. constructor.
    - intros ->. by vm_compute in Hc.
    - eapply Forall_impl; [exact Hs|]. intros a Ha ->. by vm_compute in Ha. }
  exists (String c s1'), ("sha256:" +:+ s3).
  assert ((String c "" +:+ s1') +:+ "@sha256:" +:+ s3 = String c s1' +:+ String "@" ("sha256:" +:+ s3)) as ->
    by (by rewrite str_app_cons, str_app_nil).
  split_and!; [done|by apply split_once_app| |done|done].
  clear. induction (String c s1') as [|a s IH]; [done|]. rewrite str_app_cons, str_contains_byte, IH. apply orb_true_r.
Qed.

Section gate.
Context `{MapOrder} `{Libraries} `{JSONDecoder}.

Definition conflict : Candidate :=
  rejected "AutoDeployTemplateConflict"
    "The current AppConfig intent changed; revise the auto-deploy policy before deploying another build." "".

(** [intent] is what [current] has to have. *)
Definition gated_by (intent digest current : string) (dependencies : option (list AutoDeployDependencyIntent))
    (parsed : option members_of) (image : string) : Prop :=
  let c := ApplyAutoDeployImageWithDependencies current intent digest image dependencies in
  (liveTemplate current dependencies = Ok intent →
     ∃ repository tag, image = repository +:+ String "@" tag ∧
       c = reparse parsed (withImage repository tag (default [] parsed))) ∧
  (liveTemplate current dependencies ≠ Ok intent → c = conflict).

Lemma valid_digest intent digest : ValidateAutoDeployIntentTemplate intent digest = true →
  digest = autoDeployIntentDigest intent.
Proof.
  unfold ValidateAutoDeployIntentTemplate, autoDeployIntentDigest. destruct (is_empty intent); [done|]. simpl.
  destruct (_ || _); [done|]. destruct (json_decode intent) as [[[] rest]|]; try done. intros Hv. by bool_prop.
Qed.

Lemma gate intent digest current dependencies parsed runtime image :
  ValidateAutoDeployIntentTemplate intent digest = true → re_match autoDeployImageRE image = true →
  ParseAndValidate current = (parsed, runtime, []) → gated_by intent digest current dependencies parsed image.
Proof.
  intros Hv Hm Hp. apply image_cut in Hm as Hcut. destruct Hcut as (repository & tag & Himage & Hsplit & Hat & Hr & Ht).
  unfold gated_by, ApplyAutoDeployImageWithDependencies. rewrite Hv, Hm, Hp. cbn [negb orb]. split.
  - intros ->. rewrite (valid_digest _ _ Hv), !String.eqb_refl, Hsplit, Hat, Hr, Ht. cbn [negb orb].
    by exists repository, tag.
  - destruct (liveTemplate current dependencies) as [live|]; [|done]. intros Hne.
    destruct (String.eqb_spec live intent) as [->|]; [done|]. cbn [negb]. by rewrite orb_true_r.
Qed.
End gate.

(** ** What the service pins *)

Section pinned.
Context `{MapOrder} `{Libraries} `{JSONDecoder} `{PolicyCatalog}.

Lemma templateOf_pins deployment bundle template : templateOf deployment bundle = Ok template →
  ∃ document dependencies, autoDeployApplicationDocument bundle (sd_ApplicationID deployment) = Some document ∧
    dc_Raw document = sd_ConfigRaw deployment ∧
    CanonicalDependencyIntent (bu_Dependencies bundle) (bu_Documents bundle) = Some dependencies ∧
    liveTemplate (sd_ConfigRaw deployment) (Some dependencies) = Ok (tl_ConfigIntent template) ∧
    ValidateAutoDeployIntentTemplate (tl_ConfigIntent template) (TemplateDigest template) = true ∧
    tl_SourceDeploymentID template = sd_ID deployment ∧
    tl_SourceDeploymentGeneration template = sd_Generation deployment.
Proof.
  unfold templateOf. intros Ht. apply guard_ok in Ht as [_ Ht].
  destruct (autoDeployApplicationDocument _ _) as [document|]; [|done]. apply guard_ok in Ht as [Hraw Ht].
  destruct (CanonicalDependencyIntent _ _) as [dependencies|]; [|done].
  destruct (AutoDeployIntentTemplate _) as [[intent d]|] eqn:Hi; [|done].
  destruct (BindAutoDeployDependencies intent dependencies) as [[bound digest]|] eqn:Hb; [|done].
  apply guard_ok in Ht as [Hv Ht]. injection Ht as <-. bool_prop.
  exists document, dependencies. cbn [tl_ConfigIntent tl_SourceDeploymentID tl_SourceDeploymentGeneration].
  assert (dc_Raw document = sd_ConfigRaw deployment) as Heq by done.
  split_and!; try done.
  - unfold liveTemplate. by rewrite <- Heq, Hi, Hb.
  - unfold validTemplate in Hv. bool_prop. cbn [tl_ConfigIntent] in *.
    match goal with Hval : ValidateAutoDeployIntentTemplate _ _ = true |- _ =>
      pose proof (valid_digest _ _ Hval) as Hd; rewrite Hd in Hval; exact Hval end.
Qed.

Lemma resolveTemplate_pins definition environmentID deploymentID serviceActorID resolved :
  resolveTemplate definition environmentID deploymentID serviceActorID = Ok resolved →
  ∃ deployment bundle, GetDeployment deploymentID = Ok deployment ∧ sd_ID deployment = deploymentID ∧
    sd_EnvironmentID deployment = environmentID ∧ sd_ApplicationID deployment = so_ApplicationID definition ∧
    ProjectedBundle serviceActorID deployment = Ok bundle ∧ templateOf deployment bundle = Ok resolved.2.
Proof.
  unfold resolveTemplate. intros Hr. apply guard_ok in Hr as [_ Hr].
  apply res_bind_ok in Hr as (application & _ & Hr). apply res_bind_ok in Hr as (environment & _ & Hr).
  apply res_bind_ok in Hr as (deployment & Hd & Hr). apply res_bind_ok in Hr as (account & _ & Hr).
  apply guard_ok in Hr as [Hbelong Hr]. destruct (ProjectedBundle serviceActorID deployment) as [bundle|] eqn:Hb; [|done].
  apply res_bind_ok in Hr as (template & Ht & Hr). injection Hr as <-. unfold belongTogether in Hbelong. bool_prop.
  exists deployment, bundle. split_and!; try done; cbn [snd]; congruence.
Qed.

(** A policy that is new is the one that was asked for. *)
Lemma CreatePolicy_fresh s p r key digest requestID s' policy revision :
  CreatePolicy s p r key digest requestID = Ok (s', (policy, revision, false)) → policy = p ∧ revision = r.
Proof.
  unfold CreatePolicy. intros Hc. apply res_bind_ok in Hc as ([replay|] & Hr & Hc).
  - injection Hc as -> ->. by apply replayed_found in Hr.
  - apply guard_ok in Hc as [_ Hc]. apply res_bind_ok in Hc as (u & _ & Hc).
    apply guard_ok in Hc as [_ Hc]. apply guard_ok in Hc as [_ Hc]. by injection Hc.
Qed.

(** The policy and the revision that [Create] hands to the store. *)
Lemma Create_creates s later call actor input s' policy revision :
  Create s later call actor input = Ok (s', (policy, revision, false)) →
  ∃ definition resolved, BuildDefinitionIdentity (ci_ExpectedApplicationID input) = Ok definition ∧
    so_ApplicationID definition = ci_ExpectedApplicationID input ∧
    resolveTemplate definition (ci_EnvironmentID input) (ci_TemplateDeploymentID input) (ci_ServiceActorID input) = Ok resolved ∧
    rv_Template revision = resolved.2 ∧ rv_TemplateDigest revision = TemplateDigest resolved.2.
Proof.
  unfold Create. intros Hc. apply guard_ok in Hc as [_ Hc]. apply res_bind_ok in Hc as (replay & Hreplay & Hc).
  destruct replay as [[[p r] found]|].
  { exfalso. injection Hc as -> -> -> ->. unfold CommandReplay in Hreplay. apply guard_ok in Hreplay as [_ Hreplay].
    apply res_bind_ok in Hreplay as ([[[??]?]|] & _ & Hreplay); [|done].
    apply guard_ok in Hreplay as [_ Hreplay]. by injection Hreplay. }
  apply res_bind_ok in Hc as (definition & Hd & Hc). apply guard_ok in Hc as [Happ Hc].
  apply res_bind_ok in Hc as (resolved & Hres & Hc). destruct resolved as [[environment application] template].
  destruct (sc_NewID call) as [policyID|]; [|done]. apply guard_ok in Hc as [_ Hc]. apply guard_ok in Hc as [_ Hc].
  apply CreatePolicy_fresh in Hc as [-> ->]. exists definition, (environment, application, template).
  bool_prop. by split_and!.
Qed.

(** ** The commands of the service

    They are commands of the store, so what holds in every history of the store
    holds after them. *)

Lemma Create_steps s later call actor input s' a : Create s later call actor input = Ok (s', a) → rtc policy_step later s'.
Proof.
  unfold Create. intros Hc. apply guard_ok in Hc as [_ Hc]. apply res_bind_ok in Hc as ([replay|] & _ & Hc).
  { by injection Hc as <- _. }
  apply res_bind_ok in Hc as (definition & _ & Hc). apply guard_ok in Hc as [_ Hc].
  apply res_bind_ok in Hc as ([[environment application] template] & _ & Hc).
  destruct (sc_NewID call) as [policyID|]; [|done]. apply guard_ok in Hc as [_ Hc]. apply guard_ok in Hc as [_ Hc].
  by eapply rtc_once, step_create.
Qed.

Lemma Revise_steps s later call actor input s' a : Revise s later call actor input = Ok (s', a) → rtc policy_step later s'.
Proof.
  unfold Revise. intros Hr. apply guard_ok in Hr as [_ Hr]. apply res_bind_ok in Hr as ([replay|] & _ & Hr).
  { by injection Hr as <- _. }
  apply res_bind_ok in Hr as (revision & _ & Hr). apply guard_ok in Hr as [_ Hr]. by eapply rtc_once, step_revise.
Qed.

(** C10. What a policy pins decides what is deployed. A policy that the service
    creates pins the intent that the accepted document of its deployment had,
    with the variables it depended on. From then on, of every document that is
    valid and of every image, a deployment goes through - that is, the document
    is rewritten with the image and validated - exactly when the document and
    the variables still have that intent; otherwise it is refused as a conflict,
    never as an invalid template. The document the policy was made from goes
    through. *)
Theorem pinned_intent_gates s later call actor input s' policy revision :
  Create s later call actor input = Ok (s', (policy, revision, false)) →
  let intent := tl_ConfigIntent (rv_Template revision) in
  ∃ deployment bundle dependencies, GetDeployment (ci_TemplateDeploymentID input) = Ok deployment ∧
    sd_EnvironmentID deployment = ci_EnvironmentID input ∧
    sd_ApplicationID deployment = ci_ExpectedApplicationID input ∧
    tl_SourceDeploymentGeneration (rv_Template revision) = sd_Generation deployment ∧
    ProjectedBundle (ci_ServiceActorID input) deployment = Ok bundle ∧
    CanonicalDependencyIntent (bu_Dependencies bundle) (bu_Documents bundle) = Some dependencies ∧
    liveTemplate (sd_ConfigRaw deployment) (Some dependencies) = Ok intent ∧
    ∀ current parsed runtime image found, ParseAndValidate current = (parsed, runtime, []) →
      re_match autoDeployImageRE image = true → gated_by intent (rv_TemplateDigest revision) current found parsed image.
Proof.
  cbv zeta. intros (definition & resolved & _ & Happ & Hres & -> & ->)%Create_creates.
  apply resolveTemplate_pins in Hres as (deployment & bundle & Hd & _ & Henv & Hid & Hb & Ht).
  apply templateOf_pins in Ht as (document & dependencies & _ & _ & Hdep & Hlive & Hv & _ & Hgen).
  exists deployment, bundle, dependencies. split_and!; try done; [congruence|].
  intros current parsed runtime image found Hp Hm. by eapply gate.
Qed.
End pinned.
