(* ===== verification/AutoDeployController.v ===== *)
(** The controller that runs automatic deployments
    ([internal/autodeploy/controller.go]).

    What it does is a sequence of calls - of the store of runs, the verifier of
    releases, the authorizer and the deployment pipeline - each with the answer
    it got.  The answers are the environment's and arbitrary: a record holds
    them, and the clock as the times of its readings.  The goroutine that
    submits and the loop that keeps the lease meet in a [select], so what the
    loop sees is a list of events; when the list ends, the loop still waits.  When
    it cancels the submission it also waits for the goroutine, which the interface
    asks to return promptly, and drops its result.

    The controller is one whose dependencies are set. *)

From Stdlib Require Import Ascii.
From S2P Require Import Prelude Regexp GoStrings Digest Encoding JsonValues Workload AppConfig AutoDeployConfig AutoDeploy.

Open Scope Z_scope.

(** * Errors

    An error is the list of the sentinels it wraps, which [errors.Is] finds. *)

Inductive Sentinel : Set := Invalid | NotFound | Conflict | Unauthorized | NotReady | LeaseLost.

#[export] Instance Sentinel_eq_dec : EqDecision Sentinel.
Proof. solve_decision. Defined.

Definition RunErr : Type := list Sentinel.
Definition Is (e : RunErr) (s : Sentinel) : bool := bool_decide (s ∈ e).

(** * Calls and answers *)

Inductive RunEvent : Type :=
| ClaimNextRun (owner : string) (now : Time) (lease : Duration) (r : res RunErr AutoDeployWork)
| ResolveVerifiedRelease (attemptID : string) (r : res RunErr VerifiedRelease)
| AuthorizeAutoDeploy (actor scope projectID environmentID applicationID : string) (r : option RunErr)
| HeartbeatRun (lease : Lease) (now : Time) (duration : Duration) (r : res RunErr Lease)
| SubmitAutoDeployment (s : Submission)
| PipelineAnswered (r : res RunErr SubmissionReceipt)
| CancelSubmission
| RetryRun (lease : Lease) (code : string) (now availableAt : Time) (r : option RunErr)
| FailRun (lease : Lease) (code : string) (now : Time) (r : option RunErr)
| CompleteRun (lease : Lease) (receipt : SubmissionReceipt) (now : Time) (r : option RunErr).

(** What the [select] of [submitWithHeartbeats] sees: the result, with the
    answer to the heartbeat that follows it; a tick, with the answer to its
    heartbeat; the end of the context. *)
Inductive SelectEvent : Type :=
| Result (r : res RunErr SubmissionReceipt) (renewed : res RunErr Lease)
| Tick (renewed : res RunErr Lease)
| ContextDone (e : RunErr).

Record Answers := mkAnswers {
  an_Claim : res RunErr AutoDeployWork;
  an_Release : res RunErr VerifiedRelease;
  an_Authorized : option RunErr;
  an_Renewed : res RunErr Lease;
  an_Select : list SelectEvent;
  an_Written : option RunErr;
}.

Record Controller := mkController {
  ct_Owner : string;
  ct_LeaseDuration : Duration;
}.

Definition RequiredAutomationScope : string := "app.edit".

(** [heartbeatInterval], of the function that overrides it and of none. *)
Definition heartbeatInterval (override : option (Duration → Duration)) (c : Controller) : Duration :=
  let interval := ct_LeaseDuration c ÷ 3 in
  let default_interval :=
    if interval <? 5 * second then 5 * second
    else if 30 * second <? interval then 30 * second else interval in
  match override with
  | Some f => if 0 <? f (ct_LeaseDuration c) then f (ct_LeaseDuration c) else default_interval
  | None => default_interval
  end.

Definition validController (c : Controller) : bool :=
  negb (is_empty (ct_Owner c) || (128 <? str_len (ct_Owner c)) || (ct_LeaseDuration c <? 15 * second) ||
        (5 * minute <? ct_LeaseDuration c)).

Section controller.
Context `{JSONDecoder}.

Definition validateWork (w : AutoDeployWork) : bool :=
  let policy := wk_Policy w in let revision := wk_Revision w in let run := wk_Run w in let lease := wk_Lease w in
  negb (negb (validPolicy policy) || negb (validRevisionFor revision policy) || negb (validRun run) ||
        negb (py_CurrentRevision policy =? rv_Revision revision) || negb (rv_Enabled revision) ||
        negb (String.eqb (rn_PolicyID run) (py_ID policy)) ||
        negb (rn_PolicyRevision run =? rv_Revision revision) ||
        negb (String.eqb (rn_TemplateDigest run) (rv_TemplateDigest revision)) ||
        negb (String.eqb (rn_SourceDeploymentID run) (tl_SourceDeploymentID (rv_Template revision))) ||
        negb (rn_SourceDeploymentGeneration run =? tl_SourceDeploymentGeneration (rv_Template revision)) ||
        negb (String.eqb (rn_SourceConfigETag run) (tl_SourceConfigETag (rv_Template revision))) ||
        negb (String.eqb (lz_AttemptID lease) (rn_AttemptID run)) ||
        negb (String.eqb (lz_PolicyID lease) (py_ID policy)) || is_empty (lz_Owner lease) ||
        (lz_Epoch lease <? 1) || is_zero_time (lz_Until lease)).

Definition releaseMatches (release : VerifiedRelease) (w : AutoDeployWork) : bool :=
  negb (negb (validRelease release) || negb (String.eqb (ve_AttemptID release) (rn_AttemptID (wk_Run w))) ||
        negb (String.eqb (ve_DefinitionID release) (rn_DefinitionID (wk_Run w))) ||
        negb (String.eqb (ve_DefinitionDigest release) (rn_DefinitionDigest (wk_Run w))) ||
        negb (String.eqb (ve_ProjectID release) (py_ProjectID (wk_Policy w))) ||
        negb (String.eqb (ve_ApplicationID release) (py_ApplicationID (wk_Policy w))) ||
        negb (String.eqb (ve_ReleaseID release) (rn_ReleaseID (wk_Run w)))).

Definition submissionOf (w : AutoDeployWork) (release : VerifiedRelease) : Submission :=
  let policy := wk_Policy w in let revision := wk_Revision w in let run := wk_Run w in
  mkSubmission (rv_ServiceActorID revision) (rn_IdempotencyKey run) ("auto-deploy/" +:+ rn_AttemptID run)
    (rn_AttemptID run) (py_ID policy) (rv_Revision revision) (py_ProjectID policy) (py_ApplicationID policy)
    (py_EnvironmentID policy) (ve_Image release) (tl_ConfigIntent (rv_Template revision)) (rv_TemplateDigest revision)
    (tl_SourceDeploymentID (rv_Template revision)) (tl_SourceDeploymentGeneration (rv_Template revision))
    (tl_SourceConfigETag (rv_Template revision)).

(** ** The submission under heartbeats *)

Inductive SubmitOutcome : Type :=
| Submitted (receipt : SubmissionReceipt) (lease : Lease)
| SubmitFailed (lease : Lease) (e : RunErr)
| HeartbeatFailed (e : RunErr).

(** [n] is the number of the clock's next reading. *)
Fixpoint submitLoop (clock : nat → Time) (duration : Duration) (n : nat) (lease : Lease) (events : list SelectEvent)
    : list RunEvent * option (SubmitOutcome * nat) :=
  match events with
  | [] => ([], None)
  | Result (Err e) _ :: _ => ([PipelineAnswered (Err e)], Some (SubmitFailed lease e, n))
  | Result (Ok receipt) renewed :: _ =>
      ([PipelineAnswered (Ok receipt); HeartbeatRun lease (clock n) duration renewed],
       Some (match renewed with Ok updated => Submitted receipt updated | Err e => HeartbeatFailed e end, S n))
  | Tick (Ok updated) :: rest =>
      let '(calls, outcome) := submitLoop clock duration (S n) updated rest in
      (HeartbeatRun lease (clock n) duration (Ok updated) :: calls, outcome)
  | Tick (Err e) :: _ =>
      ([HeartbeatRun lease (clock n) duration (Err e); CancelSubmission], Some (HeartbeatFailed e, S n))
  | ContextDone e :: _ => ([CancelSubmission], Some (HeartbeatFailed e, n))
  end.

Definition submitWithHeartbeats (clock : nat → Time) (duration : Duration) (n : nat) (lease : Lease)
    (submission : Submission) (events : list SelectEvent) : list RunEvent * option (SubmitOutcome * nat) :=
  let '(calls, outcome) := submitLoop clock duration n lease events in
  (SubmitAutoDeployment submission :: calls, outcome).

(** ** One run *)

Definition handle (clock : nat → Time) (n : nat) (lease : Lease) (code : string) (cause : RunErr)
    (written : option RunErr) : RunEvent :=
  if Is cause Invalid || Is cause Conflict then FailRun lease code (clock n) written
  else RetryRun lease code (clock n) (clock (S n) + minute) written.

(** Whether there was a run, and the error; [None] while it still waits. *)
Definition reconciled : Type := list RunEvent * option (bool * option RunErr).

Definition ended (calls : list RunEvent) (last : RunEvent) (written : option RunErr) : reconciled :=
  ((calls ++ [last])%list, Some (true, written)).

Definition validReceipt (receipt : SubmissionReceipt) : bool :=
  negb (negb (is_uuid (rc_OperationID receipt)) || negb (is_uuid (rc_DeploymentID receipt))).

(** From the outcome of the submission on. *)
Definition finish (clock : nat → Time) (calls : list RunEvent) (outcome : option (SubmitOutcome * nat))
    (written : option RunErr) : reconciled :=
  match outcome with
  | None => (calls, None)
  | Some (HeartbeatFailed e, _) => (calls, Some (true, Some e))
  | Some (SubmitFailed lease e, n) =>
      ended calls (handle clock n lease "auto-deploy-submit-unavailable" e written) written
  | Some (Submitted receipt lease, n) =>
      if validReceipt receipt then ended calls (CompleteRun lease receipt (clock n) written) written
      else ended calls (FailRun lease "auto-deploy-receipt-invalid" (clock n) written) written
  end.

Definition ReconcileNext (c : Controller) (clock : nat → Time) (a : Answers) : reconciled :=
  if negb (validController c) then ([], Some (false, Some [Invalid])) else
  let claim := ClaimNextRun (ct_Owner c) (clock 0%nat) (ct_LeaseDuration c) (an_Claim a) in
  match an_Claim a with
  | Err e => ([claim], Some (false, if Is e NotFound then None else Some e))
  | Ok work =>
      let lease := wk_Lease work in
      let failed calls code := ended calls (FailRun lease code (clock 1%nat) (an_Written a)) (an_Written a) in
      if negb (validateWork work) then failed [claim] "auto-deploy-input-invalid" else
      let resolve := ResolveVerifiedRelease (rn_AttemptID (wk_Run work)) (an_Release a) in
      match an_Release a with
      | Err e =>
          ended [claim; resolve] (handle clock 1 lease "auto-deploy-release-unavailable" e (an_Written a)) (an_Written a)
      | Ok release =>
          if negb (releaseMatches release work) then failed [claim; resolve] "auto-deploy-release-mismatch" else
          let authorize := AuthorizeAutoDeploy (rv_ServiceActorID (wk_Revision work)) RequiredAutomationScope
            (py_ProjectID (wk_Policy work)) (py_EnvironmentID (wk_Policy work)) (py_ApplicationID (wk_Policy work))
            (an_Authorized a) in
          match an_Authorized a with
          | Some e =>
              ended [claim; resolve; authorize]
                (handle clock 1 lease "auto-deploy-authorization-unavailable" e (an_Written a)) (an_Written a)
          | None =>
              let heartbeat := HeartbeatRun lease (clock 1%nat) (ct_LeaseDuration c) (an_Renewed a) in
              let calls := [claim; resolve; authorize; heartbeat] in
              match an_Renewed a with
              | Err e => (calls, Some (true, Some e))
              | Ok lease =>
                  let submission := submissionOf work release in
                  if negb (validSubmission submission)
                  then ended calls (FailRun lease "auto-deploy-command-invalid" (clock 2%nat) (an_Written a)) (an_Written a)
                  else
                    let '(more, outcome) :=
                      submitWithHeartbeats clock (ct_LeaseDuration c) 2 lease submission (an_Select a) in
                    finish clock (calls ++ more)%list outcome (an_Written a)
              end
          end
      end
  end.
End controller.
