(* ===== verification/AutoDeployControllerFacts.v ===== *)
(** What a run of the controller promises: it writes only under the lease it
    holds, last and once, and it submits only what a policy pinned of a release
    that was verified. *)

From Stdlib Require Import Ascii.
From S2P Require Import Prelude Regexp GoStrings Digest Encoding JsonValues Versions Workload AppConfig AutoDeployConfig AutoDeploy AutoDeployController.

Open Scope list_scope.
Open Scope Z_scope.

(** * The interval of heartbeats *)

(** A lease outlives three heartbeats. *)
Lemma heartbeatInterval_bounds c : validController c = true →
  let interval := heartbeatInterval None c in
  5 * second ≤ interval ≤ 30 * second ∧ 3 * interval ≤ ct_LeaseDuration c.
Proof.
  unfold validController, heartbeatInterval. intros Hc. bool_prop. cbv zeta. set (d := ct_LeaseDuration c) in *.
  assert (15 * second = 15000000000 ∧ 5 * second = 5000000000 ∧ 30 * second = 30000000000) as (E1 & E2 & E3) by done.
  rewrite E1 in *. rewrite E2, E3 in *. assert (0 ≤ d) as Hd by lia. rewrite Z.quot_div_nonneg by lia.
  pose proof (Z.mul_div_le d 3 ltac:(lia)). pose proof (Z.div_le_lower_bound d 3 5000000000 ltac:(lia)).
  destruct (Z.ltb_spec (d / 3) 5000000000); [lia|]. destruct (Z.ltb_spec 30000000000 (d / 3)); lia.
Qed.

(** * Fenced traces *)

(** The lease of the run after a call, as the store answered. *)
Definition after (held : option Lease) (e : RunEvent) : option Lease :=
  match e with
  | ClaimNextRun _ _ _ (Ok work) => Some (wk_Lease work)
  | HeartbeatRun _ _ _ (Ok lease) => Some lease
  | ClaimNextRun _ _ _ (Err _) | HeartbeatRun _ _ _ (Err _) => None
  | _ => held
  end.

(** The lease a call presents to the store, and whether it changes the run. *)
Definition presents (e : RunEvent) : option Lease :=
  match e with
  | HeartbeatRun lease _ _ _ | RetryRun lease _ _ _ _ | FailRun lease _ _ _ | CompleteRun lease _ _ _ => Some lease
  | _ => None
  end.

Definition writesRun (e : RunEvent) : Prop :=
  match e with RetryRun _ _ _ _ _ | FailRun _ _ _ _ | CompleteRun _ _ _ _ => True | _ => False end.

(** Every call presents the lease that is held, and a write is the last call. *)
Fixpoint fenced (held : option Lease) (calls : list RunEvent) : Prop :=
  match calls with
  | [] => True
  | e :: rest => (∀ lease, presents e = Some lease → held = Some lease) ∧ (writesRun e → rest = []) ∧ fenced (after held e) rest
  end.

Section facts.
Context `{JSONDecoder}.

Definition fenced_outcome (outcome : option (SubmitOutcome * nat)) (tail : list RunEvent) : Prop :=
  match outcome with
  | Some (SubmitFailed lease _, _) | Some (Submitted _ lease, _) => fenced (Some lease) tail
  | _ => tail = []
  end.

Lemma submitLoop_fenced clock duration events : ∀ n lease calls outcome tail,
  submitLoop clock duration n lease events = (calls, outcome) → fenced_outcome outcome tail →
  fenced (Some lease) (calls ++ tail).
Proof.
  induction events as [|e events IH]; intros n lease calls outcome tail; cbn [submitLoop].
  { by intros [= <- <-] ->. }
  destruct e as [[receipt|e] renewed|[updated|e]|e].
  - intros [= <- <-] Ht. simpl. split_and!; try done. destruct renewed; simpl in *; [done|by subst].
  - intros [= <- <-] Ht. by simpl.
  - destruct (submitLoop clock duration (S n) updated events) as [more out] eqn:Hl. intros [= <- <-] Ht.
    simpl. split_and!; try done. by eapply IH.
  - intros [= <- <-] ->. by simpl.
  - intros [= <- <-] ->. by simpl.
Qed.

Lemma submitLoop_answers clock duration events : ∀ n lease calls receipt renewed m,
  submitLoop clock duration n lease events = (calls, Some (Submitted receipt renewed, m)) →
  PipelineAnswered (Ok receipt) ∈ calls.
Proof.
  induction events as [|e events IH]; intros n lease calls receipt renewed m; cbn [submitLoop]; [done|].
  destruct e as [[r|e] [l|e']|[updated|e]|e]; try (by intros [=]).
  - intros [= <- <- _ _]. left.
  - destruct (submitLoop clock duration (S n) updated events) as [more out] eqn:Hl. intros [= <- ->]. right. by eapply IH.
Qed.

Lemma submitLoop_silent clock duration events : ∀ n lease calls outcome e,
  submitLoop clock duration n lease events = (calls, outcome) → e ∈ calls →
  match e with HeartbeatRun _ _ _ _ | PipelineAnswered _ | CancelSubmission => True | _ => False end.
Proof.
  induction events as [|x events IH]; intros n lease calls outcome e; cbn [submitLoop]; [by intros [= <- _] ?%elem_of_nil|].
  destruct x as [[r|x] renewed|[updated|x]|x];
    try (intros [= <- _]; rewrite ?elem_of_cons, elem_of_nil; naive_solver).
  destruct (submitLoop clock duration (S n) updated events) as [more out] eqn:Hl. intros [= <- _] [-> |Hin]%elem_of_cons; [done|].
  by eapply IH.
Qed.

(** The wait ends with an answer, a lost lease or the context. *)
Definition endsWait (e : SelectEvent) : Prop :=
  match e with Tick (Ok _) => False | _ => True end.

Lemma submitLoop_returns clock duration events : ∀ n lease, Exists endsWait events →
  is_Some (submitLoop clock duration n lease events).2.
Proof.
  induction events as [|e events IH]; intros n lease Hends; [by inversion Hends|]. cbn [submitLoop].
  destruct e as [[receipt|e] renewed|[updated|e]|e]; try by eexists.
  apply Exists_cons in Hends as [[]|Hends]. specialize (IH (S n) updated Hends).
  by destruct (submitLoop clock duration (S n) updated events).
Qed.

(** The write of [handle] presents the lease it was given. *)
Lemma handle_fenced clock n lease code cause written : fenced (Some lease) [handle clock n lease code cause written].
Proof. unfold handle. destruct (_ || _); simpl; split_and!; try done; by intros ? [= ->]. Qed.

Lemma finish_fenced clock duration lease submission events before outcome calls written :
  submitWithHeartbeats clock duration 2 lease submission events = (calls, outcome) →
  (∀ tail, fenced (Some lease) tail → fenced None (before ++ tail)) →
  (∀ e, e ∈ before → ¬ writesRun e) →
  let r := finish clock (before ++ calls) outcome written in
  fenced None r.1 ∧
  (∀ l receipt now w, CompleteRun l receipt now w ∈ r.1 → PipelineAnswered (Ok receipt) ∈ r.1 ∧ validReceipt receipt = true) ∧
  (Exists endsWait events → is_Some r.2).
Proof.
  unfold submitWithHeartbeats. destruct (submitLoop clock duration 2 lease events) as [more out] eqn:Hl.
  intros [= <- <-] Hbefore Hquiet.
  pose proof (submitLoop_fenced _ _ _ _ _ _ _ [] Hl) as Hempty.
  assert (∀ tail, fenced_outcome out tail → fenced None ((before ++ SubmitAutoDeployment submission :: more) ++ tail)) as Hall.
  { intros tail Ht. rewrite <- app_assoc. apply Hbefore. simpl. split_and!; [done|done|]. by eapply submitLoop_fenced. }
  assert (∀ l receipt now w, CompleteRun l receipt now w ∉ before ++ SubmitAutoDeployment submission :: more) as Hno.
  { intros l receipt now w [Hin|[Hin|Hin]%elem_of_cons]%elem_of_app; [by apply Hquiet in Hin|done|].
    by apply (submitLoop_silent _ _ _ _ _ _ _ _ Hl) in Hin. }
  pose proof (submitLoop_returns clock duration events 2 lease) as Hreturns. rewrite Hl in Hreturns. cbn [snd] in Hreturns.
  destruct out as [[[receipt l|l e|e] n]|]; unfold finish, ended; cbn [fst snd].
  - assert (PipelineAnswered (Ok receipt) ∈ before ++ SubmitAutoDeployment submission :: more) as Hans
      by (apply elem_of_app; right; right; by eapply submitLoop_answers).
    destruct (validReceipt receipt) eqn:Hv; cbn [fst snd]; split_and!; try (by intros; eexists).
    + apply Hall. simpl. split_and!; try done.
    + intros l' r' now' w' [Hin|Hin]%elem_of_app; [by apply Hno in Hin|].
      apply list_elem_of_singleton in Hin as [= -> -> -> ->]. split; [|done]. apply elem_of_app. by left.
    + apply Hall. simpl. split_and!; try done.
    + intros l' r' now' w' [Hin|Hin]%elem_of_app; [by apply Hno in Hin|]. by apply list_elem_of_singleton in Hin.
  - split_and!; try (by intros; eexists).
    + apply Hall. simpl. apply handle_fenced.
    + intros l' r' now' w' [Hin|Hin]%elem_of_app; [by apply Hno in Hin|].
      apply list_elem_of_singleton in Hin. unfold handle in Hin. by destruct (_ || _).
  - split_and!; try (by intros; eexists).
    + specialize (Hall [] eq_refl). by rewrite app_nil_r in Hall.
    + intros l' r' now' w' Hin. by apply Hno in Hin.
  - split_and!.
    + specialize (Hall [] eq_refl). by rewrite app_nil_r in Hall.
    + intros l' r' now' w' Hin. by apply Hno in Hin.
    + intros Hends. by apply Hreturns, is_Some_None in Hends.
Qed.

(** ** A run *)

Definition isComplete (e : RunEvent) : bool := match e with CompleteRun _ _ _ _ => true | _ => false end.

(** A run that ends before it submits completes nothing. *)
Lemma unsubmitted calls result events : existsb isComplete calls = false → fenced None calls → is_Some result →
  let r : reconciled := (calls, result) in
  fenced None r.1 ∧
  (∀ l receipt now w, CompleteRun l receipt now w ∈ r.1 → PipelineAnswered (Ok receipt) ∈ r.1 ∧ validReceipt receipt = true) ∧
  (Exists endsWait events → is_Some r.2).
Proof.
  intros Hno Hf Hr. split_and!; [done| |done]. intros l receipt now w Hin. cbn [fst] in Hin.
  rewrite (proj2 (existsb_elem_of _ _)) in Hno; [done|]. by exists (CompleteRun l receipt now w).
Qed.

Lemma handle_incomplete clock n lease code cause written : isComplete (handle clock n lease code cause written) = false.
Proof. unfold handle. by destruct (_ || _). Qed.

Ltac early :=
  apply unsubmitted;
    [cbn; by rewrite ?handle_incomplete
    |unfold handle; try case_match; cbn; split_and?; try done; by intros ? [= <-]
    |by eexists].

(** C11. The lease fences every run. Whatever the store, the verifier, the
    authorizer, the pipeline and the clock answer, in whatever order ticks and
    the result arrive: each call of the store presents the lease that the store
    gave last, none follows a renewal that failed, and a run is written at most
    once, by the last call. It is completed only with a valid receipt that the
    pipeline answered. A run returns when the wait for the pipeline ends. *)
Theorem reconcile_fenced c clock a :
  let r := ReconcileNext c clock a in
  fenced None r.1 ∧
  (∀ lease receipt now written, CompleteRun lease receipt now written ∈ r.1 →
     PipelineAnswered (Ok receipt) ∈ r.1 ∧ validReceipt receipt = true) ∧
  (Exists endsWait (an_Select a) → is_Some r.2).
Proof.
  cbv zeta. unfold ReconcileNext, ended.
  destruct (validController c); cbn [negb]; [|early].
  destruct (an_Claim a) as [work|e] eqn:Hclaim; [|early].
  destruct (validateWork work); cbn [negb]; [|early].
  destruct (an_Release a) as [release|e]; [|early].
  destruct (releaseMatches release work); cbn [negb]; [|early].
  destruct (an_Authorized a) as [e|]; [early|].
  destruct (an_Renewed a) as [lease|e]; [|early].
  destruct (validSubmission _); cbn [negb]; [|early].
  destruct (submitWithHeartbeats _ _ _ _ _ _) as [calls outcome] eqn:Hs.
  eapply finish_fenced; [exact Hs| |].
  - intros tail Ht. simpl. by split_and!; try by intros ? [= <-].
  - intros e Hin. repeat (apply elem_of_cons in Hin as [->|Hin]; [by intros []|]). by apply elem_of_nil in Hin.
Qed.
(** ** Submissions *)

(** The text of a policy, a revision and an attempt tells them apart. *)
Lemma uuid_no_slash s : is_uuid s = true → count_byte "/" s = 0.
Proof.
  intros Hs%re_match_spec. apply count_byte_none. eapply re_within_spec; [|exact Hs].
  unfold uuid_re. cbn [re_within RTimes RLit]. split_and!; try done; intros c Hc ->; by vm_compute in Hc.
Qed.

Lemma IdempotencyKey_inj p r a p' r' a' : is_uuid p = true → is_uuid p' = true → 1 ≤ r → 1 ≤ r' →
  IdempotencyKey p r a = IdempotencyKey p' r' a' → p = p' ∧ r = r' ∧ a = a'.
Proof.
  intros Hp Hp' Hr Hr' Heq%(inj (String.append _)).
  apply (f_equal (split_once "/")) in Heq. change ("/" +:+ ?x) with (String "/" x) in Heq.
  rewrite !split_once_app in Heq by by apply uuid_no_slash. injection Heq as -> Heq.
  apply (f_equal (split_once "/")) in Heq. change ("/" +:+ ?x) with (String "/" x) in Heq.
  rewrite !split_once_app in Heq by (apply format_count; [lia|done]). injection Heq as Heq ->.
  split_and!; [done| |done]. unfold format_int in Heq. by apply (inj pretty.pretty) in Heq.
Qed.

(** The calls of a run that submits [s] for [work], of the one that verified its
    release on. *)
Definition vouched (c : Controller) (work : AutoDeployWork) (release : VerifiedRelease) (s : Submission)
    (calls : list RunEvent) : Prop :=
  validateWork work = true ∧ releaseMatches release work = true ∧ s = submissionOf work release ∧
  validSubmission s = true ∧
  ∃ before now renewed more,
    calls = [ClaimNextRun (ct_Owner c) before (ct_LeaseDuration c) (Ok work);
             ResolveVerifiedRelease (sb_AttemptID s) (Ok release);
             AuthorizeAutoDeploy (sb_ActorID s) RequiredAutomationScope (sb_ProjectID s) (sb_EnvironmentID s)
               (sb_ApplicationID s) None;
             HeartbeatRun (wk_Lease work) now (ct_LeaseDuration c) (Ok renewed);
             SubmitAutoDeployment s] ++ more ∧
    ∀ s', SubmitAutoDeployment s' ∉ more.

Lemma finish_calls clock calls outcome written : ∃ last, (finish clock calls outcome written).1 = calls ++ last ∧
  ∀ s, SubmitAutoDeployment s ∉ last.
Proof.
  destruct outcome as [[[receipt l|l e|e] n]|]; unfold finish, ended, handle; cbn [fst].
  all: try case_match; try (eexists [_]; split; [done|]; intros s Hs%list_elem_of_singleton; done).
  all: exists []; split; [by rewrite app_nil_r|]; by intros s ?%elem_of_nil.
Qed.

Lemma validSubmission_key s : validSubmission s = true →
  sb_IdempotencyKey s = IdempotencyKey (sb_PolicyID s) (sb_PolicyRevision s) (sb_AttemptID s) ∧
  is_uuid (sb_PolicyID s) = true ∧ 1 ≤ sb_PolicyRevision s.
Proof. unfold validSubmission. intros Hv. bool_prop. split_and!; [done|done|lia]. Qed.

Ltac silent Hin := unfold handle in Hin; repeat case_match; cbn [app fst] in Hin; rewrite ?elem_of_cons, elem_of_nil in Hin; naive_solver.

Lemma reconcile_submits c clock a s : SubmitAutoDeployment s ∈ (ReconcileNext c clock a).1 →
  ∃ work release, vouched c work release s (ReconcileNext c clock a).1.
Proof.
  unfold ReconcileNext, ended.
  destruct (validController c); cbn [negb]; [|intros Hin; silent Hin].
  destruct (an_Claim a) as [work|e]; [|intros Hin; silent Hin].
  destruct (validateWork work) eqn:Hwork; cbn [negb]; [|intros Hin; silent Hin].
  destruct (an_Release a) as [release|e]; [|intros Hin; silent Hin].
  destruct (releaseMatches release work) eqn:Hrelease; cbn [negb]; [|intros Hin; silent Hin].
  destruct (an_Authorized a) as [e|]; [intros Hin; silent Hin|].
  destruct (an_Renewed a) as [renewed|e]; [|intros Hin; silent Hin].
  destruct (validSubmission (submissionOf work release)) eqn:Hv; cbn [negb]; [|intros Hin; silent Hin].
  unfold submitWithHeartbeats. destruct (submitLoop _ _ _ _ _) as [calls outcome] eqn:Hs.
  destruct (finish_calls clock ([ClaimNextRun (ct_Owner c) (clock 0%nat) (ct_LeaseDuration c) (Ok work);
     ResolveVerifiedRelease (rn_AttemptID (wk_Run work)) (Ok release);
     AuthorizeAutoDeploy (rv_ServiceActorID (wk_Revision work)) RequiredAutomationScope (py_ProjectID (wk_Policy work))
       (py_EnvironmentID (wk_Policy work)) (py_ApplicationID (wk_Policy work)) None;
     HeartbeatRun (wk_Lease work) (clock 1%nat) (ct_LeaseDuration c) (Ok renewed)] ++
     SubmitAutoDeployment (submissionOf work release) :: calls) outcome (an_Written a)) as (last & -> & Hlast).
  assert (∀ s', SubmitAutoDeployment s' ∉ calls ++ last) as Hmore.
  { intros s' [Hin|Hin]%elem_of_app; [by apply (submitLoop_silent _ _ _ _ _ _ _ _ Hs) in Hin|by apply Hlast in Hin]. }
  cbn [app]. intros Hin. do 4 (apply elem_of_cons in Hin as [[=]|Hin]).
  apply elem_of_cons in Hin as [[= ->]|Hin]; [|by apply Hmore in Hin].
  exists work, release. split_and!; [done..|]. by exists (clock 0%nat), (clock 1%nat), renewed, (calls ++ last).
Qed.

(** C13. A submission is vouched for. A run that submits to the pipeline claimed
    its work, which was valid as a whole; got a verified release of that very
    attempt, definition, project and application; was authorized then for
    [app.edit] as the service account of the revision; renewed its lease; and
    submitted once, what the revision pinned with the image of that release. Two
    submissions with the same idempotency key, of whatever runs, are of the same
    attempt under the same revision of the same policy, so that the next owner
    of a run repeats a command and never makes a new one. *)
Theorem submission_vouched c clock a s : SubmitAutoDeployment s ∈ (ReconcileNext c clock a).1 →
  (∃ work release, vouched c work release s (ReconcileNext c clock a).1) ∧
  ∀ c' clock' a' s', SubmitAutoDeployment s' ∈ (ReconcileNext c' clock' a').1 →
    sb_IdempotencyKey s' = sb_IdempotencyKey s →
    sb_PolicyID s' = sb_PolicyID s ∧ sb_PolicyRevision s' = sb_PolicyRevision s ∧ sb_AttemptID s' = sb_AttemptID s.
Proof.
  intros Hin%reconcile_submits. split; [done|]. intros c' clock' a' s' Hin'%reconcile_submits Heq.
  destruct Hin as (? & ? & _ & _ & _ & Hv & _), Hin' as (? & ? & _ & _ & _ & Hv' & _).
  apply validSubmission_key in Hv as (Hk & Hu & Hr), Hv' as (Hk' & Hu' & Hr'). rewrite Hk, Hk' in Heq.
  by apply IdempotencyKey_inj in Heq.
Qed.
End facts.
