(* ===== verification/AutoDeployExamples.v ===== *)
(** A policy of a concrete application, from its creation to a deployment: the
    theorems of AutoDeployPolicyFacts and AutoDeployControllerFacts at work. *)

From Stdlib Require Import Ascii.
From S2P Require Import Prelude Regexp GoStrings Digest Encoding JsonValues JsonEncoding Workload AppConfig AppConfigFacts AppConfigSafety AutoDeployConfig AutoDeployConfigSafety.
From S2P Require Import Access ControlModel ControlAccess ControlSteps AutoDeploy AutoDeployService AutoDeployPolicyFacts AutoDeployController AutoDeployControllerFacts.

Open Scope Z_scope.

#[local] Existing Instance forward_order.

(** * The store of an application *)

(** The [i]th identifier that the call [n] draws. *)
Definition drawn (n : string) (i : nat) : string :=
  "0000000" +:+ n +:+ "-0000-4000-8000-00000000000" +:+ format_int (Z.of_nat i).

Definition callAt (n : string) (at_hour : Z) : Call := mkCall (at_hour * hour) (drawn n).

Definition adminID : string := drawn "0" 0.
Definition teamID : string := drawn "2" 0.
Definition projectID : string := drawn "3" 0.
Definition environmentID : string := drawn "4" 0.
Definition applicationID : string := drawn "5" 0.
Definition accountID : string := drawn "6" 0.

Definition calls : list (Call * Request) :=
  [(callAt "1" 1, BootstrapAdminR (mkUser adminID "root@kuberploy.io" "Root" "platform-admin" "kuberploy:bootstrap" "root" 1 0)
      "hash" (replicate 32 1) (100 * hour));
   (callAt "2" 2, CreateTeamR adminID "k2" "fp2" "Core" "core");
   (callAt "3" 3, CreateProjectR adminID "k3" "fp3" "Shop" "shop" teamID);
   (callAt "4" 4, CreateEnvironmentR adminID "k4" "fp4" projectID "Production" "prod" "development");
   (callAt "5" 5, CreateApplicationR adminID "k5" "fp5" projectID "" "API" "api" "oci");
   (callAt "6" 6, CreateServiceAccountR adminID "k6" "fp6" projectID "ci" RoleDeveloper)].

Definition shopStore : Store :=
  foldl (λ s cr, match serve s cr.1 cr.2 with Ok s' => s' | Err _ => s end) New calls.

Example shop_store : (size (s_users shopStore), present (s_applications shopStore !! applicationID),
  present (s_environments shopStore !! environmentID), present (s_serviceAccounts shopStore !! accountID)) =
  (2%nat, true, true, true).
Proof. vm_compute. reflexivity. Qed.

(** * What the service reads *)

#[local] Instance policyLibraries : Libraries :=
  tableLibraries [(currentLine, shop); (deployedText, deployed)] shopRuntime.

Definition dependenciesValue : value := VArray (map dependencyValue parents).
Definition boundIntent : members_of := put autoDeployDependenciesKey dependenciesValue shopIntent.

(** A decoder that knows some values by their text. *)
#[local] Instance policyDecoder : JSONDecoder := {|
  json_decode text :=
    (λ v, (v, "")) <$> find (λ v, String.eqb (Marshal v) text) [VObject shopIntent; dependenciesValue; VObject boundIntent];
  float_text text := text;
|}.

Definition deploymentID : string := drawn "7" 0.
Definition sourceDeployment : SourceDeployment :=
  mkSourceDeployment deploymentID applicationID environmentID 4 "current".

Definition quoted (s : string) : string := String "034" (s +:+ String "034" "").

Definition projected : Bundle :=
  mkBundle (quoted ("cfg-sha256-" +:+ str_join "" (repeat "c" 64)))
    [mkDocument "projects/shop/variables.yaml" "" "blob" ("sha256:" +:+ str_join "" (repeat "b" 64)) "" true;
     mkDocument "apps/shop/app.yaml" applicationID "app-blob" ("sha256:" +:+ str_join "" (repeat "d" 64)) "current" true]
    [mkState "projects/shop/variables.yaml" true "blob"; mkState "environments/shop/variables.yaml" false ""].

#[local] Instance shopCatalog : PolicyCatalog := {|
  BuildDefinitionIdentity application := Ok (mkSource (drawn "8" 0) projectID application);
  GetApplication id := match s_applications shopStore !! id with Some a => Ok a | None => Err (BaseErr ErrNotFound) end;
  GetEnvironment id := match s_environments shopStore !! id with Some e => Ok e | None => Err (BaseErr ErrNotFound) end;
  GetDeployment id := if String.eqb id deploymentID then Ok sourceDeployment else Err (BaseErr ErrNotFound);
  GetServiceAccount id := match s_serviceAccounts shopStore !! id with Some a => Ok a | None => Err (BaseErr ErrNotFound) end;
  ProjectedBundle _ _ := Ok projected;
|}.

Example parents_of_bundle : CanonicalDependencyIntent (bu_Dependencies projected) (bu_Documents projected) = Some parents.
Proof. vm_compute. reflexivity. Qed.

(** * A policy *)

Definition someDigest : string := "sha256:" +:+ str_join "" (repeat "e" 64).

Definition creation : CreatePolicyInput :=
  mkCreatePolicy applicationID "" environmentID deploymentID accountID true "key-1" someDigest "request-1".

Definition before : PolicyStore := noPolicies shopStore.

Definition created : res PolicyErr (PolicyStore * answer) :=
  Create before before (mkServiceCall (Some (drawn "9" 0)) (9 * hour)) adminID creation.

(** What a command left and answered. *)
Definition stateOf {A} (s : PolicyStore) (m : res PolicyErr (PolicyStore * A)) : PolicyStore :=
  match m with Ok (s', _) => s' | Err _ => s end.

Definition noPolicy : Policy := mkPolicy "" "" "" "" "" 0 "" 0.
Definition noRevision : Revision := mkRevision "" 0 false (mkTemplate "" 0 "" "") "" "" "" 0.

Definition answerOf (m : res PolicyErr (PolicyStore * answer)) : answer :=
  match m with Ok (_, a) => a | Err _ => (noPolicy, noRevision, true) end.

Definition isAnswered {A} (m : res PolicyErr A) : bool := match m with Ok _ => true | Err _ => false end.

Lemma answered m s : isAnswered m = true → m = Ok (stateOf s m, answerOf m).
Proof. destruct m as [[s' a]|]; done. Qed.

Definition afterCreation : PolicyStore := stateOf before created.
Definition policy : Policy := (answerOf created).1.1.
Definition firstRevision : Revision := (answerOf created).1.2.

Lemma created_answered : created = Ok (afterCreation, answerOf created).
Proof. apply answered. vm_compute. reflexivity. Qed.

Example created_policy : ((answerOf created).2, py_CurrentRevision policy, rv_Enabled firstRevision,
  String.eqb (tl_ConfigIntent (rv_Template firstRevision)) (Marshal (VObject boundIntent))) = (false, 1, true, true).
Proof. vm_compute. reflexivity. Qed.

(** The administrator disables it. *)
Definition disabled : res PolicyErr (PolicyStore * answer) :=
  Revise afterCreation afterCreation (mkServiceCall None (10 * hour)) adminID
    (mkRevisePolicy policy firstRevision "" "" false "key-2" someDigest "request-2").

Definition afterDisabling : PolicyStore := stateOf afterCreation disabled.

Lemma disabled_answered : disabled = Ok (afterDisabling, answerOf disabled).
Proof. apply answered. vm_compute. reflexivity. Qed.

(** A repetition of the creation is answered with what was made then, and a
    second policy for the destination is refused. *)
Example repeated :
  let again := Create afterDisabling afterDisabling (mkServiceCall None 0) adminID creation in
  let second := Create afterDisabling afterDisabling (mkServiceCall (Some (drawn "1" 0)) (9 * hour)) adminID
    (mkCreatePolicy applicationID "" environmentID deploymentID accountID true "key-3" someDigest "request-3") in
  (py_CurrentRevision (answerOf again).1.1, rv_Enabled (answerOf again).1.2, (answerOf again).2, second) =
  (2, true, true, Err (BaseErr ErrConflict)).
Proof. vm_compute. reflexivity. Qed.

Lemma policy_history_witness :
  (size (st_policies afterDisabling), size (revisionsOf afterDisabling (py_ID policy))) = (1, 2)%nat ∧
  policies_wf afterDisabling ∧ extends afterCreation afterDisabling.
Proof.
  split; [vm_compute; reflexivity|].
  apply (policy_history afterCreation afterDisabling).
  - exists shopStore. exact (Create_steps _ _ _ _ _ _ _ created_answered).
  - exact (Revise_steps _ _ _ _ _ _ _ disabled_answered).
Defined.

(** * A deployment under the policy *)

Lemma created_fresh : created = Ok (afterCreation, (policy, firstRevision, false)).
Proof.
  assert ((answerOf created).2 = false) as <- by (vm_compute; reflexivity).
  rewrite created_answered at 1. unfold policy, firstRevision. by destruct (answerOf created) as [[p r] found].
Qed.

(** What was built is deployed while the document is what it was; other
    variables are a conflict. *)
Example gates :
  let deploy found := ApplyAutoDeployImageWithDependencies "current" (tl_ConfigIntent (rv_Template firstRevision))
    (rv_TemplateDigest firstRevision) newImage found in
  (cd_Parsed (deploy (Some parents)), map dg_Code (cd_Diagnostics (deploy (Some parents))),
   map dg_Code (cd_Diagnostics (deploy None))) = (Some deployed, [], ["AutoDeployTemplateConflict"]).
Proof. vm_compute. reflexivity. Qed.

Lemma pinned_intent_gates_witness :
  gated_by (tl_ConfigIntent (rv_Template firstRevision)) (rv_TemplateDigest firstRevision) "current" (Some parents)
    (Some shop) newImage.
Proof.
  destruct (pinned_intent_gates _ _ _ _ _ _ _ _ created_fresh)
    as (source & bundle & dependencies & _ & _ & _ & _ & _ & _ & _ & Hgate).
  apply (Hgate "current" (Some shop) shopRuntime).
  - vm_compute. reflexivity.
  - vm_compute. reflexivity.
Defined.

(** * A run of the controller *)

Definition attemptID : string := drawn "a" 0.

Definition run : Run :=
  mkRun attemptID (py_ID policy) 1 (drawn "8" 0) someDigest (drawn "b" 0) (rv_TemplateDigest firstRevision)
    deploymentID 4 (tl_SourceConfigETag (rv_Template firstRevision)) (IdempotencyKey (py_ID policy) 1 attemptID)
    RunProcessing "" "" "" 1 (10 * hour) (10 * hour) (10 * hour) None.

Definition leaseUntil (minutes : Z) : Lease := mkLease attemptID (py_ID policy) "worker" 1 (10 * hour + minutes * minute).

Definition work : AutoDeployWork := mkWork policy firstRevision run (leaseUntil 1).

Definition release : VerifiedRelease :=
  mkVerified attemptID (drawn "8" 0) someDigest projectID applicationID (drawn "b" 0) newImage
    (str_join "" (repeat "f" 40)) (10 * hour).

Definition receipt : SubmissionReceipt := mkReceipt (drawn "c" 0) deploymentID false.
Definition worker : Controller := mkController "worker" minute.
Definition clock (n : nat) : Time := 10 * hour + Z.of_nat n * second.

(** The pipeline answers after a tick. *)
Definition answers : Answers :=
  mkAnswers (Ok work) (Ok release) None (Ok (leaseUntil 2))
    [Tick (Ok (leaseUntil 3)); Result (Ok receipt) (Ok (leaseUntil 4))] None.

Definition submitted : Submission := submissionOf work release.

Example reconciled_run : ReconcileNext worker clock answers =
  ([ClaimNextRun "worker" (clock 0) minute (Ok work); ResolveVerifiedRelease attemptID (Ok release);
    AuthorizeAutoDeploy accountID "app.edit" projectID environmentID applicationID None;
    HeartbeatRun (leaseUntil 1) (clock 1) minute (Ok (leaseUntil 2)); SubmitAutoDeployment submitted;
    HeartbeatRun (leaseUntil 2) (clock 2) minute (Ok (leaseUntil 3)); PipelineAnswered (Ok receipt);
    HeartbeatRun (leaseUntil 3) (clock 3) minute (Ok (leaseUntil 4));
    CompleteRun (leaseUntil 4) receipt (clock 4) None], Some (true, None)).
Proof. vm_compute. reflexivity. Qed.

(** The lease ran out; another worker takes the run over, and the context ends
    while it waits. *)
Definition successor : Controller := mkController "successor" (2 * minute).

Definition takenOver : AutoDeployWork :=
  mkWork policy firstRevision run (mkLease attemptID (py_ID policy) "successor" 2 (11 * hour)).

Definition interrupted : Answers :=
  mkAnswers (Ok takenOver) (Ok release) None (Ok (wk_Lease takenOver)) [ContextDone []] None.

Definition again : Submission := submissionOf takenOver release.

Example interrupted_run : ReconcileNext successor clock interrupted =
  ([ClaimNextRun "successor" (clock 0) (2 * minute) (Ok takenOver); ResolveVerifiedRelease attemptID (Ok release);
    AuthorizeAutoDeploy accountID "app.edit" projectID environmentID applicationID None;
    HeartbeatRun (wk_Lease takenOver) (clock 1) (2 * minute) (Ok (wk_Lease takenOver)); SubmitAutoDeployment again;
    CancelSubmission], Some (true, Some [])).
Proof. vm_compute. reflexivity. Qed.

Lemma submission_vouched_witness :
  (∃ w r, vouched worker w r submitted (ReconcileNext worker clock answers).1) ∧
  sb_PolicyID again = sb_PolicyID submitted ∧ sb_PolicyRevision again = sb_PolicyRevision submitted ∧
  sb_AttemptID again = sb_AttemptID submitted.
Proof.
  destruct (submission_vouched worker clock answers submitted) as [Hvouched Hsame].
  { rewrite reconciled_run. do 4 right. left. }
  split; [exact Hvouched|]. apply (Hsame successor clock interrupted again).
  - rewrite interrupted_run. do 4 right. left.
  - vm_compute. reflexivity.
Defined.
