(* ===== verification/Variables.v ===== *)
(** Variables of projects and environments ([internal/variables/variables.go]):
    the parser of a VariableSet document and the resolution of its values with
    the variables of an application.

    The YAML decoder is a parameter.  A diagnostic has the fields of one of
    [internal/appconfig], a pointer is escaped as there. *)

From Stdlib Require Import Ascii.
From S2P Require Import Prelude Regexp GoStrings JsonValues JsonEncoding Workload AppConfig.

Open Scope Z_scope.

Definition APIVersion : string := "variables.kuberploy.io/v1alpha1".
Definition Kind : string := "VariableSet".
Definition MaxDocumentBytes : Z := 128 * 1024.
Definition MaxVariables : Z := 256.
Definition MaxValueBytes : Z := 4096.
Definition MaxAggregateBytes : Z := 256 * 1024.

Inductive Scope : Set := ScopeProject | ScopeEnvironment | ScopeApplication.

#[export] Instance Scope_eq_dec : EqDecision Scope.
Proof. solve_decision. Defined.

Record VariableDocument := mkVariables {
  vd_Values : gmap string string;
  vd_Parsed : list (string * value);
}.

(** [Document{}] *)
Definition noVariables : VariableDocument := mkVariables ∅ [].

Record Override := mkOverride {
  ov_Scope : Scope;
  ov_Value : string;
  ov_Secret : bool;
}.

Record Effective := mkEffective {
  ef_Name : string;
  ef_Value : option string;
  ef_SecretRef : option SecretBindingRef;
  ef_Source : Scope;
  ef_Overrides : list Override;
}.

(** * Parsing *)

Inductive NodeKind : Set := DocumentNode | SequenceNode | MappingNode | ScalarNode | AliasNode.

#[export] Instance NodeKind_eq_dec : EqDecision NodeKind.
Proof. solve_decision. Defined.

(** [yaml.Node]; whether there is an alias, rather than the node it is one of. *)
Inductive Node : Type :=
| mkYaml (kind : NodeKind) (Anchor : string) (alias : bool) (Tag Value : string) (Line Column : Z) (Content : list Node).

Definition nd_Kind (n : Node) : NodeKind := match n with mkYaml kind _ _ _ _ _ _ _ => kind end.
Definition nd_Tag (n : Node) : string := match n with mkYaml _ _ _ tag _ _ _ _ => tag end.
Definition nd_Value (n : Node) : string := match n with mkYaml _ _ _ _ text _ _ _ => text end.
Definition nd_Line (n : Node) : Z := match n with mkYaml _ _ _ _ _ line _ _ => line end.
Definition nd_Column (n : Node) : Z := match n with mkYaml _ _ _ _ _ _ column _ => column end.
Definition nd_Content (n : Node) : list Node := match n with mkYaml _ _ _ _ _ _ _ content => content end.

(** What [Decode] returns, call after call, until the end of the input. *)
Class YAMLDecoder := { yaml_documents : string → list (res string Node) }.

(** A key that is an ordinary string. *)
Definition ordinaryKey (n : Node) : bool :=
  negb (negb (bool_decide (nd_Kind n = ScalarNode)) || negb (String.eqb (nd_Tag n) "!!str") || String.eqb (nd_Value n) "<<").

(** The loops over the children of a node, where [validate] is for a child.
    Those of a mapping are keys and values in turn; the decoder makes them in
    pairs. *)
Section children.
Variable validate : string → Node → option Diagnostic.

Fixpoint validateEntries (pointer : string) (seen : gset string) (content : list Node) : option Diagnostic :=
  match content with
  | key :: node :: rest =>
      if negb (ordinaryKey key)
      then Some (mkDiagnostic "InvalidKey" "YAML mapping keys must be ordinary strings." pointer (nd_Line key) (nd_Column key))
      else
        let childPointer := pointer +:+ "/" +:+ escape (nd_Value key) in
        if bool_decide (nd_Value key ∈ seen)
        then Some (mkDiagnostic "DuplicateKey" "YAML mapping keys must be unique." childPointer (nd_Line key) (nd_Column key))
        else
          match validate childPointer node with
          | Some d => Some d
          | None => validateEntries pointer ({[nd_Value key]} ∪ seen) rest
          end
  | _ => None
  end.

Fixpoint validateElements (pointer : string) (index : nat) (content : list Node) : option Diagnostic :=
  match content with
  | [] => None
  | child :: rest =>
      match validate (at_index pointer index) child with
      | Some d => Some d
      | None => validateElements pointer (S index) rest
      end
  end.

Fixpoint validateChildren (pointer : string) (content : list Node) : option Diagnostic :=
  match content with
  | [] => None
  | child :: rest => match validate pointer child with Some d => Some d | None => validateChildren pointer rest end
  end.
End children.

Fixpoint validateYAMLNode (pointer : string) (node : Node) : option Diagnostic :=
  match node with
  | mkYaml kind anchor alias tag _ line column content =>
      if negb (is_empty anchor) || alias || negb (is_empty tag) && negb (has_prefix "!!" tag)
      then Some (mkDiagnostic "UnsafeYAML" "YAML anchors, aliases, merge keys, and custom tags are not accepted." pointer line column)
      else
        match kind with
        | MappingNode => validateEntries validateYAMLNode pointer ∅ content
        | SequenceNode => validateElements validateYAMLNode pointer 0 content
        | _ => validateChildren validateYAMLNode pointer content
        end
  end.

Fixpoint pairs {A} (l : list A) : list (A * A) :=
  match l with
  | key :: node :: rest => (key, node) :: pairs rest
  | _ => []
  end.

Definition mappingFields (node : Node) : gmap string Node :=
  foldl (λ m entry, <[nd_Value entry.1 := entry.2]> m) ∅ (pairs (nd_Content node)).

(** A node that is missing is nil. *)
Definition scalar (node : option Node) : string :=
  match node with
  | Some n => if negb (bool_decide (nd_Kind n = ScalarNode)) || negb (String.eqb (nd_Tag n) "!!str") then "" else nd_Value n
  | None => ""
  end.

Definition isNameStart (c : ascii) : bool := is_one_of "_" c || is_letter c.
Definition isNameByte (c : ascii) : bool := isNameStart c || is_digit c.

Definition validName (name : string) : bool :=
  negb ((str_len name =? 0) || (128 <? str_len name)) &&
  match name with
  | "" => true
  | String first rest => isNameStart first && forallb isNameByte (String.list_ascii_of_string rest)
  end.

Definition invalidName : string :=
  "Variable names must match [A-Za-z_][A-Za-z0-9_]* and contain at most 128 bytes.".
Definition invalidString : string :=
  "Variable values must be explicit YAML strings; quote values that resemble numbers or booleans.".
Definition invalidBytes : string :=
  "Variable values must be valid UTF-8 without NUL bytes and at most " +:+ format_int MaxValueBytes +:+ " bytes.".
Definition tooLarge : string :=
  "Variable names and values may total at most " +:+ format_int MaxAggregateBytes +:+ " bytes.".

(** The loop over the entries, with the total of the bytes so far. *)
Fixpoint readValues (total : Z) (values : gmap string string) (entries : list (Node * Node))
    : res Diagnostic (gmap string string) :=
  match entries with
  | [] => Ok values
  | (key, node) :: rest =>
      let name := nd_Value key in
      let pointer := "/values/" +:+ escape name in
      let text := nd_Value node in
      guard! validName name else mkDiagnostic "InvalidName" invalidName pointer (nd_Line key) (nd_Column key) in
      guard! negb (negb (bool_decide (nd_Kind node = ScalarNode)) || negb (String.eqb (nd_Tag node) "!!str"))
        else mkDiagnostic "InvalidValue" invalidString pointer (nd_Line node) (nd_Column node) in
      guard! negb ((MaxValueBytes <? str_len text) || negb (valid_utf8 text) || str_contains (String "000" "") text)
        else mkDiagnostic "InvalidValue" invalidBytes pointer (nd_Line node) (nd_Column node) in
      let total := total + (str_len name + str_len text) in
      guard! negb (MaxAggregateBytes <? total) else diagnostic "VariablesTooLarge" tooLarge "/values" in
      readValues total (<[name := text]> values) rest
  end.

Definition invalidDocument (detail : string) : Diagnostic := diagnostic "InvalidDocument" detail "".

Definition allowedField (key : string) : bool :=
  String.eqb key "apiVersion" || String.eqb key "kind" || String.eqb key "values".

(** [map[string]any] of the document; a JSON object is sorted by its keys. *)
Definition parsedOf (values : gmap string string) : list (string * value) :=
  [("apiVersion", VString APIVersion); ("kind", VString Kind);
   ("values", VObject (foldr (λ kv m, put kv.1 (VString kv.2) m) [] (map_to_list values)))].

Definition MarshalParsed (document : VariableDocument) : string := Marshal (VObject (vd_Parsed document)).

Section parsing.
Context `{MapOrder} `{YAMLDecoder}.

(** The one mapping of the YAML stream. *)
Definition readMapping (raw : string) : res Diagnostic Node :=
  match yaml_documents raw with
  | [] => Err (diagnostic "InvalidYAML" "EOF" "")
  | Err message :: _ => Err (diagnostic "InvalidYAML" (bounded message 512) "")
  | Ok _ :: Ok _ :: _ => Err (diagnostic "MultipleDocuments" "VariableSet must contain exactly one YAML document." "")
  | Ok _ :: Err message :: _ => Err (diagnostic "InvalidYAML" (bounded message 512) "")
  | [Ok root] =>
      match nd_Content root with
      | [top] =>
          if bool_decide (nd_Kind top = MappingNode) then Ok top
          else Err (invalidDocument "VariableSet must be a YAML mapping.")
      | _ => Err (invalidDocument "VariableSet must be a YAML mapping.")
      end
  end.

(** The values of the top mapping. *)
Definition valuesNode (top : Node) : res Diagnostic Node :=
  let fields := mappingFields top in
  match find (λ kv, negb (allowedField kv.1)) (range 20 fields) with
  | Some (key, node) =>
      Err (mkDiagnostic "UnknownField" "VariableSet contains an unsupported top-level field." ("/" +:+ escape key)
             (nd_Line node) (nd_Column node))
  | None =>
      guard! String.eqb (scalar (fields !! "apiVersion")) APIVersion
        else diagnostic "InvalidAPIVersion" ("apiVersion must be " +:+ APIVersion +:+ ".") "/apiVersion" in
      guard! String.eqb (scalar (fields !! "kind")) Kind
        else diagnostic "InvalidKind" "kind must be VariableSet." "/kind" in
      match fields !! "values" with
      | Some node =>
          if bool_decide (nd_Kind node = MappingNode) then Ok node
          else Err (diagnostic "InvalidValues" "values must be a mapping of variable names to strings." "/values")
      | None => Err (diagnostic "InvalidValues" "values must be a mapping of variable names to strings." "/values")
      end
  end.

(** A document, or the one diagnostic. *)
Definition ParseAndValidate (raw : string) : res Diagnostic VariableDocument :=
  guard! negb ((str_len raw =? 0) || (MaxDocumentBytes <? str_len raw))
    else invalidDocument ("VariableSet must be between 1 and " +:+ format_int MaxDocumentBytes +:+ " bytes.") in
  guard! negb (str_contains (String "000" "") raw || negb (valid_utf8 raw))
    else invalidDocument "VariableSet must be valid UTF-8 without NUL bytes." in
  let* top := readMapping raw in
  match validateYAMLNode "" top with
  | Some d => Err d
  | None =>
      let* node := valuesNode top in
      guard! negb (MaxVariables <? Z.of_nat (length (nd_Content node)) ÷ 2)
        else diagnostic "TooManyVariables" ("VariableSet supports at most " +:+ format_int MaxVariables +:+ " values.") "/values" in
      let* values := readValues 0 ∅ (pairs (nd_Content node)) in
      Ok (mkVariables values (parsedOf values))
  end.

End parsing.

(** * Resolution *)

Record candidate := mkCandidate {
  cn_env : WorkloadEnv;
  cn_source : Scope;
  cn_history : list Override;
}.

Definition overrideOf (c : candidate) : Override :=
  match en_Value (cn_env c) with
  | Some text => mkOverride (cn_source c) text false
  | None => mkOverride (cn_source c) "" true
  end.

(** The history of the candidate that comes after the one of a name. *)
Definition shadowed (merged : gmap string candidate) (name : string) : list Override :=
  match merged !! name with
  | Some current =>
      if is_empty (en_Name (cn_env current)) then cn_history current
      else (cn_history current ++ [overrideOf current])%list
  | None => []
  end.

Definition setValue (scope : Scope) (values : gmap string string) (merged : gmap string candidate) (name : string)
    : gmap string candidate :=
  <[name := mkCandidate (mkEnv name (Some (default "" (values !! name))) None) scope (shadowed merged name)]> merged.

Definition setEnv (merged : gmap string candidate) (env : WorkloadEnv) : gmap string candidate :=
  <[en_Name env := mkCandidate env ScopeApplication (shadowed merged (en_Name env))]> merged.

Definition effectiveOf (merged : gmap string candidate) (name : string) : Effective :=
  match merged !! name with
  | Some (mkCandidate env source history) =>
      mkEffective name (en_Value env) (match en_Value env with Some _ => None | None => en_ValueFrom env end) source history
  | None => mkEffective name None None ScopeProject []
  end.

(** The runtime that lends its environment to the validator. *)
Definition environmentOf (application : slice WorkloadEnv) : WorkloadRuntime :=
  mkRuntime "" 1 "" None None "" "" None (Some [mkPort "http" 8080 0 "TCP"]) application
    (mkResources DefaultCPURequest DefaultMemoryRequest) None None None None None "" None.

Section resolution.
Context `{MapOrder}.

Definition applyValues (scope : Scope) (values : gmap string string) (merged : gmap string candidate)
    : gmap string candidate :=
  foldl (setValue scope values) merged (sort_strings (range 21 values).*1).

Definition environmentProblems (application : slice WorkloadEnv) : problems :=
  List.filter (λ problem, has_prefix "/runtime/env" (we_Pointer problem))
    (ValidateWorkloadRuntime (environmentOf application)).

Definition Resolve (project environment : VariableDocument) (application : slice WorkloadEnv)
    : res problems (list Effective) :=
  let merged := applyValues ScopeEnvironment (vd_Values environment) (applyValues ScopeProject (vd_Values project) ∅) in
  match environmentProblems application with
  | [] =>
      let merged := foldl setEnv merged (items application) in
      Ok (map (effectiveOf merged) (sort_strings (range 22 merged).*1))
  | problems => Err problems
  end.

End resolution.

Definition runtimeEnv (e : Effective) : WorkloadEnv :=
  match ef_Value e with
  | Some text => mkEnv (ef_Name e) (Some text) None
  | None => mkEnv (ef_Name e) None (ef_SecretRef e)
  end.

Definition RuntimeEnv (effective : list Effective) : slice WorkloadEnv := Some (map runtimeEnv effective).
