(* ===== verification/VariableCompiler.v ===== *)
(** The effective runtime environment of an application
    ([internal/variablecompiler/compiler.go]): the projected documents of its
    project and its environment, checked against their indexed states, and its
    own variables.

    Every error is [ErrInvalid], so a function answers an option. *)

From S2P Require Import Prelude Regexp GoStrings JsonValues Workload AppConfig AutoDeployConfig AutoDeploy Variables.

Open Scope Z_scope.

Record Resolution := mkResolution {
  rs_Effective : list Effective;
  rs_Runtime : WorkloadRuntime;
}.

(** A runtime with another environment. *)
Definition rt_set_Env (env : slice WorkloadEnv) (r : WorkloadRuntime) : WorkloadRuntime :=
  mkRuntime (rt_WorkloadType r) (rt_Replicas r) (rt_StrategyType r) (rt_Command r) (rt_Args r) (rt_WorkingDirectory r)
    (rt_PodManagementPolicy r) (rt_TerminationGracePeriodSeconds r) (rt_Ports r) env (rt_Requests r) (rt_Limits r)
    (rt_NodeSelector r) (rt_Affinity r) (rt_TopologySpreadConstraints r) (rt_Tolerations r) (rt_PriorityClassName r)
    (rt_Probes r).

(** The documents of no application by path; [None] when two have the same. *)
Fixpoint parentsByPath (m : gmap string Document) (documents : list Document) : option (gmap string Document) :=
  match documents with
  | [] => Some m
  | d :: rest =>
      if negb (is_empty (dc_ApplicationID d)) then parentsByPath m rest
      else if bool_decide (is_Some (m !! dc_Path d)) then None
      else parentsByPath (<[dc_Path d := d]> m) rest
  end.

(** [States] wants no other documents. *)
Fixpoint onlyParents (m : gmap string Document) (documents : list Document) : option (gmap string Document) :=
  match documents with
  | [] => Some m
  | d :: rest =>
      if negb (is_empty (dc_ApplicationID d)) || bool_decide (is_Some (m !! dc_Path d)) then None
      else onlyParents (<[dc_Path d := d]> m) rest
  end.

Section compiler.
Context `{MapOrder} `{YAMLDecoder}.

Definition parentValues (documents : gmap string Document) (state : DependencyState) : option VariableDocument :=
  match ds_Present state, documents !! ds_Path state with
  | false, Some _ => None
  | false, None => if is_empty (ds_BlobID state) then Some noVariables else None
  | true, None => None
  | true, Some document =>
      if negb (dc_Valid document) || is_empty (ds_BlobID state) || negb (String.eqb (ds_BlobID state) (dc_BlobID document))
      then None
      else match Variables.ParseAndValidate (dc_Raw document) with Ok parsed => Some parsed | Err _ => None end
  end.

Definition Resolve (states : list DependencyState) (documents : list Document) (application : WorkloadRuntime)
    : option Resolution :=
  match states with
  | [first; second] =>
      if is_empty (ds_Path first) || is_empty (ds_Path second) || String.eqb (ds_Path first) (ds_Path second) then None
      else
        documents ← parentsByPath ∅ documents;
        project ← parentValues documents first;
        environment ← parentValues documents second;
        match Variables.Resolve project environment (rt_Env application) with
        | Err _ => None
        | Ok effective =>
            let runtime := rt_set_Env (RuntimeEnv effective) (NormalizeWorkloadRuntime application) in
            match ValidateWorkloadRuntime runtime with
            | [] => Some (mkResolution effective runtime)
            | _ => None
            end
        end
  | _ => None
  end.
End compiler.

(** The states in the order of the paths, and the documents that are left. *)
Definition takeState (acc : list DependencyState * gmap string Document) (path : string)
    : list DependencyState * gmap string Document :=
  match acc.2 !! path with
  | Some document => ((acc.1 ++ [mkState path true (dc_BlobID document)])%list, delete path acc.2)
  | None => ((acc.1 ++ [mkState path false ""])%list, acc.2)
  end.

Definition States (paths : list string) (documents : list Document) : option (list DependencyState) :=
  if negb (length paths =? 2)%nat then None
  else
    documents ← onlyParents ∅ documents;
    let '(states, others) := foldl takeState ([], documents) paths in
    if (size others =? 0)%nat then Some states else None.
