(* ===== verification/VariableFacts.v ===== *)
(** What the variables of an application are: the values its VariableSets hold,
    and which of them its processes see; with a concrete application at the
    end. *)

From Stdlib Require Import Ascii.
From S2P Require Import Prelude Regexp GoStrings JsonValues JsonEncoding Workload WorkloadFacts AppConfig AutoDeployConfig AutoDeploy Variables VariableCompiler.

Open Scope list_scope.
Open Scope Z_scope.

(** * Lists *)

Lemma filter_key k (l : list string) : NoDup l →
  List.filter (λ x, String.eqb x k) l = if decide (k ∈ l) then [k] else [].
Proof.
  induction 1 as [|x l Hx Hl IH]; [done|]. simpl. rewrite IH. destruct (String.eqb_spec x k) as [->|Hne].
  - rewrite decide_False by done. by rewrite decide_True by left.
  - destruct (decide (k ∈ l)); [by rewrite decide_True by by right|].
    rewrite decide_False; [done|]. intros [->|Hin]%elem_of_cons; done.
Qed.

Lemma filter_none {A} (key : A → string) k (l : list A) : k ∉ key <$> l → List.filter (λ x, String.eqb (key x) k) l = [].
Proof.
  induction l as [|x l IH]; [done|]. rewrite fmap_cons, elem_of_cons. intros Hk. simpl.
  destruct (String.eqb_spec (key x) k) as [Heq|]; [destruct Hk; by left|]. apply IH. tauto.
Qed.

(** A loop that writes each key of a map once. *)
Lemma foldl_insert {A B} (key : A → string) (g : A → option B → B) l : NoDup (key <$> l) → ∀ (m : gmap string B) k,
  foldl (λ m x, <[key x := g x (m !! key x)]> m) m l !! k =
  match List.filter (λ x, String.eqb (key x) k) l with x :: _ => Some (g x (m !! k)) | [] => m !! k end.
Proof.
  induction l as [|x l IH]; intros Hnd m k; [done|]. rewrite fmap_cons in Hnd. apply NoDup_cons in Hnd as [Hx Hnd].
  simpl. rewrite (IH Hnd). destruct (String.eqb_spec (key x) k) as [<-|Hne].
  - by rewrite filter_none, lookup_insert_eq.
  - by rewrite lookup_insert_ne.
Qed.

(** * Resolution *)

Section resolution.
Context `{MapOrder}.

(** ** The layers of a name

    What the project, the environment and the application say of it, the one
    that counts last. *)

Definition inherited (scope : Scope) (values : gmap string string) (name : string) : list (Scope * WorkloadEnv) :=
  match values !! name with Some text => [(scope, mkEnv name (Some text) None)] | None => [] end.

Definition own (application : list WorkloadEnv) (name : string) : list (Scope * WorkloadEnv) :=
  match List.filter (λ e, String.eqb (en_Name e) name) application with e :: _ => [(ScopeApplication, e)] | [] => [] end.

Definition layers (project environment : gmap string string) (application : list WorkloadEnv) (name : string)
    : list (Scope * WorkloadEnv) :=
  inherited ScopeProject project name ++ inherited ScopeEnvironment environment name ++ own application name.

(** An override tells the value of a variable, of a secret only that it is one. *)
Definition disclosed (layer : Scope * WorkloadEnv) : Override :=
  match en_Value layer.2 with Some text => mkOverride layer.1 text false | None => mkOverride layer.1 "" true end.

Definition resolved (project environment : gmap string string) (application : list WorkloadEnv) (name : string)
    : option Effective :=
  let stack := layers project environment application name in
  match last stack with
  | Some (scope, env) =>
      Some (mkEffective name (en_Value env) (match en_Value env with Some _ => None | None => en_ValueFrom env end) scope
              (map disclosed (removelast stack)))
  | None => None
  end.

(** ** The code computes it *)

Lemma lookup_applyValues scope values merged name :
  applyValues scope values merged !! name =
  match values !! name with
  | Some text => Some (mkCandidate (mkEnv name (Some text) None) scope (shadowed merged name))
  | None => merged !! name
  end.
Proof.
  unfold applyValues. set (names := sort_strings (range 21 values).*1).
  assert (NoDup names) as Hnd.
  { unfold names, sort_strings. rewrite sort_slice_permutation. apply range_NoDup. }
  assert (name ∈ names ↔ name ∈ dom values) as Hin.
  { unfold names, sort_strings. by rewrite elem_of_sort_slice, range_keys. }
  unfold setValue, shadowed.
  rewrite (foldl_insert id (λ x old, mkCandidate (mkEnv x (Some (default "" (values !! x))) None) scope
    (match old with Some c => if is_empty (en_Name (cn_env c)) then cn_history c else cn_history c ++ [overrideOf c] | None => [] end)))
    by by rewrite list_fmap_id.
  simpl. rewrite filter_key by done. destruct (values !! name) as [text|] eqn:Hv.
  - rewrite decide_True by (apply Hin, elem_of_dom; by eexists). by rewrite Hv.
  - rewrite decide_False; [done|]. rewrite Hin, not_elem_of_dom. done.
Qed.

Lemma lookup_setEnvs application merged name : NoDup (en_Name <$> application) →
  foldl setEnv merged application !! name =
  match List.filter (λ e, String.eqb (en_Name e) name) application with
  | e :: _ => Some (mkCandidate e ScopeApplication (shadowed merged name))
  | [] => merged !! name
  end.
Proof.
  intros Hnd. unfold setEnv, shadowed.
  rewrite (foldl_insert en_Name (λ x old, mkCandidate x ScopeApplication
    (match old with Some c => if is_empty (en_Name (cn_env c)) then cn_history c else cn_history c ++ [overrideOf c] | None => [] end)))
    by done.
  by destruct (List.filter _ application) as [|e rest].
Qed.
(** ** The check of the application's own variables *)

Lemma validateEnv_pointers env problem : ∀ index seen,
  problem ∈ validateEnv index seen env → has_prefix "/runtime/env" (we_Pointer problem) = true.
Proof.
  assert (∀ index suffix, has_prefix "/runtime/env" (at_index "/runtime/env" index +:+ suffix) = true) as Hp.
  { intros. unfold at_index. rewrite !str_app_assoc. apply has_prefix_app. }
  assert (∀ index, has_prefix "/runtime/env" (at_index "/runtime/env" index) = true) as Hp'.
  { intros. apply has_prefix_app. }
  induction env as [|e env IH]; intros index seen; cbn [validateEnv]; [by intros ?%elem_of_nil|].
  rewrite !elem_of_app. intros [Hin|[Hin|[Hin|Hin]]]; [..|by eapply IH].
  all: unfold validateEnvValue, add_if in Hin; repeat case_match; try (by apply elem_of_nil in Hin).
  all: apply list_elem_of_singleton in Hin as ->; cbn [we_Pointer]; auto.
Qed.

Lemma environmentProblems_nil application : environmentProblems application = [] →
  NoDup (en_Name <$> items application) ∧ ∀ e, e ∈ items application → envAllowed e.
Proof.
  unfold environmentProblems, ValidateWorkloadRuntime. rewrite !List.filter_app, !app_nil. intros (_&_&_&_&_&Henv&_).
  assert (validateEnv 0 ∅ (items application) = []) as Hnil.
  { destruct (validateEnv 0 ∅ (items application)) as [|problem rest] eqn:Hv; [done|].
    assert (problem ∈ problem :: rest) as Hin by left. rewrite <- Hv in Hin. apply validateEnv_pointers in Hin.
    cbn [environmentOf rt_Env] in Henv. rewrite Hv in Henv. simpl in Henv. by rewrite Hin in Henv. }
  apply validateEnv_nil in Hnil as [Hnd Hall]. split; [done|]. intros e He. by apply Hall.
Qed.

Definition named (values : gmap string string) : Prop := values !! "" = None.

(** The candidates after the three stages. *)
Definition merged (project environment : gmap string string) (application : list WorkloadEnv) : gmap string candidate :=
  foldl setEnv (applyValues ScopeEnvironment environment (applyValues ScopeProject project ∅)) application.

Lemma named_nonempty values name text : named values → values !! name = Some text → is_empty name = false.
Proof. intros Hn Hv. destruct name; [by rewrite Hn in Hv|done]. Qed.

Lemma lookup_merged project environment application name :
  named project → named environment → NoDup (en_Name <$> application) →
  merged project environment application !! name =
  (λ layer, mkCandidate layer.2 layer.1 (map disclosed (removelast (layers project environment application name)))) <$>
    last (layers project environment application name).
Proof.
  intros Hp He Hnd. unfold merged. rewrite lookup_setEnvs by done. unfold shadowed.
  rewrite !lookup_applyValues. unfold shadowed. rewrite !lookup_applyValues. unfold shadowed. rewrite !lookup_empty.
  unfold layers, inherited, own.
  destruct (project !! name) as [v|] eqn:Ep; [pose proof (named_nonempty _ _ _ Hp Ep) as Hne|].
  all: destruct (environment !! name) as [w|] eqn:Ee; [pose proof (named_nonempty _ _ _ He Ee) as Hne'|].
  all: destruct (List.filter _ application) as [|x rest]; simpl; rewrite ?Hne, ?Hne'; reflexivity.
Qed.

Lemma effective_resolved project environment application name :
  named project → named environment → NoDup (en_Name <$> application) →
  resolved project environment application name =
  (λ _, effectiveOf (merged project environment application) name) <$> merged project environment application !! name.
Proof.
  intros Hp He Hnd. unfold effectiveOf, resolved. rewrite lookup_merged by done.
  by destruct (last _) as [[scope env]|].
Qed.

Lemma Resolve_spec project environment application effective :
  named (vd_Values project) → named (vd_Values environment) →
  Variables.Resolve project environment application = Ok effective →
  StronglySorted String.le (ef_Name <$> effective) ∧ NoDup (ef_Name <$> effective) ∧
  ∀ e, e ∈ effective ↔ resolved (vd_Values project) (vd_Values environment) (items application) (ef_Name e) = Some e.
Proof.
  intros Hp He Hr. unfold Variables.Resolve in Hr.
  destruct (environmentProblems application) eqn:Happ; [|done]. apply environmentProblems_nil in Happ as [Hnd _].
  fold (merged (vd_Values project) (vd_Values environment) (items application)) in Hr.
  set (m := merged _ _ _) in *. set (names := sort_strings (range 22 m).*1) in *. injection Hr as <-.
  assert (∀ name, ef_Name (effectiveOf m name) = name) as Hname.
  { intros name. unfold effectiveOf. by destruct (m !! name) as [[env source history]|]. }
  assert (ef_Name <$> map (effectiveOf m) names = names) as ->.
  { clear -Hname. induction names as [|x l IH]; [done|]. cbn [map]. by rewrite fmap_cons, Hname, IH. }
  split_and!; [apply sort_strings_sorted|unfold names, sort_strings; rewrite sort_slice_permutation; apply range_NoDup|].
  assert (∀ name, name ∈ names ↔ is_Some (m !! name)) as Hin.
  { intros name. unfold names, sort_strings. by rewrite elem_of_sort_slice, range_keys, elem_of_dom. }
  intros e. rewrite effective_resolved by done. fold m. split.
  - intros (name & -> & [c Hc]%Hin)%list_elem_of_fmap. by rewrite Hname, Hc.
  - intros (c & Hc & Heq)%fmap_Some. apply list_elem_of_fmap. exists (ef_Name e). split; [done|]. apply Hin. by exists c.
Qed.

(** C30. Variables take precedence. For the values of a project and of an
    environment and for the variables of an application that are accepted, the
    effective variables are one for every name that any of the three has,
    sorted: the application's if it has one, else the environment's, else the
    project's, with that scope; what it overrides is told in order, and no
    override carries a secret. *)
Theorem effective_precedence project environment application effective :
  named (vd_Values project) → named (vd_Values environment) →
  Variables.Resolve project environment application = Ok effective →
  StronglySorted String.le (ef_Name <$> effective) ∧ NoDup (ef_Name <$> effective) ∧
  ∀ e, e ∈ effective ↔ resolved (vd_Values project) (vd_Values environment) (items application) (ef_Name e) = Some e.
Proof. apply Resolve_spec. Qed.
End resolution.

(** * Parsing *)

(** The entries of a mapping come in pairs. *)
Lemma pairs_ind {A} (P : list A → Prop) : P [] → (∀ x, P [x]) → (∀ x y l, P l → P (x :: y :: l)) → ∀ l, P l.
Proof.
  intros H0 H1 H2. assert (∀ n l, (length l < n)%nat → P l) as Hlen; [|intros l; by apply (Hlen (S (length l))); lia].
  induction n as [|n IH]; [lia|]. intros [|x [|y l]] Hl; [done|done|]. apply H2, IH. simpl in Hl. lia.
Qed.

Lemma length_pairs {A} (l : list A) : Z.of_nat (length (pairs l)) = Z.of_nat (length l) ÷ 2.
Proof.
  rewrite Z.quot_div_nonneg by lia. induction l as [|x|x y l IH] using pairs_ind; [done|done|]. simpl length.
  replace (Z.of_nat (S (S (length l)))) with (Z.of_nat (length l) + 1 * 2) by lia. rewrite Z.div_add by lia. lia.
Qed.

Definition keys (entries : list (Node * Node)) : list string := (λ entry, nd_Value entry.1) <$> entries.

(** No key of an accepted mapping comes twice. *)
Lemma validate_mapping pointer top : validateYAMLNode pointer top = None → nd_Kind top = MappingNode →
  NoDup (keys (pairs (nd_Content top))) ∧
  ∀ entry, entry ∈ pairs (nd_Content top) → ordinaryKey entry.1 = true ∧ ∃ p, validateYAMLNode p entry.2 = None.
Proof.
  destruct top as [kind anchor alias tag text line column content]. cbn [nd_Kind nd_Content validateYAMLNode].
  intros Hv ->. destruct (_ || _); [done|].
  assert (∀ seen, validateEntries validateYAMLNode pointer seen content = None → NoDup (keys (pairs content)) ∧
    ∀ entry, entry ∈ pairs content →
      nd_Value entry.1 ∉ seen ∧ ordinaryKey entry.1 = true ∧ ∃ p, validateYAMLNode p entry.2 = None) as Hall.
  { clear Hv. induction content as [|x|key node rest IH] using pairs_ind; intros seen; cbn [validateEntries pairs].
    - intros _. split; [constructor|by intros ? ?%elem_of_nil].
    - intros _. split; [constructor|by intros ? ?%elem_of_nil].
    - destruct (ordinaryKey key) eqn:Hkey; cbn [negb]; [|done].
      case_bool_decide as Hseen; [done|]. destruct (validateYAMLNode _ node) eqn:Hnode; [done|].
      intros [Hnd Hrest]%IH. unfold keys. rewrite fmap_cons. split.
      + constructor; [|done]. intros (entry & Heq & Hin)%list_elem_of_fmap. destruct (Hrest entry Hin) as [Hn _]. set_solver.
      + intros entry [->|Hin]%elem_of_cons; [split_and!; [done|done|by eexists]|].
        destruct (Hrest entry Hin) as (Hn & ?). split; [set_solver|done]. }
  apply Hall in Hv as [Hnd He]. split; [done|]. intros entry Hin. by destruct (He entry Hin).
Qed.

(** ** The values *)

Definition bytes (entries : list (Node * Node)) : Z :=
  foldr (λ entry total, str_len (nd_Value entry.1) + str_len (nd_Value entry.2) + total) 0 entries.

(** A name and its value, as a document may give them. *)
Definition acceptable (entry : Node * Node) : Prop :=
  validName (nd_Value entry.1) = true ∧ nd_Kind entry.2 = ScalarNode ∧ nd_Tag entry.2 = "!!str" ∧
  str_len (nd_Value entry.2) ≤ MaxValueBytes ∧ valid_utf8 (nd_Value entry.2) = true ∧
  str_contains (String "000" "") (nd_Value entry.2) = false.

Lemma readValues_spec entries : ∀ total values result, readValues total values entries = Ok result →
  NoDup (keys entries) → 
  (∀ entry, entry ∈ entries → acceptable entry) ∧ (entries ≠ [] → total + bytes entries ≤ MaxAggregateBytes) ∧
  ∀ name text, result !! name = Some text ↔
    (∃ entry, entry ∈ entries ∧ nd_Value entry.1 = name ∧ nd_Value entry.2 = text) ∨
    (name ∉ keys entries ∧ values !! name = Some text).
Proof.
  induction entries as [|[key node] rest IH]; intros total values result; cbn [readValues].
  { intros [= <-] _. split_and!; [by intros ? ?%elem_of_nil|done|]. intros name text. split.
    - right. split; [apply not_elem_of_nil|done].
    - intros [(e & []%elem_of_nil & _)|[_ Hv]]; done. }
  intros Hr Hnd. unfold keys in Hnd. rewrite fmap_cons in Hnd. apply NoDup_cons in Hnd as [Hkey Hnd].
  apply guard_ok in Hr as [Hname Hr]. apply guard_ok in Hr as [Hkind Hr]. apply guard_ok in Hr as [Htext Hr].
  apply guard_ok in Hr as [Htotal Hr]. destruct (IH _ _ _ Hr Hnd) as (Hok & Hsum & Hval). bool_prop.
  split_and!.
  - intros entry [->|Hin]%elem_of_cons; [|by apply Hok]. unfold acceptable. cbn [fst snd]. by split_and!.
  - intros _. cbn [bytes foldr fst snd]. fold (bytes rest). destruct rest as [|e r]; [simpl; lia|].
    specialize (Hsum ltac:(done)). lia.
  - intros name text. rewrite Hval. unfold keys. rewrite fmap_cons, not_elem_of_cons. cbn [fst snd]. split.
    + intros [(e & Hin & ? & ?)|[Hn Hv]]; [left; exists e; split_and!; [by right|done|done]|].
      apply lookup_insert_Some in Hv as [[<- <-]|[Hne Hv]]; [left; exists (key, node); split_and!; [by left|done|done]|].
      right. by split_and!.
    + intros [(e & [->|Hin]%elem_of_cons & <- & <-)|[[Hne Hn] Hv]].
      * right. split; [done|]. apply lookup_insert_eq.
      * left. exists e. by split_and!.
      * right. split; [done|]. by rewrite lookup_insert_ne.
Qed.

(** ** The fields of a mapping *)

Lemma lookup_fields node k n : mappingFields node !! k = Some n →
  ∃ entry, entry ∈ pairs (nd_Content node) ∧ nd_Value entry.1 = k ∧ entry.2 = n.
Proof.
  unfold mappingFields. assert (∀ (m : gmap string Node),
    foldl (λ m entry, <[nd_Value entry.1 := entry.2]> m) m (pairs (nd_Content node)) !! k = Some n →
    (∃ entry, entry ∈ pairs (nd_Content node) ∧ nd_Value entry.1 = k ∧ entry.2 = n) ∨ m !! k = Some n) as Hall.
  { induction (pairs (nd_Content node)) as [|entry rest IH]; intros m; [by right|]. simpl.
    intros [(e & Hin & ?)|Hm]%IH; [left; exists e; by split; [right|]|].
    apply lookup_insert_Some in Hm as [[? ?]|[? ?]]; [left; exists entry; by split; [left|]|by right]. }
  intros [He|Hm]%Hall; [done|]. by rewrite lookup_empty in Hm.
Qed.

Lemma dom_fields node k : is_Some (mappingFields node !! k) ↔ k ∈ keys (pairs (nd_Content node)).
Proof.
  unfold mappingFields, keys. assert (∀ (m : gmap string Node),
    is_Some (foldl (λ m entry, <[nd_Value entry.1 := entry.2]> m) m (pairs (nd_Content node)) !! k) ↔
    k ∈ (λ entry, nd_Value entry.1) <$> pairs (nd_Content node) ∨ is_Some (m !! k)) as Hall.
  { induction (pairs (nd_Content node)) as [|entry rest IH]; intros m; simpl; [rewrite elem_of_nil; tauto|].
    rewrite IH, lookup_insert_is_Some, elem_of_cons.
    destruct (decide (nd_Value entry.1 = k)); naive_solver. }
  rewrite Hall, lookup_empty. split; [intros [?|[? [=]]]; done|by left].
Qed.

Section parsing.
Context `{YAMLDecoder}.

(** The entries of the values, as a document is read. *)
Definition documented (raw : string) (entries : list (Node * Node)) : Prop :=
  ∃ top key node, readMapping raw = Ok top ∧ (key, node) ∈ pairs (nd_Content top) ∧ nd_Value key = "values" ∧
    nd_Kind node = MappingNode ∧ entries = pairs (nd_Content node) ∧
    NoDup (keys (pairs (nd_Content top))) ∧ (∀ k, k ∈ keys (pairs (nd_Content top)) → allowedField k = true).

Lemma valuesNode_fields `{MapOrder} top node : valuesNode top = Ok node →
  mappingFields top !! "values" = Some node ∧ nd_Kind node = MappingNode ∧
  (∀ k, is_Some (mappingFields top !! k) → allowedField k = true) ∧
  ∀ order : MapOrder, valuesNode (H := order) top = Ok node.
Proof.
  unfold valuesNode. destruct (find _ (range 20 (mappingFields top))) as [[k n]|] eqn:Hf; [done|]. intros Hv.
  assert (∀ k, is_Some (mappingFields top !! k) → allowedField k = true) as Hallowed.
  { intros k [n Hk%(elem_of_range 20)]. apply list_elem_of_In in Hk. pose proof (find_none _ _ Hf _ Hk) as Hn.
    cbn [fst] in Hn. by destruct (allowedField k). }
  assert (mappingFields top !! "values" = Some node ∧ nd_Kind node = MappingNode) as [Hnode Hkind].
  { apply guard_ok in Hv as [_ Hv]. apply guard_ok in Hv as [_ Hv].
    destruct (mappingFields top !! "values") as [n|]; [|done]. case_bool_decide; [|done]. by injection Hv as ->. }
  split_and!; [done..|]. intros order. destruct (find _ (range (MapOrder := order) 20 (mappingFields top))) as [[k n]|] eqn:Hf'; [exfalso|exact Hv].
  apply find_some in Hf' as [Hin Hbad]. apply list_elem_of_In, elem_of_range in Hin. cbn [fst] in Hbad.
  rewrite Hallowed in Hbad; [done|]. by eexists.
Qed.

Lemma parse_spec `{MapOrder} raw document : Variables.ParseAndValidate raw = Ok document →
  (∃ entries, documented raw entries ∧ Z.of_nat (length entries) ≤ MaxVariables ∧ bytes entries ≤ MaxAggregateBytes ∧
    NoDup (keys entries) ∧ (∀ entry, entry ∈ entries → acceptable entry) ∧
    ∀ name text, vd_Values document !! name = Some text ↔
      ∃ entry, entry ∈ entries ∧ nd_Value entry.1 = name ∧ nd_Value entry.2 = text) ∧
  named (vd_Values document).
Proof.
  unfold Variables.ParseAndValidate. intros Hp. apply guard_ok in Hp as [Hlen Hp]. apply guard_ok in Hp as [Hutf Hp].
  apply res_bind_ok in Hp as (top & Htop & Hp). destruct (validateYAMLNode "" top) eqn:Hv; [done|].
  apply res_bind_ok in Hp as (node & Hnode & Hp). apply guard_ok in Hp as [Hcount Hp].
  apply res_bind_ok in Hp as (values & Hvalues & Hp). injection Hp as <-. cbn [vd_Values].
  apply valuesNode_fields in Hnode as (Hfield & Hkind & Hallowed & _).
  assert (nd_Kind top = MappingNode) as Hmapping.
  { unfold readMapping in Htop. repeat case_match; simplify_eq; try done. by case_bool_decide. }
  destruct (validate_mapping _ _ Hv Hmapping) as [Htopkeys Hchildren].
  apply lookup_fields in Hfield as ([key n] & Hin & Hkey & ?). cbn [fst snd] in *. subst n.
  destruct (Hchildren _ Hin) as [_ [p Hnode]]. destruct (validate_mapping _ _ Hnode Hkind) as [Hkeys _].
  destruct (readValues_spec _ _ _ _ Hvalues Hkeys) as (Hok & Hsum & Hval).
  assert (∀ name text, values !! name = Some text ↔
    ∃ entry, entry ∈ pairs (nd_Content node) ∧ nd_Value entry.1 = name ∧ nd_Value entry.2 = text) as Hspec.
  { intros name text. rewrite Hval, lookup_empty. naive_solver. }
  split_and!.
  - exists (pairs (nd_Content node)). rewrite length_pairs. bool_prop. split_and!; try done.
    + exists top, key, node. split_and!; try done. intros k Hk%dom_fields. by apply Hallowed.
    + destruct (pairs (nd_Content node)); [by vm_compute|by apply Hsum].
  - unfold named. destruct (values !! "") as [text|] eqn:He; [|done].
    apply Hspec in He as (entry & He & Hname & _). apply Hok in He as (He & _). by rewrite Hname in He.
Qed.

End parsing.

(** * The environment of an application *)

Section compiled.
Context `{MapOrder} `{YAMLDecoder}.

Lemma parentsByPath_spec documents : ∀ m m', parentsByPath m documents = Some m' → ∀ path d,
  m' !! path = Some d ↔ m !! path = Some d ∨ d ∈ documents ∧ dc_ApplicationID d = "" ∧ dc_Path d = path.
Proof.
  induction documents as [|x rest IH]; intros m m'; cbn [parentsByPath].
  { intros [= <-] path d. rewrite elem_of_nil. tauto. }
  destruct (is_empty (dc_ApplicationID x)) eqn:Happ; cbn [negb].
  - case_bool_decide as Hm; [done|]. intros Hp path d. rewrite (IH _ _ Hp), elem_of_cons, lookup_insert_Some.
    apply eq_None_not_Some in Hm. apply String.eqb_eq in Happ. destruct (decide (dc_Path x = path)) as [<-|]; naive_solver.
  - intros Hp path d. rewrite (IH _ _ Hp), elem_of_cons. apply String.eqb_neq in Happ. naive_solver.
Qed.

(** What a state says of the documents, and the values it stands for. *)
Definition stands (documents : list Document) (state : DependencyState) (values : gmap string string) : Prop :=
  let parent d := d ∈ documents ∧ dc_ApplicationID d = "" ∧ dc_Path d = ds_Path state in
  (ds_Present state = false ∧ ds_BlobID state = "" ∧ values = ∅ ∧ ∀ d, ¬ parent d) ∨
  (ds_Present state = true ∧ ∃ d parsed, parent d ∧ (∀ d', parent d' → d' = d) ∧ dc_Valid d = true ∧
     ds_BlobID state = dc_BlobID d ∧ ds_BlobID state ≠ "" ∧
     Variables.ParseAndValidate (dc_Raw d) = Ok parsed ∧ values = vd_Values parsed).

Lemma parentValues_stands documents m state document : parentsByPath ∅ documents = Some m →
  parentValues m state = Some document →
  stands documents state (vd_Values document) ∧ named (vd_Values document).
Proof.
  intros Hm. pose proof (parentsByPath_spec _ _ _ Hm (ds_Path state)) as Hspec. unfold parentValues, stands.
  destruct (ds_Present state), (m !! ds_Path state) as [d|]; try done.
  - destruct (_ || _) eqn:Hc; [done|]. destruct (Variables.ParseAndValidate _) as [parsed|] eqn:Hp; [|done].
    intros [= <-]. unfold is_empty in Hc. bool_prop. pose proof (proj1 (Hspec d) eq_refl) as [Hd|Hd]; [by rewrite lookup_empty in Hd|].
    apply parse_spec in Hp as Hn. destruct Hn as [_ Hn]. split; [|done]. right. split; [done|].
    exists d, parsed. split_and!; try done; try apply Hd.
    intros d' Hd'. assert (Some d = Some d') as [= ->]; [|done]. apply Hspec. by right.
  - destruct (is_empty _) eqn:He; [|done]. intros [= <-]. apply String.eqb_eq in He. split; [left|done]. split_and!; try done.
    intros d Hd. assert (None = Some d) as [=]. apply Hspec. by right.
Qed.

Lemma runtimeEnv_name e : en_Name (runtimeEnv e) = ef_Name e.
Proof. unfold runtimeEnv. by destruct (ef_Value e). Qed.

(** The layers of a name whose own variable there is. *)
Lemma resolved_own project environment application v : NoDup (en_Name <$> application) → v ∈ application → envAllowed v →
  runtimeEnv <$> resolved project environment application (en_Name v) = Some v.
Proof.
  intros Hnd Hin Hv. unfold resolved, layers, own.
  assert (List.filter (λ e, String.eqb (en_Name e) (en_Name v)) application = [v]) as ->.
  { clear Hv. induction application as [|x rest IH]; [by apply elem_of_nil in Hin|]. rewrite fmap_cons in Hnd.
    apply NoDup_cons in Hnd as [Hx Hnd]. simpl. apply elem_of_cons in Hin as [<-|Hin].
    - by rewrite String.eqb_refl, filter_none.
    - destruct (String.eqb_spec (en_Name x) (en_Name v)) as [Heq|]; [|by apply IH].
      destruct Hx. rewrite Heq. apply list_elem_of_fmap. by exists v. }
  rewrite app_assoc, last_snoc. simpl. destruct v as [name text ref].
  unfold envAllowed in Hv. simpl in *. destruct Hv as [(t & -> & -> & _)|(r & -> & -> & _)]; done.
Qed.

(** A secret that is effective is the application's own. *)
Lemma resolved_secret project environment application name e ref :
  resolved project environment application name = Some e → en_ValueFrom (runtimeEnv e) = Some ref →
  ∃ v, v ∈ application ∧ en_Name v = name ∧ en_ValueFrom v = Some ref.
Proof.
  unfold resolved, layers. destruct (own application name) as [|[scope v] rest] eqn:Ho.
  - rewrite app_nil_r. unfold inherited. destruct (project !! name), (environment !! name); simpl; try done; by intros [= <-].
  - unfold own in Ho. destruct (List.filter _ application) as [|x l] eqn:Hf; [done|]. injection Ho as <- <- <-.
    assert (x ∈ application ∧ en_Name x = name) as [Hin Hname].
    { assert (In x (List.filter (λ e, String.eqb (en_Name e) name) application)) as Hx by (rewrite Hf; by left).
      apply List.filter_In in Hx as [Hx Heq]. split; [by apply list_elem_of_In|by apply String.eqb_eq]. }
    rewrite app_assoc, last_snoc. intros [= <-] Hsecret. exists x. split_and!; [done|done|].
    unfold runtimeEnv in Hsecret. simpl in Hsecret. by destruct (en_Value x).
Qed.

Lemma Resolve_problems project environment application effective :
  Variables.Resolve project environment application = Ok effective →
  NoDup (en_Name <$> items application) ∧ ∀ e, e ∈ items application → envAllowed e.
Proof.
  unfold Variables.Resolve. destruct (environmentProblems application) eqn:Happ; [|done]. intros _.
  by apply environmentProblems_nil.
Qed.

(** C18. What the processes of an application see. When the variables of an
    application compile, each of the two states - of its project and of its
    environment - is the truth about the documents: there is none at its path,
    or exactly one, valid and of the very blob. The runtime that comes out is
    the application's, normalized, with another environment, and the validator
    accepts it as a whole. Its environment has one entry for each name, sorted:
    the effective variable by precedence over the values of the two documents.
    Every variable of the application is there as it is; and every secret there
    is one of the application's own, under its own name. *)
Theorem compiled_environment states documents application r :
  VariableCompiler.Resolve states documents application = Some r →
  ∃ first second project environment env,
    states = [first; second] ∧ ds_Path first ≠ ds_Path second ∧
    stands documents first project ∧ stands documents second environment ∧
    rs_Runtime r = rt_set_Env (Some env) (NormalizeWorkloadRuntime application) ∧
    ValidateWorkloadRuntime (rs_Runtime r) = [] ∧
    StronglySorted String.le (en_Name <$> env) ∧ NoDup (en_Name <$> env) ∧
    (∀ v, v ∈ env ↔ runtimeEnv <$> resolved project environment (items (rt_Env application)) (en_Name v) = Some v) ∧
    (∀ v, v ∈ items (rt_Env application) → v ∈ env) ∧
    ∀ v ref, v ∈ env → en_ValueFrom v = Some ref →
      ∃ own, own ∈ items (rt_Env application) ∧ en_Name own = en_Name v ∧ en_ValueFrom own = Some ref.
Proof.
  unfold VariableCompiler.Resolve. destruct states as [|first [|second []]]; try done.
  destruct (_ || _) eqn:Hpaths; [done|]. intros (m & Hm & Hr)%bind_Some. apply bind_Some in Hr as (project & Hp & Hr).
  apply bind_Some in Hr as (environment & He & Hr).
  destruct (Variables.Resolve project environment (rt_Env application)) as [effective|] eqn:Hres; [|done].
  destruct (ValidateWorkloadRuntime _) eqn:Hvalid; [|done]. injection Hr as <-. cbn [rs_Runtime].
  apply (parentValues_stands documents) in Hp as [Hp Hpn], He as [He Hen]; try done.
  destruct (Resolve_spec _ _ _ _ Hpn Hen Hres) as (Hsorted & Hnd & Hspec).
  apply Resolve_problems in Hres as [Happ Hallowed].
  assert (en_Name <$> map runtimeEnv effective = ef_Name <$> effective) as Hnames.
  { clear. induction effective as [|e l IH]; [done|]. cbn [map]. by rewrite !fmap_cons, IH, runtimeEnv_name. }
  assert (∀ v, v ∈ map runtimeEnv effective ↔ runtimeEnv <$>
    resolved (vd_Values project) (vd_Values environment) (items (rt_Env application)) (en_Name v) = Some v) as Hin.
  { intros v. rewrite fmap_Some. split.
    - intros (e & -> & He')%list_elem_of_fmap. exists e. rewrite runtimeEnv_name. by apply Hspec in He'.
    - intros (e & He' & ->). apply list_elem_of_fmap. exists e. rewrite runtimeEnv_name in He'. by split; [|apply Hspec]. }
  exists first, second, (vd_Values project), (vd_Values environment), (map runtimeEnv effective). rewrite Hnames.
  unfold is_empty in Hpaths. bool_prop. split_and!; try done.
  - intros v Hv. apply Hin, resolved_own; [done|done|by apply Hallowed].
  - intros v ref (e & He' & ->)%Hin%fmap_Some Href. by eapply resolved_secret.
Qed.
End compiled.

(** * The states of the documents *)

Lemma onlyParents_spec documents : ∀ m m', onlyParents m documents = Some m' →
  m' = foldl (λ m d, if is_empty (dc_ApplicationID d) then <[dc_Path d := d]> m else m) m documents ∧
  ∀ path d, m' !! path = Some d → m !! path = Some d ∨ d ∈ documents.
Proof.
  induction documents as [|x rest IH]; intros m m'; cbn [onlyParents foldl]; [intros [= <-]; split; [done|by left]|].
  destruct (negb (is_empty _) || _) eqn:Hx; [done|]. bool_prop.
  match goal with He : is_empty _ = true |- _ => rewrite He end. intros [Heq Hin]%IH. split; [done|].
  intros path d [Hd|Hd]%Hin; [|right; by right]. apply lookup_insert_Some in Hd as [[_ <-]|[_ Hd]]; [right; left|by left].
Qed.

Lemma canonicalDependency_state m (path : string) (d : option Document) :
  m !! path = d → (∀ x, d = Some x → dc_Valid x = true) →
  canonicalDependency m (match d with Some x => mkState path true (dc_BlobID x) | None => mkState path false "" end) =
  Some (match d with Some x => mkDependency path true (dc_BlobID x) (dc_ContentSHA256 x) | None => mkDependency path false "" "" end).
Proof.
  intros Hm Hv. unfold canonicalDependency. destruct d as [x|]; cbn [ds_Path ds_Present ds_BlobID]; rewrite Hm; [|done].
  by rewrite String.eqb_refl, (Hv x).
Qed.

(** The states that are computed of valid documents are ones that the identity
    of the variables accepts. *)
Lemma States_canonical first second documents states : first ≠ second →
  States [first; second] documents = Some states → (∀ d, d ∈ documents → dc_Valid d = true) →
  ∃ intent, CanonicalDependencyIntent states documents = Some intent ∧ ad_Path <$> intent = [first; second].
Proof.
  intros Hne Hs Hvalid. unfold States in Hs. simpl in Hs. apply bind_Some in Hs as (m & Hm & Hs).
  apply onlyParents_spec in Hm as [Hby Hm]. fold (byPath documents) in Hby.
  assert (∀ path x, m !! path = Some x → dc_Valid x = true) as Hv.
  { intros path x [Hx|Hx]%Hm; [by rewrite lookup_empty in Hx|by apply Hvalid]. }
  pose proof (canonicalDependency_state m first _ eq_refl (Hv first)) as H1.
  pose proof (canonicalDependency_state m second _ eq_refl (Hv second)) as H2.
  assert (states = [match m !! first with Some x => mkState first true (dc_BlobID x) | None => mkState first false "" end;
                    match m !! second with Some x => mkState second true (dc_BlobID x) | None => mkState second false "" end]) as ->.
  { unfold takeState in Hs. simpl in Hs. destruct (m !! first) as [x|] eqn:E1; simpl in Hs;
      rewrite ?lookup_delete_ne in Hs by done; destruct (m !! second) as [y|] eqn:E2; simpl in Hs; by case_match; simplify_eq. }
  unfold CanonicalDependencyIntent. simpl length. cbn [Nat.eqb negb]. rewrite <- Hby. simpl. rewrite H1, H2. simpl.
  eexists. split; [done|]. by destruct (m !! first), (m !! second).
Qed.

(** * A concrete application *)

#[local] Existing Instance forward_order.

(** ** Documents *)

Definition text (tag content : string) : Node := mkYaml ScalarNode "" false tag content 1 1 [].
Definition word (content : string) : Node := text "!!str" content.

Definition mapping (entries : list (string * Node)) : Node :=
  mkYaml MappingNode "" false "!!map" "" 1 1 (flat_map (λ entry, [word entry.1; entry.2]) entries).

Definition variableSet (values : list (string * Node)) : Node :=
  mapping [("apiVersion", word APIVersion); ("kind", word Kind); ("values", mapping values)].

Definition document (root : Node) : list (res string Node) := [Ok (mkYaml DocumentNode "" false "" "" 1 1 [root])].

(** A decoder that knows some documents by their text. *)
#[local] Instance tableYAML : YAMLDecoder := {|
  yaml_documents raw :=
    if String.eqb raw "project" then document (variableSet [("A", word "project-a"); ("PROJECT_ONLY", word "true")])
    else if String.eqb raw "environment" then document (variableSet [("A", word "environment-a"); ("ENV_ONLY", word "e")])
    else if String.eqb raw "coerced" then document (variableSet [("ENABLED", text "!!bool" "true")])
    else if String.eqb raw "twice" then document (variableSet [("A", word "first"); ("A", word "second")])
    else if String.eqb raw "anchored" then
      document (variableSet [("A", mkYaml ScalarNode "anchor" false "!!str" "first" 1 1 [])])
    else if String.eqb raw "unknown" then document (mapping [("kind", word Kind); ("metadata", mapping [])])
    else [];
|}.

Definition codeOf (raw : string) : string :=
  match Variables.ParseAndValidate raw with Ok _ => "" | Err d => dg_Code d +:+ " " +:+ dg_Pointer d end.

Example refused : map codeOf ["project"; "coerced"; "twice"; "anchored"; "unknown"; "absent"; ""] =
  [""; "InvalidValue /values/ENABLED"; "DuplicateKey /values/A"; "UnsafeYAML /values/A"; "UnknownField /metadata";
   "InvalidYAML "; "InvalidDocument "].
Proof. vm_compute. reflexivity. Qed.

(** An anchor is refused on a value; on a key it passes. *)
Example anchored_key : validateYAMLNode "" (mkYaml MappingNode "" false "!!map" "" 1 1
  [mkYaml ScalarNode "anchor" false "!!str" "A" 1 1 []; word "first"]) = None.
Proof. vm_compute. reflexivity. Qed.

Definition read (raw : string) : VariableDocument :=
  match Variables.ParseAndValidate raw with Ok d => d | Err _ => noVariables end.

Example read_project : vd_Parsed (read "project") =
  [("apiVersion", VString APIVersion); ("kind", VString Kind);
   ("values", VObject [("A", VString "project-a"); ("PROJECT_ONLY", VString "true")])].
Proof. vm_compute. reflexivity. Qed.


(** ** Resolution *)

Definition secret : SecretBindingRef := mkSecretRef "44444444-4444-4444-8444-444444444444" "app-a" "value" 1.

Definition ownVariables : slice WorkloadEnv :=
  Some [mkEnv "A" None (Some secret); mkEnv "APP_ONLY" (Some "application") None].

Definition effective : list Effective :=
  [mkEffective "A" None (Some secret) ScopeApplication
     [mkOverride ScopeProject "project-a" false; mkOverride ScopeEnvironment "environment-a" false];
   mkEffective "APP_ONLY" (Some "application") None ScopeApplication [];
   mkEffective "ENV_ONLY" (Some "e") None ScopeEnvironment [];
   mkEffective "PROJECT_ONLY" (Some "true") None ScopeProject []].

Example resolution : Variables.Resolve (read "project") (read "environment") ownVariables = Ok effective.
Proof. vm_compute. reflexivity. Qed.

Example duplicate_refused :
  match Variables.Resolve noVariables noVariables (Some [mkEnv "A" (Some "one") None; mkEnv "A" (Some "one") None]) with
  | Ok _ => []
  | Err found => map we_Code found
  end = ["Duplicate"].
Proof. vm_compute. reflexivity. Qed.

Lemma effective_precedence_witness :
  StronglySorted String.le (ef_Name <$> effective) ∧ NoDup (ef_Name <$> effective) ∧
  ∀ e, e ∈ effective ↔
    resolved (vd_Values (read "project")) (vd_Values (read "environment")) (items ownVariables) (ef_Name e) = Some e.
Proof.
  apply (effective_precedence (read "project") (read "environment") ownVariables effective).
  - vm_compute. reflexivity.
  - vm_compute. reflexivity.
  - vm_compute. reflexivity.
Defined.

(** ** Compilation *)

Definition projectPath : string := "projects/shop/variables.yaml".
Definition environmentPath : string := "environments/prod/variables.yaml".

Definition parentDocuments : list Document :=
  [mkDocument environmentPath "" "blob-e" "" "environment" true; mkDocument projectPath "" "blob-p" "" "project" true].

Definition states : list DependencyState := default [] (States [projectPath; environmentPath] parentDocuments).

Definition application : WorkloadRuntime := rt_set_Env ownVariables (NormalizeWorkloadRuntime shopDatabase).

Definition compiled : option Resolution := VariableCompiler.Resolve states parentDocuments application.

Example compilation : rs_Effective <$> compiled = Some effective.
Proof. vm_compute. reflexivity. Qed.

(** A blob that is not the indexed one. *)
Example stale_refused :
  VariableCompiler.Resolve [mkState projectPath true "blob-p"; mkState environmentPath true "blob-x"] parentDocuments application = None ∧
  VariableCompiler.Resolve [mkState projectPath true "blob-p"; mkState environmentPath false ""] parentDocuments application = None.
Proof. vm_compute. done. Qed.

Definition compiledRuntime : WorkloadRuntime := match compiled with Some r => rs_Runtime r | None => zeroRuntime end.

Lemma compiled_environment_witness :
  compiled = Some (mkResolution effective compiledRuntime) ∧
  ValidateWorkloadRuntime compiledRuntime = [] ∧ ∃ env, rt_Env compiledRuntime = Some env ∧ mkEnv "A" None (Some secret) ∈ env.
Proof.
  assert (compiled = Some (mkResolution effective compiledRuntime)) as Hcompiled by (vm_compute; reflexivity).
  split; [exact Hcompiled|]. unfold compiled in Hcompiled.
  destruct (compiled_environment _ _ _ _ Hcompiled)
    as (first & second & project & environment & env & _ & _ & _ & _ & Hr & Hvalid & _ & _ & _ & Hown & _).
  split; [exact Hvalid|]. exists env. split.
  - cbn [rs_Runtime] in Hr. rewrite Hr. reflexivity.
  - apply Hown. left.
Defined.
