(* ===== verification/GitProjection.v ===== *)
(** The read model of the Git projection ([internal/gitprojection/model.go]):
    bindings of a platform or an environment to a branch, the heads a provider
    has verified, the leases and cursors of their reconciliation, generations of
    indexed documents, and the strong entity tags of what was indexed.

    [Validate] methods are booleans: they answer nil or one error, and a value
    of a state, a kind or a mode that is none of the constants, which every
    [Validate] refuses, is not represented.  Documents hold their bytes as a
    string; copies ([cloneDocument], [cloneMap]) are the value itself. *)

From Stdlib Require Import Ascii.
From S2P Require Import Prelude Regexp GoStrings Digest Encoding JsonValues.

Open Scope Z_scope.

(** * Constants and errors *)

Definition MaxDocumentBytes : Z := Z.shiftl 256 10.
Definition MaxDocumentsBundle : Z := 16.
Definition DefaultParser : string := "appconfig-v1alpha1".
Definition minimumReconciliationLease : Duration := 15 * second.
Definition maximumReconciliationLease : Duration := 5 * minute.

Inductive ProjErr : Set :=
| ErrNotFound | ErrConflict | ErrInvalid | ErrStale | ErrLeaseHeld | ErrLeaseLost | ErrDiverged | ErrMissingRef
| ErrProviderMismatch | ErrPolicyUnavailable | ErrPreconditionRequired
| OtherErr (message : string).

#[export] Instance ProjErr_eq_dec : EqDecision ProjErr.
Proof. solve_decision. Defined.

(** * Patterns *)

Definition is_alnum (c : ascii) : bool := is_lower c || is_upper c || is_digit c.
Definition hexes (n : nat) : regex := RTimes n (RClass is_lower_hex).
Definition digits : regex := RPlus (RClass is_digit).
Definition alnum_or (chars : string) : regex := RClass (λ c, is_alnum c || is_one_of chars c).

Definition uuidRE : regex := uuid_re.
Definition commitRE : regex := RAlt (hexes 40) (hexes 64).
Definition blobRE : regex := RAlt (hexes 40) (hexes 64).
Definition digestRE : regex := digest_re.

Definition chartIdentityRE : regex :=
  RAlt digest_re
    (RSeq digits (RSeq (RLit ".") (RSeq digits (RSeq (RLit ".") (RSeq digits (ROpt (RSeq (RLit "-rc.") digits))))))).

Definition refRE : regex :=
  RSeq (RLit "refs/heads/") (RSeq (RClass is_alnum)
    (ROpt (RSeq (RUpTo 198 (alnum_or "._/-")) (RClass is_alnum)))).

Definition nameRE : regex := RRep 1 100 (alnum_or "_.-").
Definition loginRE : regex := RSeq (RClass is_alnum) (ROpt (RSeq (RUpTo 38 (alnum_or "-")) (RClass is_alnum))).

Definition is_lower_alnum (c : ascii) : bool := is_lower c || is_digit c.

Definition kubeRE : regex :=
  RSeq (RClass is_lower_alnum)
    (ROpt (RSeq (RUpTo 251 (RClass (λ c, is_lower_alnum c || is_one_of ".-" c))) (RClass is_lower_alnum))).

Definition ownerRE : regex := RSeq (RClass is_alnum) (RRep 7 127 (alnum_or "._:-")).

Definition errorRE : regex :=
  RSeq (RClass is_lower) (RUpTo 62 (RClass (λ c, is_lower_alnum c || is_one_of ".-" c))).

Definition uuid (s : string) : bool := re_match uuidRE s.
Definition commit (s : string) : bool := re_match commitRE s.
Definition blob (s : string) : bool := re_match blobRE s.
Definition digest (s : string) : bool := re_match digestRE s.

Definition empty (s : string) : bool := String.eqb s "".

(** * Paths: [path.Clean] and [path.Join]

    [path.Clean] of a path that is not rooted: the kept segments, the last one
    first; [..] removes one that is not itself [..]. *)

Definition keep_segment (kept : list string) (segment : string) : list string :=
  if empty segment || String.eqb segment "." then kept
  else if String.eqb segment ".." then
    match kept with
    | last :: rest => if String.eqb last ".." then segment :: kept else rest
    | [] => [segment]
    end
  else segment :: kept.

Definition keep_rooted (kept : list string) (segment : string) : list string :=
  if empty segment || String.eqb segment "." then kept
  else if String.eqb segment ".." then tl kept
  else segment :: kept.

Definition path_clean (p : string) : string :=
  if has_prefix "/" p then "/" +:+ str_join "/" (rev (foldl keep_rooted [] (split_byte "/" p)))
  else
    let cleaned := str_join "/" (rev (foldl keep_segment [] (split_byte "/" p))) in
    if empty cleaned then "." else cleaned.

Definition path_join (elements : list string) : string :=
  if forallb empty elements then ""
  else path_clean (str_join "/" (List.filter (λ e, negb (empty e)) elements)).

Definition validRelativePath (value : string) : bool :=
  negb (empty value) && (str_len value <=? 1024) && valid_utf8 value && negb (has_prefix "/" value) &&
  String.eqb (path_clean value) value && negb (String.eqb value ".") && negb (String.eqb value "..") &&
  negb (has_prefix "../" value) && negb (str_contains "//" value) &&
  negb (contains_any (crlf_nul +:+ String "092" "") value).

(** * Repositories *)

Record RepositoryIdentity := mkRepository {
  ri_Provider : string;
  ri_InstallationID : Z;
  ri_RepositoryID : Z;
  ri_Owner : string;
  ri_Name : string;
}.

#[export] Instance RepositoryIdentity_eq_dec : EqDecision RepositoryIdentity.
Proof. solve_decision. Defined.

Definition validRepositoryIdentity (r : RepositoryIdentity) : bool :=
  negb (negb (String.eqb (ri_Provider r) "github") || (ri_InstallationID r <=? 0) || (ri_RepositoryID r <=? 0) ||
        negb (re_match loginRE (ri_Owner r)) || negb (re_match nameRE (ri_Name r)) ||
        String.eqb (ri_Name r) "." || String.eqb (ri_Name r) "..").

(** The owner and the name have no byte that [url.URL] escapes in a path. *)
Definition CanonicalRemote (r : RepositoryIdentity) : res ProjErr string :=
  guard! validRepositoryIdentity r else ErrInvalid in
  Ok ("https://github.com/" +:+ ri_Owner r +:+ "/" +:+ ri_Name r +:+ ".git").

(** * Bindings *)

Inductive BindingKind : Set := BindingPlatform | BindingEnvironment.
Inductive BindingState : Set := BindingReady | BindingIndexing | BindingWaiting | BindingDiverged | BindingMissingRef.
Inductive CredentialMode : Set := CredentialLegacySecret | CredentialGitHubApp.

#[export] Instance BindingKind_eq_dec : EqDecision BindingKind.
Proof. solve_decision. Defined.
#[export] Instance BindingState_eq_dec : EqDecision BindingState.
Proof. solve_decision. Defined.
#[export] Instance CredentialMode_eq_dec : EqDecision CredentialMode.
Proof. solve_decision. Defined.

Record Binding := mkBinding {
  bd_ID : string;
  bd_Kind : BindingKind;
  bd_ScopeID : string;
  bd_ProjectID : string;
  bd_EnvironmentID : string;
  bd_Repository : RepositoryIdentity;
  bd_TargetRef : string;
  bd_Prefix : string;
  bd_CredentialMode : CredentialMode;
  bd_CredentialSecretName : string;
  bd_State : BindingState;
  bd_TargetHeadRevision : string;
  bd_IndexedRevision : string;
  bd_ProjectionGeneration : Z;
  bd_ParserVersion : string;
  bd_TargetHeadObservedAt : Time;
  bd_IndexedAt : Time;
  bd_CreatedAt : Time;
  bd_UpdatedAt : Time;
}.

#[export] Instance Binding_eq_dec : EqDecision Binding.
Proof. solve_decision. Defined.

(** The assignments of the store to a binding. *)
Definition bd_set_State (v : BindingState) (at_ : Time) (b : Binding) : Binding :=
  mkBinding (bd_ID b) (bd_Kind b) (bd_ScopeID b) (bd_ProjectID b) (bd_EnvironmentID b) (bd_Repository b)
    (bd_TargetRef b) (bd_Prefix b) (bd_CredentialMode b) (bd_CredentialSecretName b) v (bd_TargetHeadRevision b)
    (bd_IndexedRevision b) (bd_ProjectionGeneration b) (bd_ParserVersion b) (bd_TargetHeadObservedAt b)
    (bd_IndexedAt b) (bd_CreatedAt b) at_.

Definition bd_set_Head (revision : string) (observed : Time) (v : BindingState) (updated : Time) (b : Binding) : Binding :=
  mkBinding (bd_ID b) (bd_Kind b) (bd_ScopeID b) (bd_ProjectID b) (bd_EnvironmentID b) (bd_Repository b)
    (bd_TargetRef b) (bd_Prefix b) (bd_CredentialMode b) (bd_CredentialSecretName b) v revision
    (bd_IndexedRevision b) (bd_ProjectionGeneration b) (bd_ParserVersion b) observed
    (bd_IndexedAt b) (bd_CreatedAt b) updated.

Definition bd_set_Indexed (revision : string) (generation : Z) (at_ : Time) (b : Binding) : Binding :=
  mkBinding (bd_ID b) (bd_Kind b) (bd_ScopeID b) (bd_ProjectID b) (bd_EnvironmentID b) (bd_Repository b)
    (bd_TargetRef b) (bd_Prefix b) (bd_CredentialMode b) (bd_CredentialSecretName b) BindingReady
    (bd_TargetHeadRevision b) revision generation (bd_ParserVersion b) (bd_TargetHeadObservedAt b)
    at_ (bd_CreatedAt b) at_.

Definition bd_set_ParserVersion (v : string) (b : Binding) : Binding :=
  mkBinding (bd_ID b) (bd_Kind b) (bd_ScopeID b) (bd_ProjectID b) (bd_EnvironmentID b) (bd_Repository b)
    (bd_TargetRef b) (bd_Prefix b) (bd_CredentialMode b) (bd_CredentialSecretName b) (bd_State b)
    (bd_TargetHeadRevision b) (bd_IndexedRevision b) (bd_ProjectionGeneration b) v (bd_TargetHeadObservedAt b)
    (bd_IndexedAt b) (bd_CreatedAt b) (bd_UpdatedAt b).

Definition validTargetRef (ref : string) : bool :=
  negb (negb (re_match refRE ref) || str_contains ".." ref || str_contains "//" ref || has_suffix ".lock" ref ||
        str_contains "@{" ref) &&
  forallb (λ component, negb (empty component || has_prefix "." component || has_suffix "." component))
    (split_byte "/" (trim_prefix "refs/heads/" ref)).

Definition validSecretName (value : string) : bool :=
  (str_len value <=? 253) && re_match kubeRE value && negb (str_contains ".." value).

Definition validCredentialBinding (mode : CredentialMode) (secretName : string) : bool :=
  match mode with
  | CredentialLegacySecret => validSecretName secretName
  | CredentialGitHubApp => empty secretName
  end.

Definition EnvironmentPrefix (projectID environmentID : string) : string :=
  path_join ["tenants"; projectID; "environments"; environmentID].
Definition PlatformPrefix : string := "platform".

Definition validScope (b : Binding) : bool :=
  match bd_Kind b with
  | BindingEnvironment =>
      negb (negb (uuid (bd_ProjectID b)) || negb (String.eqb (bd_EnvironmentID b) (bd_ScopeID b)) ||
            negb (String.eqb (bd_Prefix b) (EnvironmentPrefix (bd_ProjectID b) (bd_EnvironmentID b))))
  | BindingPlatform =>
      negb (negb (empty (bd_ProjectID b)) || negb (empty (bd_EnvironmentID b)) ||
            negb (String.eqb (bd_ScopeID b) (bd_ID b)) || negb (String.eqb (bd_Prefix b) PlatformPrefix))
  end.

Definition validRevisions (b : Binding) : bool :=
  let head := bd_TargetHeadRevision b in let indexed := bd_IndexedRevision b in
  let observed := bd_TargetHeadObservedAt b in
  negb (negb (empty head) && negb (commit head) || negb (empty indexed) && negb (commit indexed)) &&
  negb (negb (eqb (empty head) (is_zero_time observed)) || (bd_UpdatedAt b <? bd_CreatedAt b) ||
        negb (is_zero_time observed) && ((observed <? bd_CreatedAt b) || (bd_UpdatedAt b <? observed))) &&
  negb (negb (eqb (empty indexed) (is_zero_time (bd_IndexedAt b))) ||
        negb (empty indexed) && ((bd_ProjectionGeneration b =? 0) || (bd_IndexedAt b <? bd_CreatedAt b) ||
                                 (bd_UpdatedAt b <? bd_IndexedAt b))) &&
  match bd_State b with
  | BindingReady => negb (empty head || negb (String.eqb head indexed))
  | BindingIndexing | BindingDiverged => negb (empty head)
  | BindingWaiting | BindingMissingRef => true
  end.

Definition validBinding (b : Binding) : bool :=
  negb (negb (uuid (bd_ID b)) || negb (uuid (bd_ScopeID b)) || negb (validRepositoryIdentity (bd_Repository b)) ||
        negb (validTargetRef (bd_TargetRef b)) ||
        negb (validCredentialBinding (bd_CredentialMode b) (bd_CredentialSecretName b)) ||
        empty (bd_ParserVersion b) || (64 <? str_len (bd_ParserVersion b)) ||
        is_zero_time (bd_CreatedAt b) || is_zero_time (bd_UpdatedAt b)) &&
  validScope b && validRelativePath (bd_Prefix b) && (0 <=? bd_ProjectionGeneration b) && validRevisions b.

Definition checked (b : Binding) : res ProjErr Binding := guard! validBinding b else ErrInvalid in Ok b.

Definition newBinding (id : string) (kind : BindingKind) (scopeID projectID environmentID : string)
    (repository : RepositoryIdentity) (targetRef prefix : string) (mode : CredentialMode) (secret : string)
    (now : Time) : Binding :=
  mkBinding id kind scopeID projectID environmentID repository targetRef prefix mode secret BindingWaiting "" "" 0
    DefaultParser zero_time zero_time now now.

Definition NewEnvironmentBinding (id projectID environmentID : string) (repository : RepositoryIdentity)
    (targetRef credentialSecret : string) (now : Time) : res ProjErr Binding :=
  checked (newBinding id BindingEnvironment environmentID projectID environmentID repository targetRef
             (EnvironmentPrefix projectID environmentID) CredentialLegacySecret credentialSecret now).

Definition NewGitHubEnvironmentBinding (id projectID environmentID : string) (repository : RepositoryIdentity)
    (targetRef : string) (now : Time) : res ProjErr Binding :=
  checked (newBinding id BindingEnvironment environmentID projectID environmentID repository targetRef
             (EnvironmentPrefix projectID environmentID) CredentialGitHubApp "" now).

Definition NewPlatformBinding (id : string) (repository : RepositoryIdentity) (targetRef credentialSecret : string)
    (now : Time) : res ProjErr Binding :=
  checked (newBinding id BindingPlatform id "" "" repository targetRef PlatformPrefix CredentialLegacySecret
             credentialSecret now).

Definition NewGitHubPlatformBinding (id : string) (repository : RepositoryIdentity) (targetRef : string) (now : Time)
    : res ProjErr Binding :=
  checked (newBinding id BindingPlatform id "" "" repository targetRef PlatformPrefix CredentialGitHubApp "" now).

Definition ApplicationPath (b : Binding) (applicationID : string) : res ProjErr string :=
  guard! validBinding b && bool_decide (bd_Kind b = BindingEnvironment) && uuid applicationID else ErrInvalid in
  Ok (path_join [bd_Prefix b; "apps"; applicationID; "app.yaml"]).

Definition DependencyPaths (b : Binding) : res ProjErr (list string) :=
  guard! validBinding b && bool_decide (bd_Kind b = BindingEnvironment) else ErrInvalid in
  Ok [path_join ["tenants"; bd_ProjectID b; "variables.yaml"]; path_join [bd_Prefix b; "variables.yaml"]].

(** [if dependencies, err := DependencyPaths(binding); err == nil && slices.Contains(dependencies, p)] *)
Definition isDependency (b : Binding) (p : string) : bool :=
  match DependencyPaths b with Ok paths => str_in p paths | Err _ => false end.

(** * Heads, deliveries, cursors and leases *)

Inductive ObservationSource : Set := ObservationWebhook | ObservationPoll | ObservationWrite.

#[export] Instance ObservationSource_eq_dec : EqDecision ObservationSource.
Proof. solve_decision. Defined.

Record VerifiedHead := mkHead {
  vh_BindingID : string;
  vh_Repository : RepositoryIdentity;
  vh_TargetRef : string;
  vh_Commit : string;
  vh_Source : ObservationSource;
  vh_ProviderRequest : string;
  vh_ObservedAt : Time;
}.

#[export] Instance VerifiedHead_eq_dec : EqDecision VerifiedHead.
Proof. solve_decision. Defined.

(** [ValidateFor]: the error is [ErrProviderMismatch]. *)
Definition validHeadFor (h : VerifiedHead) (b : Binding) : bool :=
  negb (negb (validBinding b) || negb (String.eqb (vh_BindingID h) (bd_ID b)) ||
        negb (bool_decide (vh_Repository h = bd_Repository b)) || negb (String.eqb (vh_TargetRef h) (bd_TargetRef b)) ||
        negb (commit (vh_Commit h)) || is_zero_time (vh_ObservedAt h) || (str_len (vh_ProviderRequest h) =? 0) ||
        (256 <? str_len (vh_ProviderRequest h)) || negb (valid_utf8 (vh_ProviderRequest h))).

Record WebhookTombstone := mkTombstone {
  wt_Provider : string;
  wt_RepositoryID : Z;
  wt_TargetRef : string;
  wt_AfterCommit : string;
  wt_DeliveryHash : string;
  wt_ReceivedAt : Time;
}.

Definition validTombstone (w : WebhookTombstone) : bool :=
  negb (negb (String.eqb (wt_Provider w) "github") || (wt_RepositoryID w <=? 0) || negb (validTargetRef (wt_TargetRef w)) ||
        negb (commit (wt_AfterCommit w)) || negb (digest (wt_DeliveryHash w)) || is_zero_time (wt_ReceivedAt w)).

Record PollCursor := mkCursor {
  pc_BindingID : string;
  pc_LastCommit : string;
  pc_ProviderCursor : string;
  pc_ConsecutiveFail : Z;
  pc_NextPollAt : Time;
  pc_UpdatedAt : Time;
}.

#[export] Instance PollCursor_eq_dec : EqDecision PollCursor.
Proof. solve_decision. Defined.

Definition zeroCursor : PollCursor := mkCursor "" "" "" 0 zero_time zero_time.

Definition validCursor (p : PollCursor) : bool :=
  negb (negb (uuid (pc_BindingID p)) || negb (empty (pc_LastCommit p)) && negb (commit (pc_LastCommit p)) ||
        (pc_ConsecutiveFail p <? 0) || (32 <? pc_ConsecutiveFail p) || (512 <? str_len (pc_ProviderCursor p)) ||
        negb (valid_utf8 (pc_ProviderCursor p)) || is_zero_time (pc_NextPollAt p) || is_zero_time (pc_UpdatedAt p)).

Record ReconciliationLease := mkLease {
  rl_BindingID : string;
  rl_Owner : string;
  rl_Epoch : Z;
  rl_WakeGeneration : Z;
  rl_Until : Time;
}.

#[export] Instance ReconciliationLease_eq_dec : EqDecision ReconciliationLease.
Proof. solve_decision. Defined.

Definition validLease (l : ReconciliationLease) : bool :=
  negb (negb (uuid (rl_BindingID l)) || negb (re_match ownerRE (rl_Owner l)) || (rl_Epoch l <=? 0) ||
        (rl_WakeGeneration l <? 0) || is_zero_time (rl_Until l)).

Definition validReconciliationLeaseDuration (value : Duration) : bool :=
  (minimumReconciliationLease <=? value) && (value <=? maximumReconciliationLease).

Record ReconciliationWork := mkReconciliationWork {
  rw_Binding : Binding;
  rw_Lease : ReconciliationLease;
  rw_ConsecutiveFailure : Z;
  rw_Reclaimed : bool;
  rw_BindingChanged : bool;
}.

Definition validReconciliationWork (w : ReconciliationWork) : bool :=
  negb (negb (validBinding (rw_Binding w)) || negb (validLease (rw_Lease w)) ||
        negb (String.eqb (rl_BindingID (rw_Lease w)) (bd_ID (rw_Binding w))) ||
        (rw_ConsecutiveFailure w <? 0) || (32 <? rw_ConsecutiveFailure w)).

Record ReconciliationOutcome := mkOutcome {
  ro_LastCommit : string;
  ro_ConsecutiveFailure : Z;
  ro_NextPollAt : Time;
  ro_FailureCode : string;
}.

Definition validOutcome (o : ReconciliationOutcome) : bool :=
  negb (negb (empty (ro_LastCommit o)) && negb (commit (ro_LastCommit o)) || (ro_ConsecutiveFailure o <? 0) ||
        (32 <? ro_ConsecutiveFailure o) || is_zero_time (ro_NextPollAt o) ||
        negb (empty (ro_FailureCode o)) && negb (re_match errorRE (ro_FailureCode o)) ||
        negb (eqb (ro_ConsecutiveFailure o =? 0) (empty (ro_FailureCode o))) ||
        (ro_ConsecutiveFailure o =? 0) && empty (ro_LastCommit o)).

(** * Generations and documents *)

Inductive ProjectionState : Set := ProjectionStaging | ProjectionActive | ProjectionFailed.

#[export] Instance ProjectionState_eq_dec : EqDecision ProjectionState.
Proof. solve_decision. Defined.

Record Generation := mkGeneration {
  gn_BindingID : string;
  gn_Number : Z;
  gn_HeadRevision : string;
  gn_ParserVersion : string;
  gn_State : ProjectionState;
  gn_StartedAt : Time;
  gn_ActivatedAt : option Time;
}.

#[export] Instance Generation_eq_dec : EqDecision Generation.
Proof. solve_decision. Defined.

Definition gn_set_State (v : ProjectionState) (at_ : option Time) (g : Generation) : Generation :=
  mkGeneration (gn_BindingID g) (gn_Number g) (gn_HeadRevision g) (gn_ParserVersion g) v (gn_StartedAt g) at_.

Definition validGeneration (g : Generation) : bool :=
  negb (negb (uuid (gn_BindingID g)) || (gn_Number g <=? 0) || negb (commit (gn_HeadRevision g)) ||
        empty (gn_ParserVersion g) || (64 <? str_len (gn_ParserVersion g)) || is_zero_time (gn_StartedAt g)) &&
  match gn_ActivatedAt g with
  | Some t => bool_decide (gn_State g = ProjectionActive) && negb (t <? gn_StartedAt g)
  | None => negb (bool_decide (gn_State g = ProjectionActive))
  end.

Record Diagnostic := mkDiagnostic {
  dg_Code : string;
  dg_Detail : string;
  dg_Pointer : string;
}.

#[export] Instance Diagnostic_eq_dec : EqDecision Diagnostic.
Proof. solve_decision. Defined.

Definition validDiagnostic (d : Diagnostic) : bool :=
  negb (empty (dg_Code d) || (64 <? str_len (dg_Code d)) || (str_len (dg_Detail d) =? 0) ||
        (1024 <? str_len (dg_Detail d)) || negb (valid_utf8 (dg_Detail d)) || (1024 <? str_len (dg_Pointer d)) ||
        negb (valid_utf8 (dg_Pointer d)) || contains_any crlf_nul (dg_Pointer d)).

Record Document := mkDocument {
  gd_BindingID : string;
  gd_Generation : Z;
  gd_Path : string;
  gd_ApplicationID : string;
  gd_SourceRevision : string;
  gd_ConfigRevision : string;
  gd_BlobID : string;
  gd_ContentSHA256 : string;
  gd_Raw : string;
  gd_Parsed : option members_of;
  gd_Valid : bool;
  gd_Diagnostics : list Diagnostic;
  gd_SchemaVersion : string;
  gd_ParserVersion : string;
  gd_IndexedAt : Time;
}.

Definition gd_set_ConfigRevision (v : string) (d : Document) : Document :=
  mkDocument (gd_BindingID d) (gd_Generation d) (gd_Path d) (gd_ApplicationID d) (gd_SourceRevision d) v
    (gd_BlobID d) (gd_ContentSHA256 d) (gd_Raw d) (gd_Parsed d) (gd_Valid d) (gd_Diagnostics d)
    (gd_SchemaVersion d) (gd_ParserVersion d) (gd_IndexedAt d).

Definition gd_set_Diagnostics (v : list Diagnostic) (d : Document) : Document :=
  mkDocument (gd_BindingID d) (gd_Generation d) (gd_Path d) (gd_ApplicationID d) (gd_SourceRevision d)
    (gd_ConfigRevision d) (gd_BlobID d) (gd_ContentSHA256 d) (gd_Raw d) (gd_Parsed d) (length v =? 0)%nat v
    (gd_SchemaVersion d) (gd_ParserVersion d) (gd_IndexedAt d).

Definition appSchema : string := "config.kuberploy.io/v1alpha1".
Definition variablesSchema : string := "variables.kuberploy.io/v1alpha1".

(** [contentDigestMatches] and the constructors: the digest of the bytes. *)
Definition contentDigest (content : string) : string := "sha256:" +:+ hex_encode (sha256 (string_bytes content)).

Definition validDocumentPath (d : Document) (b : Binding) : bool :=
  if negb (empty (gd_ApplicationID d)) then
    match ApplicationPath b (gd_ApplicationID d) with
    | Ok expected => String.eqb (gd_Path d) expected && String.eqb (gd_SchemaVersion d) appSchema
    | Err _ => false
    end
  else isDependency b (gd_Path d) && String.eqb (gd_SchemaVersion d) variablesSchema.

Definition validDocument (d : Document) (b : Binding) : bool :=
  negb (negb (validDocumentPath d b) || negb (String.eqb (gd_BindingID d) (bd_ID b)) || (gd_Generation d <=? 0) ||
        negb (commit (gd_SourceRevision d)) || negb (commit (gd_ConfigRevision d)) || negb (blob (gd_BlobID d)) ||
        negb (digest (gd_ContentSHA256 d)) || (str_len (gd_Raw d) =? 0) || (MaxDocumentBytes <? str_len (gd_Raw d)) ||
        empty (gd_SchemaVersion d) || negb (String.eqb (gd_ParserVersion d) (bd_ParserVersion b)) ||
        is_zero_time (gd_IndexedAt d)) &&
  negb (negb (String.eqb (gd_ContentSHA256 d) (contentDigest (gd_Raw d))) ||
        negb (eqb (gd_Valid d) (length (gd_Diagnostics d) =? 0)%nat) || (64 <? Z.of_nat (length (gd_Diagnostics d)))) &&
  forallb validDiagnostic (gd_Diagnostics d).

Definition NewDocument (b : Binding) (generation : Z) (applicationID sourceRevision configRevision blobID raw : string)
    (parsed : option members_of) (diagnostics : list Diagnostic) (now : Time) : res ProjErr Document :=
  let* p := ApplicationPath b applicationID in
  let d := mkDocument (bd_ID b) generation p applicationID sourceRevision configRevision blobID (contentDigest raw) raw
             parsed (length diagnostics =? 0)%nat diagnostics appSchema (bd_ParserVersion b) now in
  guard! validDocument d b else ErrInvalid in Ok d.

Definition NewDependencyDocument (b : Binding) (generation : Z)
    (dependencyPath sourceRevision configRevision blobID raw : string)
    (parsed : option members_of) (diagnostics : list Diagnostic) (now : Time) : res ProjErr Document :=
  guard! isDependency b dependencyPath else ErrInvalid in
  guard! negb ((length diagnostics =? 0)%nat && negb (bool_decide (is_Some parsed))) else ErrInvalid in
  let d := mkDocument (bd_ID b) generation dependencyPath "" sourceRevision configRevision blobID (contentDigest raw) raw
             parsed (length diagnostics =? 0)%nat diagnostics variablesSchema (bd_ParserVersion b) now in
  guard! validDocument d b else ErrInvalid in Ok d.

(** * Bundles and their entity tags *)

Record DependencyState := mkDependencyState {
  gs_Path : string;
  gs_Present : bool;
  gs_BlobID : string;
}.

Record Bundle := mkBundle {
  gb_BindingID : string;
  gb_TargetRef : string;
  gb_TargetHeadRevision : string;
  gb_IndexedRevision : string;
  gb_ConfigRevision : string;
  gb_ETag : string;
  gb_Stale : bool;
  gb_Documents : list Document;
  gb_Dependencies : list DependencyState;
  gb_IndexedAt : Time;
}.

(** A value is written with a NUL byte after it. *)
Definition hash_fields (values : list string) : string :=
  hex_encode (sha256 (string_bytes (str_join "" (map (λ value, value +:+ nul) values)))).

Definition quoted_digest (hex : string) : string :=
  String dquote ("sha256:" +:+ hex +:+ String dquote "").

Definition validETagInputs (b : Binding) (chartDigest policyVersion : string) (count : nat) : bool :=
  negb (negb (validBinding b) || negb (re_match chartIdentityRE chartDigest) || empty policyVersion ||
        (128 <? str_len policyVersion) || (MaxDocumentsBundle <? Z.of_nat count)).

(** The entries of documents that are valid and have distinct paths. *)
Fixpoint etagEntries (accept : Document → bool) (entry : Document → string) (seen : gset string)
    (documents : list Document) : option (list string) :=
  match documents with
  | [] => Some []
  | d :: rest =>
      if negb (accept d) then None
      else if bool_decide (gd_Path d ∈ seen) then None
      else match etagEntries accept entry ({[gd_Path d]} ∪ seen) rest with
           | Some entries => Some (entry d :: entries)
           | None => None
           end
  end.

Definition etagHeader (b : Binding) (chartDigest policyVersion : string) : list string :=
  [bd_ID b; bd_TargetRef b; bd_ParserVersion b; chartDigest; policyVersion].

Definition StrongETag (b : Binding) (documents dependencies : list Document) (chartDigest policyVersion : string)
    : res ProjErr string :=
  guard! validETagInputs b chartDigest policyVersion (length documents + length dependencies) &&
         negb (length documents =? 0)%nat else ErrInvalid in
  match etagEntries (λ d, validDocument d b) (λ d, gd_Path d +:+ nul +:+ gd_BlobID d) ∅ (documents ++ dependencies) with
  | None => Err ErrInvalid
  | Some entries => Ok (quoted_digest (hash_fields (etagHeader b chartDigest policyVersion ++ sort_strings entries)))
  end.

(** The dependencies by their paths, which are distinct. *)
Fixpoint dependenciesByPath (b : Binding) (paths : list string) (m : gmap string Document) (dependencies : list Document)
    : option (gmap string Document) :=
  match dependencies with
  | [] => Some m
  | d :: rest =>
      if negb (validDocument d b) || negb (empty (gd_ApplicationID d)) || negb (str_in (gd_Path d) paths) then None
      else if bool_decide (is_Some (m !! gd_Path d)) then None
      else dependenciesByPath b paths (<[gd_Path d := d]> m) rest
  end.

Definition bundleTag : string := "kuberploy-bundle-etag-v2".
Definition presentEntry (p blobID : string) : string := p +:+ nul +:+ "present" +:+ nul +:+ blobID.
Definition absentEntry (p : string) : string := p +:+ nul +:+ "absent".

Definition dependencyEntry (m : gmap string Document) (p : string) : string :=
  match m !! p with Some d => presentEntry p (gd_BlobID d) | None => absentEntry p end.

Definition StrongETagWithDependencies (b : Binding) (documents : list Document) (dependencyPaths : list string)
    (dependencies : list Document) (chartDigest policyVersion : string) : res ProjErr string :=
  match DependencyPaths b with
  | Err _ => Err ErrInvalid
  | Ok allowed =>
      guard! negb (negb (strs_eqb dependencyPaths allowed) || (length documents =? 0)%nat ||
                   (length dependencyPaths <? length dependencies)%nat) else ErrInvalid in
      if (length dependencies =? 0)%nat then StrongETag b documents [] chartDigest policyVersion else
      match dependenciesByPath b dependencyPaths ∅ dependencies with
      | None => Err ErrInvalid
      | Some m =>
          guard! validETagInputs b chartDigest policyVersion (length documents + length dependencies) else ErrInvalid in
          match etagEntries (λ d, validDocument d b && negb (empty (gd_ApplicationID d)))
                  (λ d, presentEntry (gd_Path d) (gd_BlobID d)) ∅ documents with
          | None => Err ErrInvalid
          | Some entries =>
              let all := sort_strings (entries ++ map (dependencyEntry m) dependencyPaths)%list in
              Ok (quoted_digest (hash_fields (bundleTag :: etagHeader b chartDigest policyVersion ++ all)))
          end
      end
  end.
