(* ===== verification/GitProjectionWrites.v ===== *)
(** The write model of the Git projection ([internal/gitprojection/model.go],
    [repository.go], [write_command_store.go]): reservations of a path, the plans
    and commands that were accepted, and the mutations of a repository they
    stand for, each with the authority that bounds the path it may write.

    A precondition, an action or an authority is the string it is in Go, whose
    empty value means something. *)

From Stdlib Require Import Ascii.
From S2P Require Import Prelude Regexp GoStrings Digest Encoding JsonValues GitProjection.

Open Scope Z_scope.

Definition MaxProtectedHelmPayloadBytes : Z := Z.shiftl 2 20.
Definition MaxProtectedHelmApplicationBytes : Z := Z.shiftl 32 10.
Definition MaxProtectedFoundationBytes : Z := Z.shiftl 256 10.
Definition MaxProtectedCertificateIssuerBytes : Z := Z.shiftl 32 10.
Definition MaxProtectedExternalDNSBytes : Z := Z.shiftl 128 10.
(** [variables.MaxDocumentBytes] *)
Definition MaxVariablesBytes : Z := 128 * 1024.

(** * Reservations *)

Inductive ReservationState : Set := ReservationCandidate | ReservationCommittedPendingIndex.

#[export] Instance ReservationState_eq_dec : EqDecision ReservationState.
Proof. solve_decision. Defined.

Record PathReservation := mkReservation {
  pr_BindingID : string;
  pr_TargetRef : string;
  pr_Path : string;
  pr_OperationID : string;
  pr_Owner : string;
  pr_BaseRevision : string;
  pr_CommittedRevision : string;
  pr_State : ReservationState;
  pr_LeaseUntil : option Time;
  pr_CreatedAt : Time;
  pr_UpdatedAt : Time;
}.

#[export] Instance PathReservation_eq_dec : EqDecision PathReservation.
Proof. solve_decision. Defined.

Definition within (b : Binding) (p : string) : bool := has_prefix (bd_Prefix b +:+ "/") (p +:+ "/").

Definition validReservationState (r : PathReservation) : bool :=
  match pr_State r with
  | ReservationCandidate => bool_decide (is_Some (pr_LeaseUntil r)) && empty (pr_CommittedRevision r)
  | ReservationCommittedPendingIndex =>
      negb (bool_decide (is_Some (pr_LeaseUntil r))) && commit (pr_CommittedRevision r)
  end.

Definition validReservation (r : PathReservation) (b : Binding) : bool :=
  let pathAuthorized := validRelativePath (pr_Path r) && within b (pr_Path r) || isDependency b (pr_Path r) in
  negb (negb (String.eqb (pr_BindingID r) (bd_ID b)) || negb (String.eqb (pr_TargetRef r) (bd_TargetRef b)) ||
        negb pathAuthorized || negb (uuid (pr_OperationID r)) || empty (pr_Owner r) || (128 <? str_len (pr_Owner r)) ||
        negb (valid_utf8 (pr_Owner r)) || contains_any crlf_nul (pr_Owner r) || negb (commit (pr_BaseRevision r)) ||
        is_zero_time (pr_CreatedAt r) || is_zero_time (pr_UpdatedAt r) || (pr_UpdatedAt r <? pr_CreatedAt r)) &&
  validReservationState r.

(** * Mutations *)

Definition MutationUpsert : string := "upsert".
Definition MutationDelete : string := "delete".

Definition MutationMatchETag : string := "match-etag".
Definition MutationCreateIfAbsent : string := "create-if-absent".

Definition MutationAuthorityHelmPayload : string := "helm-protected-payload.v1".
Definition MutationAuthorityHelmApplication : string := "helm-protected-application.v1".
Definition MutationAuthorityHelmCascade : string := "helm-application-cascade-preflight.v1".
Definition MutationAuthorityFoundation : string := "environment-foundation-protected-git.v1".
Definition MutationAuthorityCertificateIssuer : string := "certificate-issuer-protected-git.v1".
Definition MutationAuthorityExternalDNS : string := "external-dns-protected-git.v1".
Definition MutationAuthorityVariables : string := "variables-protected-git.v1".

Record Mutation := mkMutation {
  mu_BindingID : string;
  mu_OperationID : string;
  mu_Path : string;
  mu_BaseRevision : string;
  mu_Precondition : string;
  mu_ExpectedETag : string;
  mu_Content : string;
  mu_ContentSHA256 : string;
  mu_Message : string;
  mu_Action : string;
  mu_Authority : string;
  mu_CommitTrailer : string;
  mu_RequiredAncestor : string;
}.

Definition mu_set_BaseRevision (v : string) (m : Mutation) : Mutation :=
  mkMutation (mu_BindingID m) (mu_OperationID m) (mu_Path m) v (mu_Precondition m) (mu_ExpectedETag m) (mu_Content m)
    (mu_ContentSHA256 m) (mu_Message m) (mu_Action m) (mu_Authority m) (mu_CommitTrailer m) (mu_RequiredAncestor m).

(** [strings.Trim(value, quote)] *)
Fixpoint trim_left_byte (c : ascii) (s : string) : string :=
  match s with
  | String a rest => if Ascii.eqb a c then trim_left_byte c rest else s
  | "" => ""
  end.

Fixpoint trim_right_byte (c : ascii) (s : string) : string :=
  match s with
  | "" => ""
  | String a rest =>
      match trim_right_byte c rest with
      | "" => if Ascii.eqb a c then "" else String a ""
      | kept => String a kept
      end
  end.

Definition dquotes : string := String dquote "".

Definition validStrongETag (value : string) : bool :=
  (str_len value =? 8 + 64 + 1) && has_prefix dquotes value && has_suffix dquotes value &&
  digest (trim_right_byte dquote (trim_left_byte dquote value)).

Definition EffectivePrecondition (m : Mutation) : string :=
  if empty (mu_Precondition m) && validStrongETag (mu_ExpectedETag m) then MutationMatchETag else mu_Precondition m.

Definition EffectiveAction (m : Mutation) : string :=
  if empty (mu_Action m) then MutationUpsert else mu_Action m.

Definition validPrecondition (precondition etag : string) : bool :=
  String.eqb precondition MutationMatchETag && validStrongETag etag ||
  String.eqb precondition MutationCreateIfAbsent && empty etag.

Definition contentDigestMatches (content expected : string) : bool :=
  digest expected && String.eqb expected (contentDigest content).

(** ** The paths of each family *)

Definition partsBelow (b : Binding) (value : string) : list string :=
  split_byte "/" (trim_prefix (bd_Prefix b +:+ "/") value).

Definition platformPath (b : Binding) (value : string) : bool :=
  validBinding b && bool_decide (bd_Kind b = BindingPlatform) && has_prefix (bd_Prefix b +:+ "/") value.

Definition yamlNamed (valid : string → bool) (file : string) : bool :=
  has_suffix ".yaml" file && valid (trim_suffix ".yaml" file).

(** [parts] is exactly [segments], read as tests. *)
Fixpoint segments_match (tests : list (string → bool)) (parts : list string) : bool :=
  match tests, parts with
  | [], [] => true
  | t :: tests', p :: parts' => t p && segments_match tests' parts'
  | _, _ => false
  end.

Definition lit (s : string) : string → bool := String.eqb s.

Definition validFoundationPath (b : Binding) (value : string) : bool :=
  platformPath b value && segments_match [lit "argocd"; lit "foundations"; yamlNamed uuid] (partsBelow b value).

Definition validCertificateIssuerPath (b : Binding) (value : string) : bool :=
  platformPath b value &&
  segments_match [lit "argocd"; lit "platform"; lit "certificate-issuers"; yamlNamed (re_match kubeRE)]
    (partsBelow b value).

Definition validExternalDNSPath (b : Binding) (value : string) : bool :=
  platformPath b value &&
  segments_match [lit "argocd"; lit "platform"; lit "external-dns"; yamlNamed uuid] (partsBelow b value).

Definition validHelmPayloadPath (b : Binding) (value : string) : bool :=
  platformPath b value &&
  segments_match [lit "helm-manifests"; lit "environments"; uuid; lit "applications"; uuid; lit "revisions"; uuid;
                  λ file, str_in file ["release.yaml"; "disabled.json"]] (partsBelow b value).

Definition validHelmApplicationPath (b : Binding) (value : string) : bool :=
  platformPath b value && segments_match [lit "argocd"; lit "helm-applications"; uuid; yamlNamed uuid] (partsBelow b value).

(** [repository.go] *)
Definition validProtectedDocumentPath (b : Binding) (documentPath : string) : bool :=
  if negb (validBinding b) || negb (validRelativePath documentPath) then false
  else if isDependency b documentPath then true
  else if negb (within b documentPath) then false
  else match bd_Kind b with
  | BindingEnvironment => segments_match [lit "apps"; uuid; lit "app.yaml"] (partsBelow b documentPath)
  | BindingPlatform => segments_match [lit "argocd"; lit "environments"; yamlNamed uuid] (partsBelow b documentPath)
  end.

(** ** What each authority admits *)

Definition content_within (m : Mutation) (limit : Z) : bool :=
  negb ((str_len (mu_Content m) =? 0) || (limit <? str_len (mu_Content m)) ||
        negb (contentDigestMatches (mu_Content m) (mu_ContentSHA256 m))).

(** The switch over the action that most authorities share. *)
Definition upsertOrDelete (m : Mutation) (limit : Z) : bool :=
  if String.eqb (EffectiveAction m) MutationUpsert then content_within m limit
  else if String.eqb (EffectiveAction m) MutationDelete then
    negb (negb (String.eqb (EffectivePrecondition m) MutationMatchETag) || negb (str_len (mu_Content m) =? 0) ||
          negb (empty (mu_ContentSHA256 m)))
  else false.

Definition trailer (m : Mutation) (label : string) : bool :=
  String.eqb (mu_CommitTrailer m) (label +:+ mu_OperationID m).

Definition onPlatform (b : Binding) : bool := bool_decide (bd_Kind b = BindingPlatform).

Definition validUnprotected (m : Mutation) (b : Binding) : bool :=
  let size := str_len (mu_Content m) in
  let validContent :=
    String.eqb (EffectiveAction m) MutationUpsert && (0 <? size) && (size <=? MaxDocumentBytes) ||
    String.eqb (EffectiveAction m) MutationDelete && String.eqb (EffectivePrecondition m) MutationMatchETag && (size =? 0) in
  negb (negb validContent || negb (empty (mu_CommitTrailer m)) || negb (empty (mu_RequiredAncestor m)) ||
        negb (empty (mu_ContentSHA256 m)) || negb (validProtectedDocumentPath b (mu_Path m))).

Definition validHelmPayload (m : Mutation) (b : Binding) : bool :=
  onPlatform b && String.eqb (EffectiveAction m) MutationUpsert &&
  String.eqb (EffectivePrecondition m) MutationCreateIfAbsent && empty (mu_RequiredAncestor m) &&
  trailer m "Kuberploy-Helm-Payload-Intent: " && validHelmPayloadPath b (mu_Path m) &&
  content_within m MaxProtectedHelmPayloadBytes.

Definition validHelmApplication (m : Mutation) (b : Binding) : bool :=
  onPlatform b && commit (mu_RequiredAncestor m) && trailer m "Kuberploy-Helm-Application-Intent: " &&
  validHelmApplicationPath b (mu_Path m) && upsertOrDelete m MaxProtectedHelmApplicationBytes.

Definition validHelmCascade (m : Mutation) (b : Binding) : bool :=
  onPlatform b && String.eqb (EffectiveAction m) MutationUpsert &&
  String.eqb (EffectivePrecondition m) MutationMatchETag && commit (mu_RequiredAncestor m) &&
  trailer m "Kuberploy-Helm-Cascade-Preflight: " && validHelmApplicationPath b (mu_Path m) &&
  content_within m MaxProtectedHelmApplicationBytes.

Definition validFoundation (m : Mutation) (b : Binding) : bool :=
  onPlatform b &&
  (String.eqb (EffectivePrecondition m) MutationCreateIfAbsent || String.eqb (EffectivePrecondition m) MutationMatchETag) &&
  commit (mu_RequiredAncestor m) && trailer m "Kuberploy-Environment-Foundation-Intent: " &&
  validFoundationPath b (mu_Path m) && upsertOrDelete m MaxProtectedFoundationBytes.

Definition validCertificateIssuer (m : Mutation) (b : Binding) : bool :=
  onPlatform b && commit (mu_RequiredAncestor m) && trailer m "Kuberploy-Certificate-Issuer-Intent: " &&
  validCertificateIssuerPath b (mu_Path m) && upsertOrDelete m MaxProtectedCertificateIssuerBytes.

Definition validExternalDNS (m : Mutation) (b : Binding) : bool :=
  onPlatform b && commit (mu_RequiredAncestor m) && trailer m "Kuberploy-External-DNS-Intent: " &&
  validExternalDNSPath b (mu_Path m) && upsertOrDelete m MaxProtectedExternalDNSBytes.

Definition validVariables (m : Mutation) (b : Binding) : bool :=
  isDependency b (mu_Path m) && String.eqb (EffectiveAction m) MutationUpsert &&
  negb ((str_len (mu_Content m) =? 0) || (MaxVariablesBytes <? str_len (mu_Content m)) ||
        negb (empty (mu_ContentSHA256 m)) || negb (empty (mu_CommitTrailer m)) || negb (empty (mu_RequiredAncestor m))).

Definition validAuthority (m : Mutation) (b : Binding) : bool :=
  switch (mu_Authority m)
    [("", validUnprotected m b);
     (MutationAuthorityHelmPayload, validHelmPayload m b);
     (MutationAuthorityHelmApplication, validHelmApplication m b);
     (MutationAuthorityHelmCascade, validHelmCascade m b);
     (MutationAuthorityFoundation, validFoundation m b);
     (MutationAuthorityCertificateIssuer, validCertificateIssuer m b);
     (MutationAuthorityExternalDNS, validExternalDNS m b);
     (MutationAuthorityVariables, validVariables m b)] false.

Definition validMutation (m : Mutation) (b : Binding) : bool :=
  let pathInBinding :=
    if String.eqb (mu_Authority m) MutationAuthorityVariables then isDependency b (mu_Path m)
    else validRelativePath (mu_Path m) && within b (mu_Path m) in
  negb (negb (String.eqb (mu_BindingID m) (bd_ID b)) || negb (uuid (mu_OperationID m)) ||
        negb (commit (mu_BaseRevision m)) || negb (validPrecondition (EffectivePrecondition m) (mu_ExpectedETag m)) ||
        negb pathInBinding || (str_len (mu_Message m) =? 0) || (512 <? str_len (mu_Message m)) ||
        negb (valid_utf8 (mu_Message m)) || contains_any (String "000" (String "013" "")) (mu_Message m)) &&
  validAuthority m b.

(** * Plans *)

Record WritePlan := mkPlan {
  wp_BindingID : string;
  wp_ProjectID : string;
  wp_EnvironmentID : string;
  wp_ApplicationID : string;
  wp_BaseRevision : string;
  wp_Precondition : string;
  wp_ExpectedETag : string;
  wp_ChartDigest : string;
  wp_PolicyVersion : string;
  wp_VariableScope : string;
  wp_VariablePath : string;
}.

#[export] Instance WritePlan_eq_dec : EqDecision WritePlan.
Proof. solve_decision. Defined.

Definition validateIdentity (p : WritePlan) (b : Binding) : bool :=
  negb (negb (bool_decide (bd_Kind b = BindingEnvironment)) || negb (String.eqb (wp_BindingID p) (bd_ID b)) ||
        negb (String.eqb (wp_ProjectID p) (bd_ProjectID b)) || negb (String.eqb (wp_EnvironmentID p) (bd_EnvironmentID b)) ||
        negb (commit (wp_BaseRevision p)) || negb (validPrecondition (wp_Precondition p) (wp_ExpectedETag p)) ||
        empty (wp_PolicyVersion p) || (128 <? str_len (wp_PolicyVersion p)) || negb (valid_utf8 (wp_PolicyVersion p)) ||
        contains_any crlf_nul (wp_PolicyVersion p)) &&
  if empty (wp_VariableScope p) then
    negb (negb (is_ok (ApplicationPath b (wp_ApplicationID p))) || negb (empty (wp_VariablePath p)) ||
          negb (re_match chartIdentityRE (wp_ChartDigest p)))
  else match DependencyPaths b with
  | Ok [project; environment] =>
      negb (negb (empty (wp_ApplicationID p)) || negb (empty (wp_ChartDigest p)) ||
            negb (String.eqb (wp_PolicyVersion p) (bd_ParserVersion b))) &&
      (String.eqb (wp_VariableScope p) "project" && String.eqb (wp_VariablePath p) project ||
       String.eqb (wp_VariableScope p) "environment" && String.eqb (wp_VariablePath p) environment)
  | _ => false
  end.

Definition validPlan (p : WritePlan) (b : Binding) : bool :=
  negb (negb (validateIdentity p b) || negb (bool_decide (bd_State b = BindingReady)) ||
        negb (String.eqb (bd_TargetHeadRevision b) (wp_BaseRevision p)) ||
        negb (String.eqb (bd_IndexedRevision b) (wp_BaseRevision p))).

(** * Commands *)

Inductive WriteCommandState : Set := WriteCommandPending | WriteCommandGitCommitted | WriteCommandIndexed.
Inductive PublicationMode : Set := PublicationDirect | PublicationPullRequest.

#[export] Instance WriteCommandState_eq_dec : EqDecision WriteCommandState.
Proof. solve_decision. Defined.
#[export] Instance PublicationMode_eq_dec : EqDecision PublicationMode.
Proof. solve_decision. Defined.

Record WriteCommand := mkWrite {
  wc_OperationID : string;
  wc_DeploymentID : string;
  wc_ActorID : string;
  wc_Plan : WritePlan;
  wc_TargetRef : string;
  wc_Path : string;
  wc_Content : string;
  wc_ContentSHA256 : string;
  wc_Message : string;
  wc_Action : string;
  wc_RequestDigest : string;
  wc_PublicationMode : PublicationMode;
  wc_State : WriteCommandState;
  wc_CommittedRevision : string;
  wc_CommittedAt : option Time;
  wc_IndexedGeneration : Z;
  wc_IndexedAt : option Time;
  wc_CreatedAt : Time;
  wc_UpdatedAt : Time;
}.

#[export] Instance WriteCommand_eq_dec : EqDecision WriteCommand.
Proof. solve_decision. Defined.

(** The assignments of the store to a command. *)
Definition wc_set_Receipt (state : WriteCommandState) (revision : string) (committedAt : option Time)
    (generation : Z) (indexedAt : option Time) (updatedAt : Time) (c : WriteCommand) : WriteCommand :=
  mkWrite (wc_OperationID c) (wc_DeploymentID c) (wc_ActorID c) (wc_Plan c) (wc_TargetRef c) (wc_Path c) (wc_Content c)
    (wc_ContentSHA256 c) (wc_Message c) (wc_Action c) (wc_RequestDigest c) (wc_PublicationMode c) state revision
    committedAt generation indexedAt (wc_CreatedAt c) updatedAt.

Definition wc_set_Action (v : string) (c : WriteCommand) : WriteCommand :=
  mkWrite (wc_OperationID c) (wc_DeploymentID c) (wc_ActorID c) (wc_Plan c) (wc_TargetRef c) (wc_Path c) (wc_Content c)
    (wc_ContentSHA256 c) (wc_Message c) v (wc_RequestDigest c) (wc_PublicationMode c) (wc_State c)
    (wc_CommittedRevision c) (wc_CommittedAt c) (wc_IndexedGeneration c) (wc_IndexedAt c) (wc_CreatedAt c) (wc_UpdatedAt c).

(** [WriteCommand.Mutation] *)
Definition mutationOf (c : WriteCommand) : Mutation :=
  let plan := wc_Plan c in
  mkMutation (wp_BindingID plan) (wc_OperationID c) (wc_Path c) (wp_BaseRevision plan) (wp_Precondition plan)
    (wp_ExpectedETag plan) (if String.eqb (wc_Action c) MutationDelete then "" else wc_Content c) "" (wc_Message c)
    (wc_Action c) (if empty (wp_VariableScope plan) then "" else MutationAuthorityVariables) "" "".

Definition validReceipt (c : WriteCommand) : bool :=
  match wc_State c, wc_CommittedAt c, wc_IndexedAt c with
  | WriteCommandPending, None, None => empty (wc_CommittedRevision c) && (wc_IndexedGeneration c =? 0)
  | WriteCommandGitCommitted, Some committed, None =>
      commit (wc_CommittedRevision c) && negb (committed <? wc_CreatedAt c) && (wc_IndexedGeneration c =? 0)
  | WriteCommandIndexed, Some committed, Some indexed =>
      commit (wc_CommittedRevision c) && (0 <? wc_IndexedGeneration c) && negb (committed <? wc_CreatedAt c) &&
      negb (indexed <? committed)
  | _, _, _ => false
  end.

Definition validWriteCommand (c : WriteCommand) (b : Binding) : bool :=
  let variable := negb (empty (wp_VariableScope (wc_Plan c))) in
  let validTarget := if variable then empty (wc_DeploymentID c) else uuid (wc_DeploymentID c) in
  let validRequestDigest := if variable then digest (wc_RequestDigest c) else empty (wc_RequestDigest c) in
  let validAction :=
    String.eqb (wc_Action c) MutationUpsert ||
    String.eqb (wc_Action c) MutationDelete && negb variable &&
    String.eqb (wp_Precondition (wc_Plan c)) MutationMatchETag in
  negb (negb (validateIdentity (wc_Plan c) b) || negb (uuid (wc_OperationID c)) || negb validTarget ||
        negb (uuid (wc_ActorID c)) || negb validAction || negb (String.eqb (wc_TargetRef c) (bd_TargetRef b)) ||
        (str_len (wc_Content c) =? 0) || (MaxDocumentBytes <? str_len (wc_Content c)) ||
        negb (digest (wc_ContentSHA256 c)) || (str_len (wc_Message c) =? 0) || (512 <? str_len (wc_Message c)) ||
        negb (valid_utf8 (wc_Message c)) || contains_any (String "000" (String "013" "")) (wc_Message c) ||
        negb validRequestDigest || is_zero_time (wc_CreatedAt c) || is_zero_time (wc_UpdatedAt c) ||
        (wc_UpdatedAt c <? wc_CreatedAt c) || negb (validMutation (mutationOf c) b)) &&
  String.eqb (wc_ContentSHA256 c) (contentDigest (wc_Content c)) && validReceipt c.

Definition checkedCommand (c : WriteCommand) (b : Binding) : res ProjErr WriteCommand :=
  guard! validWriteCommand c b else ErrInvalid in Ok c.

Definition NewWriteCommand (operationID deploymentID actorID : string) (plan : WritePlan) (b : Binding)
    (content message : string) (now : Time) : res ProjErr WriteCommand :=
  let* p := ApplicationPath b (wp_ApplicationID plan) in
  checkedCommand
    (mkWrite operationID deploymentID actorID plan (bd_TargetRef b) p content (contentDigest content) message
       MutationUpsert "" PublicationDirect WriteCommandPending "" None 0 None now now) b.

Definition NewDeleteWriteCommand (operationID deploymentID actorID : string) (plan : WritePlan) (b : Binding)
    (content message : string) (now : Time) : res ProjErr WriteCommand :=
  let* c := NewWriteCommand operationID deploymentID actorID plan b content message now in
  checkedCommand (wc_set_Action MutationDelete c) b.

Definition NewVariableWriteCommand (operationID actorID : string) (plan : WritePlan) (b : Binding)
    (content message requestDigest : string) (now : Time) : res ProjErr WriteCommand :=
  guard! validateIdentity plan b && negb (empty (wp_VariableScope plan)) else ErrInvalid in
  checkedCommand
    (mkWrite operationID "" actorID plan (bd_TargetRef b) (wp_VariablePath plan) content (contentDigest content) message
       MutationUpsert requestDigest PublicationDirect WriteCommandPending "" None 0 None now now) b.

(** [write_command_store.go]: a command of variables was planned with the parser
    of its time. *)
Definition writeCommandBinding (c : WriteCommand) (b : Binding) : Binding :=
  if empty (wp_VariableScope (wc_Plan c)) then b else bd_set_ParserVersion (wp_PolicyVersion (wc_Plan c)) b.

Definition validatePersistedWriteCommand (c : WriteCommand) (b : Binding) : bool :=
  validWriteCommand c (writeCommandBinding c b).

Definition ValidateCandidateHead (b : Binding) (expected actual : string) : res ProjErr unit :=
  guard! validBinding b && commit expected && commit actual else ErrInvalid in
  guard! String.eqb expected actual else ErrConflict in
  Ok tt.
