(* ===== verification/GitProjectionStore.v ===== *)
(** The memory store of the Git projection ([internal/gitprojection/memory.go],
    [write_command_store.go], [runtime_readiness_store.go]) with the policy it
    applies when a generation is activated ([policy.go]).

    Every method holds the store's mutex, so it is one step from a store to the
    next; a method that fails changes nothing.  A map that is missing is empty,
    and a write to one of a generation's documents finds the map that was made
    with the generation (the field [pj_staged] of the invariant in
    GitProjectionFacts).  The validator of policies is an argument. *)

From Stdlib Require Import Ascii.
From S2P Require Import Prelude Regexp GoStrings JsonValues Workload AppConfig VariableCompiler Variables.
From S2P Require Import GitProjection GitProjectionWrites.

Open Scope Z_scope.

(** * Policies ([policy.go]) *)

Definition defaultMaxIndexDocuments : Z := 10000.

Record AppConfigPolicyInput := mkPolicyInput {
  ai_Binding : Binding;
  ai_Generation : Generation;
  ai_Current : list Document;
  ai_Previous : list Document;
}.

(** [map[string][]Diagnostic]: what a policy says of each path. *)
Definition PolicyValidation : Type := gmap string (list Diagnostic).

(** Every document is accepted and no two have the same path. *)
Fixpoint distinctAccepted (accept : Document → bool) (seen : gset string) (documents : list Document) : bool :=
  match documents with
  | [] => true
  | d :: rest =>
      accept d && negb (bool_decide (gd_Path d ∈ seen)) && distinctAccepted accept ({[gd_Path d]} ∪ seen) rest
  end.

Definition validPolicyInput (i : AppConfigPolicyInput) : bool :=
  let b := ai_Binding i in let g := ai_Generation i in
  negb (negb (validBinding b) || negb (validGeneration g) || negb (bool_decide (gn_State g = ProjectionStaging)) ||
        negb (String.eqb (gn_BindingID g) (bd_ID b)) || negb (String.eqb (gn_HeadRevision g) (bd_TargetHeadRevision b)) ||
        negb (String.eqb (gn_ParserVersion g) (bd_ParserVersion b)) ||
        (defaultMaxIndexDocuments <? Z.of_nat (length (ai_Current i))) ||
        (defaultMaxIndexDocuments <? Z.of_nat (length (ai_Previous i)))) &&
  distinctAccepted (λ d, validDocument d b && (gd_Generation d =? gn_Number g) &&
                         String.eqb (gd_SourceRevision d) (gn_HeadRevision g)) ∅ (ai_Current i) &&
  distinctAccepted (λ d, validDocument d b && (gd_Generation d =? bd_ProjectionGeneration b) &&
                         String.eqb (gd_SourceRevision d) (bd_IndexedRevision b)) ∅ (ai_Previous i).

Definition validPolicyDiagnostic (d : Diagnostic) : bool :=
  negb (empty (dg_Code d)) && (str_len (dg_Code d) <=? 64) && (0 <? str_len (dg_Detail d)) &&
  (str_len (dg_Detail d) <=? 1024) && valid_utf8 (dg_Detail d) && (str_len (dg_Pointer d) <=? 1024) &&
  valid_utf8 (dg_Pointer d).

(** Documents by path, the last one of a path. *)
Definition indexed (select : Document → bool) (documents : list Document) : gmap string Document :=
  foldl (λ m d, if select d then <[gd_Path d := d]> m else m) ∅ documents.

Definition isApplication (d : Document) : bool := negb (empty (gd_ApplicationID d)).
Definition isParent (d : Document) : bool := empty (gd_ApplicationID d).

Definition sameEffectiveInput (l r : Document) : bool :=
  String.eqb (gd_Path l) (gd_Path r) && String.eqb (gd_ApplicationID l) (gd_ApplicationID r) &&
  String.eqb (gd_BlobID l) (gd_BlobID r) && String.eqb (gd_ContentSHA256 l) (gd_ContentSHA256 r) &&
  String.eqb (gd_SchemaVersion l) (gd_SchemaVersion r) && String.eqb (gd_ParserVersion l) (gd_ParserVersion r).

Definition document_less (l r : Document) : bool := str_less (gd_Path l) (gd_Path r).

Section policy.
Context `{MapOrder} `{Libraries} `{YAMLDecoder}.

Definition validValidation (v : PolicyValidation) (input : AppConfigPolicyInput) : bool :=
  negb (negb (validPolicyInput input) || (length (ai_Current input) <? size v)%nat) &&
  let paths := indexed isApplication (ai_Current input) in
  forallb (λ kv, match paths !! kv.1 with
                 | None => false
                 | Some d =>
                     negb (64 - Z.of_nat (length (gd_Diagnostics d)) <? Z.of_nat (length kv.2)) &&
                     forallb validPolicyDiagnostic kv.2
                 end) (range 40 v).

(** [policyDocuments]: the documents of a generation, by path. *)
Definition policyDocuments (values : gmap string Document) : list Document :=
  sort_slice document_less (range 41 values).*2.

(** ** The parents of the effective environment *)

(** The documents of variables of the project and of the environment. *)
Fixpoint resolvedParents (project environment : string) (parents : VariableDocument * VariableDocument)
    (seen : gset string) (documents : list Document) : option (VariableDocument * VariableDocument) :=
  match documents with
  | [] => Some parents
  | d :: rest =>
      if isApplication d then resolvedParents project environment parents seen rest
      else
        let first := String.eqb (gd_Path d) project in
        let second := String.eqb (gd_Path d) environment in
        if negb (first || second) || negb (gd_Valid d) || bool_decide (gd_Path d ∈ seen) then None
        else match Variables.ParseAndValidate (gd_Raw d) with
        | Err _ => None
        | Ok parsed =>
            resolvedParents project environment (if second then (parents.1, parsed) else (parsed, parents.2))
              ({[gd_Path d]} ∪ seen) rest
        end
  end.

Definition resolvedApplication (parents : VariableDocument * VariableDocument) (d : Document) : bool :=
  if isParent d || negb (gd_Valid d) then true
  else
    let '(_, runtime, diagnostics) := AppConfig.ParseAndValidate (gd_Raw d) in
    match diagnostics with
    | [] =>
        match Variables.Resolve parents.1 parents.2 (rt_Env runtime) with
        | Err _ => false
        | Ok effective =>
            match ValidateWorkloadRuntime (rt_set_Env (RuntimeEnv effective) runtime) with [] => true | _ => false end
        end
    | _ => true
    end.

Definition validateResolvedVariableDependencies (b : Binding) (documents : list Document) : bool :=
  match DependencyPaths b with
  | Ok [project; environment] =>
      match resolvedParents project environment (noVariables, noVariables) ∅ documents with
      | Some parents => forallb (resolvedApplication parents) documents
      | None => false
      end
  | _ => false
  end.

(** ** What is activated *)

Definition withPolicy (b : Binding) (validation : PolicyValidation) (d : Document) : option Document :=
  let d := match validation !! gd_Path d with
           | Some diagnostics => gd_set_Diagnostics (gd_Diagnostics d ++ diagnostics) d
           | None => d
           end in
  if negb (validDocument d b) || isParent d && negb (gd_Valid d) then None else Some d.

Definition applyPolicyValidation (b : Binding) (documents : list Document) (validation : PolicyValidation)
    : option (list Document) :=
  result ← mapM (withPolicy b validation) documents;
  if validateResolvedVariableDependencies b result then Some result else None.

Definition parentsChanged (current previous : list Document) : bool :=
  let now := indexed isParent current in
  let before := indexed isParent previous in
  negb (size now =? size before)%nat ||
  existsb (λ kv, match before !! kv.1 with Some prior => negb (sameEffectiveInput kv.2 prior) | None => true end)
    (range 42 now).

(** The previous documents by path, which are distinct. *)
Definition distinctByPath (documents : list Document) : option (gmap string Document) :=
  if distinctAccepted (λ _, true) ∅ documents then Some (indexed (λ _, true) documents) else None.

Definition effectiveRevision (changed : bool) (previous : gmap string Document) (head : string) (d : Document) : Document :=
  if isApplication d && gd_Valid d then
    match previous !! gd_Path d with
    | Some prior =>
        if String.eqb (gd_ApplicationID prior) (gd_ApplicationID d) && gd_Valid prior && negb changed &&
           sameEffectiveInput d prior
        then gd_set_ConfigRevision (gd_ConfigRevision prior) d
        else gd_set_ConfigRevision head d
    | None => gd_set_ConfigRevision head d
    end
  else d.

Definition applyEffectiveConfigRevisions (current previous : list Document) (head : string) : option (list Document) :=
  if negb (commit head) then None
  else
    previousByPath ← distinctByPath previous;
    Some (map (effectiveRevision (parentsChanged current previous) previousByPath head) current).

Definition SchemaOnlyAppConfigPolicyValidator (input : AppConfigPolicyInput) : res ProjErr PolicyValidation :=
  guard! validPolicyInput input else ErrInvalid in Ok ∅.

(** The documents that become active, of those staged and those active before. *)
Definition activatedDocuments (policy : AppConfigPolicyInput → res ProjErr PolicyValidation) (b : Binding)
    (g : Generation) (current previous : list Document) : res ProjErr (list Document) :=
  let input := mkPolicyInput b g current previous in
  match bd_Kind b with
  | BindingPlatform =>
      guard! (length current =? 0)%nat && (length previous =? 0)%nat else ErrConflict in
      guard! validValidation ∅ input else ErrInvalid in
      Ok []
  | BindingEnvironment =>
      let* validation := policy input in
      guard! validValidation validation input else ErrInvalid in
      match applyPolicyValidation b current validation with
      | None => Err ErrInvalid
      | Some validated =>
          match applyEffectiveConfigRevisions validated previous (gn_HeadRevision g) with
          | None => Err ErrInvalid
          | Some documents => Ok documents
          end
      end
  end.
End policy.

(** * The store *)

Record memoryReconciliation := mkReconciliation {
  mr_lease : option ReconciliationLease;
  mr_epoch : Z;
  mr_reconciledAt : Time;
  mr_lastError : string;
}.

Definition zeroReconciliation : memoryReconciliation := mkReconciliation None 0 zero_time "".

Definition mr_set_lease (v : option ReconciliationLease) (r : memoryReconciliation) : memoryReconciliation :=
  mkReconciliation v (mr_epoch r) (mr_reconciledAt r) (mr_lastError r).

(** *** Workers of the runtime ([runtime_readiness.go]) *)

Definition RuntimeContract : string := "git-projection-runtime-v2".
Definition RuntimeHeartbeatInterval : Duration := 10 * second.
Definition RuntimeHeartbeatMaxAge : Duration := 35 * second.

Record RuntimeIdentity := mkIdentity {
  id_ContractVersion : string;
  id_ConfigDigest : string;
  id_GitHubAppID : Z;
}.

#[export] Instance RuntimeIdentity_eq_dec : EqDecision RuntimeIdentity.
Proof. solve_decision. Defined.

Record RuntimeWorkerObservation := mkObservation {
  ob_WorkerID : string;
  ob_Identity : RuntimeIdentity;
  ob_StartedAt : Time;
  ob_ObservedAt : Time;
}.

#[export] Instance RuntimeWorkerObservation_eq_dec : EqDecision RuntimeWorkerObservation.
Proof. solve_decision. Defined.

Record RuntimeLease := mkRuntimeLease {
  rt_Observation : RuntimeWorkerObservation;
  rt_Epoch : Z;
  rt_Until : Time;
}.

#[export] Instance RuntimeLease_eq_dec : EqDecision RuntimeLease.
Proof. solve_decision. Defined.

Definition validRuntimeIdentity (i : RuntimeIdentity) : bool :=
  negb (negb (String.eqb (id_ContractVersion i) RuntimeContract) || negb (digest (id_ConfigDigest i)) ||
        (id_GitHubAppID i <=? 0)).

Definition validObservation (o : RuntimeWorkerObservation) : bool :=
  negb (negb (validRuntimeIdentity (ob_Identity o)) || negb (re_match ownerRE (ob_WorkerID o)) ||
        is_zero_time (ob_StartedAt o) || is_zero_time (ob_ObservedAt o) || (ob_ObservedAt o <? ob_StartedAt o)).

Definition validRuntimeLease (l : RuntimeLease) : bool :=
  negb (negb (validObservation (rt_Observation l)) || (rt_Epoch l <=? 0) || is_zero_time (rt_Until l) ||
        negb (ob_ObservedAt (rt_Observation l) <? rt_Until l)).

Definition validRuntimeLeaseDuration (duration : Duration) : bool :=
  (2 * RuntimeHeartbeatInterval <=? duration) && (duration <=? 5 * minute).

(** *** State *)

Record MemoryStore := mkStore {
  gp_bindings : gmap string Binding;
  gp_observations : gmap string (list VerifiedHead);
  gp_webhooks : gmap string WebhookTombstone;
  gp_webhookEvents : gmap string string;
  gp_polls : gmap string PollCursor;
  gp_reconciliation : gmap string memoryReconciliation;
  gp_generations : gmap string (gmap Z Generation);
  gp_documents : gmap string (gmap Z (gmap string Document));
  gp_reservations : gmap string PathReservation;
  gp_runtimeLeases : gmap string RuntimeLease;
  gp_writeCommands : gmap string WriteCommand;
}.

Definition NewMemoryStore : MemoryStore := mkStore ∅ ∅ ∅ ∅ ∅ ∅ ∅ ∅ ∅ ∅ ∅.

Definition gp_set_bindings (v : gmap string Binding) (s : MemoryStore) : MemoryStore :=
  mkStore v (gp_observations s) (gp_webhooks s) (gp_webhookEvents s) (gp_polls s) (gp_reconciliation s)
    (gp_generations s) (gp_documents s) (gp_reservations s) (gp_runtimeLeases s) (gp_writeCommands s).
Definition gp_set_observations (v : gmap string (list VerifiedHead)) (s : MemoryStore) : MemoryStore :=
  mkStore (gp_bindings s) v (gp_webhooks s) (gp_webhookEvents s) (gp_polls s) (gp_reconciliation s)
    (gp_generations s) (gp_documents s) (gp_reservations s) (gp_runtimeLeases s) (gp_writeCommands s).
Definition gp_set_webhooks (v : gmap string WebhookTombstone) (e : gmap string string) (s : MemoryStore) : MemoryStore :=
  mkStore (gp_bindings s) (gp_observations s) v e (gp_polls s) (gp_reconciliation s)
    (gp_generations s) (gp_documents s) (gp_reservations s) (gp_runtimeLeases s) (gp_writeCommands s).
Definition gp_set_polls (v : gmap string PollCursor) (r : gmap string memoryReconciliation) (s : MemoryStore) : MemoryStore :=
  mkStore (gp_bindings s) (gp_observations s) (gp_webhooks s) (gp_webhookEvents s) v r
    (gp_generations s) (gp_documents s) (gp_reservations s) (gp_runtimeLeases s) (gp_writeCommands s).
Definition gp_set_generations (v : gmap string (gmap Z Generation)) (d : gmap string (gmap Z (gmap string Document)))
    (s : MemoryStore) : MemoryStore :=
  mkStore (gp_bindings s) (gp_observations s) (gp_webhooks s) (gp_webhookEvents s) (gp_polls s) (gp_reconciliation s)
    v d (gp_reservations s) (gp_runtimeLeases s) (gp_writeCommands s).
Definition gp_set_reservations (v : gmap string PathReservation) (s : MemoryStore) : MemoryStore :=
  mkStore (gp_bindings s) (gp_observations s) (gp_webhooks s) (gp_webhookEvents s) (gp_polls s) (gp_reconciliation s)
    (gp_generations s) (gp_documents s) v (gp_runtimeLeases s) (gp_writeCommands s).
Definition gp_set_runtimeLeases (v : gmap string RuntimeLease) (s : MemoryStore) : MemoryStore :=
  mkStore (gp_bindings s) (gp_observations s) (gp_webhooks s) (gp_webhookEvents s) (gp_polls s) (gp_reconciliation s)
    (gp_generations s) (gp_documents s) (gp_reservations s) v (gp_writeCommands s).
Definition gp_set_writeCommands (v : gmap string WriteCommand) (s : MemoryStore) : MemoryStore :=
  mkStore (gp_bindings s) (gp_observations s) (gp_webhooks s) (gp_webhookEvents s) (gp_polls s) (gp_reconciliation s)
    (gp_generations s) (gp_documents s) (gp_reservations s) (gp_runtimeLeases s) v.

Definition reconciliationOf (s : MemoryStore) (id : string) : memoryReconciliation :=
  default zeroReconciliation (gp_reconciliation s !! id).
Definition cursorOf (s : MemoryStore) (id : string) : PollCursor := default zeroCursor (gp_polls s !! id).
Definition generationsOf (s : MemoryStore) (id : string) : gmap Z Generation := default ∅ (gp_generations s !! id).
Definition documentsOf (s : MemoryStore) (id : string) : gmap Z (gmap string Document) := default ∅ (gp_documents s !! id).
Definition documentsIn (s : MemoryStore) (id : string) (number : Z) : gmap string Document :=
  default ∅ (documentsOf s id !! number).

(** [bindings[id]] and the error when there is none. *)
Definition lookupBinding (s : MemoryStore) (id : string) : res ProjErr Binding :=
  match gp_bindings s !! id with Some b => Ok b | None => Err ErrNotFound end.

(** * Bindings *)

(** [bindingIdentity] *)
Definition immutableBinding (b : Binding)
    : BindingKind * string * string * string * RepositoryIdentity * string * string * CredentialMode * string :=
  (bd_Kind b, bd_ScopeID b, bd_ProjectID b, bd_EnvironmentID b, bd_Repository b, bd_TargetRef b, bd_Prefix b,
   bd_CredentialMode b, bd_CredentialSecretName b).

Definition sameScope (l r : Binding) : bool :=
  bool_decide (bd_Kind l = bd_Kind r) && String.eqb (bd_ScopeID l) (bd_ScopeID r).

Section store.
Context `{MapOrder}.

Definition PutBinding (s : MemoryStore) (b : Binding) : res ProjErr MemoryStore :=
  guard! validBinding b else ErrInvalid in
  match gp_bindings s !! bd_ID b with
  | Some current => guard! bool_decide (immutableBinding current = immutableBinding b) else ErrConflict in Ok s
  | None =>
      guard! negb (existsb (λ kv, sameScope kv.2 b) (range 43 (gp_bindings s))) else ErrConflict in
      Ok (gp_set_bindings (<[bd_ID b := b]> (gp_bindings s)) s)
  end.

Definition binding_less (l r : Binding) : bool := str_less (bd_ID l) (bd_ID r).

Definition BindingsForScope (s : MemoryStore) (kind : BindingKind) (scopeID : string) : res ProjErr (list Binding) :=
  guard! uuid scopeID else ErrInvalid in
  Ok (sort_slice binding_less
        (List.filter (λ b, bool_decide (bd_Kind b = kind) && String.eqb (bd_ScopeID b) scopeID)
           (range 44 (gp_bindings s)).*2)).

Definition SetBindingState (s : MemoryStore) (bindingID expectedHead : string) (state : BindingState) (now : Time)
    : res ProjErr MemoryStore :=
  guard! negb (is_zero_time now || negb (empty expectedHead) && negb (commit expectedHead) ||
               bool_decide (state = BindingReady)) else ErrInvalid in
  let* b := lookupBinding s bindingID in
  guard! String.eqb (bd_TargetHeadRevision b) expectedHead else ErrConflict in
  guard! negb (now <? bd_UpdatedAt b) else ErrConflict in
  Ok (gp_set_bindings (<[bindingID := bd_set_State state now b]> (gp_bindings s)) s).

(** An observation older than the one that is recorded, or of another head at its
    very time. *)
Definition staleObservation (head : VerifiedHead) (b : Binding) : bool :=
  (vh_ObservedAt head <? bd_CreatedAt b) ||
  negb (is_zero_time (bd_TargetHeadObservedAt b)) &&
  ((vh_ObservedAt head <? bd_TargetHeadObservedAt b) ||
   (vh_ObservedAt head =? bd_TargetHeadObservedAt b) && negb (String.eqb (vh_Commit head) (bd_TargetHeadRevision b))).

Definition sameObservation (head old : VerifiedHead) : bool :=
  String.eqb (vh_Commit old) (vh_Commit head) && bool_decide (vh_Source old = vh_Source head) &&
  String.eqb (vh_ProviderRequest old) (vh_ProviderRequest head).

Definition observationsOf (s : MemoryStore) (id : string) : list VerifiedHead := default [] (gp_observations s !! id).

(** Whether the observation is one of the past, and the store that has it. *)
Definition observe (s : MemoryStore) (b : Binding) (head : VerifiedHead) : bool * MemoryStore :=
  if existsb (sameObservation head) (observationsOf s (bd_ID b)) then (true, s)
  else (false, gp_set_observations (<[bd_ID b := (observationsOf s (bd_ID b) ++ [head])%list]> (gp_observations s)) s).

(** [time.Microsecond] *)
Definition microsecond : Duration := 1000.

Definition observedAt (head : VerifiedHead) (b : Binding) : Time :=
  if bd_UpdatedAt b <? vh_ObservedAt head then vh_ObservedAt head else bd_UpdatedAt b + microsecond.

(** The state of a binding whose head is observed. *)
Definition headState (indexed : bool) (b : Binding) : BindingState :=
  if indexed && negb (bool_decide (bd_State b = BindingIndexing)) then BindingReady
  else if negb (bool_decide (bd_State b = BindingDiverged)) then BindingIndexing
  else bd_State b.

Definition RecordVerifiedHead (s : MemoryStore) (head : VerifiedHead) : res ProjErr (MemoryStore * (Binding * bool)) :=
  let* b := lookupBinding s (vh_BindingID head) in
  guard! validHeadFor head b else ErrProviderMismatch in
  guard! negb (staleObservation head b) else ErrConflict in
  let '(replay, s) := observe s b head in
  let b := bd_set_Head (vh_Commit head) (vh_ObservedAt head)
             (headState (String.eqb (bd_IndexedRevision b) (vh_Commit head)) b) (observedAt head b) b in
  Ok (gp_set_bindings (<[bd_ID b := b]> (gp_bindings s)) s, (b, replay)).

(** * Webhooks and cursors *)

Definition webhookKey (w : WebhookTombstone) : string := wt_Provider w +:+ nul +:+ wt_DeliveryHash w.
Definition webhookEventKey (w : WebhookTombstone) : string :=
  wt_Provider w +:+ nul +:+ format_int (wt_RepositoryID w) +:+ nul +:+ wt_TargetRef w +:+ nul +:+ wt_AfterCommit w.

Definition ClaimWebhook (s : MemoryStore) (w : WebhookTombstone) : res ProjErr (MemoryStore * bool) :=
  guard! validTombstone w else ErrInvalid in
  if bool_decide (is_Some (gp_webhooks s !! webhookKey w)) ||
     bool_decide (is_Some (gp_webhookEvents s !! webhookEventKey w)) then Ok (s, false)
  else Ok (gp_set_webhooks (<[webhookKey w := w]> (gp_webhooks s))
             (<[webhookEventKey w := webhookKey w]> (gp_webhookEvents s)) s, true).

Definition PollCursorOf (s : MemoryStore) (id : string) : res ProjErr PollCursor :=
  match gp_polls s !! id with Some c => Ok c | None => Err ErrNotFound end.

(** [lease != nil && lease.Until.After(now)] *)
Definition leased (r : memoryReconciliation) (now : Time) : bool :=
  match mr_lease r with Some l => now <? rl_Until l | None => false end.

Definition PutPollCursor (s : MemoryStore) (value : PollCursor) : res ProjErr MemoryStore :=
  guard! validCursor value else ErrInvalid in
  let id := pc_BindingID value in
  let* b := lookupBinding s id in
  let state := reconciliationOf s id in
  let* _ :=
    match gp_polls s !! id with
    | Some current =>
        guard! negb (leased state (pc_UpdatedAt value)) else ErrLeaseHeld in
        guard! negb ((pc_UpdatedAt value <? pc_UpdatedAt current) ||
                     (pc_UpdatedAt value =? pc_UpdatedAt current) && negb (bool_decide (value = current)))
          else ErrConflict in
        Ok tt
    | None => Ok tt
    end in
  Ok (gp_set_polls (<[id := value]> (gp_polls s))
        (<[id := mkReconciliation (mr_lease state) (mr_epoch state) (bd_UpdatedAt b) ""]> (gp_reconciliation s)) s).

(** * Reconciliation *)

(** [None]: the loop goes on to the next binding. *)
Definition claimOne (s : MemoryStore) (owner : string) (now : Time) (duration : Duration) (id : string)
    : option (MemoryStore * ReconciliationWork) :=
  b ← gp_bindings s !! id;
  if negb (bool_decide (bd_CredentialMode b = CredentialGitHubApp)) then None else
  let cursor := gp_polls s !! id in
  let future := match cursor with Some c => now <? pc_UpdatedAt c | None => false end in
  if (now <? bd_UpdatedAt b) || future then None else
  let state := reconciliationOf s id in
  let bindingChanged := is_zero_time (mr_reconciledAt state) || negb (mr_reconciledAt state =? bd_UpdatedAt b) in
  if leased state now then None else
  let reclaimed := bool_decide (is_Some (mr_lease state)) in
  let notDue := match cursor with Some c => now <? pc_NextPollAt c | None => false end in
  if negb reclaimed && notDue && (mr_reconciledAt state =? bd_UpdatedAt b) then None else
  let cursor := default (mkCursor id "" "" 0 now now) cursor in
  let epoch := i64 (mr_epoch state + 1) in
  let lease := mkLease id owner epoch 0 (now + duration) in
  let cursor := mkCursor (pc_BindingID cursor) (pc_LastCommit cursor) (pc_ProviderCursor cursor)
                  (pc_ConsecutiveFail cursor) (pc_NextPollAt cursor) now in
  Some (gp_set_polls (<[id := cursor]> (gp_polls s))
          (<[id := mkReconciliation (Some lease) epoch (mr_reconciledAt state) (mr_lastError state)]>
             (gp_reconciliation s)) s,
        mkReconciliationWork b lease (pc_ConsecutiveFail cursor) reclaimed bindingChanged).

Fixpoint claimFirst (s : MemoryStore) (owner : string) (now : Time) (duration : Duration) (ids : list string)
    : res ProjErr (MemoryStore * ReconciliationWork) :=
  match ids with
  | [] => Err ErrNotFound
  | id :: rest =>
      match claimOne s owner now duration id with
      | Some claimed => Ok claimed
      | None => claimFirst s owner now duration rest
      end
  end.

Definition ClaimReconciliation (s : MemoryStore) (owner : string) (now : Time) (duration : Duration)
    : res ProjErr (MemoryStore * ReconciliationWork) :=
  guard! negb (negb (re_match ownerRE owner) || is_zero_time now || negb (validReconciliationLeaseDuration duration))
    else ErrInvalid in
  claimFirst s owner now duration (sort_strings (range 45 (gp_bindings s)).*1).

Definition activeReconciliationLocked (s : MemoryStore) (lease : ReconciliationLease) (now : Time) : bool :=
  match gp_reconciliation s !! rl_BindingID lease with
  | Some state =>
      match mr_lease state with
      | Some l => String.eqb (rl_Owner l) (rl_Owner lease) && (rl_Epoch l =? rl_Epoch lease) && (now <? rl_Until l)
      | None => false
      end
  | None => false
  end.

Definition untilOf (r : memoryReconciliation) : Time := match mr_lease r with Some l => rl_Until l | None => zero_time end.

Definition HeartbeatReconciliation (s : MemoryStore) (lease : ReconciliationLease) (now : Time) (duration : Duration)
    : res ProjErr (MemoryStore * ReconciliationLease) :=
  guard! negb (negb (validLease lease) || is_zero_time now || negb (validReconciliationLeaseDuration duration))
    else ErrInvalid in
  guard! activeReconciliationLocked s lease now else ErrLeaseLost in
  let id := rl_BindingID lease in
  let state := reconciliationOf s id in
  guard! (untilOf state <? now + duration) else ErrLeaseLost in
  let cursor := cursorOf s id in
  guard! negb (now <? pc_UpdatedAt cursor) else ErrLeaseLost in
  let renewed := mkLease id (rl_Owner lease) (rl_Epoch lease) (rl_WakeGeneration lease) (now + duration) in
  let cursor := mkCursor (pc_BindingID cursor) (pc_LastCommit cursor) (pc_ProviderCursor cursor)
                  (pc_ConsecutiveFail cursor) (pc_NextPollAt cursor) now in
  Ok (gp_set_polls (<[id := cursor]> (gp_polls s))
        (<[id := mr_set_lease (Some renewed) state]> (gp_reconciliation s)) s, renewed).

Definition FinishReconciliation (s : MemoryStore) (lease : ReconciliationLease) (outcome : ReconciliationOutcome) (now : Time)
    : res ProjErr MemoryStore :=
  guard! negb (negb (validLease lease) || negb (validOutcome outcome) || is_zero_time now ||
               negb (now <? ro_NextPollAt outcome)) else ErrInvalid in
  guard! activeReconciliationLocked s lease now else ErrLeaseLost in
  let id := rl_BindingID lease in
  let* b := lookupBinding s id in
  let cursor := cursorOf s id in
  guard! negb ((now <? bd_UpdatedAt b) || (now <? pc_UpdatedAt cursor)) else ErrConflict in
  let last := ro_LastCommit outcome in
  guard! negb ((ro_ConsecutiveFailure outcome =? 0) &&
               (negb (bool_decide (bd_State b = BindingReady)) || negb (String.eqb (bd_TargetHeadRevision b) last) ||
                negb (String.eqb (bd_IndexedRevision b) last)) ||
               (0 <? ro_ConsecutiveFailure outcome) && negb (empty last) &&
               negb (String.eqb (bd_TargetHeadRevision b) last)) else ErrConflict in
  let cursor := mkCursor (pc_BindingID cursor) last (pc_ProviderCursor cursor) (ro_ConsecutiveFailure outcome)
                  (ro_NextPollAt outcome) now in
  Ok (gp_set_polls (<[id := cursor]> (gp_polls s))
        (<[id := mkReconciliation None (mr_epoch (reconciliationOf s id)) (bd_UpdatedAt b) (ro_FailureCode outcome)]>
           (gp_reconciliation s)) s).

Definition ReleaseReconciliation (s : MemoryStore) (lease : ReconciliationLease) (now : Time) : res ProjErr MemoryStore :=
  guard! negb (negb (validLease lease) || is_zero_time now) else ErrInvalid in
  guard! activeReconciliationLocked s lease now else ErrLeaseLost in
  let id := rl_BindingID lease in
  let cursor := cursorOf s id in
  let cursor := mkCursor (pc_BindingID cursor) (pc_LastCommit cursor) (pc_ProviderCursor cursor)
                  (pc_ConsecutiveFail cursor) now now in
  Ok (gp_set_polls (<[id := cursor]> (gp_polls s))
        (<[id := mr_set_lease None (reconciliationOf s id)]> (gp_reconciliation s)) s).

(** * Generations *)

Definition isStaging (g : Generation) : bool := bool_decide (gn_State g = ProjectionStaging).

(** One round of the loop over the generations of a binding. *)
Definition retire (acc : Z * gmap Z Generation * gmap Z (gmap string Document)) (kv : Z * Generation)
    : Z * gmap Z Generation * gmap Z (gmap string Document) :=
  let '(number, generations, documents) := acc in
  let '(existing, old) := kv in
  let staging := isStaging old in
  (if number <=? existing then i64 (existing + 1) else number,
   if staging then <[existing := gn_set_State ProjectionFailed (gn_ActivatedAt old) old]> generations else generations,
   if staging then delete existing documents else documents).

Definition BeginGeneration (s : MemoryStore) (lease : ReconciliationLease) (expectedHead parser : string) (now : Time)
    : res ProjErr (MemoryStore * Generation) :=
  guard! negb (negb (validLease lease) || is_zero_time now || negb (commit expectedHead) || empty parser ||
               (64 <? str_len parser)) else ErrInvalid in
  guard! activeReconciliationLocked s lease now else ErrLeaseLost in
  let id := rl_BindingID lease in
  let* b := lookupBinding s id in
  guard! negb (bool_decide (bd_State b = BindingDiverged)) else ErrDiverged in
  guard! negb (bool_decide (bd_State b = BindingMissingRef)) else ErrMissingRef in
  guard! String.eqb (bd_TargetHeadRevision b) expectedHead && String.eqb (bd_ParserVersion b) parser else ErrConflict in
  guard! negb (now <? bd_UpdatedAt b) else ErrConflict in
  let '(number, generations, documents) :=
    foldl retire (i64 (bd_ProjectionGeneration b + 1), generationsOf s id, documentsOf s id)
      (map_to_list (generationsOf s id)) in
  let generation := mkGeneration id number expectedHead parser ProjectionStaging now None in
  Ok (gp_set_generations (<[id := <[number := generation]> generations]> (gp_generations s))
        (<[id := <[number := ∅]> documents]> (gp_documents s)) s, generation).

Definition contradicts (d : Document) (existing : option Document) : bool :=
  match existing with
  | Some e => negb (String.eqb (gd_BlobID e) (gd_BlobID d)) || negb (String.eqb (gd_ContentSHA256 e) (gd_ContentSHA256 d))
  | None => false
  end.

(** [None] when every document is accepted. *)
Fixpoint stageDocuments (b : Binding) (g : Generation) (staged pending : gmap string Document) (documents : list Document)
    : option ProjErr :=
  match documents with
  | [] => None
  | d :: rest =>
      if negb (validDocument d b) || negb (gd_Generation d =? gn_Number g) ||
         negb (String.eqb (gd_SourceRevision d) (gn_HeadRevision g)) || (gd_IndexedAt d <? gn_StartedAt g)
      then Some ErrInvalid
      else if contradicts d (staged !! gd_Path d) || contradicts d (pending !! gd_Path d) then Some ErrConflict
      else stageDocuments b g staged (<[gd_Path d := d]> pending) rest
  end.

Definition put_all (documents : list Document) (m : gmap string Document) : gmap string Document :=
  foldl (λ m d, <[gd_Path d := d]> m) m documents.

(** [s.documents[binding][number]] becomes another. *)
Definition setDocuments (id : string) (number : Z) (m : gmap string Document) (s : MemoryStore)
    : gmap string (gmap Z (gmap string Document)) :=
  <[id := <[number := m]> (documentsOf s id)]> (gp_documents s).

Definition setGeneration (g : Generation) (s : MemoryStore) : gmap string (gmap Z Generation) :=
  <[gn_BindingID g := <[gn_Number g := g]> (generationsOf s (gn_BindingID g))]> (gp_generations s).

(** The generation is the one that is stored. *)
Definition isCurrent (s : MemoryStore) (g : Generation) : bool :=
  bool_decide (generationsOf s (gn_BindingID g) !! gn_Number g = Some g).

Definition PutDocuments (s : MemoryStore) (g : Generation) (documents : list Document) : res ProjErr MemoryStore :=
  guard! isStaging g && negb (1000 <? Z.of_nat (length documents)) else ErrInvalid in
  let* b := lookupBinding s (gn_BindingID g) in
  guard! isCurrent s g else ErrConflict in
  let staged := documentsIn s (gn_BindingID g) (gn_Number g) in
  match stageDocuments b g staged ∅ documents with
  | Some e => Err e
  | None =>
      Ok (match documents with
          | [] => s
          | _ => gp_set_generations (gp_generations s)
                   (setDocuments (gn_BindingID g) (gn_Number g) (put_all documents staged) s) s
          end)
  end.

Definition FailGeneration (s : MemoryStore) (lease : ReconciliationLease) (g : Generation) (now : Time)
    : res ProjErr MemoryStore :=
  guard! negb (negb (validLease lease) || is_zero_time now || negb (String.eqb (rl_BindingID lease) (gn_BindingID g)) ||
               negb (isStaging g)) else ErrInvalid in
  guard! activeReconciliationLocked s lease now else ErrLeaseLost in
  guard! isCurrent s g else ErrConflict in
  Ok (gp_set_generations (setGeneration (gn_set_State ProjectionFailed (gn_ActivatedAt g) g) s)
        (<[gn_BindingID g := delete (gn_Number g) (documentsOf s (gn_BindingID g))]> (gp_documents s)) s).

(** ** Activation *)

Definition indexCommand (number : Z) (now : Time) (c : WriteCommand) : WriteCommand :=
  wc_set_Receipt WriteCommandIndexed (wc_CommittedRevision c) (wc_CommittedAt c) number (Some now) now c.

Definition committed (c : WriteCommand) : bool := bool_decide (wc_State c = WriteCommandGitCommitted).

(** The command a reservation stands for. *)
Definition reservedCommand (b : Binding) (r : PathReservation) (c : WriteCommand) : bool :=
  String.eqb (wp_BindingID (wc_Plan c)) (bd_ID b) && String.eqb (wc_TargetRef c) (pr_TargetRef r) &&
  String.eqb (wc_Path c) (pr_Path r) && committed c.

Definition coveredReservation (b : Binding) (r : PathReservation) : bool :=
  String.eqb (pr_BindingID r) (bd_ID b) && bool_decide (pr_State r = ReservationCommittedPendingIndex).

(** One round over the reservations. *)
Definition settle (b : Binding) (number : Z) (now : Time) (acc : gmap string WriteCommand * gmap string PathReservation)
    (kv : string * PathReservation) : gmap string WriteCommand * gmap string PathReservation :=
  let '(commands, reservations) := acc in
  if coveredReservation b kv.2 then
    (match commands !! pr_OperationID kv.2 with
     | Some c => if reservedCommand b kv.2 c then <[pr_OperationID kv.2 := indexCommand number now c]> commands else commands
     | None => commands
     end, delete kv.1 reservations)
  else acc.

(** Every command of the binding that is committed at the head. *)
Definition indexExact (b : Binding) (head : string) (number : Z) (now : Time) (c : WriteCommand) : WriteCommand :=
  if String.eqb (wp_BindingID (wc_Plan c)) (bd_ID b) && committed c && String.eqb (wc_CommittedRevision c) head
  then indexCommand number now c else c.

Context `{Libraries} `{YAMLDecoder}.

Definition ActivateGeneration (s : MemoryStore) (lease : ReconciliationLease) (g : Generation)
    (policy : AppConfigPolicyInput → res ProjErr PolicyValidation) (now : Time) : res ProjErr (MemoryStore * Binding) :=
  guard! negb (negb (validLease lease) || is_zero_time now || negb (isStaging g) ||
               negb (String.eqb (rl_BindingID lease) (gn_BindingID g))) else ErrInvalid in
  guard! activeReconciliationLocked s lease now else ErrLeaseLost in
  let id := gn_BindingID g in
  let* b := lookupBinding s id in
  guard! negb (negb (isCurrent s g) || negb (String.eqb (bd_TargetHeadRevision b) (gn_HeadRevision g)) ||
               negb (String.eqb (bd_ParserVersion b) (gn_ParserVersion g)) || (now <? gn_StartedAt g) ||
               (now <? bd_UpdatedAt b)) else ErrConflict in
  let previous :=
    if 0 <? bd_ProjectionGeneration b then policyDocuments (documentsIn s id (bd_ProjectionGeneration b)) else [] in
  let* documents := activatedDocuments policy b g (policyDocuments (documentsIn s id (gn_Number g))) previous in
  let b' := bd_set_Indexed (gn_HeadRevision g) (gn_Number g) now b in
  let '(commands, reservations) :=
    foldl (settle b' (gn_Number g) now) (gp_writeCommands s, gp_reservations s) (range 46 (gp_reservations s)) in
  let s' :=
    gp_set_generations (setGeneration (gn_set_State ProjectionActive (Some now) g) s)
      (setDocuments id (gn_Number g) (put_all documents (documentsIn s id (gn_Number g))) s) s in
  Ok (gp_set_writeCommands (indexExact b' (gn_HeadRevision g) (gn_Number g) now <$> commands)
        (gp_set_reservations reservations (gp_set_bindings (<[id := b']> (gp_bindings s')) s')), b').
End store.

(** * Reading the projection *)

Definition DocumentOf (s : MemoryStore) (bindingID documentPath : string) : res ProjErr Document :=
  let* b := lookupBinding s bindingID in
  guard! negb (bd_ProjectionGeneration b =? 0) else ErrNotFound in
  match documentsIn s bindingID (bd_ProjectionGeneration b) !! documentPath with
  | Some d => Ok d
  | None => Err ErrNotFound
  end.

Definition dependencyState (active : gmap string Document) (p : string) : DependencyState :=
  match active !! p with
  | Some d => mkDependencyState p true (gd_BlobID d)
  | None => mkDependencyState p false ""
  end.

Definition BundleOf (s : MemoryStore) (bindingID documentPath : string) (dependencies : list string)
    (chartDigest policyVersion : string) : res ProjErr Bundle :=
  let* b := lookupBinding s bindingID in
  guard! negb (bd_ProjectionGeneration b =? 0) else ErrNotFound in
  let active := documentsIn s bindingID (bd_ProjectionGeneration b) in
  match active !! documentPath with
  | None => Err ErrNotFound
  | Some d =>
      let parents := omap (λ p, active !! p) dependencies in
      let* etag :=
        if (length dependencies =? 0)%nat then StrongETag b [d] [] chartDigest policyVersion
        else StrongETagWithDependencies b [d] dependencies parents chartDigest policyVersion in
      Ok (mkBundle (bd_ID b) (bd_TargetRef b) (bd_TargetHeadRevision b) (bd_IndexedRevision b) (gd_ConfigRevision d) etag
            (empty (bd_TargetHeadRevision b) || negb (String.eqb (bd_TargetHeadRevision b) (bd_IndexedRevision b)))
            (d :: parents) (map (dependencyState active) dependencies) (bd_IndexedAt b))
  end.

(** * Reservations of paths *)

Definition reservationKey (bindingID targetRef documentPath : string) : string :=
  bindingID +:+ nul +:+ targetRef +:+ nul +:+ documentPath.

Definition lookupReservation (s : MemoryStore) (key : string) : res ProjErr PathReservation :=
  match gp_reservations s !! key with Some r => Ok r | None => Err ErrNotFound end.

Definition PathReservationOf (s : MemoryStore) (bindingID targetRef documentPath : string) : res ProjErr PathReservation :=
  let* b := lookupBinding s bindingID in
  let* r := lookupReservation s (reservationKey bindingID targetRef documentPath) in
  guard! validReservation r b else ErrInvalid in
  Ok r.

(** The assignments to a reservation. *)
Definition pr_set_Lease (owner : string) (until : option Time) (at_ : Time) (r : PathReservation) : PathReservation :=
  mkReservation (pr_BindingID r) (pr_TargetRef r) (pr_Path r) (pr_OperationID r) owner (pr_BaseRevision r)
    (pr_CommittedRevision r) (pr_State r) until (pr_CreatedAt r) at_.

Definition pr_commit (revision : string) (at_ : Time) (r : PathReservation) : PathReservation :=
  mkReservation (pr_BindingID r) (pr_TargetRef r) (pr_Path r) (pr_OperationID r) (pr_Owner r) (pr_BaseRevision r)
    revision ReservationCommittedPendingIndex None (pr_CreatedAt r) at_.

Definition isCandidate (r : PathReservation) : bool := bool_decide (pr_State r = ReservationCandidate).

(** [LeaseUntil == nil || !LeaseUntil.After(now)] is the negation. *)
Definition leaseAfter (r : PathReservation) (now : Time) : bool :=
  match pr_LeaseUntil r with Some until => now <? until | None => false end.

Definition AcquirePath (s : MemoryStore) (candidate : PathReservation) (now : Time) (lease : Duration)
    : res ProjErr (MemoryStore * (PathReservation * bool)) :=
  guard! negb (is_zero_time now || (lease <=? 0) || (2 * minute <? lease) || negb (isCandidate candidate) ||
               negb (bool_decide (is_Some (pr_LeaseUntil candidate)))) else ErrInvalid in
  let* b := lookupBinding s (pr_BindingID candidate) in
  guard! validReservation candidate b && (pr_CreatedAt candidate =? now) && (pr_UpdatedAt candidate =? now) &&
         bool_decide (pr_LeaseUntil candidate = Some (now + lease)) else ErrInvalid in
  guard! negb (negb (bool_decide (bd_State b = BindingReady)) || empty (bd_TargetHeadRevision b) ||
               negb (String.eqb (bd_TargetHeadRevision b) (bd_IndexedRevision b)) ||
               negb (String.eqb (bd_TargetHeadRevision b) (pr_BaseRevision candidate))) else ErrStale in
  let key := reservationKey (pr_BindingID candidate) (pr_TargetRef candidate) (pr_Path candidate) in
  match gp_reservations s !! key with
  | None => Ok (gp_set_reservations (<[key := candidate]> (gp_reservations s)) s, (candidate, false))
  | Some current =>
      let same := String.eqb (pr_OperationID current) (pr_OperationID candidate) &&
                  String.eqb (pr_BaseRevision current) (pr_BaseRevision candidate) in
      if same && String.eqb (pr_Owner current) (pr_Owner candidate) then Ok (s, (current, true))
      else if same && isCandidate current && bool_decide (is_Some (pr_LeaseUntil current)) && negb (leaseAfter current now)
      then
        let taken := pr_set_Lease (pr_Owner candidate) (pr_LeaseUntil candidate) now current in
        Ok (gp_set_reservations (<[key := taken]> (gp_reservations s)) s, (taken, true))
      else Err ErrLeaseHeld
  end.

Definition FinalizePath (s : MemoryStore) (bindingID targetRef documentPath operationID committedRevision : string)
    (now : Time) : res ProjErr (MemoryStore * PathReservation) :=
  guard! negb (is_zero_time now || negb (commit committedRevision)) else ErrInvalid in
  let* b := lookupBinding s bindingID in
  let key := reservationKey bindingID targetRef documentPath in
  let* r := lookupReservation s key in
  guard! String.eqb (pr_OperationID r) operationID else ErrLeaseLost in
  guard! negb (now <? pr_CreatedAt r) else ErrInvalid in
  match pr_State r with
  | ReservationCommittedPendingIndex =>
      guard! String.eqb (pr_CommittedRevision r) committedRevision else ErrConflict in Ok (s, r)
  | ReservationCandidate =>
      guard! leaseAfter r now && String.eqb (bd_TargetHeadRevision b) (pr_BaseRevision r) ||
             String.eqb (bd_TargetHeadRevision b) committedRevision else ErrLeaseLost in
      let r := pr_commit committedRevision now r in
      Ok (gp_set_reservations (<[key := r]> (gp_reservations s)) s, r)
  end.

(** The command of a reservation that was verified at an indexed head. *)
Definition indexedReceipt (committedRevision : string) (generation : Z) (now : Time) (c : WriteCommand) : WriteCommand :=
  let '(revision, committedAt) :=
    match wc_State c with
    | WriteCommandPending => (committedRevision, Some now)
    | _ => (wc_CommittedRevision c, wc_CommittedAt c)
    end in
  wc_set_Receipt WriteCommandIndexed revision committedAt generation (Some now) now c.

Definition committedReceipt (committedRevision : string) (now : Time) (c : WriteCommand) : WriteCommand :=
  wc_set_Receipt WriteCommandGitCommitted committedRevision (Some now) (wc_IndexedGeneration c) (wc_IndexedAt c) now c.

Definition FinalizeVerifiedPath (s : MemoryStore) (bindingID targetRef documentPath operationID committedRevision : string)
    (head : VerifiedHead) (now : Time) : res ProjErr (MemoryStore * PathReservation) :=
  guard! negb (is_zero_time now || negb (commit committedRevision) || negb (bool_decide (vh_Source head = ObservationWrite)) ||
               (now <? vh_ObservedAt head)) else ErrInvalid in
  let* b := lookupBinding s bindingID in
  guard! negb (negb (String.eqb (vh_BindingID head) bindingID) || negb (String.eqb (vh_TargetRef head) targetRef) ||
               negb (validHeadFor head b) || staleObservation head b) else ErrConflict in
  let key := reservationKey bindingID targetRef documentPath in
  let* r := lookupReservation s key in
  guard! String.eqb (pr_OperationID r) operationID else ErrLeaseLost in
  guard! isCandidate r || String.eqb (pr_CommittedRevision r) committedRevision else ErrConflict in
  match gp_writeCommands s !! operationID with
  | None => Err ErrNotFound
  | Some c =>
      guard! validatePersistedWriteCommand c b && String.eqb (wp_BindingID (wc_Plan c)) bindingID &&
             String.eqb (wc_Path c) documentPath && String.eqb (wc_TargetRef c) targetRef else ErrNotFound in
      guard! bool_decide (wc_State c = WriteCommandPending) || String.eqb (wc_CommittedRevision c) committedRevision
        else ErrConflict in
      let '(_, s) := observe s b head in
      let alreadyIndexed := String.eqb (bd_IndexedRevision b) (vh_Commit head) && (0 <? bd_ProjectionGeneration b) in
      let b' := bd_set_Head (vh_Commit head) (vh_ObservedAt head) (headState alreadyIndexed b) (observedAt head b) b in
      let s := gp_set_bindings (<[bd_ID b := b']> (gp_bindings s)) s in
      let r := pr_commit committedRevision now r in
      if alreadyIndexed then
        Ok (gp_set_writeCommands
              (<[operationID := indexedReceipt committedRevision (bd_ProjectionGeneration b) now c]> (gp_writeCommands s))
              (gp_set_reservations (delete key (gp_reservations s)) s), r)
      else
        let s := gp_set_reservations (<[key := r]> (gp_reservations s)) s in
        Ok (match wc_State c with
            | WriteCommandPending =>
                gp_set_writeCommands (<[operationID := committedReceipt committedRevision now c]> (gp_writeCommands s)) s
            | _ => s
            end, r)
  end.

Definition RepairExpiredPath (s : MemoryStore) (bindingID targetRef documentPath : string) (commitPresent : bool)
    (committedRevision : string) (now : Time) : res ProjErr MemoryStore :=
  guard! negb (is_zero_time now || commitPresent && negb (commit committedRevision)) else ErrInvalid in
  let key := reservationKey bindingID targetRef documentPath in
  let* r := lookupReservation s key in
  guard! isCandidate r && bool_decide (is_Some (pr_LeaseUntil r)) && negb (leaseAfter r now) else ErrConflict in
  Ok (gp_set_reservations
        (if commitPresent then <[key := pr_commit committedRevision now r]> (gp_reservations s)
         else delete key (gp_reservations s)) s).

(** * Commands ([write_command_store.go]) *)

Definition PutWriteCommand (s : MemoryStore) (c : WriteCommand) : res ProjErr MemoryStore :=
  let* b := lookupBinding s (wp_BindingID (wc_Plan c)) in
  guard! validWriteCommand c b && bool_decide (wc_State c = WriteCommandPending) && validPlan (wc_Plan c) b
    else ErrInvalid in
  match gp_writeCommands s !! wc_OperationID c with
  | Some current => guard! bool_decide (current = c) else ErrConflict in Ok s
  | None => Ok (gp_set_writeCommands (<[wc_OperationID c := c]> (gp_writeCommands s)) s)
  end.

Definition WriteCommandOf (s : MemoryStore) (operationID : string) : res ProjErr WriteCommand :=
  match gp_writeCommands s !! operationID with
  | None => Err ErrNotFound
  | Some c =>
      match gp_bindings s !! wp_BindingID (wc_Plan c) with
      | Some b => guard! validatePersistedWriteCommand c b else ErrInvalid in Ok c
      | None => Err ErrInvalid
      end
  end.

Definition MarkWriteCommandCommitted (s : MemoryStore) (operationID revision : string) (now : Time)
    : res ProjErr (MemoryStore * WriteCommand) :=
  guard! commit revision && negb (is_zero_time now) else ErrInvalid in
  match gp_writeCommands s !! operationID with
  | None => Err ErrNotFound
  | Some c =>
      match wc_State c with
      | WriteCommandPending =>
          guard! negb (now <? wc_UpdatedAt c) else ErrConflict in
          let c := committedReceipt revision now c in
          Ok (gp_set_writeCommands (<[operationID := c]> (gp_writeCommands s)) s, c)
      | _ => guard! String.eqb (wc_CommittedRevision c) revision else ErrConflict in Ok (s, c)
      end
  end.

(** * Workers ([runtime_readiness_store.go]) *)

Definition AcquireRuntimeReadiness (s : MemoryStore) (observation : RuntimeWorkerObservation) (duration : Duration)
    : res ProjErr (MemoryStore * RuntimeLease) :=
  guard! validObservation observation && validRuntimeLeaseDuration duration else ErrInvalid in
  let epoch := match gp_runtimeLeases s !! ob_WorkerID observation with
               | Some current => i64 (rt_Epoch current + 1)
               | None => 1
               end in
  let lease := mkRuntimeLease observation epoch (ob_ObservedAt observation + duration) in
  Ok (gp_set_runtimeLeases (<[ob_WorkerID observation := lease]> (gp_runtimeLeases s)) s, lease).

Definition HeartbeatRuntimeReadiness (s : MemoryStore) (lease : RuntimeLease) (observed : Time) (duration : Duration)
    : res ProjErr (MemoryStore * RuntimeLease) :=
  let o := rt_Observation lease in
  guard! negb (negb (validRuntimeLease lease) || is_zero_time observed || (observed <? ob_ObservedAt o) ||
               negb (validRuntimeLeaseDuration duration)) else ErrInvalid in
  match gp_runtimeLeases s !! ob_WorkerID o with
  | Some current =>
      guard! bool_decide (current = lease) && (observed <? rt_Until current) else ErrLeaseLost in
      let renewed := mkRuntimeLease (mkObservation (ob_WorkerID o) (ob_Identity o) (ob_StartedAt o) observed)
                       (rt_Epoch lease) (observed + duration) in
      Ok (gp_set_runtimeLeases (<[ob_WorkerID o := renewed]> (gp_runtimeLeases s)) s, renewed)
  | None => Err ErrLeaseLost
  end.

(** Nil, or [ErrRuntimeNotReady]. *)
Definition RuntimeReady `{MapOrder} (s : MemoryStore) (identity : RuntimeIdentity) (now : Time) (maximumAge : Duration) : bool :=
  negb (negb (validRuntimeIdentity identity) || is_zero_time now || (maximumAge <? 2 * RuntimeHeartbeatInterval) ||
        (5 * minute <? maximumAge)) &&
  existsb (λ kv, bool_decide (ob_Identity (rt_Observation kv.2) = identity) && (now <? rt_Until kv.2) &&
                 negb (ob_ObservedAt (rt_Observation kv.2) <? now - maximumAge)) (range 47 (gp_runtimeLeases s)).
