(* ===== verification/GitProjectionFacts.v ===== *)
(** What holds of every history of the store of the Git projection: which
    documents are served, and whom a lease fences.

    A history is a list of calls of the store's methods, by any number of
    workers and in any order; each is atomic.  Counters are Go's [int64]: a
    history has fewer than [2 ^ 62] calls, and a binding is put with a generation
    below that, after Go's zero time. *)

From Stdlib Require Import Ascii.
From S2P Require Import Prelude Regexp GoStrings Digest Encoding JsonValues AppConfig Variables.
From S2P Require Import GitProjection GitProjectionWrites GitProjectionStore.

Open Scope Z_scope.

(** * Histories *)

Inductive Call : Type :=
| CallPutBinding (b : Binding)
| CallSetBindingState (id head : string) (state : BindingState) (now : Time)
| CallRecordVerifiedHead (head : VerifiedHead)
| CallClaimWebhook (w : WebhookTombstone)
| CallPutPollCursor (c : PollCursor)
| CallClaim (owner : string) (now : Time) (duration : Duration)
| CallHeartbeat (lease : ReconciliationLease) (now : Time) (duration : Duration)
| CallFinish (lease : ReconciliationLease) (outcome : ReconciliationOutcome) (now : Time)
| CallRelease (lease : ReconciliationLease) (now : Time)
| CallBegin (lease : ReconciliationLease) (head parser : string) (now : Time)
| CallPutDocuments (g : Generation) (documents : list Document)
| CallActivate (lease : ReconciliationLease) (g : Generation)
    (policy : AppConfigPolicyInput → res ProjErr PolicyValidation) (now : Time)
| CallFail (lease : ReconciliationLease) (g : Generation) (now : Time)
| CallAcquirePath (candidate : PathReservation) (now : Time) (lease : Duration)
| CallFinalizePath (id ref p operation revision : string) (now : Time)
| CallFinalizeVerifiedPath (id ref p operation revision : string) (head : VerifiedHead) (now : Time)
| CallRepairExpiredPath (id ref p : string) (present : bool) (revision : string) (now : Time)
| CallPutWriteCommand (c : WriteCommand)
| CallMarkCommitted (operation revision : string) (now : Time)
| CallAcquireRuntime (o : RuntimeWorkerObservation) (duration : Duration)
| CallHeartbeatRuntime (lease : RuntimeLease) (observed : Time) (duration : Duration).

(** Every caller of [SetBindingState] gives the head it read with the binding, and
    a binding that is indexed or has diverged has one. *)
Definition wellFormed (c : Call) : bool :=
  match c with
  | CallPutBinding b => (bd_ProjectionGeneration b <? 2 ^ 62) && (0 <? bd_CreatedAt b)
  | CallSetBindingState _ head (BindingIndexing | BindingDiverged) _ => negb (empty head)
  | _ => true
  end.

(** The store after a call, which is the same one when it failed. *)
Definition after {A} (f : A → MemoryStore) (s : MemoryStore) (r : res ProjErr A) : MemoryStore :=
  match r with Ok a => f a | Err _ => s end.

Section histories.
Context `{MapOrder} `{Libraries} `{YAMLDecoder}.

Definition perform (s : MemoryStore) (c : Call) : MemoryStore :=
  match c with
  | CallPutBinding b => after id s (PutBinding s b)
  | CallSetBindingState id head state now => after Datatypes.id s (SetBindingState s id head state now)
  | CallRecordVerifiedHead head => after fst s (RecordVerifiedHead s head)
  | CallClaimWebhook w => after fst s (ClaimWebhook s w)
  | CallPutPollCursor c => after id s (PutPollCursor s c)
  | CallClaim owner now duration => after fst s (ClaimReconciliation s owner now duration)
  | CallHeartbeat lease now duration => after fst s (HeartbeatReconciliation s lease now duration)
  | CallFinish lease outcome now => after id s (FinishReconciliation s lease outcome now)
  | CallRelease lease now => after id s (ReleaseReconciliation s lease now)
  | CallBegin lease head parser now => after fst s (BeginGeneration s lease head parser now)
  | CallPutDocuments g documents => after id s (PutDocuments s g documents)
  | CallActivate lease g policy now => after fst s (ActivateGeneration s lease g policy now)
  | CallFail lease g now => after id s (FailGeneration s lease g now)
  | CallAcquirePath candidate now lease => after fst s (AcquirePath s candidate now lease)
  | CallFinalizePath id ref p operation revision now => after fst s (FinalizePath s id ref p operation revision now)
  | CallFinalizeVerifiedPath id ref p operation revision head now =>
      after fst s (FinalizeVerifiedPath s id ref p operation revision head now)
  | CallRepairExpiredPath id ref p present revision now =>
      after Datatypes.id s (RepairExpiredPath s id ref p present revision now)
  | CallPutWriteCommand c => after id s (PutWriteCommand s c)
  | CallMarkCommitted operation revision now => after fst s (MarkWriteCommandCommitted s operation revision now)
  | CallAcquireRuntime o duration => after fst s (AcquireRuntimeReadiness s o duration)
  | CallHeartbeatRuntime lease observed duration => after fst s (HeartbeatRuntimeReadiness s lease observed duration)
  end.

Definition run (s : MemoryStore) (h : list Call) : MemoryStore := foldl perform s h.

Definition history (h : list Call) : Prop := forallb wellFormed h = true ∧ Z.of_nat (length h) < 2 ^ 62.

Lemma after_cases {A} (P : MemoryStore → Prop) (f : A → MemoryStore) s (r : res ProjErr A) :
  P s → (∀ a, r = Ok a → P (f a)) → P (after f s r).
Proof. destruct r; simpl; eauto. Qed.

Lemma run_app s h1 h2 : run s (h1 ++ h2) = run (run s h1) h2.
Proof. apply foldl_app. Qed.

(** An invariant of a state and the number of calls so far. *)
Lemma run_invariant (Inv : Z → MemoryStore → Prop) n s h :
  Inv n s → 0 ≤ n → n + Z.of_nat (length h) < 2 ^ 62 → forallb wellFormed h = true →
  (∀ n s c, Inv n s → 0 ≤ n → n + 1 < 2 ^ 62 → wellFormed c = true → Inv (n + 1) (perform s c)) →
  Inv (n + Z.of_nat (length h)) (run s h).
Proof.
  intros Hi Hn Hlen Hwf Hstep. revert n s Hi Hn Hlen. induction h as [|c h IH]; intros n s Hi Hn Hlen; simpl in *.
  - by rewrite Z.add_0_r.
  - apply andb_true_iff in Hwf as [Hc Hh].
    replace (n + Z.of_nat (S (length h))) with (n + 1 + Z.of_nat (length h)) in * by lia.
    apply IH; [done| |lia|lia]. apply Hstep; [done|lia|lia|done].
Qed.

End histories.

(** Takes an equation [operation = Ok result] apart. *)
Ltac op_ok H :=
  repeat first
    [ apply guard_ok in H as [? H]
    | let x := fresh "x" in let Hx := fresh "Hx" in apply res_bind_ok in H as (x & Hx & H) ].

(** * Bindings *)

Lemma commit_nonempty s : commit s = true → empty s = false.
Proof. by destruct s. Qed.

Lemma lookupBinding_ok s id b : lookupBinding s id = Ok b ↔ gp_bindings s !! id = Some b.
Proof. unfold lookupBinding. destruct (gp_bindings s !! id); split; congruence. Qed.

(** The parts of a binding that its documents depend on. *)
Definition sameDocuments (b b' : Binding) : Prop :=
  bd_ID b = bd_ID b' ∧ bd_Kind b = bd_Kind b' ∧ bd_ProjectID b = bd_ProjectID b' ∧ bd_Prefix b = bd_Prefix b' ∧
  bd_ParserVersion b = bd_ParserVersion b'.

Lemma DependencyPaths_same b b' :
  sameDocuments b b' → validBinding b = validBinding b' → DependencyPaths b = DependencyPaths b'.
Proof. intros (_ & Hk & Hp & Hx & _) Hv. unfold DependencyPaths. by rewrite Hv, Hk, Hp, Hx. Qed.

Lemma validDocument_same b b' d :
  sameDocuments b b' → validBinding b = validBinding b' → validDocument d b = validDocument d b'.
Proof.
  intros Hs Hv. pose proof (DependencyPaths_same _ _ Hs Hv) as Hd. destruct Hs as (Hi & Hk & _ & Hx & Hpv).
  unfold validDocument, validDocumentPath, isDependency, ApplicationPath. by rewrite Hd, Hv, Hi, Hk, Hx, Hpv.
Qed.

(** What a binding is apart from what was observed and indexed of it. *)
Definition validStatic (b : Binding) : bool :=
  negb (negb (uuid (bd_ID b)) || negb (uuid (bd_ScopeID b)) || negb (validRepositoryIdentity (bd_Repository b)) ||
        negb (validTargetRef (bd_TargetRef b)) ||
        negb (validCredentialBinding (bd_CredentialMode b) (bd_CredentialSecretName b)) ||
        empty (bd_ParserVersion b) || (64 <? str_len (bd_ParserVersion b)) || is_zero_time (bd_CreatedAt b)) &&
  validScope b && validRelativePath (bd_Prefix b).

Lemma validBinding_static b :
  validBinding b = validStatic b && negb (is_zero_time (bd_UpdatedAt b)) && (0 <=? bd_ProjectionGeneration b) &&
                   validRevisions b.
Proof.
  unfold validBinding, validStatic. rewrite !negb_orb.
  generalize (negb (is_zero_time (bd_UpdatedAt b))). intros z. generalize (validScope b), (validRelativePath (bd_Prefix b)).
  intros x y. generalize (0 <=? bd_ProjectionGeneration b), (validRevisions b). intros p q.
  rewrite <- !andb_assoc. repeat (f_equal; []). destruct z, x, y, p, q; rewrite ?andb_true_r, ?andb_false_r; done.
Qed.

Lemma empty_true s : empty s = true ↔ s = "".
Proof. apply String.eqb_eq. Qed.

Lemma is_zero_true t : is_zero_time t = true ↔ t = 0.
Proof. apply Z.eqb_eq. Qed.

(** [validRevisions] in propositions. *)
Record revisions (b : Binding) : Prop := {
  re_head : bd_TargetHeadRevision b = "" ∨ commit (bd_TargetHeadRevision b) = true;
  re_indexed : bd_IndexedRevision b = "" ∨ commit (bd_IndexedRevision b) = true;
  re_observed : bd_TargetHeadRevision b = "" ↔ bd_TargetHeadObservedAt b = 0;
  re_updated : bd_CreatedAt b ≤ bd_UpdatedAt b;
  re_observedAt : bd_TargetHeadObservedAt b ≠ 0 → bd_CreatedAt b ≤ bd_TargetHeadObservedAt b ≤ bd_UpdatedAt b;
  re_never : bd_IndexedRevision b = "" ↔ bd_IndexedAt b = 0;
  re_indexedAt : bd_IndexedRevision b ≠ "" →
    bd_ProjectionGeneration b ≠ 0 ∧ bd_CreatedAt b ≤ bd_IndexedAt b ≤ bd_UpdatedAt b;
  re_state : match bd_State b with
             | BindingReady => bd_TargetHeadRevision b ≠ "" ∧ bd_TargetHeadRevision b = bd_IndexedRevision b
             | BindingIndexing | BindingDiverged => bd_TargetHeadRevision b ≠ ""
             | _ => True
             end;
}.

Lemma validRevisions_spec b : validRevisions b = true ↔ revisions b.
Proof.
  unfold validRevisions. set (h := bd_TargetHeadRevision b). set (x := bd_IndexedRevision b).
  do 3 (try rewrite !andb_true_iff; try rewrite !negb_true_iff; try rewrite !orb_false_iff;
    try rewrite !andb_false_iff; try rewrite !negb_false_iff; try rewrite !eqb_true_iff).
  assert (∀ s, empty s = false ↔ s ≠ "") as Hne by (intros s; rewrite <- not_true_iff_false, empty_true; done).
  assert (∀ t, is_zero_time t = false ↔ t ≠ 0) as Hnz by (intros t; rewrite <- not_true_iff_false, is_zero_true; done).
  assert (∀ s t, empty s = is_zero_time t ↔ (s = "" ↔ t = 0)) as Heq.
  { intros s t. rewrite <- empty_true, <- is_zero_true. destruct (empty s), (is_zero_time t); intuition congruence. }
  rewrite !Heq, !Z.ltb_ge, Z.eqb_neq, !is_zero_true, !empty_true.
  split.
  - intros (((Hhx & (Ho & Hu) & Hb) & Hn & Hi) & Hs). destruct Hhx.
    constructor; fold h; fold x; [done|done|done|done|intuition|done|intuition|].
    destruct (bd_State b); try done; by bool_prop; rewrite ?Hne in *; auto.
  - intros [Hh Hx Ho Hu Hb Hn Hi Hs]. fold h x in Hh, Hx, Ho, Hb, Hn, Hi, Hs.
    split; [split; [split; [done|split; [done|]]|split; [done|]]|].
    + destruct (decide (bd_TargetHeadObservedAt b = 0)); auto.
    + destruct (decide (x = "")) as [|Hz]; [by left|]. right. by apply Hi in Hz as (? & ? & ?).
    + destruct (bd_State b); try done; rewrite ?negb_true_iff, ?orb_false_iff, ?negb_false_iff, ?Hne, ?String.eqb_eq; auto.
Qed.

Lemma validBinding_revisions b : validBinding b = true → revisions b.
Proof. rewrite validBinding_static. intros. bool_prop. by apply validRevisions_spec. Qed.

(** A binding made of a valid one by changing what was observed and indexed. *)
Lemma validBinding_kept b b' :
  validBinding b = true → validStatic b' = validStatic b → bd_UpdatedAt b' ≠ 0 → 0 ≤ bd_ProjectionGeneration b' →
  revisions b' → validBinding b' = true.
Proof.
  rewrite !validBinding_static. intros Hv -> Hu Hp Hr. bool_prop. apply validRevisions_spec in Hr as ->.
  rewrite !andb_true_iff, negb_true_iff, Z.leb_le. split_and!; try done. by apply Z.eqb_neq.
Qed.

Lemma validBinding_generation b : validBinding b = true → 0 ≤ bd_ProjectionGeneration b.
Proof. rewrite validBinding_static. intros. bool_prop. done. Qed.

Lemma valid_set_State b state now :
  validBinding b = true → 0 < bd_CreatedAt b → bd_UpdatedAt b ≤ now → state ≠ BindingReady →
  (state = BindingIndexing ∨ state = BindingDiverged → bd_TargetHeadRevision b ≠ "") →
  validBinding (bd_set_State state now b) = true.
Proof.
  intros Hv Hc Hn Hr Hs. destruct (validBinding_revisions _ Hv) as [H1 H2 H3 H4 H5 H6 H7 H8].
  apply (validBinding_kept b); [done|done|simpl; lia|exact (validBinding_generation b Hv)|].
  constructor; simpl; [done|done|done|lia| |done| |].
  - intros Hz. apply H5 in Hz. lia.
  - intros Hz. apply H7 in Hz. intuition lia.
  - destruct state; simpl in *; intuition congruence.
Qed.

Lemma valid_set_Head b head indexed :
  validBinding b = true → 0 < bd_CreatedAt b → commit (vh_Commit head) = true → vh_ObservedAt head ≠ 0 →
  bd_CreatedAt b ≤ vh_ObservedAt head → (indexed = true → bd_IndexedRevision b = vh_Commit head) →
  validBinding (bd_set_Head (vh_Commit head) (vh_ObservedAt head) (headState indexed b) (observedAt head b) b) = true.
Proof.
  intros Hv Hc Hh Ho Hco Hx. destruct (validBinding_revisions _ Hv) as [H1 H2 H3 H4 H5 H6 H7 H8].
  assert (vh_Commit head ≠ "") as Hne by (by intros E; rewrite E in Hh).
  assert (vh_ObservedAt head ≤ observedAt head b ∧ bd_UpdatedAt b ≤ observedAt head b) as [Hu1 Hu2].
  { unfold observedAt, microsecond. destruct (_ <? _) eqn:E; bool_prop; lia. }
  apply (validBinding_kept b); [done|done|simpl; lia|exact (validBinding_generation b Hv)|].
  constructor; simpl; [by right|done|tauto|lia|lia|done| |].
  - intros Hz. apply H7 in Hz. intuition lia.
  - unfold headState. destruct indexed; simpl.
    + specialize (Hx eq_refl). destruct (bd_State b); simpl; auto.
    + destruct (bd_State b); simpl; done.
Qed.

Lemma valid_set_Indexed b revision number now :
  validBinding b = true → 0 < bd_CreatedAt b → commit revision = true → bd_TargetHeadRevision b = revision →
  1 ≤ number → bd_UpdatedAt b ≤ now → validBinding (bd_set_Indexed revision number now b) = true.
Proof.
  intros Hv Hc Hr Ht Hn Hu. destruct (validBinding_revisions _ Hv) as [H1 H2 H3 H4 H5 H6 H7 H8].
  assert (revision ≠ "") as Hne by (by intros E; rewrite E in Hr).
  apply (validBinding_kept b); [done|done|simpl; lia|simpl; lia|].
  constructor; simpl; [by right; rewrite Ht|by right|done|lia| |split; [done|lia]|split; lia|by rewrite Ht].
  intros Hz. apply H5 in Hz. lia.
Qed.

(** * What the calls that change bindings and documents do *)

Section calls.
Context `{MapOrder} `{Libraries} `{YAMLDecoder}.

Lemma PutBinding_ok s b s' :
  PutBinding s b = Ok s' →
  s' = s ∨ validBinding b = true ∧ gp_bindings s !! bd_ID b = None ∧ s' = gp_set_bindings (<[bd_ID b := b]> (gp_bindings s)) s.
Proof.
  unfold PutBinding. intros Hok. op_ok Hok. destruct (gp_bindings s !! bd_ID b) eqn:E; op_ok Hok; inv_res; auto.
Qed.

Lemma SetBindingState_ok s id head state now s' :
  SetBindingState s id head state now = Ok s' →
  ∃ b, gp_bindings s !! id = Some b ∧ bd_TargetHeadRevision b = head ∧ bd_UpdatedAt b ≤ now ∧ state ≠ BindingReady ∧
       s' = gp_set_bindings (<[id := bd_set_State state now b]> (gp_bindings s)) s.
Proof.
  unfold SetBindingState. intros Hok. op_ok Hok. inv_res. bool_prop.
  match goal with Hb : lookupBinding _ _ = _ |- _ => apply lookupBinding_ok in Hb end. eauto 10.
Qed.

Lemma observe_frame s b head : ∃ o, (observe s b head).2 = gp_set_observations o s.
Proof. unfold observe. destruct (existsb _ _); [|by eexists]. exists (gp_observations s). by destruct s. Qed.

Lemma validHeadFor_commit head b :
  validHeadFor head b = true → commit (vh_Commit head) = true ∧ vh_ObservedAt head ≠ 0 ∧ vh_BindingID head = bd_ID b.
Proof. unfold validHeadFor. intros Hv. bool_prop. split_and!; [done|by apply Z.eqb_neq|done]. Qed.

Lemma staleObservation_created head b : staleObservation head b = false → bd_CreatedAt b ≤ vh_ObservedAt head.
Proof. unfold staleObservation. intros. bool_prop. lia. Qed.

Lemma RecordVerifiedHead_ok s head s' r :
  RecordVerifiedHead s head = Ok (s', r) →
  ∃ b o, gp_bindings s !! vh_BindingID head = Some b ∧ validHeadFor head b = true ∧ staleObservation head b = false ∧
    let b' := bd_set_Head (vh_Commit head) (vh_ObservedAt head)
                (headState (String.eqb (bd_IndexedRevision b) (vh_Commit head)) b) (observedAt head b) b in
    s' = gp_set_bindings (<[bd_ID b := b']> (gp_bindings s)) (gp_set_observations o s).
Proof.
  unfold RecordVerifiedHead. intros Hok. op_ok Hok. destruct (observe s x head) as [replay s1] eqn:Eo.
  injection Hok as <- _. bool_prop. apply lookupBinding_ok in Hx.
  destruct (observe_frame s x head) as [o Ho]. rewrite Eo in Ho. simpl in Ho. subst s1. exists x, o. by split_and!.
Qed.

Lemma FinalizeVerifiedPath_ok s id ref p operation revision head now s' r :
  FinalizeVerifiedPath s id ref p operation revision head now = Ok (s', r) →
  ∃ b c r0 o, let key := reservationKey id ref p in
    let indexed := String.eqb (bd_IndexedRevision b) (vh_Commit head) && (0 <? bd_ProjectionGeneration b) in
    let b' := bd_set_Head (vh_Commit head) (vh_ObservedAt head) (headState indexed b) (observedAt head b) b in
    gp_bindings s !! id = Some b ∧ validHeadFor head b = true ∧ staleObservation head b = false ∧
    vh_BindingID head = id ∧ commit revision = true ∧
    gp_reservations s !! key = Some r0 ∧ pr_OperationID r0 = operation ∧
    (pr_State r0 = ReservationCandidate ∨ pr_CommittedRevision r0 = revision) ∧
    gp_writeCommands s !! operation = Some c ∧ wp_BindingID (wc_Plan c) = id ∧
    (wc_State c = WriteCommandPending ∨ wc_CommittedRevision c = revision) ∧ r = pr_commit revision now r0 ∧
    s' = gp_set_writeCommands
           (if indexed then <[operation := indexedReceipt revision (bd_ProjectionGeneration b) now c]> (gp_writeCommands s)
            else match wc_State c with
                 | WriteCommandPending => <[operation := committedReceipt revision now c]> (gp_writeCommands s)
                 | _ => gp_writeCommands s
                 end)
           (gp_set_reservations (if indexed then delete key (gp_reservations s) else <[key := r]> (gp_reservations s))
              (gp_set_bindings (<[bd_ID b := b']> (gp_bindings s)) (gp_set_observations o s))).
Proof.
  unfold FinalizeVerifiedPath. intros Hok. op_ok Hok. rename x into b, x0 into r0.
  apply lookupBinding_ok in Hx. unfold lookupReservation in Hx0.
  destruct (gp_reservations s !! reservationKey id ref p) as [r1|] eqn:Er; inv_res.
  destruct (gp_writeCommands s !! operation) as [c|] eqn:Ec; [|done]. op_ok Hok.
  destruct (observe s b head) as [replay s1] eqn:Eo. destruct (observe_frame s b head) as [o Ho].
  rewrite Eo in Ho. simpl in Ho. subst s1. bool_prop.
  exists b, c, r0, o. cbv zeta.
  match goal with Hc : isCandidate r0 || _ = true |- _ => apply orb_true_iff in Hc as Hcand end.
  match goal with Hc : bool_decide (wc_State c = _) || _ = true |- _ => apply orb_true_iff in Hc as Hpend end.
  rewrite String.eqb_eq in Hcand, Hpend. unfold isCandidate in Hcand. rewrite bool_decide_eq_true in Hcand, Hpend.
  destruct (_ && (0 <? _)) eqn:Ei; injection Hok as <- <-; split_and!; try done.
  by destruct (wc_State c).
Qed.
End calls.

(** ** The generations a new one retires *)

Definition retired (g : Generation) : Generation :=
  if isStaging g then gn_set_State ProjectionFailed (gn_ActivatedAt g) g else g.

Lemma isStaging_retired g : isStaging (retired g) = false.
Proof. unfold retired. destruct (isStaging g) eqn:E; [by vm_compute|done]. Qed.

Lemma retire_spec (l : list (Z * Generation)) number generations documents B :
  NoDup l.*1 → Forall (λ kv, 0 ≤ kv.1 ≤ B) l → 0 ≤ number ≤ B + 1 → B + 1 < 2 ^ 63 →
  let '(number', generations', documents') := foldl retire (number, generations, documents) l in
  number ≤ number' ≤ B + 1 ∧ Forall (λ kv, kv.1 < number') l ∧
  (∀ k, generations' !! k = match (list_to_map l : gmap Z Generation) !! k with
                            | Some g => if isStaging g then Some (retired g) else generations !! k
                            | None => generations !! k
                            end) ∧
  (∀ k, documents' !! k = match (list_to_map l : gmap Z Generation) !! k with
                          | Some g => if isStaging g then None else documents !! k
                          | None => documents !! k
                          end).
Proof.
  revert number generations documents. induction l as [|[k g] l IH]; intros number generations documents Hnd Hb Hn HB.
  { simpl. split_and!; [lia|lia|done| |]; intros; by rewrite lookup_empty. }
  simpl in Hnd. apply NoDup_cons in Hnd as [Hk Hnd]. apply Forall_cons in Hb as [Hkb Hb]. simpl in Hkb.
  cbn [foldl]. unfold retire at 2. cbv zeta.
  specialize (IH (if number <=? k then i64 (k + 1) else number)
    (if isStaging g then <[k := gn_set_State ProjectionFailed (gn_ActivatedAt g) g]> generations else generations)
    (if isStaging g then delete k documents else documents) Hnd Hb).
  assert (0 ≤ (if number <=? k then i64 (k + 1) else number) ≤ B + 1 ∧
          number ≤ (if number <=? k then i64 (k + 1) else number) ∧
          k < (if number <=? k then i64 (k + 1) else number)) as (H1 & H2 & H3).
  { destruct (number <=? k) eqn:E; bool_prop; [|lia]. rewrite i64_small by (unfold i64_range; lia). lia. }
  specialize (IH H1 HB).
  destruct (foldl retire _ l) as [[number' generations'] documents'].
  destruct IH as ([IH1 IH2] & IH3 & IH4 & IH5).
  assert ((list_to_map l : gmap Z Generation) !! k = None) as Hl by (by apply not_elem_of_list_to_map).
  split_and!; [lia|lia|constructor; [simpl; lia|done]| |]; intros j; simpl.
  - rewrite IH4. destruct (decide (j = k)) as [->|Hjk].
    + rewrite Hl, lookup_insert_eq. unfold retired.
      destruct (isStaging g); [by rewrite lookup_insert_eq|done].
    + rewrite (lookup_insert_ne (list_to_map l)) by done. destruct (isStaging g); [|done].
      by rewrite (lookup_insert_ne generations) by done.
  - rewrite IH5. destruct (decide (j = k)) as [->|Hjk].
    + rewrite Hl, lookup_insert_eq.
      destruct (isStaging g); [by rewrite lookup_delete_eq|done].
    + rewrite (lookup_insert_ne (list_to_map l)) by done. destruct (isStaging g); [|done].
      by rewrite (lookup_delete_ne documents) by done.
Qed.

Section generations.
Context `{MapOrder} `{Libraries} `{YAMLDecoder}.

Lemma active_lease_binding s lease now :
  activeReconciliationLocked s lease now = true → is_Some (gp_reconciliation s !! rl_BindingID lease).
Proof. unfold activeReconciliationLocked. destruct (gp_reconciliation s !! _); by eauto. Qed.

(** A new generation comes after all others, and retires those still staged. *)
Lemma BeginGeneration_ok s lease head parser now s' g B :
  BeginGeneration s lease head parser now = Ok (s', g) →
  (∀ b, gp_bindings s !! rl_BindingID lease = Some b → 0 ≤ bd_ProjectionGeneration b ≤ B) →
  (∀ k g, generationsOf s (rl_BindingID lease) !! k = Some g → 0 ≤ k ≤ B) → B + 1 < 2 ^ 63 →
  let id := rl_BindingID lease in
  ∃ b generations documents,
    gp_bindings s !! id = Some b ∧ bd_TargetHeadRevision b = head ∧ bd_State b ≠ BindingDiverged ∧
    bd_State b ≠ BindingMissingRef ∧ commit head = true ∧ activeReconciliationLocked s lease now = true ∧
    g = mkGeneration id (gn_Number g) head (bd_ParserVersion b) ProjectionStaging now None ∧
    bd_ProjectionGeneration b < gn_Number g ≤ B + 1 ∧ (∀ k g', generationsOf s id !! k = Some g' → k < gn_Number g) ∧
    (∀ k, generations !! k = retired <$> (generationsOf s id !! k)) ∧
    (∀ k, documents !! k = match generationsOf s id !! k with
                           | Some g => if isStaging g then None else documentsOf s id !! k
                           | None => documentsOf s id !! k
                           end) ∧
    s' = gp_set_generations (<[id := <[gn_Number g := g]> generations]> (gp_generations s))
           (<[id := <[gn_Number g := ∅]> documents]> (gp_documents s)) s.
Proof.
  intros Hok Hb Hk HB. unfold BeginGeneration in Hok. op_ok Hok. rename x into b.
  set (id := rl_BindingID lease) in *. cbv zeta.
  apply lookupBinding_ok in Hx. specialize (Hb b Hx). bool_prop.
  pose proof (retire_spec (map_to_list (generationsOf s id)) (i64 (bd_ProjectionGeneration b + 1))
    (generationsOf s id) (documentsOf s id) B) as Hr.
  destruct (foldl retire _ _) as [[number generations] documents].
  rewrite list_to_map_to_list in Hr.
  rewrite i64_small in Hr by (unfold i64_range; lia).
  destruct Hr as ([Hr1 Hr2] & Hr3 & Hr4 & Hr5); [apply NoDup_fst_map_to_list| |lia|done|].
  { apply Forall_forall. intros [k g'] Hin. apply elem_of_map_to_list in Hin. eauto. }
  injection Hok as <- <-. exists b, generations, documents. simpl. subst parser.
  split_and!; try done; try lia.
  - intros k g' Hg. rewrite Forall_forall in Hr3. apply (Hr3 (k, g')). by apply elem_of_map_to_list.
  - intros k. rewrite Hr4. destruct (generationsOf s id !! k) as [g'|] eqn:E; [|done]. simpl.
    destruct (isStaging g') eqn:Es; [done|]. by unfold retired; rewrite Es.
Qed.
End generations.

(** ** Documents that are staged and activated *)

(** A document of a generation. *)
Definition belongs (b : Binding) (g : Generation) (d : Document) : Prop :=
  validDocument d b = true ∧ gd_Generation d = gn_Number g ∧ gd_SourceRevision d = gn_HeadRevision g.

Lemma stageDocuments_ok b g staged pending documents :
  stageDocuments b g staged pending documents = None → Forall (belongs b g) documents.
Proof.
  revert pending. induction documents as [|d documents IH]; intros pending; simpl; [by constructor|].
  destruct (_ || _ || _ || _) eqn:E; [done|]. destruct (contradicts _ _ || _); [done|]. intros Hs.
  constructor; [|exact (IH _ Hs)]. bool_prop. unfold belongs; split_and!; done.
Qed.

Lemma put_all_lookup documents m p d :
  put_all documents m !! p = Some d → (d ∈ documents ∧ gd_Path d = p) ∨ (m !! p = Some d ∧ p ∉ map gd_Path documents).
Proof.
  revert m. induction documents as [|x documents IH]; intros m; simpl.
  - intros. right. split; [done|]. apply not_elem_of_nil.
  - intros [[Hd Hp]|[Hm Hn]]%IH; [left; split; [by right|done]|].
    apply lookup_insert_Some in Hm as [[<- <-]|[Hne Hm]]; [left; split; [by left|done]|].
    right. split; [done|]. apply not_elem_of_cons. by split.
Qed.

Lemma indexed_lookup select documents p d :
  indexed select documents !! p = Some d → d ∈ documents ∧ gd_Path d = p ∧ select d = true.
Proof.
  unfold indexed. assert (∀ m : gmap string Document,
    foldl (λ m d, if select d then <[gd_Path d := d]> m else m) m documents !! p = Some d →
    (d ∈ documents ∧ gd_Path d = p ∧ select d = true) ∨ m !! p = Some d) as Hgen.
  { induction documents as [|x documents IH]; intros m; simpl; [by right|].
    intros [(? & ? & ?)|Hm]%IH; [left; split_and!; [by right|done|done]|].
    destruct (select x) eqn:E; [|by right].
    apply lookup_insert_Some in Hm as [[<- <-]|[_ Hm]]; [left; split_and!; [by left|done|done]|by right]. }
  intros [Hd|Hd]%Hgen; [done|]. rewrite lookup_empty in Hd. discriminate Hd.
Qed.

Lemma validDocument_config d b v :
  validDocument d b = true → commit v = true → validDocument (gd_set_ConfigRevision v d) b = true.
Proof.
  unfold validDocument. change (validDocumentPath (gd_set_ConfigRevision v d) b) with (validDocumentPath d b).
  cbn [gd_set_ConfigRevision gd_BindingID gd_Generation gd_SourceRevision gd_ConfigRevision gd_BlobID gd_ContentSHA256
       gd_Raw gd_Valid gd_Diagnostics gd_SchemaVersion gd_ParserVersion gd_IndexedAt].
  generalize (commit (gd_ConfigRevision d)). intros c Hd ->. rewrite orb_false_r. destruct c; [|exfalso]; simpl in Hd.
  - by rewrite orb_false_r in Hd.
  - by rewrite orb_true_r in Hd.
Qed.

Lemma validDocument_commit d b : validDocument d b = true → commit (gd_ConfigRevision d) = true.
Proof. unfold validDocument. intros Hd. apply andb_true_iff in Hd as [Hd _]. by bool_prop. Qed.

Lemma distinctAccepted_Forall accept seen documents :
  distinctAccepted accept seen documents = true → Forall (λ d, accept d = true) documents.
Proof.
  revert seen. induction documents as [|d documents IH]; intros seen; simpl; [by constructor|].
  intros Hd. bool_prop. constructor; [done|]. by eapply IH.
Qed.

Section activation.
Context `{MapOrder} `{Libraries} `{YAMLDecoder}.

Lemma validPolicyInput_ok i :
  validPolicyInput i = true →
  Forall (belongs (ai_Binding i) (ai_Generation i)) (ai_Current i) ∧
  Forall (λ d, validDocument d (ai_Binding i) = true) (ai_Previous i).
Proof.
  unfold validPolicyInput. intros Hi. apply andb_true_iff in Hi as [Hi Hp]. apply andb_true_iff in Hi as [_ Hc].
  apply distinctAccepted_Forall in Hc, Hp. split.
  - eapply Forall_impl; [exact Hc|]. intros d Hd. cbv beta in Hd. unfold belongs. bool_prop. by split_and!.
  - eapply Forall_impl; [exact Hp|]. intros d Hd. cbv beta in Hd. by bool_prop.
Qed.

Lemma withPolicy_ok b g validation d d' :
  withPolicy b validation d = Some d' → belongs b g d → belongs b g d' ∧ gd_Path d' = gd_Path d.
Proof.
  unfold withPolicy. intros Hw (_ & Hg & Hs).
  destruct (validation !! gd_Path d); destruct (_ || _) eqn:E; try done; injection Hw as <-; bool_prop;
    unfold belongs; by split_and!.
Qed.

Lemma withPolicy_all b g validation documents result :
  mapM (withPolicy b validation) documents = Some result → Forall (belongs b g) documents →
  Forall (belongs b g) result ∧ map gd_Path result = map gd_Path documents.
Proof.
  intros Hm%mapM_Some_1. induction Hm as [|d d' documents result Hd _ IH]; [by split|].
  intros [Hb Hbs]%Forall_cons. destruct (IH Hbs) as [IH1 IH2]. destruct (withPolicy_ok _ _ _ _ _ Hd Hb) as [He1 He2].
  split; [by constructor|]. simpl. by rewrite He2, IH2.
Qed.

Lemma effectiveRevision_ok b g changed previous d :
  (∀ p prior, previous !! p = Some prior → commit (gd_ConfigRevision prior) = true) →
  commit (gn_HeadRevision g) = true → belongs b g d →
  belongs b g (effectiveRevision changed previous (gn_HeadRevision g) d) ∧
  gd_Path (effectiveRevision changed previous (gn_HeadRevision g) d) = gd_Path d.
Proof.
  intros Hp Hh Hd. unfold effectiveRevision. destruct (_ && _); [|done].
  assert (∀ v, commit v = true → belongs b g (gd_set_ConfigRevision v d)) as Hset.
  { intros v Hv. destruct Hd as (? & ? & ?). split_and!; [by apply validDocument_config|done|done]. }
  destruct (previous !! gd_Path d) as [prior|] eqn:E; [|by auto]. destruct (_ && _ && _ && _); [|by auto]. eauto.
Qed.

Lemma activatedDocuments_ok policy b g current previous documents :
  activatedDocuments policy b g current previous = Ok documents →
  Forall (belongs b g) documents ∧ map gd_Path documents = map gd_Path current.
Proof.
  unfold activatedDocuments. destruct (bd_Kind b); intros Hok; op_ok Hok.
  - injection Hok as <-. bool_prop. destruct current; [by split|done].
  - rename x into validation.
    destruct (applyPolicyValidation b current validation) as [validated|] eqn:Ea; [|done].
    destruct (applyEffectiveConfigRevisions validated previous (gn_HeadRevision g)) as [result|] eqn:Ee; [|done].
    injection Hok as <-.
    assert (validPolicyInput (mkPolicyInput b g current previous) = true) as [Hc Hp]%validPolicyInput_ok.
    { unfold validValidation in *. by bool_prop. }
    simpl in Hc, Hp. unfold applyPolicyValidation in Ea. apply bind_Some in Ea as (r & Hm & Ea).
    destruct (validateResolvedVariableDependencies b r); [|done]. injection Ea as <-.
    destruct (withPolicy_all _ _ _ _ _ Hm Hc) as [Hr Hpath].
    unfold applyEffectiveConfigRevisions in Ee. destruct (negb _) eqn:Eh; [done|]. apply negb_false_iff in Eh.
    apply bind_Some in Ee as (m & Hm' & [= <-]). unfold distinctByPath in Hm'.
    destruct (distinctAccepted _ _ _); [|done]. injection Hm' as <-.
    assert (∀ p prior, indexed (λ _, true) previous !! p = Some prior → commit (gd_ConfigRevision prior) = true) as Hprior.
    { intros p prior (Hin & _)%indexed_lookup. rewrite Forall_forall in Hp. eapply validDocument_commit. eauto. }
    rewrite <- Hpath. clear Hpath Hm Hc. generalize (parentsChanged r previous). intros changed.
    induction Hr as [|d r Hd Hr IH]; simpl; [by split|]. destruct IH as [IH1 IH2].
    destruct (effectiveRevision_ok b g changed _ d Hprior Eh Hd) as [He1 He2].
    split; [by constructor|]. by rewrite He2, IH2.
Qed.
End activation.

(** * The invariant of the projection *)

(** What holds of a binding and its generations after [n] calls: a generation that
    is still staged comes after the active one and has its documents, the active
    one is of the head that is indexed, and the documents of a generation belong
    to it. *)
Record projection (n : Z) (s : MemoryStore) (id : string) (b : Binding) : Prop := {
  pj_id : bd_ID b = id;
  pj_valid : validBinding b = true;
  pj_created : 0 < bd_CreatedAt b;
  pj_bound : bd_ProjectionGeneration b ≤ 2 ^ 62 + n;
  pj_generation : ∀ k g, generationsOf s id !! k = Some g →
    gn_BindingID g = id ∧ gn_Number g = k ∧ 1 ≤ k ≤ 2 ^ 62 + n ∧ commit (gn_HeadRevision g) = true;
  pj_staged : ∀ k g, generationsOf s id !! k = Some g → isStaging g = true →
    bd_ProjectionGeneration b < k ∧ is_Some (documentsOf s id !! k);
  pj_active : ∀ g, generationsOf s id !! bd_ProjectionGeneration b = Some g → gn_HeadRevision g = bd_IndexedRevision b;
  pj_documents : ∀ k m, documentsOf s id !! k = Some m →
    ∃ g, generationsOf s id !! k = Some g ∧ map_Forall (λ p d, gd_Path d = p ∧ belongs b g d) m;
  pj_single : ∀ k k' g g', generationsOf s id !! k = Some g → generationsOf s id !! k' = Some g' →
    isStaging g = true → isStaging g' = true → k = k';
}.

Definition projected (n : Z) (s : MemoryStore) : Prop :=
  ∀ id, match gp_bindings s !! id with
        | Some b => projection n s id b
        | None => gp_generations s !! id = None ∧ gp_documents s !! id = None
        end.

Lemma projection_later n s id b : projection n s id b → projection (n + 1) s id b.
Proof.
  intros [H1 H2 H3 H4 H5 H6 H7 H8 H9]. constructor; try done; [lia|].
  intros k g Hg. destruct (H5 k g Hg) as (? & ? & ? & ?). split_and!; try done; lia.
Qed.

Lemma projected_later n s : projected n s → projected (n + 1) s.
Proof. intros Hp id. specialize (Hp id). destruct (gp_bindings s !! id); [by apply projection_later|done]. Qed.

(** Only these three parts of the store matter. *)
Lemma projected_frame n s s' :
  projected n s → gp_bindings s' = gp_bindings s → gp_generations s' = gp_generations s →
  gp_documents s' = gp_documents s → projected n s'.
Proof.
  intros Hp Hb Hg Hd id. specialize (Hp id). rewrite Hb, Hg, Hd. destruct (gp_bindings s !! id); [|done].
  assert (generationsOf s' id = generationsOf s id) as Hg' by (unfold generationsOf; by rewrite Hg).
  assert (documentsOf s' id = documentsOf s id) as Hd' by (unfold documentsOf; by rewrite Hd).
  destruct Hp. constructor; rewrite ?Hg', ?Hd'; done.
Qed.

(** A binding changes, but not in what its documents depend on. *)
Lemma projection_rebind n s s' id b b' :
  projection n s id b → gp_generations s' = gp_generations s → gp_documents s' = gp_documents s →
  sameDocuments b b' → bd_CreatedAt b' = bd_CreatedAt b → validBinding b' = true →
  bd_ProjectionGeneration b' = bd_ProjectionGeneration b → bd_IndexedRevision b' = bd_IndexedRevision b →
  projection n s' id b'.
Proof.
  intros [H1 H2 H3 H4 H5 H6 H7 H8 H9] Hg Hd Hs Hc Hv Hp Hi.
  assert (generationsOf s' id = generationsOf s id) as Hg' by (unfold generationsOf; by rewrite Hg).
  assert (documentsOf s' id = documentsOf s id) as Hd' by (unfold documentsOf; by rewrite Hd).
  constructor; rewrite ?Hg', ?Hd', ?Hc, ?Hp, ?Hi; try done.
  - destruct Hs as [Hs _]. congruence.
  - intros k m Hm. destruct (H8 k m Hm) as (g & Hgk & Hall). exists g. split; [done|].
    intros p d Hpd. destruct (Hall p d Hpd) as (? & Hbd & ?). split; [done|]. split; [|done].
    by rewrite <- (validDocument_same b b' d Hs) by congruence.
Qed.

Lemma sameDocuments_refl b : sameDocuments b b.
Proof. by split_and!. Qed.

Lemma projected_rebind n s s' id b b' :
  projected n s → gp_bindings s !! id = Some b → gp_bindings s' = <[id := b']> (gp_bindings s) →
  gp_generations s' = gp_generations s → gp_documents s' = gp_documents s →
  sameDocuments b b' → bd_CreatedAt b' = bd_CreatedAt b → validBinding b' = true →
  bd_ProjectionGeneration b' = bd_ProjectionGeneration b → bd_IndexedRevision b' = bd_IndexedRevision b →
  projected n s'.
Proof.
  intros Hp Hb Hb' Hg Hd Hs Hc Hv Hpg Hi j. rewrite Hb', Hg, Hd. destruct (decide (j = id)) as [->|Hj].
  - rewrite lookup_insert_eq. specialize (Hp id). rewrite Hb in Hp. by eapply projection_rebind.
  - rewrite lookup_insert_ne by done. specialize (Hp j). destruct (gp_bindings s !! j) as [bj|] eqn:E; [|done].
    eapply (projection_rebind n s s' j bj bj); try done; apply Hp.
Qed.

(** The generations or the documents of one binding change. *)
Lemma projected_at n s s' id b :
  projected n s → gp_bindings s !! id = Some b →
  (∀ j, j ≠ id → gp_bindings s' !! j = gp_bindings s !! j ∧ gp_generations s' !! j = gp_generations s !! j ∧
                 gp_documents s' !! j = gp_documents s !! j) →
  (∃ b', gp_bindings s' !! id = Some b' ∧ projection n s' id b') → projected n s'.
Proof.
  intros Hp Hb Hj (b' & Hb' & Hpj) j. destruct (decide (j = id)) as [->|Hne]; [by rewrite Hb'|].
  destruct (Hj j Hne) as (H1 & H2 & H3). rewrite H1, H2, H3. specialize (Hp j).
  destruct (gp_bindings s !! j) as [bj|]; [|done].
  assert (generationsOf s' j = generationsOf s j) as Hg' by (unfold generationsOf; by rewrite H2).
  assert (documentsOf s' j = documentsOf s j) as Hd' by (unfold documentsOf; by rewrite H3).
  destruct Hp. constructor; rewrite ?Hg', ?Hd'; done.
Qed.

Section preserved.
Context `{MapOrder} `{Libraries} `{YAMLDecoder}.

Lemma projected_binding n s id b : projected n s → gp_bindings s !! id = Some b → projection n s id b.
Proof. intros Hp Hb. specialize (Hp id). by rewrite Hb in Hp. Qed.

(** The bounds of [BeginGeneration_ok]. *)
Lemma projected_bounds n s id :
  projected n s →
  (∀ b, gp_bindings s !! id = Some b → 0 ≤ bd_ProjectionGeneration b ≤ 2 ^ 62 + n) ∧
  (∀ k g, generationsOf s id !! k = Some g → 0 ≤ k ≤ 2 ^ 62 + n).
Proof.
  intros Hp. split.
  - intros b Hb. destruct (projected_binding _ _ _ _ Hp Hb). split; [by apply validBinding_generation|lia].
  - intros k g Hk. specialize (Hp id). destruct (gp_bindings s !! id) as [b|].
    + destruct (pj_generation _ _ _ _ Hp k g Hk) as (_ & _ & ? & _). lia.
    + destruct Hp as [Hp _]. unfold generationsOf in Hk. rewrite Hp in Hk. simpl in Hk. by rewrite lookup_empty in Hk.
Qed.

Lemma projected_PutBinding n s b s' :
  projected n s → 0 ≤ n → wellFormed (CallPutBinding b) = true → PutBinding s b = Ok s' → projected n s'.
Proof.
  intros Hp Hn Hwf [->|(Hv & Hb & ->)]%PutBinding_ok; [done|]. simpl in Hwf. bool_prop.
  intros j. simpl. destruct (decide (j = bd_ID b)) as [->|Hj].
  - rewrite lookup_insert_eq. specialize (Hp (bd_ID b)). rewrite Hb in Hp. destruct Hp as [Hg Hd].
    constructor; unfold generationsOf, documentsOf; simpl; rewrite ?Hg, ?Hd; simpl; try done; try lia;
      intros *; rewrite lookup_empty; done.
  - rewrite lookup_insert_ne by done. specialize (Hp j). destruct (gp_bindings s !! j); [|done].
    destruct Hp. by constructor.
Qed.

Lemma projected_SetBindingState n s id head state now s' :
  projected n s → wellFormed (CallSetBindingState id head state now) = true →
  SetBindingState s id head state now = Ok s' → projected n s'.
Proof.
  intros Hp Hwf (b & Hb & Hh & Hu & Hr & ->)%SetBindingState_ok.
  pose proof (projected_binding _ _ _ _ Hp Hb) as [J1 J2 J3 _ _ _ _ _ _].
  eapply (projected_rebind n s _ id b); try done. simpl. apply valid_set_State; try done.
  intros Hs He. rewrite He in Hh. subst head. simpl in Hwf. by destruct Hs; subst state.
Qed.

Lemma projected_head n s s' b head indexed :
  projected n s → gp_bindings s !! bd_ID b = Some b → validHeadFor head b = true → staleObservation head b = false →
  (indexed = true → bd_IndexedRevision b = vh_Commit head) →
  gp_bindings s' = <[bd_ID b := bd_set_Head (vh_Commit head) (vh_ObservedAt head) (headState indexed b)
                                  (observedAt head b) b]> (gp_bindings s) →
  gp_generations s' = gp_generations s → gp_documents s' = gp_documents s → projected n s'.
Proof.
  intros Hp Hb Hh Hst Hi Hb' Hg Hd. pose proof (projected_binding _ _ _ _ Hp Hb) as [J1 J2 J3 _ _ _ _ _ _].
  apply validHeadFor_commit in Hh as (? & ? & ?). apply staleObservation_created in Hst.
  eapply (projected_rebind n s s' (bd_ID b) b); try done. by apply valid_set_Head.
Qed.

Lemma projected_RecordVerifiedHead n s head s' r :
  projected n s → RecordVerifiedHead s head = Ok (s', r) → projected n s'.
Proof.
  intros Hp (b & o & Hb & Hh & Hst & ->)%RecordVerifiedHead_ok.
  pose proof (validHeadFor_commit _ _ Hh) as (_ & _ & Hid). rewrite Hid in Hb.
  eapply (projected_head n s _ b head (String.eqb (bd_IndexedRevision b) (vh_Commit head))); try done.
  by intros Hx%String.eqb_eq.
Qed.

Lemma projected_FinalizeVerifiedPath n s id ref p operation revision head now s' r :
  projected n s → FinalizeVerifiedPath s id ref p operation revision head now = Ok (s', r) → projected n s'.
Proof.
  intros Hp (b & c & r0 & o & Hok)%FinalizeVerifiedPath_ok. cbv zeta in Hok.
  destruct Hok as (Hb & Hh & Hst & Hid & _ & _ & _ & _ & _ & _ & _ & _ & ->).
  pose proof (validHeadFor_commit _ _ Hh) as (_ & _ & Hid'). rewrite <- Hid, Hid' in Hb.
  eapply (projected_head n s _ b head (String.eqb (bd_IndexedRevision b) (vh_Commit head) && _)); try done.
  intros Hx. bool_prop. done.
Qed.

Lemma projected_BeginGeneration n s lease head parser now s' g :
  projected n s → 0 ≤ n → n + 1 < 2 ^ 62 → BeginGeneration s lease head parser now = Ok (s', g) → projected (n + 1) s'.
Proof.
  intros Hp Hn Hn' Hok. set (id := rl_BindingID lease).
  destruct (BeginGeneration_ok s lease head parser now s' g (2 ^ 62 + n) Hok) as
    (b & generations & documents & Hb & Hhead & _ & _ & Hc & _ & Hg & Hnum & Hnew & Hgens & Hdocs & ->).
  - by apply projected_bounds.
  - by apply projected_bounds.
  - lia.
  - fold id in Hb, Hg, Hnew, Hgens, Hdocs |- *. pose proof (projected_binding _ _ _ _ Hp Hb) as [J1 J2 J3 J4 J5 J6 J7 J8 J9].
    pose proof (validBinding_generation _ J2) as Hpos.
    assert (gn_BindingID g = id) as Hgid by (by rewrite Hg).
    assert (commit (gn_HeadRevision g) = true) as Hgc by (by rewrite Hg).
    eapply (projected_at (n + 1) s _ id b); [by apply projected_later|done| |].
    { intros j Hj. simpl. by rewrite !lookup_insert_ne. }
    exists b. split; [done|]. unfold id in *.
    constructor; unfold generationsOf, documentsOf; simpl; rewrite ?lookup_insert_eq; simpl; try done; [lia| | | | |].
    + intros k g' [[<- <-]|[Hne Hk]]%lookup_insert_Some.
      * split_and!; try done; lia.
      * rewrite Hgens in Hk. apply fmap_Some in Hk as (g0 & Hk & ->).
        destruct (J5 k g0 Hk) as (? & ? & ? & ?). unfold retired. destruct (isStaging g0); split_and!; try done; lia.
    + intros k g' [[<- <-]|[Hne Hk]]%lookup_insert_Some Hst.
      * rewrite lookup_insert_eq. split; [lia|by eexists].
      * rewrite Hgens in Hk. apply fmap_Some in Hk as (g0 & Hk & ->). by rewrite isStaging_retired in Hst.
    + intros g' [[Hk _]|[Hne Hk]]%lookup_insert_Some; [lia|]. rewrite Hgens in Hk.
      apply fmap_Some in Hk as (g0 & Hk & ->). rewrite <- (J7 g0 Hk). unfold retired. by destruct (isStaging g0).
    + intros k m [[<- <-]|[Hne Hk]]%lookup_insert_Some.
      * exists g. rewrite lookup_insert_eq. split; [done|]. apply map_Forall_empty.
      * rewrite Hdocs in Hk. destruct (generationsOf s (rl_BindingID lease) !! k) as [g0|] eqn:E.
        -- destruct (isStaging g0) eqn:Es; [done|]. destruct (J8 k m Hk) as (g1 & Hg1 & Hall). exists g1.
           rewrite lookup_insert_ne, Hgens, E by done. simpl. unfold retired. rewrite Es. split; [congruence|done].
        -- destruct (J8 k m Hk) as (g1 & Hg1 & Hall). congruence.
    + assert (∀ k g', <[gn_Number g := g]> generations !! k = Some g' → isStaging g' = true → k = gn_Number g) as Huniq.
      { intros k g' [[<- <-]|[Hne Hk]]%lookup_insert_Some Hst; [done|]. rewrite Hgens in Hk.
        apply fmap_Some in Hk as (g0 & Hk & ->). by rewrite isStaging_retired in Hst. }
      intros k k' g' g'' Hk Hk' Hst Hst'. rewrite (Huniq k g' Hk Hst). by rewrite (Huniq k' g'' Hk' Hst').
Qed.
End preserved.

Section staging.
Context `{MapOrder} `{Libraries} `{YAMLDecoder}.

Lemma isCurrent_spec s g : isCurrent s g = true ↔ generationsOf s (gn_BindingID g) !! gn_Number g = Some g.
Proof. apply bool_decide_eq_true. Qed.

(** The documents of one generation of a binding become others that belong to it. *)
Lemma projection_documents n s s' id b k g m :
  projection n s id b → generationsOf s id !! k = Some g → map_Forall (λ p d, gd_Path d = p ∧ belongs b g d) m →
  gp_generations s' = gp_generations s → gp_documents s' !! id = Some (<[k := m]> (documentsOf s id)) →
  projection n s' id b.
Proof.
  intros [J1 J2 J3 J4 J5 J6 J7 J8 J9] Hk Hm Hg Hd.
  assert (generationsOf s' id = generationsOf s id) as Hg' by (unfold generationsOf; by rewrite Hg).
  assert (documentsOf s' id = <[k := m]> (documentsOf s id)) as Hd' by (unfold documentsOf; by rewrite Hd).
  constructor; rewrite ?Hg', ?Hd'; try done.
  - intros j g' Hj Hst. destruct (J6 j g' Hj Hst) as [? ?]. split; [done|].
    destruct (decide (j = k)) as [->|]; [rewrite lookup_insert_eq; by eexists|by rewrite lookup_insert_ne].
  - intros j m' [[<- <-]|[Hne Hj]]%lookup_insert_Some; [by exists g|by apply J8].
Qed.

(** Documents are staged in a generation that is staging, and belong to it. *)
Lemma PutDocuments_ok s g documents s' :
  PutDocuments s g documents = Ok s' →
  ∃ b, gp_bindings s !! gn_BindingID g = Some b ∧ isStaging g = true ∧
    generationsOf s (gn_BindingID g) !! gn_Number g = Some g ∧ Forall (belongs b g) documents ∧
    (s' = s ∨
     s' = gp_set_generations (gp_generations s)
            (setDocuments (gn_BindingID g) (gn_Number g)
               (put_all documents (documentsIn s (gn_BindingID g) (gn_Number g))) s) s).
Proof.
  unfold PutDocuments. intros Hok. op_ok Hok. rename x into b. apply lookupBinding_ok in Hx. bool_prop.
  destruct (stageDocuments b g _ ∅ documents) eqn:Es; [done|]. apply stageDocuments_ok in Es.
  match goal with Hc : isCurrent s g = true |- _ => apply isCurrent_spec in Hc end.
  exists b. split_and!; try done. injection Hok as <-. destruct documents; auto.
Qed.

Lemma documentsIn_belong n s id b k g :
  projection n s id b → generationsOf s id !! k = Some g →
  map_Forall (λ p d, gd_Path d = p ∧ belongs b g d) (documentsIn s id k).
Proof.
  intros Hp Hg. unfold documentsIn. destruct (documentsOf s id !! k) as [m|] eqn:E; [|apply map_Forall_empty].
  destruct (pj_documents _ _ _ _ Hp k m E) as (g' & Hg' & Hm).
  by assert (g' = g) as -> by congruence.
Qed.

Lemma put_all_belong b g documents m :
  map_Forall (λ p d, gd_Path d = p ∧ belongs b g d) m → Forall (belongs b g) documents →
  map_Forall (λ p d, gd_Path d = p ∧ belongs b g d) (put_all documents m).
Proof.
  intros Hm Hd p d [[Hin Hp]|[Hl _]]%put_all_lookup; [|by apply Hm].
  split; [done|]. rewrite Forall_forall in Hd. by apply Hd.
Qed.

Lemma projected_PutDocuments n s g documents s' :
  projected n s → PutDocuments s g documents = Ok s' → projected n s'.
Proof.
  intros Hp (b & Hb & Hst & Hg & Hd & [->| ->])%PutDocuments_ok; [done|].
  pose proof (projected_binding _ _ _ _ Hp Hb) as Hpj.
  eapply (projected_at n s _ (gn_BindingID g) b); [done|done| |].
  { intros j Hj. unfold setDocuments. simpl. by rewrite lookup_insert_ne. }
  exists b. split; [done|]. eapply projection_documents; [done|done| |done|unfold setDocuments; simpl; apply lookup_insert_eq].
  apply put_all_belong; [|done]. by eapply documentsIn_belong.
Qed.

Lemma FailGeneration_ok s lease g now s' :
  FailGeneration s lease g now = Ok s' →
  isStaging g = true ∧ rl_BindingID lease = gn_BindingID g ∧ activeReconciliationLocked s lease now = true ∧
  generationsOf s (gn_BindingID g) !! gn_Number g = Some g ∧
  s' = gp_set_generations (setGeneration (gn_set_State ProjectionFailed (gn_ActivatedAt g) g) s)
         (<[gn_BindingID g := delete (gn_Number g) (documentsOf s (gn_BindingID g))]> (gp_documents s)) s.
Proof.
  unfold FailGeneration. intros Hok. op_ok Hok. bool_prop. injection Hok as <-.
  match goal with Hc : isCurrent s g = true |- _ => apply isCurrent_spec in Hc end. by split_and!.
Qed.

Lemma projected_FailGeneration n s lease g now s' :
  projected n s → FailGeneration s lease g now = Ok s' → projected n s'.
Proof.
  intros Hp (Hst & Hid & _ & Hg & ->)%FailGeneration_ok. set (id := gn_BindingID g) in *.
  pose proof (Hp id) as Hpj. destruct (gp_bindings s !! id) as [b|] eqn:Hb.
  2: { destruct Hpj as [Hn _]. unfold generationsOf in Hg. rewrite Hn in Hg. simpl in Hg. by rewrite lookup_empty in Hg. }
  eapply (projected_at n s _ id b); [done|done| |].
  { intros j Hj. unfold setGeneration. simpl. by rewrite !lookup_insert_ne. }
  exists b. split; [done|]. destruct Hpj as [J1 J2 J3 J4 J5 J6 J7 J8 J9]. destruct (J5 _ _ Hg) as (_ & _ & Hk & Hc).
  constructor; unfold generationsOf, documentsOf, setGeneration; simpl; fold id; rewrite ?lookup_insert_eq; simpl; try done.
  - intros k g' [[<- <-]|[Hne Hk']]%lookup_insert_Some; [split_and!; try done; lia|by apply J5].
  - intros k g' [[<- <-]|[Hne Hk']]%lookup_insert_Some Hst'; [done|]. destruct (J6 k g' Hk' Hst') as [? ?].
    split; [done|]. by rewrite lookup_delete_ne.
  - intros g' [[Hk' <-]|[Hne Hk']]%lookup_insert_Some; [|by apply J7]. simpl. apply J7. by rewrite Hk' in Hg.
  - intros k m [Hne Hk']%lookup_delete_Some. destruct (J8 k m Hk') as (g' & Hg' & Hm). exists g'.
    by rewrite lookup_insert_ne.
  - intros k k' g1 g2 [[<- <-]|[_ Hk1]]%lookup_insert_Some [[<- <-]|[_ Hk2]]%lookup_insert_Some; try done. by apply J9.
Qed.

(** A generation is activated when its head is the one last observed; its documents
    are those it was staged with, after policy. *)
Lemma ActivateGeneration_ok s lease g policy now s' b' :
  ActivateGeneration s lease g policy now = Ok (s', b') →
  ∃ b documents commands reservations, let id := gn_BindingID g in
    gp_bindings s !! id = Some b ∧ rl_BindingID lease = id ∧ activeReconciliationLocked s lease now = true ∧
    isStaging g = true ∧ generationsOf s id !! gn_Number g = Some g ∧
    bd_TargetHeadRevision b = gn_HeadRevision g ∧ bd_UpdatedAt b ≤ now ∧
    b' = bd_set_Indexed (gn_HeadRevision g) (gn_Number g) now b ∧
    activatedDocuments policy b g (policyDocuments (documentsIn s id (gn_Number g)))
      (if 0 <? bd_ProjectionGeneration b then policyDocuments (documentsIn s id (bd_ProjectionGeneration b)) else []) =
      Ok documents ∧
    foldl (settle b' (gn_Number g) now) (gp_writeCommands s, gp_reservations s) (range 46 (gp_reservations s)) =
      (commands, reservations) ∧
    gp_bindings s' = <[id := b']> (gp_bindings s) ∧
    gp_generations s' = setGeneration (gn_set_State ProjectionActive (Some now) g) s ∧
    gp_documents s' = setDocuments id (gn_Number g) (put_all documents (documentsIn s id (gn_Number g))) s ∧
    gp_reservations s' = reservations ∧
    gp_writeCommands s' = indexExact b' (gn_HeadRevision g) (gn_Number g) now <$> commands ∧
    gp_reconciliation s' = gp_reconciliation s.
Proof.
  unfold ActivateGeneration. intros Hok. op_ok Hok. rename x into b, x0 into documents. apply lookupBinding_ok in Hx.
  bool_prop. match goal with Hc : isCurrent s g = true |- _ => apply isCurrent_spec in Hc end.
  destruct (foldl _ _ _) as [commands reservations] eqn:Ef. injection Hok as <- <-.
  exists b, documents, commands, reservations. cbv zeta. by split_and!.
Qed.

Lemma projected_ActivateGeneration n s lease g policy now s' b' :
  projected n s → ActivateGeneration s lease g policy now = Ok (s', b') → projected n s'.
Proof.
  intros Hp (b & documents & commands & reservations & Hok)%ActivateGeneration_ok. cbv zeta in Hok.
  destruct Hok as (Hb & _ & _ & Hst & Hg & Hh & Hu & Hb' & Hd & _ & Eb & Eg & Ed & _ & _ & _).
  set (id := gn_BindingID g) in *. pose proof (projected_binding _ _ _ _ Hp Hb) as Hpj.
  pose proof (documentsIn_belong _ _ _ _ _ _ Hpj Hg) as Hin. destruct (activatedDocuments_ok _ _ _ _ _ _ Hd) as [Hall _].
  eapply (projected_at n s _ id b); [done|done| |].
  { intros j Hj. rewrite Eb, Eg, Ed. unfold setGeneration, setDocuments. fold id. simpl. fold id. by rewrite !lookup_insert_ne. }
  exists b'. rewrite Eb, lookup_insert_eq. split; [done|]. destruct Hpj as [J1 J2 J3 J4 J5 J6 J7 J8 J9].
  destruct (J5 _ _ Hg) as (_ & _ & Hk & Hc). destruct (J6 _ _ Hg Hst) as [Hlt _].
  assert (validBinding b' = true) as Hv by (subst b'; apply valid_set_Indexed; try done; lia).
  assert (sameDocuments b b') as Hs by (by subst b'; split_and!).
  assert (∀ g d, belongs b g d → belongs b' g d) as Hbel.
  { intros g0 d (? & ? & ?). split_and!; [|done|done]. by rewrite <- (validDocument_same b b' d Hs) by congruence. }
  assert (generationsOf s' id = <[gn_Number g := gn_set_State ProjectionActive (Some now) g]> (generationsOf s id)) as Hg'.
  { unfold generationsOf at 1. rewrite Eg. unfold setGeneration. simpl. fold id. by rewrite lookup_insert_eq. }
  assert (documentsOf s' id = <[gn_Number g := put_all documents (documentsIn s id (gn_Number g))]> (documentsOf s id)) as Hd'.
  { unfold documentsOf at 1. rewrite Ed. unfold setDocuments. by rewrite lookup_insert_eq. }
  constructor; rewrite ?Hg', ?Hd'; subst b'; simpl; try done; try lia.
  - intros k g' [[<- <-]|[Hne Hk']]%lookup_insert_Some; [split_and!; try done; lia|by apply J5].
  - intros k g' [[<- <-]|[Hne Hk']]%lookup_insert_Some Hst'; [done|]. by destruct Hne; eapply J9.
  - intros g' Hg0. rewrite lookup_insert_eq in Hg0. by injection Hg0 as <-.
  - intros k m [[<- <-]|[Hne Hk']]%lookup_insert_Some.
    + eexists. rewrite lookup_insert_eq. split; [done|]. intros p d Hpd.
      destruct (put_all_belong b g documents _ Hin Hall p d Hpd) as [? Hb']. split; [done|]. by apply (Hbel g).
    + destruct (J8 k m Hk') as (g' & Hg0 & Hm). exists g'. rewrite lookup_insert_ne by done. split; [done|].
      intros p d Hpd. destruct (Hm p d Hpd). split; [done|]. by apply Hbel.
  - intros k k' g1 g2 [[<- <-]|[_ Hk1]]%lookup_insert_Some [[<- <-]|[_ Hk2]]%lookup_insert_Some; try done. by apply J9.
Qed.
End staging.

(** * Leases *)

Section leases.
Context `{MapOrder} `{Libraries} `{YAMLDecoder}.

(** Whoever holds the lease of a binding, and whoever may. *)
Lemma claimOne_ok s owner now duration id s' w :
  claimOne s owner now duration id = Some (s', w) →
  ∃ b polls, let state := reconciliationOf s id in
    let lease := mkLease id owner (i64 (mr_epoch state + 1)) 0 (now + duration) in
    gp_bindings s !! id = Some b ∧ leased state now = false ∧ rw_Binding w = b ∧ rw_Lease w = lease ∧
    s' = gp_set_polls polls
           (<[id := mkReconciliation (Some lease) (i64 (mr_epoch state + 1)) (mr_reconciledAt state) (mr_lastError state)]>
              (gp_reconciliation s)) s.
Proof.
  unfold claimOne. intros Hok. apply bind_Some in Hok as (b & Hb & Hok).
  repeat (match type of Hok with (if ?x then _ else _) = _ => destruct x eqn:?; [done|] end).
  injection Hok as <- <-. eexists b, _. cbv zeta. by split_and!.
Qed.

Lemma ClaimReconciliation_ok s owner now duration s' w :
  ClaimReconciliation s owner now duration = Ok (s', w) →
  ∃ id, claimOne s owner now duration id = Some (s', w).
Proof.
  unfold ClaimReconciliation. intros Hok. op_ok Hok. revert Hok. generalize (sort_strings (range 45 (gp_bindings s)).*1).
  intros ids. induction ids as [|id ids IH]; simpl; [done|]. destruct (claimOne s owner now duration id) eqn:E; [|done].
  intros [= ->]. by exists id.
Qed.

Lemma active_lease s lease now :
  activeReconciliationLocked s lease now = true →
  ∃ state l, gp_reconciliation s !! rl_BindingID lease = Some state ∧ mr_lease state = Some l ∧
    rl_Owner l = rl_Owner lease ∧ rl_Epoch l = rl_Epoch lease ∧ now < rl_Until l.
Proof.
  unfold activeReconciliationLocked. destruct (gp_reconciliation s !! _) as [state|]; [|done].
  destruct (mr_lease state) as [l|] eqn:E; [|done]. intros. bool_prop. by exists state, l.
Qed.

(** What a call does to the state of one binding's reconciliation: nothing; a claim
    with the next epoch when no lease is live; a lease of the same epoch renewed
    or given up. *)
Definition leaseStep (id : string) (r r' : memoryReconciliation) : Prop :=
  r' = r ∨
  (∃ l, mr_lease r' = Some l ∧ rl_BindingID l = id ∧ rl_Epoch l = mr_epoch r' ∧ mr_epoch r' = i64 (mr_epoch r + 1)) ∨
  (mr_epoch r' = mr_epoch r ∧
   (mr_lease r' = None ∨ mr_lease r' = mr_lease r ∨
    ∃ l l', mr_lease r = Some l ∧ mr_lease r' = Some l' ∧ rl_Epoch l' = rl_Epoch l ∧ rl_BindingID l' = id)).

Lemma reconciliationOf_insert id j r p s :
  reconciliationOf (gp_set_polls p (<[id := r]> (gp_reconciliation s)) s) j = if decide (j = id) then r else reconciliationOf s j.
Proof.
  unfold reconciliationOf. simpl. destruct (decide (j = id)) as [->|]; [by rewrite lookup_insert_eq|by rewrite lookup_insert_ne].
Qed.

Lemma leaseStep_refl id r : leaseStep id r r.
Proof. by left. Qed.

(** Calls of the other groups do not touch reconciliations, and none but those of
    the projection touch bindings, generations and documents. *)
Definition ofProjection (c : Call) : bool :=
  match c with
  | CallPutBinding _ | CallSetBindingState _ _ _ _ | CallRecordVerifiedHead _ | CallBegin _ _ _ _ | CallPutDocuments _ _
  | CallActivate _ _ _ _ | CallFail _ _ _ | CallFinalizeVerifiedPath _ _ _ _ _ _ _ => true
  | _ => false
  end.

Definition ofReconciliation (c : Call) : bool :=
  match c with
  | CallPutPollCursor _ | CallClaim _ _ _ | CallHeartbeat _ _ _ | CallFinish _ _ _ | CallRelease _ _ => true
  | _ => false
  end.

Lemma perform_frame s c :
  ofProjection c = false →
  gp_bindings (perform s c) = gp_bindings s ∧ gp_generations (perform s c) = gp_generations s ∧
  gp_documents (perform s c) = gp_documents s.
Proof.
  intros Hc. pose (P s' := gp_bindings s' = gp_bindings s ∧ gp_generations s' = gp_generations s ∧
                           gp_documents s' = gp_documents s).
  change (P (perform s c)). assert (P s) as Hs by done.
  assert (∀ owner now d, P (after fst s (ClaimReconciliation s owner now d))) as Hclaim.
  { intros owner now d. apply after_cases; [done|]. intros [s' w] (id & Hok)%ClaimReconciliation_ok.
    apply claimOne_ok in Hok as (b & polls & Hok). cbv zeta in Hok. by destruct Hok as (_ & _ & _ & _ & ->). }
  destruct c; try discriminate Hc; simpl perform; try apply Hclaim; clear Hclaim;
    (apply after_cases; [done|intros a Hok]);
    cbv delta [ClaimWebhook PutPollCursor HeartbeatReconciliation FinishReconciliation ReleaseReconciliation AcquirePath
      FinalizePath RepairExpiredPath PutWriteCommand MarkWriteCommandCommitted AcquireRuntimeReadiness
      HeartbeatRuntimeReadiness] in Hok; cbv beta zeta in Hok; op_ok Hok;
    repeat (break_match_hyp Hok; op_ok Hok; try discriminate Hok); try discriminate Hok; injection Hok as <-; done.
Qed.

Lemma perform_reconciliation s c :
  ofReconciliation c = false → gp_reconciliation (perform s c) = gp_reconciliation s.
Proof.
  intros Hc. pose (P s' := gp_reconciliation s' = gp_reconciliation s).
  change (P (perform s c)). assert (P s) as Hs by done.
  destruct c; try discriminate Hc; simpl perform; (apply after_cases; [done|intros a Hok]);
    try (destruct a as [s' ?];
         first [ apply RecordVerifiedHead_ok in Hok as (? & ? & _ & _ & _ & ->); done
               | apply FinalizeVerifiedPath_ok in Hok as (? & ? & ? & ? & Hok); cbv zeta in Hok;
                 decompose [and] Hok; subst s'; done
               | apply ActivateGeneration_ok in Hok as (? & ? & ? & ? & Hok); cbv zeta in Hok;
                 decompose [and] Hok; done ]);
    cbv delta [PutBinding SetBindingState BeginGeneration PutDocuments FailGeneration ClaimWebhook AcquirePath
      FinalizePath RepairExpiredPath PutWriteCommand MarkWriteCommandCommitted AcquireRuntimeReadiness
      HeartbeatRuntimeReadiness] in Hok; cbv beta zeta in Hok; op_ok Hok;
    repeat (break_match_hyp Hok; op_ok Hok; try discriminate Hok); try discriminate Hok; injection Hok; intros; subst; done.
Qed.

Lemma perform_leaseStep s c id : leaseStep id (reconciliationOf s id) (reconciliationOf (perform s c) id).
Proof.
  destruct (ofReconciliation c) eqn:Hc.
  2: { left. unfold reconciliationOf. by rewrite perform_reconciliation. }
  destruct c; try discriminate Hc; simpl perform;
    (apply (after_cases (λ s', leaseStep id (reconciliationOf s id) (reconciliationOf s' id)));
     [apply leaseStep_refl|intros a Hok]).
  - unfold PutPollCursor in Hok. op_ok Hok. injection Hok as <-. unfold Datatypes.id. rewrite reconciliationOf_insert.
    destruct (decide _) as [->|]; [|apply leaseStep_refl]. right. right. split; [done|]. right. by left.
  - destruct a as [s' w]. apply ClaimReconciliation_ok in Hok as (id' & Hok).
    apply claimOne_ok in Hok as (b & polls & Hok). cbv zeta in Hok. destruct Hok as (_ & _ & _ & _ & ->).
    simpl fst. rewrite reconciliationOf_insert. destruct (decide _) as [->|]; [|apply leaseStep_refl].
    right. left. eexists. by split_and!.
  - unfold HeartbeatReconciliation in Hok. op_ok Hok. injection Hok as <-. simpl fst. rewrite reconciliationOf_insert.
    destruct (decide _) as [->|]; [|apply leaseStep_refl]. right. right. split; [done|]. right. right.
    match goal with Ha : activeReconciliationLocked _ _ _ = true |- _ =>
      apply active_lease in Ha as (state & l & Hs & Hl & _ & He & _) end.
    eexists l, _. unfold reconciliationOf. rewrite Hs. simpl. by split_and!.
  - unfold FinishReconciliation in Hok. op_ok Hok. injection Hok as <-. unfold Datatypes.id. rewrite reconciliationOf_insert.
    destruct (decide _) as [->|]; [|apply leaseStep_refl]. right. right. split; [done|]. by left.
  - unfold ReleaseReconciliation in Hok. op_ok Hok. injection Hok as <-. unfold Datatypes.id. rewrite reconciliationOf_insert.
    destruct (decide _) as [->|]; [|apply leaseStep_refl]. right. right. split; [done|]. by left.
Qed.

(** The lease of a binding is the one last claimed. *)
Definition leasesCurrent (n : Z) (s : MemoryStore) : Prop :=
  ∀ id, let r := reconciliationOf s id in
    0 ≤ mr_epoch r ≤ n ∧ ∀ l, mr_lease r = Some l → rl_Epoch l = mr_epoch r ∧ rl_BindingID l = id.

Lemma perform_leases n s c :
  leasesCurrent n s → 0 ≤ n → n + 1 < 2 ^ 62 →
  leasesCurrent (n + 1) (perform s c) ∧
  ∀ id, mr_epoch (reconciliationOf s id) ≤ mr_epoch (reconciliationOf (perform s c) id).
Proof.
  intros Hinv Hn Hb. pose (r' id := reconciliationOf (perform s c) id).
  enough (∀ id, (0 ≤ mr_epoch (r' id) ≤ n + 1 ∧ ∀ l, mr_lease (r' id) = Some l → rl_Epoch l = mr_epoch (r' id) ∧ rl_BindingID l = id) ∧
                mr_epoch (reconciliationOf s id) ≤ mr_epoch (r' id)) as Hall by (split; intros id; apply Hall).
  intros id. specialize (Hinv id). cbv zeta in Hinv. unfold r'. clear r'.
  destruct Hinv as [He Hl]. destruct (perform_leaseStep s c id) as [->|[(l & Hl' & Hid & Hel & Hep)|(Hep & Hl')]].
  - split; [|lia]. split; [lia|done].
  - rewrite i64_small in Hep by (unfold i64_range; lia). split; [|lia]. split; [lia|]. intros l'. rewrite Hl'. by intros [= <-].
  - split; [|lia]. split; [lia|]. intros l' Hl2. rewrite Hep.
    destruct Hl' as [Hl'|[Hl'|(l1 & l2 & H1' & H2' & H3' & H4')]]; [congruence|rewrite Hl' in Hl2; by apply Hl|].
    rewrite H2' in Hl2. injection Hl2 as <-. split; [|done]. rewrite H3'. by apply Hl.
Qed.

Lemma run_leases n s h :
  leasesCurrent n s → 0 ≤ n → n + Z.of_nat (length h) < 2 ^ 62 →
  leasesCurrent (n + Z.of_nat (length h)) (run s h) ∧
  ∀ id, mr_epoch (reconciliationOf s id) ≤ mr_epoch (reconciliationOf (run s h) id).
Proof.
  revert n s. induction h as [|c h IH]; intros n s Hinv Hn Hb; simpl in *.
  - rewrite Z.add_0_r. by split; [|lia].
  - replace (n + Z.of_nat (S (length h))) with (n + 1 + Z.of_nat (length h)) in * by lia.
    destruct (perform_leases n s c Hinv Hn) as [Hinv' Hle]; [lia|].
    destruct (IH (n + 1) (perform s c) Hinv') as [Hinv2 Hle2]; [lia|lia|]. split; [done|].
    intros id. specialize (Hle id). specialize (Hle2 id). lia.
Qed.

Lemma leases_empty : leasesCurrent 0 NewMemoryStore.
Proof. intros id. unfold reconciliationOf. simpl. rewrite lookup_empty. by split. Qed.

Lemma active_epoch n s lease now :
  leasesCurrent n s → activeReconciliationLocked s lease now = true →
  rl_Epoch lease = mr_epoch (reconciliationOf s (rl_BindingID lease)).
Proof.
  intros Hinv (state & l & Hs & Hl & _ & He & _)%active_lease. specialize (Hinv (rl_BindingID lease)).
  unfold reconciliationOf in *. rewrite Hs in *. simpl in *. destruct Hinv as [_ Hinv]. destruct (Hinv l Hl). congruence.
Qed.

Lemma claimed_epoch s owner now duration s1 w :
  ClaimReconciliation s owner now duration = Ok (s1, w) →
  let id := rl_BindingID (rw_Lease w) in
  leased (reconciliationOf s id) now = false ∧ rl_Epoch (rw_Lease w) = i64 (mr_epoch (reconciliationOf s id) + 1) ∧
  mr_epoch (reconciliationOf s1 id) = rl_Epoch (rw_Lease w).
Proof.
  intros (id & Hclaim)%ClaimReconciliation_ok. apply claimOne_ok in Hclaim as (b & polls & Hok).
  cbv zeta in Hok. destruct Hok as (Hb & Hl & _ & -> & ->). simpl. split_and!; [done|done|].
  rewrite reconciliationOf_insert. by rewrite decide_True by done.
Qed.

End leases.

(** * What is served *)

Section served.
Context `{MapOrder} `{Libraries} `{YAMLDecoder}.

Lemma projected_perform n s c :
  projected n s → 0 ≤ n → n + 1 < 2 ^ 62 → wellFormed c = true → projected (n + 1) (perform s c).
Proof.
  intros Hp Hn Hb Hwf. pose proof (projected_later _ _ Hp) as Hp'. destruct (ofProjection c) eqn:Hc.
  2: { destruct (perform_frame s c Hc) as (? & ? & ?). by eapply projected_frame. }
  destruct c; try discriminate Hc; simpl perform; (apply after_cases; [done|intros a Hok]); try destruct a as [s' ?].
  - apply projected_later. by eapply projected_PutBinding.
  - apply projected_later. by eapply projected_SetBindingState.
  - apply projected_later. by eapply projected_RecordVerifiedHead.
  - by eapply projected_BeginGeneration.
  - apply projected_later. by eapply projected_PutDocuments.
  - apply projected_later. by eapply projected_ActivateGeneration.
  - apply projected_later. by eapply projected_FailGeneration.
  - apply projected_later. by eapply projected_FinalizeVerifiedPath.
Qed.

Lemma projected_history h : history h → projected (Z.of_nat (length h)) (run NewMemoryStore h).
Proof.
  intros [Hwf Hlen]. change (Z.of_nat (length h)) with (0 + Z.of_nat (length h)).
  apply run_invariant; [|done|done|done|by intros; apply projected_perform].
  intros id. simpl. by rewrite !lookup_empty.
Qed.

(** What a reader of a binding is served: the same documents of the same revision. *)
Definition servedSame (s s' : MemoryStore) (id : string) : Prop :=
  ∀ b b', gp_bindings s !! id = Some b → gp_bindings s' !! id = Some b' →
    bd_ProjectionGeneration b' = bd_ProjectionGeneration b ∧ bd_IndexedRevision b' = bd_IndexedRevision b ∧
    ∀ p, DocumentOf s' id p = DocumentOf s id p.

Lemma servedSame_documents s s' id :
  (∀ b b', gp_bindings s !! id = Some b → gp_bindings s' !! id = Some b' →
    bd_ProjectionGeneration b' = bd_ProjectionGeneration b ∧ bd_IndexedRevision b' = bd_IndexedRevision b ∧
    documentsOf s' id !! bd_ProjectionGeneration b = documentsOf s id !! bd_ProjectionGeneration b) → servedSame s s' id.
Proof.
  intros Hd b b' Hb Hb'. destruct (Hd b b' Hb Hb') as (Hp & Hi & Hdoc). split_and!; [done|done|]. intros p.
  unfold DocumentOf, lookupBinding. rewrite Hb, Hb'. simpl. rewrite Hp. unfold documentsIn. by rewrite Hdoc.
Qed.

Lemma servedSame_frame s s' id :
  gp_bindings s' !! id = gp_bindings s !! id → gp_documents s' !! id = gp_documents s !! id → servedSame s s' id.
Proof.
  intros Hb Hd. apply servedSame_documents. intros b b' Hb1 Hb2. rewrite Hb1 in Hb. unfold documentsOf. rewrite Hd.
  split_and!; congruence.
Qed.

Lemma servedSame_rebind s s' id b b' :
  gp_bindings s !! id = Some b → gp_bindings s' = <[id := b']> (gp_bindings s) → gp_documents s' = gp_documents s →
  bd_ProjectionGeneration b' = bd_ProjectionGeneration b → bd_IndexedRevision b' = bd_IndexedRevision b →
  ∀ j, servedSame s s' j.
Proof.
  intros Hb Hb' Hd Hp Hi j. apply servedSame_documents. intros c c' Hc Hc'. unfold documentsOf. rewrite Hd.
  rewrite Hb' in Hc'. destruct (decide (j = id)) as [->|Hj].
  - rewrite lookup_insert_eq in Hc'. split_and!; congruence.
  - rewrite lookup_insert_ne in Hc' by done. split_and!; congruence.
Qed.

(** A change of the documents of a generation that is not the active one. *)
Lemma servedSame_other n s s' id k :
  projected n s → gp_bindings s' = gp_bindings s →
  (∀ j, j ≠ id → gp_documents s' !! j = gp_documents s !! j) →
  (∀ b, gp_bindings s !! id = Some b → bd_ProjectionGeneration b ≠ k) →
  (∀ j, j ≠ k → (∀ g, generationsOf s id !! j = Some g → isStaging g = false) → documentsOf s' id !! j = documentsOf s id !! j) →
  ∀ j, servedSame s s' j.
Proof.
  intros Hp Hb Hj Hk Hd j. destruct (decide (j = id)) as [->|Hne].
  - apply servedSame_documents. intros b b' Hb1 Hb2. rewrite Hb, Hb1 in Hb2. injection Hb2 as <-.
    split_and!; [done|done|]. apply Hd; [by apply Hk|]. intros g Hg. destruct (isStaging g) eqn:Es; [|done].
    pose proof (projected_binding _ _ _ _ Hp Hb1) as Hpj. destruct (pj_staged _ _ _ _ Hpj _ _ Hg Es) as [Hlt _]. lia.
  - apply servedSame_frame; [by rewrite Hb|by apply Hj].
Qed.

(** Nothing but an activation changes what is served. *)
Lemma perform_served n s c :
  projected n s → 0 ≤ n → n + 1 < 2 ^ 62 → (∀ lease g policy now, c ≠ CallActivate lease g policy now) →
  ∀ id, servedSame s (perform s c) id.
Proof.
  intros Hp Hn Hb Hna id. destruct (ofProjection c) eqn:Hc.
  2: { destruct (perform_frame s c Hc) as (H1' & _ & H3'). apply servedSame_frame; congruence. }
  destruct c; try discriminate Hc; simpl perform;
    (apply (after_cases (λ s', servedSame s s' id)); [by apply servedSame_frame|intros a Hok]); try destruct a as [s' ?].
  - apply PutBinding_ok in Hok as [->|(_ & Hbn & ->)]; [by apply servedSame_frame|]. unfold Datatypes.id.
    apply servedSame_documents. intros c c' Hc1 Hc2. simpl in Hc2.
    rewrite lookup_insert_ne in Hc2 by congruence. by assert (c' = c) as -> by congruence.
  - apply SetBindingState_ok in Hok as (b & Hb' & _ & _ & _ & ->). by eapply servedSame_rebind.
  - apply RecordVerifiedHead_ok in Hok as (b & o & Hb' & Hh & _ & ->).
    pose proof (validHeadFor_commit _ _ Hh) as (_ & _ & Hid). rewrite Hid in Hb'. by eapply servedSame_rebind.
  - destruct (BeginGeneration_ok s lease head parser now s' g (2 ^ 62 + n) Hok) as
      (b & generations & documents & Hb' & _ & _ & _ & _ & _ & _ & Hnum & _ & _ & Hdocs & ->).
    + by apply projected_bounds.
    + by apply projected_bounds.
    + lia.
    + simpl fst. eapply (servedSame_other n s _ (rl_BindingID lease) (gn_Number g)); [done|done| | |].
      * intros j Hj. simpl. by rewrite lookup_insert_ne.
      * intros b0 Hb0. assert (b0 = b) as -> by congruence. lia.
      * intros j Hj Hst. unfold documentsOf at 1. simpl. rewrite lookup_insert_eq. simpl.
        rewrite lookup_insert_ne, Hdocs by done. destruct (generationsOf s _ !! j) as [g0|]; [|done]. by rewrite Hst.
  - apply PutDocuments_ok in Hok as (b & Hb' & Hst & Hg & _ & [->| ->]); [by apply servedSame_frame|].
    unfold Datatypes.id. pose proof (projected_binding _ _ _ _ Hp Hb') as Hpj.
    destruct (pj_staged _ _ _ _ Hpj _ _ Hg Hst) as [Hlt _].
    eapply (servedSame_other n s _ (gn_BindingID g) (gn_Number g)); [done|done| | |].
    + intros j Hj. unfold setDocuments. simpl. by rewrite lookup_insert_ne.
    + intros b0 Hb0. assert (b0 = b) as -> by congruence. lia.
    + intros j Hj _. unfold documentsOf at 1, setDocuments. simpl. rewrite lookup_insert_eq. simpl. by rewrite lookup_insert_ne.
  - by destruct (Hna lease g policy now).
  - apply FailGeneration_ok in Hok as (Hst & _ & _ & Hg & ->). unfold Datatypes.id.
    eapply (servedSame_other n s _ (gn_BindingID g) (gn_Number g)); [done|done| | |].
    + intros j Hj. simpl. by rewrite lookup_insert_ne.
    + intros b0 Hb0. pose proof (projected_binding _ _ _ _ Hp Hb0) as Hpj.
      destruct (pj_staged _ _ _ _ Hpj _ _ Hg Hst) as [Hlt _]. lia.
    + intros j Hj _. unfold documentsOf at 1. simpl. rewrite lookup_insert_eq. simpl. by rewrite lookup_delete_ne.
  - apply FinalizeVerifiedPath_ok in Hok as (b & c & r0 & o & Hok). cbv zeta in Hok.
    destruct Hok as (Hb' & Hh & _ & Hid & _ & _ & _ & _ & _ & _ & _ & _ & ->).
    pose proof (validHeadFor_commit _ _ Hh) as (_ & _ & Hid'). rewrite <- Hid, Hid' in Hb'. by eapply servedSame_rebind.
Qed.

Lemma DocumentOf_ok s id p d :
  DocumentOf s id p = Ok d ↔
  ∃ b m, gp_bindings s !! id = Some b ∧ bd_ProjectionGeneration b ≠ 0 ∧
         documentsOf s id !! bd_ProjectionGeneration b = Some m ∧ m !! p = Some d.
Proof.
  unfold DocumentOf, lookupBinding, documentsIn. destruct (gp_bindings s !! id) as [b|]; simpl.
  2: { split; [done|]. by intros (b & m & ? & _). }
  destruct (negb (bd_ProjectionGeneration b =? 0)) eqn:E; bool_prop.
  2: { split; [done|]. intros (b' & m & [= ->] & Hne & _). done. }
  split.
  - destruct (documentsOf s id !! bd_ProjectionGeneration b) as [m|] eqn:Em; simpl.
    + destruct (m !! p) as [d'|] eqn:Ed; [|done]. intros [= ->]. eauto 10.
    + by rewrite lookup_empty.
  - intros (b' & m & [= <-] & _ & -> & Hd). simpl. by rewrite Hd.
Qed.

Lemma put_all_dom documents (m : gmap string Document) p :
  (∀ q, q ∈ map gd_Path documents → is_Some (m !! q)) → is_Some (put_all documents m !! p) ↔ is_Some (m !! p).
Proof.
  revert m. induction documents as [|d documents IH]; intros m Hd; [done|]. simpl. rewrite IH.
  - destruct (decide (p = gd_Path d)) as [->|Hne]; [|by rewrite lookup_insert_ne].
    rewrite lookup_insert_eq. split; [|by eexists]. intros _. apply Hd. by left.
  - intros q Hq. destruct (decide (q = gd_Path d)) as [->|Hne]; [rewrite lookup_insert_eq; by eexists|].
    rewrite lookup_insert_ne by done. apply Hd. by right.
Qed.

Lemma policyDocuments_paths (m : gmap string Document) q :
  (∀ p d, m !! p = Some d → gd_Path d = p) → q ∈ map gd_Path (policyDocuments m) → is_Some (m !! q).
Proof.
  intros Hm Hq. apply list_elem_of_In, in_map_iff in Hq as (d & <- & Hd). apply list_elem_of_In in Hd.
  unfold policyDocuments in Hd. rewrite elem_of_sort_slice in Hd. apply list_elem_of_fmap in Hd as ([p d'] & -> & Hd).
  apply elem_of_range in Hd. simpl. rewrite (Hm p d' Hd). by eexists.
Qed.

(** C7. Readers see whole generations.  In every history, what a binding serves
    are valid documents of its one active generation, all of the revision that
    is recorded as indexed; no call changes what is served but the activation
    of a generation, which serves at once exactly the paths that were staged
    in it and only succeeds when its head is the head last verified, under a
    live lease, and leaves the binding ready at that head. *)
Theorem projection_atomic h c :
  history (h ++ [c]) →
  let s := run NewMemoryStore h in
  (∀ id p d, DocumentOf s id p = Ok d →
     ∃ b, gp_bindings s !! id = Some b ∧ validDocument d b = true ∧ gd_Path d = p ∧
          gd_Generation d = bd_ProjectionGeneration b ∧ gd_SourceRevision d = bd_IndexedRevision b) ∧
  ∀ id, servedSame s (perform s c) id ∨
    ∃ lease g policy now b', c = CallActivate lease g policy now ∧ gn_BindingID g = id ∧
      activeReconciliationLocked s lease now = true ∧ rl_BindingID lease = id ∧
      gp_bindings (perform s c) !! id = Some b' ∧ bd_State b' = BindingReady ∧
      bd_TargetHeadRevision b' = gn_HeadRevision g ∧ bd_IndexedRevision b' = gn_HeadRevision g ∧
      bd_ProjectionGeneration b' = gn_Number g ∧
      ∀ p, is_ok (DocumentOf (perform s c) id p) = bool_decide (is_Some (documentsIn s id (gn_Number g) !! p)).
Proof.
  intros [Hwf Hlen] s. rewrite length_app in Hlen. simpl in Hlen.
  rewrite forallb_app in Hwf. apply andb_true_iff in Hwf as [Hwf _].
  assert (projected (Z.of_nat (length h)) s) as Hp by (apply projected_history; split; [done|lia]).
  split.
  - intros id p d (b & m & Hb & Hne & Hm & Hd)%DocumentOf_ok. exists b.
    pose proof (projected_binding _ _ _ _ Hp Hb) as Hpj.
    destruct (pj_documents _ _ _ _ Hpj _ _ Hm) as (g & Hg & Hall). destruct (Hall p d Hd) as (Hpath & Hv & Hgen & Hs).
    destruct (pj_generation _ _ _ _ Hpj _ _ Hg) as (_ & Hnum & _). rewrite (pj_active _ _ _ _ Hpj _ Hg) in Hs.
    split_and!; congruence.
  - intros id.
    assert ((∃ lease g policy now, c = CallActivate lease g policy now) ∨ ∀ lease g policy now, c ≠ CallActivate lease g policy now)
      as [(lease & g & policy & now & ->)|Hna] by (destruct c; try (right; done); left; eauto).
    2: { left. apply (perform_served (Z.of_nat (length h))); [done|lia|lia|done]. }
    simpl perform. destruct (ActivateGeneration s lease g policy now) as [[s' b']|e] eqn:Ea.
    2: { left. by apply servedSame_frame. }
    simpl after. apply ActivateGeneration_ok in Ea as (b & documents & commands & reservations & Hok). cbv zeta in Hok.
    destruct Hok as (Hb & Hid & Hl & Hst & Hg & Hh & Hu & Hb' & Hd & _ & Eb & Eg & Ed & _ & _ & _).
    destruct (decide (gn_BindingID g = id)) as [<-|Hne].
    2: { left. apply servedSame_frame; [rewrite Eb|rewrite Ed; unfold setDocuments]; by rewrite lookup_insert_ne. }
    right. exists lease, g, policy, now, b'. destruct (activatedDocuments_ok _ _ _ _ _ _ Hd) as [_ Hpaths].
    pose proof (projected_binding _ _ _ _ Hp Hb) as Hpj. pose proof (documentsIn_belong _ _ _ _ _ _ Hpj Hg) as Hin.
    destruct (pj_generation _ _ _ _ Hpj _ _ Hg) as (_ & _ & Hpos & _).
    assert (gp_bindings s' !! gn_BindingID g = Some b') as Hb2 by (by rewrite Eb, lookup_insert_eq).
    split_and!; try done; try (by subst b'). intros p.
    unfold DocumentOf, lookupBinding. rewrite Hb2. simpl. subst b'. simpl.
    destruct (negb (gn_Number g =? 0)) eqn:E0; bool_prop; [|lia].
    unfold documentsIn at 1. unfold documentsOf at 1. rewrite Ed. unfold setDocuments. rewrite lookup_insert_eq. simpl.
    rewrite lookup_insert_eq. simpl. apply eq_trans with (bool_decide (is_Some (put_all documents
      (documentsIn s (gn_BindingID g) (gn_Number g)) !! p))); [by destruct (put_all _ _ !! p)|].
    apply bool_decide_ext. apply (put_all_dom documents). rewrite Hpaths. intros q Hq.
    apply policyDocuments_paths in Hq; [done|]. intros q' d Hq'. by destruct (Hin q' d Hq').
Qed.
End served.
