(* ===== verification/GitProjectionWriteFacts.v ===== *)
(** What becomes of an accepted write of the Git projection: its receipt is final,
    and its path is its own until it is released. *)

From Stdlib Require Import Ascii.
From S2P Require Import Prelude Regexp GoStrings Digest Encoding JsonValues AppConfig Variables.
From S2P Require Import GitProjection GitProjectionWrites GitProjectionStore GitProjectionFacts.

Open Scope Z_scope.

(** * Receipts *)

Definition rank (s : WriteCommandState) : nat :=
  match s with WriteCommandPending => 0 | WriteCommandGitCommitted => 1 | WriteCommandIndexed => 2 end.

(** Everything of a command that was accepted: all but its receipt. *)
Definition accepted (c : WriteCommand) : WriteCommand :=
  wc_set_Receipt WriteCommandPending "" None 0 None 0 c.

(** A receipt only grows: a commit that was recorded is never another. *)
Definition receiptLe (c c' : WriteCommand) : Prop :=
  accepted c = accepted c' ∧ (rank (wc_State c) ≤ rank (wc_State c'))%nat ∧
  (wc_State c ≠ WriteCommandPending →
   wc_CommittedRevision c' = wc_CommittedRevision c ∧ wc_CommittedAt c' = wc_CommittedAt c).

#[export] Instance receiptLe_preorder : PreOrder receiptLe.
Proof.
  split.
  - intros c. by split_and!.
  - intros x y z (A1 & R1 & C1) (A2 & R2 & C2). split_and!; [congruence|lia|]. intros Hx.
    destruct (C1 Hx) as [<- <-]. apply C2. intros Hy. rewrite Hy in R1. destruct (wc_State x); simpl in R1; [done|lia|lia].
Qed.

(** Every command is still there, with a receipt that has grown. *)
Definition receiptsGrow (m m' : gmap string WriteCommand) : Prop :=
  ∀ op c, m !! op = Some c → ∃ c', m' !! op = Some c' ∧ receiptLe c c'.

#[export] Instance receiptsGrow_preorder : PreOrder receiptsGrow.
Proof.
  split.
  - intros m op c Hc. by exists c.
  - intros x y z Hxy Hyz op c Hc. destruct (Hxy op c Hc) as (c1 & H1 & L1). destruct (Hyz op c1 H1) as (c2 & H2 & L2).
    exists c2. split; [done|]. by etrans.
Qed.

Lemma receiptsGrow_insert m op c c' : m !! op = Some c → receiptLe c c' → receiptsGrow m (<[op := c']> m).
Proof.
  intros Hc Hle op' x Hx. destruct (decide (op' = op)) as [->|Hne].
  - exists c'. rewrite lookup_insert_eq. split; [done|]. congruence.
  - exists x. by rewrite lookup_insert_ne.
Qed.

Lemma receiptsGrow_new m op c : m !! op = None → receiptsGrow m (<[op := c]> m).
Proof. intros Hn op' x Hx. exists x. rewrite lookup_insert_ne by congruence. done. Qed.

Lemma receiptsGrow_fmap (f : WriteCommand → WriteCommand) m : (∀ c, receiptLe c (f c)) → receiptsGrow m (f <$> m).
Proof. intros Hf op c Hc. exists (f c). by rewrite lookup_fmap, Hc. Qed.

Lemma indexCommand_le number now c : wc_State c = WriteCommandGitCommitted → receiptLe c (indexCommand number now c).
Proof. intros Hs. split_and!; [done|by rewrite Hs; simpl; lia|done]. Qed.

Lemma committed_spec c : committed c = true ↔ wc_State c = WriteCommandGitCommitted.
Proof. apply bool_decide_eq_true. Qed.

Lemma indexExact_le b head number now c : receiptLe c (indexExact b head number now c).
Proof.
  unfold indexExact. destruct (_ && _ && _) eqn:E; [|done]. bool_prop. apply indexCommand_le. by apply committed_spec.
Qed.

Lemma settle_grow b number now l commands reservations :
  receiptsGrow commands (foldl (settle b number now) (commands, reservations) l).1.
Proof.
  revert commands reservations. induction l as [|kv l IH]; intros commands reservations; [done|]. simpl.
  destruct (coveredReservation b kv.2); [|apply IH]. etrans; [|apply IH].
  destruct (commands !! pr_OperationID kv.2) as [c|] eqn:E; [|done].
  destruct (reservedCommand b kv.2 c) eqn:Er; [|done]. eapply receiptsGrow_insert; [done|]. apply indexCommand_le.
  unfold reservedCommand in Er. bool_prop. by apply committed_spec.
Qed.

Lemma settle_reservations b number now (m : gmap string PathReservation) l commands k :
  (∀ kv, kv ∈ l → m !! kv.1 = Some kv.2) → ∀ m0 : gmap string PathReservation, (∀ j r, m0 !! j = Some r → m !! j = Some r) →
  let m' := (foldl (settle b number now) (commands, m0) l).2 in
  (∀ r, m' !! k = Some r → m0 !! k = Some r) ∧
  (∀ r, m0 !! k = Some r → m' !! k = None → coveredReservation b r = true).
Proof.
  revert commands. induction l as [|[j x] l IH]; intros commands Hl m0 Hm0; simpl.
  - split; [done|]. intros r ->. done.
  - assert (∀ kv, kv ∈ l → m !! kv.1 = Some kv.2) as Hl' by (intros kv Hkv; apply Hl; by right).
    destruct (coveredReservation b x) eqn:E; [|by apply IH].
    set (c' := match commands !! pr_OperationID x with Some c => _ | None => _ end).
    destruct (IH c' Hl' (delete j m0)) as [IH1 IH2].
    { intros i r [_ Hi]%lookup_delete_Some. by apply Hm0. }
    split.
    + intros r Hr. apply IH1 in Hr. by apply lookup_delete_Some in Hr as [_ Hr].
    + intros r Hr Hn. destruct (decide (k = j)) as [->|Hne].
      * specialize (Hl (j, x)). simpl in Hl. apply Hm0 in Hr. rewrite Hl in Hr by left. by injection Hr as <-.
      * apply IH2; [by rewrite lookup_delete_ne|done].
Qed.

(** Calls that touch neither commands nor reservations. *)
Definition ofWrites (c : Call) : bool :=
  match c with
  | CallActivate _ _ _ _ | CallAcquirePath _ _ _ | CallFinalizePath _ _ _ _ _ _ | CallFinalizeVerifiedPath _ _ _ _ _ _ _
  | CallRepairExpiredPath _ _ _ _ _ _ | CallPutWriteCommand _ | CallMarkCommitted _ _ _ => true
  | _ => false
  end.

Section writes.
Context `{MapOrder} `{Libraries} `{YAMLDecoder}.

Lemma perform_writes s c :
  ofWrites c = false →
  gp_writeCommands (perform s c) = gp_writeCommands s ∧ gp_reservations (perform s c) = gp_reservations s.
Proof.
  intros Hc. pose (P s' := gp_writeCommands s' = gp_writeCommands s ∧ gp_reservations s' = gp_reservations s).
  change (P (perform s c)). assert (P s) as Hs by done.
  assert (∀ owner now d, P (after fst s (ClaimReconciliation s owner now d))) as Hclaim.
  { intros owner now d. apply after_cases; [done|]. intros [s' w] (id & Hok)%ClaimReconciliation_ok.
    apply claimOne_ok in Hok as (b & polls & Hok). cbv zeta in Hok. by destruct Hok as (_ & _ & _ & _ & ->). }
  destruct c; try discriminate Hc; simpl perform; try apply Hclaim; clear Hclaim;
    (apply after_cases; [done|intros a Hok]);
    try (destruct a as [s' ?]; apply RecordVerifiedHead_ok in Hok as (? & ? & _ & _ & _ & ->); done);
    cbv delta [PutBinding SetBindingState BeginGeneration PutDocuments FailGeneration ClaimWebhook PutPollCursor
      HeartbeatReconciliation FinishReconciliation ReleaseReconciliation AcquireRuntimeReadiness
      HeartbeatRuntimeReadiness] in Hok; cbv beta zeta in Hok; op_ok Hok;
    repeat (break_match_hyp Hok; op_ok Hok; try discriminate Hok); try discriminate Hok; injection Hok; intros; subst; done.
Qed.

Lemma perform_receipts s c : receiptsGrow (gp_writeCommands s) (gp_writeCommands (perform s c)).
Proof.
  destruct (ofWrites c) eqn:Hc; [|by destruct (perform_writes s c Hc) as [-> _]].
  destruct c; try discriminate Hc; simpl perform;
    (apply (after_cases (λ s', receiptsGrow (gp_writeCommands s) (gp_writeCommands s'))); [done|intros a Hok]);
    try match type of a with (_ * _)%type => destruct a as [s' answer] end.
  - apply ActivateGeneration_ok in Hok as (b & documents & commands & reservations & Hok). cbv zeta in Hok.
    destruct Hok as (_ & _ & _ & _ & _ & _ & _ & _ & _ & Hf & _ & _ & _ & _ & Hc' & _). simpl. rewrite Hc'.
    etrans; [|apply receiptsGrow_fmap; intros; apply indexExact_le].
    change commands with (commands, reservations).1. rewrite <- Hf. apply settle_grow.
  - unfold AcquirePath in Hok. op_ok Hok. repeat (break_match_hyp Hok; op_ok Hok; try discriminate Hok);
      injection Hok; intros; subst; done.
  - unfold FinalizePath in Hok. op_ok Hok. repeat (break_match_hyp Hok; op_ok Hok; try discriminate Hok);
      injection Hok; intros; subst; done.
  - apply FinalizeVerifiedPath_ok in Hok as (b & c & r0 & o & Hok). cbv zeta in Hok.
    destruct Hok as (_ & _ & _ & _ & _ & _ & _ & _ & Hc' & _ & Hst & _ & ->). simpl.
    destruct (_ && _).
    + eapply receiptsGrow_insert; [done|]. unfold indexedReceipt. destruct Hst as [Hst|Hst].
      * rewrite Hst. split_and!; [done|rewrite Hst; simpl; lia|by rewrite Hst].
      * assert (receiptLe c (wc_set_Receipt WriteCommandIndexed (wc_CommittedRevision c) (wc_CommittedAt c)
          (bd_ProjectionGeneration b) (Some now) now c)) as Hle.
        { split_and!; [done|simpl; destruct (wc_State c); simpl; lia|done]. }
        destruct (wc_State c) eqn:E; [|done|done]. split_and!; [done|rewrite E; simpl; lia|by rewrite E].
    + destruct (wc_State c) eqn:E; [|done|done]. eapply receiptsGrow_insert; [done|].
      split_and!; [done|rewrite E; simpl; lia|by rewrite E].
  - unfold RepairExpiredPath in Hok. op_ok Hok. by injection Hok as <-.
  - unfold PutWriteCommand in Hok. op_ok Hok. destruct (gp_writeCommands s !! wc_OperationID c) eqn:E; op_ok Hok;
      injection Hok as <-; [done|]. by apply receiptsGrow_new.
  - unfold MarkWriteCommandCommitted in Hok. op_ok Hok. destruct (gp_writeCommands s !! operation) as [c|] eqn:E; [|done].
    destruct (wc_State c) eqn:Es; op_ok Hok; injection Hok as <- <-; [|done|done]. simpl.
    eapply receiptsGrow_insert; [done|]. split_and!; [done|rewrite Es; simpl; lia|by rewrite Es].
Qed.

Lemma run_receipts s h : receiptsGrow (gp_writeCommands s) (gp_writeCommands (run s h)).
Proof. revert s. induction h as [|x h IH]; intros s; [done|]. simpl. etrans; [apply perform_receipts|apply IH]. Qed.

(** A command is stored under its operation. *)
Definition ownKeys (m : gmap string WriteCommand) : Prop := ∀ op c, m !! op = Some c → wc_OperationID c = op.

Lemma ownKeys_insert m op c c' : ownKeys m → m !! op = Some c → accepted c' = accepted c → ownKeys (<[op := c']> m).
Proof.
  intros Hm Hc Ha op' x [[<- <-]|[_ Hx]]%lookup_insert_Some; [|by apply Hm].
  rewrite <- (Hm op c Hc). by apply (f_equal wc_OperationID) in Ha.
Qed.

Lemma settle_ownKeys b number now l commands reservations :
  ownKeys commands → ownKeys (foldl (settle b number now) (commands, reservations) l).1.
Proof.
  revert commands reservations. induction l as [|kv l IH]; intros commands reservations Hm; [done|]. simpl.
  destruct (coveredReservation b kv.2); [|by apply IH]. apply IH.
  destruct (commands !! pr_OperationID kv.2) as [c|] eqn:E; [|done].
  destruct (reservedCommand b kv.2 c); [|done]. by eapply ownKeys_insert.
Qed.

Lemma perform_ownKeys s c : ownKeys (gp_writeCommands s) → ownKeys (gp_writeCommands (perform s c)).
Proof.
  intros Hm. destruct (ofWrites c) eqn:Hc; [|by destruct (perform_writes s c Hc) as [-> _]].
  destruct c; try discriminate Hc; simpl perform;
    (apply (after_cases (λ s', ownKeys (gp_writeCommands s'))); [done|intros a Hok]);
    try match type of a with (_ * _)%type => destruct a as [s' answer] end.
  - apply ActivateGeneration_ok in Hok as (b & documents & commands & reservations & Hok). cbv zeta in Hok.
    destruct Hok as (_ & _ & _ & _ & _ & _ & _ & _ & _ & Hf & _ & _ & _ & _ & Hc' & _). simpl. rewrite Hc'.
    intros op c. rewrite lookup_fmap. intros (c0 & Hc0 & ->)%fmap_Some.
    transitivity (wc_OperationID c0); [unfold indexExact; by destruct (_ && _ && _)|].
    revert op c0 Hc0. change (ownKeys (commands, reservations).1). rewrite <- Hf. by apply settle_ownKeys.
  - unfold AcquirePath in Hok. op_ok Hok. repeat (break_match_hyp Hok; op_ok Hok; try discriminate Hok);
      injection Hok; intros; subst; done.
  - unfold FinalizePath in Hok. op_ok Hok. repeat (break_match_hyp Hok; op_ok Hok; try discriminate Hok);
      injection Hok; intros; subst; done.
  - apply FinalizeVerifiedPath_ok in Hok as (b & c & r0 & o & Hok). cbv zeta in Hok.
    destruct Hok as (_ & _ & _ & _ & _ & _ & _ & _ & Hc' & _ & _ & _ & ->). simpl. destruct (_ && _).
    + eapply ownKeys_insert; [done|done|]. unfold indexedReceipt. by destruct (wc_State c).
    + destruct (wc_State c); [|done|done]. by eapply ownKeys_insert.
  - unfold RepairExpiredPath in Hok. op_ok Hok. by injection Hok as <-.
  - unfold PutWriteCommand in Hok. op_ok Hok. destruct (gp_writeCommands s !! wc_OperationID c) eqn:E; op_ok Hok;
      injection Hok as <-; [done|]. intros op c0. simpl. intros [[<- <-]|[_ Hold]]%lookup_insert_Some; [done|by apply Hm].
  - unfold MarkWriteCommandCommitted in Hok. op_ok Hok. destruct (gp_writeCommands s !! operation) as [c|] eqn:E; [|done].
    destruct (wc_State c); op_ok Hok; injection Hok as <- <-; [|done|done]. by eapply ownKeys_insert.
Qed.

Lemma run_ownKeys s h : ownKeys (gp_writeCommands s) → ownKeys (gp_writeCommands (run s h)).
Proof. revert s. induction h as [|x h IH]; intros s Hm; [done|]. simpl. apply IH. by apply perform_ownKeys. Qed.

(** The command of a path that is finalized names the commit. *)
Lemma finalize_receipt s id ref p operation revision head now s' r :
  FinalizeVerifiedPath s id ref p operation revision head now = Ok (s', r) →
  ∃ c, gp_writeCommands s' !! operation = Some c ∧ wc_State c ≠ WriteCommandPending ∧ wc_CommittedRevision c = revision.
Proof.
  intros (b & c & r0 & o & Hok)%FinalizeVerifiedPath_ok. cbv zeta in Hok.
  destruct Hok as (_ & _ & _ & _ & _ & _ & _ & _ & Hc' & _ & Hst & _ & ->). simpl. destruct (_ && _).
  - eexists. rewrite lookup_insert_eq. split; [done|]. unfold indexedReceipt.
    destruct (wc_State c) eqn:E; (split; [done|]); simpl; [done|by destruct Hst..].
  - destruct (wc_State c) eqn:E; [eexists; rewrite lookup_insert_eq; by split_and!|..];
      (exists c; split; [done|]; rewrite E; split; [done|by destruct Hst]).
Qed.

Lemma mark_receipt s operation revision now s' c :
  MarkWriteCommandCommitted s operation revision now = Ok (s', c) →
  gp_writeCommands s' !! operation = Some c ∧ wc_State c ≠ WriteCommandPending ∧ wc_CommittedRevision c = revision.
Proof.
  unfold MarkWriteCommandCommitted. intros Hok. op_ok Hok. destruct (gp_writeCommands s !! operation) as [c0|] eqn:E; [|done].
  destruct (wc_State c0) eqn:Es; op_ok Hok; injection Hok as <- <-; [simpl; by rewrite lookup_insert_eq|..];
    bool_prop; rewrite Es; by split_and!.
Qed.

(** A receipt is final.  Whatever is called afterwards, a command that was
    accepted stays in the store with all that was accepted of it - its plan, its
    path, its bytes, its author - it only moves from pending to committed to
    indexed, and once it names the commit that holds its bytes it never names
    another. *)
Theorem write_receipt_final s h operation c :
  gp_writeCommands s !! operation = Some c →
  ∃ c', gp_writeCommands (run s h) !! operation = Some c' ∧
    accepted c' = accepted c ∧ (rank (wc_State c) ≤ rank (wc_State c'))%nat ∧
    (wc_State c ≠ WriteCommandPending →
     wc_CommittedRevision c' = wc_CommittedRevision c ∧ wc_CommittedAt c' = wc_CommittedAt c).
Proof.
  intros Hc. destruct (run_receipts s h operation c Hc) as (c' & Hc' & Ha & Hr & Hcom). exists c'. by split_and!.
Qed.

(** * Reservations *)

(** The same operation's hold on a path; what it committed stays committed. *)
Definition sameHold (r r' : PathReservation) : Prop :=
  pr_BindingID r' = pr_BindingID r ∧ pr_TargetRef r' = pr_TargetRef r ∧ pr_Path r' = pr_Path r ∧
  pr_OperationID r' = pr_OperationID r ∧ pr_BaseRevision r' = pr_BaseRevision r ∧ pr_CreatedAt r' = pr_CreatedAt r ∧
  (pr_State r = ReservationCommittedPendingIndex →
   pr_State r' = ReservationCommittedPendingIndex ∧ pr_CommittedRevision r' = pr_CommittedRevision r).

Definition expired (r : PathReservation) (now : Time) : Prop := ∃ until, pr_LeaseUntil r = Some until ∧ until ≤ now.

(** Another worker runs the same operation, after the first one's lease. *)
Definition takenOver (c : Call) (r r' : PathReservation) : Prop :=
  ∃ candidate now lease, c = CallAcquirePath candidate now lease ∧ pr_OperationID candidate = pr_OperationID r ∧
    pr_Owner r' = pr_Owner candidate ∧ pr_State r = ReservationCandidate ∧ expired r now.

(** How the hold on a path ends. *)
Inductive released (s : MemoryStore) (k : string) (r : PathReservation) : Call → Prop :=
| released_repaired id ref p revision now :
    k = reservationKey id ref p → pr_State r = ReservationCandidate → expired r now →
    released s k r (CallRepairExpiredPath id ref p false revision now)
| released_activated lease g policy now b :
    pr_State r = ReservationCommittedPendingIndex → pr_BindingID r = gn_BindingID g →
    gp_bindings (perform s (CallActivate lease g policy now)) !! gn_BindingID g = Some b → bd_State b = BindingReady →
    bd_IndexedRevision b = bd_TargetHeadRevision b →
    released s k r (CallActivate lease g policy now)
| released_indexed id ref p revision head now c :
    k = reservationKey id ref p →
    gp_writeCommands (perform s (CallFinalizeVerifiedPath id ref p (pr_OperationID r) revision head now))
      !! pr_OperationID r = Some c →
    wc_State c = WriteCommandIndexed → wc_CommittedRevision c = revision →
    released s k r (CallFinalizeVerifiedPath id ref p (pr_OperationID r) revision head now).

Definition reservationStep (s : MemoryStore) (c : Call) (k : string) (r : PathReservation) (m : gmap string PathReservation)
    : Prop :=
  match m !! k with
  | Some r' => sameHold r r' ∧ (pr_Owner r' = pr_Owner r ∨ takenOver c r r')
  | None => released s k r c
  end.

Lemma sameHold_refl r : sameHold r r.
Proof. by split_and!. Qed.

Lemma reservationStep_same s c k r m : m !! k = Some r → reservationStep s c k r m.
Proof. intros Hm. unfold reservationStep. rewrite Hm. split; [apply sameHold_refl|by left]. Qed.

Lemma reservationStep_insert s c k r m j x :
  m !! k = Some r → (∀ y, m !! j = Some y → sameHold y x ∧ (pr_Owner x = pr_Owner y ∨ takenOver c y x)) →
  reservationStep s c k r (<[j := x]> m).
Proof.
  intros Hm Hj. unfold reservationStep. destruct (decide (k = j)) as [->|Hne].
  - rewrite lookup_insert_eq. by apply Hj.
  - rewrite lookup_insert_ne, Hm by done. split; [apply sameHold_refl|by left].
Qed.

Lemma reservationStep_delete s c k r m j :
  m !! k = Some r → (k = j → released s k r c) → reservationStep s c k r (delete j m).
Proof.
  intros Hm Hj. unfold reservationStep. destruct (decide (k = j)) as [->|Hne].
  - rewrite lookup_delete_eq. by apply Hj.
  - rewrite lookup_delete_ne, Hm by done. split; [apply sameHold_refl|by left].
Qed.

Lemma pr_commit_hold revision now r :
  pr_State r = ReservationCandidate ∨ pr_CommittedRevision r = revision → sameHold r (pr_commit revision now r).
Proof. intros Hr. split_and!; try done. intros Hc. destruct Hr as [Hr|Hr]; [congruence|done]. Qed.

Lemma lookupReservation_ok s k r : lookupReservation s k = Ok r ↔ gp_reservations s !! k = Some r.
Proof. unfold lookupReservation. destruct (gp_reservations s !! k); split; congruence. Qed.

Lemma isCandidate_spec r : isCandidate r = true ↔ pr_State r = ReservationCandidate.
Proof. apply bool_decide_eq_true. Qed.

Lemma not_leaseAfter r now :
  bool_decide (is_Some (pr_LeaseUntil r)) = true → leaseAfter r now = false → expired r now.
Proof.
  unfold leaseAfter, expired. destruct (pr_LeaseUntil r) as [until|]; [|done]. intros _ Hl. bool_prop. eauto.
Qed.

Lemma released_activation n s lease g policy now s' b' k r :
  projected n s → ActivateGeneration s lease g policy now = Ok (s', b') → gp_reservations s !! k = Some r →
  reservationStep s (CallActivate lease g policy now) k r (gp_reservations s').
Proof.
  intros Hp Hact Hr. pose proof Hact as Hact'.
  apply ActivateGeneration_ok in Hact' as (b & documents & commands & reservations & Hok). cbv zeta in Hok.
  destruct Hok as (Hb & _ & _ & _ & _ & Hh & _ & Hb' & _ & Hf & Eb & _ & _ & Er & _ & _).
  destruct (settle_reservations b' (gn_Number g) now (gp_reservations s) (range 46 (gp_reservations s)) (gp_writeCommands s) k)
    with (m0 := gp_reservations s) as [Hs1 Hs2]; [|done|].
  { intros [j x] Hj. by apply elem_of_range in Hj. }
  rewrite Hf in Hs1, Hs2. simpl in Hs1, Hs2. unfold reservationStep. rewrite Er.
  destruct (reservations !! k) as [r'|] eqn:E.
  - specialize (Hs1 r' eq_refl). assert (r' = r) as -> by congruence. split; [apply sameHold_refl|by left].
  - specialize (Hs2 r Hr eq_refl). unfold coveredReservation in Hs2. bool_prop.
    pose proof (pj_id _ _ _ _ (projected_binding _ _ _ _ Hp Hb)) as Hid.
    apply (released_activated _ _ _ _ _ _ _ b'); [done|by subst b'; simpl in *; congruence| |by subst b'|by subst b'].
    simpl perform. rewrite Hact. simpl. by rewrite Eb, lookup_insert_eq.
Qed.

Lemma released_finalization s id ref p operation revision head now s' answer k r :
  FinalizeVerifiedPath s id ref p operation revision head now = Ok (s', answer) → gp_reservations s !! k = Some r →
  reservationStep s (CallFinalizeVerifiedPath id ref p operation revision head now) k r (gp_reservations s').
Proof.
  intros Hfin Hr. pose proof Hfin as Hok. apply FinalizeVerifiedPath_ok in Hok as (b & c & r0 & o & Hok). cbv zeta in Hok.
  destruct Hok as (_ & _ & _ & _ & _ & Hr0 & Hop & Hst0 & Hc & _ & Hst & Hans & Hs').
  destruct (String.eqb (bd_IndexedRevision b) (vh_Commit head) && (0 <? bd_ProjectionGeneration b)) eqn:Ei.
  - rewrite Hs'. simpl gp_reservations. apply reservationStep_delete; [done|]. intros Hk. subst operation.
    assert (r0 = r) as -> by congruence.
    apply (released_indexed s k r _ _ _ _ _ _ (indexedReceipt revision (bd_ProjectionGeneration b) now c)); [done| | |].
    + simpl perform. rewrite Hfin, Hs'. simpl. by rewrite lookup_insert_eq.
    + unfold indexedReceipt. by destruct (wc_State c).
    + unfold indexedReceipt. destruct (wc_State c) eqn:E; [done| |]; by destruct Hst.
  - rewrite Hs'. simpl gp_reservations. apply reservationStep_insert; [done|]. intros y Hy.
    assert (y = r0) as -> by congruence. subst answer. split; [by apply pr_commit_hold|by left].
Qed.

Lemma perform_reservations n s c k r :
  projected n s → gp_reservations s !! k = Some r → reservationStep s c k r (gp_reservations (perform s c)).
Proof.
  intros Hp Hr. destruct (ofWrites c) eqn:Hc.
  2: { destruct (perform_writes s c Hc) as [_ ->]. by apply reservationStep_same. }
  destruct c; try discriminate Hc; simpl perform;
    (eapply (after_cases (λ s', reservationStep s _ k r (gp_reservations s'))); [by apply reservationStep_same|intros a Hok]);
    try match type of a with (_ * _)%type => destruct a as [s' answer] end; simpl fst; unfold Datatypes.id.
  - by eapply released_activation.
  - unfold AcquirePath in Hok. op_ok Hok. set (key := reservationKey _ _ _) in *.
    destruct (gp_reservations s !! key) as [current|] eqn:E.
    + destruct (_ && _ && String.eqb (pr_Owner current) _) eqn:E1.
      { injection Hok as <- _. by apply reservationStep_same. }
      destruct (_ && isCandidate current && _ && _) eqn:E2; [|done]. injection Hok as <- _.
      apply reservationStep_insert; [done|]. intros y Hy. assert (y = current) as -> by congruence.
      split; [by split_and!|]. right. bool_prop.
      exists candidate, now, lease. split_and!; try done; [by apply isCandidate_spec|].
      apply not_leaseAfter; [by apply bool_decide_eq_true|done].
    + injection Hok as <- _. apply reservationStep_insert; [done|]. intros y Hy. congruence.
  - unfold FinalizePath in Hok. op_ok Hok. apply lookupReservation_ok in Hx0. rename x0 into r0.
    destruct (pr_State r0) eqn:Es; op_ok Hok; injection Hok as <- _; [|by apply reservationStep_same].
    apply reservationStep_insert; [done|]. intros y Hy. assert (y = r0) as -> by congruence.
    split; [apply pr_commit_hold; by left|by left].
  - by eapply released_finalization.
  - unfold RepairExpiredPath in Hok. op_ok Hok. rename x into r0. apply lookupReservation_ok in Hx. injection Hok as <-.
    bool_prop. match goal with Hi : isCandidate r0 = true |- _ => apply isCandidate_spec in Hi end. simpl.
    destruct present.
    + apply reservationStep_insert; [done|]. intros y Hy. assert (y = r0) as -> by congruence.
      split; [apply pr_commit_hold; by left|by left].
    + apply reservationStep_delete; [done|]. intros ->. assert (r0 = r) as -> by congruence.
      apply released_repaired; [done|done|]. apply not_leaseAfter; [by apply bool_decide_eq_true|done].
  - unfold PutWriteCommand in Hok. op_ok Hok. destruct (gp_writeCommands s !! wc_OperationID c) eqn:E; op_ok Hok;
      injection Hok as <-; by apply reservationStep_same.
  - unfold MarkWriteCommandCommitted in Hok. op_ok Hok. destruct (gp_writeCommands s !! operation) as [c|] eqn:E; [|done].
    destruct (wc_State c) eqn:Es; op_ok Hok; injection Hok as <- _; by apply reservationStep_same.
Qed.

End writes.
