(* ===== verification/GitProjectionPaths.v ===== *)
(** Where a write of the Git projection may go: the paths of a binding, as
    sequences of plain segments, and the paths each authority admits. *)

From Stdlib Require Import Ascii.
From S2P Require Import Prelude Regexp GoStrings Digest Encoding JsonValues AppConfig Variables.
From S2P Require Import GitProjection GitProjectionWrites GitProjectionStore.

Open Scope Z_scope.

(** * Paths of plain segments *)

Lemma str_join_cons sep w ws : ws ≠ [] → str_join sep (w :: ws) = w +:+ sep +:+ str_join sep ws.
Proof. by destruct ws. Qed.

(** A segment that [path.Clean] keeps. *)
Definition plain (s : string) : Prop := s ≠ "" ∧ s ≠ "." ∧ s ≠ ".." ∧ count_byte "/" s = 0.

Lemma split_join segments :
  segments ≠ [] → Forall plain segments → split_byte "/" (str_join "/" segments) = segments.
Proof.
  intros Hne Hs. induction Hs as [|s segments (_ & _ & _ & Hc) Hs IH]; [done|].
  destruct segments as [|s' segments]; [by apply split_byte_none|]. rewrite str_join_cons by done.
  change ("/" +:+ ?x) with (String "/" x). rewrite split_byte_app by done. by rewrite IH.
Qed.

Lemma keep_plain segments kept : Forall plain segments → foldl keep_segment kept segments = (rev segments ++ kept)%list.
Proof.
  intros Hs. revert kept. induction Hs as [|s segments (H1 & H2 & H3 & _) Hs IH]; intros kept; [done|]. simpl.
  rewrite IH. assert (keep_segment kept s = s :: kept) as ->; [|by rewrite <- app_assoc].
  unfold keep_segment, empty. apply String.eqb_neq in H1, H2, H3. by rewrite H1, H2, H3.
Qed.

Lemma join_starts s segments : plain s → has_prefix "/" (str_join "/" (s :: segments)) = false.
Proof.
  intros (Hne & _ & _ & Hc). destruct s as [|a s]; [done|]. simpl in Hc.
  assert (Ascii.eqb a "/" = false) as Ha.
  { destruct (Ascii.eqb a "/"); [|done]. pose proof (count_byte_nonneg "/" s). lia. }
  assert (∀ t, has_prefix "/" (String a t) = false) as Hp.
  { intros t. destruct (has_prefix "/" (String a t)) eqn:E; [|done]. apply has_prefix_spec in E as [r E].
    injection E as -> _. by rewrite Ascii.eqb_refl in Ha. }
  destruct segments; simpl; apply Hp.
Qed.

Lemma path_clean_plain segments :
  segments ≠ [] → Forall plain segments → path_clean (str_join "/" segments) = str_join "/" segments.
Proof.
  intros Hne Hs. unfold path_clean. destruct segments as [|s segments]; [done|].
  rewrite join_starts by (by inversion Hs). rewrite split_join by done. rewrite keep_plain by done.
  rewrite app_nil_r, rev_involutive. apply Forall_cons in Hs as [(Hs & _) _].
  assert (empty (str_join "/" (s :: segments)) = false) as ->; [|done].
  destruct s; [done|]. by destruct segments.
Qed.

Lemma path_join_plain segments : segments ≠ [] → Forall plain segments → path_join segments = str_join "/" segments.
Proof.
  intros Hne Hs. unfold path_join.
  assert (∀ l, Forall plain l → List.filter (λ e, negb (empty e)) l = l) as Hf.
  { induction 1 as [|s l (Hx & _) _ IH]; [done|]. simpl. apply String.eqb_neq in Hx. unfold empty at 1. rewrite Hx. simpl. by rewrite IH. }
  rewrite Hf by done. destruct segments as [|s segments]; [done|].
  assert (empty s = false) as He by (apply String.eqb_neq; by inversion Hs as [|?? (? & _)]).
  cbn [forallb]. rewrite He. cbn [andb]. by apply path_clean_plain.
Qed.

Lemma join_app l r : l ≠ [] → r ≠ [] → str_join "/" (str_join "/" l :: r) = str_join "/" (l ++ r).
Proof.
  intros Hl Hr. induction l as [|x l IH]; [done|]. destruct l as [|y l].
  - by destruct r.
  - specialize (IH ltac:(done)). destruct r as [|z r]; [done|]. simpl in *.
    rewrite <- IH. by rewrite !str_app_assoc.
Qed.

Lemma join_inj l r :
  l ≠ [] → r ≠ [] → Forall plain l → Forall plain r → str_join "/" l = str_join "/" r → l = r.
Proof. intros Hl Hr Pl Pr He. rewrite <- (split_join l), <- (split_join r) by done. by rewrite He. Qed.

(** An identifier is a plain segment. *)
Lemma uuid_plain s : uuid s = true → plain s.
Proof.
  intros Hu%re_match_spec.
  assert (Forall (λ c, Ascii.eqb c "/" = false ∧ Ascii.eqb c "." = false) (String.list_ascii_of_string s)) as Hb.
  { eapply re_within_spec; [|exact Hu].
    assert (∀ c, is_lower_hex c = true → Ascii.eqb c "/" = false ∧ Ascii.eqb c "." = false) as Hhex.
    { intros c Hc. split; apply Ascii.eqb_neq; intros ->; discriminate Hc. }
    unfold uuidRE, uuid_re. cbn [re_within RTimes RLit].
    split_and!; try done; try exact Hhex; intros c Hc; split; apply Ascii.eqb_neq; intros ->; by vm_compute in Hc. }
  assert (String.list_ascii_of_string s ≠ []) as Hne.
  { intros He. destruct s; [|done]. apply re_match_spec in Hu. discriminate Hu. }
  split_and!.
  - by intros ->.
  - intros ->. apply Forall_cons in Hb as [[_ Hb] _]. discriminate Hb.
  - intros ->. apply Forall_cons in Hb as [[_ Hb] _]. discriminate Hb.
  - apply count_byte_none. eapply Forall_impl; [exact Hb|]. intros c [Hc _]. by apply Ascii.eqb_neq.
Qed.

Lemma filter_plain l : Forall plain l → List.filter (λ e, negb (empty e)) l = l.
Proof.
  induction 1 as [|s l (Hx & _) _ IH]; [done|]. simpl. apply String.eqb_neq in Hx. unfold empty at 1. rewrite Hx. simpl.
  by rewrite IH.
Qed.

(** Below a prefix of plain segments. *)
Lemma path_join_below l r :
  l ≠ [] → r ≠ [] → Forall plain l → Forall plain r → path_join (str_join "/" l :: r) = str_join "/" (l ++ r).
Proof.
  intros Hl Hr Pl Pr. assert (empty (str_join "/" l) = false) as He.
  { destruct Pl as [|s l (Hs & _) _]; [done|]. destruct s; [done|]. by destruct l. }
  unfold path_join. cbn [forallb List.filter]. rewrite He. cbn [andb negb]. rewrite filter_plain by done.
  rewrite join_app by done. apply path_clean_plain; [by destruct l|by apply Forall_app].
Qed.

Ltac plain_list :=
  repeat first [apply Forall_cons; split | apply Forall_nil; exact I]; try done; try (split_and!; [done|done|done|reflexivity]).

(** * The paths of a binding *)

Definition environmentSegments (b : Binding) : list string := ["tenants"; bd_ProjectID b; "environments"; bd_EnvironmentID b].

Definition projectVariables (projectID : string) : string := str_join "/" ["tenants"; projectID; "variables.yaml"].
Definition environmentVariables (b : Binding) : string := str_join "/" (environmentSegments b ++ ["variables.yaml"]).
Definition applicationConfig (b : Binding) (applicationID : string) : string :=
  str_join "/" (environmentSegments b ++ ["apps"; applicationID; "app.yaml"]).

Lemma environment_binding b :
  validBinding b = true → bd_Kind b = BindingEnvironment →
  plain (bd_ProjectID b) ∧ plain (bd_EnvironmentID b) ∧ Forall plain (environmentSegments b) ∧
  bd_Prefix b = str_join "/" (environmentSegments b).
Proof.
  intros Hv Hk. unfold validBinding in Hv.
  apply andb_true_iff in Hv as [Hv _]. apply andb_true_iff in Hv as [Hv _]. apply andb_true_iff in Hv as [Hv _].
  apply andb_true_iff in Hv as [Hv Hs]. unfold validScope in Hs. rewrite Hk in Hs. bool_prop.
  assert (plain (bd_ProjectID b)) as Hp by (by apply uuid_plain).
  assert (plain (bd_EnvironmentID b)) as He by (apply uuid_plain; congruence).
  assert (Forall plain (environmentSegments b)) as Hall by (unfold environmentSegments; plain_list).
  split_and!; [done|done|done|]. etrans; [eassumption|]. unfold EnvironmentPrefix. by apply path_join_plain.
Qed.

Lemma DependencyPaths_environment b :
  validBinding b = true → bd_Kind b = BindingEnvironment →
  DependencyPaths b = Ok [projectVariables (bd_ProjectID b); environmentVariables b].
Proof.
  intros Hv Hk. destruct (environment_binding b Hv Hk) as (Hp & He & Hall & Hpre).
  unfold DependencyPaths. rewrite Hv, Hk. simpl. rewrite Hpre. f_equal. f_equal; [|f_equal].
  - rewrite path_join_plain; [done|done|]. plain_list.
  - rewrite path_join_below; [done|done|done|done|]. plain_list.
Qed.

Lemma isDependency_spec b p :
  isDependency b p = true ↔
  validBinding b = true ∧ bd_Kind b = BindingEnvironment ∧ (p = projectVariables (bd_ProjectID b) ∨ p = environmentVariables b).
Proof.
  unfold isDependency. destruct (validBinding b && bool_decide (bd_Kind b = BindingEnvironment)) eqn:E.
  - apply andb_true_iff in E as [Hv Hk]. apply bool_decide_eq_true in Hk.
    rewrite (DependencyPaths_environment b Hv Hk). rewrite str_in_spec, !elem_of_cons, elem_of_nil. intuition.
  - unfold DependencyPaths. rewrite E. split; [done|]. intros (Hv & Hk & _). rewrite Hv, Hk in E. discriminate E.
Qed.

(** ** What a mutation may write *)

Lemma segments_match_length tests parts : segments_match tests parts = true → length parts = length tests.
Proof.
  revert parts. induction tests as [|t tests IH]; intros [|p parts]; simpl; try done. intros [_ Hp]%andb_true_iff.
  by rewrite (IH parts).
Qed.

Lemma prefix_or_same x p r : p +:+ "/" = x +:+ "/" +:+ r → (∃ q, p = x +:+ "/" +:+ q) ∨ p = x.
Proof.
  revert p. induction x as [|a x IH]; intros [|c p] Hp; simpl in *; [by right| |exfalso|].
  - left. injection Hp as -> _. by exists p.
  - injection Hp as _ Hp. by destruct x.
  - injection Hp as -> Hp. destruct (IH p Hp) as [[q ->]| ->]; [left; by exists q|by right].
Qed.

Lemma within_cases b p :
  within b p = true → (∃ r, p = bd_Prefix b +:+ "/" +:+ r ∧ partsBelow b p = split_byte "/" r) ∨ p = bd_Prefix b.
Proof.
  unfold within, partsBelow. intros [r Hr]%has_prefix_spec. rewrite str_app_assoc in Hr.
  destruct (prefix_or_same _ _ _ Hr) as [[q ->]|]; [left|by right]. exists q. split; [done|].
  rewrite <- str_app_assoc. by rewrite trim_prefix_app.
Qed.

Lemma split_nonempty r : str_join "/" (split_byte "/" r) = r.
Proof. apply (str_join_split "/"). Qed.

(** A document of an environment that is not one of its dependencies is the
    configuration of one of its applications. *)
Lemma applicationConfig_path b p :
  validBinding b = true → bd_Kind b = BindingEnvironment → within b p = true →
  segments_match [lit "apps"; uuid; lit "app.yaml"] (partsBelow b p) = true →
  ∃ application, uuid application = true ∧ p = applicationConfig b application.
Proof.
  intros Hv Hk Hw Hm. destruct (environment_binding b Hv Hk) as (_ & _ & Hall & Hpre).
  destruct (within_cases b p Hw) as [(r & -> & Hr)| ->].
  - rewrite Hr in Hm. destruct (split_byte "/" r) as [|x [|y [|z [|w l]]]] eqn:E; cbn [segments_match] in Hm;
      rewrite ?andb_false_r in Hm; try discriminate Hm. unfold lit in Hm. bool_prop. subst x z.
    exists y. split; [done|]. unfold applicationConfig. rewrite <- join_app by done.
    rewrite <- (split_nonempty r), E, Hpre. by rewrite str_join_cons.
  - exfalso. apply segments_match_length in Hm. revert Hm. unfold partsBelow.
    assert (∀ x : string, trim_prefix (x +:+ "/") x = x) as ->.
    { intros x. unfold trim_prefix. destruct (has_prefix (x +:+ "/") x) eqn:E; [|done].
      apply has_prefix_spec in E as [q Hq]. apply (f_equal str_len) in Hq.
      rewrite !str_len_app in Hq. pose proof (str_len_nonneg q). change (str_len "/") with 1 in Hq. lia. }
    rewrite Hpre, split_join by done. done.
Qed.

(** The paths a valid mutation may have. *)
Definition writable (b : Binding) (m : Mutation) : Prop :=
  match bd_Kind b with
  | BindingEnvironment =>
      (∃ application, uuid application = true ∧ mu_Path m = applicationConfig b application) ∨
      mu_Path m = environmentVariables b ∨
      mu_Authority m = MutationAuthorityVariables ∧ mu_Path m = projectVariables (bd_ProjectID b)
  | BindingPlatform => ∃ r, mu_Path m = "platform/" +:+ r
  end.

Lemma platformPath_below b p : platformPath b p = true → bd_Kind b = BindingPlatform ∧ ∃ r, p = "platform/" +:+ r.
Proof.
  unfold platformPath. intros Hp. bool_prop. split; [done|].
  match goal with Hx : has_prefix _ p = true |- _ => apply has_prefix_spec in Hx as [r ->] end.
  match goal with Hx : validBinding b = true |- _ => unfold validBinding in Hx; bool_prop end.
  match goal with Hx : validScope b = true |- _ => unfold validScope in Hx end.
  exists r. destruct (bd_Kind b); [|done]. bool_prop.
  match goal with Hx : bd_Prefix b = _ |- _ => by rewrite Hx end.
Qed.

Lemma switch_cases {A} x (cases : list (string * A)) d a :
  switch x cases d = a → a = d ∨ ∃ c, (x, c) ∈ cases ∧ c = a.
Proof.
  induction cases as [|[y c] cases IH]; simpl; [by left|]. destruct (String.eqb x y) eqn:E.
  - intros <-. right. apply String.eqb_eq in E as ->. exists c. split; [by left|done].
  - intros [?|(c' & ? & ?)]%IH; [by left|]. right. exists c'. split; [by right|done].
Qed.

Lemma platform_writable b m : platformPath b (mu_Path m) = true → validBinding b = true ∧ writable b m.
Proof.
  intros Hp. destruct (platformPath_below _ _ Hp) as [Hk Hr]. unfold platformPath in Hp. bool_prop.
  unfold writable. by rewrite Hk.
Qed.

Lemma dependency_writable b m :
  isDependency b (mu_Path m) = true → (mu_Path m = projectVariables (bd_ProjectID b) → mu_Authority m = MutationAuthorityVariables) →
  validBinding b = true ∧ writable b m.
Proof.
  intros (Hv & Hk & Hp)%isDependency_spec Ha. split; [done|]. unfold writable. rewrite Hk. destruct Hp; auto.
Qed.

(** The project's document of variables is outside every environment. *)
Lemma projectVariables_outside b :
  validBinding b = true → bd_Kind b = BindingEnvironment → within b (projectVariables (bd_ProjectID b)) = false.
Proof.
  intros Hv Hk. destruct (environment_binding b Hv Hk) as (Hp & _ & Hall & Hpre).
  assert (Forall plain ["tenants"; bd_ProjectID b; "variables.yaml"]) as Hvs by plain_list.
  destruct (within b _) eqn:E; [|done]. exfalso. apply within_cases in E as [(r & Hr & _)|Hr].
  - apply (f_equal (split_byte "/")) in Hr. unfold projectVariables in Hr.
    rewrite split_join, Hpre in Hr by done. unfold environmentSegments in Hr.
    rewrite !str_join_cons in Hr by done. rewrite !str_app_assoc in Hr. repeat change ("/" +:+ ?x) with (String "/" x) in Hr.
    destruct Hp as (_ & _ & _ & Hc). rewrite !split_byte_app in Hr by done. discriminate Hr.
  - rewrite Hpre in Hr. apply join_inj in Hr; try done.
Qed.

Lemma unprotected_writable b m :
  validUnprotected m b = true → within b (mu_Path m) = true → validBinding b = true ∧ writable b m.
Proof.
  unfold validUnprotected. cbv zeta. intros Hu Hw. bool_prop.
  match goal with Hx : validProtectedDocumentPath b _ = true |- _ => unfold validProtectedDocumentPath in Hx; rename Hx into Hp end.
  destruct (negb (validBinding b) || _) eqn:Ev; [done|]. bool_prop. destruct (isDependency b (mu_Path m)) eqn:Ed.
  - apply dependency_writable; [done|]. intros He. apply isDependency_spec in Ed as (Hv & Hk & _).
    rewrite He, projectVariables_outside in Hw by done. done.
  - rewrite Hw in Hp. cbn [negb] in Hp. split; [done|]. unfold writable. destruct (bd_Kind b) eqn:Hk.
    + destruct (within_cases b _ Hw) as [(r & Hr & _)|Hr].
      * match goal with Hx : validBinding b = true |- _ => unfold validBinding in Hx; bool_prop end.
        match goal with Hx : validScope b = true |- _ => unfold validScope in Hx; rewrite Hk in Hx; bool_prop end.
        match goal with Hx : bd_Prefix b = PlatformPrefix |- _ => rewrite Hx in Hr end. by exists r.
      * exfalso. apply segments_match_length in Hp. unfold partsBelow in Hp. rewrite Hr in Hp.
        match goal with Hx : validBinding b = true |- _ => unfold validBinding in Hx; bool_prop end.
        match goal with Hx : validScope b = true |- _ => unfold validScope in Hx; rewrite Hk in Hx; bool_prop end.
        match goal with Hx : bd_Prefix b = PlatformPrefix |- _ => rewrite Hx in Hp end. by vm_compute in Hp.
    + left. by apply applicationConfig_path.
Qed.

Lemma mutation_writable m b : validMutation m b = true → validBinding b = true ∧ writable b m.
Proof.
  unfold validMutation. cbv zeta. intros [Hv Ha]%andb_true_iff. unfold validAuthority in Ha.
  apply switch_cases in Ha as [Ha|(c & Hin & ->)]; [discriminate Ha|].
  repeat (apply elem_of_cons in Hin as [[= Hauth Hc]|Hin]); [..|by apply elem_of_nil in Hin]; symmetry in Hc.
  - rewrite Hauth in Hv. apply unprotected_writable; [done|]. cbn [String.eqb MutationAuthorityVariables] in Hv. by bool_prop.
  - unfold validHelmPayload, validHelmPayloadPath in Hc. bool_prop. by apply platform_writable.
  - unfold validHelmApplication, validHelmApplicationPath in Hc. bool_prop. by apply platform_writable.
  - unfold validHelmCascade, validHelmApplicationPath in Hc. bool_prop. by apply platform_writable.
  - unfold validFoundation, validFoundationPath in Hc. bool_prop. by apply platform_writable.
  - unfold validCertificateIssuer, validCertificateIssuerPath in Hc. bool_prop. by apply platform_writable.
  - unfold validExternalDNS, validExternalDNSPath in Hc. bool_prop. by apply platform_writable.
  - unfold validVariables in Hc. bool_prop. by apply dependency_writable.
Qed.

(** The segments of the path of a valid mutation of an environment: they name
    the project, and the environment unless it is the project's document. *)
Inductive envSegments (b : Binding) (authority : string) : list string → Prop :=
  | EnvApplication application : plain application →
      envSegments b authority (environmentSegments b ++ ["apps"; application; "app.yaml"])
  | EnvVariables : envSegments b authority (environmentSegments b ++ ["variables.yaml"])
  | EnvProject : authority = MutationAuthorityVariables →
      envSegments b authority ["tenants"; bd_ProjectID b; "variables.yaml"].

Lemma envSegments_plain b authority l :
  validBinding b = true → bd_Kind b = BindingEnvironment → envSegments b authority l → l ≠ [] ∧ Forall plain l.
Proof.
  intros Hv Hk Hl. destruct (environment_binding b Hv Hk) as (Hp & _ & Hall & _).
  destruct Hl; (split; [done|]); try (apply Forall_app; split; [done|]); plain_list.
Qed.

Lemma writable_segments b m :
  bd_Kind b = BindingEnvironment → writable b m → ∃ l, envSegments b (mu_Authority m) l ∧ mu_Path m = str_join "/" l.
Proof.
  intros Hk. unfold writable. rewrite Hk. intros [(a & Ha & ->)|[->|[Ha ->]]].
  - eexists. split; [|done]. constructor. by apply uuid_plain.
  - eexists. split; [constructor 2|done].
  - eexists. split; [by constructor 3|done].
Qed.

Lemma envSegments_agree b1 a1 b2 a2 l :
  envSegments b1 a1 l → envSegments b2 a2 l →
  bd_ProjectID b1 = bd_ProjectID b2 ∧
  (bd_EnvironmentID b1 = bd_EnvironmentID b2 ∨
   l = ["tenants"; bd_ProjectID b1; "variables.yaml"] ∧
   a1 = MutationAuthorityVariables ∧ a2 = MutationAuthorityVariables).
Proof.
  intros H1 H2. inversion H1; subst; inversion H2; simplify_eq/=; auto.
Qed.

Lemma environment_not_platform b a l r : envSegments b a l → str_join "/" l ≠ "platform/" +:+ r.
Proof. by destruct 1. Qed.

(** C9. Writes stay in their scope.  A mutation that validates against its binding
    writes, for an environment, the configuration of one of its applications,
    its own variables or - only with the authority over variables - its
    project's; for the platform, below [platform/].  So two mutations of the
    same path are of the platform, of the same environment, or both write the
    variables of the project their environments share. *)
Theorem mutations_confined m1 b1 m2 b2 :
  validMutation m1 b1 = true → validMutation m2 b2 = true →
  writable b1 m1 ∧
  (mu_Path m1 = mu_Path m2 →
   bd_Kind b1 = bd_Kind b2 ∧
   (bd_Kind b1 = BindingEnvironment →
    bd_ProjectID b1 = bd_ProjectID b2 ∧
    (bd_EnvironmentID b1 = bd_EnvironmentID b2 ∨
     mu_Path m1 = projectVariables (bd_ProjectID b1) ∧
     mu_Authority m1 = MutationAuthorityVariables ∧ mu_Authority m2 = MutationAuthorityVariables))).
Proof.
  intros [Hv1 Hw1]%mutation_writable [Hv2 Hw2]%mutation_writable. split; [done|]. intros Hp.
  destruct (bd_Kind b1) eqn:K1, (bd_Kind b2) eqn:K2.
  - done.
  - exfalso. destruct (writable_segments _ _ K2 Hw2) as (l & Hl & He). unfold writable in Hw1. rewrite K1 in Hw1.
    destruct Hw1 as [r Hr]. eapply environment_not_platform; [exact Hl|]. rewrite <- He, <- Hp. exact Hr.
  - exfalso. destruct (writable_segments _ _ K1 Hw1) as (l & Hl & He). unfold writable in Hw2. rewrite K2 in Hw2.
    destruct Hw2 as [r Hr]. eapply environment_not_platform; [exact Hl|]. rewrite <- He, Hp. exact Hr.
  - split; [done|]. intros _. destruct (writable_segments _ _ K1 Hw1) as (l1 & Hl1 & He1).
    destruct (writable_segments _ _ K2 Hw2) as (l2 & Hl2 & He2).
    destruct (envSegments_plain _ _ _ Hv1 K1 Hl1), (envSegments_plain _ _ _ Hv2 K2 Hl2).
    assert (l1 = l2) as <- by (apply join_inj; congruence).
    destruct (envSegments_agree _ _ _ _ _ Hl1 Hl2) as [Hpj [He|(-> & Ha1 & Ha2)]]; (split; [done|]); auto.
Qed.
