(* ===== verification/GitProjectionWorkers.v ===== *)
(** The workers of the Git projection ([internal/gitprojection]): the indexer that
    reads a commit into a generation ([indexer.go]), the projector and the
    coordinator that keep a binding at its branch ([coordinator.go]), the planner
    of writes ([controlplane.go]) and the writer that executes an accepted
    command ([writer.go]).

    A worker is an operation on a world: the store, and how many steps it has
    made.  Each of its calls of the store is one step of its own; before it, the
    others - the writers, the other replicas, the heartbeat of this worker - make
    any calls they like.  The clock, the provider's answers, the repository that
    is prepared for a verified head and what Git says of it are the
    surroundings. *)

From Stdlib Require Import Ascii SpecFloat.
From S2P Require Import Prelude Regexp GoStrings Effects Digest JsonValues Workload AppConfig Variables.
From S2P Require Import GitProjection GitProjectionWrites GitProjectionStore GitProjectionFacts.

Open Scope Z_scope.

(** * Errors

    An error is known by what it wraps. *)

Inductive WorkErr : Type :=
| WProj (e : ProjErr)
| WDeadline
| WProvider (class : string) (RetryAt : Time)
| WOther (message : string).

Definition is_proj (e : WorkErr) (sentinel : ProjErr) : bool :=
  match e with WProj e => bool_decide (e = sentinel) | _ => false end.

Definition projectionFailureCode (e : WorkErr) : string :=
  match e with
  | WProj ErrMissingRef => "missing-ref"
  | WProj ErrProviderMismatch => "provider-mismatch"
  | WProj ErrLeaseLost => "lease-lost"
  | WProj ErrDiverged => "diverged"
  | WDeadline => "timeout"
  | WProvider class _ =>
      let code := "github-" +:+ replace_byte "_" "-" class in
      if re_match errorRE code then code else "github-failed"
  | _ => "projection-failed"
  end.

(** * The surroundings of a worker *)

Record World := mkWorld {
  w_store : MemoryStore;
  w_step : nat;
}.

(** What there is at the worker's [n]-th step. *)
Class Surroundings := {
  others : nat → list Call;
  clock : nat → Time;
  random : nat → spec_float;
  cancelled : nat → option WorkErr;
  heartbeat_failed : nat → option WorkErr;
  operation_id : nat → option string;
  VerifyTargetHead : nat → Binding → ObservationSource → res WorkErr VerifiedHead;
  Prepare : nat → Binding → VerifiedHead → string → option WorkErr;
}.

(** What Git answers in a prepared repository: is the first commit an ancestor of
    the second, which entries has the tree of a commit below some paths, which
    bytes has a blob, which commit last changed a path. *)
Class GitReader := {
  is_ancestor : string → string → bool;
  ls_tree : string → list string → res WorkErr string;
  cat_file : string → res WorkErr string;
  last_change : string → string → res WorkErr string;
}.

Definition task (A : Type) : Type := op World WorkErr A.

Section steps.
Context `{Surroundings} `{MapOrder} `{Libraries} `{YAMLDecoder}.

(** The store as the worker's next call finds it. *)
Definition meet (w : World) : MemoryStore := run (w_store w) (others (w_step w)).

Definition store_call {A} (f : MemoryStore → res ProjErr (MemoryStore * A)) : task A := λ w,
  match f (meet w) with
  | Ok (s, a) => (mkWorld s (S (w_step w)), Ok a)
  | Err e => (mkWorld (meet w) (S (w_step w)), Err (WProj e))
  end.

(** A method that only changes the store, and one that only reads it. *)
Definition store_write (f : MemoryStore → res ProjErr MemoryStore) : task unit :=
  store_call (λ s, let* s := f s in Ok (s, tt)).
Definition store_read {A} (f : MemoryStore → res ProjErr A) : task A := store_call (λ s, let* a := f s in Ok (s, a)).

Definition ask {A} (f : nat → A) : task A := λ w, (mkWorld (w_store w) (S (w_step w)), Ok (f (w_step w))).

Definition answered {A} (r : res WorkErr A) : task A := op_lift id r.

(** The error is looked at by the caller. *)
Definition attempt {A} (m : task A) : task (res WorkErr A) := λ w, let '(w, r) := m w in (w, Ok r).
End steps.

Definition invalid : WorkErr := WProj ErrInvalid.

(** * The indexer ([indexer.go]) *)

Record Indexer := mkIndexer {
  ix_Policy : AppConfigPolicyInput → res ProjErr PolicyValidation;
  ix_MaxDocuments : Z;
  ix_MaxBytes : Z;
  ix_Clocked : bool;
}.

Record PreparedRepository := mkPrepared {
  rp_Binding : Binding;
  rp_Head : VerifiedHead;
}.

Definition defaultMaxIndexBytes : Z := Z.shiftl 32 20.

(** ** Reading the tree of a commit *)

(** [strings.Cut] *)
Definition cut (c : ascii) (s : string) : option (string * string) :=
  if count_byte c s =? 0 then None else Some (split_once c s).

Fixpoint map_space (s : string) : string :=
  match s with "" => "" | String c s => String (if is_space c then " "%char else c) (map_space s) end.

(** [strings.Fields], for ASCII text. *)
Definition fields (s : string) : list string :=
  List.filter (λ field, negb (empty field)) (split_byte " " (map_space s)).

Definition unsafeEntry : WorkErr := WOther "Git application tree contains an unsafe entry".

(** The blob and the path of an entry of the tree. *)
Definition parseEntry (entry : string) : res WorkErr (string * string) :=
  match cut "009" entry with
  | None => Err unsafeEntry
  | Some (metadata, documentPath) =>
      match fields metadata with
      | [mode; kind; blobID] =>
          guard! String.eqb mode "100644" && String.eqb kind "blob" && blob blobID && validRelativePath documentPath
            else unsafeEntry in
          Ok (blobID, documentPath)
      | _ => Err unsafeEntry
      end
  end.

Definition appsPrefix (b : Binding) : string := path_join [bd_Prefix b; "apps"] +:+ "/".

(** The application of the path of its configuration. *)
Definition applicationOf (b : Binding) (documentPath : string) : option string :=
  match split_byte "/" (trim_prefix (appsPrefix b) documentPath) with
  | [application; file] =>
      if has_prefix (appsPrefix b) documentPath && uuid application && String.eqb file "app.yaml"
      then Some application else None
  | _ => None
  end.

(** [projectedStringAt] *)
Fixpoint projectedStringAt (current : value) (tokens : list string) : option string :=
  match tokens with
  | [] => match current with VString s => Some s | _ => None end
  | token :: rest =>
      match current with
      | VObject mapping => match get token mapping with Some next => projectedStringAt next rest | None => None end
      | _ => None
      end
  end.

Definition pointerTokens (pointer : string) : list string := split_byte "/" (trim_prefix "/" pointer).

Definition AppConfigBindingDiagnostics (parsed : option members_of) (b : Binding) (applicationID : string) : list Diagnostic :=
  match parsed with
  | None => []
  | Some root =>
      let wants := [("/metadata/id", applicationID); ("/spec/applicationId", applicationID);
                    ("/spec/environmentId", bd_EnvironmentID b); ("/spec/projectId", bd_ProjectID b)] in
      flat_map (λ want,
        if bool_decide (projectedStringAt (VObject root) (pointerTokens want.1) = Some want.2) then []
        else [mkDiagnostic "BindingMismatch"
                "The document identity does not match its server-owned Git binding and path." want.1]) wants
  end.

Definition projectedDiagnostic (d : AppConfig.Diagnostic) : Diagnostic :=
  mkDiagnostic (AppConfig.dg_Code d) (AppConfig.dg_Detail d) (AppConfig.dg_Pointer d).

Definition parseVariables `{MapOrder} `{YAMLDecoder} (raw : string) : option members_of * list AppConfig.Diagnostic :=
  match Variables.ParseAndValidate raw with
  | Ok d => (Some (vd_Parsed d), [])
  | Err e => (None, [e])
  end.

Section reading.
Context `{GitReader} `{MapOrder} `{Libraries} `{YAMLDecoder}.

(** The document of an entry that is one. *)
Definition readDocument (b : Binding) (g : Generation) (now : Time) (application : option string)
    (documentPath blobID raw configRevision : string) : res WorkErr Document :=
  let built :=
    match application with
    | Some applicationID =>
        let '(parsed, _, appDiagnostics) := AppConfig.ParseAndValidate raw in
        let diagnostics := (map projectedDiagnostic appDiagnostics ++ AppConfigBindingDiagnostics parsed b applicationID)%list in
        NewDocument b (gn_Number g) applicationID (gn_HeadRevision g) configRevision blobID raw parsed diagnostics now
    | None =>
        let '(parsed, variableDiagnostics) := parseVariables raw in
        NewDependencyDocument b (gn_Number g) documentPath (gn_HeadRevision g) configRevision blobID raw parsed
          (map projectedDiagnostic variableDiagnostics) now
    end in
  match built with Ok d => Ok d | Err e => Err (WProj e) end.

(** [count] documents of [totalBytes] bytes were read. *)
Fixpoint readEntries (b : Binding) (g : Generation) (now : Time) (dependencies : list string)
    (maximumDocuments maximumBytes : Z) (seen : gset string) (count totalBytes : Z) (entries : list string)
    : res WorkErr (list Document) :=
  match entries with
  | [] => Ok []
  | entry :: rest =>
      if empty entry then readEntries b g now dependencies maximumDocuments maximumBytes seen count totalBytes rest
      else
        let* parsed := parseEntry entry in
        let '(blobID, documentPath) := parsed in
        let application := applicationOf b documentPath in
        if negb (bool_decide (is_Some application)) && negb (str_in documentPath dependencies)
        then readEntries b g now dependencies maximumDocuments maximumBytes seen count totalBytes rest
        else
          guard! negb (bool_decide (documentPath ∈ seen)) else WOther "Git tree contains a duplicate application path" in
          guard! count <? maximumDocuments else WOther "Git projection document limit exceeded" in
          let* raw := cat_file blobID in
          let totalBytes := totalBytes + str_len raw in
          guard! negb ((str_len raw =? 0) || (MaxDocumentBytes <? str_len raw) || (maximumBytes <? totalBytes))
            else WOther "Git projection byte limit exceeded" in
          let noRevision := WOther "Git did not return an exact config revision" in
          match last_change (gn_HeadRevision g) documentPath with
          | Err _ => Err noRevision
          | Ok answer =>
              let configRevision := trim_space answer in
              guard! commit configRevision else noRevision in
              let* d := readDocument b g now application documentPath blobID raw configRevision in
              let* documents := readEntries b g now dependencies maximumDocuments maximumBytes
                                  ({[documentPath]} ∪ seen) (count + 1) totalBytes rest in
              Ok (d :: documents)
          end
  end.

Definition or_default (value default : Z) : Z := if value =? 0 then default else value.

Definition readDocuments (i : Indexer) (repository : PreparedRepository) (g : Generation) (now : Time)
    : res WorkErr (list Document) :=
  let b := rp_Binding repository in
  if bool_decide (bd_Kind b = BindingPlatform) then Ok [] else
  let maximumDocuments := or_default (ix_MaxDocuments i) defaultMaxIndexDocuments in
  let maximumBytes := or_default (ix_MaxBytes i) defaultMaxIndexBytes in
  guard! negb ((maximumDocuments <? 1) || (defaultMaxIndexDocuments <? maximumDocuments) ||
               (maximumBytes <? MaxDocumentBytes) || (defaultMaxIndexBytes <? maximumBytes)) else invalid in
  match DependencyPaths b with
  | Err e => Err (WProj e)
  | Ok dependencies =>
      let* output := ls_tree (gn_HeadRevision g) (appsPrefix b :: dependencies) in
      readEntries b g now dependencies maximumDocuments maximumBytes ∅ 0 0 (split_byte "000" output)
  end.
End reading.

Section workers.
Context `{Surroundings} `{GitReader} `{MapOrder} `{Libraries} `{YAMLDecoder}.

(** ** Indexing *)

Definition currentTime (i : Indexer) (fallback : Time) : task Time :=
  do! _ := op_guard (negb (is_zero_time fallback)) invalid in
  if negb (ix_Clocked i) then op_ret fallback
  else
    do! current := ask clock in
    do! _ := op_guard (negb (is_zero_time current || (current <? fallback))) invalid in
    op_ret current.

(** [FailGeneration], whose error is dropped, at a time that can be had. *)
Definition giveUp (i : Indexer) (lease : ReconciliationLease) (g : Generation) (startedAt : Time) : task unit :=
  do! failedAt := attempt (currentTime i startedAt) in
  match failedAt with
  | Ok t => do! _ := attempt (store_write (λ s, FailGeneration s lease g t)) in op_ret tt
  | Err _ => op_ret tt
  end.

Definition indexFull (i : Indexer) (lease : ReconciliationLease) (repository : PreparedRepository) (b : Binding) (now : Time)
    : task Binding :=
  do! startedAt := currentTime i now in
  do! g := store_call (λ s, BeginGeneration s lease (vh_Commit (rp_Head repository)) (bd_ParserVersion b) startedAt) in
  match readDocuments i repository g startedAt with
  | Err e => do! _ := giveUp i lease g startedAt in op_fail e
  | Ok documents =>
      do! staged := attempt (store_write (λ s, PutDocuments s g documents)) in
      match staged with
      | Err e => do! _ := giveUp i lease g startedAt in op_fail e
      | Ok _ =>
          do! activatedAt := currentTime i startedAt in
          store_call (λ s, ActivateGeneration s lease g (ix_Policy i) activatedAt)
      end
  end.

Definition mayIndex (lease : ReconciliationLease) (repository : PreparedRepository) (now : Time) : bool :=
  negb (negb (validLease lease) || is_zero_time now ||
        negb (String.eqb (rl_BindingID lease) (bd_ID (rp_Binding repository)))).

Definition Index (i : Indexer) (lease : ReconciliationLease) (repository : PreparedRepository) (now : Time) : task Binding :=
  do! _ := op_guard (mayIndex lease repository now) invalid in
  do! b := store_read (λ s, lookupBinding s (bd_ID (rp_Binding repository))) in
  let head := vh_Commit (rp_Head repository) in
  do! _ := op_guard (negb (negb (String.eqb (bd_TargetHeadRevision b) head) || negb (validHeadFor (rp_Head repository) b)))
             (WProj ErrConflict) in
  if negb (empty (bd_IndexedRevision b)) && negb (is_ancestor (bd_IndexedRevision b) head) then
    do! _ := attempt (store_write (λ s, SetBindingState s (bd_ID b) (bd_TargetHeadRevision b) BindingDiverged now)) in
    op_fail (WProj ErrDiverged)
  else indexFull i lease repository b now.

Definition FullReindex (i : Indexer) (lease : ReconciliationLease) (repository : PreparedRepository) (now : Time) : task Binding :=
  do! _ := op_guard (mayIndex lease repository now) invalid in
  do! b := store_read (λ s, lookupBinding s (bd_ID (rp_Binding repository))) in
  let head := vh_Commit (rp_Head repository) in
  do! _ := op_guard (negb (negb (bool_decide (bd_State b = BindingDiverged)) ||
                           negb (String.eqb (bd_TargetHeadRevision b) head) || negb (validHeadFor (rp_Head repository) b)))
             (WProj ErrConflict) in
  do! stateAt := currentTime i now in
  do! _ := store_write (λ s, SetBindingState s (bd_ID b) (bd_TargetHeadRevision b) BindingIndexing stateAt) in
  do! result := attempt (indexFull i lease repository (bd_set_State BindingIndexing (bd_UpdatedAt b) b) stateAt) in
  match result with
  | Ok activated => op_ret activated
  | Err e =>
      do! failedAt := attempt (currentTime i stateAt) in
      match failedAt with
      | Ok t =>
          do! _ := attempt (store_write (λ s, SetBindingState s (bd_ID b) (bd_TargetHeadRevision b) BindingDiverged t)) in
          op_fail e
      | Err _ => op_fail e
      end
  end.

(** * The projector *)

Definition newProjectionOperationID : task string :=
  do! value := ask operation_id in
  match value with
  | Some id => if uuid id then op_ret id else op_fail invalid
  | None => op_fail invalid
  end.

Definition Project (i : Indexer) (lease : ReconciliationLease) (b : Binding) (head : VerifiedHead) (now : Time) : task unit :=
  do! _ := op_guard (negb (negb (validLease lease) || negb (validBinding b) || negb (validHeadFor head b) || is_zero_time now))
             invalid in
  do! operationID := newProjectionOperationID in
  do! failed := ask (λ n, Prepare n b head operationID) in
  match failed with
  | Some e => op_fail e
  | None =>
      let repository := mkPrepared b head in
      do! _ := (if bool_decide (bd_State b = BindingDiverged) then FullReindex i lease repository now
                else Index i lease repository now) in
      op_ret tt
  end.

(** * The coordinator ([coordinator.go]) *)

Definition defaultProjectionLease : Duration := 60 * second.
Definition defaultProjectionHeartbeat : Duration := 15 * second.
Definition defaultProjectionWorkTimeout : Duration := 10 * minute.
Definition defaultProjectionPoll : Duration := 5 * minute.
Definition defaultProjectionBackoff : Duration := 5 * second.
Definition defaultProjectionMaxBackoff : Duration := 5 * minute.
Definition defaultProjectionIdle : Duration := second.
Definition maximumProjectionPoll : Duration := 24 * hour.

(** [float64] *)
Definition float : Type := spec_float.
Definition float_of (n : Z) : float := binary_normalize 53 1024 n 0 false.
Definition fmul : float → float → float := SFmul 53 1024.
Definition fadd : float → float → float := SFadd 53 1024.
Definition fsub : float → float → float := SFsub 53 1024.
Definition fdiv : float → float → float := SFdiv 53 1024.
Definition half : float := fdiv (float_of 1) (float_of 2).
Definition one_fifth : float := fdiv (float_of 1) (float_of 5).

(** The conversion to an integer, towards zero. *)
Definition truncated (x : float) : Z :=
  match x with
  | S754_finite negative mantissa exponent =>
      let magnitude := if exponent <? 0 then Z.pos mantissa / 2 ^ (- exponent) else Z.pos mantissa * 2 ^ exponent in
      if negative then - magnitude else magnitude
  | _ => 0
  end.

Record Coordinator := mkCoordinator {
  co_Indexer : Indexer;
  co_Owner : string;
  co_LeaseDuration : Duration;
  co_HeartbeatInterval : Duration;
  co_WorkTimeout : Duration;
  co_PollInterval : Duration;
  co_MinimumBackoff : Duration;
  co_MaximumBackoff : Duration;
  co_IdleDelay : Duration;
  co_JitterFraction : float;
}.

Definition leaseOf (c : Coordinator) : Duration := or_default (co_LeaseDuration c) defaultProjectionLease.
Definition heartbeatOf (c : Coordinator) : Duration := or_default (co_HeartbeatInterval c) defaultProjectionHeartbeat.
Definition workOf (c : Coordinator) : Duration := or_default (co_WorkTimeout c) defaultProjectionWorkTimeout.
Definition pollOf (c : Coordinator) : Duration := or_default (co_PollInterval c) defaultProjectionPoll.
Definition minimumOf (c : Coordinator) : Duration := or_default (co_MinimumBackoff c) defaultProjectionBackoff.
Definition maximumOf (c : Coordinator) : Duration := or_default (co_MaximumBackoff c) defaultProjectionMaxBackoff.
Definition idleOf (c : Coordinator) : Duration := or_default (co_IdleDelay c) defaultProjectionIdle.

Definition validCoordinator (c : Coordinator) : bool :=
  re_match ownerRE (co_Owner c) &&
  negb (negb (validReconciliationLeaseDuration (leaseOf c)) || (heartbeatOf c <? second) ||
        (leaseOf c ÷ 2 <=? heartbeatOf c) || (workOf c <? leaseOf c) || (hour <? workOf c) ||
        (pollOf c <? 15 * second) || (24 * hour <? pollOf c) || (minimumOf c <? second) ||
        (maximumOf c <? minimumOf c) || (hour <? maximumOf c) || (idleOf c <? 10 * millisecond) || (minute <? idleOf c) ||
        SFltb (co_JitterFraction c) (float_of 0) || SFltb half (co_JitterFraction c)).

(** [random != random] is of a value that is not a number; every
    operation is rounded, as on amd64, where none is fused with the next. *)
Definition jitter (c : Coordinator) (random : float) (base : Duration) : Duration :=
  let fraction := if SFeqb (co_JitterFraction c) (float_of 0) then one_fifth else co_JitterFraction c in
  let random := if SFltb random (float_of 0) || SFltb (float_of 1) random || negb (SFeqb random random) then half else random in
  let multiplier := fadd (fsub (float_of 1) fraction) (fmul (fmul (float_of 2) fraction) random) in
  let result := truncated (fmul (float_of base) multiplier) in
  if result <? millisecond then millisecond else result.

(** The loop of [exponentialProjectionBackoff], [n] rounds at most. *)
Fixpoint doubled (n : nat) (value maximum : Duration) : Duration :=
  match n with
  | O => value
  | S n =>
      if value <? maximum then if maximum ÷ 2 <? value then maximum else doubled n (i64 (value * 2)) maximum
      else value
  end.

Definition exponentialProjectionBackoff (minimum maximum : Duration) (failures : Z) : Duration :=
  Z.min (doubled (Z.to_nat (failures - 1)) minimum maximum) maximum.

(** What a reconciliation comes to: the last commit, and the failure with its
    code. *)
Record Reconciled := mkReconciled {
  rd_LastCommit : string;
  rd_Failure : option (string * WorkErr);
}.

Definition failedWith (lastCommit : string) (e : WorkErr) : Reconciled :=
  mkReconciled lastCommit (Some (projectionFailureCode e, e)).

Definition isProjected (b : Binding) (head : VerifiedHead) : bool :=
  negb (negb (bool_decide (bd_State b = BindingReady)) || negb (String.eqb (bd_IndexedRevision b) (vh_Commit head)) ||
        negb (String.eqb (bd_TargetHeadRevision b) (vh_Commit head)) || (bd_ProjectionGeneration b <=? 0)).

Definition missingRef (b : Binding) (e : WorkErr) : task Reconciled :=
  let before := bd_TargetHeadRevision b in
  do! now := ask clock in
  do! written := attempt (store_write (λ s, SetBindingState s (bd_ID b) before BindingMissingRef now)) in
  op_ret (match written with
          | Err stateErr => failedWith before stateErr
          | Ok _ => mkReconciled before (Some ("missing-ref", e))
          end).

Definition project (c : Coordinator) (lease : ReconciliationLease) (b : Binding) (head : VerifiedHead) : task Reconciled :=
  do! now := ask clock in
  do! done := attempt (Project (co_Indexer c) lease b head now) in
  match done with
  | Err e => op_ret (failedWith (vh_Commit head) e)
  | Ok _ =>
      do! projected := attempt (store_read (λ s, lookupBinding s (bd_ID b))) in
      op_ret (match projected with
              | Err e => failedWith (vh_Commit head) e
              | Ok b =>
                  if isProjected b head then mkReconciled (vh_Commit head) None
                  else mkReconciled (vh_Commit head) (Some ("projection-incomplete", WProj ErrConflict))
              end)
  end.

Definition reconcile (c : Coordinator) (work : ReconciliationWork) : task Reconciled :=
  let b := rw_Binding work in
  let before := bd_TargetHeadRevision b in
  do! answer := ask (λ n, VerifyTargetHead n b ObservationPoll) in
  match answer with
  | Err e => if is_proj e ErrMissingRef then missingRef b e else op_ret (failedWith before e)
  | Ok head =>
      if negb (validHeadFor head b)
      then op_ret (mkReconciled before (Some ("provider-mismatch", WProj ErrProviderMismatch)))
      else
        do! recorded := attempt (store_call (λ s, RecordVerifiedHead s head)) in
        match recorded with
        | Err e => op_ret (failedWith before e)
        | Ok (b', _) =>
            if negb (rw_BindingChanged work) && bool_decide (bd_State b' = BindingReady) &&
               String.eqb (bd_IndexedRevision b') (vh_Commit head)
            then op_ret (mkReconciled (vh_Commit head) None)
            else project c (rw_Lease work) b' head
        end
  end.

(** The outcome that is recorded. *)
Definition outcomeOf (c : Coordinator) (work : ReconciliationWork) (rd : Reconciled) (drawn : float) (finishedAt : Time)
    : ReconciliationOutcome :=
  match rd_Failure rd with
  | None => mkOutcome (rd_LastCommit rd) 0 (finishedAt + jitter c drawn (pollOf c)) ""
  | Some (code, e) =>
      let failures := Z.min (rw_ConsecutiveFailure work + 1) 32 in
      let next := finishedAt + jitter c drawn (exponentialProjectionBackoff (minimumOf c) (maximumOf c) failures) in
      let next := match e with
                  | WProvider _ RetryAt => if next <? RetryAt then Z.min RetryAt (finishedAt + maximumProjectionPoll) else next
                  | _ => next
                  end in
      mkOutcome (rd_LastCommit rd) failures next code
  end.

(** From the end of the work on; the heartbeats have stopped. *)
Definition finishWork (c : Coordinator) (work : ReconciliationWork) (rd : Reconciled) : task unit :=
  do! heartbeat := ask heartbeat_failed in
  match heartbeat with
  | Some e => op_fail e
  | None =>
      do! finishedAt := ask clock in
      do! stopped := ask cancelled in
      match stopped with
      | Some e =>
          do! _ := attempt (store_write (λ s, ReleaseReconciliation s (rw_Lease work) finishedAt)) in
          op_fail e
      | None =>
          do! drawn := ask random in
          store_write (λ s, FinishReconciliation s (rw_Lease work) (outcomeOf c work rd drawn finishedAt) finishedAt)
      end
  end.

(** One claimed binding. *)
Definition processWork (c : Coordinator) (work : ReconciliationWork) (claimedAt : Time) : task unit :=
  if negb (validReconciliationWork work) || negb (rl_Until (rw_Lease work) =? claimedAt + leaseOf c) then
    do! _ := (if validLease (rw_Lease work)
              then attempt (store_write (λ s, ReleaseReconciliation s (rw_Lease work) claimedAt)) else op_ret (Ok tt)) in
    op_fail (WProj ErrProviderMismatch)
  else
    do! rd := reconcile c work in
    finishWork c work rd.

(** Whether there was work, and the error that escapes. *)
Definition ReconcileNext (c : Coordinator) (w : World) : World * (bool * option WorkErr) :=
  if negb (validCoordinator c) then (w, (false, Some invalid)) else
  let '(w, claimed) :=
    (do! claimedAt := ask clock in
     do! work := store_call (λ s, ClaimReconciliation s (co_Owner c) claimedAt (leaseOf c)) in
     op_ret (claimedAt, work)) w in
  match claimed with
  | Err e => (w, (false, if is_proj e ErrNotFound then None else Some e))
  | Ok (claimedAt, work) =>
      match processWork c work claimedAt w with
      | (w, Ok _) => (w, (true, None))
      | (w, Err e) => (w, (true, Some e))
      end
  end.
End workers.

(** * The planner of writes ([controlplane.go]) *)

(** What the catalogue shows an actor: the identifier and the project of an
    environment, the project of an application, the binding of an environment. *)
Class DeploymentCatalog := {
  GetEnvironmentForActor : string → string → res WorkErr (string * string);
  GetApplicationForActor : string → string → res WorkErr string;
  GetEnvironmentGitBindingForActor : string → string → res WorkErr Binding;
}.

Record ControlPlane := mkControlPlane {
  cp_ChartDigest : string;
  cp_PolicyVersion : string;
}.

Definition validControlPlane (c : ControlPlane) : bool :=
  negb (negb (re_match chartIdentityRE (cp_ChartDigest c)) || empty (cp_PolicyVersion c) ||
        (128 <? str_len (cp_PolicyVersion c))).

Section planner.
Context `{DeploymentCatalog}.

Definition authorizedBinding (c : ControlPlane) (actor environmentID applicationID : string) : res WorkErr Binding :=
  guard! negb (negb (validControlPlane c) || negb (uuid actor) || negb (uuid environmentID) || negb (uuid applicationID))
    else invalid in
  let* environment := GetEnvironmentForActor actor environmentID in
  let '(id, projectID) := environment in
  let* application := GetApplicationForActor actor applicationID in
  guard! negb (empty projectID || negb (String.eqb application projectID)) else WProj ErrNotFound in
  let* b := GetEnvironmentGitBindingForActor actor environmentID in
  guard! negb (negb (validBinding b) || negb (bool_decide (bd_Kind b = BindingEnvironment)) ||
               negb (String.eqb (bd_ProjectID b) projectID) || negb (String.eqb (bd_EnvironmentID b) id))
    else WProj ErrProviderMismatch in
  Ok b.

(** The base, the precondition and the tag of a plan, of the bundle that is
    looked up. *)
Definition preconditionOf (b : Binding) (expectedETag : string) (bundle : res ProjErr Bundle)
    : res WorkErr (string * string * string) :=
  match bundle with
  | Err ErrNotFound =>
      guard! empty expectedETag else WProj ErrConflict in
      Ok (bd_IndexedRevision b, MutationCreateIfAbsent, "")
  | Err e => Err (WProj e)
  | Ok u =>
      guard! negb (negb (String.eqb (gb_BindingID u) (bd_ID b)) || empty (gb_IndexedRevision u))
        else WProj ErrProviderMismatch in
      guard! negb (empty expectedETag) else WProj ErrPreconditionRequired in
      guard! negb (negb (validStrongETag expectedETag) || negb (String.eqb expectedETag (gb_ETag u))) else WProj ErrConflict in
      Ok (gb_IndexedRevision u, MutationMatchETag, expectedETag)
  end.

Definition liftProj {A} (r : res ProjErr A) : res WorkErr A := match r with Ok a => Ok a | Err e => Err (WProj e) end.

Definition PlanMutation (c : ControlPlane) (s : MemoryStore) (actor environmentID applicationID expectedETag : string)
    : res WorkErr WritePlan :=
  guard! validControlPlane c else invalid in
  let* b := authorizedBinding c actor environmentID applicationID in
  let* applicationPath := liftProj (ApplicationPath b applicationID) in
  let* dependencies := liftProj (DependencyPaths b) in
  let bundle := BundleOf s (bd_ID b) applicationPath dependencies (cp_ChartDigest c) (cp_PolicyVersion c) in
  let* precondition := preconditionOf b expectedETag bundle in
  let '(base, kind, etag) := precondition in
  let plan := mkPlan (bd_ID b) (bd_ProjectID b) (bd_EnvironmentID b) applicationID base kind etag
                (cp_ChartDigest c) (cp_PolicyVersion c) "" "" in
  guard! validateIdentity plan b else WProj ErrStale in
  Ok plan.
End planner.

(** * The writer ([writer.go])

    A result that is not final yet is an error with its code; the operation is
    run again. *)

Inductive WriteErr : Type :=
| WriteFailed (e : WorkErr)
| WritePending (code : string) (cause : WorkErr).

(** What Git does in the repository that is prepared for an operation. *)
Class GitWriter := {
  CleanupOperation : nat → string → string → option WorkErr;
  VerifyMutationUnchangedAt : nat → Mutation → string → option WorkErr;
  VerifyMutationUnchangedSince : nat → Mutation → option WorkErr;
  FindOperationCommit : nat → Mutation → res WorkErr (option string);
  CommitMutation : nat → Mutation → res WorkErr string;
}.

Record ProjectionWriter := mkWriter {
  wr_Owner : string;
  wr_LeaseDuration : Duration;
}.

Definition defaultWriteLease : Duration := 90 * second.
Definition writeLease (wr : ProjectionWriter) : Duration := or_default (wr_LeaseDuration wr) defaultWriteLease.

Definition validWriter (wr : ProjectionWriter) : bool :=
  re_match ownerRE (wr_Owner wr) && negb ((writeLease wr <? 30 * second) || (2 * minute <? writeLease wr)).

Section writing.
Context `{Surroundings} `{GitWriter} `{MapOrder} `{Libraries} `{YAMLDecoder}.

Definition writing (A : Type) : Type := op World WriteErr A.

(** The errors of a step, as the caller classifies them. *)
Definition classify {A} (error : WorkErr → WriteErr) (m : task A) : writing A := λ w,
  match m w with
  | (w, Ok a) => (w, Ok a)
  | (w, Err e) => (w, Err (error e))
  end.

Definition pending {A} (code : string) (m : task A) : writing A := classify (WritePending code) m.

Definition pendingUnless (final : list ProjErr) (code : string) (e : WorkErr) : WriteErr :=
  if existsb (is_proj e) final then WriteFailed e else WritePending code e.

Definition ask_nil (f : nat → option WorkErr) : task unit :=
  do! failed := ask f in match failed with Some e => op_fail e | None => op_ret tt end.
Definition ask_res {A} (f : nat → res WorkErr A) : task A := do! answer := ask f in answered answer.

Definition refuse {A} (e : ProjErr) : writing A := op_fail (WriteFailed (WProj e)).

(** The commit of another operation, of a reservation whose lease is over. *)
Definition recoverForeignReservation (b : Binding) (r : PathReservation) (head : VerifiedHead) : writing unit :=
  match pr_State r with
  | ReservationCommittedPendingIndex => op_fail (WritePending "GitReservationPending" (WProj ErrLeaseHeld))
  | ReservationCandidate =>
      do! now := pending "" (ask clock) in
      match pr_LeaseUntil r with
      | None => refuse ErrInvalid
      | Some until =>
          if now <? until then op_fail (WritePending "GitReservationPending" (WProj ErrLeaseHeld)) else
          do! previous := pending "GitReservationLoadPending" (store_read (λ s, WriteCommandOf s (pr_OperationID r))) in
          do! _ := op_guard (negb (negb (validatePersistedWriteCommand previous b) ||
                                   negb (String.eqb (wp_BindingID (wc_Plan previous)) (bd_ID b)) ||
                                   negb (String.eqb (wc_TargetRef previous) (bd_TargetRef b)) ||
                                   negb (String.eqb (wc_Path previous) (pr_Path r)))) (WriteFailed invalid) in
          let mutation := mutationOf previous in
          do! _ := classify WriteFailed (ask_nil (λ n, VerifyMutationUnchangedAt n mutation (pr_BaseRevision r))) in
          let mutation := mu_set_BaseRevision (pr_BaseRevision r) mutation in
          do! found := pending "GitRecoveryInspectionPending" (ask_res (λ n, FindOperationCommit n mutation)) in
          match found with
          | Some revision =>
              do! _ := pending "GitFinalizationPending"
                (store_call (λ s, FinalizeVerifiedPath s (bd_ID b) (bd_TargetRef b) (pr_Path r) (pr_OperationID r) revision head now)) in
              op_fail (WritePending "GitReservationPending" (WProj ErrLeaseHeld))
          | None =>
              pending "GitReservationPending"
                (store_write (λ s, RepairExpiredPath s (bd_ID b) (bd_TargetRef b) (pr_Path r) false "" now))
          end
      end
  end.

(** The commit of this operation, after the branch moved. *)
Definition recoverCommit (b : Binding) (c : WriteCommand) (mutation : Mutation) (r : PathReservation) (head : VerifiedHead)
    : writing string :=
  do! found := pending "GitRecoveryInspectionPending" (ask_res (λ n, FindOperationCommit n mutation)) in
  match found with
  | None =>
      do! _ := match pr_LeaseUntil r with
        | None => op_ret tt
        | Some until =>
            do! now := pending "" (ask clock) in
            if now <? until then op_fail (WritePending "GitReservationPending" (WProj ErrConflict)) else
            do! now := pending "" (ask clock) in
            pending "GitReservationPending"
              (store_write (λ s, RepairExpiredPath s (bd_ID b) (bd_TargetRef b) (wc_Path c) false "" now))
        end in
      op_fail (WritePending "GitWriteBaseRefreshPending" (WProj ErrConflict))
  | Some revision =>
      do! now := pending "" (ask clock) in
      do! _ := pending "GitFinalizationPending"
        (store_call (λ s, FinalizeVerifiedPath s (bd_ID b) (bd_TargetRef b) (wc_Path c) (wc_OperationID c) revision head now)) in
      op_ret revision
  end.

(** From the reservation of the path on: push, verify, record. *)
Definition pushMutation (wr : ProjectionWriter) (operationID : string) (b : Binding) (c : WriteCommand) (mutation : Mutation)
    : writing string :=
  do! now := pending "" (ask clock) in
  let candidate := mkReservation (bd_ID b) (bd_TargetRef b) (wc_Path c) operationID (wr_Owner wr) (mu_BaseRevision mutation) ""
                     ReservationCandidate (Some (now + writeLease wr)) now now in
  do! _ := classify (λ e, if is_proj e ErrInvalid then WriteFailed e
                          else if is_proj e ErrStale then WritePending "GitWriteBaseRefreshPending" e
                          else WritePending "GitReservationPending" e)
             (store_call (λ s, AcquirePath s candidate now (writeLease wr))) in
  do! revision := pending "GitCommitResultPending" (ask_res (λ n, CommitMutation n mutation)) in
  do! verifiedAfter := pending "GitPostPushVerificationPending" (ask_res (λ n, VerifyTargetHead n b ObservationWrite)) in
  do! _ := op_guard (String.eqb (vh_Commit verifiedAfter) revision)
             (WritePending "GitPostPushVerificationPending" (WProj ErrProviderMismatch)) in
  do! now := pending "" (ask clock) in
  do! _ := pending "GitFinalizationPending"
    (store_call (λ s, FinalizeVerifiedPath s (bd_ID b) (bd_TargetRef b) (wc_Path c) operationID revision verifiedAfter now)) in
  op_ret revision.

(** The base on which the mutation is made, when no reservation of this operation
    is there yet. *)
Definition rebased (c : WriteCommand) (head : VerifiedHead) : writing Mutation :=
  let mutation := mutationOf c in
  if String.eqb (vh_Commit head) (wp_BaseRevision (wc_Plan c)) then op_ret mutation
  else
    do! _ := classify WriteFailed (ask_nil (λ n, VerifyMutationUnchangedSince n mutation)) in
    op_ret (mu_set_BaseRevision (vh_Commit head) mutation).

(** With the repository prepared at the head. *)
Definition executeMutation (wr : ProjectionWriter) (operationID : string) (b : Binding) (c : WriteCommand)
    (reservation : option PathReservation) (head : VerifiedHead) : writing string :=
  match reservation with
  | Some r =>
      if String.eqb (pr_OperationID r) operationID then
        let mutation := mutationOf c in
        do! _ := classify WriteFailed (ask_nil (λ n, VerifyMutationUnchangedAt n mutation (pr_BaseRevision r))) in
        let mutation := mu_set_BaseRevision (pr_BaseRevision r) mutation in
        if String.eqb (vh_Commit head) (pr_BaseRevision r) then pushMutation wr operationID b c mutation
        else recoverCommit b c mutation r head
      else
        do! _ := recoverForeignReservation b r head in
        do! mutation := rebased c head in
        pushMutation wr operationID b c mutation
  | None =>
      do! mutation := rebased c head in
      pushMutation wr operationID b c mutation
  end.

Definition prepareAndExecute (wr : ProjectionWriter) (operationID : string) (b : Binding) (c : WriteCommand)
    (reservation : option PathReservation) : writing string :=
  do! head := classify (pendingUnless [ErrInvalid; ErrMissingRef] "GitProviderVerificationPending")
                (ask_res (λ n, VerifyTargetHead n b ObservationWrite)) in
  do! _ := pending "GitRepositoryPreparationPending" (ask_nil (λ n, CleanupOperation n (bd_ID b) operationID)) in
  do! _ := pending "GitRepositoryPreparationPending" (ask_nil (λ n, Prepare n b head operationID)) in
  executeMutation wr operationID b c reservation head.

Definition CommitOperation (wr : ProjectionWriter) (operationID : string) : writing string :=
  do! _ := op_guard (validWriter wr && uuid operationID) (WriteFailed invalid) in
  do! c := classify (pendingUnless [ErrNotFound; ErrInvalid] "GitCommandLoadPending")
             (store_read (λ s, WriteCommandOf s operationID)) in
  if negb (bool_decide (wc_State c = WriteCommandPending)) then op_ret (wc_CommittedRevision c) else
  do! _ := op_guard (bool_decide (wc_PublicationMode c = PublicationDirect)) (WriteFailed invalid) in
  do! b := classify (pendingUnless [ErrNotFound; ErrInvalid] "GitBindingLoadPending")
             (store_read (λ s, lookupBinding s (wp_BindingID (wc_Plan c)))) in
  do! _ := op_guard (validatePersistedWriteCommand c b) (WriteFailed invalid) in
  do! found := pending "" (attempt (store_read (λ s, PathReservationOf s (bd_ID b) (bd_TargetRef b) (wc_Path c)))) in
  match found with
  | Ok r =>
      if String.eqb (pr_OperationID r) operationID && bool_decide (pr_State r = ReservationCommittedPendingIndex) then
        do! now := pending "" (ask clock) in
        do! marked := pending "GitFinalizationPending"
          (store_call (λ s, MarkWriteCommandCommitted s operationID (pr_CommittedRevision r) now)) in
        op_ret (wc_CommittedRevision marked)
      else prepareAndExecute wr operationID b c (Some r)
  | Err e =>
      if is_proj e ErrNotFound then prepareAndExecute wr operationID b c None
      else op_fail (WritePending "GitReservationLoadPending" e)
  end.
End writing.
