(* ===== verification/GitProjectionTags.v ===== *)
(** What the strong entity tag of a bundle says ([StrongETag],
    [StrongETagWithDependencies]): two bundles of an application have the same
    tag exactly when everything the tag is for is the same, or SHA-256 has a
    collision at their two inputs; and what follows for the plan of a write. *)

From Stdlib Require Import Ascii.
From S2P Require Import Prelude Regexp GoStrings Digest JsonValues AppConfig Variables.
From S2P Require Import GitProjection GitProjectionWrites GitProjectionStore GitProjectionFacts GitProjectionPaths GitProjectionWorkers.

Open Scope Z_scope.

(** * What a tag is for *)

Record Snapshot := mkSnapshot {
  sn_Binding : string;
  sn_TargetRef : string;
  sn_Parser : string;
  sn_Chart : string;
  sn_Policy : string;
  sn_Document : DependencyState;
  sn_Dependencies : list DependencyState;
}.

Definition stateOf (d : Document) : DependencyState := mkDependencyState (gd_Path d) true (gd_BlobID d).

Definition snapshotOf (b : Binding) (chartDigest policyVersion : string) (u : Bundle) : Snapshot :=
  mkSnapshot (bd_ID b) (bd_TargetRef b) (bd_ParserVersion b) chartDigest policyVersion
    (match gb_Documents u with d :: _ => stateOf d | [] => mkDependencyState "" false "" end) (gb_Dependencies u).

Definition nulled (fields : list string) : string := str_join "" (map (λ field, field +:+ nul) fields).

Definition fieldsOf (e : DependencyState) : list string :=
  if gs_Present e then [gs_Path e; "present"; gs_BlobID e] else [gs_Path e; "absent"].

Definition headerOf (sn : Snapshot) : list string :=
  [sn_Binding sn; sn_TargetRef sn; sn_Parser sn; sn_Chart sn; sn_Policy sn].

(** The bytes that are hashed. *)
Definition etagInput (sn : Snapshot) : string :=
  let document := sn_Document sn in
  if existsb gs_Present (sn_Dependencies sn) then
    nulled (bundleTag :: headerOf sn ++
            sort_strings (map (λ e, str_join nul (fieldsOf e)) (document :: sn_Dependencies sn)))%list
  else nulled (headerOf sn ++ [gs_Path document +:+ nul +:+ gs_BlobID document])%list.

Definition tagOf (input : string) : string := quoted_digest (hex_encode (sha256 (string_bytes input))).

(** Two inputs at which the hash collides. *)
Definition collide (x y : string) : Prop := x ≠ y ∧ tagOf x = tagOf y.

Definition noNul (s : string) : Prop := count_byte "000" s = 0.

(** * Fields that end in a NUL *)

Lemma nulled_cons f fs : nulled (f :: fs) = f +:+ String "000" (nulled fs).
Proof.
  unfold nulled. simpl. destruct (map _ fs) as [|w ws].
  - by rewrite <- (str_app_nil_r (f +:+ nul)), str_app_assoc.
  - by rewrite str_app_assoc.
Qed.

Lemma nulled_app fs gs : nulled (fs ++ gs) = nulled fs +:+ nulled gs.
Proof. induction fs as [|f fs IH]; [done|]. simpl. by rewrite !nulled_cons, IH, str_app_assoc. Qed.

Lemma split_nulled fs : Forall noNul fs → split_byte "000" (nulled fs) = (fs ++ [""])%list.
Proof.
  induction 1 as [|f fs Hf Hs IH]; [done|]. rewrite nulled_cons, split_byte_app by done. by rewrite IH.
Qed.

Lemma nulled_inj fs gs : Forall noNul fs → Forall noNul gs → nulled fs = nulled gs → fs = gs.
Proof.
  intros Hf Hg He. apply (f_equal (split_byte "000")) in He. rewrite !split_nulled in He by done.
  by apply app_inj_tail in He as [? _].
Qed.

Lemma nulled_join f fs : str_join nul (f :: fs) +:+ nul = nulled (f :: fs).
Proof.
  revert f. induction fs as [|g fs IH]; intros f.
  - by rewrite nulled_cons.
  - rewrite nulled_cons, <- IH. change (str_join nul (f :: g :: fs)) with (f +:+ nul +:+ str_join nul (g :: fs)).
    by rewrite !str_app_assoc.
Qed.

Lemma nulled_entries es : nulled (map (λ e, str_join nul (fieldsOf e)) es) = nulled (concat (map fieldsOf es)).
Proof.
  induction es as [|e es IH]; [done|]. simpl. rewrite nulled_cons, IH, nulled_app.
  change (String "000" ?x) with (nul +:+ x). rewrite <- str_app_assoc. f_equal.
  unfold fieldsOf. destruct (gs_Present e); apply nulled_join.
Qed.

(** An absent dependency has no blob. *)
Definition entryOk (e : DependencyState) : Prop :=
  noNul (gs_Path e) ∧ noNul (gs_BlobID e) ∧ (gs_Present e = false → gs_BlobID e = "").

Lemma fieldsOf_noNul e : entryOk e → Forall noNul (fieldsOf e).
Proof. intros (Hp & Hb & _). unfold fieldsOf. destruct (gs_Present e); repeat constructor; done. Qed.

Lemma entries_noNul es : Forall entryOk es → Forall noNul (concat (map fieldsOf es)).
Proof.
  induction 1; [by constructor|]. simpl. apply Forall_app. split; [by apply fieldsOf_noNul|done].
Qed.

Lemma fieldsOf_inj es es' :
  Forall entryOk es → Forall entryOk es' → concat (map fieldsOf es) = concat (map fieldsOf es') → es = es'.
Proof.
  intros Hs. revert es'. induction Hs as [|e es (_ & _ & He) Hs IH]; intros es' Hs' Heq.
  - destruct es' as [|e' es']; [done|]. simpl in Heq. unfold fieldsOf in Heq. by destruct (gs_Present e').
  - destruct Hs' as [|e' es' (_ & _ & He') Hs'].
    + simpl in Heq. unfold fieldsOf in Heq. by destruct (gs_Present e).
    + simpl in Heq. destruct e as [p present blobID], e' as [p' present' blobID']. simpl in *.
      unfold fieldsOf in Heq at 1 3. simpl in Heq. destruct present, present'; simplify_eq/=.
      * f_equal. by apply IH.
      * rewrite He, He' by done. f_equal. by apply IH.
Qed.

(** A permutation that keeps the order of the keys changes nothing. *)
Lemma permutation_keys {A K} (f : A → K) (l l' : list A) :
  l ≡ₚ l' → map f l = map f l' → NoDup (map f l) → l = l'.
Proof.
  revert l'. induction l as [|x l IH]; intros l' Hp Hm Hn.
  - by apply Permutation_nil_l in Hp.
  - destruct l' as [|y l']; [done|]. simpl in *. injection Hm as Hxy Hm.
    apply NoDup_cons in Hn as [Hx Hn]. assert (x = y) as <-.
    { assert (x ∈ y :: l') as Hin by (rewrite <- Hp; by left). apply elem_of_cons in Hin as [|Hin]; [done|].
      exfalso. apply Hx. rewrite Hm. apply list_elem_of_In, in_map_iff. exists x. split; [done|by apply list_elem_of_In]. }
    f_equal. apply IH; [|done|done]. by apply Permutation_cons_inv in Hp.
Qed.

Lemma sorted_entries es : ∃ es', es ≡ₚ es' ∧
  sort_strings (map (λ e, str_join nul (fieldsOf e)) es) = map (λ e, str_join nul (fieldsOf e)) es'.
Proof.
  pose proof (sort_slice_permutation str_less (map (λ e, str_join nul (fieldsOf e)) es)) as Hp.
  apply Permutation_map_inv in Hp as (es' & Hs & Hp). by exists es'.
Qed.

(** * The input determines what the tag is for *)

Record snapshotOk (sn : Snapshot) : Prop := {
  so_binding : uuid (sn_Binding sn) = true;
  so_header : Forall noNul (headerOf sn);
  so_present : gs_Present (sn_Document sn) = true;
  so_entries : Forall entryOk (sn_Document sn :: sn_Dependencies sn);
  so_paths : NoDup (map gs_Path (sn_Document sn :: sn_Dependencies sn));
}.

Definition pathsOf (sn : Snapshot) : list string := map gs_Path (sn_Document sn :: sn_Dependencies sn).

Lemma snapshot_eq sn sn' :
  headerOf sn = headerOf sn' → sn_Document sn = sn_Document sn' → sn_Dependencies sn = sn_Dependencies sn' → sn = sn'.
Proof. destruct sn, sn'. unfold headerOf. simpl. by intros [= -> -> -> -> ->] -> ->. Qed.

Lemma absent_inj es es' :
  Forall entryOk es → Forall entryOk es' → map gs_Path es = map gs_Path es' →
  existsb gs_Present es = false → existsb gs_Present es' = false → es = es'.
Proof.
  intros Hs. revert es'. induction Hs as [|e es (_ & _ & He) Hs IH]; intros es' Hs' Hm Ha Ha';
    destruct Hs' as [|e' es' (_ & _ & He') Hs']; try done.
  simpl in *. injection Hm as Hp Hm. apply orb_false_iff in Ha as [Ha1 Ha], Ha' as [Ha1' Ha'].
  f_equal; [|by apply IH]. destruct e as [? [] ?], e' as [? [] ?]; simpl in *; try done.
  rewrite He, He' by done. by rewrite Hp.
Qed.

Lemma etagInput_inj sn sn' :
  snapshotOk sn → snapshotOk sn' → pathsOf sn = pathsOf sn' → etagInput sn = etagInput sn' → sn = sn'.
Proof.
  intros [Hu Hh Hd Hes Hn] [Hu' Hh' Hd' Hes' Hn'] Hp He. unfold pathsOf in Hp.
  assert (Forall noNul [bundleTag]) as Ht by (by repeat constructor).
  assert (∀ sn, snapshotOk sn → Forall noNul [gs_Path (sn_Document sn); gs_BlobID (sn_Document sn)]) as Hdoc.
  { intros x [_ _ _ Hx _]. apply Forall_cons in Hx as [(? & ? & _) _]. by repeat constructor. }
  assert (∀ sn, nulled (headerOf sn ++ [gs_Path (sn_Document sn) +:+ nul +:+ gs_BlobID (sn_Document sn)]) =
                nulled (headerOf sn ++ [gs_Path (sn_Document sn); gs_BlobID (sn_Document sn)])) as Hone.
  { intros x. rewrite !nulled_app. f_equal. rewrite !nulled_cons. simpl. by rewrite str_app_assoc. }
  assert (∀ a b es, nulled (a :: b ++ map (λ e, str_join nul (fieldsOf e)) es) = nulled (a :: b ++ concat (map fieldsOf es)))
    as Hmany by (intros; rewrite !nulled_cons, !nulled_app; by rewrite nulled_entries).
  unfold etagInput in He. destruct (existsb gs_Present (sn_Dependencies sn)) eqn:E1,
    (existsb gs_Present (sn_Dependencies sn')) eqn:E2.
  - destruct (sorted_entries (sn_Document sn :: sn_Dependencies sn)) as (es & Hs & Hes1).
    destruct (sorted_entries (sn_Document sn' :: sn_Dependencies sn')) as (es' & Hs' & Hes1').
    rewrite Hes1, Hes1', !Hmany in He.
    assert (Forall entryOk es) by (by rewrite <- Hs). assert (Forall entryOk es') by (by rewrite <- Hs').
    apply nulled_inj in He; [|constructor; [by inversion Ht|]; apply Forall_app; split; [done|by apply entries_noNul]..].
    injection He as H1 H2 H3 H4 H5 H6. apply fieldsOf_inj in H6; [|done|done]. subst es'.
    assert (sn_Document sn :: sn_Dependencies sn = sn_Document sn' :: sn_Dependencies sn') as [= Hx Hy].
    { apply (permutation_keys gs_Path); [by rewrite Hs, Hs'|done|done]. }
    apply snapshot_eq; [|done|done]. unfold headerOf. congruence.
  - exfalso. rewrite Hone in He. destruct (sorted_entries (sn_Document sn :: sn_Dependencies sn)) as (es & Hs & Hes1).
    rewrite Hes1, Hmany in He. apply nulled_inj in He.
    + injection He as He _. rewrite <- He in Hu'. by vm_compute in Hu'.
    + constructor; [by inversion Ht|]. apply Forall_app. split; [done|]. apply entries_noNul. by rewrite <- Hs.
    + apply Forall_app. split; [done|]. apply Hdoc. by constructor.
  - exfalso. rewrite Hone in He. destruct (sorted_entries (sn_Document sn' :: sn_Dependencies sn')) as (es & Hs & Hes1).
    rewrite Hes1, Hmany in He. apply nulled_inj in He.
    + injection He as He _. rewrite He in Hu. by vm_compute in Hu.
    + apply Forall_app. split; [done|]. apply Hdoc. by constructor.
    + constructor; [by inversion Ht|]. apply Forall_app. split; [done|]. apply entries_noNul. by rewrite <- Hs.
  - rewrite !Hone in He. apply nulled_inj in He.
    + injection He as H1 H2 H3 H4 H5 H6 H7. apply snapshot_eq.
      * unfold headerOf. congruence.
      * destruct (sn_Document sn), (sn_Document sn'). simpl in *. congruence.
      * apply Forall_cons in Hes as [_ Hes], Hes' as [_ Hes']. injection Hp as _ Hp. by apply absent_inj.
    + apply Forall_app. split; [done|]. apply Hdoc. by constructor.
    + apply Forall_app. split; [done|]. apply Hdoc. by constructor.
Qed.

(** * Patterns without a NUL *)

Lemma re_noNul r s : re_within (λ c, c ≠ "000"%char) r → re_match r s = true → noNul s.
Proof. intros Hr Hs%re_match_spec. apply count_byte_none. by eapply re_within_spec. Qed.

Ltac no_nul :=
  repeat first [apply re_within_times | apply re_within_upto | exact I
               | (intros ? Hc ->; vm_compute in Hc; discriminate Hc) | split].

Lemma uuid_noNul s : uuid s = true → noNul s.
Proof. apply re_noNul. no_nul. Qed.
Lemma blob_noNul s : blob s = true → noNul s.
Proof. apply re_noNul. no_nul. Qed.
Lemma chart_noNul s : re_match chartIdentityRE s = true → noNul s.
Proof. apply re_noNul. no_nul. Qed.
Lemma ref_noNul s : re_match refRE s = true → noNul s.
Proof. apply re_noNul. no_nul. Qed.

Lemma join_noNul l : Forall noNul l → noNul (str_join "/" l).
Proof.
  induction 1 as [|s l Hs Hl IH]; [done|]. destruct l as [|s' l]; [done|].
  rewrite str_join_cons by done. unfold noNul in *. rewrite !count_byte_app, Hs, IH. done.
Qed.

(** * Documents and their dependencies *)

Lemma ApplicationPath_environment b application p :
  ApplicationPath b application = Ok p →
  validBinding b = true ∧ bd_Kind b = BindingEnvironment ∧ uuid application = true ∧ p = applicationConfig b application.
Proof.
  unfold ApplicationPath. destruct (_ && _) eqn:E; [|done]. intros [= <-]. bool_prop. split_and!; [done..|].
  destruct (environment_binding b) as (_ & _ & Hall & ->); [done..|].
  apply path_join_below; [done|done|done|]. plain_list. by apply uuid_plain.
Qed.

Lemma applicationDocument_path b d :
  validDocument d b = true → isDependency b (gd_Path d) = false →
  validBinding b = true ∧ bd_Kind b = BindingEnvironment ∧
  ∃ application, uuid application = true ∧ gd_Path d = applicationConfig b application.
Proof.
  unfold validDocument. intros Hv Hd. bool_prop.
  match goal with Hx : validDocumentPath d b = true |- _ => unfold validDocumentPath in Hx; rename Hx into Hp end.
  destruct (negb (empty (gd_ApplicationID d))).
  - destruct (ApplicationPath b _) as [p|] eqn:Ha; [|done]. apply ApplicationPath_environment in Ha as (? & ? & ? & ->).
    bool_prop. split_and!; [done..|]. by eexists.
  - rewrite Hd in Hp. done.
Qed.

Lemma environmentPaths_noNul b :
  validBinding b = true → bd_Kind b = BindingEnvironment →
  Forall noNul (environmentSegments b) ∧ noNul (projectVariables (bd_ProjectID b)) ∧ noNul (environmentVariables b).
Proof.
  intros Hv Hk. unfold validBinding in Hv. bool_prop.
  match goal with Hx : validScope b = true |- _ => unfold validScope in Hx; rewrite Hk in Hx; bool_prop end.
  assert (noNul (bd_ProjectID b)) by (by apply uuid_noNul).
  assert (noNul (bd_EnvironmentID b)) by (apply uuid_noNul; congruence).
  assert (Forall noNul (environmentSegments b)) by (by repeat constructor).
  split_and!; [done| |]; apply join_noNul; [by repeat constructor|].
  apply Forall_app. split; [done|]. by repeat constructor.
Qed.

Lemma environmentPaths_distinct b application :
  validBinding b = true → bd_Kind b = BindingEnvironment → uuid application = true →
  NoDup [applicationConfig b application; projectVariables (bd_ProjectID b); environmentVariables b].
Proof.
  intros Hv Hk Ha. destruct (environment_binding b Hv Hk) as (Hp & _ & Hall & _).
  assert (plain application) as Hpa by (by apply uuid_plain).
  assert (Forall plain (environmentSegments b ++ ["apps"; application; "app.yaml"])) as H1
    by (apply Forall_app; split; [done|]; plain_list).
  assert (Forall plain ["tenants"; bd_ProjectID b; "variables.yaml"]) as H2 by plain_list.
  assert (Forall plain (environmentSegments b ++ ["variables.yaml"])) as H3
    by (apply Forall_app; split; [done|]; plain_list).
  assert (applicationConfig b application ≠ projectVariables (bd_ProjectID b)) as N1 by (by intros [=]%join_inj).
  assert (applicationConfig b application ≠ environmentVariables b) as N2 by (by intros [=]%join_inj).
  assert (projectVariables (bd_ProjectID b) ≠ environmentVariables b) as N3 by (by intros [=]%join_inj).
  repeat constructor; set_solver.
Qed.

(** ** The tag of a bundle is the tag of its snapshot *)

Lemma StrongETag_one b d chart policy etag :
  StrongETag b [d] [] chart policy = Ok etag →
  re_match chartIdentityRE chart = true ∧
  etag = tagOf (nulled [bd_ID b; bd_TargetRef b; bd_ParserVersion b; chart; policy; gd_Path d +:+ nul +:+ gd_BlobID d]).
Proof.
  unfold StrongETag. destruct (_ && negb _) eqn:E; [|done]. simpl. destruct (validDocument d b); [|done]. simpl.
  intros [= <-]. unfold validETagInputs in E. bool_prop. split; done.
Qed.

(** The dependencies that are there are found again by their paths. *)
Lemma dependenciesByPath_two b q1 q2 (active : gmap string Document) m :
  q1 ≠ q2 → (∀ q d, active !! q = Some d → gd_Path d = q) →
  dependenciesByPath b [q1; q2] ∅ (omap (λ p, active !! p) [q1; q2]) = Some m →
  m !! q1 = active !! q1 ∧ m !! q2 = active !! q2.
Proof.
  intros Hne Hkeys. simpl. destruct (active !! q1) as [d1|] eqn:E1, (active !! q2) as [d2|] eqn:E2; simpl;
    try pose proof (Hkeys _ _ E1) as K1; try pose proof (Hkeys _ _ E2) as K2; rewrite ?K1, ?K2;
    rewrite ?lookup_empty; simpl; intros Hm; repeat case_match; simplify_eq;
    repeat first [rewrite lookup_insert_eq | rewrite lookup_insert_ne by done | rewrite lookup_empty]; done.
Qed.

Lemma StrongETagWithDependencies_one b d q1 q2 (active : gmap string Document) chart policy etag :
  q1 ≠ q2 → (∀ q d, active !! q = Some d → gd_Path d = q) →
  DependencyPaths b = Ok [q1; q2] →
  StrongETagWithDependencies b [d] [q1; q2] (omap (λ p, active !! p) [q1; q2]) chart policy = Ok etag →
  re_match chartIdentityRE chart = true ∧
  etag = tagOf (etagInput (mkSnapshot (bd_ID b) (bd_TargetRef b) (bd_ParserVersion b) chart policy (stateOf d)
                             [dependencyState active q1; dependencyState active q2])) ∧
  (gd_ApplicationID d = "" → active !! q1 = None ∧ active !! q2 = None).
Proof.
  intros Hne Hkeys Hpaths. unfold StrongETagWithDependencies. rewrite Hpaths.
  destruct (negb (_ || _ || _)); [|done].
  destruct (length _ =? 0)%nat eqn:El.
  - unfold etagInput. cbn [sn_Dependencies sn_Document]. intros [Hc ->]%StrongETag_one. split; [done|].
    unfold dependencyState. assert (active !! q1 = None ∧ active !! q2 = None) as [-> ->]; [|by split].
    revert El. simpl. by destruct (active !! q1), (active !! q2).
  - destruct (dependenciesByPath _ _ _ _) as [m|] eqn:Em; [|done].
    destruct (dependenciesByPath_two _ _ _ _ _ Hne Hkeys Em) as [M1 M2].
    destruct (validETagInputs _ _ _ _) eqn:Ev; [|done]. cbn [etagEntries].
    destruct (validDocument d b && negb (empty (gd_ApplicationID d))) eqn:Ea; [|done]. cbn [negb].
    rewrite bool_decide_false by set_solver.
    match goal with |- Ok (quoted_digest (hash_fields ?l)) = _ → _ =>
      change (Ok (E := ProjErr) (tagOf (nulled l)) = Ok etag → re_match chartIdentityRE chart = true ∧
        etag = tagOf (etagInput (mkSnapshot (bd_ID b) (bd_TargetRef b) (bd_ParserVersion b) chart policy (stateOf d)
          [dependencyState active q1; dependencyState active q2])) ∧
        (gd_ApplicationID d = "" → active !! q1 = None ∧ active !! q2 = None)) end.
    intros [= <-]. unfold validETagInputs in Ev. bool_prop. split; [done|]. split.
    + assert (existsb gs_Present [dependencyState active q1; dependencyState active q2] = true) as Hex.
      { revert El. simpl. unfold dependencyState. by destruct (active !! q1), (active !! q2). }
      f_equal. unfold etagInput. cbn [sn_Dependencies sn_Document]. rewrite Hex.
      cbn [map app]. unfold dependencyEntry. rewrite M1, M2. unfold dependencyState.
      destruct (active !! q1), (active !! q2); reflexivity.
    + intros He. rewrite He in *. done.
Qed.

Section tags.
Context `{MapOrder} `{Libraries} `{YAMLDecoder}.

Lemma bundle_snapshot n s id p deps chart policy u :
  projected n s → BundleOf s id p deps chart policy = Ok u → deps ≠ [] → noNul policy →
  (∀ b, gp_bindings s !! id = Some b → noNul (bd_ParserVersion b)) →
  ∃ b, gp_bindings s !! id = Some b ∧ gb_ETag u = tagOf (etagInput (snapshotOf b chart policy u)) ∧
    snapshotOk (snapshotOf b chart policy u) ∧ pathsOf (snapshotOf b chart policy u) = p :: deps.
Proof.
  intros Hp Hu Hdeps Hpol Hpar. unfold BundleOf in Hu. destruct (lookupBinding s id) as [b|] eqn:Eb; [|done]. simpl in Hu.
  apply lookupBinding_ok in Eb. specialize (Hpar b Eb). exists b. split; [done|].
  destruct (negb (_ =? 0)); [|done]. destruct (projected_binding n s id b Hp Eb) as [Hid Hv _ _ _ _ _ Hdocs _].
  set (active := documentsIn s id (bd_ProjectionGeneration b)) in *.
  assert (∀ q d, active !! q = Some d → gd_Path d = q ∧ validDocument d b = true) as Hactive.
  { intros q d Hq. unfold active, documentsIn in Hq. destruct (documentsOf s id !! _) as [m|] eqn:Em; [|done].
    destruct (Hdocs _ _ Em) as (g & _ & Hm). destruct (Hm q d Hq) as [? (? & _)]. done. }
  destruct (active !! p) as [d|] eqn:Ed; [|done]. destruct (Hactive _ _ Ed) as [Hdp Hdv].
  replace (length deps =? 0)%nat with false in Hu by (by destruct deps).
  destruct (StrongETagWithDependencies _ _ _ _ _ _) as [etag|] eqn:Et; [|done]. simpl in Hu. injection Hu as <-.
  assert (∃ q1 q2, DependencyPaths b = Ok [q1; q2] ∧ deps = [q1; q2]) as (q1 & q2 & Hpaths & ->).
  { unfold StrongETagWithDependencies in Et. destruct (DependencyPaths b) as [allowed|] eqn:Hpaths; [|done].
    destruct (negb (_ || _ || _)) eqn:E; [|done]. bool_prop.
    match goal with Hx : strs_eqb _ _ = true |- _ => apply strs_eqb_eq in Hx as -> end.
    unfold DependencyPaths in Hpaths. destruct (_ && _); [|done]. injection Hpaths as <-. by eexists _, _. }
  assert (validBinding b = true ∧ bd_Kind b = BindingEnvironment) as [_ Hk].
  { unfold DependencyPaths in Hpaths. destruct (_ && _) eqn:E; [|done]. by bool_prop. }
  destruct (environmentPaths_noNul b Hv Hk) as (HnSeg & HnP & HnE).
  rewrite (DependencyPaths_environment b Hv Hk) in Hpaths. injection Hpaths as Hq1 Hq2.
  assert (q1 ≠ q2) as Hne.
  { pose proof (environmentPaths_distinct b "11111111-1111-4111-8111-111111111111" Hv Hk eq_refl) as Hd.
    apply NoDup_cons in Hd as [_ Hd]. apply NoDup_cons in Hd as [Hd _]. rewrite <- Hq1, <- Hq2. set_solver. }
  assert (DependencyPaths b = Ok [q1; q2]) as Hpaths by (rewrite <- Hq1, <- Hq2; by apply DependencyPaths_environment).
  destruct (StrongETagWithDependencies_one b d q1 q2 active chart policy etag) as (Hc & -> & Hnone);
    [done|by intros; eapply Hactive|done|done|].
  split; [done|].
  assert (isDependency b (gd_Path d) = false) as Hnd.
  { destruct (isDependency b (gd_Path d)) eqn:E; [|done]. exfalso.
    apply isDependency_spec in E as (_ & _ & E). rewrite Hq1, Hq2, Hdp in E.
    assert (gd_ApplicationID d = "") as [N1 N2]%Hnone; [|destruct E as [-> | ->]; congruence].
    destruct (gd_ApplicationID d) eqn:Ea; [done|exfalso]. unfold validDocument in Hdv. bool_prop.
    match goal with Hx : validDocumentPath d b = true |- _ => unfold validDocumentPath in Hx; rewrite Ea in Hx; simpl in Hx;
      rename Hx into Hx' end.
    destruct (ApplicationPath b _) as [p'|] eqn:Hap; [|done]. bool_prop. subst p'.
    apply ApplicationPath_environment in Hap as (_ & _ & Hua & Hap).
    pose proof (environmentPaths_distinct b _ Hv Hk Hua) as Hdist. rewrite <- Hap, Hq1, Hq2, Hdp in Hdist.
    apply NoDup_cons in Hdist as [Hdist _]. set_solver. }
  destruct (applicationDocument_path b d Hdv Hnd) as (_ & _ & application & Hua & Hap).
  assert (∀ q x, active !! q = Some x → noNul (gd_BlobID x)) as Hblob.
  { intros q x Hq. destruct (Hactive _ _ Hq) as [_ Hx]. unfold validDocument in Hx. bool_prop. by apply blob_noNul. }
  assert (∀ q, noNul q → entryOk (dependencyState active q)) as Hentry.
  { intros q Hq. unfold dependencyState, entryOk. destruct (active !! q) as [x|] eqn:Ex; simpl.
    - split_and!; [done|by eapply Hblob|done].
    - by split_and!. }
  assert (∀ q, gs_Path (dependencyState active q) = q) as Hstate
    by (intros q; unfold dependencyState; by destruct (active !! q)).
  unfold pathsOf, snapshotOf. cbn [gb_Documents gb_Dependencies]. split.
  - constructor; cbn [sn_Binding sn_Document sn_Dependencies headerOf sn_TargetRef sn_Parser sn_Chart sn_Policy].
    + unfold validBinding in Hv. by bool_prop.
    + unfold validBinding in Hv. bool_prop. unfold headerOf. simpl.
      match goal with Hx : validTargetRef _ = true |- _ => unfold validTargetRef in Hx; bool_prop end.
      repeat constructor; [by apply uuid_noNul|by apply ref_noNul|done|by apply chart_noNul|done].
    + done.
    + constructor; [|constructor; [apply Hentry; congruence|constructor; [apply Hentry; congruence|constructor]]].
      unfold entryOk, stateOf. simpl. split_and!; [|by eapply Hblob|done].
      rewrite Hap. apply join_noNul, Forall_app. split; [done|]. repeat constructor. by apply uuid_noNul.
    + simpl. rewrite !Hstate, Hap, <- Hq1, <- Hq2. by apply environmentPaths_distinct.
  - simpl. by rewrite !Hstate, Hdp.
Qed.

Lemma bundle_tags h1 h2 id p deps chart1 chart2 policy1 policy2 u1 u2 b1 b2 :
  history h1 → history h2 → deps ≠ [] →
  BundleOf (run NewMemoryStore h1) id p deps chart1 policy1 = Ok u1 →
  BundleOf (run NewMemoryStore h2) id p deps chart2 policy2 = Ok u2 →
  gp_bindings (run NewMemoryStore h1) !! id = Some b1 → gp_bindings (run NewMemoryStore h2) !! id = Some b2 →
  noNul policy1 → noNul policy2 → noNul (bd_ParserVersion b1) → noNul (bd_ParserVersion b2) →
  let sn1 := snapshotOf b1 chart1 policy1 u1 in
  let sn2 := snapshotOf b2 chart2 policy2 u2 in
  gb_ETag u1 = gb_ETag u2 ↔ sn1 = sn2 ∨ collide (etagInput sn1) (etagInput sn2).
Proof.
  intros Hh1 Hh2 Hdeps Hu1 Hu2 Hb1 Hb2 Hp1 Hp2 Hq1 Hq2 sn1 sn2.
  destruct (bundle_snapshot _ _ id p deps chart1 policy1 u1 (projected_history h1 Hh1)) as (b & Hb & He1 & Hok1 & Hps1);
    [done|done|done|congruence|]. rewrite Hb1 in Hb. injection Hb as <-.
  destruct (bundle_snapshot _ _ id p deps chart2 policy2 u2 (projected_history h2 Hh2)) as (b & Hb & He2 & Hok2 & Hps2);
    [done|done|done|congruence|]. rewrite Hb2 in Hb. injection Hb as <-.
  fold sn1 in He1, Hok1, Hps1. fold sn2 in He2, Hok2, Hps2. rewrite He1, He2. split.
  - intros Ht. destruct (decide (etagInput sn1 = etagInput sn2)) as [He|Hne]; [left|by right].
    apply etagInput_inj; [done|done|congruence|done].
  - intros [->|[_ Ht]]; done.
Qed.

(** The entity tag is exact.  For two bundles of the same path with the same
    dependencies, read from the store after any two histories, the tags are
    equal exactly when the binding, its branch and its parser, the chart, the
    policy, the blob of the document and the presence and blob of each
    dependency are all equal - or SHA-256 collides at the two inputs that are
    hashed, which are not the same.  (The versions of the policy and the parser
    hold no NUL; a plan of a write is refused otherwise.) *)
Theorem bundle_etag_exact h1 h2 id p deps chart1 chart2 policy1 policy2 u1 u2 b1 b2 :
  history h1 → history h2 → deps ≠ [] →
  BundleOf (run NewMemoryStore h1) id p deps chart1 policy1 = Ok u1 →
  BundleOf (run NewMemoryStore h2) id p deps chart2 policy2 = Ok u2 →
  gp_bindings (run NewMemoryStore h1) !! id = Some b1 → gp_bindings (run NewMemoryStore h2) !! id = Some b2 →
  noNul policy1 → noNul policy2 → noNul (bd_ParserVersion b1) → noNul (bd_ParserVersion b2) →
  let sn1 := snapshotOf b1 chart1 policy1 u1 in
  let sn2 := snapshotOf b2 chart2 policy2 u2 in
  gb_ETag u1 = gb_ETag u2 ↔ sn1 = sn2 ∨ collide (etagInput sn1) (etagInput sn2).
Proof. apply bundle_tags. Qed.

(** ** What a plan is made of *)

Lemma contains_any_none chars s :
  contains_any chars s = false → Forall (λ a, is_one_of chars a = false) (String.list_ascii_of_string s).
Proof.
  unfold contains_any. induction (String.list_ascii_of_string s) as [|a l IH]; [by constructor|].
  simpl. intros [Ha Hl]%orb_false_iff. constructor; auto.
Qed.

Lemma PlanMutation_ok `{DeploymentCatalog} c s actor environmentID applicationID etag plan :
  PlanMutation c s actor environmentID applicationID etag = Ok plan →
  ∃ b p deps, authorizedBinding c actor environmentID applicationID = Ok b ∧
    ApplicationPath b applicationID = Ok p ∧ DependencyPaths b = Ok deps ∧ wp_BindingID plan = bd_ID b ∧
    wp_ApplicationID plan = applicationID ∧ wp_EnvironmentID plan = bd_EnvironmentID b ∧
    noNul (cp_PolicyVersion c) ∧
    match BundleOf s (bd_ID b) p deps (cp_ChartDigest c) (cp_PolicyVersion c) with
    | Ok u => etag ≠ "" ∧ etag = gb_ETag u ∧ wp_Precondition plan = MutationMatchETag ∧ wp_ExpectedETag plan = etag ∧
              wp_BaseRevision plan = gb_IndexedRevision u
    | Err e => e = ErrNotFound ∧ etag = "" ∧ wp_Precondition plan = MutationCreateIfAbsent ∧ wp_ExpectedETag plan = ""
    end.
Proof.
  unfold PlanMutation. intros Hp. destruct (validControlPlane c); [|done]. simpl in Hp.
  apply res_bind_ok in Hp as (b & Hb & Hp). apply res_bind_ok in Hp as (p & Hpath & Hp).
  apply res_bind_ok in Hp as (deps & Hdeps & Hp). apply res_bind_ok in Hp as ([[base kind] tag] & Hpre & Hp).
  destruct (validateIdentity _ b) eqn:Ev; [|done]. injection Hp as <-.
  exists b, p, deps. split; [done|]. unfold liftProj in Hpath, Hdeps.
  split; [by destruct (ApplicationPath b applicationID); simplify_eq|].
  split; [by destruct (DependencyPaths b); simplify_eq|]. split_and!; [done|done|done| |].
  - unfold validateIdentity in Ev. cbn [wp_PolicyVersion] in Ev. apply andb_true_iff in Ev as [Ev _]. bool_prop.
    match goal with Hx : contains_any crlf_nul _ = false |- _ => rename Hx into Hc end.
    apply count_byte_none. apply contains_any_none in Hc. eapply Forall_impl; [exact Hc|].
    intros a Ha ->. by vm_compute in Ha.
  - unfold preconditionOf in Hpre. destruct (BundleOf _ _ _ _ _ _) as [u|e].
    + destruct (negb (_ || _)); [|done]. destruct (negb (empty etag)) eqn:Ee; [|done].
      destruct (negb (_ || _)) eqn:E; [|done]. simplify_eq/=. unfold empty in Ee. bool_prop. split_and!; done.
    + destruct e; try done. destruct (empty etag) eqn:Ee; [|done]. simplify_eq/=. unfold empty in Ee. by bool_prop.
Qed.

(** C8. No update is lost.  When an actor plans a change of an application with the
    tag of a bundle that was read before - by whoever, at any time, under any
    chart and policy - the plan is for the indexed revision of what is active
    now, which is what was read: the same binding, branch, parser, chart and
    policy, the same blob of the document, the same presence and blob of each
    document of variables, unless SHA-256 collides at the two inputs.  Without a
    tag only an application that has no document is planned. *)
Theorem no_lost_update `{DeploymentCatalog} c h actor environmentID applicationID etag plan :
  history h →
  PlanMutation c (run NewMemoryStore h) actor environmentID applicationID etag = Ok plan →
  (∀ b, gp_bindings (run NewMemoryStore h) !! wp_BindingID plan = Some b → noNul (bd_ParserVersion b)) →
  ∃ b p deps, authorizedBinding c actor environmentID applicationID = Ok b ∧ wp_BindingID plan = bd_ID b ∧
    ApplicationPath b applicationID = Ok p ∧ DependencyPaths b = Ok deps ∧
    match BundleOf (run NewMemoryStore h) (bd_ID b) p deps (cp_ChartDigest c) (cp_PolicyVersion c) with
    | Err e => e = ErrNotFound ∧ etag = "" ∧ wp_Precondition plan = MutationCreateIfAbsent
    | Ok u =>
        wp_Precondition plan = MutationMatchETag ∧ wp_BaseRevision plan = gb_IndexedRevision u ∧
        ∀ h0 chart policy u0 b0, history h0 →
          BundleOf (run NewMemoryStore h0) (bd_ID b) p deps chart policy = Ok u0 → gb_ETag u0 = etag →
          gp_bindings (run NewMemoryStore h0) !! bd_ID b = Some b0 → noNul policy → noNul (bd_ParserVersion b0) →
          ∃ b1, gp_bindings (run NewMemoryStore h) !! bd_ID b = Some b1 ∧
            let read := snapshotOf b0 chart policy u0 in
            let now := snapshotOf b1 (cp_ChartDigest c) (cp_PolicyVersion c) u in
            read = now ∨ collide (etagInput read) (etagInput now)
    end.
Proof.
  intros Hh Hplan Hparser. destruct (PlanMutation_ok _ _ _ _ _ _ _ Hplan) as
    (b & p & deps & Hb & Hp & Hdeps & Hid & _ & _ & Hpol & Hcase).
  exists b, p, deps. split_and!; [done..|].
  destruct (BundleOf (run NewMemoryStore h) _ _ _ _ _) as [u|e] eqn:Eu; [|by destruct_and!].
  destruct Hcase as (_ & He & Hpre & _ & Hbase). split_and!; [done|done|].
  intros h0 chart policy u0 b0 Hh0 Hu0 Ht Hb0 Hpol0 Hpar0.
  assert (deps ≠ []) as Hne by (unfold DependencyPaths in Hdeps; destruct (_ && _); by simplify_eq).
  assert (∃ b1, gp_bindings (run NewMemoryStore h) !! bd_ID b = Some b1) as [b1 Hb1].
  { unfold BundleOf, lookupBinding in Eu. destruct (gp_bindings _ !! bd_ID b); [eauto|done]. }
  exists b1. split; [done|]. rewrite Hid in Hparser.
  apply (bundle_tags h0 h (bd_ID b) p deps chart (cp_ChartDigest c) policy (cp_PolicyVersion c) u0 u b0 b1); try done;
    [by apply Hparser|congruence].
Qed.
End tags.
