(* ===== verification/GitProjectionWorkerFacts.v ===== *)
(** What the workers of the Git projection do to the store: what is served after
    a commit was indexed is what Git has at that commit, and what the coordinator
    records of a reconciliation. *)

From Stdlib Require Import Ascii SpecFloat.
From S2P Require Import Prelude Regexp GoStrings Effects Digest JsonValues Workload AppConfig Variables.
From S2P Require Import GitProjection GitProjectionWrites GitProjectionStore GitProjectionFacts GitProjectionWriteFacts GitProjectionPaths GitProjectionWorkers.

Open Scope Z_scope.

(** * Waiting after failures *)

Lemma doubled_spec n value maximum :
  0 < value ≤ hour → maximum ≤ hour → Z.min (doubled n value maximum) maximum = Z.min maximum (value * 2 ^ Z.of_nat n).
Proof.
  revert value. induction n as [|n IH]; intros value Hv Hm; [simpl; lia|]. rewrite Nat2Z.inj_succ, Z.pow_succ_r by lia.
  cbn [doubled]. assert (1 ≤ 2 ^ Z.of_nat n) by (apply (Z.pow_le_mono_r 2 0); lia).
  destruct (value <? maximum) eqn:E1; bool_prop; [|nia].
  pose proof (Z.quot_rem' maximum 2). pose proof (Z.rem_bound_pos maximum 2).
  destruct (maximum ÷ 2 <? value) eqn:E2; bool_prop; [nia|].
  change hour with 3600000000000 in *.
  rewrite i64_small by (unfold i64_range; lia). rewrite IH by (change hour with 3600000000000; lia). f_equal. lia.
Qed.

(** The delay after the [n]-th failure in a row is the least delay doubled
    [n - 1] times, but never more than the greatest: the loop neither overflows
    nor overshoots. *)
Lemma backoff_doubles minimum maximum failures :
  second ≤ minimum → minimum ≤ maximum → maximum ≤ hour → 1 ≤ failures →
  exponentialProjectionBackoff minimum maximum failures = Z.min maximum (minimum * 2 ^ (failures - 1)).
Proof.
  intros H1 H2 H3 H4. unfold exponentialProjectionBackoff. change second with 1000000000 in H1.
  rewrite doubled_spec by lia. by rewrite Z2Nat.id by lia.
Qed.

Example backoff : map (exponentialProjectionBackoff (5 * second) (5 * minute)) [1; 2; 6; 7; 32] =
  [5 * second; 10 * second; 160 * second; 300 * second; 300 * second].
Proof. vm_compute. reflexivity. Qed.

(** * Steps of a worker *)

Section steps.
Context `{Surroundings} `{MapOrder} `{Libraries} `{YAMLDecoder}.

Lemma store_call_ok {A} (f : MemoryStore → res ProjErr (MemoryStore * A)) w w' a :
  store_call f w = (w', Ok a) → f (meet w) = Ok (w_store w', a) ∧ w_step w' = S (w_step w).
Proof. unfold store_call. destruct (f (meet w)) as [[s x]|]; intros Hok; by simplify_eq. Qed.

Lemma store_write_ok (f : MemoryStore → res ProjErr MemoryStore) w w' u :
  store_write f w = (w', Ok u) → f (meet w) = Ok (w_store w') ∧ w_step w' = S (w_step w).
Proof. unfold store_write. intros [Hok Hs]%store_call_ok. destruct (f (meet w)); simplify_eq/=; by split. Qed.

Lemma store_read_ok {A} (f : MemoryStore → res ProjErr A) w w' a :
  store_read f w = (w', Ok a) → f (meet w) = Ok a ∧ w_store w' = meet w ∧ w_step w' = S (w_step w).
Proof. unfold store_read. intros [Hok Hs]%store_call_ok. destruct (f (meet w)); simplify_eq/=; by split_and!. Qed.

Lemma ask_ok {A} (f : nat → A) w w' a :
  ask f w = (w', Ok a) → a = f (w_step w) ∧ w_store w' = w_store w ∧ w_step w' = S (w_step w).
Proof. unfold ask. intros [= <- <-]. done. Qed.

Lemma attempt_ok {A} (m : task A) w w' r : attempt m w = (w', Ok r) → m w = (w', r).
Proof. unfold attempt. destruct (m w). by intros [= <- <-]. Qed.

(** Others do not stage without a generation, and there is an end to their calls. *)
Definition bounded : Prop := ∀ n, forallb wellFormed (others n) = true ∧ Z.of_nat (length (others n)) < 2 ^ 50.

Lemma run_projected n s h :
  projected n s → 0 ≤ n → n + Z.of_nat (length h) < 2 ^ 62 → forallb wellFormed h = true →
  projected (n + Z.of_nat (length h)) (run s h).
Proof. intros. apply run_invariant; [done..|]. by intros; apply projected_perform. Qed.

Lemma projected_mono n m s : projected n s → n ≤ m → projected m s.
Proof.
  intros Hp Hle id. specialize (Hp id). destruct (gp_bindings s !! id) as [b|]; [|done].
  destruct Hp as [J1 J2 J3 J4 J5 J6 J7 J8 J9]. constructor; try done; [lia|].
  intros k g Hk. destruct (J5 k g Hk) as (? & ? & ? & ?). split_and!; try done; lia.
Qed.

(** The next call finds a projected store; each step adds at most [2 ^ 50] calls. *)
Lemma meet_projected n w :
  bounded → projected n (w_store w) → 0 ≤ n → n + 2 ^ 50 < 2 ^ 62 → projected (n + 2 ^ 50) (meet w).
Proof.
  intros Hb Hp Hn Hlt. destruct (Hb (w_step w)) as [Hwf Hlen].
  eapply projected_mono; [eapply run_projected; [done|done|lia|done]|lia].
Qed.

(** * A generation that is staged *)

Lemma perform_generation n s c id k g :
  projected n s → 0 ≤ n → n + 1 < 2 ^ 62 → generationsOf s id !! k = Some g →
  ∃ g', generationsOf (perform s c) id !! k = Some g' ∧
    (isStaging g' = false ∨
     g' = g ∧ ((∀ documents, c ≠ CallPutDocuments g documents) → documentsIn (perform s c) id k = documentsIn s id k)).
Proof.
  intros Hp Hn Hb Hg.
  pose (P s' := ∃ g', generationsOf s' id !! k = Some g' ∧
    (isStaging g' = false ∨
     g' = g ∧ ((∀ documents, c ≠ CallPutDocuments g documents) → documentsIn s' id k = documentsIn s id k))).
  change (P (perform s c)).
  assert (∀ s', gp_generations s' = gp_generations s → gp_documents s' = gp_documents s → P s') as Hframe.
  { intros s' Hg' Hd'. exists g. unfold generationsOf, documentsIn, documentsOf. rewrite Hg', Hd'. split; [exact Hg|].
    right. by split. }
  destruct (ofProjection c) eqn:Hc; [|destruct (perform_frame s c Hc) as (_ & ? & ?); by apply Hframe].
  destruct c; try discriminate Hc; simpl perform; (apply after_cases; [by apply Hframe|intros a Hok]); try destruct a as [s' ?].
  - apply PutBinding_ok in Hok as [->|(_ & _ & ->)]; by apply Hframe.
  - apply SetBindingState_ok in Hok as (b & _ & _ & _ & _ & ->). by apply Hframe.
  - apply RecordVerifiedHead_ok in Hok as (b & o & _ & _ & _ & ->). by apply Hframe.
  - destruct (BeginGeneration_ok s lease head parser now s' g0 (2 ^ 62 + n) Hok) as
      (b & generations & documents & _ & _ & _ & _ & _ & _ & _ & _ & Hnew & Hgens & _ & ->);
      [by apply projected_bounds..|lia|].
    destruct (decide (id = rl_BindingID lease)) as [->|Hne].
    + exists (retired g). split; [|left; apply isStaging_retired]. unfold generationsOf. simpl. rewrite lookup_insert_eq. simpl.
      specialize (Hnew _ _ Hg). rewrite lookup_insert_ne by lia. by rewrite Hgens, Hg.
    + exists g. unfold generationsOf, documentsIn, documentsOf. simpl. rewrite !lookup_insert_ne by done. auto.
  - apply PutDocuments_ok in Hok as (b & _ & _ & Hcur & _ & [->| ->]); [by apply Hframe|]. exists g. split; [exact Hg|].
    right. split; [done|]. intros Hnot. unfold Datatypes.id, documentsIn, setDocuments, documentsOf. simpl.
    destruct (decide (gn_BindingID g0 = id)) as [Hid|Hne]; [|by rewrite lookup_insert_ne].
    rewrite <- Hid, lookup_insert_eq. simpl. destruct (decide (gn_Number g0 = k)) as [Hk|Hne]; [|by rewrite lookup_insert_ne].
    exfalso. apply (Hnot documents). by assert (g0 = g) as -> by congruence.
  - apply ActivateGeneration_ok in Hok as (b' & documents & commands & reservations & Hok). cbv zeta in Hok.
    destruct Hok as (_ & _ & _ & _ & _ & _ & _ & _ & _ & _ & _ & Eg & Ed & _). simpl fst.
    unfold P, generationsOf, documentsIn, documentsOf. rewrite Eg, Ed. unfold setGeneration, setDocuments.
    destruct (decide (gn_BindingID g0 = id)) as [<-|Hne].
    2: { rewrite !lookup_insert_ne by done. exists g. auto. }
    rewrite !lookup_insert_eq. simpl. destruct (decide (gn_Number g0 = k)) as [<-|Hne].
    + rewrite !lookup_insert_eq. eexists. split; [done|by left].
    + rewrite !lookup_insert_ne by done. exists g. auto.
  - apply FailGeneration_ok in Hok as (_ & _ & _ & _ & ->).
    unfold P, Datatypes.id, generationsOf, documentsIn, documentsOf, setGeneration. simpl.
    destruct (decide (gn_BindingID g0 = id)) as [<-|Hne].
    2: { rewrite !lookup_insert_ne by done. exists g. auto. }
    rewrite !lookup_insert_eq. simpl. destruct (decide (gn_Number g0 = k)) as [<-|Hne].
    + rewrite lookup_insert_eq. eexists. split; [done|by left].
    + rewrite lookup_insert_ne, lookup_delete_ne by done. exists g. auto.
  - apply FinalizeVerifiedPath_ok in Hok as (b & c & r0 & o & Hok). cbv zeta in Hok.
    destruct Hok as (_ & _ & _ & _ & _ & _ & _ & _ & _ & _ & _ & _ & ->). by apply Hframe.
Qed.

Lemma run_generation n s h id k g :
  projected n s → 0 ≤ n → n + Z.of_nat (length h) < 2 ^ 62 → forallb wellFormed h = true →
  generationsOf s id !! k = Some g → (∀ documents, CallPutDocuments g documents ∉ h) →
  ∃ g', generationsOf (run s h) id !! k = Some g' ∧
    (isStaging g' = false ∨ g' = g ∧ documentsIn (run s h) id k = documentsIn s id k).
Proof.
  revert n s. induction h as [|c h IH]; intros n s Hp Hn Hlen Hwf Hg Hnot; [eauto|].
  simpl in *. apply andb_true_iff in Hwf as [Hwf1 Hwf].
  assert (projected (n + 1) (perform s c)) as Hp' by (apply projected_perform; [done|done|lia|done]).
  destruct (perform_generation n s c id k g) as (g1 & Hg1 & Hcase); [done|done|lia|done|].
  (* Once it is not staged, it stays so. *)
  assert (∀ h n s g1, projected n s → 0 ≤ n → n + Z.of_nat (length h) < 2 ^ 62 → forallb wellFormed h = true →
    generationsOf s id !! k = Some g1 → isStaging g1 = false →
    ∃ g', generationsOf (run s h) id !! k = Some g' ∧ isStaging g' = false) as Hstay.
  { clear. induction h as [|c h IH]; intros n s g1 Hp Hn Hlen Hwf Hg Hst; [eauto|].
    simpl in *. apply andb_true_iff in Hwf as [Hwf1 Hwf].
    destruct (perform_generation n s c id k g1) as (g2 & Hg2 & Hcase); [done|done|lia|done|].
    apply (IH (n + 1) (perform s c) g2); [apply projected_perform; [done|done|lia|done]|lia|lia|done|done|].
    destruct Hcase as [?|[-> _]]; done. }
  destruct Hcase as [Hst|[-> Hd]].
  - destruct (Hstay h (n + 1) (perform s c) g1) as (g' & ? & ?); [done|lia|lia|done|done|done|]. exists g'. auto.
  - destruct (IH (n + 1) (perform s c)) as (g' & Hg' & Hcase); [done|lia|lia|done|done|set_solver|].
    exists g'. split; [done|]. destruct Hcase as [?|[-> Hd']]; [by left|right]. split; [done|].
    rewrite Hd'. apply Hd. intros documents ->. apply (Hnot documents). by left.
Qed.
End steps.

(** * The documents of a commit *)

(** The commit has a file with these bytes at the path, in the part of its tree
    that is read. *)
Definition listed `{GitReader} (b : Binding) (revision p blobID : string) : Prop :=
  ∃ dependencies output entry, DependencyPaths b = Ok dependencies ∧
    ls_tree revision (appsPrefix b :: dependencies) = Ok output ∧ entry ∈ split_byte "000" output ∧
    empty entry = false ∧ parseEntry entry = Ok (blobID, p).

Definition projectedPath (b : Binding) (p : string) : Prop := is_Some (applicationOf b p) ∨ isDependency b p = true.

Lemma trim_prefix_spec p s : has_prefix p s = true → s = p +:+ trim_prefix p s.
Proof. intros [r ->]%has_prefix_spec. by rewrite trim_prefix_app. Qed.

(** The path of an application's document is the one it was read from. *)
Lemma applicationOf_path b p application q :
  applicationOf b p = Some application → ApplicationPath b application = Ok q → q = p.
Proof.
  unfold applicationOf. intros Ha Hq. unfold ApplicationPath in Hq. destruct (_ && uuid application) eqn:E; [|done].
  injection Hq as <-. bool_prop. destruct (environment_binding b) as (_ & _ & Hall & Hpre); [done..|].
  destruct (split_byte "/" _) as [|x [|y [|]]] eqn:Es; try done. destruct (_ && uuid x && _) eqn:E'; [|done].
  injection Ha as ->. bool_prop. subst y.
  rewrite (trim_prefix_spec (appsPrefix b) p), <- (str_join_split "/" (trim_prefix _ p)), Es by done.
  unfold appsPrefix. rewrite Hpre.
  rewrite (path_join_below _ ["apps"; application; "app.yaml"]), (path_join_below _ ["apps"]); try done;
    [|by plain_list|plain_list; by apply uuid_plain].
  rewrite <- !join_app by done. cbn [str_join]. by rewrite !str_app_assoc.
Qed.

Section reading.
Context `{GitReader} `{MapOrder} `{Libraries} `{YAMLDecoder}.

Lemma readDocument_ok b g now p blobID raw revision d :
  readDocument b g now (applicationOf b p) p blobID raw revision = Ok d →
  gd_Path d = p ∧ gd_BlobID d = blobID ∧ gd_Raw d = raw.
Proof.
  unfold readDocument. intros Hok. destruct (applicationOf b p) as [application|] eqn:Ha.
  - destruct (AppConfig.ParseAndValidate raw) as [[parsed runtime] diagnostics]. unfold NewDocument in Hok.
    destruct (ApplicationPath b application) as [q|] eqn:Hq; [|done]. simpl in Hok.
    destruct (validDocument _ b); [|done]. injection Hok as <-. simpl. split_and!; [|done|done].
    by eapply applicationOf_path.
  - destruct (parseVariables raw) as [parsed diagnostics]. unfold NewDependencyDocument in Hok.
    destruct (isDependency b p); [|done]. destruct (negb _); [|done]. destruct (validDocument _ b); [|done].
    by injection Hok as <-.
Qed.

Definition relevant (b : Binding) (dependencies : list string) (p : string) : Prop :=
  is_Some (applicationOf b p) ∨ str_in p dependencies = true.

(** Every file that is relevant becomes one document, and nothing else does. *)
Lemma readEntries_spec b g now dependencies maximumDocuments maximumBytes seen count total entries documents :
  readEntries b g now dependencies maximumDocuments maximumBytes seen count total entries = Ok documents →
  (∀ d, d ∈ documents → gd_Path d ∉ seen ∧ relevant b dependencies (gd_Path d) ∧ cat_file (gd_BlobID d) = Ok (gd_Raw d) ∧
     ∃ entry, entry ∈ entries ∧ empty entry = false ∧ parseEntry entry = Ok (gd_BlobID d, gd_Path d)) ∧
  (∀ entry blobID p, entry ∈ entries → empty entry = false → parseEntry entry = Ok (blobID, p) →
     relevant b dependencies p → ∃ d, d ∈ documents ∧ gd_Path d = p) ∧
  NoDup (map gd_Path documents).
Proof.
  revert seen count total documents. induction entries as [|entry entries IH]; intros seen count total documents Hok.
  { injection Hok as <-. split_and!; [set_solver|set_solver|constructor]. }
  cbn [readEntries] in Hok. destruct (empty entry) eqn:Ee.
  { apply IH in Hok as (H1' & H2' & H3'). split_and!; [| |done].
    - intros d Hd. destruct (H1' d Hd) as (? & ? & ? & x & ? & ? & ?). split_and!; try done. exists x. set_solver.
    - intros x blobID p [->|Hx]%elem_of_cons He; [congruence|]. by apply H2'. }
  destruct (parseEntry entry) as [[blobID p]|] eqn:Ep; [|done]. cbn [res_bind] in Hok.
  destruct (negb (bool_decide (is_Some (applicationOf b p))) && negb (str_in p dependencies)) eqn:Er.
  { assert (¬ relevant b dependencies p) as Hnr by (intros [?|?]; bool_prop; congruence).
    apply IH in Hok as (H1' & H2' & H3'). split_and!; [| |done].
    - intros d Hd. destruct (H1' d Hd) as (? & ? & ? & x & ? & ? & ?). split_and!; try done. exists x. set_solver.
    - intros x blobID' p' [->|Hx]%elem_of_cons He Hp Hrel; [|by eapply H2'].
      rewrite Ep in Hp. injection Hp as <- <-. done. }
  assert (relevant b dependencies p) as Hrel.
  { unfold relevant. destruct (str_in p dependencies); [by right|left].
    destruct (decide (is_Some (applicationOf b p))) as [|Hn]; [done|]. rewrite bool_decide_false in Er by done. done. }
  destruct (negb (bool_decide (p ∈ seen))) eqn:Es; [|done]. destruct (count <? maximumDocuments); [|done].
  destruct (cat_file blobID) as [raw|] eqn:Ec; [|done]. cbn [res_bind] in Hok.
  destruct (negb (_ || _ || _)); [|done]. destruct (last_change _ p) as [answer|]; [|done].
  destruct (commit (trim_space answer)); [|done].
  apply res_bind_ok in Hok as (d & Hd & Hok). apply res_bind_ok in Hok as (rest & Hrest & Hok). injection Hok as <-.
  apply readDocument_ok in Hd as (Hdp & Hdb & Hdr). apply IH in Hrest as (H1' & H2' & H3'). bool_prop. split_and!.
  - intros x [->|Hx]%elem_of_cons.
    + rewrite Hdp, Hdb, Hdr. split_and!; try done. exists entry. split_and!; [by left|done|done].
    + destruct (H1' x Hx) as (Hs & ? & ? & y & ? & ? & ?). split_and!; try done; [set_solver|]. exists y. set_solver.
  - intros x blobID' p' [->|Hx]%elem_of_cons He Hp Hrel'.
    + rewrite Ep in Hp. injection Hp as <- <-. exists d. split; [by left|done].
    + destruct (H2' x blobID' p' Hx He Hp Hrel') as (y & ? & ?). exists y. split; [by right|done].
  - simpl. constructor; [|done]. intros Hin. apply list_elem_of_In, in_map_iff in Hin as (x & Hx & Hin).
    apply list_elem_of_In in Hin. destruct (H1' x Hin) as (Hs & _). rewrite Hx, Hdp in Hs. set_solver.
Qed.

Lemma readDocuments_ok i repository g now documents :
  readDocuments i repository g now = Ok documents →
  let b := rp_Binding repository in
  (∀ d, d ∈ documents → projectedPath b (gd_Path d) ∧ cat_file (gd_BlobID d) = Ok (gd_Raw d) ∧
     listed b (gn_HeadRevision g) (gd_Path d) (gd_BlobID d)) ∧
  (∀ blobID p, listed b (gn_HeadRevision g) p blobID → projectedPath b p → ∃ d, d ∈ documents ∧ gd_Path d = p) ∧
  NoDup (map gd_Path documents).
Proof.
  cbv zeta. unfold readDocuments. set (b := rp_Binding repository). intros Hok.
  destruct (bool_decide (bd_Kind b = BindingPlatform)) eqn:Ek; bool_prop.
  { injection Hok as <-. split_and!; [set_solver| |constructor].
    intros blobID p (dependencies & output & entry & Hd & _). exfalso. unfold DependencyPaths in Hd. rewrite Ek in Hd.
    by rewrite andb_comm in Hd. }
  destruct (negb (_ || _ || _ || _)); [|done]. destruct (DependencyPaths b) as [dependencies|] eqn:Hd; [|done].
  destruct (ls_tree _ _) as [output|] eqn:Hl; [|done]. cbn [res_bind] in Hok.
  assert (∀ p, relevant b dependencies p ↔ projectedPath b p) as Hrel.
  { intros p. unfold relevant, projectedPath, isDependency. by rewrite Hd. }
  apply readEntries_spec in Hok as (H1' & H2' & H3'). split_and!; [| |done].
  - intros d Hin. destruct (H1' d Hin) as (_ & Hr & Hc & entry & He & Hne & Hp). apply Hrel in Hr.
    split_and!; try done. by exists dependencies, output, entry.
  - intros blobID p (dependencies' & output' & entry & Hd' & Hl' & He & Hne & Hp) Hr.
    assert (dependencies' = dependencies) as -> by congruence. assert (output' = output) as -> by congruence.
    apply (H2' entry blobID p); try done. by apply Hrel.
Qed.

(** ** What an activation keeps of a document *)

Definition content (d : Document) : string * string * string := (gd_Path d, gd_BlobID d, gd_Raw d).

Lemma activatedDocuments_content policy b g current previous documents :
  activatedDocuments policy b g current previous = Ok documents → map content documents = map content current.
Proof.
  unfold activatedDocuments. destruct (bd_Kind b); intros Hok; op_ok Hok.
  { injection Hok as <-. bool_prop. by destruct current. }
  destruct (applyPolicyValidation b current x) as [validated|] eqn:Ea; [|done].
  destruct (applyEffectiveConfigRevisions validated previous _) as [result|] eqn:Ee; [|done]. injection Hok as <-.
  unfold applyPolicyValidation in Ea. apply bind_Some in Ea as (r & Hm & Ea). destruct (validateResolvedVariableDependencies b r); [|done].
  injection Ea as <-. trans (map content r).
  - unfold applyEffectiveConfigRevisions in Ee. destruct (negb _); [done|]. apply bind_Some in Ee as (m & _ & [= <-]).
    rewrite map_map. apply map_ext. intros d. unfold effectiveRevision. repeat case_match; done.
  - apply mapM_Some_1 in Hm. clear -Hm. induction Hm as [|d d' current r Hd Hm IH]; [done|]. simpl. rewrite IH. f_equal.
    unfold withPolicy in Hd. destruct (x !! gd_Path d); destruct (_ || _); by simplify_eq.
Qed.
End reading.

(** * Indexing *)

Section indexing.
Context `{Surroundings} `{GitReader} `{MapOrder} `{Libraries} `{YAMLDecoder}.

Lemma currentTime_ok i fallback w w' t :
  currentTime i fallback w = (w', Ok t) → w_store w' = w_store w.
Proof.
  unfold currentTime. intros Hok. op_inv. destruct (negb (ix_Clocked i)); [by injection Hok as <- _|].
  op_inv. match goal with Hx : ask _ _ = _ |- _ => by apply ask_ok in Hx as (_ & ? & _) end.
Qed.

(** The generation that [indexFull] begins. *)
Definition begun (i : Indexer) (lease : ReconciliationLease) (repository : PreparedRepository) (b : Binding) (now : Time)
    (w : World) : option Generation :=
  match currentTime i now w with
  | (w, Ok startedAt) =>
      match BeginGeneration (meet w) lease (vh_Commit (rp_Head repository)) (bd_ParserVersion b) startedAt with
      | Ok (_, g) => Some g
      | Err _ => None
      end
  | _ => None
  end.

Lemma indexFull_ok i lease repository b now w w' b' :
  indexFull i lease repository b now w = (w', Ok b') →
  ∃ w1 startedAt w2 g documents w3 w4 activatedAt,
    begun i lease repository b now w = Some g ∧ w_store w1 = w_store w ∧
    BeginGeneration (meet w1) lease (vh_Commit (rp_Head repository)) (bd_ParserVersion b) startedAt = Ok (w_store w2, g) ∧
    readDocuments i repository g startedAt = Ok documents ∧
    PutDocuments (meet w2) g documents = Ok (w_store w3) ∧ w_store w4 = w_store w3 ∧
    ActivateGeneration (meet w4) lease g (ix_Policy i) activatedAt = Ok (w_store w', b').
Proof.
  unfold indexFull. intros Hok. apply op_bind_ok in Hok as (w1 & startedAt & Ht1 & Hok).
  apply op_bind_ok in Hok as (w2 & g & Hbegin & Hok). apply store_call_ok in Hbegin as [Hbegin _].
  destruct (readDocuments i repository g startedAt) as [documents|e] eqn:Er.
  2: { apply op_bind_ok in Hok as (? & ? & _ & Hok). discriminate Hok. }
  apply op_bind_ok in Hok as (w3 & staged & Hput & Hok). apply attempt_ok in Hput.
  destruct staged as [u|e]; [|apply op_bind_ok in Hok as (? & ? & _ & Hok); discriminate Hok].
  apply store_write_ok in Hput as [Hput _]. apply op_bind_ok in Hok as (w4 & activatedAt & Ht2 & Hok).
  apply store_call_ok in Hok as [Hact _].
  exists w1, startedAt, w2, g, documents, w3, w4, activatedAt.
  split; [unfold begun; by rewrite Ht1, Hbegin|]. apply currentTime_ok in Ht1, Ht2. by split_and!.
Qed.

(** C29. A commit of more than a thousand documents is never indexed, although the
    reader admits ten thousand: the documents are staged in one call, and a call
    takes a thousand. *)
Theorem large_commit_refused i lease repository b now w paths :
  let rb := rp_Binding repository in
  1000 < Z.of_nat (length paths) → NoDup paths →
  (∀ p, p ∈ paths → projectedPath rb p ∧ ∃ blobID, listed rb (vh_Commit (rp_Head repository)) p blobID) →
  is_ok (indexFull i lease repository b now w).2 = false.
Proof.
  intros rb Hlen Hnd Hpaths. destruct (indexFull i lease repository b now w) as [w' [b'|e]] eqn:E; [|done]. exfalso.
  apply indexFull_ok in E as (w1 & startedAt & w2 & g & documents & w3 & w4 & t & _ & _ & Hbegin & Hr & Hput & _).
  assert (gn_HeadRevision g = vh_Commit (rp_Head repository)) as Hhead.
  { unfold BeginGeneration in Hbegin. op_ok Hbegin. destruct (foldl retire _ _) as [[? ?] ?]. by injection Hbegin as _ <-. }
  destruct (readDocuments_ok _ _ _ _ _ Hr) as (_ & Hall & _). rewrite Hhead in Hall. fold rb in Hall.
  assert (length paths ≤ length (map gd_Path documents))%nat as Hle.
  { apply NoDup_incl_length; [by apply NoDup_ListNoDup|]. intros p Hp. apply list_elem_of_In in Hp.
    destruct (Hpaths p Hp) as (Hpp & blobID & Hl). destruct (Hall blobID p Hl Hpp) as (d & Hd & <-).
    apply in_map. by apply list_elem_of_In. }
  rewrite length_map in Hle. unfold PutDocuments in Hput. destruct (isStaging g && _) eqn:Eg; [|done]. bool_prop. lia.
Qed.

Lemma put_all_empty documents p d :
  NoDup (map gd_Path documents) → put_all documents ∅ !! p = Some d ↔ d ∈ documents ∧ gd_Path d = p.
Proof.
  intros Hnd. split.
  - intros [[Hin Hp]|[He _]]%put_all_lookup; [done|]. by rewrite lookup_empty in He.
  - intros [Hin <-]. destruct (put_all documents ∅ !! gd_Path d) as [x|] eqn:E.
    + apply put_all_lookup in E as [[Hx Hp]|[He _]]; [|by rewrite lookup_empty in He]. f_equal.
      apply list_elem_of_In in Hin as Hin1. apply list_elem_of_In in Hx as Hx1.
      revert Hnd Hin1 Hx1 Hp. clear. induction documents as [|y documents IH]; [done|]. simpl.
      intros [Hy Hnd]%NoDup_cons [->|H1] [->|H2] Hp; [done| | |by apply IH].
      * exfalso. apply Hy. rewrite <- Hp. apply list_elem_of_In, in_map. done.
      * exfalso. apply Hy. rewrite Hp. apply list_elem_of_In, in_map. done.
    + exfalso. assert (∀ l (m : gmap string Document), d ∈ l ∨ is_Some (m !! gd_Path d) → is_Some (put_all l m !! gd_Path d)) as Hall.
      { clear. induction l as [|y l IH]; intros m [Hd|Hm]; simpl; [set_solver|done| |].
        - apply IH. apply elem_of_cons in Hd as [->|Hd]; [right; rewrite lookup_insert_eq; by eexists|by left].
        - apply IH. right. destruct (decide (gd_Path y = gd_Path d)) as [->|]; [rewrite lookup_insert_eq; by eexists|].
          by rewrite lookup_insert_ne. }
      destruct (Hall documents ∅ (or_introl Hin)) as [x Hx]. congruence.
Qed.

(** What is activated at a path is what was staged there. *)
Lemma activated_content policy b g m previous documents p d :
  (∀ p d, m !! p = Some d → gd_Path d = p) →
  activatedDocuments policy b g (policyDocuments m) previous = Ok documents →
  put_all documents m !! p = Some d → ∃ d0, m !! p = Some d0 ∧ content d = content d0.
Proof.
  intros Hkeys Hact [[Hin Hp]|[Hm _]]%put_all_lookup; [|by exists d].
  apply activatedDocuments_content in Hact.
  assert (content d ∈ map content (policyDocuments m)) as Hc.
  { rewrite <- Hact. apply list_elem_of_In, in_map. by apply list_elem_of_In. }
  apply list_elem_of_In, in_map_iff in Hc as (d0 & Hc & Hd0). exists d0. split; [|done].
  apply list_elem_of_In in Hd0. unfold policyDocuments in Hd0. rewrite elem_of_sort_slice in Hd0.
  apply list_elem_of_fmap in Hd0 as ([q x] & Hx & Hq). simpl in Hx. subst x. apply elem_of_range in Hq. simpl in Hq.
  assert (q = p) as <-; [|done]. rewrite <- (Hkeys q d0 Hq), <- Hp. unfold content in Hc. congruence.
Qed.

Lemma PutDocuments_in s g documents s' :
  PutDocuments s g documents = Ok s' →
  generationsOf s (gn_BindingID g) !! gn_Number g = Some g ∧ gp_generations s' = gp_generations s ∧
  documentsIn s' (gn_BindingID g) (gn_Number g) = put_all documents (documentsIn s (gn_BindingID g) (gn_Number g)).
Proof.
  unfold PutDocuments. intros Hok. op_ok Hok. bool_prop.
  match goal with Hc : isCurrent s g = true |- _ => apply isCurrent_spec in Hc end. split; [done|].
  destruct (stageDocuments _ _ _ _ _); [done|]. injection Hok as <-. destruct documents as [|d documents]; [done|].
  split; [done|]. unfold documentsIn at 1, documentsOf, setDocuments. simpl. by rewrite lookup_insert_eq; simpl; rewrite lookup_insert_eq.
Qed.

(** C22. What is served is what Git has.  When [indexFull], the end of [Index] and
    [FullReindex], succeeds - whatever the other workers do meanwhile, as long
    as none stages documents in the very generation that is begun here - the
    binding is ready at the commit of the verified head, and a path is served
    exactly when it is the path of an application or of variables and the
    commit lists a file there; what is served has the blob that the commit
    lists and the bytes of that blob. *)
Theorem index_serves_commit i lease repository b now h w w' b' :
  bounded → history h → Z.of_nat (length h) < 2 ^ 61 → w_store w = run NewMemoryStore h →
  (∀ n g documents, begun i lease repository b now w = Some g → CallPutDocuments g documents ∉ others n) →
  indexFull i lease repository b now w = (w', Ok b') →
  let id := rl_BindingID lease in
  let head := vh_Commit (rp_Head repository) in
  gp_bindings (w_store w') !! id = Some b' ∧ bd_State b' = BindingReady ∧
  bd_TargetHeadRevision b' = head ∧ bd_IndexedRevision b' = head ∧
  ∀ p, match DocumentOf (w_store w') id p with
       | Ok d => gd_Path d = p ∧ projectedPath (rp_Binding repository) p ∧
                 listed (rp_Binding repository) head p (gd_BlobID d) ∧ cat_file (gd_BlobID d) = Ok (gd_Raw d)
       | Err _ => ∀ blobID, listed (rp_Binding repository) head p blobID → ¬ projectedPath (rp_Binding repository) p
       end.
Proof.
  intros Hbd Hh Hlen Hw Hquiet Hok id head.
  apply indexFull_ok in Hok as (w1 & startedAt & w2 & g & documents & w3 & w4 & t & Hbegun & Hw1 & Hbegin & Hread & Hput & Hw4 & Hact).
  specialize (Hquiet). set (n := Z.of_nat (length h)) in *.
  assert (projected n (w_store w1)) as Hp1 by (rewrite Hw1, Hw; by apply projected_history).
  assert (0 ≤ n) as Hn by lia.
  pose proof (meet_projected n w1 Hbd Hp1 Hn ltac:(lia)) as Hm1.
  assert (projected (n + 2 ^ 50 + 1) (w_store w2)) as Hp2 by (eapply projected_BeginGeneration; [done|lia|lia|done]).
  destruct (BeginGeneration_ok _ _ _ _ _ _ _ (2 ^ 62 + (n + 2 ^ 50)) Hbegin) as
    (b0 & generations & docs & _ & _ & _ & _ & _ & _ & Hgeq & _ & _ & _ & _ & Hs2); [by apply projected_bounds..|lia|].
  assert (gn_BindingID g = id ∧ gn_HeadRevision g = head) as [Hgid Hghead] by (rewrite Hgeq; done).
  assert (isStaging g = true) as Hgst by (rewrite Hgeq; by vm_compute).
  assert (generationsOf (w_store w2) id !! gn_Number g = Some g) as Hg2.
  { rewrite Hs2. unfold generationsOf. simpl. rewrite lookup_insert_eq. simpl. by rewrite lookup_insert_eq. }
  assert (documentsIn (w_store w2) id (gn_Number g) = ∅) as Hd2.
  { rewrite Hs2. unfold documentsIn, documentsOf. simpl. rewrite lookup_insert_eq. simpl. by rewrite lookup_insert_eq. }
  (* Until the documents are staged. *)
  destruct (Hbd (w_step w2)) as [Hwf2 Hl2].
  destruct (run_generation (n + 2 ^ 50 + 1) (w_store w2) (others (w_step w2)) id (gn_Number g) g) as (g3 & Hg3 & Hc3);
    [done|lia|lia|done|done|by intros; apply Hquiet|].
  fold (meet w2) in Hg3, Hc3.
  pose proof (meet_projected _ w2 Hbd Hp2 ltac:(lia) ltac:(lia)) as Hm2.
  assert (projected (n + 2 ^ 50 + 1 + 2 ^ 50) (w_store w3)) as Hp3 by (by eapply projected_PutDocuments).
  apply PutDocuments_in in Hput as (Hcur3 & Hgens3 & Hd3'). rewrite Hgid in Hcur3, Hd3'.
  assert (g3 = g) as -> by congruence. destruct Hc3 as [Hc3|[_ Hd3]]; [congruence|]. rewrite Hd3, Hd2 in Hd3'.
  (* Until they are activated. *)
  rewrite <- Hw4 in Hp3, Hgens3, Hd3'. destruct (Hbd (w_step w4)) as [Hwf4 Hl4].
  assert (generationsOf (w_store w4) id !! gn_Number g = Some g) as Hg4 by (unfold generationsOf in *; by rewrite Hgens3).
  destruct (run_generation _ (w_store w4) (others (w_step w4)) id (gn_Number g) g Hp3) as (g5 & Hg5 & Hc5);
    [lia|lia|done|done|by intros; apply Hquiet|]. fold (meet w4) in Hg5, Hc5.
  pose proof (meet_projected _ w4 Hbd Hp3 ltac:(lia) ltac:(lia)) as Hm4.
  apply ActivateGeneration_ok in Hact as (b1 & activated & commands & reservations & Hact). cbv zeta in Hact.
  rewrite Hgid in Hact.
  destruct Hact as (Hb1 & _ & _ & _ & Hcur5 & Htarget & _ & Hb' & Hdocs & _ & Eb & _ & Ed & _).
  assert (g5 = g) as -> by congruence. destruct Hc5 as [Hc5|[_ Hd5]]; [congruence|]. rewrite Hd3' in Hd5. rewrite Hd5 in Hdocs, Ed.
  rewrite Eb, lookup_insert_eq. subst b'. rewrite Hghead in *. split_and!; try done.
  destruct (readDocuments_ok _ _ _ _ _ Hread) as (Hr1 & Hr2 & Hr3). rewrite Hghead in Hr1, Hr2.
  assert (∀ p d, put_all documents ∅ !! p = Some d → gd_Path d = p) as Hkeys by (by intros p d [_ ?]%put_all_empty).
  pose proof (projected_binding _ _ _ _ Hm4 Hb1) as Hpj. destruct (pj_generation _ _ _ _ Hpj _ _ Hcur5) as (_ & _ & Hpos & _).
  intros p. unfold DocumentOf, lookupBinding. rewrite Eb, lookup_insert_eq. cbn [res_bind bd_ProjectionGeneration bd_set_Indexed].
  destruct (negb (gn_Number g =? 0)) eqn:E0; bool_prop; [|lia].
  unfold documentsIn at 1. unfold documentsOf at 1. rewrite Ed. unfold setDocuments. rewrite lookup_insert_eq. simpl.
  rewrite lookup_insert_eq. simpl. destruct (put_all activated (put_all documents ∅) !! p) as [d|] eqn:Ep.
  - eapply activated_content in Ep as (d0 & Hd0 & Hc); [|done|done]. apply put_all_empty in Hd0 as [Hin Hp0]; [|done].
    destruct (Hr1 d0 Hin) as (Hpp & Hcat & Hlist). unfold content in Hc. injection Hc as Hc1 Hc2 Hc3.
    rewrite Hc2, Hc3, Hc1, Hp0. rewrite Hp0 in Hpp, Hlist. done.
  - intros blobID Hlist Hpp. destruct (Hr2 blobID p Hlist Hpp) as (d & Hin & Hdp).
    assert (put_all documents ∅ !! p = Some d) as Hput by (by apply put_all_empty).
    assert (is_Some (put_all activated (put_all documents ∅) !! p)) as [? ?]; [|congruence].
    apply put_all_dom; [|by eexists]. destruct (activatedDocuments_ok _ _ _ _ _ _ Hdocs) as [_ Hpaths]. rewrite Hpaths.
    intros q Hq. by eapply policyDocuments_paths.
Qed.
End indexing.

(** * The coordinator *)

Section coordinating.
Context `{Surroundings} `{GitReader} `{MapOrder} `{Libraries} `{YAMLDecoder}.

(** Work that did not fail found the head that it verified projected. *)
Lemma reconcile_ok c work w w' rd :
  reconcile c work w = (w', Ok rd) → rd_Failure rd = None →
  ∃ n head, VerifyTargetHead n (rw_Binding work) ObservationPoll = Ok head ∧
    validHeadFor head (rw_Binding work) = true ∧ rd_LastCommit rd = vh_Commit head.
Proof.
  unfold reconcile. intros Hok Hf. apply op_bind_ok in Hok as (w1 & answer & Ha & Hok). apply ask_ok in Ha as (Ha & _ & _).
  destruct answer as [head|e].
  2: { exfalso. destruct (is_proj e ErrMissingRef); [|by injection Hok as _ <-].
       unfold missingRef in Hok. apply op_bind_ok in Hok as (? & ? & _ & Hok). apply op_bind_ok in Hok as (? & r & _ & Hok).
       injection Hok as _ <-. by destruct r. }
  destruct (negb (validHeadFor head _)) eqn:Ev; [by injection Hok as _ <-|]. apply negb_false_iff in Ev.
  exists (w_step w), head. split; [done|]. split; [done|].
  apply op_bind_ok in Hok as (w2 & recorded & _ & Hok). destruct recorded as [[b' replay]|e]; [|by injection Hok as _ <-].
  destruct (_ && _ && _); [by injection Hok as _ <-|]. unfold project in Hok.
  apply op_bind_ok in Hok as (? & ? & _ & Hok). apply op_bind_ok in Hok as (? & done' & _ & Hok).
  destruct done'; [|by injection Hok as _ <-]. apply op_bind_ok in Hok as (? & projected & _ & Hok).
  injection Hok as _ <-. destruct projected as [b|e]; [|done]. by destruct (isProjected b head).
Qed.

Lemma FinishReconciliation_ok s lease outcome now s' :
  FinishReconciliation s lease outcome now = Ok s' →
  let id := rl_BindingID lease in
  ∃ b, gp_bindings s' !! id = Some b ∧ mr_lease (reconciliationOf s' id) = None ∧
    mr_lastError (reconciliationOf s' id) = ro_FailureCode outcome ∧ pc_LastCommit (cursorOf s' id) = ro_LastCommit outcome ∧
    pc_ConsecutiveFail (cursorOf s' id) = ro_ConsecutiveFailure outcome ∧ pc_NextPollAt (cursorOf s' id) = ro_NextPollAt outcome ∧
    pc_UpdatedAt (cursorOf s' id) = now ∧ now < ro_NextPollAt outcome ∧ validOutcome outcome = true ∧
    (ro_ConsecutiveFailure outcome = 0 →
     bd_State b = BindingReady ∧ bd_TargetHeadRevision b = ro_LastCommit outcome ∧ bd_IndexedRevision b = ro_LastCommit outcome).
Proof.
  unfold FinishReconciliation. cbv zeta. intros Hok. op_ok Hok. rename x into b. apply lookupBinding_ok in Hx.
  injection Hok as <-. exists b. unfold reconciliationOf, cursorOf. simpl. rewrite !lookup_insert_eq. simpl. bool_prop.
  split_and!; try done. intros Hz.
  match goal with Hg : (ro_ConsecutiveFailure outcome =? 0) && _ = false |- _ => rewrite Hz in Hg; simpl in Hg end.
  bool_prop. by split_and!.
Qed.

End coordinating.

(** * The writer *)

Section writing.
Context `{Surroundings} `{GitWriter} `{MapOrder} `{Libraries} `{YAMLDecoder}.

Lemma classify_ok {A} (error : WorkErr → WriteErr) (m : task A) w w' a :
  classify error m w = (w', Ok a) → m w = (w', Ok a).
Proof. unfold classify. destruct (m w) as [? []]; by intros [= <- <-]. Qed.

(** The operation's command names the commit. *)
Definition durable (s : MemoryStore) (operationID revision : string) : Prop :=
  ∃ c, gp_writeCommands s !! operationID = Some c ∧ wc_State c ≠ WriteCommandPending ∧ wc_CommittedRevision c = revision.

Lemma durable_run s h operationID revision : durable s operationID revision → durable (run s h) operationID revision.
Proof.
  intros (c & Hc & Hs & Hr). destruct (run_receipts s h operationID c Hc) as (c' & Hc' & _ & Hrank & Hcom).
  destruct (Hcom Hs) as [Hrev _]. exists c'. split_and!; [done| |congruence]. intros Hp. rewrite Hp in Hrank.
  destruct (wc_State c); simpl in Hrank; [done|lia|lia].
Qed.

Lemma pushMutation_durable wr operationID b c mutation w w' revision :
  pushMutation wr operationID b c mutation w = (w', Ok revision) → durable (w_store w') operationID revision.
Proof.
  unfold pushMutation. intros Hok. op_inv.
  match goal with Hx : pending _ (store_call (λ s, FinalizeVerifiedPath s _ _ _ _ _ _ _)) _ = _ |- _ =>
    apply classify_ok, store_call_ok in Hx as [Hx _]; rename Hx into Hf end.
  match type of Hf with _ = Ok (_, ?r) => destruct r end. by eapply finalize_receipt.
Qed.

Lemma recoverCommit_durable b c mutation r head w w' revision :
  recoverCommit b c mutation r head w = (w', Ok revision) → durable (w_store w') (wc_OperationID c) revision.
Proof.
  unfold recoverCommit. intros Hok. apply op_bind_ok in Hok as (w1 & found & _ & Hok). destruct found as [rev|].
  - op_inv. match goal with Hx : pending _ (store_call (λ s, FinalizeVerifiedPath s _ _ _ _ _ _ _)) _ = _ |- _ =>
      apply classify_ok, store_call_ok in Hx as [Hx _]; rename Hx into Hf end.
    match type of Hf with _ = Ok (_, ?r) => destruct r end. by eapply finalize_receipt.
  - apply op_bind_ok in Hok as (? & ? & _ & Hok). discriminate Hok.
Qed.

Lemma prepareAndExecute_durable wr operationID b c reservation w w' revision :
  wc_OperationID c = operationID → prepareAndExecute wr operationID b c reservation w = (w', Ok revision) →
  durable (w_store w') operationID revision.
Proof.
  intros Hid Hok. unfold prepareAndExecute in Hok. op_inv. unfold executeMutation in Hok.
  destruct reservation as [r|]; [destruct (String.eqb (pr_OperationID r) operationID)|].
  - apply op_bind_ok in Hok as (? & ? & _ & Hok). destruct (String.eqb _ (pr_BaseRevision r)).
    + by eapply pushMutation_durable.
    + rewrite <- Hid. by eapply recoverCommit_durable.
  - op_inv. by eapply pushMutation_durable.
  - op_inv. by eapply pushMutation_durable.
Qed.

(** C17. A revision that is returned is recorded.  When the writer answers with a
    commit for an operation - pushed now, found in the history after a crash, or
    recorded before - the store holds the operation's command with a receipt
    that names this commit, and so it stays whatever is called later; whatever
    others did meanwhile, and whatever Git and the provider answered. *)
Theorem write_result_durable wr operationID h w w' revision :
  w_store w = run NewMemoryStore h → CommitOperation wr operationID w = (w', Ok revision) →
  ∀ h', durable (run (w_store w') h') operationID revision.
Proof.
  intros Hw Hok h'. apply durable_run. unfold CommitOperation in Hok.
  apply op_bind_ok in Hok as (w0 & ? & [_ ->]%op_guard_ok & Hok).
  apply op_bind_ok in Hok as (w1 & c & Hread & Hok). apply classify_ok, store_read_ok in Hread as (Hread & Hw1 & _).
  assert (gp_writeCommands (w_store w1) !! operationID = Some c) as Hc.
  { rewrite Hw1. unfold WriteCommandOf in Hread. destruct (gp_writeCommands (meet w) !! operationID) as [c0|]; [|done].
    destruct (gp_bindings _ !! _); [|done]. by destruct (validatePersistedWriteCommand _ _); simplify_eq. }
  assert (wc_OperationID c = operationID) as Hid.
  { rewrite Hw1 in Hc. revert Hc. unfold meet. rewrite Hw. apply run_ownKeys, run_ownKeys. intros op y. simpl. by rewrite lookup_empty. }
  destruct (negb (bool_decide (wc_State c = WriteCommandPending))) eqn:Es.
  { injection Hok as <- <-. exists c. bool_prop. by split_and!. }
  apply op_bind_ok in Hok as (w2 & ? & _ & Hok). apply op_bind_ok in Hok as (w3 & b & _ & Hok).
  apply op_bind_ok in Hok as (w4 & ? & _ & Hok). apply op_bind_ok in Hok as (w5 & found & _ & Hok).
  destruct found as [r|e].
  - destruct (_ && _).
    + op_inv. match goal with Hx : pending _ (store_call _) _ = _ |- _ =>
        apply classify_ok, store_call_ok in Hx as [Hx _]; apply mark_receipt in Hx as (? & ? & ?) end.
      eexists. by split_and!.
    + by eapply prepareAndExecute_durable.
  - destruct (is_proj e ErrNotFound); [|done]. by eapply prepareAndExecute_durable.
Qed.
End writing.
