(* ===== verification/GitProjectionExamples.v ===== *)
(** A history of the store of the Git projection, at which the theorems of
    GitProjectionFacts, GitProjectionWriteFacts, GitProjectionPaths and
    GitProjectionTags apply: an environment is bound and indexed, a second worker
    waits for the first one's lease, and a command is accepted, committed and
    indexed.  Then a world for the workers of GitProjectionWorkerFacts. *)

From Stdlib Require Import Ascii SpecFloat.
From S2P Require Import Prelude Regexp GoStrings Effects Digest JsonValues Workload WorkloadFacts AppConfig AppConfigSafety.
From S2P Require Import Variables VariableFacts GitProjection GitProjectionWrites GitProjectionStore GitProjectionFacts.
From S2P Require Import GitProjectionWriteFacts GitProjectionPaths GitProjectionWorkers GitProjectionTags GitProjectionWorkerFacts.

Open Scope Z_scope.

#[local] Existing Instance forward_order.

#[local] Instance exampleLibraries : Libraries := tableLibraries [] shopRuntime.
#[local] Instance exampleYAML : YAMLDecoder := {|
  yaml_documents raw := if String.eqb raw "values" then document (variableSet [("A", word "one")]) else [];
|}.

Definition bindingID : string := "55555555-5555-4555-8555-555555555555".
Definition projectID : string := "11111111-1111-4111-8111-111111111111".
Definition environmentID : string := "22222222-2222-4222-8222-222222222222".
Definition actorID : string := "66666666-6666-4666-8666-666666666666".
Definition operationID : string := "77777777-7777-4777-8777-777777777777".
Definition repository : RepositoryIdentity := mkRepository "github" 7 9 "octo" "configs".
Definition main : string := "refs/heads/main".

Definition sixteen (s : string) : string := s +:+ s +:+ s +:+ s +:+ s +:+ s +:+ s +:+ s +:+ s +:+ s.
Definition firstCommit : string := sixteen "aaaa".
Definition secondCommit : string := sixteen "bbbb".
Definition someBlob : string := sixteen "cccc".

Definition t0 : Time := 1000 * second.
Definition at_ (seconds : Z) : Time := t0 + seconds * second.

Definition bound : Binding :=
  match NewGitHubEnvironmentBinding bindingID projectID environmentID repository main t0 with
  | Ok b => b
  | Err _ => newBinding "" BindingPlatform "" "" "" repository "" "" CredentialGitHubApp "" 0
  end.

Definition headAt (revision : string) (source : ObservationSource) (now : Time) : VerifiedHead :=
  mkHead bindingID repository main revision source "request-1" now.

Definition leaseFrom (r : res ProjErr (MemoryStore * ReconciliationWork)) : ReconciliationLease :=
  match r with Ok (_, w) => rw_Lease w | Err _ => mkLease "" "" 0 0 0 end.
Definition generationFrom (r : res ProjErr (MemoryStore * Generation)) : Generation :=
  match r with Ok (_, g) => g | Err _ => mkGeneration "" 0 "" "" ProjectionFailed 0 None end.
Definition the {E A} (d : A) (r : res E A) : A := match r with Ok a => a | Err _ => d end.

Definition worker1 : string := "worker-one".
Definition worker2 : string := "worker-two".

(** ** The environment is bound and claimed *)

Definition opening : list Call :=
  [CallPutBinding bound; CallRecordVerifiedHead (headAt firstCommit ObservationPoll (at_ 1))].
Definition claim1 : Call := CallClaim worker1 (at_ 2) (60 * second).
Definition claimed1 : res ProjErr (MemoryStore * ReconciliationWork) := ClaimReconciliation (run NewMemoryStore opening) worker1 (at_ 2) (60 * second).
Definition lease1 : ReconciliationLease := leaseFrom claimed1.

(** The first worker stops; a second one claims what it had, once its lease is over. *)
Definition claim2 : Call := CallClaim worker2 (at_ 62) (60 * second).
Definition lost : list Call := (opening ++ [claim1; CallClaim worker2 (at_ 61) (60 * second)])%list.
Definition claimed2 := ClaimReconciliation (run NewMemoryStore lost) worker2 (at_ 62) (60 * second).
Definition lease2 : ReconciliationLease := leaseFrom claimed2.

Definition claimedLate : list Call := (lost ++ [claim2])%list.

Example claims :
  (is_ok claimed1, rl_Epoch lease1, rl_Owner lease1,
   is_ok (ClaimReconciliation (run NewMemoryStore (opening ++ [claim1])) worker2 (at_ 61) (60 * second)),
   is_ok claimed2, rl_Epoch lease2, rl_Owner lease2) = (true, 1, worker1, false, true, 2, worker2).
Proof. vm_compute. reflexivity. Qed.

(** ** Its documents are staged and activated *)

Definition begin2 : Call := CallBegin lease2 firstCommit DefaultParser (at_ 63).
Definition generation1 : Generation :=
  generationFrom (BeginGeneration (run NewMemoryStore claimedLate) lease2 firstCommit DefaultParser (at_ 63)).

Definition nothing : Document := mkDocument "" 0 "" "" "" "" "" "" "" None false [] "" "" 0.

Definition variablesDocument : Document :=
  the nothing (NewDependencyDocument bound 1 "tenants/11111111-1111-4111-8111-111111111111/variables.yaml" firstCommit
    firstCommit someBlob "values" (Some []) [] (at_ 63)).
Definition applicationDocument : Document :=
  the nothing (NewDocument bound 1 shopID firstCommit firstCommit someBlob "unreadable" None
    [mkDiagnostic "InvalidYAML" "The document is not valid YAML." ""] (at_ 63)).

Definition staged : list Call :=
  (claimedLate ++ [begin2; CallPutDocuments generation1 [variablesDocument; applicationDocument]])%list.
Definition activate1 : Call := CallActivate lease2 generation1 SchemaOnlyAppConfigPolicyValidator (at_ 64).
Definition indexed1 : list Call :=
  (staged ++ [activate1; CallFinish lease2 (mkOutcome firstCommit 0 (at_ 400) "") (at_ 65)])%list.

Definition shown (h : list Call) : option (BindingState * string * Z) :=
  match gp_bindings (run NewMemoryStore h) !! bindingID with
  | Some b => Some (bd_State b, bd_IndexedRevision b, bd_ProjectionGeneration b)
  | None => None
  end.

Definition appPath : string := applicationConfig bound shopID.

Example indexing :
  (shown staged, shown indexed1, is_ok (DocumentOf (run NewMemoryStore staged) bindingID appPath),
   is_ok (DocumentOf (run NewMemoryStore indexed1) bindingID appPath)) =
  (Some (BindingIndexing, "", 0), Some (BindingReady, firstCommit, 1), false, true).
Proof. vm_compute. reflexivity. Qed.


Lemma projection_atomic_witness :
  let s := run NewMemoryStore staged in
  DocumentOf s bindingID appPath = Err ErrNotFound ∧
  is_ok (DocumentOf (perform s activate1) bindingID appPath) = true ∧
  (servedSame s (perform s activate1) bindingID ∨
    ∃ lease g policy now b', activate1 = CallActivate lease g policy now ∧ gn_BindingID g = bindingID ∧
      activeReconciliationLocked s lease now = true ∧ rl_BindingID lease = bindingID ∧
      gp_bindings (perform s activate1) !! bindingID = Some b' ∧ bd_State b' = BindingReady ∧
      bd_TargetHeadRevision b' = gn_HeadRevision g ∧ bd_IndexedRevision b' = gn_HeadRevision g ∧
      bd_ProjectionGeneration b' = gn_Number g ∧
      ∀ p, is_ok (DocumentOf (perform s activate1) bindingID p) =
           bool_decide (is_Some (documentsIn s bindingID (gn_Number g) !! p))).
Proof.
  split; [vm_compute; reflexivity|]. split; [vm_compute; reflexivity|].
  apply (projection_atomic staged activate1). split; vm_compute; reflexivity.
Defined.

(** ** A command is accepted, committed and indexed *)

Definition otherID : string := "88888888-8888-4888-8888-888888888888".
Definition plan : WritePlan :=
  mkPlan bindingID projectID environmentID otherID firstCommit MutationCreateIfAbsent "" "0.1.0" "policy-1" "" "".
Definition boundReady : Binding :=
  match gp_bindings (run NewMemoryStore indexed1) !! bindingID with Some b => b | None => bound end.
Definition noCommand : WriteCommand :=
  mkWrite "" "" "" plan "" "" "" "" "" "" "" PublicationDirect WriteCommandPending "" None 0 None 0 0.
Definition command : WriteCommand :=
  the noCommand (NewWriteCommand operationID otherID actorID plan boundReady "content" "Create an application" (at_ 70)).

Definition otherPath : string := wc_Path command.
Definition held (owner : string) (now : Time) : PathReservation :=
  mkReservation bindingID main otherPath operationID owner firstCommit "" ReservationCandidate (Some (now + 90 * second))
    now now.

Definition accepted1 : list Call :=
  (indexed1 ++ [CallPutWriteCommand command; CallAcquirePath (held worker1 (at_ 71)) (at_ 71) (90 * second)])%list.

(** The worker pushes its commit, which the provider verifies as the head. *)
Definition verified : Call :=
  CallFinalizeVerifiedPath bindingID main otherPath operationID secondCommit (headAt secondCommit ObservationWrite (at_ 80))
    (at_ 81).
Definition committed1 : list Call := (accepted1 ++ [verified])%list.

Definition claim3 : Call := CallClaim worker2 (at_ 90) (60 * second).
Definition lease3 : ReconciliationLease :=
  leaseFrom (ClaimReconciliation (run NewMemoryStore committed1) worker2 (at_ 90) (60 * second)).
Definition begin3 : Call := CallBegin lease3 secondCommit DefaultParser (at_ 91).
Definition generation2 : Generation :=
  generationFrom (BeginGeneration (run NewMemoryStore (committed1 ++ [claim3])) lease3 secondCommit DefaultParser (at_ 91)).
Definition activate2 : Call := CallActivate lease3 generation2 SchemaOnlyAppConfigPolicyValidator (at_ 93).
Definition toActivate : list Call := (committed1 ++ [claim3; begin3])%list.

Definition commandShown (h : list Call) : option (WriteCommandState * string * Z) :=
  match gp_writeCommands (run NewMemoryStore h) !! operationID with
  | Some c => Some (wc_State c, wc_CommittedRevision c, wc_IndexedGeneration c)
  | None => None
  end.

Definition heldBy (h : list Call) : option (string * ReservationState) :=
  match gp_reservations (run NewMemoryStore h) !! reservationKey bindingID main otherPath with
  | Some r => Some (pr_Owner r, pr_State r)
  | None => None
  end.

Example writing :
  (commandShown accepted1, commandShown committed1, commandShown (toActivate ++ [activate2])) =
  (Some (WriteCommandPending, "", 0), Some (WriteCommandGitCommitted, secondCommit, 0),
   Some (WriteCommandIndexed, secondCommit, 2)) ∧
  (heldBy accepted1, heldBy committed1, heldBy (toActivate ++ [activate2])) =
  (Some (worker1, ReservationCandidate), Some (worker1, ReservationCommittedPendingIndex), None) ∧
  (shown committed1, shown (toActivate ++ [activate2])) =
  (Some (BindingIndexing, firstCommit, 1), Some (BindingReady, secondCommit, 2)).
Proof. split_and!; vm_compute; reflexivity. Qed.

Lemma write_receipt_final_witness :
  ∃ c', gp_writeCommands (run (run NewMemoryStore committed1) [claim3; begin3; activate2]) !! operationID = Some c' ∧
    wc_CommittedRevision c' = secondCommit ∧ wc_Content c' = "content".
Proof.
  assert (∃ c, gp_writeCommands (run NewMemoryStore committed1) !! operationID = Some c ∧
               wc_State c = WriteCommandGitCommitted ∧ wc_CommittedRevision c = secondCommit) as (c & Hc & Hs & Hr).
  { eexists. split; [vm_compute; reflexivity|]. split; reflexivity. }
  destruct (write_receipt_final (run NewMemoryStore committed1) [claim3; begin3; activate2] operationID c Hc)
    as (c' & Hc' & _ & _ & Hk).
  destruct Hk as [Hk _]; [by rewrite Hs|]. exists c'. split; [exact Hc'|]. split; [congruence|].
  revert Hc'. vm_compute. by intros [= <-].
Defined.


(** ** What may be written *)

Definition variablesMutation (b : Binding) : Mutation :=
  mkMutation (bd_ID b) operationID (projectVariables projectID) firstCommit MutationMatchETag
    (String "034" (contentDigest "bundle" +:+ String "034" "")) "values" "" "Change a variable" MutationUpsert MutationAuthorityVariables "" "".

Definition neighbour : Binding :=
  match NewGitHubEnvironmentBinding "99999999-9999-4999-8999-999999999999" projectID otherID repository main t0 with
  | Ok b => b
  | Err _ => bound
  end.

Example mutations :
  (validMutation (mutationOf command) boundReady, validMutation (mutationOf command) neighbour,
   validMutation (variablesMutation bound) bound, validMutation (variablesMutation neighbour) neighbour) =
  (true, false, true, true).
Proof. vm_compute. reflexivity. Qed.

Lemma mutations_confined_witness :
  writable bound (variablesMutation bound) ∧
  bd_Kind bound = bd_Kind neighbour ∧ bd_ProjectID bound = bd_ProjectID neighbour ∧
  bd_EnvironmentID bound ≠ bd_EnvironmentID neighbour.
Proof.
  destruct (mutations_confined (variablesMutation bound) bound (variablesMutation neighbour) neighbour) as [Hw Hp];
    [vm_compute; reflexivity..|].
  destruct Hp as [Hk Hp]; [reflexivity|]. split; [exact Hw|]. split; [exact Hk|].
  split; [by apply Hp|]. vm_compute. discriminate.
Defined.

(** ** A client reads a bundle and plans a change *)

Definition chart : string := "0.1.0".
Definition dependencies1 : list string :=
  match DependencyPaths bound with Ok paths => paths | Err _ => [] end.

Definition bundleAt (h : list Call) (policyVersion : string) : Bundle :=
  the (mkBundle "" "" "" "" "" "" false [] [] 0)
    (BundleOf (run NewMemoryStore h) bindingID appPath dependencies1 chart policyVersion).

#[local] Instance exampleCatalog : DeploymentCatalog := {|
  GetEnvironmentForActor _ id := Ok (id, projectID);
  GetApplicationForActor _ _ := Ok projectID;
  GetEnvironmentGitBindingForActor _ _ := Ok boundReady;
|}.

Definition plane : ControlPlane := mkControlPlane chart "policy-1".
Definition etag1 : string := gb_ETag (bundleAt indexed1 "policy-1").

Definition planned : res WorkErr WritePlan := PlanMutation plane (run NewMemoryStore accepted1) actorID environmentID shopID etag1.

Example tags :
  (is_ok planned,
   is_ok (PlanMutation plane (run NewMemoryStore accepted1) actorID environmentID shopID (gb_ETag (bundleAt indexed1 "policy-2"))),
   is_ok (PlanMutation plane (run NewMemoryStore accepted1) actorID environmentID shopID ""),
   is_ok (PlanMutation plane (run NewMemoryStore accepted1) actorID environmentID otherID "")) = (true, false, false, true).
Proof. vm_compute. reflexivity. Qed.

Lemma bundle_etag_exact_witness :
  let sn1 := snapshotOf boundReady chart "policy-1" (bundleAt indexed1 "policy-1") in
  let sn2 := snapshotOf boundReady chart "policy-2" (bundleAt accepted1 "policy-2") in
  sn1 ≠ sn2 ∧
  (gb_ETag (bundleAt indexed1 "policy-1") = gb_ETag (bundleAt accepted1 "policy-2") ↔
   sn1 = sn2 ∨ collide (etagInput sn1) (etagInput sn2)).
Proof.
  split; [vm_compute; discriminate|].
  apply (bundle_etag_exact indexed1 accepted1 bindingID appPath dependencies1 chart chart "policy-1" "policy-2"
    (bundleAt indexed1 "policy-1") (bundleAt accepted1 "policy-2") boundReady boundReady).
  - split; vm_compute; reflexivity.
  - split; vm_compute; reflexivity.
  - vm_compute. discriminate.
  - vm_compute. reflexivity.
  - vm_compute. reflexivity.
  - vm_compute. reflexivity.
  - vm_compute. reflexivity.
  - reflexivity.
  - reflexivity.
  - vm_compute. reflexivity.
  - vm_compute. reflexivity.
Defined.

Definition plan1 : WritePlan := the plan planned.

Lemma no_lost_update_witness :
  ∃ b p deps, authorizedBinding plane actorID environmentID shopID = Ok b ∧ wp_BindingID plan1 = bd_ID b ∧
    ApplicationPath b shopID = Ok p ∧ DependencyPaths b = Ok deps ∧
    match BundleOf (run NewMemoryStore accepted1) (bd_ID b) p deps chart "policy-1" with
    | Err e => e = ErrNotFound ∧ etag1 = "" ∧ wp_Precondition plan1 = MutationCreateIfAbsent
    | Ok u =>
        wp_Precondition plan1 = MutationMatchETag ∧ wp_BaseRevision plan1 = gb_IndexedRevision u ∧
        ∀ h0 chart0 policy0 u0 b0, history h0 →
          BundleOf (run NewMemoryStore h0) (bd_ID b) p deps chart0 policy0 = Ok u0 → gb_ETag u0 = etag1 →
          gp_bindings (run NewMemoryStore h0) !! bd_ID b = Some b0 → noNul policy0 → noNul (bd_ParserVersion b0) →
          ∃ b1, gp_bindings (run NewMemoryStore accepted1) !! bd_ID b = Some b1 ∧
            let read := snapshotOf b0 chart0 policy0 u0 in
            let now := snapshotOf b1 chart "policy-1" u in
            read = now ∨ collide (etagInput read) (etagInput now)
    end.
Proof.
  apply (no_lost_update plane accepted1 actorID environmentID shopID etag1 plan1).
  - split; vm_compute; reflexivity.
  - vm_compute. reflexivity.
  - assert (wp_BindingID plan1 = bindingID) as -> by (vm_compute; reflexivity).
    intros b Hb. assert (gp_bindings (run NewMemoryStore accepted1) !! bindingID = Some boundReady) as Hr
      by (vm_compute; reflexivity).
    assert (b = boundReady) as -> by exact (inj Some _ _ (eq_trans (eq_sym Hb) Hr)). vm_compute. reflexivity.
Defined.

(** ** A coordinator and a writer at work

    At their third step another worker reports that it is ready. *)

Definition reported : RuntimeWorkerObservation :=
  mkObservation worker2 (mkIdentity RuntimeContract (contentDigest "config") 7) (at_ 1) (at_ 2).

#[local] Instance exampleSurroundings : Surroundings := {|
  others n := match n with 3%nat => [CallAcquireRuntime reported (30 * second)] | _ => [] end;
  clock n := at_ (10 + Z.of_nat n);
  random _ := half;
  cancelled _ := None;
  heartbeat_failed _ := None;
  operation_id _ := Some operationID;
  VerifyTargetHead n b source :=
    Ok (mkHead (bd_ID b) (bd_Repository b) (bd_TargetRef b) firstCommit source "request-2" (at_ (10 + Z.of_nat n)));
  Prepare _ _ _ _ := None;
|}.

Definition tab : string := String "009" "".
Definition entryOf (p : string) : string := "100644 blob " +:+ someBlob +:+ tab +:+ p +:+ nul.

#[local] Instance exampleGit : GitReader := {|
  is_ancestor _ _ := true;
  ls_tree _ _ := Ok (entryOf (projectVariables projectID) +:+ entryOf appPath +:+ entryOf (bd_Prefix bound +:+ "/apps/README"));
  cat_file _ := Ok "values";
  last_change _ _ := Ok (firstCommit +:+ String "010" "");
|}.

Definition indexer : Indexer := mkIndexer SchemaOnlyAppConfigPolicyValidator 0 0 true.
Definition coordinator : Coordinator := mkCoordinator indexer worker1 0 0 0 0 0 0 0 (float_of 0).
Definition world0 : World := mkWorld (run NewMemoryStore opening) 0.
#[local] Notation reconciled1 := (ReconcileNext coordinator world0).

Definition servedAt (s : MemoryStore) (p : string) : option (string * string) :=
  match DocumentOf s bindingID p with Ok d => Some (gd_BlobID d, gd_Raw d) | Err _ => None end.

Example coordinated :
  (reconciled1.2, map (servedAt (w_store reconciled1.1)) [appPath; projectVariables projectID; bd_Prefix bound +:+ "/apps/README"],
   pc_NextPollAt (cursorOf (w_store reconciled1.1) bindingID) - pc_UpdatedAt (cursorOf (w_store reconciled1.1) bindingID)) =
  ((true, None), [Some (someBlob, "values"); Some (someBlob, "values"); None], 5 * minute).
Proof. vm_compute. reflexivity. Qed.

(** *** What is indexed is served *)

Lemma pair_snd {A B} (x : A * B) b : snd x = b → x = (fst x, b).
Proof. by intros <-; destruct x. Qed.

Definition claimedWorld : World := mkWorld (run NewMemoryStore (opening ++ [claim1])) 0.
Definition boundIndexing : Binding :=
  match gp_bindings (w_store claimedWorld) !! bindingID with Some b => b | None => bound end.
Definition prepared : PreparedRepository := mkPrepared boundIndexing (headAt firstCommit ObservationPoll (at_ 1)).
#[local] Notation indexed2 := (indexFull indexer lease1 prepared boundIndexing (at_ 9) claimedWorld).

Lemma others_bounded : bounded.
Proof. intros n. destruct n as [|[|[|[|n]]]]; split; vm_compute; reflexivity. Qed.

Lemma index_serves_commit_witness :
  let s := w_store (fst indexed2) in
  servedAt s appPath = Some (someBlob, "values") ∧
  ∀ p, match DocumentOf s bindingID p with
       | Ok d => gd_Path d = p ∧ projectedPath (rp_Binding prepared) p ∧
                 listed (rp_Binding prepared) firstCommit p (gd_BlobID d) ∧ cat_file (gd_BlobID d) = Ok (gd_Raw d)
       | Err _ => ∀ blobID, listed (rp_Binding prepared) firstCommit p blobID → ¬ projectedPath (rp_Binding prepared) p
       end.
Proof.
  split; [vm_compute; reflexivity|].
  assert (rl_BindingID lease1 = bindingID) as Hid by (vm_compute; reflexivity).
  destruct (index_serves_commit indexer lease1 prepared boundIndexing (at_ 9) (opening ++ [claim1])%list claimedWorld
    (fst indexed2) (the bound (snd indexed2))) as (_ & _ & _ & _ & Hserved).
  - exact others_bounded.
  - split; vm_compute; reflexivity.
  - vm_compute. reflexivity.
  - reflexivity.
  - intros n g documents _ Hin. destruct n as [|[|[|[|n]]]]; simpl in Hin; try by apply elem_of_nil in Hin.
    apply elem_of_cons in Hin as [[=]|Hin]. by apply elem_of_nil in Hin.
  - apply pair_snd. vm_compute. reflexivity.
  - rewrite Hid in Hserved. exact Hserved.
Defined.


(** *** What is written is recorded *)

#[local] Instance writerSurroundings : Surroundings := {|
  others n := match n with 8%nat => [CallAcquireRuntime reported (30 * second)] | _ => [] end;
  clock n := at_ (100 + Z.of_nat n);
  random _ := half;
  cancelled _ := None;
  heartbeat_failed _ := None;
  operation_id _ := Some operationID;
  VerifyTargetHead n b source :=
    Ok (mkHead (bd_ID b) (bd_Repository b) (bd_TargetRef b) (if (n <? 5)%nat then firstCommit else secondCommit) source
          "request-3" (at_ (100 + Z.of_nat n)));
  Prepare _ _ _ _ := None;
|}.

#[local] Instance exampleWriter : GitWriter := {|
  CleanupOperation _ _ _ := None;
  VerifyMutationUnchangedAt _ _ _ := None;
  VerifyMutationUnchangedSince _ _ := None;
  FindOperationCommit _ _ := Ok None;
  CommitMutation _ _ := Ok secondCommit;
|}.

Definition writer : ProjectionWriter := mkWriter worker1 0.
Definition toWrite : World := mkWorld (run NewMemoryStore (indexed1 ++ [CallPutWriteCommand command])) 0.
#[local] Notation written := (CommitOperation writer operationID toWrite).

Lemma write_result_durable_witness :
  durable (run (w_store (fst written)) [claim3]) operationID secondCommit ∧
  durable (run (w_store (fst written)) []) operationID secondCommit.
Proof.
  assert (written = (fst written, Ok secondCommit)) as Hw by (apply pair_snd; vm_compute; reflexivity).
  split; (eapply (write_result_durable writer operationID (indexed1 ++ [CallPutWriteCommand command])%list toWrite);
    [reflexivity|exact Hw]).
Defined.

(** *** A commit that is too large *)

Definition uuidOf (n : Z) : string := "00000000-0000-4000-8000-" +:+ format_int (100000000000 + n).
Definition manyPaths : list string := map (λ n, applicationConfig bound (uuidOf n)) (seqZ 0 1001).

(** The entry of a path, without the NUL that ends it. *)
Definition entryAt (p : string) : string := "100644 blob " +:+ someBlob +:+ tab +:+ p.

#[local] Instance manyGit : GitReader := {|
  is_ancestor _ _ := true;
  ls_tree _ _ := Ok (nulled (map entryAt manyPaths));
  cat_file _ := Ok "values";
  last_change _ _ := Ok firstCommit;
|}.

Definition numberOf (p : string) : option Z :=
  match split_byte "/" p with
  | [_; _; _; _; _; application; _] => digits_value 0 (trim_prefix "00000000-0000-4000-8000-" application)
  | _ => None
  end.

Lemma manyPaths_NoDup : NoDup manyPaths.
Proof.
  apply (NoDup_fmap_1 numberOf).
  assert (numberOf <$> manyPaths = (λ n, Some (100000000000 + n)) <$> seqZ 0 1001) as -> by (vm_compute; reflexivity).
  apply NoDup_fmap_2; [intros x y [= Hxy]; lia|apply NoDup_seqZ].
Qed.

(** What is asked of each path. *)
Definition readable (p : string) : bool :=
  (count_byte "000" (entryAt p) =? 0) && negb (empty (entryAt p)) &&
  bool_decide (is_Some (applicationOf bound p)) &&
  match parseEntry (entryAt p) with Ok (blobID, q) => String.eqb blobID someBlob && String.eqb q p | Err _ => false end.

Example manyPaths_readable : forallb readable manyPaths = true.
Proof. vm_compute. reflexivity. Qed.

Lemma large_commit_refused_witness :
  is_ok (snd (indexFull indexer lease1 (mkPrepared bound (headAt firstCommit ObservationPoll (at_ 1))) bound (at_ 9) claimedWorld)) = false.
Proof.
  apply (large_commit_refused indexer lease1 _ bound (at_ 9) claimedWorld manyPaths).
  - unfold manyPaths. rewrite length_map, length_seqZ. vm_compute. reflexivity.
  - exact manyPaths_NoDup.
  - intros p Hp. pose proof manyPaths_readable as Hall. rewrite forallb_forall in Hall. cbn [rp_Binding rp_Head].
    specialize (Hall p (proj1 (list_elem_of_In _ _) Hp)). unfold readable in Hall.
    apply andb_true_iff in Hall as [Hall Hparse]. apply andb_true_iff in Hall as [Hall Happ].
    apply andb_true_iff in Hall as [_ Hne]. apply bool_decide_eq_true in Happ. apply negb_true_iff in Hne.
    split; [by left|]. destruct (parseEntry (entryAt p)) as [[blobID q]|e] eqn:Ep; [|discriminate Hparse].
    apply andb_true_iff in Hparse as [_ Hq]. apply String.eqb_eq in Hq as ->. exists blobID.
    eexists _, (nulled (map entryAt manyPaths)), (entryAt p). split; [reflexivity|]. split; [reflexivity|].
    split_and!; [|exact Hne|exact Ep]. rewrite split_nulled; [apply elem_of_app; left; apply list_elem_of_In, in_map;
      by apply list_elem_of_In|]. apply Forall_forall. intros entry He. apply list_elem_of_In, in_map_iff in He as (x & <- & Hx).
    pose proof manyPaths_readable as Hx'. rewrite forallb_forall in Hx'. specialize (Hx' x Hx). unfold readable in Hx'.
    do 3 apply andb_true_iff in Hx' as [Hx' _]. by apply Z.eqb_eq in Hx'.
Defined.
