(* ===== verification/BuildPromotion.v ===== *)
(** Build promotion ([internal/buildpromotion]): what a caller may deploy of a
    build that succeeded.

    The projections of builds and the releases of the registry are catalogues
    that answer anything; the resources and the authorizer are the ones of the
    control-plane store, which may be another one at each call.  An error is the
    list of the sentinels that it wraps. *)

From Stdlib Require Import Ascii.
From S2P Require Import Prelude Regexp GoStrings Workload Access ControlModel ControlAccess ControlResources.

Open Scope Z_scope.

Inductive PromotionSentinel : Set :=
| ErrInvalid | ErrNotFound | ErrNotReady | ErrArtifactUnavailable | ErrConflict
| StoreErrNotFound | StoreErrConflict | StoreErrForbidden.

#[export] Instance PromotionSentinel_eq_dec : EqDecision PromotionSentinel.
Proof. solve_decision. Defined.

Definition PromotionErr : Type := list PromotionSentinel.
Definition wraps (e : PromotionErr) (s : PromotionSentinel) : bool := bool_decide (s ∈ e).

(** An error of the store, with what [classify] looks for in it. *)
Definition storeErr (e : StoreErr) : PromotionErr :=
  match e with
  | ControlModel.ErrNotFound => [StoreErrNotFound]
  | ErrForbidden => [StoreErrForbidden]
  | e => if wrapsConflict e then [StoreErrConflict] else []
  end.

Definition ofStore {A} (m : res StoreErr A) : res PromotionErr A :=
  match m with Ok a => Ok a | Err e => Err (storeErr e) end.

Definition classify (e : PromotionErr) : PromotionErr :=
  if wraps e ErrInvalid || wraps e ErrNotFound || wraps e ErrNotReady || wraps e ErrArtifactUnavailable || wraps e ErrConflict
  then e
  else if wraps e StoreErrNotFound then [ErrNotFound]
  else if wraps e StoreErrConflict then [ErrConflict]
  else e.

(** * Records *)

Definition labelPattern : regex :=
  RSeq (RClass (λ c, is_lower c || is_digit c))
    (ROpt (RSeq (RUpTo 61 (RClass is_dash_lower)) (RClass (λ c, is_lower c || is_digit c)))).

Definition serverRE : regex :=
  RSeq (RStar (RSeq labelPattern (RLit ".")))
    (RSeq labelPattern (ROpt (RSeq (RLit ":") (RSeq (RClass (in_range "1" "9")) (RUpTo 4 (RClass is_digit)))))).

(** [[a-z0-9]+(?:[._-][a-z0-9]+)*] *)
Definition repositoryPart : regex :=
  let word := RPlus (RClass (λ c, is_lower c || is_digit c)) in
  RSeq word (RStar (RSeq (RClass (is_one_of "._-")) word)).

Definition repositoryRE : regex := RSeq repositoryPart (RStar (RSeq (RLit "/") repositoryPart)).

Record ProjectedBuild := mkProjected {
  pj_AttemptID : string;
  pj_DefinitionID : string;
  pj_ProjectID : string;
  pj_ApplicationID : string;
  pj_Generation : Z;
  pj_CommitSHA : string;
  pj_DefinitionDigest : string;
  pj_RegistryTargetID : string;
  pj_RegistryServer : string;
  pj_Repository : string;
  pj_ImageReference : string;
  pj_ImageDigest : string;
  pj_ReleaseID : string;
  pj_CreatedAt : Time;
  pj_CompletedAt : Time;
  pj_ProjectionCompletedAt : Time;
}.

Definition validProjected (s : ProjectedBuild) : bool :=
  negb (negb (re_match uuid_re (pj_AttemptID s)) || negb (re_match uuid_re (pj_DefinitionID s)) ||
        negb (re_match uuid_re (pj_ProjectID s)) || negb (re_match uuid_re (pj_ApplicationID s)) ||
        (pj_Generation s <? 1) || negb (re_match commit_re (pj_CommitSHA s)) ||
        negb (re_match digest_re (pj_DefinitionDigest s)) || negb (re_match uuid_re (pj_RegistryTargetID s)) ||
        negb (re_match serverRE (pj_RegistryServer s)) ||
        negb (String.eqb (to_lower (pj_RegistryServer s)) (pj_RegistryServer s)) ||
        negb (re_match repositoryRE (pj_Repository s)) || negb (re_match digest_re (pj_ImageDigest s)) ||
        negb (String.eqb (pj_ReleaseID s) (pj_AttemptID s)) ||
        negb (String.eqb (pj_ImageReference s)
                (pj_RegistryServer s +:+ "/" +:+ pj_Repository s +:+ "@" +:+ pj_ImageDigest s)) ||
        is_zero_time (pj_CreatedAt s) || (pj_CompletedAt s <? pj_CreatedAt s) ||
        (pj_ProjectionCompletedAt s <? pj_CompletedAt s)).

Record PromotionRequest := mkPromotion {
  pq_ActorID : string;
  pq_AttemptID : string;
  pq_EnvironmentID : string;
}.

Definition validRequest (r : PromotionRequest) : bool :=
  negb (negb (re_match uuid_re (pq_ActorID r)) || negb (re_match uuid_re (pq_AttemptID r)) ||
        negb (re_match uuid_re (pq_EnvironmentID r))).

(** [domain.RegistryRelease] *)
Record ReleaseRow := mkReleaseRow {
  rw_ID : string;
  rw_RegistryTargetID : string;
  rw_ServiceID : string;
  rw_Repository : string;
  rw_RootDigest : string;
  rw_CreatedAt : Time;
  rw_SucceededAt : option Time;
  rw_Availability : string;
  rw_AvailabilityObservedAt : option Time;
}.

Record PromotionSource := mkPromotionSource {
  ps_Build : ProjectedBuild;
  ps_EnvironmentID : string;
  ps_Namespace : string;
  ps_Release : ReleaseRow;
}.

Definition noRelease : ReleaseRow := mkReleaseRow "" "" "" "" "" 0 None "" None.

Definition validSource (s : PromotionSource) : bool :=
  let build := ps_Build s in let release := ps_Release s in
  negb (negb (validProjected build) || negb (re_match uuid_re (ps_EnvironmentID s)) || is_empty (ps_Namespace s) ||
        negb (String.eqb (rw_ID release) (pj_ReleaseID build)) ||
        negb (String.eqb (rw_RegistryTargetID release) (pj_RegistryTargetID build)) ||
        negb (String.eqb (rw_ServiceID release) (pj_ApplicationID build)) ||
        negb (String.eqb (rw_Repository release) (pj_Repository build)) ||
        negb (String.eqb (rw_RootDigest release) (pj_ImageDigest build)) ||
        match rw_SucceededAt release with None => true | Some at_ => negb (at_ =? pj_CompletedAt build) end ||
        negb (rw_CreatedAt release =? pj_CreatedAt build) ||
        negb (String.eqb (rw_Availability release) "present") || present (rw_AvailabilityObservedAt release)).

(** * The resolver *)

Class PromotionCatalogs := {
  SuccessfulReleaseProjection : string → res PromotionErr ProjectedBuild;
  RegistryRelease : string → res PromotionErr ReleaseRow;
}.

(** The stores that the four calls find. *)
Record Stores := mkStores {
  sx_application : Store;
  sx_access : Store;
  sx_environment : Store;
  sx_promotion : Store;
}.

Definition classified {A} (m : res PromotionErr A) : res PromotionErr A :=
  match m with Ok a => Ok a | Err e => Err (classify e) end.

Section resolver.
Context `{MapOrder} `{PromotionCatalogs}.

Definition ResolveAuthorized (s : Stores) (request : PromotionRequest) : res PromotionErr PromotionSource :=
  guard! validRequest request else [ErrInvalid] in
  let* projected := classified (SuccessfulReleaseProjection (pq_AttemptID request)) in
  guard! validProjected projected && String.eqb (pj_AttemptID projected) (pq_AttemptID request) else [ErrConflict] in
  let* application := classified (ofStore (GetApplication (sx_application s) (pj_ApplicationID projected))) in
  guard! String.eqb (ap_ID application) (pj_ApplicationID projected) &&
         String.eqb (ap_ProjectID application) (pj_ProjectID projected) else [ErrConflict] in
  let* _ := ofStore (Authorize (sx_access s) (pq_ActorID request) PermissionBuildsRead
                       (target "application" (ap_ID application))) in
  let* environment := classified (ofStore (GetEnvironment (sx_environment s) (pq_EnvironmentID request))) in
  guard! String.eqb (e_ID environment) (pq_EnvironmentID request) &&
         String.eqb (e_ProjectID environment) (pj_ProjectID projected) else [ErrNotFound] in
  let* _ := ofStore (AuthorizePromotion (sx_promotion s) (pq_ActorID request) (e_ID environment) (ap_ID application)) in
  Ok (mkPromotionSource projected (e_ID environment) (e_Namespace environment) noRelease).

Definition Resolve (s : Stores) (request : PromotionRequest) : res PromotionErr PromotionSource :=
  let* source := ResolveAuthorized s request in
  match RegistryRelease (pj_ReleaseID (ps_Build source)) with
  | Err e => Err (if wraps e ErrNotFound || wraps e StoreErrNotFound then [ErrNotReady] else classify e)
  | Ok release =>
      guard! negb (String.eqb (rw_Availability release) "expired" || String.eqb (rw_Availability release) "missing")
        else [ErrArtifactUnavailable] in
      let source := mkPromotionSource (ps_Build source) (ps_EnvironmentID source) (ps_Namespace source) release in
      guard! validSource source else [ErrConflict] in
      Ok source
  end.
End resolver.

(** * What is promoted *)

Section promotion.
Context `{MapOrder} `{PromotionCatalogs}.

(** The actor may write a deployment of the application in the environment. *)
Definition mayDeploy (s : Store) (actor : string) (environmentID applicationID : string) : Prop :=
  ∃ environment application project,
    s_environments s !! environmentID = Some environment ∧ s_applications s !! applicationID = Some application ∧
    s_projects s !! e_ProjectID environment = Some project ∧ ap_ProjectID application = e_ProjectID environment ∧
    HasPermission (bindingsLocked s actor)
      (environmentTarget "deployment" (environmentID +:+ ":" +:+ applicationID) environment project (ap_ID application))
      PermissionResourcesWrite = true.

Lemma AuthorizePromotion_ok s actor environmentID applicationID :
  AuthorizePromotion s actor environmentID applicationID = Ok tt → mayDeploy s actor environmentID applicationID.
Proof.
  unfold AuthorizePromotion, mayDeploy, environmentAt, applicationAt, projectAt. intros Ha. apply guard_ok in Ha as [Hp Ha].
  destruct (s_environments s !! environmentID) as [environment|]; [|done].
  destruct (s_applications s !! applicationID) as [application|]; [|done]. cbn [default from_option id] in *.
  destruct (s_projects s !! e_ProjectID environment) as [project|] eqn:Hproject; [|done]. cbn [default from_option id] in *.
  exists environment, application, project. bool_prop. split_and!; try done.
  destruct (HasPermission _ _ PermissionResourcesWrite) eqn:Hw in Ha; [exact Hw|]. by destruct (HasPermission _ _ _) in Ha.
Qed.

Lemma classified_ok {A} (m : res PromotionErr A) a : classified m = Ok a → m = Ok a.
Proof. by destruct m. Qed.

Lemma ofStore_ok {A} (m : res StoreErr A) a : ofStore m = Ok a → m = Ok a.
Proof. destruct m; [by intros [= ->]|done]. Qed.

Lemma ResolveAuthorized_ok s request source : ResolveAuthorized s request = Ok source →
  SuccessfulReleaseProjection (pq_AttemptID request) = Ok (ps_Build source) ∧
  pj_AttemptID (ps_Build source) = pq_AttemptID request ∧ ps_EnvironmentID source = pq_EnvironmentID request ∧
  (∃ application, GetApplication (sx_application s) (pj_ApplicationID (ps_Build source)) = Ok application ∧
     ap_ProjectID application = pj_ProjectID (ps_Build source)) ∧
  (∃ environment, GetEnvironment (sx_environment s) (pq_EnvironmentID request) = Ok environment ∧
     e_ProjectID environment = pj_ProjectID (ps_Build source) ∧ e_Namespace environment = ps_Namespace source) ∧
  authorizeLocked (sx_access s) (pq_ActorID request) PermissionBuildsRead
    (target "application" (pj_ApplicationID (ps_Build source))) = Ok tt ∧
  mayDeploy (sx_promotion s) (pq_ActorID request) (pq_EnvironmentID request) (pj_ApplicationID (ps_Build source)).
Proof.
  unfold ResolveAuthorized. intros Hr. apply guard_ok in Hr as [_ Hr].
  apply res_bind_ok in Hr as (projected & Hp%classified_ok & Hr). apply guard_ok in Hr as [Hvalid Hr].
  apply res_bind_ok in Hr as (application & Ha%classified_ok%ofStore_ok & Hr). apply guard_ok in Hr as [Happ Hr].
  apply res_bind_ok in Hr as ([] & Hauth%ofStore_ok & Hr).
  apply res_bind_ok in Hr as (environment & He%classified_ok%ofStore_ok & Hr). apply guard_ok in Hr as [Henv Hr].
  apply res_bind_ok in Hr as ([] & Hpromote%ofStore_ok%AuthorizePromotion_ok & Hr). injection Hr as <-.
  cbn [ps_Build ps_EnvironmentID ps_Namespace]. bool_prop.
  match goal with Hid : ap_ID application = _, Heid : e_ID environment = _ |- _ => rewrite Hid, ?Heid in * end.
  split_and!; try done; [by exists application|by exists environment].
Qed.

Lemma validSource_spec source : validSource source = true →
  validProjected (ps_Build source) = true ∧ rw_ID (ps_Release source) = pj_ReleaseID (ps_Build source) ∧
  rw_ServiceID (ps_Release source) = pj_ApplicationID (ps_Build source) ∧
  rw_Repository (ps_Release source) = pj_Repository (ps_Build source) ∧
  rw_RootDigest (ps_Release source) = pj_ImageDigest (ps_Build source) ∧
  rw_SucceededAt (ps_Release source) = Some (pj_CompletedAt (ps_Build source)) ∧
  rw_Availability (ps_Release source) = "present".
Proof.
  unfold validSource. intros Hv. destruct (rw_SucceededAt (ps_Release source)) as [at_|].
  - bool_prop. split_and!; try done. by f_equal.
  - rewrite !orb_true_r in Hv. simpl in Hv. done.
Qed.

Lemma validProjected_image build : validProjected build = true →
  pj_ImageReference build = pj_RegistryServer build +:+ "/" +:+ pj_Repository build +:+ "@" +:+ pj_ImageDigest build ∧
  pj_ReleaseID build = pj_AttemptID build ∧ re_match digest_re (pj_ImageDigest build) = true.
Proof. unfold validProjected. intros Hv. bool_prop. by split_and!. Qed.

(** C21. A promotion is entitled and verified. Whoever resolves a build for an
    environment may read the builds of its application and may write a
    deployment of it there, the application and the environment being of the
    build's project; the build is the verified projection of the attempt that
    was asked for, and none of its coordinates come from the caller. Its image
    is the digest, in the repository on the server, that the independent release
    of that attempt has as its root, present in the registry. *)
Theorem promotion_entitled s request source : Resolve s request = Ok source →
  let build := ps_Build source in
  SuccessfulReleaseProjection (pq_AttemptID request) = Ok build ∧ pj_AttemptID build = pq_AttemptID request ∧
  (∃ application, GetApplication (sx_application s) (pj_ApplicationID build) = Ok application ∧
     ap_ProjectID application = pj_ProjectID build) ∧
  (∃ environment, GetEnvironment (sx_environment s) (pq_EnvironmentID request) = Ok environment ∧
     e_ProjectID environment = pj_ProjectID build ∧ e_Namespace environment = ps_Namespace source) ∧
  authorizeLocked (sx_access s) (pq_ActorID request) PermissionBuildsRead
    (target "application" (pj_ApplicationID build)) = Ok tt ∧
  mayDeploy (sx_promotion s) (pq_ActorID request) (pq_EnvironmentID request) (pj_ApplicationID build) ∧
  RegistryRelease (pq_AttemptID request) = Ok (ps_Release source) ∧
  pj_ImageReference build = pj_RegistryServer build +:+ "/" +:+ rw_Repository (ps_Release source) +:+ "@" +:+
    rw_RootDigest (ps_Release source) ∧
  re_match digest_re (rw_RootDigest (ps_Release source)) = true ∧ rw_Availability (ps_Release source) = "present".
Proof.
  unfold Resolve. intros Hr. apply res_bind_ok in Hr as (authorized & Ha%ResolveAuthorized_ok & Hr).
  destruct (RegistryRelease (pj_ReleaseID (ps_Build authorized))) as [release|] eqn:Hrelease; [|done].
  apply guard_ok in Hr as [_ Hr]. apply guard_ok in Hr as [Hv Hr]. injection Hr as <-. cbn [ps_Build ps_Namespace ps_Release].
  apply validSource_spec in Hv as (Hvalid & _ & _ & Hrepository & Hdigest & _ & Hpresent).
  cbn [ps_Build ps_Release] in *. apply validProjected_image in Hvalid as (Himage & Hid & Hre).
  destruct Ha as (Hp & Hattempt & _ & Happ & Henv & Hauth & Hdeploy).
  rewrite Hrepository, Hdigest. rewrite Hid, Hattempt in Hrelease. by split_and!.
Qed.

(** A caller that may not read the builds learns nothing of the environment, and
    one that may not deploy there nothing of the registry. *)
Theorem promotion_blind s s' request projected :
  sx_application s' = sx_application s → sx_access s' = sx_access s →
  SuccessfulReleaseProjection (pq_AttemptID request) = Ok projected →
  authorizeLocked (sx_access s) (pq_ActorID request) PermissionBuildsRead
    (target "application" (pj_ApplicationID projected)) ≠ Ok tt →
  Resolve s request = Resolve s' request ∧ ∃ e, Resolve s request = Err e.
Proof.
  intros Ha Hx Hp Hauth. unfold Resolve, ResolveAuthorized. rewrite Ha, Hx, Hp. cbn [classified res_bind].
  destruct (validRequest request); [|by split; [|eexists]]. destruct (validProjected projected && _); [|by split; [|eexists]].
  destruct (classified (ofStore (GetApplication _ _))) as [application|e]; [|by split; [|eexists]]. cbn [res_bind].
  destruct (String.eqb_spec (ap_ID application) (pj_ApplicationID projected)) as [->|]; [|by split; [|eexists]].
  cbn [andb]. destruct (String.eqb (ap_ProjectID application) _); [|by split; [|eexists]].
  unfold Authorize. destruct (authorizeLocked _ _ _ _) as [[]|e]; [done|]. by split; [|eexists].
Qed.
End promotion.

(** * A build that is promoted *)

From S2P Require Import AutoDeployExamples.

#[local] Existing Instance forward_order.

Definition promotedAttempt : string := drawn "d" 0.
Definition imageDigest : string := "sha256:" +:+ str_join "" (repeat "a" 64).

Definition promotedBuild : ProjectedBuild :=
  mkProjected promotedAttempt (drawn "8" 0) projectID applicationID 3 (str_join "" (repeat "f" 40))
    ("sha256:" +:+ str_join "" (repeat "b" 64)) (drawn "e" 0) "registry.example.com:5000" "team/shop/api"
    ("registry.example.com:5000/team/shop/api@" +:+ imageDigest) imageDigest promotedAttempt
    (10 * hour) (11 * hour) (12 * hour).

Definition promotedRelease (availability : string) : ReleaseRow :=
  mkReleaseRow promotedAttempt (drawn "e" 0) applicationID "team/shop/api" imageDigest (10 * hour) (Some (11 * hour))
    availability None.

Definition catalogs (release : res PromotionErr ReleaseRow) : PromotionCatalogs := {|
  SuccessfulReleaseProjection id := if String.eqb id promotedAttempt then Ok promotedBuild else Err [BuildPromotion.ErrNotFound];
  RegistryRelease _ := release;
|}.

Definition everywhere : Stores := mkStores shopStore shopStore shopStore shopStore.

Definition promotionOf (actor : string) : PromotionRequest := mkPromotion actor promotedAttempt environmentID.

Definition promote (release : res PromotionErr ReleaseRow) (actor : string) : res PromotionErr PromotionSource :=
  Resolve (H0 := catalogs release) everywhere (promotionOf actor).

Definition promoted : PromotionSource :=
  mkPromotionSource promotedBuild environmentID "kp-shop-prod" (promotedRelease "present").

(** A release that is gone, one that is not there yet, and a caller nobody
    knows. *)
Example promotions :
  (promote (Ok (promotedRelease "present")) adminID, promote (Ok (promotedRelease "expired")) adminID,
   promote (Err [StoreErrNotFound]) adminID, promote (Ok (promotedRelease "present")) (drawn "1" 5)) =
  (Ok promoted, Err [ErrArtifactUnavailable], Err [ErrNotReady], Err [StoreErrNotFound]).
Proof. vm_compute. reflexivity. Qed.

Lemma promotion_entitled_witness :
  mayDeploy (sx_promotion everywhere) (pq_ActorID (promotionOf adminID)) (pq_EnvironmentID (promotionOf adminID))
    (pj_ApplicationID (ps_Build promoted)).
Proof.
  apply (promotion_entitled (H0 := catalogs (Ok (promotedRelease "present"))) everywhere (promotionOf adminID) promoted).
  vm_compute. reflexivity.
Defined.
